(* ===== verification/_CoqProject ===== *)
-Q . S2P
Prelude.v
CString.v
General.v
UrlDecoder.v
Mime.v
Headers.v
Cookies.v
FdHash.v
Zfildes.v
Params.v
Config.v
Website.v
Connection.v
MsgSwitch.v
MsgInv.v
MsgStep.v
MsgDiscon.v
MsgStream.v
MsgFrames.v
MsgFlow.v
MsgLink.v
MsgCredit.v
Simclist.v
SimclistRep.v
SimclistSpec.v
SimclistOps.v
SimclistConcat.v
SimclistSort.v
SimclistRefine.v
SimclistDump.v
SimclistDumpSpec.v
Cli.v
Zsocket.v
ZsocketInv.v
ZsocketIO.v
Yaml.v
Zcnf.v
ZcnfState.v
ZcnfApp.v
Effect.v
Daemon.v
Proxy.v
ProxyForward.v
ProxyMix.v
ProxyInv.v
ProxySites.v
ZimrTool.v
ZimrToolSpec.v
Webapp.v
Md5.v
WebappSend.v
WebappFile.v
SimclistUse.v
Modauth.v
WebappIn.v
WebappRequest.v
Pipeline.v
WebappStream.v
WebappConfine.v
WebappAuth.v
WebappStart.v
WebappCnf.v
WebappEnd.v
WebappInv.v
WebappSafe.v
WebappReach.v
Handshake.v
Response.v
