(* ===== verification/Prelude.v ===== *)
(** * Zimr: the verification library

    Zimr is a web server of two kinds of process.  The daemon zimrd listens for clients
    and for web applications; it reads the request of a client, finds the website that
    serves it, and sends the request to the application of that website as a message of a
    message switch.  An application is a program that is linked with the library
    lib/zimr.c: it connects to the daemon, announces its websites, turns each message into
    a connection record, and answers with a page, a file, an error or a redirection.  The
    answer goes back through the switch, and the daemon writes it to the client.

    A user starts and stops applications with the command line tool zimr, which keeps a
    state file with the applications and their processes.

    This library models the C files of src/src/ as functions on explicit states and proves
    what makes them correct.  Its files follow the files of the program, from the strings up.

    ** How the model is built

    - Bytes are integers from 0 to 255 in a list, a string is the part of a memory block
      before its first zero ([cstr]).  Machine integers are [Z], and wrap where the C types
      wrap ([wrap_s32], [wrap_u32]).
    - What C leaves undefined is a value: a computation of type [res A] is [Done a] or
      [Fault f], where [f] says which rule was broken (a write behind an array, a NULL
      pointer, memory that was freed, a failed assert, ...).  A theorem that ends in [Done]
      therefore says that the code breaks none of them.
    - A static variable or a shared structure is a record that is passed along.  Pointers
      that may be stale are slots or addresses of a heap, so that their misuse is a fault.
    - The kernel, the SSL library, the YAML library, the modules that are loaded and the
      functions of an application are arguments.  Where a theorem relies on their
      behaviour, it has that behaviour as a hypothesis, and a witness with a concrete
      function that has it.

    ** The files

    - Prelude: faults, the monads, machine integers, arrays, ASCII.  CString: the functions
      of the C library that the sources call.
    - General (general.c): strings, path normalisation, hexadecimal numbers, the
      termination of processes.  UrlDecoder (urldecoder.c), Mime (mime.c), Headers
      (headers.c), Cookies (cookies.c), Params (params.c): the parts of a request and of
      an answer.  Md5 (md5.c): the digest behind the entity tags of files.
    - FdHash (fd_hash.c) and Zfildes (zfildes.c): sets of descriptors and the event loop.
    - Config (config.h): flag words.  Website (website.c): the registry of websites.
    - Connection (connection.c): a request becomes a connection record.
    - MsgSwitch, MsgInv, MsgStep, MsgDiscon, MsgStream, MsgFrames (msg_switch.c): the
      messages with their queues, the invariant, its preservation by every operation but one
      kind of disconnect, what that disconnect leads to, the byte streams, and the frames on
      the socket.  MsgFlow: what an operation does to the bytes of one
      message.  MsgLink, MsgCredit: two switches that are joined by two channels of frames,
      and the way of the bytes and of the answers between them.
    - Simclist, SimclistRep, SimclistSpec, SimclistOps, SimclistConcat, SimclistSort,
      SimclistRefine (simclist.c): the linked lists, with their nodes on a heap; the relation
      between the nodes and the elements; what each operation does to the elements; and the
      refinement of lists by every sequence of operations.  SimclistUse: the sort of
      simclist.c with the order of lib/zimr.c.  SimclistDump, SimclistDumpSpec: lists in
      files, and that a list comes back from its file.
    - Zsocket, ZsocketInv, ZsocketIO (zsocket.c): sockets, the counter of what is ready,
      and the bytes that pass.
    - Yaml, Zcnf, ZcnfState, ZcnfApp (zcnf.c): the interface of the YAML library with its
      laws and an instance of them, the configurations, and the state file of a user.
    - Effect: computations that call the outside, for the two programs; rules for total
      correctness ([ewp]), for invariants ([keeps]) and for the calls made ([emits]).
    - Daemon (daemon.c and the function main of zimrd/main.c): the lock file, the process and
      the command line of the daemon.  Proxy, ProxyForward, ProxyMix, ProxyInv,
      ProxySites (zimrd/main.c): its handlers, the way of one request, many clients at
      once, and the invariant of its connections.
    - Webapp, WebappSend, WebappFile, WebappIn, WebappRequest, WebappStream, WebappConfine
      (lib/zimr.c): the library of the applications.  WebappStart (lib/zimr.c): its modules,
      the configuration, the start and the end; WebappCnf and WebappEnd: what they do.
      WebappInv, WebappSafe, WebappReach: an invariant of the library, that its functions
      keep it, and the states that an application comes to.
      Modauth (modules/modauth.c): the module that asks for passwords; WebappAuth: the
      library with this module.
    - Cli (cli.c), ZimrTool, ZimrToolSpec (zimr/main.c, userdir.c): the table of commands,
      the tool, and the abstract registry of applications that it implements.
    - The two programs together: Pipeline, with connection.c, for a request; Response for
      an answer; Handshake for the registration of a website.

    A definition has the name of the C function that it models.  Where a function has a
    loop or a part that is worth a name, the part is a definition of its own and stands
    before it.  The daemon and the library of the applications both have a function
    [msg_event_handler], a function [cleanup_connection] and a type [conn_data_t]; their
    files tell them apart.

    ** How the parts meet

    zsocket.c and msg_switch.c are modelled down to their states.  In the models of the
    two programs, above them, a call of theirs is a value of the type [call] that the world
    answers, and a computation gives the list of the calls that it made: what a handler
    does is that list and its new state.  The other components are called as they are:
    [exread] of the daemon calls [website_find], [zimr_connection_handler] calls
    [connection_create], which calls the parsers of headers, cookies and parameters.
    Pipeline joins the two programs: a list of calls of the daemon is the text of a
    message, which the library gets in pieces that need not be the pieces that were sent.
    Response joins them the other way: what the library writes is what the daemon reads,
    cut anew.  Handshake joins the command of an application, the handler of the daemon and
    the handler of its reply.  That the switches keep the order of the bytes is the subject of
    MsgFrames, for the socket, and MsgLink, for the messages.

    ** What the theorems show

    - The way of a request.  A request that a client sends in any pieces is one message
      to the application of its website, with every byte once and in order
      ([proxy_forwards]); the application puts the message together from any pieces
      ([request_reassembled]); and what comes out is the connection record of the request
      ([connection_create_get], [request_end_to_end]).  The requests of clients that send
      at the same time are not mixed ([requests_not_mixed]).  [website_find] gives a
      website that matches and is the most specific one ([website_find_best]).
    - The way of an answer.  What [zimr_connection_send] writes is a status, headers with
      the length of the page, and the page, and the client is sent just these bytes before
      its connection is closed ([answer_end_to_end]).
    - Registration.  A website that an application switches on is registered with the
      daemon, unless there is one with its URL and address, and the application learns
      which ([website_registers]).
    - Files.  A request whose path meets the path of its website at a border of segments
      reaches only files under a public directory, by a path without steps upwards
      ([request_file_confined]; without the border it may climb); a file is sent to its end
      ([file_sent]).  The authentication module lets in exactly the users of the table that
      all websites share, which is read again from the file of a website when the time of
      that file differs ([authorize_htpasswd]); for a request that it refuses a website
      without a handler for errors, with this module as its first, opens nothing and
      answers 401 ([auth_guards_site]).
    - Safety of the library.  Whatever an application and the events do, in any order, each
      descriptor is open and has one user, a website is on a switch exactly while its status
      says so ([app_state_invariant]), and the handler of a watched file gets a connection that
      is there ([watched_file_alive]), as long as the functions of the application keep the
      invariant; those that answer with the functions of the library do ([answering_ok]).
    - Life.  A configuration whose modules are loaded makes exactly the websites that it
      names, with their settings ([cnf_load_configures]; the load of another module writes
      behind an array, [load_module_overflow]); the shutdown of the library returns, and
      leaves no connection, website or module ([zimr_shutdown_ends]), unless a website has
      a module that was unloaded ([destroy_unloaded]); a daemon keeps others away while it
      lives ([daemon_excludes]).
    - Two ends.  Between two switches, in any order of the calls of the two programs and of
      the frames, what is read from a message is the beginning of what was written to it,
      and the rest is under way ([link_transport]); no assertion fails and nothing is
      accessed out of place ([link_never_fails]), since each message waits for exactly one
      answer, that is somewhere between the ends ([link_one_credit]); and nothing gets stuck
      ([link_all_delivered]).  This holds as long as no message is closed: identifiers are
      used again after a close, and [msg_flush_after_discon] and [msg_switch_discon_crash]
      show what then goes wrong.
    - Byte streams.  What the switch and the sockets are given is what they hand on
      ([msg_write_stream], [msg_read_stream], [zs_read_stream], [zs_writer_stream]), and
      frames survive any cut at a word ([msg_switch_read_frames]).
    - States.  The flags and queues of a switch agree and its send handler finds a frame
      ([msg_switch_flow_control], [msg_switch_send_safe]) in every state without the
      disconnect of a message that has packets to read and waits to be sent; after one, the
      send handler comes to follow NULL ([msg_switch_discon_crash]); the
      counter that lets the loop sleep is exact ([zs_need_select_events]); the loop watches
      what somebody waits for ([zs_update_fd_state_spec]); the linked array of fd_hash.c is
      a set ([fd_hash_refines_list]); the linked lists of simclist.c are lists, for every
      sequence of operations on them ([list_operations_refine]), and their sort gives a
      sorted permutation ([list_sort_wp], [directory_list_sorted]); a connection of the
      daemon belongs to a website that is registered, and its buffer holds what is read
      into it ([proxy_site_alive], [proxy_state_typed]).
    - The tool.  Each command on one application is a function on the abstract registry of
      the user, and the state file is changed as this function says
      ([application_function_refines]); stopping everything follows from it
      ([state_function_stops_all]); a command line runs the longest command that it names
      ([cli_run_longest]).
    - Texts and files.  What is printed is read back, for headers, cookies, query strings,
      escapes and the state file; a list that is dumped is restored ([dump_restore]);
      [normalize_path] is the fold over the segments that its name
      promises; [md5_pieces] is the digest of RFC 1321 for every way to cut the message.
    - Faults.  Lemmas that end in [Fault] show that the code does break a rule, and on
      which input; the most important one is [msg_switch_discon_crash].  Where the sources
      do not do what they mean to, the lemma that shows it stands beside the theorems.

    ** Bounds and fuel

    Recursion follows the data where it can.  Elsewhere a loop has fuel, and running out of
    it is the fault [OutOfFuel], so that a theorem with a result also says that the fuel is
    enough.  It is always a bound that the code itself implies: the loops over a text take
    the length of the text and one more, since each round consumes a byte; a walk over a
    set of descriptors takes one round for each of the FD_SETSIZE cells and one more;
    [wait_dead] takes fourteen rounds, after which its sum of 250000s is past the limit of
    three seconds that the code sets; the writes and reads of a message take one round for
    each byte; a walk over a list takes one round for each element and one more, and the
    quicksort one level for each element.  The lists have at most 2^24 elements, the numbers
    that the single precision of their search for a position holds exactly; a lemma shows
    the position that is missed beyond.  The sizes of arrays are those of the sources.

    ** What is not modelled

    - dlog.c and trace.c: logs.  A fork is a call whose answer says in which process the
      computation goes on.
    - In zimr/main.c the statistics of a process that are read from /proc, and the options
      for debugging.
    - In lib/zimr.c the function that an application may set for the events of the library.
      What select(2) brings to the loop of zimr_start is an argument.  A loaded module is a
      record on the heap of the application, which the websites point to; what its
      functions do is an argument.
    - The functions that only allocate or free (params_create, connection_free, the frees
      of zcnf.c), and, outside simclist.c, the allocation failures: malloc gives memory.
    - In simclist.c the threads of the sort, and the ready-made comparators, meters and hash
      functions for strings and floating point numbers.  The other files use lists as
      values, with the behaviour that SimclistRefine proves of the operations; the selection sort is also in ZimrTool, on
      the arrays that the tool sorts.
    - The other modules, the Python binding and the test programs.  PAM takes or refuses a
      user as an argument says.
    - Time, random numbers and the text of dates are arguments.
*)

From Stdlib Require Import ZArith Lia Ascii String.
From stdpp Require Export base option list sets.
From stdpp Require Import strings.

Local Open Scope Z_scope.

(** ** Faults and the result monad

    A C function either produces a value or its execution goes wrong.  The
    models keep the two apart: [Done] carries the value, [Fault] says which
    way the execution left the defined behaviour of C. *)

Inductive fault : Type :=
| AssertFailed   (* an [assert] of the source is false *)
| OutOfBounds    (* an access outside the array or the malloc'ed block *)
| NullDeref      (* a NULL pointer is dereferenced *)
| UseAfterFree   (* a pointer is used after its block was freed *)
| OutOfFuel.     (* only for loops run with fuel: the bound was too small *)

#[export] Instance fault_eq_dec : EqDecision fault.
Proof. solve_decision. Defined.

Inductive res (A : Type) : Type :=
| Done (a : A)
| Fault (f : fault).
Arguments Done {A} a.
Arguments Fault {A} f.

#[export] Instance res_eq_dec {A} `{EqDecision A} : EqDecision (res A).
Proof. solve_decision. Defined.

#[export] Instance res_ret : MRet res := fun A a => Done a.
#[export] Instance res_bind : MBind res := fun A B k m =>
  match m with Done a => k a | Fault f => Fault f end.
#[export] Instance res_fmap : FMap res := fun A B f m =>
  match m with Done a => Done (f a) | Fault e => Fault e end.

(** A C [assert]. *)
Definition assert (b : bool) : res unit :=
  if b then Done tt else Fault AssertFailed.

(** Dereferencing a pointer that may be NULL. *)
Definition deref {A} (p : option A) : res A :=
  match p with Some a => Done a | None => Fault NullDeref end.

(** Indexing an array. *)
Definition at_index {A} (p : option A) : res A :=
  match p with Some a => Done a | None => Fault OutOfBounds end.

(** ** Machine integers *)

Definition wrap_u32 (z : Z) : Z := z mod 2 ^ 32.
Definition wrap_s32 (z : Z) : Z := (z + 2 ^ 31) mod 2 ^ 32 - 2 ^ 31.

(** ** Bytes *)

(** A C string is represented by its bytes without the terminator. *)
Abbreviation bytes := (list Z).

Definition chr (a : ascii) : Z := Z.of_N (N_of_ascii a).

(** [str "GET"] is the byte string of a literal. *)
Fixpoint str (s : string) : bytes :=
  match s with
  | EmptyString => []
  | String a s' => chr a :: str s'
  end.

Definition is_byte (c : Z) : Prop := 0 <= c < 256.

(** The bytes of a C string: none is the terminator. *)
Definition is_char (c : Z) : Prop := 0 < c < 256.

Definition cstring (s : bytes) : Prop := Forall is_char s.

Definition is_charb (c : Z) : bool := (0 <? c) && (c <? 256).

(** ** Tactics *)

(** Turns boolean tests of the models into propositions. *)
Ltac zbool :=
  repeat match goal with
  | H : (_ && _)%bool = true |- _ => apply andb_prop in H; destruct H
  | H : (_ || _)%bool = false |- _ => apply orb_false_iff in H; destruct H
  | H : negb _ = true |- _ => apply negb_true_iff in H
  | H : negb _ = false |- _ => apply negb_false_iff in H
  | H : (_ =? _)%Z = true |- _ => apply Z.eqb_eq in H
  | H : (_ =? _)%Z = false |- _ => apply Z.eqb_neq in H
  | H : (_ <? _)%Z = true |- _ => apply Z.ltb_lt in H
  | H : (_ <? _)%Z = false |- _ => apply Z.ltb_ge in H
  | H : (_ <=? _)%Z = true |- _ => apply Z.leb_le in H
  | H : (_ <=? _)%Z = false |- _ => apply Z.leb_gt in H
  | H : (_ =? _)%nat = true |- _ => apply Nat.eqb_eq in H
  | H : (_ =? _)%nat = false |- _ => apply Nat.eqb_neq in H
  | H : (_ <? _)%nat = true |- _ => apply Nat.ltb_lt in H
  | H : (_ <? _)%nat = false |- _ => apply Nat.ltb_ge in H
  | H : (_ <=? _)%nat = true |- _ => apply Nat.leb_le in H
  | H : (_ <=? _)%nat = false |- _ => apply Nat.leb_gt in H
  | H : bool_decide _ = true |- _ => apply bool_decide_eq_true in H
  | H : bool_decide _ = false |- _ => apply bool_decide_eq_false in H
  end.

(** Case analysis on the first boolean test of the goal. *)
Ltac case_test :=
  match goal with
  | |- context [if ?b then _ else _] => destruct b eqn:?; zbool
  end.

(** Splits a [Done] hypothesis about a sequence of binds. *)
Ltac inv_res :=
  repeat match goal with
  | H : Done _ = Done _ |- _ => injection H; clear H; intros; subst
  | H : Fault _ = Done _ |- _ => discriminate H
  | H : Done _ = Fault _ |- _ => discriminate H
  | H : mret _ = Done _ |- _ => unfold mret, res_ret in H
  | H : mbind _ ?m = Done _ |- _ =>
      destruct m eqn:?; simpl in H; [ | discriminate H ]
  | H : (if ?b then _ else _) = Done _ |- _ =>
      destruct b eqn:?; try discriminate H
  end; zbool.

(** ** Hint databases *)

Create HintDb zimr discriminated.
Create Rewrite HintDb res.
#[export] Hint Extern 2 (_ = _) => lia : zimr.
#[export] Hint Extern 2 (_ <= _) => lia : zimr.
#[export] Hint Extern 2 (_ < _) => lia : zimr.

(** ** Lemmas on the result monad *)

Lemma res_bind_Done {A B} (a : A) (k : A → res B) : (Done a ≫= k) = k a.
Proof. reflexivity. Qed.

Lemma res_bind_Fault {A B} (f : fault) (k : A → res B) :
  ((Fault f : res A) ≫= k) = Fault f.
Proof. reflexivity. Qed.

Lemma res_bind_inv {A B} (m : res A) (k : A → res B) b :
  (m ≫= k) = Done b → ∃ a, m = Done a ∧ k a = Done b.
Proof. destruct m; simpl; [eauto | discriminate]. Qed.

#[export] Hint Rewrite @res_bind_Done @res_bind_Fault : res.

Lemma at_index_Done {A} (o : option A) a : at_index o = Done a ↔ o = Some a.
Proof. destruct o; simpl; split; congruence. Qed.

(** ** Lemmas on machine integers *)

Lemma wrap_u32_small z : 0 <= z < 2 ^ 32 → wrap_u32 z = z.
Proof. apply Z.mod_small. Qed.

Lemma wrap_u32_bound z : 0 <= wrap_u32 z < 2 ^ 32.
Proof. apply Z.mod_pos_bound. lia. Qed.

Lemma wrap_s32_small z : - 2 ^ 31 <= z < 2 ^ 31 → wrap_s32 z = z.
Proof. intros ?. unfold wrap_s32. rewrite Z.mod_small by lia. lia. Qed.

Lemma wrap_s32_bound z : - 2 ^ 31 <= wrap_s32 z < 2 ^ 31.
Proof.
  unfold wrap_s32. pose proof (Z.mod_pos_bound (z + 2 ^ 31) (2 ^ 32)). lia.
Qed.

Lemma wrap_u32_add_l a b : wrap_u32 (wrap_u32 a + b) = wrap_u32 (a + b).
Proof. unfold wrap_u32. apply Zplus_mod_idemp_l. Qed.

Lemma wrap_u32_add_r a b : wrap_u32 (a + wrap_u32 b) = wrap_u32 (a + b).
Proof. unfold wrap_u32. apply Zplus_mod_idemp_r. Qed.

(** Reducing a signed product modulo [2^32] forgets its signed wrap-around. *)
Lemma wrap_u32_of_s32 a b : wrap_u32 (a + wrap_s32 b) = wrap_u32 (a + b).
Proof.
  unfold wrap_u32, wrap_s32.
  replace (a + ((b + 2 ^ 31) mod 2 ^ 32 - 2 ^ 31))
    with ((b + 2 ^ 31) mod 2 ^ 32 + (a - 2 ^ 31)) by lia.
  rewrite Zplus_mod_idemp_l. f_equal. lia.
Qed.

(** ** Lemmas on lists *)

Lemma take_add_app {A} (n m : nat) (l : list A) :
  take (n + m) l = take n l ++ take m (drop n l).
Proof.
  revert l. induction n as [|n IH]; intros [|x l]; simpl; f_equal; auto.
  by rewrite take_nil.
Qed.

Lemma drop_cons_lookup {A} (l : list A) i x :
  l !! i = Some x → drop i l = x :: drop (S i) l.
Proof.
  revert i. induction l as [|y l IH]; intros [|i] H; simplify_eq/=; auto.
Qed.

Lemma Forall_take_drop {A} (P : A → Prop) n l :
  Forall P l → Forall P (take n l) ∧ Forall P (drop n l).
Proof. intros H. split; [by apply Forall_take | by apply Forall_drop]. Qed.

Lemma take_app_le {A} (l k : list A) n :
  (n <= length l)%nat → take n (l ++ k) = take n l.
Proof. intros H. by rewrite take_app_le. Qed.

Lemma filter_all {A} (P : A → Prop) `{∀ x, Decision (P x)} l :
  Forall P l → filter P l = l.
Proof.
  induction 1 as [|x l Hx Hl IH]; [done|]. rewrite filter_cons_True by done. by f_equal.
Qed.

Lemma lookup_split {A} (l : list A) i x :
  l !! i = Some x → l = take i l ++ x :: drop (S i) l.
Proof. intros H. by rewrite take_drop_middle. Qed.

Lemma is_charb_spec c : is_charb c = true ↔ is_char c.
Proof. unfold is_charb, is_char. rewrite andb_true_iff. lia. Qed.

#[export] Instance is_char_dec c : Decision (is_char c).
Proof. unfold is_char. apply _. Defined.

#[export] Instance cstring_dec s : Decision (cstring s).
Proof. unfold cstring. apply _. Defined.

Lemma cstring_app s t : cstring (s ++ t) ↔ cstring s ∧ cstring t.
Proof. apply Forall_app. Qed.

Lemma cstring_take n s : cstring s → cstring (take n s).
Proof. apply Forall_take. Qed.

Lemma cstring_drop n s : cstring s → cstring (drop n s).
Proof. apply Forall_drop. Qed.

#[export] Hint Resolve cstring_take cstring_drop : zimr.
