(* ===== verification/CString.v ===== *)
(** The functions of the C library on which the sources rely, on byte strings:
    string searches of <string.h>, character classes of <ctype.h>, the number
    conversions of <stdlib.h> and <stdio.h>.  A pointer into a string is the
    number of bytes that precede it, a NULL result is [None]. *)

From Stdlib Require Import ZArith Lia Ascii String DecimalString DecimalZ.
From S2P Require Export Prelude.

Local Open Scope Z_scope.

(** ** Characters that the sources name *)

Definition c_tab : Z := 9.
Definition c_lf : Z := 10.
Definition c_cr : Z := 13.
Definition c_space : Z := 32.
Definition c_quote : Z := 34.
Definition c_percent : Z := 37.
Definition c_amp : Z := 38.
Definition c_star : Z := 42.
Definition c_minus : Z := 45.
Definition c_dot : Z := 46.
Definition c_slash : Z := 47.
Definition c_colon : Z := 58.
Definition c_semi : Z := 59.
Definition c_eq : Z := 61.
Definition c_tilde : Z := 126.

(** ** Memory and strings *)

(** The string that starts at a piece of memory: the bytes before the first
    terminator. *)
Fixpoint cstr (m : bytes) : bytes :=
  match m with
  | [] => []
  | c :: m' => if c =? 0 then [] else c :: cstr m'
  end.

(** [*(s + i)], for [i] at most the length: the terminator is there. *)
Definition char_at (s : bytes) (i : nat) : Z := default 0 (s !! i).

(** Writing a block into a buffer of fixed size. *)
Definition buf_write (off : nat) (seg buf : bytes) : res bytes :=
  if (off + length seg <=? length buf)%nat
  then Done (take off buf ++ seg ++ drop (off + length seg) buf)
  else Fault OutOfBounds.

(** [strcpy] of [s] into an array of [cap] bytes, kept as a string. *)
Definition strcpy_into (cap : nat) (s : bytes) : res bytes :=
  if (length s <? cap)%nat then Done s else Fault OutOfBounds.

(** ** Searches *)

Fixpoint strchr (s : bytes) (c : Z) : option nat :=
  match s with
  | [] => None
  | x :: s' => if x =? c then Some O else S <$> strchr s' c
  end.

Fixpoint strrchr (s : bytes) (c : Z) : option nat :=
  match s with
  | [] => None
  | x :: s' =>
      match strrchr s' c with
      | Some i => Some (S i)
      | None => if x =? c then Some O else None
      end
  end.

Fixpoint is_prefix (p s : bytes) : bool :=
  match p, s with
  | [], _ => true
  | _ :: _, [] => false
  | a :: p', b :: s' => (a =? b) && is_prefix p' s'
  end.

Fixpoint strstr (s p : bytes) : option nat :=
  if is_prefix p s then Some O
  else match s with [] => None | _ :: s' => S <$> strstr s' p end.

Definition strcmp_eq (s t : bytes) : bool := bool_decide (s = t).

(** [strncmp( s, t, n ) == 0]. *)
Definition strncmp_eq (s t : bytes) (n : nat) : bool :=
  bool_decide (take n s = take n t).

(** ** Character classes, in the C locale *)

Definition isupper (c : Z) : bool := (65 <=? c) && (c <=? 90).
Definition islower (c : Z) : bool := (97 <=? c) && (c <=? 122).
Definition isdigit (c : Z) : bool := (48 <=? c) && (c <=? 57).
Definition isxdigit (c : Z) : bool :=
  isdigit c || ((65 <=? c) && (c <=? 70)) || ((97 <=? c) && (c <=? 102)).
Definition isspace (c : Z) : bool := (c =? 32) || ((9 <=? c) && (c <=? 13)).

Definition toupper (c : Z) : Z := if islower c then c - 32 else c.
Definition tolower (c : Z) : Z := if isupper c then c + 32 else c.

(** ** Numbers *)

(** [sprintf( buf, "%d", z )]. *)
Definition dec_string (z : Z) : bytes := str (NilZero.string_of_int (Z.to_int z)).

(** [inet_ntoa]. *)
Definition inet_ntoa (addr : bytes) : bytes :=
  match addr with
  | [a; b; c; d] =>
      dec_string a ++ c_dot :: dec_string b ++ c_dot :: dec_string c ++ c_dot :: dec_string d
  | _ => []
  end.

(** The bytes of a [size_t], least significant first. *)
Fixpoint le_bytes (n : nat) (z : Z) : bytes :=
  match n with O => [] | S n => z mod 256 :: le_bytes n (z / 256) end.

(** The number that is stored so. *)
Definition le_value (b : bytes) : Z := foldr (λ c v, c + 256 * v) 0 b.

Fixpoint skip_spaces (s : bytes) : bytes :=
  match s with
  | c :: s' => if isspace c then skip_spaces s' else s
  | [] => []
  end.

(** The value of the longest prefix of digits and the rest of the string. *)
Fixpoint read_digits (acc : Z) (s : bytes) : Z * bytes :=
  match s with
  | c :: s' =>
      if isdigit c then read_digits (10 * acc + (c - 48)) s' else (acc, s)
  | [] => (acc, [])
  end.

Definition clamp (lo hi z : Z) : Z := Z.max lo (Z.min hi z).

(** [strtol( s, NULL, 10 )] on an LP64 machine, as the value only. *)
Definition strtol10 (s : bytes) : Z :=
  let s := skip_spaces s in
  let '(neg, s) :=
    match s with
    | 45 :: s' => (true, s')
    | 43 :: s' => (false, s')
    | _ => (false, s)
    end in
  let v := fst (read_digits 0 s) in
  clamp (- 2 ^ 63) (2 ^ 63 - 1) (if neg then - v else v).

(** glibc's [atoi] converts the result of [strtol] to [int]. *)
Definition atoi (s : bytes) : Z := wrap_s32 (strtol10 s).

(** ** Lemmas on memory and strings *)

Lemma cstr_cstring s : cstring s → cstr s = s.
Proof.
  induction 1 as [|c s Hc Hs IH]; [done | simpl].
  unfold is_char in Hc. rewrite (proj2 (Z.eqb_neq c 0)) by lia. by rewrite IH.
Qed.

Lemma cstr_app s m : cstring s → cstr (s ++ 0 :: m) = s.
Proof.
  induction 1 as [|c s Hc Hs IH]; [done | simpl].
  unfold is_char in Hc. rewrite (proj2 (Z.eqb_neq c 0)) by lia. by rewrite IH.
Qed.

Lemma cstr_take_lookup m i :
  cstring (take i m) → m !! i = Some 0 → cstr m = take i m.
Proof.
  intros Hc Hi. rewrite (lookup_split _ _ _ Hi) at 1. by apply cstr_app.
Qed.

Lemma cstr_bytes m : Forall is_byte m → cstring (cstr m).
Proof.
  induction 1 as [|c m Hc Hm IH]; simpl; [by constructor|].
  destruct (Z.eqb_spec c 0); [by constructor|].
  constructor; [unfold is_byte, is_char in *; lia | done].
Qed.

Lemma buf_write_length off seg buf buf' :
  buf_write off seg buf = Done buf' → length buf' = length buf.
Proof.
  unfold buf_write. case_test; intros; inv_res.
  rewrite !length_app, length_take, length_drop. lia.
Qed.

Lemma buf_write_take off seg buf buf' :
  buf_write off seg buf = Done buf' →
  take (off + length seg) buf' = take off buf ++ seg.
Proof.
  unfold buf_write. case_test; intros; inv_res.
  rewrite app_assoc. apply take_app_length'.
  rewrite length_app, length_take. lia.
Qed.

Lemma buf_write_take_lt off n seg buf buf' :
  buf_write off seg buf = Done buf' → (n <= off)%nat →
  take n buf' = take n buf.
Proof.
  unfold buf_write. case_test; intros; inv_res.
  rewrite take_app_le by (rewrite length_take; lia).
  rewrite take_take. f_equal. lia.
Qed.

Lemma buf_write_Done off seg buf :
  (off + length seg <= length buf)%nat →
  ∃ buf', buf_write off seg buf = Done buf'.
Proof. intros H. unfold buf_write. case_test; [eauto | lia]. Qed.

Lemma buf_write_lookup off c buf buf' :
  buf_write off [c] buf = Done buf' → buf' !! off = Some c.
Proof.
  unfold buf_write. simpl. case_test; intros; inv_res.
  rewrite lookup_app_r by (rewrite length_take; lia).
  rewrite length_take. replace (off - _)%nat with O by lia. done.
Qed.

Lemma strcmp_eq_refl s : strcmp_eq s s = true.
Proof. by apply bool_decide_eq_true. Qed.

Lemma strcmp_eq_ne s t : s ≠ t → strcmp_eq s t = false.
Proof. intros. by apply bool_decide_eq_false. Qed.

(** ** Numbers in memory *)

Lemma le_value_bytes n z : 0 <= z < 2 ^ (8 * Z.of_nat n) → le_value (le_bytes n z) = z.
Proof.
  revert z. induction n as [|n IH]; intros z Hz.
  - cbn. change (2 ^ (8 * Z.of_nat 0)) with 1 in Hz. lia.
  - cbn [le_bytes]. change (le_value (?x :: ?l)) with (x + 256 * le_value l). rewrite IH.
    + pose proof (Z.div_mod z 256). lia.
    + rewrite Nat2Z.inj_succ in Hz. replace (8 * Z.succ (Z.of_nat n)) with (8 * Z.of_nat n + 8) in Hz by lia.
      rewrite Z.pow_add_r in Hz by lia. change (2 ^ 8) with 256 in Hz. split; [apply Z.div_pos; lia|].
      apply Z.div_lt_upper_bound; lia.
Qed.

Lemma le_bytes_length n z : length (le_bytes n z) = n.
Proof. revert z. induction n as [|n IH]; intros z; [done|]. cbn [le_bytes length]. by rewrite IH. Qed.


Lemma le_bytes_are_bytes n z : Forall is_byte (le_bytes n z).
Proof.
  revert z. induction n as [|n IH]; intros z; constructor; [|apply IH]. apply Z.mod_pos_bound. lia.
Qed.

Lemma le_value_bound b : Forall is_byte b → 0 <= le_value b < 2 ^ (8 * Z.of_nat (length b)).
Proof.
  induction 1 as [|c b Hc _ IH]; [done|]. cbn [length].
  change (le_value (c :: b)) with (c + 256 * le_value b). unfold is_byte in Hc.
  rewrite Nat2Z.inj_succ. replace (8 * Z.succ (Z.of_nat (length b))) with (8 * Z.of_nat (length b) + 8) by lia.
  rewrite Z.pow_add_r by lia. change (2 ^ 8) with 256. lia.
Qed.

Lemma le_bytes_value b : Forall is_byte b → le_bytes (length b) (le_value b) = b.
Proof.
  induction 1 as [|c b Hc _ IH]; [done|]. cbn [length le_bytes].
  change (le_value (c :: b)) with (c + 256 * le_value b). unfold is_byte in Hc.
  rewrite (Z.mul_comm 256), Z.mod_add, Z.div_add by lia. rewrite Z.mod_small, Z.div_small by lia.
  by rewrite Z.add_0_l, IH.
Qed.

(** ** Lemmas on searches *)

Lemma strchr_Some s c i :
  strchr s c = Some i ↔ s !! i = Some c ∧ c ∉ take i s.
Proof.
  revert i. induction s as [|x s IH]; intros i; simpl.
  - split; [done | intros [H _]; by rewrite lookup_nil in H].
  - destruct (Z.eqb_spec x c) as [->|Hne].
    + split.
      * intros [= <-]. split; [done | apply not_elem_of_nil].
      * intros [Hi Hn]. destruct i as [|i]; [done|].
        exfalso. apply Hn. simpl. apply elem_of_cons. by left.
    + rewrite fmap_Some. split.
      * intros (j & Hj & ->). apply IH in Hj as [Hj Hn].
        split; [done | simpl; rewrite not_elem_of_cons; auto].
      * intros [Hi Hn]. destruct i as [|i]; simpl in Hi; [congruence|].
        exists i. split; [|done]. apply IH.
        simpl in Hn. rewrite not_elem_of_cons in Hn. tauto.
Qed.

Lemma strchr_None s c : strchr s c = None ↔ c ∉ s.
Proof.
  induction s as [|x s IH]; simpl; [split; [intros _; apply not_elem_of_nil | done]|].
  rewrite not_elem_of_cons. destruct (Z.eqb_spec x c) as [->|Hne].
  - split; [done | tauto].
  - rewrite fmap_None, IH. intuition congruence.
Qed.

Lemma strchr_app s c t : c ∉ s → strchr (s ++ c :: t) c = Some (length s).
Proof.
  intros H. apply strchr_Some. split; [by rewrite list_lookup_middle|].
  by rewrite take_app_length.
Qed.

Lemma strchr_lt s c i : strchr s c = Some i → (i < length s)%nat.
Proof. intros [H _]%strchr_Some. by eapply lookup_lt_Some. Qed.

Lemma strrchr_Some s c i :
  strrchr s c = Some i ↔ s !! i = Some c ∧ c ∉ drop (S i) s.
Proof.
  revert i. induction s as [|x s IH]; intros i; simpl.
  - split; [done | intros [H _]; by rewrite lookup_nil in H].
  - destruct (strrchr s c) as [j|] eqn:E.
    + destruct (proj1 (IH j) eq_refl) as [Hj Hn]. split.
      * intros [= <-]. by split.
      * intros [Hi Hn']. destruct i as [|i].
        -- exfalso. apply Hn'. rewrite drop_0. apply list_elem_of_lookup. eauto.
        -- f_equal. f_equal.
           assert (Some j = Some i) as [= ->]; [|done].
           apply IH. by split.
    + assert (c ∉ s) as Hs.
      { intros Hin. apply list_elem_of_lookup in Hin as [k Hk].
        assert (∃ k, s !! k = Some c ∧ c ∉ drop (S k) s) as (k' & Hk').
        { clear -Hk. revert k Hk. induction s as [|y s IHs]; intros k Hk; [by rewrite lookup_nil in Hk|].
          destruct (decide (c ∈ s)) as [Hin|Hin].
          - apply list_elem_of_lookup in Hin as [k1 Hk1].
            destruct (IHs _ Hk1) as (k2 & ? & ?). by exists (S k2).
          - exists O. destruct k as [|k]; simpl in Hk; [done|].
            exfalso. apply Hin. apply list_elem_of_lookup. eauto. }
        apply IH in Hk'. done. }
      destruct (Z.eqb_spec x c) as [->|Hne].
      * split; [intros [= <-]; by rewrite drop_0 |].
        intros [Hi _]. destruct i as [|i]; [done|].
        exfalso. apply Hs. apply list_elem_of_lookup. eauto.
      * split; [done | intros [Hi _]]. destruct i as [|i]; simpl in Hi; [congruence|].
        exfalso. apply Hs. apply list_elem_of_lookup. eauto.
Qed.

Lemma strrchr_None s c : strrchr s c = None ↔ c ∉ s.
Proof.
  induction s as [|x s IH]; simpl; [split; [intros _; apply not_elem_of_nil | done]|].
  rewrite not_elem_of_cons. destruct (strrchr s c) as [j|].
  - split; [done|]. intros [_ H]. by apply IH in H.
  - destruct (Z.eqb_spec x c) as [->|Hne]; [split; [done | tauto] |].
    split; [|done]. intros _. split; [congruence | by apply IH].
Qed.

Lemma is_prefix_spec p s : is_prefix p s = true ↔ p `prefix_of` s.
Proof.
  revert s. induction p as [|a p IH]; intros s; simpl.
  - split; [intros _; apply prefix_nil | done].
  - destruct s as [|b s]; [split; [done | intros H; by apply prefix_nil_not in H]|].
    rewrite andb_true_iff, Z.eqb_eq, IH. split.
    + intros [-> H]. by apply prefix_cons.
    + intros H. split; [by eapply prefix_cons_inv_1 | by eapply prefix_cons_inv_2].
Qed.

Lemma is_prefix_take p s : is_prefix p s = true ↔ take (length p) s = p.
Proof.
  rewrite is_prefix_spec. split.
  - intros [k ->]. by rewrite take_app_length.
  - intros <-. apply prefix_take.
Qed.

Lemma is_prefix_app p s : is_prefix p (p ++ s) = true.
Proof. apply is_prefix_spec. by exists s. Qed.

Lemma strstr_unfold s p :
  strstr s p = if is_prefix p s then Some O
               else match s with [] => None | _ :: s' => S <$> strstr s' p end.
Proof. by destruct s. Qed.

Lemma strstr_Some s p i :
  strstr s p = Some i ↔
  (i <= length s)%nat ∧ p `prefix_of` drop i s ∧
  ∀ j, (j < i)%nat → ¬ p `prefix_of` drop j s.
Proof.
  revert i. induction s as [|x s IH]; intros i; rewrite strstr_unfold.
  - destruct (is_prefix p []) eqn:E.
    + apply is_prefix_spec in E. split.
      * intros [= <-]. split; [done|]. split; [done | lia].
      * intros (H & _ & _). simpl in H. f_equal. lia.
    + split; [done | intros (H & Hp & _)]. exfalso.
      rewrite drop_nil in Hp. apply is_prefix_spec in Hp. congruence.
  - destruct (is_prefix p (x :: s)) eqn:E.
    + apply is_prefix_spec in E. split.
      * intros [= <-]. split; [lia|]. split; [done | lia].
      * intros (_ & _ & Hj). destruct i as [|i]; [done|].
        exfalso. apply (Hj O); [lia | done].
    + rewrite fmap_Some. split.
      * intros (j & Hj & ->). apply IH in Hj as (Hl & Hp & Hf).
        split; [simpl; lia|]. split; [done|].
        intros [|k] Hk; [|apply Hf; lia].
        simpl. intros H. apply is_prefix_spec in H. congruence.
      * intros (Hl & Hp & Hf). destruct i as [|i].
        { exfalso. rewrite drop_0 in Hp. apply is_prefix_spec in Hp. congruence. }
        exists i. split; [|done]. apply IH.
        split; [simpl in Hl; lia|]. split; [done|].
        intros j Hj. apply (Hf (S j)). lia.
Qed.

Lemma strstr_None s p :
  strstr s p = None ↔ ∀ j, (j <= length s)%nat → ¬ p `prefix_of` drop j s.
Proof.
  split.
  - intros H j Hj Hp.
    revert j Hj Hp. induction s as [|x s IH]; intros j Hj Hp; rewrite strstr_unfold in H.
    + rewrite drop_nil in Hp. apply is_prefix_spec in Hp. by rewrite Hp in H.
    + destruct (is_prefix p (x :: s)) eqn:E; [done|].
      apply fmap_None in H. destruct j as [|j].
      * rewrite drop_0 in Hp. apply is_prefix_spec in Hp. congruence.
      * apply (IH H j); [simpl in Hj; lia | done].
  - intros H. destruct (strstr s p) as [i|] eqn:E; [|done].
    apply strstr_Some in E as (? & ? & _). exfalso. by eapply H.
Qed.

(** The search of a one-byte string is [strchr]. *)
Lemma strstr_single s c : strstr s [c] = strchr s c.
Proof.
  induction s as [|x s IH]; [done|]. simpl. rewrite IH.
  rewrite andb_true_r, (Z.eqb_sym c x). done.
Qed.

(** A separator is found at the end of a text that does not contain its first
    byte. *)
Lemma strstr_sep s c p t :
  c ∉ s → strstr (s ++ (c :: p) ++ t) (c :: p) = Some (length s).
Proof.
  intros Hc. apply strstr_Some. split; [rewrite !length_app; lia|]. split.
  - rewrite drop_app_length. by exists t.
  - intros j Hj [k Hk]. apply Hc.
    rewrite drop_app_le in Hk by lia.
    destruct (lookup_lt_is_Some_2 s j Hj) as [y Hy].
    rewrite (drop_cons_lookup _ _ _ Hy) in Hk. simpl in Hk.
    injection Hk as <- _. apply list_elem_of_lookup. eauto.
Qed.

(** ** Lemmas on character classes *)

Lemma tolower_idem c : tolower (tolower c) = tolower c.
Proof.
  unfold tolower. destruct (isupper c) eqn:E; [|by rewrite E].
  unfold isupper in *. zbool.
  rewrite (proj2 (Z.leb_gt (c + 32) 90)) by lia. by rewrite andb_false_r.
Qed.

Lemma toupper_idem c : toupper (toupper c) = toupper c.
Proof.
  unfold toupper. destruct (islower c) eqn:E; [|by rewrite E].
  unfold islower in *. zbool.
  by rewrite (proj2 (Z.leb_gt 97 (c - 32))) by lia.
Qed.

Lemma tolower_toupper c : tolower (toupper c) = tolower c.
Proof.
  unfold tolower, toupper, isupper, islower.
  repeat case_test; zbool; try lia.
  all: exfalso; repeat match goal with
    | H : (_ && _)%bool = false |- _ => apply andb_false_iff in H; destruct H; zbool
    end; lia.
Qed.

Lemma is_char_tolower c : is_char c → is_char (tolower c).
Proof. unfold is_char, tolower, isupper. intros. case_test; zbool; lia. Qed.

Lemma is_char_toupper c : is_char c → is_char (toupper c).
Proof. unfold is_char, toupper, islower. intros. case_test; zbool; lia. Qed.

Lemma cstring_tolower s : cstring s → cstring (tolower <$> s).
Proof. intros H. apply Forall_fmap. eapply Forall_impl; [apply H|]. apply is_char_tolower. Qed.

#[export] Hint Resolve is_char_tolower is_char_toupper cstring_tolower : zimr.

(** ** Numbers that are printed and read back *)

Lemma read_digits_uint u p :
  read_digits (Zpos p) (str (NilEmpty.string_of_uint u)) = (Zpos (Pos.of_uint_acc u p), []).
Proof.
  revert p. induction u; intros p; [done|..]; cbn [NilEmpty.string_of_uint str Pos.of_uint_acc];
    match goal with |- context [chr ?a] => let c := eval vm_compute in (chr a) in change (chr a) with c end;
    cbn [read_digits isdigit andb Z.leb Z.compare Pos.compare Pos.compare_cont];
    rewrite <- IHu; f_equal; lia.
Qed.

Lemma read_digits_uint0 u :
  read_digits 0 (str (NilEmpty.string_of_uint u)) = (Z.of_N (Pos.of_uint u), []).
Proof.
  induction u; [done|..]; cbn [NilEmpty.string_of_uint str Pos.of_uint];
    match goal with |- context [chr ?a] => let c := eval vm_compute in (chr a) in change (chr a) with c end;
    cbn [read_digits isdigit andb Z.leb Z.compare Pos.compare Pos.compare_cont].
  1: exact IHu.
  all: match goal with |- read_digits ?a _ = _ => let c := eval vm_compute in a in change a with c end;
    apply read_digits_uint.
Qed.

(** [isdigit] characters only. *)
Lemma uint_digits u : Forall (λ c, 48 <= c <= 57) (str (NilEmpty.string_of_uint u)).
Proof. induction u; simpl; constructor; try done; unfold chr; simpl; lia. Qed.

Lemma nz_uint u : ∃ v, NilZero.string_of_uint u = NilEmpty.string_of_uint v ∧ v ≠ Decimal.Nil ∧
  Pos.of_uint v = Pos.of_uint u.
Proof.
  destruct u; [exists (Decimal.D0 Decimal.Nil); by split_and!|..]; eexists; (split; [reflexivity|]); done.
Qed.

Lemma strtol10_digits v :
  v ≠ Decimal.Nil → Z.of_N (Pos.of_uint v) < 2 ^ 63 →
  strtol10 (str (NilEmpty.string_of_uint v)) = Z.of_N (Pos.of_uint v).
Proof.
  intros Hv Hb. unfold strtol10.
  assert (skip_spaces (str (NilEmpty.string_of_uint v)) = str (NilEmpty.string_of_uint v)) as ->
    by (by destruct v).
  assert ((let '(neg, s) := match str (NilEmpty.string_of_uint v) with
    | 45 :: s' => (true, s') | 43 :: s' => (false, s') | _ => (false, str (NilEmpty.string_of_uint v)) end in
    (neg, s)) = (false, str (NilEmpty.string_of_uint v))) as E by (by destruct v).
  destruct (match str _ with 45 :: s' => _ | _ => _ end) as [neg s]. injection E as -> ->.
  rewrite read_digits_uint0. cbn [fst]. unfold clamp. lia.
Qed.

Lemma strtol10_minus v :
  v ≠ Decimal.Nil → Z.of_N (Pos.of_uint v) < 2 ^ 63 →
  strtol10 (45 :: str (NilEmpty.string_of_uint v)) = - Z.of_N (Pos.of_uint v).
Proof.
  intros Hv Hb. unfold strtol10.
  change (skip_spaces (45 :: ?s)) with (45 :: s). cbv iota beta.
  rewrite read_digits_uint0. cbn [fst]. unfold clamp. lia.
Qed.

(** Printing a number and reading it back. *)
Lemma atoi_dec_string z : - 2 ^ 31 <= z < 2 ^ 31 → atoi (dec_string z) = z.
Proof.
  intros Hz. unfold atoi, dec_string. pose proof (DecimalZ.of_to z) as Hof.
  destruct (Z.to_int z) as [u|u]; cbn [NilZero.string_of_int str];
    destruct (nz_uint u) as (v & -> & Hv & Hvu); unfold Z.of_int, Z.of_uint in Hof; rewrite <- Hvu in Hof.
  - rewrite strtol10_digits by (done || lia). rewrite Hof. by apply wrap_s32_small.
  - change (chr "-") with 45. rewrite strtol10_minus by (done || lia). rewrite Hof. by apply wrap_s32_small.
Qed.

Lemma dec_string_chars z : Forall (λ c, c = 45 ∨ 48 <= c <= 57) (dec_string z).
Proof.
  unfold dec_string.
  assert (∀ u, Forall (λ c, c = 45 ∨ 48 <= c <= 57) (str (NilZero.string_of_uint u))) as H.
  { intros u. destruct (nz_uint u) as (v & -> & _). eapply Forall_impl; [apply uint_digits|]. auto. }
  destruct (Z.to_int z); [apply H|]. cbn [NilZero.string_of_int str]. constructor; [by left|]. apply H.
Qed.
