(* ===== verification/General.v ===== *)
(** general.c: the string helpers that the rest of the program calls, the
    normalisation of paths, the hexadecimal conversion of the URL decoder and
    the termination of processes.  [normalize_path] is modelled on its buffer
    and its index array; [norm_ref] is what it computes on the list of the path's
    segments. *)

From Stdlib Require Import ZArith Lia Ascii String.
From S2P Require Export CString.

Local Open Scope Z_scope.

(** ** Plain string helpers *)

(** A [char] read as the signed integer it is on the target. *)
Definition schar (c : Z) : Z := if c <? 128 then c else c - 256.

Definition url2int (url : bytes) : Z :=
  foldl (fun h c => wrap_s32 (wrap_s32 (31 * h) + schar c)) 0 url.

Fixpoint startswith (s1 s2 : bytes) : bool :=
  match s2 with
  | [] => true
  | c2 :: s2' =>
      match s1 with
      | [] => false
      | c1 :: s1' => if c1 =? c2 then startswith s1' s2' else false
      end
  end.

Fixpoint strnstr (s find : bytes) (slen : Z) : option nat :=
  if slen <? Z.of_nat (length find) then None
  else match s with
       | [] => None
       | _ :: s' =>
           if strncmp_eq s find (length find) then Some O
           else S <$> strnstr s' find (slen - 1)
       end.

Definition strtolower (s : bytes) : bytes := tolower <$> s.

Fixpoint chomp (s : bytes) : bytes :=
  match s with
  | [] => []
  | c :: s' => if (c =? c_lf) || (c =? c_cr) then [] else c :: chomp s'
  end.

(** ** expand_tilde: the buffer has [size] bytes *)

Definition expand_tilde_with (path : bytes) (size : nat) (home : bytes)
  : res (option bytes) :=
  match path with
  | 126 :: rest =>
      if (size <? length home + length rest)%nat then Done None
      else Some <$> strcpy_into size (home ++ rest)
  | _ =>
      if (size <? length path)%nat then Done None
      else Some <$> strcpy_into size path
  end.

(** [getpwuid] is the parameter: the home directory of the user, if any. *)
Definition expand_tilde (getpwuid : Z → option bytes) (path : bytes) (size : nat)
  (uid : Z) : res (option bytes) :=
  match path with
  | 126 :: rest =>
      home ← deref (getpwuid uid);
      if (size <? length home + length rest)%nat then Done None
      else Some <$> strcpy_into size (home ++ rest)
  | _ =>
      if (size <? length path)%nat then Done None
      else Some <$> strcpy_into size path
  end.

(** ** Hexadecimal *)

Definition xdigit_value (c : Z) : Z :=
  if 97 <=? c then c - 97 + 10 else if 65 <=? c then c - 65 + 10 else c - 48.

(** The loop runs from the last character; it returns the code and [*result]. *)
Fixpoint xtoi_loop (rev_xs : bytes) (result fact : Z) : Z * Z :=
  match rev_xs with
  | [] => (1, result)
  | c :: rest =>
      if isxdigit c then
        xtoi_loop rest (wrap_u32 (result + wrap_s32 (xdigit_value c * fact)))
                  (wrap_s32 (fact * 16))
      else (4, result)
  end.

(** The code and the new value of [*result], which some paths leave alone. *)
Definition xtoi (xs : bytes) (result : Z) : Z * Z :=
  if (0 <? length xs)%nat then
    if (8 <? length xs)%nat then (2, result)
    else xtoi_loop (reverse xs) 0 1
  else (1, result).

(** ** normalize_path *)

Definition MAX_PATH_INDECIES : nat := 100.

Record np_state := NpState {
  np_buf : bytes;        (* normpath *)
  np_idx : list nat;     (* pathindcies *)
  np_i : nat             (* i *)
}.

(** [pathindcies[ j ]]. *)
Definition idx_get (idx : list nat) (j : nat) : res nat := at_index (idx !! j).

Definition idx_set (idx : list nat) (j v : nat) : res (list nat) :=
  if (j <? length idx)%nat then Done (<[j := v]> idx) else Fault OutOfBounds.

(** One round of the loop on the rest of the path: the new state and the
    pointer where the next round starts, or [None] on [break].  C leaves open whether
    [pathindcies[ ++i ] = pathindcies[ i-1 ] + ...] reads [i] before or after it is
    increased; here it is after, which makes the entry the end of the segment. *)
Definition normalize_step (st : np_state) (path : bytes)
  : res (np_state * option bytes) :=
  let n := default (length path) (strchr path c_slash) in
  let name := take n path in
  let '(i, is_part) :=
    if strcmp_eq name (str ".") then (np_i st, false)
    else if strcmp_eq name (str "..") then (Nat.pred (np_i st), false)
    else if (n =? 0)%nat && negb (np_i st =? 0)%nat then (np_i st, false)
    else (np_i st, true) in
  let n := if char_at path n =? c_slash then S n else n in
  at_i ← idx_get (np_idx st) i;
  st ← (if is_part then
          buf ← buf_write at_i (take n path) (np_buf st);
          idx ← idx_set (np_idx st) (S i) (at_i + n)%nat;
          Done (NpState buf idx (S i))
        else Done (NpState (np_buf st) (np_idx st) i));
  end_i ← idx_get (np_idx st) (np_i st);
  buf ← buf_write end_i [0] (np_buf st);
  let st := NpState buf (np_idx st) (np_i st) in
  if (char_at path n =? 0) || (np_i st =? MAX_PATH_INDECIES)%nat
  then Done (st, None)
  else Done (st, Some (drop n path)).

Fixpoint normalize_loop (fuel : nat) (st : np_state) (path : bytes) : res np_state :=
  match fuel with
  | O => Fault OutOfFuel
  | S fuel =>
      r ← normalize_step st path;
      match r with
      | (st, None) => Done st
      | (st, Some path) => normalize_loop fuel st path
      end
  end.

(** The buffer after the call.  Every round but the last moves the pointer, so
    the length of the path bounds the rounds. *)
Definition normalize_path (normpath path : bytes) : res bytes :=
  buf ← buf_write 0 [0] normpath;
  np_buf <$> normalize_loop (S (length path))
               (NpState buf (replicate MAX_PATH_INDECIES O) O) path.

(** *** What it computes: on the list of segments *)

(** The segments of a path; each but the last ends in a slash. *)
Fixpoint segments (path : bytes) : list bytes :=
  match path with
  | [] => []
  | c :: p =>
      if c =? c_slash then [c] :: segments p
      else match segments p with
           | [] => [[c]]
           | h :: t => (c :: h) :: t
           end
  end.

Definition path_parts (path : bytes) : list bytes :=
  match path with [] => [[]] | _ => segments path end.

Definition is_dot (seg : bytes) : bool :=
  strcmp_eq seg (str ".") || strcmp_eq seg (str "./").
Definition is_dotdot (seg : bytes) : bool :=
  strcmp_eq seg (str "..") || strcmp_eq seg (str "../").
Definition is_empty_seg (seg : bytes) : bool :=
  strcmp_eq seg [] || strcmp_eq seg (str "/").

(** What one segment of the input does to the segments kept so far. *)
Definition norm_push (segs : list bytes) (seg : bytes) : list bytes :=
  if is_dot seg then segs
  else if is_dotdot seg then take (pred (length segs)) segs
  else if is_empty_seg seg && negb (bool_decide (segs = [])) then segs
  else segs ++ [seg].

Definition norm_ref (path : bytes) : bytes :=
  concat (foldl norm_push [] (path_parts path)).

(** The same fold with the capacity of the index array: it holds the start of
    every segment and the end of the last one. *)
Fixpoint norm_run (segs parts : list bytes) : option (list bytes) :=
  match parts with
  | [] => Some segs
  | seg :: parts =>
      let segs := norm_push segs seg in
      if (length segs <? MAX_PATH_INDECIES)%nat then norm_run segs parts else None
  end.

(** The length of the first segment, as the loop computes it. *)
Definition first_len (path : bytes) : nat :=
  let n := default (length path) (strchr path c_slash) in
  if char_at path n =? c_slash then S n else n.

(** ** stopproc and killproc *)

Definition EBUSY : Z := 16.
Definition ESRCH : Z := 3.

(** [probe k] is the answer of the [k]-th [kill( pid, 0 )]: [None] when it is
    not -1, else the error number.  The loop returns the number of probes made
    and the sleeps, in microseconds. *)
Fixpoint wait_dead (fuel : nat) (probe : nat → option Z) (k : nat) (time : Z)
  : res (nat * list Z) :=
  match fuel with
  | O => Fault OutOfFuel
  | S fuel =>
      match probe k with
      | Some _ => Done (S k, [])
      | None =>
          let time := time + 250000 in
          if time <=? 3 * 1000000 then
            '(k, sleeps) ← wait_dead fuel probe (S k) time;
            Done (k, time :: sleeps)
          else Done (S k, [])
      end
  end.

(** The result, the error number set last and the sleeps. *)
Definition stopproc (sent : bool) (probe : nat → option Z)
  : res (bool * option Z * list Z) :=
  if negb sent then Done (false, None, [])
  else
    '(k, sleeps) ← wait_dead 14 probe 0 0;
    match probe k with
    | None => Done (false, Some EBUSY, sleeps)
    | Some e => Done (e =? ESRCH, Some e, sleeps)
    end.

Definition killproc (sent : bool) (probe : nat → option Z)
  : res (bool * option Z * list Z) :=
  if negb sent then Done (false, None, [])
  else
    '(k, sleeps) ← wait_dead 14 probe 0 0;
    match probe k with
    | None => Done (false, Some EBUSY, sleeps)
    | Some e => Done (e =? ESRCH, Some e, sleeps)
    end.

(** ** Lemmas: segments *)

Lemma char_at_end s : char_at s (length s) = 0.
Proof. unfold char_at. by rewrite lookup_ge_None_2. Qed.

Lemma char_at_lt s i : (i < length s)%nat → s !! i = Some (char_at s i).
Proof.
  intros H. unfold char_at. by destruct (lookup_lt_is_Some_2 s i H) as [c ->].
Qed.

(** In a string only the position of the terminator reads as zero. *)
Lemma char_at_zero s i : cstring s → (i <= length s)%nat →
  (char_at s i =? 0) = bool_decide (drop i s = []).
Proof.
  intros Hs Hi.
  destruct (decide (i = length s)) as [->|Hne].
  - by rewrite char_at_end, drop_all.
  - pose proof (char_at_lt s i ltac:(lia)) as Hl.
    rewrite (drop_cons_lookup _ _ _ Hl).
    pose proof (Forall_lookup_1 _ _ _ _ Hs Hl) as Hc. unfold is_char in Hc.
    apply Z.eqb_neq. lia.
Qed.

Lemma first_len_cases path :
  (c_slash ∉ path ∧ first_len path = length path) ∨
  (∃ n, strchr path c_slash = Some n ∧ (n < length path)%nat ∧ first_len path = S n).
Proof.
  unfold first_len. destruct (strchr path c_slash) as [n|] eqn:E; simpl.
  - right. exists n. pose proof (strchr_lt _ _ _ E).
    apply strchr_Some in E as [E _]. unfold char_at. rewrite E. simpl. auto.
  - left. apply strchr_None in E. rewrite char_at_end. auto.
Qed.

Lemma first_len_le path : (first_len path <= length path)%nat.
Proof. destruct (first_len_cases path) as [[_ ->]|(n & _ & ? & ->)]; lia. Qed.

Lemma segments_no_slash path : path ≠ [] → c_slash ∉ path → segments path = [path].
Proof.
  induction path as [|c p IH]; [done | intros _ Hn].
  rewrite not_elem_of_cons in Hn. destruct Hn as [Hc Hp]. simpl.
  rewrite (proj2 (Z.eqb_neq c c_slash)) by congruence.
  destruct p as [|d p]; [done|]. by rewrite IH.
Qed.

Lemma segments_slash path n :
  strchr path c_slash = Some n →
  segments path = take (S n) path :: segments (drop (S n) path).
Proof.
  revert n. induction path as [|c p IH]; intros n; [done|]. simpl.
  destruct (Z.eqb_spec c c_slash) as [->|Hne]; [by intros [= <-]|].
  rewrite fmap_Some. intros (m & Hm & ->). by rewrite (IH _ Hm).
Qed.

Lemma path_parts_unfold path :
  path_parts path =
  take (first_len path) path ::
  match drop (first_len path) path with [] => [] | c :: r => path_parts (c :: r) end.
Proof.
  destruct (first_len_cases path) as [[Hn ->]|(n & Hs & Hl & ->)].
  - rewrite firstn_all, drop_all. destruct path as [|c p]; [done|].
    unfold path_parts. by rewrite segments_no_slash.
  - assert (path_parts path = segments path) as -> by (by destruct path).
    rewrite (segments_slash _ _ Hs). f_equal.
    destruct (drop (S n) path) as [|c r]; reflexivity.
Qed.

(** The name of a segment decides its class, with or without its slash. *)
Lemma strcmp_eq_snoc name t c : strcmp_eq (name ++ [c]) (t ++ [c]) = strcmp_eq name t.
Proof.
  unfold strcmp_eq. apply bool_decide_ext.
  split; [apply app_inj_2; done | by intros ->].
Qed.

Lemma strcmp_eq_slash name t :
  c_slash ∉ name → strcmp_eq name (t ++ [c_slash]) = false.
Proof.
  intros Hn. apply bool_decide_eq_false. intros ->. apply Hn. set_solver.
Qed.

Lemma strcmp_eq_last name t :
  last t ≠ Some c_slash → strcmp_eq (name ++ [c_slash]) t = false.
Proof.
  intros Ht. apply bool_decide_eq_false. intros <-. apply Ht. apply last_snoc.
Qed.

Lemma strcmp_eq_nil name : strcmp_eq name [] = (length name =? 0)%nat.
Proof. by destruct name. Qed.

Lemma seg_class name seg :
  c_slash ∉ name → seg = name ∨ seg = name ++ [c_slash] →
  is_dot seg = strcmp_eq name (str ".") ∧
  is_dotdot seg = strcmp_eq name (str "..") ∧
  is_empty_seg seg = (length name =? 0)%nat.
Proof.
  unfold is_dot, is_dotdot, is_empty_seg. intros Hn Hseg.
  change (str "./") with ([46] ++ [c_slash]).
  change (str "../") with ([46; 46] ++ [c_slash]).
  change (str "/") with ([] ++ [c_slash]).
  destruct Hseg as [->| ->].
  - rewrite !strcmp_eq_slash, !orb_false_r by done.
    by rewrite strcmp_eq_nil.
  - rewrite !strcmp_eq_snoc, !strcmp_eq_last by done.
    by rewrite <- strcmp_eq_nil.
Qed.

(** ** Lemmas: the loop refines the fold *)

(** The state of the loop holds the segments: the index array has the offset
    of each one's end, the buffer their concatenation. *)
Record np_inv (st : np_state) (segs : list bytes) : Prop := {
  np_inv_i : np_i st = length segs;
  np_inv_len : length (np_idx st) = MAX_PATH_INDECIES;
  np_inv_lt : (length segs < MAX_PATH_INDECIES)%nat;
  np_inv_idx : ∀ j, (j <= length segs)%nat →
    np_idx st !! j = Some (length (concat (take j segs)));
  np_inv_buf : take (length (concat segs)) (np_buf st) = concat segs;
  np_inv_char : cstring (concat segs)
}.

Lemma np_inv_pop st segs k :
  np_inv st segs → (k <= length segs)%nat →
  np_inv (NpState (np_buf st) (np_idx st) k) (take k segs).
Proof.
  intros [Hi Hl Hlt Hidx Hb Hc] Hk.
  assert (Hpre : concat segs = concat (take k segs) ++ concat (drop k segs)).
  { by rewrite <- concat_app, take_drop. }
  split; simpl.
  - rewrite length_take. lia.
  - done.
  - rewrite length_take. lia.
  - intros j Hj. rewrite length_take in Hj.
    rewrite take_take, Nat.min_l by lia. apply Hidx. lia.
  - rewrite Hpre in Hb. rewrite length_app, take_add_app in Hb.
    apply app_inj_1 in Hb as [Hb _]; [done|].
    apply (f_equal length) in Hb. rewrite length_app, length_take in Hb.
    rewrite !length_app, length_take, length_drop in Hb.
    rewrite length_take. lia.
  - rewrite Hpre in Hc. by apply cstring_app in Hc as [? _].
Qed.

Lemma np_inv_push st segs seg buf' :
  np_inv st segs → cstring seg → (S (length segs) < MAX_PATH_INDECIES)%nat →
  buf_write (length (concat segs)) seg (np_buf st) = Done buf' →
  np_inv (NpState buf'
            (<[S (length segs) := (length (concat segs) + length seg)%nat]> (np_idx st))
            (S (length segs)))
         (segs ++ [seg]).
Proof.
  intros [Hi Hl Hlt Hidx Hb Hc] Hseg Hk Hw.
  split; simpl.
  - rewrite length_app. simpl. lia.
  - by rewrite length_insert.
  - rewrite length_app. simpl. lia.
  - intros j Hj. rewrite length_app in Hj. simpl in Hj.
    destruct (decide (j = S (length segs))) as [->|Hne].
    + rewrite list_lookup_insert_eq by lia.
      rewrite firstn_all2 by (rewrite length_app; simpl; lia).
      rewrite concat_app, length_app. simpl. by rewrite app_nil_r.
    + rewrite list_lookup_insert_ne by done.
      rewrite Hidx, (take_app_le segs) by lia. done.
  - rewrite concat_app, length_app. simpl. rewrite app_nil_r.
    rewrite (buf_write_take _ _ _ _ Hw). by rewrite Hb.
  - rewrite concat_app. simpl. rewrite app_nil_r. by apply cstring_app.
Qed.

(** Writing the terminator keeps the segments. *)
Lemma np_inv_terminate st segs buf' :
  np_inv st segs → buf_write (length (concat segs)) [0] (np_buf st) = Done buf' →
  np_inv (NpState buf' (np_idx st) (np_i st)) segs ∧ cstr buf' = concat segs.
Proof.
  intros [Hi Hl Hlt Hidx Hb Hc] Hw. split.
  - split; simpl; auto.
    by rewrite (buf_write_take_lt _ _ _ _ _ Hw).
  - rewrite (cstr_take_lookup buf' (length (concat segs))).
    + by rewrite (buf_write_take_lt _ _ _ _ _ Hw).
    + by rewrite (buf_write_take_lt _ _ _ _ _ Hw), Hb.
    + by eapply buf_write_lookup.
Qed.

Lemma concat_take_le {A} k (segs : list (list A)) :
  (length (concat (take k segs)) <= length (concat segs))%nat.
Proof.
  rewrite <- (take_drop k segs) at 2. rewrite concat_app, length_app. lia.
Qed.

Lemma norm_push_cases segs seg :
  (norm_push segs seg = segs ++ [seg] ∧
   is_dot seg = false ∧ is_dotdot seg = false) ∨
  ∃ k, (k <= length segs)%nat ∧ norm_push segs seg = take k segs.
Proof.
  unfold norm_push. destruct (is_dot seg); [right; exists (length segs); by rewrite firstn_all|].
  destruct (is_dotdot seg); [right; exists (pred (length segs)); split; [lia | done]|].
  case_test; [right; exists (length segs); by rewrite firstn_all | by left].
Qed.

Lemma norm_push_length segs seg :
  (length (concat (norm_push segs seg)) <= length (concat segs) + length seg)%nat ∧
  (length (norm_push segs seg) <= S (length segs))%nat.
Proof.
  destruct (norm_push_cases segs seg) as [(-> & _)|(k & Hk & ->)].
  - rewrite concat_app, !length_app. simpl. rewrite app_nil_r. lia.
  - rewrite length_take. pose proof (concat_take_le k segs). lia.
Qed.

(** The name before the first slash, and what the loop skips. *)
Lemma first_seg_name path :
  let n := default (length path) (strchr path c_slash) in
  (c_slash ∉ take n path) ∧ length (take n path) = n ∧
  (take (first_len path) path = take n path ∨
   take (first_len path) path = take n path ++ [c_slash]).
Proof.
  destruct (first_len_cases path) as [[Hn Hf]|(n & Hs & Hl & Hf)]; rewrite Hf.
  - rewrite (proj2 (strchr_None _ _) Hn). simpl. rewrite firstn_all. auto.
  - rewrite Hs. simpl. apply strchr_Some in Hs as [Hs Hn].
    split; [done|]. split; [rewrite length_take; lia|].
    right. by apply take_S_r.
Qed.

(** The index that the three tests of a round leave in [i]. *)
Definition step_keep (segs : list bytes) (seg : bytes) : nat :=
  if is_dot seg then length segs
  else if is_dotdot seg then pred (length segs)
  else length segs.

Lemma np_inv_idx_get st segs k :
  np_inv st segs → (k <= length segs)%nat →
  idx_get (np_idx st) k = Done (length (concat (take k segs))).
Proof. intros H Hk. unfold idx_get. by rewrite (np_inv_idx _ _ H). Qed.

(** The end of a round, once the segments are in place. *)
Lemma normalize_round_end st segs path n :
  np_inv st segs → cstring path → (n <= length path)%nat →
  (length (concat segs) < length (np_buf st))%nat →
  ∃ st',
    (end_i ← idx_get (np_idx st) (np_i st);
     buf ← buf_write end_i [0] (np_buf st);
     let st := NpState buf (np_idx st) (np_i st) in
     if (char_at path n =? 0) || (np_i st =? MAX_PATH_INDECIES)%nat
     then Done (st, None)
     else Done (st, Some (drop n path)))
    = Done (st', match drop n path with [] => None | c :: r => Some (c :: r) end) ∧
    np_inv st' segs ∧ cstr (np_buf st') = concat segs ∧
    length (np_buf st') = length (np_buf st).
Proof.
  intros Hinv Hp Hn Hroom.
  rewrite (np_inv_i _ _ Hinv), (np_inv_idx_get _ _ _ Hinv), firstn_all by lia. simpl.
  destruct (buf_write_Done (length (concat segs)) [0] (np_buf st)) as [buf' Hw];
    [simpl; lia|].
  rewrite Hw. simpl. rewrite char_at_zero by done.
  pose proof (np_inv_lt _ _ Hinv).
  rewrite (proj2 (Nat.eqb_neq (length segs) MAX_PATH_INDECIES)), orb_false_r by lia.
  destruct (np_inv_terminate _ _ _ Hinv Hw) as [Hinv' Hc].
  rewrite (np_inv_i _ _ Hinv) in Hinv'.
  exists (NpState buf' (np_idx st) (length segs)).
  split; [by destruct (drop n path)|].
  simpl. eauto using buf_write_length.
Qed.

Lemma normalize_step_spec st segs path :
  np_inv st segs → cstring path →
  (length (concat segs) + length path < length (np_buf st))%nat →
  (length (norm_push segs (take (first_len path) path)) < MAX_PATH_INDECIES)%nat →
  ∃ st',
    normalize_step st path
    = Done (st', match drop (first_len path) path with
                 | [] => None | c :: r => Some (c :: r) end) ∧
    np_inv st' (norm_push segs (take (first_len path) path)) ∧
    cstr (np_buf st') = concat (norm_push segs (take (first_len path) path)) ∧
    length (np_buf st') = length (np_buf st).
Proof.
  intros Hinv Hp Hroom Hmax.
  destruct (first_seg_name path) as (Hns & Hlen & Hseg).
  destruct (seg_class _ _ Hns Hseg) as (Hd & Hdd & He).
  unfold normalize_step. rewrite <- Hd, <- Hdd, Hlen in *.
  change (if char_at path (default (length path) (strchr path c_slash)) =? c_slash
          then S (default (length path) (strchr path c_slash))
          else default (length path) (strchr path c_slash)) with (first_len path).
  rewrite <- He. rewrite (np_inv_i _ _ Hinv).
  set (seg := take (first_len path) path) in *.
  assert (Hsl : (length seg <= length path)%nat) by (unfold seg; rewrite length_take; lia).
  assert ((length segs =? 0)%nat = bool_decide (segs = [])) as Hnil.
  { destruct segs; [done|]. by rewrite bool_decide_eq_false_2. }
  rewrite Hnil.
  unfold norm_push in *.
  destruct (is_dot seg) eqn:Ed; [|destruct (is_dotdot seg) eqn:Edd;
    [|destruct (is_empty_seg seg && negb (bool_decide (segs = []))) eqn:Ee]].
  - rewrite (np_inv_idx_get _ _ _ Hinv) by lia. simpl.
    pose proof (np_inv_pop _ _ (length segs) Hinv ltac:(lia)) as Hpop.
    rewrite firstn_all in Hpop.
    apply (normalize_round_end _ _ _ _ Hpop Hp (first_len_le path)). simpl. lia.
  - rewrite (np_inv_idx_get _ _ _ Hinv) by lia. simpl.
    pose proof (np_inv_pop _ _ (pred (length segs)) Hinv ltac:(lia)) as Hpop.
    apply (normalize_round_end _ _ _ _ Hpop Hp (first_len_le path)). simpl.
    pose proof (concat_take_le (pred (length segs)) segs). lia.
  - rewrite (np_inv_idx_get _ _ _ Hinv) by lia. simpl.
    pose proof (np_inv_pop _ _ (length segs) Hinv ltac:(lia)) as Hpop.
    rewrite firstn_all in Hpop.
    apply (normalize_round_end _ _ _ _ Hpop Hp (first_len_le path)). simpl. lia.
  - rewrite (np_inv_idx_get _ _ _ Hinv), firstn_all by lia. simpl.
    destruct (buf_write_Done (length (concat segs)) seg (np_buf st)) as [buf' Hw]; [lia|].
    rewrite Hw. simpl. unfold idx_set.
    rewrite length_app in Hmax. simpl in Hmax.
    rewrite (np_inv_len _ _ Hinv), (proj2 (Nat.ltb_lt _ _)) by lia. simpl.
    assert (Hfl : first_len path = length seg).
    { unfold seg. rewrite length_take. pose proof (first_len_le path). lia. }
    pose proof (np_inv_push _ _ seg buf' Hinv ltac:(by apply cstring_take) ltac:(lia) Hw) as Hpush.
    rewrite <- Hfl in Hpush.
    destruct (normalize_round_end _ _ path (first_len path) Hpush Hp (first_len_le path))
      as (st' & Hst & ? & ? & Hl).
    { simpl. rewrite concat_app, length_app, (buf_write_length _ _ _ _ Hw). simpl.
      rewrite app_nil_r. lia. }
    exists st'. simpl in Hl. rewrite (buf_write_length _ _ _ _ Hw) in Hl. eauto.
Qed.

(** One segment too many: the end of the 100th has no slot. *)
Lemma normalize_step_overflow st segs path :
  np_inv st segs → cstring path →
  (length (concat segs) + length path < length (np_buf st))%nat →
  (MAX_PATH_INDECIES <= length (norm_push segs (take (first_len path) path)))%nat →
  normalize_step st path = Fault OutOfBounds.
Proof.
  intros Hinv Hp Hroom Hmax. pose proof (np_inv_lt _ _ Hinv) as Hlt.
  destruct (first_seg_name path) as (Hns & Hlen & Hseg).
  destruct (seg_class _ _ Hns Hseg) as (Hd & Hdd & He).
  unfold normalize_step. rewrite <- Hd, <- Hdd, Hlen in *.
  change (if char_at path (default (length path) (strchr path c_slash)) =? c_slash
          then S (default (length path) (strchr path c_slash))
          else default (length path) (strchr path c_slash)) with (first_len path).
  rewrite <- He. rewrite (np_inv_i _ _ Hinv).
  set (seg := take (first_len path) path) in *.
  assert (Hsl : (length seg <= length path)%nat) by (unfold seg; rewrite length_take; lia).
  assert ((length segs =? 0)%nat = bool_decide (segs = [])) as ->.
  { destruct segs; [done|]. by rewrite bool_decide_eq_false_2. }
  unfold norm_push in Hmax.
  destruct (is_dot seg); [lia|].
  destruct (is_dotdot seg); [rewrite length_take in Hmax; lia|].
  destruct (is_empty_seg seg && negb (bool_decide (segs = []))); [lia|].
  rewrite (np_inv_idx_get _ _ _ Hinv), firstn_all by lia. simpl.
  destruct (buf_write_Done (length (concat segs)) seg (np_buf st)) as [buf' Hw]; [lia|].
  rewrite Hw. simpl. unfold idx_set.
  rewrite length_app in Hmax. simpl in Hmax.
  rewrite (np_inv_len _ _ Hinv), (proj2 (Nat.ltb_ge _ _)) by lia. done.
Qed.

(** The rest of the path is shorter and still a string. *)
Lemma rest_shorter path :
  cstring path → drop (first_len path) path ≠ [] →
  cstring (drop (first_len path) path) ∧ (0 < first_len path)%nat ∧
  length (drop (first_len path) path) = (length path - first_len path)%nat.
Proof.
  intros Hp Hne. split; [by apply cstring_drop|]. split; [|apply length_drop].
  destruct (first_len_cases path) as [[_ Hf]|(n & _ & _ & Hf)]; [|lia].
  rewrite Hf, drop_all in Hne. done.
Qed.

Lemma normalize_loop_spec fuel st segs path :
  np_inv st segs → cstring path →
  (length (concat segs) + length path < length (np_buf st))%nat →
  (length path < fuel)%nat →
  match norm_run segs (path_parts path) with
  | Some out => ∃ st', normalize_loop fuel st path = Done st' ∧
                  cstr (np_buf st') = concat out
  | None => normalize_loop fuel st path = Fault OutOfBounds
  end.
Proof.
  revert st segs path. induction fuel as [|fuel IH]; intros st segs path Hinv Hp Hroom Hf; [lia|].
  pose proof (norm_push_length segs (take (first_len path) path)) as [Hpl _].
  rewrite path_parts_unfold. simpl norm_run. simpl normalize_loop.
  destruct (Nat.ltb_spec (length (norm_push segs (take (first_len path) path))) MAX_PATH_INDECIES)
    as [Hlt|Hge]; [|by rewrite (normalize_step_overflow st segs path)].
  destruct (normalize_step_spec st segs path Hinv Hp Hroom Hlt)
    as (st' & Hst & Hinv' & Hc & Hl).
  rewrite Hst. simpl. rewrite length_take in Hpl.
  pose proof (rest_shorter path Hp) as Hrest.
  destruct (drop (first_len path) path) as [|c r]; [simpl; eauto|].
  destruct Hrest as (Hr & Hpos & Hlen); [done|].
  pose proof (first_len_le path). apply (IH st' _ (c :: r)); auto; lia.
Qed.

Lemma norm_run_foldl parts segs out :
  norm_run segs parts = Some out → out = foldl norm_push segs parts.
Proof.
  revert segs. induction parts as [|s parts IH]; intros segs; simpl; [congruence|].
  case_test; [apply IH | done].
Qed.

Lemma normalize_path_run normpath path :
  cstring path → (length path < length normpath)%nat →
  match norm_run [] (path_parts path) with
  | Some out => ∃ buf, normalize_path normpath path = Done buf ∧ cstr buf = concat out
  | None => normalize_path normpath path = Fault OutOfBounds
  end.
Proof.
  intros Hp Hroom. unfold normalize_path.
  destruct (buf_write_Done 0 [0] normpath) as [buf0 Hw]; [simpl; lia|].
  rewrite Hw, res_bind_Done.
  pose proof (normalize_loop_spec (S (length path))
                (NpState buf0 (replicate MAX_PATH_INDECIES O) O) [] path) as Hloop.
  destruct (norm_run [] (path_parts path)) as [out|].
  - destruct Hloop as (st' & Hst & Hc); [| done | | lia |].
    + split; [done | done | unfold MAX_PATH_INDECIES; simpl; lia | | done | by constructor].
      intros j Hj. simpl in Hj. by replace j with O by lia.
    + simpl. rewrite (buf_write_length _ _ _ _ Hw). lia.
    + rewrite Hst. simpl. eauto.
  - rewrite Hloop; [done | | done | | lia].
    + split; [done | done | unfold MAX_PATH_INDECIES; simpl; lia | | done | by constructor].
      intros j Hj. simpl in Hj. by replace j with O by lia.
    + simpl. rewrite (buf_write_length _ _ _ _ Hw). lia.
Qed.

(** ** Lemmas: the segments that [norm_ref] leaves *)

(** A segment with its slash, neither [./] nor [../]. *)
Definition good_closed (seg : bytes) : Prop :=
  (∃ name, c_slash ∉ name ∧ seg = name ++ [c_slash]) ∧
  is_dot seg = false ∧ is_dotdot seg = false.

(** What the fold keeps: good closed segments, only the first may be empty,
    and a last good one that has no slash. *)
Definition out_ok (out : list bytes) : Prop :=
  ∃ segs t, out = segs ++ t ∧ Forall good_closed segs ∧
    (t = [] ∨ ∃ s, t = [s] ∧ s ≠ [] ∧ c_slash ∉ s ∧ is_dot s = false ∧ is_dotdot s = false) ∧
    Forall (fun s => is_empty_seg s = false) (tail out).

Lemma segments_shape path :
  ∃ init t, segments path = init ++ t ∧
    Forall (fun s => ∃ name, c_slash ∉ name ∧ s = name ++ [c_slash]) init ∧
    (t = [] ∨ ∃ s, t = [s] ∧ s ≠ [] ∧ c_slash ∉ s).
Proof.
  induction path as [|c p (init & t & Hs & Hi & Ht)]; simpl.
  { exists [], []. auto. }
  destruct (Z.eqb_spec c c_slash) as [->|Hne].
  - exists ([c_slash] :: init), t. rewrite Hs. split; [done|]. split; [|done].
    constructor; [|done]. exists []. split; [set_solver | done].
  - rewrite Hs. destruct init as [|h init]; simpl.
    + destruct Ht as [->|(s & -> & Hne' & Hn)].
      * exists [], [[c]]. split; [done|]. split; [done|]. right.
        exists [c]. split; [done|]. split; [done|]. set_solver.
      * exists [], [c :: s]. split; [done|]. split; [done|]. right.
        exists (c :: s). split; [done|]. split; [done|]. set_solver.
    + exists ((c :: h) :: init), t. split; [done|]. split; [|done].
      apply Forall_cons in Hi as [(name & Hn & ->) Hi]. constructor; [|done].
      exists (c :: name). split; [set_solver | done].
Qed.

Lemma segments_closed segs t :
  Forall (fun s => ∃ name, c_slash ∉ name ∧ s = name ++ [c_slash]) segs →
  segments (concat segs ++ t) = segs ++ segments t.
Proof.
  induction 1 as [|s segs (name & Hn & ->) Hs IH]; [done|]. simpl.
  rewrite <- !app_assoc. simpl.
  rewrite (segments_slash _ (length name)).
  - replace (S (length name)) with (length (name ++ [c_slash])) by (rewrite length_app; simpl; lia).
    change (name ++ c_slash :: concat segs ++ t) with (name ++ [c_slash] ++ (concat segs ++ t)).
    rewrite app_assoc, take_app_length, drop_app_length. by rewrite IH.
  - by apply strchr_app.
Qed.

Lemma good_closed_is segs :
  Forall good_closed segs →
  Forall (fun s => ∃ name, c_slash ∉ name ∧ s = name ++ [c_slash]) segs.
Proof. intros H. eapply Forall_impl; [apply H|]. by intros s [? _]. Qed.

Lemma out_ok_segments out : out_ok out → segments (concat out) = out.
Proof.
  intros (segs & t & -> & Hs & Ht & _). rewrite concat_app.
  rewrite segments_closed by by apply good_closed_is.
  destruct Ht as [->|(s & -> & Hne & Hn & _)]; [done|].
  simpl. by rewrite app_nil_r, segments_no_slash.
Qed.

Lemma Forall_tail {A} (P : A → Prop) l : Forall P l → Forall P (tail l).
Proof. by destruct 1. Qed.

Lemma tail_take {A} k (l : list A) : tail (take k l) = take (pred k) (tail l).
Proof. destruct l, k as [|[|k]]; simpl; rewrite ?take_nil; done. Qed.

(** Pushing a segment on closed ones. *)
Lemma norm_push_closed segs seg :
  Forall good_closed segs → Forall (fun s => is_empty_seg s = false) (tail segs) →
  (∃ segs', norm_push segs seg = segs' ∧ Forall good_closed segs' ∧
     Forall (fun s => is_empty_seg s = false) (tail segs')) ∨
  (norm_push segs seg = segs ++ [seg] ∧ is_dot seg = false ∧ is_dotdot seg = false ∧
   Forall (fun s => is_empty_seg s = false) (tail (segs ++ [seg]))).
Proof.
  intros Hs Ht. unfold norm_push.
  destruct (is_dot seg) eqn:Ed; [left; eauto|].
  destruct (is_dotdot seg) eqn:Edd.
  { left. eexists. split; [done|]. split; [by apply Forall_take|].
    rewrite tail_take. by apply Forall_take. }
  destruct (is_empty_seg seg && negb (bool_decide (segs = []))) eqn:Ee; [left; eauto|].
  right. split; [done|]. split; [done|]. split; [done|].
  destruct segs as [|s0 segs]; [by constructor|]. simpl in *.
  rewrite andb_true_r in Ee. apply Forall_app. auto.
Qed.

Lemma norm_fold_closed l segs :
  Forall (fun s => ∃ name, c_slash ∉ name ∧ s = name ++ [c_slash]) l →
  Forall good_closed segs → Forall (fun s => is_empty_seg s = false) (tail segs) →
  Forall good_closed (foldl norm_push segs l) ∧
  Forall (fun s => is_empty_seg s = false) (tail (foldl norm_push segs l)).
Proof.
  intros Hl. revert segs. induction Hl as [|s l Hs Hl IH]; [done|]; intros segs Hg Ht. simpl.
  destruct (norm_push_closed segs s Hg Ht) as [(segs' & -> & ? & ?)|(-> & ? & ? & ?)]; [auto|].
  apply IH; [|done]. apply Forall_app. split; [done|]. constructor; [|done]. by split.
Qed.

Lemma norm_fold_out_ok path : path ≠ [] → out_ok (foldl norm_push [] (path_parts path)).
Proof.
  intros Hne. assert (path_parts path = segments path) as -> by by destruct path.
  destruct (segments_shape path) as (init & t & -> & Hi & Ht).
  rewrite foldl_app.
  destruct (norm_fold_closed init [] Hi) as [Hg Htl]; [done..|].
  set (segs := foldl norm_push [] init) in *.
  destruct Ht as [->|(s & -> & Hs & Hn)].
  { exists segs, []. rewrite app_nil_r. auto. }
  simpl. destruct (norm_push_closed segs s Hg Htl) as [(segs' & -> & ? & ?)|(-> & Hd & Hdd & Hte)].
  - exists segs', []. rewrite app_nil_r. auto.
  - exists segs, [s]. split; [done|]. split; [done|]. split; [|done].
    right. exists s. auto.
Qed.

Lemma norm_ref_parts path seg :
  seg ∈ path_parts (norm_ref path) → is_dot seg = false ∧ is_dotdot seg = false.
Proof.
  destruct path as [|c p]; [intros ->%list_elem_of_singleton; done|].
  pose proof (norm_fold_out_ok (c :: p) ltac:(done)) as Hok.
  pose proof (out_ok_segments _ Hok) as Hseg.
  unfold norm_ref. set (out := foldl _ _ _) in *.
  destruct (concat out) as [|d q] eqn:E; [intros ->%list_elem_of_singleton; done|].
  unfold path_parts. rewrite Hseg.
  destruct Hok as (segs & t & -> & Hg & Ht & _). rewrite elem_of_app.
  intros [Hin|Hin].
  - rewrite Forall_forall in Hg. by apply Hg in Hin as [_ ?].
  - destruct Ht as [->|(s & -> & _ & _ & ?)]; [set_solver|].
    by apply list_elem_of_singleton in Hin as ->.
Qed.

Lemma norm_fold_id l acc :
  Forall (fun s => is_dot s = false ∧ is_dotdot s = false) l →
  Forall (fun s => is_empty_seg s = false) (tail (acc ++ l)) →
  foldl norm_push acc l = acc ++ l.
Proof.
  revert acc. induction l as [|s l IH]; intros acc Hl Ht; [by rewrite app_nil_r|].
  apply Forall_cons in Hl as [[Hd Hdd] Hl]. simpl.
  assert (norm_push acc s = acc ++ [s]) as ->.
  { unfold norm_push. rewrite Hd, Hdd.
    destruct acc as [|a acc]; [by rewrite andb_false_r|].
    simpl in Ht. rewrite Forall_app, Forall_cons in Ht. destruct Ht as (_ & -> & _). done. }
  rewrite IH; [by rewrite <- app_assoc | done |]. by rewrite <- app_assoc.
Qed.

Lemma norm_ref_idem path : norm_ref (norm_ref path) = norm_ref path.
Proof.
  destruct path as [|c p]; [done|].
  pose proof (norm_fold_out_ok (c :: p) ltac:(done)) as Hok.
  pose proof (out_ok_segments _ Hok) as Hseg.
  unfold norm_ref at 1. unfold norm_ref. set (out := foldl _ _ (path_parts (c :: p))) in *.
  destruct (concat out) as [|d q] eqn:E; [done|].
  unfold path_parts. rewrite Hseg, norm_fold_id; [done | |].
  - destruct Hok as (segs & t & -> & Hg & Ht & _). apply Forall_app. split.
    + eapply Forall_impl; [apply Hg|]. by intros s [_ ?].
    + destruct Ht as [->|(s & -> & _ & _ & ?)]; auto.
  - by destruct Hok as (segs & t & _ & _ & _ & ?).
Qed.

(** ** Lemmas: searches and conversions *)

Lemma startswith_prefix s1 s2 : startswith s1 s2 = is_prefix s2 s1.
Proof.
  revert s1. induction s2 as [|c s2 IH]; intros [|d s1]; simpl; auto.
  rewrite IH, (Z.eqb_sym c d). by destruct (d =? c).
Qed.

Lemma startswith_spec s1 s2 : startswith s1 s2 = true ↔ s2 `prefix_of` s1.
Proof. rewrite startswith_prefix. apply is_prefix_spec. Qed.

Lemma strncmp_eq_prefix s find :
  strncmp_eq s find (length find) = true ↔ find `prefix_of` s.
Proof.
  unfold strncmp_eq. rewrite bool_decide_eq_true, firstn_all.
  rewrite <- is_prefix_spec. by rewrite is_prefix_take.
Qed.

Lemma strnstr_Some s find slen i :
  strnstr s find slen = Some i ↔
  (i < length s)%nat ∧ Z.of_nat (i + length find) <= slen ∧
  find `prefix_of` drop i s ∧ ∀ j, (j < i)%nat → ¬ find `prefix_of` drop j s.
Proof.
  revert slen i. induction s as [|c s IH]; intros slen i; simpl.
  { case_test; (split; [done | lia]). }
  destruct (Z.ltb_spec slen (Z.of_nat (length find))) as [Hlt|Hge].
  { split; [done | lia]. }
  destruct (strncmp_eq (c :: s) find (length find)) eqn:E.
  - apply strncmp_eq_prefix in E. split.
    + intros [= <-]. split; [lia|]. split; [lia|]. split; [done | lia].
    + intros (_ & _ & _ & Hm). destruct i as [|i]; [done|].
      exfalso. apply (Hm O); [lia | done].
  - assert (Hn : ¬ find `prefix_of` c :: s).
    { intros H. apply strncmp_eq_prefix in H. congruence. }
    rewrite fmap_Some. split.
    + intros (j & Hj & ->). apply IH in Hj as (? & ? & ? & Hm).
      split; [lia|]. split; [lia|]. split; [done|].
      intros [|k] Hk; [done | apply Hm; lia].
    + intros (? & ? & Hp & Hm). destruct i as [|i]; [by rewrite drop_0 in Hp|].
      exists i. split; [|done]. apply IH.
      split; [lia|]. split; [lia|]. split; [done|].
      intros j Hj. apply (Hm (S j)). lia.
Qed.

(** The value of a hexadecimal number. *)
Definition hex_value (xs : bytes) : Z :=
  foldl (fun v c => 16 * v + xdigit_value c) 0 xs.

Lemma hex_value_snoc xs c : hex_value (xs ++ [c]) = 16 * hex_value xs + xdigit_value c.
Proof. unfold hex_value. by rewrite foldl_app. Qed.

Lemma xdigit_value_bound c : isxdigit c = true → 0 <= xdigit_value c < 16.
Proof.
  unfold isxdigit, isdigit, xdigit_value. intros H.
  repeat (apply orb_prop in H; destruct H as [H|H]); zbool.
  all: repeat case_test; lia.
Qed.

Lemma hex_value_bound xs :
  Forall (fun c => isxdigit c = true) xs → 0 <= hex_value xs < 16 ^ Z.of_nat (length xs).
Proof.
  induction xs as [|c xs IH] using rev_ind; [done|].
  rewrite Forall_app, Forall_singleton. intros [Hx Hc].
  rewrite hex_value_snoc, length_app. simpl.
  rewrite Nat2Z.inj_add, Z.pow_add_r by lia.
  pose proof (xdigit_value_bound c Hc). specialize (IH Hx).
  change (16 ^ Z.of_nat 1) with 16. lia.
Qed.

(** Only the residues modulo [2^32] of the running result and factor matter. *)
Lemma xtoi_loop_digits xs r f k :
  Forall (fun c => isxdigit c = true) xs →
  0 <= k → wrap_u32 f = wrap_u32 (16 ^ k) →
  0 <= r → 0 <= r + 16 ^ k * hex_value xs < 2 ^ 32 → 
  xtoi_loop (reverse xs) r f = (1, r + 16 ^ k * hex_value xs).
Proof.
  revert r f k. induction xs as [|c xs IH] using rev_ind; intros r f k Hx Hk Hf Hr Hb.
  { simpl. f_equal. unfold hex_value. simpl. lia. }
  rewrite Forall_app, Forall_singleton in Hx. destruct Hx as [Hx Hc].
  pose proof (xdigit_value_bound c Hc) as Hd. pose proof (hex_value_bound xs Hx) as Hv.
  rewrite hex_value_snoc in *. rewrite reverse_snoc. simpl. rewrite Hc.
  assert (0 < 16 ^ k) by (apply Z.pow_pos_nonneg; lia).
  assert (wrap_u32 (r + wrap_s32 (xdigit_value c * f)) = r + xdigit_value c * 16 ^ k) as ->.
  { rewrite wrap_u32_of_s32. transitivity (wrap_u32 (r + xdigit_value c * 16 ^ k)).
    - unfold wrap_u32 in *. rewrite <- Zplus_mod_idemp_r, <- Zmult_mod_idemp_r, Hf.
      by rewrite Zmult_mod_idemp_r, Zplus_mod_idemp_r.
    - apply wrap_u32_small. nia. }
  rewrite (IH _ _ (k + 1)); try nia; auto.
  - f_equal. rewrite Z.pow_add_r by lia. lia.
  - transitivity (wrap_u32 (0 + wrap_s32 (f * 16))); [done|].
    rewrite wrap_u32_of_s32. unfold wrap_u32 in *.
    rewrite Z.add_0_l, <- Zmult_mod_idemp_l, Hf, Zmult_mod_idemp_l.
    by rewrite Z.pow_add_r by lia.
  - rewrite Z.pow_add_r by lia. nia.
Qed.

Lemma xtoi_digits xs r0 :
  Forall (fun c => isxdigit c = true) xs → (0 < length xs <= 8)%nat →
  xtoi xs r0 = (1, hex_value xs).
Proof.
  intros Hx Hl. unfold xtoi.
  rewrite (proj2 (Nat.ltb_lt 0 _)), (proj2 (Nat.ltb_ge 8 _)) by lia.
  pose proof (hex_value_bound xs Hx).
  assert (16 ^ Z.of_nat (length xs) <= 16 ^ 8) by (apply Z.pow_le_mono_r; lia).
  rewrite (xtoi_loop_digits xs 0 1 0); try done; [f_equal; lia|].
  rewrite Z.pow_0_r. change (16 ^ 8) with (2 ^ 32) in *. lia.
Qed.

(** What is left in [*result] always fits the digits read, errors included. *)
Lemma xtoi_two_bound c d r0 :
  0 <= snd (xtoi [c; d] r0) < 256.
Proof.
  change (xtoi [c; d] r0) with (xtoi_loop [d; c] 0 1). cbn [xtoi_loop].
  destruct (isxdigit d) eqn:Hd; [|simpl; lia].
  pose proof (xdigit_value_bound d Hd).
  rewrite Z.mul_1_r, (wrap_s32_small (xdigit_value d)), (wrap_u32_small (0 + xdigit_value d)) by lia.
  change (wrap_s32 (1 * 16)) with 16.
  destruct (isxdigit c) eqn:Hc; [|simpl; lia].
  pose proof (xdigit_value_bound c Hc). cbn [snd].
  rewrite (wrap_s32_small (xdigit_value c * 16)), wrap_u32_small by lia. lia.
Qed.

(** ** Lemmas: waiting for a process *)

Lemma wait_dead_total fuel probe k time :
  3000000 < time + 250000 * Z.of_nat fuel → time <= 3000000 →
  ∃ k' sleeps, wait_dead fuel probe k time = Done (k', sleeps) ∧
    (k < k' <= k + fuel)%nat ∧
    (∀ j, (k <= j)%nat → (S j < k')%nat → probe j = None) ∧
    (probe (pred k') = None → 3000000 < time + 250000 * Z.of_nat (k' - k)).
Proof.
  revert k time. induction fuel as [|fuel IH]; intros k time Hf Ht; simpl; [lia|].
  destruct (probe k) eqn:Ek.
  { eexists _, _. split; [done|]. split; [lia|]. split; [lia|]. simpl. congruence. }
  case_test.
  - destruct (IH (S k) (time + 250000)) as (k' & sl & -> & ? & Hj & He); [lia.. |].
    simpl. eexists _, _. split; [done|]. split; [lia|]. split.
    + intros j ? ?. destruct (decide (j = k)) as [->|]; [done | apply Hj; lia].
    + intros Hn. specialize (He Hn). lia.
  - eexists _, _. split; [done|]. split; [lia|]. split; [lia|].
    intros _. lia.
Qed.

Lemma norm_run_replicate n segs seg :
  is_dot seg = false → is_dotdot seg = false → is_empty_seg seg = false →
  (length segs <= MAX_PATH_INDECIES)%nat → (MAX_PATH_INDECIES <= length segs + n)%nat →
  (0 < n)%nat → norm_run segs (replicate n seg) = None.
Proof.
  intros Hd Hdd He. revert segs. induction n as [|n IH]; intros segs Hl Hn Hpos; [lia|].
  simpl. assert (norm_push segs seg = segs ++ [seg]) as ->.
  { unfold norm_push. by rewrite Hd, Hdd, He. }
  rewrite length_app. simpl. case_test; [|done].
  apply IH; rewrite ?length_app; simpl; lia.
Qed.

Lemma segments_replicate n name :
  c_slash ∉ name → segments (concat (replicate n (name ++ [c_slash]))) = replicate n (name ++ [c_slash]).
Proof.
  intros Hn. rewrite <- (app_nil_r (concat _)), segments_closed; [by rewrite app_nil_r|].
  apply Forall_replicate. eauto.
Qed.

(** ** Properties *)

(** C34: [normalize_path], on its buffer and its fixed array of 100 indices,
    computes the fold of [norm_push] over the segments of the path: when no
    prefix of the path keeps 100 segments the call returns and the string in
    the buffer is the concatenation of the segments kept; otherwise it writes
    past the end of the index array. *)
Theorem normalize_path_spec (normpath path : bytes) :
  cstring path → (length path < length normpath)%nat →
  match norm_run [] (path_parts path) with
  | Some segs => ∃ buf, normalize_path normpath path = Done buf ∧
                   cstr buf = concat segs ∧ cstr buf = norm_ref path
  | None => normalize_path normpath path = Fault OutOfBounds
  end.
Proof.
  intros Hp Hroom. pose proof (normalize_path_run normpath path Hp Hroom) as H.
  destruct (norm_run [] (path_parts path)) as [segs|] eqn:E; [|done].
  destruct H as (buf & ? & Hc). exists buf. split; [done|]. split; [done|].
  unfold norm_ref. rewrite Hc. by rewrite (norm_run_foldl _ _ _ E).
Qed.

Lemma normalize_path_spec_witness :
  ∃ buf, normalize_path (replicate 32 7) (str "/a/./b//../c/") = Done buf ∧
    cstr buf = str "/a/c/".
Proof.
  destruct (normalize_path_spec (replicate 32 7) (str "/a/./b//../c/")
              ltac:(apply (bool_decide_unpack _); vm_compute; exact I)
              ltac:(apply Nat.ltb_lt; reflexivity)) as (buf & H & _ & Hc).
  exists buf. split; [exact H | rewrite Hc; reflexivity].
Defined.

(** The normalised path cannot climb out of the public directory: no
    segment of the string that [normalize_path] leaves in the buffer is [.] or
    [..], and normalising it again changes nothing. *)
Theorem normalize_path_no_dotdot (normpath path buf : bytes) :
  cstring path → (length path < length normpath)%nat →
  normalize_path normpath path = Done buf →
  (∀ seg, seg ∈ path_parts (cstr buf) → is_dot seg = false ∧ is_dotdot seg = false) ∧
  norm_ref (cstr buf) = cstr buf.
Proof.
  intros Hp Hroom Hdone. pose proof (normalize_path_run normpath path Hp Hroom) as H.
  destruct (norm_run [] (path_parts path)) as [segs|] eqn:E; [|congruence].
  destruct H as (buf' & Hb & Hc). rewrite Hb in Hdone. injection Hdone as ->.
  assert (cstr buf = norm_ref path) as ->.
  { rewrite Hc, (norm_run_foldl _ _ _ E). done. }
  split; [apply norm_ref_parts | apply norm_ref_idem].
Qed.

Lemma normalize_path_no_dotdot_witness :
  norm_ref (str "etc/passwd") = str "etc/passwd".
Proof.
  destruct (normalize_path (replicate 40 7) (str "/../../etc/./passwd")) as [buf|f] eqn:E;
    [|vm_compute in E; discriminate E].
  destruct (normalize_path_no_dotdot (replicate 40 7) (str "/../../etc/./passwd") buf
              ltac:(apply (bool_decide_unpack _); vm_compute; exact I)
              ltac:(apply Nat.ltb_lt; reflexivity) E) as [_ H].
  vm_compute in E. injection E as <-. exact H.
Defined.

(** A path of [n >= 100] directories makes [normalize_path] store the end
    of the 100th segment at [pathindcies[ 100 ]], one past the array. *)
Theorem normalize_path_overrun (normpath name : bytes) (n : nat) :
  cstring name → c_slash ∉ name → name ≠ [] →
  name ≠ str "." → name ≠ str ".." →
  (MAX_PATH_INDECIES <= n)%nat → (n * S (length name) < length normpath)%nat →
  normalize_path normpath (concat (replicate n (name ++ [c_slash]))) = Fault OutOfBounds.
Proof.
  intros Hc Hn Hne Hd Hdd Hmax Hroom.
  set (path := concat (replicate n (name ++ [c_slash]))).
  assert (Hlen : length path = (n * S (length name))%nat).
  { unfold path. clear. induction n as [|n IH]; [done|]. simpl.
    rewrite !length_app, IH. simpl. lia. }
  assert (Hp : cstring path).
  { unfold path. clear -Hc. induction n as [|n IH]; [by constructor|]. simpl.
    apply cstring_app. split; [|done]. apply cstring_app. split; [done|].
    constructor; [unfold is_char, c_slash; lia | by constructor]. }
  pose proof (normalize_path_run normpath path Hp ltac:(lia)) as H.
  assert (path_parts path = replicate n (name ++ [c_slash])) as Hparts.
  { transitivity (segments path); [|by apply segments_replicate].
    destruct path as [|c p] eqn:E; [simpl in Hlen; unfold MAX_PATH_INDECIES in *; lia | done]. }
  destruct (seg_class name (name ++ [c_slash]) Hn ltac:(by right)) as (H1 & H2 & H3).
  rewrite Hparts, norm_run_replicate in H; [done | | | | unfold MAX_PATH_INDECIES in *; simpl; lia..].
  - rewrite H1. by apply bool_decide_eq_false.
  - rewrite H2. by apply bool_decide_eq_false.
  - rewrite H3. destruct name; done.
Qed.

Lemma normalize_path_overrun_witness :
  normalize_path (replicate 4096 0) (concat (replicate 100 (str "a/"))) = Fault OutOfBounds.
Proof.
  apply (normalize_path_overrun (replicate 4096 0) (str "a") 100).
  - apply (bool_decide_unpack _). vm_compute. exact I.
  - apply (bool_decide_unpack _). vm_compute. exact I.
  - discriminate.
  - discriminate.
  - discriminate.
  - apply Nat.leb_le. reflexivity.
  - apply Nat.ltb_lt. vm_compute. reflexivity.
Defined.

(** [strnstr] returns the first occurrence that lies within the first
    [slen] bytes, and NULL exactly when there is none. *)
Theorem strnstr_spec (s find : bytes) (slen : Z) :
  match strnstr s find slen with
  | Some i => (i < length s)%nat ∧ Z.of_nat (i + length find) <= slen ∧
              find `prefix_of` drop i s ∧
              (∀ j, (j < i)%nat → ¬ find `prefix_of` drop j s)
  | None => ∀ i, (i < length s)%nat → Z.of_nat (i + length find) <= slen →
              ¬ find `prefix_of` drop i s
  end.
Proof.
  destruct (strnstr s find slen) as [i|] eqn:E; [by apply strnstr_Some|].
  intros i. induction i as [i IH] using lt_wf_ind. intros Hi Hs Hp.
  assert (strnstr s find slen = Some i) as H; [|congruence].
  apply strnstr_Some. split; [done|]. split; [done|]. split; [done|].
  intros j Hj. apply IH; lia.
Qed.

(** [xtoi] converts up to eight hexadecimal digits to their value, its
    32-bit wrap-around included, rejects more than eight and stops with the
    error code 4 at a character that is no digit. *)
Theorem xtoi_spec (xs : bytes) (r0 : Z) :
  (Forall (fun c => isxdigit c = true) xs → (0 < length xs <= 8)%nat →
   xtoi xs r0 = (1, hex_value xs) ∧ 0 <= hex_value xs < 2 ^ 32) ∧
  ((8 < length xs)%nat → xtoi xs r0 = (2, r0)) ∧
  (∀ ys c, xs = ys ++ [c] → isxdigit c = false → (length xs <= 8)%nat →
   xtoi xs r0 = (4, 0)).
Proof.
  split; [|split].
  - intros Hx Hl. split; [by apply xtoi_digits|].
    pose proof (hex_value_bound xs Hx).
    assert (16 ^ Z.of_nat (length xs) <= 16 ^ 8) by (apply Z.pow_le_mono_r; lia). lia.
  - intros Hl. unfold xtoi.
    by rewrite (proj2 (Nat.ltb_lt 0 _)), (proj2 (Nat.ltb_lt 8 _)) by lia.
  - intros ys c -> Hc Hl. unfold xtoi.
    rewrite (proj2 (Nat.ltb_ge 8 _)), reverse_snoc by lia. simpl. rewrite Hc.
    rewrite length_app. simpl. by rewrite Nat.add_comm.
Qed.

(** [stopproc] always returns: it probes the process at most fourteen
    times, reports success only when a probe said that the process is gone,
    and gives up with EBUSY on a process that stays alive. *)
Theorem stopproc_total (probe : nat → option Z) :
  ∃ r e sleeps, stopproc true probe = Done (r, e, sleeps) ∧
    (r = true → ∃ k, (k <= 14)%nat ∧ probe k = Some ESRCH) ∧
    ((∀ k, probe k = None) →
     r = false ∧ e = Some EBUSY ∧ foldr Z.add 0 sleeps = 19500000).
Proof.
  destruct (wait_dead_total 14 probe 0 0) as (k & sl & Hw & Hk & _); [lia..|].
  unfold stopproc. cbn [negb]. rewrite Hw. cbn [mbind res_bind].
  destruct (probe k) as [e|] eqn:E.
  - eexists _, _, _. split; [done|]. split; [|intros H; congruence].
    intros ->%Z.eqb_eq. exists k. split; [lia | done].
  - eexists _, _, _. split; [done|]. split; [done|].
    intros Hn. split; [done|]. split; [done|].
    assert (wait_dead 14 (fun _ => None) 0 0 = Done (k, sl)) as H.
    { rewrite <- Hw. clear -Hn. generalize 14%nat at 1 2. intros fuel.
      generalize O at 1 2. generalize 0 at 1 2.
      induction fuel as [|fuel IH]; intros time k; simpl; [done|].
      rewrite Hn. case_test; [|done]. by rewrite IH. }
    vm_compute in H. by injection H as <- <-.
Qed.
