(* ===== verification/UrlDecoder.v ===== *)
(** urldecoder.c: percent-decoding with the table of 256 replacement strings.
    The buffer of the caller has a capacity; writing past it is a fault. *)

From Stdlib Require Import ZArith Lia Ascii String.
From S2P Require Export General.

Local Open Scope Z_scope.

(** The bytes are those of the UTF-8 source file. *)
Definition urlcodes : list bytes := [
  (* %00 *) [];
  (* %01 *) [];
  (* %02 *) [];
  (* %03 *) [];
  (* %04 *) [];
  (* %05 *) [];
  (* %06 *) [];
  (* %07 *) [];
  (* %08 *) [];
  (* %09 *) [];
  (* %0A *) [];
  (* %0B *) [];
  (* %0C *) [];
  (* %0D *) [];
  (* %0E *) [];
  (* %0F *) [];
  (* %10 *) [];
  (* %11 *) [];
  (* %12 *) [];
  (* %13 *) [];
  (* %14 *) [];
  (* %15 *) [];
  (* %16 *) [];
  (* %17 *) [];
  (* %18 *) [];
  (* %19 *) [];
  (* %1A *) [];
  (* %1B *) [];
  (* %1C *) [];
  (* %1D *) [];
  (* %1E *) [];
  (* %1F *) [];
  (* %20 *) str " ";
  (* %21 *) str "!";
  (* %22 *) [c_quote];
  (* %23 *) str "#";
  (* %24 *) str "$";
  (* %25 *) str "%";
  (* %26 *) str "&";
  (* %27 *) str "'";
  (* %28 *) str "(";
  (* %29 *) str ")";
  (* %2A *) str "*";
  (* %2B *) str "+";
  (* %2C *) str ",";
  (* %2D *) str "-";
  (* %2E *) str ".";
  (* %2F *) str "/";
  (* %30 *) str "0";
  (* %31 *) str "1";
  (* %32 *) str "2";
  (* %33 *) str "3";
  (* %34 *) str "4";
  (* %35 *) str "5";
  (* %36 *) str "6";
  (* %37 *) str "7";
  (* %38 *) str "8";
  (* %39 *) str "9";
  (* %3A *) str ":";
  (* %3B *) str ";";
  (* %3C *) str "<";
  (* %3D *) str "=";
  (* %3E *) str ">";
  (* %3F *) str "?";
  (* %40 *) str "@";
  (* %41 *) str "A";
  (* %42 *) str "B";
  (* %43 *) str "C";
  (* %44 *) str "D";
  (* %45 *) str "E";
  (* %46 *) str "F";
  (* %47 *) str "G";
  (* %48 *) str "H";
  (* %49 *) str "I";
  (* %4A *) str "J";
  (* %4B *) str "K";
  (* %4C *) str "L";
  (* %4D *) str "M";
  (* %4E *) str "N";
  (* %4F *) str "O";
  (* %50 *) str "P";
  (* %51 *) str "Q";
  (* %52 *) str "R";
  (* %53 *) str "S";
  (* %54 *) str "T";
  (* %55 *) str "U";
  (* %56 *) str "V";
  (* %57 *) str "W";
  (* %58 *) str "X";
  (* %59 *) str "Y";
  (* %5A *) str "Z";
  (* %5B *) str "[";
  (* %5C *) str "\";
  (* %5D *) str "]";
  (* %5E *) str "^";
  (* %5F *) str "_";
  (* %60 *) str "`";
  (* %61 *) str "a";
  (* %62 *) str "b";
  (* %63 *) str "c";
  (* %64 *) str "d";
  (* %65 *) str "e";
  (* %66 *) str "f";
  (* %67 *) str "g";
  (* %68 *) str "h";
  (* %69 *) str "i";
  (* %6A *) str "j";
  (* %6B *) str "k";
  (* %6C *) str "l";
  (* %6D *) str "m";
  (* %6E *) str "n";
  (* %6F *) str "o";
  (* %70 *) str "p";
  (* %71 *) str "q";
  (* %72 *) str "r";
  (* %73 *) str "s";
  (* %74 *) str "t";
  (* %75 *) str "u";
  (* %76 *) str "v";
  (* %77 *) str "w";
  (* %78 *) str "x";
  (* %79 *) str "y";
  (* %7A *) str "z";
  (* %7B *) str "{";
  (* %7C *) str "|";
  (* %7D *) str "}";
  (* %7E *) str "~";
  (* %7F *) str " ";
  (* %80 *) str "€";
  (* %81 *) str " ";
  (* %82 *) str "‚";
  (* %83 *) str "ƒ";
  (* %84 *) str "„";
  (* %85 *) str "…";
  (* %86 *) str "†";
  (* %87 *) str "‡";
  (* %88 *) str "ˆ";
  (* %89 *) str "‰";
  (* %8A *) str "Š";
  (* %8B *) str "‹";
  (* %8C *) str "Œ";
  (* %8D *) str " ";
  (* %8E *) str "Ž";
  (* %8F *) str " ";
  (* %90 *) str " ";
  (* %91 *) str "‘";
  (* %92 *) str "’";
  (* %93 *) str "“";
  (* %94 *) str "”";
  (* %95 *) str "•";
  (* %96 *) str "–";
  (* %97 *) str "—";
  (* %98 *) str "˜";
  (* %99 *) str "™";
  (* %9A *) str "š";
  (* %9B *) str "›";
  (* %9C *) str "œ";
  (* %9D *) str " ";
  (* %9E *) str "ž";
  (* %9F *) str "Ÿ";
  (* %A0 *) str " ";
  (* %A1 *) str "¡";
  (* %A2 *) str "¢";
  (* %A3 *) str "£";
  (* %A4 *) str " ";
  (* %A5 *) str "¥";
  (* %A6 *) str "|";
  (* %A7 *) str "§";
  (* %A8 *) str "¨";
  (* %A9 *) str "©";
  (* %AA *) str "ª";
  (* %AB *) str "«";
  (* %AC *) str "¬";
  (* %AD *) str "¯";
  (* %AE *) str "®";
  (* %AF *) str "¯";
  (* %B0 *) str "°";
  (* %B1 *) str "±";
  (* %B2 *) str "²";
  (* %B3 *) str "³";
  (* %B4 *) str "´";
  (* %B5 *) str "µ";
  (* %B6 *) str "¶";
  (* %B7 *) str "·";
  (* %B8 *) str "¸";
  (* %B9 *) str "¹";
  (* %BA *) str "º";
  (* %BB *) str "»";
  (* %BC *) str "¼";
  (* %BD *) str "½";
  (* %BE *) str "¾";
  (* %BF *) str "¿";
  (* %C0 *) str "À";
  (* %C1 *) str "Á";
  (* %C2 *) str "Â";
  (* %C3 *) str "Ã";
  (* %C4 *) str "Ä";
  (* %C5 *) str "Å";
  (* %C6 *) str "Æ";
  (* %C7 *) str "Ç";
  (* %C8 *) str "È";
  (* %C9 *) str "É";
  (* %CA *) str "Ê";
  (* %CB *) str "Ë";
  (* %CC *) str "Ì";
  (* %CD *) str "Í";
  (* %CE *) str "Î";
  (* %CF *) str "Ï";
  (* %D0 *) str "Ð";
  (* %D1 *) str "Ñ";
  (* %D2 *) str "Ò";
  (* %D3 *) str "Ó";
  (* %D4 *) str "Ô";
  (* %D5 *) str "Õ";
  (* %D6 *) str "Ö";
  (* %D7 *) str " ";
  (* %D8 *) str "Ø";
  (* %D9 *) str "Ù";
  (* %DA *) str "Ú";
  (* %DB *) str "Û";
  (* %DC *) str "Ü";
  (* %DD *) str "Ý";
  (* %DE *) str "Þ";
  (* %DF *) str "ß";
  (* %E0 *) str "à";
  (* %E1 *) str "á";
  (* %E2 *) str "â";
  (* %E3 *) str "ã";
  (* %E4 *) str "ä";
  (* %E5 *) str "å";
  (* %E6 *) str "æ";
  (* %E7 *) str "ç";
  (* %E8 *) str "è";
  (* %E9 *) str "é";
  (* %EA *) str "ê";
  (* %EB *) str "ë";
  (* %EC *) str "ì";
  (* %ED *) str "í";
  (* %EE *) str "î";
  (* %EF *) str "ï";
  (* %F0 *) str "ð";
  (* %F1 *) str "ñ";
  (* %F2 *) str "ò";
  (* %F3 *) str "ó";
  (* %F4 *) str "ô";
  (* %F5 *) str "õ";
  (* %F6 *) str "ö";
  (* %F7 *) str "÷";
  (* %F8 *) str "ø";
  (* %F9 *) str "ù";
  (* %FA *) str "ú";
  (* %FB *) str "û";
  (* %FC *) str "ü";
  (* %FD *) str "ý";
  (* %FE *) str "þ";
  (* %FF *) str "ÿ"
].

(** One round per escape; [out] is what is in the buffer, [p] the rest of the
    local copy [url].  On [break] the rest is still appended. *)
Fixpoint url_decode_loop (fuel : nat) (out p : bytes) : res bytes :=
  match fuel with
  | O => Fault OutOfFuel
  | S fuel =>
      match strchr p c_percent with
      | None => Done (out ++ p)
      | Some n =>
          let out := out ++ take n p in
          let q := drop (S n) p in
          if (char_at q 0 =? 0) || (char_at q 1 =? 0) then Done (out ++ p)
          else
            code ← at_index (urlcodes !! Z.to_nat (snd (xtoi (take 2 q) 0)));
            url_decode_loop fuel (out ++ code) (drop 2 q)
      end
  end.

(** [raw_url] is memory: the copy stops at [url_len] bytes or at a terminator. *)
Definition url_decode_string (raw_url : bytes) (url_len : nat) : res bytes :=
  let url := cstr (take url_len raw_url) in
  url_decode_loop (S (length url)) [] url.

Definition url_decode (cap : nat) (raw_url : bytes) (url_len : nat) : res bytes :=
  out ← url_decode_string raw_url url_len;
  strcpy_into cap out.

(** ** Encoding, for the round trip *)

Definition hex_digit (n : Z) : Z := if n <? 10 then 48 + n else 55 + n.

Definition percent_char (c : Z) : bytes := [c_percent; hex_digit (c / 16); hex_digit (c mod 16)].

(** The bytes that [escape] selects are written as escapes. *)
Definition percent_encode (escape : Z → bool) (s : bytes) : bytes :=
  concat ((fun c => if escape c then percent_char c else [c]) <$> s).

(** Every percent sign is followed by two characters. *)
Definition complete_escapes (s : bytes) : Prop :=
  ∀ pre suf, s = pre ++ c_percent :: suf → (2 <= length suf)%nat.

(** ** Lemmas *)

Lemma urlcodes_length : length urlcodes = 256%nat.
Proof. reflexivity. Qed.

Lemma urlcodes_ok : Forall (fun s => (length s <= 3)%nat ∧ cstring s) urlcodes.
Proof. apply (bool_decide_unpack _). vm_compute. exact I. Qed.

Lemma urlcodes_lookup z :
  0 <= z < 256 → ∃ code, urlcodes !! Z.to_nat z = Some code ∧
    (length code <= 3)%nat ∧ cstring code.
Proof.
  intros Hz. destruct (lookup_lt_is_Some_2 urlcodes (Z.to_nat z)) as [code Hc].
  { rewrite urlcodes_length. lia. }
  exists code. split; [done|]. exact (Forall_lookup_1 _ _ _ _ urlcodes_ok Hc).
Qed.

Lemma char_at_cons c s i : char_at (c :: s) (S i) = char_at s i.
Proof. done. Qed.

Lemma char_at_head c s : char_at (c :: s) 0 = c.
Proof. done. Qed.

Lemma char_at_0_nil s : cstring s → (char_at s 0 =? 0) = bool_decide (s = []).
Proof. intros Hs. rewrite char_at_zero by (auto; lia). by rewrite drop_0. Qed.

Lemma complete_drop p n : complete_escapes p → complete_escapes (drop n p).
Proof.
  intros Hc pre suf He. apply (Hc (take n p ++ pre)).
  rewrite <- app_assoc, <- He. by rewrite take_drop.
Qed.

(** Each round either ends or consumes an escape. *)
Lemma url_decode_round p n :
  cstring p → strchr p c_percent = Some n →
  let q := drop (S n) p in
  p = take n p ++ c_percent :: q ∧ length (take n p) = n ∧
  length p = S (n + length q) ∧
  ((char_at q 0 =? 0) || (char_at q 1 =? 0) = true ∧ (length q < 2)%nat ∨
   (char_at q 0 =? 0) || (char_at q 1 =? 0) = false ∧
   ∃ c d r, q = c :: d :: r).
Proof.
  intros Hp Hn q. pose proof (strchr_lt _ _ _ Hn) as Hlt.
  apply strchr_Some in Hn as [Hn _].
  assert (Hq : cstring q) by by apply cstring_drop.
  assert (Hsplit : p = take n p ++ c_percent :: q) by by apply lookup_split.
  split; [done|]. split; [rewrite length_take; lia|]. split.
  { rewrite Hsplit at 1. rewrite length_app, length_take. simpl. lia. }
  destruct q as [|c [|d r]]; [left; auto | left; split; [|simpl; lia] | right].
  - rewrite !char_at_zero by (auto; simpl; lia). done.
  - split; [|eauto]. rewrite !char_at_zero by (auto; simpl; lia). done.
Qed.

Lemma url_decode_loop_total fuel out p :
  cstring p → (length p < fuel)%nat →
  ∃ out', url_decode_loop fuel out p = Done (out ++ out') ∧ cstring out' ∧
    (length out' <= 2 * length p)%nat ∧
    (complete_escapes p → (length out' <= length p)%nat).
Proof.
  revert out p. induction fuel as [|fuel IH]; intros out p Hp Hf; [lia|]. simpl.
  destruct (strchr p c_percent) as [n|] eqn:En; [|exists p; repeat split; auto; lia].
  destruct (url_decode_round p n Hp En) as (Hs & Hl & Hlen & Hcase).
  set (q := drop (S n) p) in *.
  destruct Hcase as [[Ht Hq]|[Ht (c & d & r & Hq)]]; rewrite Ht.
  - exists (take n p ++ p). rewrite app_assoc. split; [done|].
    split; [apply cstring_app; auto with zimr|].
    rewrite length_app. split; [lia|]. intros Hc.
    apply Hc in Hs. lia.
  - rewrite Hq. change (take 2 (c :: d :: r)) with [c; d].
    change (drop 2 (c :: d :: r)) with r.
    destruct (urlcodes_lookup (snd (xtoi [c; d] 0)) (xtoi_two_bound c d 0))
      as (code & Hcode & Hcl & Hcc).
    rewrite Hcode. cbn [at_index mbind res_bind].
    assert (r = drop (S (S (S n))) p) as Hr.
    { replace (S (S (S n))) with (S n + 2)%nat by lia.
      rewrite <- drop_drop. change (drop (S n) p) with q. by rewrite Hq. }
    rewrite Hq in Hlen. simpl in Hlen.
    destruct (IH ((out ++ take n p) ++ code) r) as (out' & Ho & Hoc & Hol & Hol').
    { rewrite Hr. by apply cstring_drop. }
    { lia. }
    exists (take n p ++ code ++ out'). rewrite Ho, <- !app_assoc. split; [done|].
    split; [rewrite !cstring_app; auto with zimr|].
    rewrite !length_app. split; [lia|]. intros Hc.
    assert (complete_escapes r) as Hcr by (rewrite Hr; by apply complete_drop).
    specialize (Hol' Hcr). lia.
Qed.

Lemma url_decode_string_total raw n :
  Forall is_byte raw →
  ∃ out, url_decode_string raw n = Done out ∧ cstring out ∧
    (length out <= 2 * length (cstr (take n raw)))%nat ∧
    (complete_escapes (cstr (take n raw)) → (length out <= length (cstr (take n raw)))%nat).
Proof.
  intros Hr. unfold url_decode_string.
  destruct (url_decode_loop_total (S (length (cstr (take n raw)))) [] (cstr (take n raw)))
    as (out & ? & ?); [|lia | eauto].
  apply cstr_bytes. by apply Forall_take.
Qed.

Lemma cstr_length_le m : (length (cstr m) <= length m)%nat.
Proof. induction m as [|c m IH]; simpl; [lia|]. case_test; simpl; lia. Qed.

Lemma xtoi_percent_char c :
  32 <= c <= 126 → snd (xtoi [hex_digit (c / 16); hex_digit (c mod 16)] 0) = c ∧
    urlcodes !! Z.to_nat c = Some [c].
Proof.
  intros Hc.
  assert (Forall (fun c => snd (xtoi [hex_digit (c / 16); hex_digit (c mod 16)] 0) = c ∧
            urlcodes !! Z.to_nat c = Some [c]) (seqZ 32 95)) as H.
  { apply (bool_decide_unpack _). vm_compute. exact I. }
  rewrite Forall_forall in H. apply H. apply elem_of_seqZ. lia.
Qed.

Lemma percent_encode_cons escape c s :
  percent_encode escape (c :: s) =
  (if escape c then percent_char c else [c]) ++ percent_encode escape s.
Proof. done. Qed.

(** A round on an escape that follows plain text. *)
Lemma url_decode_loop_escape fuel out pre c rest :
  c_percent ∉ pre → 32 <= c <= 126 →
  url_decode_loop (S fuel) out (pre ++ percent_char c ++ rest)
  = url_decode_loop fuel (out ++ pre ++ [c]) rest.
Proof.
  intros Hpre Hc. destruct (xtoi_percent_char c Hc) as [Hx Hcode].
  cbn [url_decode_loop percent_char app].
  rewrite strchr_app, take_app_length by done.
  assert (drop (S (length pre)) (pre ++ c_percent :: hex_digit (c / 16) :: hex_digit (c mod 16) :: rest)
          = hex_digit (c / 16) :: hex_digit (c mod 16) :: rest) as ->.
  { rewrite drop_app_ge by lia. by replace (S (length pre) - length pre)%nat with 1%nat by lia. }
  assert (∀ n, 0 <= n < 16 → hex_digit n ≠ 0) as Hh.
  { intros n Hn. unfold hex_digit. case_test; lia. }
  rewrite char_at_cons, !char_at_head.
  rewrite !(proj2 (Z.eqb_neq (hex_digit _) 0)).
  - set (h := hex_digit (c / 16)) in *. set (l := hex_digit (c mod 16)) in *.
    change (take 2 (h :: l :: rest)) with [h; l].
    change (drop 2 (h :: l :: rest)) with rest.
    rewrite Hx, Hcode. cbn [orb at_index mbind res_bind].
    by rewrite !app_assoc.
  - apply Hh. apply Z.mod_pos_bound. lia.
  - apply Hh. split; [apply Z.div_pos; lia | apply Z.div_lt_upper_bound; lia].
Qed.

Lemma url_decode_loop_encode escape s fuel out pre :
  escape c_percent = true → Forall (fun c => 32 <= c <= 126) s →
  c_percent ∉ pre → (length (pre ++ percent_encode escape s) < fuel)%nat →
  url_decode_loop fuel out (pre ++ percent_encode escape s) = Done (out ++ pre ++ s).
Proof.
  intros He Hs. revert fuel out pre.
  induction Hs as [|c s Hc Hs IH]; intros fuel out pre Hpre Hf;
    (destruct fuel as [|fuel]; [lia|]).
  - unfold percent_encode. simpl. rewrite app_nil_r.
    by rewrite (proj2 (strchr_None _ _) Hpre).
  - rewrite percent_encode_cons in *. destruct (escape c) eqn:Ec.
    + rewrite url_decode_loop_escape by done.
      specialize (IH fuel (out ++ pre ++ [c]) []). simpl in IH. rewrite IH; [|set_solver|].
      * by rewrite <- !app_assoc.
      * rewrite !length_app in Hf. simpl in Hf. lia.
    + replace (pre ++ [c] ++ percent_encode escape s)
        with ((pre ++ [c]) ++ percent_encode escape s) in * by by rewrite <- app_assoc.
      rewrite IH; [by rewrite <- (app_assoc pre) | | done].
      assert (c ≠ c_percent) by congruence. set_solver.
Qed.

Lemma percent_encode_cstring escape s :
  Forall (fun c => 32 <= c <= 126) s → cstring (percent_encode escape s).
Proof.
  induction 1 as [|c s Hc Hs IH]; [by constructor|].
  rewrite percent_encode_cons. apply cstring_app. split; [|done].
  assert (∀ n, 0 <= n < 16 → is_char (hex_digit n)) as Hh.
  { intros n Hn. unfold hex_digit, is_char. case_test; lia. }
  destruct (escape c).
  - unfold percent_char, cstring. rewrite !Forall_cons.
    split; [unfold is_char, c_percent; lia|]. split; [|split; [|done]]; apply Hh.
    + split; [apply Z.div_pos; lia | apply Z.div_lt_upper_bound; lia].
    + apply Z.mod_pos_bound. lia.
  - constructor; [unfold is_char; lia | done].
Qed.

Lemma url_decode_string_encode escape s rest :
  escape c_percent = true → Forall (fun c => 32 <= c <= 126) s →
  url_decode_string (percent_encode escape s ++ rest) (length (percent_encode escape s)) = Done s.
Proof.
  intros He Hs. unfold url_decode_string.
  rewrite take_app_length, cstr_cstring by by apply percent_encode_cstring.
  pose proof (url_decode_loop_encode escape s (S (length (percent_encode escape s))) [] [] He Hs) as H.
  simpl app in H. rewrite H; [done | set_solver | lia].
Qed.

Lemma percent_encode_length escape s : (length s <= length (percent_encode escape s))%nat.
Proof.
  induction s as [|c s IH]; [done|]. rewrite percent_encode_cons, length_app.
  simpl. destruct (escape c); simpl; lia.
Qed.

(** An escaped character does not occur in the encoded text, unless escapes are
    made of it. *)
Lemma percent_encode_not_in escape s c :
  escape c = true → c ≠ c_percent → (c < 48 ∨ 57 < c < 65 ∨ 70 < c) →
  Forall (fun c => 32 <= c <= 126) s → c ∉ percent_encode escape s.
Proof.
  intros He Hp Hc. induction 1 as [|d s Hd Hs IH]; [apply not_elem_of_nil|].
  rewrite percent_encode_cons, elem_of_app. intros [H|H]; [|done].
  assert (∀ n, 0 <= n < 16 → hex_digit n ≠ c) as Hh.
  { intros n Hn. unfold hex_digit. case_test; lia. }
  destruct (escape d) eqn:Ed.
  - unfold percent_char in H. rewrite !elem_of_cons in H.
    destruct H as [H|[H|[H|H]]]; [done| | |by apply elem_of_nil in H].
    + eapply Hh; [|symmetry; exact H]. split; [apply Z.div_pos; lia | apply Z.div_lt_upper_bound; lia].
    + eapply Hh; [|symmetry; exact H]. apply Z.mod_pos_bound. lia.
  - apply list_elem_of_singleton in H. congruence.
Qed.

(** ** Properties *)

(** C37: decoding undoes percent-encoding: for printable text and any choice of
    the characters to escape that includes the percent sign, [url_decode]
    gives the text back, whatever follows the encoded bytes in memory. *)
Theorem url_decode_encode (escape : Z → bool) (s rest : bytes) (cap : nat) :
  escape c_percent = true → Forall (fun c => 32 <= c <= 126) s →
  (length s < cap)%nat →
  let enc := percent_encode escape s in
  url_decode cap (enc ++ rest) (length enc) = Done s.
Proof.
  intros He Hs Hcap enc. unfold url_decode. unfold enc.
  rewrite url_decode_string_encode by done. cbn [mbind res_bind].
  unfold strcpy_into. by rewrite (proj2 (Nat.ltb_lt _ _)) by done.
Qed.

Lemma url_decode_encode_witness :
  url_decode 16 (str "a%20b%2Fc%25" ++ str "&x") 12 = Done (str "a b/c%").
Proof.
  refine (url_decode_encode (fun c => (c =? 32) || (c =? 47) || (c =? 37)) (str "a b/c%") (str "&x") 16 _ _ _).
  - reflexivity.
  - apply (bool_decide_unpack _). vm_compute. exact I.
  - apply Nat.ltb_lt. reflexivity.
Defined.

(** [url_decode] never indexes its table out of range and always returns
    when the buffer has room for twice the input; for an input whose escapes
    are all complete, a buffer of the input's size and a terminator is
    enough. *)
Theorem url_decode_bounds (cap : nat) (raw : bytes) (n : nat) :
  Forall is_byte raw →
  ((2 * length (cstr (take n raw)) < cap)%nat ∨
   complete_escapes (cstr (take n raw)) ∧ (length (cstr (take n raw)) < cap)%nat) →
  ∃ out, url_decode cap raw n = Done out ∧ cstring out ∧ (length out < cap)%nat.
Proof.
  intros Hr Hcap. destruct (url_decode_string_total raw n Hr) as (out & Ho & Hc & Hl & Hl').
  exists out. unfold url_decode. rewrite Ho. cbn [mbind res_bind].
  assert (length out < cap)%nat as Hlt by (destruct Hcap as [?|[Hcomp ?]]; [|specialize (Hl' Hcomp)]; lia).
  unfold strcpy_into. by rewrite (proj2 (Nat.ltb_lt _ _)) by done.
Qed.

Lemma url_decode_bounds_witness :
  ∃ out, url_decode 9 (str "ab%4") 4 = Done out ∧ cstring out ∧ (length out < 9)%nat.
Proof.
  apply (url_decode_bounds 9 (str "ab%4") 4).
  - apply (bool_decide_unpack _). vm_compute. exact I.
  - left. apply Nat.ltb_lt. reflexivity.
Defined.

(** A truncated escape at the end makes [url_decode] append the text before
    it twice: on [pre ++ "%"] the result is [pre ++ pre ++ "%"], which does not
    fit the block of [length + 1] bytes that its callers allocate. *)
Theorem url_decode_truncated_escape (pre : bytes) :
  cstring pre → c_percent ∉ pre → pre ≠ [] →
  let raw := pre ++ [c_percent] in
  url_decode_string raw (length raw) = Done (pre ++ pre ++ [c_percent]) ∧
  url_decode (S (length raw)) raw (length raw) = Fault OutOfBounds.
Proof.
  intros Hc Hpre Hne raw.
  assert (url_decode_string raw (length raw) = Done (pre ++ raw)) as H.
  { unfold url_decode_string. rewrite firstn_all. rewrite cstr_cstring.
    - cbn [url_decode_loop]. unfold raw. rewrite strchr_app by done.
      rewrite drop_ge by (rewrite length_app; simpl; lia).
      by rewrite take_app_length.
    - apply cstring_app. split; [done|]. by repeat constructor. }
  split; [done|]. unfold url_decode. rewrite H. cbn [mbind res_bind].
  unfold strcpy_into. rewrite (proj2 (Nat.ltb_ge _ _)); [done|].
  rewrite length_app. destruct pre; simpl; [done | lia].
Qed.

Lemma url_decode_truncated_escape_witness :
  url_decode_string (str "AAAA%") 5 = Done (str "AAAAAAAA%") ∧
  url_decode 6 (str "AAAA%") 5 = Fault OutOfBounds.
Proof.
  apply (url_decode_truncated_escape (str "AAAA")).
  - apply (bool_decide_unpack _). vm_compute. exact I.
  - apply (bool_decide_unpack _). vm_compute. exact I.
  - discriminate.
Defined.
