(* ===== verification/Mime.v ===== *)
(** mime.c: the MIME type of a file name by its extension, with the table of the
    source and its row count NMIMETYPES. *)

From Stdlib Require Import ZArith Lia Ascii String.
From S2P Require Export General.

Local Open Scope Z_scope.

Definition NMIMETYPES : nat := 186.

Definition mimetype_generic : bytes := str "application/octet-stream".

(** Flat, as in the source: the extensions at the even positions. *)
Definition mimetypes : list bytes := [
  str "323"; str "text/h323";
  str "acx"; str "application/internet-property-stream";
  str "ai"; str "application/postscript";
  str "aif"; str "audio/x-aiff";
  str "aifc"; str "audio/x-aiff";
  str "aiff"; str "audio/x-aiff";
  str "asf"; str "video/x-ms-asf";
  str "asr"; str "video/x-ms-asf";
  str "asx"; str "video/x-ms-asf";
  str "au"; str "audio/basic";
  str "avi"; str "video/x-msvideo";
  str "axs"; str "application/olescript";
  str "bas"; str "text/plain";
  str "bcpio"; str "application/x-bcpio";
  str "bin"; str "application/octet-stream";
  str "bmp"; str "image/bmp";
  str "c"; str "text/plain";
  str "cat"; str "application/vnd.ms-pkiseccat";
  str "cdf"; str "application/x-cdf";
  str "cer"; str "application/x-x509-ca-cert";
  str "class"; str "application/octet-stream";
  str "clp"; str "application/x-msclip";
  str "cmx"; str "image/x-cmx";
  str "cod"; str "image/cis-cod";
  str "cpio"; str "application/x-cpio";
  str "crd"; str "application/x-mscardfile";
  str "crl"; str "application/pkix-crl";
  str "crt"; str "application/x-x509-ca-cert";
  str "csh"; str "application/x-csh";
  str "css"; str "text/css";
  str "dcr"; str "application/x-director";
  str "der"; str "application/x-x509-ca-cert";
  str "dir"; str "application/x-director";
  str "dll"; str "application/x-msdownload";
  str "dms"; str "application/octet-stream";
  str "doc"; str "application/msword";
  str "dot"; str "application/msword";
  str "dvi"; str "application/x-dvi";
  str "dxr"; str "application/x-director";
  str "eps"; str "application/postscript";
  str "etx"; str "text/x-setext";
  str "evy"; str "application/envoy";
  str "exe"; str "application/octet-stream";
  str "fif"; str "application/fractals";
  str "flr"; str "x-world/x-vrml";
  str "gif"; str "image/gif";
  str "gtar"; str "application/x-gtar";
  str "gz"; str "application/x-gzip";
  str "h"; str "text/plain";
  str "hdf"; str "application/x-hdf";
  str "hlp"; str "application/winhlp";
  str "hqx"; str "application/mac-binhex40";
  str "hta"; str "application/hta";
  str "htc"; str "text/x-component";
  str "htm"; str "text/html";
  str "html"; str "text/html";
  str "htt"; str "text/webviewhtml";
  str "ico"; str "image/x-icon";
  str "ief"; str "image/ief";
  str "iii"; str "application/x-iphone";
  str "ins"; str "application/x-internet-signup";
  str "isp"; str "application/x-internet-signup";
  str "jfif"; str "image/pipeg";
  str "jpe"; str "image/jpeg";
  str "jpeg"; str "image/jpeg";
  str "jpg"; str "image/jpeg";
  str "js"; str "application/x-javascript";
  str "latex"; str "application/x-latex";
  str "lha"; str "application/octet-stream";
  str "lsf"; str "video/x-la-asf";
  str "lsx"; str "video/x-la-asf";
  str "lzh"; str "application/octet-stream";
  str "m13"; str "application/x-msmediaview";
  str "m14"; str "application/x-msmediaview";
  str "m3u"; str "audio/x-mpegurl";
  str "man"; str "application/x-troff-man";
  str "mdb"; str "application/x-msaccess";
  str "me"; str "application/x-troff-me";
  str "mht"; str "message/rfc822";
  str "mhtml"; str "message/rfc822";
  str "mid"; str "audio/mid";
  str "mny"; str "application/x-msmoney";
  str "mov"; str "video/quicktime";
  str "movie"; str "video/x-sgi-movie";
  str "mp2"; str "video/mpeg";
  str "mp3"; str "audio/mpeg";
  str "mpa"; str "video/mpeg";
  str "mpe"; str "video/mpeg";
  str "mpeg"; str "video/mpeg";
  str "mpg"; str "video/mpeg";
  str "mpp"; str "application/vnd.ms-project";
  str "mpv2"; str "video/mpeg";
  str "ms"; str "application/x-troff-ms";
  str "mvb"; str "application/x-msmediaview";
  str "nws"; str "message/rfc822";
  str "oda"; str "application/oda";
  str "oga"; str "audio/ogg";
  str "ogg"; str "video/ogg";
  str "ogv"; str "video/ogg";
  str "p10"; str "application/pkcs10";
  str "p12"; str "application/x-pkcs12";
  str "p7b"; str "application/x-pkcs7-certificates";
  str "p7c"; str "application/x-pkcs7-mime";
  str "p7m"; str "application/x-pkcs7-mime";
  str "p7r"; str "application/x-pkcs7-certreqresp";
  str "p7s"; str "application/x-pkcs7-signature";
  str "pbm"; str "image/x-portable-bitmap";
  str "pdf"; str "application/pdf";
  str "pfx"; str "application/x-pkcs12";
  str "pgm"; str "image/x-portable-graymap";
  str "pko"; str "application/ynd.ms-pkipko";
  str "pma"; str "application/x-perfmon";
  str "pmc"; str "application/x-perfmon";
  str "pml"; str "application/x-perfmon";
  str "pmr"; str "application/x-perfmon";
  str "pmw"; str "application/x-perfmon";
  str "pnm"; str "image/x-portable-anymap";
  str "png"; str "image/png";
  str "pot,"; str "application/vnd.ms-powerpoint";
  str "ppm"; str "image/x-portable-pixmap";
  str "pps"; str "application/vnd.ms-powerpoint";
  str "ppt"; str "application/vnd.ms-powerpoint";
  str "prf"; str "application/pics-rules";
  str "ps"; str "application/postscript";
  str "pub"; str "application/x-mspublisher";
  str "qt"; str "video/quicktime";
  str "ra"; str "audio/x-pn-realaudio";
  str "ram"; str "audio/x-pn-realaudio";
  str "ras"; str "image/x-cmu-raster";
  str "rgb"; str "image/x-rgb";
  str "rmi"; str "audio/mid";
  str "roff"; str "application/x-troff";
  str "rtf"; str "application/rtf";
  str "rtx"; str "text/richtext";
  str "scd"; str "application/x-msschedule";
  str "sct"; str "text/scriptlet";
  str "setpay"; str "application/set-payment-initiation";
  str "setreg"; str "application/set-registration-initiation";
  str "sh"; str "application/x-sh";
  str "shar"; str "application/x-shar";
  str "sit"; str "application/x-stuffit";
  str "snd"; str "audio/basic";
  str "spc"; str "application/x-pkcs7-certificates";
  str "spl"; str "application/futuresplash";
  str "src"; str "application/x-wais-source";
  str "sst"; str "application/vnd.ms-pkicertstore";
  str "stl"; str "application/vnd.ms-pkistl";
  str "stm"; str "text/html";
  str "svg"; str "image/svg+xml";
  str "sv4cpio"; str "application/x-sv4cpio";
  str "sv4crc"; str "application/x-sv4crc";
  str "swf"; str "application/x-shockwave-flash";
  str "t"; str "application/x-troff";
  str "tar"; str "application/x-tar";
  str "tcl"; str "application/x-tcl";
  str "tex"; str "application/x-tex";
  str "texi"; str "application/x-texinfo";
  str "texinfo"; str "application/x-texinfo";
  str "tgz"; str "application/x-compressed";
  str "tif"; str "image/tiff";
  str "tiff"; str "image/tiff";
  str "tr"; str "application/x-troff";
  str "trm"; str "application/x-msterminal";
  str "tsv"; str "text/tab-separated-values";
  str "txt"; str "text/plain";
  str "uls"; str "text/iuls";
  str "ustar"; str "application/x-ustar";
  str "vcf"; str "text/x-vcard";
  str "vrml"; str "x-world/x-vrml";
  str "wav"; str "audio/x-wav";
  str "wcm"; str "application/vnd.ms-works";
  str "wdb"; str "application/vnd.ms-works";
  str "webm"; str "video/webm";
  str "wks"; str "application/vnd.ms-works";
  str "wmf"; str "application/x-msmetafile";
  str "wps"; str "application/vnd.ms-works";
  str "wri"; str "application/x-mswrite";
  str "wrl"; str "x-world/x-vrml";
  str "wrz"; str "x-world/x-vrml";
  str "xaf"; str "x-world/x-vrml";
  str "xbm"; str "image/x-xbitmap";
  str "xla"; str "application/vnd.ms-excel";
  str "xlc"; str "application/vnd.ms-excel";
  str "xlm"; str "application/vnd.ms-excel";
  str "xls"; str "application/vnd.ms-excel";
  str "xlt"; str "application/vnd.ms-excel";
  str "xlw"; str "application/vnd.ms-excel";
  str "xof"; str "x-world/x-vrml";
  str "xpm"; str "image/x-xpixmap";
  str "xwd"; str "image/x-xwindowdump";
  str "z"; str "application/x-compress";
  str "zip"; str "application/zip"
].

(** The loop from row [i], with [n] rows to go. *)
Fixpoint mime_search (ext : bytes) (i n : nat) : option bytes :=
  match n with
  | O => None
  | S n =>
      if strcmp_eq ext (default [] (mimetypes !! (i * 2)%nat))
      then mimetypes !! (i * 2 + 1)%nat
      else mime_search ext (S i) n
  end.

Definition mime_get_type (filename : bytes) : bytes :=
  match strrchr filename c_dot with
  | None => mimetype_generic
  | Some k =>
      default mimetype_generic (mime_search (drop (S k) filename) 0 NMIMETYPES)
  end.

(** The rows of the table, as pairs. *)
Fixpoint pair_up (l : list bytes) : list (bytes * bytes) :=
  match l with
  | a :: b :: l => (a, b) :: pair_up l
  | _ => []
  end.

Definition mime_rows : list (bytes * bytes) := pair_up mimetypes.

(** ** Lemmas *)

Lemma mime_rows_length : length mime_rows = 192%nat.
Proof. reflexivity. Qed.

Lemma pair_up_lookup l i :
  pair_up l !! i = a ← l !! (i * 2)%nat; b ← l !! (i * 2 + 1)%nat; Some (a, b).
Proof.
  revert l i. fix IH 1. intros [|a [|b l]] [|i]; try reflexivity.
  exact (IH l i).
Qed.

Lemma mime_rows_lookup i r :
  mime_rows !! i = Some r →
  mimetypes !! (i * 2)%nat = Some (fst r) ∧ mimetypes !! (i * 2 + 1)%nat = Some (snd r).
Proof.
  unfold mime_rows. rewrite pair_up_lookup. destruct r as [a b]. intros H.
  apply bind_Some in H as (a' & Ha & H). apply bind_Some in H as (b' & Hb & [= <- <-]). done.
Qed.

(** The search returns the first row with the extension, among those below the
    count. *)
Lemma mime_search_spec ext i n :
  (i + n <= length mime_rows)%nat →
  match mime_search ext i n with
  | Some t => ∃ j, (i <= j < i + n)%nat ∧ mime_rows !! j = Some (ext, t) ∧
                ∀ k r, (i <= k < j)%nat → mime_rows !! k = Some r → fst r ≠ ext
  | None => ∀ k r, (i <= k < i + n)%nat → mime_rows !! k = Some r → fst r ≠ ext
  end.
Proof.
  revert i. induction n as [|n IH]; intros i Hl; cbn [mime_search]; [lia|].
  destruct (lookup_lt_is_Some_2 mime_rows i) as [[e t] Hr]; [lia|].
  destruct (mime_rows_lookup _ _ Hr) as [He Ht]. rewrite He, Ht. simpl default. cbn [id fst snd] in *.
  destruct (strcmp_eq ext e) eqn:Ee; unfold strcmp_eq in Ee; zbool.
  - subst e. exists i. repeat split; auto; lia.
  - assert (∀ r, mime_rows !! i = Some r → fst r ≠ ext) as Hi.
    { intros r Hr'. rewrite Hr in Hr'. injection Hr' as <-. simpl. congruence. }
    specialize (IH (S i) ltac:(lia)). destruct (mime_search ext (S i) n) as [t'|].
    + destruct IH as (j & Hj & Hjr & Hf). exists j. repeat split; auto; [lia..|].
      intros k r Hk Hkr. destruct (decide (k = i)) as [->|]; [auto|]. apply (Hf k r); auto. lia.
    + intros k r Hk Hkr. destruct (decide (k = i)) as [->|]; [auto|].
      apply (IH k r); auto. lia.
Qed.

(** ** Properties *)

(** The type of a name whose last dot is followed by [ext] is the one of the
    first of the 186 rows with that extension; it is the generic type when no
    row among them has it, or when the name has no dot at all. *)
Theorem mime_get_type_spec (filename : bytes) :
  (c_dot ∉ filename ∧ mime_get_type filename = mimetype_generic) ∨
  (∃ base ext, filename = base ++ c_dot :: ext ∧ c_dot ∉ ext ∧
     ((∃ j t, (j < NMIMETYPES)%nat ∧ mime_rows !! j = Some (ext, t) ∧
        mime_get_type filename = t ∧
        ∀ k r, (k < j)%nat → mime_rows !! k = Some r → fst r ≠ ext) ∨
      (mime_get_type filename = mimetype_generic ∧
        ∀ k r, (k < NMIMETYPES)%nat → mime_rows !! k = Some r → fst r ≠ ext))).
Proof.
  unfold mime_get_type. destruct (strrchr filename c_dot) as [k|] eqn:Ek.
  - right. apply strrchr_Some in Ek as [Hk Hn].
    exists (take k filename), (drop (S k) filename).
    split; [by apply lookup_split|]. split; [done|].
    pose proof (mime_search_spec (drop (S k) filename) 0 NMIMETYPES) as H.
    rewrite mime_rows_length in H. specialize (H ltac:(by apply Nat.leb_le)).
    destruct (mime_search _ 0 NMIMETYPES) as [t|]; [left | right].
    + destruct H as (j & Hj & Hr & Hf). exists j, t. repeat split; auto; [lia|].
      intros k' r Hk'. apply Hf. lia.
    + split; [done|]. intros k' r Hk'. apply H. lia.
  - left. split; [|done]. by apply strrchr_None.
Qed.

(** The count is six short of the table: the last rows, among them the one
    of zip archives, are never found. *)
Theorem mime_last_rows_lost :
  length mime_rows = (NMIMETYPES + 6)%nat ∧
  drop NMIMETYPES mime_rows !! 5%nat = Some (str "zip", str "application/zip") ∧
  Forall (fun r => mime_get_type (str "a." ++ fst r) = mimetype_generic)
         (drop NMIMETYPES mime_rows).
Proof.
  split; [reflexivity|]. split; [vm_compute; reflexivity|].
  apply (bool_decide_unpack _). vm_compute. exact I.
Qed.
