(* ===== verification/Headers.v ===== *)
(** headers.c: the header list of requests and responses.

    [headers_t] is an array of HEADERS_MAX_NUM records and a count; the model
    keeps the list of the counted records, and a pointer to a record is its
    index.  Each record has two arrays of fixed size: a longer name or value
    given to [headers_set_header] is a [Fault], and so is a record past the end
    of the array. *)

From Stdlib Require Import ZArith Lia Ascii String.
From S2P Require Export General.

Local Open Scope Z_scope.

Definition HEADERS_MAX_NUM : nat := 32.
Definition HEADER_NAME_MAX_LEN : nat := 128.
Definition HEADER_VALUE_MAX_LEN : nat := 2048.

Definition HTTP_HDR_ENDL : bytes := [c_cr; c_lf].

Record header_t := Header { h_name : bytes; h_value : bytes }.

Abbreviation headers_t := (list header_t).

#[export] Instance header_eq_dec : EqDecision header_t.
Proof. solve_decision. Defined.

(** ** Names *)

(** [before] is the text that precedes [ptr], [ptr] the text from it. *)
Fixpoint formatname_loop (fuel : nat) (before ptr : bytes) : res bytes :=
  match fuel with
  | O => Fault OutOfFuel
  | S fuel =>
      let ptr := match ptr with [] => [] | c :: r => toupper c :: r end in
      match strstr ptr [c_minus] with
      | None => Done (before ++ ptr)
      | Some n => formatname_loop fuel (before ++ take (S n) ptr) (drop (S n) ptr)
      end
  end.

Definition header_formatname (name : bytes) : res bytes :=
  formatname_loop (S (length name)) [] name.

(** ** Parsing *)

Fixpoint skip_blanks (s : bytes) : bytes :=
  match s with
  | c :: s' => if c =? c_space then skip_blanks s' else s
  | [] => []
  end.

(** [room] is what is left of the array. *)
Fixpoint headers_parse_loop (room : nat) (headers : headers_t) (raw : bytes)
  : res headers_t :=
  match room with
  | O => Done headers
  | S room =>
      if startswith raw HTTP_HDR_ENDL || (char_at raw 0 =? c_lf) || (char_at raw 0 =? 0)
      then Done headers
      else
        match strstr raw [c_colon] with
        | None | Some O => Done headers
        | Some n =>
            name ← header_formatname
                     (strtolower (take (min n (HEADER_NAME_MAX_LEN - 1)) raw));
            let raw := skip_blanks (drop (S n) raw) in
            match strstr raw HTTP_HDR_ENDL with
            | None => Done headers
            | Some k =>
                let value := take (min k (HEADER_VALUE_MAX_LEN - 1)) raw in
                headers_parse_loop room (headers ++ [Header name value])
                  (drop (k + length HTTP_HDR_ENDL) raw)
            end
        end
  end.

Definition headers_parse (raw : bytes) : res headers_t :=
  headers_parse_loop HEADERS_MAX_NUM [] raw.

(** ** Printing: [cap] is the size of the caller's buffer *)

Definition header_line (h : header_t) : bytes :=
  h_name h ++ str ": " ++ h_value h ++ HTTP_HDR_ENDL.

Definition headers_to_string (cap : nat) (headers : headers_t) : res bytes :=
  strcpy_into cap (concat (header_line <$> headers) ++ HTTP_HDR_ENDL).

(** ** Lookup and update *)

Fixpoint find_name (headers : headers_t) (name : bytes) (i : nat) : option nat :=
  match headers with
  | [] => None
  | h :: headers =>
      if strcmp_eq (h_name h) name then Some i else find_name headers name (S i)
  end.

Definition headers_get_header (headers : headers_t) (orig_name : bytes)
  : res (option nat) :=
  name ← header_formatname (strtolower orig_name);
  Done (find_name headers name 0).

Definition set_cookie_name : bytes := str "Set-Cookie".

(** The next record of the array is filled. *)
Definition append_header (headers : headers_t) (name value : bytes)
  : res (headers_t * nat) :=
  _ ← (if (length headers <? HEADERS_MAX_NUM)%nat then Done tt else Fault OutOfBounds);
  n ← strcpy_into HEADER_NAME_MAX_LEN name;
  n ← header_formatname (strtolower n);
  v ← strcpy_into HEADER_VALUE_MAX_LEN value;
  Done (headers ++ [Header n v], length headers).

Definition headers_set_header (headers : headers_t) (name value : bytes)
  : res (headers_t * nat) :=
  found ← headers_get_header headers name;
  match found with
  | None => append_header headers name value
  | Some i =>
      h ← at_index (headers !! i);
      if strcmp_eq (h_name h) set_cookie_name then append_header headers name value
      else
        v ← strcpy_into HEADER_VALUE_MAX_LEN value;
        Done (<[i := Header (h_name h) v]> headers, i)
  end.

(** ** Attributes of a value *)

(** The search for [name] followed by an equals sign; the result is the text
    after it.  When [strstr] fails the result is NULL. *)
Fixpoint attr_search (fuel : nat) (head name : bytes) : res (option bytes) :=
  match fuel with
  | O => Fault OutOfFuel
  | S fuel =>
      match strstr head name with
      | None => Done None
      | Some n =>
          let head := drop (n + length name) head in
          if char_at head 0 =? c_eq then Done (Some (drop 1 head))
          else attr_search fuel head name
      end
  end.

(** The text up to a separator, or to the end. *)
Definition up_to (c : Z) (s : bytes) : bytes :=
  take (default (length s) (strchr s c)) s.

(** The bytes that the function leaves in its array [value]. *)
Definition headers_get_header_attr (header : header_t) (name : option bytes)
  : res (option bytes) :=
  match name with
  | None => Done (Some (up_to c_semi (h_value header)))
  | Some name =>
      head ← attr_search (S (length (h_value header))) (h_value header) name;
      Done (match head with
            | None => None
            | Some head =>
                if char_at head 0 =? c_quote then
                  match strchr (drop 1 head) c_quote with
                  | Some n => Some (take n (drop 1 head))
                  | None => Some (up_to c_semi head)
                  end
                else Some (up_to c_semi head)
            end)
  end.

(** [strtol( s, &end, 10 )]: the value and the text from [end]. *)
Definition strtol10_end (s : bytes) : Z * bytes :=
  let s1 := skip_spaces s in
  let '(neg, s2) :=
    match s1 with
    | 45 :: s' => (true, s')
    | 43 :: s' => (false, s')
    | _ => (false, s1)
    end in
  let '(v, rest) := read_digits 0 s2 in
  (clamp (- 2 ^ 63) (2 ^ 63 - 1) (if (neg : bool) then - v else v),
   if isdigit (char_at s2 0) then rest else s).

Definition headers_header_range_parse (header : header_t) : res (Z * Z) :=
  attr ← headers_get_header_attr header (Some (str "bytes"));
  Done (match attr with
        | None => (0, -1)
        | Some bytes =>
            match strchr bytes c_minus with
            | None => (0, -1)
            | Some n =>
                let '(range_start, sep) :=
                  if (n =? 0)%nat then (0, bytes)
                  else let '(v, e) := strtol10_end bytes in (wrap_s32 v, e) in
                let sep := drop 1 sep in
                (range_start, if char_at sep 0 =? 0 then -1 else atoi sep)
            end
        end).

(** ** Specification vocabulary *)

(** A capital at the start and after each dash. *)
Fixpoint capitalize (up : bool) (s : bytes) : bytes :=
  match s with
  | [] => []
  | c :: s => let c := if up then toupper c else c in c :: capitalize (c =? c_minus) s
  end.

Definition canonical (name : bytes) : bytes := capitalize true (strtolower name).

(** A header that survives printing and parsing. *)
Record wf_header (h : header_t) : Prop := {
  wf_name_canonical : canonical (h_name h) = h_name h;
  wf_name_nonempty : h_name h ≠ [];
  wf_name_length : (length (h_name h) < HEADER_NAME_MAX_LEN)%nat;
  wf_name_chars : Forall (fun c => c ≠ 0 ∧ c ≠ c_colon ∧ c ≠ c_cr ∧ c ≠ c_lf) (h_name h);
  wf_value_length : (length (h_value h) < HEADER_VALUE_MAX_LEN)%nat;
  wf_value_cr : c_cr ∉ h_value h;
  wf_value_blank : head (h_value h) ≠ Some c_space
}.

(** What always fits the arrays. *)
Definition fits (h : header_t) : Prop :=
  (length (h_name h) < HEADER_NAME_MAX_LEN)%nat ∧
  (length (h_value h) < HEADER_VALUE_MAX_LEN)%nat ∧
  canonical (h_name h) = h_name h.

(** The value that a lookup finds. *)
Definition header_value (headers : headers_t) (name : bytes) : option bytes :=
  h_value <$> (find_name headers (canonical name) 0 ≫= λ i, headers !! i).

(** The names but Set-Cookie. *)
Definition plain_names (headers : headers_t) : list bytes :=
  filter (λ n, n ≠ set_cookie_name) (h_name <$> headers).

Definition digits_value (s : bytes) : Z := foldl (fun v c => 10 * v + (c - 48)) 0 s.

Definition digits (s : bytes) : Prop := Forall (fun c => isdigit c = true) s.

(** ** Lemmas on names *)

Lemma capitalize_dash s up n :
  strchr s c_minus = Some n →
  capitalize up s = capitalize up (take (S n) s) ++ capitalize true (drop (S n) s).
Proof.
  revert up n. induction s as [|c s IH]; intros up n H; [done|]. simpl in H.
  destruct (Z.eqb_spec c c_minus) as [->|Hne].
  - injection H as <-. by destruct up.
  - destruct (strchr s c_minus) as [k|] eqn:E; [|done]. injection H as <-.
    change (take (S (S k)) (c :: s)) with (c :: take (S k) s).
    change (drop (S (S k)) (c :: s)) with (drop (S k) s).
    cbn [capitalize app]. f_equal. by apply IH.
Qed.

Lemma capitalize_false s : c_minus ∉ s → capitalize false s = s.
Proof.
  induction s as [|c s IH]; intros H; [done|]. rewrite not_elem_of_cons in H. simpl.
  rewrite (proj2 (Z.eqb_neq c c_minus)) by (intros ->; tauto). f_equal. tauto.
Qed.

Lemma capitalize_true_cons c s :
  capitalize true (c :: s) = capitalize false (toupper c :: s).
Proof. done. Qed.

Lemma capitalize_before s n :
  strchr s c_minus = Some n → capitalize false (take (S n) s) = take (S n) s.
Proof.
  revert n. induction s as [|c s IH]; intros n H; [done|]. simpl in H.
  destruct (Z.eqb_spec c c_minus) as [->|Hne]; [by injection H as <-|].
  destruct (strchr s c_minus) as [k|] eqn:E; [|done]. injection H as <-.
  change (take (S (S k)) (c :: s)) with (c :: take (S k) s). cbn [capitalize].
  rewrite (proj2 (Z.eqb_neq c c_minus)) by done. f_equal. by apply IH.
Qed.

Lemma formatname_loop_spec fuel before ptr :
  (length ptr < fuel)%nat →
  formatname_loop fuel before ptr = Done (before ++ capitalize true ptr).
Proof.
  revert before ptr. induction fuel as [|fuel IH]; intros before ptr Hf; [lia|].
  cbn [formatname_loop]. set (p := match ptr with [] => [] | c :: r => toupper c :: r end).
  assert (capitalize true ptr = capitalize false p) as -> by by destruct ptr.
  assert (length p = length ptr) as Hl by by destruct ptr.
  rewrite strstr_single. destruct (strchr p c_minus) as [n|] eqn:En.
  - pose proof (strchr_lt _ _ _ En) as Hn. rewrite IH.
    + by rewrite (capitalize_dash p false n En), <- app_assoc, (capitalize_before p n En).
    + rewrite length_drop. lia.
  - rewrite capitalize_false; [done|]. by apply strchr_None.
Qed.

Lemma header_formatname_spec name :
  header_formatname name = Done (capitalize true name).
Proof. unfold header_formatname. by rewrite formatname_loop_spec by lia. Qed.

Lemma capitalize_length up s : length (capitalize up s) = length s.
Proof. revert up. induction s; intros; simpl; congruence. Qed.

Lemma canonical_length name : length (canonical name) = length name.
Proof. unfold canonical, strtolower. by rewrite capitalize_length, length_fmap. Qed.

Lemma strtolower_capitalize up s : strtolower (capitalize up s) = strtolower s.
Proof.
  revert up. induction s as [|c s IH]; intros up; [done|].
  unfold strtolower in *. simpl. rewrite IH. f_equal.
  destruct up; [apply tolower_toupper | done].
Qed.

Lemma strtolower_idem s : strtolower (strtolower s) = strtolower s.
Proof.
  unfold strtolower. rewrite <- list_fmap_compose. apply list_fmap_ext.
  intros i x _. apply tolower_idem.
Qed.

Lemma strtolower_canonical name : strtolower (canonical name) = strtolower name.
Proof. unfold canonical. by rewrite strtolower_capitalize, strtolower_idem. Qed.

Lemma canonical_idem name : canonical (canonical name) = canonical name.
Proof. unfold canonical at 1. by rewrite strtolower_canonical. Qed.

Lemma canonical_eq a b : canonical a = canonical b ↔ strtolower a = strtolower b.
Proof.
  split; [|by unfold canonical; intros ->].
  intros H. by rewrite <- (strtolower_canonical a), H, strtolower_canonical.
Qed.

#[export] Hint Rewrite header_formatname_spec : res.

(** ** Lemmas on lookup *)

Lemma find_name_shift hs name i :
  find_name hs name i = (λ k, (i + k)%nat) <$> find_name hs name 0.
Proof.
  revert i. induction hs as [|h hs IH]; intros i; [done|]. simpl.
  case_test; [simpl; f_equal; lia|].
  rewrite (IH (S i)), (IH 1%nat). destruct (find_name hs name 0); [|done].
  simpl. f_equal. lia.
Qed.

Lemma find_name_Some hs name i :
  find_name hs name 0 = Some i ↔
  (∃ h, hs !! i = Some h ∧ h_name h = name) ∧
  ∀ j h, (j < i)%nat → hs !! j = Some h → h_name h ≠ name.
Proof.
  revert i. induction hs as [|h hs IH]; intros i; simpl.
  - split; [done|]. intros [(h & Hh & _) _]. by rewrite lookup_nil in Hh.
  - unfold strcmp_eq. case_bool_decide as Hn.
    + split.
      * intros [= <-]. split; [by exists h | lia].
      * intros [_ Hf]. destruct i as [|i]; [done|].
        exfalso. apply (Hf O h); [lia | done | done].
    + rewrite find_name_shift, fmap_Some. split.
      * intros (k & Hk & ->). apply IH in Hk as [(h' & Hh & Hn') Hf].
        split; [by exists h'|]. intros [|j] g Hj Hg; simpl in Hg; [congruence|].
        apply (Hf j); [lia | done].
      * intros [(h' & Hh & Hn') Hf]. destruct i as [|i]; simpl in Hh; [congruence|].
        exists i. split; [|done]. apply IH. split; [by exists h'|].
        intros j g Hj Hg. apply (Hf (S j)); [lia | done].
Qed.

Lemma find_name_None hs name :
  find_name hs name 0 = None ↔ name ∉ (h_name <$> hs).
Proof.
  induction hs as [|h hs IH]; simpl; [split; [intros _; apply not_elem_of_nil | done]|].
  rewrite not_elem_of_cons. unfold strcmp_eq. case_bool_decide as Hn.
  - split; [done|]. intros [H _]. congruence.
  - rewrite find_name_shift, fmap_None, IH. intuition congruence.
Qed.

Lemma find_name_app_l hs hs' name i :
  find_name hs name 0 = Some i → find_name (hs ++ hs') name 0 = Some i.
Proof.
  rewrite !find_name_Some. intros [(h & Hh & Hn) Hf]. split.
  - exists h. split; [by apply lookup_app_l_Some | done].
  - intros j g Hj Hg. apply (Hf j); [done|].
    rewrite lookup_app_l in Hg; [done|]. apply lookup_lt_Some in Hh. lia.
Qed.

Lemma find_name_app_r hs h name :
  find_name hs name 0 = None →
  find_name (hs ++ [h]) name 0 =
  if strcmp_eq (h_name h) name then Some (length hs) else None.
Proof.
  intros H. unfold strcmp_eq. case_bool_decide as Hn.
  - apply find_name_Some. split; [exists h; by rewrite list_lookup_middle|].
    intros j g Hj Hg He. apply find_name_None in H. apply H.
    rewrite lookup_app_l in Hg by done. rewrite <- He.
    apply list_elem_of_fmap_2. by eapply list_elem_of_lookup_2.
  - apply find_name_None in H. apply find_name_None.
    rewrite fmap_app, elem_of_app. simpl. rewrite list_elem_of_singleton. intros [?|?]; congruence.
Qed.

(** Overwriting a value does not change the lookup of names. *)
Lemma find_name_insert hs i h v name :
  hs !! i = Some h → find_name (<[i := Header (h_name h) v]> hs) name 0 = find_name hs name 0.
Proof.
  intros Hi.
  assert (∀ k g, <[i := Header (h_name h) v]> hs !! k = Some g →
            ∃ g', hs !! k = Some g' ∧ h_name g' = h_name g) as H1.
  { intros k g Hg. destruct (decide (k = i)) as [->|].
    - rewrite list_lookup_insert_eq in Hg by (by eapply lookup_lt_Some).
      injection Hg as <-. by exists h.
    - rewrite list_lookup_insert_ne in Hg by done. by exists g. }
  assert (∀ k g, hs !! k = Some g →
            ∃ g', <[i := Header (h_name h) v]> hs !! k = Some g' ∧ h_name g' = h_name g) as H2.
  { intros k g Hg. destruct (decide (k = i)) as [->|].
    - exists (Header (h_name h) v). simplify_eq. split; [|done].
      rewrite list_lookup_insert_eq; [done | by eapply lookup_lt_Some].
    - exists g. by rewrite list_lookup_insert_ne. }
  destruct (find_name hs name 0) as [k|] eqn:E.
  - apply find_name_Some in E as [(g & Hg & Hn) Hf]. apply find_name_Some. split.
    + destruct (H2 _ _ Hg) as (g' & ? & ?). exists g'. split; congruence.
    + intros j g' Hj Hg'. destruct (H1 _ _ Hg') as (g'' & Hg'' & <-). eauto.
  - apply find_name_None in E. apply find_name_None. intros Hin. apply E.
    rewrite list_fmap_insert in Hin. simpl in Hin.
    rewrite list_insert_id in Hin; [done|]. by rewrite list_lookup_fmap, Hi.
Qed.

Lemma headers_get_header_spec hs name :
  headers_get_header hs name = Done (find_name hs (canonical name) 0).
Proof.
  unfold headers_get_header. rewrite header_formatname_spec. done.
Qed.

Lemma set_cookie_canonical : canonical set_cookie_name = set_cookie_name.
Proof. reflexivity. Qed.

Lemma append_header_inv hs name value hs' i :
  append_header hs name value = Done (hs', i) →
  (length value < HEADER_VALUE_MAX_LEN)%nat ∧ (length name < HEADER_NAME_MAX_LEN)%nat ∧
  (length hs < HEADERS_MAX_NUM)%nat ∧
  hs' = hs ++ [Header (canonical name) value] ∧ i = length hs.
Proof.
  unfold append_header, strcpy_into. intros H.
  destruct (length hs <? _)%nat eqn:E1; [|done].
  destruct (length name <? _)%nat eqn:E2; [|done].
  cbn [mbind res_bind] in H. rewrite header_formatname_spec in H. cbn [mbind res_bind] in H.
  destruct (length value <? _)%nat eqn:E3; [|done].
  simpl in H. zbool. simplify_eq. auto.
Qed.

(** What [headers_set_header] does, when its arguments fit. *)
Lemma headers_set_header_inv hs name value hs' i :
  headers_set_header hs name value = Done (hs', i) →
  (length value < HEADER_VALUE_MAX_LEN)%nat ∧
  ((hs' = hs ++ [Header (canonical name) value] ∧ i = length hs ∧
    (length hs < HEADERS_MAX_NUM)%nat ∧ (length name < HEADER_NAME_MAX_LEN)%nat ∧
    (find_name hs (canonical name) 0 = None ∨ canonical name = set_cookie_name)) ∨
   (∃ h, hs !! i = Some h ∧ h_name h = canonical name ∧ canonical name ≠ set_cookie_name ∧
      find_name hs (canonical name) 0 = Some i ∧
      hs' = <[i := Header (h_name h) value]> hs)).
Proof.
  unfold headers_set_header. rewrite headers_get_header_spec. cbn [mbind res_bind].
  intros H. destruct (find_name hs (canonical name) 0) as [k|] eqn:Ek.
  - pose proof (proj1 (find_name_Some _ _ _) Ek) as [(h & Hh & Hn) _].
    rewrite Hh in H. cbn [at_index mbind res_bind] in H.
    destruct (strcmp_eq (h_name h) set_cookie_name) eqn:Es; unfold strcmp_eq in Es; zbool.
    + apply append_header_inv in H as (? & ? & ? & -> & ->).
      split; [done|]. left. repeat split; auto. right. congruence.
    + unfold strcpy_into in H.
      destruct (length value <? HEADER_VALUE_MAX_LEN)%nat eqn:E; [|done].
      simplify_eq/=. zbool. split; [done|]. right. exists h. repeat split; auto. congruence.
  - apply append_header_inv in H as (? & ? & ? & -> & ->).
    split; [done|]. left. repeat split; auto.
Qed.

Lemma plain_names_insert hs i h v :
  hs !! i = Some h → plain_names (<[i := Header (h_name h) v]> hs) = plain_names hs.
Proof.
  intros Hi. unfold plain_names. f_equal. rewrite list_fmap_insert. simpl.
  apply list_insert_id. by rewrite list_lookup_fmap, Hi.
Qed.

Lemma plain_names_app hs h :
  plain_names (hs ++ [h]) =
  plain_names hs ++ if decide (h_name h ≠ set_cookie_name) then [h_name h] else [].
Proof. unfold plain_names. rewrite fmap_app, filter_app. simpl. by rewrite filter_cons, filter_nil. Qed.

(** ** Lemmas on parsing *)

Lemma skip_blanks_cons s t : head (s ++ t) ≠ Some c_space → skip_blanks (s ++ t) = s ++ t.
Proof.
  destruct (s ++ t) as [|c r]; [done|]. simpl. intros H.
  rewrite (proj2 (Z.eqb_neq c c_space)) by congruence. done.
Qed.

Lemma skip_blanks_blank s : skip_blanks (c_space :: s) = skip_blanks s.
Proof. done. Qed.

Lemma headers_parse_loop_fits room hs raw :
  Forall fits hs →
  ∃ out, headers_parse_loop room hs raw = Done out ∧ Forall fits out ∧
    (length out <= length hs + room)%nat.
Proof.
  revert hs raw. induction room as [|room IH]; intros hs raw Hf; cbn [headers_parse_loop].
  { exists hs. repeat split; auto. lia. }
  case_test; [exists hs; repeat split; auto; lia|].
  rewrite strstr_single.
  destruct (strchr raw c_colon) as [[|n]|]; [exists hs; repeat split; auto; lia| |
                                            exists hs; repeat split; auto; lia].
  rewrite header_formatname_spec. cbn [mbind res_bind].
  destruct (strstr (skip_blanks _) HTTP_HDR_ENDL) as [k|]; [|exists hs; repeat split; auto; lia].
  destruct (IH (hs ++ [Header
      (canonical (take (min (S n) (HEADER_NAME_MAX_LEN - 1)) raw))
      (take (min k (HEADER_VALUE_MAX_LEN - 1)) (skip_blanks (drop (S (S n)) raw)))])
      (drop (k + length HTTP_HDR_ENDL) (skip_blanks (drop (S (S n)) raw))))
    as (out & Ho & Hof & Hl).
  - apply Forall_app. split; [done|]. constructor; [|done]. unfold fits. cbn [h_name h_value].
    rewrite canonical_length, !length_take, canonical_idem.
    unfold HEADER_NAME_MAX_LEN, HEADER_VALUE_MAX_LEN. split; [lia|]. split; [lia | done].
  - exists out. split; [exact Ho|]. split; [done|]. rewrite length_app in Hl. simpl in Hl. lia.
Qed.

(** One printed line is read back as one record. *)
Lemma headers_parse_loop_line room hs h rest :
  wf_header h →
  headers_parse_loop (S room) hs (header_line h ++ rest)
  = headers_parse_loop room (hs ++ [h]) rest.
Proof.
  intros [Hcan Hne Hnl Hnc Hvl Hcr Hbl]. destruct h as [name value]. simpl in *.
  unfold header_line. cbn [h_name h_value].
  rewrite <- !app_assoc. destruct name as [|c name]; [done|].
  pose proof (Forall_cons_1 _ _ _ Hnc) as [(H0 & Hcol & Hc & Hlf) Hnc'].
  cbn [headers_parse_loop].
  assert (startswith ((c :: name) ++ str ": " ++ value ++ HTTP_HDR_ENDL ++ rest)
            HTTP_HDR_ENDL = false) as ->.
  { simpl. by rewrite (proj2 (Z.eqb_neq c c_cr)). }
  change (char_at ((c :: name) ++ str ": " ++ value ++ HTTP_HDR_ENDL ++ rest) 0) with c.
  rewrite (proj2 (Z.eqb_neq c c_lf)), (proj2 (Z.eqb_neq c 0)) by done.
  cbn [orb]. rewrite strstr_single.
  change (str ": " ++ value ++ HTTP_HDR_ENDL ++ rest)
    with (c_colon :: c_space :: value ++ HTTP_HDR_ENDL ++ rest).
  rewrite strchr_app.
  2: { intros Hin. rewrite Forall_forall in Hnc. by destruct (Hnc _ Hin) as (_ & ? & _). }
  change (length (c :: name)) with (S (length name)). rewrite header_formatname_spec.
  cbn [mbind res_bind].
  replace (drop (S (S (length name))) ((c :: name) ++ c_colon :: c_space :: value ++ HTTP_HDR_ENDL ++ rest))
    with (c_space :: value ++ HTTP_HDR_ENDL ++ rest).
  2: { change (S (S (length name))) with (S (length (c :: name))).
       rewrite drop_app_ge by lia. by replace (_ - _)%nat with 1%nat by lia. }
  rewrite skip_blanks_blank, skip_blanks_cons by by destruct value.
  unfold HTTP_HDR_ENDL at 1. rewrite strstr_sep by done. simpl in Hnl.
  change (drop (length value + length HTTP_HDR_ENDL)) with (drop (A := Z) (length value + 2)).
  f_equal.
  - f_equal. f_equal. f_equal.
    + rewrite Nat.min_l by (unfold HEADER_NAME_MAX_LEN in *; lia).
      change (S (length name)) with (length (c :: name)). by rewrite take_app_length.
    + rewrite Nat.min_l by (unfold HEADER_VALUE_MAX_LEN in *; lia). by rewrite take_app_length.
  - rewrite <- drop_drop, drop_app_length. done.
Qed.

Lemma headers_parse_loop_lines hs acc room body :
  Forall wf_header hs → (length hs <= room)%nat →
  headers_parse_loop room acc ((concat (header_line <$> hs) ++ HTTP_HDR_ENDL) ++ body)
  = Done (acc ++ hs).
Proof.
  intros Hw. revert acc room. induction Hw as [|h hs Hh Hw IH]; intros acc room Hl.
  - rewrite app_nil_r. destruct room as [|room]; [done|]. cbn [headers_parse_loop fmap list_fmap concat app].
    by destruct body.
  - destruct room as [|room]; [simpl in Hl; lia|]. simpl fmap. simpl concat.
    rewrite <- !app_assoc. rewrite headers_parse_loop_line by done.
    rewrite app_assoc, IH by (simpl in Hl; lia). by rewrite <- app_assoc.
Qed.

(** ** Lemmas on number ranges *)

Lemma read_digits_app acc a s :
  digits a → isdigit (char_at s 0) = false →
  read_digits acc (a ++ s) = (foldl (fun v c => 10 * v + (c - 48)) acc a, s).
Proof.
  intros Ha Hs. revert acc. induction Ha as [|c a Hc Ha IH]; intros acc; simpl.
  - destruct s as [|d s]; [done|]. unfold char_at in Hs. simpl in *. by rewrite Hs.
  - by rewrite Hc, IH.
Qed.

Lemma isdigit_cases c : isdigit c = true → 48 <= c <= 57.
Proof. unfold isdigit. intros H. zbool. lia. Qed.

(** A digit is not a sign. *)
Lemma no_sign c s :
  isdigit c = true →
  match c :: s with
  | 45 :: s' => (true, s')
  | 43 :: s' => (false, s')
  | _ => (false, c :: s)
  end = (false, c :: s).
Proof.
  intros H%isdigit_cases.
  assert (c = 48 ∨ c = 49 ∨ c = 50 ∨ c = 51 ∨ c = 52 ∨ c = 53 ∨ c = 54 ∨ c = 55 ∨ c = 56 ∨ c = 57)
    as Hc by lia.
  by repeat destruct Hc as [->|Hc]; [..|rewrite Hc].
Qed.

Lemma isdigit_not_space c : isdigit c = true → isspace c = false.
Proof.
  intros H%isdigit_cases. unfold isspace.
  rewrite (proj2 (Z.eqb_neq c 32)), (proj2 (Z.leb_gt c 13)) by lia. by rewrite andb_false_r.
Qed.

Lemma digits_value_nonneg a acc :
  digits a → 0 <= acc → 0 <= foldl (fun v c => 10 * v + (c - 48)) acc a.
Proof.
  intros Ha. revert acc. induction Ha as [|c a Hc Ha IH]; intros acc H; simpl; [done|].
  apply IH. apply isdigit_cases in Hc. lia.
Qed.

Lemma strtol10_end_digits a s :
  digits a → a ≠ [] → isdigit (char_at s 0) = false → digits_value a < 2 ^ 31 →
  strtol10_end (a ++ s) = (digits_value a, s).
Proof.
  intros Ha Hne Hs Hv. destruct a as [|c a]; [done|].
  pose proof (Forall_cons_1 _ _ _ Ha) as [Hc _].
  unfold strtol10_end. simpl app. cbn [skip_spaces].
  rewrite isdigit_not_space, no_sign by done.
  change (char_at (c :: a ++ s) 0) with c. rewrite Hc.
  change (c :: a ++ s) with ((c :: a) ++ s). rewrite read_digits_app by done.
  pose proof (digits_value_nonneg _ 0 Ha ltac:(lia)). unfold digits_value in *.
  unfold clamp. f_equal. lia.
Qed.

Lemma atoi_digits b :
  digits b → b ≠ [] → digits_value b < 2 ^ 31 → atoi b = digits_value b.
Proof.
  intros Hb Hne Hv. destruct b as [|c b]; [done|].
  pose proof (Forall_cons_1 _ _ _ Hb) as [Hc _].
  unfold atoi, strtol10. cbn [skip_spaces].
  rewrite isdigit_not_space, no_sign by done.
  pose proof (read_digits_app 0 (c :: b) [] Hb eq_refl) as Hr. rewrite app_nil_r in Hr.
  rewrite Hr. cbn [fst]. pose proof (digits_value_nonneg _ 0 Hb ltac:(lia)).
  unfold digits_value in *. unfold clamp. rewrite wrap_s32_small; lia.
Qed.

Lemma digits_not_in a c : digits a → isdigit c = false → c ∉ a.
Proof. intros Ha Hc Hin. unfold digits in Ha; rewrite Forall_forall in Ha. rewrite (Ha _ Hin) in Hc. done. Qed.

(** ** Properties *)

(** [headers_parse] reads back what [headers_to_string] printed, whatever
    follows: at most 32 well-formed headers (canonical names without colons or
    line ends, values without carriage returns or leading blanks, both within
    their arrays). *)
Theorem headers_parse_to_string (hs : headers_t) (cap : nat) (s body : bytes) :
  Forall wf_header hs → (length hs <= HEADERS_MAX_NUM)%nat →
  headers_to_string cap hs = Done s → headers_parse (s ++ body) = Done hs.
Proof.
  intros Hw Hl. unfold headers_to_string, strcpy_into. case_test; [|done].
  intros [= <-]. unfold headers_parse. by rewrite headers_parse_loop_lines.
Qed.

Definition example_headers : headers_t :=
  [Header (str "Content-Type") (str "text/html"); Header (str "Set-Cookie") (str "a=b; path=/")].

Lemma headers_parse_to_string_witness :
  headers_parse ((concat (header_line <$> example_headers) ++ HTTP_HDR_ENDL) ++ str "body")
  = Done example_headers.
Proof.
  apply (headers_parse_to_string example_headers 1024).
  - repeat constructor; try (vm_compute; reflexivity); try discriminate;
      try (apply Nat.ltb_lt; vm_compute; reflexivity);
      try (apply (bool_decide_unpack _); vm_compute; exact I).
  - apply Nat.leb_le. reflexivity.
  - vm_compute. reflexivity.
Defined.

(** C39: whatever the input, [headers_parse] ends, fills at most the 32 records
    of the array, and every name (in canonical form) and value fits its
    array. *)
Theorem headers_parse_fits (raw : bytes) :
  ∃ hs, headers_parse raw = Done hs ∧ (length hs <= HEADERS_MAX_NUM)%nat ∧ Forall fits hs.
Proof.
  destruct (headers_parse_loop_fits HEADERS_MAX_NUM [] raw) as (hs & H & Hf & Hl); [done|].
  by exists hs.
Qed.

(** After [headers_set_header] of a name other than Set-Cookie, a lookup of
    that name in any capitalisation finds the returned record with the new
    value; the values of all other names are unchanged, and the names stay
    distinct. *)
Theorem headers_set_get (hs hs' : headers_t) (name value : bytes) (i : nat) :
  headers_set_header hs name value = Done (hs', i) → canonical name ≠ set_cookie_name →
  (∀ name', strtolower name' = strtolower name →
     headers_get_header hs' name' = Done (Some i) ∧ header_value hs' name' = Some value) ∧
  (∀ name', strtolower name' ≠ strtolower name →
     header_value hs' name' = header_value hs name') ∧
  (NoDup (plain_names hs) → NoDup (plain_names hs')).
Proof.
  intros H Hsc. apply headers_set_header_inv in H as [_ [(-> & -> & _ & _ & Hn)|H]].
  - destruct Hn as [Hn|Hn]; [|done].
    pose proof (find_name_app_r hs (Header (canonical name) value) (canonical name) Hn) as Hf.
    simpl in Hf. rewrite strcmp_eq_refl in Hf.
    split; [|split].
    + intros name' He. apply canonical_eq in He.
      rewrite headers_get_header_spec. unfold header_value. rewrite He, Hf. simpl.
      by rewrite list_lookup_middle.
    + intros name' He. unfold header_value.
      assert (canonical name ≠ canonical name') as Hne by (rewrite canonical_eq; congruence).
      destruct (find_name hs (canonical name') 0) as [k|] eqn:Ek.
      * rewrite (find_name_app_l _ _ _ _ Ek). simpl.
        apply find_name_Some in Ek as [(h & Hh & _) _].
        rewrite Hh. by rewrite (lookup_app_l_Some _ _ _ _ Hh).
      * rewrite find_name_app_r by done. simpl.
        by rewrite strcmp_eq_ne by done.
    + intros Hd. rewrite plain_names_app. simpl. rewrite decide_True by done.
      apply NoDup_app. split; [done|]. split; [|apply NoDup_singleton].
      intros x Hx ->%list_elem_of_singleton. apply list_elem_of_filter in Hx as [_ Hx].
      by apply find_name_None in Hn.
  - destruct H as (h & Hh & Hname & _ & Hf & ->).
    pose proof (lookup_lt_Some _ _ _ Hh) as Hlt. split; [|split].
    + intros name' He. apply canonical_eq in He.
      rewrite headers_get_header_spec. unfold header_value.
      rewrite He, find_name_insert, Hf by done. simpl. by rewrite list_lookup_insert_eq.
    + intros name' He. unfold header_value.
      assert (canonical name ≠ canonical name') as Hne by (rewrite canonical_eq; congruence).
      rewrite find_name_insert by done.
      destruct (find_name hs (canonical name') 0) as [k|] eqn:Ek; [|done]. simpl.
      rewrite list_lookup_insert_ne; [done|]. intros ->.
      apply find_name_Some in Ek as [(g & Hg & Hn') _]. congruence.
    + by rewrite plain_names_insert.
Qed.

Lemma headers_set_get_witness :
  header_value [Header (str "Content-Type") (str "text/plain");
                Header (str "Set-Cookie") (str "a=b; path=/")] (str "content-TYPE")
  = Some (str "text/plain").
Proof.
  destruct (headers_set_get example_headers [Header (str "Content-Type") (str "text/plain");
              Header (str "Set-Cookie") (str "a=b; path=/")] (str "CONTENT-type") (str "text/plain") 0%nat)
    as (H & _); [vm_compute; reflexivity | discriminate |].
  apply H. reflexivity.
Defined.

(** A Set-Cookie header is always added, after all the others, and a lookup
    still finds the first one. *)
Theorem headers_set_cookie_appends (hs hs' : headers_t) (name value : bytes) (i : nat) :
  headers_set_header hs name value = Done (hs', i) → canonical name = set_cookie_name →
  hs' = hs ++ [Header set_cookie_name value] ∧ i = length hs ∧
  headers_get_header hs' name =
    Done (Some (default (length hs) (find_name hs set_cookie_name 0))).
Proof.
  intros H Hsc. apply headers_set_header_inv in H as [_ [(-> & -> & _)|(h & _ & _ & ? & _)]]; [|done].
  rewrite Hsc. repeat split. rewrite headers_get_header_spec, Hsc. f_equal.
  destruct (find_name hs set_cookie_name 0) as [k|] eqn:Ek; [by apply find_name_app_l|].
  rewrite find_name_app_r by done. by rewrite strcmp_eq_refl.
Qed.

Lemma headers_set_cookie_appends_witness :
  headers_get_header (example_headers ++ [Header set_cookie_name (str "c=d")]) (str "set-cookie")
  = Done (Some 1%nat).
Proof.
  apply (headers_set_cookie_appends example_headers _ (str "set-cookie") (str "c=d") 2%nat);
    vm_compute; reflexivity.
Defined.

(** The range of a request: for digits [a] and [b] with values below [2^31],
    bytes=a-b gives the two numbers, an absent [a] counts as 0 and an absent [b]
    as -1 (the end). *)
Theorem headers_header_range_parse_spec (name a b : bytes) :
  digits a → digits b → digits_value a < 2 ^ 31 → digits_value b < 2 ^ 31 →
  headers_header_range_parse (Header name (str "bytes=" ++ a ++ c_minus :: b))
  = Done (digits_value a, if decide (b = []) then -1 else digits_value b).
Proof.
  intros Ha Hb Hva Hvb. unfold headers_header_range_parse, headers_get_header_attr.
  assert (char_at (a ++ c_minus :: b) 0 =? c_quote = false) as Hq.
  { destruct Ha as [|c a Hc Ha]; [done|]. apply isdigit_cases in Hc.
    apply Z.eqb_neq. unfold char_at, c_quote. simpl. lia. }
  assert (up_to c_semi (a ++ c_minus :: b) = a ++ c_minus :: b) as Hu.
  { unfold up_to. rewrite (proj2 (strchr_None _ _)); [apply firstn_all|].
    rewrite elem_of_app, elem_of_cons. intros [H|[H|H]]; [|done|].
    - by apply (digits_not_in a c_semi Ha eq_refl).
    - by apply (digits_not_in b c_semi Hb eq_refl). }
  cbn [h_value]. change (attr_search _ _ _) with (Done (A := option bytes) (Some (a ++ c_minus :: b))).
  cbn [mbind res_bind]. rewrite Hq, Hu.
  rewrite strchr_app by by apply (digits_not_in a c_minus Ha eq_refl).
  assert (∀ s, (if char_at (drop 1 (c_minus :: b)) 0 =? 0 then -1 else atoi (drop 1 (c_minus :: b)))
            = s → s = if decide (b = []) then -1 else digits_value b) as Hend.
  { intros s <-. change (drop 1 (c_minus :: b)) with b. destruct b as [|c b]; [done|].
    change (char_at (c :: b) 0) with c. rewrite decide_False by done.
    pose proof (isdigit_cases c (proj1 (Forall_cons_1 _ _ _ Hb))) as Hc.
    rewrite (proj2 (Z.eqb_neq c 0)) by lia. by apply atoi_digits. }
  f_equal. destruct a as [|c a].
  - cbn [length Nat.eqb app]. f_equal. by apply Hend.
  - cbn [length Nat.eqb]. rewrite strtol10_end_digits by done.
    pose proof (digits_value_nonneg _ 0 Ha ltac:(lia)).
    rewrite wrap_s32_small by (unfold digits_value in *; lia). f_equal. by apply Hend.
Qed.

Lemma headers_header_range_parse_spec_witness :
  headers_header_range_parse (Header (str "Range") (str "bytes=10-25")) = Done (10, 25).
Proof.
  apply (headers_header_range_parse_spec (str "Range") (str "10") (str "25"));
    try reflexivity; repeat constructor.
Defined.
