(* ===== verification/Cookies.v ===== *)
(** cookies.c: the cookies of a connection.

    [cookies_t] is an array of HEADERS_MAX_NUM records and a count; the model
    keeps the list of the counted records (a record is all zero when the count
    reaches it).  The time is an argument of the operations that read the
    clock; the text of a date, and the address that the Max-Age attribute
    prints, are parameters of [cookies_to_string]. *)

From Stdlib Require Import ZArith Lia Ascii String.
From S2P Require Export Headers.

Local Open Scope Z_scope.

Definition COOKIE_NAME_MAX_LEN : nat := 128.
Definition COOKIE_VALUE_MAX_LEN : nat := 512.
Definition COOKIE_DOMAIN_MAX_LEN : nat := 128.
Definition COOKIE_PATH_MAX_LEN : nat := 256.

Record cookie_t := Cookie {
  ck_name : bytes;
  ck_value : bytes;
  ck_domain : bytes;
  ck_path : bytes;
  ck_expires : Z;
  ck_max_age : Z;
  ck_http_only : bool;
  ck_secure : bool;
  ck_updated : bool
}.

Abbreviation cookies_t := (list cookie_t).

#[export] Instance cookie_eq_dec : EqDecision cookie_t.
Proof. solve_decision. Defined.

(** A record of the zeroed array with its name and value. *)
Definition new_cookie (name value : bytes) (updated : bool) : cookie_t :=
  Cookie name value [] [] 0 0 false false updated.

(** ** Parsing *)

Fixpoint cookies_parse_loop (room : nat) (cookies : cookies_t) (raw : bytes) : cookies_t :=
  match room with
  | O => cookies
  | S room =>
      if char_at raw 0 =? 0 then cookies
      else
        match strstr raw [c_eq] with
        | None | Some O => cookies
        | Some n =>
            let name := take (min n (COOKIE_NAME_MAX_LEN - 1)) raw in
            let raw := drop (S n) raw in
            let k := default (length raw) (strstr raw (str "; ")) in
            let value := take (min k (COOKIE_VALUE_MAX_LEN - 1)) raw in
            let raw := drop k raw in
            cookies_parse_loop room (cookies ++ [new_cookie name value false])
              (if char_at raw 0 =? c_semi then drop 2 raw else raw)
        end
  end.

Definition cookies_parse (raw : bytes) : cookies_t :=
  cookies_parse_loop HEADERS_MAX_NUM [] raw.

(** ** Lookup *)

Fixpoint _cookies_get_cookie (cookies : cookies_t) (name : bytes) (i : nat) : option nat :=
  match cookies with
  | [] => None
  | c :: cookies =>
      if strcmp_eq (ck_name c) name then Some i else _cookies_get_cookie cookies name (S i)
  end.

Definition cookies_get_cookie (now : Z) (cookies : cookies_t) (name : bytes)
  : option cookie_t :=
  i ← _cookies_get_cookie cookies name 0;
  c ← cookies !! i;
  if (ck_expires c =? 0) || (now <? ck_expires c) then Some c else None.

(** ** Update *)

(** The assignments after the record was found: each one marks the cookie when
    it changes it. *)
Definition set_value (value : option bytes) (c : cookie_t) : cookie_t :=
  match value with
  | Some v =>
      if strcmp_eq (ck_value c) v then c
      else Cookie (ck_name c) (take (COOKIE_VALUE_MAX_LEN - 1) v) (ck_domain c) (ck_path c)
             (ck_expires c) (ck_max_age c) (ck_http_only c) (ck_secure c) true
  | None => c
  end.

Definition set_max_age (max_age : Z) (c : cookie_t) : cookie_t :=
  if negb (max_age =? 0) && negb (ck_max_age c =? max_age)
  then Cookie (ck_name c) (ck_value c) (ck_domain c) (ck_path c)
         (ck_expires c) max_age (ck_http_only c) (ck_secure c) true
  else c.

Definition set_domain (domain : option bytes) (c : cookie_t) : cookie_t :=
  match domain with
  | Some d =>
      if strcmp_eq (ck_domain c) d then c
      else Cookie (ck_name c) (ck_value c) (take (COOKIE_DOMAIN_MAX_LEN - 1) d) (ck_path c)
             (ck_expires c) (ck_max_age c) (ck_http_only c) (ck_secure c) true
  | None => c
  end.

Definition set_path (path : option bytes) (c : cookie_t) : cookie_t :=
  match path with
  | Some p =>
      if strcmp_eq (ck_path c) p then c
      else Cookie (ck_name c) (ck_value c) (ck_domain c) (take (COOKIE_PATH_MAX_LEN - 1) p)
             (ck_expires c) (ck_max_age c) (ck_http_only c) (ck_secure c) true
  | None => c
  end.

Definition set_http_only (http_only : bool) (c : cookie_t) : cookie_t :=
  if http_only && negb (eqb (ck_http_only c) http_only)
  then Cookie (ck_name c) (ck_value c) (ck_domain c) (ck_path c)
         (ck_expires c) (ck_max_age c) http_only (ck_secure c) true
  else c.

Definition set_secure (secure : bool) (c : cookie_t) : cookie_t :=
  if secure && negb (eqb (ck_secure c) secure)
  then Cookie (ck_name c) (ck_value c) (ck_domain c) (ck_path c)
         (ck_expires c) (ck_max_age c) (ck_http_only c) secure true
  else c.

Definition set_expires (now expires : Z) (c : cookie_t) : cookie_t :=
  if (negb (expires =? 0) && negb (ck_expires c =? expires)) ||
     (ck_updated c && negb (ck_expires c =? 0) && (ck_expires c <? now))
  then Cookie (ck_name c) (ck_value c) (ck_domain c) (ck_path c)
         expires (ck_max_age c) (ck_http_only c) (ck_secure c) true
  else c.

Definition cookies_set_cookie (now : Z) (cookies : cookies_t) (name : bytes)
  (value : option bytes) (expires max_age : Z) (domain path : option bytes)
  (http_only secure : bool) : res cookies_t :=
  let update c :=
    set_expires now expires (set_secure secure (set_http_only http_only
      (set_path path (set_domain domain (set_max_age max_age (set_value value c)))))) in
  match _cookies_get_cookie cookies name 0 with
  | None =>
      if (length cookies <? HEADERS_MAX_NUM)%nat
      then Done (cookies ++ [update (new_cookie (take (COOKIE_NAME_MAX_LEN - 1) name) [] true)])
      else Fault OutOfBounds
  | Some i =>
      c ← at_index (cookies !! i);
      Done (<[i := update c]> cookies)
  end.

(** The clock is read twice: for the date and in [cookies_set_cookie]. *)
Definition cookies_del_cookie (t now : Z) (cookies : cookies_t) (name : bytes)
  : res cookies_t :=
  cookies_set_cookie now cookies name None (t - 31536001) 0 None None false false.

(** ** Printing *)

Section to_string.
(** [strftime] of the local time, and the address of the array [max_age]. *)
Context (strftime : Z → bytes) (max_age_addr : Z).

(** What is appended for a cookie, in order. *)
Definition cookie_segments (c : cookie_t) : list bytes :=
  [ck_name c; str "="; ck_value c] ++
  (if ck_expires c =? 0 then [] else [str "; Expires="; strftime (ck_expires c)]) ++
  (if ck_max_age c =? 0 then []
   else [str "; Max-Age="; dec_string (wrap_s32 max_age_addr)]) ++
  (if (length (ck_path c) =? 0)%nat then [] else [str "; Path="; ck_path c]) ++
  (if (length (ck_domain c) =? 0)%nat then [] else [str "; Domain="; ck_domain c]) ++
  (if ck_secure c then [str "; Secure"] else []) ++
  (if ck_http_only c then [str "; HttpOnly"] else []).

(** [strncat( cookies_str, seg, size ); size -= strlen( seg ); if ( size < 0 )
    break;] for each segment; the flag tells that a [break] was taken. *)
Fixpoint append_segments (out : bytes) (size : Z) (segs : list bytes) : bytes * Z * bool :=
  match segs with
  | [] => (out, size, false)
  | seg :: segs =>
      let out := out ++ take (Z.to_nat size) seg in
      let size := size - Z.of_nat (length seg) in
      if size <? 0 then (out, size, true) else append_segments out size segs
  end.

Fixpoint cookies_to_string_loop (out : bytes) (size : Z) (cookies : cookies_t) : bytes :=
  match cookies with
  | [] => out
  | c :: cookies =>
      if ck_updated c then
        let '(out, size, stop) := append_segments out size (cookie_segments c) in
        if stop then out else cookies_to_string_loop out size cookies
      else cookies_to_string_loop out size cookies
  end.

(** The buffer has [cap] bytes. *)
Definition cookies_to_string (cap : nat) (cookies : cookies_t) (size : Z) : res bytes :=
  strcpy_into cap (cookies_to_string_loop [] size cookies).
End to_string.

(** ** Specification vocabulary *)

(** The Cookie header of a client. *)
Definition cookie_pair (nv : bytes * bytes) : bytes := fst nv ++ c_eq :: snd nv.

Fixpoint print_pairs (l : list (bytes * bytes)) : bytes :=
  match l with
  | [] => []
  | [nv] => cookie_pair nv
  | nv :: l => cookie_pair nv ++ str "; " ++ print_pairs l
  end.

Definition wf_pair (nv : bytes * bytes) : Prop :=
  cstring (fst nv) ∧ fst nv ≠ [] ∧ c_eq ∉ fst nv ∧ (length (fst nv) < COOKIE_NAME_MAX_LEN)%nat ∧
  c_semi ∉ snd nv ∧ (length (snd nv) < COOKIE_VALUE_MAX_LEN)%nat.

(** Only an updated cookie has a date. *)
Definition dated_updated (cs : cookies_t) : Prop :=
  Forall (fun c => ck_expires c ≠ 0 → ck_updated c = true) cs.

Definition update_cookie (now : Z) (value : option bytes) (expires max_age : Z)
  (domain path : option bytes) (http_only secure : bool) (c : cookie_t) : cookie_t :=
  set_expires now expires (set_secure secure (set_http_only http_only
    (set_path path (set_domain domain (set_max_age max_age (set_value value c)))))).

(** ** Lemmas *)

(** Cookies are looked up like headers, whose lemmas carry over. *)
Definition as_header (c : cookie_t) : header_t := Header (ck_name c) (ck_value c).

Lemma cookies_find_headers cs name i :
  _cookies_get_cookie cs name i = find_name (as_header <$> cs) name i.
Proof. revert i. induction cs as [|c cs IH]; intros i; [done|]. simpl. by rewrite IH. Qed.

Lemma cookies_find_Some cs name i :
  _cookies_get_cookie cs name 0 = Some i → ∃ c, cs !! i = Some c ∧ ck_name c = name.
Proof.
  rewrite cookies_find_headers, find_name_Some. intros [(h & Hh & Hn) _].
  rewrite list_lookup_fmap in Hh. apply fmap_Some in Hh as (c & Hc & ->). by exists c.
Qed.

Lemma cookies_find_insert cs i c c' name :
  cs !! i = Some c → ck_name c' = ck_name c →
  _cookies_get_cookie (<[i := c']> cs) name 0 = _cookies_get_cookie cs name 0.
Proof.
  intros Hc Hn. rewrite !cookies_find_headers, list_fmap_insert.
  change (as_header c') with (Header (ck_name c') (ck_value c')). rewrite Hn.
  apply (find_name_insert _ _ (as_header c)). by rewrite list_lookup_fmap, Hc.
Qed.

Lemma cookies_find_snoc cs c name :
  _cookies_get_cookie (cs ++ [c]) name 0 =
  match _cookies_get_cookie cs name 0 with
  | Some i => Some i
  | None => if strcmp_eq (ck_name c) name then Some (length cs) else None
  end.
Proof.
  rewrite !cookies_find_headers, fmap_app.
  destruct (find_name (as_header <$> cs) name 0) eqn:E; [by apply find_name_app_l|].
  simpl. rewrite find_name_app_r by done. by rewrite length_fmap.
Qed.

(** The setters of the other attributes leave name, value and date alone. *)
Definition keeps (c c' : cookie_t) : Prop :=
  ck_name c' = ck_name c ∧ ck_value c' = ck_value c ∧ ck_expires c' = ck_expires c ∧
  (ck_updated c = true → ck_updated c' = true).

Lemma keeps_trans a b c : keeps a b → keeps b c → keeps a c.
Proof. unfold keeps. intuition congruence. Qed.

Lemma keeps_max_age m c : keeps c (set_max_age m c).
Proof. unfold keeps, set_max_age. by case_test. Qed.

Lemma keeps_domain d c : keeps c (set_domain d c).
Proof. unfold keeps, set_domain. destruct d; [case_test|]; done. Qed.

Lemma keeps_path d c : keeps c (set_path d c).
Proof. unfold keeps, set_path. destruct d; [case_test|]; done. Qed.

Lemma keeps_http_only b c : keeps c (set_http_only b c).
Proof. unfold keeps, set_http_only. by case_test. Qed.

Lemma keeps_secure b c : keeps c (set_secure b c).
Proof. unfold keeps, set_secure. by case_test. Qed.

#[export] Hint Resolve keeps_max_age keeps_domain keeps_path keeps_http_only keeps_secure : zimr.

Lemma update_cookie_keeps now v e m d p h s c :
  ∃ c', keeps (set_value v c) c' ∧ update_cookie now v e m d p h s c = set_expires now e c'.
Proof.
  eexists. split; [|reflexivity].
  repeat (eapply keeps_trans; [|solve [auto with zimr]]). by repeat split.
Qed.

(** The name stays, the value is the given one cut to its array, and the date
    is the given one or an old one that is not in the past. *)
Lemma update_cookie_spec now v e m d p h s c :
  let c' := update_cookie now v e m d p h s c in
  ck_name c' = ck_name c ∧
  ck_value c' = ck_value (set_value v c) ∧
  (ck_updated c = true → ck_updated c' = true) ∧
  (ck_expires c' = e ∨
   e = 0 ∧ ck_expires c' = ck_expires c ∧ (ck_updated c = true → ck_expires c = 0 ∨ now <= ck_expires c)) ∧
  ((ck_expires c ≠ 0 → ck_updated c = true) → ck_expires c' ≠ 0 → ck_updated c' = true).
Proof.
  destruct (update_cookie_keeps now v e m d p h s c) as (c1 & (Hn & Hv & He & Hu) & ->).
  assert (ck_name (set_value v c) = ck_name c ∧ ck_expires (set_value v c) = ck_expires c ∧
          (ck_updated c = true → ck_updated (set_value v c) = true)) as (Hn' & He' & Hu').
  { unfold set_value. destruct v; [case_test|]; done. }
  unfold set_expires. case_test; cbn [ck_name ck_value ck_expires ck_updated].
  - split; [congruence|]. split; [done|]. split; [done|]. split; [by left | done].
  - split; [congruence|]. split; [done|]. split; [auto|].
    rewrite He, He'. split.
    + destruct (Z.eq_dec (ck_expires c) e) as [|Hne]; [by left|right].
      rewrite He, He' in *. rewrite (proj2 (Z.eqb_neq (ck_expires c) e)) in * by done.
      split; [|split; [done|]].
      * destruct (Z.eqb_spec e 0); [done|]. simpl in *. discriminate.
      * intros Hup. rewrite (Hu (Hu' Hup)) in *.
        destruct (Z.eqb_spec (ck_expires c) 0); [by left|]. right.
        destruct (Z.ltb_spec (ck_expires c) now); [|done]. simpl in *. discriminate.
    + intros Hd Hx. auto.
Qed.

Lemma cookies_set_cookie_inv now cs name v e m d p h s cs' :
  cookies_set_cookie now cs name v e m d p h s = Done cs' →
  (_cookies_get_cookie cs name 0 = None ∧ (length cs < HEADERS_MAX_NUM)%nat ∧
   cs' = cs ++ [update_cookie now v e m d p h s
                  (new_cookie (take (COOKIE_NAME_MAX_LEN - 1) name) [] true)]) ∨
  (∃ i c, _cookies_get_cookie cs name 0 = Some i ∧ cs !! i = Some c ∧ ck_name c = name ∧
     cs' = <[i := update_cookie now v e m d p h s c]> cs).
Proof.
  unfold cookies_set_cookie. destruct (_cookies_get_cookie cs name 0) as [i|] eqn:Ei.
  - destruct (cookies_find_Some _ _ _ Ei) as (c & Hc & Hn).
    rewrite Hc. intros [= <-]. right. by exists i, c.
  - case_test; [|done]. intros [= <-]. by left.
Qed.

(** After an update, the name finds the updated record and every other name
    what it found before. *)
Lemma cookies_set_lookup now cs name v e m d p h s cs' :
  (length name < COOKIE_NAME_MAX_LEN)%nat →
  cookies_set_cookie now cs name v e m d p h s = Done cs' →
  (∃ c i, (c = new_cookie name [] true ∨ c ∈ cs ∧ ck_name c = name) ∧
     _cookies_get_cookie cs' name 0 = Some i ∧
     cs' !! i = Some (update_cookie now v e m d p h s c)) ∧
  (∀ t name', name' ≠ name → cookies_get_cookie t cs' name' = cookies_get_cookie t cs name').
Proof.
  intros Hl H. apply cookies_set_cookie_inv in H as [(Hf & Hr & ->)|(i & c & Hf & Hc & Hn & ->)].
  - rewrite take_ge by (unfold COOKIE_NAME_MAX_LEN in *; lia).
    set (c := new_cookie name [] true).
    assert (ck_name (update_cookie now v e m d p h s c) = name) as Hname.
    { destruct (update_cookie_spec now v e m d p h s c) as [-> _]. done. }
    split.
    + exists c, (length cs). rewrite cookies_find_snoc, Hf, Hname, strcmp_eq_refl.
      rewrite list_lookup_middle by done. auto.
    + intros t name' Hne. unfold cookies_get_cookie.
      rewrite cookies_find_snoc, Hname, strcmp_eq_ne by done.
      destruct (_cookies_get_cookie cs name' 0) as [k|] eqn:Ek; [|done]. simpl.
      destruct (cookies_find_Some _ _ _ Ek) as (g & Hg & _).
      by rewrite Hg, (lookup_app_l_Some _ _ _ _ Hg).
  - pose proof (lookup_lt_Some _ _ _ Hc) as Hlt.
    assert (ck_name (update_cookie now v e m d p h s c) = ck_name c) as Hname
      by by destruct (update_cookie_spec now v e m d p h s c) as [-> _].
    split.
    + exists c, i. rewrite (cookies_find_insert _ _ c) by done. rewrite Hf.
      rewrite list_lookup_insert_eq by done. repeat split; auto. right.
      split; [by eapply list_elem_of_lookup_2 | done].
    + intros t name' Hne. unfold cookies_get_cookie.
      rewrite (cookies_find_insert _ _ c) by done.
      destruct (_cookies_get_cookie cs name' 0) as [k|] eqn:Ek; [|done]. simpl.
      destruct (cookies_find_Some _ _ _ Ek) as (g & Hg & Hgn).
      rewrite list_lookup_insert_ne; [done|]. intros ->. congruence.
Qed.

Lemma cookies_set_dated now cs name v e m d p h s cs' :
  dated_updated cs →
  cookies_set_cookie now cs name v e m d p h s = Done cs' → dated_updated cs'.
Proof.
  intros Hd H. apply cookies_set_cookie_inv in H as [(_ & _ & ->)|(i & c & _ & Hc & _ & ->)].
  - apply Forall_app. split; [done|]. constructor; [|done].
    destruct (update_cookie_spec now v e m d p h s
      (new_cookie (take (COOKIE_NAME_MAX_LEN - 1) name) [] true)) as (_ & _ & _ & _ & Hu).
    by apply Hu.
  - apply Forall_insert; [done|].
    destruct (update_cookie_spec now v e m d p h s c) as (_ & _ & _ & _ & Hu).
    apply Hu. exact (Forall_lookup_1 _ _ _ _ Hd Hc).
Qed.

Lemma set_value_fits v c :
  (length v < COOKIE_VALUE_MAX_LEN)%nat → ck_value (set_value (Some v) c) = v.
Proof.
  intros Hl. unfold set_value, strcmp_eq. case_bool_decide; [done|]. simpl.
  unfold COOKIE_VALUE_MAX_LEN in *. by rewrite take_ge by lia.
Qed.

(** ** Lemmas on printing *)

Lemma append_segments_spec out size segs :
  0 <= size →
  let '(out', size', stop) := append_segments out size segs in
  out' = out ++ take (Z.to_nat size) (concat segs) ∧
  size' <= size ∧
  (stop = true → (Z.to_nat size < length (concat segs))%nat) ∧
  (stop = false → 0 <= size' ∧ size' = size - Z.of_nat (length (concat segs))).
Proof.
  revert out size. induction segs as [|seg segs IH]; intros out size Hs; cbn [append_segments concat].
  - rewrite take_nil, app_nil_r. simpl. repeat split; (done || lia).
  - destruct (Z.ltb_spec (size - Z.of_nat (length seg)) 0) as [Hlt|Hge].
    + rewrite take_app_le by lia. rewrite length_app. repeat split; try done; lia.
    + specialize (IH (out ++ take (Z.to_nat size) seg) (size - Z.of_nat (length seg)) Hge).
      destruct (append_segments _ _ segs) as [[out' size'] stop].
      destruct IH as (-> & ? & Ht & Hf). rewrite length_app. split.
      { rewrite <- app_assoc. f_equal. rewrite take_app. f_equal. f_equal. lia. }
      split; [lia|]. split; [intros; specialize (Ht ltac:(done)); lia|].
      intros; specialize (Hf ltac:(done)); lia.
Qed.

Lemma cookies_to_string_loop_spec st addr out size cs :
  0 <= size →
  cookies_to_string_loop st addr out size cs
  = out ++ take (Z.to_nat size)
      (concat ((λ c, if ck_updated c then concat (cookie_segments st addr c) else []) <$> cs)).
Proof.
  revert out size. induction cs as [|c cs IH]; intros out size Hs; cbn [cookies_to_string_loop fmap list_fmap concat].
  - by rewrite take_nil, app_nil_r.
  - destruct (ck_updated c); [|by apply IH].
    pose proof (append_segments_spec out size (cookie_segments st addr c) Hs) as H.
    destruct (append_segments out size _) as [[out' size'] stop].
    destruct H as (-> & Hle & Ht & Hf). destruct stop.
    + specialize (Ht eq_refl). by rewrite take_app_le by lia.
    + destruct (Hf eq_refl) as [? Hsz]. rewrite IH by done.
      rewrite <- app_assoc. f_equal. rewrite take_app. f_equal. f_equal. lia.
Qed.

(** ** Properties *)

(** [cookies_parse] reads back the Cookie header that a client prints for
    at most 32 pairs whose names and values fit and hold no separator. *)
Theorem cookies_parse_print (l : list (bytes * bytes)) :
  Forall wf_pair l → (length l <= HEADERS_MAX_NUM)%nat →
  cookies_parse (print_pairs l) = (λ nv, new_cookie (fst nv) (snd nv) false) <$> l.
Proof.
  intros Hw. unfold cookies_parse.
  assert (∀ acc room, (length l <= room)%nat →
    cookies_parse_loop room acc (print_pairs l)
    = acc ++ ((λ nv, new_cookie (fst nv) (snd nv) false) <$> l)) as H; [|by apply (H [])].
  induction Hw as [|[n v] l (Hc & Hne & Heq & Hln & Hsemi & Hlv) Hw IH]; intros acc room Hr.
  - simpl. rewrite app_nil_r. by destruct room.
  - destruct room as [|room]; [simpl in Hr; lia|]. simpl in Hr, Hc, Hne, Heq, Hln, Hsemi, Hlv.
    set (rest := if decide (l = []) then [] else str "; " ++ print_pairs l).
    assert (print_pairs ((n, v) :: l) = n ++ c_eq :: v ++ rest) as ->.
    { unfold rest. destruct l as [|nv l]; cbn [print_pairs]; unfold cookie_pair; simpl;
        rewrite <- ?app_assoc; by rewrite ?app_nil_r. }
    destruct n as [|c n]; [done|].
    pose proof (Forall_cons_1 _ _ _ Hc) as [Hc0 _]. unfold is_char in Hc0.
    cbn [cookies_parse_loop].
    change (char_at ((c :: n) ++ c_eq :: v ++ rest) 0) with c.
    rewrite (proj2 (Z.eqb_neq c 0)) by lia.
    rewrite strstr_single, strchr_app by done.
    change (length (c :: n)) with (S (length n)). cbv beta iota zeta.
    change (S (length n)) with (length (c :: n)).
    rewrite Nat.min_l by (unfold COOKIE_NAME_MAX_LEN in *; lia). rewrite take_app_length.
    assert (drop (S (length (c :: n))) ((c :: n) ++ c_eq :: v ++ rest) = v ++ rest) as ->.
    { rewrite drop_app_ge by lia. by replace (_ - _)%nat with 1%nat by lia. }
    assert (default (length (v ++ rest)) (strstr (v ++ rest) (str "; ")) = length v) as ->.
    { unfold rest. destruct (decide (l = [])) as [|].
      - rewrite app_nil_r. destruct (strstr v (str "; ")) eqn:E; [|done].
        exfalso. apply strstr_Some in E as (_ & [k Hk] & _). apply Hsemi.
        rewrite <- (take_drop n0 v), Hk. apply elem_of_app. right. by left.
      - change (str "; ") with (c_semi :: [c_space]). by rewrite strstr_sep. }
    rewrite Nat.min_l by (unfold COOKIE_VALUE_MAX_LEN in *; lia).
    rewrite take_app_length, drop_app_length.
    assert ((if char_at rest 0 =? c_semi then drop 2 rest else rest) = print_pairs l) as ->.
    { unfold rest. by destruct l. }
    rewrite IH by lia. by rewrite <- app_assoc.
Qed.

Lemma cookies_parse_print_witness :
  cookies_parse (str "sid=0123; lang=en=us")
  = [new_cookie (str "sid") (str "0123") false; new_cookie (str "lang") (str "en=us") false].
Proof.
  apply (cookies_parse_print [(str "sid", str "0123"); (str "lang", str "en=us")]).
  - apply (bool_decide_unpack _). vm_compute. exact I.
  - apply Nat.leb_le. reflexivity.
Defined.

(** A cookie that was set with a date in the future, or without one, is
    found with its value, also over a deleted or an expired cookie of that
    name; all other cookies are found as before; and it stays true that only
    updated cookies have a date. *)
Theorem cookies_set_get (now : Z) (cs cs' : cookies_t) (name value : bytes) (expires max_age : Z)
  (domain path : option bytes) (http_only secure : bool) :
  dated_updated cs →
  (length name < COOKIE_NAME_MAX_LEN)%nat → (length value < COOKIE_VALUE_MAX_LEN)%nat →
  (expires = 0 ∨ now < expires) →
  Forall (λ c, ck_expires c ≠ now) cs →
  cookies_set_cookie now cs name (Some value) expires max_age domain path http_only secure
    = Done cs' →
  (∃ c, cookies_get_cookie now cs' name = Some c ∧ ck_value c = value) ∧
  (∀ name', name' ≠ name → cookies_get_cookie now cs' name' = cookies_get_cookie now cs name') ∧
  dated_updated cs'.
Proof.
  intros Hd Hn Hv He Hne H. pose proof (cookies_set_dated _ _ _ _ _ _ _ _ _ _ _ Hd H) as Hd'.
  destruct (cookies_set_lookup _ _ _ _ _ _ _ _ _ _ _ Hn H) as [(c & i & Hc & Hf & Hi) Ho].
  split; [|by split; [intros; apply Ho|]].
  destruct (update_cookie_spec now (Some value) expires max_age domain path http_only secure c)
    as (_ & Hval & _ & Hexp & _).
  eexists. split.
  - unfold cookies_get_cookie. rewrite Hf. cbn [mbind option_bind]. rewrite Hi. cbn [mbind option_bind].
    rewrite (proj2 (orb_true_iff _ _)); [reflexivity|]. rewrite Z.eqb_eq, Z.ltb_lt.
    destruct Hexp as [->|(-> & -> & Hold)]; [done|].
    destruct Hc as [->|[Hin _]]; [by left|].
    unfold dated_updated in Hd. rewrite Forall_forall in Hd. rewrite Forall_forall in Hne.
    specialize (Hd _ Hin). specialize (Hne _ Hin). simpl in Hd, Hne.
    destruct (Z.eq_dec (ck_expires c) 0) as [|Hz]; [by left|].
    destruct (Hold (Hd Hz)); lia.
  - rewrite Hval. by apply set_value_fits.
Qed.

Lemma cookies_set_get_witness :
  ∃ c, cookies_get_cookie 1000 [update_cookie 1000 (Some (str "2")) 0 0 None None true false
                                  (new_cookie (str "a") (str "1") false)] (str "a") = Some c ∧
       ck_value c = str "2".
Proof.
  apply (cookies_set_get 1000 [new_cookie (str "a") (str "1") false]
           [update_cookie 1000 (Some (str "2")) 0 0 None None true false
              (new_cookie (str "a") (str "1") false)] (str "a") (str "2") 0 0 None None true false).
  - apply (bool_decide_unpack _). vm_compute. exact I.
  - apply Nat.ltb_lt. reflexivity.
  - apply Nat.ltb_lt. reflexivity.
  - left. reflexivity.
  - apply (bool_decide_unpack _). vm_compute. exact I.
  - reflexivity.
Defined.

(** A deleted cookie is no longer found, from then on, whatever it was
    before; all other cookies are found as before.  (The date of a deleted
    cookie lies a year and a second in the past, and 0 would mean no date.) *)
Theorem cookies_del_get (t now t' : Z) (cs cs' : cookies_t) (name : bytes) :
  t ≠ 31536001 → t - 31536001 <= t' → (length name < COOKIE_NAME_MAX_LEN)%nat →
  cookies_del_cookie t now cs name = Done cs' →
  cookies_get_cookie t' cs' name = None ∧
  ∀ name', name' ≠ name → cookies_get_cookie t' cs' name' = cookies_get_cookie t' cs name'.
Proof.
  intros Ht Ht' Hn H. unfold cookies_del_cookie in H.
  destruct (cookies_set_lookup _ _ _ _ _ _ _ _ _ _ _ Hn H) as [(c & i & _ & Hf & Hi) Ho].
  split; [|intros; by apply Ho].
  unfold cookies_get_cookie. rewrite Hf. cbn [mbind option_bind]. rewrite Hi. cbn [mbind option_bind].
  destruct (update_cookie_spec now None (t - 31536001) 0 None None false false c)
    as (_ & _ & _ & [->|[? _]] & _); [|lia].
  rewrite (proj2 (orb_false_iff _ _)); [done|]. rewrite Z.eqb_neq, Z.ltb_ge. lia.
Qed.

Lemma cookies_del_get_witness :
  cookies_get_cookie 1800000000
    [update_cookie 1700000000 None (1700000000 - 31536001) 0 None None false false
       (new_cookie (str "a") (str "1") false)] (str "a") = None.
Proof.
  apply (cookies_del_get 1700000000 1700000000 1800000000 [new_cookie (str "a") (str "1") false]
           [update_cookie 1700000000 None (1700000000 - 31536001) 0 None None false false
              (new_cookie (str "a") (str "1") false)] (str "a")).
  - discriminate.
  - apply Z.leb_le. reflexivity.
  - apply Nat.ltb_lt. reflexivity.
  - reflexivity.
Defined.

(** [cookies_to_string] prints the first [size] bytes of the updated
    cookies' texts: it fits a buffer of [size + 1] bytes, but overruns one of
    [size] bytes, the size it is called with, when the texts are that long. *)
Theorem cookies_to_string_spec (strftime : Z → bytes) (addr : Z) (size : nat) (cs : cookies_t) :
  let text := concat ((λ c, if ck_updated c then concat (cookie_segments strftime addr c) else [])
                        <$> cs) in
  cookies_to_string strftime addr (S size) cs (Z.of_nat size) = Done (take size text) ∧
  cookies_to_string strftime addr size cs (Z.of_nat size) =
    if (length text <? size)%nat then Done text else Fault OutOfBounds.
Proof.
  intros text. unfold cookies_to_string, strcpy_into.
  rewrite cookies_to_string_loop_spec by lia. rewrite Nat2Z.id. cbn [app]. fold text.
  rewrite length_take. split.
  - by rewrite (proj2 (Nat.ltb_lt _ _)) by lia.
  - destruct (Nat.ltb_spec (length text) size).
    + rewrite (proj2 (Nat.ltb_lt _ _)) by lia. by rewrite take_ge by lia.
    + by rewrite (proj2 (Nat.ltb_ge _ _)) by lia.
Qed.
