(* ===== verification/FdHash.v ===== *)
(** fd_hash.c: sets of descriptors with constant-time membership, kept as a
    doubly linked list inside an array of FD_SETSIZE cells.

    A pointer to a cell is its index, NULL is [None].  [rep h l] says that the
    cells of [h] hold the list [l]; every operation is shown to act on [l] as
    the plain list operation of the same name. *)

From Stdlib Require Import ZArith Lia.
From S2P Require Export Prelude.

Local Open Scope Z_scope.

Definition FD_SETSIZE : nat := 1024.
Arguments FD_SETSIZE : simpl never.

Record fd_hash_el_t := El { previous : option nat; next : option nat }.

Record fd_hash_t := FdHash {
  table : list fd_hash_el_t;
  fh_head : option nat;
  fh_tail : option nat
}.

Definition NULL_el : fd_hash_el_t := El None None.

Definition fd_hash_init : fd_hash_t := FdHash (replicate FD_SETSIZE NULL_el) None None.

(** ** Access to the cells *)

(** [&hash->table[fd]]. *)
Definition cell (fd : Z) : res nat :=
  if (0 <=? fd) && (fd <? Z.of_nat FD_SETSIZE) then Done (Z.to_nat fd) else Fault OutOfBounds.

Definition el_at (h : fd_hash_t) (p : nat) : res fd_hash_el_t := at_index (table h !! p).

Definition put_next (h : fd_hash_t) (p : nat) (v : option nat) : res fd_hash_t :=
  e ← el_at h p;
  Done (FdHash (<[p := El (previous e) v]> (table h)) (fh_head h) (fh_tail h)).

Definition put_previous (h : fd_hash_t) (p : nat) (v : option nat) : res fd_hash_t :=
  e ← el_at h p;
  Done (FdHash (<[p := El v (next e)]> (table h)) (fh_head h) (fh_tail h)).

Definition is_set (p : option nat) : bool := if p then true else false.

Definition ptr_eq (p : nat) (q : option nat) : bool := bool_decide (Some p = q).

(** ** Operations *)

Definition fd_hash_add (h : fd_hash_t) (fd : Z) : res fd_hash_t :=
  p ← cell fd;
  e ← el_at h p;
  if is_set (next e) || is_set (previous e) || ptr_eq p (fh_head h) then Done h
  else
    h ← match fh_tail h with
        | Some t => h ← put_previous h p (Some t); put_next h t (Some p)
        | None => Done h
        end;
    let h := FdHash (table h) (fh_head h) (Some p) in
    Done (match fh_head h with
          | None => FdHash (table h) (fh_tail h) (fh_tail h)
          | Some _ => h
          end).

Definition fd_hash_remove (h : fd_hash_t) (fd : Z) : res fd_hash_t :=
  p ← cell fd;
  e ← el_at h p;
  if negb (is_set (next e)) && negb (is_set (previous e)) && negb (ptr_eq p (fh_head h))
  then Done h
  else
    h ← match previous e with
        | Some q => put_next h q (next e)
        | None => Done h
        end;
    h ← match next e with
        | Some q => put_previous h q (previous e)
        | None => Done h
        end;
    let h := if ptr_eq p (fh_head h) then FdHash (table h) (next e) (fh_tail h) else h in
    let h := if ptr_eq p (fh_tail h) then FdHash (table h) (fh_head h) (previous e) else h in
    h ← put_next h p None;
    put_previous h p None.

(** The result -1 stands for the end of the list. *)
Definition fd_hash_head (h : fd_hash_t) : Z :=
  match fh_head h with None => -1 | Some p => Z.of_nat p end.

Definition fd_hash_next (h : fd_hash_t) (fd : Z) : res Z :=
  p ← cell fd;
  e ← el_at h p;
  Done (match next e with None => -1 | Some q => Z.of_nat q end).

(** The loop of all clients, when its body leaves the set alone:
    [i = head; while ( i != -1 ) { ... i = next( i ); }]. *)
Fixpoint fd_hash_walk (fuel : nat) (h : fd_hash_t) (i : Z) : res (list Z) :=
  match fuel with
  | O => Fault OutOfFuel
  | S fuel =>
      if i =? -1 then Done []
      else
        j ← fd_hash_next h i;
        l ← fd_hash_walk fuel h j;
        Done (i :: l)
  end.

Definition fd_hash_list (h : fd_hash_t) : res (list Z) :=
  fd_hash_walk (S FD_SETSIZE) h (fd_hash_head h).

(** ** The set as a list *)

Definition pred_at (l : list nat) (k : nat) : option nat :=
  match k with O => None | S k => l !! k end.

Record rep (h : fd_hash_t) (l : list nat) : Prop := {
  rep_length : length (table h) = FD_SETSIZE;
  rep_nodup : NoDup l;
  rep_head : fh_head h = head l;
  rep_tail : fh_tail h = last l;
  rep_in : ∀ k i, l !! k = Some i → table h !! i = Some (El (pred_at l k) (l !! S k));
  rep_out : ∀ i, (i < FD_SETSIZE)%nat → i ∉ l → table h !! i = Some NULL_el
}.

Definition list_add (l : list nat) (p : nat) : list nat :=
  if decide (p ∈ l) then l else l ++ [p].

Definition list_remove (l : list nat) (p : nat) : list nat := filter (λ q, q ≠ p) l.

Inductive fd_op := OpAdd (fd : Z) | OpRemove (fd : Z).

Definition op_fd (op : fd_op) : Z := match op with OpAdd fd | OpRemove fd => fd end.

Definition run_op (h : fd_hash_t) (op : fd_op) : res fd_hash_t :=
  match op with OpAdd fd => fd_hash_add h fd | OpRemove fd => fd_hash_remove h fd end.

Fixpoint run_ops (h : fd_hash_t) (ops : list fd_op) : res fd_hash_t :=
  match ops with
  | [] => Done h
  | op :: ops => h ← run_op h op; run_ops h ops
  end.

Definition list_op (l : list nat) (op : fd_op) : list nat :=
  match op with
  | OpAdd fd => list_add l (Z.to_nat fd)
  | OpRemove fd => list_remove l (Z.to_nat fd)
  end.

(** ** Lemmas *)

Lemma rep_init : rep fd_hash_init [].
Proof.
  split; try done.
  - apply NoDup_nil_2.
  - intros i Hi _. unfold fd_hash_init, table. by apply lookup_replicate_2.
Qed.

Lemma cell_Done fd : 0 <= fd < Z.of_nat FD_SETSIZE → cell fd = Done (Z.to_nat fd).
Proof. intros H. unfold cell. rewrite (proj2 (andb_true_iff _ _)); [done | lia]. Qed.

Lemma rep_lt h l i : rep h l → i ∈ l → (i < FD_SETSIZE)%nat.
Proof.
  intros Hr [k Hk]%list_elem_of_lookup. rewrite <- (rep_length _ _ Hr).
  eapply lookup_lt_Some, (rep_in _ _ Hr), Hk.
Qed.

Lemma rep_size h l : rep h l → (length l <= FD_SETSIZE)%nat.
Proof.
  intros Hr. rewrite <- (length_seq FD_SETSIZE 0).
  apply submseteq_length, NoDup_submseteq; [apply (rep_nodup _ _ Hr)|].
  intros i Hi. apply elem_of_seq. pose proof (rep_lt _ _ _ Hr Hi). lia.
Qed.

Lemma nodup_index (l : list nat) i j x : NoDup l → l !! i = Some x → l !! j = Some x → i = j.
Proof. intros H ? ?. by eapply NoDup_lookup. Qed.

(** The test that guards both operations is membership. *)
Lemma member_test h l p e :
  rep h l → table h !! p = Some e →
  is_set (next e) || is_set (previous e) || ptr_eq p (fh_head h) = bool_decide (p ∈ l).
Proof.
  intros Hr He. destruct (decide (p ∈ l)) as [Hin|Hout].
  - rewrite (bool_decide_eq_true_2 (p ∈ l)) by done.
    apply list_elem_of_lookup in Hin as [k Hk].
    rewrite (rep_in _ _ Hr _ _ Hk) in He. injection He as <-. simpl.
    destruct k as [|k].
    + unfold ptr_eq. rewrite (rep_head _ _ Hr), head_lookup, Hk.
      rewrite bool_decide_eq_true_2 by done. by rewrite orb_true_r.
    + simpl. destruct (lookup_lt_is_Some_2 l k) as [q ->].
      { apply lookup_lt_Some in Hk. lia. }
      simpl. by rewrite orb_true_r.
  - rewrite (bool_decide_eq_false_2 (p ∈ l)) by done.
    assert (p < FD_SETSIZE)%nat.
    { rewrite <- (rep_length _ _ Hr). by eapply lookup_lt_Some. }
    rewrite (rep_out _ _ Hr) in He by done. injection He as <-. simpl.
    unfold ptr_eq. rewrite (rep_head _ _ Hr). apply bool_decide_eq_false.
    intros Heq. apply Hout. symmetry in Heq. by apply head_Some_elem_of.
Qed.

Lemma rep_lookup h l i :
  rep h l → (i < FD_SETSIZE)%nat → ∃ e, table h !! i = Some e.
Proof. intros Hr Hi. apply lookup_lt_is_Some_2. by rewrite (rep_length _ _ Hr). Qed.

Lemma put_next_Done h p v e :
  table h !! p = Some e →
  put_next h p v = Done (FdHash (<[p := El (previous e) v]> (table h)) (fh_head h) (fh_tail h)).
Proof. intros He. unfold put_next, el_at. by rewrite He. Qed.

Lemma put_previous_Done h p v e :
  table h !! p = Some e →
  put_previous h p v = Done (FdHash (<[p := El v (next e)]> (table h)) (fh_head h) (fh_tail h)).
Proof. intros He. unfold put_previous, el_at. by rewrite He. Qed.

Lemma last_index (l : list nat) t : last l = Some t → l !! pred (length l) = Some t.
Proof. by rewrite last_lookup. Qed.

(** A new cell goes to the end of the list. *)
Lemma rep_snoc l p t hd ta (tbl : list fd_hash_el_t) :
  rep (FdHash tbl hd ta) l → (p < FD_SETSIZE)%nat → p ∉ l → last l = Some t →
  rep (FdHash (<[t := El (pred_at l (pred (length l))) (Some p)]>
                 (<[p := El (Some t) None]> tbl)) hd (Some p)) (l ++ [p]).
Proof.
  intros Hr Hp Hnp Ht. pose proof (last_index _ _ Ht) as Hti.
  assert (t ∈ l) as Htl by (by eapply list_elem_of_lookup_2).
  pose proof (rep_lt _ _ _ Hr Htl) as Htlt. pose proof (rep_length _ _ Hr) as Hlen.
  simpl in Hlen. assert (t ≠ p) as Hne by congruence.
  pose proof (lookup_lt_Some _ _ _ Hti) as Hll.
  split; simpl.
  - by rewrite !length_insert.
  - apply NoDup_app. split; [apply (rep_nodup _ _ Hr)|].
    split; [|apply NoDup_singleton]. intros x Hx ->%list_elem_of_singleton. done.
  - pose proof (rep_head _ _ Hr) as Hh. simpl in Hh. rewrite Hh. by destruct l.
  - by rewrite last_snoc.
  - intros k i Hk. destruct (decide (k < length l)%nat) as [Hlt|Hge].
    + rewrite lookup_app_l in Hk by done.
      assert (pred_at (l ++ [p]) k = pred_at l k) as ->.
      { destruct k; [done|]. simpl. by rewrite lookup_app_l by lia. }
      destruct (decide (i = t)) as [->|Hit].
      * assert (k = pred (length l)) as -> by (eapply nodup_index; eauto; apply (rep_nodup _ _ Hr)).
        rewrite list_lookup_insert_eq by (rewrite length_insert; lia).
        rewrite Nat.succ_pred by lia. by rewrite list_lookup_middle.
      * rewrite !list_lookup_insert_ne by
          (auto; intros ->; apply Hnp; by eapply list_elem_of_lookup_2).
        assert (k ≠ pred (length l)) by congruence.
        rewrite (lookup_app_l l [p] (S k)) by lia. apply (rep_in _ _ Hr _ _ Hk).
    + assert (k = length l) as ->.
      { apply lookup_lt_Some in Hk. rewrite length_app in Hk. simpl in Hk. lia. }
      rewrite list_lookup_middle in Hk by done. injection Hk as <-.
      rewrite list_lookup_insert_ne, list_lookup_insert_eq by (auto; lia).
      f_equal. f_equal.
      * destruct (length l) as [|n] eqn:En; [lia|]. simpl in *.
        by rewrite lookup_app_l, Hti by lia.
      * symmetry. apply lookup_ge_None_2. rewrite length_app. simpl. lia.
  - intros i Hi Hil. rewrite elem_of_app, list_elem_of_singleton in Hil.
    rewrite !list_lookup_insert_ne by (intros ->; naive_solver).
    apply (rep_out _ _ Hr); naive_solver.
Qed.

Lemma rep_single p (tbl : list fd_hash_el_t) :
  rep (FdHash tbl None None) [] → (p < FD_SETSIZE)%nat → rep (FdHash tbl (Some p) (Some p)) [p].
Proof.
  intros Hr Hp. split; simpl; try done.
  - apply (rep_length _ _ Hr).
  - apply NoDup_singleton.
  - intros [|k] i Hk; [|done]. injection Hk as <-. simpl.
    apply (rep_out _ _ Hr); [done | apply not_elem_of_nil].
  - intros i Hi _. apply (rep_out _ _ Hr); [done | apply not_elem_of_nil].
Qed.

Lemma fd_hash_add_rep h l fd :
  rep h l → 0 <= fd < Z.of_nat FD_SETSIZE →
  ∃ h', fd_hash_add h fd = Done h' ∧ rep h' (list_add l (Z.to_nat fd)).
Proof.
  intros Hr Hfd. unfold fd_hash_add. rewrite cell_Done by done. cbn [mbind res_bind].
  set (p := Z.to_nat fd). assert (p < FD_SETSIZE)%nat as Hp by lia.
  destruct (rep_lookup _ _ _ Hr Hp) as [e He].
  unfold el_at at 1. rewrite He. cbn [at_index mbind res_bind].
  rewrite (member_test _ _ _ _ Hr He). unfold list_add. case_bool_decide as Hin.
  { rewrite decide_True by done. by exists h. }
  rewrite decide_False by done. destruct h as [tbl hd ta].
  pose proof (rep_head _ _ Hr) as Hh. pose proof (rep_tail _ _ Hr) as Ht. simpl in Hh, Ht.
  pose proof (rep_out _ _ Hr _ Hp Hin) as Hout. simpl in Hout. cbn [fh_tail fh_head].
  destruct ta as [t|].
  - rewrite (put_previous_Done (FdHash tbl hd (Some t)) p (Some t) NULL_el Hout). cbn [mbind res_bind table fh_head fh_tail].
    symmetry in Ht. pose proof (last_index _ _ Ht) as Hti.
    pose proof (rep_in _ _ Hr _ _ Hti) as Htt. simpl in Htt.
    assert (p ≠ t) as Hne.
    { intros <-. apply Hin. by eapply list_elem_of_lookup_2. }
    erewrite put_next_Done by (cbn [table]; by rewrite list_lookup_insert_ne).
    cbn [mbind res_bind table fh_head fh_tail previous].
    eexists. split; [reflexivity|].
    pose proof (rep_snoc _ p t hd (Some t) _ Hr Hp Hin Ht) as Hs.
    rewrite Hh in *. by destruct l.
  - cbn [mbind res_bind table fh_head fh_tail].
    symmetry in Ht. apply last_None in Ht. subst l. simpl in Hh. subst hd. simpl.
    eexists. split; [reflexivity|]. by apply rep_single.
Qed.

Lemma pred_at_lookup (l : list nat) k q :
  pred_at l k = Some q → ∃ j, k = S j ∧ l !! j = Some q.
Proof. destruct k as [|j]; [done|]. intros H. by exists j. Qed.

Lemma list_remove_delete (l : list nat) k p :
  NoDup l → l !! k = Some p → list_remove l p = delete k l.
Proof.
  unfold list_remove. revert k. induction l as [|x l IH]; intros k Hd Hk; [done|].
  apply NoDup_cons in Hd as [Hx Hd]. destruct k as [|k]; simpl in Hk.
  - injection Hk as ->. rewrite filter_cons_False by (intros H; by apply H). simpl.
    apply filter_all, Forall_forall. intros i Hi ->. done.
  - rewrite filter_cons_True by (intros ->; apply Hx; by eapply list_elem_of_lookup_2).
    simpl. f_equal. by apply IH.
Qed.

(** The cells after the neighbours of [p] were linked to each other. *)
Record unlinked (tbl tbl' : list fd_hash_el_t) (l : list nat) (k p : nat) : Prop := {
  un_length : length tbl' = length tbl;
  un_self : tbl' !! p = Some NULL_el;
  un_prev : ∀ q, pred_at l k = Some q → tbl' !! q = Some (El (pred_at l (pred k)) (l !! S k));
  un_next : ∀ r, l !! S k = Some r → tbl' !! r = Some (El (pred_at l k) (l !! S (S k)));
  un_other : ∀ i, i ≠ p → pred_at l k ≠ Some i → l !! S k ≠ Some i → tbl' !! i = tbl !! i
}.

Lemma pred_at_delete (l : list nat) k j :
  pred_at (delete k l) j =
  if decide (j < k)%nat then pred_at l j else if decide (j = k) then pred_at l k else l !! j.
Proof.
  destruct j as [|j]; simpl.
  - destruct k; [done|]. by rewrite decide_True by lia.
  - destruct (decide (S j < k)%nat); [by rewrite list_lookup_delete_lt by lia|].
    destruct (decide (S j = k)) as [<-|]; [simpl; by rewrite list_lookup_delete_lt by lia|].
    by rewrite list_lookup_delete_ge by lia.
Qed.

Lemma rep_delete tbl tbl' hd ta l k p :
  rep (FdHash tbl hd ta) l → l !! k = Some p → unlinked tbl tbl' l k p →
  rep (FdHash tbl' (if decide (k = 0%nat) then l !! 1%nat else hd)
                   (if decide (S k = length l) then pred_at l k else ta)) (delete k l).
Proof.
  intros Hr Hk Hu. pose proof (rep_nodup _ _ Hr) as Hd.
  pose proof (rep_length _ _ Hr) as Hlen. simpl in Hlen.
  pose proof (rep_head _ _ Hr) as Hh. pose proof (rep_tail _ _ Hr) as Ht. simpl in Hh, Ht.
  pose proof (lookup_lt_Some _ _ _ Hk) as Hkl.
  assert (∀ a b x, l !! a = Some x → l !! b = Some x → a = b) as Hidx
    by (intros; by eapply NoDup_lookup).
  split; simpl.
  - by rewrite (un_length _ _ _ _ _ Hu).
  - eapply sublist_NoDup; [exact Hd | apply sublist_delete].
  - rewrite Hh, !head_lookup. destruct k as [|k]; simpl.
    + by rewrite list_lookup_delete_ge by lia.
    + by rewrite list_lookup_delete_lt by lia.
  - rewrite last_lookup, length_delete by eauto. rewrite Ht, last_lookup. case_decide as Hend.
    + destruct k as [|k]; simpl; [destruct l as [|? [|]]; done|].
      rewrite list_lookup_delete_lt by lia. f_equal. lia.
    + rewrite list_lookup_delete_ge by lia. f_equal. lia.
  - intros j i Hj. rewrite pred_at_delete. rewrite (list_lookup_delete l k (S j)).
    rewrite list_lookup_delete in Hj. case_decide as Hjk.
    + assert (i ≠ p) by (intros ->; pose proof (Hidx _ _ _ Hj Hk); lia).
      destruct (decide (S j = k)) as [<-|Hne].
      * rewrite (un_prev _ _ _ _ _ Hu i) by done. by rewrite decide_False by lia.
      * rewrite decide_True by lia. rewrite (un_other _ _ _ _ _ Hu); [|done| |].
        -- apply (rep_in _ _ Hr _ _ Hj).
        -- intros (a & -> & Ha)%pred_at_lookup. pose proof (Hidx _ _ _ Hj Ha). lia.
        -- intros Ha. pose proof (Hidx _ _ _ Hj Ha). lia.
    + assert (i ≠ p) by (intros ->; pose proof (Hidx _ _ _ Hj Hk); lia).
      rewrite (decide_False (P := (S j < k)%nat)) by lia.
      destruct (decide (j = k)) as [->|Hne].
      * by rewrite (un_next _ _ _ _ _ Hu i).
      * rewrite (un_other _ _ _ _ _ Hu); [|done| |].
        -- apply (rep_in _ _ Hr _ _ Hj).
        -- intros (a & -> & Ha)%pred_at_lookup. pose proof (Hidx _ _ _ Hj Ha). lia.
        -- intros Ha. pose proof (Hidx _ _ _ Hj Ha). lia.
  - intros i Hi Hout. destruct (decide (i = p)) as [->|Hne]; [apply (un_self _ _ _ _ _ Hu)|].
    assert (i ∉ l) as Hil.
    { intros [j Hj]%list_elem_of_lookup. apply Hout.
      assert (j ≠ k) as Hjk by congruence. apply list_elem_of_lookup.
      destruct (decide (j < k)%nat).
      - exists j. by rewrite list_lookup_delete_lt.
      - exists (pred j). rewrite list_lookup_delete_ge by lia.
        by rewrite Nat.succ_pred by lia. }
    rewrite (un_other _ _ _ _ _ Hu); [|done| |].
    + by apply (rep_out _ _ Hr).
    + intros (a & -> & Ha)%pred_at_lookup. apply Hil. by eapply list_elem_of_lookup_2.
    + intros Ha. apply Hil. by eapply list_elem_of_lookup_2.
Qed.

(** The stores of [fd_hash_remove] on the neighbours. *)
Definition link_next (tbl : list fd_hash_el_t) (q : option nat) (v : option nat) :=
  match q with
  | Some q => <[q := El (default None (previous <$> tbl !! q)) v]> tbl
  | None => tbl
  end.

Definition link_prev (tbl : list fd_hash_el_t) (q : option nat) (v : option nat) :=
  match q with
  | Some q => <[q := El v (default None (next <$> tbl !! q))]> tbl
  | None => tbl
  end.

Lemma link_unlinked tbl hd ta l k p :
  rep (FdHash tbl hd ta) l → l !! k = Some p →
  unlinked tbl (<[p := NULL_el]> (link_prev (link_next tbl (pred_at l k) (l !! S k))
                                   (l !! S k) (pred_at l k))) l k p.
Proof.
  intros Hr Hk. pose proof (rep_length _ _ Hr) as Hlen. simpl in Hlen.
  assert (∀ a b x, l !! a = Some x → l !! b = Some x → a = b) as Hidx.
  { intros. eapply NoDup_lookup; eauto. apply (rep_nodup _ _ Hr). }
  assert (∀ a x, l !! a = Some x → (x < length tbl)%nat) as Hlt.
  { intros a x Hx. rewrite Hlen. apply (rep_lt _ _ _ Hr). by eapply list_elem_of_lookup_2. }
  pose proof (rep_in _ _ Hr) as Hin. simpl in Hin.
  assert (∀ q v, length (link_next tbl q v) = length tbl) as Hln1
    by (intros [q|] v; simpl; [apply length_insert | done]).
  assert (∀ t q v, length (link_prev t q v) = length t) as Hln2
    by (intros t [q|] v; simpl; [apply length_insert | done]).
  split.
  - by rewrite length_insert, Hln2, Hln1.
  - apply list_lookup_insert_eq. rewrite Hln2, Hln1. eauto.
  - intros q Hq. destruct (pred_at_lookup _ _ _ Hq) as (j & -> & Hj).
    rewrite list_lookup_insert_ne by (intros ->; pose proof (Hidx _ _ _ Hk Hj); lia).
    assert (link_next tbl (pred_at l (S j)) (l !! S (S j)) !! q
            = Some (El (pred_at l j) (l !! S (S j)))) as H1.
    { rewrite Hq. simpl. rewrite (Hin _ _ Hj). rewrite list_lookup_insert_eq by eauto. done. }
    destruct (l !! S (S j)) as [r|] eqn:Er; [|exact H1].
    simpl link_prev. rewrite list_lookup_insert_ne; [exact H1|].
    intros ->. pose proof (Hidx _ _ _ Hj Er). lia.
  - intros r Hnr.
    rewrite list_lookup_insert_ne by (intros ->; pose proof (Hidx _ _ _ Hk Hnr); lia).
    rewrite Hnr. simpl. rewrite list_lookup_insert_eq by (rewrite Hln1; eauto).
    assert (link_next tbl (pred_at l k) (Some r) !! r = tbl !! r) as ->.
    { destruct (pred_at l k) as [q|] eqn:Eq; [|done].
      destruct (pred_at_lookup _ _ _ Eq) as (j & -> & Hj). simpl.
      rewrite list_lookup_insert_ne; [done|]. intros ->. pose proof (Hidx _ _ _ Hj Hnr). lia. }
    by rewrite (Hin _ _ Hnr).
  - intros i Hi Hp Hn. rewrite list_lookup_insert_ne by done.
    destruct (l !! S k) as [r|]; simpl.
    + rewrite list_lookup_insert_ne by congruence.
      destruct (pred_at l k); simpl; [by rewrite list_lookup_insert_ne by congruence | done].
    + destruct (pred_at l k); simpl; [by rewrite list_lookup_insert_ne by congruence | done].
Qed.

Lemma insert_twice {A} (l : list A) i x y : <[i := x]> (<[i := y]> l) = <[i := x]> l.
Proof. revert i. induction l as [|a l IH]; intros [|i]; simpl; f_equal; auto. Qed.

Lemma put_next_opt h q v :
  (∀ x, q = Some x → is_Some (table h !! x)) →
  match q with Some x => put_next h x v | None => Done h end
  = Done (FdHash (link_next (table h) q v) (fh_head h) (fh_tail h)).
Proof.
  intros H. destruct q as [x|]; [|by destruct h]. destruct (H x eq_refl) as [e He].
  rewrite (put_next_Done _ _ _ _ He). simpl. by rewrite He.
Qed.

Lemma put_previous_opt h q v :
  (∀ x, q = Some x → is_Some (table h !! x)) →
  match q with Some x => put_previous h x v | None => Done h end
  = Done (FdHash (link_prev (table h) q v) (fh_head h) (fh_tail h)).
Proof.
  intros H. destruct q as [x|]; [|by destruct h]. destruct (H x eq_refl) as [e He].
  rewrite (put_previous_Done _ _ _ _ He). simpl. by rewrite He.
Qed.

Lemma clear_cell tbl hd ta p :
  is_Some (tbl !! p) →
  (h ← put_next (FdHash tbl hd ta) p None; put_previous h p None)
  = Done (FdHash (<[p := NULL_el]> tbl) hd ta).
Proof.
  intros [e He]. rewrite (put_next_Done (FdHash tbl hd ta) p None e He).
  cbn [mbind res_bind table fh_head fh_tail].
  erewrite put_previous_Done by (apply list_lookup_insert_eq; by eapply lookup_lt_Some).
  cbn [table next fh_head fh_tail]. by rewrite insert_twice.
Qed.

(** The ends of the list are recognised by their pointers. *)
Lemma ptr_eq_head h l k p :
  rep h l → l !! k = Some p → ptr_eq p (fh_head h) = bool_decide (k = 0%nat).
Proof.
  intros Hr Hk. unfold ptr_eq. apply bool_decide_ext. rewrite (rep_head _ _ Hr), head_lookup.
  split; [|intros ->; done]. intros Hy. symmetry in Hy.
  by apply (NoDup_lookup _ _ _ _ (rep_nodup _ _ Hr) Hk).
Qed.

Lemma ptr_eq_tail h l k p :
  rep h l → l !! k = Some p → ptr_eq p (fh_tail h) = bool_decide (S k = length l).
Proof.
  intros Hr Hk. unfold ptr_eq. apply bool_decide_ext. rewrite (rep_tail _ _ Hr), last_lookup.
  pose proof (lookup_lt_Some _ _ _ Hk). split.
  - intros Hy. symmetry in Hy.
    pose proof (NoDup_lookup _ _ _ _ (rep_nodup _ _ Hr) Hk Hy). lia.
  - intros <-. done.
Qed.

Lemma fd_hash_remove_member h l k p e :
  rep h l → l !! k = Some p → table h !! p = Some e →
  fd_hash_remove h (Z.of_nat p) =
  Done (FdHash (<[p := NULL_el]> (link_prev (link_next (table h) (pred_at l k) (l !! S k))
                                    (l !! S k) (pred_at l k)))
         (if decide (k = 0%nat) then l !! 1%nat else fh_head h)
         (if decide (S k = length l) then pred_at l k else fh_tail h)).
Proof.
  intros Hr Hk He. pose proof (list_elem_of_lookup_2 _ _ _ Hk) as Hin.
  pose proof (rep_lt _ _ _ Hr Hin) as Hp.
  assert (∀ j x, l !! j = Some x → is_Some (table h !! x)) as Hsome
    by (intros j x Hx; rewrite (rep_in _ _ Hr _ _ Hx); eauto).
  unfold fd_hash_remove. rewrite cell_Done by lia. cbn [mbind res_bind].
  rewrite Nat2Z.id. unfold el_at at 1. rewrite He. cbn [at_index mbind res_bind].
  rewrite <- !negb_orb, (member_test _ _ _ _ Hr He), bool_decide_eq_true_2 by done. cbn [negb].
  pose proof (rep_in _ _ Hr _ _ Hk) as Hpe. rewrite Hpe in He. injection He as <-.
  cbn [previous next]. rewrite put_next_opt.
  2: { intros x (j & -> & Hj)%pred_at_lookup. eauto. }
  cbn [mbind res_bind]. rewrite put_previous_opt; cbn [table fh_head fh_tail].
  2: { intros x Hx. destruct (pred_at l k); simpl; [|eauto].
       apply lookup_lt_is_Some_2. rewrite length_insert. apply lookup_lt_is_Some_1. eauto. }
  cbn [mbind res_bind fh_head fh_tail].
  rewrite (ptr_eq_head _ _ _ _ Hr Hk).
  replace (fh_tail (if bool_decide (k = 0%nat) then _ else _)) with (fh_tail h) by by case_match.
  rewrite (ptr_eq_tail _ _ _ _ Hr Hk).
  set (t2 := link_prev _ _ _).
  assert (is_Some (t2 !! p)) as Ht2.
  { apply lookup_lt_is_Some_2. destruct h as [tbl hd ta].
    pose proof (un_length _ _ _ _ _ (link_unlinked _ _ _ _ _ _ Hr Hk)) as Hx.
    rewrite length_insert in Hx. subst t2. simpl in *. rewrite Hx.
    apply lookup_lt_is_Some_1. eauto. }
  rewrite !bool_decide_decide. clearbody t2. clear -Ht2.
  repeat case_decide; subst; cbn [fh_head fh_tail table]; by apply clear_cell.
Qed.

Lemma fd_hash_remove_rep h l fd :
  rep h l → 0 <= fd < Z.of_nat FD_SETSIZE →
  ∃ h', fd_hash_remove h fd = Done h' ∧ rep h' (list_remove l (Z.to_nat fd)).
Proof.
  intros Hr Hfd. assert (∃ p, fd = Z.of_nat p) as [p ->] by (exists (Z.to_nat fd); lia).
  rewrite Nat2Z.id.
  destruct (rep_lookup h l p Hr) as [e He]; [lia|].
  destruct (decide (p ∈ l)) as [Hin|Hout].
  - apply list_elem_of_lookup in Hin as [k Hk]. eexists.
    rewrite (fd_hash_remove_member _ _ _ _ _ Hr Hk He). split; [done|].
    rewrite (list_remove_delete _ _ _ (rep_nodup _ _ Hr) Hk). destruct h as [tbl hd ta].
    eapply rep_delete; [done..|]. by eapply link_unlinked.
  - exists h. unfold fd_hash_remove. rewrite cell_Done by lia. cbn [mbind res_bind].
    rewrite Nat2Z.id. unfold el_at at 1. rewrite He. cbn [at_index mbind res_bind].
    rewrite <- !negb_orb, (member_test _ _ _ _ Hr He), bool_decide_eq_false_2 by done.
    split; [done|]. unfold list_remove. rewrite filter_all; [done|].
    apply Forall_forall. intros x Hx ->. done.
Qed.

Lemma cell_inv fd p : cell fd = Done p → p = Z.to_nat fd ∧ (p < FD_SETSIZE)%nat.
Proof.
  unfold cell. destruct (_ && _) eqn:E; [|discriminate]. intros [= <-]. zbool. split; [done | lia].
Qed.

Lemma cell_range fd p : cell fd = Done p → 0 <= fd < Z.of_nat FD_SETSIZE.
Proof. unfold cell. destruct (Z.leb_spec 0 fd), (Z.ltb_spec fd (Z.of_nat FD_SETSIZE)); done. Qed.

(** The operations keep the representation of a list. *)
Lemma fd_hash_add_ok h fd h' : (∃ l, rep h l) → fd_hash_add h fd = Done h' → ∃ l, rep h' l.
Proof.
  intros [l Hl] E. assert (0 <= fd < Z.of_nat FD_SETSIZE) as Hfd.
  { unfold fd_hash_add in E. apply res_bind_inv in E as (p & Hp & _). by apply cell_range in Hp. }
  destruct (fd_hash_add_rep h l fd Hl Hfd) as (h1 & E1 & Hr). assert (h1 = h') as <- by congruence. by eexists.
Qed.

Lemma fd_hash_remove_ok h fd h' : (∃ l, rep h l) → fd_hash_remove h fd = Done h' → ∃ l, rep h' l.
Proof.
  intros [l Hl] E. assert (0 <= fd < Z.of_nat FD_SETSIZE) as Hfd.
  { unfold fd_hash_remove in E. apply res_bind_inv in E as (p & Hp & _). by apply cell_range in Hp. }
  destruct (fd_hash_remove_rep h l fd Hl Hfd) as (h1 & E1 & Hr). assert (h1 = h') as <- by congruence. by eexists.
Qed.

Lemma fd_hash_walk_spec fuel h l k :
  rep h l → (length l - k < fuel)%nat →
  fd_hash_walk fuel h (match l !! k with Some p => Z.of_nat p | None => -1 end)
  = Done (Z.of_nat <$> drop k l).
Proof.
  intros Hr. revert k. induction fuel as [|fuel IH]; intros k Hf; [lia|]. cbn [fd_hash_walk].
  destruct (l !! k) as [p|] eqn:Ep.
  - rewrite (proj2 (Z.eqb_neq _ _)) by lia.
    assert (p < FD_SETSIZE)%nat as Hp by (apply (rep_lt _ _ _ Hr); by eapply list_elem_of_lookup_2).
    unfold fd_hash_next. rewrite cell_Done by lia. cbn [mbind res_bind].
    rewrite Nat2Z.id. unfold el_at. rewrite (rep_in _ _ Hr _ _ Ep). cbn [at_index mbind res_bind next].
    pose proof (lookup_lt_Some _ _ _ Ep).
    specialize (IH (S k) ltac:(lia)).
    rewrite IH. cbn [mbind res_bind]. rewrite (drop_cons_lookup _ _ _ Ep). done.
  - apply lookup_ge_None in Ep. by rewrite drop_ge.
Qed.

Lemma fd_hash_list_rep h l : rep h l → fd_hash_list h = Done (Z.of_nat <$> l).
Proof.
  intros Hr. unfold fd_hash_list, fd_hash_head. rewrite (rep_head _ _ Hr), head_lookup.
  pose proof (rep_size _ _ Hr).
  pose proof (fd_hash_walk_spec (S FD_SETSIZE) h l 0 Hr ltac:(lia)) as Hw.
  rewrite drop_0 in Hw. rewrite <- Hw. by destruct (l !! 0%nat).
Qed.

Lemma run_ops_rep ops h l :
  rep h l → Forall (λ op, 0 <= op_fd op < Z.of_nat FD_SETSIZE) ops →
  ∃ h', run_ops h ops = Done h' ∧ rep h' (foldl list_op l ops).
Proof.
  intros Hr Hops. revert h l Hr. induction Hops as [|op ops Hop Hops IH]; intros h l Hr.
  { by exists h. }
  cbn [run_ops]. destruct op as [fd|fd]; simpl in Hop; cbn [run_op foldl list_op].
  - destruct (fd_hash_add_rep _ _ _ Hr Hop) as (h1 & -> & Hr1). by apply IH.
  - destruct (fd_hash_remove_rep _ _ _ Hr Hop) as (h1 & -> & Hr1). by apply IH.
Qed.

(** ** Properties *)

(** C25: after any sequence of additions and removals of valid descriptors the
    linked array represents the list that the plain list operations give (no
    duplicates, in order of insertion), and the loop of the clients visits
    exactly this list and ends. *)
Theorem fd_hash_refines_list (ops : list fd_op) :
  Forall (λ op, 0 <= op_fd op < Z.of_nat FD_SETSIZE) ops →
  ∃ h, run_ops fd_hash_init ops = Done h ∧
    rep h (foldl list_op [] ops) ∧
    fd_hash_list h = Done (Z.of_nat <$> foldl list_op [] ops) ∧
    (length (foldl list_op [] ops) <= FD_SETSIZE)%nat.
Proof.
  intros Hops. destruct (run_ops_rep _ _ _ rep_init Hops) as (h & Hh & Hr).
  exists h. split; [done|]. split; [done|]. split; [by apply fd_hash_list_rep | by eapply rep_size].
Qed.

Lemma fd_hash_refines_list_witness :
  ∃ h, run_ops fd_hash_init
         [OpAdd 0; OpAdd 2; OpRemove 0; OpAdd 4; OpAdd 5; OpAdd 6; OpRemove 4; OpAdd 6] = Done h ∧
    rep h [2; 5; 6]%nat ∧ fd_hash_list h = Done [2; 5; 6] ∧ (3 <= FD_SETSIZE)%nat.
Proof.
  apply (fd_hash_refines_list
    [OpAdd 0; OpAdd 2; OpRemove 0; OpAdd 4; OpAdd 5; OpAdd 6; OpRemove 4; OpAdd 6]).
  apply (bool_decide_unpack _). vm_compute. exact I.
Defined.
