(* ===== verification/Zfildes.v ===== *)
(** zfildes.c: the event loop over file descriptors.

    The file-scope variables of the source are the record [zfd_t].  A handler and
    its argument are names; what a handler does is the argument [call] of
    [zfd_select], which may change the state of the loop, and so is the answer
    of select(2). *)

From Stdlib Require Import ZArith Lia.
From S2P Require Export FdHash.

Local Open Scope Z_scope.

Inductive io_type_t := ZFD_R | ZFD_W.

#[export] Instance io_type_eq_dec : EqDecision io_type_t.
Proof. solve_decision. Defined.

(** ** fd_set of the C library *)

Abbreviation fd_set := (list bool).

Definition FD_ZERO : fd_set := replicate FD_SETSIZE false.

Definition FD_SET (fd : Z) (s : fd_set) : res fd_set :=
  p ← cell fd; Done (<[p := true]> s).

Definition FD_CLR (fd : Z) (s : fd_set) : res fd_set :=
  p ← cell fd; Done (<[p := false]> s).

Definition FD_ISSET (fd : Z) (s : fd_set) : res bool :=
  p ← cell fd; at_index (s !! p).

(** ** State *)

(** A handler and its argument; [None] is the zeroed entry. *)
Abbreviation fd_info_t := (option (Z * Z)).

Record zfd_t := Zfd {
  active_read_fd_set : fd_set;
  active_write_fd_set : fd_set;
  fd_data : list (fd_info_t * fd_info_t);
  active_hash : fd_hash_t;
  first_set : bool;
  unblock : bool
}.

Definition zfd_static : zfd_t :=
  Zfd FD_ZERO FD_ZERO (replicate FD_SETSIZE (None, None)) fd_hash_init true false.

(** ** Operations *)

(** [fd_data[ fd ][ io_type - 1 ]]. *)
Definition info_get (z : zfd_t) (fd : Z) (io : io_type_t) : res fd_info_t :=
  p ← cell fd;
  d ← at_index (fd_data z !! p);
  Done (match io with ZFD_R => fst d | ZFD_W => snd d end).

Definition info_put (z : zfd_t) (fd : Z) (io : io_type_t) (i : fd_info_t) : res zfd_t :=
  p ← cell fd;
  d ← at_index (fd_data z !! p);
  let d := match io with ZFD_R => (i, snd d) | ZFD_W => (fst d, i) end in
  Done (Zfd (active_read_fd_set z) (active_write_fd_set z) (<[p := d]> (fd_data z))
          (active_hash z) (first_set z) (unblock z)).

Definition put_fd_set (z : zfd_t) (io : io_type_t) (s : fd_set) : zfd_t :=
  match io with
  | ZFD_R => Zfd s (active_write_fd_set z) (fd_data z) (active_hash z) (first_set z) (unblock z)
  | ZFD_W => Zfd (active_read_fd_set z) s (fd_data z) (active_hash z) (first_set z) (unblock z)
  end.

Definition get_fd_set (z : zfd_t) (io : io_type_t) : fd_set :=
  match io with ZFD_R => active_read_fd_set z | ZFD_W => active_write_fd_set z end.

Definition put_hash (z : zfd_t) (h : fd_hash_t) : zfd_t :=
  Zfd (active_read_fd_set z) (active_write_fd_set z) (fd_data z) h (first_set z) (unblock z).

Definition zfd_set (z : zfd_t) (fd : Z) (io : io_type_t) (handler udata : Z) : res zfd_t :=
  let z := if first_set z
           then Zfd FD_ZERO FD_ZERO (replicate FD_SETSIZE (None, None)) fd_hash_init false (unblock z)
           else z in
  z ← info_put z fd io (Some (handler, udata));
  s ← FD_SET fd (get_fd_set z io);
  let z := put_fd_set z io s in
  h ← fd_hash_add (active_hash z) fd;
  Done (put_hash z h).

Definition zfd_clr (z : zfd_t) (fd : Z) (io : io_type_t) : res zfd_t :=
  s ← FD_CLR fd (get_fd_set z io);
  let z := put_fd_set z io s in
  r ← FD_ISSET fd (active_read_fd_set z);
  w ← FD_ISSET fd (active_write_fd_set z);
  if negb r && negb w then
    h ← fd_hash_remove (active_hash z) fd;
    Done (put_hash z h)
  else Done z.

Definition zfd_isset (z : zfd_t) (fd : Z) (io : io_type_t) : res bool :=
  FD_ISSET fd (get_fd_set z io).

Definition zfd_unblock (z : zfd_t) : zfd_t :=
  Zfd (active_read_fd_set z) (active_write_fd_set z) (fd_data z) (active_hash z) (first_set z) true.

Section select.
(** The world that handlers act on, and what a handler does. *)
Context {W : Type} (call : Z → Z → Z → zfd_t → W → res (zfd_t * W)).

(** The call of a handler through its entry. *)
Definition call_entry (io : io_type_t) (fd : Z) (z : zfd_t) (w : W) : res (zfd_t * W) :=
  i ← info_get z fd io;
  hu ← deref i;
  call (fst hu) fd (snd hu) z w.

(** The body of the loop for one descriptor. *)
Definition zfd_visit (read_fd_set : fd_set) (i : Z) (z : zfd_t) (w : W) : res (zfd_t * W) :=
  r ← FD_ISSET i read_fd_set;
  a ← FD_ISSET i (active_read_fd_set z);
  '(z, w) ← (if r && a then call_entry ZFD_R i z w else Done (z, w));
  a ← FD_ISSET i (active_write_fd_set z);
  if (a : bool) then call_entry ZFD_W i z w else Done (z, w).

Fixpoint zfd_loop (fuel : nat) (read_fd_set : fd_set) (i : Z) (z : zfd_t) (w : W)
  : res (zfd_t * W) :=
  match fuel with
  | O => Fault OutOfFuel
  | S fuel =>
      if i =? -1 then Done (z, w)
      else
        '(z, w) ← zfd_visit read_fd_set i z w;
        i ← fd_hash_next (active_hash z) i;
        zfd_loop fuel read_fd_set i z w
  end.

(** The timeout given to select(2); [None] waits for ever. *)
Definition zfd_timeout (z : zfd_t) (tv_sec : Z) : option Z :=
  if tv_sec =? 0 then (if unblock z then Some 0 else None) else Some tv_sec.

(** [answer] is the set of readable descriptors that select(2) returned, [None]
    when it failed.  The result of the source comes first. *)
Definition zfd_select (fuel : nat) (answer : option Z → option fd_set) (tv_sec : Z)
  (z : zfd_t) (w : W) : res (Z * zfd_t * W) :=
  let ready := answer (zfd_timeout z tv_sec) in
  let z := Zfd (active_read_fd_set z) (active_write_fd_set z) (fd_data z) (active_hash z)
             (first_set z) false in
  match ready with
  | None => Done (0, z, w)
  | Some read_fd_set =>
      '(z, w) ← zfd_loop fuel read_fd_set (fd_hash_head (active_hash z)) z w;
      Done (1, z, w)
  end.

End select.

(** ** Specification vocabulary *)

Definition bit (s : fd_set) (p : nat) : bool := default false (s !! p).

(** The list [l] holds the descriptors with an interest, each with a handler
    for every interest it has. *)
Record zfd_inv (z : zfd_t) (l : list nat) : Prop := {
  zi_rep : rep (active_hash z) l;
  zi_read : length (active_read_fd_set z) = FD_SETSIZE;
  zi_write : length (active_write_fd_set z) = FD_SETSIZE;
  zi_data : length (fd_data z) = FD_SETSIZE;
  zi_mem : ∀ p, p ∈ l ↔ bit (active_read_fd_set z) p || bit (active_write_fd_set z) p = true;
  zi_handler : ∀ p io, bit (get_fd_set z io) p = true →
    ∃ hu, info_get z (Z.of_nat p) io = Done (Some hu);
  zi_first : first_set z = true → l = []
}.

Definition valid_fd (fd : Z) : Prop := 0 <= fd < Z.of_nat FD_SETSIZE.

#[export] Instance valid_fd_dec fd : Decision (valid_fd fd).
Proof. unfold valid_fd. apply _. Defined.

(** ** Lemmas *)

Lemma bit_insert s p q b :
  (p < length s)%nat → bit (<[p := b]> s) q = if decide (p = q) then b else bit s q.
Proof.
  intros H. unfold bit. case_decide as E.
  - subst. by rewrite list_lookup_insert_eq.
  - by rewrite list_lookup_insert_ne.
Qed.

Lemma bit_zero p : bit FD_ZERO p = false.
Proof.
  unfold bit, FD_ZERO. destruct (decide (p < FD_SETSIZE)%nat) as [H|H].
  - rewrite (proj2 (lookup_replicate FD_SETSIZE false false p)); auto.
  - rewrite lookup_ge_None_2; [done|]. rewrite length_replicate. lia.
Qed.

Lemma FD_ISSET_bit fd s :
  valid_fd fd → length s = FD_SETSIZE → FD_ISSET fd s = Done (bit s (Z.to_nat fd)).
Proof.
  intros Hfd Hs. unfold FD_ISSET. rewrite cell_Done by done. cbn [mbind res_bind].
  unfold bit. destruct (lookup_lt_is_Some_2 s (Z.to_nat fd)) as [b ->]; [|done].
  unfold valid_fd in Hfd. lia.
Qed.

Lemma zfd_static_inv : zfd_inv zfd_static [].
Proof.
  split; unfold zfd_static, active_hash, active_read_fd_set, active_write_fd_set, fd_data, get_fd_set.
  - apply rep_init.
  - apply length_replicate.
  - apply length_replicate.
  - apply length_replicate.
  - intros p. rewrite bit_zero. split; [intros H; by apply elem_of_nil in H | done].
  - intros p [] H; by rewrite bit_zero in H.
  - done.
Qed.

Lemma FD_SET_Done fd s : valid_fd fd → FD_SET fd s = Done (<[Z.to_nat fd := true]> s).
Proof. intros H. unfold FD_SET. by rewrite cell_Done. Qed.

Lemma FD_CLR_Done fd s : valid_fd fd → FD_CLR fd s = Done (<[Z.to_nat fd := false]> s).
Proof. intros H. unfold FD_CLR. by rewrite cell_Done. Qed.

Definition set_info (io : io_type_t) (i : fd_info_t) (d : fd_info_t * fd_info_t) :=
  match io with ZFD_R => (i, snd d) | ZFD_W => (fst d, i) end.

Lemma info_put_Done z fd io i :
  valid_fd fd → length (fd_data z) = FD_SETSIZE →
  ∃ d, fd_data z !! Z.to_nat fd = Some d ∧
    info_put z fd io i = Done (Zfd (active_read_fd_set z) (active_write_fd_set z)
      (<[Z.to_nat fd := set_info io i d]> (fd_data z)) (active_hash z) (first_set z) (unblock z)).
Proof.
  intros Hfd Hl. destruct (lookup_lt_is_Some_2 (fd_data z) (Z.to_nat fd)) as [d Hd].
  { unfold valid_fd in Hfd. lia. }
  exists d. split; [done|]. unfold info_put. rewrite cell_Done by done. cbn [mbind res_bind].
  by rewrite Hd.
Qed.

(** Reading an entry after another, or the same, was written. *)
Lemma info_get_put z z' fd io i p io' hu d :
  valid_fd fd → fd_data z !! Z.to_nat fd = Some d →
  fd_data z' = <[Z.to_nat fd := set_info io (Some i) d]> (fd_data z) →
  info_get z (Z.of_nat p) io' = Done (Some hu) →
  ∃ hu', info_get z' (Z.of_nat p) io' = Done (Some hu').
Proof.
  intros Hfd Hd Hz' H. unfold info_get in *.
  assert (cell (Z.of_nat p) = Done p ∨ ∃ f, cell (Z.of_nat p) = Fault f) as [Ep|[f Ep]].
  { unfold cell. case_test; [left; by rewrite Nat2Z.id | eauto]. }
  2: by rewrite Ep in H.
  rewrite Ep in *. cbn [mbind res_bind] in *. rewrite Hz'.
  destruct (decide (p = Z.to_nat fd)) as [->|Hne].
  - rewrite list_lookup_insert_eq by (by eapply lookup_lt_Some).
    rewrite Hd in H. cbn [at_index mbind res_bind] in *.
    destruct io, io'; simpl in *; eauto; injection H as H; rewrite H; eauto.
  - rewrite list_lookup_insert_ne by done. eauto.
Qed.

Lemma info_get_new z' fd io i d tbl :
  valid_fd fd → (Z.to_nat fd < length tbl)%nat →
  fd_data z' = <[Z.to_nat fd := set_info io (Some i) d]> tbl →
  info_get z' fd io = Done (Some i).
Proof.
  intros Hfd Hl Hz'. unfold info_get. rewrite cell_Done by done. cbn [mbind res_bind].
  rewrite Hz', list_lookup_insert_eq by done. by destruct io.
Qed.

Lemma info_get_ext z z' fd io : fd_data z = fd_data z' → info_get z fd io = info_get z' fd io.
Proof. intros H. unfold info_get. by rewrite H. Qed.

(** The first call zeroes the state. *)
Definition zfd_prepare (z : zfd_t) : zfd_t :=
  if first_set z
  then Zfd FD_ZERO FD_ZERO (replicate FD_SETSIZE (None, None)) fd_hash_init false (unblock z)
  else z.

Lemma zfd_prepare_inv z l :
  zfd_inv z l → zfd_inv (zfd_prepare z) l ∧ first_set (zfd_prepare z) = false.
Proof.
  intros Hi. unfold zfd_prepare. destruct (first_set z) eqn:E; [|by split].
  split; [|done]. rewrite (zi_first _ _ Hi E).
  pose proof zfd_static_inv as [H1 H2 H3 H4 H5 H6 _]. by split.
Qed.

Lemma elem_of_list_add l p q : q ∈ list_add l p ↔ q ∈ l ∨ q = p.
Proof.
  unfold list_add. case_decide.
  - split; [auto|]. intros [?| ->]; done.
  - by rewrite elem_of_app, list_elem_of_singleton.
Qed.

Lemma elem_of_list_remove l p q : q ∈ list_remove l p ↔ q ∈ l ∧ q ≠ p.
Proof. unfold list_remove. rewrite list_elem_of_filter. tauto. Qed.

Lemma zfd_set_inv z l fd io h u :
  zfd_inv z l → valid_fd fd →
  ∃ z', zfd_set z fd io h u = Done z' ∧ zfd_inv z' (list_add l (Z.to_nat fd)) ∧
    first_set z' = false ∧
    get_fd_set z' io = <[Z.to_nat fd := true]> (get_fd_set (zfd_prepare z) io) ∧
    (∀ io', io' ≠ io → get_fd_set z' io' = get_fd_set (zfd_prepare z) io') ∧
    info_get z' fd io = Done (Some (h, u)).
Proof.
  intros Hi Hfd. destruct (zfd_prepare_inv _ _ Hi) as [Hp Hpf].
  unfold zfd_set. fold (zfd_prepare z). set (z0 := zfd_prepare z) in *. clearbody z0.
  destruct (info_put_Done z0 fd io (Some (h, u)) Hfd (zi_data _ _ Hp)) as (d & Hd & ->).
  cbn [mbind res_bind]. rewrite FD_SET_Done by done. cbn [mbind res_bind].
  destruct (fd_hash_add_rep _ _ _ (zi_rep _ _ Hp) Hfd) as (hs & Hadd & Hrep).
  replace (active_hash (put_fd_set _ io _)) with (active_hash z0) by by destruct io.
  rewrite Hadd. cbn [mbind res_bind]. eexists. split; [reflexivity|].
  assert (∀ io, (Z.to_nat fd < length (get_fd_set z0 io))%nat) as Hlt.
  { intros []; simpl; rewrite ?(zi_read _ _ Hp), ?(zi_write _ _ Hp); unfold valid_fd in Hfd; lia. }
  pose proof (lookup_lt_Some _ _ _ Hd) as Hdl.
  split; [|split; [|split; [|split]]].
  - split.
    + by destruct io.
    + destruct io; simpl; rewrite ?length_insert; apply (zi_read _ _ Hp).
    + destruct io; simpl; rewrite ?length_insert; apply (zi_write _ _ Hp).
    + destruct io; simpl; rewrite ?length_insert; apply (zi_data _ _ Hp).
    + intros p. rewrite elem_of_list_add, (zi_mem _ _ Hp).
      destruct io; simpl; rewrite bit_insert by (apply (Hlt ZFD_R) || apply (Hlt ZFD_W));
        case_decide; subst; rewrite ?orb_true_r; intuition congruence.
    + intros p io' Hb. destruct (decide (io' = io ∧ p = Z.to_nat fd)) as [[-> ->]|Hne].
      * exists (h, u). rewrite Z2Nat.id by (unfold valid_fd in Hfd; lia).
        eapply info_get_new; [done | exact Hdl | by destruct io].
      * assert (bit (get_fd_set z0 io') p = true) as Hb'.
        { destruct io, io'; simpl in *; try done;
            rewrite bit_insert in Hb by (apply (Hlt ZFD_R) || apply (Hlt ZFD_W));
            case_decide; subst; naive_solver. }
        destruct (zi_handler _ _ Hp _ _ Hb') as [hu Hhu].
        eapply info_get_put; [done | exact Hd | by destruct io | exact Hhu].
    + by destruct io; simpl; rewrite Hpf.
  - by destruct io.
  - by destruct io.
  - intros io' Hne. by destruct io, io'.
  - eapply info_get_new; [done | exact Hdl | by destruct io].
Qed.

Lemma zfd_clr_inv z l fd io :
  zfd_inv z l → valid_fd fd →
  ∃ z', zfd_clr z fd io = Done z' ∧
    zfd_inv z' (if bit (get_fd_set z' ZFD_R) (Z.to_nat fd) || bit (get_fd_set z' ZFD_W) (Z.to_nat fd)
                then l else list_remove l (Z.to_nat fd)) ∧
    get_fd_set z' io = <[Z.to_nat fd := false]> (get_fd_set z io) ∧
    (∀ io', io' ≠ io → get_fd_set z' io' = get_fd_set z io') ∧
    fd_data z' = fd_data z ∧ first_set z' = first_set z.
Proof.
  intros Hi Hfd. unfold zfd_clr. rewrite FD_CLR_Done by done. cbn [mbind res_bind].
  set (z1 := put_fd_set z io (<[Z.to_nat fd := false]> (get_fd_set z io))).
  assert (∀ io, (Z.to_nat fd < length (get_fd_set z io))%nat) as Hlt.
  { intros []; simpl; rewrite ?(zi_read _ _ Hi), ?(zi_write _ _ Hi); unfold valid_fd in Hfd; lia. }
  assert (length (active_read_fd_set z1) = FD_SETSIZE) as Hr
    by (destruct io; simpl; rewrite ?length_insert; apply (zi_read _ _ Hi)).
  assert (length (active_write_fd_set z1) = FD_SETSIZE) as Hw
    by (destruct io; simpl; rewrite ?length_insert; apply (zi_write _ _ Hi)).
  rewrite !FD_ISSET_bit by done. cbn [mbind res_bind]. rewrite <- negb_orb.
  change (active_read_fd_set z1) with (get_fd_set z1 ZFD_R).
  change (active_write_fd_set z1) with (get_fd_set z1 ZFD_W).
  assert (∀ p, p ≠ Z.to_nat fd → ∀ io', bit (get_fd_set z1 io') p = bit (get_fd_set z io') p) as Hoth.
  { intros p Hne io'. destruct io, io'; simpl; try done; rewrite bit_insert by
      (apply (Hlt ZFD_R) || apply (Hlt ZFD_W)); by rewrite decide_False. }
  assert (∀ p io', bit (get_fd_set z1 io') p = true → bit (get_fd_set z io') p = true) as Hmono.
  { intros p io'. destruct io, io'; simpl; try done; rewrite bit_insert by
      (apply (Hlt ZFD_R) || apply (Hlt ZFD_W)); by case_decide. }
  assert (active_hash z1 = active_hash z ∧ fd_data z1 = fd_data z ∧ first_set z1 = first_set z)
    as (Hh & Hdat & Hfs) by by destruct io.
  assert (get_fd_set z1 io = <[Z.to_nat fd := false]> (get_fd_set z io) ∧
          ∀ io', io' ≠ io → get_fd_set z1 io' = get_fd_set z io') as [Hg Hg'].
  { split; [by destruct io|]. intros io' Hne. by destruct io, io'. }
  clearbody z1.
  destruct (bit (get_fd_set z1 ZFD_R) (Z.to_nat fd) || bit (get_fd_set z1 ZFD_W) (Z.to_nat fd)) eqn:Eb;
    cbn [negb].
  - exists z1. split; [done|]. rewrite Eb. split; [|done].
    split; try done.
    + rewrite Hh. apply (zi_rep _ _ Hi).
    + rewrite Hdat. apply (zi_data _ _ Hi).
    + intros p. destruct (decide (p = Z.to_nat fd)) as [->|Hne].
      * rewrite (zi_mem _ _ Hi). simpl in *. rewrite Eb. split; [done|]. intros _.
        apply orb_true_iff. apply orb_true_iff in Eb as [Hb|Hb]; [left | right].
        -- by apply (Hmono _ ZFD_R). 
        -- by apply (Hmono _ ZFD_W).
      * rewrite (zi_mem _ _ Hi). pose proof (Hoth p Hne ZFD_R) as HR. pose proof (Hoth p Hne ZFD_W) as HW.
        simpl in HR, HW. by rewrite HR, HW.
    + intros p io' Hb. rewrite (info_get_ext _ _ _ _ Hdat). apply (zi_handler _ _ Hi). auto.
    + rewrite Hfs. apply (zi_first _ _ Hi).
  - rewrite Hh. destruct (fd_hash_remove_rep _ _ _ (zi_rep _ _ Hi) Hfd) as (h & -> & Hrep).
    cbn [mbind res_bind]. exists (put_hash z1 h). split; [done|].
    change (get_fd_set (put_hash z1 h)) with (get_fd_set z1). rewrite Eb. split; [|done].
    split; try done.
    + change (length (fd_data z1) = FD_SETSIZE). rewrite Hdat. apply (zi_data _ _ Hi).
    + intros p. rewrite elem_of_list_remove, (zi_mem _ _ Hi).
      change (bit (get_fd_set z ZFD_R) p || bit (get_fd_set z ZFD_W) p = true ∧ p ≠ Z.to_nat fd
              ↔ bit (get_fd_set z1 ZFD_R) p || bit (get_fd_set z1 ZFD_W) p = true).
      destruct (decide (p = Z.to_nat fd)) as [->|Hne].
      * rewrite Eb. naive_solver.
      * rewrite !(Hoth p Hne). naive_solver.
    + intros p io' Hb. rewrite (info_get_ext (put_hash z1 h) z _ _ Hdat).
      apply (zi_handler _ _ Hi). auto.
    + simpl. intros Hf. rewrite Hfs in Hf. by rewrite (zi_first _ _ Hi Hf).
Qed.

Inductive zfd_op :=
| ZfdSet (fd : Z) (io : io_type_t) (handler udata : Z)
| ZfdClr (fd : Z) (io : io_type_t).

Definition zfd_op_fd (op : zfd_op) : Z := match op with ZfdSet fd _ _ _ | ZfdClr fd _ => fd end.

Definition zfd_run_op (z : zfd_t) (op : zfd_op) : res zfd_t :=
  match op with ZfdSet fd io h u => zfd_set z fd io h u | ZfdClr fd io => zfd_clr z fd io end.

Fixpoint zfd_run (z : zfd_t) (ops : list zfd_op) : res zfd_t :=
  match ops with
  | [] => Done z
  | op :: ops => z ← zfd_run_op z op; zfd_run z ops
  end.

(** Whether an interest is on after an operation. *)
Definition interest_step (fd : Z) (io : io_type_t) (b : bool) (op : zfd_op) : bool :=
  match op with
  | ZfdSet fd' io' _ _ => if decide (fd' = fd ∧ io' = io) then true else b
  | ZfdClr fd' io' => if decide (fd' = fd ∧ io' = io) then false else b
  end.

Definition interest (ops : list zfd_op) (fd : Z) (io : io_type_t) : bool :=
  foldl (interest_step fd io) false ops.

Lemma get_fd_set_length z l io : zfd_inv z l → length (get_fd_set z io) = FD_SETSIZE.
Proof. intros H. destruct io; [apply (zi_read _ _ H) | apply (zi_write _ _ H)]. Qed.

Lemma zfd_prepare_bit z l io p :
  zfd_inv z l → bit (get_fd_set (zfd_prepare z) io) p = bit (get_fd_set z io) p.
Proof.
  intros Hi. unfold zfd_prepare. destruct (first_set z) eqn:E; [|done].
  assert (p ∉ l) as Hp by (rewrite (zi_first _ _ Hi E); apply not_elem_of_nil).
  rewrite (zi_mem _ _ Hi) in Hp. apply not_true_iff_false, orb_false_iff in Hp as [H1 H2].
  destruct io; simpl; rewrite bit_zero; by rewrite ?H1, ?H2.
Qed.

Lemma bit_update s s' p fd b :
  s' = <[Z.to_nat fd := b]> s → length s = FD_SETSIZE → valid_fd fd → valid_fd p →
  bit s' (Z.to_nat p) = if decide (fd = p) then b else bit s (Z.to_nat p).
Proof.
  intros -> Hs Hfd Hp. unfold valid_fd in *. rewrite bit_insert by lia.
  repeat case_decide; try done; exfalso; [|subst]; lia.
Qed.

Lemma zfd_run_op_step z l op :
  zfd_inv z l → valid_fd (zfd_op_fd op) →
  ∃ z' l', zfd_run_op z op = Done z' ∧ zfd_inv z' l' ∧
    ∀ p io, valid_fd p →
      bit (get_fd_set z' io) (Z.to_nat p)
      = interest_step p io (bit (get_fd_set z io) (Z.to_nat p)) op.
Proof.
  intros Hi Hop. destruct op as [fd io h u|fd io]; simpl in Hop; cbn [zfd_run_op interest_step].
  - destruct (zfd_set_inv _ _ _ io h u Hi Hop) as (z' & -> & Hi' & _ & Hs & Ho & _).
    eexists _, _. split; [done|]. split; [exact Hi'|]. intros p io' Hp.
    pose proof (get_fd_set_length _ _ io (proj1 (zfd_prepare_inv _ _ Hi))) as Hl.
    destruct (decide (io' = io)) as [->|Hne].
    + rewrite (bit_update _ _ p fd true Hs), (zfd_prepare_bit _ _ _ _ Hi) by done.
      repeat case_decide; naive_solver.
    + rewrite Ho, (zfd_prepare_bit _ _ _ _ Hi) by done.
      rewrite decide_False by naive_solver. done.
  - destruct (zfd_clr_inv _ _ _ io Hi Hop) as (z' & -> & Hi' & Hs & Ho & _).
    eexists _, _. split; [done|]. split; [exact Hi'|]. intros p io' Hp.
    pose proof (get_fd_set_length _ _ io Hi) as Hl.
    destruct (decide (io' = io)) as [->|Hne].
    + rewrite (bit_update _ _ p fd false Hs) by done. repeat case_decide; naive_solver.
    + rewrite Ho by done. rewrite decide_False by naive_solver. done.
Qed.

Lemma zfd_run_interest ops z l f :
  zfd_inv z l → Forall (λ op, valid_fd (zfd_op_fd op)) ops →
  (∀ p io, valid_fd p → bit (get_fd_set z io) (Z.to_nat p) = f p io) →
  ∃ z' l', zfd_run z ops = Done z' ∧ zfd_inv z' l' ∧
    ∀ p io, valid_fd p →
      bit (get_fd_set z' io) (Z.to_nat p) = foldl (interest_step p io) (f p io) ops.
Proof.
  intros Hi Hops. revert z l f Hi. induction Hops as [|op ops Hop Hops IH]; intros z l f Hi Hf.
  { by exists z, l. }
  cbn [zfd_run]. destruct (zfd_run_op_step _ _ _ Hi Hop) as (z1 & l1 & -> & Hi1 & H1).
  apply (IH z1 l1 (λ p io, interest_step p io (f p io) op) Hi1).
  intros p io Hp. rewrite H1, Hf by done. done.
Qed.

(** ** Lemmas on the loop *)

Lemma fd_hash_next_rep h l k p :
  rep h l → l !! k = Some p →
  fd_hash_next h (Z.of_nat p) = Done (match l !! S k with Some q => Z.of_nat q | None => -1 end).
Proof.
  intros Hr Hk. assert (p < FD_SETSIZE)%nat
    by (apply (rep_lt _ _ _ Hr); by eapply list_elem_of_lookup_2).
  unfold fd_hash_next. rewrite cell_Done by lia. cbn [mbind res_bind].
  rewrite Nat2Z.id. unfold el_at. rewrite (rep_in _ _ Hr _ _ Hk). done.
Qed.

Lemma fd_hash_next_removed h l fd :
  rep h l → valid_fd fd → Z.to_nat fd ∉ l → fd_hash_next h fd = Done (-1).
Proof.
  intros Hr Hfd Hp. unfold fd_hash_next. rewrite cell_Done by done. cbn [mbind res_bind].
  unfold el_at. rewrite (rep_out _ _ Hr) by (unfold valid_fd in Hfd; auto; lia). done.
Qed.

(** A recorded call: handler, descriptor, argument. *)
Definition log_call (h fd u : Z) (z : zfd_t) (w : list (Z * Z * Z))
  : res (zfd_t * list (Z * Z * Z)) := Done (z, w ++ [(h, fd, u)]).

(** The call that an entry stands for. *)
Definition entry_call (z : zfd_t) (io : io_type_t) (p : nat) : list (Z * Z * Z) :=
  match info_get z (Z.of_nat p) io with
  | Done (Some (h, u)) => [(h, Z.of_nat p, u)]
  | _ => []
  end.

(** The calls for one descriptor: its read handler when it is ready and has the
    interest, then its write handler when it has the interest. *)
Definition visit_calls (ready : fd_set) (z : zfd_t) (p : nat) : list (Z * Z * Z) :=
  (if bit ready p && bit (active_read_fd_set z) p then entry_call z ZFD_R p else []) ++
  (if bit (active_write_fd_set z) p then entry_call z ZFD_W p else []).

Lemma call_entry_log z l io p w :
  zfd_inv z l → bit (get_fd_set z io) p = true →
  call_entry log_call io (Z.of_nat p) z w = Done (z, w ++ entry_call z io p).
Proof.
  intros Hi Hb. destruct (zi_handler _ _ Hi _ _ Hb) as [[h u] H].
  unfold call_entry, entry_call. rewrite H. done.
Qed.

Lemma zfd_visit_log ready z l p w :
  zfd_inv z l → length ready = FD_SETSIZE → (p < FD_SETSIZE)%nat →
  zfd_visit log_call ready (Z.of_nat p) z w = Done (z, w ++ visit_calls ready z p).
Proof.
  intros Hi Hr Hp. unfold zfd_visit, visit_calls.
  assert (valid_fd (Z.of_nat p)) as Hv by (unfold valid_fd; lia).
  rewrite (FD_ISSET_bit _ ready), (FD_ISSET_bit _ (active_read_fd_set z))
    by (done || apply (zi_read _ _ Hi)).
  cbn [mbind res_bind]. rewrite Nat2Z.id.
  destruct (bit ready p && bit (active_read_fd_set z) p) eqn:E.
  - apply andb_prop in E as [_ Hb]. rewrite (call_entry_log _ _ ZFD_R _ _ Hi Hb). cbn [mbind res_bind].
    rewrite FD_ISSET_bit by (done || apply (zi_write _ _ Hi)). cbn [mbind res_bind]. rewrite Nat2Z.id.
    destruct (bit (active_write_fd_set z) p) eqn:Ew.
    + rewrite (call_entry_log _ _ ZFD_W _ _ Hi Ew). by rewrite <- app_assoc.
    + by rewrite app_nil_r.
  - cbn [mbind res_bind]. rewrite FD_ISSET_bit by (done || apply (zi_write _ _ Hi)).
    cbn [mbind res_bind]. rewrite Nat2Z.id.
    destruct (bit (active_write_fd_set z) p) eqn:Ew.
    + by rewrite (call_entry_log _ _ ZFD_W _ _ Hi Ew).
    + by rewrite app_nil_r.
Qed.

Lemma zfd_loop_log fuel ready z l k w :
  zfd_inv z l → length ready = FD_SETSIZE → (length l - k < fuel)%nat →
  zfd_loop log_call fuel ready (match l !! k with Some p => Z.of_nat p | None => -1 end) z w
  = Done (z, w ++ concat (visit_calls ready z <$> drop k l)).
Proof.
  intros Hi Hr. revert k w. induction fuel as [|fuel IH]; intros k w Hf; [lia|]. cbn [zfd_loop].
  destruct (l !! k) as [p|] eqn:Ep.
  - rewrite (proj2 (Z.eqb_neq _ _)) by lia.
    assert (p < FD_SETSIZE)%nat as Hp.
    { apply (rep_lt _ _ _ (zi_rep _ _ Hi)). by eapply list_elem_of_lookup_2. }
    rewrite (zfd_visit_log _ _ _ _ _ Hi Hr Hp). cbn [mbind res_bind].
    rewrite (fd_hash_next_rep _ _ _ _ (zi_rep _ _ Hi) Ep). cbn [mbind res_bind].
    pose proof (lookup_lt_Some _ _ _ Ep). rewrite IH by lia.
    rewrite (drop_cons_lookup _ _ _ Ep). simpl. by rewrite <- app_assoc.
  - apply lookup_ge_None in Ep. rewrite drop_ge by done. simpl. by rewrite app_nil_r.
Qed.

(** The state after a sequence of operations from the start. *)
Definition after (ops : list zfd_op) : zfd_t :=
  match zfd_run zfd_static ops with Done z => z | Fault _ => zfd_static end.

Lemma after_inv ops : Forall (λ op, valid_fd (zfd_op_fd op)) ops → ∃ l, zfd_inv (after ops) l.
Proof.
  intros H. destruct (zfd_run_interest ops _ _ (λ _ _, false) zfd_static_inv H) as (z & l & Hz & Hi & _).
  { intros q [] _; unfold get_fd_set, zfd_static, active_read_fd_set, active_write_fd_set;
      apply bit_zero. }
  exists l. unfold after. by rewrite Hz.
Qed.

(** ** Properties *)

(** After any sequence of [zfd_set] and [zfd_clr] on valid descriptors,
    [zfd_isset] tells whether the last operation on that descriptor and
    direction was a set; the visited list holds exactly the descriptors with an
    interest, and every interest has its handler. *)
Theorem zfd_isset_last (ops : list zfd_op) :
  Forall (λ op, valid_fd (zfd_op_fd op)) ops →
  ∃ z l, zfd_run zfd_static ops = Done z ∧ zfd_inv z l ∧
    ∀ fd io, valid_fd fd → zfd_isset z fd io = Done (interest ops fd io).
Proof.
  intros Hops.
  destruct (zfd_run_interest ops _ _ (λ _ _, false) zfd_static_inv Hops) as (z & l & Hz & Hi & Hb).
  { intros p [] _; unfold get_fd_set, zfd_static, active_read_fd_set, active_write_fd_set;
      apply bit_zero. }
  exists z, l. split; [done|]. split; [done|]. intros fd io Hfd. unfold zfd_isset, interest.
  rewrite FD_ISSET_bit by (done || by eapply get_fd_set_length). by rewrite Hb.
Qed.

Lemma zfd_isset_last_witness :
  ∃ z l, zfd_run zfd_static [ZfdSet 5 ZFD_R 1 2; ZfdSet 7 ZFD_W 1 2; ZfdClr 5 ZFD_R] = Done z ∧
    zfd_inv z l ∧
    ∀ fd io, valid_fd fd → zfd_isset z fd io =
      Done (interest [ZfdSet 5 ZFD_R 1 2; ZfdSet 7 ZFD_W 1 2; ZfdClr 5 ZFD_R] fd io).
Proof.
  apply (zfd_isset_last [ZfdSet 5 ZFD_R 1 2; ZfdSet 7 ZFD_W 1 2; ZfdClr 5 ZFD_R]).
  apply (bool_decide_unpack _). vm_compute. exact I.
Defined.

(** With handlers that leave the loop's state alone, [zfd_select] calls, in
    the order of the list, the read handler of each descriptor that select(2)
    reported and that has the interest, then its write handler whenever it has
    that interest (whether it is ready or not), and returns 1; it returns 0
    without a call when select(2) failed.  The timeout is the given one, else 0
    after [zfd_unblock], else none. *)
Theorem zfd_select_calls (fuel : nat) (answer : option Z → option fd_set) (tv_sec : Z)
  (z : zfd_t) (l : list nat) (w : list (Z * Z * Z)) :
  zfd_inv z l → (length l < fuel)%nat →
  let timeout := if tv_sec =? 0 then if unblock z then Some 0 else None else Some tv_sec in
  ∃ z', unblock z' = false ∧ zfd_inv z' l ∧
  match answer timeout with
  | None => zfd_select log_call fuel answer tv_sec z w = Done (0, z', w)
  | Some ready =>
      length ready = FD_SETSIZE →
      zfd_select log_call fuel answer tv_sec z w
      = Done (1, z', w ++ concat (visit_calls ready z <$> l))
  end.
Proof.
  intros Hi Hf timeout.
  set (z' := Zfd (active_read_fd_set z) (active_write_fd_set z) (fd_data z) (active_hash z)
               (first_set z) false).
  assert (zfd_inv z' l) as Hi' by (by destruct Hi; split).
  exists z'. split; [done|]. split; [done|].
  unfold zfd_select. change (zfd_timeout z tv_sec) with timeout. fold z'.
  destruct (answer timeout) as [ready|]; [|done]. intros Hr.
  pose proof (zfd_loop_log fuel ready z' l 0 w Hi' Hr ltac:(lia)) as H. rewrite drop_0 in H.
  unfold fd_hash_head. rewrite (rep_head _ _ (zi_rep _ _ Hi')), head_lookup.
  replace (match l !! 0%nat with None => -1 | Some p => Z.of_nat p end)
    with (match l !! 0%nat with Some p => Z.of_nat p | None => -1 end) by done.
  rewrite H. done.
Qed.

Lemma zfd_select_calls_witness :
  ∃ z', unblock z' = false ∧ zfd_inv z' [] ∧
    zfd_select log_call 1 (λ _, None) 5 zfd_static [] = Done (0, z', []).
Proof.
  apply (zfd_select_calls 1 (λ _, None) 5 zfd_static [] []).
  - exact zfd_static_inv.
  - apply Nat.ltb_lt. reflexivity.
Defined.

(** When the handlers of a descriptor take it out of the loop, the round ends
    there: the descriptors after it wait for the next call of [zfd_select]. *)
Theorem zfd_round_ends_at_removed {W : Type}
  (call : Z → Z → Z → zfd_t → W → res (zfd_t * W)) (fuel : nat) (ready : fd_set)
  (fd : Z) (z z' : zfd_t) (l' : list nat) (w w' : W) :
  valid_fd fd → zfd_visit call ready fd z w = Done (z', w') →
  zfd_inv z' l' → zfd_isset z' fd ZFD_R = Done false → zfd_isset z' fd ZFD_W = Done false →
  zfd_loop call (S (S fuel)) ready fd z w = Done (z', w').
Proof.
  intros Hfd Hv Hi Hr Hw. unfold zfd_isset in *.
  rewrite FD_ISSET_bit in Hr, Hw by (done || by eapply get_fd_set_length).
  injection Hr as Hr. injection Hw as Hw.
  cbn [zfd_loop]. rewrite (proj2 (Z.eqb_neq _ _)) by (unfold valid_fd in Hfd; lia).
  rewrite Hv. cbn [mbind res_bind]. rewrite (fd_hash_next_removed _ l'); [done| |done|].
  - apply (zi_rep _ _ Hi).
  - rewrite (zi_mem _ _ Hi). simpl in Hr, Hw. by rewrite Hr, Hw.
Qed.

Lemma zfd_round_ends_at_removed_witness :
  zfd_loop (λ h fd u z w, z ← zfd_clr z fd ZFD_R; Done (z, w ++ [fd])) 2
    (replicate FD_SETSIZE true) 5 (after [ZfdSet 5 ZFD_R 1 2; ZfdSet 7 ZFD_R 1 2]) []
  = Done (after [ZfdSet 5 ZFD_R 1 2; ZfdSet 7 ZFD_R 1 2; ZfdClr 5 ZFD_R], [5]).
Proof.
  destruct (after_inv [ZfdSet 5 ZFD_R 1 2; ZfdSet 7 ZFD_R 1 2; ZfdClr 5 ZFD_R]) as [l Hl].
  { apply (bool_decide_unpack _). vm_compute. exact I. }
  apply (zfd_round_ends_at_removed _ 0 (replicate FD_SETSIZE true) 5 _ _ l [] [5]).
  - apply (bool_decide_unpack _). vm_compute. exact I.
  - vm_compute. reflexivity.
  - exact Hl.
  - vm_compute. reflexivity.
  - vm_compute. reflexivity.
Defined.
