(* ===== verification/Params.v ===== *)
(** params.c: the parameters of a request.

    A parameter list is a list of records: simclist's list holds pointers to
    records that only this component writes, so a record updated through its
    pointer is the entry updated at its index.  [params_parse_qs] reads memory:
    its argument is the memory from [raw] on, and [size] bytes of it are the
    query string. *)

From Stdlib Require Import ZArith Lia Ascii String.
From S2P Require Export UrlDecoder Headers.

Local Open Scope Z_scope.

Definition PARAMS_NAME_MAX_LEN : nat := 128.
Definition PARAM_TYPE_GET : Z := 1.
Definition PARAM_TYPE_POST : Z := 2.
Definition PARAM_TYPE_CUSTOM : Z := 3.

Record param_t := Param {
  p_name : bytes;
  p_value : bytes;
  p_value_len : Z;
  p_type : Z;
  p_val_alloced : bool
}.

Abbreviation params_t := (list param_t).

#[export] Instance param_eq_dec : EqDecision param_t.
Proof. solve_decision. Defined.

(** ** Query strings *)

(** The first loop: [name_ptr] and [val_ptr] as offsets, [n] is what is left of
    the size. *)
Fixpoint qs_scan (n : nat) (raw : bytes) (name_ptr val_ptr : nat) : res (nat * nat) :=
  match n with
  | O => Done (name_ptr, val_ptr)
  | S n =>
      c ← at_index (raw !! val_ptr);
      if c =? c_amp then Done (name_ptr, val_ptr)
      else
        d ← at_index (raw !! name_ptr);
        qs_scan n raw (if d =? c_eq then name_ptr else S name_ptr) (S val_ptr)
  end.

(** The loop over the decoded name finds a character that is not ASCII before
    it finds the terminator. *)
Fixpoint not_ascii (len : nat) (name : bytes) : bool :=
  match len, name with
  | S len, c :: name => if c =? 0 then false else if 127 <? c then true else not_ascii len name
  | _, _ => false
  end.

(** One round: [None] when the loop is left by a [break]; else the parameter,
    the rest of the memory and the rest of the size. *)
Definition qs_round (raw : bytes) (size type : Z) : res (option (param_t * bytes * Z)) :=
  '(name_ptr, val_ptr) ← qs_scan (Z.to_nat size) raw 0 0;
  let len := name_ptr in
  if (PARAMS_NAME_MAX_LEN <=? len)%nat then Done None
  else
    name ← url_decode PARAMS_NAME_MAX_LEN raw len;
    if not_ascii len name then Done None
    else
      c ← at_index (raw !! name_ptr);
      let name_ptr := if c =? c_eq then S name_ptr else name_ptr in
      if (val_ptr <? name_ptr)%nat then Fault OutOfBounds
      else
        let size := size - Z.of_nat name_ptr in
        let len := (val_ptr - name_ptr)%nat in
        value ← url_decode (len + 1) (drop name_ptr raw) len;
        c ← at_index (raw !! val_ptr);
        let val_end := if c =? c_amp then S val_ptr else val_ptr in
        let size := size - Z.of_nat (val_end - name_ptr) in
        Done (Some (Param name value (Z.of_nat len) type true, drop val_end raw, size)).

Fixpoint params_parse_qs_loop (fuel : nat) (params : params_t) (raw : bytes) (size type : Z)
  : res params_t :=
  match fuel with
  | O => Fault OutOfFuel
  | S fuel =>
      if 0 <? size then
        r ← qs_round raw size type;
        match r with
        | None => Done params
        | Some (param, raw, size) => params_parse_qs_loop fuel (params ++ [param]) raw size type
        end
      else Done params
  end.

Definition params_parse_qs (params : params_t) (raw : bytes) (size type : Z) : res params_t :=
  params_parse_qs_loop (S (Z.to_nat size)) params raw size type.

(** ** Multipart forms *)

(** What [params_parse_multiparts] reads of a part. *)
Record part_t := Part {
  pt_headers : headers_t;
  pt_post_body : bytes;
  pt_post_body_len : Z;
  pt_charset : bytes
}.

Fixpoint params_parse_multiparts (params : params_t) (multiparts : list part_t) (type : Z)
  : res params_t :=
  match multiparts with
  | [] => Done params
  | part :: multiparts =>
      i ← headers_get_header (pt_headers part) (str "Content-Disposition");
      match i ≫= λ i, pt_headers part !! i with
      | None => params_parse_multiparts params multiparts type
      | Some header =>
          kind ← headers_get_header_attr header None;
          if negb (bool_decide (kind = Some (str "form-data")))
          then params_parse_multiparts params multiparts type
          else
            name ← headers_get_header_attr header (Some (str "name"));
            match name with
            | None => params_parse_multiparts params multiparts type
            | Some name =>
                name ← strcpy_into PARAMS_NAME_MAX_LEN name;
                params_parse_multiparts
                  (params ++ [Param name (pt_post_body part) (pt_post_body_len part) type false])
                  multiparts type
            end
      end
  end.

(** ** Printing *)

Definition params_qs_len (params : params_t) : Z :=
  foldl (λ l p, l + (Z.of_nat PARAMS_NAME_MAX_LEN + p_value_len p + 2)) 0 params.

Fixpoint gen_qs_loop (i : nat) (params : params_t) (qs : bytes) : bytes :=
  match params with
  | [] => qs
  | p :: params =>
      let qs := if (i =? 0)%nat then qs else qs ++ str "&" in
      gen_qs_loop (S i) params (((qs ++ p_name p) ++ str "=") ++ p_value p)
  end.

(** The caller's buffer has [cap] bytes from [qs] on. *)
Definition params_gen_qs (cap : nat) (params : params_t) : res bytes :=
  strcpy_into cap (gen_qs_loop 0 params []).

(** ** Lookup and update *)

Fixpoint params_index (params : params_t) (name : bytes) (i : nat) : option nat :=
  match params with
  | [] => None
  | p :: params => if strcmp_eq (p_name p) name then Some i else params_index params name (S i)
  end.

Definition params_get_param (params : params_t) (name : bytes) : option param_t :=
  params_index params name 0 ≫= λ i, params !! i.

Definition params_set_param (params : params_t) (name : bytes) (value : option bytes)
  : res (params_t * option nat) :=
  match value with
  | None => Done (params, None)
  | Some value =>
      match params_index params name 0 with
      | Some i =>
          p ← at_index (params !! i);
          Done (<[i := Param (p_name p) value (p_value_len p) (p_type p) true]> params, Some i)
      | None =>
          name ← strcpy_into PARAMS_NAME_MAX_LEN name;
          Done (params ++ [Param name value (Z.of_nat (length value)) PARAM_TYPE_CUSTOM true],
                Some (length params))
      end
  end.

(** ** Specification vocabulary *)

(** The query string that a client sends, with the bytes that [escape] selects
    written as escapes. *)
Definition encode_pair (escape : Z → bool) (nv : bytes * bytes) : bytes :=
  percent_encode escape (fst nv) ++ c_eq :: percent_encode escape (snd nv).

Fixpoint encode_qs (escape : Z → bool) (l : list (bytes * bytes)) : bytes :=
  match l with
  | [] => []
  | [nv] => encode_pair escape nv
  | nv :: l => encode_pair escape nv ++ c_amp :: encode_qs escape l
  end.

Definition printable (s : bytes) : Prop := Forall (fun c => 32 <= c <= 126) s.

Definition decoded_param (escape : Z → bool) (type : Z) (nv : bytes * bytes) : param_t :=
  Param (fst nv) (snd nv) (Z.of_nat (length (percent_encode escape (snd nv)))) type true.

(** Every value is as long as its record says, or shorter. *)
Definition lengths_ok (params : params_t) : Prop :=
  Forall (λ p, (length (p_name p) < PARAMS_NAME_MAX_LEN)%nat ∧
               Z.of_nat (length (p_value p)) <= p_value_len p) params.

(** ** Lemmas on the scan *)

(** The scan passes text without separators. *)
Lemma qs_scan_name s raw pre n :
  c_amp ∉ s → c_eq ∉ s → (length s <= n)%nat →
  qs_scan n (pre ++ s ++ raw) (length pre) (length pre)
  = qs_scan (n - length s) (pre ++ s ++ raw) (length pre + length s) (length pre + length s).
Proof.
  revert pre n. induction s as [|c s IH]; intros pre n Ha He Hn; simpl in Hn.
  - simpl. by rewrite Nat.sub_0_r, Nat.add_0_r.
  - rewrite not_elem_of_cons in Ha, He. destruct n as [|n]; [lia|]. cbn [qs_scan].
    simpl app. rewrite list_lookup_middle by done. cbn [at_index mbind res_bind].
    rewrite (proj2 (Z.eqb_neq c c_amp)) by (intros ->; tauto).
    rewrite (proj2 (Z.eqb_neq c c_eq)) by (intros ->; tauto).
    specialize (IH (pre ++ [c]) n). rewrite length_app in IH. simpl in IH.
    rewrite <- app_assoc in IH. simpl in IH. rewrite Nat.add_1_r in IH.
    rewrite IH by (tauto || lia). f_equal; simpl; lia.
Qed.

(** Once [name_ptr] stands on an equals sign it stays there. *)
Lemma qs_scan_value s raw pre p n :
  c_amp ∉ s → (length s <= n)%nat → (pre ++ s ++ raw) !! p = Some c_eq →
  qs_scan n (pre ++ s ++ raw) p (length pre)
  = qs_scan (n - length s) (pre ++ s ++ raw) p (length pre + length s).
Proof.
  revert pre n. induction s as [|c s IH]; intros pre n Ha Hn Hp; simpl in Hn.
  - simpl. by rewrite Nat.sub_0_r, Nat.add_0_r.
  - rewrite not_elem_of_cons in Ha. destruct n as [|n]; [lia|]. cbn [qs_scan].
    rewrite Hp. simpl app. rewrite list_lookup_middle by done. cbn [at_index mbind res_bind].
    rewrite (proj2 (Z.eqb_neq c c_amp)) by (intros ->; tauto). rewrite Z.eqb_refl.
    specialize (IH (pre ++ [c]) n). rewrite length_app in IH. simpl in IH.
    rewrite <- app_assoc in IH. simpl in IH. rewrite Nat.add_1_r in IH.
    rewrite IH by (tauto || lia || done). f_equal; simpl; lia.
Qed.

(** The scan of a pair that ends at a separator, or at the end of the string. *)
Lemma qs_scan_pair n v tail k :
  c_amp ∉ n → c_eq ∉ n → c_amp ∉ v →
  (k = 0%nat ∨ head tail = Some c_amp) →
  qs_scan (length n + 1 + length v + k) (n ++ c_eq :: v ++ tail) 0 0
  = Done (length n, (length n + 1 + length v)%nat).
Proof.
  intros Ha He Hv Hk.
  pose proof (qs_scan_name n (c_eq :: v ++ tail) [] (length n + 1 + length v + k) Ha He ltac:(lia)) as H1.
  simpl in H1. rewrite H1. replace (_ - length n)%nat with (S (length v + k)) by lia.
  cbn [qs_scan]. rewrite list_lookup_middle by done. cbn [at_index mbind res_bind].
  rewrite (proj2 (Z.eqb_neq c_eq c_amp)) by done. rewrite Z.eqb_refl.
  assert (n ++ c_eq :: v ++ tail = (n ++ [c_eq]) ++ v ++ tail) as Heq by by rewrite <- app_assoc.
  assert (S (length n) = length (n ++ [c_eq])) as -> by (rewrite length_app; simpl; lia).
  rewrite Heq, qs_scan_value; [|done|lia|].
  2: { rewrite <- Heq. by rewrite list_lookup_middle. }
  rewrite length_app. simpl length. replace (length v + k - length v)%nat with k by lia.
  destruct k as [|k]; [done|]. destruct Hk as [|Hk]; [done|].
  cbn [qs_scan]. destruct tail as [|c tail]; [done|]. injection Hk as ->.
  replace (((n ++ [c_eq]) ++ v ++ c_amp :: tail) !! (length n + 1 + length v)%nat)
    with (Some c_amp); [done|].
  rewrite (app_assoc (n ++ [c_eq])), list_lookup_middle; [done|]. rewrite !length_app. simpl. lia.
Qed.

(** ** Lemmas on parsing *)

Lemma url_decode_fits cap escape s rest :
  escape c_percent = true → printable s → (length (percent_encode escape s) < cap)%nat →
  url_decode cap (percent_encode escape s ++ rest) (length (percent_encode escape s)) = Done s.
Proof.
  intros He Hs Hc. unfold url_decode. rewrite url_decode_string_encode by done.
  cbn [mbind res_bind]. unfold strcpy_into. pose proof (percent_encode_length escape s).
  by rewrite (proj2 (Nat.ltb_lt _ _)) by lia.
Qed.

Lemma not_ascii_printable len s : printable s → not_ascii len s = false.
Proof.
  intros Hs. revert len. induction Hs as [|c s Hc Hs IH]; intros [|len]; try done.
  simpl. by rewrite (proj2 (Z.eqb_neq c 0)), (proj2 (Z.ltb_ge 127 c)) by lia.
Qed.

Record good_escape (escape : Z → bool) : Prop := {
  ge_percent : escape c_percent = true;
  ge_amp : escape c_amp = true;
  ge_eq : escape c_eq = true
}.

(** One pair of an encoded query string gives one parameter. *)
Lemma qs_round_pair escape nv tail type k :
  good_escape escape → printable (fst nv) → printable (snd nv) →
  (length (percent_encode escape (fst nv)) < PARAMS_NAME_MAX_LEN)%nat →
  tail ≠ [] → (k = 0%nat ∧ head tail ≠ Some c_amp ∨ head tail = Some c_amp) →
  qs_round (encode_pair escape nv ++ tail)
    (Z.of_nat (length (encode_pair escape nv) + k)) type
  = Done (Some (decoded_param escape type nv,
                if decide (head tail = Some c_amp) then drop 1 tail else tail,
                Z.of_nat k - (if decide (head tail = Some c_amp) then 1 else 0))).
Proof.
  intros [Hp Ha He] Hn Hv Hl Htail Hk. destruct nv as [n v]. simpl in Hn, Hv, Hl.
  unfold encode_pair, decoded_param. cbn [fst snd].
  pose proof (λ cap rest, url_decode_fits cap escape n rest Hp Hn) as Hdn.
  pose proof (λ cap rest, url_decode_fits cap escape v rest Hp Hv) as Hdv.
  set (en := percent_encode escape n) in *. set (ev := percent_encode escape v) in *.
  assert (c_amp ∉ en) by (apply percent_encode_not_in; auto; unfold c_amp; lia).
  assert (c_eq ∉ en) by (apply percent_encode_not_in; auto; unfold c_eq; lia).
  assert (c_amp ∉ ev) by (apply percent_encode_not_in; auto; unfold c_amp; lia).
  rewrite <- app_assoc. simpl app. unfold qs_round. rewrite Nat2Z.id, length_app.
  replace (length en + length (c_eq :: ev) + k)%nat with (length en + 1 + length ev + k)%nat
    by (simpl; lia).
  rewrite qs_scan_pair by (done || naive_solver). cbn [mbind res_bind].
  rewrite (proj2 (Nat.leb_gt _ _)) by done.
  rewrite (Hdn PARAMS_NAME_MAX_LEN) by done. cbn [mbind res_bind].
  rewrite not_ascii_printable by done. rewrite (list_lookup_middle en (ev ++ tail) c_eq (length en) eq_refl).
  cbn [at_index mbind res_bind]. rewrite Z.eqb_refl.
  rewrite (proj2 (Nat.ltb_ge _ _)) by lia.
  replace (length en + 1 + length ev - S (length en))%nat with (length ev) by lia.
  assert (drop (S (length en)) (en ++ c_eq :: ev ++ tail) = ev ++ tail) as ->.
  { rewrite drop_app_ge by lia. by replace (_ - _)%nat with 1%nat by lia. }
  rewrite Hdv by lia. cbn [mbind res_bind].
  assert (en ++ c_eq :: ev ++ tail = (en ++ c_eq :: ev) ++ tail) as -> by by rewrite <- app_assoc.
  assert (length en + 1 + length ev = length (en ++ c_eq :: ev))%nat as ->
    by (rewrite length_app; simpl; lia).
  destruct tail as [|c tail]; [done|]. rewrite list_lookup_middle by done.
  cbn [at_index mbind res_bind]. f_equal. f_equal. simpl head.
  assert (drop (S (length (en ++ c_eq :: ev))) ((en ++ c_eq :: ev) ++ c :: tail) = tail) as Hd.
  { rewrite drop_app_ge by lia. by replace (_ - _)%nat with 1%nat by lia. }
  destruct (Z.eqb_spec c c_amp) as [->|Hc].
  - rewrite !decide_True by done. rewrite Hd. f_equal. rewrite length_app. simpl length. lia.
  - rewrite !decide_False by (intros [= ?]; done). rewrite drop_app_length. f_equal.
    rewrite length_app. simpl length. lia.
Qed.

Lemma encode_qs_cons escape nv l :
  l ≠ [] → encode_qs escape (nv :: l) = encode_pair escape nv ++ c_amp :: encode_qs escape l.
Proof. by destruct l. Qed.

Lemma params_parse_qs_loop_encode escape l params tail type fuel :
  good_escape escape →
  Forall (λ nv, printable (fst nv) ∧ printable (snd nv) ∧
            (length (percent_encode escape (fst nv)) < PARAMS_NAME_MAX_LEN)%nat) l →
  tail ≠ [] → head tail ≠ Some c_amp → (length (encode_qs escape l) < fuel)%nat →
  params_parse_qs_loop fuel params (encode_qs escape l ++ tail)
    (Z.of_nat (length (encode_qs escape l))) type
  = Done (params ++ (decoded_param escape type <$> l)).
Proof.
  intros Hg Hl Ht Hh. revert params fuel.
  induction Hl as [|nv l (Hn & Hv & Hlen) Hl IH]; intros params fuel Hf;
    (destruct fuel as [|fuel]; [lia|]); cbn [params_parse_qs_loop].
  { simpl. by rewrite app_nil_r. }
  assert (0 < length (encode_pair escape nv))%nat as Hpos
    by (unfold encode_pair; rewrite length_app; simpl; lia).
  destruct (decide (l = [])) as [->|Hne].
  - cbn [encode_qs] in *. rewrite (proj2 (Z.ltb_lt _ _)) by lia.
    pose proof (qs_round_pair escape nv tail type 0 Hg Hn Hv Hlen Ht ltac:(auto)) as Hr.
    rewrite Nat.add_0_r in Hr. rewrite Hr. cbn [mbind res_bind].
    rewrite !decide_False by done. destruct fuel as [|fuel]; [lia|]. done.
  - rewrite encode_qs_cons in * by done. rewrite length_app in *. simpl length in *.
    rewrite (proj2 (Z.ltb_lt _ _)) by lia. rewrite <- app_assoc. simpl app.
    rewrite qs_round_pair by (done || (right; done)). cbn [mbind res_bind].
    rewrite !decide_True by done. simpl drop.
    replace (Z.of_nat (S (length (encode_qs escape l))) - 1)
      with (Z.of_nat (length (encode_qs escape l))) by lia.
    rewrite IH by lia. by rewrite <- app_assoc.
Qed.

(** ** Lemmas on lookup *)

Definition param_header (p : param_t) : header_t := Header (p_name p) (p_value p).

Lemma params_index_headers ps name i :
  params_index ps name i = find_name (param_header <$> ps) name i.
Proof. revert i. induction ps as [|p ps IH]; intros i; [done|]. simpl. by rewrite IH. Qed.

Lemma params_index_Some ps name i :
  params_index ps name 0 = Some i → ∃ p, ps !! i = Some p ∧ p_name p = name.
Proof.
  rewrite params_index_headers, find_name_Some. intros [(h & Hh & Hn) _].
  rewrite list_lookup_fmap in Hh. apply fmap_Some in Hh as (p & Hp & ->). by exists p.
Qed.

Lemma params_index_insert ps i p p' name :
  ps !! i = Some p → p_name p' = p_name p →
  params_index (<[i := p']> ps) name 0 = params_index ps name 0.
Proof.
  intros Hp Hn. rewrite !params_index_headers, list_fmap_insert.
  change (param_header p') with (Header (p_name p') (p_value p')). rewrite Hn.
  apply (find_name_insert _ _ (param_header p)). by rewrite list_lookup_fmap, Hp.
Qed.

Lemma params_index_snoc ps p name :
  params_index (ps ++ [p]) name 0 =
  match params_index ps name 0 with
  | Some i => Some i
  | None => if strcmp_eq (p_name p) name then Some (length ps) else None
  end.
Proof.
  rewrite !params_index_headers, fmap_app.
  destruct (find_name (param_header <$> ps) name 0) eqn:E; [by apply find_name_app_l|].
  simpl. rewrite find_name_app_r by done. by rewrite length_fmap.
Qed.

(** ** Lemmas on printing *)

Lemma params_qs_len_acc ps z :
  foldl (λ l p, l + (Z.of_nat PARAMS_NAME_MAX_LEN + p_value_len p + 2)) z ps
  = z + params_qs_len ps.
Proof.
  unfold params_qs_len. revert z. induction ps as [|p ps IH]; intros z; cbn [foldl]; [lia|].
  rewrite IH, (IH (0 + _)). lia.
Qed.

Lemma params_qs_len_cons p ps :
  params_qs_len (p :: ps) = Z.of_nat PARAMS_NAME_MAX_LEN + p_value_len p + 2 + params_qs_len ps.
Proof. unfold params_qs_len at 1. cbn [foldl]. rewrite params_qs_len_acc. lia. Qed.

Lemma gen_qs_loop_length i ps qs :
  lengths_ok ps →
  Z.of_nat (length (gen_qs_loop i ps qs)) + Z.of_nat (length ps) <=
  Z.of_nat (length qs) + params_qs_len ps.
Proof.
  intros Hl. revert i qs. induction Hl as [|p ps [Hn Hv] Hl IH]; intros i qs.
  { unfold params_qs_len. simpl. lia. }
  cbn [gen_qs_loop]. rewrite params_qs_len_cons.
  specialize (IH (S i) ((((if (i =? 0)%nat then qs else qs ++ str "&") ++ p_name p) ++ str "=") ++ p_value p)).
  rewrite !length_app in IH. unfold PARAMS_NAME_MAX_LEN in *.
  destruct (i =? 0)%nat; rewrite ?length_app in IH; simpl length in *; lia.
Qed.

(** ** Properties *)

(** [params_parse_qs] reads back an encoded query string: for printable
    names and values, written with any choice of escaped bytes that includes
    the percent sign, the ampersand and the equals sign, it appends one
    parameter for each pair, with the decoded name and value, whatever byte
    other than an ampersand follows the string in memory. *)
Theorem params_parse_qs_encode (escape : Z → bool) (l : list (bytes * bytes))
  (params : params_t) (tail : bytes) (type : Z) :
  good_escape escape →
  Forall (λ nv, printable (fst nv) ∧ printable (snd nv) ∧
            (length (percent_encode escape (fst nv)) < PARAMS_NAME_MAX_LEN)%nat) l →
  tail ≠ [] → head tail ≠ Some c_amp →
  params_parse_qs params (encode_qs escape l ++ tail)
    (Z.of_nat (length (encode_qs escape l))) type
  = Done (params ++ (decoded_param escape type <$> l)).
Proof.
  intros. unfold params_parse_qs. apply params_parse_qs_loop_encode; auto.
  rewrite Nat2Z.id. lia.
Qed.

Lemma params_parse_qs_encode_witness :
  params_parse_qs [] (str "q=a%26b&n%3D=1 HTTP/1.1") 14 PARAM_TYPE_GET
  = Done [Param (str "q") (str "a&b") 5 1 true; Param (str "n=") (str "1") 1 1 true].
Proof.
  refine (params_parse_qs_encode (fun c => (c =? 37) || (c =? 38) || (c =? 61))
    [(str "q", str "a&b"); (str "n=", str "1")] [] (str " HTTP/1.1") 1 _ _ _ _).
  - split; reflexivity.
  - repeat constructor; try (apply (bool_decide_unpack _); vm_compute; exact I);
      apply Nat.ltb_lt; vm_compute; reflexivity.
  - discriminate.
  - discriminate.
Defined.

(** A parameter that was set is found with its value; all other names are
    found as before. *)
Theorem params_set_get (params params' : params_t) (name value : bytes) (i : option nat) :
  params_set_param params name (Some value) = Done (params', i) →
  p_value <$> params_get_param params' name = Some value ∧
  ∀ name', name' ≠ name → params_get_param params' name' = params_get_param params name'.
Proof.
  unfold params_set_param, params_get_param. destruct (params_index params name 0) as [k|] eqn:Ek.
  - destruct (params_index_Some _ _ _ Ek) as (p & Hp & Hn). rewrite Hp. cbn [at_index mbind res_bind].
    intros [= <- <-]. pose proof (lookup_lt_Some _ _ _ Hp). split.
    + rewrite (params_index_insert _ _ p) by done. rewrite Ek. simpl.
      by rewrite list_lookup_insert_eq.
    + intros name' Hne. rewrite (params_index_insert _ _ p) by done.
      destruct (params_index params name' 0) as [j|] eqn:Ej; [|done]. simpl.
      destruct (params_index_Some _ _ _ Ej) as (g & Hg & Hgn).
      rewrite list_lookup_insert_ne; [done|]. intros ->. congruence.
  - unfold strcpy_into. destruct (length name <? _)%nat; [|done]. cbn [mbind res_bind].
    intros [= <- <-]. split.
    + rewrite params_index_snoc, Ek. simpl. rewrite strcmp_eq_refl. simpl.
      by rewrite list_lookup_middle.
    + intros name' Hne. rewrite params_index_snoc. simpl p_name. rewrite strcmp_eq_ne by done.
      destruct (params_index params name' 0) as [j|] eqn:Ej; [|done]. simpl.
      destruct (params_index_Some _ _ _ Ej) as (g & Hg & _).
      by rewrite Hg, (lookup_app_l_Some _ _ _ _ Hg).
Qed.

Lemma params_set_get_witness :
  p_value <$> params_get_param [Param (str "a") (str "2") 1 1 true] (str "a") = Some (str "2").
Proof.
  apply (params_set_get [Param (str "a") (str "1") 1 1 true]
           [Param (str "a") (str "2") 1 1 true] (str "a") (str "2") (Some 0%nat)).
  reflexivity.
Defined.

(** The text of [params_gen_qs] and its terminator fit the size that
    [params_qs_len] computes, as long as no value is longer than its record
    says. *)
Theorem params_gen_qs_fits (params : params_t) :
  params ≠ [] → lengths_ok params →
  ∃ qs, params_gen_qs (Z.to_nat (params_qs_len params)) params = Done qs.
Proof.
  intros Hne Hl. exists (gen_qs_loop 0 params []). unfold params_gen_qs, strcpy_into.
  pose proof (gen_qs_loop_length 0 params [] Hl) as H. simpl in H.
  assert (0 < length params)%nat by (destruct params; [done | simpl; lia]).
  by rewrite (proj2 (Nat.ltb_lt _ _)) by lia.
Qed.

Lemma params_gen_qs_fits_witness :
  ∃ qs, params_gen_qs 131 [Param (str "a") (str "1") 1 1 true] = Done qs.
Proof.
  apply (params_gen_qs_fits [Param (str "a") (str "1") 1 1 true]).
  - discriminate.
  - apply Forall_singleton. split; [apply Nat.ltb_lt; reflexivity | apply Z.leb_le; reflexivity].
Defined.

(** [params_set_param] does not update the length of an existing parameter,
    so after a longer value the computed size is too small for the text. *)
Theorem params_set_stale_length (name old value : bytes) (type : Z) :
  (130 + length old < length name + 1 + length value)%nat →
  ∃ params' i,
    params_set_param [Param name old (Z.of_nat (length old)) type true] name (Some value)
      = Done (params', i) ∧
    params_gen_qs (Z.to_nat (params_qs_len params')) params' = Fault OutOfBounds.
Proof.
  intros Hlen. unfold params_set_param. cbn [params_index p_name]. rewrite strcmp_eq_refl.
  cbn [lookup list_lookup at_index mbind res_bind]. eexists _, _. split; [reflexivity|].
  unfold params_gen_qs, strcpy_into. simpl insert. rewrite params_qs_len_cons.
  cbn [p_value_len gen_qs_loop p_name p_value Nat.eqb]. rewrite !length_app.
  rewrite (proj2 (Nat.ltb_ge _ _)); [done|]. unfold params_qs_len, PARAMS_NAME_MAX_LEN.
  simpl length. simpl foldl. lia.
Qed.

Lemma params_set_stale_length_witness :
  ∃ params' i,
    params_set_param [Param (str "a") [] 0 1 true] (str "a") (Some (replicate 200 65))
      = Done (params', i) ∧
    params_gen_qs (Z.to_nat (params_qs_len params')) params' = Fault OutOfBounds.
Proof.
  apply (params_set_stale_length (str "a") [] (replicate 200 65) 1).
  apply Nat.ltb_lt. reflexivity.
Defined.
