(* ===== verification/Config.v ===== *)
(** config.h: the macros on flag words, which the components use on unsigned
    integers of 32 bits. *)

From Stdlib Require Import ZArith Lia.
From S2P Require Export Prelude.

Local Open Scope Z_scope.

Definition FL_ISSET (flags flag : Z) : bool := Z.land flags flag =? flag.
Definition FL_ARESOMESET (flags flag : Z) : bool := negb (Z.land flags flag =? 0).
Definition FL_SET (flags flag : Z) : Z := Z.lor flags flag.
Definition FL_CLR (flags flag : Z) : Z := Z.lxor flags (Z.land flags flag).

(** ** Lemmas *)

Lemma FL_ISSET_spec flags flag :
  FL_ISSET flags flag = true ↔ ∀ i, Z.testbit flag i = true → Z.testbit flags i = true.
Proof.
  unfold FL_ISSET. rewrite Z.eqb_eq. split.
  - intros H i Hi. rewrite <- H, Z.land_spec in Hi. by apply andb_prop in Hi as [? _].
  - intros H. apply Z.bits_inj. intros i. rewrite Z.land_spec.
    destruct (Z.testbit flag i) eqn:E; [by rewrite (H i E) | by rewrite andb_false_r].
Qed.

Lemma FL_SET_testbit flags flag i :
  Z.testbit (FL_SET flags flag) i = Z.testbit flags i || Z.testbit flag i.
Proof. apply Z.lor_spec. Qed.

Lemma FL_CLR_testbit flags flag i :
  Z.testbit (FL_CLR flags flag) i = Z.testbit flags i && negb (Z.testbit flag i).
Proof.
  unfold FL_CLR. rewrite Z.lxor_spec, Z.land_spec.
  by destruct (Z.testbit flags i), (Z.testbit flag i).
Qed.

Lemma FL_ISSET_SET flags flag : FL_ISSET (FL_SET flags flag) flag = true.
Proof. apply FL_ISSET_spec. intros i Hi. rewrite FL_SET_testbit, Hi. apply orb_true_r. Qed.

(** Flags with no bit in common do not disturb each other. *)
Lemma FL_ISSET_SET_disjoint flags flag other :
  Z.land flag other = 0 → FL_ISSET (FL_SET flags flag) other = FL_ISSET flags other.
Proof.
  intros H. unfold FL_ISSET, FL_SET. rewrite Z.land_lor_distr_l, H. by rewrite Z.lor_0_r.
Qed.

Lemma FL_ISSET_CLR_disjoint flags flag other :
  Z.land flag other = 0 → FL_ISSET (FL_CLR flags flag) other = FL_ISSET flags other.
Proof.
  intros H. unfold FL_ISSET. f_equal. apply Z.bits_inj. intros i.
  assert (Hi : Z.testbit flag i && Z.testbit other i = false)
    by (rewrite <- Z.land_spec, H; apply Z.bits_0).
  rewrite !Z.land_spec, FL_CLR_testbit.
  destruct (Z.testbit flags i), (Z.testbit flag i), (Z.testbit other i); done.
Qed.

Lemma FL_ISSET_CLR flags flag : flag ≠ 0 → FL_ISSET (FL_CLR flags flag) flag = false.
Proof.
  intros H. unfold FL_ISSET. apply Z.eqb_neq. intros He. apply H.
  rewrite <- He. apply Z.bits_inj. intros i.
  rewrite Z.land_spec, FL_CLR_testbit, Z.bits_0.
  by destruct (Z.testbit flags i), (Z.testbit flag i).
Qed.

Lemma FL_CLR_SET flags flag : FL_CLR (FL_SET flags flag) flag = FL_CLR flags flag.
Proof.
  apply Z.bits_inj. intros i. rewrite !FL_CLR_testbit, FL_SET_testbit.
  by destruct (Z.testbit flags i), (Z.testbit flag i).
Qed.
