(* ===== verification/Website.v ===== *)
(** website.c: the registry of websites and the choice of the one that serves a
    request.

    The list [websites] holds pointers; an address is a number, the heap maps
    the live addresses to their records, and malloc takes the next free one.
    The pointers [url] and [path] of a record point into [full_url]: they are
    kept as the suffixes that they stand for. *)

From Stdlib Require Import ZArith Lia Ascii String.
From stdpp Require Import gmap.
From S2P Require Export General Config.

Local Open Scope Z_scope.

Definition WS_OPTION_PARSE_MULTIPARTS : Z := 1.

Record website_t := Website {
  w_url : bytes;
  w_full_url : bytes;
  w_path : bytes;
  w_sockfd : Z;
  w_ip : bytes;
  w_options : Z
}.

Record registry := Registry {
  initialized : bool;
  default_website_options : Z;
  websites : list nat;
  heap : gmap nat website_t;
  next_addr : nat
}.

Definition registry_static : registry :=
  Registry false WS_OPTION_PARSE_MULTIPARTS [] ∅ 0.

(** ** Operations on the registry *)

Definition website_init (r : registry) : res registry :=
  _ ← assert (negb (initialized r));
  Done (Registry true (default_website_options r) [] (heap r) (next_addr r)).

Definition default_ip : bytes := str "0.0.0.0".

(** The address of the string, and the path in it. *)
Definition split_path (url : bytes) : nat := default (length url) (strchr url c_slash).

Definition full_url_of (url : bytes) : bytes * bytes :=
  if startswith url (str "https://") then (url, drop 8 url)
  else if startswith url (str "http://") then (url, drop 7 url)
  else (str "http://" ++ url, url).

Definition website_add (r : registry) (sockfd : Z) (url : bytes) (ip : option bytes)
  : res (registry * nat) :=
  _ ← assert (initialized r);
  ip ← strcpy_into 16 (default default_ip ip);
  let '(full_url, url) := full_url_of url in
  let w := Website url full_url (drop (split_path url) url) sockfd ip
             (default_website_options r) in
  let a := next_addr r in
  Done (Registry (initialized r) (default_website_options r) (websites r ++ [a])
          (<[a := w]> (heap r)) (S a), a).

(** [list_locate] without a comparator compares the pointers. *)
Definition list_locate (l : list nat) (a : nat) : option nat := fst <$> list_find (eq a) l.

Definition website_remove (r : registry) (a : nat) : res registry :=
  _ ← assert (initialized r);
  let l := match list_locate (websites r) a with
           | Some i => delete i (websites r)
           | None => websites r
           end in
  _ ← deref (heap r !! a);
  Done (Registry (initialized r) (default_website_options r) l (delete a (heap r)) (next_addr r)).

(** The first website of the list that passes a test. *)
Fixpoint first_website (test : website_t → bool) (h : gmap nat website_t) (l : list nat)
  : res (option nat) :=
  match l with
  | [] => Done None
  | a :: l =>
      w ← deref (h !! a);
      if test w then Done (Some a) else first_website test h l
  end.

Definition website_get_by_full_url (r : registry) (full_url : bytes) (ip : option bytes)
  : res (option nat) :=
  _ ← assert (initialized r);
  first_website (λ w, strcmp_eq full_url (w_full_url w) && strcmp_eq (default default_ip ip) (w_ip w))
    (heap r) (websites r).

Definition website_get_by_sockfd (r : registry) (sockfd : Z) : res (option nat) :=
  _ ← assert (initialized r);
  first_website (λ w, sockfd =? w_sockfd w) (heap r) (websites r).

Definition website_protocol (w : website_t) : bytes :=
  if startswith (w_full_url w) (str "https://") then str "https://" else str "http://".

(** ** The choice for a request *)

Definition is_wildcard (w : website_t) : bool := char_at (w_url w) 0 =? c_star.

(** Where the compared part of the request's URL starts. *)
Definition url_start (w : website_t) (url : bytes) : nat :=
  if is_wildcard w then
    match strchr url c_colon with
    | Some n => n
    | None => match strchr url c_slash with Some n => n | None => length url end
    end
  else 0%nat.

Definition w_url_start (w : website_t) : nat := if is_wildcard w then 1%nat else 0%nat.

(** The number of characters of the host and port to compare. *)
Definition host_port_len (w : website_t) (url : bytes) : Z :=
  Z.max (Z.of_nat (length (w_url w) - length (w_path w)) - Z.of_nat (w_url_start w))
        (Z.of_nat (split_path url) - Z.of_nat (url_start w url)).

(** The conditions of the source but the one on the length of the path. *)
Definition website_matches (url protocol ip : bytes) (w : website_t) : bool :=
  strncmp_eq (drop (w_url_start w) (w_url w)) (drop (url_start w url) url)
    (Z.to_nat (host_port_len w url)) &&
  startswith (drop (split_path url) url) (w_path w) &&
  startswith (w_full_url w) protocol &&
  strcmp_eq (w_ip w) ip.

(** The loop: [len] and [found] as in the source. *)
Fixpoint find_loop (url protocol ip : bytes) (h : gmap nat website_t) (l : list nat)
  (len : nat) (found : option nat) : res (option nat) :=
  match l with
  | [] => Done found
  | a :: l =>
      w ← deref (h !! a);
      if website_matches url protocol ip w && (len <=? length (w_path w))%nat
      then find_loop url protocol ip h l
             (length (w_path w) + if is_wildcard w then 0 else 1) (Some a)
      else find_loop url protocol ip h l len found
  end.

Definition website_find (r : registry) (url : bytes) (protocol ip : option bytes)
  : res (option nat) :=
  _ ← assert (initialized r);
  find_loop url (default (str "http://") protocol) (default default_ip ip) (heap r)
    (websites r) 0 None.

(** ** Options: a NULL website stands for the defaults of new ones *)

Definition put_options (w : website_t) (o : Z) : website_t :=
  Website (w_url w) (w_full_url w) (w_path w) (w_sockfd w) (w_ip w) o.

Definition website_options_set (r : registry) (website : option nat) (opt : Z) (val : bool)
  : res registry :=
  let change o := if val then FL_SET o opt else FL_CLR o opt in
  match website with
  | Some a =>
      w ← deref (heap r !! a);
      Done (Registry (initialized r) (default_website_options r) (websites r)
              (<[a := put_options w (change (w_options w))]> (heap r)) (next_addr r))
  | None =>
      Done (Registry (initialized r) (change (default_website_options r)) (websites r)
              (heap r) (next_addr r))
  end.

Definition website_options_get (r : registry) (website : option nat) (opt : Z) : res bool :=
  match website with
  | Some a => w ← deref (heap r !! a); Done (FL_ISSET (w_options w) opt)
  | None => Done (FL_ISSET (default_website_options r) opt)
  end.

Definition website_options_reset (r : registry) (a : nat) : res registry :=
  w ← deref (heap r !! a);
  Done (Registry (initialized r) (default_website_options r) (websites r)
          (<[a := put_options w (default_website_options r)]> (heap r)) (next_addr r)).

(** ** Specification vocabulary *)

(** The list has no duplicates, its pointers are live and below the next free
    address; every record is one that [website_add] makes. *)
Record registry_inv (r : registry) : Prop := {
  ri_nodup : NoDup (websites r);
  ri_live : ∀ a, a ∈ websites r → is_Some (heap r !! a);
  ri_fresh : ∀ a, is_Some (heap r !! a) → (a < next_addr r)%nat;
  ri_record : ∀ a w, heap r !! a = Some w →
    w_full_url w = website_protocol w ++ w_url w ∧
    w_path w = drop (split_path (w_url w)) (w_url w) ∧ (length (w_ip w) < 16)%nat
}.

(** More specific first: the longer path, then the host that is no wildcard. *)
Definition rank (w : website_t) : nat :=
  2 * length (w_path w) + if is_wildcard w then 0 else 1.

(** ** Lemmas *)

(** Compares ranks. *)
Ltac rank_lia :=
  unfold rank in *;
  repeat match goal with
  | |- context [is_wildcard ?x] => destruct (is_wildcard x)
  | H : context [is_wildcard ?x] |- _ => destruct (is_wildcard x)
  end; lia.


Lemma list_locate_spec l a :
  NoDup l →
  match list_locate l a with
  | Some i => l !! i = Some a
  | None => a ∉ l
  end.
Proof.
  intros _. unfold list_locate. destruct (list_find (eq a) l) as [[i b]|] eqn:E; simpl.
  - apply list_find_Some in E as (? & -> & _). done.
  - apply list_find_None in E. intros Hin. rewrite Forall_forall in E. by apply (E a).
Qed.

Lemma first_website_elem test h l a :
  first_website test h l = Done (Some a) → a ∈ l ∧ ∃ s, h !! a = Some s ∧ test s = true.
Proof.
  induction l as [|b l IH]; intros H; cbn [first_website] in H; [done|].
  destruct (h !! b) as [s|] eqn:E; [|done]. cbn [deref mbind res_bind] in H.
  destruct (test s) eqn:Et.
  - injection H as ->. split; [by left|]. by exists s.
  - destruct (IH H) as [H1 H2]. split; [by right|done].
Qed.

Lemma first_website_found test h l a s :
  (∀ b, b ∈ l → is_Some (h !! b)) → a ∈ l → h !! a = Some s → test s = true →
  ∃ b, first_website test h l = Done (Some b).
Proof.
  intros Hl Ha Hs Ht. induction l as [|b l IH]; [by apply elem_of_nil in Ha|].
  cbn [first_website]. destruct (Hl b) as [sb Hb]; [by left|]. rewrite Hb. cbn [deref mbind res_bind].
  destruct (test sb) eqn:Etb; [eauto|].
  apply elem_of_cons in Ha as [->|Ha]; [congruence|].
  apply IH; [|done]. intros c Hc. apply Hl. by right.
Qed.

Lemma full_url_of_spec url full u :
  full_url_of url = (full, u) →
  full = (if startswith full (str "https://") then str "https://" else str "http://") ++ u.
Proof.
  unfold full_url_of.
  destruct (startswith url (str "https://")) eqn:E1.
  - intros [= <- <-]. rewrite E1. apply startswith_spec in E1 as [k ->].
    f_equal.
  - destruct (startswith url (str "http://")) eqn:E2.
    + intros [= <- <-]. rewrite E1. apply startswith_spec in E2 as [k ->]. f_equal.
    + intros [= <- <-]. done.
Qed.

Lemma find_loop_spec url protocol ip h l len found r :
  (∀ a, a ∈ l → is_Some (h !! a)) →
  find_loop url protocol ip h l len found = Done r →
  ∀ P : nat → website_t → Prop,
  match found with
  | Some f => ∃ w, h !! f = Some w ∧ P f w ∧
                len = (length (w_path w) + if is_wildcard w then 0 else 1)%nat
  | None => len = 0%nat
  end →
  (∀ a w, a ∈ l → h !! a = Some w → website_matches url protocol ip w = true → P a w) →
  match r with
  | Some f => ∃ w, h !! f = Some w ∧ P f w ∧
      (∀ g w', found = Some g → h !! g = Some w' → (rank w' <= rank w)%nat) ∧
      ∀ a w', a ∈ l → h !! a = Some w' → website_matches url protocol ip w' = true →
        (rank w' <= rank w)%nat
  | None => found = None ∧
      ∀ a w', a ∈ l → h !! a = Some w' → website_matches url protocol ip w' = false
  end.
Proof.
  revert len found. induction l as [|a l IH]; intros len found Hlive H P Hf HP; cbn [find_loop] in H.
  { injection H as <-. destruct found as [f|].
    - destruct Hf as (w & Hw & Hpw & _). exists w. split; [done|]. split; [done|].
      split; [intros g w' [= <-] ?; simplify_eq; lia|]. intros ? ? Hin. by apply elem_of_nil in Hin.
    - split; [done|]. intros ? ? Hin. by apply elem_of_nil in Hin. }
  destruct (Hlive a) as [w Hw]; [apply elem_of_cons; by left|]. rewrite Hw in H.
  cbn [deref mbind res_bind] in H.
  destruct (website_matches url protocol ip w) eqn:Em; cbn [andb] in H.
  - destruct (Nat.leb_spec len (length (w_path w))) as [Hle|Hgt].
    + apply (IH _ _) with (P := P) in H.
      * destruct r as [f|].
        -- destruct H as (w2 & Hw2 & HP2 & Hr & Hmax). exists w2. split; [done|]. split; [done|].
           pose proof (Hr a w eq_refl Hw) as Haw. split.
           ++ intros g w' -> Hg. destruct Hf as (w0 & Hw0 & _ & Hlen). simplify_eq.
              rank_lia.
           ++ intros b w' [->|Hb]%elem_of_cons Hb' Hm; [by simplify_eq | eauto].
        -- destruct H as [H _]. done.
      * intros b Hb. apply Hlive. apply elem_of_cons. by right.
      * exists w. split; [done|]. split; [|done]. apply HP; [apply elem_of_cons; by left | done | done].
      * intros b w' Hb. apply HP. apply elem_of_cons. by right.
    + destruct found as [f|]; [|subst; lia].
      destruct Hf as (w0 & Hw0 & HP0 & Hlen).
      apply (IH _ _) with (P := P) in H.
      * destruct r as [f'|]; [|by destruct H].
        destruct H as (w2 & Hw2 & HP2 & Hr & Hmax). exists w2. split; [done|]. split; [done|].
        pose proof (Hr f w0 eq_refl Hw0) as H0. split; [done|].
        intros b w' [->|Hb]%elem_of_cons Hb' Hm; [simplify_eq | eauto].
        rank_lia.
      * intros b Hb. apply Hlive. apply elem_of_cons. by right.
      * by exists w0.
      * intros b w' Hb. apply HP. apply elem_of_cons. by right.
  - apply (IH _ _) with (P := P) in H.
    + destruct r as [f|].
      * destruct H as (w2 & Hw2 & HP2 & Hr & Hmax). exists w2. repeat split; auto.
        intros b w' [->|Hb]%elem_of_cons Hb' Hm; [congruence | eauto].
      * destruct H as [H1 H2]. split; [done|].
        intros b w' [->|Hb]%elem_of_cons Hb'; [congruence | eauto].
    + intros b Hb. apply Hlive. apply elem_of_cons. by right.
    + done.
    + intros b w' Hb. apply HP. apply elem_of_cons. by right.
Qed.

Lemma find_loop_total url protocol ip h l len found :
  (∀ a, a ∈ l → is_Some (h !! a)) → ∃ r, find_loop url protocol ip h l len found = Done r.
Proof.
  revert len found. induction l as [|a l IH]; intros len found Hl; cbn [find_loop]; [eauto|].
  destruct (Hl a) as [w Hw]; [apply elem_of_cons; by left|]. rewrite Hw. cbn [deref mbind res_bind].
  case_match; apply IH; intros b Hb; apply Hl; apply elem_of_cons; by right.
Qed.

Lemma website_add_record url full u sockfd ip o :
  full_url_of url = (full, u) →
  let w := Website u full (drop (split_path u) u) sockfd ip o in
  w_full_url w = website_protocol w ++ w_url w.
Proof. intros H. apply full_url_of_spec in H. exact H. Qed.

Lemma delete_locate (l : list nat) a i : NoDup l → l !! i = Some a → delete i l = filter (λ b, b ≠ a) l.
Proof.
  revert i. induction l as [|x l IH]; intros i Hd Hi; [done|].
  apply NoDup_cons in Hd as [Hx Hd]. destruct i as [|i]; simpl in Hi.
  - injection Hi as ->. rewrite filter_cons_False by (intros H; by apply H). simpl.
    symmetry. apply filter_all, Forall_forall. intros b Hb ->. done.
  - rewrite filter_cons_True by (intros ->; apply Hx; by eapply list_elem_of_lookup_2).
    simpl. f_equal. by apply IH.
Qed.

Lemma website_remove_spec r a :
  registry_inv r → initialized r = true → is_Some (heap r !! a) →
  website_remove r a = Done (Registry true (default_website_options r)
    (filter (λ b, b ≠ a) (websites r)) (delete a (heap r)) (next_addr r)).
Proof.
  intros Hi Hinit [w Hw]. unfold website_remove. rewrite Hinit, Hw. cbn [assert deref mbind res_bind].
  pose proof (list_locate_spec (websites r) a (ri_nodup _ Hi)) as Hl.
  destruct (list_locate (websites r) a) as [i|].
  - by rewrite (delete_locate _ a) by (done || apply (ri_nodup _ Hi)).
  - rewrite filter_all; [done|]. apply Forall_forall. intros b Hb ->. done.
Qed.

Lemma registry_inv_remove r a :
  registry_inv r → registry_inv (Registry true (default_website_options r)
    (filter (λ b, b ≠ a) (websites r)) (delete a (heap r)) (next_addr r)).
Proof.
  intros Hi. split; simpl.
  - apply NoDup_filter, (ri_nodup _ Hi).
  - intros b Hb. apply list_elem_of_filter in Hb as [Hne Hb].
    rewrite lookup_delete_ne by done. by apply (ri_live _ Hi).
  - intros b [w Hb]. apply lookup_delete_Some in Hb as [_ Hb]. apply (ri_fresh _ Hi). eauto.
  - intros b w Hb. apply lookup_delete_Some in Hb as [_ Hb]. by apply (ri_record _ Hi b).
Qed.

(** A new record at the end of the list, at a fresh address. *)
Lemma website_add_spec (r : registry) (sockfd : Z) (url : bytes) (ip : option bytes) :
  registry_inv r → initialized r = true → (length (default default_ip ip) < 16)%nat →
  let '(full, u) := full_url_of url in
  let a := next_addr r in
  let w := Website u full (drop (split_path u) u) sockfd (default default_ip ip) (default_website_options r) in
  let r' := Registry (initialized r) (default_website_options r) (websites r ++ [a]) (<[a := w]> (heap r)) (S a) in
  website_add r sockfd url ip = Done (r', a) ∧ heap r !! a = None ∧ a ∉ websites r ∧ registry_inv r'.
Proof.
  intros Hi Hinit Hip. unfold website_add, strcpy_into. rewrite Hinit.
  rewrite (proj2 (Nat.ltb_lt _ _)) by done. cbn [assert mbind res_bind].
  destruct (full_url_of url) as [full u] eqn:Eu. pose proof (full_url_of_spec _ _ _ Eu) as Hfull.
  set (a := next_addr r). set (w := Website _ _ _ _ _ _). cbv zeta.
  assert (heap r !! a = None) as Hfree.
  { destruct (heap r !! a) eqn:E; [|done]. exfalso.
    assert (a < next_addr r)%nat by (apply (ri_fresh _ Hi); eauto). unfold a in *. lia. }
  assert (a ∉ websites r) as Hna.
  { intros Ha. destruct (ri_live _ Hi _ Ha) as [w' Hw']. congruence. }
  split; [done|]. split; [done|]. split; [done|]. split; simpl.
  - apply NoDup_app. split; [apply (ri_nodup _ Hi)|]. split; [|apply NoDup_singleton].
    intros x Hx ->%list_elem_of_singleton. done.
  - intros b Hb. apply elem_of_app in Hb as [Hb| ->%list_elem_of_singleton].
    + apply lookup_insert_is_Some. destruct (ri_live _ Hi _ Hb).
      destruct (decide (a = b)); [by left | right; eauto].
    + rewrite lookup_insert_eq. eauto.
  - intros b Hb. apply lookup_insert_is_Some in Hb as [<-|[_ Hb]]; [lia|].
    apply (ri_fresh _ Hi) in Hb. unfold a. lia.
  - intros b w' Hw'. apply lookup_insert_Some in Hw' as [[_ <-]|[_ Hw']];
      [|by apply (ri_record _ Hi b)]. repeat split; auto.
Qed.

Lemma get_by_sockfd_found r fd a :
  website_get_by_sockfd r fd = Done (Some a) → a ∈ websites r ∧ ∃ s, heap r !! a = Some s ∧ w_sockfd s = fd.
Proof.
  unfold website_get_by_sockfd. destruct (initialized r); [|done]. cbn [assert mbind res_bind]. intros H.
  apply first_website_elem in H as [Ha (s & Hs & Hfd)]. split; [done|]. exists s. split; [done|].
  by apply Z.eqb_eq in Hfd.
Qed.

Lemma website_add_Done r sockfd url ip r' a :
  registry_inv r → website_add r sockfd url ip = Done (r', a) →
  registry_inv r' ∧ initialized r' = true ∧ websites r' = websites r ++ [a] ∧
  ∃ s, heap r' = <[a := s]> (heap r) ∧ heap r !! a = None ∧ w_sockfd s = sockfd.
Proof.
  intros Hi H. destruct (initialized r) eqn:Hinit; [|by unfold website_add in H; rewrite Hinit in H].
  assert (length (default default_ip ip) < 16)%nat as Hip.
  { unfold website_add, strcpy_into in H. rewrite Hinit in H. cbn [assert mbind res_bind] in H.
    by destruct (Nat.ltb_spec (length (default default_ip ip)) 16). }
  pose proof (website_add_spec r sockfd url ip Hi Hinit Hip) as Hs. destruct (full_url_of url) as [full u].
  cbv zeta in Hs. destruct Hs as (E & Hfree & _ & Hi'). rewrite E in H. injection H as <- <-.
  split_and!; [done..|]. simpl. eexists. by split_and!.
Qed.

(** ** Properties *)

(** C15: the website that [website_find] returns is registered and matches the
    host, the path, the protocol and the address of the request, and no
    matching website is more specific: none has a longer path, and of equally
    long ones a wildcard host never wins over a plain host.  NULL means that no
    registered website matches. *)
Theorem website_find_best (r : registry) (url : bytes) (protocol ip : option bytes) :
  registry_inv r → initialized r = true →
  let matches := website_matches url (default (str "http://") protocol) (default default_ip ip) in
  ∃ found, website_find r url protocol ip = Done found ∧
  match found with
  | Some a => ∃ w, a ∈ websites r ∧ heap r !! a = Some w ∧ matches w = true ∧
      ∀ b w', b ∈ websites r → heap r !! b = Some w' → matches w' = true →
        (length (w_path w') < length (w_path w))%nat ∨
        length (w_path w') = length (w_path w) ∧ (is_wildcard w = true → is_wildcard w' = true)
  | None => ∀ a w, a ∈ websites r → heap r !! a = Some w → matches w = false
  end.
Proof.
  intros Hi Hinit matches. unfold website_find. rewrite Hinit. cbn [assert mbind res_bind].
  destruct (find_loop_total url (default (str "http://") protocol) (default default_ip ip)
              (heap r) (websites r) 0 None (ri_live _ Hi)) as [found Hf].
  exists found. split; [exact Hf|].
  pose proof (find_loop_spec _ _ _ _ _ _ _ _ (ri_live _ Hi) Hf
    (λ a w, a ∈ websites r ∧ matches w = true) eq_refl
    (λ a w Ha _ Hm, conj Ha Hm)) as H.
  destruct found as [a|]; [|by destruct H].
  destruct H as (w & Hw & [Ha Hm] & _ & Hmax). exists w. repeat split; auto.
  intros b w' Hb Hw' Hm'. specialize (Hmax b w' Hb Hw' Hm'). unfold rank in Hmax.
  destruct (is_wildcard w) eqn:E1, (is_wildcard w') eqn:E2; try (left; lia);
    destruct (decide (length (w_path w') = length (w_path w))); (left; lia) || (right; auto).
Qed.

Definition example_registry : registry :=
  Registry true 1 [0; 1; 2]%nat
    (<[0%nat := Website (str "example.com") (str "http://example.com") [] 3 default_ip 1]>
    (<[1%nat := Website (str "example.com/a") (str "http://example.com/a") (str "/a") 4 default_ip 1]>
    (<[2%nat := Website (str "*/a") (str "http://*/a") (str "/a") 5 default_ip 1]> ∅))) 3.

Lemma example_registry_inv : registry_inv example_registry.
Proof.
  assert (∀ a w, heap example_registry !! a = Some w →
    (a = 0 ∨ a = 1 ∨ a = 2)%nat ∧
    w_full_url w = website_protocol w ++ w_url w ∧
    w_path w = drop (split_path (w_url w)) (w_url w) ∧ (length (w_ip w) < 16)%nat) as H.
  { intros a w Hw. unfold example_registry, heap in Hw.
    rewrite !lookup_insert_Some, lookup_empty in Hw.
    destruct Hw as [[<- <-]|[_ [[<- <-]|[_ [[<- <-]|[_ Hw]]]]]]; [..|done];
      (split; [auto|]; repeat split; try reflexivity; apply Nat.ltb_lt; reflexivity). }
  split.
  - apply (bool_decide_unpack _). vm_compute. exact I.
  - intros a Ha. unfold example_registry, websites in Ha. rewrite !elem_of_cons in Ha.
    destruct Ha as [->|[->|[->|Ha]]]; [by eexists..|by apply elem_of_nil in Ha].
  - intros a [w Hw]. apply H in Hw as [Hw _]. unfold example_registry, next_addr. lia.
  - intros a w Hw. by apply H in Hw as [_ Hw].
Qed.

Lemma website_find_best_witness :
  ∃ found, website_find example_registry (str "example.com/a/b") None None = Done found ∧
  match found with
  | Some a => ∃ w, a ∈ websites example_registry ∧ heap example_registry !! a = Some w ∧
      website_matches (str "example.com/a/b") (str "http://") default_ip w = true ∧
      ∀ b w', b ∈ websites example_registry → heap example_registry !! b = Some w' →
        website_matches (str "example.com/a/b") (str "http://") default_ip w' = true →
        (length (w_path w') < length (w_path w))%nat ∨
        length (w_path w') = length (w_path w) ∧ (is_wildcard w = true → is_wildcard w' = true)
  | None => ∀ a w, a ∈ websites example_registry → heap example_registry !! a = Some w →
      website_matches (str "example.com/a/b") (str "http://") default_ip w = false
  end.
Proof.
  exact (website_find_best example_registry (str "example.com/a/b") None None
           example_registry_inv eq_refl).
Defined.

(** [website_add] registers one new record at the end, keeps the invariant
    and leaves the others alone; removing it again restores the registry. *)
Theorem website_add_remove (r : registry) (sockfd : Z) (url : bytes) (ip : option bytes) :
  registry_inv r → initialized r = true → (length (default default_ip ip) < 16)%nat →
  ∃ r' a w, website_add r sockfd url ip = Done (r', a) ∧ registry_inv r' ∧
    websites r' = websites r ++ [a] ∧ a ∉ websites r ∧
    heap r' = <[a := w]> (heap r) ∧
    w_sockfd w = sockfd ∧ w_ip w = default default_ip ip ∧
    w_full_url w = website_protocol w ++ w_url w ∧
    (url = w_url w ∨ url = w_full_url w) ∧
    ∃ r'', website_remove r' a = Done r'' ∧ registry_inv r'' ∧
      websites r'' = websites r ∧ heap r'' = heap r.
Proof.
  intros Hi Hinit Hip. pose proof (website_add_spec r sockfd url ip Hi Hinit Hip) as H.
  destruct (full_url_of url) as [full u] eqn:Eu. cbv zeta in H.
  set (a := next_addr r) in *. set (w := Website u full _ _ _ _) in *. set (r' := Registry _ _ _ _ _) in *.
  destruct H as (E & Hfree & Hna & Hi'). exists r', a, w. split; [done|]. split; [done|].
  pose proof (full_url_of_spec _ _ _ Eu) as Hfull. repeat split; try done.
  - unfold full_url_of in Eu. repeat case_match; simplify_eq; simpl; auto.
  - eexists. rewrite (website_remove_spec r' a Hi'); [|done|simpl; rewrite lookup_insert_eq; eauto].
    split; [done|]. split; [by apply registry_inv_remove|].
    assert (filter (λ b, b ≠ a) (websites r ++ [a]) = websites r) as Hfil.
    { rewrite filter_app, filter_all; [|apply Forall_forall; intros b Hb ->; done].
      rewrite filter_cons_False by (intros H; by apply H). apply app_nil_r. }
    split; [exact Hfil|]. simpl. rewrite delete_insert_eq. by apply delete_id.
Qed.

Lemma website_add_remove_witness :
  ∃ r' a w, website_add example_registry 7 (str "https://b.org/") None = Done (r', a) ∧
    registry_inv r' ∧ websites r' = [0; 1; 2; a]%nat ∧ a ∉ websites example_registry ∧
    heap r' = <[a := w]> (heap example_registry) ∧
    w_sockfd w = 7 ∧ w_ip w = default_ip ∧ w_full_url w = website_protocol w ++ w_url w ∧
    (str "https://b.org/" = w_url w ∨ str "https://b.org/" = w_full_url w) ∧
    ∃ r'', website_remove r' a = Done r'' ∧ registry_inv r'' ∧
      websites r'' = websites example_registry ∧ heap r'' = heap example_registry.
Proof.
  apply (website_add_remove example_registry 7 (str "https://b.org/") None).
  - exact example_registry_inv.
  - reflexivity.
  - apply Nat.ltb_lt. reflexivity.
Defined.

(** Options are independent bits, per website or of the defaults: after
    [website_options_set] the option reads back as it was set, and every option
    without a common bit reads as before. *)
Theorem website_options_laws (r r' : registry) (website : option nat) (opt : Z) (val : bool) :
  opt ≠ 0 → website_options_set r website opt val = Done r' →
  website_options_get r' website opt = Done val ∧
  (∀ other, Z.land opt other = 0 →
     website_options_get r' website other = website_options_get r website other) ∧
  websites r' = websites r.
Proof.
  intros Hopt. unfold website_options_set, website_options_get. destruct website as [a|].
  - destruct (heap r !! a) as [w|]; [|done]. cbn [deref mbind res_bind]. intros [= <-]. simpl.
    rewrite lookup_insert_eq. cbn [deref mbind res_bind w_options put_options]. split; [|split; [|done]].
    + f_equal. destruct val; [apply FL_ISSET_SET | by apply FL_ISSET_CLR].
    + intros other H. f_equal. destruct val;
        [by apply FL_ISSET_SET_disjoint | by apply FL_ISSET_CLR_disjoint].
  - intros [= <-]. simpl. split; [|split; [|done]].
    + f_equal. destruct val; [apply FL_ISSET_SET | by apply FL_ISSET_CLR].
    + intros other H. f_equal. destruct val;
        [by apply FL_ISSET_SET_disjoint | by apply FL_ISSET_CLR_disjoint].
Qed.

Lemma website_options_laws_witness :
  website_options_get (Registry true 1 [] ∅ 0) None 1 = Done true.
Proof. apply (website_options_laws (Registry true 0 [] ∅ 0) _ None 1 true); [done | reflexivity]. Defined.
