(* ===== verification/Connection.v ===== *)
(** connection.c: a request becomes a connection record, and the table of
    status lines.

    The argument [raw] of [connection_create] is memory; the rest of it at an
    offset is [drop], the string there is [cstr] of it.  The end of the block
    counts as a terminator, which the callers do not write.  The pointer
    [request.url] is an offset in the array [full_url]. *)

From Stdlib Require Import ZArith Lia Ascii String.
From S2P Require Export Params Cookies Website.

Local Open Scope Z_scope.

(** ** Status lines *)

Definition httpstatus : list bytes := [
  str "100 Continue";
  str "101 Switching Protocols";
  str "200 OK";
  str "201 Created";
  str "202 Accepted";
  str "203 Non-Authoritative Information";
  str "204 No Content";
  str "205 Reset Content";
  str "206 Partial Content";
  str "300 Multiple Choices";
  str "301 Moved Permanently";
  str "302 Found";
  str "303 See Other";
  str "304 Not Modified";
  str "305 Use Proxy";
  str "307 Temporary Redirect";
  str "400 Bad Request";
  str "401 Unauthorized";
  str "403 Forbidden";
  str "404 Not Found";
  str "405 Method Not Allowed";
  str "406 Not Acceptable";
  str "407 Proxy Authentication Required";
  str "408 Request Timeout";
  str "409 Conflict";
  str "410 Gone";
  str "411 Length Required";
  str "412 Precondition Failed";
  str "413 Request Entity Too Large";
  str "414 Request-URI Too Long";
  str "415 Unsupported Media Type";
  str "416 Requested Range Not Satisfiable";
  str "417 Expectation Failed";
  str "500 Internal Server Error";
  str "501 Not Implemented";
  str "502 Bad Gateway";
  str "503 Service Unavailable";
  str "504 Gateway Timeout";
  str "505 HTTP Version Not Supported"
].

(** [sprintf] into an array of 4 bytes. *)
Definition response_status (c : Z) : res (option bytes) :=
  status ← strcpy_into 4 (dec_string c);
  Done (snd <$> list_find (λ s, startswith s status = true) httpstatus).

(** ** Connections *)

Definition PATH_MAX : nat := 4096.
Definition CONN_MAX_HTTP_MULTIPART : nat := 100.
Definition HTTP_GET_TYPE : Z := 1.
Definition HTTP_POST_TYPE : Z := 2.
Definition CONN_STATUS_RECEIVED : Z := 1.

Record request_t := Request {
  rq_type : Z;
  rq_full_url : bytes;       (* the array *)
  rq_url : nat;              (* where [url] points in it *)
  rq_params : params_t;
  rq_headers : headers_t;
  rq_post_body : option bytes;
  rq_post_body_len : Z;
  rq_charset : bytes;
  rq_parts : list part_t
}.

Record connection_t := Connection {
  cn_sockfd : Z;
  cn_status : Z;
  cn_ip : bytes;
  cn_hostname : bytes;
  cn_http_version : bytes;
  cn_request : request_t;
  cn_cookies : cookies_t;
  cn_website : website_t
}.

(** The path that handlers see. *)
Definition request_url (r : request_t) : bytes := cstr (drop (rq_url r) (rq_full_url r)).

(** ** Parts of [connection_create] *)

(** The request method; [None] is [goto fail]. *)
Definition parse_type (raw : bytes) : option (Z * bytes) :=
  if startswith (cstr raw) (str "GET") then Some (HTTP_GET_TYPE, drop 3 raw)
  else if startswith (cstr raw) (str "POST") then Some (HTTP_POST_TYPE, drop 4 raw)
  else None.

(** [strcpy] into an array, which keeps its other bytes. *)
Definition strcpy_array (buf s : bytes) : res bytes := buf_write 0 (s ++ [0]) buf.

(** The loop that drops leading parent references. *)
Fixpoint drop_parents (fuel : nat) (full_url : bytes) : res bytes :=
  match fuel with
  | O => Fault OutOfFuel
  | S fuel =>
      if startswith (cstr full_url) (str "../") then
        urlbuf ← strcpy_into PATH_MAX (cstr (drop 3 full_url));
        full_url ← strcpy_array full_url urlbuf;
        drop_parents fuel full_url
      else Done full_url
  end.

(** Where [request.url] points: behind as many bytes as the path of the website
    has, and behind a slash there. *)
Definition url_offset (website : website_t) (full_url : bytes) : res nat :=
  let off := match strchr (w_url website) c_slash with
             | Some k => (length (w_url website) - k)%nat
             | None => 0%nat
             end in
  c ← at_index (full_url !! off);
  Done (if c =? c_slash then S off else off).

Definition CRLF2 : bytes := HTTP_HDR_ENDL ++ HTTP_HDR_ENDL.

Definition default_charset : bytes := str "ISO-8859-1".

(** The charset of a Content-Type header, copied into an array of 100 bytes. *)
Definition charset_of (header : option header_t) : res bytes :=
  attr ← match header with
         | Some h => headers_get_header_attr h (Some (str "charset"))
         | None => Done None
         end;
  strcpy_into 100 (default default_charset attr).

Definition get_header (headers : headers_t) (name : bytes) : res (option header_t) :=
  i ← headers_get_header headers name;
  Done (i ≫= λ i, headers !! i).

(** The loop over the parts; [header] is the variable of the source, which every
    round overwrites.  The array [parts] has CONN_MAX_HTTP_MULTIPART entries. *)
Fixpoint parse_parts (fuel : nat) (boundary ptr : bytes) (parts : list part_t)
  (header : option header_t) : res (list part_t * option header_t) :=
  match fuel with
  | O => Fault OutOfFuel
  | S fuel =>
      match strstr (cstr ptr) boundary with
      | None => Done (parts, header)
      | Some b =>
          _ ← (if (length parts <? CONN_MAX_HTTP_MULTIPART)%nat then Done tt
               else Fault OutOfBounds);
          hdrs ← headers_parse (cstr ptr);
          match strstr (cstr ptr) CRLF2 with
          | None => Done (parts ++ [Part hdrs [] 0 []], header)
          | Some h =>
              let start := (h + length CRLF2)%nat in
              if (b <? start + length HTTP_HDR_ENDL)%nat then Fault OutOfBounds
              else
                let len := (b - start - length HTTP_HDR_ENDL)%nat in
                let body := take len (cstr (drop start ptr)) in
                header ← get_header hdrs (str "Content-Type");
                charset ← charset_of header;
                let parts := parts ++ [Part hdrs body (Z.of_nat len) charset] in
                let ptr := drop (b + length boundary) ptr in
                if startswith (cstr ptr) (str "--" ++ HTTP_HDR_ENDL)
                then Done (parts, header)
                else parse_parts fuel boundary (drop (length HTTP_HDR_ENDL) ptr) parts header
          end
      end
  end.

(** The boundary, when the body is to be split into parts. *)
Definition multipart_boundary (website : website_t) (header : option header_t)
  : res (option bytes) :=
  match header with
  | Some h =>
      if FL_ISSET (w_options website) WS_OPTION_PARSE_MULTIPARTS then
        kind ← headers_get_header_attr h None;
        if startswith (default [] kind) (str "multipart")
        then headers_get_header_attr h (Some (str "boundary"))
        else Done None
      else Done None
  | None => Done None
  end.

(** [strcmp( headers_get_header_attr( header, NULL ), value ) == 0]. *)
Definition header_is (header : option header_t) (value : bytes) : res bool :=
  match header with
  | Some h => kind ← headers_get_header_attr h None; Done (bool_decide (kind = Some value))
  | None => Done false
  end.

Record body_t := Body {
  b_post_body : option bytes;
  b_post_body_len : Z;
  b_params : params_t;
  b_parts : list part_t
}.

(** [ptr] is the memory from the body on, [left] what the size leaves for it. *)
Definition parse_body (website : website_t) (params : params_t) (headers : headers_t)
  (ptr : bytes) (left : Z) : res body_t :=
  header ← get_header headers (str "Content-Type");
  boundary ← multipart_boundary website header;
  match boundary with
  | Some boundary =>
      boundary ← strcpy_into HEADER_VALUE_MAX_LEN (str "--" ++ boundary);
      if startswith (cstr ptr) boundary then
        '(parts, header) ← parse_parts (S (length ptr)) boundary
           (drop (length boundary + length HTTP_HDR_ENDL) ptr) [] header;
        form ← header_is header (str "multipart/form-data");
        params ← (if (form : bool) then params_parse_multiparts params parts PARAM_TYPE_POST
                  else Done params);
        Done (Body None 0 params parts)
      else Done (Body None 0 params [])
  | None =>
      if left <? 0 then Fault OutOfBounds
      else
        let content := take (Z.to_nat left) (cstr ptr) in
        let memory := content ++ replicate (Z.to_nat left + 1 - length content) 0 in
        form ← header_is header (str "application/x-www-form-urlencoded");
        params ← (if (form : bool) then params_parse_qs params memory left PARAM_TYPE_POST
                  else Done params);
        Done (Body (Some content) left params [])
  end.

(** ** connection_create *)

(** The part between the method and the headers: the array of the URL, the
    parameters of the query string, the version and the memory from the headers
    on; [None] is [goto fail]. *)
Definition parse_request_line (raw : bytes) : res (option (bytes * params_t * bytes * bytes)) :=
  match strstr (cstr raw) HTTP_HDR_ENDL with
  | None => Done None
  | Some tmp =>
      match (match strnstr (cstr raw) (str "?") (Z.of_nat tmp) with
             | Some n => Some n
             | None => strnstr (cstr raw) (str " ") (Z.of_nat tmp)
             end) with
      | None => Done None
      | Some ptr =>
          urlbuf ← url_decode PATH_MAX raw ptr;
          full_url ← normalize_path (replicate PATH_MAX 0) urlbuf;
          full_url ← drop_parents (S PATH_MAX) full_url;
          q ← (if char_at (cstr raw) ptr =? 63 then
                 let raw := drop (S ptr) raw in
                 match strnstr (cstr raw) (str " ") (Z.of_nat tmp - Z.of_nat (S ptr)) with
                 | None => Done None
                 | Some ptr =>
                     params ← params_parse_qs [] raw (Z.of_nat ptr) PARAM_TYPE_GET;
                     Done (Some (params, drop (S ptr) raw))
                 end
               else Done (Some ([], drop (S ptr) raw)));
          match q with
          | None => Done None
          | Some (params, raw) =>
              if negb (startswith (cstr raw) (str "HTTP/")) then Done None
              else
                let raw := drop 5 raw in
                match strstr (cstr raw) HTTP_HDR_ENDL with
                | None => Done None
                | Some n =>
                    Done (Some (full_url, params, take (min n 3) raw,
                                drop (n + length HTTP_HDR_ENDL) raw))
                end
          end
      end
  end.

Definition connection_create (website : website_t) (sockfd : Z) (start : bytes) (size : Z)
  : res (option connection_t) :=
  if (length start <? 4)%nat then Fault OutOfBounds
  else
    let raw := drop 4 start in
    let hostname := take 128 (cstr raw) in
    let raw := drop (S (length (cstr raw))) raw in
    match parse_type raw with
    | None => Done None
    | Some (type, raw) =>
        line ← parse_request_line (drop 1 raw);
        match line with
        | None => Done None
        | Some (full_url, params, version, raw) =>
            url ← url_offset website full_url;
            headers ← headers_parse (cstr raw);
            cookie ← get_header headers (str "Cookie");
            let cookies := cookies_parse (match cookie with Some h => h_value h | None => [] end) in
            body ← (match (if type =? HTTP_POST_TYPE then strstr (cstr raw) CRLF2 else None) with
                    | Some n =>
                        let ptr := drop (n + length CRLF2) raw in
                        body ← parse_body website params headers ptr
                                 (size - (Z.of_nat (length start) - Z.of_nat (length ptr)));
                        header ← get_header headers (str "Content-Type");
                        charset ← charset_of header;
                        Done (body, charset)
                    | None => Done (Body None 0 params [], [])
                    end);
            let '(body, charset) := body in
            Done (Some (Connection sockfd CONN_STATUS_RECEIVED (take 4 start) hostname version
                          (Request type full_url url (b_params body) headers
                             (b_post_body body) (b_post_body_len body) charset (b_parts body))
                          cookies website))
        end
    end.

(** ** Specification vocabulary *)

(** A request as zimrd hands it to the website: the address and the host name of
    the client, then the text of the client. *)
Record get_request := GetRequest {
  gr_ip : bytes;
  gr_hostname : bytes;
  gr_path : bytes;
  gr_query : list (bytes * bytes);
  gr_version : bytes;
  gr_headers : headers_t
}.

Definition target_text (escape : Z → bool) (r : get_request) : bytes :=
  percent_encode escape (gr_path r) ++
  match gr_query r with [] => [] | l => 63 :: encode_qs escape l end.

Definition header_text (hs : headers_t) : bytes := concat (header_line <$> hs) ++ HTTP_HDR_ENDL.

Definition request_text (escape : Z → bool) (r : get_request) : bytes :=
  gr_ip r ++ gr_hostname r ++ 0 :: str "GET " ++ target_text escape r ++ str " HTTP/" ++
  gr_version r ++ HTTP_HDR_ENDL ++ header_text (gr_headers r).

(** The escapes keep the separators of the request line out of the target. *)
Record target_escape (escape : Z → bool) : Prop := {
  te_good : good_escape escape;
  te_query : escape 63 = true;
  te_space : escape c_space = true
}.

Record good_request (escape : Z → bool) (r : get_request) : Prop := {
  go_ip : length (gr_ip r) = 4%nat;
  go_hostname : cstring (gr_hostname r) ∧ (length (gr_hostname r) <= 128)%nat;
  go_path : printable (gr_path r) ∧
            (length (percent_encode escape (gr_path r)) < PATH_MAX)%nat ∧
            norm_run [] (path_parts (gr_path r)) ≠ None;
  go_query : Forall (λ nv, printable (fst nv) ∧ printable (snd nv) ∧
               (length (percent_encode escape (fst nv)) < PARAMS_NAME_MAX_LEN)%nat) (gr_query r);
  go_version : printable (gr_version r) ∧ 63 ∉ gr_version r ∧ (length (gr_version r) <= 3)%nat;
  go_headers : Forall wf_header (gr_headers r) ∧ (length (gr_headers r) <= HEADERS_MAX_NUM)%nat ∧
               Forall (λ h, cstring (h_value h)) (gr_headers r)
}.

(** The length of the path of a website. *)
Definition website_path_len (w : website_t) : nat :=
  match strchr (w_url w) c_slash with Some k => (length (w_url w) - k)%nat | None => 0%nat end.

(** ** Lemmas on strings *)

Lemma cstr_app_cstring s m : cstring s → cstr (s ++ m) = s ++ cstr m.
Proof.
  induction 1 as [|c s Hc Hs IH]; [done|]. simpl. unfold is_char in Hc.
  rewrite (proj2 (Z.eqb_neq c 0)) by lia. by rewrite IH.
Qed.

Lemma cstr_drop m a b : cstr m = a ++ b → cstr (drop (length a) m) = b.
Proof.
  revert a. induction m as [|c m IH]; intros a H; simpl in H.
  - destruct a; [exact H | done].
  - destruct a as [|x a]; [exact H|]. destruct (c =? 0); [done|].
    simpl in H. injection H as _ H. simpl. by apply IH.
Qed.

Lemma char_at_middle a c t : char_at (a ++ c :: t) (length a) = c.
Proof. unfold char_at. by rewrite list_lookup_middle. Qed.

Lemma drop_middle (a : bytes) c t : drop (S (length a)) (a ++ c :: t) = t.
Proof. rewrite drop_app_ge by lia. by replace (_ - _)%nat with 1%nat by lia. Qed.

Lemma strnstr_char pre c t n :
  c ∉ pre → Z.of_nat (length pre) < n → strnstr (pre ++ c :: t) [c] n = Some (length pre).
Proof.
  intros Hc Hn. apply strnstr_Some. split; [rewrite length_app; simpl; lia|].
  split; [simpl length; lia|]. split.
  - rewrite drop_app_length. by exists t.
  - intros j Hj [k Hk]. rewrite drop_app_le in Hk by lia.
    destruct (lookup_lt_is_Some_2 pre j Hj) as [y Hy].
    rewrite (drop_cons_lookup _ _ _ Hy) in Hk. injection Hk as <- _.
    apply Hc. by eapply list_elem_of_lookup_2.
Qed.

Lemma strnstr_char_None pre c t : c ∉ pre → strnstr (pre ++ t) [c] (Z.of_nat (length pre)) = None.
Proof.
  intros Hc. destruct (strnstr _ _ _) as [i|] eqn:E; [|done]. exfalso.
  apply strnstr_Some in E as (_ & Hi & [k Hk] & _). simpl length in Hi.
  rewrite drop_app_le in Hk by lia. destruct (lookup_lt_is_Some_2 pre i) as [y Hy]; [lia|].
  rewrite (drop_cons_lookup _ _ _ Hy) in Hk. injection Hk as <- _.
  apply Hc. by eapply list_elem_of_lookup_2.
Qed.

Lemma printable_cstring s : printable s → cstring s.
Proof. intros H. eapply Forall_impl; [exact H|]. unfold is_char. intros; simpl in *; lia. Qed.

Lemma printable_not_in s c : printable s → (c < 32 ∨ 126 < c) → c ∉ s.
Proof.
  intros H Hc Hin. unfold printable in H. rewrite Forall_forall in H. specialize (H _ Hin).
  simpl in H. lia.
Qed.

Lemma percent_encode_printable escape s : printable s → printable (percent_encode escape s).
Proof.
  induction 1 as [|c s Hc Hs IH]; [by constructor|]. rewrite percent_encode_cons.
  apply Forall_app. split; [|done].
  assert (∀ n, 0 <= n < 16 → 32 <= hex_digit n <= 126) as Hh.
  { intros n Hn. unfold hex_digit. case_test; lia. }
  destruct (escape c); [|by apply Forall_singleton].
  unfold percent_char. rewrite !Forall_cons. unfold c_percent. split; [lia|].
  split; [|split; [|done]]; apply Hh.
  - split; [apply Z.div_pos; lia | apply Z.div_lt_upper_bound; lia].
  - apply Z.mod_pos_bound. lia.
Qed.

Lemma encode_pair_printable escape nv :
  printable (fst nv) → printable (snd nv) → printable (encode_pair escape nv).
Proof.
  intros. apply Forall_app. split; [by apply percent_encode_printable|].
  apply Forall_cons. split; [unfold c_eq; lia | by apply percent_encode_printable].
Qed.

Lemma encode_qs_printable escape l :
  Forall (λ nv, printable (fst nv) ∧ printable (snd nv)) l → printable (encode_qs escape l).
Proof.
  induction 1 as [|nv l [Hn Hv] Hl IH]; [by constructor|].
  destruct (decide (l = [])) as [->|Hne]; [by apply encode_pair_printable|].
  rewrite encode_qs_cons by done. apply Forall_app. split; [by apply encode_pair_printable|].
  apply Forall_cons. split; [unfold c_amp; lia | done].
Qed.

(** No escaped byte occurs in a query string but the two separators. *)
Lemma encode_qs_not_in escape c l :
  escape c = true → c ≠ c_percent → c ≠ c_amp → c ≠ c_eq → (c < 48 ∨ 57 < c < 65 ∨ 70 < c) →
  Forall (λ nv, printable (fst nv) ∧ printable (snd nv)) l → c ∉ encode_qs escape l.
Proof.
  intros He Hp Ha Hq Hc. 
  assert (∀ nv, printable (fst nv) → printable (snd nv) → c ∉ encode_pair escape nv) as Hpair.
  { intros nv Hn Hv. unfold encode_pair. rewrite elem_of_app, elem_of_cons.
    intros [H|[H|H]]; [|done|]; by eapply percent_encode_not_in in H. }
  induction 1 as [|nv l [Hn Hv] Hl IH]; [apply not_elem_of_nil|].
  destruct (decide (l = [])) as [->|Hne]; [by apply Hpair|].
  rewrite encode_qs_cons by done. rewrite elem_of_app, elem_of_cons.
  intros [H|[H|H]]; [by eapply Hpair in H | done | done].
Qed.

(** ** Lemmas on the normalised URL *)

Lemma no_parent_prefix path : startswith (norm_ref path) (str "../") = false.
Proof.
  destruct (startswith (norm_ref path) (str "../")) eqn:E; [|done]. exfalso.
  apply startswith_spec in E as [k Hk].
  pose proof (norm_ref_parts path (str "../")) as [_ H]; [|done].
  rewrite Hk. simpl. by left.
Qed.

Lemma drop_parents_none fuel full_url :
  startswith (cstr full_url) (str "../") = false → drop_parents (S fuel) full_url = Done full_url.
Proof. intros H. cbn [drop_parents]. by rewrite H. Qed.

Lemma normalize_loop_length fuel st path st' :
  normalize_loop fuel st path = Done st' → length (np_buf st') = length (np_buf st).
Proof.
  revert st path. induction fuel as [|fuel IH]; intros st path H; [done|]. cbn [normalize_loop] in H.
  destruct (normalize_step st path) as [[st1 next]|] eqn:E; [|done].
  assert (length (np_buf st1) = length (np_buf st)) as Hl.
  { clear H IH. unfold normalize_step in E.
    set (n := default (length path) (strchr path c_slash)) in E.
    set (part := if strcmp_eq _ _ then _ else _) in E. destruct part as [i is_part].
    set (n' := if _ =? _ then _ else _) in E.
    destruct (idx_get (np_idx st) i) as [at_i|]; [|done]. cbn [mbind res_bind] in E.
    set (new := if is_part then _ else _) in E.
    assert (∀ s, new = Done s → length (np_buf s) = length (np_buf st)) as Hnew.
    { intros s Hs. subst new. destruct is_part; [|by injection Hs as <-].
      destruct (buf_write _ _ _) as [b|] eqn:Eb; [|done]. cbn [mbind res_bind] in Hs.
      destruct (idx_set _ _ _) as [x|]; [|done]. injection Hs as <-.
      by apply buf_write_length in Eb. }
    destruct new as [s|]; [|done]. cbn [mbind res_bind] in E. rewrite <- (Hnew s eq_refl).
    destruct (idx_get (np_idx s) (np_i s)) as [e|]; [|done]. cbn [mbind res_bind] in E.
    destruct (buf_write e [0] (np_buf s)) as [b|] eqn:Eb; [|done]. cbn [mbind res_bind] in E.
    apply buf_write_length in Eb. destruct (_ || _) in E; injection E as <- _; exact Eb. }
  cbn [mbind res_bind] in H. destruct next as [p|].
  - apply IH in H. congruence.
  - by injection H as <-.
Qed.

Lemma normalize_path_length normpath path buf :
  normalize_path normpath path = Done buf → length buf = length normpath.
Proof.
  unfold normalize_path. destruct (buf_write 0 [0] normpath) as [b|] eqn:Eb; [|done].
  cbn [mbind res_bind]. intros H.
  destruct (normalize_loop _ _ _) as [st|] eqn:E; [|done]. simpl in H. injection H as <-.
  apply normalize_loop_length in E. apply buf_write_length in Eb. simpl in E. congruence.
Qed.

(** ** Lemmas on the request line *)

Lemma url_part escape path rest :
  target_escape escape → printable path →
  (length (percent_encode escape path) < PATH_MAX)%nat → norm_run [] (path_parts path) ≠ None →
  ∃ full_url, cstr full_url = norm_ref path ∧ length full_url = PATH_MAX ∧
    (urlbuf ← url_decode PATH_MAX (percent_encode escape path ++ rest)
                (length (percent_encode escape path));
     full_url ← normalize_path (replicate PATH_MAX 0) urlbuf;
     drop_parents (S PATH_MAX) full_url) = Done full_url.
Proof.
  intros [[Hp _ _] _ _] Hpr Hl Hrun.
  pose proof (percent_encode_length escape path) as Hle.
  rewrite url_decode_fits by done. cbn [mbind res_bind].
  pose proof (normalize_path_run (replicate PATH_MAX 0) path (printable_cstring _ Hpr)) as H.
  rewrite length_replicate in H. specialize (H ltac:(lia)).
  destruct (norm_run [] (path_parts path)) as [segs|] eqn:E; [|done].
  destruct H as (buf & Hb & Hc). exists buf.
  assert (cstr buf = norm_ref path) as Hn.
  { unfold norm_ref. rewrite Hc. by rewrite (norm_run_foldl _ _ _ E). }
  split; [done|]. rewrite Hb. cbn [mbind res_bind].
  apply normalize_path_length in Hb. rewrite length_replicate in Hb. split; [done|].
  apply drop_parents_none. rewrite Hn. apply no_parent_prefix.
Qed.

(** The text after the target. *)
Lemma version_part v H :
  printable v → (length v <= 3)%nat →
  let raw := str "HTTP/" ++ v ++ HTTP_HDR_ENDL ++ H in
  startswith (cstr raw) (str "HTTP/") = true ∧
  drop 5 raw = v ++ HTTP_HDR_ENDL ++ H ∧
  strstr (cstr (drop 5 raw)) HTTP_HDR_ENDL = Some (length v).
Proof.
  intros Hv Hl raw. unfold raw. change (drop 5 (str "HTTP/" ++ ?x)) with x.
  assert (cstring HTTP_HDR_ENDL) as Hcr by (apply (bool_decide_unpack _); vm_compute; exact I).
  split; [|split; [done|]].
  - rewrite cstr_app_cstring by (apply (bool_decide_unpack _); vm_compute; exact I).
    apply startswith_spec. by eexists.
  - rewrite cstr_app_cstring by by apply printable_cstring.
    rewrite cstr_app_cstring by done.
    apply (strstr_sep v c_cr [c_lf]). apply printable_not_in; [done | unfold c_cr; lia].
Qed.

(** The request line as a string, up to its line end. *)
Lemma line_string T v X :
  printable T → printable v →
  cstr (T ++ str " HTTP/" ++ v ++ HTTP_HDR_ENDL ++ X)
  = (T ++ str " HTTP/" ++ v) ++ HTTP_HDR_ENDL ++ cstr X ∧
  c_cr ∉ T ++ str " HTTP/" ++ v.
Proof.
  intros HT Hv. assert (printable (T ++ str " HTTP/" ++ v)) as HTv.
  { apply Forall_app. split; [done|]. apply Forall_app. split; [|done].
    apply (bool_decide_unpack _). vm_compute. exact I. }
  split; [|apply printable_not_in; [done | unfold c_cr; lia]].
  replace (T ++ str " HTTP/" ++ v ++ HTTP_HDR_ENDL ++ X)
    with ((T ++ str " HTTP/" ++ v) ++ HTTP_HDR_ENDL ++ X) by by rewrite <- !app_assoc.
  rewrite cstr_app_cstring by by apply printable_cstring. done.
Qed.

Section request_line.
Context (escape : Z → bool) (path v H : bytes).
Context (He : target_escape escape) (Hp : printable path)
  (Hpl : (length (percent_encode escape path) < PATH_MAX)%nat)
  (Hrun : norm_run [] (path_parts path) ≠ None)
  (Hv : printable v) (Hvq : 63 ∉ v) (Hvl : (length v <= 3)%nat).

Let pe := percent_encode escape path.

Lemma path_no_separator : 63 ∉ pe ∧ c_space ∉ pe.
Proof.
  split; apply percent_encode_not_in; try done; try (unfold c_space; lia).
  - apply (te_query _ He).
  - apply (te_space _ He).
Qed.

Lemma parse_request_line_plain :
  ∃ full_url, cstr full_url = norm_ref path ∧ length full_url = PATH_MAX ∧
    parse_request_line (pe ++ str " HTTP/" ++ v ++ HTTP_HDR_ENDL ++ H)
    = Done (Some (full_url, [], v, H)).
Proof.
  destruct path_no_separator as [Hq63 Hsp].
  destruct (line_string pe v H (percent_encode_printable _ _ Hp) Hv) as [Hc Hcr].
  destruct (version_part v H Hv Hvl) as (Hs1 & Hs2 & Hs3).
  set (Y := str "HTTP/" ++ v ++ HTTP_HDR_ENDL ++ H) in *.
  assert (str " HTTP/" ++ v ++ HTTP_HDR_ENDL ++ H = c_space :: Y) as HY by reflexivity.
  destruct (url_part escape path (c_space :: Y) He Hp Hpl Hrun) as (full & Hfc & Hfl & Hfu).
  exists full. split; [done|]. split; [done|]. fold pe in Hfu.
  unfold parse_request_line. rewrite Hc.
  unfold HTTP_HDR_ENDL at 1 2. rewrite (strstr_sep _ c_cr [c_lf]) by done.
  assert (63 ∉ str " HTTP/") as Hlit by (apply (bool_decide_unpack _); vm_compute; exact I).
  rewrite (strnstr_char_None _ 63) by (rewrite !elem_of_app; intros [?|[?|?]]; done).
  rewrite <- (app_assoc pe).
  change ((str " HTTP/" ++ v) ++ ?x) with (c_space :: (str "HTTP/" ++ v) ++ x).
  change (str " ") with [c_space].
  rewrite strnstr_char by (done || rewrite !length_app; simpl; lia).
  rewrite HY.
  apply res_bind_inv in Hfu as (u & Hu & Hfu). rewrite Hu. cbn [mbind res_bind].
  apply res_bind_inv in Hfu as (f & Hf & Hfu). rewrite Hf. cbn [mbind res_bind].
  rewrite Hfu. cbn [mbind res_bind].
  rewrite char_at_middle. change (c_space =? 63) with false. cbn [mbind res_bind].
  rewrite drop_middle, Hs1. cbn [negb]. rewrite Hs3, Hs2. rewrite Nat.min_l by lia.
  by rewrite take_app_length, <- drop_drop, drop_app_length.
Qed.

Lemma parse_request_line_query l :
  Forall (λ nv, printable (fst nv) ∧ printable (snd nv) ∧
            (length (percent_encode escape (fst nv)) < PARAMS_NAME_MAX_LEN)%nat) l →
  ∃ full_url, cstr full_url = norm_ref path ∧ length full_url = PATH_MAX ∧
    parse_request_line ((pe ++ 63 :: encode_qs escape l) ++ str " HTTP/" ++ v ++ HTTP_HDR_ENDL ++ H)
    = Done (Some (full_url, decoded_param escape PARAM_TYPE_GET <$> l, v, H)).
Proof.
  intros Hq. destruct path_no_separator as [Hq63 _]. set (qs := encode_qs escape l) in *.
  assert (Forall (λ nv, printable (fst nv) ∧ printable (snd nv)) l) as Hq'.
  { eapply Forall_impl; [exact Hq|]. by intros ? (? & ? & _). }
  assert (printable qs) as Hqp by by apply encode_qs_printable.
  assert (c_space ∉ qs) as Hspq.
  { apply encode_qs_not_in; try done; [apply (te_space _ He) | unfold c_space; lia]. }
  assert (printable (pe ++ 63 :: qs)) as HT.
  { apply Forall_app. split; [by apply percent_encode_printable|].
    apply Forall_cons. split; [lia | done]. }
  destruct (line_string (pe ++ 63 :: qs) v H HT Hv) as [Hc Hcr].
  destruct (line_string qs v H Hqp Hv) as [Hcq _].
  destruct (version_part v H Hv Hvl) as (Hs1 & Hs2 & Hs3).
  set (Y := str "HTTP/" ++ v ++ HTTP_HDR_ENDL ++ H) in *.
  assert (str " HTTP/" ++ v ++ HTTP_HDR_ENDL ++ H = c_space :: Y) as HY by reflexivity.
  destruct (url_part escape path (63 :: qs ++ c_space :: Y) He Hp Hpl Hrun) as (full & Hfc & Hfl & Hfu).
  exists full. split; [done|]. split; [done|]. fold pe in Hfu.
  unfold parse_request_line. rewrite Hc.
  unfold HTTP_HDR_ENDL at 1 2. rewrite (strstr_sep _ c_cr [c_lf]) by done.
  set (n := length ((pe ++ 63 :: qs) ++ str " HTTP/" ++ v)).
  assert (n = length pe + 1 + length qs + 6 + length v)%nat as Hn
    by (unfold n; repeat (rewrite length_app; simpl); lia).
  assert (∀ x y, ((pe ++ 63 :: qs) ++ x) ++ y = pe ++ 63 :: qs ++ x ++ y) as Happ
    by (intros; rewrite <- !app_assoc; reflexivity).
  rewrite Happ. change (str "?") with [63]. rewrite strnstr_char by (done || lia).
  assert (∀ x, (pe ++ 63 :: qs) ++ x = pe ++ 63 :: qs ++ x) as Happ'
    by (intros; by rewrite <- app_assoc).
  rewrite Happ'.
  rewrite HY in *.
  apply res_bind_inv in Hfu as (u & Hu & Hfu). rewrite Hu. cbn [mbind res_bind].
  apply res_bind_inv in Hfu as (f & Hf & Hfu). rewrite Hf. cbn [mbind res_bind].
  rewrite Hfu. cbn [mbind res_bind].
  rewrite char_at_middle, Z.eqb_refl, drop_middle, Hcq.
  rewrite <- (app_assoc qs).
  change ((str " HTTP/" ++ v) ++ ?x) with (c_space :: (str "HTTP/" ++ v) ++ x).
  change (str " ") with [c_space]. rewrite strnstr_char by (done || lia).
  pose proof (params_parse_qs_loop_encode escape l [] (c_space :: Y) PARAM_TYPE_GET
    (S (Z.to_nat (Z.of_nat (length qs)))) (te_good _ He) Hq) as Hps. fold qs in Hps.
  unfold params_parse_qs. rewrite Hps by (done || rewrite Nat2Z.id; lia).
  cbn [mbind res_bind app]. rewrite drop_middle, Hs1. cbn [negb].
  rewrite Hs3, Hs2, Nat.min_l by lia.
  by rewrite take_app_length, <- drop_drop, drop_app_length.
Qed.

End request_line.

Lemma parse_request_line_spec escape r H :
  target_escape escape → good_request escape r →
  ∃ full_url, cstr full_url = norm_ref (gr_path r) ∧ length full_url = PATH_MAX ∧
    parse_request_line (target_text escape r ++ str " HTTP/" ++ gr_version r ++ HTTP_HDR_ENDL ++ H)
    = Done (Some (full_url, decoded_param escape PARAM_TYPE_GET <$> gr_query r, gr_version r, H)).
Proof.
  intros He [_ _ (Hp & Hpl & Hrun) Hq (Hv & Hvq & Hvl) _]. unfold target_text.
  destruct (gr_query r) as [|nv l].
  - rewrite app_nil_r. by apply parse_request_line_plain.
  - by apply parse_request_line_query.
Qed.

(** ** Lemmas on the headers and the URL of a request *)

Lemma cstr_app_nonzero s m : Forall (λ c, c ≠ 0) s → cstr (s ++ m) = s ++ cstr m.
Proof.
  induction 1 as [|c s Hc Hs IH]; [done|]. simpl.
  rewrite (proj2 (Z.eqb_neq c 0)) by done. by rewrite IH.
Qed.

Lemma cstring_nonzero s : cstring s → Forall (λ c, c ≠ 0) s.
Proof. intros H. eapply Forall_impl; [exact H|]. unfold is_char. intros; simpl in *; lia. Qed.

Lemma header_text_nonzero hs :
  Forall wf_header hs → Forall (λ h, cstring (h_value h)) hs →
  Forall (λ c, c ≠ 0) (header_text hs).
Proof.
  assert (Forall (λ c, c ≠ 0) HTTP_HDR_ENDL) as He
    by (apply (bool_decide_unpack _); vm_compute; exact I).
  intros Hw Hv. apply Forall_app. split; [|done].
  induction Hw as [|h hs Hh Hw IH]; [by constructor|].
  apply Forall_cons in Hv as [Hvh Hv]. simpl. apply Forall_app. split; [|by apply IH].
  unfold header_line. rewrite !Forall_app. split; [|split; [|split; [|done]]].
  - eapply Forall_impl; [apply (wf_name_chars _ Hh)|]. by intros c [? _].
  - apply (bool_decide_unpack _). vm_compute. exact I.
  - by apply cstring_nonzero.
Qed.

Lemma headers_parse_text hs rest :
  Forall wf_header hs → (length hs <= HEADERS_MAX_NUM)%nat →
  Forall (λ h, cstring (h_value h)) hs →
  headers_parse (cstr (header_text hs ++ rest)) = Done hs.
Proof.
  intros Hw Hl Hv. rewrite cstr_app_nonzero by by apply header_text_nonzero.
  unfold headers_parse, header_text. by rewrite headers_parse_loop_lines.
Qed.

(** What is left of the URL behind the path of the website. *)
Definition without_slash (s : bytes) : bytes :=
  match s with c :: s' => if c =? c_slash then s' else s | [] => [] end.

Lemma url_offset_spec website full_url :
  (website_path_len website < length full_url)%nat →
  ∃ off, url_offset website full_url = Done off ∧
    ∀ pre sub, cstr full_url = pre ++ sub → length pre = website_path_len website →
      cstr (drop off full_url) = without_slash sub.
Proof.
  intros Hl. unfold url_offset. fold (website_path_len website).
  set (k := website_path_len website) in *.
  destruct (lookup_lt_is_Some_2 full_url k Hl) as [c Hc]. rewrite Hc. cbn [at_index mbind res_bind].
  eexists. split; [reflexivity|]. intros pre sub Hs <-.
  pose proof (cstr_drop _ _ _ Hs) as Hd. rewrite (drop_cons_lookup _ _ _ Hc) in Hd. simpl in Hd.
  destruct (Z.eqb_spec c c_slash) as [->|Hne].
  - simpl in Hd. rewrite <- Hd. done.
  - rewrite (drop_cons_lookup _ _ _ Hc). simpl. rewrite Hd.
    destruct (Z.eqb_spec c 0); [by subst|]. subst sub. simpl.
    by rewrite (proj2 (Z.eqb_neq c c_slash)).
Qed.

(** ** A form that is lost

    The loop over the parts leaves in [header] the Content-Type of the last
    part, and the comparison with multipart/form-data is made with it: the
    fields of an ordinary form are not added to the parameters. *)

Definition form_website : website_t :=
  Website (str "example.com") (str "http://example.com") [] 3 default_ip WS_OPTION_PARSE_MULTIPARTS.

Definition form_headers : headers_t :=
  [Header (str "Content-Type") (str "multipart/form-data; boundary=XyZ")].

Definition form_body : bytes :=
  str "--XyZ" ++ HTTP_HDR_ENDL ++
  str "Content-Disposition: form-data; name=user" ++ CRLF2 ++ str "alice" ++ HTTP_HDR_ENDL ++
  str "--XyZ--" ++ HTTP_HDR_ENDL.

Lemma form_data_lost :
  parse_body form_website [] form_headers form_body (Z.of_nat (length form_body))
  = Done (Body None 0 []
      [Part [Header (str "Content-Disposition") (str "form-data; name=user")]
         (str "alice") 5 default_charset]).
Proof. vm_compute. reflexivity. Qed.

(** Every status line is found by its number. *)
Lemma response_status_table :
  Forall (λ s, response_status (atoi (take 3 s)) = Done (Some s)) httpstatus.
Proof. apply (bool_decide_unpack _). vm_compute. exact I. Qed.

(** ** The record of a request *)

(** What [connection_create] makes of a request. *)
Record reads_get (website : website_t) (sockfd : Z) (escape : Z → bool) (r : get_request) (c : connection_t) : Prop := {
  rg_ip : cn_ip c = gr_ip r;
  rg_hostname : cn_hostname c = gr_hostname r;
  rg_version : cn_http_version c = gr_version r;
  rg_sockfd : cn_sockfd c = sockfd;
  rg_website : cn_website c = website;
  rg_type : rq_type (cn_request c) = HTTP_GET_TYPE;
  rg_headers : rq_headers (cn_request c) = gr_headers r;
  rg_params : rq_params (cn_request c) = decoded_param escape PARAM_TYPE_GET <$> gr_query r;
  rg_post_body : rq_post_body (cn_request c) = None;
  rg_cookies : cn_cookies c = cookies_parse (default [] (header_value (gr_headers r) (str "Cookie")));
  rg_full_url : cstr (rq_full_url (cn_request c)) = norm_ref (gr_path r);
  rg_url pre sub : norm_ref (gr_path r) = pre ++ sub → length pre = website_path_len website →
    request_url (cn_request c) = without_slash sub
}.

Lemma connection_create_request (website : website_t) (sockfd size : Z) (escape : Z → bool)
  (r : get_request) (rest : bytes) :
  target_escape escape → good_request escape r → (website_path_len website < PATH_MAX)%nat →
  ∃ c, connection_create website sockfd (request_text escape r ++ rest) size = Done (Some c) ∧
    reads_get website sockfd escape r c.
Proof.
  intros He Hr Hw. pose proof Hr as [Hip [Hh Hhl] _ _ _ (Hwf & Hwl & Hwv)].
  destruct (parse_request_line_spec escape r (header_text (gr_headers r) ++ rest) He Hr)
    as (full & Hfc & Hfl & Hline).
  destruct (url_offset_spec website full) as (off & Hoff & Hsub); [lia|].
  unfold connection_create, request_text.
  rewrite (proj2 (Nat.ltb_ge _ _)) by (rewrite !length_app; lia).
  assert (∀ X, drop 4 (gr_ip r ++ X) = X) as Hd4 by (intros X; rewrite <- Hip; apply drop_app_length).
  assert (∀ X, take 4 (gr_ip r ++ X) = gr_ip r) as Ht4
    by (intros X; rewrite <- Hip; apply take_app_length).
  rewrite <- !app_assoc, Hd4, Ht4.
  rewrite <- app_comm_cons. rewrite cstr_app by done. rewrite drop_middle.
  rewrite take_ge by lia. rewrite <- !app_assoc.
  change (parse_type (str "GET " ++ ?x)) with (Some (HTTP_GET_TYPE, c_space :: x)).
  cbn iota beta. change (drop 1 (c_space :: ?x)) with x. rewrite Hline. cbn [mbind res_bind].
  rewrite Hoff. cbn [mbind res_bind]. rewrite headers_parse_text by done. cbn [mbind res_bind].
  unfold get_header at 1. rewrite headers_get_header_spec. cbn [mbind res_bind].
  change (HTTP_GET_TYPE =? HTTP_POST_TYPE) with false. cbn [mbind res_bind].
  eexists. split; [reflexivity|].
  split; cbn [cn_cookies]; try done.
  - unfold header_value. by destruct (find_name _ _ _ ≫= _).
  - intros pre sub Hs Hp. unfold request_url. cbn [rq_url rq_full_url].
    apply (Hsub pre); congruence.
Qed.

(** ** Properties *)

(** C2: [connection_create] reads a well-formed GET request: address, host name,
    version, headers, cookies and decoded parameters are those of the request;
    the URL is the decoded path with its dot segments resolved; and the path
    that handlers see is what follows the path of the website, without its
    first slash.  What follows the headers in memory does not matter. *)
Theorem connection_create_get (website : website_t) (sockfd size : Z) (escape : Z → bool)
  (r : get_request) (rest : bytes) :
  target_escape escape → good_request escape r →
  (website_path_len website < PATH_MAX)%nat →
  ∃ c, connection_create website sockfd (request_text escape r ++ rest) size = Done (Some c) ∧
    cn_ip c = gr_ip r ∧ cn_hostname c = gr_hostname r ∧ cn_http_version c = gr_version r ∧
    cn_sockfd c = sockfd ∧ cn_website c = website ∧
    rq_type (cn_request c) = HTTP_GET_TYPE ∧
    rq_headers (cn_request c) = gr_headers r ∧
    rq_params (cn_request c) = decoded_param escape PARAM_TYPE_GET <$> gr_query r ∧
    rq_post_body (cn_request c) = None ∧
    cn_cookies c = cookies_parse (default [] (header_value (gr_headers r) (str "Cookie"))) ∧
    cstr (rq_full_url (cn_request c)) = norm_ref (gr_path r) ∧
    ∀ pre sub, norm_ref (gr_path r) = pre ++ sub → length pre = website_path_len website →
      request_url (cn_request c) = without_slash sub.
Proof.
  intros He Hr Hw. destruct (connection_create_request website sockfd size escape r rest He Hr Hw) as (c & E & Hc).
  exists c. split; [exact E|]. split_and!; apply Hc.
Qed.

Definition example_website : website_t :=
  Website (str "example.com/a") (str "http://example.com/a") (str "/a") 3 default_ip 1.

Definition example_request : get_request :=
  GetRequest [127; 0; 0; 1] (str "client") (str "/a/./x/../b c.html") [(str "q", str "1&2")]
    (str "1.1") [Header (str "Host") (str "example.com"); Header (str "Cookie") (str "sid=42")].

Definition example_escape (c : Z) : bool :=
  (c =? 37) || (c =? 38) || (c =? 61) || (c =? 63) || (c =? 32).

Lemma connection_create_get_witness :
  ∃ c, connection_create example_website 5 (request_text example_escape example_request ++ []) 0
         = Done (Some c) ∧
    rq_params (cn_request c) = [Param (str "q") (str "1&2") 5 1 true] ∧
    cn_cookies c = [new_cookie (str "sid") (str "42") false] ∧
    request_url (cn_request c) = str "b c.html".
Proof.
  destruct (connection_create_get example_website 5 0 example_escape example_request [])
    as (c & Hc & _ & _ & _ & _ & _ & _ & _ & Hp & _ & Hck & _ & Hu).
  - repeat split; reflexivity.
  - split; [reflexivity|split|split; [|split]| |split; [|split]|split; [|split]];
      try (apply (bool_decide_unpack _); vm_compute; exact I);
      try (apply Nat.leb_le; vm_compute; reflexivity); try (apply Nat.ltb_lt; vm_compute; reflexivity).
    repeat constructor; try (vm_compute; reflexivity); try discriminate;
        try (apply Nat.ltb_lt; vm_compute; reflexivity);
        try (apply (bool_decide_unpack _); vm_compute; exact I).
  - apply Nat.ltb_lt. vm_compute. reflexivity.
  - exists c. split; [exact Hc|]. split; [rewrite Hp; vm_compute; reflexivity|].
    split; [rewrite Hck; vm_compute; reflexivity|].
    rewrite (Hu (str "/a") (str "/b c.html")); vm_compute; reflexivity.
Defined.
