(* ===== verification/MsgSwitch.v ===== *)
(** msg_switch.c, first part: messages, their queues and flags, and the operations
    of the API.

    A switch multiplexes messages over one socket.  A pointer to a message is
    the number of its slot in [msgs], so that a pointer that outlives its
    message is found out as [UseAfterFree].  The static counter [n_selectable]
    is part of the record, and so are the interests that the switch has set on
    its socket.  An incomplete packet holds the part of its array that was
    written; a complete one holds the whole array.  The frame that is being received
    is in MsgFrames: only [msg_switch_read] touches it. *)

From Stdlib Require Import ZArith Lia.
From S2P Require Export Config Zfildes CString.

Local Open Scope Z_scope.

(** ** Constants *)

Definition MSG_STAT_CONNECTED            : Z := 0x0001.
Definition MSG_STAT_PACKET_AVAIL_TO_READ : Z := 0x0002.
Definition MSG_STAT_PACKET_AVAIL_TO_WRIT : Z := 0x0004.
Definition MSG_STAT_SPACE_AVAIL_FOR_READ : Z := 0x0008.
Definition MSG_STAT_SPACE_AVAIL_FOR_WRIT : Z := 0x0010.
Definition MSG_STAT_WAITING_FOR_RESP     : Z := 0x0020.
Definition MSG_STAT_NEED_TO_SEND_RESP    : Z := 0x0040.
Definition MSG_STAT_WRITING              : Z := 0x0080.
Definition MSG_STAT_CLOSED               : Z := 0x0100.
Definition MSG_STAT_SENT_DISCONNECT      : Z := 0x0200.
Definition MSG_STAT_DISCONNECTED         : Z := 0x0400.

Definition MSG_RESP_OK : Z := 1.
Definition MSG_RESP_DISCON : Z := 2.

Definition MSG_N_BUFF_PACKETS_ALLOWED : nat := 2.
Definition PACK_DATA_SIZE : nat := Z.to_nat 8180.
Arguments PACK_DATA_SIZE : simpl never.

(** ** Data *)

Record msg_resp_t := Resp { r_msgid : Z; r_status : Z }.

Record msg_packet_t := Packet {
  pk_msgid : Z;
  pk_size : Z;
  pk_type : Z;
  pk_data : bytes
}.

#[export] Instance msg_resp_eq_dec : EqDecision msg_resp_t.
Proof. solve_decision. Defined.
#[export] Instance msg_packet_eq_dec : EqDecision msg_packet_t.
Proof. solve_decision. Defined.

Record msg_t := Msg {
  m_msgid : nat;
  m_imsgid : Z;
  m_type : Z;
  m_status : Z;
  m_n_writ : Z;
  m_n_read : Z;
  m_incomplete : option msg_packet_t;
  m_cur_pos : Z;
  m_read_queue : list msg_packet_t;
  m_writ_queue : list msg_packet_t;
  m_selectable : bool
}.

Record msg_switch_t := Switch {
  s_sockfd : Z;
  s_connected : bool;
  s_pending_resps : list msg_resp_t;
  s_pending_msgs : list nat;
  s_msgs : list (option msg_t);
  s_imsgid_map : list Z;
  s_read_set : fd_set;
  s_write_set : fd_set;
  s_active_hash : fd_hash_t;
  n_selectable : Z;
  zs_read_set : bool;          (* the interests on the socket *)
  zs_write_set : bool
}.

(** Results of the API: a value, or -1 with errno. *)
Inductive ret := Ret (v : Z) | Err (errno : Z).

#[export] Instance ret_eq_dec : EqDecision ret.
Proof. solve_decision. Defined.

Definition EBADMSG : Z := 74.
Definition EPIPE : Z := 32.
Definition EAGAIN : Z := 11.
Definition EEXIST : Z := 17.
Definition EINVAL : Z := 22.
Definition ECONNABORTED : Z := 103.

(** ** Field updates *)

Definition with_status (m : msg_t) (st : Z) : msg_t :=
  Msg (m_msgid m) (m_imsgid m) (m_type m) st (m_n_writ m) (m_n_read m) (m_incomplete m)
    (m_cur_pos m) (m_read_queue m) (m_writ_queue m) (m_selectable m).
Definition with_imsgid (m : msg_t) (i : Z) : msg_t :=
  Msg (m_msgid m) i (m_type m) (m_status m) (m_n_writ m) (m_n_read m) (m_incomplete m)
    (m_cur_pos m) (m_read_queue m) (m_writ_queue m) (m_selectable m).
Definition with_n_writ (m : msg_t) (n : Z) : msg_t :=
  Msg (m_msgid m) (m_imsgid m) (m_type m) (m_status m) n (m_n_read m) (m_incomplete m)
    (m_cur_pos m) (m_read_queue m) (m_writ_queue m) (m_selectable m).
Definition with_n_read (m : msg_t) (n : Z) : msg_t :=
  Msg (m_msgid m) (m_imsgid m) (m_type m) (m_status m) (m_n_writ m) n (m_incomplete m)
    (m_cur_pos m) (m_read_queue m) (m_writ_queue m) (m_selectable m).
Definition with_incomplete (m : msg_t) (p : option msg_packet_t) : msg_t :=
  Msg (m_msgid m) (m_imsgid m) (m_type m) (m_status m) (m_n_writ m) (m_n_read m) p
    (m_cur_pos m) (m_read_queue m) (m_writ_queue m) (m_selectable m).
Definition with_cur_pos (m : msg_t) (n : Z) : msg_t :=
  Msg (m_msgid m) (m_imsgid m) (m_type m) (m_status m) (m_n_writ m) (m_n_read m)
    (m_incomplete m) n (m_read_queue m) (m_writ_queue m) (m_selectable m).
Definition with_read_queue (m : msg_t) (q : list msg_packet_t) : msg_t :=
  Msg (m_msgid m) (m_imsgid m) (m_type m) (m_status m) (m_n_writ m) (m_n_read m)
    (m_incomplete m) (m_cur_pos m) q (m_writ_queue m) (m_selectable m).
Definition with_writ_queue (m : msg_t) (q : list msg_packet_t) : msg_t :=
  Msg (m_msgid m) (m_imsgid m) (m_type m) (m_status m) (m_n_writ m) (m_n_read m)
    (m_incomplete m) (m_cur_pos m) (m_read_queue m) q (m_selectable m).
Definition with_selectable (m : msg_t) (b : bool) : msg_t :=
  Msg (m_msgid m) (m_imsgid m) (m_type m) (m_status m) (m_n_writ m) (m_n_read m)
    (m_incomplete m) (m_cur_pos m) (m_read_queue m) (m_writ_queue m) b.

Definition put_msgs (s : msg_switch_t) (l : list (option msg_t)) : msg_switch_t :=
  Switch (s_sockfd s) (s_connected s) (s_pending_resps s) (s_pending_msgs s) l (s_imsgid_map s)
    (s_read_set s) (s_write_set s) (s_active_hash s)
    (n_selectable s) (zs_read_set s) (zs_write_set s).
Definition put_n_selectable (s : msg_switch_t) (n : Z) : msg_switch_t :=
  Switch (s_sockfd s) (s_connected s) (s_pending_resps s) (s_pending_msgs s) (s_msgs s)
    (s_imsgid_map s) (s_read_set s) (s_write_set s) (s_active_hash s) n (zs_read_set s) (zs_write_set s).
Definition put_pending_resps (s : msg_switch_t) (l : list msg_resp_t) : msg_switch_t :=
  Switch (s_sockfd s) (s_connected s) l (s_pending_msgs s) (s_msgs s) (s_imsgid_map s)
    (s_read_set s) (s_write_set s) (s_active_hash s)
    (n_selectable s) (zs_read_set s) (zs_write_set s).
Definition put_pending_msgs (s : msg_switch_t) (l : list nat) : msg_switch_t :=
  Switch (s_sockfd s) (s_connected s) (s_pending_resps s) l (s_msgs s) (s_imsgid_map s)
    (s_read_set s) (s_write_set s) (s_active_hash s)
    (n_selectable s) (zs_read_set s) (zs_write_set s).
Definition put_imsgid_map (s : msg_switch_t) (l : list Z) : msg_switch_t :=
  Switch (s_sockfd s) (s_connected s) (s_pending_resps s) (s_pending_msgs s) (s_msgs s) l
    (s_read_set s) (s_write_set s) (s_active_hash s)
    (n_selectable s) (zs_read_set s) (zs_write_set s).
Definition put_sets (s : msg_switch_t) (r w : fd_set) (h : fd_hash_t) : msg_switch_t :=
  Switch (s_sockfd s) (s_connected s) (s_pending_resps s) (s_pending_msgs s) (s_msgs s)
    (s_imsgid_map s) r w h (n_selectable s)
    (zs_read_set s) (zs_write_set s).
Definition put_zs (s : msg_switch_t) (conn r w : bool) : msg_switch_t :=
  Switch (s_sockfd s) conn (s_pending_resps s) (s_pending_msgs s) (s_msgs s) (s_imsgid_map s)
    (s_read_set s) (s_write_set s) (s_active_hash s)
    (n_selectable s) r w.

Definition zs_set_write (s : msg_switch_t) : msg_switch_t :=
  put_zs s (s_connected s) (zs_read_set s) true.
Definition zs_clr_write (s : msg_switch_t) : msg_switch_t :=
  put_zs s (s_connected s) (zs_read_set s) false.
Definition zs_clr_read (s : msg_switch_t) : msg_switch_t :=
  put_zs s (s_connected s) false (zs_write_set s).

(** ** Messages *)

(** The pointer that [msg_get] returns, as the slot; NULL is [None]. *)
Definition msg_get (s : msg_switch_t) (msgid : Z) : res (option nat) :=
  if msgid =? 0 then Done None
  else if 0 <? msgid then
    o ← at_index (s_msgs s !! Z.to_nat msgid);
    Done (match o with Some _ => Some (Z.to_nat msgid) | None => None end)
  else
    i ← at_index (s_imsgid_map s !! Z.to_nat (Z.abs msgid));
    if i =? 0 then Done None
    else
      o ← at_index (s_msgs s !! Z.to_nat i);
      Done (match o with Some _ => Some (Z.to_nat i) | None => None end).

(** The message behind a pointer. *)
Definition get_m (s : msg_switch_t) (p : nat) : res msg_t :=
  o ← at_index (s_msgs s !! p);
  match o with Some m => Done m | None => Fault UseAfterFree end.

Definition put_m (s : msg_switch_t) (p : nat) (m : msg_t) : msg_switch_t :=
  put_msgs s (<[p := Some m]> (s_msgs s)).

(** An update of the message behind a pointer. *)
Definition upd_m (s : msg_switch_t) (p : nat) (f : msg_t → msg_t) : res msg_switch_t :=
  m ← get_m s p; Done (put_m s p (f m)).

Definition set_flag (flag : Z) (m : msg_t) : msg_t := with_status m (FL_SET (m_status m) flag).
Definition clr_flag (flag : Z) (m : msg_t) : msg_t := with_status m (FL_CLR (m_status m) flag).
Definition isset (m : msg_t) (flag : Z) : bool := FL_ISSET (m_status m) flag.
Definition someset (m : msg_t) (flag : Z) : bool := FL_ARESOMESET (m_status m) flag.

(** [msg_get] followed by the [assert] that it is not NULL. *)
Definition msg_get_assert (s : msg_switch_t) (msgid : Z) : res nat :=
  o ← msg_get s msgid;
  match o with Some p => Done p | None => Fault AssertFailed end.

Definition has_packets (q : list msg_packet_t) (n : nat) : bool := (n <=? length q)%nat.

Definition msg_check_selectability (s : msg_switch_t) (p : nat) : res msg_switch_t :=
  m ← get_m s p;
  r ← FD_ISSET (Z.of_nat p) (s_read_set s);
  w ← FD_ISSET (Z.of_nat p) (s_write_set s);
  if (negb (m_selectable m) && negb (isset m MSG_STAT_CONNECTED)) ||
     (negb (m_selectable m) && r &&
        someset m (Z.lor MSG_STAT_PACKET_AVAIL_TO_READ MSG_STAT_DISCONNECTED)) ||
     (negb (m_selectable m) && w &&
        someset m (Z.lor MSG_STAT_SPACE_AVAIL_FOR_WRIT MSG_STAT_DISCONNECTED))
  then Done (put_n_selectable (put_m s p (with_selectable m true)) (n_selectable s + 1))
  else if m_selectable m
  then Done (put_n_selectable (put_m s p (with_selectable m false)) (n_selectable s - 1))
  else Done s.

(** *** The queues of the switch *)

Definition msg_switch_has_avail_writs (s : msg_switch_t) : bool :=
  negb (bool_decide (s_pending_msgs s = [])) || negb (bool_decide (s_pending_resps s = [])).

Definition msg_switch_push_writ_msg (s : msg_switch_t) (p : nat) : msg_switch_t :=
  zs_set_write (put_pending_msgs s (s_pending_msgs s ++ [p])).

Definition msg_switch_push_resp (s : msg_switch_t) (r : msg_resp_t) : msg_switch_t :=
  zs_set_write (put_pending_resps s (s_pending_resps s ++ [r])).

(** The identifier that the other side knows the message by. *)
Definition wire_id (m : msg_t) : Z :=
  if m_imsgid m =? 0 then - Z.of_nat (m_msgid m) else m_imsgid m.

Definition msg_send_resp (s : msg_switch_t) (p : nat) (status : Z) : res msg_switch_t :=
  m ← get_m s p;
  _ ← assert (negb (status =? MSG_RESP_OK) || isset m MSG_STAT_NEED_TO_SEND_RESP);
  let s := msg_switch_push_resp s (Resp (wire_id m) status) in
  if status =? MSG_RESP_OK then upd_m s p (clr_flag MSG_STAT_NEED_TO_SEND_RESP) else Done s.

Definition msg_update_status (s : msg_switch_t) (p : nat) : res msg_switch_t :=
  m ← get_m s p;
  s ← (if isset m (Z.lor MSG_STAT_NEED_TO_SEND_RESP MSG_STAT_SPACE_AVAIL_FOR_READ) &&
          negb (isset m MSG_STAT_DISCONNECTED)
       then msg_send_resp s p MSG_RESP_OK else Done s);
  m ← get_m s p;
  if isset m MSG_STAT_PACKET_AVAIL_TO_WRIT &&
     negb (someset m (Z.lor MSG_STAT_WAITING_FOR_RESP MSG_STAT_WRITING))
  then
    s ← upd_m s p (set_flag MSG_STAT_WRITING);
    Done (msg_switch_push_writ_msg s p)
  else Done s.

(** The end of all operations on the queues of a message. *)
Definition msg_refresh (s : msg_switch_t) (p : nat) : res msg_switch_t :=
  s ← msg_check_selectability s p; msg_update_status s p.

(** [msg_get_avail_msgid]: the first free slot from 1 on; -1 would index outside
    the array. *)
Fixpoint avail_from (l : list (option msg_t)) (i : nat) : option nat :=
  match l with
  | [] => None
  | None :: _ => Some i
  | Some _ :: l => avail_from l (S i)
  end.

Definition msg_get_avail_msgid (s : msg_switch_t) : option nat := avail_from (tail (s_msgs s)) 1.

Definition msg_create (s : msg_switch_t) (type : Z) : res (msg_switch_t * nat) :=
  p ← at_index (msg_get_avail_msgid s);
  let m := Msg p 0 type (Z.lor MSG_STAT_SPACE_AVAIL_FOR_READ MSG_STAT_SPACE_AVAIL_FOR_WRIT)
             0 0 None 0 [] [] false in
  s ← msg_check_selectability (put_m s p m) p;
  Done (s, p).

Definition cleared_flags : Z :=
  Z.lor MSG_STAT_PACKET_AVAIL_TO_READ (Z.lor MSG_STAT_PACKET_AVAIL_TO_WRIT
  (Z.lor MSG_STAT_SPACE_AVAIL_FOR_READ (Z.lor MSG_STAT_SPACE_AVAIL_FOR_WRIT
  (Z.lor MSG_STAT_WAITING_FOR_RESP (Z.lor MSG_STAT_WRITING MSG_STAT_NEED_TO_SEND_RESP))))).

(** [list_locate] and [list_delete_at] on the pending messages. *)
Definition unqueue (s : msg_switch_t) (p : nat) : msg_switch_t :=
  match list_find (eq p) (s_pending_msgs s) with
  | Some (i, _) =>
      let s := put_pending_msgs s (delete i (s_pending_msgs s)) in
      if msg_switch_has_avail_writs s then s else zs_clr_write s
  | None => s
  end.

Definition msg_clear (s : msg_switch_t) (p : nat) : res msg_switch_t :=
  s ← upd_m s p (λ m, with_read_queue (with_writ_queue m []) []);
  m ← get_m s p;
  let s := if isset m MSG_STAT_WRITING then unqueue s p else s in
  s ← upd_m s p (clr_flag cleared_flags);
  msg_check_selectability s p.

Definition msg_free (s : msg_switch_t) (p : nat) : res msg_switch_t :=
  s ← msg_clear s p;
  m ← get_m s p;
  let s := if m_selectable m then put_n_selectable s (n_selectable s - 1) else s in
  s ← (if m_imsgid m =? 0 then Done s
       else
         _ ← at_index (s_imsgid_map s !! Z.to_nat (Z.abs (m_imsgid m)));
         Done (put_imsgid_map s (<[Z.to_nat (Z.abs (m_imsgid m)) := 0]> (s_imsgid_map s))));
  Done (put_msgs s (<[p := None]> (s_msgs s))).

(** *** Packets to write *)

Definition msg_push_writ_packet (s : msg_switch_t) (p : nat) : res msg_switch_t :=
  m ← get_m s p;
  match m_incomplete m with
  | None => Fault AssertFailed
  | Some packet =>
      let m := with_incomplete (with_writ_queue m (m_writ_queue m ++ [packet])) None in
      let m := set_flag MSG_STAT_PACKET_AVAIL_TO_WRIT m in
      let m := if has_packets (m_writ_queue m) MSG_N_BUFF_PACKETS_ALLOWED
               then clr_flag MSG_STAT_SPACE_AVAIL_FOR_WRIT m else m in
      msg_refresh (put_m s p m) p
  end.

Definition msg_pop_writ_packet (s : msg_switch_t) (p : nat) : res (msg_switch_t * msg_packet_t) :=
  m ← get_m s p;
  packet ← deref (head (m_writ_queue m));
  let m := with_writ_queue m (tail (m_writ_queue m)) in
  let m := clr_flag MSG_STAT_WRITING (set_flag MSG_STAT_WAITING_FOR_RESP m) in
  let m := if has_packets (m_writ_queue m) MSG_N_BUFF_PACKETS_ALLOWED then m
           else set_flag MSG_STAT_SPACE_AVAIL_FOR_WRIT m in
  let m := if has_packets (m_writ_queue m) 1 then m
           else clr_flag MSG_STAT_PACKET_AVAIL_TO_WRIT m in
  s ← msg_refresh (put_m s p m) p;
  Done (s, packet).

Definition msg_packet_new (s : msg_switch_t) (p : nat) : res msg_switch_t :=
  m ← get_m s p;
  s ← (if m_incomplete m then msg_push_writ_packet s p else Done s);
  upd_m s p (λ m, with_n_writ
    (with_incomplete m (Some (Packet (wire_id m) 0 (m_type m) []))) (m_n_writ m + 1)).

(** *** Packets that were read *)

Definition msg_push_read_packet (s : msg_switch_t) (p : nat) (packet : msg_packet_t)
  : res msg_switch_t :=
  m ← get_m s p;
  let m := with_n_read m (m_n_read m + 1) in
  let m := set_flag MSG_STAT_NEED_TO_SEND_RESP m in
  let m := if isset m MSG_STAT_CLOSED then m
           else with_read_queue m (m_read_queue m ++ [packet]) in
  let m := set_flag MSG_STAT_PACKET_AVAIL_TO_READ m in
  let m := if has_packets (m_read_queue m) MSG_N_BUFF_PACKETS_ALLOWED
           then clr_flag MSG_STAT_SPACE_AVAIL_FOR_READ m else m in
  msg_refresh (put_m s p m) p.

Definition msg_pop_read_packet (s : msg_switch_t) (p : nat) : res msg_switch_t :=
  m ← get_m s p;
  let m := with_cur_pos (with_read_queue m (tail (m_read_queue m))) 0 in
  let m := if has_packets (m_read_queue m) MSG_N_BUFF_PACKETS_ALLOWED then m
           else set_flag MSG_STAT_SPACE_AVAIL_FOR_READ m in
  let m := if has_packets (m_read_queue m) 1 then m
           else clr_flag MSG_STAT_PACKET_AVAIL_TO_READ m in
  msg_refresh (put_m s p m) p.

(** ** The API *)

Definition msg_closed (s : msg_switch_t) (o : option nat) : res bool :=
  match o with
  | None => Done true
  | Some p => m ← get_m s p; Done (isset m MSG_STAT_CLOSED)
  end.

Definition msg_set_read (s : msg_switch_t) (msgid : Z) : res msg_switch_t :=
  p ← msg_get_assert s msgid;
  r ← FD_SET msgid (s_read_set s);
  h ← fd_hash_add (s_active_hash s) msgid;
  msg_check_selectability (put_sets s r (s_write_set s) h) p.

Definition msg_set_write (s : msg_switch_t) (msgid : Z) : res msg_switch_t :=
  p ← msg_get_assert s msgid;
  w ← FD_SET msgid (s_write_set s);
  h ← fd_hash_add (s_active_hash s) msgid;
  msg_check_selectability (put_sets s (s_read_set s) w h) p.

(** The descriptor leaves the list when no interest is left. *)
Definition drop_inactive (r w : fd_set) (h : fd_hash_t) (msgid : Z) : res fd_hash_t :=
  a ← FD_ISSET msgid r;
  b ← FD_ISSET msgid w;
  if negb a && negb b then fd_hash_remove h msgid else Done h.

Definition msg_clr_read (s : msg_switch_t) (msgid : Z) : res msg_switch_t :=
  p ← msg_get_assert s msgid;
  r ← FD_CLR msgid (s_read_set s);
  h ← drop_inactive r (s_write_set s) (s_active_hash s) msgid;
  msg_check_selectability (put_sets s r (s_write_set s) h) p.

Definition msg_clr_write (s : msg_switch_t) (msgid : Z) : res msg_switch_t :=
  p ← msg_get_assert s msgid;
  w ← FD_CLR msgid (s_write_set s);
  h ← drop_inactive (s_read_set s) w (s_active_hash s) msgid;
  msg_check_selectability (put_sets s (s_read_set s) w h) p.

Definition msg_isset_read (s : msg_switch_t) (msgid : Z) : res bool :=
  FD_ISSET msgid (s_read_set s).

Definition msg_isset_write (s : msg_switch_t) (msgid : Z) : res bool :=
  FD_ISSET msgid (s_write_set s).

Definition msg_exists (s : msg_switch_t) (msgid : Z) : res bool :=
  o ← msg_get s msgid; Done (is_set o).

Definition msg_get_type (s : msg_switch_t) (msgid : Z) : res Z :=
  o ← msg_get s msgid; p ← deref o; m ← get_m s p; Done (m_type m).

Definition msg_open (s : msg_switch_t) (type : Z) : res (msg_switch_t * ret) :=
  '(s, p) ← msg_create s type;
  s ← upd_m s p (set_flag MSG_STAT_CONNECTED);
  s ← msg_check_selectability s p;
  Done (s, Ret (Z.of_nat p)).

Definition msg_accept (s : msg_switch_t) (msgid : Z) : res (msg_switch_t * ret) :=
  o ← msg_get s msgid;
  closed ← msg_closed s o;
  match o with
  | Some p =>
      if (closed : bool) then Done (s, Err EBADMSG)
      else
        m ← get_m s p;
        if isset m MSG_STAT_CONNECTED then Done (s, Err EEXIST)
        else if isset m MSG_STAT_DISCONNECTED then
          s ← msg_free s p; Done (s, Err ECONNABORTED)
        else
          s ← upd_m s p (set_flag MSG_STAT_CONNECTED);
          h ← fd_hash_remove (s_active_hash s) msgid;
          s ← msg_check_selectability (put_sets s (s_read_set s) (s_write_set s) h) p;
          Done (s, Ret (Z.of_nat (m_msgid m)))
  | None => Done (s, Err EBADMSG)
  end.

(** The zeros behind the data of a packet. *)
Definition pad_packet (pk : msg_packet_t) : msg_packet_t :=
  Packet (pk_msgid pk) (pk_size pk) (pk_type pk)
    (pk_data pk ++ replicate (PACK_DATA_SIZE - length (pk_data pk)) 0).

Definition msg_flush (s : msg_switch_t) (msgid : Z) : res (msg_switch_t * ret) :=
  o ← msg_get s msgid;
  closed ← msg_closed s o;
  match o with
  | Some p =>
      if (closed : bool) then Done (s, Err EBADMSG)
      else
        m ← get_m s p;
        match m_incomplete m with
        | Some packet =>
            s ← msg_push_writ_packet (put_m s p (with_incomplete m (Some (pad_packet packet)))) p;
            Done (s, Ret 0)
        | None => Done (s, Ret 0)
        end
  | None => Done (s, Err EBADMSG)
  end.

(** The loop of [msg_write]; a chunk fills the incomplete packet. *)
Fixpoint write_loop (fuel : nat) (s : msg_switch_t) (p : nat) (data : bytes) : res msg_switch_t :=
  match fuel with
  | O => Fault OutOfFuel
  | S fuel =>
      match data with
      | [] => Done s
      | _ =>
          m ← get_m s p;
          packet ← deref (m_incomplete m);
          s ← (if pk_size packet =? Z.of_nat PACK_DATA_SIZE then msg_packet_new s p else Done s);
          m ← get_m s p;
          packet ← deref (m_incomplete m);
          let room := (PACK_DATA_SIZE - Z.to_nat (pk_size packet))%nat in
          let chunk := take room data in
          let packet := Packet (pk_msgid packet) (pk_size packet + Z.of_nat (length chunk))
                          (pk_type packet) (pk_data packet ++ chunk) in
          write_loop fuel (put_m s p (with_incomplete m (Some packet))) p (drop room data)
      end
  end.

Definition msg_write (s : msg_switch_t) (msgid : Z) (buf : bytes) : res (msg_switch_t * ret) :=
  o ← msg_get s msgid;
  closed ← msg_closed s o;
  match o with
  | Some p =>
      if (closed : bool) then Done (s, Err EBADMSG)
      else
        m ← get_m s p;
        if isset m MSG_STAT_DISCONNECTED then Done (s, Err EPIPE)
        else if negb (isset m MSG_STAT_SPACE_AVAIL_FOR_WRIT) then Done (s, Err EAGAIN)
        else
          s ← (if m_incomplete m then Done s else msg_packet_new s p);
          s ← write_loop (S (length buf)) s p buf;
          Done (s, Ret (Z.of_nat (length buf)))
  | None => Done (s, Err EBADMSG)
  end.

(** [while ( PACKET_AVAIL_TO_READ ) msg_pop_read_packet]. *)
Fixpoint pop_reads (fuel : nat) (s : msg_switch_t) (p : nat) : res msg_switch_t :=
  match fuel with
  | O => Fault OutOfFuel
  | S fuel =>
      m ← get_m s p;
      if isset m MSG_STAT_PACKET_AVAIL_TO_READ
      then s ← msg_pop_read_packet s p; pop_reads fuel s p
      else Done s
  end.

(** [while ( PACKET_AVAIL_TO_WRIT ) msg_pop_writ_packet]. *)
Fixpoint pop_writs (fuel : nat) (s : msg_switch_t) (p : nat) : res msg_switch_t :=
  match fuel with
  | O => Fault OutOfFuel
  | S fuel =>
      m ← get_m s p;
      if isset m MSG_STAT_PACKET_AVAIL_TO_WRIT
      then '(s, _) ← msg_pop_writ_packet s p; pop_writs fuel s p
      else Done s
  end.

Definition msg_close (s : msg_switch_t) (msgid : Z) : res (msg_switch_t * ret) :=
  o ← msg_get s msgid;
  closed ← msg_closed s o;
  match o with
  | Some p =>
      if (closed : bool) then Done (s, Err EBADMSG)
      else
        s ← msg_clr_read s msgid;
        s ← msg_clr_write s msgid;
        m ← get_m s p;
        if isset m MSG_STAT_DISCONNECTED || negb (s_connected s) then
          s ← msg_free s p; Done (s, Ret 0)
        else
          '(s, _) ← msg_flush s msgid;
          s ← upd_m s p (set_flag MSG_STAT_CLOSED);
          m ← get_m s p;
          s ← (if isset m MSG_STAT_PACKET_AVAIL_TO_WRIT then Done s
               else if (m_n_writ m =? 0) && (m_n_read m =? 0) then msg_free s p
               else
                 s ← msg_send_resp s p MSG_RESP_DISCON;
                 upd_m s p (set_flag MSG_STAT_SENT_DISCONNECT));
          m ← get_m s p;
          s ← pop_reads (S (S (length (m_read_queue m)))) s p;
          Done (s, Ret 0)
  | None => Done (s, Err EBADMSG)
  end.

(** The size of the next chunk: the difference is an [int] that is compared as
    an unsigned number. *)
Definition read_chunk (packet : msg_packet_t) (cur_pos : Z) (size : nat) : nat :=
  let d := wrap_s32 (pk_size packet - cur_pos) in
  if (d <? 0) || (Z.of_nat size <? d) then size else Z.to_nat d.

(** The loop of [msg_read]; [acc] is what is in the buffer. *)
Fixpoint read_loop (fuel : nat) (s : msg_switch_t) (p : nat) (size : nat) (acc : bytes)
  : res (msg_switch_t * bytes) :=
  match fuel with
  | O => Fault OutOfFuel
  | S fuel =>
      if (size =? 0)%nat then Done (s, acc)
      else
        m ← get_m s p;
        packet ← deref (head (m_read_queue m));
        let chunk := read_chunk packet (m_cur_pos m) size in
        let pos := Z.to_nat (m_cur_pos m) in
        if (length (pk_data packet) <? pos + chunk)%nat then Fault OutOfBounds
        else
          let acc := acc ++ take chunk (drop pos (pk_data packet)) in
          let m := with_cur_pos m (m_cur_pos m + Z.of_nat chunk) in
          let s := put_m s p m in
          if m_cur_pos m =? pk_size packet then
            s ← msg_pop_read_packet s p;
            m ← get_m s p;
            if isset m MSG_STAT_PACKET_AVAIL_TO_READ
            then read_loop fuel s p (size - chunk) acc
            else Done (s, acc)
          else read_loop fuel s p (size - chunk) acc
  end.

(** The result, and the bytes in the buffer. *)
Definition msg_read (s : msg_switch_t) (msgid : Z) (size : nat)
  : res (msg_switch_t * ret * bytes) :=
  o ← msg_get s msgid;
  closed ← msg_closed s o;
  match o with
  | Some p =>
      if (closed : bool) then Done (s, Err EBADMSG, [])
      else
        m ← get_m s p;
        if isset m MSG_STAT_PACKET_AVAIL_TO_READ then
          '(s, data) ← read_loop (S (size + length (m_read_queue m))) s p size [];
          Done (s, Ret (Z.of_nat (length data)), data)
        else if isset m MSG_STAT_DISCONNECTED then Done (s, Ret 0, [])
        else Done (s, Err EAGAIN, [])
  | None => Done (s, Err EBADMSG, [])
  end.

(** ** What arrives *)

Definition msg_recv_discon (s : msg_switch_t) (p : nat) : res msg_switch_t :=
  m ← get_m s p;
  if isset m MSG_STAT_SENT_DISCONNECT then msg_free s p
  else
    s ← msg_send_resp s p MSG_RESP_DISCON;
    s ← upd_m s p (set_flag MSG_STAT_SENT_DISCONNECT);
    s ← upd_m s p (set_flag MSG_STAT_DISCONNECTED);
    m ← get_m s p;
    _ ← at_index (s_imsgid_map s !! Z.to_nat (m_imsgid m));
    let s := put_imsgid_map s (<[Z.to_nat (m_imsgid m) := 0]> (s_imsgid_map s)) in
    s ← upd_m s p (λ m, with_imsgid m 0);
    m ← get_m s p;
    if negb (isset m MSG_STAT_PACKET_AVAIL_TO_READ) then msg_clear s p
    else pop_writs (S (S (length (m_writ_queue m)))) s p.

Definition msg_recv_resp (s : msg_switch_t) (msgid : Z) (resp : msg_resp_t) : res msg_switch_t :=
  p ← msg_get_assert s msgid;
  if r_status resp =? MSG_RESP_DISCON then msg_recv_discon s p
  else
    m ← get_m s p;
    if isset m MSG_STAT_SENT_DISCONNECT then Done s
    else
      _ ← assert (isset m MSG_STAT_WAITING_FOR_RESP);
      s ← upd_m s p (clr_flag MSG_STAT_WAITING_FOR_RESP);
      m ← get_m s p;
      s ← (if isset m MSG_STAT_PACKET_AVAIL_TO_WRIT then Done s
           else
             '(s, _) ← msg_flush s (Z.of_nat (m_msgid m));
             m ← get_m s p;
             if negb (isset m MSG_STAT_PACKET_AVAIL_TO_WRIT) && isset m MSG_STAT_CLOSED then
               s ← msg_send_resp s p MSG_RESP_DISCON;
               upd_m s p (set_flag MSG_STAT_SENT_DISCONNECT)
             else Done s);
      msg_refresh s p.

(** A packet for a message: a negative unknown identifier opens one. *)
Definition msg_recv_packet (s : msg_switch_t) (packet : msg_packet_t) : res msg_switch_t :=
  o ← msg_get s (pk_msgid packet);
  match o with
  | Some p => msg_push_read_packet s p packet
  | None =>
      _ ← assert (pk_msgid packet <? 0);
      '(s, p) ← msg_create s (pk_type packet);
      let imsgid := Z.abs (pk_msgid packet) in
      s ← upd_m s p (λ m, with_imsgid m imsgid);
      _ ← at_index (s_imsgid_map s !! Z.to_nat imsgid);
      let s := put_imsgid_map s (<[Z.to_nat imsgid := Z.of_nat p]> (s_imsgid_map s)) in
      h ← fd_hash_add (s_active_hash s) (Z.of_nat p);
      msg_push_read_packet (put_sets s (s_read_set s) (s_write_set s) h) p packet
  end.

Inductive frame := FResp (r : msg_resp_t) | FPack (p : msg_packet_t).

Definition handle_frame (s : msg_switch_t) (f : frame) : res msg_switch_t :=
  match f with
  | FResp r =>
      o ← msg_get s (r_msgid r);
      match o with Some _ => msg_recv_resp s (r_msgid r) r | None => Done s end
  | FPack pk => msg_recv_packet s pk
  end.

(** ** The socket *)

Definition MSG_SWITCH_EVT_IO_ERROR : Z := 4.
Definition MSG_EVT_ACCEPT_READY : Z := 1.
Definition MSG_EVT_READ_READY : Z := 2.
Definition MSG_EVT_WRITE_READY : Z := 3.

(** The switch and the event that it reports. *)
Definition msg_switch_failed (s : msg_switch_t) (code : Z) : msg_switch_t * list (Z * Z) :=
  (put_zs s false false false, [(code, MSG_SWITCH_EVT_IO_ERROR)]).

(** The next frame to send: answers go first. *)
Definition next_frame (s : msg_switch_t) : res (msg_switch_t * frame) :=
  '(s, f) ← match s_pending_resps s with
            | r :: rs => Done (put_pending_resps s rs, FResp r)
            | [] =>
                p ← deref (head (s_pending_msgs s));
                let s := put_pending_msgs s (tail (s_pending_msgs s)) in
                m ← get_m s p;
                '(s, pk) ← msg_pop_writ_packet s p;
                Done (s, FPack pk)
            end;
  Done (if msg_switch_has_avail_writs s then s else zs_clr_write s, f).

(** ** The select loop *)

Section select.
(** What the event handler does: message, event. *)
Context {W : Type} (evt_hdlr : Z → Z → msg_switch_t → W → res (msg_switch_t * W)).

(** The condition on the message that the pointer still stands for. *)
Definition event_ready (s : msg_switch_t) (o : option nat) (flags : Z) : res bool :=
  match o with
  | None => Done true
  | Some p => m ← get_m s p; Done (someset m flags)
  end.

Definition select_visit (read_fd_set write_fd_set : fd_set) (msgid : Z) (s : msg_switch_t) (w : W)
  : res (msg_switch_t * W) :=
  o ← msg_get s msgid;
  connected ← (match o with
               | None => Done true
               | Some p => m ← get_m s p; Done (isset m MSG_STAT_CONNECTED)
               end);
  '(s, w) ← (if (connected : bool) then Done (s, w)
             else evt_hdlr msgid MSG_EVT_ACCEPT_READY s w);
  r1 ← FD_ISSET msgid read_fd_set;
  r2 ← FD_ISSET msgid (s_read_set s);
  '(s, w) ← (if r1 && r2 then
               ready ← event_ready s o (Z.lor MSG_STAT_PACKET_AVAIL_TO_READ MSG_STAT_DISCONNECTED);
               if (ready : bool) then evt_hdlr msgid MSG_EVT_READ_READY s w else Done (s, w)
             else Done (s, w));
  w1 ← FD_ISSET msgid write_fd_set;
  w2 ← FD_ISSET msgid (s_write_set s);
  if w1 && w2 then
    ready ← event_ready s o (Z.lor MSG_STAT_SPACE_AVAIL_FOR_WRIT MSG_STAT_DISCONNECTED);
    if (ready : bool) then evt_hdlr msgid MSG_EVT_WRITE_READY s w else Done (s, w)
  else Done (s, w).

Fixpoint select_msgs (fuel : nat) (read_fd_set write_fd_set : fd_set) (msgid : Z)
  (s : msg_switch_t) (w : W) : res (msg_switch_t * W) :=
  match fuel with
  | O => Fault OutOfFuel
  | S fuel =>
      if msgid =? -1 then Done (s, w)
      else
        '(s, w) ← select_visit read_fd_set write_fd_set msgid s w;
        msgid ← fd_hash_next (s_active_hash s) msgid;
        select_msgs fuel read_fd_set write_fd_set msgid s w
  end.

(** The round over the messages of one switch. *)
Definition msg_switch_select_one (fuel : nat) (s : msg_switch_t) (w : W) : res (msg_switch_t * W) :=
  select_msgs fuel (s_read_set s) (s_write_set s) (fd_hash_head (s_active_hash s)) s w.

End select.

Definition msg_switch_need_select (s : msg_switch_t) : bool := negb (n_selectable s =? 0).

(** ** Creation and destruction *)

(** [nsel] is the value of the static counter. *)
Definition msg_switch_new (fd nsel : Z) : msg_switch_t :=
  Switch fd true [] [] (replicate FD_SETSIZE None) (replicate FD_SETSIZE 0) FD_ZERO FD_ZERO
    fd_hash_init nsel true false.

Fixpoint free_all (ps : list nat) (s : msg_switch_t) : res msg_switch_t :=
  match ps with
  | [] => Done s
  | p :: ps =>
      o ← at_index (s_msgs s !! p);
      s ← (match o with Some _ => msg_free s p | None => Done s end);
      free_all ps s
  end.

(** The switch just before it is freed. *)
Definition msg_switch_destroy (s : msg_switch_t) : res msg_switch_t :=
  s ← free_all (seq 0 FD_SETSIZE) s;
  Done (put_zs (put_pending_msgs (put_pending_resps s []) []) (s_connected s) false false).
