(* ===== verification/MsgInv.v ===== *)
(** msg_switch.c, second part: the invariant that ties the flags of the messages to
    their queues and to the queue of the switch, and the two ways in which the
    source breaks it. *)

From Stdlib Require Import ZArith Lia.
From S2P Require Export MsgSwitch.

Local Open Scope Z_scope.

(** ** Flags *)

Lemma isset_set_same m f : isset (set_flag f m) f = true.
Proof. apply FL_ISSET_SET. Qed.

Lemma isset_set_other m f g : Z.land f g = 0 → isset (set_flag f m) g = isset m g.
Proof. apply FL_ISSET_SET_disjoint. Qed.

Lemma isset_clr_same m f g : Z.land f g = g → g ≠ 0 → isset (clr_flag f m) g = false.
Proof.
  intros Hfg Hg. apply not_true_iff_false. unfold isset, clr_flag. simpl. rewrite FL_ISSET_spec.
  intros H. apply Hg, Z.bits_inj. intros i. rewrite Z.bits_0. apply not_true_iff_false. intros Hi.
  specialize (H i Hi). rewrite <- Hfg, Z.land_spec in Hi. apply andb_prop in Hi as [Hi _].
  rewrite FL_CLR_testbit, Hi, andb_false_r in H. discriminate.
Qed.

Lemma isset_clr_other m f g : Z.land f g = 0 → isset (clr_flag f m) g = isset m g.
Proof. apply FL_ISSET_CLR_disjoint. Qed.

Lemma isset_lor m f g : isset m (Z.lor f g) = isset m f && isset m g.
Proof.
  unfold isset. apply eq_true_iff_eq. rewrite andb_true_iff, !FL_ISSET_spec. split.
  - intros H. split; intros i Hi; apply H; rewrite Z.lor_spec, Hi; [done | apply orb_true_r].
  - intros [Hf Hg] i Hi. rewrite Z.lor_spec, orb_true_iff in Hi. destruct Hi; auto.
Qed.

(** A flag of one bit. *)
Lemma isset_bit m k : 0 <= k → isset m (2 ^ k) = Z.testbit (m_status m) k.
Proof.
  intros Hk. unfold isset. apply eq_true_iff_eq. rewrite FL_ISSET_spec. split.
  - intros H. apply H. by rewrite Z.pow2_bits_true.
  - intros H i Hi. destruct (Z.eq_dec i k) as [->|]; [done|].
    rewrite Z.pow2_bits_false in Hi by lia. done.
Qed.

Lemma someset_lor m j k :
  0 <= j → 0 <= k → someset m (Z.lor (2 ^ j) (2 ^ k)) = isset m (2 ^ j) || isset m (2 ^ k).
Proof.
  intros Hj Hk. rewrite !isset_bit by done. unfold someset, FL_ARESOMESET.
  apply eq_true_iff_eq. rewrite negb_true_iff, Z.eqb_neq, orb_true_iff. split.
  - intros H. destruct (Z.testbit (m_status m) j) eqn:Ej; [by left|].
    destruct (Z.testbit (m_status m) k) eqn:Ek; [by right|]. exfalso. apply H.
    apply Z.bits_inj. intros i. rewrite Z.land_spec, Z.lor_spec, Z.bits_0, !Z.pow2_bits_eqb by lia.
    destruct (Z.eqb_spec j i) as [->|]; [by rewrite Ej|].
    destruct (Z.eqb_spec k i) as [->|]; [by rewrite Ek|]. apply andb_false_r.
  - intros H He. assert (∀ i, Z.testbit (Z.land (m_status m) (Z.lor (2 ^ j) (2 ^ k))) i = false) as Hb
      by (intros i; rewrite He; apply Z.bits_0).
    destruct H as [H|H]; [specialize (Hb j) | specialize (Hb k)];
      rewrite Z.land_spec, Z.lor_spec, H, !Z.pow2_bits_true in Hb by lia;
      [done | by rewrite orb_true_r in Hb].
Qed.

Lemma someset_resp_writing m :
  someset m (Z.lor MSG_STAT_WAITING_FOR_RESP MSG_STAT_WRITING)
  = isset m MSG_STAT_WAITING_FOR_RESP || isset m MSG_STAT_WRITING.
Proof. apply (someset_lor m 5 7); lia. Qed.

(** Evaluates the flags of a message after updates. *)
Ltac flags :=
  repeat match goal with
  | |- context [isset (set_flag ?f ?m) ?g] =>
      first [rewrite (isset_set_same m f) | rewrite (isset_set_other m f g) by reflexivity]
  | |- context [isset (clr_flag ?f ?m) ?g] =>
      first [rewrite (isset_clr_same m f g) by (reflexivity || discriminate)
            |rewrite (isset_clr_other m f g) by reflexivity]
  | |- context [isset (with_selectable ?m ?x) ?g] => change (isset (with_selectable m x) g) with (isset m g)
  | |- context [isset (with_imsgid ?m ?x) ?g] => change (isset (with_imsgid m x) g) with (isset m g)
  | |- context [isset (with_n_writ ?m ?x) ?g] => change (isset (with_n_writ m x) g) with (isset m g)
  | |- context [isset (with_n_read ?m ?x) ?g] => change (isset (with_n_read m x) g) with (isset m g)
  | |- context [isset (with_incomplete ?m ?x) ?g] => change (isset (with_incomplete m x) g) with (isset m g)
  | |- context [isset (with_cur_pos ?m ?x) ?g] => change (isset (with_cur_pos m x) g) with (isset m g)
  | |- context [isset (with_read_queue ?m ?x) ?g] => change (isset (with_read_queue m x) g) with (isset m g)
  | |- context [isset (with_writ_queue ?m ?x) ?g] => change (isset (with_writ_queue m x) g) with (isset m g)
  end.

(** ** The invariant *)

(** The flags of a message against its queues.  [pend] tells that the message is
    in the queue of the switch. *)
Record msg_flags_ok (pend : Prop) (m : msg_t) : Prop := {
  fo_pend : isset m MSG_STAT_WRITING = true ↔ pend;
  fo_avail_writ : isset m MSG_STAT_PACKET_AVAIL_TO_WRIT = true ↔ m_writ_queue m ≠ [];
  fo_writing : isset m MSG_STAT_WRITING = true → m_writ_queue m ≠ [];
  fo_waiting : isset m MSG_STAT_WRITING = true → isset m MSG_STAT_WAITING_FOR_RESP = false;
  fo_space_writ : isset m MSG_STAT_SPACE_AVAIL_FOR_WRIT = true →
                  (length (m_writ_queue m) < MSG_N_BUFF_PACKETS_ALLOWED)%nat;
  fo_avail_read : m_read_queue m ≠ [] → isset m MSG_STAT_PACKET_AVAIL_TO_READ = true;
  fo_read_avail : isset m MSG_STAT_PACKET_AVAIL_TO_READ = true →
                  m_read_queue m ≠ [] ∨ isset m MSG_STAT_CLOSED = true;
  fo_space_read : isset m MSG_STAT_SPACE_AVAIL_FOR_READ = true →
                  (length (m_read_queue m) < MSG_N_BUFF_PACKETS_ALLOWED)%nat
}.

(** What [msg_refresh] adds: nothing that could go on waits. *)
Record msg_settled (m : msg_t) : Prop := {
  st_writ : m_writ_queue m ≠ [] →
            isset m MSG_STAT_WRITING = true ∨ isset m MSG_STAT_WAITING_FOR_RESP = true;
  st_resp : isset m MSG_STAT_NEED_TO_SEND_RESP = true →
            isset m MSG_STAT_SPACE_AVAIL_FOR_READ = false ∨ isset m MSG_STAT_DISCONNECTED = true
}.

Definition selectable_of (o : option msg_t) : Z :=
  match o with Some m => if m_selectable m then 1 else 0 | None => 0 end.

Fixpoint count_selectable (l : list (option msg_t)) : Z :=
  match l with [] => 0 | o :: l => selectable_of o + count_selectable l end.

Record shape (s : msg_switch_t) : Prop := {
  sh_msgs : length (s_msgs s) = FD_SETSIZE;
  sh_map : length (s_imsgid_map s) = FD_SETSIZE;
  sh_read : length (s_read_set s) = FD_SETSIZE;
  sh_write : length (s_write_set s) = FD_SETSIZE;
  sh_nodup : NoDup (s_pending_msgs s);
  sh_live : ∀ p, p ∈ s_pending_msgs s → ∃ m, s_msgs s !! p = Some (Some m);
  sh_id : ∀ p m, s_msgs s !! p = Some (Some m) →
          m_msgid m = p ∧ p ≠ 0%nat ∧ 0 <= m_imsgid m < Z.of_nat FD_SETSIZE;
  sh_wanted : s_connected s = true → msg_switch_has_avail_writs s = true → zs_write_set s = true;
  sh_count : n_selectable s = count_selectable (s_msgs s)
}.

(** The socket is asked for room only when there is something to send. *)
Definition interest_ok (s : msg_switch_t) : Prop :=
  zs_write_set s = true → msg_switch_has_avail_writs s = true.

(** The invariant, with the message at [focus] exempt from the flags. *)
Definition others_ok (s : msg_switch_t) (focus : nat) : Prop :=
  ∀ p m, p ≠ focus → s_msgs s !! p = Some (Some m) →
    msg_flags_ok (p ∈ s_pending_msgs s) m ∧ msg_settled m.

Record switch_inv (s : msg_switch_t) : Prop := {
  si_shape : shape s;
  si_msgs : ∀ p m, s_msgs s !! p = Some (Some m) →
    msg_flags_ok (p ∈ s_pending_msgs s) m ∧ msg_settled m
}.

(** ** Lemmas on the state *)

Lemma get_m_Done s p m : s_msgs s !! p = Some (Some m) → get_m s p = Done m.
Proof. intros H. unfold get_m. by rewrite H. Qed.

Lemma get_m_inv s p m : get_m s p = Done m → s_msgs s !! p = Some (Some m).
Proof.
  unfold get_m. destruct (s_msgs s !! p) as [[m'|]|]; simpl; intros H; congruence.
Qed.

Lemma put_m_lookup s p m0 m :
  s_msgs s !! p = Some m0 → s_msgs (put_m s p m) !! p = Some (Some m).
Proof. intros H. simpl. apply list_lookup_insert_eq. by eapply lookup_lt_Some. Qed.

Lemma put_m_lookup_ne s p q m : p ≠ q → s_msgs (put_m s p m) !! q = s_msgs s !! q.
Proof. intros H. simpl. by apply list_lookup_insert_ne. Qed.

Lemma put_m_put_m s p m m' : put_m (put_m s p m) p m' = put_m s p m'.
Proof. unfold put_m, put_msgs. simpl. by rewrite insert_twice. Qed.

Lemma count_insert l p o o' :
  l !! p = Some o →
  count_selectable (<[p := o']> l) = count_selectable l - selectable_of o + selectable_of o'.
Proof.
  revert p. induction l as [|x l IH]; intros [|p] H; simpl in *; [done|done| |].
  - injection H as ->. lia.
  - rewrite (IH p H). lia.
Qed.

(** An update of one message that keeps its identity keeps the shape. *)
Lemma shape_put_sel s p m m' :
  shape s → s_msgs s !! p = Some (Some m) → m_msgid m' = m_msgid m → m_imsgid m' = m_imsgid m →
  shape (put_n_selectable (put_m s p m')
           (n_selectable s - selectable_of (Some m) + selectable_of (Some m'))).
Proof.
  intros [H1 H2 H3 H4 H5 H6 H7 Hi H8] Hp Hid Him. split; simpl; try done.
  - by rewrite length_insert.
  - intros q Hq. destruct (decide (p = q)) as [<-|].
    + exists m'. apply list_lookup_insert_eq. by eapply lookup_lt_Some.
    + rewrite list_lookup_insert_ne by done. auto.
  - intros q mq Hq. apply list_lookup_insert_Some in Hq as [(<- & [= <-] & _)|(_ & Hq)]; [|auto].
    rewrite Hid, Him. by apply H7.
  - rewrite H8. by rewrite (count_insert _ _ _ _ Hp).
Qed.

Lemma put_n_selectable_id s : put_n_selectable s (n_selectable s) = s.
Proof. by destruct s. Qed.

Lemma shape_put_m s p m m' :
  shape s → s_msgs s !! p = Some (Some m) → m_msgid m' = m_msgid m →
  m_imsgid m' = m_imsgid m → m_selectable m' = m_selectable m → shape (put_m s p m').
Proof.
  intros Hs Hp Hid Him Hsel. pose proof (shape_put_sel s p m m' Hs Hp Hid Him) as H.
  simpl in H. rewrite Hsel in H. rewrite Z.sub_add in H. exact H.
Qed.

Lemma others_put_m s p m' : others_ok s p → others_ok (put_m s p m') p.
Proof.
  intros H q mq Hne Hq. rewrite put_m_lookup_ne in Hq by done. by apply H.
Qed.

Lemma inv_others s p : switch_inv s → others_ok s p.
Proof. intros H q m _ Hq. by apply (si_msgs _ H). Qed.

(** A message that the switch knows is in the range of the sets. *)
Lemma live_lt s p m : shape s → s_msgs s !! p = Some (Some m) → (0 < p < FD_SETSIZE)%nat.
Proof.
  intros Hs Hp. destruct (sh_id _ Hs p m Hp) as (_ & Hne & _).
  apply lookup_lt_Some in Hp. rewrite (sh_msgs _ Hs) in Hp. lia.
Qed.

Lemma msg_get_live s p m :
  shape s → s_msgs s !! p = Some (Some m) → msg_get s (Z.of_nat p) = Done (Some p).
Proof.
  intros Hs Hp. pose proof (live_lt s p m Hs Hp). unfold msg_get.
  destruct (Z.eqb_spec (Z.of_nat p) 0); [lia|]. destruct (Z.ltb_spec 0 (Z.of_nat p)); [|lia].
  rewrite Nat2Z.id, Hp. reflexivity.
Qed.

Lemma msg_get_Some s msgid p :
  msg_get s msgid = Done (Some p) → ∃ m, s_msgs s !! p = Some (Some m).
Proof.
  unfold msg_get. intros H. destruct (msgid =? 0); [discriminate|].
  destruct (0 <? msgid).
  - destruct (s_msgs s !! Z.to_nat msgid) as [[m|]|] eqn:E; simpl in H; try discriminate.
    injection H as <-. eauto.
  - destruct (s_imsgid_map s !! Z.to_nat (Z.abs msgid)) as [i|]; simpl in H; [|discriminate].
    destruct (i =? 0); [discriminate|].
    destruct (s_msgs s !! Z.to_nat i) as [[m|]|] eqn:E; simpl in H; try discriminate.
    injection H as <-. eauto.
Qed.

(** ** What the end of an operation does *)

(** From message [m] at [p] to [m'], and nothing else but the queues of the switch. *)
Record refreshed (s s' : msg_switch_t) (p : nat) (m m' : msg_t) : Prop := {
  rf_msgs : s_msgs s' = <[p := Some m']> (s_msgs s);
  rf_data : m' = with_selectable (with_status m (m_status m')) (m_selectable m');
  rf_flag : ∀ g, Z.land (Z.lor MSG_STAT_NEED_TO_SEND_RESP MSG_STAT_WRITING) g = 0 →
            isset m' g = isset m g;
  rf_map : s_imsgid_map s' = s_imsgid_map s;
  rf_interest : interest_ok s → interest_ok s';
  rf_conn : s_connected s' = s_connected s;
  rf_pend : s_pending_msgs s' = s_pending_msgs s ∨ s_pending_msgs s' = s_pending_msgs s ++ [p]
}.

Lemma FD_ISSET_Done p s : length s = FD_SETSIZE → (p < FD_SETSIZE)%nat →
  ∃ b, FD_ISSET (Z.of_nat p) s = Done b.
Proof.
  intros Hl Hp. unfold FD_ISSET. rewrite cell_Done by lia. simpl. rewrite Nat2Z.id.
  destruct (lookup_lt_is_Some_2 s p) as [b Hb]; [lia|]. rewrite Hb. simpl. eauto.
Qed.

Lemma check_selectability_Done s p m :
  shape s → s_msgs s !! p = Some (Some m) →
  ∃ b, msg_check_selectability s p
       = Done (put_n_selectable (put_m s p (with_selectable m b))
                 (n_selectable s - selectable_of (Some m)
                  + selectable_of (Some (with_selectable m b)))).
Proof.
  intros Hs Hp. pose proof (live_lt s p m Hs Hp) as Hlt.
  destruct (FD_ISSET_Done p _ (sh_read _ Hs)) as [r Hr]; [lia|].
  destruct (FD_ISSET_Done p _ (sh_write _ Hs)) as [w Hw]; [lia|].
  unfold msg_check_selectability. rewrite (get_m_Done s p m Hp), Hr, Hw.
  cbn [mbind res_bind]. simpl.
  destruct (m_selectable m) eqn:E; simpl.
  - exists false. simpl. do 2 f_equal. lia.
  - case_test; [exists true|exists false]; simpl; do 2 f_equal; [lia|].
    rewrite Z.sub_0_r, Z.add_0_r.
    replace (with_selectable m false) with m by (destruct m; simpl in *; by subst).
    destruct s; unfold put_n_selectable, put_m, put_msgs; simpl in *.
    by rewrite list_insert_id.
Qed.

Lemma has_avail_push_resp s r :
  msg_switch_has_avail_writs (msg_switch_push_resp s r) = true.
Proof.
  unfold msg_switch_has_avail_writs. simpl.
  rewrite (bool_decide_eq_false_2 (s_pending_resps s ++ [r] = [])); [apply orb_true_r|].
  by destruct (s_pending_resps s).
Qed.

Lemma has_avail_push_msg s p :
  msg_switch_has_avail_writs (msg_switch_push_writ_msg s p) = true.
Proof.
  unfold msg_switch_has_avail_writs. simpl.
  rewrite (bool_decide_eq_false_2 (s_pending_msgs s ++ [p] = [])); [done|].
  by destruct (s_pending_msgs s).
Qed.

Lemma shape_push_resp s r : shape s → shape (msg_switch_push_resp s r).
Proof.
  intros [H1 H2 H3 H4 H5 H6 H7 Hi H8]. split; simpl; try done.
Qed.

Lemma shape_push_writ s p m :
  shape s → s_msgs s !! p = Some (Some m) → p ∉ s_pending_msgs s →
  shape (msg_switch_push_writ_msg s p).
Proof.
  intros [H1 H2 H3 H4 H5 H6 H7 Hi H8] Hp Hn. split; simpl; try done.
  - apply NoDup_app. split; [done|]. split; [|apply NoDup_singleton].
    intros x Hx Hx'. apply list_elem_of_singleton in Hx' as ->. done.
  - intros q [Hq|Hq]%elem_of_app; [auto|]. apply list_elem_of_singleton in Hq as ->. eauto.
Qed.

Lemma flags_ok_iff (P Q : Prop) m : (P ↔ Q) → msg_flags_ok P m → msg_flags_ok Q m.
Proof. intros HPQ []. split; try done. by rewrite <- HPQ. Qed.

Lemma others_push_writ s p : others_ok s p → others_ok (msg_switch_push_writ_msg s p) p.
Proof.
  intros H q m Hne Hq. destruct (H q m Hne Hq) as [Hf Hs]. split; [|done].
  eapply flags_ok_iff; [|exact Hf]. simpl. rewrite elem_of_app, list_elem_of_singleton.
  split; [by left | by intros [?|?]].
Qed.

Lemma others_push_resp s r p : others_ok s p → others_ok (msg_switch_push_resp s r) p.
Proof. done. Qed.

(** Once the message itself is settled the invariant is whole. *)
Lemma inv_of_others s p m :
  shape s → others_ok s p → s_msgs s !! p = Some (Some m) →
  msg_flags_ok (p ∈ s_pending_msgs s) m → msg_settled m → switch_inv s.
Proof.
  intros Hs Ho Hp Hf Hst. split; [done|]. intros q mq Hq.
  destruct (decide (q = p)) as [->|]; [|by apply Ho].
  assert (mq = m) as -> by congruence. done.
Qed.

(** Selectability and identifiers are no part of the flags. *)
Lemma flags_ok_selectable P m b : msg_flags_ok P m → msg_flags_ok P (with_selectable m b).
Proof. intros []; by split. Qed.

Lemma settled_selectable m b : msg_settled m → msg_settled (with_selectable m b).
Proof. intros []; by split. Qed.

Lemma flags_ok_sent P m : msg_flags_ok P m → msg_flags_ok P (clr_flag MSG_STAT_NEED_TO_SEND_RESP m).
Proof. intros []. split; flags; done. Qed.

Definition resp_due (m : msg_t) : bool :=
  isset m (Z.lor MSG_STAT_NEED_TO_SEND_RESP MSG_STAT_SPACE_AVAIL_FOR_READ) &&
  negb (isset m MSG_STAT_DISCONNECTED).

Definition writ_due (m : msg_t) : bool :=
  isset m MSG_STAT_PACKET_AVAIL_TO_WRIT &&
  negb (someset m (Z.lor MSG_STAT_WAITING_FOR_RESP MSG_STAT_WRITING)).

(** The message after the answer that was due. *)
Definition answered (m : msg_t) : msg_t :=
  if resp_due m then clr_flag MSG_STAT_NEED_TO_SEND_RESP m else m.

(** The message after it was queued. *)
Definition queued (m : msg_t) : msg_t := if writ_due m then set_flag MSG_STAT_WRITING m else m.

Lemma update_status_Done s p m :
  s_msgs s !! p = Some (Some m) →
  msg_update_status s p = Done
    (let s1 := if resp_due m
               then put_m (msg_switch_push_resp s (Resp (wire_id m) MSG_RESP_OK)) p (answered m)
               else s in
     if writ_due (answered m)
     then msg_switch_push_writ_msg (put_m s1 p (queued (answered m))) p else s1).
Proof.
  intros Hp. unfold msg_update_status. rewrite (get_m_Done s p m Hp). cbn [mbind res_bind].
  fold (resp_due m). unfold answered. destruct (resp_due m) eqn:Er.
  - assert (isset m MSG_STAT_NEED_TO_SEND_RESP = true) as Hn.
    { unfold resp_due in Er. rewrite isset_lor in Er. by zbool. }
    unfold msg_send_resp, upd_m. rewrite (get_m_Done s p m Hp). cbn [mbind res_bind]. rewrite Hn.
    cbn [mbind res_bind assert negb orb Z.eqb MSG_RESP_OK Pos.eqb].
    rewrite (get_m_Done (msg_switch_push_resp s _) p m) by done. cbn [mbind res_bind].
    set (m1 := clr_flag _ m). set (s1 := put_m _ p m1).
    assert (s_msgs s1 !! p = Some (Some m1)) as Hp1 by (by eapply put_m_lookup).
    rewrite (get_m_Done s1 p m1 Hp1). cbn [mbind res_bind]. fold (writ_due m1). unfold queued.
    destruct (writ_due m1); [|done]. by rewrite ?(get_m_Done s1 p m1 Hp1).
  - cbn [mbind res_bind]. rewrite (get_m_Done s p m Hp). cbn [mbind res_bind].
    fold (writ_due m). unfold queued. destruct (writ_due m); [|done].
    unfold upd_m. by rewrite (get_m_Done s p m Hp).
Qed.

Lemma answered_ok P m : msg_flags_ok P m → msg_flags_ok P (answered m).
Proof. intros H. unfold answered. destruct (resp_due m); [by apply flags_ok_sent | done]. Qed.

Lemma writ_due_spec m :
  writ_due m = true ↔
  isset m MSG_STAT_PACKET_AVAIL_TO_WRIT = true ∧ isset m MSG_STAT_WAITING_FOR_RESP = false ∧
  isset m MSG_STAT_WRITING = false.
Proof.
  unfold writ_due. rewrite someset_resp_writing, andb_true_iff, negb_true_iff, orb_false_iff. done.
Qed.

Lemma queued_ok (P Q : Prop) m :
  msg_flags_ok P m → (Q ↔ P ∨ writ_due m = true) → msg_flags_ok Q (queued m).
Proof.
  intros [fo_p fo_w] HQ. unfold queued. destruct (writ_due m) eqn:E.
  - apply writ_due_spec in E as (Ha & Hw & Hn).
    assert Q as Hq by (apply HQ; auto).
    split; flags; try done; intros _; by apply fo_w.
  - split; try done. rewrite HQ, fo_p. split; [by left | by intros [?|?]].
Qed.

Lemma queued_answered_flag m g :
  Z.land (Z.lor MSG_STAT_NEED_TO_SEND_RESP MSG_STAT_WRITING) g = 0 →
  isset (queued (answered m)) g = isset m g.
Proof.
  intros Hff. rewrite Z.land_lor_distr_l in Hff. apply Z.lor_eq_0_iff in Hff as [H1 H2].
  unfold queued, answered. destruct (resp_due m), (writ_due _);
    rewrite ?isset_set_other, ?isset_clr_other by done; done.
Qed.

Lemma queued_settled P m : msg_flags_ok P m → msg_settled (queued (answered m)).
Proof.
  intros Hf. pose proof (answered_ok P m Hf) as Ha. split.
  - unfold queued. intros Hq. destruct (writ_due (answered m)) eqn:E; [left; by flags|].
    apply (fo_avail_writ _ _ Ha) in Hq. unfold writ_due in E. rewrite Hq, someset_resp_writing in E.
    simpl in E. apply negb_false_iff, orb_true_iff in E. tauto.
  - assert (isset (queued (answered m)) MSG_STAT_NEED_TO_SEND_RESP
            = isset (answered m) MSG_STAT_NEED_TO_SEND_RESP) as ->
      by (unfold queued; destruct (writ_due _); by flags).
    rewrite !queued_answered_flag by reflexivity. unfold answered.
    destruct (resp_due m) eqn:E; [by flags|]. intros Hn. unfold resp_due in E.
    rewrite isset_lor, Hn in E. destruct (isset m MSG_STAT_SPACE_AVAIL_FOR_READ); [|by left].
    right. by destruct (isset m MSG_STAT_DISCONNECTED).
Qed.

Lemma queued_data m : with_selectable (with_status m (m_status (queued m))) (m_selectable m) = queued m.
Proof. unfold queued. destruct (writ_due m); by destruct m. Qed.

Lemma answered_data m :
  with_selectable (with_status m (m_status (answered m))) (m_selectable m) = answered m.
Proof. unfold answered. destruct (resp_due m); by destruct m. Qed.

Lemma update_status_ok s p m :
  shape s → others_ok s p → s_msgs s !! p = Some (Some m) →
  msg_flags_ok (p ∈ s_pending_msgs s) m →
  ∃ s', msg_update_status s p = Done s' ∧ switch_inv s' ∧
        refreshed s s' p m (queued (answered m)).
Proof.
  intros Hs Ho Hp Hf. rewrite (update_status_Done s p m Hp). cbv zeta. eexists. split; [done|].
  set (s1 := if resp_due m then _ else s).
  assert (s1 = s ∧ answered m = m ∨
    s1 = put_m (msg_switch_push_resp s (Resp (wire_id m) MSG_RESP_OK)) p (answered m)) as H1.
  { unfold s1. destruct (resp_due m) eqn:E; [by right|]. left. unfold answered. by rewrite E. }
  assert (shape s1 ∧ others_ok s1 p ∧ s_msgs s1 = <[p := Some (answered m)]> (s_msgs s) ∧
          s_pending_msgs s1 = s_pending_msgs s ∧ s_imsgid_map s1 = s_imsgid_map s ∧
          s_connected s1 = s_connected s ∧ (interest_ok s → interest_ok s1))
    as (Hs1 & Ho1 & Hm1 & Hq1 & Hi1 & Hc1 & Hint1).
  { destruct H1 as [[-> ->]| ->]; [by rewrite list_insert_id|]. split_and!; try done.
    - apply shape_put_m with m; try done; try (by rewrite <- answered_data).
      by apply shape_push_resp.
    - apply others_put_m, others_push_resp, Ho.
    - intros _ _. apply has_avail_push_resp. }
  assert (s_msgs s1 !! p = Some (Some (answered m))) as Hp1
    by (rewrite Hm1; apply list_lookup_insert_eq; by eapply lookup_lt_Some).
  clearbody s1. clear H1. pose proof (answered_ok _ _ Hf) as Hfa. rewrite <- Hq1 in Hfa.
  pose proof (queued_settled _ _ Hf) as Hst.
  assert (refreshed s (if writ_due (answered m) then
    msg_switch_push_writ_msg (put_m s1 p (queued (answered m))) p else s1) p m (queued (answered m)))
    as Hr.
  { split.
    - unfold queued. destruct (writ_due (answered m)); simpl; rewrite Hm1; [|done].
      by rewrite list_insert_insert_eq.
    - rewrite <- (queued_data (answered m)), <- (answered_data m). by destruct m.
    - apply queued_answered_flag.
    - destruct (writ_due (answered m)); [done | exact Hi1].
    - intros Hi. destruct (writ_due (answered m)); [intros _; apply has_avail_push_msg | by apply Hint1].
    - destruct (writ_due (answered m)); done.
    - destruct (writ_due (answered m)); simpl; rewrite Hq1; auto. }
  split; [|done]. eapply (inv_of_others _ p (queued (answered m))); [| | | |done].
  - destruct (writ_due (answered m)) eqn:E; [|done].
    apply shape_push_writ with (queued (answered m)).
    + apply shape_put_m with (answered m); try done; by rewrite <- queued_data.
    + by eapply put_m_lookup.
    + simpl. rewrite <- (fo_pend _ _ Hfa). apply writ_due_spec in E as (_ & _ & ->). done.
  - destruct (writ_due (answered m)); [|done]. by apply others_push_writ, others_put_m.
  - rewrite (rf_msgs _ _ _ _ _ Hr). apply list_lookup_insert_eq. by eapply lookup_lt_Some.
  - eapply queued_ok; [exact Hfa|]. destruct (writ_due (answered m)) eqn:E; [|naive_solver].
    simpl. rewrite elem_of_app, list_elem_of_singleton. naive_solver.
Qed.

Lemma refresh_ok s p m :
  shape s → others_ok s p → s_msgs s !! p = Some (Some m) →
  msg_flags_ok (p ∈ s_pending_msgs s) m →
  ∃ s' m', msg_refresh s p = Done s' ∧ switch_inv s' ∧ refreshed s s' p m m'.
Proof.
  intros Hs Ho Hp Hf. unfold msg_refresh.
  destruct (check_selectability_Done s p m Hs Hp) as [b ->]. cbn [mbind res_bind].
  set (m0 := with_selectable m b). set (s0 := put_n_selectable _ _).
  assert (s_msgs s0 = <[p := Some m0]> (s_msgs s)) as Hm0 by done.
  destruct (update_status_ok s0 p m0) as (s' & -> & Hi & [R1 R2 R3 R4 R5]).
  - by apply shape_put_sel.
  - by apply others_put_m.
  - rewrite Hm0. apply list_lookup_insert_eq. by eapply lookup_lt_Some.
  - by apply flags_ok_selectable.
  - exists s', (queued (answered m0)). split_and!; [done|done|]. split; try done.
    by rewrite R1, Hm0, list_insert_insert_eq.
Qed.
