(* ===== verification/MsgStep.v ===== *)
(** msg_switch.c, third part: every operation keeps the invariant of MsgInv, and what
    each does to the queues of its message.  The exception is the disconnect of a
    message that waits in the queue of the switch while packets are still to be read, which
    [allowed] leaves out and MsgDiscon treats. *)

From Stdlib Require Import ZArith Lia String.
From S2P Require Export MsgInv.

Local Open Scope Z_scope.

(** The invariant between two operations. *)
Definition good (s : msg_switch_t) : Prop := switch_inv s ∧ interest_ok s.

Lemma good_shape s : good s → shape s.
Proof. intros [[? _] _]. done. Qed.

Lemma good_flags s p m :
  good s → s_msgs s !! p = Some (Some m) → msg_flags_ok (p ∈ s_pending_msgs s) m.
Proof. intros [[_ H] _] Hp. by apply H. Qed.

#[export] Hint Resolve good_shape : zimr.

(** Two messages that differ in what [msg_refresh] and the queues may change. *)
Definition same_identity (m m1 : msg_t) : Prop :=
  m_msgid m1 = m_msgid m ∧ m_imsgid m1 = m_imsgid m ∧ m_selectable m1 = m_selectable m.

Lemma refresh_good s p m m1 :
  shape s → others_ok s p → s_msgs s !! p = Some (Some m) → same_identity m m1 →
  msg_flags_ok (p ∈ s_pending_msgs s) m1 →
  ∃ s' m', msg_refresh (put_m s p m1) p = Done s' ∧ switch_inv s' ∧ refreshed s s' p m1 m'.
Proof.
  intros Hs Ho Hp (Hi1 & Hi2 & Hi3) Hf.
  destruct (refresh_ok (put_m s p m1) p m1) as (s' & m' & H1 & H2 & [R1 R2 R3 R4 R5 R6 R7]).
  - by apply shape_put_m with m.
  - by apply others_put_m.
  - by eapply put_m_lookup.
  - done.
  - exists s', m'. split; [done|]. split; [done|]. split; try done.
    rewrite R1. simpl. by rewrite list_insert_insert_eq.
Qed.

(** ** Queue operations *)

Definition writ_pushed (m : msg_t) (packet : msg_packet_t) : msg_t :=
  let m := with_incomplete (with_writ_queue m (m_writ_queue m ++ [packet])) None in
  let m := set_flag MSG_STAT_PACKET_AVAIL_TO_WRIT m in
  if has_packets (m_writ_queue m) MSG_N_BUFF_PACKETS_ALLOWED
  then clr_flag MSG_STAT_SPACE_AVAIL_FOR_WRIT m else m.

Definition writ_popped (m : msg_t) : msg_t :=
  let m := with_writ_queue m (tail (m_writ_queue m)) in
  let m := clr_flag MSG_STAT_WRITING (set_flag MSG_STAT_WAITING_FOR_RESP m) in
  let m := if has_packets (m_writ_queue m) MSG_N_BUFF_PACKETS_ALLOWED then m
           else set_flag MSG_STAT_SPACE_AVAIL_FOR_WRIT m in
  if has_packets (m_writ_queue m) 1 then m else clr_flag MSG_STAT_PACKET_AVAIL_TO_WRIT m.

Definition read_pushed (m : msg_t) (packet : msg_packet_t) : msg_t :=
  let m := set_flag MSG_STAT_NEED_TO_SEND_RESP (with_n_read m (m_n_read m + 1)) in
  let m := if isset m MSG_STAT_CLOSED then m
           else with_read_queue m (m_read_queue m ++ [packet]) in
  let m := set_flag MSG_STAT_PACKET_AVAIL_TO_READ m in
  if has_packets (m_read_queue m) MSG_N_BUFF_PACKETS_ALLOWED
  then clr_flag MSG_STAT_SPACE_AVAIL_FOR_READ m else m.

Definition read_popped (m : msg_t) : msg_t :=
  let m := with_cur_pos (with_read_queue m (tail (m_read_queue m))) 0 in
  let m := if has_packets (m_read_queue m) MSG_N_BUFF_PACKETS_ALLOWED then m
           else set_flag MSG_STAT_SPACE_AVAIL_FOR_READ m in
  if has_packets (m_read_queue m) 1 then m else clr_flag MSG_STAT_PACKET_AVAIL_TO_READ m.

Lemma has_packets_spec q n : has_packets q n = true ↔ (n <= length q)%nat.
Proof. apply Nat.leb_le. Qed.

Lemma has_packets_false q n : has_packets q n = false ↔ (length q < n)%nat.
Proof. apply Nat.leb_gt. Qed.

Lemma queue_length_pos {A} (q : list A) : q ≠ [] ↔ (0 < length q)%nat.
Proof. destruct q; simpl; split; intros; done || lia. Qed.

(** The flags of a queue operation: both sides speak of the length of a queue. *)
Ltac queue_flags :=
  repeat case_test; split; flags; simpl in *; rewrite ?queue_length_pos in *;
  repeat match goal with
  | H : has_packets _ _ = true |- _ => apply has_packets_spec in H; simpl in H
  | H : has_packets _ _ = false |- _ => apply has_packets_false in H; simpl in H
  end; rewrite ?length_app in *; simpl in *; unfold MSG_N_BUFF_PACKETS_ALLOWED in *;
  try done; try tauto; try (intuition (lia || congruence));
  try (intros; match goal with H : _ → ?G |- ?G => apply H; lia end).

Lemma writ_pushed_ok P m pk : msg_flags_ok P m → msg_flags_ok P (writ_pushed m pk).
Proof. intros []. unfold writ_pushed. cbv zeta. queue_flags. Qed.

Lemma writ_popped_ok P m pk q :
  msg_flags_ok P m → m_writ_queue m = pk :: q → msg_flags_ok False (writ_popped m).
Proof.
  intros [] Hq. unfold writ_popped. rewrite Hq. cbv zeta. queue_flags.
  all: rewrite Hq in *; simpl in *.
  all: first [solve [intuition lia] | split; intros; [lia | apply fo_avail_writ; lia]].
Qed.

Lemma read_popped_ok P m : msg_flags_ok P m → msg_flags_ok P (read_popped m).
Proof.
  intros []. unfold read_popped. cbv zeta. destruct (m_read_queue m) as [|pk q] eqn:E; queue_flags.
Qed.

Lemma read_pushed_ok P m pk : msg_flags_ok P m → msg_flags_ok P (read_pushed m pk).
Proof.
  intros []. unfold read_pushed. cbv zeta. queue_flags.
  intros _. right. revert Heqb0. by flags.
Qed.

Lemma push_writ_good s p m pk :
  switch_inv s → s_msgs s !! p = Some (Some m) → m_incomplete m = Some pk →
  ∃ s' m', msg_push_writ_packet s p = Done s' ∧ switch_inv s' ∧
           refreshed s s' p (writ_pushed m pk) m'.
Proof.
  intros Hs Hp Hi. unfold msg_push_writ_packet. rewrite (get_m_Done _ _ _ Hp).
  cbn [mbind res_bind]. rewrite Hi. apply (refresh_good s p m (writ_pushed m pk)).
  - apply Hs.
  - by apply inv_others.
  - done.
  - unfold writ_pushed. cbv zeta. by case_test.
  - apply writ_pushed_ok. by apply (si_msgs _ Hs).
Qed.

Lemma push_read_good s p m pk :
  shape s → others_ok s p → s_msgs s !! p = Some (Some m) →
  msg_flags_ok (p ∈ s_pending_msgs s) m →
  ∃ s' m', msg_push_read_packet s p pk = Done s' ∧ switch_inv s' ∧
           refreshed s s' p (read_pushed m pk) m'.
Proof.
  intros Hs Ho Hp Hf. unfold msg_push_read_packet. rewrite (get_m_Done _ _ _ Hp).
  cbn [mbind res_bind]. apply (refresh_good s p m (read_pushed m pk)); try done.
  - unfold read_pushed. cbv zeta. by repeat case_test.
  - by apply read_pushed_ok.
Qed.

Lemma pop_read_good s p m :
  switch_inv s → s_msgs s !! p = Some (Some m) →
  ∃ s' m', msg_pop_read_packet s p = Done s' ∧ switch_inv s' ∧
           refreshed s s' p (read_popped m) m'.
Proof.
  intros Hs Hp. unfold msg_pop_read_packet. rewrite (get_m_Done _ _ _ Hp).
  cbn [mbind res_bind]. apply (refresh_good s p m (read_popped m)); try done.
  - apply Hs.
  - by apply inv_others.
  - unfold read_popped. cbv zeta. by repeat case_test.
  - apply read_popped_ok. by apply (si_msgs _ Hs).
Qed.

(** The message has just left the queue of the switch. *)
Lemma pop_writ_good s p m pk q :
  shape s → others_ok s p → s_msgs s !! p = Some (Some m) → p ∉ s_pending_msgs s →
  msg_flags_ok True m → m_writ_queue m = pk :: q →
  ∃ s' m', msg_pop_writ_packet s p = Done (s', pk) ∧ switch_inv s' ∧
           refreshed s s' p (writ_popped m) m'.
Proof.
  intros Hs Ho Hp Hn Hf Hq. unfold msg_pop_writ_packet. rewrite (get_m_Done _ _ _ Hp).
  cbn [mbind res_bind]. rewrite Hq. cbn [mbind res_bind head deref]. 
  destruct (refresh_good s p m (writ_popped m)) as (s' & m' & E & Hi & Hr); try done.
  - unfold writ_popped. cbv zeta. by repeat case_test.
  - eapply flags_ok_iff; [|by eapply writ_popped_ok]. done.
  - exists s', m'. split; [|done]. unfold writ_popped in E. rewrite Hq in E. cbv zeta in E.
    cbv zeta. rewrite E. done.
Qed.

(** ** Sending *)

Lemma NoDup_head_tail (p : nat) q : NoDup (p :: q) → p ∉ q.
Proof. by intros [? _]%NoDup_cons. Qed.

(** The interest on the socket is dropped when the queues are empty. *)
Definition fix_interest (s : msg_switch_t) : msg_switch_t :=
  if msg_switch_has_avail_writs s then s else zs_clr_write s.

Lemma fix_interest_good s : switch_inv s → good (fix_interest s).
Proof.
  intros Hs. unfold fix_interest.
  destruct (msg_switch_has_avail_writs s) eqn:E; [split; [done|]; by intros _|].
  destruct Hs as [[H1 H2 H3 H4 H5 H6 H7 Hi H8] Hm]. split; [split; [|done]|by intros ?].
  split; try done. intros _ Ha. change (msg_switch_has_avail_writs s = true) in Ha. congruence.
Qed.

Lemma shape_pop_resp s r rs :
  shape s → s_pending_resps s = r :: rs → shape (put_pending_resps s rs).
Proof.
  intros [H1 H2 H3 H4 H5 H6 H7 Hi H8] Er. split; try done. intros Hc _. apply Hi; [done|].
  unfold msg_switch_has_avail_writs. rewrite Er. apply orb_true_r.
Qed.

Lemma shape_pop_msg s p q :
  shape s → s_pending_msgs s = p :: q → shape (put_pending_msgs s q).
Proof.
  intros [H1 H2 H3 H4 H5 H6 H7 Hi H8] Eq. rewrite Eq in *. split; try done; simpl.
  - by apply NoDup_cons in H5 as [_ ?].
  - intros r Hr. apply H6. by right.
  - intros Hc _. apply Hi; [done|]. unfold msg_switch_has_avail_writs. by rewrite Eq.
Qed.

Lemma next_frame_good s :
  switch_inv s → msg_switch_has_avail_writs s = true →
  ∃ s' f, next_frame s = Done (s', f) ∧ good s'.
Proof.
  intros Hs Ha. unfold next_frame. destruct (s_pending_resps s) as [|r rs] eqn:Er.
  - unfold msg_switch_has_avail_writs in Ha. rewrite Er in Ha. simpl in Ha.
    destruct (s_pending_msgs s) as [|p q] eqn:Eq; [discriminate|]. clear Ha.
    cbn [mbind res_bind head deref tail].
    destruct (sh_live _ (si_shape _ Hs) p) as [m Hm]; [rewrite Eq; by left|].
    pose proof (proj1 (si_msgs _ Hs p m Hm)) as Hf. rewrite Eq in Hf.
    assert (isset m MSG_STAT_WRITING = true) as Hw by (apply (fo_pend _ _ Hf); by left).
    destruct (m_writ_queue m) as [|pk w] eqn:Ew; [by destruct (fo_writing _ _ Hf Hw)|].
    pose proof (sh_nodup _ (si_shape _ Hs)) as Hnd. rewrite Eq in Hnd.
    rewrite (get_m_Done _ p m) by done. cbn [mbind res_bind].
    destruct (pop_writ_good (put_pending_msgs s q) p m pk w) as (s' & m' & -> & Hi & _); try done.
    + eapply shape_pop_msg; [apply Hs | done].
    + intros r mr Hne Hr. destruct (si_msgs _ Hs r mr Hr) as [Hfr Hsr]. split; [|done].
      eapply flags_ok_iff; [|exact Hfr]. simpl. rewrite Eq, elem_of_cons. naive_solver.
    + by apply NoDup_head_tail.
    + eapply flags_ok_iff; [|exact Hf]. split; [done|]. intros _. by left.
    + cbn [mbind res_bind]. exists (fix_interest s'), (FPack pk). split; [done|].
      by apply fix_interest_good.
  - cbn [mbind res_bind]. exists (fix_interest (put_pending_resps s rs)), (FResp r).
    split; [done|]. apply fix_interest_good. split; [|apply Hs].
    eapply shape_pop_resp; [apply Hs | done].
Qed.

(** ** Steps that do not touch the queues *)

Lemma refreshed_good s s' p m m' : interest_ok s → switch_inv s' → refreshed s s' p m m' → good s'.
Proof. intros Hi Hs Hr. split; [done|]. by apply (rf_interest _ _ _ _ _ Hr). Qed.

Lemma refreshed_here s s' p m0 m m' :
  s_msgs s !! p = Some m0 → refreshed s s' p m m' → s_msgs s' !! p = Some (Some m').
Proof.
  intros Hp Hr. rewrite (rf_msgs _ _ _ _ _ Hr). apply list_lookup_insert_eq.
  by eapply lookup_lt_Some.
Qed.

Lemma good_put s p m m1 :
  good s → s_msgs s !! p = Some (Some m) → same_identity m m1 →
  (∀ P, msg_flags_ok P m → msg_flags_ok P m1) → (msg_settled m → msg_settled m1) →
  good (put_m s p m1).
Proof.
  intros [Hs Hint] Hp (Hi1 & Hi2 & Hi3) Hf Hst. split; [|exact Hint].
  destruct (si_msgs _ Hs p m Hp) as [Hfm Hsm].
  apply (inv_of_others _ p m1); try auto.
  - apply shape_put_m with m; try done. apply Hs.
  - by apply others_put_m, inv_others.
  - by eapply put_m_lookup.
Qed.

(** Flags that say how far the connection of the message is. *)
Definition link_flag (f : Z) : Prop :=
  f = MSG_STAT_CONNECTED ∨ f = MSG_STAT_CLOSED ∨ f = MSG_STAT_SENT_DISCONNECT ∨
  f = MSG_STAT_DISCONNECTED.

Lemma good_link s p m f :
  good s → s_msgs s !! p = Some (Some m) → link_flag f → good (put_m s p (set_flag f m)).
Proof.
  intros Hs Hp Hf. apply good_put with m; try done.
  - intros P []. destruct Hf as [-> |[-> |[-> | ->]]]; split; flags; auto.
  - intros []. destruct Hf as [-> |[-> |[-> | ->]]]; split; flags; auto.
Qed.

Lemma good_push_resp s r : good s → good (msg_switch_push_resp s r).
Proof.
  intros [[Hs Hm] Hi]. split; [split|]; [by apply shape_push_resp | exact Hm |].
  intros _. apply has_avail_push_resp.
Qed.

Lemma send_discon_Done s p m :
  s_msgs s !! p = Some (Some m) →
  msg_send_resp s p MSG_RESP_DISCON
  = Done (msg_switch_push_resp s (Resp (wire_id m) MSG_RESP_DISCON)).
Proof. intros Hp. unfold msg_send_resp. by rewrite (get_m_Done _ _ _ Hp). Qed.

Lemma check_good s p m :
  good s → s_msgs s !! p = Some (Some m) →
  ∃ s' b, msg_check_selectability s p = Done s' ∧ good s' ∧
          s_msgs s' = <[p := Some (with_selectable m b)]> (s_msgs s) ∧
          s_pending_msgs s' = s_pending_msgs s ∧ s_imsgid_map s' = s_imsgid_map s ∧
          s_connected s' = s_connected s.
Proof.
  intros [[Hs Hm] Hi] Hp. destruct (check_selectability_Done s p m Hs Hp) as [b E].
  eexists _, b. split; [exact E|]. split_and!; try done. split; [|exact Hi].
  destruct (Hm p m Hp) as [Hf Hst].
  apply (inv_of_others _ p (with_selectable m b)).
  - by apply shape_put_sel.
  - intros r mr Hne Hr. simpl in Hr. rewrite list_lookup_insert_ne in Hr by done.
    by apply Hm.
  - simpl. apply list_lookup_insert_eq. by eapply lookup_lt_Some.
  - by apply flags_ok_selectable.
  - by apply settled_selectable.
Qed.

Lemma good_sets s r w h :
  good s → length r = FD_SETSIZE → length w = FD_SETSIZE → good (put_sets s r w h).
Proof. intros [[[] Hm] Hi] Hr Hw. split; [split; [split|]|]; done. Qed.

Lemma FD_SET_length fd s s' : FD_SET fd s = Done s' → length s' = length s.
Proof.
  unfold FD_SET. intros H. apply res_bind_inv in H as (p & _ & H). inv_res.
  apply length_insert.
Qed.

Lemma FD_CLR_length fd s s' : FD_CLR fd s = Done s' → length s' = length s.
Proof.
  unfold FD_CLR. intros H. apply res_bind_inv in H as (p & _ & H). inv_res.
  apply length_insert.
Qed.

Lemma get_assert_live s msgid p :
  msg_get_assert s msgid = Done p → ∃ m, s_msgs s !! p = Some (Some m).
Proof.
  unfold msg_get_assert. intros H. apply res_bind_inv in H as ([q|] & Hg & H); [|discriminate].
  injection H as <-. by eapply msg_get_Some.
Qed.

Ltac binds :=
  repeat match goal with
  | H : mbind _ ?m = Done _ |- _ =>
      let x := fresh "x" in let E := fresh "E" in
      apply res_bind_inv in H; destruct H as (x & E & H)
  | x : (_ * _)%type |- _ => destruct x
  | H : Done _ = Done _ |- _ => injection H; clear H; intros; subst
  | H : Fault _ = Done _ |- _ => discriminate H
  end.

(** The interests of the API. *)
Lemma interests_good s msgid s' :
  good s →
  msg_set_read s msgid = Done s' ∨ msg_set_write s msgid = Done s' ∨
  msg_clr_read s msgid = Done s' ∨ msg_clr_write s msgid = Done s' →
  good s' ∧ s_connected s' = s_connected s.
Proof.
  intros Hs H.
  assert (∃ p m r w h, s_msgs s !! p = Some (Some m) ∧ length r = FD_SETSIZE ∧
    length w = FD_SETSIZE ∧ msg_check_selectability (put_sets s r w h) p = Done s')
    as (p & m & r & w & h & Hp & Hr & Hw & E).
  { pose proof (good_shape _ Hs) as Hsh.
    destruct H as [H|[H|[H|H]]]; unfold msg_set_read, msg_set_write, msg_clr_read, msg_clr_write in H;
      binds; destruct (get_assert_live _ _ _ E) as [m Hm]; do 5 eexists;
      (split; [exact Hm|]); (split; [|split; [|exact H]]);
      first [apply sh_read, Hsh | apply sh_write, Hsh
            |erewrite FD_SET_length by eassumption; first [apply sh_read, Hsh | apply sh_write, Hsh]
            |erewrite FD_CLR_length by eassumption; first [apply sh_read, Hsh | apply sh_write, Hsh]]. }
  destruct (check_good (put_sets s r w h) p m) as (s1 & b & E1 & Hg & _ & _ & _ & Hc); try done.
  - by apply good_sets.
  - assert (s1 = s') as <- by congruence. done.
Qed.

(** ** Clearing and freeing *)

Lemma unqueue_spec s p :
  shape s → interest_ok s →
  let s' := unqueue s p in
  shape s' ∧ interest_ok s' ∧ s_msgs s' = s_msgs s ∧ s_imsgid_map s' = s_imsgid_map s ∧
  s_connected s' = s_connected s ∧ p ∉ s_pending_msgs s' ∧
  (∀ q, q ≠ p → q ∈ s_pending_msgs s' ↔ q ∈ s_pending_msgs s).
Proof.
  intros [H1 H2 H3 H4 H5 H6 H7 Hi H8] Hint. unfold unqueue.
  destruct (list_find (eq p) (s_pending_msgs s)) as [[i q]|] eqn:E.
  2: { apply list_find_None in E. split_and!; try done. intros Hp.
       rewrite Forall_forall in E. by apply (E p Hp). }
  apply list_find_Some in E as (Hl & <- & _).
  assert (s_pending_msgs s ≡ₚ p :: delete i (s_pending_msgs s)) as Hperm
    by (by apply delete_Permutation).
  assert (p ∉ delete i (s_pending_msgs s)) as Hn
    by (rewrite Hperm in H5; by apply NoDup_cons in H5 as [? _]).
  set (s1 := put_pending_msgs s (delete i (s_pending_msgs s))).
  assert (s_connected s1 = true → msg_switch_has_avail_writs s1 = true → zs_write_set s1 = true) as Hw.
  { intros Hc Ha. apply Hi; [done|]. unfold msg_switch_has_avail_writs in *.
    destruct (s_pending_msgs s); [by destruct i | done]. }
  assert (∀ q, q ∈ delete i (s_pending_msgs s) → q ∈ s_pending_msgs s) as Hsub
    by (intros q Hq; rewrite Hperm; by right).
  assert (shape s1) as Hs1.
  { split; simpl; try done; [|by auto]. rewrite Hperm in H5. by apply NoDup_cons in H5 as [_ ?]. }
  assert (∀ q, q ≠ p → q ∈ delete i (s_pending_msgs s) ↔ q ∈ s_pending_msgs s) as Hiff
    by (intros q Hne; rewrite Hperm at 2; rewrite elem_of_cons; naive_solver).
  destruct (msg_switch_has_avail_writs s1) eqn:Ha; [by split_and!; try done; intros _|].
  split_and!; try done. destruct Hs1. split; try done. intros _ Ha'.
  change (msg_switch_has_avail_writs s1 = true) in Ha'. congruence.
Qed.

(** The message that [msg_clear] leaves. *)
Definition cleared (m : msg_t) : msg_t :=
  clr_flag cleared_flags (with_read_queue (with_writ_queue m []) []).

Lemma cleared_ok m : msg_flags_ok False (cleared m) ∧ msg_settled (cleared m).
Proof. unfold cleared, cleared_flags. split; split; flags; simpl; done || naive_solver. Qed.

Lemma others_unqueue s s' p :
  others_ok s p → s_msgs s' = s_msgs s →
  (∀ q, q ≠ p → q ∈ s_pending_msgs s' ↔ q ∈ s_pending_msgs s) → others_ok s' p.
Proof.
  intros Ho Hm Hq q m Hne Hp. rewrite Hm in Hp. destruct (Ho q m Hne Hp) as [Hf Hs].
  split; [|done]. eapply flags_ok_iff; [|exact Hf]. symmetry. by apply Hq.
Qed.

Lemma msg_clear_good s p m :
  shape s → others_ok s p → interest_ok s → s_msgs s !! p = Some (Some m) →
  (p ∈ s_pending_msgs s → isset m MSG_STAT_WRITING = true) →
  ∃ s' b, msg_clear s p = Done s' ∧ good s' ∧ p ∉ s_pending_msgs s' ∧
          s_msgs s' = <[p := Some (with_selectable (cleared m) b)]> (s_msgs s) ∧
          s_imsgid_map s' = s_imsgid_map s ∧ s_connected s' = s_connected s.
Proof.
  intros Hs Ho Hint Hp Hpend. unfold msg_clear, upd_m.
  rewrite (get_m_Done _ _ _ Hp). cbn [mbind res_bind].
  set (m1 := with_read_queue _ _). set (s1 := put_m s p m1).
  assert (s_msgs s1 !! p = Some (Some m1)) as Hp1 by (by eapply put_m_lookup).
  assert (shape s1) as Hs1 by (by apply shape_put_m with m).
  rewrite (get_m_Done _ _ _ Hp1). cbn [mbind res_bind].
  change (isset m1 MSG_STAT_WRITING) with (isset m MSG_STAT_WRITING).
  set (s2 := if isset m MSG_STAT_WRITING then _ else _).
  assert (shape s2 ∧ interest_ok s2 ∧ s_msgs s2 = s_msgs s1 ∧ s_imsgid_map s2 = s_imsgid_map s1 ∧
    s_connected s2 = s_connected s1 ∧ p ∉ s_pending_msgs s2 ∧
    (∀ q, q ≠ p → q ∈ s_pending_msgs s2 ↔ q ∈ s_pending_msgs s1))
    as (Hs2 & Hi2 & Hm2 & Him2 & Hc2 & Hn2 & Hq2).
  { unfold s2. destruct (isset m MSG_STAT_WRITING); [by apply unqueue_spec|].
    split_and!; try done. intros Hin. by specialize (Hpend Hin). }
  clearbody s2. rewrite <- Hm2 in Hp1. rewrite (get_m_Done _ _ _ Hp1). cbn [mbind res_bind].
  change (clr_flag cleared_flags m1) with (cleared m).
  destruct (cleared_ok m) as [Hfc Hsc].
  destruct (check_good (put_m s2 p (cleared m)) p (cleared m)) as (s' & b & E & Hg & Hm & Hq & Hi & Hc).
  - split; [|exact Hi2]. apply (inv_of_others _ p (cleared m)); try done.
    + by apply shape_put_m with m1.
    + apply others_put_m. eapply others_unqueue; [|exact Hm2|exact Hq2]. by apply others_put_m.
    + by eapply put_m_lookup.
    + by eapply flags_ok_iff; [|exact Hfc].
  - by eapply put_m_lookup.
  - exists s', b. rewrite E, Hq, Hi, Hc, Hm. simpl. rewrite Him2, Hc2, Hm2. simpl.
    by rewrite !list_insert_insert_eq.
Qed.

Lemma msg_free_good s p m :
  good s → s_msgs s !! p = Some (Some m) →
  ∃ s', msg_free s p = Done s' ∧ good s' ∧ s_msgs s' = <[p := None]> (s_msgs s) ∧
        s_connected s' = s_connected s.
Proof.
  intros Hs Hp. unfold msg_free. pose proof (good_flags _ _ _ Hs Hp) as Hf.
  destruct (msg_clear_good s p m) as (s1 & b & -> & Hg & Hn & Hm & Hi & Hc); try done.
  { by apply good_shape. } { by apply inv_others, Hs. } { apply Hs. }
  { intros Hin. by apply (fo_pend _ _ Hf). }
  cbn [mbind res_bind]. set (m1 := with_selectable (cleared m) b) in *.
  assert (s_msgs s1 !! p = Some (Some m1)) as Hp1
    by (rewrite Hm; apply list_lookup_insert_eq; by eapply lookup_lt_Some).
  rewrite (get_m_Done _ _ _ Hp1). cbn [mbind res_bind]. clearbody m1.
  destruct (sh_id _ (good_shape _ Hg) _ _ Hp1) as (_ & _ & Him).
  set (s2 := if m_selectable m1 then _ else _).
  assert (∀ l, length l = FD_SETSIZE →
    good (put_msgs (put_imsgid_map s2 l) (<[p := None]> (s_msgs s2)))) as Hgood.
  { intros l Hl. assert (s_msgs s2 = s_msgs s1 ∧ s_pending_msgs s2 = s_pending_msgs s1 ∧
      s_read_set s2 = s_read_set s1 ∧ s_write_set s2 = s_write_set s1 ∧
      n_selectable s2 = n_selectable s1 - selectable_of (Some m1)) as (E1 & E2 & E3 & E4 & E5)
      by (unfold s2; simpl; destruct (m_selectable m1); split_and!; simpl; lia || done).
    assert (msg_switch_has_avail_writs s2 = msg_switch_has_avail_writs s1 ∧
      zs_write_set s2 = zs_write_set s1 ∧ s_connected s2 = s_connected s1) as (E6 & E7 & E8)
      by (unfold s2; by destruct (m_selectable m1)).
    destruct Hg as [[[H1 H2 H3 H4 H5 H6 H7 Hw H8] Hms] Hint].
    split; [split; [split|]|]; simpl; rewrite ?E1, ?E2, ?E3, ?E4, ?E5, ?length_insert; try done.
    - intros q Hq. destruct (decide (q = p)) as [->|]; [done|].
      rewrite list_lookup_insert_ne by done. by apply H6.
    - intros q mq Hq. apply list_lookup_insert_Some in Hq as [(_ & [=] & _)|(_ & Hq)]. by apply H7.
    - unfold msg_switch_has_avail_writs in *. simpl. rewrite E7, E8. rewrite <- E6 in Hw. done.
    - rewrite H8. rewrite (count_insert _ _ _ _ Hp1). simpl. lia.
    - intros q mq Hq. apply list_lookup_insert_Some in Hq as [(_ & [=] & _)|(_ & Hq)]. by apply Hms.
    - unfold interest_ok in *. unfold msg_switch_has_avail_writs in *. simpl.
      rewrite E7. rewrite <- E6 in Hint. done. }
  assert (s_imsgid_map s2 = s_imsgid_map s1 ∧ s_msgs s2 = s_msgs s1 ∧ s_connected s2 = s_connected s1)
    as (E1 & E2 & E3) by (unfold s2; by destruct (m_selectable m1)).
  assert (length (s_imsgid_map s2) = FD_SETSIZE) as Hlen
    by (rewrite E1; apply (sh_map _ (good_shape _ Hg))).
  assert (∀ l, s_connected (put_msgs (put_imsgid_map s2 l) (<[p := None]> (s_msgs s2))) = s_connected s ∧
    s_msgs (put_msgs (put_imsgid_map s2 l) (<[p := None]> (s_msgs s2))) = <[p := None]> (s_msgs s)) as Hout.
  { intros l. simpl. rewrite E3, E2, Hc, Hm. by rewrite list_insert_insert_eq. }
  clearbody s2. case_test.
  - replace s2 with (put_imsgid_map s2 (s_imsgid_map s2)) by (by destruct s2).
    cbn [mbind res_bind]. eexists. split; [done|]. split; [by apply Hgood|]. by split; apply Hout.
  - destruct (lookup_lt_is_Some_2 (s_imsgid_map s2) (Z.to_nat (Z.abs (m_imsgid m1)))) as [i Hii]; [lia|].
    rewrite Hii. cbn [mbind res_bind at_index]. eexists. split; [done|].
    split; [apply Hgood; by rewrite length_insert|]. by split; apply Hout.
Qed.

(** ** Opening *)

(** A message that was just created. *)
Definition fresh_msg (p : nat) (type : Z) : msg_t :=
  Msg p 0 type (Z.lor MSG_STAT_SPACE_AVAIL_FOR_READ MSG_STAT_SPACE_AVAIL_FOR_WRIT)
    0 0 None 0 [] [] false.

Lemma fresh_ok p type : msg_flags_ok False (fresh_msg p type).
Proof.
  split; try (split; intros H; [by vm_compute in H | by destruct H]);
    try (intros H; by vm_compute in H); intros _; simpl; unfold MSG_N_BUFF_PACKETS_ALLOWED; lia.
Qed.

Lemma avail_from_spec l i p :
  avail_from l i = Some p → ∃ j, p = (i + j)%nat ∧ l !! j = Some None.
Proof.
  revert i. induction l as [|[m|] l IH]; intros i H; simpl in H; try discriminate.
  - apply IH in H as (j & -> & Hj). exists (S j). split; [lia | done].
  - injection H as <-. exists 0%nat. split; [lia | done].
Qed.

Lemma msg_create_good s type s' p :
  good s → msg_create s type = Done (s', p) →
  good s' ∧ s_msgs s !! p = Some None ∧ p ∉ s_pending_msgs s' ∧ s_connected s' = s_connected s ∧
  ∃ b, s_msgs s' = <[p := Some (with_selectable (fresh_msg p type) b)]> (s_msgs s).
Proof.
  intros Hs H. unfold msg_create in H. binds. fold (fresh_msg p type) in *.
  apply at_index_Done in E. unfold msg_get_avail_msgid in E.
  apply avail_from_spec in E as (j & -> & Hj).
  assert (s_msgs s !! S j = Some None) as Hp by (by rewrite lookup_tail in Hj).
  change (1 + j)%nat with (S j) in *.
  assert (S j ∉ s_pending_msgs s) as Hn.
  { intros Hin. destruct (sh_live _ (good_shape _ Hs) _ Hin) as [m Hm]. congruence. }
  destruct (check_good (put_m s (S j) (fresh_msg (S j) type)) (S j) (fresh_msg (S j) type))
    as (s1 & b & E1 & Hg & Hm & Hq & _ & Hc).
  - destruct Hs as [[[H1 H2 H3 H4 H5 H6 H7 Hi H8] Hms] Hint]. split; [|exact Hint].
    apply (inv_of_others _ (S j) (fresh_msg (S j) type)).
    + split; simpl; try done.
      * by rewrite length_insert.
      * intros q Hq. rewrite list_lookup_insert_ne by congruence. by apply H6.
      * intros q mq Hq. apply list_lookup_insert_Some in Hq as [(<- & [= <-] & _)|(_ & Hq)];
          [simpl; unfold FD_SETSIZE; lia | by apply H7].
      * rewrite H8, (count_insert _ _ _ _ Hp). simpl. lia.
    + intros q mq Hne Hq. rewrite put_m_lookup_ne in Hq by done. by apply Hms.
    + by eapply put_m_lookup.
    + eapply flags_ok_iff; [|apply fresh_ok]. done.
    + split; simpl; done.
  - by eapply put_m_lookup.
  - assert (s1 = s') as <- by congruence. split; [done|]. split; [done|].
    rewrite Hq. split; [done|]. rewrite Hc. split; [done|]. exists b. rewrite Hm.
    simpl. by rewrite list_insert_insert_eq.
Qed.

Lemma msg_open_good s type s' r :
  good s → msg_open s type = Done (s', r) → good s'.
Proof.
  intros Hs H. unfold msg_open, upd_m in H. binds.
  destruct (msg_create_good _ _ _ _ Hs E) as (Hg & Hp & _ & _ & b & Hm).
  apply get_m_inv in E2. 
  pose proof (good_link _ _ _ MSG_STAT_CONNECTED Hg E2 (or_introl eq_refl)) as Hg1.
  destruct (check_good _ n _ Hg1 ltac:(by eapply put_m_lookup)) as (s1 & b1 & E3 & Hg2 & _).
  congruence.
Qed.

Lemma closed_live s o :
  (∀ p, o = Some p → ∃ m, s_msgs s !! p = Some (Some m)) → ∃ b, msg_closed s o = Done b.
Proof.
  intros H. destruct o as [p|]; simpl; [|by exists true].
  destruct (H p eq_refl) as [m Hm]. rewrite (get_m_Done _ _ _ Hm). eexists. done.
Qed.

Lemma msg_accept_good s msgid s' r :
  good s → msg_accept s msgid = Done (s', r) → good s'.
Proof.
  intros Hs H. unfold msg_accept, upd_m in H. binds.
  destruct x as [p|]; [|by binds]. destruct x0; [by binds|]. binds.
  apply get_m_inv in E1. destruct (isset x MSG_STAT_CONNECTED); [by binds|].
  destruct (isset x MSG_STAT_DISCONNECTED).
  - binds. destruct (msg_free_good s p x Hs E1) as (s1 & E3 & Hg & _). congruence.
  - binds. apply get_m_inv in E5. assert (x3 = x) as -> by congruence.
    pose proof (good_link _ _ _ MSG_STAT_CONNECTED Hs E1 (or_introl eq_refl)) as Hg1.
    eapply good_sets with (h := x1) in Hg1; [|apply sh_read, good_shape, Hs | apply sh_write, good_shape, Hs].
    destruct (check_good _ p (set_flag MSG_STAT_CONNECTED x) Hg1) as (s1 & b1 & E6 & Hg2 & _);
      [by eapply put_m_lookup|]. simpl in *. congruence.
Qed.

(** ** Writing *)

Lemma pad_packet_put s p m pk pk' :
  good s → s_msgs s !! p = Some (Some m) → m_incomplete m = Some pk →
  good (put_m s p (with_incomplete m pk')).
Proof.
  intros Hs Hp Hi. apply good_put with m; try done; [intros ? [] | intros []]; split; done.
Qed.

(** [msg_flush] on a message that the switch knows. *)
Lemma msg_flush_live s p m :
  good s → s_msgs s !! p = Some (Some m) →
  ∃ s' r, msg_flush s (Z.of_nat p) = Done (s', r) ∧ good s' ∧
  s_connected s' = s_connected s ∧
  ∃ m', s_msgs s' = <[p := Some m']> (s_msgs s) ∧
        isset m' MSG_STAT_CLOSED = isset m MSG_STAT_CLOSED ∧
        isset m' MSG_STAT_SENT_DISCONNECT = isset m MSG_STAT_SENT_DISCONNECT ∧
        m_read_queue m' = m_read_queue m.
Proof.
  intros Hs Hp. unfold msg_flush. rewrite (msg_get_live _ _ _ (good_shape _ Hs) Hp).
  cbn [mbind res_bind]. unfold msg_closed. rewrite (get_m_Done _ _ _ Hp). cbn [mbind res_bind].
  assert (s_msgs s = <[p := Some m]> (s_msgs s)) as Hid by (by rewrite list_insert_id).
  destruct (isset m MSG_STAT_CLOSED) eqn:Ec;
    [exists s, (Err EBADMSG); split_and!; try done; by exists m|].
  destruct (m_incomplete m) as [pk|] eqn:Ei;
    [|exists s, (Ret 0); split_and!; try done; by exists m].
  set (m1 := with_incomplete m (Some (pad_packet pk))).
  destruct (push_writ_good (put_m s p m1) p m1 (pad_packet pk)) as (s' & m' & -> & Hi & Hr).
  - eapply pad_packet_put; done.
  - by eapply put_m_lookup.
  - done.
  - cbn [mbind res_bind]. eexists _, _. split; [done|]. split; [eapply refreshed_good; [|done|done]|].
    + apply Hs.
    + split; [apply (rf_conn _ _ _ _ _ Hr)|]. exists m'. rewrite (rf_msgs _ _ _ _ _ Hr). simpl.
      split; [by rewrite list_insert_insert_eq|].
      rewrite !(rf_flag _ _ _ _ _ Hr) by done. rewrite (rf_data _ _ _ _ _ Hr).
      unfold writ_pushed. cbv zeta. case_test; flags; done.
Qed.

Lemma msg_flush_good s msgid s' r :
  good s → msg_flush s msgid = Done (s', r) → good s'.
Proof.
  intros Hs H. unfold msg_flush in H. binds. destruct x as [p|]; [|by binds].
  destruct x0; [by binds|]. binds. apply get_m_inv in E1.
  destruct (m_incomplete x) as [pk|] eqn:Ei; binds; [|done].
  set (m1 := with_incomplete x (Some (pad_packet pk))) in *.
  destruct (push_writ_good (put_m s p m1) p m1 (pad_packet pk)) as (s1 & m' & E9 & Hi & Hr).
  - eapply pad_packet_put; done.
  - by eapply put_m_lookup.
  - done.
  - assert (s1 = s') as <- by congruence. eapply refreshed_good; [|done|done]. apply Hs.
Qed.

Lemma packet_new_good s p m :
  good s → s_msgs s !! p = Some (Some m) →
  ∃ s' m', msg_packet_new s p = Done s' ∧ good s' ∧ s_msgs s' = <[p := Some m']> (s_msgs s) ∧
  m_incomplete m' = Some (Packet (wire_id m) 0 (m_type m) []) ∧
  m_writ_queue m' = m_writ_queue m ++ (match m_incomplete m with Some pk => [pk] | None => [] end).
Proof.
  intros Hs Hp. unfold msg_packet_new. rewrite (get_m_Done _ _ _ Hp). cbn [mbind res_bind].
  assert (∃ s1 m1, (if m_incomplete m then msg_push_writ_packet s p else Done s) = Done s1 ∧
    good s1 ∧ s_msgs s1 = <[p := Some m1]> (s_msgs s) ∧ wire_id m1 = wire_id m ∧
    m_type m1 = m_type m ∧
    m_writ_queue m1 = m_writ_queue m ++ (match m_incomplete m with Some pk => [pk] | None => [] end))
    as (s1 & m1 & -> & Hg & Hm & Hw & Ht & Hq).
  { destruct (m_incomplete m) as [pk|] eqn:Ei.
    - destruct (push_writ_good s p m pk) as (s1 & m1 & -> & Hi & Hr); [apply Hs | done | done |].
      exists s1, m1. split; [done|]. split; [eapply refreshed_good; [apply Hs|done|done]|].
      split; [apply (rf_msgs _ _ _ _ _ Hr)|]. unfold wire_id.
      rewrite (rf_data _ _ _ _ _ Hr). unfold writ_pushed. cbv zeta. destruct (has_packets _ _); done.
    - exists s, m. rewrite app_nil_r. by rewrite list_insert_id. }
  assert (s_msgs s1 !! p = Some (Some m1)) as Hp1
    by (rewrite Hm; apply list_lookup_insert_eq; by eapply lookup_lt_Some).
  cbn [mbind res_bind]. unfold upd_m. rewrite (get_m_Done _ _ _ Hp1). cbn [mbind res_bind].
  eexists _, _. split; [done|]. split; [|split; [|split]].
  - apply good_put with m1; try done; [intros ? [] | intros []]; split; done.
  - simpl. by rewrite Hm, list_insert_insert_eq.
  - simpl. by rewrite Hw, Ht.
  - simpl. done.
Qed.

Lemma write_loop_good fuel s p data s' :
  good s → write_loop fuel s p data = Done s' → good s'.
Proof.
  revert s data. induction fuel as [|fuel IH]; intros s data Hs H; [discriminate|].
  cbn [write_loop] in H. destruct data as [|c data]; [by binds|]. binds.
  apply get_m_inv in E, E2.
  assert (good x1) as Hg.
  { case_match; binds; [|done].
    destruct (packet_new_good s p x Hs E) as (s1 & m1 & E5 & Hg & _). congruence. }
  apply (IH _ _) in H; [done|].
  apply good_put with x2; try done; [intros ? [] | intros []]; split; done.
Qed.

Lemma msg_write_good s msgid buf s' r :
  good s → msg_write s msgid buf = Done (s', r) → good s'.
Proof.
  intros Hs H. unfold msg_write in H. binds. destruct x as [p|]; [|by binds].
  destruct x0; [by binds|]. binds. apply get_m_inv in E1.
  destruct (isset x MSG_STAT_DISCONNECTED); [by binds|].
  destruct (negb _); [by binds|]. binds. apply write_loop_good in E3; [done|].
  destruct (m_incomplete x); binds; [done|].
  destruct (packet_new_good s p x Hs E1) as (s1 & m1 & E5 & Hg & _). congruence.
Qed.

(** ** Reading *)

Lemma pop_read_Done_good s p s' : good s → msg_pop_read_packet s p = Done s' → good s'.
Proof.
  intros Hs H. assert (∃ m, s_msgs s !! p = Some (Some m)) as [m Hm].
  { unfold msg_pop_read_packet in H. apply res_bind_inv in H as (m & E & _).
    apply get_m_inv in E. eauto. }
  destruct (pop_read_good s p m) as (s1 & m' & E & Hi & Hr); [apply Hs | done |].
  assert (s1 = s') as <- by congruence. eapply refreshed_good; [apply Hs|done|done].
Qed.

Lemma read_loop_good fuel s p size acc s' out :
  good s → read_loop fuel s p size acc = Done (s', out) → good s'.
Proof.
  revert s size acc. induction fuel as [|fuel IH]; intros s size acc Hs H; [discriminate|].
  cbn [read_loop] in H. destruct (size =? 0)%nat; [by binds|]. binds. apply get_m_inv in E.
  destruct (_ <? _)%nat in H; [discriminate|].
  set (m1 := with_cur_pos _ _) in *.
  assert (good (put_m s p m1)) as Hg.
  { apply good_put with x; try done; [intros ? [] | intros []]; split; done. }
  destruct (_ =? _) in H; [|by eapply IH].
  binds. apply pop_read_Done_good in E1; [|done]. destruct (isset _ _); [by eapply IH in H | by binds].
Qed.

Lemma msg_read_good s msgid size s' r out :
  good s → msg_read s msgid size = Done (s', r, out) → good s'.
Proof.
  intros Hs H. unfold msg_read in H. binds. destruct x as [p|]; [|by binds].
  destruct x0; [by binds|]. binds. apply get_m_inv in E1.
  destruct (isset x MSG_STAT_PACKET_AVAIL_TO_READ).
  - binds. by eapply read_loop_good.
  - destruct (isset x MSG_STAT_DISCONNECTED); by binds.
Qed.

Lemma pop_reads_good fuel s p s' : good s → pop_reads fuel s p = Done s' → good s'.
Proof.
  revert s. induction fuel as [|fuel IH]; intros s Hs H; [discriminate|].
  cbn [pop_reads] in H. binds. case_match; [|by binds]. binds.
  apply pop_read_Done_good in E0; eauto.
Qed.

(** ** Closing *)

Lemma msg_close_good s msgid s' r :
  good s → msg_close s msgid = Done (s', r) → good s'.
Proof.
  intros Hs H. unfold msg_close, upd_m in H. binds. destruct x as [p|]; [|by binds].
  destruct x0; [by binds|]. binds.
  destruct (interests_good s msgid x Hs) as [Hg1 _]; [by auto|].
  destruct (interests_good x msgid x0 Hg1) as [Hg2 _]; [by auto|].
  apply get_m_inv in E3. destruct (_ || _).
  - binds. destruct (msg_free_good _ _ _ Hg2 E3) as (s1 & E5 & Hg & _). congruence.
  - binds. apply msg_flush_good in E4; [|done]. apply get_m_inv in E10, E6.
    assert (good (put_m m p (set_flag MSG_STAT_CLOSED x7))) as Hg3
      by (apply good_link; [done | done |]; unfold link_flag; auto).
    assert (good x4) as Hg4.
    { destruct (isset x3 MSG_STAT_PACKET_AVAIL_TO_WRIT); binds; [done|].
      destruct (_ && _).
      - destruct (msg_free_good _ _ _ Hg3 E6) as (s1 & E11 & Hg & _). congruence.
      - rewrite (send_discon_Done _ _ _ E6) in E7. binds. apply get_m_inv in E11.
        apply good_link; [by apply good_push_resp | done |]. unfold link_flag. auto. }
    by eapply pop_reads_good.
Qed.

(** ** Receiving *)

(** A new message that learns the identifier of the other side. *)
Lemma good_imsgid s p m i l :
  good s → s_msgs s !! p = Some (Some m) → 0 <= i < Z.of_nat FD_SETSIZE →
  length l = FD_SETSIZE → good (put_imsgid_map (put_m s p (with_imsgid m i)) l).
Proof.
  intros Hs Hp Hi Hl. destruct Hs as [[[H1 H2 H3 H4 H5 H6 H7 Hw H8] Hm] Hint].
  split; [|exact Hint]. destruct (Hm p m Hp) as [Hf Hst].
  apply (inv_of_others _ p (with_imsgid m i)).
  - split; simpl; try done.
    + by rewrite length_insert.
    + intros q Hq. destruct (decide (q = p)) as [->|].
      * exists (with_imsgid m i). apply list_lookup_insert_eq. by eapply lookup_lt_Some.
      * rewrite list_lookup_insert_ne by done. by apply H6.
    + intros q mq Hq. apply list_lookup_insert_Some in Hq as [(<- & [= <-] & _)|(_ & Hq)];
        [|by apply H7]. simpl. destruct (H7 p m Hp) as (? & ? & _). done.
    + rewrite H8, (count_insert _ _ _ _ Hp). simpl. lia.
  - intros q mq Hne Hq. simpl in Hq. rewrite list_lookup_insert_ne in Hq by done. by apply Hm.
  - simpl. apply list_lookup_insert_eq. by eapply lookup_lt_Some.
  - destruct Hf. by split.
  - destruct Hst. by split.
Qed.

Lemma push_read_Done_good s p pk s' :
  good s → msg_push_read_packet s p pk = Done s' → good s'.
Proof.
  intros Hs H. assert (∃ m, s_msgs s !! p = Some (Some m)) as [m Hm].
  { unfold msg_push_read_packet in H. apply res_bind_inv in H as (m & E & _).
    apply get_m_inv in E. eauto. }
  destruct (push_read_good s p m pk) as (s1 & m' & E & Hi & Hr); try done.
  - by apply good_shape.
  - by apply inv_others, Hs.
  - by apply good_flags.
  - assert (s1 = s') as <- by congruence. eapply refreshed_good; [apply Hs|done|done].
Qed.

Lemma msg_recv_packet_good s pk s' :
  good s → msg_recv_packet s pk = Done s' → good s'.
Proof.
  intros Hs H. unfold msg_recv_packet, upd_m in H. binds. destruct x as [p|].
  - by eapply push_read_Done_good.
  - binds. apply msg_create_good in E1 as (Hg & _); [|done]. apply get_m_inv in E5.
    apply at_index_Done in E3. apply lookup_lt_Some in E3 as Hlt. simpl in Hlt.
    rewrite (sh_map _ (good_shape _ Hg)) in Hlt.
    apply push_read_Done_good in H; [done|]. apply good_sets.
    + apply (good_imsgid _ _ _ (Z.abs (pk_msgid pk))
              (<[Z.to_nat (Z.abs (pk_msgid pk)) := Z.of_nat n]> (s_imsgid_map m))) in E5; [done|done|lia|].
      rewrite length_insert. apply (sh_map _ (good_shape _ Hg)).
    + apply (sh_read _ (good_shape _ Hg)).
    + apply (sh_write _ (good_shape _ Hg)).
Qed.

Lemma writ_popped_waiting m : isset (writ_popped m) MSG_STAT_WAITING_FOR_RESP = true.
Proof. unfold writ_popped. cbv zeta. repeat case_test; by flags. Qed.

(** Dropping the packets of a message that does not wait in the queue of the switch. *)
Lemma pop_writs_good fuel s p s' :
  good s → p ∉ s_pending_msgs s → pop_writs fuel s p = Done s' → good s'.
Proof.
  revert s. induction fuel as [|fuel IH]; intros s Hs Hn H; [discriminate|].
  cbn [pop_writs] in H. binds. apply get_m_inv in E.
  destruct (isset x MSG_STAT_PACKET_AVAIL_TO_WRIT); [|by binds]. binds.
  unfold msg_pop_writ_packet in E0. rewrite (get_m_Done _ _ _ E) in E0. cbn [mbind res_bind] in E0.
  binds. destruct (m_writ_queue x) as [|pk q] eqn:Eq; [discriminate|].
  pose proof (good_flags _ _ _ Hs E) as Hf.
  assert (msg_flags_ok False x) as Hf0 by (by eapply flags_ok_iff; [|exact Hf]).
  destruct (refresh_good s p x (writ_popped x)) as (s1 & m' & E3 & Hi & Hr); try done.
  - by apply good_shape.
  - by apply inv_others, Hs.
  - unfold writ_popped. cbv zeta. by repeat case_test.
  - eapply flags_ok_iff; [|by eapply writ_popped_ok]. done.
  - assert (m = s1) as ->.
    { unfold writ_popped in E3. rewrite Eq in E3. cbv zeta in E3, E2. congruence. }
    apply (IH s1); [eapply refreshed_good; [apply Hs|done|done] | | done].
    intros Hin. pose proof (refreshed_here _ _ _ _ _ _ E Hr) as Hp1.
    destruct (si_msgs _ Hi p m' Hp1) as [Hfm _]. apply (fo_pend _ _ Hfm) in Hin.
    apply (fo_waiting _ _ Hfm) in Hin. rewrite (rf_flag _ _ _ _ _ Hr), writ_popped_waiting in Hin; done.
Qed.

(** The disconnect that the source gets wrong: packets are still to be read, and the
    message waits in the queue of the switch. *)
Definition discon_unsafe (s : msg_switch_t) (p : nat) : Prop :=
  ∃ m, s_msgs s !! p = Some (Some m) ∧ isset m MSG_STAT_SENT_DISCONNECT = false ∧
       isset m MSG_STAT_PACKET_AVAIL_TO_READ = true ∧ p ∈ s_pending_msgs s.

Lemma get_put_m s p m0 m : s_msgs s !! p = Some m0 → get_m (put_m s p m) p = Done m.
Proof. intros H. apply get_m_Done. by eapply put_m_lookup. Qed.

(** The message once it knows that the other side is gone. *)
Definition gone (m : msg_t) : msg_t :=
  with_imsgid (set_flag MSG_STAT_DISCONNECTED (set_flag MSG_STAT_SENT_DISCONNECT m)) 0.

(** The state before the queues are dropped. *)
Lemma gone_good s p m :
  good s → s_msgs s !! p = Some (Some m) → isset m MSG_STAT_SENT_DISCONNECT = false →
  ∃ s1, good s1 ∧ s_msgs s1 !! p = Some (Some (gone m)) ∧ s_pending_msgs s1 = s_pending_msgs s ∧
    zs_write_set s1 = true ∧ msg_recv_discon s p =
      if negb (isset (gone m) MSG_STAT_PACKET_AVAIL_TO_READ) then msg_clear s1 p
      else pop_writs (S (S (length (m_writ_queue m)))) s1 p.
Proof.
  intros Hs Hp Hn. set (r := Resp (wire_id m) MSG_RESP_DISCON).
  set (s0 := msg_switch_push_resp s r).
  assert (good s0) as Hg0 by (by apply good_push_resp).
  set (m1 := set_flag MSG_STAT_SENT_DISCONNECT m). set (m2 := set_flag MSG_STAT_DISCONNECTED m1).
  assert (good (put_m s0 p m1)) as Hg1 by (apply good_link; [done|done|unfold link_flag; auto]).
  assert (s_msgs (put_m s0 p m1) !! p = Some (Some m1)) as Hp1 by (by eapply put_m_lookup).
  pose proof (good_link _ _ _ MSG_STAT_DISCONNECTED Hg1 Hp1 ltac:(unfold link_flag; auto)) as Hg2.
  fold m2 in Hg2. rewrite put_m_put_m in Hg2.
  assert (s_msgs (put_m s0 p m2) !! p = Some (Some m2)) as Hp2 by (by eapply put_m_lookup).
  destruct (sh_id _ (good_shape _ Hs) _ _ Hp) as (_ & _ & Him).
  set (l := <[Z.to_nat (m_imsgid m) := 0]> (s_imsgid_map s)).
  assert (length l = FD_SETSIZE) as Hl
    by (unfold l; rewrite length_insert; apply (sh_map _ (good_shape _ Hs))).
  pose proof (good_imsgid _ _ _ 0 l Hg2 Hp2 ltac:(unfold FD_SETSIZE; lia) Hl) as Hg3.
  fold (gone m) in Hg3. rewrite put_m_put_m in Hg3.
  exists (put_imsgid_map (put_m s0 p (gone m)) l). split; [done|]. split; [by eapply put_m_lookup|].
  split; [done|]. split; [done|]. unfold msg_recv_discon, upd_m. rewrite (get_m_Done _ _ _ Hp).
  cbn [mbind res_bind]. rewrite Hn, (send_discon_Done _ _ _ Hp). cbn [mbind res_bind]. fold r s0.
  rewrite (get_m_Done s0 p m Hp). cbn [mbind res_bind]. fold m1.
  rewrite (get_m_Done _ _ _ Hp1). cbn [mbind res_bind]. fold m2. rewrite put_m_put_m.
  rewrite (get_m_Done _ _ _ Hp2). cbn [mbind res_bind].
  destruct (lookup_lt_is_Some_2 (s_imsgid_map s) (Z.to_nat (m_imsgid m))) as [i Hi].
  { rewrite (sh_map _ (good_shape _ Hs)). lia. }
  change (s_imsgid_map (put_m s0 p m2)) with (s_imsgid_map s).
  change (m_imsgid m2) with (m_imsgid m). rewrite Hi. cbn [mbind res_bind at_index]. fold l.
  rewrite (get_m_Done (put_imsgid_map (put_m s0 p m2) l) p m2 Hp2). cbn [mbind res_bind].
  replace (put_m (put_imsgid_map (put_m s0 p m2) l) p (with_imsgid m2 0))
    with (put_imsgid_map (put_m s0 p (gone m)) l)
    by (unfold put_imsgid_map, put_m, put_msgs; simpl; by rewrite list_insert_insert_eq).
  rewrite (get_m_Done _ p (gone m)); [done|]. by eapply put_m_lookup.
Qed.

Lemma msg_recv_discon_good s p s' :
  good s → ¬ discon_unsafe s p → msg_recv_discon s p = Done s' → good s'.
Proof.
  intros Hs Hsafe H. assert (∃ m, s_msgs s !! p = Some (Some m)) as [m Hp].
  { unfold msg_recv_discon in H. apply res_bind_inv in H as (m & E & _).
    apply get_m_inv in E. eauto. }
  destruct (isset m MSG_STAT_SENT_DISCONNECT) eqn:Es.
  { unfold msg_recv_discon in H. rewrite (get_m_Done _ _ _ Hp) in H. cbn [mbind res_bind] in H.
    rewrite Es in H. destruct (msg_free_good _ _ _ Hs Hp) as (s1 & E1 & Hg & _). congruence. }
  destruct (gone_good s p m Hs Hp Es) as (s1 & Hg & Hp1 & Hq & _ & E). rewrite E in H. clear E.
  assert (isset (gone m) MSG_STAT_PACKET_AVAIL_TO_READ = isset m MSG_STAT_PACKET_AVAIL_TO_READ) as Er
    by (unfold gone; by flags).
  rewrite Er in H. destruct (isset m MSG_STAT_PACKET_AVAIL_TO_READ) eqn:Ea; cbn [negb] in H.
  - eapply pop_writs_good; [exact Hg| |exact H]. intros Hin. apply Hsafe. exists m.
    rewrite <- Hq. done.
  - destruct (msg_clear_good s1 p (gone m)) as (s2 & b & E & Hg2 & _); try done.
    + by apply good_shape.
    + by apply inv_others, Hg.
    + apply Hg.
    + apply (fo_pend _ _ (good_flags _ _ _ Hg Hp1)).
    + congruence.
Qed.

Lemma clr_waiting_ok P m : msg_flags_ok P m → msg_flags_ok P (clr_flag MSG_STAT_WAITING_FOR_RESP m).
Proof. intros []. split; flags; auto. Qed.

(** The answer to a packet, on the message it is for. *)
Lemma recv_ok_live s p m resp msgid :
  good s → r_status resp ≠ MSG_RESP_DISCON → msg_get s msgid = Done (Some p) → s_msgs s !! p = Some (Some m) →
  isset m MSG_STAT_SENT_DISCONNECT = true ∨ isset m MSG_STAT_WAITING_FOR_RESP = true →
  ∃ s', msg_recv_resp s msgid resp = Done s' ∧ good s'.
Proof.
  intros Hs Hok Hget Hp Hwait. unfold msg_recv_resp, msg_get_assert, upd_m. rewrite Hget. cbn [mbind res_bind].
  destruct (Z.eqb_spec (r_status resp) MSG_RESP_DISCON) as [|_]; [done|]. rewrite (get_m_Done _ _ _ Hp).
  cbn [mbind res_bind]. destruct (isset m MSG_STAT_SENT_DISCONNECT); [by exists s|].
  destruct Hwait as [|Hwait]; [done|]. rewrite Hwait. cbn [assert mbind res_bind].
  set (m1 := clr_flag MSG_STAT_WAITING_FOR_RESP m) in *.
  assert (s_msgs (put_m s p m1) !! p = Some (Some m1)) as Hp1 by (by eapply put_m_lookup).
  rewrite (get_m_Done _ _ _ Hp1). cbn [mbind res_bind]. pose proof (good_flags _ _ _ Hs Hp) as Hf.
  destruct (isset m1 MSG_STAT_PACKET_AVAIL_TO_WRIT) eqn:Ea.
  - cbn [mbind res_bind]. destruct (refresh_good s p m m1) as (s1 & m' & E & Hi & Hr); try done.
    + by apply good_shape.
    + by apply inv_others, Hs.
    + by apply clr_waiting_ok.
    + exists s1. split; [done|]. eapply refreshed_good; [apply Hs|done|done].
  - assert (good (put_m s p m1)) as Hg1.
    { apply good_put with m; try done; [intros P; apply clr_waiting_ok|].
      intros []. split; unfold m1; flags; [|done]. intros Hq.
      apply (fo_avail_writ _ _ Hf) in Hq. unfold m1 in Ea. revert Ea. flags. congruence. }
    destruct (sh_id _ (good_shape _ Hg1) _ _ Hp1) as (Hid & _). rewrite Hid.
    destruct (msg_flush_live _ _ _ Hg1 Hp1) as (s2 & r & -> & Hg2 & _ & m2 & Hm2 & _). cbn [mbind res_bind].
    assert (s_msgs s2 !! p = Some (Some m2)) as Hp2
      by (rewrite Hm2; apply list_lookup_insert_eq; by eapply lookup_lt_Some).
    rewrite (get_m_Done _ _ _ Hp2). cbn [mbind res_bind].
    assert (∃ s3 m3, (if negb (isset m2 MSG_STAT_PACKET_AVAIL_TO_WRIT) && isset m2 MSG_STAT_CLOSED then
      s ← msg_send_resp s2 p MSG_RESP_DISCON; m ← get_m s p; Done (put_m s p (set_flag MSG_STAT_SENT_DISCONNECT m))
      else Done s2) = Done s3 ∧ good s3 ∧ s_msgs s3 !! p = Some (Some m3)) as (s3 & m3 & -> & Hg3 & Hp3).
    { destruct (_ && _); [|by exists s2, m2]. rewrite (send_discon_Done _ _ _ Hp2). cbn [mbind res_bind].
      rewrite (get_m_Done (msg_switch_push_resp s2 _) p m2 Hp2). cbn [mbind res_bind].
      eexists _, _. split; [done|]. split; [|by eapply put_m_lookup].
      apply good_link; [by apply good_push_resp | done | unfold link_flag; auto]. }
    cbn [mbind res_bind]. destruct (refresh_ok s3 p m3) as (s4 & m' & E4 & Hi & Hr); try done.
    + by apply good_shape.
    + by apply inv_others, Hg3.
    + by apply good_flags.
    + exists s4. split; [done|]. eapply refreshed_good; [apply Hg3|done|done].
Qed.

Lemma recv_ok_good s p resp msgid s' :
  good s → r_status resp ≠ MSG_RESP_DISCON → msg_get s msgid = Done (Some p) →
  msg_recv_resp s msgid resp = Done s' → good s'.
Proof.
  intros Hs Hok Hget H. destruct (msg_get_Some _ _ _ Hget) as [m Hp].
  assert (isset m MSG_STAT_SENT_DISCONNECT = true ∨ isset m MSG_STAT_WAITING_FOR_RESP = true) as Hwait.
  { unfold msg_recv_resp, msg_get_assert in H. rewrite Hget in H. cbn [mbind res_bind] in H.
    destruct (Z.eqb_spec (r_status resp) MSG_RESP_DISCON) as [|_]; [done|]. rewrite (get_m_Done _ _ _ Hp) in H.
    cbn [mbind res_bind] in H. destruct (isset m MSG_STAT_SENT_DISCONNECT); [by left|]. right.
    by destruct (isset m MSG_STAT_WAITING_FOR_RESP). }
  destruct (recv_ok_live _ _ _ _ _ Hs Hok Hget Hp Hwait) as (s1 & E & Hg). congruence.
Qed.

(** A frame from the other side. *)
Lemma handle_frame_good s f s' :
  good s →
  (∀ r p, f = FResp r → r_status r = MSG_RESP_DISCON → msg_get s (r_msgid r) = Done (Some p) →
          ¬ discon_unsafe s p) →
  handle_frame s f = Done s' → good s'.
Proof.
  intros Hs Hsafe H. destruct f as [r|pk]; simpl in H; [|by eapply msg_recv_packet_good].
  apply res_bind_inv in H as (o & E & H). destruct o as [p|]; [|by binds].
  destruct (decide (r_status r = MSG_RESP_DISCON)) as [Hd|Hd]; [|by eapply recv_ok_good].
  unfold msg_recv_resp, msg_get_assert in H. rewrite E in H. cbn [mbind res_bind] in H.
  rewrite Hd in H. eapply msg_recv_discon_good; [done | by eapply Hsafe | done].
Qed.

(** ** Reachable states *)

(** What happens to a switch: calls of the API, frames that arrive, frames that are
    sent when the socket has room, and the failure of the socket. *)
Inductive op :=
| OpOpen (type : Z)
| OpAccept (msgid : Z)
| OpWrite (msgid : Z) (buf : bytes)
| OpFlush (msgid : Z)
| OpRead (msgid : Z) (size : nat)
| OpClose (msgid : Z)
| OpSetRead (msgid : Z)
| OpClrRead (msgid : Z)
| OpSetWrite (msgid : Z)
| OpClrWrite (msgid : Z)
| OpFrame (f : frame)
| OpSend
| OpFail (code : Z).

Definition exec (s : msg_switch_t) (o : op) : res msg_switch_t :=
  match o with
  | OpOpen type => '(s, _) ← msg_open s type; Done s
  | OpAccept msgid => '(s, _) ← msg_accept s msgid; Done s
  | OpWrite msgid buf => '(s, _) ← msg_write s msgid buf; Done s
  | OpFlush msgid => '(s, _) ← msg_flush s msgid; Done s
  | OpRead msgid size => '(s, _, _) ← msg_read s msgid size; Done s
  | OpClose msgid => '(s, _) ← msg_close s msgid; Done s
  | OpSetRead msgid => msg_set_read s msgid
  | OpClrRead msgid => msg_clr_read s msgid
  | OpSetWrite msgid => msg_set_write s msgid
  | OpClrWrite msgid => msg_clr_write s msgid
  | OpFrame f => handle_frame s f
  | OpSend => '(s, _) ← next_frame s; Done s
  | OpFail code => Done (fst (msg_switch_failed s code))
  end.

Fixpoint exec_all (s : msg_switch_t) (os : list op) : res msg_switch_t :=
  match os with [] => Done s | o :: os => s ← exec s o; exec_all s os end.

(** The disconnect that breaks the switch is left out, and the loop sends only when the
    socket was asked. *)
Definition allowed (s : msg_switch_t) (o : op) : Prop :=
  match o with
  | OpFrame (FResp r) => r_status r = MSG_RESP_DISCON →
      ∀ p, msg_get s (r_msgid r) = Done (Some p) → ¬ discon_unsafe s p
  | OpSend => zs_write_set s = true
  | _ => True
  end.

Inductive reachable (fd : Z) : msg_switch_t → Prop :=
| reachable_new : reachable fd (msg_switch_new fd 0)
| reachable_op s o s' :
    reachable fd s → allowed s o → exec s o = Done s' → reachable fd s'.

Lemma count_none n : count_selectable (replicate n None) = 0.
Proof. induction n; simpl; lia. Qed.

Lemma new_good fd : good (msg_switch_new fd 0).
Proof.
  assert (∀ p m, s_msgs (msg_switch_new fd 0) !! p ≠ Some (Some m)) as Hno.
  { intros p m H. apply lookup_replicate in H as [[=] _]. }
  split; [split; [split|]|].
  - apply length_replicate.
  - apply length_replicate.
  - apply length_replicate.
  - apply length_replicate.
  - apply NoDup_nil_2.
  - intros p H. by apply elem_of_nil in H.
  - intros p m H. by destruct (Hno p m).
  - intros _ H. discriminate.
  - symmetry. apply (count_none FD_SETSIZE).
  - intros p m H. by destruct (Hno p m).
  - intros H. discriminate.
Qed.

Lemma failed_good s code : good s → good (fst (msg_switch_failed s code)).
Proof. intros [[[] Hm] Hi]. split; [split; [split|]|]; done. Qed.

Lemma exec_good s o s' : good s → allowed s o → exec s o = Done s' → good s'.
Proof.
  intros Hs Ha H. destruct o; simpl in H; binds.
  - by eapply msg_open_good.
  - by eapply msg_accept_good.
  - by eapply msg_write_good.
  - by eapply msg_flush_good.
  - by eapply msg_read_good.
  - by eapply msg_close_good.
  - eapply interests_good; eauto.
  - eapply interests_good; eauto.
  - eapply interests_good; eauto.
  - eapply interests_good; eauto.
  - eapply handle_frame_good; [done| |done]. intros r p -> Hd Hg. by apply Ha.
  - destruct (next_frame_good s) as (s1 & f1 & E1 & Hg); [apply Hs | by apply (proj2 Hs) |].
    congruence.
  - exact (failed_good s code Hs).
Qed.

Lemma reachable_good fd s : reachable fd s → good s.
Proof. induction 1; [apply new_good | by eapply exec_good]. Qed.

(** The witness' switch has a message whose packet was flushed. *)
Definition sample_ops : list op := [OpOpen 1; OpWrite 1 (str "x"%string); OpFlush 1].

Lemma exec_all_reachable fd s os s' :
  reachable fd s → Forall (λ o, ∀ s, allowed s o) os → exec_all s os = Done s' → reachable fd s'.
Proof.
  intros Hr Ha. revert s Hr. induction Ha as [|o os Ho _ IH]; intros s Hr H; simpl in H.
  - by injection H as <-.
  - apply res_bind_inv in H as (s1 & E & H). eapply IH; [|done].
    eapply reachable_op; [done | apply Ho | done].
Qed.

(** A reachable state that is found by running it. *)
Lemma exec_sample os p (P : msg_switch_t → msg_t → bool) :
  Forall (λ o, ∀ s, allowed s o) os →
  (match exec_all (msg_switch_new 3 0) os with
   | Done s => match s_msgs s !! p with Some (Some m) => P s m | _ => false end
   | Fault _ => false
   end) = true →
  ∃ s m, exec_all (msg_switch_new 3 0) os = Done s ∧ reachable 3 s ∧
         s_msgs s !! p = Some (Some m) ∧ P s m = true.
Proof.
  intros Ha H. destruct (exec_all (msg_switch_new 3 0) os) as [s|] eqn:E; [|done].
  destruct (s_msgs s !! p) as [[m|]|] eqn:Hm; try done. exists s, m. split_and!; try done.
  eapply exec_all_reachable; [apply reachable_new | exact Ha | exact E].
Qed.

(** ** Properties *)

(** C21: in a state that a switch comes to without the disconnect of a message that has
    packets to read and waits in the queue of the switch ([reachable], whose steps are
    [allowed]; after such a disconnect, [discon_unsafe], the property fails, see
    MsgDiscon), in which the socket was asked for room, the send handler finds a frame to
    send, a queued answer or the next packet of the first waiting message, without an
    access through NULL or to a freed message, and leaves a state of the same kind in which
    the interest in room is kept exactly when there is more. *)
Theorem msg_switch_send_safe fd s :
  reachable fd s → zs_write_set s = true →
  ∃ s' f, next_frame s = Done (s', f) ∧ reachable fd s' ∧
          (zs_write_set s' = true → msg_switch_has_avail_writs s' = true) ∧
          (s_connected s' = true → msg_switch_has_avail_writs s' = true → zs_write_set s' = true).
Proof.
  intros Hr Hw. pose proof (reachable_good _ _ Hr) as Hg.
  destruct (next_frame_good s) as (s' & f & E & Hg'); [apply Hg | by apply (proj2 Hg) |].
  exists s', f. split; [done|]. split; [|split; [apply Hg' | apply sh_wanted, good_shape, Hg']].
  eapply (reachable_op _ s OpSend); [done|done|]. simpl. by rewrite E.
Qed.

Lemma msg_switch_send_safe_witness :
  ∃ s, exec_all (msg_switch_new 3 0) sample_ops = Done s ∧ zs_write_set s = true ∧
       ∃ s' f, next_frame s = Done (s', f).
Proof.
  destruct (exec_sample sample_ops 1 (λ s _, zs_write_set s)) as (s & m & E & Hr & _ & Hw);
    [repeat constructor | vm_compute; reflexivity|].
  exists s. split; [done|]. split; [done|].
  destruct (msg_switch_send_safe 3 s Hr Hw) as (s' & f & H & _). by exists s', f.
Defined.

(** C22: flow control.  In every state that a switch comes to without the disconnect of a
    message that has packets to read and waits in the queue of the switch ([reachable],
    which leaves [discon_unsafe] out: after it the message waits with nothing to send, see
    MsgDiscon), a message with packets to send waits once in the queue of the switch, with
    the socket asked for room, or waits for the answer to its last packet, never both; it
    offers room only while fewer than two packets are queued; an answer is held back only while the read buffer is full
    or the message is disconnected; and the static counter is the number of selectable
    messages. *)
Theorem msg_switch_flow_control fd s p m :
  reachable fd s → s_msgs s !! p = Some (Some m) →
  (m_writ_queue m ≠ [] → p ∈ s_pending_msgs s ∨ isset m MSG_STAT_WAITING_FOR_RESP = true) ∧
  (p ∈ s_pending_msgs s →
     m_writ_queue m ≠ [] ∧ isset m MSG_STAT_WAITING_FOR_RESP = false ∧
     (s_connected s = true → zs_write_set s = true)) ∧
  NoDup (s_pending_msgs s) ∧
  (isset m MSG_STAT_SPACE_AVAIL_FOR_WRIT = true → (length (m_writ_queue m) < 2)%nat) ∧
  (isset m MSG_STAT_NEED_TO_SEND_RESP = true →
     isset m MSG_STAT_SPACE_AVAIL_FOR_READ = false ∨ isset m MSG_STAT_DISCONNECTED = true) ∧
  n_selectable s = count_selectable (s_msgs s).
Proof.
  intros Hr Hp. pose proof (reachable_good _ _ Hr) as [[Hs Hm] Hi].
  destruct (Hm p m Hp) as [Hf Hst]. split_and!; try apply Hf; try apply Hst; try apply Hs.
  - intros Hq. destruct (st_writ _ Hst Hq) as [Hw|Hw]; [left; by apply (fo_pend _ _ Hf) | by right].
  - intros Hin. pose proof (proj2 (fo_pend _ _ Hf) Hin) as Hw. split_and!.
    + by apply (fo_writing _ _ Hf).
    + by apply (fo_waiting _ _ Hf).
    + intros Hc. apply (sh_wanted _ Hs Hc). unfold msg_switch_has_avail_writs.
      destruct (s_pending_msgs s); [by apply elem_of_nil in Hin | done].
Qed.

Lemma msg_switch_flow_control_witness :
  ∃ s m, exec_all (msg_switch_new 3 0) sample_ops = Done s ∧ s_msgs s !! 1%nat = Some (Some m) ∧
         m_writ_queue m ≠ [] ∧
         (1%nat ∈ s_pending_msgs s ∨ isset m MSG_STAT_WAITING_FOR_RESP = true).
Proof.
  destruct (exec_sample sample_ops 1 (λ _ m, negb (bool_decide (m_writ_queue m = []))))
    as (s & m & E & Hr & Hm & Hq); [repeat constructor | vm_compute; reflexivity|].
  apply negb_true_iff, bool_decide_eq_false in Hq. exists s, m. split_and!; [done|done|done|].
  by apply (msg_switch_flow_control 3 s 1 m Hr Hm).
Defined.

(** Closing a message on which nothing was ever written or read frees it and then
    reads its flags. *)
Theorem msg_close_unused_use_after_free :
  exec_all (msg_switch_new 3 0) [OpOpen 1; OpClose 1] = Fault UseAfterFree.
Proof. vm_compute. reflexivity. Qed.

(** [msg_flush] does not look at a disconnect, and the packet that was being filled outlives
    it: after the other end closed the message, a flush sends the packet under the old
    identifier, and the assertion of the switch that has freed it fails. *)
Theorem msg_flush_after_discon :
  ∃ s s' pk, exec_all (msg_switch_new 3 0)
    [OpFrame (FPack (Packet (-1) 1 1 (replicate PACK_DATA_SIZE 0))); OpAccept 1; OpRead 1 1; OpWrite 1 (str "x"%string);
     OpFrame (FResp (Resp (-1) MSG_RESP_DISCON)); OpFlush 1; OpSend; OpSend] = Done s ∧
    next_frame s = Done (s', FPack pk) ∧ pk_msgid pk = 1 ∧
    ∀ t, s_msgs t !! 1%nat = Some None → handle_frame t (FPack pk) = Fault AssertFailed.
Proof.
  set (ops := [_; _; _; _; _; _; _; _]).
  assert (match exec_all (msg_switch_new 3 0) ops with
          | Done s => match next_frame s with Done (_, FPack pk) => pk_msgid pk =? 1 | _ => false end
          | Fault _ => false
          end = true) as H by (vm_compute; reflexivity).
  destruct (exec_all (msg_switch_new 3 0) ops) as [s|]; [|done].
  destruct (next_frame s) as [[s' [r|pk]]|] eqn:E; try done. apply Z.eqb_eq in H. exists s, s', pk. split_and!; try done.
  intros t Ht. cbn. unfold msg_recv_packet, msg_get. rewrite H. cbn [Z.eqb Z.ltb Z.compare]. change (Z.to_nat 1) with 1%nat. by rewrite Ht.
Qed.
