(* ===== verification/MsgDiscon.v ===== *)
(** msg_switch.c: the disconnect that the source gets wrong.  The packets of a message that
    is still to be read are dropped, but the message stays in the queue of the switch; what
    the switch sends then leads to it, and follows NULL. *)

From Stdlib Require Import ZArith Lia String.
From stdpp Require Import relations.
From S2P Require Export MsgStep.

Local Open Scope Z_scope.

(** ** A packet leaves a message that is neither answered nor queued again *)

Lemma put_sel_others s q m' n r mr :
  r ≠ q → s_msgs (put_n_selectable (put_m s q m') n) !! r = Some (Some mr) → s_msgs s !! r = Some (Some mr).
Proof. intros Hne H. cbn in H. by rewrite list_lookup_insert_ne in H. Qed.

Lemma pop_quiet s q m pk w :
  shape s → s_msgs s !! q = Some (Some m) → m_writ_queue m = pk :: w → resp_due (writ_popped m) = false →
  ∃ b n, let s' := put_n_selectable (put_m s q (with_selectable (writ_popped m) b)) n in
    msg_pop_writ_packet s q = Done (s', pk) ∧ shape s'.
Proof.
  intros Hs Hq Hw Hr. assert (same_identity m (writ_popped m)) as (Hi1 & Hi2 & Hi3).
  { unfold writ_popped. cbv zeta. by repeat case_test. }
  pose proof (shape_put_m s q m (writ_popped m) Hs Hq Hi1 Hi2 Hi3) as Hs1.
  assert (s_msgs (put_m s q (writ_popped m)) !! q = Some (Some (writ_popped m))) as Hq1 by (by eapply put_m_lookup).
  destruct (check_selectability_Done _ _ _ Hs1 Hq1) as [b E]. exists b. rewrite put_m_put_m in E. eexists. cbv zeta.
  split; [|rewrite <- (put_m_put_m s q (writ_popped m)); by apply (shape_put_sel _ q (writ_popped m))].
  set (s1 := put_n_selectable _ _) in *. set (m1 := with_selectable (writ_popped m) b) in *.
  assert (msg_refresh (put_m s q (writ_popped m)) q = Done s1) as Href.
  { unfold msg_refresh. rewrite E. cbn [mbind res_bind]. rewrite (update_status_Done s1 q m1).
    2:{ cbn. apply list_lookup_insert_eq. by eapply lookup_lt_Some. }
    cbv zeta. unfold answered. change (resp_due m1) with (resp_due (writ_popped m)). rewrite Hr.
    assert (writ_due m1 = false) as ->; [|done].
    change (writ_due (writ_popped m) = false). destruct (writ_due _) eqn:Ed; [|done].
    apply writ_due_spec in Ed as (_ & Ed & _). by rewrite writ_popped_waiting in Ed. }
  clearbody s1. clear E. unfold writ_popped in Href. rewrite Hw in Href. cbv zeta in Href.
  unfold msg_pop_writ_packet. rewrite (get_m_Done _ _ _ Hq). cbn [mbind res_bind].
  rewrite Hw. cbn [mbind res_bind head deref]. cbv zeta. by rewrite Href.
Qed.

(** ** The packets are dropped *)

(** The message at [p] waits in the queue of the switch, and the other side is gone. *)
Record dropping (s : msg_switch_t) (p : nat) (m : msg_t) : Prop := {
  dr_shape : shape s;
  dr_others : others_ok s p;
  dr_msg : s_msgs s !! p = Some (Some m);
  dr_gone : isset m MSG_STAT_DISCONNECTED = true;
  dr_avail : isset m MSG_STAT_PACKET_AVAIL_TO_WRIT = true ↔ m_writ_queue m ≠ []
}.

Lemma writ_popped_gone m :
  isset m MSG_STAT_DISCONNECTED = true → isset (writ_popped m) MSG_STAT_DISCONNECTED = true.
Proof. intros H. unfold writ_popped. cbv zeta. repeat case_test; by flags. Qed.

Lemma writ_popped_queue m : m_writ_queue (writ_popped m) = tail (m_writ_queue m).
Proof. unfold writ_popped. cbv zeta. by repeat case_test. Qed.

Lemma writ_popped_avail m :
  isset m MSG_STAT_PACKET_AVAIL_TO_WRIT = true →
  isset (writ_popped m) MSG_STAT_PACKET_AVAIL_TO_WRIT = true ↔ tail (m_writ_queue m) ≠ [].
Proof.
  intros H. unfold writ_popped. cbv zeta. rewrite queue_length_pos. queue_flags.
Qed.

Lemma pop_dropping s p m pk w :
  dropping s p m → m_writ_queue m = pk :: w →
  ∃ s' m', msg_pop_writ_packet s p = Done (s', pk) ∧ dropping s' p m' ∧ m_writ_queue m' = w ∧
    s_pending_msgs s' = s_pending_msgs s ∧ zs_write_set s' = zs_write_set s.
Proof.
  intros [Hs Ho Hp Hg Ha] Hw. assert (resp_due (writ_popped m) = false) as Hr.
  { unfold resp_due. rewrite (writ_popped_gone _ Hg). apply andb_false_r. }
  destruct (pop_quiet s p m pk w Hs Hp Hw Hr) as (b & n & E & Hs'). cbv zeta in *.
  eexists _, (with_selectable (writ_popped m) b). split; [exact E|].
  assert (isset m MSG_STAT_PACKET_AVAIL_TO_WRIT = true) as Hav by (apply Ha; by rewrite Hw).
  split; [split|]; try done.
  - intros r mr Hne Hr'. apply put_sel_others in Hr'; [|done]. exact (Ho r mr Hne Hr').
  - cbn. apply list_lookup_insert_eq. by eapply lookup_lt_Some.
  - by apply writ_popped_gone.
  - change (isset (writ_popped m) MSG_STAT_PACKET_AVAIL_TO_WRIT = true ↔ m_writ_queue (writ_popped m) ≠ []).
    rewrite writ_popped_queue. by apply writ_popped_avail.
  - split; [|done]. change (m_writ_queue (writ_popped m) = w). by rewrite writ_popped_queue, Hw.
Qed.

Lemma pop_writs_dropping s p m fuel :
  dropping s p m → (length (m_writ_queue m) < fuel)%nat →
  ∃ s' m', pop_writs fuel s p = Done s' ∧ dropping s' p m' ∧ m_writ_queue m' = [] ∧
    s_pending_msgs s' = s_pending_msgs s ∧ zs_write_set s' = zs_write_set s.
Proof.
  revert s m. induction fuel as [|fuel IH]; intros s m Hd Hl; [lia|]. cbn [pop_writs].
  rewrite (get_m_Done _ _ _ (dr_msg _ _ _ Hd)). cbn [mbind res_bind].
  destruct (m_writ_queue m) as [|pk w] eqn:Hw.
  - destruct (isset m MSG_STAT_PACKET_AVAIL_TO_WRIT) eqn:Ea; [by apply (dr_avail _ _ _ Hd) in Ea|].
    by exists s, m.
  - rewrite (proj2 (dr_avail _ _ _ Hd)) by (by rewrite Hw).
    destruct (pop_dropping _ _ _ _ _ Hd Hw) as (s1 & m1 & -> & Hd1 & Hw1 & Hp1 & Hz1). cbn [mbind res_bind].
    cbn [length] in Hl. destruct (IH s1 m1 Hd1 ltac:(rewrite Hw1; lia)) as (s2 & m2 & -> & Hd2 & Hw2 & Hp2 & Hz2).
    exists s2, m2. split_and!; [done|done|done|congruence|congruence].
Qed.

(** ** The state afterwards *)

(** Message [p] waits in the queue of the switch and has nothing to send. *)
Record stuck (s : msg_switch_t) (p : nat) : Prop := {
  sk_shape : shape s;
  sk_others : others_ok s p;
  sk_empty : ∃ m, s_msgs s !! p = Some (Some m) ∧ m_writ_queue m = [];
  sk_waits : p ∈ s_pending_msgs s;
  sk_asked : zs_write_set s = true
}.

Lemma discon_stuck s p r :
  good s → r_status r = MSG_RESP_DISCON → msg_get s (r_msgid r) = Done (Some p) → discon_unsafe s p →
  ∃ s', handle_frame s (FResp r) = Done s' ∧ stuck s' p.
Proof.
  intros Hs Hst Hget (m & Hp & Hsent & Hread & Hpend).
  destruct (gone_good s p m Hs Hp Hsent) as (s1 & Hg & Hp1 & Hq & Hask & E).
  assert (isset (gone m) MSG_STAT_PACKET_AVAIL_TO_READ = true) as Hr1 by (revert Hread; unfold gone; by flags).
  rewrite Hr1 in E. cbn [negb] in E.
  destruct (pop_writs_dropping s1 p (gone m) (S (S (length (m_writ_queue m))))) as (s2 & m2 & E2 & Hd & Hw & Hp2 & Hz).
  { split; [by apply good_shape|by apply inv_others, Hg|exact Hp1|unfold gone; by flags|].
    apply (fo_avail_writ _ _ (good_flags _ _ _ Hg Hp1)). }
  { unfold gone. cbn. lia. }
  exists s2. split.
  - unfold handle_frame. rewrite Hget. cbn [mbind res_bind]. unfold msg_recv_resp, msg_get_assert. rewrite Hget.
    cbn [mbind res_bind]. by rewrite Hst, E.
  - split; [apply Hd|apply Hd| |by rewrite Hp2, Hq|].
    + exists m2. split; [apply Hd|done].
    + by rewrite Hz.
Qed.

(** ** Sending *)

(** What is still to be sent before the message: each frame makes it less. *)
Definition backlog (s : msg_switch_t) : nat := (length (s_pending_resps s) + length (s_pending_msgs s))%nat.

Lemma has_avail_waits s p : p ∈ s_pending_msgs s → msg_switch_has_avail_writs s = true.
Proof.
  intros Hp. unfold msg_switch_has_avail_writs. destruct (s_pending_msgs s); [by apply elem_of_nil in Hp|done].
Qed.

Lemma resp_due_settled m : msg_settled m → resp_due (writ_popped m) = false.
Proof.
  intros [_ Hr]. destruct (resp_due (writ_popped m)) eqn:E; [|done]. exfalso. revert E.
  unfold resp_due. rewrite isset_lor. intros E. apply andb_true_iff in E as [E Ed].
  apply andb_true_iff in E as [E1 E2]. apply negb_true_iff in Ed. revert E1 E2 Ed.
  unfold writ_popped. cbv zeta. repeat case_test; flags; intros E1 E2 Ed; destruct (Hr E1); congruence.
Qed.

Lemma settled_popped m : msg_settled m → msg_settled (writ_popped m).
Proof.
  intros [_ Hr]. split; [intros _; right; apply writ_popped_waiting|].
  unfold writ_popped. cbv zeta. repeat case_test; flags; exact Hr.
Qed.

(** The head of the queue is another message, whose packet goes out. *)
Lemma stuck_other s p q w :
  stuck s p → s_pending_resps s = [] → s_pending_msgs s = q :: w → q ≠ p →
  ∃ s' f, next_frame s = Done (s', f) ∧ stuck s' p ∧ (backlog s' < backlog s)%nat.
Proof.
  intros [Hs Ho (mp & Hp & Hw) Hin Hask] Er Eq Hne.
  destruct (sh_live _ Hs q) as [m Hm]; [rewrite Eq; by left|].
  destruct (Ho q m Hne Hm) as [Hf Hst].
  assert (isset m MSG_STAT_WRITING = true) as Hwr by (apply (fo_pend _ _ Hf); rewrite Eq; by left).
  destruct (m_writ_queue m) as [|pk v] eqn:Ev; [by destruct (fo_writing _ _ Hf Hwr)|].
  pose proof (sh_nodup _ Hs) as Hnd. rewrite Eq in Hnd, Hin. apply NoDup_cons in Hnd as [Hqw _].
  assert (p ∈ w) as Hpw by (apply elem_of_cons in Hin as [->|?]; [done|done]).
  destruct (pop_quiet (put_pending_msgs s w) q m pk v) as (b & n & E & Hs').
  { by eapply shape_pop_msg. } { exact Hm. } { exact Ev. } { by apply resp_due_settled. }
  cbv zeta in *. set (s1 := put_n_selectable _ _) in *.
  unfold next_frame. rewrite Er, Eq. cbn [mbind res_bind head deref tail].
  rewrite (get_m_Done (put_pending_msgs s w) q m Hm). cbn [mbind res_bind]. rewrite E. cbn [mbind res_bind].
  exists s1, (FPack pk). rewrite (has_avail_waits s1 p) by exact Hpw. split; [done|]. split.
  - split; [exact Hs'| |exists mp; split; [|done]|exact Hpw|exact Hask].
    + intros r mr Hrp Hr. destruct (decide (r = q)) as [->|Hrq].
      * cbn in Hr. rewrite list_lookup_insert_eq in Hr by (by eapply lookup_lt_Some). injection Hr as <-. split.
        -- apply flags_ok_selectable. eapply flags_ok_iff; [|by eapply writ_popped_ok]. done.
        -- by apply settled_selectable, settled_popped.
      * apply put_sel_others in Hr; [|done]. destruct (Ho r mr Hrp Hr) as [Hfr Hsr]. split; [|done].
        eapply flags_ok_iff; [|exact Hfr]. cbn. rewrite Eq, elem_of_cons. naive_solver.
    + cbn. by rewrite list_lookup_insert_ne.
  - unfold backlog. cbn. rewrite Er, Eq. cbn. lia.
Qed.

(** An answer goes out. *)
Lemma stuck_resp s p r rs :
  stuck s p → s_pending_resps s = r :: rs →
  ∃ s' f, next_frame s = Done (s', f) ∧ stuck s' p ∧ (backlog s' < backlog s)%nat.
Proof.
  intros [Hs Ho He Hin Hask] Er. unfold next_frame. rewrite Er. cbn [mbind res_bind].
  exists (put_pending_resps s rs), (FResp r). rewrite (has_avail_waits _ p) by exact Hin. split; [done|]. split.
  - split; [by eapply shape_pop_resp|exact Ho|exact He|exact Hin|exact Hask].
  - unfold backlog. cbn. rewrite Er. cbn. lia.
Qed.

(** It is the turn of the message. *)
Lemma stuck_head s p w :
  stuck s p → s_pending_resps s = [] → s_pending_msgs s = p :: w → next_frame s = Fault NullDeref.
Proof.
  intros [_ _ (m & Hm & Hw) _ _] Er Eq. unfold next_frame. rewrite Er, Eq. cbn [mbind res_bind head deref tail].
  rewrite (get_m_Done (put_pending_msgs s w) p m Hm). cbn [mbind res_bind]. unfold msg_pop_writ_packet.
  rewrite (get_m_Done (put_pending_msgs s w) p m Hm). cbn [mbind res_bind]. by rewrite Hw.
Qed.

(** A frame is sent, since the socket has room. *)
Definition sends (s s' : msg_switch_t) : Prop := zs_write_set s = true ∧ ∃ f, next_frame s = Done (s', f).

Lemma stuck_crash s p :
  stuck s p → ∃ s', rtc sends s s' ∧ zs_write_set s' = true ∧ next_frame s' = Fault NullDeref.
Proof.
  remember (backlog s) as n eqn:En. revert s En. induction (lt_wf n) as [n _ IH]. intros s -> Hs.
  assert ((∃ s' f, next_frame s = Done (s', f) ∧ stuck s' p ∧ (backlog s' < backlog s)%nat) ∨
          next_frame s = Fault NullDeref) as [(s1 & f & E & H1 & Hl)|E].
  { destruct (s_pending_resps s) as [|r rs] eqn:Er; [|left; by eapply stuck_resp].
    pose proof (sk_waits _ _ Hs) as Hin. destruct (s_pending_msgs s) as [|q w] eqn:Eq; [by apply elem_of_nil in Hin|].
    destruct (decide (q = p)) as [->|Hne]; [right; by eapply stuck_head|left; by eapply stuck_other]. }
  - destruct (IH _ Hl s1 eq_refl H1) as (s' & Hr & Hz & Hf). exists s'. split; [|done].
    apply (rtc_l _ _ s1); [|exact Hr]. split; [by eapply sk_asked|by exists f].
  - exists s. split; [apply rtc_refl|]. split; [by eapply sk_asked|exact E].
Qed.

(** ** Property *)

(** C40: in every reachable state, a disconnect for a message that has packets to read and
    waits in the queue of the switch ([discon_unsafe], which [allowed] leaves out) is
    handled without a fault; but the switch then asks for room, and the frames that it
    sends, without anything else happening, lead to a state in which the send handler
    follows NULL. *)
Theorem msg_switch_discon_crash fd s p r :
  reachable fd s → r_status r = MSG_RESP_DISCON → msg_get s (r_msgid r) = Done (Some p) → discon_unsafe s p →
  ∃ s', handle_frame s (FResp r) = Done s' ∧
    ∃ s2, rtc sends s' s2 ∧ zs_write_set s2 = true ∧ next_frame s2 = Fault NullDeref.
Proof.
  intros Hr%reachable_good Hst Hget Hu. destruct (discon_stuck s p r Hr Hst Hget Hu) as (s' & E & Hs).
  exists s'. split; [exact E|]. by eapply stuck_crash.
Qed.

(** A packet waits to be sent, and a packet of the other side waits to be read. *)
Definition discon_ops : list op :=
  [OpOpen 1; OpWrite 1 (str "one"%string); OpFlush 1; OpFrame (FPack (Packet 1 1 1 (replicate PACK_DATA_SIZE 0)))].

Lemma msg_switch_discon_crash_witness :
  ∃ s s' s2, exec_all (msg_switch_new 3 0) discon_ops = Done s ∧
    handle_frame s (FResp (Resp 1 MSG_RESP_DISCON)) = Done s' ∧ rtc sends s' s2 ∧ next_frame s2 = Fault NullDeref.
Proof.
  destruct (exec_sample discon_ops 1 (λ s m, negb (isset m MSG_STAT_SENT_DISCONNECT) &&
      isset m MSG_STAT_PACKET_AVAIL_TO_READ && bool_decide (1%nat ∈ s_pending_msgs s)))
    as (s & m & E & Hr & Hm & HP); [repeat constructor | vm_compute; reflexivity|].
  apply andb_true_iff in HP as [HP Hin]. apply andb_true_iff in HP as [Hn Ha]. apply bool_decide_eq_true_1 in Hin.
  apply negb_true_iff in Hn.
  destruct (msg_switch_discon_crash 3 s 1 (Resp 1 MSG_RESP_DISCON) Hr eq_refl) as (s' & E' & s2 & Hs & _ & Hf).
  - exact (msg_get_live s 1 m (good_shape _ (reachable_good _ _ Hr)) Hm).
  - exists m. split_and!; [exact Hm|exact Hn|exact Ha|exact Hin].
  - exists s, s', s2. exact (conj E (conj E' (conj Hs Hf))).
Defined.

(** A plain exchange comes to it.  A packet was sent and acknowledged, a packet of the other
    side waits to be read and the next one waits to be sent; then the other side
    disconnects. *)
Example plain_exchange_crash :
  exec_all (msg_switch_new 3 0)
    [OpOpen 1; OpWrite 1 (str "one"%string); OpFlush 1; OpSend; OpFrame (FResp (Resp 1 MSG_RESP_OK));
     OpFrame (FPack (Packet 1 1 1 (replicate PACK_DATA_SIZE 0))); OpSend;
     OpWrite 1 (str "two"%string); OpFlush 1; OpFrame (FResp (Resp 1 MSG_RESP_DISCON)); OpSend; OpSend]
  = Fault NullDeref.
Proof. vm_compute. reflexivity. Qed.
