(* ===== verification/MsgStream.v ===== *)
(** msg_switch.c, fourth part: the byte streams of a message.  What [msg_write] adds is
    the end of the stream to send, cut into full packets, and what [msg_read] returns is
    the front of the stream that was received. *)

From Stdlib Require Import ZArith Lia String.
From S2P Require Export MsgStep.

Local Open Scope Z_scope.

(** The bytes that a packet carries. *)
Definition payload (pk : msg_packet_t) : bytes := take (Z.to_nat (pk_size pk)) (pk_data pk).

(** What is queued for the other side, the packet that is being filled last. *)
Definition writ_stream (m : msg_t) : bytes :=
  concat (payload <$> m_writ_queue m) ++
  match m_incomplete m with Some pk => pk_data pk | None => [] end.

(** What was received and not read yet. *)
Definition read_stream (m : msg_t) : bytes :=
  drop (Z.to_nat (m_cur_pos m)) (concat (payload <$> m_read_queue m)).

(** A packet that is being filled. *)
Definition filling (pk : msg_packet_t) : Prop :=
  pk_size pk = Z.of_nat (length (pk_data pk)) ∧ (length (pk_data pk) <= PACK_DATA_SIZE)%nat.

Definition full (pk : msg_packet_t) : Prop :=
  pk_size pk = Z.of_nat PACK_DATA_SIZE ∧ length (pk_data pk) = PACK_DATA_SIZE.

Lemma payload_full pk : full pk → payload pk = pk_data pk.
Proof. intros [H1 H2]. unfold payload. rewrite H1, Nat2Z.id, <- H2. apply firstn_all. Qed.

Lemma filling_full pk : filling pk → pk_size pk = Z.of_nat PACK_DATA_SIZE → full pk.
Proof. intros [H1 H2] H3. split; [done|]. lia. Qed.

Lemma PACK_DATA_SIZE_pos : (0 < PACK_DATA_SIZE)%nat.
Proof. unfold PACK_DATA_SIZE. lia. Qed.

Lemma write_loop_stream fuel s p m pk data :
  (length data < fuel)%nat → good s → s_msgs s !! p = Some (Some m) →
  m_incomplete m = Some pk → filling pk →
  ∃ s' m' new, write_loop fuel s p data = Done s' ∧ good s' ∧
    s_msgs s' = <[p := Some m']> (s_msgs s) ∧
    m_writ_queue m' = m_writ_queue m ++ new ∧ Forall full new ∧
    (∃ pk', m_incomplete m' = Some pk' ∧ filling pk') ∧
    writ_stream m' = writ_stream m ++ data.
Proof.
  revert s m pk data. induction fuel as [|fuel IH]; intros s m pk data Hfuel Hs Hp Hi Hpk; [lia|].
  cbn [write_loop]. destruct data as [|c data].
  { exists s, m, []. rewrite !app_nil_r. split_and!; try done; [by rewrite list_insert_id | eauto]. }
  rewrite (get_m_Done _ _ _ Hp). cbn [mbind res_bind]. rewrite Hi. cbn [deref mbind res_bind].
  assert (∃ s1 m1 pk1 new, (if pk_size pk =? Z.of_nat PACK_DATA_SIZE then msg_packet_new s p
      else Done s) = Done s1 ∧ good s1 ∧ s_msgs s1 = <[p := Some m1]> (s_msgs s) ∧
      m_incomplete m1 = Some pk1 ∧ filling pk1 ∧ (length (pk_data pk1) < PACK_DATA_SIZE)%nat ∧
      m_writ_queue m1 = m_writ_queue m ++ new ∧ Forall full new ∧ writ_stream m1 = writ_stream m)
    as (s1 & m1 & pk1 & new & -> & Hg & Hm1 & Hi1 & Hf1 & Hroom & Hq1 & Hn1 & Hst1).
  { destruct (Z.eqb_spec (pk_size pk) (Z.of_nat PACK_DATA_SIZE)) as [Heq|Hne].
    - destruct (packet_new_good s p m Hs Hp) as (s1 & m1 & -> & Hg & Hm & Hinc & Hq).
      rewrite Hi in Hq. pose proof (filling_full _ Hpk Heq) as Hfull.
      exists s1, m1, (Packet (wire_id m) 0 (m_type m) []), [pk]. split_and!; try done.
      + split; simpl; lia.
      + apply PACK_DATA_SIZE_pos.
      + by constructor.
      + unfold writ_stream. rewrite Hinc, Hq, Hi, fmap_app, concat_app. simpl.
        rewrite payload_full by done. by rewrite !app_nil_r.
    - exists s, m, pk, []. rewrite app_nil_r. split_and!; try done; [by rewrite list_insert_id|].
      destruct Hpk. lia. }
  assert (s_msgs s1 !! p = Some (Some m1)) as Hp1
    by (rewrite Hm1; apply list_lookup_insert_eq; by eapply lookup_lt_Some).
  cbn [mbind res_bind]. rewrite (get_m_Done _ _ _ Hp1). cbn [mbind res_bind].
  rewrite Hi1. cbn [deref mbind res_bind].
  destruct Hf1 as [Hsz Hle]. rewrite Hsz, Nat2Z.id.
  set (room := (PACK_DATA_SIZE - length (pk_data pk1))%nat).
  set (chunk := take room (c :: data)). set (pk2 := Packet _ _ _ _).
  set (m2 := with_incomplete m1 (Some pk2)).
  assert (0 < room)%nat as Hpos by lia.
  assert (filling pk2) as Hf2.
  { split; simpl; rewrite length_app; [lia|]. unfold chunk. rewrite length_take. lia. }
  assert (good (put_m s1 p m2)) as Hg2
    by (apply good_put with m1; try done; [intros ? [] | intros []]; split; done).
  destruct (IH (put_m s1 p m2) m2 pk2 (drop room (c :: data))) as
    (s' & m' & new' & E & Hg' & Hm' & Hq' & Hn' & Hi' & Hst'); try done.
  { rewrite length_drop. simpl in *. lia. }
  { by eapply put_m_lookup. }
  exists s', m', (new ++ new'). split_and!; try done.
  - rewrite Hm'. simpl. rewrite Hm1. by rewrite !list_insert_insert_eq.
  - rewrite Hq'. simpl. rewrite Hq1. by rewrite app_assoc.
  - by apply Forall_app.
  - rewrite Hst', <- Hst1. unfold writ_stream. simpl. rewrite Hi1.
    rewrite <- !app_assoc. do 2 f_equal. apply take_drop.
Qed.

(** ** Reading *)

(** A packet that was received: its size is the sender's word for it. *)
Definition received (pk : msg_packet_t) : Prop :=
  0 <= pk_size pk <= Z.of_nat PACK_DATA_SIZE ∧ length (pk_data pk) = PACK_DATA_SIZE.

(** The position is inside the first packet. *)
Definition position_ok (m : msg_t) : Prop :=
  match m_read_queue m with
  | pk :: _ => 0 <= m_cur_pos m <= pk_size pk
  | [] => m_cur_pos m = 0
  end.

Record readable (m : msg_t) : Prop := {
  rd_open : isset m MSG_STAT_CLOSED = false;
  rd_packets : Forall received (m_read_queue m);
  rd_pos : position_ok m
}.

Lemma payload_length pk : received pk → length (payload pk) = Z.to_nat (pk_size pk).
Proof. intros [H1 H2]. unfold payload. rewrite length_take. lia. Qed.

Lemma read_chunk_min pk pos size :
  received pk → 0 <= pos <= pk_size pk →
  read_chunk pk pos size = (size `min` Z.to_nat (pk_size pk - pos))%nat.
Proof.
  intros [H1 H2] Hpos. unfold read_chunk.
  rewrite wrap_s32_small by (unfold PACK_DATA_SIZE in *; lia).
  destruct (Z.ltb_spec (pk_size pk - pos) 0); [lia|].
  destruct (Z.ltb_spec (Z.of_nat size) (pk_size pk - pos)); simpl; lia.
Qed.

(** The step of the loop on the stream of one packet and those behind it. *)
Lemma read_stream_step pk q pos chunk :
  received pk → (pos + chunk <= Z.to_nat (pk_size pk))%nat →
  drop pos (concat (payload <$> pk :: q))
  = take chunk (drop pos (pk_data pk)) ++ drop (pos + chunk) (concat (payload <$> pk :: q)).
Proof.
  intros Hr Hle. rewrite <- drop_drop. rewrite <- (take_drop chunk (drop pos (concat _))) at 1.
  f_equal. simpl. rewrite drop_app_le by (rewrite payload_length by done; lia).
  rewrite take_app_le by (rewrite length_drop, payload_length by done; lia).
  unfold payload. rewrite skipn_firstn_comm, take_take. f_equal. lia.
Qed.

Lemma readable_popped m : readable m → readable (read_popped m).
Proof.
  intros [H1 H2 H3]. unfold read_popped. cbv zeta.
  assert (Forall received (tail (m_read_queue m))) as Ht by (by destruct H2).
  split; repeat case_test; flags; try done; unfold position_ok; simpl.
  all: destruct (tail (m_read_queue m)) as [|pk q]; [done|].
  all: apply Forall_cons in Ht as [[? _] _]; lia.
Qed.

Lemma readable_refreshed s s' p m m' : readable m → refreshed s s' p m m' → readable m'.
Proof.
  intros [H1 H2 H3] Hr. pose proof (rf_data _ _ _ _ _ Hr) as Hd. split.
  - by rewrite (rf_flag _ _ _ _ _ Hr).
  - by rewrite Hd.
  - unfold position_ok. rewrite Hd. exact H3.
Qed.

Lemma read_popped_queue m : m_read_queue (read_popped m) = tail (m_read_queue m).
Proof. unfold read_popped. cbv zeta. by repeat case_test. Qed.

Lemma read_popped_stream m pk q :
  m_read_queue m = pk :: q → received pk → m_cur_pos m = pk_size pk →
  read_stream (read_popped m) = read_stream m.
Proof.
  intros Hq Hr Hpos. unfold read_stream. rewrite read_popped_queue, Hq, Hpos. simpl.
  rewrite drop_app_ge by (rewrite payload_length by done; lia).
  rewrite payload_length, Nat.sub_diag by done.
  assert (m_cur_pos (read_popped m) = 0) as -> by (unfold read_popped; cbv zeta; by repeat case_test).
  done.
Qed.

(** The packet that was read to its end leaves. *)
Lemma pop_read_stream s p m pk q :
  good s → s_msgs s !! p = Some (Some m) → readable m → m_read_queue m = pk :: q →
  m_cur_pos m = pk_size pk →
  ∃ s' m', msg_pop_read_packet s p = Done s' ∧ good s' ∧
    s_msgs s' = <[p := Some m']> (s_msgs s) ∧ readable m' ∧ m_read_queue m' = q ∧
    read_stream m' = read_stream m ∧
    (isset m' MSG_STAT_PACKET_AVAIL_TO_READ = true ↔ q ≠ []).
Proof.
  intros Hs Hp Hrd Hq Hend. pose proof (rd_packets _ Hrd) as Hpk. rewrite Hq in Hpk.
  apply Forall_cons in Hpk as [Hpk _].
  destruct (pop_read_good s p m) as (s2 & m2 & -> & Hi & Hr); [apply Hs|done|].
  assert (good s2) as Hg2 by (eapply refreshed_good; [apply Hs|done|done]).
  assert (readable m2) as Hrd2 by (eapply readable_refreshed; [by apply readable_popped|done]).
  assert (m_read_queue m2 = q) as Hq2
    by (rewrite (rf_data _ _ _ _ _ Hr); simpl; rewrite read_popped_queue; by rewrite Hq).
  exists s2, m2. split_and!; try done.
  - apply (rf_msgs _ _ _ _ _ Hr).
  - rewrite <- (read_popped_stream m pk q) by done. unfold read_stream.
    by rewrite (rf_data _ _ _ _ _ Hr).
  - pose proof (good_flags _ _ _ Hg2 (refreshed_here _ _ _ _ _ _ Hp Hr)) as Hf2. rewrite <- Hq2.
    split; [|apply (fo_avail_read _ _ Hf2)]. intros Ha.
    destruct (fo_read_avail _ _ Hf2 Ha) as [|Hc]; [done|]. rewrite (rd_open _ Hrd2) in Hc. done.
Qed.

Lemma read_loop_stream fuel s p m size acc :
  (size + length (m_read_queue m) < fuel)%nat → good s → s_msgs s !! p = Some (Some m) →
  readable m → m_read_queue m ≠ [] →
  ∃ s' m' out, read_loop fuel s p size acc = Done (s', acc ++ out) ∧ good s' ∧
    s_msgs s' = <[p := Some m']> (s_msgs s) ∧ readable m' ∧
    out ++ read_stream m' = read_stream m ∧
    length out = (size `min` length (read_stream m))%nat.
Proof.
  revert s m size acc. induction fuel as [|fuel IH]; intros s m size acc Hfuel Hs Hp Hrd Hq; [lia|].
  cbn [read_loop]. destruct (Nat.eqb_spec size 0) as [->|Hsize].
  { exists s, m, []. rewrite app_nil_r. split_and!; try done. by rewrite list_insert_id. }
  rewrite (get_m_Done _ _ _ Hp). cbn [mbind res_bind].
  destruct (m_read_queue m) as [|pk q] eqn:Eq; [done|]. cbn [head deref mbind res_bind].
  pose proof Hrd as [Hop Hpk Hpos]. rewrite Eq in Hpk. apply Forall_cons in Hpk as [Hpk Hq'].
  unfold position_ok in Hpos. rewrite Eq in Hpos. rewrite (read_chunk_min pk _ size Hpk Hpos).
  set (chunk := (size `min` Z.to_nat (pk_size pk - m_cur_pos m))%nat).
  set (pos := Z.to_nat (m_cur_pos m)).
  assert (pos + chunk <= Z.to_nat (pk_size pk))%nat as Hle by lia.
  destruct (Nat.ltb_spec (length (pk_data pk)) (pos + chunk)) as [Hlt|_]; [destruct Hpk; lia|].
  set (m1 := with_cur_pos m (m_cur_pos m + Z.of_nat chunk)).
  set (piece := take chunk (drop pos (pk_data pk))).
  assert (length piece = chunk) as Hpiece
    by (unfold piece; rewrite length_take, length_drop; destruct Hpk; lia).
  assert (good (put_m s p m1)) as Hg1
    by (apply good_put with m; try done; [intros ? [] | intros []]; split; done).
  assert (s_msgs (put_m s p m1) !! p = Some (Some m1)) as Hp1 by (by eapply put_m_lookup).
  assert (readable m1) as Hrd1.
  { split; [done | apply Hrd |]. unfold position_ok. simpl. rewrite Eq. lia. }
  assert (piece ++ read_stream m1 = read_stream m) as Hst1.
  { unfold read_stream. simpl. rewrite Eq. fold pos.
    rewrite (read_stream_step pk q pos chunk Hpk Hle). do 2 f_equal. lia. }
  assert (length (read_stream m) = chunk + length (read_stream m1))%nat as Hlen
    by (rewrite <- Hst1, length_app, Hpiece; done).
  change (m_cur_pos m1) with (m_cur_pos m + Z.of_nat chunk).
  destruct (Z.eqb_spec (m_cur_pos m + Z.of_nat chunk) (pk_size pk)) as [Hend|Hmore].
  - destruct (pop_read_stream (put_m s p m1) p m1 pk q) as
      (s2 & m2 & -> & Hg2 & Hm2 & Hrd2 & Hq2 & Hst2 & Hav); try done.
    simpl in Hm2. rewrite list_insert_insert_eq in Hm2.
    assert (s_msgs s2 !! p = Some (Some m2)) as Hp2
      by (rewrite Hm2; apply list_lookup_insert_eq; by eapply lookup_lt_Some).
    cbn [mbind res_bind]. rewrite (get_m_Done _ _ _ Hp2). cbn [mbind res_bind].
    destruct (isset m2 MSG_STAT_PACKET_AVAIL_TO_READ) eqn:Ea.
    + assert (m_read_queue m2 ≠ []) as Hne2 by (rewrite Hq2; by apply Hav).
      destruct (IH s2 m2 (size - chunk)%nat (acc ++ piece)) as
        (s' & m' & out & E & Hg' & Hm' & Hrd' & Ho' & Hl'); try done.
      { rewrite Hq2. simpl in Hfuel. lia. }
      exists s', m', (piece ++ out). rewrite E, <- !app_assoc. split_and!; try done.
      * rewrite Hm', Hm2. by rewrite list_insert_insert_eq.
      * by rewrite Ho', Hst2.
      * rewrite length_app, Hpiece, Hl', Hlen, Hst2. lia.
    + exists s2, m2, piece. split_and!; try done; [by rewrite Hst2|].
      assert (q = []) as Hnil by (destruct q; [done|]; assert (false = true) by (by apply Hav); done).
      assert (read_stream m2 = []) as Hnil2
        by (unfold read_stream; rewrite Hq2, Hnil; apply drop_nil).
      rewrite Hlen, <- Hst2, Hnil2, Hpiece. simpl. lia.
  - assert (chunk = size) as Hcs by lia.
    destruct (IH (put_m s p m1) m1 (size - chunk)%nat (acc ++ piece)) as
        (s' & m' & out & E & Hg' & Hm' & Hrd' & Ho' & Hl'); try done.
    { simpl. rewrite Eq. simpl in *. lia. }
    { simpl. by rewrite Eq. }
    exists s', m', (piece ++ out). rewrite E, <- !app_assoc. split_and!; try done.
    + rewrite Hm'. simpl. by rewrite list_insert_insert_eq.
    + by rewrite Ho'.
    + rewrite length_app, Hpiece, Hl', Hlen. lia.
Qed.

(** ** The calls *)

Lemma write_stream_good s p m buf :
  good s → s_msgs s !! p = Some (Some m) →
  isset m MSG_STAT_CLOSED = false → isset m MSG_STAT_DISCONNECTED = false →
  isset m MSG_STAT_SPACE_AVAIL_FOR_WRIT = true →
  (∀ pk, m_incomplete m = Some pk → filling pk) →
  ∃ s' m' new, msg_write s (Z.of_nat p) buf = Done (s', Ret (Z.of_nat (length buf))) ∧
    s_msgs s' = <[p := Some m']> (s_msgs s) ∧
    writ_stream m' = writ_stream m ++ buf ∧
    m_writ_queue m' = m_writ_queue m ++ new ∧ Forall full new ∧
    (∃ pk, m_incomplete m' = Some pk ∧ filling pk).
Proof.
  intros Hs Hp Hc Hd Hsp Hinc. unfold msg_write.
  rewrite (msg_get_live _ _ _ (good_shape _ Hs) Hp). cbn [mbind res_bind]. unfold msg_closed.
  rewrite (get_m_Done _ _ _ Hp). cbn [mbind res_bind]. rewrite Hc, Hd, Hsp. cbn [negb].
  assert (∃ s1 m1 pk1, (if m_incomplete m then Done s else msg_packet_new s p) = Done s1 ∧ good s1 ∧
    s_msgs s1 = <[p := Some m1]> (s_msgs s) ∧ m_incomplete m1 = Some pk1 ∧ filling pk1 ∧
    m_writ_queue m1 = m_writ_queue m ∧ writ_stream m1 = writ_stream m)
    as (s1 & m1 & pk1 & -> & Hg & Hm1 & Hi1 & Hf1 & Hq1 & Hst1).
  { destruct (m_incomplete m) as [pk|] eqn:Ei.
    - exists s, m, pk. split_and!; try done; [by rewrite list_insert_id | by apply Hinc].
    - destruct (packet_new_good s p m Hs Hp) as (s1 & m1 & -> & Hg & Hm & Hi & Hq).
      rewrite Ei, app_nil_r in Hq. eexists s1, m1, _. split_and!; try done.
      + split; simpl; lia.
      + unfold writ_stream. by rewrite Hi, Hq, Ei. }
  cbn [mbind res_bind].
  assert (s_msgs s1 !! p = Some (Some m1)) as Hp1
    by (rewrite Hm1; apply list_lookup_insert_eq; by eapply lookup_lt_Some).
  destruct (write_loop_stream (S (length buf)) s1 p m1 pk1 buf) as
    (s' & m' & new & -> & Hg' & Hm' & Hq' & Hn & Hi' & Hst); try done; [lia|].
  exists s', m', new. split_and!; try done.
  - by rewrite Hm', Hm1, list_insert_insert_eq.
  - by rewrite Hst, Hst1.
  - by rewrite Hq', Hq1.
Qed.

Lemma read_stream_good s p m size :
  good s → s_msgs s !! p = Some (Some m) → m_read_queue m ≠ [] → readable m →
  ∃ s' m' out, msg_read s (Z.of_nat p) size = Done (s', Ret (Z.of_nat (length out)), out) ∧
    s_msgs s' = <[p := Some m']> (s_msgs s) ∧ readable m' ∧
    out ++ read_stream m' = read_stream m ∧
    length out = (size `min` length (read_stream m))%nat.
Proof.
  intros Hs Hp Hq Hrd. unfold msg_read.
  rewrite (msg_get_live _ _ _ (good_shape _ Hs) Hp). cbn [mbind res_bind]. unfold msg_closed.
  rewrite (get_m_Done _ _ _ Hp). cbn [mbind res_bind]. rewrite (rd_open _ Hrd).
  pose proof (good_flags _ _ _ Hs Hp) as Hf. rewrite (fo_avail_read _ _ Hf Hq).
  destruct (read_loop_stream (S (size + length (m_read_queue m))) s p m size []) as
    (s' & m' & out & E & Hg & Hm & Hrd' & Ho & Hl); try done; [lia|].
  rewrite E. cbn [mbind res_bind app]. by exists s', m', out.
Qed.

(** ** Properties *)

(** C23: [msg_write] on an open message with room takes the whole buffer, whatever its
    length: it is the new end of the stream of the message, in order and without a gap,
    the packets that it completes are full, and no other message changes. *)
Theorem msg_write_stream fd s p m buf :
  reachable fd s → s_msgs s !! p = Some (Some m) →
  isset m MSG_STAT_CLOSED = false → isset m MSG_STAT_DISCONNECTED = false →
  isset m MSG_STAT_SPACE_AVAIL_FOR_WRIT = true →
  (∀ pk, m_incomplete m = Some pk → filling pk) →
  ∃ s' m' new, msg_write s (Z.of_nat p) buf = Done (s', Ret (Z.of_nat (length buf))) ∧
    s_msgs s' = <[p := Some m']> (s_msgs s) ∧
    writ_stream m' = writ_stream m ++ buf ∧
    m_writ_queue m' = m_writ_queue m ++ new ∧ Forall full new ∧
    (∃ pk, m_incomplete m' = Some pk ∧ filling pk).
Proof. intros Hr. by apply write_stream_good, (reachable_good fd). Qed.

Lemma msg_write_stream_witness :
  ∃ s m s' m' , reachable 3 s ∧ s_msgs s !! 1%nat = Some (Some m) ∧
    msg_write s 1 (str "bc") = Done (s', Ret 2) ∧ s_msgs s' !! 1%nat = Some (Some m') ∧
    writ_stream m' = str "abc".
Proof.
  destruct (exec_sample [OpOpen 1; OpWrite 1 (str "a")] 1 (λ _ m,
    negb (isset m MSG_STAT_CLOSED) && negb (isset m MSG_STAT_DISCONNECTED) &&
    isset m MSG_STAT_SPACE_AVAIL_FOR_WRIT && bool_decide (m_writ_queue m = []) &&
    bool_decide (m_incomplete m = Some (Packet (-1) 1 1 (str "a")))))
    as (s & m & E & Hr & Hm & H); [repeat constructor | vm_compute; reflexivity|].
  apply andb_prop in H as [H Hi]. apply andb_prop in H as [H Hq]. apply andb_prop in H as [H Hs].
  apply andb_prop in H as [Hc Hd]. apply negb_true_iff in Hc, Hd.
  apply bool_decide_eq_true in Hi, Hq.
  destruct (msg_write_stream 3 s 1 m (str "bc") Hr Hm Hc Hd Hs) as (s' & m' & new & H1 & H2 & H3 & _).
  - intros pk Hpk. rewrite Hi in Hpk. injection Hpk as <-. split; simpl; [done|].
    unfold PACK_DATA_SIZE. lia.
  - exists s, m, s', m'. split_and!; try done.
    + rewrite H2. apply list_lookup_insert_eq. by eapply lookup_lt_Some.
    + rewrite H3. unfold writ_stream. by rewrite Hq, Hi.
Defined.

(** [msg_read] returns the next bytes of the received stream, as many as were asked
    for or are there, and leaves exactly the rest, whatever the packets they came in;
    no other message changes.  The sizes of the packets are the sender's word. *)
Theorem msg_read_stream fd s p m size :
  reachable fd s → s_msgs s !! p = Some (Some m) → m_read_queue m ≠ [] → readable m →
  ∃ s' m' out, msg_read s (Z.of_nat p) size = Done (s', Ret (Z.of_nat (length out)), out) ∧
    s_msgs s' = <[p := Some m']> (s_msgs s) ∧ readable m' ∧
    out ++ read_stream m' = read_stream m ∧
    length out = (size `min` length (read_stream m))%nat.
Proof. intros Hr. by apply read_stream_good, (reachable_good fd). Qed.

Lemma msg_read_stream_witness :
  ∃ s m s' , reachable 3 s ∧ s_msgs s !! 1%nat = Some (Some m) ∧
    msg_read s 1 2 = Done (s', Ret 2, str "ab").
Proof.
  set (pk := Packet 1 3 1 (str "abc" ++ replicate (PACK_DATA_SIZE - 3) 0)).
  destruct (exec_sample [OpOpen 1; OpFrame (FPack pk)] 1 (λ _ m,
    negb (isset m MSG_STAT_CLOSED) && (m_cur_pos m =? 0) && bool_decide (m_read_queue m = [pk])))
    as (s & m & E & Hr & Hm & H); [repeat constructor | vm_compute; reflexivity|].
  apply andb_prop in H as [H Hq]. apply andb_prop in H as [Hc Hpos].
  apply negb_true_iff in Hc. apply Z.eqb_eq in Hpos. apply bool_decide_eq_true in Hq.
  assert (received pk) as Hpk.
  { unfold pk. split; cbn [pk_size pk_data]; [unfold PACK_DATA_SIZE; lia|].
    rewrite length_app, length_replicate. change (length (str "abc")) with 3%nat.
    unfold PACK_DATA_SIZE. lia. }
  assert (read_stream m = str "abc") as Hst
    by (unfold read_stream; rewrite Hpos, Hq; by vm_compute).
  destruct (msg_read_stream 3 s 1 m 2 Hr Hm) as (s' & m' & out & H1 & _ & _ & H2 & H3).
  - by rewrite Hq.
  - split; [done | rewrite Hq; by constructor |]. unfold position_ok. rewrite Hq, Hpos. simpl. lia.
  - rewrite Hst in H2, H3. simpl in H3. destruct out as [|a [|b [|]]]; try discriminate.
    injection H2 as -> -> _. by exists s, m, s'.
Defined.
