(* ===== verification/MsgFrames.v ===== *)
(** msg_switch.c, fifth part: the frames on the socket.  A frame is a type word and
    the bytes of a struct; [msg_switch_read] cuts the bytes that arrive back into
    frames, however they were split on the way as long as no word is split. *)

From Stdlib Require Import ZArith Lia String.
From S2P Require Export MsgStream.

Local Open Scope Z_scope.

(** ** Integers in memory, little endian *)

Definition int_bytes (z : Z) : bytes :=
  let u := wrap_u32 z in
  [u mod 256; (u / 256) mod 256; (u / 65536) mod 256; (u / 16777216) mod 256].

Definition int_of (l : bytes) : Z :=
  match l with
  | [a; b; c; d] => wrap_s32 (a + 256 * b + 65536 * c + 16777216 * d)
  | _ => 0
  end.

(** [char] is signed. *)
Definition char_byte (z : Z) : Z := z mod 256.
Definition char_of (b : Z) : Z := (b + 128) mod 256 - 128.

(** ** Frames *)

Definition MSG_TYPE_RESP : Z := 1.
Definition MSG_TYPE_PACK : Z := 2.

Definition MSG_TYPE_GET_SIZE (type : Z) : nat :=
  if type =? MSG_TYPE_PACK then 12 + PACK_DATA_SIZE else 8.
Arguments MSG_TYPE_GET_SIZE : simpl never.

Definition frame_type (f : frame) : Z :=
  match f with FResp _ => MSG_TYPE_RESP | FPack _ => MSG_TYPE_PACK end.

(** The struct of a frame in memory; an answer ends in three zeroed bytes of padding. *)
Definition frame_body (f : frame) : bytes :=
  match f with
  | FResp r => int_bytes (r_msgid r) ++ [char_byte (r_status r); 0; 0; 0]
  | FPack pk => int_bytes (pk_msgid pk) ++ int_bytes (pk_size pk) ++ int_bytes (pk_type pk) ++ pk_data pk
  end.

Definition frame_bytes (f : frame) : bytes := int_bytes (frame_type f) ++ frame_body f.

(** The frame that a filled struct stands for. *)
Definition frame_of (type : Z) (data : bytes) : frame :=
  if type =? MSG_TYPE_RESP
  then FResp (Resp (int_of (take 4 data)) (char_of (nth 4 data 0)))
  else FPack (Packet (int_of (take 4 data)) (int_of (take 4 (drop 4 data)))
                (int_of (take 4 (drop 8 data))) (drop 12 data)).

(** ** Sending *)

(** [msg_switch_write]: the state, the bytes given to the socket and the events.  What
    [zs_write] answers to the bytes is the argument; a short count is not looked at. *)
Definition msg_switch_write (zs_write : bytes → Z) (s : msg_switch_t)
  : res (msg_switch_t * bytes * list (Z * Z)) :=
  '(s, f) ← next_frame s;
  let n := zs_write (frame_bytes f) in
  if n <? 0 then let '(s, evs) := msg_switch_failed s n in Done (s, frame_bytes f, evs)
  else Done (s, frame_bytes f, []).

(** ** Receiving *)

(** The frame that is being received: its type, 0 between frames, and the first
    [curr_read_size] bytes of its struct. *)
Record reader_t := Reader { rd_type : Z; rd_data : bytes }.

Definition idle : reader_t := Reader 0 [].

(** The loop of [msg_switch_read] over the bytes that arrived.  A type word that is
    not there in full is read from behind them. *)
Fixpoint read_frames (fuel : nat) (s : msg_switch_t) (r : reader_t) (ptr : bytes)
  : res (msg_switch_t * reader_t) :=
  match fuel with
  | O => Fault OutOfFuel
  | S fuel =>
      match ptr with
      | [] => Done (s, r)
      | _ =>
          '(type, ptr) ← (if rd_type r =? 0 then
                            if (length ptr <? 4)%nat then Fault OutOfBounds
                            else Done (int_of (take 4 ptr), drop 4 ptr)
                          else Done (rd_type r, ptr));
          _ ← assert ((type =? MSG_TYPE_RESP) || (type =? MSG_TYPE_PACK));
          let size := MSG_TYPE_GET_SIZE type in
          let len_used := (length ptr `min` (size - length (rd_data r)))%nat in
          let data := rd_data r ++ take len_used ptr in
          if (length data <? size)%nat then Done (s, Reader type data)
          else
            s ← handle_frame s (frame_of type data);
            read_frames fuel s idle (drop len_used ptr)
      end
  end.

(** What zs_read gave: an error or the end, or bytes. *)
Definition msg_switch_read (s : msg_switch_t) (r : reader_t) (got : Z + bytes)
  : res (msg_switch_t * reader_t * list (Z * Z)) :=
  match got with
  | inl n => let '(s, evs) := msg_switch_failed s n in Done (s, r, evs)
  | inr buf => '(s, r) ← read_frames (S (length buf)) s r buf; Done (s, r, [])
  end.

(** A run of reads. *)
Fixpoint read_all (s : msg_switch_t) (r : reader_t) (bufs : list bytes)
  : res (msg_switch_t * reader_t) :=
  match bufs with
  | [] => Done (s, r)
  | buf :: bufs => '(s, r, _) ← msg_switch_read s r (inr buf); read_all s r bufs
  end.

Fixpoint handle_all (s : msg_switch_t) (fs : list frame) : res msg_switch_t :=
  match fs with [] => Done s | f :: fs => s ← handle_frame s f; handle_all s fs end.

(** ** Lemmas *)

(** The values that fit the fields. *)
Definition is_int (z : Z) : Prop := - 2 ^ 31 <= z < 2 ^ 31.

Definition frame_ok (f : frame) : Prop :=
  match f with
  | FResp r => is_int (r_msgid r) ∧ -128 <= r_status r < 128
  | FPack pk => is_int (pk_msgid pk) ∧ is_int (pk_size pk) ∧ is_int (pk_type pk) ∧
                length (pk_data pk) = PACK_DATA_SIZE
  end.

#[local] Arguments int_bytes : simpl never.

Lemma int_bytes_length z : length (int_bytes z) = 4%nat.
Proof. reflexivity. Qed.

Lemma int_of_bytes z : is_int z → int_of (int_bytes z) = z.
Proof.
  intros H. unfold int_of, int_bytes. pose proof (wrap_u32_bound z) as Hu.
  set (u := wrap_u32 z) in *.
  assert (u mod 256 + 256 * ((u / 256) mod 256) + 65536 * ((u / 65536) mod 256) +
    16777216 * ((u / 16777216) mod 256) = u) as ->.
  { change 65536 with (256 * 256). change 16777216 with (256 * 256 * 256).
    rewrite <- !Z.div_div by lia. rewrite (Z.mod_small (u / 256 / 256 / 256)).
    - pose proof (Z.div_mod u 256). pose proof (Z.div_mod (u / 256) 256).
      pose proof (Z.div_mod (u / 256 / 256) 256). lia.
    - rewrite !Z.div_div by lia. split; [apply Z.div_pos; lia|]. apply Z.div_lt_upper_bound; lia. }
  unfold u, wrap_s32, wrap_u32. unfold is_int in H. rewrite Zplus_mod_idemp_l.
  rewrite Z.mod_small by lia. lia.
Qed.

Lemma char_of_byte z : -128 <= z < 128 → char_of (char_byte z) = z.
Proof.
  intros H. unfold char_of, char_byte. rewrite Zplus_mod_idemp_l. rewrite Z.mod_small by lia. lia.
Qed.

Lemma frame_body_length f : frame_ok f → length (frame_body f) = MSG_TYPE_GET_SIZE (frame_type f).
Proof.
  destruct f as [r|pk]; intros H; [done|]. destruct H as (_ & _ & _ & H). simpl.
  rewrite H. reflexivity.
Qed.

Lemma frame_of_body f : frame_ok f → frame_of (frame_type f) (frame_body f) = f.
Proof.
  destruct f as [[i st]|[i sz ty d]]; intros H; simpl in H.
  - destruct H as [Hi Hs]. unfold frame_of. cbn [frame_type Z.eqb MSG_TYPE_RESP Pos.eqb].
    change (frame_body _) with (int_bytes i ++ [char_byte st; 0; 0; 0]).
    change (take 4 _) with (int_bytes i). change (nth 4 _ 0) with (char_byte st).
    by rewrite int_of_bytes, char_of_byte.
  - destruct H as (Hi & Hs & Ht & _). unfold frame_of. cbn [frame_type Z.eqb MSG_TYPE_PACK MSG_TYPE_RESP Pos.eqb].
    change (frame_body _) with (int_bytes i ++ int_bytes sz ++ int_bytes ty ++ d).
    change (take 4 (int_bytes i ++ _)) with (int_bytes i).
    change (take 4 (drop 4 _)) with (int_bytes sz). change (take 4 (drop 8 _)) with (int_bytes ty).
    change (drop 12 _) with d. by rewrite !int_of_bytes.
Qed.

Lemma frame_type_ok f :
  int_of (int_bytes (frame_type f)) = frame_type f ∧ frame_type f ≠ 0 ∧
  assert ((frame_type f =? MSG_TYPE_RESP) || (frame_type f =? MSG_TYPE_PACK)) = Done tt.
Proof. destruct f; split_and!; reflexivity || done. Qed.

Lemma size_mod_4 f : (4 | Z.of_nat (MSG_TYPE_GET_SIZE (frame_type f))).
Proof. destruct f; [by exists 2 | by exists 2048]. Qed.

Lemma size_pos f : (0 < MSG_TYPE_GET_SIZE (frame_type f))%nat.
Proof. destruct f; unfold MSG_TYPE_GET_SIZE; simpl; lia. Qed.

(** The reader in front of the frames [fs], of which the bytes [rem] are to come. *)
Inductive expects : reader_t → list frame → bytes → Prop :=
| expects_idle fs : expects idle fs (concat (frame_bytes <$> fs))
| expects_more f fs d b :
    frame_body f = d ++ b → b ≠ [] → (4 | Z.of_nat (length b)) →
    expects (Reader (frame_type f) d) (f :: fs) (b ++ concat (frame_bytes <$> fs)).

(** The outcome of handling the first frames, with the reader in front of the rest. *)
Definition outcome (s : msg_switch_t) (fs : list frame) (rem : bytes)
  (o : res (msg_switch_t * reader_t)) : Prop :=
  ∃ fs1 fs2, fs = fs1 ++ fs2 ∧
    match handle_all s fs1 with
    | Done s1 => ∃ r, o = Done (s1, r) ∧ expects r fs2 rem
    | Fault e => o = Fault e
    end.

Lemma outcome_cons s f fs rem o :
  (∀ s1, handle_frame s f = Done s1 → outcome s1 fs rem (o s1)) →
  outcome s (f :: fs) rem (s1 ← handle_frame s f; o s1).
Proof.
  intros H. destruct (handle_frame s f) as [s1|e] eqn:E.
  - destruct (H s1 eq_refl) as (fs1 & fs2 & -> & Ho). exists (f :: fs1), fs2. split; [done|].
    simpl. rewrite E. exact Ho.
  - exists [f], fs. split; [done|]. simpl. by rewrite E.
Qed.

(** Two ways to cut the same bytes. *)
Lemma app_cut_le {A} (c rem b rest : list A) :
  c ++ rem = b ++ rest → (length c <= length b)%nat →
  b = c ++ drop (length c) b ∧ rem = drop (length c) b ++ rest.
Proof.
  intros H Hle. split.
  - rewrite <- (take_drop (length c) b) at 1. f_equal.
    rewrite <- (take_app_le b rest) by done. rewrite <- H. apply take_app_length.
  - rewrite <- (drop_app_le b rest) by done. rewrite <- H. symmetry. apply drop_app_length.
Qed.

Lemma app_cut {A} (c rem b rest : list A) :
  c ++ rem = b ++ rest →
  (length c < length b)%nat ∧ b = c ++ drop (length c) b ∧ rem = drop (length c) b ++ rest ∨
  (length b <= length c)%nat ∧ c = b ++ drop (length b) c ∧ rest = drop (length b) c ++ rem.
Proof.
  intros H. destruct (Nat.lt_ge_cases (length c) (length b)) as [Hlt|Hge]; [left|right];
    (split; [done|]); apply app_cut_le; done || lia.
Qed.

(** The part of a round after the type is known. *)
Lemma body_step fuel s f fs d b c rem :
  (∀ s1 c', c' ++ rem = concat (frame_bytes <$> fs) → (4 | Z.of_nat (length c')) →
     (length c' + length b <= length c)%nat → outcome s1 fs rem (read_frames fuel s1 idle c')) →
  frame_ok f → frame_body f = d ++ b → (4 | Z.of_nat (length b)) → (4 | Z.of_nat (length c)) →
  c ++ rem = b ++ concat (frame_bytes <$> fs) →
  outcome s (f :: fs) rem
    (let size := MSG_TYPE_GET_SIZE (frame_type f) in
     let len_used := (length c `min` (size - length d))%nat in
     let data := d ++ take len_used c in
     if (length data <? size)%nat then Done (s, Reader (frame_type f) data)
     else s ← handle_frame s (frame_of (frame_type f) data);
          read_frames fuel s idle (drop len_used c)).
Proof.
  intros IH Hf Hb Hdb Hdc Hc. pose proof (frame_body_length f Hf) as Hlen.
  rewrite Hb, length_app in Hlen. cbv zeta. rewrite <- Hlen.
  replace (length d + length b - length d)%nat with (length b) by lia.
  destruct (app_cut _ _ _ _ Hc) as [(Hlt & Eb & Er)|(Hge & Ec & Er)].
  - rewrite Nat.min_l by lia. rewrite firstn_all.
    destruct (Nat.ltb_spec (length (d ++ c)) (length d + length b)) as [_|Hx];
      [|rewrite length_app in Hx; lia].
    exists [], (f :: fs). split; [done|]. simpl. eexists. split; [done|]. rewrite Er.
    apply expects_more.
    + rewrite Hb, Eb at 1. by rewrite app_assoc.
    + intros E. apply (f_equal length) in E. rewrite length_drop in E. simpl in E. lia.
    + rewrite length_drop, Nat2Z.inj_sub by lia. by apply Z.divide_sub_r.
  - rewrite Nat.min_r by lia.
    assert (take (length b) c = b) as -> by (rewrite Ec; apply take_app_length). rewrite <- Hb.
    destruct (Nat.ltb_spec (length (frame_body f)) (length d + length b)) as [Hx|_];
      [rewrite Hb, length_app in Hx; lia|].
    rewrite frame_of_body by done. apply outcome_cons. intros s1 _. apply IH.
    + by rewrite Er.
    + rewrite length_drop, Nat2Z.inj_sub by lia. by apply Z.divide_sub_r.
    + rewrite length_drop. lia.
Qed.

Lemma stream_cons f fs :
  concat (frame_bytes <$> f :: fs)
  = int_bytes (frame_type f) ++ (frame_body f ++ concat (frame_bytes <$> fs)).
Proof. rewrite fmap_cons. cbn [concat]. unfold frame_bytes at 1. by rewrite app_assoc. Qed.

Lemma read_frames_outcome fuel s r fs c rem :
  expects r fs (c ++ rem) → (4 | Z.of_nat (length c)) → Forall frame_ok fs →
  (length c < fuel)%nat → outcome s fs rem (read_frames fuel s r c).
Proof.
  revert s r fs c. induction fuel as [|fuel IH]; intros s r fs c He Hd Hok Hf; [lia|].
  cbn [read_frames]. destruct c as [|x c]; [exists [], fs; simpl; eauto|].
  remember (x :: c) as buf eqn:Ebuf. remember (buf ++ rem) as stream eqn:Es.
  destruct He as [fs|f fs d b Hb Hne Hdb].
  - destruct fs as [|f fs]; [by destruct buf|]. apply Forall_cons in Hok as [Hf1 Hok].
    rewrite stream_cons in Es. cbn [idle rd_type rd_data Z.eqb].
    assert (4 <= length buf)%nat as H4.
    { destruct Hd as [k Hk]. subst buf. simpl in *. lia. }
    destruct (Nat.ltb_spec (length buf) 4) as [|_]; [lia|].
    destruct (frame_type_ok f) as (Ht & _ & Ha).
    destruct (app_cut_le _ _ _ _ Es H4) as [Eb Er]. rewrite int_bytes_length in Eb, Er.
    assert (take 4 buf = int_bytes (frame_type f)) as -> by (rewrite Eb; by apply take_app_length').
    cbn [mbind res_bind]. rewrite Ht, Ha. cbn [mbind res_bind].
    apply (body_step fuel s f fs [] (frame_body f) (drop 4 buf)); try done.
    + intros s1 c' Hc Hdc Hle. apply IH; [|done|done|].
      * rewrite Hc. constructor.
      * rewrite length_drop in Hle. lia.
    + rewrite frame_body_length by done. apply size_mod_4.
    + rewrite length_drop, Nat2Z.inj_sub by lia. apply Z.divide_sub_r; [done|by exists 1].
  - apply Forall_cons in Hok as [Hf1 Hok].
    destruct (frame_type_ok f) as (_ & Hnz & Ha). cbn [rd_type rd_data].
    destruct (Z.eqb_spec (frame_type f) 0) as [|_]; [done|]. subst buf.
    cbn [mbind res_bind]. rewrite Ha. cbn [mbind res_bind].
    apply (body_step fuel s f fs d b (x :: c)); try done.
    intros s1 c' Hc Hdc Hle. apply IH; [|done|done|].
    + rewrite Hc. constructor.
    + destruct b; [done|]. simpl in *. lia.
Qed.

Lemma handle_all_app s fs1 fs2 :
  handle_all s (fs1 ++ fs2) = (s' ← handle_all s fs1; handle_all s' fs2).
Proof.
  revert s. induction fs1 as [|f fs1 IH]; intros s; [done|]. simpl.
  destruct (handle_frame s f); [apply IH | done].
Qed.

(** All of a run of reads. *)
Lemma read_all_outcome s r fs bufs rem :
  expects r fs (concat bufs ++ rem) → Forall (λ c, (4 | Z.of_nat (length c))) bufs →
  Forall frame_ok fs → outcome s fs rem (read_all s r bufs).
Proof.
  revert s r fs. induction bufs as [|c bufs IH]; intros s r fs He Hd Hok.
  { exists [], fs. simpl. eauto. }
  apply Forall_cons in Hd as [Hc Hd]. simpl in He. rewrite <- app_assoc in He.
  destruct (read_frames_outcome (S (length c)) s r fs c _ He Hc Hok) as (fs1 & fs2 & -> & Ho); [lia|].
  cbn [read_all msg_switch_read]. apply Forall_app in Hok as [_ Hok].
  destruct (handle_all s fs1) as [s1|e] eqn:E.
  - destruct Ho as (r1 & -> & He1). cbn [mbind res_bind].
    destruct (IH s1 r1 fs2 He1 Hd Hok) as (fs3 & fs4 & -> & Ho).
    exists (fs1 ++ fs3), fs4. split; [by rewrite app_assoc|]. by rewrite handle_all_app, E.
  - rewrite Ho. exists fs1, fs2. split; [done|]. by rewrite E.
Qed.

(** ** Properties *)

(** C20: the frames that were sent are the frames that are handled, in order and once
    each, however the bytes were split on the way into reads of whole words; the
    reader is between two frames again at the end. *)
Theorem msg_switch_read_frames s fs bufs :
  Forall frame_ok fs → concat bufs = concat (frame_bytes <$> fs) →
  Forall (λ c, (4 | Z.of_nat (length c))) bufs →
  read_all s idle bufs = (s' ← handle_all s fs; Done (s', idle)).
Proof.
  intros Hok Hc Hd.
  destruct (read_all_outcome s idle fs bufs []) as (fs1 & fs2 & E & Ho); try done.
  { rewrite app_nil_r, Hc. constructor. }
  rewrite E, handle_all_app. destruct (handle_all s fs1) as [s1|e]; [|done].
  destruct Ho as (r & -> & He). cbn [mbind res_bind].
  remember (@nil Z) as rem eqn:Er. destruct He as [fs2|f fs2 d b _ Hne _]; [|by destruct b].
  destruct fs2 as [|f fs2]; [done|]. rewrite stream_cons in Er. discriminate.
Qed.


Lemma msg_switch_read_frames_witness :
  read_all (msg_switch_new 3 0) idle [int_bytes 1 ++ int_bytes 5; [1; 0; 0; 0]]
  = Done (msg_switch_new 3 0, idle).
Proof.
  rewrite (msg_switch_read_frames (msg_switch_new 3 0) [FResp (Resp 5 1)]).
  - vm_compute. reflexivity.
  - repeat constructor; simpl; unfold is_int; lia.
  - reflexivity.
  - repeat constructor; [by exists 2 | by exists 1].
Defined.

(** A read that ends inside a type word makes the next access run past the bytes that
    arrived. *)
Lemma msg_switch_read_split_word s c :
  (0 < length c < 4)%nat → msg_switch_read s idle (inr c) = Fault OutOfBounds.
Proof.
  intros H. unfold msg_switch_read. cbn [read_frames]. destruct c as [|x c]; [simpl in H; lia|].
  cbn [idle rd_type Z.eqb]. destruct (Nat.ltb_spec (length (x :: c)) 4); [done | lia].
Qed.
