(* ===== verification/MsgFlow.v ===== *)
(** msg_switch.c: what an operation does to the bytes of one message, whatever the state
    is.  [flow] says what the message takes from its user and from the channel and what it
    gives to them, in order and without a loss; [acts] says that the operation does this to
    one message and leaves the others alone.  MsgLink puts two switches together. *)

From Stdlib Require Import ZArith Lia String.
From S2P Require Export MsgFrames MsgStream.

Local Open Scope Z_scope.

(** ** What an operation does to a message *)

(** The message is in use at both ends. *)
Definition opened (m : msg_t) : Prop :=
  isset m MSG_STAT_CLOSED = false ∧ isset m MSG_STAT_DISCONNECTED = false ∧
  isset m MSG_STAT_SENT_DISCONNECT = false.

(** A whole packet of the message with this identifier. *)
Definition sendable (x : Z) (pk : msg_packet_t) : Prop := pk_msgid pk = x ∧ received pk.

Record well (m : msg_t) : Prop := {
  we_open : opened m;
  we_queue : Forall (sendable (wire_id m)) (m_writ_queue m);
  we_incomplete : ∀ pk, m_incomplete m = Some pk → pk_msgid pk = wire_id m ∧ filling pk;
  we_packets : Forall received (m_read_queue m);
  we_pos : position_ok m
}.

(** The same message. *)
Definition same_link (m m' : msg_t) : Prop :=
  m_msgid m' = m_msgid m ∧ m_imsgid m' = m_imsgid m ∧ m_type m' = m_type m.

(** The message takes [buf] from its user and [recvd] from the channel, and gives [out] to
    its user and [sent] to the channel. *)
Definition flow (buf out recvd sent : bytes) (m m' : msg_t) : Prop :=
  same_link m m' ∧
  (well m → well m' ∧ writ_stream m ++ buf = sent ++ writ_stream m' ∧ read_stream m ++ recvd = out ++ read_stream m').

Abbreviation still := (flow [] [] [] []).

Lemma flow_trans b1 o1 r1 s1 b2 o2 r2 s2 m m1 m2 :
  flow b1 o1 r1 s1 m m1 → flow b2 o2 r2 s2 m1 m2 →
  flow (b1 ++ b2) (o1 ++ o2) (r1 ++ r2) (s1 ++ s2) m m2.
Proof.
  intros [(E1 & E2 & E3) H1] [(F1 & F2 & F3) H2]. split; [by split_and!; etransitivity; eauto|].
  intros Hw. destruct (H1 Hw) as (Hw1 & Hs1 & Hr1). destruct (H2 Hw1) as (Hw2 & Hs2 & Hr2).
  split; [done|]. rewrite !app_assoc, Hs1, Hr1, <- !app_assoc. by rewrite Hs2, Hr2.
Qed.

(** Two messages with the same data, and the same marks of a close. *)
Definition alike (m m' : msg_t) : Prop :=
  m' = with_selectable (with_status m (m_status m')) (m_selectable m') ∧
  ∀ g, g = MSG_STAT_CLOSED ∨ g = MSG_STAT_DISCONNECTED ∨ g = MSG_STAT_SENT_DISCONNECT → isset m' g = isset m g.

Lemma alike_refl m : alike m m.
Proof. split; [by destruct m|done]. Qed.

Lemma alike_trans m m1 m2 : alike m m1 → alike m1 m2 → alike m m2.
Proof.
  intros [E1 H1] [E2 H2]. split; [rewrite E2 at 1; by rewrite E1|]. intros g Hg. by rewrite H2, H1.
Qed.

Lemma alike_flow m m' : alike m m' → still m m'.
Proof.
  intros [E H]. split; [rewrite E; done|]. intros [(O1 & O2 & O3) Hq Hi Hp Hpos].
  rewrite !app_nil_r, !app_nil_l. split; [|by rewrite E]. split.
  - split_and!; by rewrite H by auto.
  - by rewrite E.
  - rewrite E. exact Hi.
  - by rewrite E.
  - rewrite E. exact Hpos.
Qed.

Lemma still_refl m : still m m.
Proof. apply alike_flow, alike_refl. Qed.

(** A mark that has nothing to do with a close. *)
Lemma set_flag_alike f m :
  Z.land f MSG_STAT_CLOSED = 0 → Z.land f MSG_STAT_DISCONNECTED = 0 → Z.land f MSG_STAT_SENT_DISCONNECT = 0 →
  alike m (set_flag f m).
Proof. intros H1 H2 H3. split; [by destruct m|]. intros g [->|[->| ->]]; by rewrite isset_set_other. Qed.
Lemma clr_flag_alike f m :
  Z.land f MSG_STAT_CLOSED = 0 → Z.land f MSG_STAT_DISCONNECTED = 0 → Z.land f MSG_STAT_SENT_DISCONNECT = 0 →
  alike m (clr_flag f m).
Proof. intros H1 H2 H3. split; [by destruct m|]. intros g [->|[->| ->]]; by rewrite isset_clr_other. Qed.
Lemma selectable_alike b m : alike m (with_selectable m b).
Proof. split; [by destruct m|]. done. Qed.

(** ** What an operation does to a switch *)

Definition resps_ok (s : msg_switch_t) : Prop := Forall (λ r, r_status r = MSG_RESP_OK) (s_pending_resps s).

(** The list of the descriptors is well formed. *)
Definition hash_ok (s : msg_switch_t) : Prop := ∃ l, rep (s_active_hash s) l.

(** Only the message in slot [p] changes, as [R] says. *)
Record acts (p : nat) (R : msg_t → msg_t → Prop) (s s' : msg_switch_t) : Prop := {
  ac_others : ∀ r, r ≠ p → s_msgs s' !! r = s_msgs s !! r;
  ac_here : ∃ m m', s_msgs s !! p = Some (Some m) ∧ s_msgs s' !! p = Some (Some m') ∧ R m m';
  ac_map : s_imsgid_map s' = s_imsgid_map s;
  ac_resps : resps_ok s → resps_ok s';
  ac_hash : hash_ok s → hash_ok s'
}.

Lemma acts_trans p (R1 R2 R : msg_t → msg_t → Prop) s s1 s2 :
  acts p R1 s s1 → acts p R2 s1 s2 → (∀ m m1 m2, R1 m m1 → R2 m1 m2 → R m m2) → acts p R s s2.
Proof.
  intros [H1 (m & m1 & Hm & Hm1 & HR1) H3 H4 H5] [G1 (m1' & m2 & Hm1' & Hm2 & HR2) G3 G4 G5] HR. split.
  - intros r Hr. by rewrite G1, H1.
  - exists m, m2. split_and!; try done. eapply HR; [done|]. congruence.
  - congruence.
  - auto.
  - auto.
Qed.

Lemma acts_mono p (R R' : msg_t → msg_t → Prop) s s' :
  acts p R s s' → (∀ m m', s_msgs s !! p = Some (Some m) → R m m' → R' m m') → acts p R' s s'.
Proof. intros [H1 (m & m' & Hm & Hm' & HR) H3 H4 H5] H. split; try done. exists m, m'. split_and!; eauto. Qed.

Lemma acts_same s p m (R : msg_t → msg_t → Prop) : s_msgs s !! p = Some (Some m) → R m m → acts p R s s.
Proof. intros Hp HR. split; try done. by exists m, m. Qed.

Lemma acts_put s p m m' : s_msgs s !! p = Some (Some m) → acts p (λ x y, x = m ∧ y = m') s (put_m s p m').
Proof.
  intros Hp. split; try done.
  - intros r Hr. by apply put_m_lookup_ne.
  - exists m, m'. split_and!; try done. by eapply put_m_lookup.
Qed.

Lemma acts_upd s p f s' : upd_m s p f = Done s' → acts p (λ x y, y = f x) s s'.
Proof.
  intros H. unfold upd_m in H. apply res_bind_inv in H as (m & E & [= <-]). apply get_m_inv in E.
  eapply acts_mono; [by apply acts_put|]. by intros ? ? _ [-> ->].
Qed.

(** A change of the switch beside the messages. *)
Lemma acts_beside p R s s1 s' :
  acts p R s s1 → s_msgs s' = s_msgs s1 → s_imsgid_map s' = s_imsgid_map s1 →
  (resps_ok s1 → resps_ok s') → (hash_ok s1 → hash_ok s') → acts p R s s'.
Proof.
  intros [H1 (m & m' & Hm & Hm' & HR) H3 H4 H5] E1 E2 E3 E4. split; [by rewrite E1| |congruence|auto|auto].
  exists m, m'. by rewrite E1.
Qed.

(** *** The parts of the operations *)

Lemma check_acts s p s' : msg_check_selectability s p = Done s' → acts p alike s s'.
Proof.
  intros H. unfold msg_check_selectability in H. binds. apply get_m_inv in E. repeat case_match; binds.
  - eapply acts_beside; [eapply acts_mono; [by apply acts_put|]| | | |]; try done.
    intros ? ? _ [-> ->]. apply selectable_alike.
  - eapply acts_beside; [eapply acts_mono; [by apply acts_put|]| | | |]; try done.
    intros ? ? _ [-> ->]. apply selectable_alike.
  - eapply acts_same; [done|apply alike_refl].
Qed.

Lemma check_exact s p m s' :
  s_msgs s !! p = Some (Some m) → msg_check_selectability s p = Done s' →
  ∃ b, s_msgs s' !! p = Some (Some (with_selectable m b)) ∧ s_pending_resps s' = s_pending_resps s.
Proof.
  intros Hp H. unfold msg_check_selectability in H. rewrite (get_m_Done _ _ _ Hp) in H. cbn [mbind res_bind] in H.
  apply res_bind_inv in H as (r & _ & H). apply res_bind_inv in H as (w & _ & H).
  destruct (_ || _) in H; [|destruct (m_selectable m) eqn:E]; injection H as <-.
  - exists true. split; [|done]. by eapply put_m_lookup.
  - exists false. split; [|done]. by eapply put_m_lookup.
  - exists (m_selectable m). by destruct m.
Qed.

Lemma send_ok_acts s p s' : msg_send_resp s p MSG_RESP_OK = Done s' → acts p alike s s'.
Proof.
  intros H. unfold msg_send_resp in H. binds. cbn in H. apply acts_upd in H. apply get_m_inv in E.
  assert (acts p eq s (msg_switch_push_resp s (Resp (wire_id x) MSG_RESP_OK))) as H1.
  { eapply acts_beside; [by eapply acts_same| | | |]; try done. intros Hr. apply Forall_app. by split; [|repeat constructor]. }
  eapply acts_trans; [exact H1|exact H|]. intros m m1 m2 -> ->. by apply clr_flag_alike.
Qed.

Lemma update_status_acts s p s' : msg_update_status s p = Done s' → acts p alike s s'.
Proof.
  intros H. unfold msg_update_status in H. binds. apply get_m_inv in E.
  assert (acts p alike s x0) as H1.
  { destruct (isset x _ && _); [by apply send_ok_acts|]. injection E0 as <-. eapply acts_same; [done|apply alike_refl]. }
  clear E0. destruct (isset x1 _ && _); binds; [|done]. apply acts_upd in E0.
  eapply acts_beside; [eapply acts_trans; [exact H1|exact E0|]| | | |]; try done.
  intros m m1 m2 Ha ->. eapply alike_trans; [exact Ha|by apply set_flag_alike].
Qed.

Lemma refresh_acts s p s' : msg_refresh s p = Done s' → acts p alike s s'.
Proof.
  intros H. unfold msg_refresh in H. binds. apply check_acts in E. apply update_status_acts in H.
  eapply acts_trans; [exact E|exact H|apply alike_trans].
Qed.

(** A message that is put back and refreshed. *)
Lemma put_refresh_acts s p m m' s' :
  s_msgs s !! p = Some (Some m) → msg_refresh (put_m s p m') p = Done s' →
  acts p (λ x y, x = m ∧ alike m' y) s s'.
Proof.
  intros Hp H. apply refresh_acts in H. eapply acts_trans; [by apply acts_put|exact H|].
  by intros x y z [-> ->] Ha.
Qed.

(** *** Writing *)

Lemma full_received pk : full pk → received pk.
Proof. intros [H1 H2]. split; [|done]. rewrite H1. lia. Qed.

Lemma filling_pad pk : filling pk → received (pad_packet pk) ∧ payload (pad_packet pk) = pk_data pk.
Proof.
  intros [H1 H2]. unfold pad_packet. split.
  - split; cbn; [lia|]. rewrite length_app, length_replicate. lia.
  - unfold payload. cbn. rewrite H1, Nat2Z.id. apply take_app_length.
Qed.

(** The packet that was filled goes to the queue, perhaps with zeros behind its data. *)
Lemma writ_pushed_flow m pk0 pk :
  m_incomplete m = Some pk0 → (well m → payload pk = pk_data pk0 ∧ sendable (wire_id m) pk) →
  still m (writ_pushed m pk).
Proof.
  intros Hi Hpk. set (m1 := with_incomplete (with_writ_queue m (m_writ_queue m ++ [pk])) None).
  assert (alike m1 (writ_pushed m pk)) as Ha.
  { unfold writ_pushed. cbv zeta. fold m1. case_test.
    - eapply alike_trans; [by apply (set_flag_alike MSG_STAT_PACKET_AVAIL_TO_WRIT)|by apply clr_flag_alike].
    - by apply set_flag_alike. }
  apply alike_flow in Ha. eapply (flow_trans [] [] [] [] [] [] [] [] m m1); [|exact Ha].
  split; [done|]. intros Hw. destruct (Hpk Hw) as [Hp Hs]. destruct Hw as [H1 H2 H3 H4 H5]. split; [|split].
  - split; try done. apply Forall_app. split; [done|]. by apply Forall_singleton.
  - unfold writ_stream. cbn. rewrite Hi, fmap_app, concat_app. cbn. by rewrite Hp, !app_nil_r.
  - by rewrite app_nil_r.
Qed.

Lemma push_writ_acts s p s' m pk0 pk :
  s_msgs s !! p = Some (Some m) → m_incomplete m = Some pk0 →
  (well m → payload pk = pk_data pk0 ∧ sendable (wire_id m) pk) →
  msg_push_writ_packet (put_m s p (with_incomplete m (Some pk))) p = Done s' → acts p still s s'.
Proof.
  intros Hp Hi Hpk H. unfold msg_push_writ_packet in H. rewrite (get_put_m _ _ _ _ Hp) in H.
  cbn [mbind res_bind with_incomplete m_incomplete] in H.
  rewrite put_m_put_m in H. change (msg_refresh _ p) with (msg_refresh (put_m s p (writ_pushed m pk)) p) in H.
  eapply acts_mono; [by eapply put_refresh_acts|]. intros x y _ [-> Ha].
  eapply (flow_trans [] [] [] [] [] [] [] []); [by eapply writ_pushed_flow|by apply alike_flow].
Qed.

Lemma put_m_id s p m : s_msgs s !! p = Some (Some m) → put_m s p m = s.
Proof. intros H. unfold put_m, put_msgs. rewrite list_insert_id by done. by destruct s. Qed.

(** A new packet to fill; the old one, if there is one, is full. *)
Lemma packet_new_acts s p m s' :
  s_msgs s !! p = Some (Some m) → (∀ pk, m_incomplete m = Some pk → pk_size pk = Z.of_nat PACK_DATA_SIZE) →
  msg_packet_new s p = Done s' → acts p (λ x y, x = m ∧ still m y ∧ is_Some (m_incomplete y)) s s'.
Proof.
  intros Hp Hfull H. unfold msg_packet_new in H. rewrite (get_m_Done _ _ _ Hp) in H. cbn [mbind res_bind] in H.
  apply res_bind_inv in H as (s1 & E & H).
  assert (acts p (λ x y, x = m ∧ still m y ∧ m_incomplete y = None) s s1) as H1.
  { destruct (m_incomplete m) as [pk|] eqn:Ei.
    - assert (s1 = s1 ∧ acts p (λ x y, x = m ∧ alike (writ_pushed m pk) y) s s1) as [_ Ha].
      { split; [done|]. unfold msg_push_writ_packet in E. rewrite (get_m_Done _ _ _ Hp) in E. cbn [mbind res_bind] in E.
        rewrite Ei in E. by eapply put_refresh_acts. }
      eapply acts_mono; [exact Ha|]. intros x y _ [-> Hy]. split; [done|]. split.
      + eapply (flow_trans [] [] [] [] [] [] [] []); [|by apply alike_flow]. eapply writ_pushed_flow; [exact Ei|].
        intros Hw. destruct (we_incomplete _ Hw pk Ei) as [Hid Hf]. pose proof (filling_full _ Hf (Hfull pk eq_refl)) as Hfl.
        split; [by apply payload_full|]. split; [done|by apply full_received].
      + destruct Hy as [-> _]. unfold writ_pushed. cbv zeta. by case_test.
    - injection E as <-. eapply acts_same; [done|]. split; [done|]. split; [apply still_refl|done]. }
  apply acts_upd in H. eapply acts_trans; [exact H1|exact H|].
  intros x y z (-> & Hy & Hn) ->. split; [done|]. split; [|by eexists].
  eapply (flow_trans [] [] [] [] [] [] [] []); [exact Hy|]. split; [done|]. intros [W1 W2 W3 W4 W5]. split; [|split].
  - split; try done. intros pk [= <-]. split; [done|]. split; cbn; [done|lia].
  - unfold writ_stream. cbn. rewrite Hn. by rewrite !app_nil_r.
  - by rewrite app_nil_r.
Qed.

(** Bytes that fit the packet. *)
Lemma put_chunk_flow m pk chunk :
  m_incomplete m = Some pk → (filling pk → (Z.to_nat (pk_size pk) + length chunk <= PACK_DATA_SIZE)%nat) →
  flow chunk [] [] [] m (with_incomplete m (Some (Packet (pk_msgid pk) (pk_size pk + Z.of_nat (length chunk)) (pk_type pk)
                                                    (pk_data pk ++ chunk)))).
Proof.
  intros Hi Hle. split; [done|]. intros [W1 W2 W3 W4 W5]. destruct (W3 pk Hi) as [Hid [F1 F2]]. specialize (Hle (conj F1 F2)).
  split; [|split].
  - split; try done. intros pk' [= <-]. split; [done|]. split; cbn; rewrite length_app; lia.
  - unfold writ_stream. cbn. by rewrite Hi, app_assoc.
  - by rewrite app_nil_r.
Qed.

Lemma write_loop_acts fuel s p m data s' :
  s_msgs s !! p = Some (Some m) → write_loop fuel s p data = Done s' → acts p (flow data [] [] []) s s'.
Proof.
  revert s m data. induction fuel as [|fuel IH]; intros s m data Hp H; [done|]. cbn [write_loop] in H.
  destruct data as [|c data]; [injection H as <-; eapply acts_same; [done|apply still_refl]|].
  rewrite (get_m_Done _ _ _ Hp) in H. cbn [mbind res_bind] in H.
  destruct (m_incomplete m) as [pk|] eqn:Ei; [|done]. cbn [deref mbind res_bind] in H.
  apply res_bind_inv in H as (s1 & E & H). apply res_bind_inv in H as (m1 & E1 & H). apply get_m_inv in E1.
  assert (acts p still s s1) as H1.
  { destruct (Z.eqb_spec (pk_size pk) (Z.of_nat PACK_DATA_SIZE)) as [Hs|_].
    - eapply acts_mono; [eapply packet_new_acts; [done| |exact E]; congruence|]. by intros x y _ (-> & Hy & _).
    - injection E as <-. eapply acts_same; [done|apply still_refl]. }
  destruct (m_incomplete m1) as [pk1|] eqn:Ei1; [|done]. cbn [deref mbind res_bind] in H. cbv zeta in H.
  set (room := (PACK_DATA_SIZE - Z.to_nat (pk_size pk1))%nat) in *. set (chunk := take room (c :: data)) in *.
  apply (IH (put_m s1 p (with_incomplete m1 (Some (Packet (pk_msgid pk1) (pk_size pk1 + Z.of_nat (length chunk)) (pk_type pk1)
    (pk_data pk1 ++ chunk)))))) with (m := with_incomplete m1 (Some (Packet (pk_msgid pk1) (pk_size pk1 + Z.of_nat (length chunk))
    (pk_type pk1) (pk_data pk1 ++ chunk)))) in H; [|by eapply put_m_lookup].
  rewrite <- (take_drop room (c :: data)). fold chunk.
  eapply acts_trans; [exact H1| |intros x y z Hx Hy; exact (flow_trans [] [] [] [] _ [] [] [] x y z Hx Hy)].
  eapply acts_trans; [eapply acts_mono; [by apply acts_put|]|exact H|].
  - intros x y _ [-> ->]. apply (put_chunk_flow m1 pk1 chunk Ei1). intros [F1 F2]. unfold chunk, room.
    rewrite length_take. lia.
  - intros x y z Hx Hy. exact (flow_trans chunk [] [] [] _ [] [] [] x y z Hx Hy).
Qed.

Lemma packet_new_still s p m s' :
  s_msgs s !! p = Some (Some m) → m_incomplete m = None → msg_packet_new s p = Done s' → acts p still s s'.
Proof.
  intros Hp Hi H. eapply acts_mono; [eapply packet_new_acts; [done| |exact H]; by rewrite Hi|].
  by intros x y _ (-> & Hy & _).
Qed.

Lemma flush_acts s p msgid s' r :
  msg_get s msgid = Done (Some p) → msg_flush s msgid = Done (s', r) → acts p still s s'.
Proof.
  intros Hg H. unfold msg_flush in H. rewrite Hg in H. cbn [mbind res_bind msg_closed] in H. binds.
  apply get_m_inv in E0. assert (acts p still s s) as Hid by (eapply acts_same; [done|apply still_refl]).
  destruct (isset x0 MSG_STAT_CLOSED); [by binds|]. binds. apply get_m_inv in E. assert (x0 = x) as -> by congruence.
  destruct (m_incomplete x) as [pk|] eqn:Ei; binds; [|done].
  eapply push_writ_acts; [done|exact Ei| |done]. intros Hw.
  destruct (we_incomplete _ Hw pk Ei) as [Hid' Hf]. destruct (filling_pad _ Hf) as [Hr Hp]. by split; [|split].
Qed.

(** What a call of [msg_write] took. *)
Definition taken (r : ret) (buf : bytes) : bytes := match r with Ret _ => buf | Err _ => [] end.

Lemma write_acts s p msgid buf s' r :
  msg_get s msgid = Done (Some p) → msg_write s msgid buf = Done (s', r) → acts p (flow (taken r buf) [] [] []) s s'.
Proof.
  intros Hg H. unfold msg_write in H. rewrite Hg in H. cbn [mbind res_bind msg_closed] in H. binds.
  apply get_m_inv in E0. assert (acts p still s s) as Hid by (eapply acts_same; [done|apply still_refl]).
  destruct (isset x0 MSG_STAT_CLOSED); [by binds|]. binds. apply get_m_inv in E. assert (x0 = x) as -> by congruence.
  destruct (isset x MSG_STAT_DISCONNECTED); [by binds|]. destruct (negb _); [by binds|].
  apply res_bind_inv in H as (s1 & E1 & H). apply res_bind_inv in H as (s2 & E2 & H). injection H as <- <-.
  assert (acts p still s s1) as H1.
  { destruct (m_incomplete x) eqn:Ei; [by binds|]. by eapply packet_new_still. }
  destruct (ac_here _ _ _ _ H1) as (_ & m1 & _ & Hm1 & _). apply (write_loop_acts _ _ _ _ _ _ Hm1) in E2.
  eapply acts_trans; [exact H1|exact E2|]. intros a b c Ha Hb. exact (flow_trans [] [] [] [] buf [] [] [] _ _ _ Ha Hb).
Qed.

(** *** Reading *)

Lemma read_popped_flow m pk q :
  m_read_queue m = pk :: q → m_cur_pos m = pk_size pk → still m (read_popped m).
Proof.
  intros Hq Hpos. set (m1 := with_cur_pos (with_read_queue m q) 0).
  assert (alike m1 (read_popped m)) as Ha.
  { unfold read_popped. cbv zeta. rewrite Hq. cbn [tail]. fold m1.
    set (m2 := if has_packets (m_read_queue m1) MSG_N_BUFF_PACKETS_ALLOWED then m1 else _).
    assert (alike m1 m2) as H2 by (unfold m2; case_test; [apply alike_refl|by apply set_flag_alike]).
    clearbody m2. case_test; [done|]. eapply alike_trans; [exact H2|]. by apply clr_flag_alike. }
  eapply (flow_trans [] [] [] [] [] [] [] []); [|by apply alike_flow].
  split; [done|]. intros [W1 W2 W3 W4 W5]. rewrite Hq in W4. apply Forall_cons in W4 as [Hpk Hr]. split; [|split].
  - split; try done. unfold position_ok. cbn. destruct q as [|pk' q]; [done|].
    apply Forall_cons in Hr as [[? _] _]. lia.
  - by rewrite app_nil_r.
  - unfold read_stream. cbn. rewrite app_nil_r, Hq, Hpos. cbn.
    rewrite drop_app_ge by (rewrite payload_length by done; lia). by rewrite payload_length, Nat.sub_diag by done.
Qed.

Lemma pop_read_acts s p m pk q s' :
  s_msgs s !! p = Some (Some m) → m_read_queue m = pk :: q → m_cur_pos m = pk_size pk →
  msg_pop_read_packet s p = Done s' → acts p still s s'.
Proof.
  intros Hp Hq Hpos H. unfold msg_pop_read_packet in H. rewrite (get_m_Done _ _ _ Hp) in H. cbn [mbind res_bind] in H.
  change (msg_refresh _ p) with (msg_refresh (put_m s p (read_popped m)) p) in H.
  eapply acts_mono; [by eapply put_refresh_acts|]. intros x y _ [-> Ha].
  eapply (flow_trans [] [] [] [] [] [] [] []); [by eapply read_popped_flow|by apply alike_flow].
Qed.

(** The position moves over a chunk. *)
Lemma read_chunk_flow m pk q size :
  m_read_queue m = pk :: q →
  flow [] (take (read_chunk pk (m_cur_pos m) size) (drop (Z.to_nat (m_cur_pos m)) (pk_data pk))) [] [] m
    (with_cur_pos m (m_cur_pos m + Z.of_nat (read_chunk pk (m_cur_pos m) size))).
Proof.
  intros Hq. split; [done|]. intros [W1 W2 W3 W4 W5]. pose proof W4 as Hall. rewrite Hq in W4.
  apply Forall_cons in W4 as [Hpk Hr]. unfold position_ok in W5. rewrite Hq in W5.
  rewrite (read_chunk_min pk _ size Hpk W5). set (chunk := (_ `min` _)%nat). split; [|split].
  - split; try done. unfold position_ok. cbn. rewrite Hq. lia.
  - by rewrite app_nil_r.
  - unfold read_stream. cbn. rewrite app_nil_r, Hq.
    rewrite (read_stream_step pk q (Z.to_nat (m_cur_pos m)) chunk Hpk) by lia. do 2 f_equal. lia.
Qed.

Lemma read_loop_acts fuel s p m size acc s' res :
  s_msgs s !! p = Some (Some m) → read_loop fuel s p size acc = Done (s', res) →
  ∃ out, res = acc ++ out ∧ acts p (flow [] out [] []) s s'.
Proof.
  revert s m size acc. induction fuel as [|fuel IH]; intros s m size acc Hp H; [done|]. cbn [read_loop] in H.
  assert (acts p still s s) as Hid by (eapply acts_same; [done|apply still_refl]).
  destruct (size =? 0)%nat; [binds; exists []; by rewrite app_nil_r|].
  rewrite (get_m_Done _ _ _ Hp) in H. cbn [mbind res_bind] in H.
  destruct (m_read_queue m) as [|pk q] eqn:Eq; [done|]. cbn [head deref mbind res_bind] in H. cbv zeta in H.
  pose proof (read_chunk_flow m pk q size Eq) as Hfl. set (chunk := read_chunk pk (m_cur_pos m) size) in *.
  set (piece := take chunk (drop (Z.to_nat (m_cur_pos m)) (pk_data pk))) in *.
  destruct (_ <? _)%nat in H; [done|]. set (m1 := with_cur_pos m (m_cur_pos m + Z.of_nat chunk)) in *.
  assert (acts p (flow [] piece [] []) s (put_m s p m1)) as H1.
  { eapply acts_mono; [by apply acts_put|]. by intros x y _ [-> ->]. }
  assert (s_msgs (put_m s p m1) !! p = Some (Some m1)) as Hp1 by (by eapply put_m_lookup).
  assert (∀ s2 out2, acts p (flow [] out2 [] []) (put_m s p m1) s2 → acts p (flow [] (piece ++ out2) [] []) s s2) as Hthen.
  { intros s2 out2 H2. eapply acts_trans; [exact H1|exact H2|]. intros x y z Hx Hy.
    exact (flow_trans [] piece [] [] [] out2 [] [] x y z Hx Hy). }
  destruct (Z.eqb_spec (m_cur_pos m1) (pk_size pk)) as [Hend|_].
  - apply res_bind_inv in H as (s2 & E2 & H). apply res_bind_inv in H as (m2 & Em2 & H). apply get_m_inv in Em2.
    apply (pop_read_acts _ _ m1 pk q) in E2; [|done|done|done].
    destruct (isset m2 MSG_STAT_PACKET_AVAIL_TO_READ).
    + destruct (IH _ _ _ _ Em2 H) as (out & -> & Ha). exists (piece ++ out). split; [by rewrite app_assoc|].
      apply Hthen. eapply acts_trans; [exact E2|exact Ha|]. intros x y z Hx Hy.
      exact (flow_trans [] [] [] [] [] out [] [] x y z Hx Hy).
    + injection H as <- <-. exists piece. split; [done|]. rewrite <- (app_nil_r piece). by apply Hthen.
  - destruct (IH _ _ _ _ Hp1 H) as (out & -> & Ha). exists (piece ++ out). split; [by rewrite app_assoc|]. by apply Hthen.
Qed.

Lemma read_acts s p msgid size s' r out :
  msg_get s msgid = Done (Some p) → msg_read s msgid size = Done (s', r, out) → acts p (flow [] out [] []) s s'.
Proof.
  intros Hg H. unfold msg_read in H. rewrite Hg in H. cbn [mbind res_bind msg_closed] in H. binds.
  apply get_m_inv in E0. assert (acts p still s s) as Hid by (eapply acts_same; [done|apply still_refl]).
  destruct (isset x0 MSG_STAT_CLOSED); [by binds|]. binds. apply get_m_inv in E. assert (x0 = x) as -> by congruence.
  destruct (isset x MSG_STAT_PACKET_AVAIL_TO_READ); [|destruct (isset x MSG_STAT_DISCONNECTED); by binds].
  binds. destruct (read_loop_acts _ _ _ _ _ _ _ _ E E1) as (out' & -> & Ha). exact Ha.
Qed.

(** *** The interests, and accepting *)

Lemma drop_inactive_ok s r w fd h : drop_inactive r w (s_active_hash s) fd = Done h → hash_ok s → ∃ l, rep h l.
Proof.
  intros H Hs. unfold drop_inactive in H. apply res_bind_inv in H as (a & _ & H). apply res_bind_inv in H as (b & _ & H).
  destruct (_ && _); [by eapply fd_hash_remove_ok|]. by injection H as <-.
Qed.

Lemma sets_check_acts s p r w h s' :
  (hash_ok s → ∃ l, rep h l) → msg_check_selectability (put_sets s r w h) p = Done s' → acts p alike s s'.
Proof. intros Hh H. apply check_acts in H as [H1 H2 H3 H4 H5]. split; try done. intros Hs. by apply H5, Hh. Qed.

Lemma interests_acts s msgid p s' :
  msg_get s msgid = Done (Some p) →
  msg_set_read s msgid = Done s' ∨ msg_set_write s msgid = Done s' ∨
  msg_clr_read s msgid = Done s' ∨ msg_clr_write s msgid = Done s' → acts p alike s s'.
Proof.
  intros Hg H. assert (msg_get_assert s msgid = Done p) as Ha by (unfold msg_get_assert; by rewrite Hg).
  destruct H as [H|[H|[H|H]]]; unfold msg_set_read, msg_set_write, msg_clr_read, msg_clr_write in H;
    rewrite Ha in H; cbn [mbind res_bind] in H; binds; (eapply sets_check_acts; [|exact H]).
  - intros Hh. by eapply fd_hash_add_ok.
  - intros Hh. by eapply fd_hash_add_ok.
  - by eapply drop_inactive_ok.
  - by eapply drop_inactive_ok.
Qed.

Lemma accept_acts s p msgid m s' r :
  msg_get s msgid = Done (Some p) → s_msgs s !! p = Some (Some m) → opened m →
  msg_accept s msgid = Done (s', r) → acts p alike s s'.
Proof.
  intros Hg Hp (Hc & Hd & _) H. unfold msg_accept in H. rewrite Hg in H. cbn [mbind res_bind msg_closed] in H.
  rewrite (get_m_Done _ _ _ Hp) in H. cbn [mbind res_bind] in H. rewrite Hc, Hd in H.
  destruct (isset m MSG_STAT_CONNECTED); [binds; eapply acts_same; [done|apply alike_refl]|].
  binds. apply acts_upd in E. apply sets_check_acts in E1; [|intros Hh; by eapply fd_hash_remove_ok]. eapply acts_trans; [exact E|exact E1|].
  intros a b c -> Hy. eapply alike_trans; [|exact Hy]. by apply set_flag_alike.
Qed.

(** *** The channel *)

Lemma read_pushed_flow m pk : received pk → flow [] [] (payload pk) [] m (read_pushed m pk).
Proof.
  intros Hpk.
  set (m1 := if isset m MSG_STAT_CLOSED then with_n_read m (m_n_read m + 1)
             else with_read_queue (with_n_read m (m_n_read m + 1)) (m_read_queue m ++ [pk])).
  assert (alike m1 (read_pushed m pk)) as Ha.
  { unfold read_pushed. cbv zeta. rewrite isset_set_other by done.
    change (isset (with_n_read m (m_n_read m + 1)) MSG_STAT_CLOSED) with (isset m MSG_STAT_CLOSED).
    set (m2 := set_flag MSG_STAT_PACKET_AVAIL_TO_READ _).
    assert (alike m1 m2) as H2.
    { unfold m1, m2. destruct (isset m MSG_STAT_CLOSED); (eapply alike_trans; [|by apply set_flag_alike]);
        [by apply set_flag_alike|].
      eapply alike_trans; [by apply (set_flag_alike MSG_STAT_NEED_TO_SEND_RESP)|]. apply alike_refl. }
    clearbody m2. case_test; [|done]. eapply alike_trans; [exact H2|]. by apply clr_flag_alike. }
  rewrite <- (app_nil_r (payload pk)). apply (flow_trans [] [] (payload pk) [] [] [] [] [] m m1); [|by apply alike_flow].
  unfold m1. split; [by destruct (isset m MSG_STAT_CLOSED)|]. intros [W1 W2 W3 W4 W5].
  destruct W1 as (Hc & Hd & Hs). rewrite Hc. split; [|split].
  - split; try done. cbn. { apply Forall_app. split; [done|]. by apply Forall_singleton. }
    unfold position_ok in *. cbn. destruct (m_read_queue m) as [|pk' q]; cbn; [|done]. rewrite W5. destruct Hpk. lia.
  - by rewrite app_nil_r.
  - unfold read_stream. cbn. rewrite fmap_app, concat_app. cbn. rewrite app_nil_r.
    symmetry. apply drop_app_le. unfold position_ok in W5. destruct (m_read_queue m) as [|pk' q]; [rewrite W5; lia|].
    apply Forall_cons in W4 as [Hpk' _]. cbn. rewrite length_app, payload_length by done. lia.
Qed.

Lemma push_read_acts s p m pk s' :
  s_msgs s !! p = Some (Some m) → received pk → msg_push_read_packet s p pk = Done s' →
  acts p (flow [] [] (payload pk) []) s s'.
Proof.
  intros Hp Hpk H. unfold msg_push_read_packet in H. rewrite (get_m_Done _ _ _ Hp) in H. cbn [mbind res_bind] in H.
  change (msg_refresh _ p) with (msg_refresh (put_m s p (read_pushed m pk)) p) in H.
  eapply acts_mono; [by eapply put_refresh_acts|]. intros x y _ [-> Ha]. rewrite <- (app_nil_r (payload pk)).
  apply (flow_trans [] [] (payload pk) [] [] [] [] [] m (read_pushed m pk)); [by apply read_pushed_flow|by apply alike_flow].
Qed.

Lemma writ_popped_flow m pk q :
  m_writ_queue m = pk :: q → flow [] [] [] (payload pk) m (writ_popped m) ∧ (well m → sendable (wire_id m) pk).
Proof.
  intros Hq. split; [|intros Hw; pose proof (we_queue _ Hw) as Hall; rewrite Hq in Hall; by apply Forall_cons in Hall as [? _]].
  set (m1 := with_writ_queue m q).
  assert (alike m1 (writ_popped m)) as Ha.
  { unfold writ_popped. cbv zeta. rewrite Hq. cbn [tail]. fold m1.
    set (m2 := clr_flag MSG_STAT_WRITING (set_flag MSG_STAT_WAITING_FOR_RESP m1)).
    assert (alike m1 m2) as H2.
    { eapply alike_trans; [by apply (set_flag_alike MSG_STAT_WAITING_FOR_RESP)|by apply clr_flag_alike]. }
    set (m3 := if has_packets (m_writ_queue m2) MSG_N_BUFF_PACKETS_ALLOWED then m2 else _).
    assert (alike m1 m3) as H3.
    { unfold m3. case_test; [done|]. eapply alike_trans; [exact H2|by apply set_flag_alike]. }
    clearbody m3. case_test; [done|]. eapply alike_trans; [exact H3|by apply clr_flag_alike]. }
  rewrite <- (app_nil_r (payload pk)). apply (flow_trans [] [] [] (payload pk) [] [] [] [] m m1); [|by apply alike_flow].
  split; [done|]. intros [W1 W2 W3 W4 W5]. rewrite Hq in W2. apply Forall_cons in W2 as [_ W2]. split; [|split].
  - by split.
  - unfold writ_stream. cbn. rewrite Hq. cbn. by rewrite app_nil_r, app_assoc.
  - by rewrite app_nil_r.
Qed.

Lemma pop_writ_acts s p s' pk :
  msg_pop_writ_packet s p = Done (s', pk) →
  acts p (λ m m', flow [] [] [] (payload pk) m m' ∧ (well m → sendable (wire_id m) pk)) s s'.
Proof.
  intros H. unfold msg_pop_writ_packet in H. apply res_bind_inv in H as (m & E & H). apply get_m_inv in E.
  destruct (m_writ_queue m) as [|pk0 q] eqn:Eq; [done|]. cbn [head deref mbind res_bind] in H.
  apply res_bind_inv in H as (s1 & E1 & H). injection H as <- <-. rewrite <- Eq in E1.
  change (msg_refresh _ p) with (msg_refresh (put_m s p (writ_popped m)) p) in E1.
  eapply acts_mono; [by eapply put_refresh_acts|]. intros x y _ [-> Ha]. destruct (writ_popped_flow _ _ _ Eq) as [H1 H2].
  split; [|done]. rewrite <- (app_nil_r (payload pk0)).
  apply (flow_trans [] [] [] (payload pk0) [] [] [] [] m (writ_popped m)); [done|by apply alike_flow].
Qed.

(** The next frame is an answer that was queued, or the first packet of a message. *)
Lemma next_frame_cases s s' f :
  next_frame s = Done (s', f) →
  (∃ r, f = FResp r ∧ s_msgs s' = s_msgs s ∧ s_imsgid_map s' = s_imsgid_map s ∧
        s_active_hash s' = s_active_hash s ∧ s_pending_resps s = r :: s_pending_resps s') ∨
  (∃ p pk, f = FPack pk ∧
     acts p (λ m m', flow [] [] [] (payload pk) m m' ∧ (well m → sendable (wire_id m) pk)) s s').
Proof.
  intros H. unfold next_frame in H. apply res_bind_inv in H as ([s1 f1] & E & H). injection H as <- <-.
  destruct (s_pending_resps s) as [|r rs] eqn:Er.
  - right. apply res_bind_inv in E as (p & _ & E). apply res_bind_inv in E as (m & _ & E).
    apply res_bind_inv in E as ([s2 pk] & E & E2). injection E2 as <- <-. exists p, pk. split; [done|].
    apply pop_writ_acts in E. destruct E as [H1 H2 H3 H4 H5]. destruct (msg_switch_has_avail_writs s2); by split.
  - left. injection E as <- <-. exists r. split; [done|]. by destruct (msg_switch_has_avail_writs _).
Qed.

Lemma recv_ok_acts s p m msgid r s' :
  msg_get s msgid = Done (Some p) → s_msgs s !! p = Some (Some m) → well m → m_msgid m = p → p ≠ 0%nat →
  r_status r = MSG_RESP_OK → msg_recv_resp s msgid r = Done s' → acts p still s s'.
Proof.
  intros Hg Hp Hw Hid Hp0 Hr H. destruct (we_open _ Hw) as (Hc & _ & Hsd).
  unfold msg_recv_resp, msg_get_assert in H. rewrite Hg in H. cbn [mbind res_bind] in H. rewrite Hr in H.
  cbn [Z.eqb MSG_RESP_OK MSG_RESP_DISCON Pos.eqb] in H.
  rewrite (get_m_Done _ _ _ Hp) in H. cbn [mbind res_bind] in H. rewrite Hsd in H.
  apply res_bind_inv in H as (_ & _ & H). apply res_bind_inv in H as (s1 & E1 & H). apply acts_upd in E1.
  assert (acts p alike s s1) as H1.
  { eapply acts_mono; [exact E1|]. intros x y _ ->. by apply clr_flag_alike. }
  destruct (ac_here _ _ _ _ H1) as (m' & m1 & Em & Hp1 & Ha). assert (m' = m) as -> by congruence.
  assert (acts p still s s1) as Hst by (eapply acts_mono; [exact H1|]; intros x y _; apply alike_flow).
  rewrite (get_m_Done _ _ _ Hp1) in H. cbn [mbind res_bind] in H.
  apply res_bind_inv in H as (s2 & E2 & H). apply refresh_acts in H.
  assert (acts p still s s2) as H2; [|eapply acts_trans; [exact H2|exact H|];
    intros x y z Hx Hy; exact (flow_trans [] [] [] [] [] [] [] [] _ _ _ Hx (alike_flow _ _ Hy))].
  destruct (isset m1 MSG_STAT_PACKET_AVAIL_TO_WRIT); [by injection E2 as <-|].
  apply res_bind_inv in E2 as ([s3 r3] & E3 & E2).
  assert (m_msgid m1 = p) as Hid1 by (by destruct Ha as [-> _]). rewrite Hid1 in E3.
  assert (msg_get s1 (Z.of_nat p) = Done (Some p)) as Hg1.
  { unfold msg_get. destruct (Z.eqb_spec (Z.of_nat p) 0); [lia|]. destruct (Z.ltb_spec 0 (Z.of_nat p)); [|lia].
    by rewrite Nat2Z.id, Hp1. }
  apply (flush_acts _ _ _ _ _ Hg1) in E3.
  assert (acts p still s s3) as H3.
  { eapply acts_trans; [exact Hst|exact E3|]. intros x y z Hx Hy.
    exact (flow_trans [] [] [] [] [] [] [] [] _ _ _ Hx Hy). }
  destruct (ac_here _ _ _ _ H3) as (m' & m3 & Em' & Hp3 & [_ Hw3]). assert (m' = m) as -> by congruence.
  destruct (Hw3 Hw) as [[(Hc3 & _) _ _ _ _] _]. rewrite (get_m_Done _ _ _ Hp3) in E2. cbn [mbind res_bind] in E2.
  rewrite Hc3, andb_false_r in E2. by injection E2 as <-.
Qed.

(** *** Opening *)

(** A message that is like [m0] is put into the free slot [p]; the identifiers of the
    other side become [l]. *)
Record makes (p : nat) (m0 : msg_t) (l : list Z) (s s' : msg_switch_t) : Prop := {
  mk_free : s_msgs s !! p = Some None;
  mk_others : ∀ r, r ≠ p → s_msgs s' !! r = s_msgs s !! r;
  mk_here : ∃ m, s_msgs s' !! p = Some (Some m) ∧ alike m0 m;
  mk_map : s_imsgid_map s' = l;
  mk_resps : resps_ok s → resps_ok s';
  mk_hash : hash_ok s → hash_ok s'
}.

Lemma makes_then p m0 l s s1 s' (R : msg_t → msg_t → Prop) :
  makes p m0 l s s1 → acts p R s1 s' → (∀ m m', R m m' → alike m m') → makes p m0 l s s'.
Proof.
  intros [H1 H2 (m & Hm & Ha) H4 H5 H6] [G1 (m1 & m2 & Hm1 & Hm2 & HR) G3 G4 G5] HRa. split; [done| | |congruence|auto|auto].
  - intros r Hr. by rewrite G1, H2.
  - exists m2. split; [done|]. eapply alike_trans; [exact Ha|]. apply HRa. congruence.
Qed.

Lemma create_makes s type s' p :
  msg_create s type = Done (s', p) → makes p (fresh_msg p type) (s_imsgid_map s) s s'.
Proof.
  intros H. unfold msg_create in H. apply res_bind_inv in H as (q & E & H).
  apply res_bind_inv in H as (s1 & E1 & H). injection H as <- <-. fold (fresh_msg q type) in E1.
  apply at_index_Done in E. unfold msg_get_avail_msgid in E. apply avail_from_spec in E as (j & -> & Hj).
  assert (s_msgs s !! S j = Some None) as Hp by (by rewrite lookup_tail in Hj). change (1 + j)%nat with (S j) in *.
  apply check_acts in E1. eapply makes_then; [|exact E1|done]. split; try done.
  - intros r Hr. by apply put_m_lookup_ne.
  - exists (fresh_msg (S j) type). split; [by eapply put_m_lookup|apply alike_refl].
Qed.

Lemma create_exact s type s' p :
  msg_create s type = Done (s', p) →
  s_pending_resps s' = s_pending_resps s ∧ ∃ b, s_msgs s' !! p = Some (Some (with_selectable (fresh_msg p type) b)).
Proof.
  intros H. pose proof (create_makes _ _ _ _ H) as Hmk. unfold msg_create in H. apply res_bind_inv in H as (q & E & H).
  apply res_bind_inv in H as (s1 & E1 & H). injection H as <- <-. fold (fresh_msg q type) in E1.
  assert (s_msgs (put_m s q (fresh_msg q type)) !! q = Some (Some (fresh_msg q type))) as Hq.
  { eapply put_m_lookup. apply (mk_free _ _ _ _ _ Hmk). }
  destruct (check_exact _ _ _ _ Hq E1) as (b & Hb & Ep). split; [by rewrite Ep|by exists b].
Qed.

Lemma open_makes s type s' r :
  msg_open s type = Done (s', r) → ∃ p, r = Ret (Z.of_nat p) ∧ makes p (fresh_msg p type) (s_imsgid_map s) s s'.
Proof.
  intros H. unfold msg_open in H. apply res_bind_inv in H as ([s1 p] & E & H).
  apply res_bind_inv in H as (s2 & E2 & H). apply res_bind_inv in H as (s3 & E3 & H). injection H as <- <-.
  exists p. split; [done|]. apply create_makes in E. apply acts_upd in E2. apply check_acts in E3.
  eapply makes_then; [eapply makes_then; [exact E|exact E2|]|exact E3|done].
  intros m m' ->. by apply set_flag_alike.
Qed.

Lemma alike_imsgid m m' i : alike m m' → alike (with_imsgid m i) (with_imsgid m' i).
Proof. intros [E H]. split; [by rewrite E|]. exact H. Qed.

(** A packet makes the message that it is for, or the message is there. *)
Lemma recv_packet_cases s pk s' :
  msg_recv_packet s pk = Done s' → received pk →
  (∃ p, msg_get s (pk_msgid pk) = Done (Some p) ∧ acts p (flow [] [] (payload pk) []) s s') ∨
  (∃ p s1, msg_get s (pk_msgid pk) = Done None ∧ pk_msgid pk < 0 ∧
     makes p (with_imsgid (fresh_msg p (pk_type pk)) (- pk_msgid pk))
       (<[Z.to_nat (- pk_msgid pk) := Z.of_nat p]> (s_imsgid_map s)) s s1 ∧
     s_pending_resps s1 = s_pending_resps s ∧
     (∃ b, s_msgs s1 !! p = Some (Some (with_imsgid (with_selectable (fresh_msg p (pk_type pk)) b) (- pk_msgid pk)))) ∧ is_Some (s_imsgid_map s !! Z.to_nat (- pk_msgid pk)) ∧
     msg_push_read_packet s1 p pk = Done s' ∧ acts p (flow [] [] (payload pk) []) s1 s').
Proof.
  intros H Hpk. unfold msg_recv_packet in H. apply res_bind_inv in H as ([p|] & E & H).
  - left. exists p. split; [done|]. destruct (msg_get_Some _ _ _ E) as [m Hm]. by eapply push_read_acts.
  - right. apply res_bind_inv in H as ([] & E1 & H). destruct (Z.ltb_spec (pk_msgid pk) 0) as [Hneg|]; [clear E1|done].
    apply res_bind_inv in H as ([s1 p] & E2 & H). apply res_bind_inv in H as (s2 & E3 & H).
    apply res_bind_inv in H as (v & E4 & H). apply res_bind_inv in H as (h & E5 & H). apply at_index_Done in E4.
    rewrite Z.abs_neq in * by lia.
    destruct (create_exact _ _ _ _ E2) as (Ep & b & Hb). apply create_makes in E2.
    assert (s_imsgid_map s1 = s_imsgid_map s) as Hmap by apply (mk_map _ _ _ _ _ E2).
    destruct (mk_here _ _ _ _ _ E2) as (m & Hm & Ha). assert (m = with_selectable (fresh_msg p (pk_type pk)) b) as Emb by congruence.
    unfold upd_m in E3. rewrite (get_m_Done _ _ _ Hm) in E3.
    injection E3 as <-. cbn in E4. rewrite Hmap in E4. 
    match type of H with msg_push_read_packet ?sn _ _ = _ => exists p, sn end. split; [done|]. split; [done|].
    split; [|split; [exact Ep|split; [exists b; rewrite <- Emb; by eapply put_m_lookup|split; [by eexists|split; [exact H|]]]]];
      [|eapply push_read_acts; [|exact Hpk|exact H]; by eapply put_m_lookup].
    destruct E2 as [H1 H2 H3 H4 H5 H6]. split; try done.
    + intros r Hr. cbn. rewrite list_lookup_insert_ne by done. by apply H2.
    + eexists. split; [by eapply put_m_lookup|]. by apply alike_imsgid.
    + cbn. by rewrite Hmap.
    + intros Hs. apply H6 in Hs. by eapply fd_hash_add_ok in E5.
Qed.
