(* ===== verification/MsgLink.v ===== *)
(** msg_switch.c: the two ends of a connection.  A switch sends its frames into a channel,
    and the switch at the other end handles them in order.  What is read from a message is
    the beginning of what was written to it, with the rest still on the way, for every
    order of the operations of the two ends, as long as no message is closed. *)

From Stdlib Require Import ZArith Lia String.
From stdpp Require Import functions.
From S2P Require Export MsgFlow.

Local Open Scope Z_scope.

(** ** The two ends *)

(** An end is a boolean.  [ch l τ] holds the frames that the end [τ] sent and the other end
    has not handled.  What the users wrote to the messages and read from them is kept by
    the slot of the message. *)
Record link := Link {
  sw : bool → msg_switch_t;
  ch : bool → list frame;
  wrote : bool → nat → bytes;
  got : bool → nat → bytes
}.

Definition live (l : link) (τ : bool) (u : nat) (m : msg_t) : Prop := s_msgs (sw l τ) !! u = Some (Some m).

Definition adds (f : bool → nat → bytes) (τ : bool) (u : nat) (b : bytes) : bool → nat → bytes :=
  λ τ' u', if decide (τ' = τ ∧ u' = u) then f τ' u' ++ b else f τ' u'.

Definition with_sw (l : link) (τ : bool) (s : msg_switch_t) : link :=
  Link (<[τ := s]> (sw l)) (ch l) (wrote l) (got l).

(** A call of the API at one of the ends, a frame that is sent when the socket was asked for
    room, and a frame that is handled. *)
Inductive link_step (l : link) : link → Prop :=
| link_open τ type s r :
    msg_open (sw l τ) type = Done (s, r) → link_step l (with_sw l τ s)
| link_accept τ msgid u s r :
    msg_get (sw l τ) msgid = Done (Some u) → msg_accept (sw l τ) msgid = Done (s, r) → link_step l (with_sw l τ s)
| link_flush τ msgid u s r :
    msg_get (sw l τ) msgid = Done (Some u) → msg_flush (sw l τ) msgid = Done (s, r) → link_step l (with_sw l τ s)
| link_interest τ msgid u s :
    msg_get (sw l τ) msgid = Done (Some u) →
    msg_set_read (sw l τ) msgid = Done s ∨ msg_set_write (sw l τ) msgid = Done s ∨
    msg_clr_read (sw l τ) msgid = Done s ∨ msg_clr_write (sw l τ) msgid = Done s → link_step l (with_sw l τ s)
| link_write τ msgid u buf s r :
    msg_get (sw l τ) msgid = Done (Some u) → msg_write (sw l τ) msgid buf = Done (s, r) →
    link_step l (Link (<[τ := s]> (sw l)) (ch l) (adds (wrote l) τ u (taken r buf)) (got l))
| link_read τ msgid u size s r out :
    msg_get (sw l τ) msgid = Done (Some u) → msg_read (sw l τ) msgid size = Done (s, r, out) →
    link_step l (Link (<[τ := s]> (sw l)) (ch l) (wrote l) (adds (got l) τ u out))
| link_send τ s f :
    zs_write_set (sw l τ) = true → next_frame (sw l τ) = Done (s, f) →
    link_step l (Link (<[τ := s]> (sw l)) (<[τ := ch l τ ++ [f]]> (ch l)) (wrote l) (got l))
| link_recv τ f rest s :
    ch l (negb τ) = f :: rest → handle_frame (sw l τ) f = Done s →
    link_step l (Link (<[τ := s]> (sw l)) (<[negb τ := rest]> (ch l)) (wrote l) (got l)).

Definition link_new (fa fb : Z) : link :=
  Link (λ τ, msg_switch_new (if τ then fa else fb) 0) (λ _, []) (λ _ _, []) (λ _ _, []).

Inductive link_reachable (fa fb : Z) : link → Prop :=
| link_start : link_reachable fa fb (link_new fa fb)
| link_next l l' : link_reachable fa fb l → link_step l l' → link_reachable fa fb l'.

(** ** Where the bytes of a message are *)

(** The bytes of the message with this identifier in the channel. *)
Definition carried (x : Z) (f : frame) : bytes :=
  match f with FPack pk => if pk_msgid pk =? x then payload pk else [] | FResp _ => [] end.

Definition in_transit (fs : list frame) (x : Z) : bytes := concat (carried x <$> fs).

(** The message that speaks under the identifier [x] at the end [τ]: what was written to it,
    what of this is not sent, and what it received. *)
Inductive end_of (l : link) (τ : bool) (x : Z) : bytes → bytes → bytes → Prop :=
| end_at u m : live l τ u m → wire_id m = x →
    end_of l τ x (wrote l τ u) (writ_stream m) (got l τ u ++ read_stream m)
| end_none : (∀ u m, live l τ u m → wire_id m ≠ x) → end_of l τ x [] [] [].

(** ** The invariant *)

Record side_ok (s : msg_switch_t) : Prop := {
  so_id : ∀ u m, s_msgs s !! u = Some (Some m) → m_msgid m = u ∧ u ≠ 0%nat ∧ 0 <= m_imsgid m;
  so_well : ∀ u m, s_msgs s !! u = Some (Some m) → well m;
  so_map : ∀ u m, s_msgs s !! u = Some (Some m) → m_imsgid m ≠ 0 →
           s_imsgid_map s !! Z.to_nat (m_imsgid m) = Some (Z.of_nat u);
  so_conv : ∀ k v, s_imsgid_map s !! k = Some v → v ≠ 0 →
            k ≠ 0%nat ∧ ∃ u m, v = Z.of_nat u ∧ s_msgs s !! u = Some (Some m) ∧ m_imsgid m = Z.of_nat k;
  so_resps : resps_ok s;
  so_hash : hash_ok s
}.

Definition owner (s : msg_switch_t) (u : nat) : Prop := ∃ m, s_msgs s !! u = Some (Some m) ∧ m_imsgid m = 0.
Definition speaks (s : msg_switch_t) (x : Z) : Prop := ∃ u m, s_msgs s !! u = Some (Some m) ∧ wire_id m = x.

(** The frames that the switch [s] sent. *)
Definition frame_from (s : msg_switch_t) (f : frame) : Prop :=
  match f with
  | FResp r => r_status r = MSG_RESP_OK
  | FPack pk => received pk ∧ speaks s (pk_msgid pk)
  end.

Record link_inv (l : link) : Prop := {
  li_side : ∀ τ, side_ok (sw l τ);
  li_owner : ∀ τ u m, live l τ u m → m_imsgid m ≠ 0 → owner (sw l (negb τ)) (Z.to_nat (m_imsgid m));
  li_chan : ∀ τ, Forall (frame_from (sw l τ)) (ch l τ);
  li_free : ∀ τ u, s_msgs (sw l τ) !! u = Some None → wrote l τ u = [] ∧ got l τ u = [];
  li_bytes : ∀ τ x w ws g w' ws' g', end_of l τ x w ws g → end_of l (negb τ) (- x) w' ws' g' →
             w = g' ++ in_transit (ch l τ) x ++ ws
}.

(** ** One end *)

(** What an identifier says of its message. *)
Lemma wire_id_cases s u m :
  side_ok s → s_msgs s !! u = Some (Some m) →
  (m_imsgid m = 0 ∧ wire_id m = - Z.of_nat u ∧ wire_id m < 0) ∨ (0 < m_imsgid m ∧ wire_id m = m_imsgid m).
Proof.
  intros Hs Hu. destruct (so_id _ Hs _ _ Hu) as (Hid & Hne & Hi). unfold wire_id.
  rewrite Hid. destruct (Z.eqb_spec (m_imsgid m) 0); [left; lia|right; lia].
Qed.

Lemma wire_unique s u1 m1 u2 m2 :
  side_ok s → s_msgs s !! u1 = Some (Some m1) → s_msgs s !! u2 = Some (Some m2) → wire_id m1 = wire_id m2 → u1 = u2.
Proof.
  intros Hs H1 H2 He.
  destruct (wire_id_cases _ _ _ Hs H1) as [(? & ? & ?)|(? & E1)], (wire_id_cases _ _ _ Hs H2) as [(? & ? & ?)|(? & E2)]; try lia.
  pose proof (so_map _ Hs _ _ H1 ltac:(lia)) as M1. pose proof (so_map _ Hs _ _ H2 ltac:(lia)) as M2.
  assert (m_imsgid m1 = m_imsgid m2) as Heq by lia. rewrite Heq, M2 in M1. injection M1. lia.
Qed.

(** The messages of [s'] are those of [s], with the same identifiers. *)
Lemma acts_same_ids p b o r t s s' u m' :
  acts p (flow b o r t) s s' → s_msgs s' !! u = Some (Some m') →
  ∃ m, s_msgs s !! u = Some (Some m) ∧ same_link m m' ∧ (u ≠ p → m' = m) ∧ (well m → well m').
Proof.
  intros [H1 (m & m1 & Hm & Hm1 & [Hid Hw]) _ _ _] Hu. destruct (decide (u = p)) as [->|Hne].
  - assert (m1 = m') as -> by congruence. exists m. split_and!; try done. intros Hwm. by apply Hw.
  - rewrite H1 in Hu by done. by exists m'.
Qed.

Lemma acts_same_ids' p b o r t s s' u m :
  acts p (flow b o r t) s s' → s_msgs s !! u = Some (Some m) → ∃ m', s_msgs s' !! u = Some (Some m') ∧ same_link m m'.
Proof.
  intros [H1 (m0 & m1 & Hm & Hm1 & [Hid Hw]) _ _ _] Hu. destruct (decide (u = p)) as [->|Hne].
  - assert (m0 = m) as -> by congruence. by exists m1.
  - exists m. by rewrite H1.
Qed.

Lemma same_link_wire m m' : same_link m m' → wire_id m' = wire_id m.
Proof. intros (E1 & E2 & _). unfold wire_id. by rewrite E1, E2. Qed.

Lemma side_acts p b o r t s s' : side_ok s → acts p (flow b o r t) s s' → side_ok s'.
Proof.
  intros [H1 H2 H3 H4 H5 H6] Ha. pose proof (ac_map _ _ _ _ Ha) as Em. split.
  - intros u m' Hu. destruct (acts_same_ids _ _ _ _ _ _ _ _ _ Ha Hu) as (m & Hm & (-> & -> & _) & _). by apply H1.
  - intros u m' Hu. destruct (acts_same_ids _ _ _ _ _ _ _ _ _ Ha Hu) as (m & Hm & _ & _ & Hw). eauto.
  - intros u m' Hu. destruct (acts_same_ids _ _ _ _ _ _ _ _ _ Ha Hu) as (m & Hm & (_ & -> & _) & _). rewrite Em. by apply H3.
  - intros k v Hk Hv. rewrite Em in Hk. destruct (H4 k v Hk Hv) as (Hk0 & u & m & -> & Hu & Hi).
    destruct (acts_same_ids' _ _ _ _ _ _ _ _ _ Ha Hu) as (m' & Hu' & (_ & Hi' & _)). split; [done|].
    exists u, m'. split_and!; [done|done|congruence].
  - by apply (ac_resps _ _ _ _ Ha).
  - by apply (ac_hash _ _ _ _ Ha).
Qed.

Lemma owner_acts p b o r t s s' u : acts p (flow b o r t) s s' → owner s u → owner s' u.
Proof.
  intros Ha (m & Hm & Hi). destruct (acts_same_ids' _ _ _ _ _ _ _ _ _ Ha Hm) as (m' & Hm' & (_ & Hi' & _)).
  exists m'. split; [done|congruence].
Qed.

Lemma speaks_acts p b o r t s s' x : acts p (flow b o r t) s s' → speaks s x → speaks s' x.
Proof.
  intros Ha (u & m & Hm & Hi). destruct (acts_same_ids' _ _ _ _ _ _ _ _ _ Ha Hm) as (m' & Hm' & Hl).
  exists u, m'. split; [done|]. by rewrite (same_link_wire _ _ Hl).
Qed.

Lemma frame_from_mono s s' f : (∀ x, speaks s x → speaks s' x) → frame_from s f → frame_from s' f.
Proof. intros H. destruct f; cbn; [done|]. intros [? ?]. auto. Qed.

(** A new message. *)
Lemma makes_cases p m0 l s s' u m :
  makes p m0 l s s' → s_msgs s' !! u = Some (Some m) → (u = p ∧ alike m0 m) ∨ (u ≠ p ∧ s_msgs s !! u = Some (Some m)).
Proof.
  intros [H1 H2 (m1 & Hm1 & Ha) _ _ _] Hu. destruct (decide (u = p)) as [->|Hne].
  - left. split; [done|]. congruence.
  - right. split; [done|]. by rewrite <- H2.
Qed.

Lemma makes_old p m0 l s s' u m : makes p m0 l s s' → s_msgs s !! u = Some (Some m) → s_msgs s' !! u = Some (Some m).
Proof.
  intros [H1 H2 _ _ _ _] Hu. rewrite H2; [done|]. intros ->. congruence.
Qed.

Lemma fresh_well p type i : well (with_imsgid (fresh_msg p type) i).
Proof.
  split; cbn; try done.
Qed.

Lemma alike_ids m0 m : alike m0 m → m_msgid m = m_msgid m0 ∧ m_imsgid m = m_imsgid m0.
Proof. intros [E _]. by rewrite E. Qed.

Lemma alike_well m0 m : alike m0 m → well m0 → well m.
Proof. intros Ha Hw. by destruct (alike_flow _ _ Ha) as [_ H]; destruct (H Hw) as [? _]. Qed.

Lemma side_open p type s s' :
  side_ok s → p ≠ 0%nat → makes p (fresh_msg p type) (s_imsgid_map s) s s' → side_ok s'.
Proof.
  intros [H1 H2 H3 H4 H5 H6] Hp Hmk. pose proof (mk_map _ _ _ _ _ Hmk) as Em. split.
  - intros u m Hu. destruct (makes_cases _ _ _ _ _ _ _ Hmk Hu) as [[-> Ha]|[_ Hm]]; [|by apply H1].
    by destruct (alike_ids _ _ Ha) as [-> ->].
  - intros u m Hu. destruct (makes_cases _ _ _ _ _ _ _ Hmk Hu) as [[-> Ha]|[_ Hm]]; [|eauto].
    eapply alike_well; [exact Ha|]. exact (fresh_well p type 0).
  - intros u m Hu Hi. rewrite Em. destruct (makes_cases _ _ _ _ _ _ _ Hmk Hu) as [[-> Ha]|[_ Hm]]; [|by apply H3].
    by destruct (alike_ids _ _ Ha) as [_ E].
  - intros k v Hk Hv. rewrite Em in Hk. destruct (H4 k v Hk Hv) as (Hk0 & u & m & -> & Hu & Hi). split; [done|].
    exists u, m. split_and!; try done. by eapply makes_old.
  - by apply (mk_resps _ _ _ _ _ Hmk).
  - by apply (mk_hash _ _ _ _ _ Hmk).
Qed.

(** The table knows no message of this identifier. *)
Lemma msg_get_None s k m u :
  side_ok s → 0 < k → msg_get s (- k) = Done None → s_msgs s !! u = Some (Some m) → m_imsgid m ≠ k.
Proof.
  intros Hs Hk Hg Hu Hi. unfold msg_get in Hg. destruct (Z.eqb_spec (- k) 0); [lia|]. destruct (Z.ltb_spec 0 (- k)); [lia|].
  rewrite Z.abs_opp, Z.abs_eq in Hg by lia. pose proof (so_map _ Hs _ _ Hu ltac:(lia)) as Hm. rewrite Hi in Hm.
  rewrite Hm in Hg. cbn [at_index mbind res_bind] in Hg. destruct (so_id _ Hs _ _ Hu) as (_ & Hne & _).
  destruct (Z.eqb_spec (Z.of_nat u) 0); [lia|]. rewrite Nat2Z.id, Hu in Hg. done.
Qed.

Lemma side_recv p k type s s' :
  side_ok s → p ≠ 0%nat → 0 < k → msg_get s (- k) = Done None → is_Some (s_imsgid_map s !! Z.to_nat k) →
  makes p (with_imsgid (fresh_msg p type) k) (<[Z.to_nat k := Z.of_nat p]> (s_imsgid_map s)) s s' → side_ok s'.
Proof.
  intros Hs Hp Hk Hg Hin Hmk. pose proof (mk_map _ _ _ _ _ Hmk) as Em. pose proof Hs as [H1 H2 H3 H4 H5 H6].
  apply lookup_lt_is_Some in Hin. split.
  - intros u m Hu. destruct (makes_cases _ _ _ _ _ _ _ Hmk Hu) as [[-> Ha]|[_ Hm]]; [|by apply H1].
    destruct (alike_ids _ _ Ha) as [-> ->]. cbn. lia.
  - intros u m Hu. destruct (makes_cases _ _ _ _ _ _ _ Hmk Hu) as [[-> Ha]|[_ Hm]]; [|eauto].
    eapply alike_well; [exact Ha|]. apply fresh_well.
  - intros u m Hu Hi. rewrite Em. destruct (makes_cases _ _ _ _ _ _ _ Hmk Hu) as [[-> Ha]|[_ Hm]].
    + destruct (alike_ids _ _ Ha) as [_ ->]. cbn. by rewrite list_lookup_insert_eq.
    + pose proof (msg_get_None _ _ _ _ Hs Hk Hg Hm) as Hne. destruct (H1 _ _ Hm) as (_ & _ & Hi0).
      rewrite list_lookup_insert_ne by lia. by apply H3.
  - intros i v Hi Hv. rewrite Em in Hi. apply list_lookup_insert_Some in Hi as [(<- & <- & _)|(Hne & Hi)].
    + split; [lia|]. destruct (mk_here _ _ _ _ _ Hmk) as (m & Hm & Ha). exists p, m. destruct (alike_ids _ _ Ha) as [_ ->].
      cbn. split_and!; try done. lia.
    + destruct (H4 i v Hi Hv) as (Hk0 & u & m & -> & Hu & Hui). split; [done|]. exists u, m. split_and!; try done.
      by eapply makes_old.
  - by apply (mk_resps _ _ _ _ _ Hmk).
  - by apply (mk_hash _ _ _ _ _ Hmk).
Qed.

(** ** Both ends *)

Lemma negb_ne (τ σ : bool) : τ ≠ σ → τ = negb σ.
Proof. by destruct τ, σ. Qed.

Lemma adds_ne f τ u b τ' u' : τ' ≠ τ ∨ u' ≠ u → adds f τ u b τ' u' = f τ' u'.
Proof. intros H. unfold adds. rewrite decide_False; [done|]. naive_solver. Qed.

Lemma adds_eq f τ u b : adds f τ u b τ u = f τ u ++ b.
Proof. unfold adds. by rewrite decide_True. Qed.

Lemma adds_nil f τ u τ' u' : adds f τ u [] τ' u' = f τ' u'.
Proof. unfold adds. case_decide; [by rewrite app_nil_r|done]. Qed.

(** The bytes that go to the message that speaks under [x], and to no other. *)
Definition only (x y : Z) (b : bytes) : bytes := if decide (y = x) then b else [].

Lemma only_same x b : only x x b = b.
Proof. unfold only. by rewrite decide_True. Qed.
Lemma only_other x y b : y ≠ x → only x y b = [].
Proof. intros H. unfold only. by rewrite decide_False. Qed.
Lemma only_nil x y : only x y [] = [].
Proof. unfold only. by case_decide. Qed.

(** The end that has not moved. *)
Lemma end_other l l' τ x w ws g :
  s_msgs (sw l' τ) = s_msgs (sw l τ) → (∀ u, wrote l' τ u = wrote l τ u ∧ got l' τ u = got l τ u) →
  end_of l' τ x w ws g → end_of l τ x w ws g.
Proof.
  intros Es Eg H. assert (∀ u m, live l' τ u m ↔ live l τ u m) as Hl by (unfold live; by rewrite Es).
  destruct H as [u m Hu Hx|Hno].
  - destruct (Eg u) as [-> ->]. apply end_at; [by apply Hl|done].
  - apply end_none. intros u m Hu. apply (Hno u m). by apply Hl.
Qed.

Section moved.
Context (l l' : link) (σ : bool) (s' : msg_switch_t) (p : nat) (m : msg_t) (b o r t : bytes).
Hypotheses (Hinv : link_inv l) (Hp : live l σ p m) (Ha : acts p (flow b o r t) (sw l σ) s')
  (Es : sw l' = <[σ := s']> (sw l)) (Ew : ∀ τ u, wrote l' τ u = adds (wrote l) σ p b τ u)
  (Eg : ∀ τ u, got l' τ u = adds (got l) σ p o τ u).

(** The end that has moved. *)
Lemma end_here x w' ws' g' :
  end_of l' σ x w' ws' g' →
  ∃ w ws g, end_of l σ x w ws g ∧ w' = w ++ only (wire_id m) x b ∧
            ws ++ only (wire_id m) x b = only (wire_id m) x t ++ ws' ∧ g' = g ++ only (wire_id m) x r.
Proof.
  intros H. assert (sw l' σ = s') as Es' by (rewrite Es; apply fn_lookup_insert).
  destruct (ac_here _ _ _ _ Ha) as (m0 & m1 & Hm0 & Hm1 & [Hid Hfl]). assert (m0 = m) as -> by (unfold live in Hp; congruence).
  destruct (Hfl (so_well _ (li_side _ Hinv σ) _ _ Hp)) as (_ & Hws & Hrs). clear Hfl.
  destruct H as [u m' Hu Hx|Hno].
  - unfold live in Hu. rewrite Es' in Hu. rewrite Ew, Eg. destruct (decide (u = p)) as [->|Hne].
    + assert (m' = m1) as -> by congruence. rewrite (same_link_wire _ _ Hid) in Hx. subst x.
      exists (wrote l σ p), (writ_stream m), (got l σ p ++ read_stream m). split; [by apply end_at|].
      by rewrite !only_same, !adds_eq, <- !app_assoc, <- Hrs.
    + rewrite (ac_others _ _ _ _ Ha) in Hu by done. rewrite !adds_ne by auto.
      assert (x ≠ wire_id m) as Hxm.
      { intros ->. apply Hne. eapply wire_unique; [apply (li_side _ Hinv σ)|exact Hu|exact Hp|done]. }
      eexists _, _, _. split; [by apply (end_at l σ x u m')|]. rewrite !only_other by done. by rewrite !app_nil_r.
  - assert (x ≠ wire_id m) as Hxm.
    { intros ->. apply (Hno p m1); [unfold live; by rewrite Es'|by apply same_link_wire]. }
    exists [], [], []. rewrite !only_other by done. split_and!; try done. apply end_none. intros u m' Hu Hx.
    destruct (acts_same_ids' _ _ _ _ _ _ _ _ _ Ha Hu) as (m2 & Hm2 & Hl). apply (Hno u m2); [unfold live; by rewrite Es'|].
    by rewrite (same_link_wire _ _ Hl).
Qed.

(** The step keeps the invariant when the channels have changed by what the message took
    and gave. *)
Lemma moved_inv :
  (∀ x, in_transit (ch l' σ) x = in_transit (ch l σ) x ++ only (wire_id m) x t) →
  (∀ x, in_transit (ch l (negb σ)) x = only (- wire_id m) x r ++ in_transit (ch l' (negb σ)) x) →
  (∀ τ, Forall (frame_from (sw l' τ)) (ch l' τ)) →
  link_inv l'.
Proof.
  intros Ht Hr Hch. pose proof Hinv as [H1 H2 H3 H4 H5].
  assert (sw l' σ = s') as Es1 by (rewrite Es; apply fn_lookup_insert).
  assert (sw l' (negb σ) = sw l (negb σ)) as Es2 by (rewrite Es; apply fn_lookup_insert_ne; by destruct σ).
  assert (∀ τ u, owner (sw l τ) u → owner (sw l' τ) u) as Howner.
  { intros τ u Hu. destruct (decide (τ = σ)) as [->|Hne]; [rewrite Es1; by eapply owner_acts|].
    rewrite (negb_ne _ _ Hne) in *. by rewrite Es2. }
  split.
  - intros τ. destruct (decide (τ = σ)) as [->|Hne]; [rewrite Es1; by eapply side_acts|].
    rewrite (negb_ne _ _ Hne), Es2. apply H1.
  - intros τ u m' Hu Hi. apply Howner. unfold live in Hu. destruct (decide (τ = σ)) as [->|Hne].
    + rewrite Es1 in Hu. destruct (acts_same_ids _ _ _ _ _ _ _ _ _ Ha Hu) as (m0 & Hm0 & (_ & E & _) & _).
      rewrite E in *. by apply (H2 σ u m0).
    + rewrite (negb_ne _ _ Hne), Es2 in Hu. rewrite (negb_ne _ _ Hne). by apply (H2 _ u m').
  - done.
  - intros τ u Hu. rewrite Ew, Eg. assert (s_msgs (sw l τ) !! u = Some None ∧ (τ ≠ σ ∨ u ≠ p)) as [Hu' Hne].
    { destruct (decide (τ = σ)) as [->|Hne].
      - rewrite Es1 in Hu. destruct (ac_here _ _ _ _ Ha) as (_ & m1 & _ & Hm1 & _).
        assert (u ≠ p) as Hup by congruence. rewrite (ac_others _ _ _ _ Ha) in Hu by done. auto.
      - rewrite (negb_ne _ _ Hne), Es2 in Hu. rewrite (negb_ne _ _ Hne). split; [done|]. left. by destruct σ. }
    rewrite !adds_ne by done. by apply H4.
  - assert (∀ x w ws g, end_of l' (negb σ) x w ws g → end_of l (negb σ) x w ws g) as Hoth.
    { intros x w ws g. apply end_other; [by rewrite Es2|]. intros u. rewrite Ew, Eg, !adds_ne by (left; by destruct σ). done. }
    intros τ x w ws g w' ws' g' He He'. destruct (decide (τ = σ)) as [->|Hne].
    + apply Hoth in He'. apply end_here in He as (w0 & ws0 & g0 & He & -> & Hs & _).
      rewrite Ht, (H5 σ x _ _ _ _ _ _ He He'), <- !app_assoc, Hs. done.
    + rewrite (negb_ne _ _ Hne), negb_involutive in *. apply Hoth in He.
      apply end_here in He' as (w0 & ws0 & g0 & He' & _ & _ & ->).
      rewrite <- (negb_involutive σ) in He' at 1. rewrite (H5 (negb σ) x _ _ _ _ _ _ He He'), Hr.
      rewrite <- !app_assoc. do 2 f_equal. unfold only. do 2 case_decide; done || lia.
Qed.

End moved.

(** A message that did not speak before. *)
Section made.
Context (l : link) (σ : bool) (s' : msg_switch_t) (p : nat) (m0 : msg_t) (tab : list Z).
Hypotheses (Hinv : link_inv l) (Hmk : makes p m0 tab (sw l σ) s') (Hs' : side_ok s')
  (Hfresh : ∀ u m, live l σ u m → wire_id m ≠ wire_id m0)
  (Hempty : writ_stream m0 = [] ∧ read_stream m0 = [])
  (Howner : m_imsgid m0 ≠ 0 → owner (sw l (negb σ)) (Z.to_nat (m_imsgid m0))).

Lemma made_inv : link_inv (with_sw l σ s').
Proof.
  pose proof Hinv as [H1 H2 H3 H4 H5].
  assert (sw (with_sw l σ s') σ = s') as Es1 by apply fn_lookup_insert.
  assert (sw (with_sw l σ s') (negb σ) = sw l (negb σ)) as Es2 by (apply fn_lookup_insert_ne; by destruct σ).
  assert (∀ τ u m, live l τ u m → live (with_sw l σ s') τ u m) as Hold.
  { intros τ u m Hu. unfold live. destruct (decide (τ = σ)) as [->|Hne]; [rewrite Es1; by eapply makes_old|].
    by rewrite (negb_ne _ _ Hne), Es2 in *. }
  assert (∀ τ u m, live (with_sw l σ s') τ u m → live l τ u m ∨ τ = σ ∧ u = p ∧ alike m0 m) as Hnew.
  { intros τ u m Hu. unfold live in Hu. destruct (decide (τ = σ)) as [->|Hne].
    - rewrite Es1 in Hu. destruct (makes_cases _ _ _ _ _ _ _ Hmk Hu) as [[-> ?]|[_ ?]]; auto.
    - rewrite (negb_ne _ _ Hne), Es2 in *. by left. }
  assert (∀ τ u, owner (sw l τ) u → owner (sw (with_sw l σ s') τ) u) as Hown.
  { intros τ u (m & Hu & Hi). exists m. split; [by apply Hold|done]. }
  split.
  - intros τ. destruct (decide (τ = σ)) as [->|Hne]; [by rewrite Es1|]. rewrite (negb_ne _ _ Hne), Es2. apply H1.
  - intros τ u m Hu Hi. apply Hown. destruct (Hnew _ _ _ Hu) as [Hl|(-> & -> & Ha)]; [by apply (H2 τ u)|].
    destruct (alike_ids _ _ Ha) as [_ E]. rewrite E in *. by apply Howner.
  - intros τ. eapply Forall_impl; [apply H3|]. intros f. apply frame_from_mono. intros x (u & m & Hu & Hx).
    exists u, m. split; [by apply Hold|done].
  - intros τ u Hu. apply H4. destruct (decide (τ = σ)) as [->|Hne]; [|by rewrite (negb_ne _ _ Hne), Es2 in *].
    rewrite Es1 in Hu. destruct (mk_here _ _ _ _ _ Hmk) as (m & Hm & _). rewrite (mk_others _ _ _ _ _ Hmk) in Hu; congruence.
  - assert (∀ τ x w ws g, end_of (with_sw l σ s') τ x w ws g → end_of l τ x w ws g) as Hend.
    { intros τ x w ws g He. destruct He as [u m Hu Hx|Hno].
      - destruct (Hnew _ _ _ Hu) as [Hl|(-> & -> & Ha)]; [by apply (end_at l τ x u m)|].
        destruct (H4 σ p) as [Hw Hg]; [apply (mk_free _ _ _ _ _ Hmk)|]. cbn. rewrite Hw, Hg. destruct Ha as [E Ha], Hempty as [He1 He2].
        assert (writ_stream m = []) as -> by (rewrite E; exact He1).
        assert (read_stream m = []) as -> by (rewrite E; exact He2).
        apply end_none. intros u m' Hu'. rewrite <- Hx, E. by apply (Hfresh u m').
      - apply end_none. intros u m Hu. apply (Hno u m). by apply Hold. }
    intros τ x w ws g w' ws' g' He He'. apply (H5 τ x w ws g w' ws' g'); by apply Hend.
Qed.

End made.

(** An operation of the API on one message. *)
Lemma api_inv l σ s' p b o wr gt :
  link_inv l → acts p (flow b o [] []) (sw l σ) s' →
  (∀ τ u, wr τ u = adds (wrote l) σ p b τ u) → (∀ τ u, gt τ u = adds (got l) σ p o τ u) →
  link_inv (Link (<[σ := s']> (sw l)) (ch l) wr gt).
Proof.
  intros Hinv Ha Ew Eg. destruct (ac_here _ _ _ _ Ha) as (m & m' & Hm & _).
  apply (moved_inv l _ σ s' p m b o [] []); try done.
  - intros x. by rewrite only_nil, app_nil_r.
  - intros x. by rewrite only_nil.
  - intros τ. eapply Forall_impl; [apply (li_chan _ Hinv)|]. intros f. apply frame_from_mono. intros x Hx. cbn.
    destruct (decide (σ = τ)) as [->|Hne]; [rewrite fn_lookup_insert; by eapply speaks_acts|by rewrite fn_lookup_insert_ne].
Qed.

Lemma still_inv l σ s' p : link_inv l → acts p still (sw l σ) s' → link_inv (with_sw l σ s').
Proof. intros Hinv Ha. eapply api_inv; [done|exact Ha| |]; intros τ u; by rewrite adds_nil. Qed.

Lemma alike_inv l σ s' p : link_inv l → acts p alike (sw l σ) s' → link_inv (with_sw l σ s').
Proof. intros Hinv Ha. eapply still_inv; [done|]. eapply acts_mono; [exact Ha|]. intros m m' _. apply alike_flow. Qed.

(** Frames come and go beside the messages. *)
Lemma beside_inv l l' :
  link_inv l →
  (∀ τ, s_msgs (sw l' τ) = s_msgs (sw l τ) ∧ s_imsgid_map (sw l' τ) = s_imsgid_map (sw l τ) ∧
        resps_ok (sw l' τ) ∧ hash_ok (sw l' τ)) →
  (∀ τ x, in_transit (ch l' τ) x = in_transit (ch l τ) x) → (∀ τ, Forall (frame_from (sw l τ)) (ch l' τ)) →
  wrote l' = wrote l → got l' = got l → link_inv l'.
Proof.
  intros [H1 H2 H3 H4 H5] Hs Ht Hc Ew Eg.
  assert (∀ τ u m, live l' τ u m ↔ live l τ u m) as Hl by (intros τ u m; unfold live; by destruct (Hs τ) as [-> _]).
  split.
  - intros τ. destruct (Hs τ) as (E1 & E2 & Hr & Hh), (H1 τ). split; rewrite ?E1, ?E2; done.
  - intros τ u m Hu Hi. destruct (H2 τ u m) as (m' & Hm & Hi'); [by apply Hl|done|]. exists m'. split; [|done]. by apply Hl.
  - intros τ. eapply Forall_impl; [apply Hc|]. intros f. apply frame_from_mono. intros x (u & m & Hu & Hx).
    exists u, m. split; [by apply Hl|done].
  - intros τ u. destruct (Hs τ) as [-> _]. rewrite Ew, Eg. apply H4.
  - assert (∀ τ x w ws g, end_of l' τ x w ws g → end_of l τ x w ws g) as Hend.
    { intros τ x w ws g. apply end_other; [apply Hs|]. intros u. by rewrite Ew, Eg. }
    intros τ x w ws g w' ws' g' He He'. rewrite Ht. apply (H5 τ x w ws g w' ws' g'); by apply Hend.
Qed.

(** A frame that the other end sent reaches the message that it is for. *)
Lemma addressed l σ x p m :
  link_inv l → speaks (sw l (negb σ)) x → msg_get (sw l σ) x = Done (Some p) → live l σ p m → wire_id m = - x.
Proof.
  intros Hinv (u & ms & Hu & Hx) Hg Hp. pose proof (li_side _ Hinv) as Hs. unfold msg_get in Hg.
  destruct (wire_id_cases _ _ _ (Hs (negb σ)) Hu) as [(Hi & Hw & Hlt)|(Hi & Hw)]; rewrite Hx in *.
  - destruct (Z.eqb_spec x 0); [lia|]. destruct (Z.ltb_spec 0 x); [lia|].
    apply res_bind_inv in Hg as (i & Ei & Hg). apply at_index_Done in Ei. destruct (Z.eqb_spec i 0); [done|].
    destruct (so_conv _ (Hs σ) _ _ Ei) as (_ & u' & m' & -> & Hu' & Hi'); [done|]. rewrite Nat2Z.id, Hu' in Hg. injection Hg as <-.
    assert (m' = m) as -> by (unfold live in Hp; congruence).
    destruct (wire_id_cases _ _ _ (Hs σ) Hu') as [(? & _)|(_ & ->)]; lia.
  - destruct (Z.eqb_spec x 0); [lia|]. destruct (Z.ltb_spec 0 x); [|lia].
    destruct (li_owner _ Hinv (negb σ) u ms Hu) as (m' & Hm' & Hi'); [lia|]. rewrite negb_involutive, <- Hw in Hm'.
    rewrite Hm' in Hg. injection Hg as <-. assert (m' = m) as -> by (unfold live in Hp; congruence).
    destruct (wire_id_cases _ _ _ (Hs σ) Hp) as [(_ & -> & _)|(? & _)]; lia.
Qed.

Lemma in_transit_app fs fs' x : in_transit (fs ++ fs') x = in_transit fs x ++ in_transit fs' x.
Proof. unfold in_transit. by rewrite fmap_app, concat_app. Qed.

Lemma carried_only x pk : carried x (FPack pk) = only (pk_msgid pk) x (payload pk).
Proof. cbn. unfold only. destruct (Z.eqb_spec (pk_msgid pk) x); by case_decide. Qed.

(** *** The steps *)

Lemma open_inv l σ type s' r :
  link_inv l → good (sw l σ) → msg_open (sw l σ) type = Done (s', r) → link_inv (with_sw l σ s').
Proof.
  intros Hinv Hg H. pose proof (msg_open_good _ _ _ _ Hg H) as Hg'. apply open_makes in H as (p & _ & Hmk).
  destruct (mk_here _ _ _ _ _ Hmk) as (m & Hm & _). destruct (sh_id _ (good_shape _ Hg') _ _ Hm) as (_ & Hp & _).
  eapply made_inv; [done|exact Hmk|by eapply side_open; [apply Hinv| |]| |done|done].
  intros u mu Hu Hw. change (wire_id (fresh_msg p type)) with (- Z.of_nat p) in Hw.
  pose proof (mk_free _ _ _ _ _ Hmk) as Hfree.
  destruct (wire_id_cases _ _ _ (li_side _ Hinv σ) Hu) as [(_ & E & _)|(? & E)]; [|lia].
  assert (u = p) as -> by lia. unfold live in Hu. congruence.
Qed.

Lemma send_inv l σ s' f :
  link_inv l → next_frame (sw l σ) = Done (s', f) →
  link_inv (Link (<[σ := s']> (sw l)) (<[σ := ch l σ ++ [f]]> (ch l)) (wrote l) (got l)).
Proof.
  intros Hinv H. set (l' := Link _ _ _ _).
  assert (ch l' σ = ch l σ ++ [f] ∧ ch l' (negb σ) = ch l (negb σ)) as [Ec1 Ec2].
  { split; [apply fn_lookup_insert|apply fn_lookup_insert_ne; by destruct σ]. }
  assert (sw l' σ = s' ∧ sw l' (negb σ) = sw l (negb σ)) as [Es1 Es2].
  { split; [apply fn_lookup_insert|apply fn_lookup_insert_ne; by destruct σ]. }
  apply next_frame_cases in H as [(r & -> & E1 & E2 & Eh & E3)|(p & pk & -> & Ha)].
  - assert (Forall (λ r, r_status r = MSG_RESP_OK) (r :: s_pending_resps s')) as Hr
      by (rewrite <- E3; apply (so_resps _ (li_side _ Hinv σ))).
    apply Forall_cons in Hr as [Hr Hrs]. apply (beside_inv l); try done.
    + intros τ. destruct (decide (τ = σ)) as [->|Hne]; [rewrite Es1; split_and!; try done; unfold hash_ok; rewrite Eh; apply (li_side _ Hinv σ)|].
      rewrite (negb_ne _ _ Hne), Es2. split_and!; try done; apply (li_side _ Hinv _).
    + intros τ x. destruct (decide (τ = σ)) as [->|Hne]; [|by rewrite (negb_ne _ _ Hne), Ec2].
      rewrite Ec1, in_transit_app. apply app_nil_r.
    + intros τ. destruct (decide (τ = σ)) as [->|Hne]; [|rewrite (negb_ne _ _ Hne), Ec2; apply Hinv].
      rewrite Ec1. apply Forall_app. split; [apply Hinv|by apply Forall_singleton].
  - destruct (ac_here _ _ _ _ Ha) as (m & m' & Hm & Hm' & _ & Hsend).
    destruct (Hsend (so_well _ (li_side _ Hinv σ) _ _ Hm)) as [Hid Hpk].
    assert (acts p (flow [] [] [] (payload pk)) (sw l σ) s') as Ha' by (eapply acts_mono; [exact Ha|]; by intros ? ? _ [? _]).
    apply (moved_inv l l' σ s' p m [] [] [] (payload pk)); try done.
    + intros τ u. by rewrite adds_nil.
    + intros τ u. by rewrite adds_nil.
    + intros x. rewrite Ec1, in_transit_app, <- Hid, <- carried_only. f_equal. unfold in_transit. cbn [fmap list_fmap concat]. apply app_nil_r.
    + intros x. by rewrite Ec2, only_nil.
    + intros τ. destruct (decide (τ = σ)) as [->|Hne].
      * rewrite Ec1, Es1. apply Forall_app. split.
        -- eapply Forall_impl; [apply Hinv|]. intros f. apply frame_from_mono. intros x. by eapply speaks_acts.
        -- apply Forall_singleton. split; [done|]. destruct (acts_same_ids' _ _ _ _ _ _ _ _ _ Ha' Hm) as (m2 & Hm2 & Hl).
           exists p, m2. split; [done|]. by rewrite (same_link_wire _ _ Hl).
      * rewrite (negb_ne _ _ Hne), Ec2, Es2. apply Hinv.
Qed.

Lemma speaks_with l σ s' τ x :
  (∀ y, speaks (sw l σ) y → speaks s' y) → speaks (sw l τ) x → speaks (sw (with_sw l σ s') τ) x.
Proof.
  intros H Hx. cbn. destruct (decide (σ = τ)) as [->|Hne]; [rewrite fn_lookup_insert; auto|by rewrite fn_lookup_insert_ne].
Qed.

(** A frame leaves the channel and the message takes its bytes. *)
Lemma take_inv l σ s' p m f rest :
  link_inv l → live l σ p m → ch l (negb σ) = f :: rest →
  acts p (flow [] [] (carried (- wire_id m) f) []) (sw l σ) s' →
  (∀ x, carried x f = only (- wire_id m) x (carried (- wire_id m) f)) →
  link_inv (Link (<[σ := s']> (sw l)) (<[negb σ := rest]> (ch l)) (wrote l) (got l)).
Proof.
  intros Hinv Hp Hc Ha Hf. set (l' := Link _ _ _ _).
  assert (ch l' (negb σ) = rest ∧ ch l' σ = ch l σ) as [Ec1 Ec2].
  { split; [apply fn_lookup_insert|apply fn_lookup_insert_ne; by destruct σ]. }
  apply (moved_inv l l' σ s' p m [] [] (carried (- wire_id m) f) []); try done.
  - intros τ u. by rewrite adds_nil.
  - intros τ u. by rewrite adds_nil.
  - intros x. by rewrite Ec2, only_nil, app_nil_r.
  - intros x. by rewrite Ec1, <- Hf, Hc.
  - intros τ. assert (Forall (frame_from (sw l τ)) (ch l' τ)) as Hch.
    { destruct (decide (τ = σ)) as [->|Hne]; [rewrite Ec2; apply Hinv|]. rewrite (negb_ne _ _ Hne), Ec1.
      pose proof (li_chan _ Hinv (negb σ)) as H. rewrite Hc in H. by apply Forall_cons in H as [_ ?]. }
    eapply Forall_impl; [exact Hch|]. intros g. apply frame_from_mono. intros x. apply (speaks_with l).
    intros y. by eapply speaks_acts.
Qed.

Lemma recv_resp_inv l σ s' r rest :
  link_inv l → ch l (negb σ) = FResp r :: rest → handle_frame (sw l σ) (FResp r) = Done s' →
  link_inv (Link (<[σ := s']> (sw l)) (<[negb σ := rest]> (ch l)) (wrote l) (got l)).
Proof.
  intros Hinv Hc H. pose proof (li_chan _ Hinv (negb σ)) as Hall. rewrite Hc in Hall. apply Forall_cons in Hall as [Hr Hall].
  cbn in H. apply res_bind_inv in H as ([p|] & Hg & H).
  - destruct (msg_get_Some _ _ _ Hg) as [m Hp]. pose proof (li_side _ Hinv σ) as Hs. destruct (so_id _ Hs _ _ Hp) as (Hid & Hne & _).
    eapply take_inv; [done|exact Hp|exact Hc| |intros x; by rewrite only_nil].
    eapply recv_ok_acts; [exact Hg|exact Hp|by eapply so_well|done|done|exact Hr|exact H].
  - injection H as <-. set (l' := Link _ _ _ _).
    assert (ch l' (negb σ) = rest ∧ ch l' σ = ch l σ) as [Ec1 Ec2].
    { split; [apply fn_lookup_insert|apply fn_lookup_insert_ne; by destruct σ]. }
    apply (beside_inv l); try done.
    + intros τ. cbn. destruct (decide (τ = σ)) as [->|Hne].
      * rewrite fn_lookup_insert. split_and!; try done; apply (li_side _ Hinv σ).
      * rewrite fn_lookup_insert_ne by done. split_and!; try done; apply (li_side _ Hinv τ).
    + intros τ x. destruct (decide (τ = σ)) as [->|Hne]; [by rewrite Ec2|]. by rewrite (negb_ne _ _ Hne), Ec1, Hc.
    + intros τ. destruct (decide (τ = σ)) as [->|Hne]; [rewrite Ec2; apply Hinv|]. by rewrite (negb_ne _ _ Hne), Ec1.
Qed.

(** The message that a packet makes. *)
Lemma recv_new_inv l σ pk p s1 :
  let m0 := with_imsgid (fresh_msg p (pk_type pk)) (- pk_msgid pk) in
  link_inv l → speaks (sw l (negb σ)) (pk_msgid pk) → msg_get (sw l σ) (pk_msgid pk) = Done None → pk_msgid pk < 0 →
  p ≠ 0%nat → is_Some (s_imsgid_map (sw l σ) !! Z.to_nat (- pk_msgid pk)) →
  makes p m0 (<[Z.to_nat (- pk_msgid pk) := Z.of_nat p]> (s_imsgid_map (sw l σ))) (sw l σ) s1 →
  link_inv (with_sw l σ s1) ∧ (∀ u m, live l σ u m → wire_id m ≠ wire_id m0) ∧
  ∃ m1, s_msgs s1 !! p = Some (Some m1) ∧ wire_id m1 = - pk_msgid pk.
Proof.
  intros m0 Hinv Hsp Hget Hneg Hp0 Htab Hmk. pose proof (li_side _ Hinv σ) as Hs.
  set (k := - pk_msgid pk) in *. assert (0 < k) as Hk by lia. assert (pk_msgid pk = - k) as Ek by lia. rewrite Ek in Hget.
  assert (side_ok s1) as Hs1 by (by eapply side_recv).
  assert (wire_id m0 = k) as Hw0 by (unfold wire_id; cbn; destruct (Z.eqb_spec k 0); lia).
  assert (∀ u m, live l σ u m → wire_id m ≠ wire_id m0) as Hfresh.
  { intros u mu Hu. rewrite Hw0. pose proof (msg_get_None _ _ _ _ Hs Hk Hget Hu) as Hne.
    destruct (wire_id_cases _ _ _ Hs Hu) as [(_ & _ & ?)|(_ & ->)]; [lia|done]. }
  split; [|split; [done|]].
  - eapply made_inv; [done|exact Hmk|done|done|done|]. intros _. destruct Hsp as (u & mu & Hu & Hx).
    destruct (wire_id_cases _ _ _ (li_side _ Hinv (negb σ)) Hu) as [(Hi & E & _)|(? & E)]; [|lia].
    exists mu. split; [|done]. replace (Z.to_nat (m_imsgid m0)) with u by (cbn; lia). done.
  - destruct (mk_here _ _ _ _ _ Hmk) as (m1 & Hm1 & Hal). exists m1. split; [done|].
    destruct (alike_ids _ _ Hal) as [E1 E2]. unfold wire_id in *. by rewrite E1, E2.
Qed.

(** A state is put over another one. *)
Lemma put_twice_inv l σ s1 s' c w g :
  link_inv (Link (<[σ := s']> (sw (with_sw l σ s1))) c w g) → link_inv (Link (<[σ := s']> (sw l)) c w g).
Proof.
  intros Hinv2. assert (∀ τ, <[σ := s']> (sw (with_sw l σ s1)) τ = <[σ := s']> (sw l) τ) as Hsame.
  { intros τ. cbn. destruct (decide (σ = τ)) as [->|Hne]; [by rewrite !fn_lookup_insert|by rewrite !fn_lookup_insert_ne]. }
  eapply (beside_inv _ _ Hinv2); try done.
  - intros τ. cbn. rewrite <- Hsame. pose proof (li_side _ Hinv2 τ) as Hs. split_and!; try done; apply Hs.
  - intros τ. apply (li_chan _ Hinv2).
Qed.

Lemma recv_pack_inv l σ s' pk rest :
  link_inv l → good s' → ch l (negb σ) = FPack pk :: rest → handle_frame (sw l σ) (FPack pk) = Done s' →
  link_inv (Link (<[σ := s']> (sw l)) (<[negb σ := rest]> (ch l)) (wrote l) (got l)).
Proof.
  intros Hinv Hg' Hc H. pose proof (li_chan _ Hinv (negb σ)) as Hall. rewrite Hc in Hall.
  apply Forall_cons in Hall as [[Hpk Hsp] _]. cbn in H.
  destruct (recv_packet_cases _ _ _ H Hpk) as [(p & Hget & Ha)|(p & s1 & Hget & Hneg & Hmk & _ & _ & Htab & _ & Ha)].
  - destruct (msg_get_Some _ _ _ Hget) as [m Hp]. pose proof (addressed _ _ _ _ _ Hinv Hsp Hget Hp) as Hid.
    assert (carried (- wire_id m) (FPack pk) = payload pk) as Ecar.
    { rewrite carried_only, Hid, Z.opp_involutive. apply only_same. }
    eapply take_inv; [done|exact Hp|exact Hc|by rewrite Ecar|]. intros x. by rewrite Ecar, carried_only, Hid, Z.opp_involutive.
  - assert (p ≠ 0%nat) as Hp0.
    { destruct (ac_here _ _ _ _ Ha) as (_ & m' & _ & Hm' & _). by destruct (sh_id _ (good_shape _ Hg') _ _ Hm') as (_ & ? & _). }
    destruct (recv_new_inv l σ pk p s1 Hinv Hsp Hget Hneg Hp0 Htab Hmk) as (Hinv1 & _ & m1 & Hm1 & Hw1).
    assert (sw (with_sw l σ s1) σ = s1) as Es1 by apply fn_lookup_insert.
    assert (carried (- wire_id m1) (FPack pk) = payload pk) as Ecar.
    { rewrite carried_only, Hw1, Z.opp_involutive. apply only_same. }
    apply (put_twice_inv l σ s1). apply (take_inv (with_sw l σ s1) σ s' p m1 (FPack pk) rest); [done| |done| |].
    + unfold live. by rewrite Es1.
    + by rewrite Es1, Ecar.
    + intros x. by rewrite Ecar, carried_only, Hw1, Z.opp_involutive.
Qed.

(** ** Reachable states *)

Lemma frame_good s f s' :
  good s → match f with FResp r => r_status r = MSG_RESP_OK | FPack _ => True end → handle_frame s f = Done s' → good s'.
Proof. intros Hg Hf. apply handle_frame_good; [done|]. intros r p -> Hd. rewrite Hf in Hd. done. Qed.

Definition both_good (l : link) : Prop := ∀ τ, good (sw l τ).

Lemma both_put l σ s' c w g : both_good l → good s' → both_good (Link (<[σ := s']> (sw l)) c w g).
Proof.
  intros H Hs τ. cbn. destruct (decide (σ = τ)) as [->|Hne]; [by rewrite fn_lookup_insert|].
  rewrite fn_lookup_insert_ne by done. apply H.
Qed.

Lemma link_step_inv l l' : both_good l ∧ link_inv l → link_step l l' → both_good l' ∧ link_inv l'.
Proof.
  intros [Hg Hinv] H.
  destruct H as [τ type s r H|τ id u s r Hu H|τ id u s r Hu H|τ id u s Hu H|τ id u buf s r Hu H|τ id u size s r out Hu H
                |τ s f Hw H|τ f rest s Hc H].
  - split; [apply both_put; [done|by eapply msg_open_good]|by eapply open_inv].
  - destruct (msg_get_Some _ _ _ Hu) as [m Hm].
    split; [apply both_put; [done|by eapply msg_accept_good]|eapply alike_inv; [done|]].
    eapply accept_acts; [exact Hu|exact Hm| |exact H]. apply we_open. eapply so_well; [apply Hinv|exact Hm].
  - split; [apply both_put; [done|by eapply msg_flush_good]|eapply still_inv; [done|by eapply flush_acts]].
  - split; [apply both_put; [done|by eapply interests_good]|eapply alike_inv; [done|by eapply interests_acts]].
  - split; [apply both_put; [done|by eapply msg_write_good]|]. eapply api_inv; [done|by eapply write_acts|done|].
    intros τ' u'. by rewrite adds_nil.
  - split; [apply both_put; [done|by eapply msg_read_good]|]. eapply api_inv; [done|by eapply read_acts| |done].
    intros τ' u'. by rewrite adds_nil.
  - split; [|by apply send_inv]. apply both_put; [done|].
    destruct (next_frame_good (sw l τ)) as (s1 & f1 & E1 & Hg1); [apply Hg|by apply (proj2 (Hg τ))|]. congruence.
  - assert (good s) as Hs.
    { eapply frame_good; [apply Hg| |exact H]. pose proof (li_chan _ Hinv (negb τ)) as Hall. rewrite Hc in Hall.
      apply Forall_cons in Hall as [Hf _]. by destruct f. }
    split; [by apply both_put|]. destruct f as [r|pk]; [by eapply recv_resp_inv|by eapply recv_pack_inv; [|exact Hs| |]].
Qed.

Lemma link_new_inv fa fb : both_good (link_new fa fb) ∧ link_inv (link_new fa fb).
Proof.
  assert (∀ τ u m, ¬ live (link_new fa fb) τ u m) as Hno.
  { intros τ u m H. unfold live in H. apply lookup_replicate in H as [[=] _]. }
  split; [intros τ; apply new_good|]. split; try done.
  - intros τ. split; try (intros u m Hu; by destruct (Hno τ u m)); [|by constructor|by exists []; apply rep_init].
    intros k v Hk Hv. apply lookup_replicate in Hk as [-> _]. done.
  - intros τ u m Hu. by destruct (Hno τ u m).
  - intros τ x w ws g w' ws' g' He He'. destruct He as [u m Hu _|_]; [by destruct (Hno _ _ _ Hu)|].
    destruct He' as [u m Hu _|_]; [by destruct (Hno _ _ _ Hu)|]. done.
Qed.

Lemma link_reachable_inv fa fb l : link_reachable fa fb l → both_good l ∧ link_inv l.
Proof. induction 1; [apply link_new_inv|by eapply link_step_inv]. Qed.

(** *** A run of calls that name messages by their slots *)

Inductive link_op :=
| LOpen (τ : bool) (type : Z)
| LAccept (τ : bool) (u : nat)
| LFlush (τ : bool) (u : nat)
| LWrite (τ : bool) (u : nat) (buf : bytes)
| LRead (τ : bool) (u size : nat)
| LSend (τ : bool)
| LRecv (τ : bool).

Definition link_exec (l : link) (o : link_op) : res link :=
  match o with
  | LOpen τ type => '(s, _) ← msg_open (sw l τ) type; Done (with_sw l τ s)
  | LAccept τ u => _ ← get_m (sw l τ) u; '(s, _) ← msg_accept (sw l τ) (Z.of_nat u); Done (with_sw l τ s)
  | LFlush τ u => _ ← get_m (sw l τ) u; '(s, _) ← msg_flush (sw l τ) (Z.of_nat u); Done (with_sw l τ s)
  | LWrite τ u buf =>
      _ ← get_m (sw l τ) u; '(s, r) ← msg_write (sw l τ) (Z.of_nat u) buf;
      Done (Link (<[τ := s]> (sw l)) (ch l) (adds (wrote l) τ u (taken r buf)) (got l))
  | LRead τ u size =>
      _ ← get_m (sw l τ) u; '(s, _, out) ← msg_read (sw l τ) (Z.of_nat u) size;
      Done (Link (<[τ := s]> (sw l)) (ch l) (wrote l) (adds (got l) τ u out))
  | LSend τ =>
      _ ← assert (zs_write_set (sw l τ)); '(s, f) ← next_frame (sw l τ);
      Done (Link (<[τ := s]> (sw l)) (<[τ := ch l τ ++ [f]]> (ch l)) (wrote l) (got l))
  | LRecv τ =>
      match ch l (negb τ) with
      | [] => Fault AssertFailed
      | f :: rest => s ← handle_frame (sw l τ) f; Done (Link (<[τ := s]> (sw l)) (<[negb τ := rest]> (ch l)) (wrote l) (got l))
      end
  end.

Fixpoint link_run (l : link) (os : list link_op) : res link :=
  match os with [] => Done l | o :: os => l ← link_exec l o; link_run l os end.

Lemma link_exec_step l o l' : both_good l → link_exec l o = Done l' → link_step l l'.
Proof.
  intros Hg H.
  assert (∀ τ u m, get_m (sw l τ) u = Done m → msg_get (sw l τ) (Z.of_nat u) = Done (Some u)) as Hget.
  { intros τ u m Hm. apply get_m_inv in Hm. eapply msg_get_live; [apply good_shape, Hg|exact Hm]. }
  destruct o; cbn in H.
  - apply res_bind_inv in H as ([s r] & E & H). injection H as <-. by eapply link_open.
  - apply res_bind_inv in H as (m & Em & H). apply res_bind_inv in H as ([s r] & E & H). injection H as <-.
    eapply link_accept; eauto.
  - apply res_bind_inv in H as (m & Em & H). apply res_bind_inv in H as ([s r] & E & H). injection H as <-.
    eapply link_flush; eauto.
  - apply res_bind_inv in H as (m & Em & H). apply res_bind_inv in H as ([s r] & E & H). injection H as <-.
    eapply link_write; eauto.
  - apply res_bind_inv in H as (m & Em & H). apply res_bind_inv in H as ([[s r] out] & E & H). injection H as <-.
    eapply link_read; eauto.
  - apply res_bind_inv in H as ([] & Ea & H). apply res_bind_inv in H as ([s f] & E & H). injection H as <-.
    eapply link_send; [|done]. by destruct (zs_write_set (sw l τ)).
  - destruct (ch l (negb τ)) as [|f rest] eqn:Ec; [done|]. apply res_bind_inv in H as (s & E & H). injection H as <-.
    by eapply link_recv.
Qed.

Lemma link_run_reachable fa fb l os l' : link_reachable fa fb l → link_run l os = Done l' → link_reachable fa fb l'.
Proof.
  revert l. induction os as [|o os IH]; intros l Hr H; cbn in H; [by injection H as <-|].
  apply res_bind_inv in H as (l1 & E & H). eapply IH; [|exact H]. eapply link_next; [exact Hr|].
  apply (link_exec_step _ o); [|done]. by apply (link_reachable_inv _ _ _ Hr).
Qed.

(** A state that a run finds. *)
Lemma link_sample os τ u (P : link → msg_t → bool) :
  (match link_run (link_new 3 4) os with
   | Done l => match s_msgs (sw l τ) !! u with Some (Some m) => P l m | _ => false end
   | Fault _ => false
   end) = true →
  ∃ l m, link_reachable 3 4 l ∧ live l τ u m ∧ P l m = true.
Proof.
  intros H. destruct (link_run (link_new 3 4) os) as [l|] eqn:E; [|done].
  destruct (s_msgs (sw l τ) !! u) as [[m|]|] eqn:Hm; try done. exists l, m. split_and!; try done.
  eapply link_run_reachable; [apply link_start|exact E].
Qed.

Lemma end_of_exists l τ x : ∃ w ws g, end_of l τ x w ws g.
Proof.
  destruct (decide (x ∈ wire_id <$> omap id (s_msgs (sw l τ)))) as [H|H].
  - apply list_elem_of_fmap in H as (m & Hx & H). apply list_elem_of_omap in H as (o & H & Ho). apply list_elem_of_lookup in H as [u Hu].
    do 3 eexists. apply (end_at l τ x u m); [|done]. unfold live. by rewrite Hu, <- Ho.
  - do 3 eexists. apply end_none. intros u m Hu Hx. apply H. apply list_elem_of_fmap. exists m. split; [done|].
    apply list_elem_of_omap. exists (Some m). split; [|done]. apply list_elem_of_lookup. by exists u.
Qed.

(** ** Properties *)

(** C3: the two ends of a connection, as long as no message is closed.  Whatever the order
    in which the two programs open, accept, write, flush and read and in which the switches
    send and handle frames, all that was written to a message is, in order and without a
    loss, a repetition or a byte of another message: what was read from the message that the
    other end keeps for it, what waits there to be read, what is in the channel, and what
    waits to be sent.  Before the other end has such a message nothing has arrived. *)
Theorem link_transport fa fb l τ u m :
  link_reachable fa fb l → live l τ u m →
  (∃ v m', live l (negb τ) v m' ∧ wire_id m' = - wire_id m ∧
     wrote l τ u = got l (negb τ) v ++ read_stream m' ++ in_transit (ch l τ) (wire_id m) ++ writ_stream m) ∨
  ((∀ v m', live l (negb τ) v m' → wire_id m' ≠ - wire_id m) ∧
     wrote l τ u = in_transit (ch l τ) (wire_id m) ++ writ_stream m).
Proof.
  intros Hr Hu. destruct (link_reachable_inv _ _ _ Hr) as [_ Hinv].
  destruct (end_of_exists l (negb τ) (- wire_id m)) as (w' & ws' & g' & He').
  pose proof (li_bytes _ Hinv τ (wire_id m) _ _ _ _ _ _ (end_at l τ _ u m Hu eq_refl) He') as H.
  destruct He' as [v m' Hv Hx|Hno]; [left; exists v, m'|by right].
  split_and!; [done|done|]. by rewrite H, <- app_assoc.
Qed.

Lemma link_transport_witness :
  ∃ l m v m', link_reachable 3 4 l ∧ live l true 1 m ∧ wrote l true 1%nat = str "abcd" ∧
    live l false v m' ∧
    str "abcd" = got l false v ++ read_stream m' ++ in_transit (ch l true) (wire_id m) ++ writ_stream m.
Proof.
  destruct (link_sample [LOpen true 1; LWrite true 1 (str "abc"); LFlush true 1; LSend true; LRecv false;
    LAccept false 1; LRead false 1 1; LWrite true 1 (str "d")] true 1
    (λ l m, bool_decide (wrote l true 1%nat = str "abcd") &&
            match s_msgs (sw l false) !! 1%nat with Some (Some m') => wire_id m' =? - wire_id m | _ => false end))
    as (l & m & Hr & Hu & H); [vm_compute; reflexivity|].
  apply andb_prop in H as [Hw Hm]. apply bool_decide_eq_true in Hw.
  destruct (link_transport 3 4 l true 1 m Hr Hu) as [(v & m' & Hv & _ & E)|[Hno _]].
  - exists l, m, v, m'. split_and!; try done. by rewrite <- Hw.
  - destruct (s_msgs (sw l false) !! 1%nat) as [[m'|]|] eqn:Em'; try done. apply Z.eqb_eq in Hm.
    by destruct (Hno _ _ Em').
Defined.
