(* ===== verification/MsgCredit.v ===== *)
(** msg_switch.c: the answers that control the flow between the two ends of MsgLink.  A
    message that has sent a packet waits for one answer, and the packet, the mark at the
    receiver, the queued answer and the answer in the channel are together the one credit
    that it waits for.  So the receiver never holds more than two packets, the assertions of
    the receiver hold, and no operation of either end fails. *)

From Stdlib Require Import ZArith Lia String.
From stdpp Require Import functions.
From S2P Require Export MsgLink.

Local Open Scope Z_scope.

(** ** One message *)

Definition due (m : msg_t) : nat := Nat.b2n (isset m MSG_STAT_NEED_TO_SEND_RESP).
Definition waits (m : msg_t) : nat := Nat.b2n (isset m MSG_STAT_WAITING_FOR_RESP).

(** The room for packets that were received, before and after [msg_refresh]. *)
Definition ready (m : msg_t) : Prop :=
  (length (m_read_queue m) <= 2)%nat ∧
  (isset m MSG_STAT_SPACE_AVAIL_FOR_READ = true ↔ (length (m_read_queue m) < 2)%nat) ∧
  (length (m_read_queue m) = 2%nat → isset m MSG_STAT_NEED_TO_SEND_RESP = true).

Definition room (m : msg_t) : Prop :=
  ready m ∧ (isset m MSG_STAT_NEED_TO_SEND_RESP = true → length (m_read_queue m) = 2%nat).

(** The switch has queued [n] more answers under the identifier [x]. *)
Definition told (s s' : msg_switch_t) (x : Z) (n : nat) : Prop :=
  s_pending_resps s' = s_pending_resps s ++ replicate n (Resp x MSG_RESP_OK).

Lemma told_trans s s1 s2 x n1 n2 : told s s1 x n1 → told s1 s2 x n2 → told s s2 x (n1 + n2).
Proof. unfold told. intros -> ->. by rewrite <- app_assoc, replicate_add. Qed.

Lemma told_same s s' x : s_pending_resps s' = s_pending_resps s → told s s' x 0.
Proof. unfold told. intros ->. by rewrite app_nil_r. Qed.

(** Nothing that the credits depend on has changed. *)
Definition untouched (m m' : msg_t) : Prop :=
  m_read_queue m' = m_read_queue m ∧ wire_id m' = wire_id m ∧
  ∀ g, g ∈ [MSG_STAT_NEED_TO_SEND_RESP; MSG_STAT_WAITING_FOR_RESP; MSG_STAT_SPACE_AVAIL_FOR_READ;
            MSG_STAT_CLOSED; MSG_STAT_DISCONNECTED; MSG_STAT_SENT_DISCONNECT] → isset m' g = isset m g.

Lemma untouched_room m m' : untouched m m' → (room m → room m') ∧ due m' = due m ∧ waits m' = waits m ∧ (opened m → opened m').
Proof.
  intros (Eq & _ & Hg). unfold room, ready, due, waits, opened. rewrite Eq.
  rewrite !Hg by set_solver. done.
Qed.

Lemma update_credit s p m s' :
  s_msgs s !! p = Some (Some m) → msg_update_status s p = Done s' →
  s_msgs s' !! p = Some (Some (queued (answered m))) ∧ told s s' (wire_id m) (Nat.b2n (resp_due m)).
Proof.
  intros Hp H. rewrite (update_status_Done _ _ _ Hp) in H. cbv zeta in H. injection H as <-.
  set (s1 := if resp_due m then _ else s).
  assert (s_msgs s1 !! p = Some (Some (answered m)) ∧ told s s1 (wire_id m) (Nat.b2n (resp_due m))) as [Hp1 Ht].
  { unfold s1, answered. destruct (resp_due m); [|by split; [|apply told_same]]. split; [by eapply put_m_lookup|done]. }
  clearbody s1. unfold queued. destruct (writ_due (answered m)); [|done]. split; [by eapply put_m_lookup|exact Ht].
Qed.

(** The end of every operation on the queues of a message. *)
Lemma refresh_credit s p m s' :
  s_msgs s !! p = Some (Some m) → msg_refresh s p = Done s' →
  ∃ m' n, s_msgs s' !! p = Some (Some m') ∧ wire_id m' = wire_id m ∧ told s s' (wire_id m) n ∧ waits m' = waits m ∧
    (opened m → opened m' ∧ (ready m → room m' ∧ due m = (due m' + n)%nat)).
Proof.
  intros Hp H. unfold msg_refresh in H. apply res_bind_inv in H as (s1 & E1 & H).
  destruct (check_exact _ _ _ _ Hp E1) as (b & Hp1 & Ep1). set (m1 := with_selectable m b) in *.
  destruct (update_credit _ _ _ _ Hp1 H) as [Hp' Ht]. exists (queued (answered m1)), (Nat.b2n (resp_due m1)).
  assert (queued (answered m1) = with_selectable (with_status m1 (m_status (queued (answered m1)))) (m_selectable m1)) as Eq.
  { rewrite <- (queued_data (answered m1)) at 1. by rewrite <- (answered_data m1). }
  split; [done|]. split; [rewrite Eq; done|]. split; [unfold told in *; rewrite Ht, Ep1; done|].
  split; [unfold waits; by rewrite queued_answered_flag|]. intros (Hc & Hd & Hs). split.
  { unfold opened. by rewrite !queued_answered_flag by done. }
  intros (R1 & R2 & R3). change (due m) with (due m1).
  assert (isset (queued (answered m1)) MSG_STAT_NEED_TO_SEND_RESP = isset m1 MSG_STAT_NEED_TO_SEND_RESP && negb (resp_due m1)) as En.
  { assert (isset (queued (answered m1)) MSG_STAT_NEED_TO_SEND_RESP = isset (answered m1) MSG_STAT_NEED_TO_SEND_RESP) as ->
      by (unfold queued; case_match; by flags).
    unfold answered. destruct (resp_due m1); [rewrite andb_false_r; by flags|by rewrite andb_true_r]. }
  assert (resp_due m1 = isset m1 MSG_STAT_NEED_TO_SEND_RESP && isset m1 MSG_STAT_SPACE_AVAIL_FOR_READ) as Er.
  { unfold resp_due. rewrite isset_lor. change (isset m1 MSG_STAT_DISCONNECTED) with (isset m MSG_STAT_DISCONNECTED).
    rewrite Hd. apply andb_true_r. }
  unfold room, ready, due. rewrite queued_answered_flag, En, Er by done. clear -R1 R2 R3 Eq.
  assert (m_read_queue (queued (answered m1)) = m_read_queue m) as -> by (by rewrite Eq).
  change (isset m1) with (isset m). destruct (isset m MSG_STAT_SPACE_AVAIL_FOR_READ), (isset m MSG_STAT_NEED_TO_SEND_RESP); cbn; intuition (lia || congruence).
Qed.

(** ** The operations of the API *)

(** Answers are queued for the marks that go. *)
Definition quiet (p : nat) (s s' : msg_switch_t) : Prop :=
  ∃ m m' n, s_msgs s !! p = Some (Some m) ∧ s_msgs s' !! p = Some (Some m') ∧ wire_id m' = wire_id m ∧
    told s s' (wire_id m) n ∧ waits m' = waits m ∧
    (opened m → opened m' ∧ (room m → room m' ∧ due m = (due m' + n)%nat)).

Lemma quiet_trans p s s1 s2 : quiet p s s1 → quiet p s1 s2 → quiet p s s2.
Proof.
  intros (m & m1 & n1 & Hm & Hm1 & Hw1 & Ht1 & Hwt1 & H1) (m1' & m2 & n2 & Hm1' & Hm2 & Hw2 & Ht2 & Hwt2 & H2).
  assert (m1' = m1) as -> by congruence. exists m, m2, (n1 + n2)%nat. rewrite Hw1 in Ht2, Hw2. split_and!; try done.
  - by eapply told_trans.
  - congruence.
  - intros Ho. destruct (H1 Ho) as [Ho1 Hr1]. destruct (H2 Ho1) as [Ho2 Hr2]. split; [done|]. intros Hr.
    destruct (Hr1 Hr) as [Hrm1 E1]. destruct (Hr2 Hrm1) as [Hrm2 E2]. split; [done|lia].
Qed.

Lemma quiet_untouched p s s' m m' :
  s_msgs s !! p = Some (Some m) → s_msgs s' !! p = Some (Some m') → s_pending_resps s' = s_pending_resps s →
  untouched m m' → quiet p s s'.
Proof.
  intros Hm Hm' Ep Hu. destruct (untouched_room _ _ Hu) as (Hr & Hd & Hw & Ho). exists m, m', 0%nat. split_and!; try done.
  - apply Hu.
  - by apply told_same.
  - intros Hom. split; [auto|]. intros Hrm. split; [auto|lia].
Qed.

Lemma untouched_refl m : untouched m m.
Proof. done. Qed.

Lemma quiet_refl p s m : s_msgs s !! p = Some (Some m) → quiet p s s.
Proof. intros Hp. by eapply quiet_untouched. Qed.

Lemma quiet_put p s m m' : s_msgs s !! p = Some (Some m) → untouched m m' → quiet p s (put_m s p m').
Proof. intros Hp Hu. eapply quiet_untouched; [done|by eapply put_m_lookup|done|done]. Qed.

Lemma quiet_put_refresh p s m m1 s' :
  s_msgs s !! p = Some (Some m) → wire_id m1 = wire_id m → waits m1 = waits m →
  (opened m → opened m1 ∧ (room m → ready m1 ∧ due m1 = due m)) → msg_refresh (put_m s p m1) p = Done s' → quiet p s s'.
Proof.
  intros Hp Hw Hwt Ho H. apply (refresh_credit _ _ m1) in H as (m' & n & Hm' & Hw' & Ht & Hwt' & Ho'); [|by eapply put_m_lookup].
  rewrite Hw in *. exists m, m', n. split_and!; try done; [congruence|]. intros Hom. destruct (Ho Hom) as [Ho1 Hr1].
  destruct (Ho' Ho1) as [Ho2 Hr2]. split; [done|]. intros Hr. destruct (Hr1 Hr) as [Hrd Hd1].
  destruct (Hr2 Hrd) as [Hrm E]. split; [done|congruence].
Qed.

Lemma quiet_refresh p s m m1 s' :
  s_msgs s !! p = Some (Some m) → untouched m m1 → msg_refresh (put_m s p m1) p = Done s' → quiet p s s'.
Proof.
  intros Hp Hu H. destruct (untouched_room _ _ Hu) as (Hr & Hd & Hw & Ho). eapply quiet_put_refresh; [done| | | |done]; [apply Hu|done|].
  intros Hom. split; [auto|]. intros Hrm. split; [by apply Hr|done].
Qed.

(** A flag or a field that the credits do not depend on. *)
Ltac untouch := split; [done|split; [done|]]; let g := fresh "g" in let Hin := fresh "Hin" in intros g Hin;
  repeat (apply elem_of_cons in Hin as [->|Hin]; [by flags|]); by apply elem_of_nil in Hin.

Lemma writ_pushed_untouched m pk : untouched m (writ_pushed m pk).
Proof. unfold writ_pushed. cbv zeta. case_test; untouch. Qed.

Lemma incomplete_untouched m o : untouched m (with_incomplete m o).
Proof. untouch. Qed.

Lemma push_writ_quiet p s m pk s' :
  s_msgs s !! p = Some (Some m) → m_incomplete m = Some pk → msg_push_writ_packet s p = Done s' → quiet p s s'.
Proof.
  intros Hp Hi H. unfold msg_push_writ_packet in H. rewrite (get_m_Done _ _ _ Hp) in H. cbn [mbind res_bind] in H.
  rewrite Hi in H. eapply quiet_refresh; [done|apply (writ_pushed_untouched m pk)|exact H].
Qed.

Lemma quiet_here p s s' : quiet p s s' → ∃ m, s_msgs s' !! p = Some (Some m).
Proof. intros (m & m' & _ & _ & Hm' & _). by exists m'. Qed.

Lemma packet_new_quiet p s m s' : s_msgs s !! p = Some (Some m) → msg_packet_new s p = Done s' → quiet p s s'.
Proof.
  intros Hp H. unfold msg_packet_new in H. rewrite (get_m_Done _ _ _ Hp) in H. cbn [mbind res_bind] in H.
  apply res_bind_inv in H as (s1 & E & H).
  assert (quiet p s s1) as H1.
  { destruct (m_incomplete m) eqn:Ei; [by eapply push_writ_quiet|]. injection E as <-. by eapply quiet_refl. }
  eapply quiet_trans; [exact H1|]. destruct (quiet_here _ _ _ H1) as [m1 Hm1]. unfold upd_m in H.
  rewrite (get_m_Done _ _ _ Hm1) in H. injection H as <-. eapply quiet_put; [done|]. untouch.
Qed.

Lemma flush_quiet p s msgid s' r :
  msg_get s msgid = Done (Some p) → msg_flush s msgid = Done (s', r) → quiet p s s'.
Proof.
  intros Hg H. destruct (msg_get_Some _ _ _ Hg) as [m Hp]. pose proof (quiet_refl _ _ _ Hp) as Hid.
  unfold msg_flush in H. rewrite Hg in H. cbn [mbind res_bind msg_closed] in H.
  rewrite (get_m_Done _ _ _ Hp) in H. cbn [mbind res_bind] in H. destruct (isset m MSG_STAT_CLOSED); [by injection H as <- <-|].
  destruct (m_incomplete m) as [pk|] eqn:Ei; [|by injection H as <- <-].
  apply res_bind_inv in H as (s1 & E & H). injection H as <- <-.
  eapply quiet_trans; [by eapply quiet_put, incomplete_untouched|]. eapply push_writ_quiet; [by eapply put_m_lookup|done|done].
Qed.

Lemma write_loop_quiet fuel p s m data s' :
  s_msgs s !! p = Some (Some m) → write_loop fuel s p data = Done s' → quiet p s s'.
Proof.
  revert s m data. induction fuel as [|fuel IH]; intros s m data Hp H; [done|]. cbn [write_loop] in H.
  destruct data as [|c data]; [injection H as <-; by eapply quiet_refl|].
  rewrite (get_m_Done _ _ _ Hp) in H. cbn [mbind res_bind] in H. apply res_bind_inv in H as (pk & _ & H).
  apply res_bind_inv in H as (s1 & E & H). apply res_bind_inv in H as (m1 & E1 & H). apply get_m_inv in E1.
  apply res_bind_inv in H as (pk1 & _ & H).
  assert (quiet p s s1) as H1 by (case_match; [by eapply packet_new_quiet|injection E as <-; by eapply quiet_refl]).
  eapply quiet_trans; [exact H1|]. eapply quiet_trans; [|eapply IH; [|exact H]; by eapply put_m_lookup].
  eapply quiet_put; [done|apply incomplete_untouched].
Qed.

Lemma write_quiet p s msgid buf s' r :
  msg_get s msgid = Done (Some p) → msg_write s msgid buf = Done (s', r) → quiet p s s'.
Proof.
  intros Hg H. destruct (msg_get_Some _ _ _ Hg) as [m Hp]. pose proof (quiet_refl _ _ _ Hp) as Hid.
  unfold msg_write in H. rewrite Hg in H. cbn [mbind res_bind msg_closed] in H.
  rewrite (get_m_Done _ _ _ Hp) in H. cbn [mbind res_bind] in H. destruct (isset m MSG_STAT_CLOSED); [by injection H as <- <-|].
  destruct (isset m MSG_STAT_DISCONNECTED); [by injection H as <- <-|]. destruct (negb _); [by injection H as <- <-|].
  apply res_bind_inv in H as (s1 & E1 & H). apply res_bind_inv in H as (s2 & E2 & H). injection H as <- <-.
  assert (quiet p s s1) as H1 by (destruct (m_incomplete m); [by injection E1 as <-|by eapply packet_new_quiet]).
  destruct (quiet_here _ _ _ H1) as [m1 Hm1]. eapply quiet_trans; [exact H1|by eapply write_loop_quiet].
Qed.

(** A packet that was read makes room for the next. *)
Lemma pop_read_quiet p s m s' :
  s_msgs s !! p = Some (Some m) → msg_pop_read_packet s p = Done s' → quiet p s s'.
Proof.
  intros Hp H. unfold msg_pop_read_packet in H. rewrite (get_m_Done _ _ _ Hp) in H. cbn [mbind res_bind] in H.
  eapply (quiet_put_refresh _ _ _ (read_popped m)); [done| | | |exact H].
  - unfold read_popped. cbv zeta. by repeat case_test.
  - unfold waits, read_popped. cbv zeta. repeat case_test; by flags.
  - intros (Hc & Hd & Hs). split.
    { unfold opened, read_popped. cbv zeta. repeat case_test; by flags. }
    intros [(R1 & R2 & R3) R4]. unfold ready, due. rewrite read_popped_queue.
    assert (length (tail (m_read_queue m)) < 2)%nat as Hlt by (destruct (m_read_queue m); cbn in *; lia).
    split; [split_and!; [lia| |lia]|].
    + split; [done|]. intros _. unfold read_popped. cbv zeta. cbn [m_read_queue with_cur_pos with_read_queue].
      assert (has_packets (tail (m_read_queue m)) MSG_N_BUFF_PACKETS_ALLOWED = false) as -> by (by apply has_packets_false).
      case_test; by flags.
    + f_equal. unfold read_popped. cbv zeta. repeat case_test; by flags.
Qed.

Lemma read_loop_quiet fuel p s m size acc s' res :
  s_msgs s !! p = Some (Some m) → read_loop fuel s p size acc = Done (s', res) → quiet p s s'.
Proof.
  revert s m size acc. induction fuel as [|fuel IH]; intros s m size acc Hp H; [done|]. cbn [read_loop] in H.
  pose proof (quiet_refl _ _ _ Hp) as Hid. destruct (size =? 0)%nat; [by injection H as <- <-|].
  rewrite (get_m_Done _ _ _ Hp) in H. cbn [mbind res_bind] in H. apply res_bind_inv in H as (pk & _ & H). cbv zeta in H.
  destruct (_ <? _)%nat in H; [done|]. set (m1 := with_cur_pos m _) in *.
  assert (quiet p s (put_m s p m1)) as H1 by (eapply quiet_put; [done|untouch]).
  assert (s_msgs (put_m s p m1) !! p = Some (Some m1)) as Hp1 by (by eapply put_m_lookup).
  eapply quiet_trans; [exact H1|]. destruct (_ =? _) in H; [|by eapply IH].
  apply res_bind_inv in H as (s2 & E2 & H). apply res_bind_inv in H as (m2 & Em2 & H). apply get_m_inv in Em2.
  apply (pop_read_quiet _ _ _ _ Hp1) in E2. eapply quiet_trans; [exact E2|].
  destruct (isset m2 _); [by eapply IH|injection H as <- <-; by eapply quiet_refl].
Qed.

Lemma read_quiet p s msgid size s' r out :
  msg_get s msgid = Done (Some p) → msg_read s msgid size = Done (s', r, out) → quiet p s s'.
Proof.
  intros Hg H. destruct (msg_get_Some _ _ _ Hg) as [m Hp]. pose proof (quiet_refl _ _ _ Hp) as Hid.
  unfold msg_read in H. rewrite Hg in H. cbn [mbind res_bind msg_closed] in H.
  rewrite (get_m_Done _ _ _ Hp) in H. cbn [mbind res_bind] in H. destruct (isset m MSG_STAT_CLOSED); [by injection H as <- <- <-|].
  destruct (isset m MSG_STAT_PACKET_AVAIL_TO_READ); [|destruct (isset m MSG_STAT_DISCONNECTED); by injection H as <- <- <-].
  apply res_bind_inv in H as ([s1 o1] & E & H). injection H as <- <- <-. by eapply read_loop_quiet.
Qed.

Lemma check_quiet p s s0 m s' :
  s_msgs s !! p = Some (Some m) → s_msgs s0 = s_msgs s → s_pending_resps s0 = s_pending_resps s →
  msg_check_selectability s0 p = Done s' → quiet p s s'.
Proof.
  intros Hp Em Er H. rewrite <- Em in Hp. destruct (check_exact _ _ _ _ Hp H) as (b & Hb & Eb). rewrite Em in Hp.
  eapply quiet_untouched; [exact Hp|exact Hb|congruence|]. untouch.
Qed.

Lemma interests_quiet p s msgid s' :
  msg_get s msgid = Done (Some p) →
  msg_set_read s msgid = Done s' ∨ msg_set_write s msgid = Done s' ∨
  msg_clr_read s msgid = Done s' ∨ msg_clr_write s msgid = Done s' → quiet p s s'.
Proof.
  intros Hg H. destruct (msg_get_Some _ _ _ Hg) as [m Hp].
  assert (msg_get_assert s msgid = Done p) as Ha by (unfold msg_get_assert; by rewrite Hg).
  destruct H as [H|[H|[H|H]]]; unfold msg_set_read, msg_set_write, msg_clr_read, msg_clr_write in H;
    rewrite Ha in H; cbn [mbind res_bind] in H; binds; (eapply check_quiet; [exact Hp| | |exact H]); done.
Qed.

Lemma accept_quiet p s msgid m s' r :
  msg_get s msgid = Done (Some p) → s_msgs s !! p = Some (Some m) → opened m →
  msg_accept s msgid = Done (s', r) → quiet p s s'.
Proof.
  intros Hg Hp (Hc & Hd & _) H. pose proof (quiet_refl _ _ _ Hp) as Hid. unfold msg_accept in H. rewrite Hg in H.
  cbn [mbind res_bind msg_closed] in H. rewrite (get_m_Done _ _ _ Hp) in H. cbn [mbind res_bind] in H. rewrite Hc, Hd in H.
  destruct (isset m MSG_STAT_CONNECTED); [by injection H as <- <-|].
  apply res_bind_inv in H as (s1 & E & H). apply res_bind_inv in H as (h & _ & H). apply res_bind_inv in H as (s2 & E2 & H).
  injection H as <- <-. unfold upd_m in E. rewrite (get_m_Done _ _ _ Hp) in E. injection E as <-.
  eapply quiet_trans; [eapply (quiet_put _ _ _ (set_flag MSG_STAT_CONNECTED m)); [done|untouch]|].
  eapply check_quiet; [by eapply put_m_lookup| | |exact E2]; done.
Qed.

(** ** Frames *)

(** [d] packets arrived, and the message waits as [w] says if it does. *)
Definition credit (p d : nat) (w : option nat) (s s' : msg_switch_t) : Prop :=
  ∃ m m' n, s_msgs s !! p = Some (Some m) ∧ s_msgs s' !! p = Some (Some m') ∧ wire_id m' = wire_id m ∧
    told s s' (wire_id m) n ∧ waits m' = default (waits m) w ∧
    (opened m → opened m' ∧ (room m → (due m + d <= 1)%nat → room m' ∧ (due m + d = due m' + n)%nat)).

Lemma quiet_credit p s s' : quiet p s s' → credit p 0 None s s'.
Proof.
  intros (m & m' & n & Hm & Hm' & Hw & Ht & Hwt & H). exists m, m', n. split_and!; try done.
  intros Ho. destruct (H Ho) as [Ho' Hr]. split; [done|]. intros Hrm _. rewrite Nat.add_0_r. auto.
Qed.

(** The mark of a packet that arrived, whether or not the packet is kept. *)
Lemma read_pushed_flags m pk :
  wire_id (read_pushed m pk) = wire_id m ∧ waits (read_pushed m pk) = waits m ∧
  isset (read_pushed m pk) MSG_STAT_NEED_TO_SEND_RESP = true ∧ (opened m → opened (read_pushed m pk)).
Proof.
  unfold read_pushed. cbv zeta. set (m1 := set_flag MSG_STAT_NEED_TO_SEND_RESP _).
  set (m2 := if isset m1 MSG_STAT_CLOSED then m1 else _).
  assert (wire_id m2 = wire_id m ∧ ∀ g, isset m2 g = isset m1 g) as [Hw Hg] by (unfold m2; by case_test).
  clearbody m2. unfold waits, opened.
  case_test; (split; [exact Hw|]); flags; rewrite !Hg; unfold m1; by flags.
Qed.

Lemma push_read_credit p s m pk s' :
  s_msgs s !! p = Some (Some m) → msg_push_read_packet s p pk = Done s' → credit p 1 None s s'.
Proof.
  intros Hp H. unfold msg_push_read_packet in H. rewrite (get_m_Done _ _ _ Hp) in H. cbn [mbind res_bind] in H.
  change (msg_refresh _ p) with (msg_refresh (put_m s p (read_pushed m pk)) p) in H.
  apply (refresh_credit _ _ (read_pushed m pk)) in H as (m' & n & Hm' & Hw' & Ht & Hwt' & Ho'); [|by eapply put_m_lookup].
  destruct (read_pushed_flags m pk) as (Hw & Hwt & Hneed & Hop).
  rewrite Hw in *. exists m, m', n. split_and!; try done; [cbn; congruence|]. intros Hom.
  destruct (Ho' (Hop Hom)) as [Ho2 Hr2]. destruct Hom as (Hc & Hd & Hs).
  split; [done|]. intros [(R1 & R2 & R3) R4] Hdue.
  assert (isset m MSG_STAT_NEED_TO_SEND_RESP = false) as Hn by (unfold due in Hdue; destruct (isset m MSG_STAT_NEED_TO_SEND_RESP); cbn in *; [lia|done]).
  assert (length (m_read_queue m) < 2)%nat as Hlt.
  { destruct (decide (length (m_read_queue m) = 2%nat)) as [E|]; [|lia]. rewrite (R3 E) in Hn. done. }
  assert (due (read_pushed m pk) = 1%nat) as Hd1 by (unfold due; by rewrite Hneed).
  destruct Hr2 as [Hrm E]; [|split; [done|]; unfold due in Hd1 |- *; rewrite Hn in *; cbn; unfold due in E; lia].
  unfold ready. rewrite Hneed.
  assert (m_read_queue (read_pushed m pk) = m_read_queue m ++ [pk]) as Hq.
  { unfold read_pushed. cbv zeta. assert (isset (set_flag MSG_STAT_NEED_TO_SEND_RESP (with_n_read m (m_n_read m + 1))) MSG_STAT_CLOSED = false) as ->
      by (by flags). by case_test. }
  rewrite Hq, length_app. cbn [length]. split_and!; [lia| |done].
  assert (isset (read_pushed m pk) MSG_STAT_SPACE_AVAIL_FOR_READ = negb (has_packets (m_read_queue m ++ [pk]) MSG_N_BUFF_PACKETS_ALLOWED)) as ->.
  { rewrite <- Hq. unfold read_pushed. cbv zeta. set (m1 := set_flag MSG_STAT_PACKET_AVAIL_TO_READ _).
    assert (isset m1 MSG_STAT_SPACE_AVAIL_FOR_READ = true) as Hs1 by (unfold m1; case_test; flags; by apply R2).
    destruct (has_packets (m_read_queue m1) MSG_N_BUFF_PACKETS_ALLOWED) eqn:Eh; [|by rewrite Eh, Hs1].
    change (m_read_queue (clr_flag _ m1)) with (m_read_queue m1). rewrite Eh. by flags. }
  rewrite negb_true_iff, has_packets_false, length_app. cbn [length]. done.
Qed.

Lemma pop_writ_credit p s s' pk : msg_pop_writ_packet s p = Done (s', pk) → credit p 0 (Some 1%nat) s s'.
Proof.
  intros H. unfold msg_pop_writ_packet in H. apply res_bind_inv in H as (m & E & H). apply get_m_inv in E.
  destruct (m_writ_queue m) as [|pk0 q] eqn:Eq; [done|]. cbn [head deref mbind res_bind] in H.
  apply res_bind_inv in H as (s1 & E1 & H). injection H as <- <-. rewrite <- Eq in E1.
  change (msg_refresh _ p) with (msg_refresh (put_m s p (writ_popped m)) p) in E1.
  apply (refresh_credit _ _ (writ_popped m)) in E1 as (m' & n & Hm' & Hw' & Ht & Hwt' & Ho'); [|by eapply put_m_lookup].
  assert (wire_id (writ_popped m) = wire_id m) as Hw by (unfold writ_popped; cbv zeta; by repeat case_test).
  assert (∀ g, Z.land (Z.lor MSG_STAT_WAITING_FOR_RESP (Z.lor MSG_STAT_WRITING (Z.lor MSG_STAT_SPACE_AVAIL_FOR_WRIT
    MSG_STAT_PACKET_AVAIL_TO_WRIT))) g = 0 → isset (writ_popped m) g = isset m g) as Hg.
  { intros g Hg. rewrite !Z.land_lor_distr_l, !Z.lor_eq_0_iff in Hg. destruct Hg as (G1 & G2 & G3 & G4).
    unfold writ_popped. cbv zeta. repeat case_test;
      rewrite ?isset_clr_other, ?isset_set_other, ?isset_clr_other, ?isset_set_other by done; done. }
  assert (m_read_queue (writ_popped m) = m_read_queue m) as Hq by (unfold writ_popped; cbv zeta; by repeat case_test).
  rewrite Hw in *. exists m, m', n. split_and!; try done.
  - rewrite Hwt'. unfold waits. by rewrite writ_popped_waiting.
  - unfold opened, room, ready, due in *. rewrite !Hg, Hq in Ho' by done. intros Ho. destruct (Ho' Ho) as [Ho2 Hr2].
    split; [done|]. intros [Hr _] _. rewrite Nat.add_0_r. by apply Hr2.
Qed.

Lemma credit_quiet p d w s s1 s2 : credit p d w s s1 → quiet p s1 s2 → credit p d w s s2.
Proof.
  intros (m & m1 & n1 & Hm & Hm1 & Hw1 & Ht1 & Hwt1 & H1) (m1' & m2 & n2 & Hm1' & Hm2 & Hw2 & Ht2 & Hwt2 & H2).
  assert (m1' = m1) as -> by congruence. exists m, m2, (n1 + n2)%nat. rewrite Hw1 in Ht2, Hw2. split_and!; try done.
  - by eapply told_trans.
  - congruence.
  - intros Ho. destruct (H1 Ho) as [Ho1 Hr1]. destruct (H2 Ho1) as [Ho2 Hr2]. split; [done|]. intros Hr Hd.
    destruct (Hr1 Hr Hd) as [Hrm1 E1]. destruct (Hr2 Hrm1) as [Hrm2 E2]. split; [done|lia].
Qed.

Lemma credit_here p d w s s' : credit p d w s s' → ∃ m', s_msgs s' !! p = Some (Some m') ∧ (∀ m, s_msgs s !! p = Some (Some m) → opened m → opened m').
Proof.
  intros (m & m' & n & Hm & Hm' & _ & _ & _ & H). exists m'. split; [done|]. intros m0 Hm0 Ho. assert (m0 = m) as -> by congruence.
  by apply H.
Qed.

Lemma msg_get_slot s p m : s_msgs s !! p = Some (Some m) → p ≠ 0%nat → msg_get s (Z.of_nat p) = Done (Some p).
Proof.
  intros Hp Hne. unfold msg_get. destruct (Z.eqb_spec (Z.of_nat p) 0); [lia|]. destruct (Z.ltb_spec 0 (Z.of_nat p)); [|lia].
  by rewrite Nat2Z.id, Hp.
Qed.

Lemma recv_ok_credit p s m msgid r s' :
  msg_get s msgid = Done (Some p) → s_msgs s !! p = Some (Some m) → opened m → m_msgid m = p → p ≠ 0%nat →
  r_status r = MSG_RESP_OK → msg_recv_resp s msgid r = Done s' → credit p 0 (Some 0%nat) s s'.
Proof.
  intros Hg Hp Ho Hid Hp0 Hr H. pose proof Ho as (Hc & _ & Hsd).
  unfold msg_recv_resp, msg_get_assert in H. rewrite Hg in H. cbn [mbind res_bind] in H. rewrite Hr in H.
  cbn [Z.eqb MSG_RESP_OK MSG_RESP_DISCON Pos.eqb] in H.
  rewrite (get_m_Done _ _ _ Hp) in H. cbn [mbind res_bind] in H. rewrite Hsd in H.
  apply res_bind_inv in H as (_ & _ & H). apply res_bind_inv in H as (s1 & E1 & H).
  unfold upd_m in E1. rewrite (get_m_Done _ _ _ Hp) in E1. injection E1 as <-.
  set (m1 := clr_flag MSG_STAT_WAITING_FOR_RESP m) in *. set (s1 := put_m s p m1) in *.
  assert (s_msgs s1 !! p = Some (Some m1)) as Hp1 by (by eapply put_m_lookup).
  assert (credit p 0 (Some 0%nat) s s1) as H1.
  { exists m, m1, 0%nat. split_and!; try done; [by apply told_same|unfold waits, m1; by flags|].
    intros _. unfold opened, room, ready, due, m1. flags. split; [done|]. intros Hrm _. split; [done|lia]. }
  rewrite (get_m_Done _ _ _ Hp1) in H. cbn [mbind res_bind] in H. apply res_bind_inv in H as (s2 & E2 & H).
  assert (credit p 0 (Some 0%nat) s s2) as H2.
  { destruct (isset m1 MSG_STAT_PACKET_AVAIL_TO_WRIT); [by injection E2 as <-|].
    apply res_bind_inv in E2 as ([s3 r3] & E3 & E2). change (m_msgid m1) with (m_msgid m) in E3. rewrite Hid in E3.
    pose proof (credit_quiet _ _ _ _ _ _ H1 (flush_quiet _ _ _ _ _ (msg_get_slot _ _ _ Hp1 Hp0) E3)) as H3.
    destruct (credit_here _ _ _ _ _ H3) as (m3 & Hp3 & Hop3). destruct (Hop3 _ Hp Ho) as (Hc3 & _).
    rewrite (get_m_Done _ _ _ Hp3) in E2. cbn [mbind res_bind] in E2. rewrite Hc3, andb_false_r in E2. by injection E2 as <-. }
  eapply credit_quiet; [exact H2|]. destruct (credit_here _ _ _ _ _ H2) as (m2 & Hp2 & _).
  rewrite <- (put_m_id s2 p m2 Hp2) in H. eapply quiet_refresh; [exact Hp2|apply untouched_refl|exact H].
Qed.

(** ** The two ends *)

Definition pack_for (x : Z) (f : frame) : nat :=
  match f with FPack pk => if pk_msgid pk =? x then 1 else 0 | FResp _ => 0 end.
Definition answer_for (x : Z) (r : msg_resp_t) : nat := if r_msgid r =? x then 1 else 0.
Definition resp_for (x : Z) (f : frame) : nat := match f with FResp r => answer_for x r | FPack _ => 0 end.

Definition packs (fs : list frame) (x : Z) : nat := sum_list_with (pack_for x) fs.
Definition resps (fs : list frame) (x : Z) : nat := sum_list_with (resp_for x) fs.
Definition answers (s : msg_switch_t) (x : Z) : nat := sum_list_with (answer_for x) (s_pending_resps s).

(** The mark [f] of the message that speaks under [x]; none without such a message. *)
Inductive at_end (s : msg_switch_t) (x : Z) (f : msg_t → nat) : nat → Prop :=
| at_end_msg u m : s_msgs s !! u = Some (Some m) → wire_id m = x → at_end s x f (f m)
| at_end_none : (∀ u m, s_msgs s !! u = Some (Some m) → wire_id m ≠ x) → at_end s x f 0.

(** One credit: the packet, the mark at the receiver and the answer on its two stations are
    together what the sender waits for. *)
Record credit_inv (l : link) : Prop := {
  ci_room : ∀ τ u m, live l τ u m → room m;
  ci_sum : ∀ τ x d w, at_end (sw l (negb τ)) (- x) due d → at_end (sw l τ) x waits w →
           (packs (ch l τ) x + d + answers (sw l (negb τ)) (- x) + resps (ch l (negb τ)) (- x) = w)%nat
}.

Lemma at_end_acts s s' p m m' b o r t x f v' :
  side_ok s → acts p (flow b o r t) s s' → s_msgs s !! p = Some (Some m) → s_msgs s' !! p = Some (Some m') →
  at_end s' x f v' →
  ∃ v, at_end s x f v ∧ (x ≠ wire_id m → v' = v) ∧ (x = wire_id m → v = f m ∧ v' = f m').
Proof.
  intros Hs Ha Hp Hp' H. destruct (ac_here _ _ _ _ Ha) as (m0 & m1 & Hm0 & Hm1 & Hl & _).
  assert (m0 = m) as -> by congruence. assert (m1 = m') as -> by congruence. pose proof (same_link_wire _ _ Hl) as Ew.
  destruct H as [u mu Hu Hx|Hno].
  - destruct (decide (u = p)) as [->|Hne].
    + assert (mu = m') as -> by congruence. exists (f m). split; [apply (at_end_msg s x f p m); congruence|]. split; [congruence|done].
    + rewrite (ac_others _ _ _ _ Ha) in Hu by done. exists (f mu). split; [by apply (at_end_msg s x f u mu)|]. split; [done|].
      intros Hxm. destruct Hne. eapply (wire_unique s u mu p m); [done|done|done|congruence].
  - exists 0%nat. split; [|split; [done|]].
    + apply at_end_none. intros u mu Hu Hx. destruct (acts_same_ids' _ _ _ _ _ _ _ _ _ Ha Hu) as (mu' & Hu' & Hlu).
      apply (Hno u mu' Hu'). by rewrite (same_link_wire _ _ Hlu).
    + intros ->. by destruct (Hno p m' Hp').
Qed.

Lemma answers_told s s' y n x : told s s' y n → answers s' x = (answers s x + (if decide (y = x) then n else 0))%nat.
Proof.
  intros H. unfold answers. rewrite H, sum_list_with_app.
  assert (sum_list_with (answer_for x) (replicate n (Resp y MSG_RESP_OK)) = if decide (y = x) then n else 0%nat) as ->; [|done].
  clear H. induction n as [|n IH]; [by case_decide|]. cbn. rewrite IH. unfold answer_for. cbn.
  destruct (Z.eqb_spec y x); case_decide; lia.
Qed.

Definition if_same (x y : Z) (n : nat) : nat := if decide (x = y) then n else 0.

(** A message at the end [σ] does something with its credits. *)
Section moved.
Context (l l' : link) (σ : bool) (s' : msg_switch_t) (p : nat) (m : msg_t) (b o r t : bytes) (d : nat) (w : option nat).
Hypotheses (Hinv : link_inv l) (Hci : credit_inv l) (Hp : live l σ p m) (Ha : acts p (flow b o r t) (sw l σ) s')
  (Hcr : credit p d w (sw l σ) s') (Hd : (due m + d <= 1)%nat)
  (Es : ∀ τ, sw l' τ = <[σ := s']> (sw l) τ)
  (Hback : ∀ x, packs (ch l (negb σ)) x = (packs (ch l' (negb σ)) x + if_same x (- wire_id m) d)%nat)
  (Hout : ∀ x, (packs (ch l' σ) x + resps (ch l' (negb σ)) (- x) + if_same x (wire_id m) (waits m) =
               packs (ch l σ) x + resps (ch l (negb σ)) (- x) + if_same x (wire_id m) (default (waits m) w))%nat)
  (Hrs : ∀ x, resps (ch l' σ) x = resps (ch l σ) x).

Lemma moved_credit : credit_inv l'.
Proof.
  assert (sw l' σ = s') as Es1 by (rewrite Es; apply fn_lookup_insert).
  assert (sw l' (negb σ) = sw l (negb σ)) as Es2 by (rewrite Es; apply fn_lookup_insert_ne; by destruct σ).
  destruct Hcr as (m0 & m' & n & Hm0 & Hm' & Hwid & Ht & Hw & Hopen). unfold live in Hp. assert (m0 = m) as -> by congruence.
  pose proof (li_side _ Hinv σ) as Hs. destruct (Hopen (we_open _ (so_well _ Hs _ _ Hp))) as [_ Hroom].
  destruct (Hroom (ci_room _ Hci σ p m Hp) Hd) as [Hrm Hdue]. split.
  - intros τ u mu Hu. unfold live in Hu. destruct (decide (τ = σ)) as [->|Hne].
    + rewrite Es1 in Hu. destruct (decide (u = p)) as [->|Hne]; [by assert (mu = m') as -> by congruence|].
      rewrite (ac_others _ _ _ _ Ha) in Hu by done. by apply (ci_room _ Hci σ u).
    + rewrite (negb_ne _ _ Hne), Es2 in Hu. by apply (ci_room _ Hci (negb σ) u).
  - intros τ x dd ww Hdd Hww. destruct (decide (τ = σ)) as [->|Hne].
    + rewrite Es1 in Hww. rewrite Es2 in *.
      destruct (at_end_acts _ _ _ _ _ _ _ _ _ _ _ _ Hs Ha Hp Hm' Hww) as (v & Hv & Hv1 & Hv2).
      pose proof (ci_sum _ Hci σ x dd v Hdd Hv). specialize (Hout x). unfold if_same in Hout.
      case_decide as Hx; [destruct (Hv2 Hx)|rewrite (Hv1 Hx)]; lia.
    + rewrite (negb_ne _ _ Hne), negb_involutive in *. rewrite Es1 in *. rewrite Es2 in Hww.
      destruct (at_end_acts _ _ _ _ _ _ _ _ _ _ _ _ Hs Ha Hp Hm' Hdd) as (v & Hv & Hv1 & Hv2).
      pose proof (ci_sum _ Hci (negb σ) x v ww) as Hsum. rewrite negb_involutive in Hsum. specialize (Hsum Hv Hww).
      specialize (Hback x). unfold if_same in Hback. rewrite Hrs, (answers_told _ _ _ _ _ Ht).
      case_decide as Hx; case_decide as Hx'; try lia.
Qed.

End moved.

Lemma if_same_0 x y : if_same x y 0 = 0%nat.
Proof. unfold if_same. by case_decide. Qed.

Lemma due_le m : (due m <= 1)%nat.
Proof. unfold due. destruct (isset m _); cbn; lia. Qed.

Lemma quiet_inv l σ s' p b o wr gt :
  link_inv l → credit_inv l → acts p (flow b o [] []) (sw l σ) s' → quiet p (sw l σ) s' →
  credit_inv (Link (<[σ := s']> (sw l)) (ch l) wr gt).
Proof.
  intros Hinv Hci Ha Hq. destruct (ac_here _ _ _ _ Ha) as (m & _ & Hm & _).
  eapply (moved_credit l _ σ s' p m b o [] [] 0 None); try done; [by apply quiet_credit|..].
  - pose proof (due_le m). lia.
  - intros x. by rewrite if_same_0, Nat.add_0_r.
Qed.

(** The two ends of a link after a step of one of them. *)
Lemma sw_put (f : bool → msg_switch_t) σ s' : <[σ := s']> f σ = s' ∧ <[σ := s']> f (negb σ) = f (negb σ).
Proof. split; [apply fn_lookup_insert|apply fn_lookup_insert_ne; by destruct σ]. Qed.

Lemma ch_put (f : bool → list frame) σ fs :
  <[σ := fs]> f σ = fs ∧ <[σ := fs]> f (negb σ) = f (negb σ).
Proof. split; [apply fn_lookup_insert|apply fn_lookup_insert_ne; by destruct σ]. Qed.

Lemma fresh_room p type i : room (with_imsgid (fresh_msg p type) i).
Proof. split; [split_and!|]; cbn; [lia|by split; [lia|]|lia|done]. Qed.

(** A message that was just made has no mark. *)
Lemma made_credit l σ s' p m0 tab :
  credit_inv l → makes p m0 tab (sw l σ) s' → s_pending_resps s' = s_pending_resps (sw l σ) →
  (∀ m, alike m0 m → s_msgs s' !! p = Some (Some m) → room m ∧ due m = 0%nat ∧ waits m = 0%nat) →
  (∀ u m, live l σ u m → wire_id m ≠ wire_id m0) → credit_inv (with_sw l σ s').
Proof.
  intros [H1 H2] Hmk Ep Hm0 Hfresh. destruct (sw_put (sw l) σ s') as [Es1 Es2].
  assert (∀ x f v, (∀ m, alike m0 m → s_msgs s' !! p = Some (Some m) → f m = 0%nat) → at_end s' x f v → at_end (sw l σ) x f v) as Hend.
  { intros x f v Hf H. destruct H as [u m Hu Hx|Hno].
    - destruct (makes_cases _ _ _ _ _ _ _ Hmk Hu) as [[-> Ha]|[_ Hm]]; [|by apply (at_end_msg _ x f u m)].
      rewrite (Hf m Ha Hu). apply at_end_none. intros u m' Hu' Hx'. apply (Hfresh u m' Hu').
      destruct (alike_ids _ _ Ha) as [E1 E2]. rewrite Hx', <- Hx. unfold wire_id. by rewrite E1, E2.
    - apply at_end_none. intros u m Hu. apply (Hno u m). by eapply makes_old. }
  assert (∀ τ x f v, (∀ m, alike m0 m → s_msgs s' !! p = Some (Some m) → f m = 0%nat) →
    at_end (sw (with_sw l σ s') τ) x f v → at_end (sw l τ) x f v) as Hend'.
  { intros τ x f v Hf. cbn. destruct (decide (τ = σ)) as [->|Hne]; [rewrite Es1; by apply Hend|by rewrite (negb_ne _ _ Hne), Es2]. }
  assert (∀ τ x, answers (sw (with_sw l σ s') τ) x = answers (sw l τ) x) as Hans.
  { intros τ x. cbn. destruct (decide (τ = σ)) as [->|Hne]; [rewrite Es1; unfold answers; by rewrite Ep|by rewrite (negb_ne _ _ Hne), Es2]. }
  split.
  - intros τ u m Hu. unfold live in Hu. cbn in Hu. destruct (decide (τ = σ)) as [->|Hne].
    + rewrite Es1 in Hu. destruct (makes_cases _ _ _ _ _ _ _ Hmk Hu) as [[-> Ha]|[_ Hm]]; [by apply Hm0|by apply (H1 σ u)].
    + rewrite (negb_ne _ _ Hne), Es2 in Hu. by apply (H1 (negb σ) u).
  - intros τ x d w Hd Hw. rewrite Hans. apply H2; (apply Hend'; [|done]); intros m Ha Hm; by apply (Hm0 m Ha Hm).
Qed.

(** An answer goes from the switch to the channel. *)
Lemma send_resp_credit l σ s' r :
  credit_inv l → s_msgs s' = s_msgs (sw l σ) → s_pending_resps (sw l σ) = r :: s_pending_resps s' →
  credit_inv (Link (<[σ := s']> (sw l)) (<[σ := ch l σ ++ [FResp r]]> (ch l)) (wrote l) (got l)).
Proof.
  intros [H1 H2] Em Er. destruct (sw_put (sw l) σ s') as [Es1 Es2]. destruct (ch_put (ch l) σ (ch l σ ++ [FResp r])) as [Ec1 Ec2].
  set (l' := Link _ _ _ _). change (sw l' σ = s') in Es1. change (sw l' (negb σ) = sw l (negb σ)) in Es2.
  change (ch l' σ = ch l σ ++ [FResp r]) in Ec1. change (ch l' (negb σ) = ch l (negb σ)) in Ec2.
  assert (∀ τ, s_msgs (sw l' τ) = s_msgs (sw l τ)) as Ems.
  { intros τ. destruct (decide (τ = σ)) as [->|Hne]; [by rewrite Es1|by rewrite (negb_ne _ _ Hne), Es2]. }
  assert (∀ τ x f v, at_end (sw l' τ) x f v → at_end (sw l τ) x f v) as Hend.
  { intros τ x f v H. destruct H as [u m Hu Hx|Hno].
    - apply (at_end_msg _ x f u m); [by rewrite <- Ems|done].
    - apply at_end_none. intros u m Hu. apply (Hno u m). by rewrite Ems. }
  split.
  - intros τ u m Hu. apply (H1 τ u). unfold live in *. by rewrite <- Ems.
  - intros τ x d w Hd Hw. rewrite <- (H2 τ x d w (Hend _ _ _ _ Hd) (Hend _ _ _ _ Hw)).
    destruct (decide (τ = σ)) as [->|Hne].
    + rewrite Es2, Ec1, Ec2. unfold packs. rewrite sum_list_with_app. cbn. lia.
    + rewrite (negb_ne _ _ Hne), negb_involutive, Es1, Ec2, Ec1. unfold resps, answers. rewrite Er, sum_list_with_app. cbn. lia.
Qed.

Lemma next_frame_pack s s' pk :
  good s → next_frame s = Done (s', FPack pk) →
  ∃ p m, s_msgs s !! p = Some (Some m) ∧ waits m = 0%nat ∧ credit p 0 (Some 1%nat) s s' ∧
    acts p (λ m m', flow [] [] [] (payload pk) m m' ∧ (well m → sendable (wire_id m) pk)) s s'.
Proof.
  intros Hg H. unfold next_frame in H. apply res_bind_inv in H as ([s1 f1] & E & H). injection H as <- ->.
  destruct (s_pending_resps s) as [|r rs] eqn:Er; [|done].
  apply res_bind_inv in E as (p & Ehd & E). apply res_bind_inv in E as (m & Em & E). apply get_m_inv in Em.
  apply res_bind_inv in E as ([s2 pk2] & E & E2). injection E2 as <- <-.
  pose proof (pop_writ_acts _ _ _ _ E) as Ha. apply pop_writ_credit in E.
  exists p, m. split; [done|]. split; [|split].
  - assert (p ∈ s_pending_msgs s) as Hin by (destruct (s_pending_msgs s); [done|injection Ehd as ->; by left]).
    pose proof (good_flags _ _ _ Hg Em) as Hf. unfold waits. by rewrite (fo_waiting _ _ Hf) by (by apply (fo_pend _ _ Hf)).
  - destruct E as (m0 & m' & n & H0 & H1 & H2 & H3 & H4). exists m0, m', n. unfold told in *.
    destruct (msg_switch_has_avail_writs s2); (split; [done|]; split; [done|]; split; [done|]; split; [done|exact H4]).
  - destruct Ha as [H1 H2 H3 H4 H5]. destruct (msg_switch_has_avail_writs s2); by split.
Qed.

Lemma packs_app fs fs' x : packs (fs ++ fs') x = (packs fs x + packs fs' x)%nat.
Proof. apply sum_list_with_app. Qed.
Lemma resps_app fs fs' x : resps (fs ++ fs') x = (resps fs x + resps fs' x)%nat.
Proof. apply sum_list_with_app. Qed.

Lemma packs_cons x pk fs : packs (FPack pk :: fs) x = (if_same x (pk_msgid pk) 1 + packs fs x)%nat.
Proof. unfold packs. cbn. unfold if_same. destruct (Z.eqb_spec (pk_msgid pk) x); case_decide; done || lia. Qed.

Lemma send_pack_credit l σ s' pk :
  link_inv l → credit_inv l → good (sw l σ) → next_frame (sw l σ) = Done (s', FPack pk) →
  credit_inv (Link (<[σ := s']> (sw l)) (<[σ := ch l σ ++ [FPack pk]]> (ch l)) (wrote l) (got l)).
Proof.
  intros Hinv Hci Hg H. destruct (next_frame_pack _ _ _ Hg H) as (p & m & Hp & Hw & Hcr & Ha).
  destruct (ac_here _ _ _ _ Ha) as (m1 & m' & Hm1 & _ & _ & Hsend). assert (m1 = m) as -> by congruence.
  destruct (Hsend (so_well _ (li_side _ Hinv σ) _ _ Hp)) as [Hid _].
  destruct (ch_put (ch l) σ (ch l σ ++ [FPack pk])) as [Ec1 Ec2].
  eapply (moved_credit l _ σ s' p m [] [] [] (payload pk) 0 (Some 1%nat)); try done.
  - eapply acts_mono; [exact Ha|]. by intros ? ? _ [? _].
  - pose proof (due_le m). lia.
  - intros x. cbn [ch]. rewrite Ec2, if_same_0. lia.
  - intros x. cbn [ch]. rewrite Ec1, Ec2, Hw, if_same_0, packs_app, packs_cons, Hid. change (packs [] x) with 0%nat. change (default _ _) with 1%nat. lia.
  - intros x. cbn [ch]. rewrite Ec1, resps_app. change (resps [FPack pk] x) with 0%nat. lia.
Qed.

(** The channel is not empty: its sender waits, or its receiver is marked. *)
Lemma waits_le m : (waits m <= 1)%nat.
Proof. unfold waits. destruct (isset m _); cbn; lia. Qed.

Lemma at_end_exists s x f : ∃ v, at_end s x f v.
Proof.
  destruct (decide (x ∈ wire_id <$> omap id (s_msgs s))) as [H|H].
  - apply list_elem_of_fmap in H as (m & Hx & H). apply list_elem_of_omap in H as (o & H & Ho). apply list_elem_of_lookup in H as [u Hu].
    exists (f m). apply (at_end_msg s x f u m); [|done]. by rewrite Hu, <- Ho.
  - exists 0%nat. apply at_end_none. intros u m Hu Hx. apply H. apply list_elem_of_fmap. exists m. split; [done|].
    apply list_elem_of_omap. exists (Some m). split; [|done]. apply list_elem_of_lookup. by exists u.
Qed.

(** An answer in the channel is for a message that waits, and reaches it. *)
Lemma answered_waits l σ r rest :
  link_inv l → credit_inv l → ch l (negb σ) = FResp r :: rest →
  ∃ p m, live l σ p m ∧ wire_id m = - r_msgid r ∧ waits m = 1%nat ∧ msg_get (sw l σ) (r_msgid r) = Done (Some p).
Proof.
  intros Hinv Hci Hc. destruct (at_end_exists (sw l (negb σ)) (r_msgid r) due) as [d Hd].
  destruct (at_end_exists (sw l σ) (- r_msgid r) waits) as [w Hw].
  pose proof (ci_sum _ Hci σ (- r_msgid r) d w) as Hsum. rewrite Z.opp_involutive in Hsum. specialize (Hsum Hd Hw).
  assert (1 <= resps (ch l (negb σ)) (r_msgid r))%nat as H1.
  { rewrite Hc. unfold resps. cbn. unfold answer_for. rewrite Z.eqb_refl. lia. }
  destruct Hw as [p m Hp Hx|_]; [|lia]. exists p, m. split; [done|]. split; [done|]. pose proof (waits_le m). split; [lia|].
  pose proof (li_side _ Hinv σ) as Hs. destruct (so_id _ Hs _ _ Hp) as (_ & Hne & _).
  destruct (wire_id_cases _ _ _ Hs Hp) as [(Hi & Hw & _)|(Hi & Hw)].
  - replace (r_msgid r) with (Z.of_nat p) by lia. by eapply msg_get_slot.
  - unfold msg_get. destruct (Z.eqb_spec (r_msgid r) 0); [lia|]. destruct (Z.ltb_spec 0 (r_msgid r)); [lia|].
    replace (Z.abs (r_msgid r)) with (m_imsgid m) by lia. rewrite (so_map _ Hs _ _ Hp) by lia.
    cbn [at_index mbind res_bind]. destruct (Z.eqb_spec (Z.of_nat p) 0); [lia|]. rewrite Nat2Z.id, Hp. done.
Qed.

Lemma recv_resp_credit l σ s' r rest :
  link_inv l → credit_inv l → ch l (negb σ) = FResp r :: rest → handle_frame (sw l σ) (FResp r) = Done s' →
  credit_inv (Link (<[σ := s']> (sw l)) (<[negb σ := rest]> (ch l)) (wrote l) (got l)).
Proof.
  intros Hinv Hci Hc H. destruct (answered_waits _ _ _ _ Hinv Hci Hc) as (p & m & Hp & Hx & Hw & Hget).
  pose proof (li_chan _ Hinv (negb σ)) as Hall. rewrite Hc in Hall. apply Forall_cons in Hall as [Hr _].
  cbn in H. rewrite Hget in H. cbn [mbind res_bind] in H. pose proof (li_side _ Hinv σ) as Hs.
  destruct (so_id _ Hs _ _ Hp) as (Hid & Hne & _). pose proof (so_well _ Hs _ _ Hp) as Hwell.
  destruct (ch_put (ch l) (negb σ) rest) as [Ec1 Ec2]. rewrite negb_involutive in Ec2.
  eapply (moved_credit l _ σ s' p m [] [] [] [] 0 (Some 0%nat)); try done.
  - by eapply recv_ok_acts.
  - eapply recv_ok_credit; [exact Hget|exact Hp|apply Hwell|done|done|exact Hr|exact H].
  - pose proof (due_le m). lia.
  - intros x. cbn [ch]. rewrite Ec1, Hc, if_same_0. change (packs (FResp r :: rest) x) with (packs rest x). lia.
  - intros x. cbn [ch]. rewrite Ec1, Ec2, Hc, Hw. change (default _ _) with 0%nat. rewrite if_same_0.
    change (resps (FResp r :: rest) (- x)) with (answer_for (- x) r + resps rest (- x))%nat. unfold answer_for, if_same. rewrite Hx.
    destruct (Z.eqb_spec (r_msgid r) (- x)); case_decide; lia.
  - intros x. cbn [ch]. by rewrite Ec2.
Qed.

(** A packet in the channel is for a receiver without a mark. *)
Lemma packet_due l σ x p m :
  credit_inv l → live l σ p m → wire_id m = - x → (1 <= packs (ch l (negb σ)) x)%nat → due m = 0%nat.
Proof.
  intros Hci Hp Hx H1. destruct (at_end_exists (sw l (negb σ)) x waits) as [w Hw].
  pose proof (ci_sum _ Hci (negb σ) x (due m) w) as Hsum. rewrite negb_involutive in Hsum.
  specialize (Hsum (at_end_msg _ _ due p m Hp Hx) Hw). assert (w <= 1)%nat by (destruct Hw; [apply waits_le|lia]). lia.
Qed.

(** The message takes the packet. *)
Lemma take_credit l σ s' p m pk rest :
  link_inv l → credit_inv l → live l σ p m → wire_id m = - pk_msgid pk → ch l (negb σ) = FPack pk :: rest →
  acts p (flow [] [] (payload pk) []) (sw l σ) s' → credit p 1 None (sw l σ) s' →
  credit_inv (Link (<[σ := s']> (sw l)) (<[negb σ := rest]> (ch l)) (wrote l) (got l)).
Proof.
  intros Hinv Hci Hp Hx Hc Ha Hcr. destruct (ch_put (ch l) (negb σ) rest) as [Ec1 Ec2]. rewrite negb_involutive in Ec2.
  eapply (moved_credit l _ σ s' p m [] [] (payload pk) [] 1 None); try done.
  - rewrite (packet_due l σ (pk_msgid pk) p m); [lia|done|done|done|]. rewrite Hc, packs_cons. unfold if_same.
    rewrite decide_True by done. lia.
  - intros x. cbn [ch]. rewrite Ec1, Hc, packs_cons, Hx, Z.opp_involutive. lia.
  - intros x. cbn [ch]. rewrite Ec1, Ec2, Hc. done.
  - intros x. cbn [ch]. by rewrite Ec2.
Qed.

Lemma put_twice_credit l σ s1 s' c w g :
  credit_inv (Link (<[σ := s']> (sw (with_sw l σ s1))) c w g) → credit_inv (Link (<[σ := s']> (sw l)) c w g).
Proof.
  intros [H1 H2]. assert (∀ τ, <[σ := s']> (sw (with_sw l σ s1)) τ = <[σ := s']> (sw l) τ) as Hsame.
  { intros τ. cbn. destruct (decide (σ = τ)) as [->|Hne]; [by rewrite !fn_lookup_insert|by rewrite !fn_lookup_insert_ne]. }
  split.
  - intros τ u m Hu. apply (H1 τ u). unfold live in *. cbn [sw] in *. by rewrite Hsame.
  - intros τ x d w0. cbn [sw]. rewrite <- !Hsame. apply H2.
Qed.

Lemma recv_pack_credit l σ s' pk rest :
  link_inv l → credit_inv l → good s' → ch l (negb σ) = FPack pk :: rest → handle_frame (sw l σ) (FPack pk) = Done s' →
  credit_inv (Link (<[σ := s']> (sw l)) (<[negb σ := rest]> (ch l)) (wrote l) (got l)).
Proof.
  intros Hinv Hci Hg' Hc H. pose proof (li_chan _ Hinv (negb σ)) as Hall. rewrite Hc in Hall.
  apply Forall_cons in Hall as [[Hpk Hsp] _]. cbn in H.
  destruct (recv_packet_cases _ _ _ H Hpk) as [(p & Hget & Ha)|(p & s1 & Hget & Hneg & Hmk & Ep & (b & Hb) & Htab & Hpush & Ha)].
  - destruct (msg_get_Some _ _ _ Hget) as [m Hp]. pose proof (addressed _ _ _ _ _ Hinv Hsp Hget Hp) as Hid.
    eapply take_credit; try done. unfold msg_recv_packet in H. rewrite Hget in H. cbn [mbind res_bind] in H.
    by eapply push_read_credit.
  - assert (p ≠ 0%nat) as Hp0.
    { destruct (ac_here _ _ _ _ Ha) as (_ & m' & _ & Hm' & _). by destruct (sh_id _ (good_shape _ Hg') _ _ Hm') as (_ & ? & _). }
    destruct (recv_new_inv l σ pk p s1 Hinv Hsp Hget Hneg Hp0 Htab Hmk) as (Hinv1 & Hfresh & m1 & Hm1 & Hw1).
    assert (sw (with_sw l σ s1) σ = s1) as Es1 by apply fn_lookup_insert.
    assert (credit_inv (with_sw l σ s1)) as Hci1.
    { eapply made_credit; [done|exact Hmk|exact Ep| |done]. intros m _ Hm. rewrite Hb in Hm. injection Hm as <-.
      split; [apply (fresh_room p (pk_type pk) (- pk_msgid pk))|done]. }
    apply (put_twice_credit l σ s1). apply (take_credit (with_sw l σ s1) σ s' p m1 pk rest); try done.
    + unfold live. by rewrite Es1.
    + by rewrite Es1.
    + rewrite Es1. by eapply push_read_credit.
Qed.

Lemma open_credit l σ type s' r :
  credit_inv l → side_ok (sw l σ) → msg_open (sw l σ) type = Done (s', r) → credit_inv (with_sw l σ s').
Proof.
  intros Hci Hs H. destruct (open_makes _ _ _ _ H) as (p & Hr & Hmk). unfold msg_open in H.
  apply res_bind_inv in H as ([s1 p1] & E1 & H). apply res_bind_inv in H as (s2 & E2 & H).
  apply res_bind_inv in H as (s3 & E3 & H). injection H as <- Hr'.
  assert (p1 = p) as -> by (rewrite <- Hr' in Hr; injection Hr; lia).
  destruct (create_exact _ _ _ _ E1) as (Ep & b & Hb). unfold upd_m in E2. rewrite (get_m_Done _ _ _ Hb) in E2. injection E2 as <-.
  destruct (check_exact _ _ (set_flag MSG_STAT_CONNECTED (with_selectable (fresh_msg p type) b)) _ ltac:(by eapply put_m_lookup) E3)
    as (b' & Hb' & Ep').
  eapply made_credit; [done|exact Hmk|by rewrite Ep'| |].
  - intros m _ Hm. rewrite Hb' in Hm. injection Hm as <-.
    set (m := with_selectable _ b'). assert (untouched (fresh_msg p type) m) as Hu by untouch.
    destruct (untouched_room _ _ Hu) as (Hrm & Hd & Hw & _). rewrite Hd, Hw. split; [apply Hrm, (fresh_room p type 0)|done].
  - intros u mu Hu Hw. change (wire_id (fresh_msg p type)) with (- Z.of_nat p) in Hw. pose proof (mk_free _ _ _ _ _ Hmk) as Hfree.
    destruct (wire_id_cases _ _ _ Hs Hu) as [(_ & E & _)|(? & E)]; [|lia].
    assert (u = p) as -> by lia. unfold live in Hu. congruence.
Qed.

Definition link_ok (l : link) : Prop := both_good l ∧ link_inv l ∧ credit_inv l.

Lemma link_step_ok l l' : link_ok l → link_step l l' → link_ok l'.
Proof.
  intros (Hg & Hinv & Hci) H. destruct (link_step_inv l l' (conj Hg Hinv) H) as [Hg' Hinv']. split; [done|]. split; [done|].
  destruct H as [τ type s r H|τ id u s r Hu H|τ id u s r Hu H|τ id u s Hu H|τ id u buf s r Hu H|τ id u size s r out Hu H
                |τ s f Hw H|τ f rest s Hc H].
  - eapply open_credit; [done|apply Hinv|exact H].
  - destruct (msg_get_Some _ _ _ Hu) as [m Hm]. pose proof (we_open _ (so_well _ (li_side _ Hinv τ) _ _ Hm)) as Ho.
    apply (quiet_inv l τ s u [] []); try done; [|eapply accept_quiet; [exact Hu|exact Hm|exact Ho|exact H]].
    eapply acts_mono; [eapply accept_acts; [exact Hu|exact Hm|exact Ho|exact H]|]. intros a b _. apply alike_flow.
  - eapply (quiet_inv l τ s u [] []); try done; [by eapply flush_acts|by eapply flush_quiet].
  - apply (quiet_inv l τ s u [] []); try done; [|by eapply interests_quiet].
    eapply acts_mono; [by eapply interests_acts|]. intros a b _. apply alike_flow.
  - eapply (quiet_inv l τ s u _ []); try done; [by eapply write_acts|by eapply write_quiet].
  - eapply (quiet_inv l τ s u [] _); try done; [by eapply read_acts|by eapply read_quiet].
  - destruct f as [r|pk]; [|by apply send_pack_credit].
    pose proof (next_frame_cases _ _ _ H) as [(r' & [= <-] & E1 & _ & _ & E2)|(p & pk & [=] & _)]. by apply send_resp_credit.
  - destruct f as [r|pk]; [by apply (recv_resp_credit l τ s r rest)|]. apply (recv_pack_credit l τ s pk rest); try done.
    specialize (Hg' τ). cbn in Hg'. by rewrite fn_lookup_insert in Hg'.
Qed.

Lemma link_new_ok fa fb : link_ok (link_new fa fb).
Proof.
  destruct (link_new_inv fa fb) as [Hg Hinv]. split; [done|]. split; [done|].
  assert (∀ τ u m, ¬ live (link_new fa fb) τ u m) as Hno.
  { intros τ u m H. unfold live in H. apply lookup_replicate in H as [[=] _]. }
  split; [intros τ u m Hu; by destruct (Hno τ u m)|].
  intros τ x d w Hd Hw. destruct Hd as [u m Hu _|_]; [by destruct (Hno _ _ _ Hu)|].
  destruct Hw as [u m Hu _|_]; [by destruct (Hno _ _ _ Hu)|]. done.
Qed.

Lemma link_reachable_ok fa fb l : link_reachable fa fb l → link_ok l.
Proof. induction 1; [apply link_new_ok|by eapply link_step_ok]. Qed.

(** ** No operation fails *)

Lemma check_total s p m :
  length (s_read_set s) = FD_SETSIZE → length (s_write_set s) = FD_SETSIZE → (p < FD_SETSIZE)%nat →
  s_msgs s !! p = Some (Some m) → ∃ s', msg_check_selectability s p = Done s'.
Proof.
  intros Hr Hw Hlt Hp. destruct (FD_ISSET_Done p _ Hr Hlt) as [a Ea]. destruct (FD_ISSET_Done p _ Hw Hlt) as [b Eb].
  unfold msg_check_selectability. rewrite (get_m_Done _ _ _ Hp), Ea, Eb. cbn [mbind res_bind].
  destruct (_ || _); [by eexists|]. destruct (m_selectable m); by eexists.
Qed.

Lemma slot_lt s p o : shape s → s_msgs s !! p = Some o → (p < FD_SETSIZE)%nat.
Proof. intros Hs Hp. apply lookup_lt_Some in Hp. by rewrite (sh_msgs _ Hs) in Hp. Qed.

Lemma create_total s type :
  good s → is_Some (msg_get_avail_msgid s) →
  ∃ s' p b, msg_create s type = Done (s', p) ∧ s_msgs s' !! p = Some (Some (with_selectable (fresh_msg p type) b)) ∧
            s_imsgid_map s' = s_imsgid_map s ∧ good s' ∧ (p < FD_SETSIZE)%nat ∧ p ≠ 0%nat.
Proof.
  intros Hg [p Hp]. pose proof (good_shape _ Hg) as Hs.
  assert (∃ o, s_msgs s !! p = Some o) as [o Ho].
  { unfold msg_get_avail_msgid in Hp. apply avail_from_spec in Hp as (j & -> & Hj). exists None. by rewrite lookup_tail in Hj. }
  pose proof (slot_lt _ _ _ Hs Ho) as Hlt.
  destruct (check_total (put_m s p (fresh_msg p type)) p (fresh_msg p type)) as [s' E];
    [apply Hs|apply Hs|done|by eapply put_m_lookup|].
  assert (msg_create s type = Done (s', p)) as Ec.
  { unfold msg_create. rewrite Hp. cbn [at_index mbind res_bind]. fold (fresh_msg p type). by rewrite E. }
  destruct (create_exact _ _ _ _ Ec) as (_ & b & Hb). destruct (msg_create_good _ _ _ _ Hg Ec) as (Hg' & _).
  exists s', p, b. split_and!; try done; [apply (mk_map _ _ _ _ _ (create_makes _ _ _ _ Ec))|].
  by destruct (sh_id _ (good_shape _ Hg') _ _ Hb) as (_ & ? & _).
Qed.

Lemma open_total s type : good s → is_Some (msg_get_avail_msgid s) → ∃ s' r, msg_open s type = Done (s', r).
Proof.
  intros Hg Ha. destruct (create_total s type Hg Ha) as (s1 & p & b & E & Hp & _ & Hg1 & Hlt & _).
  unfold msg_open, upd_m. rewrite E. cbn [mbind res_bind]. rewrite (get_m_Done _ _ _ Hp). cbn [mbind res_bind].
  edestruct (check_total (put_m s1 p (set_flag MSG_STAT_CONNECTED (with_selectable (fresh_msg p type) b))) p) as [s2 E2];
    [apply (good_shape _ Hg1)|apply (good_shape _ Hg1)|done|by eapply put_m_lookup|].
  rewrite E2. by do 2 eexists.
Qed.

Lemma accept_total s u m :
  good s → side_ok s → s_msgs s !! u = Some (Some m) → ∃ s' r, msg_accept s (Z.of_nat u) = Done (s', r).
Proof.
  intros Hg Hs Hu. destruct (we_open _ (so_well _ Hs _ _ Hu)) as (Hc & Hd & _). pose proof (good_shape _ Hg) as Hsh.
  pose proof (slot_lt _ _ _ Hsh Hu) as Hlt. unfold msg_accept, upd_m. rewrite (msg_get_live _ _ _ Hsh Hu).
  cbn [mbind res_bind msg_closed]. rewrite (get_m_Done _ _ _ Hu). cbn [mbind res_bind]. rewrite Hc, Hd.
  destruct (isset m MSG_STAT_CONNECTED); [by do 2 eexists|]. cbn [mbind res_bind].
  destruct (so_hash _ Hs) as [h Hh]. destruct (fd_hash_remove_rep _ _ (Z.of_nat u) Hh) as (h' & E & _); [lia|].
  change (s_active_hash (put_m _ _ _)) with (s_active_hash s). rewrite E. cbn [mbind res_bind].
  edestruct (check_total (put_sets (put_m s u (set_flag MSG_STAT_CONNECTED m)) (s_read_set s) (s_write_set s) h') u) as [s2 E2];
    [apply Hsh|apply Hsh|done|by eapply put_m_lookup|].
  cbn [put_m put_msgs s_read_set s_write_set] in *. rewrite E2. by do 2 eexists.
Qed.

Lemma write_total s u m buf :
  good s → well m → s_msgs s !! u = Some (Some m) → ∃ s' r, msg_write s (Z.of_nat u) buf = Done (s', r).
Proof.
  intros Hg Hw Hu. destruct (we_open _ Hw) as (Hc & Hd & _). destruct (isset m MSG_STAT_SPACE_AVAIL_FOR_WRIT) eqn:Es.
  - destruct (write_stream_good s u m buf Hg Hu Hc Hd Es) as (s' & m' & new & E & _); [intros pk Hpk; by apply (we_incomplete _ Hw)|].
    rewrite E. by do 2 eexists.
  - unfold msg_write. rewrite (msg_get_live _ _ _ (good_shape _ Hg) Hu). cbn [mbind res_bind msg_closed].
    rewrite (get_m_Done _ _ _ Hu). cbn [mbind res_bind]. rewrite Hc, Hd, Es. by do 2 eexists.
Qed.

Lemma read_total s u m size :
  good s → well m → s_msgs s !! u = Some (Some m) → ∃ s' r out, msg_read s (Z.of_nat u) size = Done (s', r, out).
Proof.
  intros Hg Hw Hu. destruct (we_open _ Hw) as (Hc & Hd & _). destruct (decide (m_read_queue m = [])) as [Hq|Hq].
  - unfold msg_read. rewrite (msg_get_live _ _ _ (good_shape _ Hg) Hu). cbn [mbind res_bind msg_closed].
    rewrite (get_m_Done _ _ _ Hu). cbn [mbind res_bind]. rewrite Hc, Hd.
    destruct (isset m MSG_STAT_PACKET_AVAIL_TO_READ) eqn:Ea; [|by do 3 eexists].
    destruct (fo_read_avail _ _ (good_flags _ _ _ Hg Hu) Ea) as [|Hc']; [done|congruence].
  - destruct (read_stream_good s u m size Hg Hu Hq) as (s' & m' & out & E & _).
    + split; [done|apply (we_packets _ Hw)|apply (we_pos _ Hw)].
    + rewrite E. by do 3 eexists.
Qed.

Lemma recv_packet_total s pk :
  good s → side_ok s → is_Some (msg_get_avail_msgid s) →
  (∃ p, msg_get s (pk_msgid pk) = Done (Some p)) ∨
  (msg_get s (pk_msgid pk) = Done None ∧ pk_msgid pk < 0 ∧ - pk_msgid pk < Z.of_nat FD_SETSIZE) →
  ∃ s', msg_recv_packet s pk = Done s'.
Proof.
  intros Hg Hs Ha [[p Hp]|(Hnone & Hneg & Hlt)]; unfold msg_recv_packet.
  - rewrite Hp. cbn [mbind res_bind]. destruct (msg_get_Some _ _ _ Hp) as [m Hm].
    destruct (push_read_good s p m pk) as (s' & m' & -> & _); [by apply good_shape|by apply inv_others, Hg|done|by apply good_flags|].
    by eexists.
  - rewrite Hnone. cbn [mbind res_bind]. destruct (Z.ltb_spec (pk_msgid pk) 0); [|lia]. cbn [assert mbind res_bind].
    destruct (create_total s (pk_type pk) Hg Ha) as (s1 & p & b & Ec & Hp & Em & Hg1 & Hpl & Hp0). rewrite Ec. cbn [mbind res_bind].
    unfold upd_m. rewrite (get_m_Done _ _ _ Hp). cbn [mbind res_bind]. rewrite Z.abs_neq by lia. set (k := - pk_msgid pk) in *.
    set (m1 := with_imsgid _ k). change (s_imsgid_map (put_m s1 p m1)) with (s_imsgid_map s1).
    assert (length (s_imsgid_map s1) = FD_SETSIZE) as Hl by apply (good_shape _ Hg1).
    destruct (lookup_lt_is_Some_2 (s_imsgid_map s1) (Z.to_nat k)) as [v Hv]; [lia|]. rewrite Hv. cbn [at_index mbind res_bind].
    destruct (mk_hash _ _ _ _ _ (create_makes _ _ _ _ Ec) (so_hash _ Hs)) as [h Hh].
    destruct (fd_hash_add_rep _ _ (Z.of_nat p) Hh) as (h' & E & _); [lia|].
    change (s_active_hash (put_imsgid_map _ _)) with (s_active_hash s1). rewrite E. cbn [mbind res_bind].
    set (s2 := put_sets _ _ _ h').
    assert (good s2) as Hg2.
    { apply good_sets; [|apply (good_shape _ Hg1)|apply (good_shape _ Hg1)]. apply good_imsgid; try done; [lia|]. by rewrite length_insert. }
    assert (s_msgs s2 !! p = Some (Some m1)) as Hp2 by (by eapply put_m_lookup).
    destruct (push_read_good s2 p m1 pk) as (s' & m' & -> & _); [by apply good_shape|by apply inv_others, Hg2|done|by apply good_flags|].
    by eexists.
Qed.

(** The identifier of a packet in the channel is one that the switch can look up. *)
Lemma packet_lookup l σ x :
  both_good l → link_inv l → speaks (sw l (negb σ)) x →
  (∃ p, msg_get (sw l σ) x = Done (Some p)) ∨
  (msg_get (sw l σ) x = Done None ∧ x < 0 ∧ - x < Z.of_nat FD_SETSIZE).
Proof.
  intros Hg Hinv (u & m & Hu & Hx). pose proof (li_side _ Hinv) as Hs.
  pose proof (slot_lt _ _ _ (good_shape _ (Hg (negb σ))) Hu) as Hlt. unfold msg_get.
  destruct (wire_id_cases _ _ _ (Hs (negb σ)) Hu) as [(Hi & Hw & Hneg)|(Hi & Hw)]; rewrite Hx in *.
  - destruct (Z.eqb_spec x 0); [lia|]. destruct (Z.ltb_spec 0 x); [lia|].
    destruct (lookup_lt_is_Some_2 (s_imsgid_map (sw l σ)) (Z.to_nat (Z.abs x))) as [v Hv].
    { rewrite (sh_map _ (good_shape _ (Hg σ))). lia. }
    rewrite Hv. cbn [at_index mbind res_bind]. destruct (Z.eqb_spec v 0); [right; split; [done|lia]|left].
    destruct (so_conv _ (Hs σ) _ _ Hv) as (_ & v' & m' & -> & Hv' & _); [done|]. rewrite Nat2Z.id, Hv'. by exists v'.
  - left. destruct (Z.eqb_spec x 0); [lia|]. destruct (Z.ltb_spec 0 x); [|lia].
    destruct (li_owner _ Hinv (negb σ) u m Hu) as (m' & Hm' & _); [lia|]. rewrite negb_involutive, <- Hw in Hm'.
    rewrite Hm'. by eexists.
Qed.

Lemma handle_total l σ f rest :
  link_ok l → ch l (negb σ) = f :: rest → is_Some (msg_get_avail_msgid (sw l σ)) → ∃ s', handle_frame (sw l σ) f = Done s'.
Proof.
  intros (Hg & Hinv & Hci) Hc Ha. pose proof (li_chan _ Hinv (negb σ)) as Hall. rewrite Hc in Hall.
  apply Forall_cons in Hall as [Hf _]. destruct f as [r|pk]; cbn.
  - destruct (answered_waits _ _ _ _ Hinv Hci Hc) as (p & m & Hp & _ & Hw & Hget). rewrite Hget. cbn [mbind res_bind].
    destruct (recv_ok_live (sw l σ) p m r (r_msgid r)) as (s' & -> & _); try done; [|right|by eexists].
    + by rewrite Hf.
    + unfold waits in Hw. by destruct (isset m MSG_STAT_WAITING_FOR_RESP).
  - destruct Hf as [_ Hsp]. apply recv_packet_total; [apply Hg|apply Hinv|done|by apply packet_lookup].
Qed.

(** The operations that the two programs and the event loops may do: a call names a message
    that the switch knows, and a frame is only handled while the table has a free slot. *)
Definition enabled (l : link) (o : link_op) : Prop :=
  match o with
  | LOpen τ _ => is_Some (msg_get_avail_msgid (sw l τ))
  | LAccept τ u | LFlush τ u | LWrite τ u _ | LRead τ u _ => ∃ m, live l τ u m
  | LSend τ => zs_write_set (sw l τ) = true
  | LRecv τ => ch l (negb τ) ≠ [] ∧ is_Some (msg_get_avail_msgid (sw l τ))
  end.

Lemma exec_total l o : link_ok l → enabled l o → ∃ l', link_exec l o = Done l'.
Proof.
  intros Hok He. pose proof Hok as (Hg & Hinv & _). pose proof (li_side _ Hinv) as Hs.
  destruct o as [τ type|τ u|τ u|τ u buf|τ u size|τ|τ]; cbn in He |- *.
  - destruct (open_total (sw l τ) type (Hg τ) He) as (s' & r & ->). by eexists.
  - destruct He as [m Hm]. rewrite (get_m_Done _ _ _ Hm). cbn [mbind res_bind].
    destruct (accept_total _ _ _ (Hg τ) (Hs τ) Hm) as (s' & r & ->). by eexists.
  - destruct He as [m Hm]. rewrite (get_m_Done _ _ _ Hm). cbn [mbind res_bind].
    destruct (msg_flush_live _ _ _ (Hg τ) Hm) as (s' & r & -> & _). by eexists.
  - destruct He as [m Hm]. rewrite (get_m_Done _ _ _ Hm). cbn [mbind res_bind].
    destruct (write_total _ _ _ buf (Hg τ) (so_well _ (Hs τ) _ _ Hm) Hm) as (s' & r & ->). by eexists.
  - destruct He as [m Hm]. rewrite (get_m_Done _ _ _ Hm). cbn [mbind res_bind].
    destruct (read_total _ _ _ size (Hg τ) (so_well _ (Hs τ) _ _ Hm) Hm) as (s' & r & out & ->). by eexists.
  - rewrite He. cbn [assert mbind res_bind]. destruct (next_frame_good (sw l τ)) as (s' & f & -> & _); [apply Hg|by apply (proj2 (Hg τ))|].
    by eexists.
  - destruct He as [Hne Ha]. destruct (ch l (negb τ)) as [|f rest] eqn:Hc; [done|].
    destruct (handle_total l τ f rest Hok Hc Ha) as [s' ->]. by eexists.
Qed.

(** ** Properties *)

(** C4: the two ends of a connection never fail, as long as no message is closed: in every
    state that they reach, a call on a message that the switch knows, the next frame that is
    sent and the next frame that is handled all come to an end without an access outside a
    table, through NULL or to a freed message and without a failed assertion.  The one
    condition is a free slot for a new message. *)
Theorem link_never_fails fa fb l o :
  link_reachable fa fb l → enabled l o → ∃ l', link_exec l o = Done l' ∧ link_reachable fa fb l'.
Proof.
  intros Hr He. pose proof (link_reachable_ok _ _ _ Hr) as Hok. destruct (exec_total l o Hok He) as [l' E].
  exists l'. split; [done|]. eapply link_next; [done|]. eapply link_exec_step; [apply Hok|done].
Qed.

Lemma link_never_fails_witness :
  ∃ l l', link_reachable 3 4 l ∧ ch l true ≠ [] ∧ link_exec l (LRecv false) = Done l'.
Proof.
  destruct (link_sample [LOpen true 1; LWrite true 1 (str "abc"); LFlush true 1; LSend true] true 1
    (λ l _, negb (bool_decide (ch l true = [])) && match msg_get_avail_msgid (sw l false) with Some _ => true | None => false end))
    as (l & m & Hr & _ & H); [vm_compute; reflexivity|].
  apply andb_prop in H as [Hc Ha]. apply negb_true_iff, bool_decide_eq_false in Hc.
  destruct (link_never_fails 3 4 l (LRecv false) Hr) as (l' & E & _).
  - split; [exact Hc|]. destruct (msg_get_avail_msgid (sw l false)); [by eexists|done].
  - by exists l, l'.
Defined.

(** Flow control between the two ends.  While a message waits for the answer to a packet,
    exactly one of the packet in the channel, the mark at the message that received it, the
    answer in the queue of its switch and the answer in the channel is there, and none of
    them otherwise; and the other end never holds more than two packets that were not read. *)
Theorem link_one_credit fa fb l τ u m v m' :
  link_reachable fa fb l → live l τ u m → live l (negb τ) v m' → wire_id m' = - wire_id m →
  (packs (ch l τ) (wire_id m) + due m' + answers (sw l (negb τ)) (wire_id m') + resps (ch l (negb τ)) (wire_id m')
   = waits m)%nat ∧
  (length (m_read_queue m') <= 2)%nat.
Proof.
  intros Hr Hu Hv Hx. destruct (link_reachable_ok _ _ _ Hr) as (_ & _ & Hci). split.
  - rewrite Hx. apply (ci_sum _ Hci τ (wire_id m)); [by eapply at_end_msg|by eapply at_end_msg].
  - destruct (ci_room _ Hci _ _ _ Hv) as [(H & _) _]. exact H.
Qed.

Lemma link_one_credit_witness :
  ∃ l m m', link_reachable 3 4 l ∧ live l true 1 m ∧ live l false 1 m' ∧ waits m = 1%nat ∧
    (packs (ch l true) (wire_id m) + due m' + answers (sw l false) (wire_id m') + resps (ch l false) (wire_id m') = 1)%nat.
Proof.
  destruct (link_sample [LOpen true 1; LWrite true 1 (str "abc"); LFlush true 1; LSend true; LRecv false] true 1
    (λ l m, bool_decide (waits m = 1%nat) &&
            match s_msgs (sw l false) !! 1%nat with Some (Some m') => wire_id m' =? - wire_id m | _ => false end))
    as (l & m & Hr & Hu & H); [vm_compute; reflexivity|].
  apply andb_prop in H as [Hw Hm]. apply bool_decide_eq_true in Hw.
  destruct (s_msgs (sw l false) !! 1%nat) as [[m'|]|] eqn:Em'; try done. apply Z.eqb_eq in Hm.
  exists l, m, m'. split_and!; try done. rewrite <- Hw.
  apply (link_one_credit 3 4 l true 1 m 1 m' Hr Hu Em' Hm).
Defined.

(** Both ends have sent and handled all that they could. *)
Definition at_rest (l : link) : Prop := ∀ σ, msg_switch_has_avail_writs (sw l σ) = false ∧ ch l σ = [].

(** C5: nothing gets stuck.  When both ends have nothing to send, the channels are empty, the
    writer has no packet that is still being filled and the reader has no packet left, then
    the reader has read all that was written, in order. *)
Theorem link_all_delivered fa fb l τ u m v m' :
  link_reachable fa fb l → live l τ u m → live l (negb τ) v m' → wire_id m' = - wire_id m →
  at_rest l →
  m_incomplete m = None → m_read_queue m' = [] → got l (negb τ) v = wrote l τ u.
Proof.
  intros Hr Hu Hv Hx Hq Hi Hrq. destruct (link_reachable_ok _ _ _ Hr) as (Hg & Hinv & Hci).
  assert (∀ σ, s_pending_msgs (sw l σ) = [] ∧ s_pending_resps (sw l σ) = []) as Hpend.
  { intros σ. destruct (Hq σ) as [H _]. unfold msg_switch_has_avail_writs in H. apply orb_false_iff in H as [H1 H2].
    apply negb_false_iff, bool_decide_eq_true in H1, H2. done. }
  assert (waits m = 0%nat) as Hw.
  { rewrite <- (ci_sum _ Hci τ (wire_id m) _ _ (at_end_msg _ _ due v m' Hv Hx) (at_end_msg _ _ waits u m Hu eq_refl)).
    unfold answers. rewrite (proj2 (Hq τ)), (proj2 (Hq (negb τ))), (proj2 (Hpend (negb τ))). cbn.
    destruct (ci_room _ Hci _ _ _ Hv) as [_ Hneed]. rewrite Hrq in Hneed. unfold due.
    destruct (isset m' MSG_STAT_NEED_TO_SEND_RESP); [by discriminate (Hneed eq_refl)|done]. }
  destruct (si_msgs _ (proj1 (Hg τ)) u m Hu) as [Hf Hset].
  assert (m_writ_queue m = []) as Hwq.
  { destruct (decide (m_writ_queue m = [])) as [|Hne]; [done|]. destruct (st_writ _ Hset Hne) as [Hwr|Hwait].
    - apply (fo_pend _ _ Hf) in Hwr. rewrite (proj1 (Hpend τ)) in Hwr. by apply elem_of_nil in Hwr.
    - unfold waits in Hw. by rewrite Hwait in Hw. }
  pose proof (li_bytes _ Hinv τ (wire_id m) _ _ _ _ _ _ (end_at l τ _ u m Hu eq_refl) (end_at l (negb τ) _ v m' Hv Hx)) as H.
  rewrite H, (proj2 (Hq τ)). unfold writ_stream, read_stream. rewrite Hwq, Hi, Hrq.
  cbn [fmap list_fmap concat]. by rewrite drop_nil, !app_nil_r.
Qed.

Lemma link_all_delivered_witness :
  ∃ l v m', link_reachable 3 4 l ∧ live l false v m' ∧ got l false v = str "abc".
Proof.
  destruct (link_sample [LOpen true 1; LWrite true 1 (str "abc"); LFlush true 1; LSend true; LRecv false; LRead false 1 5;
    LSend false; LRecv true] true 1
    (λ l m, bool_decide (wrote l true 1%nat = str "abc") && bool_decide (m_incomplete m = None) &&
            forallb (λ σ, negb (msg_switch_has_avail_writs (sw l σ)) && bool_decide (ch l σ = [])) [true; false] &&
            match s_msgs (sw l false) !! 1%nat with
            | Some (Some m') => (wire_id m' =? - wire_id m) && bool_decide (m_read_queue m' = []) | _ => false end))
    as (l & m & Hr & Hu & H); [vm_compute; reflexivity|].
  apply andb_prop in H as [H Hm]. apply andb_prop in H as [H Hq]. apply andb_prop in H as [Hw Hi].
  apply bool_decide_eq_true in Hw, Hi. cbn [forallb] in Hq. apply andb_prop in Hq as [Hq1 Hq2].
  apply andb_prop in Hq2 as [Hq2 _]. apply andb_prop in Hq1 as [Ha1 Hb1]. apply andb_prop in Hq2 as [Ha2 Hb2].
  apply negb_true_iff in Ha1, Ha2. apply bool_decide_eq_true in Hb1, Hb2.
  destruct (s_msgs (sw l false) !! 1%nat) as [[m'|]|] eqn:Em'; try done. apply andb_prop in Hm as [Hx Hrq].
  apply Z.eqb_eq in Hx. apply bool_decide_eq_true in Hrq. exists l, 1%nat, m'. split_and!; try done. rewrite <- Hw.
  apply (link_all_delivered 3 4 l true 1 m 1 m' Hr Hu Em' Hx); [by intros []|done|done].
Defined.
