(* ===== verification/Simclist.v ===== *)
(** * simclist.c: the lists

    Every component keeps its data in lists of simclist.c: doubly linked lists with a
    sentinel at each end, a pointer to the middle element, and a few spare nodes.  This
    file has the nodes on a heap and the operations as programs on that heap; SimclistRep
    ties a list on the heap to a functional list, SimclistSpec shows that every operation
    is the operation on functional lists that the other files use, and SimclistSort is
    about the sort. *)

From S2P Require Import Prelude.
From stdpp Require Import gmap.
Local Open Scope Z_scope.

(** ** Memory *)

(** [struct list_entry_s]; an address is an integer and 0 is NULL. *)
Record entry := Entry { e_data : Z; e_next : Z; e_prev : Z }.

(** The blocks of user data, by address: comparators and the other functions of the user
    look at them. *)
Notation heap := (gmap Z bytes).

(** The nodes that are allocated, the blocks of user data, and the number of random
    numbers drawn. *)
Record mem := Mem { entries : gmap Z entry; blocks : heap; draws : nat }.

(** [malloc]: NULL, or an address that is not in use, and for a node what the new memory
    happens to hold. *)
Class Allocator := {
  alloc_entry : gmap Z entry → option (Z * entry);
  alloc_block : heap → Z → option Z;
  alloc_entry_fresh e p c : alloc_entry e = Some (p, c) → p ≠ 0 ∧ e !! p = None;
  alloc_block_fresh b n p : alloc_block b n = Some p → p ≠ 0 ∧ b !! p = None
}.

(** Programs on the heap. *)
Definition hm (A : Type) : Type := mem → res (A * mem).

#[export] Instance hm_ret : MRet hm := fun A a m => Done (a, m).
#[export] Instance hm_bind : MBind hm := fun A B k c m =>
  match c m with Done (a, m) => k a m | Fault f => Fault f end.

Definition fail {A} (f : fault) : hm A := fun _ => Fault f.

(** [*p] for a node. *)
Definition load (p : Z) : hm entry := fun m =>
  if p =? 0 then Fault NullDeref
  else match entries m !! p with Some e => Done (e, m) | None => Fault UseAfterFree end.

Definition modify (f : entry → entry) (p : Z) : hm unit := fun m =>
  if p =? 0 then Fault NullDeref
  else match entries m !! p with
       | Some _ => Done (tt, Mem (alter f p (entries m)) (blocks m) (draws m))
       | None => Fault UseAfterFree
       end.

Definition put_data (v : Z) (e : entry) : entry := Entry v (e_next e) (e_prev e).
Definition put_next (v : Z) (e : entry) : entry := Entry (e_data e) v (e_prev e).
Definition put_prev (v : Z) (e : entry) : entry := Entry (e_data e) (e_next e) v.

(** [p->data = v], [p->next = v], [p->prev = v] *)
Definition set_data (p v : Z) : hm unit := modify (put_data v) p.
Definition set_next (p v : Z) : hm unit := modify (put_next v) p.
Definition set_prev (p v : Z) : hm unit := modify (put_prev v) p.

(** [p->data], [p->next], [p->prev] *)
Definition get_data (p : Z) : hm Z := e ← load p; mret (e_data e).
Definition get_next (p : Z) : hm Z := e ← load p; mret (e_next e).
Definition get_prev (p : Z) : hm Z := e ← load p; mret (e_prev e).

(** [ptr = ptr->next, i++], [n] times; and backwards. *)
Fixpoint walk (link : entry → Z) (n : nat) (p : Z) : hm Z :=
  match n with
  | O => mret p
  | S n => e ← load p; walk link n (link e)
  end.

Definition get_blocks : hm heap := fun m => Done (blocks m, m).

(** [free] of a node and of a block of user data. *)
Definition free_entry (p : Z) : hm unit := fun m =>
  match entries m !! p with
  | Some _ => Done (tt, Mem (delete p (entries m)) (blocks m) (draws m))
  | None => Fault UseAfterFree
  end.

Definition free_data (p : Z) : hm unit := fun m =>
  if p =? 0 then Done (tt, m)
  else match blocks m !! p with
       | Some _ => Done (tt, Mem (entries m) (delete p (blocks m)) (draws m))
       | None => Fault UseAfterFree
       end.

Section malloc.
Context `{Allocator}.

Definition new_entry : hm Z := fun m =>
  match alloc_entry (entries m) with
  | Some (p, c) => Done (p, Mem (<[p := c]> (entries m)) (blocks m) (draws m))
  | None => Done (0, m)
  end.

(** [malloc( n )] and [memcpy] of [n] bytes from [src]. *)
Definition copy_block (src n : Z) : hm Z := fun m =>
  match alloc_block (blocks m) n with
  | None => Fault NullDeref
  | Some p =>
      match blocks m !! src with
      | None => Fault UseAfterFree
      | Some d =>
          if n <=? Z.of_nat (length d)
          then Done (p, Mem (entries m) (<[p := take (Z.to_nat n) d]> (blocks m)) (draws m))
          else Fault OutOfBounds
      end
  end.
End malloc.

(** ** Single precision

    [list_findpos] divides two numbers of type float.  A number of this type is [m * 2^-k]
    with [m] of 24 bits; the nearest one is taken, the even one of two. *)

Inductive float32 := NaN | Inf | Fin (m k : Z).

(** [n / d] rounded to an integer, ties to even. *)
Definition round_even (n d : Z) : Z :=
  let q := n / d in
  let r := n mod d in
  if 2 * r <? d then q else if d <? 2 * r then q + 1 else if Z.even q then q else q + 1.

(** [n * 2^k / d] *)
Definition scaled (n d k : Z) : Z * Z :=
  if k <? 0 then (n, d * 2 ^ (- k)) else (n * 2 ^ k, d).

(** The number of this type next to [n / d]. *)
Definition nearest (n d : Z) : float32 :=
  if n =? 0 then Fin 0 0
  else
    let k := 24 + Z.log2 d - Z.log2 n in
    let '(a, b) := scaled n d k in
    let k := if 2 ^ 24 <=? a / b then k - 1 else k in
    let '(a, b) := scaled n d k in
    Fin (round_even a b) k.

(** [(float)n] *)
Definition to_float (n : Z) : float32 := nearest n 1.

(** [a / b], for operands that are not negative *)
Definition fdiv (x y : float32) : float32 :=
  match x, y with
  | Fin m k, Fin m' k' =>
      if m' =? 0 then if m =? 0 then NaN else Inf
      else let '(a, b) := scaled m m' (k' - k) in nearest a b
  | _, _ => NaN
  end.

(** [x <= n / d] and [x < n / d] *)
Definition fle (x : float32) (n d : Z) : bool :=
  match x with Fin m k => let '(a, b) := scaled m 1 (- k) in a * d <=? n * b | _ => false end.
Definition flt (x : float32) (n d : Z) : bool :=
  match x with Fin m k => let '(a, b) := scaled m 1 (- k) in a * d <? n * b | _ => false end.

(** ** The list object *)

(** [struct list_attributes_s].  The functions of the user read the blocks of user data. *)
Record list_attributes_s := Attrs {
  comparator : option (heap → Z → Z → Z);
  seeker : option (heap → Z → Z → Z);
  meter : option (heap → Z → Z);
  copy_data : bool;
  hasher : option (heap → Z → Z);
  serializer : option (Z → hm (Z * Z));       (* the serialized element and its length *)
  unserializer : option (Z → hm (Z * Z))      (* the element and its length in memory *)
}.

(** [list_t].  [spareels] is the part of the array below [spareelsnum], the last one first. *)
Record list_t := L {
  head_sentinel : Z;
  tail_sentinel : Z;
  mid : Z;
  numels : Z;
  spareels : list Z;
  iter_active : bool;
  iter_pos : Z;
  iter_curentry : Z;
  attrs : list_attributes_s
}.

Definition SIMCLIST_MAX_SPARE_ELEMS : Z := 5.
Definition SIMCLIST_MINQUICKSORTELS : Z := 24.

Definition with_mid (p : Z) (l : list_t) : list_t :=
  L (head_sentinel l) (tail_sentinel l) p (numels l) (spareels l) (iter_active l) (iter_pos l)
    (iter_curentry l) (attrs l).
Definition with_numels (n : Z) (l : list_t) : list_t :=
  L (head_sentinel l) (tail_sentinel l) (mid l) n (spareels l) (iter_active l) (iter_pos l)
    (iter_curentry l) (attrs l).
Definition with_spareels (s : list Z) (l : list_t) : list_t :=
  L (head_sentinel l) (tail_sentinel l) (mid l) (numels l) s (iter_active l) (iter_pos l)
    (iter_curentry l) (attrs l).
Definition with_iter (active : bool) (pos cur : Z) (l : list_t) : list_t :=
  L (head_sentinel l) (tail_sentinel l) (mid l) (numels l) (spareels l) active pos cur (attrs l).
Definition with_attrs (a : list_attributes_s) (l : list_t) : list_t :=
  L (head_sentinel l) (tail_sentinel l) (mid l) (numels l) (spareels l) (iter_active l) (iter_pos l)
    (iter_curentry l) a.

(** [l->spareelsnum] *)
Definition spareelsnum (l : list_t) : Z := Z.of_nat (length (spareels l)).

Definition list_attributes_setdefaults (l : list_t) : list_t :=
  with_attrs (Attrs None None None false None None None) l.

Definition list_attributes_comparator (l : list_t) (f : option (heap → Z → Z → Z)) : list_t :=
  with_attrs (Attrs f (seeker (attrs l)) (meter (attrs l)) (copy_data (attrs l)) (hasher (attrs l))
                (serializer (attrs l)) (unserializer (attrs l))) l.
Definition list_attributes_seeker (l : list_t) (f : option (heap → Z → Z → Z)) : list_t :=
  with_attrs (Attrs (comparator (attrs l)) f (meter (attrs l)) (copy_data (attrs l)) (hasher (attrs l))
                (serializer (attrs l)) (unserializer (attrs l))) l.
Definition list_attributes_copy (l : list_t) (f : option (heap → Z → Z)) (copy : bool) : Z * list_t :=
  match f, copy with
  | None, true => (-1, l)
  | _, _ => (0, with_attrs (Attrs (comparator (attrs l)) (seeker (attrs l)) f copy (hasher (attrs l))
                      (serializer (attrs l)) (unserializer (attrs l))) l)
  end.
Definition list_attributes_hash_computer (l : list_t) (f : option (heap → Z → Z)) : list_t :=
  with_attrs (Attrs (comparator (attrs l)) (seeker (attrs l)) (meter (attrs l)) (copy_data (attrs l)) f
                (serializer (attrs l)) (unserializer (attrs l))) l.
Definition list_attributes_serializer (l : list_t) (f : option (Z → hm (Z * Z))) : list_t :=
  with_attrs (Attrs (comparator (attrs l)) (seeker (attrs l)) (meter (attrs l)) (copy_data (attrs l))
                (hasher (attrs l)) f (unserializer (attrs l))) l.
Definition list_attributes_unserializer (l : list_t) (f : option (Z → hm (Z * Z))) : list_t :=
  with_attrs (Attrs (comparator (attrs l)) (seeker (attrs l)) (meter (attrs l)) (copy_data (attrs l))
                (hasher (attrs l)) (serializer (attrs l)) f) l.

Definition list_size (l : list_t) : Z := numels l.
Definition list_empty (l : list_t) : bool := numels l =? 0.

(** ** Finding *)

(** [(l->numels-1)/2] *)
Definition mid_index (l : list_t) : Z := wrap_u32 (numels l - 1) / 2.

Definition list_findpos (l : list_t) (posstart : Z) : hm Z :=
  if (posstart <? -1) || (wrap_s32 (numels l) <? posstart) then mret 0
  else
    let x := fdiv (to_float (posstart + 1)) (to_float (numels l)) in
    if fle x 1 4 then walk e_next (Z.to_nat (posstart - -1)) (head_sentinel l)
    else if flt x 1 2 then walk e_prev (Z.to_nat (wrap_s32 (mid_index l) - posstart)) (mid l)
    else if fle x 3 4 then walk e_next (Z.to_nat (posstart - wrap_s32 (mid_index l))) (mid l)
    else walk e_prev (Z.to_nat (wrap_s32 (numels l) - posstart)) (tail_sentinel l).

Definition list_get_at (l : list_t) (pos : Z) : hm Z :=
  tmp ← list_findpos l (wrap_s32 pos);
  if tmp =? 0 then mret 0 else get_data tmp.

(** [for (s = s; s != l->tail_sentinel; s = s->next)] *)
Fixpoint minmax_loop (fuel : nat) (cmp : heap → Z → Z → Z) (versus tail curminmax s : Z) : hm Z :=
  match fuel with
  | O => fail OutOfFuel
  | S fuel =>
      if s =? tail then mret curminmax
      else
        d ← get_data s;
        b ← get_blocks;
        n ← get_next s;
        minmax_loop fuel cmp versus tail (if 0 <? cmp b curminmax d * versus then d else curminmax) n
  end.

(** As many rounds as the list has elements, and one. *)
Definition rounds (l : list_t) : nat := S (Z.to_nat (numels l)).

Definition list_get_minmax (l : list_t) (versus : Z) : hm Z :=
  match comparator (attrs l) with
  | Some cmp =>
      if numels l =? 0 then mret 0
      else
        first ← get_next (head_sentinel l);
        d ← get_data first;
        s ← get_next first;
        minmax_loop (rounds l) cmp versus (tail_sentinel l) d s
  | None => mret 0
  end.
Definition list_get_max (l : list_t) : hm Z := list_get_minmax l 1.
Definition list_get_min (l : list_t) : hm Z := list_get_minmax l (-1).

(** The first place at or after [pos] whose data passes the test. *)
Fixpoint locate_loop (fuel : nat) (test : heap → Z → bool) (tail el pos : Z) : hm Z :=
  match fuel with
  | O => fail OutOfFuel
  | S fuel =>
      if el =? tail then mret (-1)
      else
        d ← get_data el;
        b ← get_blocks;
        if test b d then mret pos
        else n ← get_next el; locate_loop fuel test tail n (pos + 1)
  end.

Definition list_locate (l : list_t) (data : Z) : hm Z :=
  el ← get_next (head_sentinel l);
  let test := match comparator (attrs l) with
              | Some cmp => fun b d => cmp b data d =? 0
              | None => fun _ d => d =? data
              end in
  locate_loop (rounds l) test (tail_sentinel l) el 0.

Definition list_contains (l : list_t) (data : Z) : hm bool :=
  pos ← list_locate l data; mret (0 <=? pos).

Fixpoint seek_loop (fuel : nat) (seek : heap → Z → Z → Z) (indicator tail iter : Z) : hm Z :=
  match fuel with
  | O => fail OutOfFuel
  | S fuel =>
      if iter =? tail then mret 0
      else
        d ← get_data iter;
        b ← get_blocks;
        if negb (seek b d indicator =? 0) then mret d
        else n ← get_next iter; seek_loop fuel seek indicator tail n
  end.

Definition list_seek (l : list_t) (indicator : Z) : hm Z :=
  match seeker (attrs l) with
  | None => mret 0
  | Some seek =>
      iter ← get_next (head_sentinel l);
      seek_loop (rounds l) seek indicator (tail_sentinel l) iter
  end.

(** ** Deleting *)

(** The node becomes a spare one if there is room, and is freed otherwise. *)
Definition spare_or_free (l : list_t) (p : Z) : hm list_t :=
  if spareelsnum l <? SIMCLIST_MAX_SPARE_ELEMS
  then mret (with_spareels (p :: spareels l) l)
  else free_entry p;; mret l.

(** [if (l->attrs.copy_data && tmp->data != NULL) free(tmp->data)] *)
Definition free_copy (l : list_t) (p : Z) : hm unit :=
  if copy_data (attrs l) then d ← get_data p; free_data d else mret tt.

Definition list_drop_elem (l : list_t) (tmp pos : Z) : hm (Z * list_t) :=
  if tmp =? 0 then mret (-1, l)
  else
    (* fix mid pointer *)
    mid' ← (if numels l mod 2 =? 1
            then if numels l / 2 <=? pos then get_prev (mid l) else mret (mid l)
            else if pos <? numels l / 2 then get_next (mid l) else mret (mid l));
    let l := with_mid mid' l in
    prev ← get_prev tmp;
    next ← get_next tmp;
    set_next prev next;;
    next ← get_next tmp;
    prev ← get_prev tmp;
    set_prev next prev;;
    free_copy l tmp;;
    l ← spare_or_free l tmp;
    mret (0, l).

Definition list_delete_at (l : list_t) (pos : Z) : hm (Z * list_t) :=
  if iter_active l || (numels l <=? pos) then mret (-1, l)
  else
    delendo ← list_findpos l (wrap_s32 pos);
    r ← list_drop_elem l delendo pos;
    let l := r.2 in
    mret (0, with_numels (wrap_u32 (numels l - 1)) l).

Definition list_extract_at (l : list_t) (pos : Z) : hm (Z * list_t) :=
  if iter_active l || (numels l <=? pos) then mret (0, l)
  else
    tmp ← list_findpos l (wrap_s32 pos);
    data ← get_data tmp;
    set_data tmp 0;;
    r ← list_drop_elem l tmp pos;
    let l := r.2 in
    mret (data, with_numels (wrap_u32 (numels l - 1)) l).

Definition list_fetch (l : list_t) : hm (Z * list_t) := list_extract_at l 0.

(** The loop of [list_delete_range] over [n] nodes from [tmp]; the node after them. *)
Fixpoint delete_nodes (n : nat) (l : list_t) (tmp : Z) : hm (Z * list_t) :=
  match n with
  | O => mret (tmp, l)
  | S n =>
      next ← get_next tmp;
      free_copy l tmp;;
      l ← spare_or_free l tmp;
      delete_nodes n l next
  end.

Definition list_delete_range (l : list_t) (posstart posend : Z) : hm (Z * list_t) :=
  if iter_active l || (posend <? posstart) || (numels l <=? posend) then mret (-1, l)
  else
    tmp ← list_findpos l (wrap_s32 posstart);
    lastvalid ← get_prev tmp;
    let numdel := posend - posstart + 1 in
    let midposafter := wrap_u32 (numels l - 1 - numdel) / 2 in
    let midposafter := if midposafter <? posstart then midposafter else wrap_u32 (midposafter + numdel) in
    let movedx := wrap_s32 (midposafter - mid_index l) in
    mid' ← (if 0 <? movedx then walk e_next (Z.to_nat movedx) (mid l)
            else walk e_prev (Z.to_nat (- movedx)) (mid l));
    r ← delete_nodes (Z.to_nat numdel) (with_mid mid' l) tmp;
    let '(tmp, l) := r in
    set_next lastvalid tmp;;
    set_prev tmp lastvalid;;
    mret (0, with_numels (wrap_u32 (numels l - numdel)) l).

(** The two loops of [list_clear]: nodes are kept while there is room, the others are
    freed. *)
Fixpoint clear_spare (fuel : nat) (l : list_t) (s : Z) : hm (Z * list_t) :=
  match fuel with
  | O => fail OutOfFuel
  | S fuel =>
      if (spareelsnum l <? SIMCLIST_MAX_SPARE_ELEMS) && negb (s =? tail_sentinel l)
      then
        free_copy l s;;
        let l := with_spareels (s :: spareels l) l in
        s ← get_next s;
        clear_spare fuel l s
      else mret (s, l)
  end.

Fixpoint clear_free (fuel : nat) (l : list_t) (s : Z) : hm unit :=
  match fuel with
  | O => fail OutOfFuel
  | S fuel =>
      if s =? tail_sentinel l then mret tt
      else
        free_copy l s;;
        s ← get_next s;
        p ← get_prev s;
        free_entry p;;
        clear_free fuel l s
  end.

Definition list_clear (l : list_t) : hm (Z * list_t) :=
  if iter_active l then mret (-1, l)
  else
    s ← get_next (head_sentinel l);
    r ← clear_spare (rounds l) l s;
    let '(s, l) := r in
    clear_free (rounds l) l s;;
    set_next (head_sentinel l) (tail_sentinel l);;
    set_prev (tail_sentinel l) (head_sentinel l);;
    mret (0, with_mid 0 (with_numels 0 l)).

Fixpoint free_all (ps : list Z) : hm unit :=
  match ps with
  | [] => mret tt
  | p :: ps => free_entry p;; free_all ps
  end.

(** The array [spareels] is freed with them. *)
Definition list_destroy (l : list_t) : hm unit :=
  r ← list_clear l;
  let l := r.2 in
  free_all (rev (spareels l));;
  free_entry (head_sentinel l);;
  free_entry (tail_sentinel l).

Section operations.
Context `{Allocator}.
(** The numbers that [random] gives. *)
Context (random : nat → Z).

Definition list_init : hm (Z * list_t) :=
  head ← new_entry;
  tail ← new_entry;
  set_next head tail;;
  set_prev tail head;;
  set_next tail 0;;
  set_prev head 0;;
  set_data tail 0;;
  set_data head 0;;
  mret (0, list_attributes_setdefaults (L head tail 0 0 [] false 0 0 (Attrs None None None false None None None))).

(** A spare node, or a new one. *)
Definition take_spare (l : list_t) : hm (Z * list_t) :=
  match spareels l with
  | p :: s => mret (p, with_spareels s l)
  | [] => p ← new_entry; mret (p, l)
  end.

(** What [lent->data] becomes. *)
Definition stored (l : list_t) (data : Z) : hm Z :=
  if copy_data (attrs l)
  then match meter (attrs l) with
       | Some f => b ← get_blocks; copy_block data (f b data)
       | None => fail NullDeref
       end
  else mret data.

Definition list_insert_at (l : list_t) (data pos : Z) : hm (Z * list_t) :=
  if iter_active l || (numels l <? pos) then mret (-1, l)
  else
    r ← take_spare l;
    let '(lent, l) := r in
    if lent =? 0 then mret (-1, l)
    else
      d ← stored l data;
      set_data lent d;;
      (* actually append element *)
      prec ← list_findpos l (wrap_s32 (pos - 1));
      succ ← get_next prec;
      set_next prec lent;;
      set_prev lent prec;;
      set_next lent succ;;
      set_prev succ lent;;
      let l := with_numels (wrap_u32 (numels l + 1)) l in
      (* fix mid pointer *)
      mid' ← (if numels l =? 1 then mret lent
              else if numels l mod 2 =? 1
              then if (numels l - 1) / 2 <=? pos then get_next (mid l) else mret (mid l)
              else if pos <=? (numels l - 1) / 2 then get_prev (mid l) else mret (mid l));
      mret (1, with_mid mid' l).

Definition list_append (l : list_t) (data : Z) : hm (Z * list_t) := list_insert_at l data (numels l).
Definition list_prepend (l : list_t) (data : Z) : hm (Z * list_t) := list_insert_at l data 0.

(** The loops of [list_concat]: from [srcel] to [tail], behind [el]; the last node. *)
Fixpoint concat_loop (fuel : nat) (tail srcel el : Z) : hm Z :=
  match fuel with
  | O => fail OutOfFuel
  | S fuel =>
      if srcel =? tail then mret el
      else
        new ← new_entry;
        set_next el new;;
        n ← get_next el;
        set_prev n el;;
        el ← get_next el;
        d ← get_data srcel;
        set_data el d;;
        srcel ← get_next srcel;
        concat_loop fuel tail srcel el
  end.

(** [dest] is not one of the two lists. *)
Definition list_concat (l1 l2 : list_t) : hm (Z * list_t) :=
  r ← list_init;
  let dest := with_numels (wrap_u32 (numels l1 + numels l2)) r.2 in
  if numels dest =? 0 then mret (0, dest)
  else
    srcel ← get_next (head_sentinel l1);
    el ← concat_loop (rounds l1) (tail_sentinel l1) srcel (head_sentinel dest);
    let dest := with_mid el dest in
    srcel ← get_next (head_sentinel l2);
    el ← concat_loop (rounds l2) (tail_sentinel l2) srcel el;
    set_next el (tail_sentinel dest);;
    set_prev (tail_sentinel dest) el;;
    (* fix mid pointer *)
    let err := wrap_s32 (numels l2 - numels l1) in
    mid' ← (if 0 <? Z.quot (err + 1) 2 then walk e_next (Z.to_nat (Z.quot (err + 1) 2)) (mid dest)
            else if Z.quot err 2 <? 0 then walk e_prev (Z.to_nat (Z.quot (- err) 2)) (mid dest)
            else mret (mid dest));
    mret (0, with_mid mid' dest).

(** ** Sorting *)

Section sort.
Context (cmp : heap → Z → Z → Z) (versus : Z).

(** [l->attrs.comparator(p->data, q->data) * -versus] *)
Definition compare_at (p q : Z) : hm Z :=
  x ← get_data p;
  y ← get_data q;
  b ← get_blocks;
  mret (cmp b x y * - versus).

Definition swap_data (p q : Z) : hm unit :=
  tmpdata ← get_data p;
  y ← get_data q;
  set_data p y;;
  set_data q tmpdata.

(** The least element from [toswap] on, where [toswap] is the least one before [cursor]. *)
Fixpoint select_loop (fuel : nat) (lel toswap cursor : Z) : hm Z :=
  match fuel with
  | O => fail OutOfFuel
  | S fuel =>
      stop ← get_next lel;
      if cursor =? stop then mret toswap
      else
        r ← compare_at toswap cursor;
        n ← get_next cursor;
        select_loop fuel lel (if 0 <? r then cursor else toswap) n
  end.

Fixpoint selection_loop (fuel : nat) (lel firstunsorted : Z) : hm unit :=
  match fuel with
  | O => fail OutOfFuel
  | S fuel' =>
      if firstunsorted =? lel then mret tt
      else
        cursor ← get_next firstunsorted;
        toswap ← select_loop fuel lel firstunsorted cursor;
        (if toswap =? firstunsorted then mret tt else swap_data firstunsorted toswap);;
        n ← get_next firstunsorted;
        selection_loop fuel' lel n
  end.

Definition list_sort_selectionsort (first fel last lel : Z) : hm unit :=
  if last <=? first then mret tt
  else selection_loop (S (Z.to_nat (last - first + 1))) lel fel.

(** [for (; left != pivot && (... <= 0); left = left->next)] *)
Fixpoint scan_left (fuel : nat) (pivot left : Z) : hm Z :=
  match fuel with
  | O => fail OutOfFuel
  | S fuel =>
      if left =? pivot then mret left
      else
        r ← compare_at left pivot;
        if r <=? 0 then n ← get_next left; scan_left fuel pivot n else mret left
  end.

Fixpoint scan_right (fuel : nat) (pivot right : Z) : hm Z :=
  match fuel with
  | O => fail OutOfFuel
  | S fuel =>
      if right =? pivot then mret right
      else
        r ← compare_at right pivot;
        if 0 <=? r then n ← get_prev right; scan_right fuel pivot n else mret right
  end.

(** [while (left != pivot && right != pivot)] *)
Fixpoint partition_loop (fuel : nat) (pivot left right : Z) : hm (Z * Z) :=
  match fuel with
  | O => fail OutOfFuel
  | S fuel' =>
      if (left =? pivot) || (right =? pivot) then mret (left, right)
      else
        left ← scan_left fuel pivot left;
        right ← scan_right fuel pivot right;
        if negb (left =? pivot) && negb (right =? pivot)
        then
          swap_data left right;;
          left ← get_next left;
          right ← get_prev right;
          partition_loop fuel' pivot left right
        else partition_loop fuel' pivot left right
  end.

(** [while (left != pivot)], with the pivot and its number at the end *)
Fixpoint left_loop (fuel : nat) (pivot pivotid left : Z) : hm (Z * Z) :=
  match fuel with
  | O => fail OutOfFuel
  | S fuel =>
      if left =? pivot then mret (pivot, pivotid)
      else
        r ← compare_at left pivot;
        if 0 <? r
        then
          tmpdata ← get_data left;
          q ← get_prev pivot;
          d ← get_data q;
          set_data left d;;
          d ← get_data pivot;
          set_data q d;;
          set_data pivot tmpdata;;
          pivot ← get_prev pivot;
          let pivotid := wrap_u32 (pivotid - 1) in
          if pivot =? left then mret (pivot, pivotid) else left_loop fuel pivot pivotid left
        else n ← get_next left; left_loop fuel pivot pivotid n
  end.

Fixpoint right_loop (fuel : nat) (pivot pivotid right : Z) : hm (Z * Z) :=
  match fuel with
  | O => fail OutOfFuel
  | S fuel =>
      if right =? pivot then mret (pivot, pivotid)
      else
        r ← compare_at right pivot;
        if r <? 0
        then
          tmpdata ← get_data right;
          q ← get_next pivot;
          d ← get_data q;
          set_data right d;;
          d ← get_data pivot;
          set_data q d;;
          set_data pivot tmpdata;;
          pivot ← get_next pivot;
          let pivotid := wrap_u32 (pivotid + 1) in
          if pivot =? right then mret (pivot, pivotid) else right_loop fuel pivot pivotid right
        else n ← get_prev right; right_loop fuel pivot pivotid n
  end.

Definition draw : hm Z := fun m => Done (random (draws m), Mem (entries m) (blocks m) (S (draws m))).

(** The node of the pivot. *)
Definition find_pivot (first fel last lel pivotid : Z) : hm Z :=
  if pivotid <? (last - first + 1) / 2
  then walk e_next (Z.to_nat pivotid) fel
  else walk e_prev (Z.to_nat (last - first - pivotid)) lel.

(** The pivot and its number, with the smaller elements before it and the bigger ones
    behind it. *)
Definition partition (n : nat) (fel lel pivot pivotid : Z) : hm (Z * Z) :=
  r ← partition_loop n pivot fel lel;
  let '(lft, rgt) := r in
  if rgt =? pivot then left_loop n pivot pivotid lft else right_loop n pivot pivotid rgt.

Fixpoint list_sort_quicksort (fuel : nat) (first fel last lel : Z) : hm unit :=
  match fuel with
  | O => fail OutOfFuel
  | S fuel =>
      if last <=? first then mret tt
      else if last - first + 1 <=? SIMCLIST_MINQUICKSORTELS
      then list_sort_selectionsort first fel last lel
      else
        rnd ← draw;
        let pivotid := rnd mod (last - first + 1) in
        pivot ← find_pivot first fel last lel pivotid;
        r ← partition (S (Z.to_nat (last - first + 1))) fel lel pivot pivotid;
        let '(pivot, pivotid) := r in
        (* sort sublists A and B :       |---A---| pivot |---B---| *)
        (if 0 <? pivotid
         then p ← get_prev pivot; list_sort_quicksort fuel first fel (wrap_u32 (first + pivotid - 1)) p
         else mret tt);;
        (if wrap_u32 (first + pivotid) <? last
         then p ← get_next pivot; list_sort_quicksort fuel (wrap_u32 (first + pivotid + 1)) p last lel
         else mret tt)
  end.
End sort.

Definition list_sort (l : list_t) (versus : Z) : hm Z :=
  match comparator (attrs l) with
  | Some cmp =>
      if iter_active l then mret (-1)
      else if numels l <=? 1 then mret 0
      else
        fel ← get_next (head_sentinel l);
        lel ← get_prev (tail_sentinel l);
        list_sort_quicksort cmp versus (rounds l) 0 fel (numels l - 1) lel;;
        mret 0
  | None => mret (-1)
  end.

End operations.

(** ** Iterating *)

Definition list_iterator_start (l : list_t) : hm (bool * list_t) :=
  if iter_active l then mret (false, l)
  else n ← get_next (head_sentinel l); mret (true, with_iter true 0 n l).

Definition list_iterator_next (l : list_t) : hm (Z * list_t) :=
  if iter_active l
  then
    toret ← get_data (iter_curentry l);
    n ← get_next (iter_curentry l);
    mret (toret, with_iter true (wrap_u32 (iter_pos l + 1)) n l)
  else mret (0, l).

Definition list_iterator_hasnext (l : list_t) : bool := iter_active l && (iter_pos l <? numels l).

Definition list_iterator_stop (l : list_t) : bool * list_t :=
  if iter_active l then (true, with_iter false 0 (iter_curentry l) l) else (false, l).

(** ** Hashing *)

Fixpoint hash_loop (fuel : nat) (hash_of : heap → Z → Z) (n hash tail tmphash x : Z) : hm Z :=
  match fuel with
  | O => fail OutOfFuel
  | S fuel =>
      if x =? tail then mret tmphash
      else
        d ← get_data x;
        b ← get_blocks;
        let tmphash := wrap_s32 (tmphash + Z.lxor tmphash (hash_of b d)) in
        let tmphash := wrap_s32 (tmphash + wrap_u32 hash mod n) in
        next ← get_next x;
        hash_loop fuel hash_of n hash tail tmphash next
  end.

(** The result and [*hash], which is an argument too. *)
Definition list_hash (l : list_t) (hash : Z) : hm (Z * Z) :=
  match hasher (attrs l) with
  | None => mret (-1, hash)
  | Some f =>
      x ← get_next (head_sentinel l);
      tmphash ← hash_loop (rounds l) f (numels l) hash (tail_sentinel l) (wrap_s32 (numels l * 2 + 100)) x;
      mret (0, tmphash)
  end.

(** ** The checks of a debugging build *)

(** [for (; i < bound && s->next != NULL; i++, s = s->next) if (s->next->prev != s) break;] *)
Fixpoint rep_walk (fuel : nat) (bound : option Z) (i s : Z) : hm (Z * Z) :=
  match fuel with
  | O => fail OutOfFuel
  | S fuel =>
      if match bound with Some b => i <? b | None => true end
      then
        n ← get_next s;
        if n =? 0 then mret (i, s)
        else p ← get_prev n; if p =? s then rep_walk fuel bound (i + 1) n else mret (i, s)
      else mret (i, s)
  end.

Definition list_repOk (l : list_t) : hm bool :=
  if (head_sentinel l =? 0) || (tail_sentinel l =? 0) || (head_sentinel l =? tail_sentinel l)
  then mret false
  else
    hp ← get_prev (head_sentinel l);
    tn ← get_next (tail_sentinel l);
    hn ← get_next (head_sentinel l);
    tp ← get_prev (tail_sentinel l);
    if negb ((hp =? 0) && (tn =? 0)) then mret false
    else if negb ((0 <? numels l) || ((mid l =? 0) && (hn =? tail_sentinel l) && (tp =? head_sentinel l)))
    then mret false
    else if negb (spareelsnum l <=? SIMCLIST_MAX_SPARE_ELEMS) then mret false
    else if 1 <=? numels l
    then
      r ← rep_walk (S (S (rounds l))) (Some ((numels l - 1) / 2)) (-1) (head_sentinel l);
      let '(i, s) := r in
      if negb ((i =? (numels l - 1) / 2) && (mid l =? s)) then mret false
      else
        r ← rep_walk (S (S (rounds l))) None i s;
        let '(i, s) := r in
        mret ((i =? numels l) && (s =? tail_sentinel l))
    else mret true.

Definition list_attrOk (l : list_t) : bool :=
  negb (copy_data (attrs l)) || match meter (attrs l) with Some _ => true | None => false end.

(** ** Comparators and hash computers that come with the library *)

(** [list_comparator_int8_t] and the others for numbers *)
Definition list_comparator_number (a b : Z) : Z := Z.b2z (a <? b) - Z.b2z (b <? a).
