(* ===== verification/SimclistRep.v ===== *)
(** * Lists on the heap and functional lists

    Rules for programs on the heap, the relation between a [list_t] and the list of its
    elements, and [list_findpos]: it finds the node of a place, whichever of its four
    walks it takes. *)

From S2P Require Import Prelude Simclist.
From stdpp Require Import gmap.
Local Open Scope Z_scope.

(** ** Total correctness of programs on the heap *)

Definition hwp {A} (c : hm A) (m : mem) (P : A → mem → Prop) : Prop :=
  match c m with Done (a, m') => P a m' | Fault _ => False end.

Lemma hwp_bind {A B} (c : hm A) (k : A → hm B) m P :
  hwp c m (fun a m' => hwp (k a) m' P) → hwp (c ≫= k) m P.
Proof. unfold hwp, mbind, hm_bind. by destruct (c m) as [[a m']|]. Qed.

Lemma hwp_ret {A} (a : A) m (P : A → mem → Prop) : P a m → hwp (mret a) m P.
Proof. done. Qed.

Lemma hwp_mono {A} (c : hm A) m (P Q : A → mem → Prop) :
  hwp c m P → (∀ a m', P a m' → Q a m') → hwp c m Q.
Proof. unfold hwp. destruct (c m) as [[a m']|]; eauto. Qed.

(** A computation whose outcome is known. *)
Lemma hwp_run {A} (c : hm A) m a m' (P : A → mem → Prop) :
  c m = Done (a, m') → P a m' → hwp c m P.
Proof. unfold hwp. by intros ->. Qed.

Lemma hwp_elim {A} (c : hm A) m (P : A → mem → Prop) :
  hwp c m P → ∃ a m', c m = Done (a, m') ∧ P a m'.
Proof. unfold hwp. destruct (c m) as [[a m']|]; [eauto|done]. Qed.

(** ** Nodes *)

Definition nxt (m : mem) (p : Z) : option Z := e_next <$> entries m !! p.
Definition prv (m : mem) (p : Z) : option Z := e_prev <$> entries m !! p.
Definition dat (m : mem) (p : Z) : option Z := e_data <$> entries m !! p.

(** [p] is a node that is allocated. *)
Definition node (m : mem) (p : Z) : Prop := p ≠ 0 ∧ is_Some (entries m !! p).

Definition upd (f : entry → entry) (p : Z) (m : mem) : mem :=
  Mem (alter f p (entries m)) (blocks m) (draws m).

Lemma node_upd f p m q : node m q → node (upd f p m) q.
Proof.
  intros [H [e He]]. split; [done|]. simpl. rewrite lookup_alter. case_decide; subst; rewrite He; eexists; reflexivity.
Qed.

Lemma load_run m p : node m p → ∃ e, entries m !! p = Some e ∧ load p m = Done (e, m).
Proof.
  intros [H [e He]]. exists e. split; [done|]. unfold load.
  rewrite (proj2 (Z.eqb_neq _ _) H). by rewrite He.
Qed.

Lemma field_run (f : entry → Z) m p v :
  node m p → f <$> entries m !! p = Some v → (load p ≫= λ e, mret (f e)) m = Done (v, m).
Proof.
  intros (e & He & Hl)%load_run Hv. unfold mbind, hm_bind. rewrite Hl.
  rewrite He in Hv. simpl in Hv. by simplify_eq.
Qed.

Lemma hwp_get_next m p v (P : Z → mem → Prop) :
  node m p → nxt m p = Some v → P v m → hwp (get_next p) m P.
Proof. intros. eapply hwp_run; [by apply (field_run e_next)|done]. Qed.
Lemma hwp_get_prev m p v (P : Z → mem → Prop) :
  node m p → prv m p = Some v → P v m → hwp (get_prev p) m P.
Proof. intros. eapply hwp_run; [by apply (field_run e_prev)|done]. Qed.
Lemma hwp_get_data m p v (P : Z → mem → Prop) :
  node m p → dat m p = Some v → P v m → hwp (get_data p) m P.
Proof. intros. eapply hwp_run; [by apply (field_run e_data)|done]. Qed.

Lemma hwp_modify f m p (P : unit → mem → Prop) :
  node m p → P tt (upd f p m) → hwp (modify f p) m P.
Proof.
  intros [H [e He]] HP. unfold hwp, modify. rewrite (proj2 (Z.eqb_neq _ _) H). by rewrite He.
Qed.

Section accessors.
Context (m : mem) (p q v : Z).

Lemma nxt_set_next : nxt (upd (put_next v) p m) q = if decide (p = q) then (λ _, v) <$> entries m !! q else nxt m q.
Proof. unfold nxt. simpl. rewrite lookup_alter. case_decide; [subst; by destruct (entries m !! q)|done]. Qed.
Lemma nxt_set_prev : nxt (upd (put_prev v) p m) q = nxt m q.
Proof. unfold nxt. simpl. rewrite lookup_alter. case_decide; [subst; by destruct (entries m !! q)|done]. Qed.
Lemma nxt_set_data : nxt (upd (put_data v) p m) q = nxt m q.
Proof. unfold nxt. simpl. rewrite lookup_alter. case_decide; [subst; by destruct (entries m !! q)|done]. Qed.
Lemma prv_set_prev : prv (upd (put_prev v) p m) q = if decide (p = q) then (λ _, v) <$> entries m !! q else prv m q.
Proof. unfold prv. simpl. rewrite lookup_alter. case_decide; [subst; by destruct (entries m !! q)|done]. Qed.
Lemma prv_set_next : prv (upd (put_next v) p m) q = prv m q.
Proof. unfold prv. simpl. rewrite lookup_alter. case_decide; [subst; by destruct (entries m !! q)|done]. Qed.
Lemma prv_set_data : prv (upd (put_data v) p m) q = prv m q.
Proof. unfold prv. simpl. rewrite lookup_alter. case_decide; [subst; by destruct (entries m !! q)|done]. Qed.
Lemma dat_set_data : dat (upd (put_data v) p m) q = if decide (p = q) then (λ _, v) <$> entries m !! q else dat m q.
Proof. unfold dat. simpl. rewrite lookup_alter. case_decide; [subst; by destruct (entries m !! q)|done]. Qed.
Lemma dat_set_next : dat (upd (put_next v) p m) q = dat m q.
Proof. unfold dat. simpl. rewrite lookup_alter. case_decide; [subst; by destruct (entries m !! q)|done]. Qed.
Lemma dat_set_prev : dat (upd (put_prev v) p m) q = dat m q.
Proof. unfold dat. simpl. rewrite lookup_alter. case_decide; [subst; by destruct (entries m !! q)|done]. Qed.
End accessors.

Lemma node_const m p (v : Z) : node m p → (λ _, v) <$> entries m !! p = Some v.
Proof. by intros [_ [e ->]]. Qed.

Lemma nxt_set_next_eq m p v : node m p → nxt (upd (put_next v) p m) p = Some v.
Proof. intros. rewrite nxt_set_next, decide_True by done. by apply node_const. Qed.
Lemma nxt_set_next_ne m p q v : p ≠ q → nxt (upd (put_next v) p m) q = nxt m q.
Proof. intros. by rewrite nxt_set_next, decide_False. Qed.
Lemma prv_set_prev_eq m p v : node m p → prv (upd (put_prev v) p m) p = Some v.
Proof. intros. rewrite prv_set_prev, decide_True by done. by apply node_const. Qed.
Lemma prv_set_prev_ne m p q v : p ≠ q → prv (upd (put_prev v) p m) q = prv m q.
Proof. intros. by rewrite prv_set_prev, decide_False. Qed.
Lemma dat_set_data_eq m p v : node m p → dat (upd (put_data v) p m) p = Some v.
Proof. intros. rewrite dat_set_data, decide_True by done. by apply node_const. Qed.
Lemma dat_set_data_ne m p q v : p ≠ q → dat (upd (put_data v) p m) q = dat m q.
Proof. intros. by rewrite dat_set_data, decide_False. Qed.

Create HintDb heap discriminated.
#[export] Hint Resolve node_upd : heap.
Create Rewrite HintDb heap.
#[export] Hint Rewrite nxt_set_prev nxt_set_data prv_set_next prv_set_data dat_set_next dat_set_prev : heap.
#[export] Hint Rewrite nxt_set_next_eq nxt_set_next_ne prv_set_prev_eq prv_set_prev_ne
  dat_set_data_eq dat_set_data_ne using (first [done | by auto with heap]) : heap.

(** ** Chains *)

Definition linked (m : mem) (p q : Z) : Prop := nxt m p = Some q ∧ prv m q = Some p.

(** Each node is linked with the next one. *)
Fixpoint chain (m : mem) (ls : list Z) : Prop :=
  match ls with
  | p :: ls => match ls with q :: _ => linked m p q | [] => True end ∧ chain m ls
  | [] => True
  end.

Lemma chain_app m a p b : chain m (a ++ p :: b) ↔ chain m (a ++ [p]) ∧ chain m (p :: b).
Proof.
  induction a as [|x a IH]; simpl; [tauto|].
  destruct a as [|y a]; simpl in *; tauto.
Qed.

Lemma chain_join m a p q b :
  chain m (a ++ p :: q :: b) ↔ chain m (a ++ [p]) ∧ linked m p q ∧ chain m (q :: b).
Proof. rewrite chain_app. simpl. tauto. Qed.

Lemma chain_lookup m ls i p q :
  chain m ls → ls !! i = Some p → ls !! S i = Some q → linked m p q.
Proof.
  revert i. induction ls as [|x ls IH]; [done|]. intros [|i] [H Hc] Hp Hq; simplify_eq/=; [|by eauto].
  destruct ls; by simplify_eq/=.
Qed.

(** A chain keeps its links if the pointers to the next node stay, but for the last node,
    and the pointers to the previous one, but for the first. *)
Lemma chain_ext m m' ls :
  (∀ x, x ∈ removelast ls → nxt m' x = nxt m x) →
  (∀ x, x ∈ tail ls → prv m' x = prv m x) →
  chain m ls → chain m' ls.
Proof.
  induction ls as [|x [|y ls] IH]; intros Hn Hp; [done|done|].
  intros [[H1 H2] Hc]. split.
  - split; [rewrite Hn|rewrite Hp]; try done; simpl; left.
  - apply IH; [| |done]; intros z Hz; [apply Hn|apply Hp]; simpl in *; by right.
Qed.

Lemma elem_of_removelast (x : Z) ls : x ∈ removelast ls → x ∈ ls.
Proof.
  induction ls as [|y [|z ls] IH]; intros H; [done|by apply not_elem_of_nil in H|].
  apply elem_of_cons in H as [->|H]; [left|right; auto].
Qed.

Lemma chain_same m m' ls :
  (∀ x, x ∈ ls → nxt m' x = nxt m x ∧ prv m' x = prv m x) → chain m ls → chain m' ls.
Proof.
  intros H. apply chain_ext; intros x Hx; apply H; [by apply elem_of_removelast|].
  destruct ls; [by apply not_elem_of_nil in Hx|by right].
Qed.

Section walks.
Context (m : mem) (ls : list Z) (Hc : chain m ls) (Hn : Forall (node m) ls).

Lemma walk_next_run k i p q :
  ls !! i = Some p → ls !! (i + k)%nat = Some q → walk e_next k p m = Done (q, m).
Proof.
  revert i p. induction k as [|k IH]; intros i p Hp Hq; simpl.
  - rewrite Nat.add_0_r in Hq. by simplify_eq.
  - destruct (lookup_lt_is_Some_2 ls (S i)) as [r Hr]; [apply lookup_lt_Some in Hq; lia|].
    destruct (load_run m p) as (e & He & Hl); [by eapply (proj1 (Forall_lookup _ _)) in Hp|].
    unfold mbind, hm_bind. rewrite Hl.
    destruct (chain_lookup m ls i p r Hc Hp Hr) as [Hnx _]. unfold nxt in Hnx.
    rewrite He in Hnx. injection Hnx as ->. apply (IH (S i)); [done|].
    by rewrite <- plus_n_Sm in Hq.
Qed.

Lemma walk_prev_run k i p q :
  ls !! (i + k)%nat = Some p → ls !! i = Some q → walk e_prev k p m = Done (q, m).
Proof.
  revert p. induction k as [|k IH]; intros p Hp Hq; simpl.
  - rewrite Nat.add_0_r in Hp. by simplify_eq.
  - destruct (lookup_lt_is_Some_2 ls (i + k)) as [r Hr]; [apply lookup_lt_Some in Hp; lia|].
    destruct (load_run m p) as (e & He & Hl); [by eapply (proj1 (Forall_lookup _ _)) in Hp|].
    unfold mbind, hm_bind. rewrite Hl.
    replace (i + S k)%nat with (S (i + k)) in Hp by lia.
    destruct (chain_lookup m ls _ r p Hc Hr Hp) as [_ Hnx]. unfold prv in Hnx.
    rewrite He in Hnx. injection Hnx as ->. by apply IH.
Qed.
End walks.

(** ** The list object *)

(** The nodes of a list from sentinel to sentinel, and all nodes that belong to it. *)
Definition all (l : list_t) (ps : list Z) : list Z := head_sentinel l :: ps ++ [tail_sentinel l].
Definition foot (l : list_t) (ps : list Z) : list Z := all l ps ++ spareels l.

(** The middle node. *)
Definition mid_of (ps : list Z) : Z := default 0 (ps !! ((length ps - 1) / 2)%nat).

(** The list [l] has the nodes [ps], which hold the elements [xs].  It does not own its
    data, since no component asks for copies. *)
Record rep (m : mem) (l : list_t) (ps xs : list Z) : Prop := Rep {
  rep_chain : chain m (all l ps);
  rep_ends : prv m (head_sentinel l) = Some 0 ∧ nxt m (tail_sentinel l) = Some 0;
  rep_sentinels : dat m (head_sentinel l) = Some 0 ∧ dat m (tail_sentinel l) = Some 0;
  rep_nodup : NoDup (foot l ps);
  rep_nodes : Forall (node m) (foot l ps);
  rep_data : Forall2 (λ p x, dat m p = Some x) ps xs;
  rep_numels : numels l = Z.of_nat (length ps);
  rep_mid : ps ≠ [] → mid l = mid_of ps;
  rep_spare : spareelsnum l <= SIMCLIST_MAX_SPARE_ELEMS;
  rep_copy : copy_data (attrs l) = false
}.

(** Up to this many elements single precision is exact. *)
Definition max_numels : Z := 2 ^ 24.

Lemma rep_all_nodes m l ps xs : rep m l ps xs → Forall (node m) (all l ps).
Proof. intros H. pose proof (rep_nodes _ _ _ _ H) as Hn. by apply Forall_app in Hn as [? _]. Qed.

Lemma rep_length m l ps xs : rep m l ps xs → length ps = length xs.
Proof. intros H. by eapply Forall2_length, rep_data. Qed.

Lemma all_lookup_head l ps : all l ps !! 0%nat = Some (head_sentinel l).
Proof. done. Qed.
Lemma all_lookup_tail l ps : all l ps !! S (length ps) = Some (tail_sentinel l).
Proof. unfold all. simpl. by rewrite lookup_app_r, Nat.sub_diag by lia. Qed.
Lemma all_lookup_node l ps i p : ps !! i = Some p → all l ps !! S i = Some p.
Proof. intros H. unfold all. simpl. rewrite lookup_app_l; [done|]. by eapply lookup_lt_Some. Qed.

Lemma rep_mid_lookup m l ps xs :
  rep m l ps xs → ps ≠ [] → all l ps !! S ((length ps - 1) / 2) = Some (mid l).
Proof.
  intros H Hne. apply all_lookup_node. rewrite (rep_mid _ _ _ _ H Hne). unfold mid_of.
  destruct (lookup_lt_is_Some_2 ps ((length ps - 1) / 2)) as [p Hp]; [|by rewrite Hp].
  assert (0 < length ps)%nat by (destruct ps; simpl in *; [done|lia]).
  pose proof (Nat.div_le_upper_bound (length ps - 1) 2 (length ps - 1)). lia.
Qed.

(** ** The division *)

Lemma round_even_le n d c : 0 < d → n <= c * d → round_even n d <= c.
Proof.
  intros Hd H. unfold round_even. pose proof (Z.div_mod n d ltac:(lia)).
  pose proof (Z.mod_pos_bound n d Hd). pose proof (Z.div_le_upper_bound n d c Hd ltac:(lia)).
  repeat case_test; nia.
Qed.

Lemma round_even_ge n d c : 0 < d → c * d <= n → c <= round_even n d.
Proof.
  intros Hd H. unfold round_even.
  pose proof (Z.div_le_lower_bound n d c Hd ltac:(lia)). repeat case_test; lia.
Qed.

Lemma nearest_spec a b :
  0 < a → 0 < b → a <= 2 * b →
  ∃ k, 22 <= k ∧ nearest a b = Fin (round_even (a * 2 ^ k) b) k ∧
       2 ^ 23 * b <= a * 2 ^ k < 2 ^ 24 * b.
Proof.
  intros Ha Hb Hab. unfold nearest. rewrite (proj2 (Z.eqb_neq a 0)) by lia.
  pose proof (Z.log2_spec a Ha) as [Ha1 Ha2]. pose proof (Z.log2_spec b Hb) as [Hb1 Hb2].
  pose proof (Z.log2_nonneg a). pose proof (Z.log2_nonneg b).
  assert (Z.log2 a <= Z.log2 b + 1) as Hl.
  { pose proof (Z.log2_le_mono a (2 * b) Hab). rewrite Z.log2_double in * by lia. lia. }
  set (k0 := 24 + Z.log2 b - Z.log2 a). rewrite Z.pow_succ_r in Ha2, Hb2 by lia.
  assert (2 ^ Z.log2 a * 2 ^ k0 = 2 ^ 24 * 2 ^ Z.log2 b) as He.
  { rewrite <-!Z.pow_add_r by lia. f_equal. lia. }
  assert (0 < 2 ^ (k0 - 1)) by (apply Z.pow_pos_nonneg; lia).
  assert (2 ^ k0 = 2 * 2 ^ (k0 - 1)) as Hk by (rewrite <-Z.pow_succ_r by lia; f_equal; lia).
  unfold scaled. rewrite (proj2 (Z.ltb_ge k0 0)) by lia.
  destruct (Z.leb_spec (2 ^ 24) (a * 2 ^ k0 / b)) as [Hq|Hq].
  - exists (k0 - 1). rewrite (proj2 (Z.ltb_ge (k0 - 1) 0)) by lia.
    pose proof (Z.mul_div_le (a * 2 ^ k0) b Hb). split_and!; [lia|done|nia|nia].
  - exists k0. rewrite (proj2 (Z.ltb_ge k0 0)) by lia.
    pose proof (Z.mul_succ_div_gt (a * 2 ^ k0) b Hb). split_and!; [lia|done|nia|nia].
Qed.

Lemma nearest_half a b :
  0 < a → 0 < b → a <= 2 * b → b <= 2 * a → flt (nearest a b) 1 2 = false.
Proof.
  intros Ha Hb H1 H2. destruct (nearest_spec a b) as (k & Hk & -> & Hlo & Hhi); [done..|].
  simpl. unfold scaled. rewrite (proj2 (Z.ltb_lt (- k) 0)) by lia. apply Z.ltb_ge.
  pose proof (round_even_ge (a * 2 ^ k) b (2 ^ 23) Hb Hlo).
  assert (2 ^ k <= 2 ^ 24) as Hp.
  { apply Z.pow_le_mono_r; [lia|]. destruct (Z_le_gt_dec k 24); [done|].
    assert (2 ^ 25 <= 2 ^ k) by (apply Z.pow_le_mono_r; lia). nia. }
  replace (- - k) with k by lia. lia.
Qed.

Lemma nearest_below a b :
  0 < a → 0 < b → 2 ^ 25 * a <= (2 ^ 24 - 1) * b → flt (nearest a b) 1 2 = true.
Proof.
  intros Ha Hb H2. destruct (nearest_spec a b) as (k & Hk & -> & Hlo & Hhi); [lia..|].
  simpl. unfold scaled. rewrite (proj2 (Z.ltb_lt (- k) 0)) by lia. apply Z.ltb_lt.
  replace (- - k) with k by lia.
  assert (25 <= k) as Hk25.
  { destruct (Z_le_gt_dec 25 k); [done|].
    assert (2 ^ k <= 2 ^ 24) by (apply Z.pow_le_mono_r; lia). nia. }
  destruct (decide (k = 25)) as [->|Hne].
  - pose proof (round_even_le (a * 2 ^ 25) b (2 ^ 24 - 1) Hb). lia.
  - assert (2 ^ 26 <= 2 ^ k) by (apply Z.pow_le_mono_r; lia).
    pose proof (round_even_le (a * 2 ^ k) b (2 ^ 24) Hb). lia.
Qed.

Lemma to_float_exact n :
  0 < n <= max_numels → ∃ m k, to_float n = Fin m k ∧ 0 < m ∧ -1 <= k ∧ m * 2 = n * 2 ^ (k + 1).
Proof.
  unfold max_numels. intros [H1 H2]. unfold to_float, nearest. rewrite (proj2 (Z.eqb_neq n 0)) by lia.
  pose proof (Z.log2_spec n H1) as [Hl1 Hl2]. pose proof (Z.log2_nonneg n).
  assert (Z.log2 n <= 24) by (apply (Z.log2_le_mono n (2 ^ 24)); done).
  change (Z.log2 1) with 0. set (k0 := 24 + 0 - Z.log2 n).
  assert (2 ^ Z.log2 n * 2 ^ k0 = 2 ^ 24) as He by (rewrite <-Z.pow_add_r by lia; f_equal; lia).
  unfold scaled at 1. rewrite (proj2 (Z.ltb_ge k0 0)) by lia. rewrite Z.div_1_r.
  rewrite (proj2 (Z.leb_le (2 ^ 24) _)) by nia.
  unfold scaled. destruct (Z.ltb_spec (k0 - 1) 0).
  - assert (Z.log2 n = 24) as Hl by lia. rewrite Hl in *.
    assert (n = 2 ^ 24) as -> by lia. by exists (2 ^ 23), (-1).
  - exists (n * 2 ^ (k0 - 1)), (k0 - 1). assert (0 < 2 ^ (k0 - 1)) by (apply Z.pow_pos_nonneg; lia).
    split_and!; [|nia|lia|].
    + f_equal. unfold round_even. rewrite Z.mod_1_r, Z.div_1_r. done.
    + replace (k0 - 1 + 1) with (Z.succ (k0 - 1)) by lia. rewrite Z.pow_succ_r by lia. lia.
Qed.

(** The quotient of two small numbers is the rounded quotient of a fraction that equals it. *)
Lemma fdiv_exact p n :
  0 < p <= max_numels → 0 < n <= max_numels →
  ∃ a b, 0 < a ∧ 0 < b ∧ a * n = b * p ∧ fdiv (to_float p) (to_float n) = nearest a b.
Proof.
  intros Hp Hn. destruct (to_float_exact p Hp) as (m & k & -> & Hm & Hk & Hv).
  destruct (to_float_exact n Hn) as (m' & k' & -> & Hm' & Hk' & Hv').
  unfold fdiv. rewrite (proj2 (Z.eqb_neq m' 0)) by lia. unfold scaled. destruct (Z.ltb_spec (k' - k) 0).
  - exists m, (m' * 2 ^ (- (k' - k))). assert (0 < 2 ^ (- (k' - k))) by (apply Z.pow_pos_nonneg; lia).
    assert (2 ^ (k + 1) = 2 ^ (k' + 1) * 2 ^ (- (k' - k))) by (rewrite <-Z.pow_add_r by lia; f_equal; lia).
    split_and!; [nia|nia| |done]. nia.
  - exists (m * 2 ^ (k' - k)), m'. assert (0 < 2 ^ (k' - k)) by (apply Z.pow_pos_nonneg; lia).
    assert (2 ^ (k' + 1) = 2 ^ (k + 1) * 2 ^ (k' - k)) by (rewrite <-Z.pow_add_r by lia; f_equal; lia).
    split_and!; [nia|nia| |done]. nia.
Qed.

(** So the test against one half is exact. *)
Lemma fdiv_half p n :
  0 < p → p <= n + 1 → 0 < n → n < max_numels →
  flt (fdiv (to_float p) (to_float n)) 1 2 = bool_decide (2 * p < n).
Proof.
  intros H1 H2 H3 H4. destruct (fdiv_exact p n) as (a & b & Ha & Hb & He & ->); [lia..|].
  unfold max_numels in *. case_bool_decide.
  - apply nearest_below; [done..|]. nia.
  - apply nearest_half; [done..| |]; nia.
Qed.

(** From 2^25 + 7 elements on it is not: for the place before the middle the third quarter is
    taken, and the walk from the middle does not move.  The middle is place 2^24 + 3. *)
Lemma list_findpos_inexact m l :
  numels l = 2 ^ 25 + 7 → mid_index l = 2 ^ 24 + 3 ∧ list_findpos l (2 ^ 24 + 2) m = Done (mid l, m).
Proof.
  intros Hn. unfold list_findpos, mid_index. rewrite Hn. split; [reflexivity|].
  assert (fle (fdiv (to_float (2 ^ 24 + 2 + 1)) (to_float (2 ^ 25 + 7))) 1 4 = false) as -> by (vm_compute; reflexivity).
  assert (flt (fdiv (to_float (2 ^ 24 + 2 + 1)) (to_float (2 ^ 25 + 7))) 1 2 = false) as -> by (vm_compute; reflexivity).
  assert (fle (fdiv (to_float (2 ^ 24 + 2 + 1)) (to_float (2 ^ 25 + 7))) 3 4 = true) as -> by (vm_compute; reflexivity).
  reflexivity.
Qed.

(** ** Finding a node *)

Section findpos.
Context (m : mem) (l : list_t) (ps xs : list Z) (Hr : rep m l ps xs).
Context (Hmax : numels l < max_numels).

Lemma findpos_numels : numels l = Z.of_nat (length ps).
Proof. by eapply rep_numels. Qed.

Lemma findpos_empty i p :
  ps = [] → all l ps !! i = Some p → list_findpos l (Z.of_nat i - 1) m = Done (p, m).
Proof using Hr.
  intros He Hi. pose proof findpos_numels as Hn. rewrite He in Hn. change (numels l = 0) in Hn.
  pose proof (lookup_lt_Some _ _ _ Hi) as Hlt. rewrite He in Hlt. simpl in Hlt.
  unfold list_findpos. rewrite Hn. change (wrap_s32 0) with 0.
  rewrite (proj2 (Z.ltb_ge (Z.of_nat i - 1) (-1))), (proj2 (Z.ltb_ge 0 (Z.of_nat i - 1))) by lia. simpl.
  pose proof (walk_prev_run m (all l ps) (rep_chain _ _ _ _ Hr) (rep_all_nodes _ _ _ _ Hr)) as Hw.
  rewrite He in *. assert (i = 0 ∨ i = 1)%nat as [-> | ->] by lia.
  - by apply (Hw 1%nat 0%nat).
  - by apply (Hw 0%nat 1%nat).
Qed.

Lemma findpos_run i p :
  all l ps !! i = Some p → list_findpos l (Z.of_nat i - 1) m = Done (p, m).
Proof using Hr Hmax.
  intros Hi. destruct (decide (ps = [])) as [He|Hne]; [by apply findpos_empty|].
  pose proof findpos_numels as Hn. pose proof (lookup_lt_Some _ _ _ Hi) as Hlt.
  assert (0 < length ps)%nat as H0 by (destruct ps; simpl in *; [done|lia]).
  unfold all in Hlt. simpl in Hlt. rewrite length_app in Hlt. simpl in Hlt.
  unfold max_numels in Hmax.
  assert (wrap_s32 (numels l) = numels l) as Hw by (apply wrap_s32_small; lia).
  assert (mid_index l = Z.of_nat ((length ps - 1) / 2)) as Hmi.
  { unfold mid_index. rewrite wrap_u32_small by lia. rewrite Hn.
    rewrite Nat2Z.inj_div, Nat2Z.inj_sub by lia. done. }
  assert (wrap_s32 (mid_index l) = mid_index l) as Hwm.
  { apply wrap_s32_small. unfold mid_index. rewrite wrap_u32_small by lia.
    Z.to_euclidean_division_equations; lia. }
  pose proof (rep_chain _ _ _ _ Hr) as Hc. pose proof (rep_all_nodes _ _ _ _ Hr) as Hnodes.
  pose proof (rep_mid_lookup _ _ _ _ Hr Hne) as Hmid.
  unfold list_findpos. rewrite Hw, Hwm, Hmi.
  rewrite (proj2 (Z.ltb_ge (Z.of_nat i - 1) (-1))), (proj2 (Z.ltb_ge (numels l) (Z.of_nat i - 1))) by lia.
  simpl (false || false).
  set (h := ((length ps - 1) / 2)%nat) in *.
  assert (2 * h <= length ps - 1 < 2 * h + 2)%nat as Hh 
    by (pose proof (Nat.div_mod_eq (length ps - 1) 2); pose proof (Nat.mod_upper_bound (length ps - 1) 2); lia).
  destruct (fle _ 1 4) eqn:H14.
  { replace (Z.to_nat (Z.of_nat i - 1 - -1)) with i by lia.
    by apply (walk_next_run m (all l ps) Hc Hnodes i 0). }
  assert (0 < i)%nat as Hi0.
  { destruct i; [|lia]. exfalso. revert H14. change (Z.of_nat 0 - 1 + 1) with 0.
    destruct (to_float_exact (numels l)) as (m' & k' & -> & Hm' & _); [unfold max_numels; lia|].
    unfold to_float, nearest, fdiv. change (0 =? 0) with true. cbn iota.
    rewrite (proj2 (Z.eqb_neq m' 0)) by lia. unfold scaled. destruct (k' - 0 <? 0); done. }
  rewrite fdiv_half by (unfold max_numels; lia). case_bool_decide.
  - apply (walk_prev_run m (all l ps) Hc Hnodes _ i); [|done]. rewrite <-Hmid. f_equal. lia.
  - destruct (fle _ 3 4).
    + apply (walk_next_run m (all l ps) Hc Hnodes _ (S h)); [done|]. rewrite <-Hi. f_equal. lia.
    + apply (walk_prev_run m (all l ps) Hc Hnodes _ i); [|done].
      rewrite <-(all_lookup_tail l ps). f_equal. lia.
Qed.
End findpos.

(** ** Linking two nodes *)

(** [p->next = q; q->prev = p] *)
Definition link (p q : Z) (m : mem) : mem := upd (put_prev p) q (upd (put_next q) p m).

Lemma node_link p q m x : node m x → node (link p q m) x.
Proof. intros. by apply node_upd, node_upd. Qed.
#[export] Hint Resolve node_link : heap.

Lemma nxt_link_eq p q m : node m p → nxt (link p q m) p = Some q.
Proof. intros. unfold link. rewrite nxt_set_prev. by apply nxt_set_next_eq. Qed.
Lemma nxt_link_ne p q m x : x ≠ p → nxt (link p q m) x = nxt m x.
Proof. intros. unfold link. rewrite nxt_set_prev. by apply nxt_set_next_ne. Qed.
Lemma prv_link_eq p q m : node m q → prv (link p q m) q = Some p.
Proof. intros. unfold link. apply prv_set_prev_eq. auto with heap. Qed.
Lemma prv_link_ne p q m x : x ≠ q → prv (link p q m) x = prv m x.
Proof. intros. unfold link. rewrite prv_set_prev_ne by done. by rewrite prv_set_next. Qed.
Lemma dat_link p q m x : dat (link p q m) x = dat m x.
Proof. unfold link. by rewrite dat_set_prev, dat_set_next. Qed.

Lemma chain_link m a p q b :
  NoDup (a ++ p :: q :: b) → node m p → node m q →
  chain m (a ++ [p]) → chain m (q :: b) → chain (link p q m) (a ++ p :: q :: b).
Proof.
  intros Hnd Hp Hq Ha Hb. apply NoDup_app in Hnd as (_ & Hd & Hnd).
  apply NoDup_cons in Hnd as [Hpn Hnd]. apply NoDup_cons in Hnd as [Hqn _].
  apply chain_join. split_and!.
  - apply (chain_ext m); [| |done].
    + intros x Hx. rewrite removelast_last in Hx. apply nxt_link_ne. specialize (Hd x Hx). set_solver.
    + intros x Hx. apply prv_link_ne. intros ->.
      assert (q ∈ a ++ [p]) as [Hqa|Hqp]%elem_of_app by (destruct (a ++ [p]); [by apply not_elem_of_nil in Hx|by right]).
      * apply (Hd q Hqa). set_solver.
      * set_solver.
  - split; [by apply nxt_link_eq|by apply prv_link_eq].
  - apply (chain_ext m); [| |done].
    + intros x Hx%elem_of_removelast. apply nxt_link_ne. set_solver.
    + intros x Hx. apply prv_link_ne. set_solver.
Qed.

Lemma chain_link_frame m p q ls :
  p ∉ ls → q ∉ ls → chain m ls → chain (link p q m) ls.
Proof.
  intros Hp Hq. apply chain_same. intros x Hx. rewrite nxt_link_ne, prv_link_ne by set_solver. done.
Qed.

(** ** Changes *)

(** From [m] to [m'], of the nodes of [m] at most those in [F] changed. *)
Definition changes (F : list Z) (m m' : mem) : Prop :=
  (∀ p, p ∉ F → is_Some (entries m !! p) → entries m' !! p = entries m !! p) ∧ blocks m' = blocks m.

Lemma changes_refl F m : changes F m m.
Proof. done. Qed.

Lemma changes_trans F F' m m1 m2 :
  changes F m m1 → changes F' m1 m2 → (∀ p, p ∈ F' → p ∈ F ∨ entries m !! p = None) → changes F m m2.
Proof.
  intros [H1 B1] [H2 B2] HF. split; [|congruence]. intros p Hp Hs. rewrite <-H1 by done. apply H2.
  - intros Hp'. destruct (HF p Hp') as [|He]; [done|]. rewrite He in Hs. by destruct Hs.
  - by rewrite H1.
Qed.

Lemma changes_upd f p F m : p ∈ F → changes F m (upd f p m).
Proof. intros H. split; [|done]. intros q Hq _. simpl. apply lookup_alter_ne. set_solver. Qed.

Lemma changes_link p q F m : p ∈ F → q ∈ F → changes F m (link p q m).
Proof.
  intros. apply (changes_trans F F m (upd (put_next q) p m)); [by apply changes_upd|by apply changes_upd|eauto].
Qed.

#[export] Hint Resolve changes_refl changes_upd changes_link : heap.

Lemma data_ext m m' ps xs :
  (∀ p, p ∈ ps → dat m' p = dat m p) →
  Forall2 (λ p x, dat m p = Some x) ps xs → Forall2 (λ p x, dat m' p = Some x) ps xs.
Proof.
  intros H. induction 1 as [|p x ps xs Hp _ IH]; constructor.
  - rewrite H by left. done.
  - apply IH. intros. apply H. by right.
Qed.

(** A list does not notice changes elsewhere. *)
Lemma rep_ext m m' l ps xs :
  (∀ p, p ∈ foot l ps → entries m' !! p = entries m !! p) → rep m l ps xs → rep m' l ps xs.
Proof.
  intros He Hr. pose proof (rep_nodes _ _ _ _ Hr) as Hn.
  assert (∀ x, x ∈ foot l ps → nxt m' x = nxt m x ∧ prv m' x = prv m x ∧ dat m' x = dat m x) as Ha.
  { intros x Hx. unfold nxt, prv, dat. by rewrite He. }
  assert (head_sentinel l ∈ foot l ps ∧ tail_sentinel l ∈ foot l ps) as [Hh Ht].
  { unfold foot, all. split; set_solver. }
  destruct Hr. constructor; try done.
  - apply (chain_same m); [|done]. intros x Hx. destruct (Ha x) as (?&?&?); [|done].
    unfold foot. by apply elem_of_app; left.
  - destruct (Ha _ Hh) as (?&->&?), (Ha _ Ht) as (->&?&?). done.
  - destruct (Ha _ Hh) as (?&?&->), (Ha _ Ht) as (?&?&->). done.
  - apply Forall_forall. intros x Hx. rewrite Forall_forall in Hn. destruct (Hn x Hx) as [H0 Hs].
    split; [done|]. by rewrite He.
  - apply (data_ext m); [|done]. intros p Hp. apply Ha. unfold foot, all. set_solver.
Qed.

Lemma rep_frame F m m' l ps xs :
  changes F m m' → (∀ p, p ∈ foot l ps → p ∉ F) → rep m l ps xs → rep m' l ps xs.
Proof.
  intros [Hc _] HF Hr. apply (rep_ext m); [|done]. intros p Hp. apply Hc; [by apply HF|].
  pose proof (rep_nodes _ _ _ _ Hr) as Hn. rewrite Forall_forall in Hn. by destruct (Hn p Hp).
Qed.
