(* ===== verification/SimclistSpec.v ===== *)
(** * The operations of simclist.c are operations on functional lists

    One lemma for each operation: on a list that is represented, it is defined, its result
    is that of the operation on the functional list, and afterwards the new list is
    represented by nodes of the old one and nodes that are new. *)

From S2P Require Import Prelude Simclist SimclistRep.
From stdpp Require Import gmap.
Local Open Scope Z_scope.

(** [l] with the counter and the middle that belong to [ps] *)
Definition fixed (l : list_t) (ps : list Z) : list_t :=
  with_mid (mid_of ps) (with_numels (Z.of_nat (length ps)) l).

Lemma ends_split (l : list_t) (u v : list Z) :
  ∃ a p q b, head_sentinel l :: u = a ++ [p] ∧ v ++ [tail_sentinel l] = q :: b.
Proof.
  destruct (exists_last (l := head_sentinel l :: u)) as (a & p & ->); [done|].
  destruct v as [|q b]; [by exists a, p, (tail_sentinel l), []|].
  by exists a, p, q, (b ++ [tail_sentinel l]).
Qed.

Lemma all_split l u v a p q b :
  head_sentinel l :: u = a ++ [p] → v ++ [tail_sentinel l] = q :: b →
  all l (u ++ v) = a ++ p :: q :: b.
Proof.
  intros H1 H2. unfold all. rewrite <-app_assoc, H2, app_comm_cons, H1. by rewrite <-app_assoc.
Qed.

Section insert.
Context (m : mem) (l : list_t) (u v xu xv : list Z) (Hr : rep m l (u ++ v) (xu ++ xv)).
Context (Hlen : length u = length xu).
Context (e d : Z) (He : node m e) (Hfresh : e ∉ foot l (u ++ v)) (Hd : dat m e = Some d).
Context (a b : list Z) (p q : Z).
Context (Ha : head_sentinel l :: u = a ++ [p]) (Hb : v ++ [tail_sentinel l] = q :: b).

Lemma insert_nodup : NoDup (foot l (u ++ e :: v)).
Proof using Hr Hfresh.
  apply (NoDup_Permutation_proper _ (e :: foot l (u ++ v))).
  - unfold foot, all. simpl. rewrite <-!app_assoc. simpl. solve_Permutation.
  - constructor; [done|]. by apply (rep_nodup _ _ _ _ Hr).
Qed.

Lemma insert_all : all l (u ++ e :: v) = a ++ p :: e :: q :: b.
Proof using Ha Hb.
  change (e :: v) with ([e] ++ v). rewrite app_assoc.
  rewrite (all_split l (u ++ [e]) v (a ++ [p]) e q b); [by rewrite <-app_assoc| |done].
  by rewrite app_comm_cons, Ha.
Qed.

Lemma insert_rep : rep (link e q (link p e m)) (fixed l (u ++ e :: v)) (u ++ e :: v) (xu ++ d :: xv).
Proof using All.
  pose proof (rep_chain _ _ _ _ Hr) as Hc. rewrite (all_split l u v a p q b Ha Hb) in Hc.
  apply chain_join in Hc as (Hca & _ & Hcb).
  pose proof insert_nodup as Hnd. pose proof Hnd as Hnd0. pose proof (rep_nodes _ _ _ _ Hr) as Hns.
  unfold foot in Hnd, Hns, Hfresh. rewrite insert_all in Hnd.
  rewrite (all_split l u v a p q b Ha Hb) in Hns, Hfresh.
  rewrite Forall_forall in Hns.
  assert (node m p) as Hp by (apply Hns; set_solver).
  assert (node m q) as Hq by (apply Hns; set_solver).
  assert (head_sentinel l ∈ a ++ [p]) as Hhead by (rewrite <-Ha; left).
  assert (tail_sentinel l ∈ q :: b) as Htail by (rewrite <-Hb; set_solver).
  apply NoDup_app in Hnd as (Hnd & Hsp & Hnds).
  pose proof Hnd as Hnd2. change (p :: e :: q :: b) with ([p; e] ++ q :: b) in Hnd2.
  rewrite app_assoc in Hnd2. apply NoDup_app in Hnd2 as (Hnd3 & Hd3 & Hnd4).
  assert (e ∉ q :: b) as Heb by set_solver.
  assert (p ∉ q :: b) as Hpb by (apply Hd3; set_solver).
  assert (e ∉ a ++ [p]) as Hea by set_solver.
  destruct Hr as [_ [Hpv Hnx] [Hdh Hdt] _ _ Hdat _ _ Hs Hcp].
  constructor; try done.
  - change (all (fixed l (u ++ e :: v)) (u ++ e :: v)) with (all l (u ++ e :: v)).
    rewrite insert_all. change (p :: e :: q :: b) with ([p] ++ e :: q :: b). rewrite app_assoc.
    apply chain_link; [by rewrite <-app_assoc|auto with heap|auto with heap| |].
    + rewrite <-app_assoc. apply chain_link; [done|done|done|done|].
      simpl. done.
    + by apply chain_link_frame.
  - simpl. rewrite prv_link_ne by set_solver. rewrite prv_link_ne by set_solver.
    rewrite nxt_link_ne by set_solver. rewrite nxt_link_ne by set_solver. done.
  - simpl. rewrite !dat_link. done.
  - apply Forall_forall. intros x Hx. apply node_link, node_link.
    unfold foot in Hx. change (all (fixed l (u ++ e :: v)) (u ++ e :: v)) with (all l (u ++ e :: v)) in Hx.
    rewrite insert_all in Hx. destruct (decide (x = e)) as [->|]; [done|]. apply Hns.
    simpl in Hx. set_solver.
  - apply (data_ext m); [by intros; rewrite !dat_link|].
    apply Forall2_app_inv in Hdat as [H1 H2]; [|done]. apply Forall2_app; [done|]. by constructor.
Qed.
End insert.

(** The new list [l'] on [m'] holds [xs']; it and the changes of the heap stay within the
    nodes of the old list and new ones. *)
Definition gives (m : mem) (l : list_t) (ps : list Z) (m' : mem) (l' : list_t) (xs' : list Z) : Prop :=
  ∃ ps', rep m' l' ps' xs' ∧ changes (foot l ps) m m' ∧
    (∀ p, p ∈ foot l' ps' → p ∈ foot l ps ∨ entries m !! p = None) ∧
    iter_active l' = iter_active l ∧ attrs l' = attrs l.

(** Another list that shares no node with the first keeps its elements, and still shares none. *)
Lemma gives_frame m l ps m' l' xs' k qs ys :
  gives m l ps m' l' xs' → rep m k qs ys → (∀ p, p ∈ foot k qs → p ∉ foot l ps) →
  rep m' k qs ys ∧ ∃ ps', rep m' l' ps' xs' ∧ (∀ p, p ∈ foot k qs → p ∉ foot l' ps').
Proof.
  intros (ps' & Hr & Hc & Hf & _) Hk Hd. split; [by eapply rep_frame|].
  exists ps'. split; [done|]. intros p Hp Hp'. destruct (Hf p Hp') as [H|H]; [by eapply Hd|].
  pose proof (rep_nodes _ _ _ _ Hk) as Hn. rewrite Forall_forall in Hn. destruct (Hn p Hp) as [_ Hs].
  rewrite H in Hs. by destruct Hs.
Qed.

Lemma with_spareels_same l : with_spareels (spareels l) l = l.
Proof. by destruct l. Qed.

Lemma rep_split m l ps xs n :
  rep m l ps xs → (n <= length ps)%nat →
  rep m l (take n ps ++ drop n ps) (take n xs ++ drop n xs) ∧ length (take n ps) = n ∧ length (take n xs) = n.
Proof.
  intros Hr Hn. rewrite !take_drop. split; [done|]. pose proof (rep_length _ _ _ _ Hr).
  rewrite !length_take. lia.
Qed.

(** The place before [v] holds the last node of what is in front of it. *)
Lemma all_lookup_before l u v a p :
  head_sentinel l :: u = a ++ [p] → all l (u ++ v) !! length u = Some p.
Proof.
  intros Ha. unfold all. rewrite <-app_assoc, app_comm_cons, Ha, <-app_assoc.
  assert (length u = length a) as -> by (apply (f_equal length) in Ha; rewrite length_app in Ha; simpl in Ha; lia).
  rewrite lookup_app_r by done. by rewrite Nat.sub_diag.
Qed.

(** The middle of a list of which one element was added. *)
Lemma mid_insert u e v :
  (u ++ v ≠ []) →
  let n := S (length (u ++ v)) in
  let i := if Nat.leb (S ((length (u ++ v) - 1) / 2)) (length u)
           then ((length (u ++ v) - 1) / 2)%nat else S ((length (u ++ v) - 1) / 2) in
  (u ++ e :: v) !! i = Some (mid_of (u ++ v)).
Proof.
  intros Hne n i. unfold mid_of.
  assert (0 < length (u ++ v))%nat as H0 by (destruct (u ++ v); simpl in *; [done|lia]).
  set (h := ((length (u ++ v) - 1) / 2)%nat) in *.
  assert (h < length (u ++ v))%nat as Hh.
  { pose proof (Nat.div_le_upper_bound (length (u ++ v) - 1) 2 (length (u ++ v) - 1)). lia. }
  destruct (lookup_lt_is_Some_2 _ _ Hh) as [x Hx]. rewrite Hx. simpl. subst i. case_test.
  - rewrite lookup_app_l in * by lia. done.
  - rewrite lookup_app_r in * by lia. by rewrite Nat.sub_succ_l by lia.
Qed.

Section steps.
Context (m : mem) (l : list_t) (ps xs : list Z) (Hr : rep m l ps xs).

Lemma rep_linked i p q : all l ps !! i = Some p → all l ps !! S i = Some q → linked m p q.
Proof using Hr. intros. by eapply chain_lookup; [apply (rep_chain _ _ _ _ Hr)|..]. Qed.

Lemma rep_node i p : all l ps !! i = Some p → node m p.
Proof using Hr.
  intros Hi%list_elem_of_lookup_2. pose proof (rep_all_nodes _ _ _ _ Hr) as Hn.
  rewrite Forall_forall in Hn. auto.
Qed.

Lemma rep_next i p q (P : Z → mem → Prop) :
  all l ps !! i = Some p → all l ps !! S i = Some q → P q m → hwp (get_next p) m P.
Proof using Hr.
  intros Hp Hq. apply hwp_get_next; [by eapply rep_node|]. by apply (rep_linked i p q).
Qed.

Lemma rep_prev i p q (P : Z → mem → Prop) :
  all l ps !! i = Some p → all l ps !! S i = Some q → P p m → hwp (get_prev q) m P.
Proof using Hr.
  intros Hp Hq. apply hwp_get_prev; [by eapply rep_node|]. by apply (rep_linked i p q).
Qed.

Lemma rep_value i p x (P : Z → mem → Prop) :
  ps !! i = Some p → xs !! i = Some x → P x m → hwp (get_data p) m P.
Proof using Hr.
  intros Hp Hx. apply hwp_get_data; [eapply rep_node; by apply all_lookup_node|].
  by apply (Forall2_lookup_lr _ _ _ _ _ _ (rep_data _ _ _ _ Hr) Hp Hx).
Qed.

Lemma hwp_findpos pos i p (P : Z → mem → Prop) :
  numels l < max_numels → pos = Z.of_nat i - 1 → all l ps !! i = Some p → P p m →
  hwp (list_findpos l pos) m P.
Proof using Hr. intros Hm -> Hi HP. eapply hwp_run; [|done]. by apply (findpos_run m l ps xs). Qed.
End steps.

Lemma insert_mid m l u e v xs' (P : Z → mem → Prop) :
  rep m (fixed l (u ++ e :: v)) (u ++ e :: v) xs' → (u ++ v ≠ [] → mid l = mid_of (u ++ v)) →
  P (mid_of (u ++ e :: v)) m →
  let n := Z.of_nat (S (length (u ++ v))) in
  let pos := Z.of_nat (length u) in
  hwp (if n =? 1 then mret e
       else if n mod 2 =? 1
       then if (n - 1) / 2 <=? pos then get_next (mid l) else mret (mid l)
       else if pos <=? (n - 1) / 2 then get_prev (mid l) else mret (mid l)) m P.
Proof.
  intros Hr Hm HP n pos. destruct (decide (u ++ v = [])) as [He|Hne].
  { apply app_eq_nil in He as [-> ->]. by apply hwp_ret. }
  pose proof (mid_insert u e v Hne) as Hmid. cbv zeta in Hmid. rewrite <-(Hm Hne) in Hmid.
  assert (0 < length (u ++ v))%nat as H0 by (destruct (u ++ v); simpl in *; [done|lia]).
  set (h := ((length (u ++ v) - 1) / 2)%nat) in *.
  assert (2 * h <= length (u ++ v) - 1 < 2 * h + 2)%nat as Hh
    by (pose proof (Nat.div_mod_eq (length (u ++ v) - 1) 2);
        pose proof (Nat.mod_upper_bound (length (u ++ v) - 1) 2); lia).
  set (ps' := u ++ e :: v) in *.
  assert (length ps' = S (length (u ++ v))) as Hlen by (unfold ps'; rewrite !length_app; simpl; lia).
  set (h' := ((length ps' - 1) / 2)%nat).
  assert (2 * h' <= length (u ++ v) < 2 * h' + 2)%nat as Hh'.
  { unfold h'. rewrite Hlen. pose proof (Nat.div_mod_eq (S (length (u ++ v)) - 1) 2);
        pose proof (Nat.mod_upper_bound (S (length (u ++ v)) - 1) 2); lia. }
  destruct (lookup_lt_is_Some_2 ps' h') as [x Hx]; [lia|].
  assert (mid_of ps' = x) as Hxm by (unfold mid_of; fold h'; by rewrite Hx). rewrite Hxm in HP.
  assert (length u <= length (u ++ v))%nat by (rewrite length_app; lia).
  assert ((n - 1) / 2 = Z.of_nat h') as Hz by (Z.to_euclidean_division_equations; lia).
  rewrite Hz. rewrite (proj2 (Z.eqb_neq n 1)) by lia.
  assert (mid l = x → hwp (mret (mid l)) m P) as Hret by (intros ->; by apply hwp_ret).
  revert Hmid. destruct (Nat.leb_spec (S h) (length u)) as [Hu|Hu]; intros Hmid.
  all: destruct (Z.eqb_spec (n mod 2) 1) as [Ho|Ho].
  all: assert (n = 2 * (n / 2) + n mod 2) as Hn by (apply Z.div_mod; lia).
  all: pose proof (Z.mod_pos_bound n 2) as Hb.
  - rewrite (proj2 (Z.leb_le _ _)) by lia.
    apply (rep_next m _ _ _ Hr (S h) _ x); [by apply all_lookup_node| |done].
    apply all_lookup_node. rewrite <-Hx. f_equal. lia.
  - rewrite (proj2 (Z.leb_gt _ _)) by lia. apply Hret.
    assert (h = h') as -> by lia. congruence.
  - rewrite (proj2 (Z.leb_gt _ _)) by lia. apply Hret.
    assert (S h = h') as He by lia. rewrite He in Hmid. congruence.
  - rewrite (proj2 (Z.leb_le _ _)) by lia.
    apply (rep_prev m _ _ _ Hr (S h') x); [by apply all_lookup_node| |done].
    apply all_lookup_node. rewrite <-Hmid. f_equal. lia.
Qed.

Section operations.
Context `{Allocator}.

(** There is no spare node, and no memory for another one. *)
Definition no_node (m : mem) (l : list_t) : Prop := spareels l = [] ∧ alloc_entry (entries m) = None.

(** The node that an insertion uses. *)
Lemma hwp_take_spare m l ps xs (P : Z * list_t → mem → Prop) :
  rep m l ps xs →
  (no_node m l → P (0, l) m) →
  (∀ e m', node m' e → (e ∈ foot l ps ∨ entries m !! e = None) →
     e ∉ foot (with_spareels (tail (spareels l)) l) ps →
     rep m' (with_spareels (tail (spareels l)) l) ps xs →
     changes (foot l ps) m m' → P (e, with_spareels (tail (spareels l)) l) m') →
  hwp (take_spare l) m P.
Proof.
  intros Hr Hfail Hok. unfold take_spare. destruct (spareels l) as [|e s] eqn:Hs.
  - apply hwp_bind. unfold new_entry, hwp. destruct (alloc_entry (entries m)) as [[p c]|] eqn:Ha; [|by apply Hfail].
    apply alloc_entry_fresh in Ha as [Hp Hn].
    assert (with_spareels [] l = l) as Hl by (rewrite <-Hs; apply with_spareels_same).
    simpl in Hok. rewrite Hl in Hok. apply Hok.
    + split; [done|]. simpl. rewrite lookup_insert_eq. by eexists.
    + by right.
    + intros Hin. pose proof (rep_nodes _ _ _ _ Hr) as Hns. rewrite Forall_forall in Hns.
      destruct (Hns p Hin) as [_ Hsm]. rewrite Hn in Hsm. by destruct Hsm.
    + apply (rep_ext m); [|done]. intros q Hq. simpl. apply lookup_insert_ne. intros <-.
      pose proof (rep_nodes _ _ _ _ Hr) as Hns. rewrite Forall_forall in Hns.
      destruct (Hns p Hq) as [_ Hsm]. rewrite Hn in Hsm. by destruct Hsm.
    + split; [|done]. intros q _ Hq. simpl. apply lookup_insert_ne. intros <-. rewrite Hn in Hq. by destruct Hq.
  - pose proof (rep_nodup _ _ _ _ Hr) as Hnd. pose proof (rep_nodes _ _ _ _ Hr) as Hns.
    unfold foot in Hnd, Hns. rewrite Hs in Hnd, Hns.
    assert (NoDup (e :: all l ps ++ s)) as Hnd'.
    { revert Hnd. apply NoDup_Permutation_proper. solve_Permutation. }
    apply NoDup_cons in Hnd' as [He Hnd'].
    apply hwp_ret. apply (Hok e m).
    + rewrite Forall_forall in Hns. apply Hns. set_solver.
    + left. unfold foot. rewrite Hs. set_solver.
    + done.
    + destruct Hr. constructor; try done.
      * change (Forall (node m) (all l ps ++ s)). apply Forall_app in Hns as [? Hns].
        apply Forall_cons in Hns as [? ?]. by apply Forall_app.
      * unfold spareelsnum in *. simpl. rewrite Hs in rep_spare. simpl in rep_spare. lia.
    + done.
Qed.

Lemma list_insert_at_wp m l ps xs data pos :
  rep m l ps xs → iter_active l = false → 0 <= pos <= numels l → numels l < max_numels →
  hwp (list_insert_at l data pos) m (λ r m',
    r.1 = -1 ∧ no_node m l ∧ gives m l ps m' r.2 xs ∨
    r.1 = 1 ∧ gives m l ps m' r.2 (take (Z.to_nat pos) xs ++ data :: drop (Z.to_nat pos) xs)).
Proof.
  intros Hr Hit Hpos Hmax. unfold list_insert_at. rewrite Hit, (proj2 (Z.ltb_ge (numels l) pos)) by lia.
  simpl. pose proof (rep_numels _ _ _ _ Hr) as Hn. set (n := Z.to_nat pos).
  apply hwp_bind. eapply hwp_take_spare; [done| |].
  { intros Hno. simpl. apply hwp_ret. left. split; [done|]. split; [exact Hno|]. exists ps. split_and!; auto with heap. }
  intros e m1 He Hin Hout Hr1 Hch. set (l1 := with_spareels (tail (spareels l)) l) in *. simpl.
  assert (e ≠ 0) as He0 by apply He. rewrite (proj2 (Z.eqb_neq e 0)) by done.
  apply hwp_bind. unfold stored. rewrite (rep_copy _ _ _ _ Hr1). apply hwp_ret.
  apply hwp_bind. apply hwp_modify; [done|]. set (m2 := upd (put_data data) e m1).
  assert (rep m2 l1 ps xs) as Hr2.
  { apply (rep_ext m1); [|done]. intros p Hp. simpl. apply lookup_alter_ne. set_solver. }
  destruct (rep_split m2 l1 ps xs n) as (Hr2' & Hu & Hxu); [done|lia|].
  set (u := take n ps) in *. set (v := drop n ps) in *.
  assert (u ++ v = ps) as Huv by apply take_drop.
  destruct (ends_split l1 u v) as (a & p & q & b & Ha & Hb).
  assert (all l1 ps !! n = Some p) as Hlp by (rewrite <-Huv, <-Hu; by eapply all_lookup_before).
  assert (all l1 ps !! S n = Some q) as Hlq.
  { rewrite <-Huv, (all_split l1 u v a p q b Ha Hb). apply (f_equal length) in Ha.
    rewrite length_app in Ha. simpl in Ha. rewrite lookup_app_r by lia. by replace (S n - length a)%nat with 1%nat by lia. }
  apply hwp_bind. apply (hwp_findpos _ _ _ _ Hr2 _ n p); [done| |done|].
  { unfold max_numels in *. rewrite wrap_s32_small by lia. lia. }
  apply hwp_bind. apply (rep_next _ _ _ _ Hr2 n p q); [done..|].
  pose proof (rep_node _ _ _ _ Hr2 _ _ Hlp) as Hp. pose proof (rep_node _ _ _ _ Hr2 _ _ Hlq) as Hq.
  assert (node m2 e) as He2 by (by apply node_upd).
  do 4 (apply hwp_bind; apply hwp_modify; [auto with heap|]).
  change (upd (put_prev e) q _) with (link e q (link p e m2)).
  set (m3 := link e q (link p e m2)).
  rewrite <-Huv in Hout.
  pose proof (insert_rep m2 l1 u v _ _ Hr2' (eq_trans Hu (eq_sym Hxu)) e data He2 Hout
    (dat_set_data_eq _ _ _ He) a b p q Ha Hb) as Hr3.
  apply hwp_bind. simpl numels. rewrite Hn, (wrap_u32_small (Z.of_nat (length ps) + 1))
    by (unfold max_numels in *; lia).
  replace (Z.of_nat (length ps) + 1) with (Z.of_nat (S (length (u ++ v)))) by (rewrite Huv; lia).
  replace pos with (Z.of_nat (length u)) by lia.
  eapply (insert_mid m3 (with_numels (Z.of_nat (S (length (u ++ v)))) l1) u e v); [exact Hr3| |].
  { simpl. rewrite Huv. apply (rep_mid _ _ _ _ Hr). }
  apply hwp_ret. right. split; [done|].
  exists (u ++ e :: v).
  assert (length (u ++ e :: v) = S (length (u ++ v))) as Hlen by (rewrite !length_app; simpl; lia).
  split_and!; [ | | |done|done].
  - simpl. replace (with_mid _ _) with (fixed l1 (u ++ e :: v)); [done|]. unfold fixed. by rewrite Hlen.
  - assert (p ∈ foot l ps ∧ q ∈ foot l ps) as [Hpf Hqf].
    { apply list_elem_of_lookup_2 in Hlp, Hlq. unfold foot. set_solver. }
    apply (changes_trans _ (e :: foot l ps) _ _ _ Hch).
    + unfold m3. apply (changes_trans _ (e :: foot l ps) _ (link p e m2));
        [|apply changes_link; set_solver|eauto].
      apply (changes_trans _ (e :: foot l ps) _ m2); [apply changes_upd; set_solver|apply changes_link; set_solver|eauto].
    + intros x [->|Hx]%elem_of_cons; [done|by left].
  - intros x Hx. destruct (decide (x = e)) as [->|]; [done|]. left.
    unfold foot, all in *. simpl in Hx. rewrite <-Huv. 
    assert (x ∈ tail (spareels l) → x ∈ spareels l) by (destruct (spareels l); set_solver).
    set_solver.
Qed.

End operations.

(** ** Removing *)

(** The list [l] with these fields. *)
Definition refit (l : list_t) (s : list Z) (n mid' : Z) : list_t :=
  with_mid mid' (with_numels n (with_spareels s l)).

Section remove.
Context (m : mem) (l : list_t) (u es v xu xes xv : list Z).
Context (Hr : rep m l (u ++ es ++ v) (xu ++ xes ++ xv)).
Context (Hu : length u = length xu) (Hes : length es = length xes).
Context (a b : list Z) (p q : Z).
Context (Ha : head_sentinel l :: u = a ++ [p]) (Hb : v ++ [tail_sentinel l] = q :: b).
Context (m' : mem) (s' : list Z) (mid' : Z).
Context (Hsame : ∀ x, x ∈ all l (u ++ v) → entries m' !! x = entries (link p q m) !! x).
Context (Hnds : NoDup s') (Hsub : ∀ x, x ∈ s' → x ∈ es ∨ x ∈ spareels l).
Context (Hsn : ∀ x, x ∈ s' → node m' x) (Hsl : Z.of_nat (length s') <= SIMCLIST_MAX_SPARE_ELEMS).
Context (Hmid : u ++ v ≠ [] → mid' = mid_of (u ++ v)).

Lemma remove_nodup : NoDup ((a ++ p :: q :: b) ++ es ++ spareels l).
Proof using Hr Ha Hb.
  pose proof (rep_nodup _ _ _ _ Hr) as Hnd. revert Hnd. rewrite <-(all_split l u v a p q b Ha Hb).
  apply NoDup_Permutation_proper. unfold foot, all. simpl. rewrite <-!app_assoc. solve_Permutation.
Qed.

Lemma remove_rep : rep m' (refit l s' (Z.of_nat (length (u ++ v))) mid') (u ++ v) (xu ++ xv).
Proof using All.
  pose proof remove_nodup as Hnd. rewrite (all_split l u v a p q b Ha Hb) in Hsame.
  apply NoDup_app in Hnd as (Hnd & Hdj & Hnd2).
  pose proof (rep_nodes _ _ _ _ Hr) as Hns. rewrite Forall_forall in Hns.
  assert (∀ x, x ∈ a ++ p :: q :: b → node m x) as Hn.
  { intros x Hx. apply Hns. rewrite <-(all_split l u v a p q b Ha Hb) in Hx. unfold foot, all in *. set_solver. }
  assert (node m p) as Hp by (apply Hn; set_solver). assert (node m q) as Hq by (apply Hn; set_solver).
  assert (head_sentinel l ∈ a ++ [p]) as Hhead by (rewrite <-Ha; left).
  assert (tail_sentinel l ∈ q :: b) as Htail by (rewrite <-Hb; set_solver).
  assert (∀ x, x ∈ a ++ p :: q :: b → nxt m' x = nxt (link p q m) x ∧ prv m' x = prv (link p q m) x ∧
            dat m' x = dat m x) as Hf.
  { intros x Hx. rewrite <-(dat_link p q m). unfold nxt, prv, dat. by rewrite Hsame. }
  pose proof Hnd as Hnd3. change (p :: q :: b) with ([p] ++ q :: b) in Hnd3. rewrite app_assoc in Hnd3.
  apply NoDup_app in Hnd3 as (_ & Hapq & _).
  destruct Hr as [Hc [Hpv Hnx] [Hdh Hdt] _ _ Hdat _ _ _ Hcp].
  constructor; try done.
  - change (all (refit l s' (Z.of_nat (length (u ++ v))) mid') (u ++ v)) with (all l (u ++ v)).
    rewrite (all_split l u v a p q b Ha Hb). apply (chain_same (link p q m)); [by intros x Hx; destruct (Hf x Hx) as (?&?&?)|].
    unfold all in Hc. rewrite <-!app_assoc, Hb, app_comm_cons, Ha, <-app_assoc in Hc.
    apply chain_link; [done..| |].
    + destruct es as [|e es']; apply (chain_app m a p) in Hc; tauto.
    + change (chain m (a ++ [p] ++ es ++ q :: b)) in Hc. rewrite !app_assoc in Hc. apply chain_app in Hc. tauto.
  - simpl. destruct (Hf (head_sentinel l)) as (_ & -> & _); [set_solver|].
    destruct (Hf (tail_sentinel l)) as (-> & _ & _); [set_solver|].
    rewrite prv_link_ne, nxt_link_ne; [done| |]; intros Heq; rewrite Heq in *.
    + apply (Hapq p); set_solver.
    + apply (Hapq q); set_solver.
  - simpl. destruct (Hf (head_sentinel l)) as (_ & _ & ->); [set_solver|].
    destruct (Hf (tail_sentinel l)) as (_ & _ & ->); [set_solver|]. done.
  - change (NoDup (all l (u ++ v) ++ s')). rewrite (all_split l u v a p q b Ha Hb).
    apply NoDup_app. split_and!; [done| |done]. intros x Hx Hxs. apply (Hdj x Hx). set_solver.
  - change (Forall (node m') (all l (u ++ v) ++ s')). rewrite (all_split l u v a p q b Ha Hb).
    apply Forall_app. split; apply Forall_forall; [|done]. intros x Hx.
    assert (node (link p q m) x) as [H0 Hs] by auto with heap. split; [done|]. by rewrite Hsame.
  - apply (data_ext m).
    + intros x Hx. apply Hf. rewrite <-(all_split l u v a p q b Ha Hb). unfold all. set_solver.
    + apply Forall2_app_inv in Hdat as [H1 H2]; [|done]. apply Forall2_app_inv in H2 as [_ H2]; [|done].
      by apply Forall2_app.
Qed.
End remove.

(** The nodes [es] become spare ones or are freed. *)
Record shed (es : list Z) (m : mem) (l : list_t) (m' : mem) (l' : list_t) : Prop := Shed {
  shed_list : l' = with_spareels (spareels l') l;
  shed_nodup : NoDup (spareels l');
  shed_sub : ∀ x, x ∈ spareels l' → x ∈ es ∨ x ∈ spareels l;
  shed_same : ∀ x, (x ∈ spareels l' ∨ x ∉ es) → entries m' !! x = entries m !! x;
  shed_most : spareelsnum l' <= SIMCLIST_MAX_SPARE_ELEMS;
  shed_blocks : blocks m' = blocks m
}.

Lemma shed_nil m l :
  NoDup (spareels l) → spareelsnum l <= SIMCLIST_MAX_SPARE_ELEMS → shed [] m l m l.
Proof. intros. constructor; auto. by destruct l. Qed.

Lemma shed_cons e es m l m1 l1 m2 l2 :
  shed [e] m l m1 l1 → shed es m1 l1 m2 l2 → (e ∉ es) → shed (e :: es) m l m2 l2.
Proof.
  intros [L1 N1 S1 E1 M1 B1] [L2 N2 S2 E2 M2 B2] He. constructor; [|done| | |done|congruence].
  - rewrite L2. simpl. rewrite L1. done.
  - intros x Hx. destruct (S2 x Hx) as [|Hx1]; [left; by right|].
    destruct (S1 x Hx1) as [->%list_elem_of_singleton|]; [left; left|by right].
  - intros x Hx. rewrite E2 by set_solver. apply E1.
    destruct Hx as [Hx|Hx]; [|set_solver]. destruct (S2 x Hx) as [|]; [right; set_solver|by left].
Qed.

Lemma spare_or_free_wp m l e (P : list_t → mem → Prop) :
  node m e → e ∉ spareels l → NoDup (spareels l) → spareelsnum l <= SIMCLIST_MAX_SPARE_ELEMS →
  (∀ l' m', shed [e] m l m' l' → P l' m') → hwp (spare_or_free l e) m P.
Proof.
  intros [H0 [c Hc]] He Hnd Hs HP. unfold spare_or_free. case_test.
  - apply hwp_ret, HP. constructor; simpl; [by destruct l|by constructor|set_solver|done| |done].
    unfold spareelsnum, SIMCLIST_MAX_SPARE_ELEMS in *. simpl. lia.
  - apply hwp_bind. unfold hwp, free_entry. rewrite Hc. apply HP.
    constructor; simpl; [by destruct l|done|by right| |done|done].
    intros x Hx. apply lookup_delete_ne. set_solver.
Qed.

Lemma free_copy_wp m l e (P : unit → mem → Prop) :
  copy_data (attrs l) = false → P tt m → hwp (free_copy l e) m P.
Proof. intros Hc HP. unfold free_copy. rewrite Hc. by apply hwp_ret. Qed.

(** The middle of a list of which one element is taken away. *)
Lemma drop_mid m l u e v xs (P : Z → mem → Prop) :
  rep m l (u ++ e :: v) xs →
  (∀ x, (u ++ v ≠ [] → x = mid_of (u ++ v)) → P x m) →
  let n := numels l in
  let pos := Z.of_nat (length u) in
  hwp (if n mod 2 =? 1
       then if n / 2 <=? pos then get_prev (mid l) else mret (mid l)
       else if pos <? n / 2 then get_next (mid l) else mret (mid l)) m P.
Proof.
  intros Hr HP n pos. assert (u ++ e :: v ≠ []) as Hne by (by destruct u).
  pose proof (rep_mid_lookup _ _ _ _ Hr Hne) as Hmid. pose proof (rep_numels _ _ _ _ Hr) as Hn.
  set (ps := u ++ e :: v) in *. set (h := ((length ps - 1) / 2)%nat) in *.
  assert (length ps = S (length (u ++ v))) as Hlen by (unfold ps; rewrite !length_app; simpl; lia).
  assert (2 * h <= length ps - 1 < 2 * h + 2)%nat as Hh
    by (pose proof (Nat.div_mod_eq (length ps - 1) 2); pose proof (Nat.mod_upper_bound (length ps - 1) 2); lia).
  set (h' := ((length (u ++ v) - 1) / 2)%nat).
  assert (2 * h' <= length (u ++ v) - 1 < 2 * h' + 2)%nat as Hh'
    by (pose proof (Nat.div_mod_eq (length (u ++ v) - 1) 2); pose proof (Nat.mod_upper_bound (length (u ++ v) - 1) 2); lia).
  assert (∀ i x, (i < length (u ++ v))%nat → i = h' → (u ++ v) !! i = Some x → mid_of (u ++ v) = x) as Hm.
  { intros i x Hi -> Hx. unfold mid_of. fold h'. by rewrite Hx. }
  assert (∀ i, (u ++ v) !! i = ps !! (if Nat.ltb i (length u) then i else S i)) as Hl.
  { intros i. unfold ps. case_test; [by rewrite !lookup_app_l by lia|].
    rewrite !lookup_app_r by lia. by replace (S i - length u)%nat with (S (i - length u)) by lia. }
  assert (∀ j x, all l ps !! S j = Some x → (j < length ps)%nat → ps !! j = Some x) as Hall.
  { intros j x Hx Hj. unfold all in Hx. simpl in Hx. by rewrite lookup_app_l in Hx. }
  assert (length u < length ps)%nat by (rewrite Hlen, length_app; lia).
  assert (n = Z.of_nat (S (length (u ++ v)))) as Hnl by lia.
  assert (n = 2 * (n / 2) + n mod 2) as Hnd by (apply Z.div_mod; lia).
  pose proof (Z.mod_pos_bound n 2) as Hb.
  assert (mid l = mid_of (u ++ v) → hwp (mret (mid l)) m P) as Hret by (intros; apply hwp_ret, HP; done).
  assert (u ++ v ≠ [] → 0 < length (u ++ v))%nat as Hpos by (destruct (u ++ v); simpl; [done|lia]).
  destruct (Z.eqb_spec (n mod 2) 1); case_test.
  - destruct (lookup_lt_is_Some_2 (all l ps) h) as [x Hx].
    { unfold all. simpl. rewrite length_app. lia. }
    apply (rep_prev _ _ _ _ Hr h x); [done..|]. apply HP. intros Hne'. specialize (Hpos Hne').
    symmetry. apply (Hm (h - 1)%nat); [lia..|]. rewrite Hl, (proj2 (Nat.ltb_lt _ _)) by lia.
    apply Hall; [|lia]. by replace (S (h - 1)) with h by lia.
  - apply Hret. symmetry. apply (Hm (h - 1)%nat); [lia..|].
    rewrite Hl, (proj2 (Nat.ltb_ge _ _)) by lia. replace (S (h - 1)) with h by lia. apply Hall; [done|lia].
  - destruct (lookup_lt_is_Some_2 (all l ps) (S (S h))) as [x Hx].
    { unfold all. simpl. rewrite length_app. lia. }
    apply (rep_next _ _ _ _ Hr (S h) _ x); [done..|]. apply HP. intros Hne'.
    symmetry. apply (Hm h); [lia..|]. rewrite Hl, (proj2 (Nat.ltb_ge _ _)) by lia. apply Hall; [done|lia].
  - apply Hret. symmetry. apply (Hm h); [lia..|].
    rewrite Hl, (proj2 (Nat.ltb_lt _ _)) by lia. apply Hall; [done|lia].
Qed.

Lemma list_drop_elem_wp m l u e v xu x xv (P : Z * list_t → mem → Prop) :
  rep m l (u ++ e :: v) (xu ++ x :: xv) → length u = length xu →
  (∀ l' m', gives m l (u ++ e :: v) m' (with_numels (numels l - 1) l') (xu ++ xv) →
     numels l' = numels l → P (0, l') m') →
  hwp (list_drop_elem l e (Z.of_nat (length u))) m P.
Proof.
  intros Hr Hu HP. destruct (ends_split l u v) as (a & p & q & b & Ha & Hb).
  pose proof (rep_nodup _ _ _ _ Hr) as Hnd. pose proof (rep_nodes _ _ _ _ Hr) as Hns.
  pose proof (rep_chain _ _ _ _ Hr) as Hc. unfold foot in Hnd, Hns.
  rewrite (insert_all l u v e a b p q Ha Hb) in Hc, Hnd, Hns. rewrite Forall_forall in Hns.
  pose proof Hc as [_ [[Hpe Hep] [[Heq Hqe] _]]]%chain_app.
  assert (node m p) as Hp by (apply Hns; set_solver). assert (node m q) as Hq by (apply Hns; set_solver).
  assert (node m e) as He by (apply Hns; set_solver).
  apply NoDup_app in Hnd as (Hnd & Hsp & Hnds). apply NoDup_app in Hnd as (_ & _ & Hnd).
  apply NoDup_cons in Hnd as [Hpn Hnd]. apply NoDup_cons in Hnd as [Hen _].
  assert (p ≠ e ∧ e ≠ q) as [Hpe' Heq'] by (split; intros ->; set_solver).
  unfold list_drop_elem. assert (e ≠ 0) as He0 by apply He. rewrite (proj2 (Z.eqb_neq e 0)) by done.
  apply hwp_bind. apply (drop_mid m l u e v _ _ Hr). intros mid' Hmid.
  apply hwp_bind, (hwp_get_prev _ _ p); [done..|]. apply hwp_bind, (hwp_get_next _ _ q); [done..|].
  apply hwp_bind, hwp_modify; [done|].
  apply hwp_bind, (hwp_get_next _ _ q); [auto with heap|by rewrite nxt_set_next_ne|].
  apply hwp_bind, (hwp_get_prev _ _ p); [auto with heap|by rewrite prv_set_next|].
  apply hwp_bind, hwp_modify; [auto with heap|].
  change (upd (put_prev p) q _) with (link p q m).
  apply hwp_bind, free_copy_wp; [apply (rep_copy _ _ _ _ Hr)|].
  apply hwp_bind, spare_or_free_wp; [auto with heap| |done|apply (rep_spare _ _ _ _ Hr)|].
  { apply Hsp. set_solver. }
  intros l' m' Hs. apply hwp_ret, HP; [|by rewrite (shed_list _ _ _ _ _ Hs)].
  pose proof Hs as [L1 N1 S1 E1 M1 B1]. exists (u ++ v).
  assert (numels l - 1 = Z.of_nat (length (u ++ v))) as Hn'.
  { rewrite (rep_numels _ _ _ _ Hr), !length_app, length_cons. lia. }
  assert (∀ z, z ∈ all l (u ++ v) → z ≠ e) as Hze.
  { intros z Hz ->. pose proof (rep_nodup _ _ _ _ Hr) as Hnd'. unfold foot in Hnd'.
    rewrite (insert_all l u v e a b p q Ha Hb) in Hnd'. rewrite (all_split l u v a p q b Ha Hb) in Hz.
    apply NoDup_app in Hnd' as (Hnd' & _ & _). apply NoDup_app in Hnd' as (_ & Hd & _). set_solver. }
  split_and!.
  - rewrite L1. 
    replace (with_numels _ _) with (refit l (spareels l') (Z.of_nat (length (u ++ v))) mid').
    + apply (remove_rep m l u [e] v xu [x] xv Hr Hu eq_refl a b p q Ha Hb); try done.
      * intros z Hz. apply E1. right. intros ->%list_elem_of_singleton. by eapply Hze.
      * intros z Hz. assert (node m z) as [Hz0 Hzs].
        { apply Hns. destruct (S1 z Hz) as [->%list_elem_of_singleton|]; set_solver. }
        apply (node_link p q) in He. split; [done|]. rewrite E1 by by left.
        assert (node (link p q m) z) as [_ H] by (apply node_link; done). done.
    + unfold refit. simpl. by rewrite Hn'.
  - apply (changes_trans _ (foot l (u ++ e :: v)) _ (link p q m)); [|split; [|done]|eauto].
    + apply changes_link; unfold foot; rewrite (insert_all l u v e a b p q Ha Hb); set_solver.
    + intros z Hz _. apply E1. right. intros ->%list_elem_of_singleton. apply Hz. unfold foot, all. set_solver.
  - intros z Hz. left. unfold foot, all in *. rewrite L1 in Hz. simpl in Hz. 
    specialize (S1 z). set_solver.
  - rewrite L1. done.
  - rewrite L1. done.
Qed.

Lemma list_delete_at_wp m l ps xs pos :
  rep m l ps xs → iter_active l = false → 0 <= pos < numels l → numels l < max_numels →
  hwp (list_delete_at l pos) m (λ r m', r.1 = 0 ∧ gives m l ps m' r.2 (delete (Z.to_nat pos) xs)).
Proof.
  intros Hr Hit Hpos Hmax. unfold list_delete_at.
  rewrite Hit, (proj2 (Z.leb_gt (numels l) pos)) by lia. simpl.
  pose proof (rep_numels _ _ _ _ Hr) as Hn. pose proof (rep_length _ _ _ _ Hr) as Hl.
  set (n := Z.to_nat pos). destruct (lookup_lt_is_Some_2 ps n) as [e He]; [lia|].
  destruct (lookup_lt_is_Some_2 xs n) as [x Hx]; [lia|].
  apply hwp_bind. apply (hwp_findpos _ _ _ _ Hr _ (S n) e); [done| |by apply all_lookup_node|].
  { unfold max_numels in *. rewrite wrap_s32_small by lia. lia. }
  pose proof Hr as Hr'. rewrite (lookup_split ps n e He), (lookup_split xs n x Hx) in Hr'.
  apply hwp_bind. replace pos with (Z.of_nat (length (take n ps))) by (rewrite length_take; lia).
  eapply list_drop_elem_wp; [exact Hr'|rewrite !length_take; lia|].
  intros l' m' Hg Hnl. apply hwp_ret. split; [done|].
  simpl. rewrite Hnl, wrap_u32_small by (unfold max_numels in *; lia).
  rewrite delete_take_drop. by rewrite <-(lookup_split ps n e He) in Hg.
Qed.

(** [p->data = y] for the node of place [i] *)
Lemma rep_set_data m l ps xs i p y :
  rep m l ps xs → ps !! i = Some p → rep (upd (put_data y) p m) l ps (<[i := y]> xs).
Proof.
  intros Hr Hp. pose proof (all_lookup_node l ps i p Hp) as Hap. pose proof (rep_node _ _ _ _ Hr _ _ Hap) as Hnp.
  pose proof (rep_nodup _ _ _ _ Hr) as Hnd. unfold foot, all in Hnd. simpl in Hnd.
  apply NoDup_cons in Hnd as [Hh Hnd]. apply NoDup_app in Hnd as (Hnd & _ & _).
  apply NoDup_app in Hnd as (Hnd & Ht & _). pose proof (list_elem_of_lookup_2 _ _ _ Hp) as Hin.
  destruct Hr as [Hc [Hpv Hnx] [Hdh Hdt] ? Hns Hdat ? ? ? ?]. constructor; try done.
  - apply (chain_same m); [|done]. intros. by rewrite nxt_set_data, prv_set_data.
  - by rewrite nxt_set_data, prv_set_data.
  - rewrite !dat_set_data_ne; [done|intros ->; apply (Ht _ Hin); by left|intros ->; set_solver].
  - eapply Forall_impl; [exact Hns|]. intros. by apply node_upd.
  - apply Forall2_same_length_lookup. split; [rewrite length_insert; by eapply Forall2_length|].
    intros j q x Hq Hx. destruct (decide (i = j)) as [<-|Hij].
    + rewrite list_lookup_insert_eq in Hx by (rewrite <-(Forall2_length _ _ _ Hdat); by eapply lookup_lt_Some).
      simplify_eq. by apply dat_set_data_eq.
    + rewrite list_lookup_insert_ne in Hx by done. rewrite dat_set_data_ne.
      * by apply (Forall2_lookup_lr _ _ _ _ _ _ Hdat Hq Hx).
      * intros ->. apply Hij. by eapply NoDup_lookup.
Qed.

Lemma foot_lookup l ps i p : all l ps !! i = Some p → p ∈ foot l ps.
Proof. intros Hi%list_elem_of_lookup_2. unfold foot. set_solver. Qed.

Lemma gives_changes m m1 l ps m' l' xs' :
  changes (foot l ps) m m1 → (∀ p, entries m1 !! p = None → entries m !! p = None) →
  gives m1 l ps m' l' xs' → gives m l ps m' l' xs'.
Proof.
  intros Hc Hn (ps' & Hr & Hc' & Hf & H1 & H2). exists ps'. split_and!; [done| | |done|done].
  - apply (changes_trans _ _ _ _ _ Hc Hc'). auto.
  - intros p Hp. destruct (Hf p Hp); auto.
Qed.

Lemma list_extract_at_wp m l ps xs pos x :
  rep m l ps xs → iter_active l = false → 0 <= pos → xs !! Z.to_nat pos = Some x → numels l < max_numels →
  hwp (list_extract_at l pos) m (λ r m', r.1 = x ∧ gives m l ps m' r.2 (delete (Z.to_nat pos) xs)).
Proof.
  intros Hr Hit Hpos Hx Hmax. set (n := Z.to_nat pos) in *.
  pose proof (rep_numels _ _ _ _ Hr) as Hn. pose proof (rep_length _ _ _ _ Hr) as Hl.
  pose proof (lookup_lt_Some _ _ _ Hx) as Hlt. unfold list_extract_at.
  rewrite Hit, (proj2 (Z.leb_gt (numels l) pos)) by lia. simpl.
  destruct (lookup_lt_is_Some_2 ps n) as [e He]; [lia|].
  apply hwp_bind. apply (hwp_findpos _ _ _ _ Hr _ (S n) e); [done| |by apply all_lookup_node|].
  { unfold max_numels in *. rewrite wrap_s32_small by lia. lia. }
  apply hwp_bind, (rep_value _ _ _ _ Hr n e x); [done..|].
  pose proof (rep_node _ _ _ _ Hr _ _ (all_lookup_node l ps n e He)) as Hne.
  apply hwp_bind, hwp_modify; [done|].
  pose proof (rep_set_data m l ps xs n e 0 Hr He) as Hr0.
  rewrite (lookup_split ps n e He), (insert_take_drop xs n 0 Hlt) in Hr0.
  apply hwp_bind. replace pos with (Z.of_nat (length (take n ps))) by (rewrite length_take; lia).
  eapply list_drop_elem_wp; [exact Hr0|rewrite !length_take; lia|].
  intros l' m' Hg Hnl. apply hwp_ret. split; [done|].
  simpl. rewrite Hnl, wrap_u32_small by (unfold max_numels in *; lia).
  rewrite delete_take_drop. rewrite <-(lookup_split ps n e He) in Hg.
  eapply gives_changes; [| |exact Hg].
  - apply changes_upd. by apply (foot_lookup l ps (S n)), all_lookup_node.
  - intros q. simpl. rewrite lookup_alter. case_decide; [subst|done]. by destruct (entries m !! q).
Qed.
(** ** Looking *)

Section look.
Context (m : mem) (l : list_t) (ps xs : list Z) (Hr : rep m l ps xs).

(** Where a cursor stands: at the end, or at an element. *)
Lemma rep_cursor i el :
  all l ps !! S i = Some el →
  i = length xs ∧ el = tail_sentinel l ∨
  ∃ x n, (i < length xs)%nat ∧ el ≠ tail_sentinel l ∧ xs !! i = Some x ∧ ps !! i = Some el ∧
    all l ps !! S (S i) = Some n.
Proof using Hr.
  intros Hi. pose proof (rep_length _ _ _ _ Hr) as Hl. pose proof (lookup_lt_Some _ _ _ Hi) as Hlt.
  unfold all in Hlt. simpl in Hlt. rewrite length_app in Hlt. simpl in Hlt.
  destruct (decide (i = length xs)) as [He|Hne].
  { left. split; [done|]. rewrite He, <-Hl, all_lookup_tail in Hi. by simplify_eq. }
  right. destruct (lookup_lt_is_Some_2 xs i) as [x Hx]; [lia|].
  destruct (lookup_lt_is_Some_2 (all l ps) (S (S i))) as [n Hn].
  { unfold all. simpl. rewrite length_app. simpl. lia. }
  assert (ps !! i = Some el) as Hp.
  { unfold all in Hi. simpl in Hi. rewrite lookup_app_l in Hi by lia. done. }
  exists x, n. split_and!; [lia| |done|done|done]. intros ->.
  pose proof (rep_nodup _ _ _ _ Hr) as Hnd. unfold foot, all in Hnd. simpl in Hnd.
  apply NoDup_cons in Hnd as [_ Hnd]. apply NoDup_app in Hnd as (Hnd & _ & _).
  apply NoDup_app in Hnd as (_ & Ht & _). apply (Ht _ (list_elem_of_lookup_2 _ _ _ Hp)). by left.
Qed.

Lemma rep_first : ∃ n, all l ps !! 1%nat = Some n ∧
  ∀ P : Z → mem → Prop, P n m → hwp (get_next (head_sentinel l)) m P.
Proof using Hr.
  destruct (lookup_lt_is_Some_2 (all l ps) 1) as [n Hn].
  { unfold all. simpl. rewrite length_app. simpl. lia. }
  exists n. split; [done|]. intros P HP. by eapply (rep_next _ _ _ _ Hr 0).
Qed.

Lemma list_get_at_wp pos :
  numels l < max_numels → 0 <= pos < 2 ^ 32 →
  hwp (list_get_at l pos) m (λ x m', m' = m ∧ x = default 0 (xs !! Z.to_nat pos)).
Proof using Hr.
  intros Hmax Hpos. pose proof (rep_numels _ _ _ _ Hr) as Hn. pose proof (rep_length _ _ _ _ Hr) as Hl.
  unfold max_numels in Hmax. unfold list_get_at. apply hwp_bind.
  assert (wrap_s32 (numels l) = numels l) as Hw by (apply wrap_s32_small; lia).
  destruct (decide (pos < numels l)) as [Hlt|Hge].
  - destruct (lookup_lt_is_Some_2 ps (Z.to_nat pos)) as [e He]; [lia|].
    destruct (lookup_lt_is_Some_2 xs (Z.to_nat pos)) as [x Hx]; [lia|].
    pose proof (all_lookup_node l ps _ _ He) as Ha.
    apply (hwp_findpos _ _ _ _ Hr _ (S (Z.to_nat pos)) e); [done| |done|].
    { rewrite wrap_s32_small by lia. lia. }
    pose proof (rep_node _ _ _ _ Hr _ _ Ha) as [H0 _]. rewrite (proj2 (Z.eqb_neq e 0)) by done.
    apply (rep_value _ _ _ _ Hr (Z.to_nat pos) e x); [done..|]. by rewrite Hx.
  - rewrite lookup_ge_None_2 by lia. simpl. destruct (rep_sentinels _ _ _ _ Hr) as [Hh Ht].
    assert (∀ i e, all l ps !! i = Some e → dat m e = Some 0 → wrap_s32 pos = Z.of_nat i - 1 →
       hwp (list_findpos l (wrap_s32 pos)) m (λ tmp m', hwp (if tmp =? 0 then mret 0 else get_data tmp) m'
         (λ x m'0, m'0 = m ∧ x = 0))) as Hs.
    { intros i e Hi Hd Hp. apply (hwp_findpos _ _ _ _ Hr _ i e); [done..|].
      pose proof (rep_node _ _ _ _ Hr _ _ Hi) as Hne. rewrite (proj2 (Z.eqb_neq e 0)) by apply Hne.
      by apply (hwp_get_data _ _ 0). }
    destruct (decide (wrap_s32 pos = numels l)) as [He|Hne].
    { apply (Hs (S (length ps)) (tail_sentinel l)); [apply all_lookup_tail|done|lia]. }
    destruct (decide (wrap_s32 pos = -1)) as [He1|Hne1].
    { by apply (Hs 0%nat (head_sentinel l)). }
    assert (list_findpos l (wrap_s32 pos) m = Done (0, m)) as Hf.
    { unfold list_findpos. rewrite Hw. 
      assert ((wrap_s32 pos <? -1) || (numels l <? wrap_s32 pos) = true) as ->; [|done].
      apply orb_true_iff. rewrite !Z.ltb_lt. revert Hne Hne1. unfold wrap_s32.
      Z.to_euclidean_division_equations. lia. }
    eapply hwp_run; [exact Hf|]. by apply hwp_ret.
Qed.

(** The place of the first element that passes the test, or -1. *)
Definition find_index (test : Z → bool) (xs : list Z) : Z :=
  match list_find (λ x, test x = true) xs with Some (i, _) => Z.of_nat i | None => -1 end.

Lemma find_index_cons test x k :
  find_index test (x :: k) =
  if test x then 0 else if find_index test k =? -1 then -1 else find_index test k + 1.
Proof.
  unfold find_index. simpl. destruct (test x); simpl; [done|].
  destruct (list_find _ k) as [[i y]|]; simpl; [|done]. rewrite (proj2 (Z.eqb_neq _ _)) by lia. lia.
Qed.

Lemma locate_loop_wp test fuel i el (P : Z → mem → Prop) :
  all l ps !! S i = Some el → (length xs - i < fuel)%nat →
  P (let r := find_index (test (blocks m)) (drop i xs) in if r =? -1 then -1 else Z.of_nat i + r) m →
  hwp (locate_loop fuel test (tail_sentinel l) el (Z.of_nat i)) m P.
Proof using Hr.
  revert i el. induction fuel as [|fuel IH]; intros i el Hi Hf HP; [lia|]. simpl.
  destruct (rep_cursor i el Hi) as [[-> ->]|(x & n & Hlt & Hne & Hx & Hp & Hn)].
  - rewrite Z.eqb_refl. apply hwp_ret. by rewrite drop_all in HP.
  - rewrite (proj2 (Z.eqb_neq _ _)) by done.
    rewrite (drop_cons_lookup _ _ _ Hx) in HP. rewrite find_index_cons in HP.
    apply hwp_bind, (rep_value _ _ _ _ Hr i el x); [done..|]. apply hwp_bind. unfold hwp at 1, get_blocks.
    destruct (test (blocks m) x).
    { apply hwp_ret. simpl in HP. by rewrite Z.add_0_r in HP. }
    apply hwp_bind, (rep_next _ _ _ _ Hr (S i) el n); [by apply all_lookup_node|done|].
    replace (Z.of_nat i + 1) with (Z.of_nat (S i)) by lia. apply IH; [done|lia|].
    cbv zeta in HP |- *. destruct (Z.eqb_spec (find_index (test (blocks m)) (drop (S i) xs)) (-1)) as [He|Hne'].
    + by rewrite Z.eqb_refl in HP.
    + assert (0 <= find_index (test (blocks m)) (drop (S i) xs)).
      { revert Hne'. unfold find_index. destruct (list_find _ _) as [[j y]|]; lia. }
      rewrite (proj2 (Z.eqb_neq _ _)) in HP by lia.
      replace (Z.of_nat (S i) + _) with (Z.of_nat i + (find_index (test (blocks m)) (drop (S i) xs) + 1)) by lia.
      done.
Qed.

(** The comparison that [list_locate] makes. *)
Definition same_as (l : list_t) (b : heap) (data d : Z) : bool :=
  match comparator (attrs l) with Some cmp => cmp b data d =? 0 | None => d =? data end.

Lemma find_index_pos test k : -1 <= find_index test k.
Proof. unfold find_index. destruct (list_find _ _) as [[j y]|]; lia. Qed.

Lemma list_locate_wp data :
  hwp (list_locate l data) m (λ r m', m' = m ∧ r = find_index (same_as l (blocks m) data) xs).
Proof using Hr.
  unfold list_locate. destruct rep_first as (n & Hn & Hnext). apply hwp_bind, Hnext.
  apply (locate_loop_wp _ _ 0 n); [done| |].
  - unfold rounds. rewrite (rep_numels _ _ _ _ Hr), (rep_length _ _ _ _ Hr). lia.
  - split; [done|]. cbv zeta. rewrite drop_0. unfold same_as.
    destruct (comparator (attrs l)); case_test; lia.
Qed.
End look.
