(* ===== verification/SimclistOps.v ===== *)
(** * The other operations of simclist.c

    Creating and clearing a list, ranges, concatenation, searching with the user's
    functions, iterating, hashing, and the checks of a debugging build. *)

From S2P Require Import Prelude Simclist SimclistRep SimclistSpec.
From stdpp Require Import gmap.
Local Open Scope Z_scope.

(** ** Searching *)

Section search.
Context (m : mem) (l : list_t) (ps xs : list Z) (Hr : rep m l ps xs).

Lemma rounds_enough : rounds l = S (length xs).
Proof using Hr.
  unfold rounds. rewrite (rep_numels _ _ _ _ Hr), (rep_length _ _ _ _ Hr). by rewrite Nat2Z.id.
Qed.

Lemma find_index_existsb test k : (0 <=? find_index test k) = existsb test k.
Proof.
  induction k as [|x k IH]; [done|]. rewrite find_index_cons. simpl. destruct (test x); [done|].
  rewrite <-IH. pose proof (find_index_pos test k). destruct (Z.eqb_spec (find_index test k) (-1)) as [->|]; [done|].
  simpl. by rewrite !(proj2 (Z.leb_le 0 _)) by lia.
Qed.

Lemma list_contains_wp data :
  hwp (list_contains l data) m (λ r m', m' = m ∧ r = existsb (same_as l (blocks m) data) xs).
Proof using Hr.
  unfold list_contains. apply hwp_bind. eapply hwp_mono; [by eapply list_locate_wp|].
  intros r m' [-> ->]. apply hwp_ret. split; [done|]. apply find_index_existsb.
Qed.

(** The first element that the user's function accepts, or NULL. *)
Definition first_match (test : Z → bool) (k : list Z) : Z :=
  match list_find (λ x, test x = true) k with Some (_, x) => x | None => 0 end.

Lemma seek_loop_wp seek ind fuel i el (P : Z → mem → Prop) :
  all l ps !! S i = Some el → (length xs - i < fuel)%nat →
  P (first_match (λ x, negb (seek (blocks m) x ind =? 0)) (drop i xs)) m →
  hwp (seek_loop fuel seek ind (tail_sentinel l) el) m P.
Proof using Hr.
  revert i el. induction fuel as [|fuel IH]; intros i el Hi Hf HP; [lia|]. simpl.
  destruct (rep_cursor _ _ _ _ Hr i el Hi) as [[-> ->]|(x & n & Hlt & Hne & Hx & Hp & Hn)].
  - rewrite Z.eqb_refl. apply hwp_ret. by rewrite drop_all in HP.
  - rewrite (proj2 (Z.eqb_neq _ _)) by done. rewrite (drop_cons_lookup _ _ _ Hx) in HP.
    apply hwp_bind, (rep_value _ _ _ _ Hr i el x); [done..|]. apply hwp_bind. unfold hwp at 1, get_blocks.
    unfold first_match in HP. simpl in HP. destruct (negb _); simpl in HP.
    { by apply hwp_ret. }
    apply hwp_bind, (rep_next _ _ _ _ Hr (S i) el n); [by apply all_lookup_node|done|].
    apply (IH (S i)); [done|lia|]. unfold first_match. by destruct (list_find _ _) as [[j y]|].
Qed.

Lemma list_seek_wp ind :
  hwp (list_seek l ind) m (λ r m', m' = m ∧
    r = match seeker (attrs l) with
        | None => 0
        | Some seek => first_match (λ x, negb (seek (blocks m) x ind =? 0)) xs
        end).
Proof using Hr.
  unfold list_seek. destruct (seeker (attrs l)) as [seek|]; [|by apply hwp_ret].
  destruct (rep_first _ _ _ _ Hr) as (n & Hn & Hnext). apply hwp_bind, Hnext.
  apply (seek_loop_wp _ _ _ 0 n); [done|rewrite rounds_enough; lia|]. by rewrite drop_0.
Qed.

(** The element that none after it beats. *)
Definition best (cmp : heap → Z → Z → Z) (versus : Z) (b : heap) : Z → list Z → Z :=
  foldl (λ cur d, if 0 <? cmp b cur d * versus then d else cur).

Lemma minmax_loop_wp cmp versus fuel i cur el (P : Z → mem → Prop) :
  all l ps !! S i = Some el → (length xs - i < fuel)%nat →
  P (best cmp versus (blocks m) cur (drop i xs)) m →
  hwp (minmax_loop fuel cmp versus (tail_sentinel l) cur el) m P.
Proof using Hr.
  revert i cur el. induction fuel as [|fuel IH]; intros i cur el Hi Hf HP; [lia|]. simpl.
  destruct (rep_cursor _ _ _ _ Hr i el Hi) as [[-> ->]|(x & n & Hlt & Hne & Hx & Hp & Hn)].
  - rewrite Z.eqb_refl. apply hwp_ret. by rewrite drop_all in HP.
  - rewrite (proj2 (Z.eqb_neq _ _)) by done. rewrite (drop_cons_lookup _ _ _ Hx) in HP.
    apply hwp_bind, (rep_value _ _ _ _ Hr i el x); [done..|]. apply hwp_bind. unfold hwp at 1, get_blocks.
    apply hwp_bind, (rep_next _ _ _ _ Hr (S i) el n); [by apply all_lookup_node|done|].
    apply (IH (S i)); [done|lia|done].
Qed.

Lemma list_get_minmax_wp versus :
  hwp (list_get_minmax l versus) m (λ r m', m' = m ∧
    r = match comparator (attrs l), xs with
        | Some cmp, x :: k => best cmp versus (blocks m) x k
        | _, _ => 0
        end).
Proof using Hr.
  unfold list_get_minmax. destruct (comparator (attrs l)) as [cmp|]; [|by apply hwp_ret].
  pose proof (rep_length _ _ _ _ Hr) as Hl. rewrite (rep_numels _ _ _ _ Hr), Hl.
  assert (xs = [] ∨ ∃ x k, xs = x :: k) as [Hxs|(x & k & Hxs)] by (destruct xs; eauto).
  { rewrite Hxs. by apply hwp_ret. }
  rewrite (proj2 (Z.eqb_neq _ 0)) by (rewrite Hxs; simpl; lia).
  destruct (rep_first _ _ _ _ Hr) as (n & Hn & Hnext). apply hwp_bind, Hnext.
  destruct (rep_cursor _ _ _ _ Hr 0 n Hn) as [[He _]|(y & n2 & _ & _ & Hy & Hp & Hn2)].
  { rewrite Hxs in He. done. }
  apply hwp_bind, (rep_value _ _ _ _ Hr 0 n y); [done..|].
  apply hwp_bind, (rep_next _ _ _ _ Hr 1 n n2); [done..|].
  apply (minmax_loop_wp _ _ _ 1); [done|rewrite rounds_enough; lia|].
  rewrite Hxs in Hy |- *. simpl in Hy. simplify_eq. simpl. rewrite ?drop_0. done.
Qed.
End search.

(** With a comparator that orders the elements, what is found beats every element. *)
Lemma best_beats cmp versus b cur k :
  (∀ x, cmp b x x * versus <= 0) →
  (∀ x y z, cmp b x y * versus <= 0 → cmp b y z * versus <= 0 → cmp b x z * versus <= 0) →
  (∀ x y, 0 < cmp b x y * versus → cmp b y x * versus <= 0) →
  let r := best cmp versus b cur k in
  r ∈ cur :: k ∧ Forall (λ x, cmp b r x * versus <= 0) (cur :: k).
Proof.
  intros Hrefl Htr Htot. revert cur. induction k as [|d k IH]; intros cur r.
  { split; [by left|]. by constructor. }
  subst r. simpl. case_test.
  - destruct (IH d) as [Hin Hall]. split; [set_solver|].
    apply Forall_cons in Hall as [Hd Hk]. constructor; [|by constructor]. eapply Htr; [exact Hd|]. auto.
  - destruct (IH cur) as [Hin Hall]. split; [set_solver|].
    apply Forall_cons in Hall as [Hc Hk]. constructor; [done|]. constructor; [|done]. by eapply Htr.
Qed.

(** ** Iterating *)

(** [list_iterator_start]; [while (list_iterator_hasnext( l )) x = list_iterator_next( l );];
    [list_iterator_stop].  The elements seen. *)
Fixpoint iterate_loop (fuel : nat) (l : list_t) (seen : list Z) : hm (list Z * list_t) :=
  match fuel with
  | O => fail OutOfFuel
  | S fuel =>
      if list_iterator_hasnext l
      then r ← list_iterator_next l; iterate_loop fuel r.2 (seen ++ [r.1])
      else mret (seen, l)
  end.

Definition iterate (l : list_t) : hm (list Z * list_t) :=
  r ← list_iterator_start l;
  r ← iterate_loop (rounds l) r.2 [];
  mret (r.1, (list_iterator_stop r.2).2).

Section iterate.
Context (m : mem) (l0 : list_t) (ps xs : list Z) (Hr : rep m l0 ps xs) (Hmax : numels l0 < max_numels).

Lemma iterate_loop_wp fuel i cur (P : list Z * list_t → mem → Prop) :
  all l0 ps !! S i = Some cur → (length xs - i < fuel)%nat →
  (∀ c, P (xs, with_iter true (Z.of_nat (length xs)) c l0) m) →
  hwp (iterate_loop fuel (with_iter true (Z.of_nat i) cur l0) (take i xs)) m P.
Proof using Hr Hmax.
  pose proof (rep_numels _ _ _ _ Hr) as Hn. pose proof (rep_length _ _ _ _ Hr) as Hl.
  unfold max_numels in Hmax.
  revert i cur. induction fuel as [|fuel IH]; intros i cur Hi Hf HP; [lia|]. simpl.
  unfold list_iterator_hasnext. simpl.
  destruct (rep_cursor _ _ _ _ Hr i cur Hi) as [[-> ->]|(x & n & Hlt & Hne & Hx & Hp & Hnx)].
  - rewrite (proj2 (Z.ltb_ge _ _)) by lia. apply hwp_ret. rewrite firstn_all. apply HP.
  - rewrite (proj2 (Z.ltb_lt _ _)) by lia. apply hwp_bind. unfold list_iterator_next. simpl.
    apply hwp_bind, (rep_value _ _ _ _ Hr i cur x); [done..|].
    apply hwp_bind, (rep_next _ _ _ _ Hr (S i) cur n); [done..|]. apply hwp_ret. simpl.
    rewrite wrap_u32_small by lia. replace (Z.of_nat i + 1) with (Z.of_nat (S i)) by lia.
    rewrite <-(take_S_r _ _ _ Hx). apply IH; [done|lia|done].
Qed.

(** A loop with the iterator sees every element once and in order. *)
Lemma iterate_wp :
  iter_active l0 = false →
  hwp (iterate l0) m (λ r m', m' = m ∧ r.1 = xs ∧ rep m r.2 ps xs ∧ iter_active r.2 = false).
Proof using Hr Hmax.
  intros Hit. unfold iterate, list_iterator_start. rewrite Hit. apply hwp_bind.
  destruct (rep_first _ _ _ _ Hr) as (n & Hn & Hnext). apply hwp_bind, Hnext. apply hwp_ret.
  apply hwp_bind. apply (iterate_loop_wp _ 0 n); [done|rewrite (rounds_enough _ _ _ _ Hr); lia|].
  intros c. apply hwp_ret. simpl. split_and!; [done|done| |done].
  destruct Hr. constructor; done.
Qed.

(** While it runs the list cannot change. *)
Lemma list_insert_at_iterating `{Allocator} data pos :
  iter_active l0 = true → list_insert_at l0 data pos m = Done ((-1, l0), m).
Proof. intros Hit. unfold list_insert_at. by rewrite Hit. Qed.
Lemma list_delete_at_iterating pos :
  iter_active l0 = true → list_delete_at l0 pos m = Done ((-1, l0), m).
Proof. intros Hit. unfold list_delete_at. by rewrite Hit. Qed.
End iterate.

(** ** Hashing *)

(** One round of [list_hash]. *)
Definition hash_step (f : heap → Z → Z) (b : heap) (n hash tmphash d : Z) : Z :=
  wrap_s32 (wrap_s32 (tmphash + Z.lxor tmphash (f b d)) + wrap_u32 hash mod n).

Section hash.
Context (m : mem) (l : list_t) (ps xs : list Z) (Hr : rep m l ps xs).

Lemma hash_loop_wp f n hash fuel i tmphash el (P : Z → mem → Prop) :
  all l ps !! S i = Some el → (length xs - i < fuel)%nat →
  P (foldl (hash_step f (blocks m) n hash) tmphash (drop i xs)) m →
  hwp (hash_loop fuel f n hash (tail_sentinel l) tmphash el) m P.
Proof using Hr.
  revert i tmphash el. induction fuel as [|fuel IH]; intros i tmphash el Hi Hf HP; [lia|]. simpl.
  destruct (rep_cursor _ _ _ _ Hr i el Hi) as [[-> ->]|(x & nx & Hlt & Hne & Hx & Hp & Hn)].
  - rewrite Z.eqb_refl. apply hwp_ret. by rewrite drop_all in HP.
  - rewrite (proj2 (Z.eqb_neq _ _)) by done. rewrite (drop_cons_lookup _ _ _ Hx) in HP.
    apply hwp_bind, (rep_value _ _ _ _ Hr i el x); [done..|]. apply hwp_bind. unfold hwp at 1, get_blocks.
    apply hwp_bind, (rep_next _ _ _ _ Hr (S i) el nx); [by apply all_lookup_node|done|].
    apply (IH (S i)); [done|lia|done].
Qed.

Lemma list_hash_wp f hash :
  hasher (attrs l) = Some f →
  hwp (list_hash l hash) m (λ r m', m' = m ∧
    r = (0, foldl (hash_step f (blocks m) (numels l) hash) (wrap_s32 (numels l * 2 + 100)) xs)).
Proof using Hr.
  intros Hh. unfold list_hash. rewrite Hh. destruct (rep_first _ _ _ _ Hr) as (n & Hn & Hnext).
  apply hwp_bind, Hnext. apply hwp_bind.
  apply (hash_loop_wp _ _ _ _ 0 _ n); [done|rewrite (rounds_enough _ _ _ _ Hr); lia|].
  apply hwp_ret. by rewrite drop_0.
Qed.
End hash.

(** ** Creating *)

Section create.
Context `{Allocator}.

(** When memory is given, a new list is empty and has nodes that were not in use;
    otherwise the code writes through NULL. *)
Lemma list_init_wp m :
  (list_init m = Fault NullDeref ∧ ∃ e, alloc_entry e = None) ∨
  hwp list_init m (λ r m', r.1 = 0 ∧ rep m' r.2 [] [] ∧
    r.2 = L (head_sentinel r.2) (tail_sentinel r.2) 0 0 [] false 0 0 (Attrs None None None false None None None) ∧
    changes [] m m' ∧ (∀ p, p ∈ foot r.2 [] → entries m !! p = None)).
Proof.
  destruct (alloc_entry (entries m)) as [[h c]|] eqn:Eh.
  2: { left. split; [|by eexists]. unfold list_init, mbind, hm_bind, new_entry. by rewrite !Eh. }
  destruct (alloc_entry_fresh _ _ _ Eh) as [Hh Hhn]. set (m1 := Mem (<[h := c]> (entries m)) (blocks m) (draws m)).
  assert (node m1 h) as Hn1 by (split; [done|]; simpl; rewrite lookup_insert_eq; by eexists).
  assert (new_entry m = Done (h, m1)) as E1 by (unfold new_entry; by rewrite Eh).
  destruct (alloc_entry (entries m1)) as [[t d]|] eqn:Et.
  2: { left. split; [|by eexists]. unfold list_init. unfold mbind at 1, hm_bind at 1. rewrite E1.
       unfold mbind at 1, hm_bind at 1. unfold new_entry. rewrite Et.
       unfold mbind at 1, hm_bind at 1, set_next, modify. rewrite (proj2 (Z.eqb_neq h 0)) by done.
       simpl entries. rewrite lookup_insert_eq. reflexivity. }
  destruct (alloc_entry_fresh _ _ _ Et) as [Ht Htn]. simpl in Htn.
  assert (h ≠ t) as Hne by (intros ->; by rewrite lookup_insert_eq in Htn).
  rewrite lookup_insert_ne in Htn by done.
  set (m2 := Mem (<[t := d]> (entries m1)) (blocks m1) (draws m1)).
  assert (new_entry m1 = Done (t, m2)) as E2 by (unfold new_entry; by rewrite Et).
  assert (node m2 h) as Hn2.
  { split; [done|]. simpl. rewrite lookup_insert_ne, lookup_insert_eq by done. by eexists. }
  assert (node m2 t) as Ht2 by (split; [done|]; simpl; rewrite lookup_insert_eq; by eexists).
  right. unfold list_init. apply hwp_bind. eapply hwp_run; [exact E1|].
  apply hwp_bind. eapply hwp_run; [exact E2|].
  do 6 (apply hwp_bind, hwp_modify; [auto 10 with heap|]).
  change (upd (put_prev h) t (upd (put_next t) h m2)) with (link h t m2).
  apply hwp_ret. split_and!; [done| |done| |].
  - simpl. constructor; simpl; try done.
    + split; [|done]. split; repeat (rewrite ?nxt_set_data, ?prv_set_data, ?nxt_set_prev, ?prv_set_next).
      * rewrite nxt_set_next_ne by done. by apply nxt_link_eq.
      * rewrite prv_set_prev_ne by done. rewrite prv_set_next. by apply prv_link_eq.
    + split; repeat (rewrite ?nxt_set_data, ?prv_set_data, ?nxt_set_prev, ?prv_set_next).
      * apply prv_set_prev_eq. auto 10 with heap.
      * apply nxt_set_next_eq. auto 10 with heap.
    + split; [apply dat_set_data_eq; auto 10 with heap|].
      rewrite dat_set_data_ne by done. apply dat_set_data_eq. auto 10 with heap.
    + unfold foot, all. simpl. repeat constructor; set_solver.
    + unfold foot, all. simpl. apply Forall_cons; split; [auto 10 with heap|].
      apply Forall_cons; split; [auto 10 with heap|done].
  - split; [|done]. intros p _ Hp. assert (p ≠ h ∧ p ≠ t) as [? ?].
    { split; intros ->; [rewrite Hhn in Hp|rewrite Htn in Hp]; by destruct Hp. }
    simpl. by rewrite !lookup_alter_ne, !lookup_insert_ne by done.
  - intros p Hp. unfold foot, all in Hp. simpl in Hp.
    apply elem_of_cons in Hp as [->|Hp]; [done|]. apply list_elem_of_singleton in Hp as ->. done.
Qed.
End create.

(** ** Clearing *)

Lemma link_lookup p q m m' x :
  entries m' !! x = entries m !! x → entries (link p q m') !! x = entries (link p q m) !! x.
Proof. intros Hx. simpl. rewrite !lookup_alter. repeat case_decide; subst; simpl in *; congruence. Qed.

Section clear.
Context (m : mem) (l : list_t) (ps xs : list Z) (Hr : rep m l ps xs).

(** [l] with the first [i] nodes as spare ones *)
Definition spared (i : nat) : list_t := with_spareels (rev (take i ps) ++ spareels l) l.

Lemma clear_spare_wp fuel i el (P : Z * list_t → mem → Prop) :
  all l ps !! S i = Some el → (length xs - i < fuel)%nat →
  spareelsnum (spared i) <= SIMCLIST_MAX_SPARE_ELEMS →
  (∀ k s, all l ps !! S k = Some s → spareelsnum (spared k) <= SIMCLIST_MAX_SPARE_ELEMS → P (s, spared k) m) →
  hwp (clear_spare fuel (spared i) el) m P.
Proof using Hr.
  revert i el. induction fuel as [|fuel IH]; intros i el Hi Hf Hs HP; [lia|]. simpl.
  destruct (rep_cursor _ _ _ _ Hr i el Hi) as [[-> ->]|(x & nx & Hlt & Hne & Hx & Hp & Hn)].
  - rewrite Z.eqb_refl, andb_false_r. by apply hwp_ret, HP.
  - rewrite (proj2 (Z.eqb_neq _ _)) by done. rewrite andb_true_r.
    destruct (Z.ltb_spec (spareelsnum (spared i)) SIMCLIST_MAX_SPARE_ELEMS) as [Hlt'|Hge]; [|by apply hwp_ret, HP].
    apply hwp_bind, free_copy_wp; [apply (rep_copy _ _ _ _ Hr)|].
    apply hwp_bind, (rep_next _ _ _ _ Hr (S i) el nx); [by apply all_lookup_node|done|].
    assert (with_spareels (el :: rev (take i ps) ++ spareels l) (spared i) = spared (S i)) as ->.
    { unfold spared. by rewrite (take_S_r _ _ _ Hp), rev_app_distr. }
    apply (IH (S i)); [done|lia| |done].
    unfold spareelsnum, spared in *. simpl in *. rewrite (take_S_r _ _ _ Hp), rev_app_distr. simpl. lia.
Qed.

Lemma clear_free_wp fuel i el m1 l' (P : unit → mem → Prop) :
  tail_sentinel l' = tail_sentinel l → copy_data (attrs l') = false →
  all l ps !! S i = Some el → (length xs - i < fuel)%nat →
  (∀ x, x ∉ take i ps → entries m1 !! x = entries m !! x) → blocks m1 = blocks m →
  (∀ m', (∀ x, x ∉ drop i ps → entries m' !! x = entries m1 !! x) → blocks m' = blocks m → P tt m') →
  hwp (clear_free fuel l' el) m1 P.
Proof using Hr.
  intros Ht Hcp. revert i el m1. induction fuel as [|fuel IH]; intros i el m1 Hi Hf Hm1 Hb HP; [lia|]. simpl.
  rewrite Ht. destruct (rep_cursor _ _ _ _ Hr i el Hi) as [[-> ->]|(x & nx & Hlt & Hne & Hx & Hp & Hn)].
  - rewrite Z.eqb_refl. by apply hwp_ret, HP.
  - rewrite (proj2 (Z.eqb_neq _ _)) by done.
    pose proof (rep_nodup _ _ _ _ Hr) as Hnd. unfold foot in Hnd. apply NoDup_app in Hnd as (Hnd & _ & _).
    assert (∀ j y, all l ps !! j = Some y → (i < j)%nat → y ∉ take i ps) as Hout.
    { intros j y Hj Hij (k & Hk)%list_elem_of_lookup_1. apply lookup_take_Some in Hk as [Hk Hki].
      apply all_lookup_node with (l := l) in Hk. assert (j = S k) by by eapply NoDup_lookup. lia. }
    assert (∀ y, y ∉ take i ps → nxt m1 y = nxt m y ∧ prv m1 y = prv m y ∧ (node m y → node m1 y)) as Hsame.
    { intros y Hy. unfold nxt, prv, node. by rewrite Hm1. }
    pose proof (all_lookup_node l ps i el Hp) as Ha.
    destruct (rep_linked _ _ _ _ Hr _ _ _ Ha Hn) as [Hnx Hpv].
    pose proof (Hout _ _ Ha ltac:(lia)) as Helo. pose proof (Hout _ _ Hn ltac:(lia)) as Hnxo.
    destruct (Hsame el Helo) as (N1 & _ & N3), (Hsame nx Hnxo) as (_ & Q2 & Q3).
    apply hwp_bind, free_copy_wp; [done|].
    pose proof (N3 (rep_node _ _ _ _ Hr _ _ Ha)) as Hnode.
    apply hwp_bind, (hwp_get_next _ _ nx); [done|by rewrite N1|].
    apply hwp_bind, (hwp_get_prev _ _ el); [apply Q3, (rep_node _ _ _ _ Hr _ _ Hn)|by rewrite Q2|].
    apply hwp_bind. unfold hwp at 1, free_entry. destruct Hnode as [_ [c Hc]]. rewrite Hc.
    apply (IH (S i) nx); [done|lia| |done|].
    + intros y Hy. rewrite (take_S_r _ _ _ Hp) in Hy. simpl.
      rewrite lookup_delete_ne by set_solver. apply Hm1. set_solver.
    + intros m' Hm' Hb'. apply HP; [|done]. intros y Hy. rewrite (drop_cons_lookup _ _ _ Hp) in Hy.
      rewrite Hm' by set_solver. simpl. apply lookup_delete_ne. set_solver.
Qed.

Lemma list_clear_wp :
  iter_active l = false →
  hwp (list_clear l) m (λ r m', r.1 = 0 ∧ gives m l ps m' r.2 [] ∧ numels r.2 = 0 ∧ mid r.2 = 0).
Proof using Hr.
  intros Hit. unfold list_clear. rewrite Hit. destruct (rep_first _ _ _ _ Hr) as (n & Hn & Hnext).
  apply hwp_bind, Hnext. apply hwp_bind. rewrite (rounds_enough _ _ _ _ Hr).
  assert (spared 0 = l) as Hl by apply with_spareels_same.
  replace (clear_spare (S (length xs)) l n) with (clear_spare (S (length xs)) (spared 0) n) by by rewrite Hl.
  apply (clear_spare_wp _ 0 n); [done|lia|rewrite Hl; apply (rep_spare _ _ _ _ Hr)|].
  intros k s Hs Hsp. apply hwp_bind.
  assert (rounds (spared k) = S (length xs)) as -> by apply (rounds_enough _ _ _ _ Hr).
  apply (clear_free_wp _ k s); [done|apply (rep_copy _ _ _ _ Hr)|done|lia|done|done|].
  intros m2 Hm2 Hb2.
  pose proof (rep_nodup _ _ _ _ Hr) as Hnd. unfold foot in Hnd.
  assert (∀ x, x ∈ all l [] → entries m2 !! x = entries m !! x) as Hends.
  { intros x Hx. apply Hm2. intros Hd. assert (x ∈ ps) as Hps by (rewrite <-(take_drop k ps); set_solver).
    apply NoDup_app in Hnd as (Hnd & _ & _). unfold all in Hnd, Hx. simpl in Hnd, Hx.
    apply NoDup_cons in Hnd as [Hh Hnd]. apply NoDup_app in Hnd as (_ & Ht & _).
    apply elem_of_cons in Hx as [->|Hx]; [set_solver|]. by eapply Ht. }
  assert (node m2 (head_sentinel l) ∧ node m2 (tail_sentinel l)) as [Hh2 Ht2].
  { split; (split; [eapply (rep_node _ _ _ _ Hr), (all_lookup_head l ps) ||
                    eapply (rep_node _ _ _ _ Hr), (all_lookup_tail l ps)|]);
    rewrite Hends by (unfold all; set_solver);
    [eapply (rep_node _ _ _ _ Hr), (all_lookup_head l ps)|eapply (rep_node _ _ _ _ Hr), (all_lookup_tail l ps)]. }
  apply hwp_bind, hwp_modify; [done|]. apply hwp_bind, hwp_modify; [auto with heap|].
  change (upd (put_prev (head_sentinel (spared k))) _ _) with (link (head_sentinel l) (tail_sentinel l) m2).
  apply hwp_ret. split_and!; [done| |done|done]. exists [].
  assert (∀ x, x ∈ rev (take k ps) ++ spareels l → x ∈ ps ∨ x ∈ spareels l) as Hsub.
  { intros x [Hx|Hx]%elem_of_app; [left|by right]. rewrite <-(take_drop k ps).
    rewrite list_elem_of_In, <-in_rev, <-list_elem_of_In in Hx. set_solver. }
  assert (NoDup (rev (take k ps) ++ spareels l ++ drop k ps ++ [head_sentinel l; tail_sentinel l])) as Hnd'.
  { revert Hnd. apply NoDup_Permutation_proper.
    rewrite <-Permutation_rev. unfold all. rewrite <-(take_drop k ps) at 3. simpl. rewrite <-!app_assoc. solve_Permutation. }
  split_and!; [| | |done|done].
  - change (with_mid 0 (with_numels 0 (spared k)))
      with (refit l (rev (take k ps) ++ spareels l) (Z.of_nat (length (@nil Z ++ []))) 0).
    pose proof Hr as Hr'. replace ps with ([] ++ ps ++ []) in Hr' at 1 by by rewrite app_nil_r.
    replace xs with ([] ++ xs ++ []) in Hr' at 1 by by rewrite app_nil_r.
    apply (remove_rep m l [] ps [] [] xs [] Hr' eq_refl (rep_length _ _ _ _ Hr) [] [] (head_sentinel l)
             (tail_sentinel l) eq_refl eq_refl); try done.
    + intros x Hx. by apply link_lookup, Hends.
    + rewrite app_assoc in Hnd'. by apply NoDup_app in Hnd' as (? & _ & _).
    + intros x Hx. apply node_link. pose proof (rep_nodes _ _ _ _ Hr) as Hns. rewrite Forall_forall in Hns.
      assert (x ∈ foot l ps) as Hxf by (unfold foot, all; destruct (Hsub x Hx); set_solver).
      destruct (Hns x Hxf) as [H0 H1]. split; [done|]. rewrite Hm2; [done|]. intros Hd.
      rewrite app_assoc in Hnd'. apply NoDup_app in Hnd' as (_ & Hdj & _). apply (Hdj x Hx). set_solver.
  - assert (changes (foot l ps) m m2) as Hc.
    { split; [|done]. intros p Hp _. apply Hm2. intros Hd. apply Hp. unfold foot, all.
      rewrite <-(take_drop k ps). set_solver. }
    apply (changes_trans _ (foot l ps) _ _ _ Hc); [|eauto].
    apply changes_link; unfold foot, all; set_solver.
  - intros p Hp. left. unfold foot, all in *. simpl in Hp. specialize (Hsub p).
    set_solver.
Qed.
End clear.

(** ** Ranges *)

(** The nodes [es] follow each other and [q] follows them. *)
Fixpoint nexts (m : mem) (es : list Z) (q : Z) : Prop :=
  match es with
  | [] => True
  | e :: es => node m e ∧ nxt m e = Some (hd q es) ∧ nexts m es q
  end.

Lemma nexts_ext m m' es q :
  (∀ x, x ∈ es → entries m' !! x = entries m !! x) → nexts m es q → nexts m' es q.
Proof.
  induction es as [|e es IH]; [done|]. intros He (Hn & Hx & Hs). simpl. unfold node, nxt in *.
  rewrite He by left. destruct Hn. split_and!; [done|done|done|]. apply IH; [|done]. intros. apply He. by right.
Qed.

Lemma chain_nexts m es q b : Forall (node m) es → chain m (es ++ q :: b) → nexts m es q.
Proof.
  induction es as [|e es IH]; [done|]. intros [Hn Hns]%Forall_cons [Hl Hc].
  split_and!; [done| |by apply IH]. destruct es; apply Hl.
Qed.

Lemma delete_nodes_wp es m l q (P : Z * list_t → mem → Prop) :
  nexts m es q → NoDup es → (∀ x, x ∈ es → x ∉ spareels l) → NoDup (spareels l) →
  spareelsnum l <= SIMCLIST_MAX_SPARE_ELEMS → copy_data (attrs l) = false →
  (∀ l' m', shed es m l m' l' → P (q, l') m') →
  hwp (delete_nodes (length es) l (hd q es)) m P.
Proof.
  revert m l P. induction es as [|e es IH]; intros m l P Hnx Hnd Hdj Hs Hsl Hcp HP.
  { by apply hwp_ret, HP, shed_nil. }
  destruct Hnx as (Hne & Hx & Hnx). apply NoDup_cons in Hnd as [He Hnd]. simpl.
  apply hwp_bind, (hwp_get_next _ _ (hd q es)); [done..|].
  apply hwp_bind, free_copy_wp; [done|].
  apply hwp_bind, spare_or_free_wp; [done|apply Hdj; by left|done|done|].
  intros l1 m1 Hs1. pose proof Hs1 as [L1 N1 S1 E1 M1 B1]. apply IH; [|done| |done|done| |].
  - apply (nexts_ext m); [|done]. intros x Hxin. apply E1. right. set_solver.
  - intros x Hxin Hxs. destruct (S1 x Hxs) as [->%list_elem_of_singleton|Hxs']; [done|].
    apply (Hdj x); [by right|done].
  - by rewrite L1.
  - intros l2 m2 Hs2. apply HP. by eapply shed_cons.
Qed.

Section delete_range.
Context (m : mem) (l : list_t) (u es v xu xes xv : list Z).
Context (Hr : rep m l (u ++ es ++ v) (xu ++ xes ++ xv)).
Context (Hu : length u = length xu) (Hes : length es = length xes).
Context (Hne : es ≠ []) (Hrest : u ++ v ≠ []).
Context (Hit : iter_active l = false) (Hmax : numels l < max_numels).

Let n := Z.of_nat (length (u ++ v)).
Let posstart := Z.of_nat (length u).
Let numdel := Z.of_nat (length es).

(** The walk to the new middle. *)
Lemma range_mid (P : Z → mem → Prop) :
  P (mid_of (u ++ v)) m →
  let midposafter := wrap_u32 (numels l - 1 - numdel) / 2 in
  let midposafter := if midposafter <? posstart then midposafter else wrap_u32 (midposafter + numdel) in
  let movedx := wrap_s32 (midposafter - mid_index l) in
  hwp (if 0 <? movedx then walk e_next (Z.to_nat movedx) (mid l)
       else walk e_prev (Z.to_nat (- movedx)) (mid l)) m P.
Proof using All.
  intros HP. pose proof (rep_numels _ _ _ _ Hr) as Hn. unfold max_numels in Hmax.
  assert (u ++ es ++ v ≠ []) as Hne' by (destruct u; [destruct es|]; done).
  pose proof (rep_mid_lookup _ _ _ _ Hr Hne') as Hmid. set (ps := u ++ es ++ v) in *.
  assert (length ps = length (u ++ v) + length es)%nat as Hlen by (unfold ps; rewrite !length_app; lia).
  assert (0 < length (u ++ v))%nat as H0 by (destruct (u ++ v); simpl; [done|lia]).
  set (h := ((length ps - 1) / 2)%nat) in *. set (h' := ((length (u ++ v) - 1) / 2)%nat).
  assert (2 * h <= length ps - 1 < 2 * h + 2)%nat as Hh
    by (pose proof (Nat.div_mod_eq (length ps - 1) 2); pose proof (Nat.mod_upper_bound (length ps - 1) 2); lia).
  assert (2 * h' <= length (u ++ v) - 1 < 2 * h' + 2)%nat as Hh'
    by (pose proof (Nat.div_mod_eq (length (u ++ v) - 1) 2); pose proof (Nat.mod_upper_bound (length (u ++ v) - 1) 2); lia).
  assert (wrap_u32 (numels l - 1 - numdel) / 2 = Z.of_nat h') as ->.
  { unfold numdel. rewrite wrap_u32_small by lia. Z.to_euclidean_division_equations; lia. }
  assert (mid_index l = Z.of_nat h) as ->.
  { unfold mid_index. rewrite wrap_u32_small by lia. Z.to_euclidean_division_equations; lia. }
  set (i := if Nat.ltb h' (length u) then h' else (h' + length es)%nat).
  assert (ps !! i = Some (mid_of (u ++ v))) as Hi.
  { destruct (lookup_lt_is_Some_2 (u ++ v) h') as [x Hx]; [lia|]. unfold mid_of. fold h'. rewrite Hx. simpl.
    rewrite <-Hx. unfold i, ps. destruct (Nat.ltb_spec h' (length u)).
    - by rewrite !lookup_app_l by lia.
    - rewrite !lookup_app_r by lia. f_equal. lia. }
  assert ((if Z.of_nat h' <? posstart then Z.of_nat h' else wrap_u32 (Z.of_nat h' + numdel)) = Z.of_nat i) as Hiz.
  { unfold i, posstart, numdel. destruct (Nat.ltb_spec h' (length u)).
    - by rewrite (proj2 (Z.ltb_lt _ _)) by lia.
    - rewrite (proj2 (Z.ltb_ge _ _)) by lia. rewrite wrap_u32_small by lia. lia. }
  cbv zeta. rewrite Hiz. pose proof (lookup_lt_Some _ _ _ Hi).
  rewrite wrap_s32_small by lia. apply (all_lookup_node l) in Hi.
  pose proof (rep_chain _ _ _ _ Hr) as Hc. pose proof (rep_all_nodes _ _ _ _ Hr) as Hns.
  destruct (Z.ltb_spec 0 (Z.of_nat i - Z.of_nat h)).
  - eapply hwp_run; [|exact HP]. apply (walk_next_run m _ Hc Hns _ (S h)); [done|]. rewrite <-Hi. f_equal. lia.
  - eapply hwp_run; [|exact HP]. apply (walk_prev_run m _ Hc Hns _ (S i)); [|done]. rewrite <-Hmid. f_equal. lia.
Qed.

Lemma list_delete_range_wp :
  hwp (list_delete_range l posstart (posstart + numdel - 1)) m (λ r m',
    r.1 = 0 ∧ gives m l (u ++ es ++ v) m' r.2 (xu ++ xv)).
Proof using All.
  pose proof (rep_numels _ _ _ _ Hr) as Hn.
  assert (0 < length es)%nat as H0 by (destruct es; simpl; [done|lia]).
  assert (numels l = n + numdel) as Hnl by (unfold n, numdel; rewrite Hn, !length_app; lia).
  assert (0 <= n - posstart) as Hup by (unfold n, posstart; rewrite length_app; lia).
  unfold list_delete_range. rewrite Hit, (proj2 (Z.ltb_ge _ posstart)), (proj2 (Z.leb_gt (numels l) _)) by lia.
  simpl orb. cbn iota.
  destruct (ends_split l u v) as (a & p & q & b & Ha & Hb).
  assert (all l (u ++ es ++ v) = a ++ p :: es ++ q :: b) as Hall.
  { unfold all. rewrite <-!app_assoc, Hb, app_comm_cons, Ha, <-app_assoc. done. }
  assert (length u = length a) as Hlu.
  { apply (f_equal length) in Ha. rewrite length_app in Ha. simpl in Ha. lia. }
  assert (∃ e es', es = e :: es') as (e & es' & Hes') by (destruct es; [done|eauto]).
  assert (all l (u ++ es ++ v) !! S (length u) = Some e) as He.
  { rewrite Hall, Hes', lookup_app_r by lia. by replace (S (length u) - length a)%nat with 1%nat by lia. }
  assert (all l (u ++ es ++ v) !! length u = Some p) as Hp.
  { rewrite Hall, lookup_app_r by lia. by replace (length u - length a)%nat with 0%nat by lia. }
  apply hwp_bind. apply (hwp_findpos _ _ _ _ Hr _ (S (length u)) e); [done| |done|].
  { unfold max_numels in *. rewrite wrap_s32_small by (unfold posstart in *; lia). unfold posstart. lia. }
  apply hwp_bind, (rep_prev _ _ _ _ Hr (length u) p e); [done..|].
  apply hwp_bind. replace (posstart + numdel - 1 - posstart + 1) with numdel by lia.
  apply range_mid. apply hwp_bind. unfold numdel. rewrite Nat2Z.id.
  pose proof (rep_nodup _ _ _ _ Hr) as Hnd. pose proof (rep_nodes _ _ _ _ Hr) as Hns.
  unfold foot in Hnd, Hns. rewrite Hall in Hnd, Hns. pose proof (rep_chain _ _ _ _ Hr) as Hc. rewrite Hall in Hc.
  apply chain_app in Hc as [_ Hc]. destruct Hc as [_ Hc]. pose proof Hns as Hns'. rewrite Forall_forall in Hns'.
  pose proof Hnd as Hnd0. apply NoDup_app in Hnd as (Hnd & Hdj & Hsnd). apply NoDup_app in Hnd as (_ & Hda & Hnd).
  apply NoDup_cons in Hnd as [Hpn Hnd]. apply NoDup_app in Hnd as (Hesnd & Hesd & _).
  replace e with (hd q es) by by rewrite Hes'.
  eapply delete_nodes_wp.
  - apply (chain_nexts m es q b); [|done]. apply Forall_forall. intros x Hx. apply Hns'. set_solver.
  - done.
  - intros x Hx. simpl. apply Hdj. set_solver.
  - done.
  - apply (rep_spare _ _ _ _ Hr).
  - apply (rep_copy _ _ _ _ Hr).
  - intros l2 m2 Hs2. destruct Hs2 as [L2 N2 S2 E2 M2 B2].
    assert (node m2 p ∧ node m2 q) as [Hp2 Hq2].
    { assert (∀ x, x ∉ es → node m x → node m2 x) as Hk by (intros x Hx [? ?]; split; [done|]; rewrite E2; auto).
      split; apply Hk; [set_solver|apply Hns'; set_solver| |apply Hns'; set_solver].
      intros Hq. apply (Hesd q Hq). by left. }
    apply hwp_bind, hwp_modify; [done|]. apply hwp_bind, hwp_modify; [auto with heap|].
    change (upd (put_prev p) q _) with (link p q m2). apply hwp_ret. split; [done|]. exists (u ++ v).
    assert (wrap_u32 (numels l2 - Z.of_nat (length es)) = Z.of_nat (length (u ++ v))) as Hwn.
    { rewrite L2. simpl. unfold max_numels in *. rewrite wrap_u32_small by (unfold numdel, n in *; lia).
      unfold numdel, n in *. lia. }
    split_and!.
    + simpl. rewrite Hwn, L2.
      change (with_numels _ _) with (refit l (spareels l2) (Z.of_nat (length (u ++ v))) (mid_of (u ++ v))).
      apply (remove_rep m l u es v xu xes xv Hr Hu Hes a b p q Ha Hb); try done.
      * intros x Hx. apply link_lookup, E2. right. rewrite (all_split l u v a p q b Ha Hb) in Hx.
        intros Hxe. apply elem_of_app in Hx as [Hx|Hx]; [apply (Hda x Hx); set_solver|].
        apply elem_of_cons in Hx as [->|Hx]; [set_solver|]. by apply (Hesd x Hxe).
      * intros x Hx. apply node_link. assert (node m x) as [Hx0 Hx1].
        { apply Hns'. destruct (S2 x Hx); set_solver. }
        split; [done|]. rewrite E2; auto.
    + assert (changes (foot l (u ++ es ++ v)) m m2) as Hch.
      { split; [|done]. intros x Hx _. apply E2. right. intros Hxe. apply Hx. unfold foot, all. set_solver. }
      apply (changes_trans _ (foot l (u ++ es ++ v)) _ _ _ Hch); [|eauto].
      apply changes_link; unfold foot; rewrite Hall; set_solver.
    + intros x Hx. left. unfold foot, all in *. rewrite L2 in Hx. simpl in Hx. specialize (S2 x). set_solver.
    + rewrite L2. done.
    + rewrite L2. done.
Qed.
End delete_range.

Lemma walk_prev_off m ls i p k :
  chain m ls → Forall (node m) ls → prv m (hd 0 ls) = Some 0 → ls !! i = Some p →
  walk e_prev (S (S (i + k))) p m = Fault NullDeref.
Proof.
  intros Hc Hns H0. revert p. induction i as [|i IH]; intros p Hp.
  - pose proof (proj1 (Forall_lookup _ _) Hns _ _ Hp) as Hn. destruct (load_run m p Hn) as (c & Hc' & Hl).
    simpl. unfold mbind at 1, hm_bind at 1. rewrite Hl. unfold mbind, hm_bind.
    destruct ls; simplify_eq/=. unfold prv in H0. rewrite Hc' in H0. injection H0 as ->. done.
  - pose proof (proj1 (Forall_lookup _ _) Hns _ _ Hp) as Hn. destruct (load_run m p Hn) as (c & Hc' & Hl).
    destruct (lookup_lt_is_Some_2 ls i) as [q Hq]; [apply lookup_lt_Some in Hp; lia|].
    destruct (chain_lookup m ls i q p Hc Hq Hp) as [_ Hpv]. unfold prv in Hpv. rewrite Hc' in Hpv. injection Hpv as Hpv.
    change (S (S (S i + k))) with (S (S (S (i + k)))).
    change (walk e_prev (S (S (S (i + k)))) p) with (e ← load p; walk e_prev (S (S (i + k))) (e_prev e)).
    unfold mbind, hm_bind. rewrite Hl, Hpv. by apply IH.
Qed.

(** Deleting the whole list: the new middle is computed from an empty list, and the walk to
    it leaves the list. *)
Lemma list_delete_range_all m l ps xs :
  rep m l ps xs → ps ≠ [] → iter_active l = false → numels l < max_numels →
  list_delete_range l 0 (numels l - 1) m = Fault NullDeref.
Proof.
  intros Hr Hne Hit Hmax. pose proof (rep_numels _ _ _ _ Hr) as Hn. unfold max_numels in Hmax.
  assert (0 < length ps)%nat as H0 by (destruct ps; simpl; [done|lia]).
  destruct (lookup_lt_is_Some_2 (all l ps) 1) as [e He].
  { unfold all. simpl. rewrite length_app. simpl. lia. }
  unfold list_delete_range. rewrite Hit, (proj2 (Z.ltb_ge _ 0)), (proj2 (Z.leb_gt (numels l) _)) by lia.
  cbv [orb]. unfold mbind at 1, hm_bind at 1. cbv beta iota.
  pose proof (findpos_run m l ps xs Hr) as Hf. specialize (Hf ltac:(unfold max_numels; lia) 1%nat e He).
  change (Z.of_nat 1 - 1) with (wrap_s32 0) in Hf. rewrite Hf.
  destruct (hwp_elim _ _ _ (rep_prev _ _ _ _ Hr 0 (head_sentinel l) e (λ x m', x = head_sentinel l ∧ m' = m)
    (all_lookup_head l ps) He (conj eq_refl eq_refl))) as (x & m' & Hg & -> & ->).
  unfold mbind at 1, hm_bind at 1. rewrite Hg. cbv zeta.
  replace (numels l - 1 - 0 + 1) with (numels l) by lia.
  replace (numels l - 1 - numels l) with (-1) by lia. change (wrap_u32 (-1) / 2) with (2 ^ 31 - 1).
  change (2 ^ 31 - 1 <? 0) with false. cbn iota.
  assert (mid_index l = (numels l - 1) / 2) as -> by (unfold mid_index; rewrite wrap_u32_small by lia; done).
  rewrite (wrap_u32_small (2 ^ 31 - 1 + numels l)) by lia.
  assert (wrap_s32 (2 ^ 31 - 1 + numels l - (numels l - 1) / 2) = numels l - (numels l - 1) / 2 - 1 - 2 ^ 31) as ->.
  { unfold wrap_s32. change (2 ^ 32) with (2 * 2 ^ 31). Z.to_euclidean_division_equations; lia. }
  rewrite (proj2 (Z.ltb_ge 0 _)) by (Z.to_euclidean_division_equations; lia).
  set (k := Z.to_nat (- (numels l - (numels l - 1) / 2 - 1 - 2 ^ 31))).
  set (i := S ((length ps - 1) / 2)).
  assert (i <= length ps)%nat as Hi.
  { unfold i. pose proof (Nat.div_le_upper_bound (length ps - 1) 2 (length ps - 1)). lia. }
  assert (Z.of_nat k >= 2 ^ 30) as Hk by (unfold k; Z.to_euclidean_division_equations; lia).
  assert (k = S (S (i + (k - i - 2)))) as -> by lia.
  unfold mbind at 1, hm_bind at 1.
  rewrite (walk_prev_off m (all l ps) i (mid l)); [done|apply (rep_chain _ _ _ _ Hr)|by eapply rep_all_nodes|
    apply (rep_ends _ _ _ _ Hr)|by eapply rep_mid_lookup].
Qed.

(** ** The checks of a debugging build *)

Section repok.
Context (m : mem) (l : list_t) (ps xs : list Z) (Hr : rep m l ps xs).

Lemma rep_walk_wp fuel bound i p (P : Z * Z → mem → Prop) :
  all l ps !! i = Some p →
  (S (S (length ps)) - i < fuel)%nat →
  (let j := match bound with Some b => Z.to_nat (b + 1) | None => S (length ps) end in
   (i <= j <= S (length ps))%nat ∧ ∀ q, all l ps !! j = Some q → P (Z.of_nat j - 1, q) m) →
  hwp (rep_walk fuel bound (Z.of_nat i - 1) p) m P.
Proof using Hr.
  revert i p. induction fuel as [|fuel IH]; intros i p Hp Hf [Hj HP]; [lia|]. simpl.
  set (j := match bound with Some b => Z.to_nat (b + 1) | None => S (length ps) end) in *.
  destruct (decide (i = j)) as [Hij|Hij].
  - specialize (HP p). rewrite <-Hij in HP. specialize (HP Hp).
    destruct bound as [b|]; simpl.
    { rewrite (proj2 (Z.ltb_ge _ _)) by lia. by apply hwp_ret. }
    unfold j in Hij. rewrite Hij in Hp. rewrite all_lookup_tail in Hp. simplify_eq.
    apply hwp_bind, (hwp_get_next _ _ 0).
    + eapply (rep_node _ _ _ _ Hr), all_lookup_tail.
    + apply (rep_ends _ _ _ _ Hr).
    + rewrite Z.eqb_refl. by apply hwp_ret.
  - destruct (lookup_lt_is_Some_2 (all l ps) (S i)) as [q Hq].
    { unfold all. simpl. rewrite length_app. simpl. lia. }
    assert (match bound with Some b => Z.of_nat i - 1 <? b | None => true end = true) as ->.
    { destruct bound; [|done]. apply Z.ltb_lt. lia. }
    apply hwp_bind, (rep_next _ _ _ _ Hr i p q); [done..|].
    pose proof (rep_node _ _ _ _ Hr _ _ Hq) as [Hq0 _]. rewrite (proj2 (Z.eqb_neq q 0)) by done.
    apply hwp_bind, (rep_prev _ _ _ _ Hr i p q); [done..|]. rewrite Z.eqb_refl.
    replace (Z.of_nat i - 1 + 1) with (Z.of_nat (S i) - 1) by lia. apply IH; [done|lia|].
    split; [|done]. fold j. lia.
Qed.

(** On a list that is represented the check fails only for an empty list whose middle is not
    NULL. *)
Lemma list_repOk_wp :
  hwp (list_repOk l) m (λ r m', m' = m ∧ r = bool_decide (xs ≠ [] ∨ mid l = 0)).
Proof using Hr.
  pose proof (rep_numels _ _ _ _ Hr) as Hn. pose proof (rep_length _ _ _ _ Hr) as Hl.
  pose proof (rep_node _ _ _ _ Hr _ _ (all_lookup_head l ps)) as Hh.
  pose proof (rep_node _ _ _ _ Hr _ _ (all_lookup_tail l ps)) as Ht.
  destruct (rep_ends _ _ _ _ Hr) as [Hhp Htn]. pose proof (rep_spare _ _ _ _ Hr) as Hs.
  assert (head_sentinel l ≠ tail_sentinel l) as Hht.
  { pose proof (rep_nodup _ _ _ _ Hr) as Hnd. unfold foot, all in Hnd. simpl in Hnd.
    apply NoDup_cons in Hnd as [Hnd _]. set_solver. }
  unfold list_repOk. rewrite (proj2 (Z.eqb_neq _ 0) (proj1 Hh)), (proj2 (Z.eqb_neq _ 0) (proj1 Ht)).
  rewrite (proj2 (Z.eqb_neq _ _) Hht). simpl orb. cbn iota.
  apply hwp_bind, (hwp_get_prev _ _ 0); [done..|]. apply hwp_bind, (hwp_get_next _ _ 0); [done..|].
  destruct (rep_first _ _ _ _ Hr) as (n1 & Hn1 & Hnext). apply hwp_bind, Hnext.
  destruct (lookup_lt_is_Some_2 (all l ps) (length ps)) as [n2 Hn2].
  { unfold all. simpl. rewrite length_app. simpl. lia. }
  apply hwp_bind, (rep_prev _ _ _ _ Hr (length ps) n2 _); [done|apply all_lookup_tail|].
  rewrite Z.eqb_refl. simpl andb. simpl negb. cbn iota.
  rewrite (proj2 (Z.leb_le _ _) Hs). simpl negb.
  assert (xs = [] ∨ ps ≠ [] ∧ xs ≠ []) as [He|[Hne Hnx]].
  { destruct xs, ps; try done; [by left|by right]. }
  - assert (ps = []) as Hpe by (destruct ps; [done|rewrite He in Hl; done]).
    rewrite Hpe in Hn, Hn1, Hn2. simpl in Hn, Hn1, Hn2. simplify_eq. rewrite Hn. simpl.
    rewrite !Z.eqb_refl, !andb_true_r. case_bool_decide as Hd.
    + destruct Hd as [|Hd]; [done|]. rewrite Hd. simpl. by apply hwp_ret.
    + destruct (Z.eqb_spec (mid l) 0); [tauto|]. simpl. by apply hwp_ret.
  - assert (0 < length ps)%nat by (destruct ps; simpl; [done|lia]).
    rewrite bool_decide_eq_true_2 by auto. rewrite (proj2 (Z.ltb_lt 0 _)) by lia. simpl negb. cbn iota.
    rewrite (proj2 (Z.leb_le 1 _)) by lia.
    assert ((numels l - 1) / 2 = Z.of_nat ((length ps - 1) / 2)) as Hmid.
    { rewrite Hn, Nat2Z.inj_div, Nat2Z.inj_sub by lia. done. }
    assert ((length ps - 1) / 2 < length ps)%nat as Hml.
    { pose proof (Nat.div_le_upper_bound (length ps - 1) 2 (length ps - 1)). lia. }
    apply hwp_bind. rewrite Hmid. change (-1) with (Z.of_nat 0 - 1).
    apply rep_walk_wp; [done|rewrite (rounds_enough _ _ _ _ Hr); lia|].
    cbv zeta. split; [lia|]. intros q Hq.
    replace (Z.to_nat (Z.of_nat ((length ps - 1) / 2) + 1)) with (S ((length ps - 1) / 2)) in Hq |- * by lia.
    replace (Z.of_nat (S ((length ps - 1) / 2)) - 1) with (Z.of_nat ((length ps - 1) / 2)) by lia.
    pose proof (rep_mid_lookup _ _ _ _ Hr Hne) as Hmq. rewrite Hq in Hmq. injection Hmq as ->.
    rewrite !Z.eqb_refl. simpl negb. cbn iota. apply hwp_bind.
    replace (Z.of_nat ((length ps - 1) / 2)) with (Z.of_nat (S ((length ps - 1) / 2)) - 1) by lia.
    apply rep_walk_wp; [done|rewrite (rounds_enough _ _ _ _ Hr); lia|].
    cbv zeta. split; [lia|]. intros q Hqt. rewrite all_lookup_tail in Hqt. injection Hqt as <-.
    apply hwp_ret. split; [done|]. rewrite Z.eqb_refl, andb_true_r. apply Z.eqb_eq. lia.
Qed.
End repok.
