(* ===== verification/SimclistConcat.v ===== *)
(** * Concatenation: [list_concat] of simclist.c

    The result is a new list, made of nodes that were not in use, with the elements of the
    first list and then those of the second; its middle is found from the last node of the
    first part. *)

From S2P Require Import Prelude Simclist SimclistRep SimclistSpec SimclistOps.
From stdpp Require Import gmap.
Local Open Scope Z_scope.

(** A list under construction: from the sentinel [h] to the node [el], which has no
    successor yet; [t] is the other sentinel, and [m0] is the memory before. *)
Record open (m0 m : mem) (h t : Z) (qs ys : list Z) (el : Z) : Prop := Open {
  open_last : ∃ a, h :: qs = a ++ [el];
  open_chain : chain m (h :: qs);
  open_ends : prv m h = Some 0 ∧ nxt m t = Some 0;
  open_sentinels : dat m h = Some 0 ∧ dat m t = Some 0;
  open_nodup : NoDup (t :: h :: qs);
  open_nodes : Forall (node m) (t :: h :: qs);
  open_data : Forall2 (λ p x, dat m p = Some x) qs ys;
  open_fresh : ∀ p, p ∈ t :: h :: qs → entries m0 !! p = None;
  open_same : ∀ p, is_Some (entries m0 !! p) → entries m !! p = entries m0 !! p;
  open_blocks : blocks m = blocks m0
}.

Lemma open_rep m0 m h t qs ys el l ps xs : open m0 m h t qs ys el → rep m0 l ps xs → rep m l ps xs.
Proof.
  intros Ho Hr. apply (rep_ext m0); [|done]. intros p Hp. apply (open_same _ _ _ _ _ _ _ Ho).
  pose proof (rep_nodes _ _ _ _ Hr) as Hns. rewrite Forall_forall in Hns. by destruct (Hns p Hp).
Qed.

(** One element more: [p] is a new node. *)
Lemma open_step m0 m h t qs ys el p c x :
  open m0 m h t qs ys el → p ≠ 0 → entries m !! p = None →
  open m0 (upd (put_data x) p (link el p (Mem (<[p := c]> (entries m)) (blocks m) (draws m)))) h t
    (qs ++ [p]) (ys ++ [x]) p.
Proof.
  intros Ho Hp0 Hpn. set (m1 := Mem (<[p := c]> (entries m)) (blocks m) (draws m)).
  destruct Ho as [[a Ha] Hc [Hph Hnt] [Hdh Hdt] Hnd Hns Hd Hf Hs Hb].
  assert (p ∉ t :: h :: qs) as Hpf.
  { intros Hin. rewrite Forall_forall in Hns. destruct (Hns p Hin) as [_ Hp]. rewrite Hpn in Hp. by destruct Hp. }
  assert (∀ y, y ≠ p → entries m1 !! y = entries m !! y) as H1 by (intros; by apply lookup_insert_ne).
  assert (∀ y, y ∈ t :: h :: qs → nxt m1 y = nxt m y ∧ prv m1 y = prv m y ∧ dat m1 y = dat m y) as Hsame.
  { intros y Hy. unfold nxt, prv, dat. rewrite H1 by set_solver. done. }
  assert (node m1 p) as Hnp by (split; [done|]; simpl; rewrite lookup_insert_eq; by eexists).
  assert (Forall (node m1) (t :: h :: qs)) as Hns1.
  { apply Forall_forall. intros y Hy. rewrite Forall_forall in Hns. destruct (Hns y Hy). split; [done|].
    rewrite H1 by set_solver. done. }
  assert (el ∈ h :: qs) as Hel by (rewrite Ha; set_solver).
  assert (node m1 el) as Hne by (rewrite Forall_forall in Hns1; apply Hns1; by right).
  assert (h :: qs ++ [p] = a ++ [el; p]) as Ha' by (rewrite app_comm_cons, Ha, <-app_assoc; done).
  apply NoDup_cons in Hnd as [Ht Hnd].
  assert (h ≠ p ∧ t ≠ p ∧ el ≠ t) as (? & ? & ?) by (split_and!; intros ->; set_solver).
  destruct (Hsame h ltac:(right; left)) as (_ & Hph1 & Hdh1).
  destruct (Hsame t ltac:(left)) as (Hnt1 & _ & Hdt1).
  constructor; rewrite ?Ha'.
  - exists (a ++ [el]). by rewrite <-app_assoc.
  - apply (chain_same (link el p m1)); [intros; by rewrite nxt_set_data, prv_set_data|].
    apply chain_link; [|done|done| |done].
    + rewrite <-Ha', app_comm_cons. apply NoDup_app. split_and!; [done| |apply NoDup_singleton]. set_solver.
    + rewrite <-Ha. apply (chain_same m); [|done]. intros y Hy. destruct (Hsame y) as (?&?&?); [by right|done].
  - rewrite nxt_set_data, prv_set_data, prv_link_ne, nxt_link_ne by done.
    by rewrite Hph1, Hnt1.
  - rewrite !dat_set_data_ne, !dat_link by done.
    by rewrite Hdh1, Hdt1.
  - rewrite <-Ha'. constructor; [set_solver|]. rewrite app_comm_cons. apply NoDup_app.
    split_and!; [done| |apply NoDup_singleton]. set_solver.
  - rewrite <-Ha'. apply Forall_forall. intros y Hy. apply node_upd, node_link.
    rewrite Forall_forall in Hns1. destruct (decide (y = p)) as [->|]; [done|]. apply Hns1. set_solver.
  - apply Forall2_app.
    + apply (data_ext m); [|done]. intros y Hy. rewrite dat_set_data_ne by set_solver. rewrite dat_link.
      apply Hsame. by right; right.
    + constructor; [|done]. apply dat_set_data_eq. auto with heap.
  - rewrite <-Ha'. intros y Hy. destruct (decide (y = p)) as [->|]; [|apply Hf; set_solver].
    destruct (entries m0 !! p) eqn:E; [|done]. rewrite Hs in Hpn by (by rewrite E). congruence.
  - intros y Hy. assert (y ≠ p ∧ y ≠ el) as [? ?].
    { split; intros ->; [rewrite Hs in Hpn by done; rewrite Hpn in Hy|rewrite (Hf el) in Hy by (by right)]; by destruct Hy. }
    simpl. rewrite !lookup_alter_ne, lookup_insert_ne by done. by apply Hs.
  - done.
Qed.

Section concat.
Context `{Allocator}.
Context (Hmem : ∀ e, is_Some (alloc_entry e)).

Lemma concat_loop_wp m0 l ps xs fuel i src m h t qs ys el (P : Z → mem → Prop) :
  rep m0 l ps xs → open m0 m h t qs ys el → all l ps !! S i = Some src → (length xs - i < fuel)%nat →
  (∀ qs' el' m', open m0 m' h t (qs ++ qs') (ys ++ drop i xs) el' → length qs' = (length xs - i)%nat → P el' m') →
  hwp (concat_loop fuel (tail_sentinel l) src el) m P.
Proof using Hmem.
  intros Hr. revert i src m qs ys el. induction fuel as [|fuel IH]; intros i src m qs ys el Ho Hi Hf HP; [lia|]. simpl.
  pose proof (open_rep _ _ _ _ _ _ _ _ _ _ Ho Hr) as Hrm.
  destruct (rep_cursor _ _ _ _ Hrm i src Hi) as [[-> ->]|(x & n & Hlt & Hne & Hx & Hp & Hn)].
  - rewrite Z.eqb_refl. apply hwp_ret, (HP []); [|simpl; lia]. by rewrite drop_all, !app_nil_r.
  - rewrite (proj2 (Z.eqb_neq _ _)) by done. apply hwp_bind. unfold hwp at 1, new_entry.
    destruct (Hmem (entries m)) as [[p c] Hal]. rewrite Hal.
    destruct (alloc_entry_fresh _ _ _ Hal) as [Hp0 Hpn].
    pose proof (open_step m0 m h t qs ys el p c x Ho Hp0 Hpn) as Ho'.
    set (m1 := Mem (<[p := c]> (entries m)) (blocks m) (draws m)) in *.
    destruct (open_last _ _ _ _ _ _ _ Ho) as [a Ha].
    assert (el ∈ t :: h :: qs) as Hel by (right; rewrite Ha; set_solver).
    pose proof (open_nodes _ _ _ _ _ _ _ Ho) as Hns. rewrite Forall_forall in Hns.
    assert (p ≠ el) as Hpe by (intros ->; destruct (Hns el Hel) as [_ Hs]; rewrite Hpn in Hs; by destruct Hs).
    assert (∀ y, node m y → node m1 y) as Hn1.
    { intros y [? Hy]. split; [done|]. simpl. rewrite lookup_insert. case_decide; [by eexists|done]. }
    assert (node m1 p) as Hnp by (split; [done|]; simpl; rewrite lookup_insert_eq; by eexists).
    pose proof (Hn1 el (Hns el Hel)) as Hne1.
    apply hwp_bind, hwp_modify; [done|].
    apply hwp_bind, (hwp_get_next _ _ p); [auto with heap|by apply nxt_set_next_eq|].
    apply hwp_bind, hwp_modify; [auto with heap|]. change (upd (put_prev el) p _) with (link el p m1).
    apply hwp_bind, (hwp_get_next _ _ p); [auto with heap|by apply nxt_link_eq|].
    assert (src ∈ foot l ps) as Hsrc by (by eapply foot_lookup).
    assert (src ≠ p ∧ src ≠ el) as [Hsp Hse].
    { pose proof (rep_nodes _ _ _ _ Hr) as Hns0. rewrite Forall_forall in Hns0. destruct (Hns0 src Hsrc) as [_ Hs0].
      pose proof (open_fresh _ _ _ _ _ _ _ Ho') as Hfr. pose proof (open_fresh _ _ _ _ _ _ _ Ho) as Hfr0.
      split; intros ->; [rewrite Hfr in Hs0 by set_solver|rewrite Hfr0 in Hs0 by done]; by destruct Hs0. }
    pose proof (rep_node _ _ _ _ Hrm _ _ Hi) as Hnsrc.
    pose proof (rep_data _ _ _ _ Hrm) as Hdat.
    apply hwp_bind, (hwp_get_data _ _ x); [auto with heap| |].
    { rewrite dat_link. unfold dat. simpl. rewrite lookup_insert_ne by done.
      by apply (Forall2_lookup_lr _ _ _ _ _ _ Hdat Hp Hx). }
    apply hwp_bind, hwp_modify; [auto with heap|].
    apply hwp_bind, (hwp_get_next _ _ n); [auto with heap| |].
    { rewrite nxt_set_data, nxt_link_ne by done. unfold nxt. simpl. rewrite lookup_insert_ne by done.
      by apply (rep_linked _ _ _ _ Hrm _ _ _ Hi Hn). }
    apply (IH (S i) n _ (qs ++ [p]) (ys ++ [x])); [done|done|lia|].
    intros qs' el' m' Ho2 Hl. apply (HP (p :: qs') el' m'); [|simpl; lia].
    rewrite (drop_cons_lookup _ _ _ Hx). by rewrite <-!app_assoc in Ho2.
Qed.

(** The end of [list_concat]: the last node is linked with the sentinel. *)
Lemma open_close m0 m h t qs ys el :
  open m0 m h t qs ys el →
  let l := L h t (mid_of qs) (Z.of_nat (length qs)) [] false 0 0 (Attrs None None None false None None None) in
  rep (link el t m) l qs ys ∧ changes [] m0 (link el t m) ∧ (∀ p, p ∈ foot l qs → entries m0 !! p = None).
Proof.
  intros Ho l. pose proof Ho as [[a Ha] Hc [Hph Hnt] [Hdh Hdt] Hnd Hns Hd Hf Hs Hb].
  assert (all l qs = a ++ [el; t]) as Hall by (unfold all; simpl; rewrite app_comm_cons, Ha, <-app_assoc; done).
  assert (el ∈ h :: qs) as Hel by (rewrite Ha; set_solver).
  apply NoDup_cons in Hnd as [Ht Hnd]. pose proof Hns as Hns'. rewrite Forall_forall in Hns'.
  assert (NoDup (a ++ [el; t])) as Hnd'.
  { rewrite <-Hall. unfold all. simpl. rewrite app_comm_cons. apply NoDup_app.
    split_and!; [done| |apply NoDup_singleton]. set_solver. }
  assert (node m t ∧ node m el) as [Hnt' Hnel] by (split; apply Hns'; set_solver).
  assert (h ≠ t ∧ t ≠ el) as [? ?] by (split; intros ->; set_solver).
  split_and!.
  - constructor; simpl; try done.
    + change (chain (link el t m) (all l qs)). rewrite Hall. apply chain_link; try done. by rewrite <-Ha.
    + by rewrite prv_link_ne, nxt_link_ne.
    + by rewrite !dat_link.
    + change (NoDup (all l qs ++ [])). by rewrite app_nil_r, Hall.
    + change (Forall (node (link el t m)) (all l qs ++ [])). rewrite app_nil_r. apply Forall_forall. intros y Hy. apply node_link, Hns'.
      unfold all in Hy. simpl in Hy. set_solver.
    + apply (data_ext m); [intros; by rewrite dat_link|done].
  - split; [|done]. intros p _ Hp. assert (p ≠ el ∧ p ≠ t) as [? ?].
    { split; intros ->; rewrite Hf in Hp by set_solver; by destruct Hp. }
    simpl. rewrite !lookup_alter_ne by done. by apply Hs.
  - intros p Hp. apply Hf. unfold foot, all in Hp. simpl in Hp. set_solver.
Qed.

(** The middle, from the last node of the first part. *)
Lemma concat_mid m l ps1 ps2 ys last1 (P : Z → mem → Prop) :
  rep m l (ps1 ++ ps2) ys → ps1 ++ ps2 ≠ [] → all l (ps1 ++ ps2) !! length ps1 = Some last1 →
  Z.of_nat (length ps1) < 2 ^ 30 → Z.of_nat (length ps2) < 2 ^ 30 →
  P (mid_of (ps1 ++ ps2)) m →
  let err := wrap_s32 (Z.of_nat (length ps2) - Z.of_nat (length ps1)) in
  hwp (if 0 <? Z.quot (err + 1) 2 then walk e_next (Z.to_nat (Z.quot (err + 1) 2)) last1
       else if Z.quot err 2 <? 0 then walk e_prev (Z.to_nat (Z.quot (- err) 2)) last1
       else mret last1) m P.
Proof.
  intros Hr Hne Hlast H1 H2 HP. cbv zeta. rewrite wrap_s32_small by lia.
  set (ps := ps1 ++ ps2) in *. set (h := ((length ps - 1) / 2)%nat).
  assert (length ps = length ps1 + length ps2)%nat as Hlen by apply length_app.
  assert (0 < length ps)%nat as H0 by (destruct ps; simpl; [done|lia]).
  assert (2 * h <= length ps - 1 < 2 * h + 2)%nat as Hh
    by (pose proof (Nat.div_mod_eq (length ps - 1) 2); pose proof (Nat.mod_upper_bound (length ps - 1) 2); lia).
  destruct (lookup_lt_is_Some_2 ps h) as [x Hx]; [lia|].
  assert (mid_of ps = x) as Hm by (unfold mid_of; fold h; by rewrite Hx). rewrite Hm in HP.
  apply (all_lookup_node l) in Hx.
  pose proof (rep_chain _ _ _ _ Hr) as Hc. pose proof (rep_all_nodes _ _ _ _ Hr) as Hns.
  set (err := Z.of_nat (length ps2) - Z.of_nat (length ps1)).
  destruct (Z.ltb_spec 0 (Z.quot (err + 1) 2)) as [Hq|Hq].
  - eapply hwp_run; [|exact HP]. apply (walk_next_run m _ Hc Hns _ (length ps1)); [done|]. rewrite <-Hx. f_equal.
    unfold err in *. Z.to_euclidean_division_equations; lia.
  - destruct (Z.ltb_spec (Z.quot err 2) 0) as [Hq2|Hq2].
    + eapply hwp_run; [|exact HP]. apply (walk_prev_run m _ Hc Hns _ (S h)); [|done]. rewrite <-Hlast. f_equal.
      unfold err in *. Z.to_euclidean_division_equations; lia.
    + assert (S h = length ps1) as He by (unfold err in *; Z.to_euclidean_division_equations; lia).
      rewrite He in Hx. assert (last1 = x) as -> by congruence. by apply hwp_ret.
Qed.

Lemma open_start m0 m l :
  rep m l [] [] → changes [] m0 m → (∀ p, p ∈ foot l [] → entries m0 !! p = None) → spareels l = [] →
  open m0 m (head_sentinel l) (tail_sentinel l) [] [] (head_sentinel l).
Proof.
  intros Hr [Hch Hb] Hf Hs. pose proof Hr as [Hc He Hd Hnd Hns _ _ _ _ _].
  unfold foot in *. rewrite Hs, app_nil_r in Hnd, Hns, Hf. unfold all in *. simpl in *.
  constructor; try done.
  - by exists [].
  - revert Hnd. apply NoDup_Permutation_proper. solve_Permutation.
  - apply Forall_cons in Hns as [H1 Hns]. apply Forall_cons in Hns as [H2 _].
    apply Forall_cons; split; [done|]. apply Forall_cons; split; [done|constructor].
  - intros p Hp. apply Hf. set_solver.
  - intros p Hp. apply Hch; [set_solver|done].
Qed.

Lemma list_concat_wp m l1 l2 ps1 xs1 ps2 xs2 :
  rep m l1 ps1 xs1 → rep m l2 ps2 xs2 → numels l1 < 2 ^ 30 → numels l2 < 2 ^ 30 →
  hwp (list_concat l1 l2) m (λ r m', r.1 = 0 ∧ changes [] m m' ∧
    ∃ qs, rep m' r.2 qs (xs1 ++ xs2) ∧ (∀ p, p ∈ foot r.2 qs → entries m !! p = None)).
Proof using Hmem.
  intros Hr1 Hr2 Hm1 Hm2. pose proof (rep_numels _ _ _ _ Hr1) as Hn1. pose proof (rep_numels _ _ _ _ Hr2) as Hn2.
  pose proof (rep_length _ _ _ _ Hr1) as Hl1. pose proof (rep_length _ _ _ _ Hr2) as Hl2.
  unfold list_concat. apply hwp_bind.
  destruct (list_init_wp m) as [(_ & e & He)|Hi].
  { destruct (Hmem e) as [? Hs]. congruence. }
  eapply hwp_mono; [exact Hi|]. intros [r d] m1 (_ & Hr0 & Hd & Hch & Hfr). cbn [fst snd] in *.
  cbn [numels with_numels].
  assert (numels d = 0 ∧ spareels d = []) as [_ Hsp] by (rewrite Hd; done).
  assert (wrap_u32 (numels l1 + numels l2) = numels l1 + numels l2) as -> by (apply wrap_u32_small; lia).
  destruct (Z.eqb_spec (numels l1 + numels l2) 0) as [Hz|Hz].
  { assert (xs1 = [] ∧ xs2 = []) as [-> ->] by (split; apply nil_length_inv; lia).
    apply hwp_ret. split_and!; [done|done|]. exists []. split; [|done]. rewrite Hz.
    destruct Hr0. constructor; done. }
  pose proof (open_start m m1 d Hr0 Hch Hfr Hsp) as Ho1.
  set (h := head_sentinel d) in *. set (t := tail_sentinel d) in *.
  pose proof (open_rep _ _ _ _ _ _ _ _ _ _ Ho1 Hr1) as Hr1'.
  destruct (rep_first _ _ _ _ Hr1') as (s1 & Hs1 & Hnext1). apply hwp_bind, Hnext1.
  apply hwp_bind. apply (concat_loop_wp m l1 ps1 xs1 _ 0 s1 m1 h t [] [] h); [done|done|done| |].
  { rewrite (rounds_enough _ _ _ _ Hr1). lia. }
  intros qs1 last1 m2 Ho2 Hq1. simpl in Ho2. rewrite drop_0 in Ho2.
  pose proof (open_rep _ _ _ _ _ _ _ _ _ _ Ho2 Hr2) as Hr2'.
  destruct (rep_first _ _ _ _ Hr2') as (s2 & Hs2 & Hnext2). apply hwp_bind, Hnext2.
  apply hwp_bind. apply (concat_loop_wp m l2 ps2 xs2 _ 0 s2 m2 h t qs1 xs1 last1); [done|done|done| |].
  { rewrite (rounds_enough _ _ _ _ Hr2). lia. }
  intros qs2 el m3 Ho3 Hq2. rewrite drop_0 in Ho3.
  destruct (open_close _ _ _ _ _ _ _ Ho3) as (Hrep & Hch3 & Hfr3).
  destruct (open_last _ _ _ _ _ _ _ Ho3) as [a Ha].
  pose proof (open_nodes _ _ _ _ _ _ _ Ho3) as Hns. rewrite Forall_forall in Hns.
  apply hwp_bind, hwp_modify; [apply Hns; right; rewrite Ha; set_solver|].
  apply hwp_bind, hwp_modify; [apply node_upd, Hns; by left|].
  change (upd (put_prev el) (tail_sentinel (with_mid last1 (with_numels (numels l1 + numels l2) d))) _)
    with (link el t m3).
  apply hwp_bind. cbn [mid with_mid]. 
  replace (numels l2) with (Z.of_nat (length qs2)) by lia.
  replace (numels l1) with (Z.of_nat (length qs1)) by lia.
  destruct (open_last _ _ _ _ _ _ _ Ho2) as [a1 Ha1].
  eapply concat_mid; [exact Hrep| | |lia|lia|].
  - intros [-> ->]%app_eq_nil. simpl in *. lia.
  - unfold all. simpl. rewrite <-app_assoc, app_comm_cons, Ha1, <-app_assoc.
    assert (length qs1 = length a1) as -> by (apply (f_equal length) in Ha1; rewrite length_app in Ha1; simpl in Ha1; lia).
    rewrite lookup_app_r by lia. by rewrite Nat.sub_diag.
  - rewrite <-Nat2Z.inj_add, <-length_app, Hd. fold h t. apply hwp_ret.
    split_and!; [done|exact Hch3|]. exists (qs1 ++ qs2). done.
Qed.
End concat.
