(* ===== verification/SimclistSort.v ===== *)
(** * [list_sort] of simclist.c

    A quick sort with a random pivot, and a selection sort below 25 elements.  For every
    sequence of random numbers the result is the sorted list, on the same nodes. *)

From S2P Require Import Prelude Simclist SimclistRep SimclistSpec SimclistOps.
From stdpp Require Import gmap sorting.
Local Open Scope Z_scope.

(** ** Arrays *)

(** [ys] is [xs] with the places from [a] to before [e] in another order. *)
Record within (a e : nat) (xs ys : list Z) : Prop := Within {
  within_perm : ys ≡ₚ xs;
  within_out : ∀ i, (i < a ∨ e <= i)%nat → ys !! i = xs !! i;
  within_in : ∀ j y, (a <= j < e)%nat → ys !! j = Some y → ∃ i, (a <= i < e)%nat ∧ xs !! i = Some y
}.

Lemma within_refl a e xs : within a e xs xs.
Proof. constructor; eauto. Qed.

Lemma within_trans a e xs ys zs : within a e xs ys → within a e ys zs → within a e xs zs.
Proof.
  intros [P1 O1 I1] [P2 O2 I2]. constructor.
  - by rewrite P2.
  - intros i Hi. by rewrite O2, O1.
  - intros j y Hj Hy. destruct (I2 j y Hj Hy) as (i & Hi & Hy'). by apply (I1 i).
Qed.

Lemma within_mono a e a' e' xs ys :
  (a' <= a)%nat → (e <= e')%nat → within a e xs ys → within a' e' xs ys.
Proof.
  intros Ha He [P O I]. constructor; [done| |].
  - intros i Hi. apply O. lia.
  - intros j y Hj Hy. destruct (decide (a <= j < e)%nat) as [Hin|Hout].
    + destruct (I j y Hin Hy) as (i & Hi & Hx). exists i. split; [lia|done].
    + exists j. split; [done|]. rewrite <-O by lia. done.
Qed.

Lemma within_length a e xs ys : within a e xs ys → length ys = length xs.
Proof. intros [P _ _]. by rewrite P. Qed.

Definition swap (i j : nat) (x y : Z) (xs : list Z) : list Z := <[j := x]> (<[i := y]> xs).

Lemma swap_lookup i j x y xs k :
  xs !! i = Some x → xs !! j = Some y →
  swap i j x y xs !! k = if decide (k = j) then Some x else if decide (k = i) then Some y else xs !! k.
Proof.
  intros Hx Hy. unfold swap. apply lookup_lt_Some in Hx, Hy. case_decide as Hj.
  - subst. rewrite list_lookup_insert_eq; [done|]. by rewrite length_insert.
  - rewrite list_lookup_insert_ne by done. case_decide as Hi.
    + subst. by rewrite list_lookup_insert_eq.
    + by rewrite list_lookup_insert_ne.
Qed.

Lemma swap_perm i j x y xs : xs !! i = Some x → xs !! j = Some y → swap i j x y xs ≡ₚ xs.
Proof.
  intros Hx Hy. destruct (decide (i = j)) as [->|Hij].
  { simplify_eq. unfold swap. by rewrite list_insert_insert_eq, list_insert_id. }
  assert (∀ i j x y (l : list Z), (i < j)%nat → l !! i = Some x → l !! j = Some y →
    <[j := x]> (<[i := y]> l) ≡ₚ l) as Hlt.
  { clear. intros i j x y l Hij Hx Hy. rewrite (lookup_split l i x Hx) in Hy |- *.
    pose proof (lookup_lt_Some _ _ _ Hx) as Hi.
    assert (length (take i l) = i) as Hlen by (rewrite length_take; lia).
    rewrite lookup_app_r, Hlen in Hy by lia.
    replace (j - i)%nat with (S (j - i - 1)) in Hy by lia. simpl in Hy.
    rewrite insert_app_r_alt, Hlen, Nat.sub_diag by lia. simpl.
    rewrite insert_app_r_alt, Hlen by lia. replace (j - i)%nat with (S (j - i - 1)) by lia. simpl.
    set (k := (j - i - 1)%nat) in *. pose proof (lookup_lt_Some _ _ _ Hy).
    rewrite (insert_take_drop _ k x) by done. rewrite (lookup_split _ k y Hy) at 3.
    apply Permutation_app_head. rewrite !(Permutation_app_comm (take k _)). simpl.
    apply perm_swap. }
  unfold swap. destruct (decide (i < j)%nat); [by apply Hlt|].
  rewrite list_insert_insert_ne by done. by apply Hlt; [lia|..].
Qed.

Lemma swap_within a e i j x y xs :
  (a <= i < e)%nat → (a <= j < e)%nat → xs !! i = Some x → xs !! j = Some y →
  within a e xs (swap i j x y xs).
Proof.
  intros Hi Hj Hx Hy. constructor; [by apply swap_perm| |].
  - intros k Hk. rewrite swap_lookup by done. repeat case_decide; [lia|lia|done].
  - intros k z Hk Hz. rewrite swap_lookup in Hz by done. repeat case_decide; simplify_eq; eauto.
Qed.

(** ** Order *)

Section sort.
Context (random : nat → Z).
Context (cmp : heap → Z → Z → Z) (versus : Z) (b : heap).

(** The sign of the comparison tells the order in which two elements are to stand. *)
Class Orders : Prop := {
  ord_sign x y : 0 <= cmp b x y * - versus → cmp b y x * - versus <= 0;
  ord_trans x y z : cmp b x y * - versus <= 0 → cmp b y z * - versus <= 0 → cmp b x z * - versus <= 0
}.
Context `{Orders}.

Definition leq (x y : Z) : Prop := cmp b x y * - versus <= 0.

Lemma leq_refl x : leq x x.
Proof. unfold leq. destruct (Z_le_gt_dec 0 (cmp b x x * - versus)); [by apply ord_sign|lia]. Qed.

(** The elements at the places from [a] to before [e] stand before [y], behind [y], are
    in order. *)
Definition below (a e : nat) (xs : list Z) (y : Z) : Prop :=
  ∀ k x, (a <= k < e)%nat → xs !! k = Some x → leq x y.
Definition above (a e : nat) (xs : list Z) (y : Z) : Prop :=
  ∀ k x, (a <= k < e)%nat → xs !! k = Some x → leq y x.
Definition sorted_on (a e : nat) (xs : list Z) : Prop :=
  ∀ i j x y, (a <= i)%nat → (i <= j)%nat → (j < e)%nat → xs !! i = Some x → xs !! j = Some y → leq x y.

Lemma below_within a e xs ys y : within a e xs ys → below a e xs y → below a e ys y.
Proof. intros [_ _ I] Hb k x Hk Hx. destruct (I k x Hk Hx) as (i & Hi & Hx'). by apply (Hb i). Qed.
Lemma above_within a e xs ys y : within a e xs ys → above a e xs y → above a e ys y.
Proof. intros [_ _ I] Hb k x Hk Hx. destruct (I k x Hk Hx) as (i & Hi & Hx'). by apply (Hb i). Qed.

(** Two sorted parts and the pivot between them. *)
Lemma sorted_join a p e xs pv :
  xs !! p = Some pv → below a p xs pv → above (S p) e xs pv →
  sorted_on a p xs → sorted_on (S p) e xs → sorted_on a e xs.
Proof.
  intros Hp Hb Ha H1 H2 i j x y Hai Hij Hje Hx Hy.
  destruct (decide (j < p)%nat); [by apply (H1 i j)|].
  destruct (decide (p < i)%nat); [by apply (H2 i j)|].
  assert (leq x pv) as Hxp.
  { destruct (decide (i = p)) as [->|]; [simplify_eq; apply leq_refl|]. apply (Hb i); [lia|done]. }
  assert (leq pv y) as Hpy.
  { destruct (decide (j = p)) as [->|]; [simplify_eq; apply leq_refl|]. apply (Ha j); [lia|done]. }
  by eapply ord_trans.
Qed.

Lemma sorted_on_ext a e xs ys : (∀ i, (a <= i < e)%nat → ys !! i = xs !! i) → sorted_on a e xs → sorted_on a e ys.
Proof. intros He Hs i j x y Hai Hij Hje Hx Hy. rewrite He in Hx, Hy by lia. by apply (Hs i j). Qed.

Lemma sorted_short a e xs : (e <= S a)%nat → sorted_on a e xs.
Proof.
  intros He i j x y Hai Hij Hje Hx Hy. assert (i = j) as -> by lia. simplify_eq. apply leq_refl.
Qed.

(** ** The nodes *)

Context (m0 : mem) (l : list_t) (ps : list Z).
Context (Hb0 : blocks m0 = b) (Hmax : Z.of_nat (length ps) < 2 ^ 31).

(** While the sort runs only the data of the nodes change. *)
Definition st (m : mem) (xs : list Z) : Prop := rep m l ps xs ∧ changes (foot l ps) m0 m.

Section rules.
Context (m : mem) (xs : list Z) (Hst : st m xs).

Lemma st_length : length ps = length xs.
Proof using Hst. destruct Hst as [Hr _]. by eapply rep_length. Qed.

Lemma st_data i p x (P : Z → mem → Prop) :
  ps !! i = Some p → xs !! i = Some x → P x m → hwp (get_data p) m P.
Proof using Hst. destruct Hst as [Hr _]. by apply (rep_value _ _ _ _ Hr). Qed.

Lemma st_next i p q (P : Z → mem → Prop) :
  ps !! i = Some p → all l ps !! S (S i) = Some q → P q m → hwp (get_next p) m P.
Proof using Hst. destruct Hst as [Hr _]. intros Hp. apply (rep_next _ _ _ _ Hr (S i)). by apply all_lookup_node. Qed.

Lemma st_prev i p q (P : Z → mem → Prop) :
  ps !! i = Some p → all l ps !! i = Some q → P q m → hwp (get_prev p) m P.
Proof using Hst.
  destruct Hst as [Hr _]. intros Hp Hq. apply (rep_prev _ _ _ _ Hr i); [done|]. by apply all_lookup_node.
Qed.

Lemma st_set i p y (P : unit → mem → Prop) :
  ps !! i = Some p → (∀ m', st m' (<[i := y]> xs) → P tt m') → hwp (set_data p y) m P.
Proof using Hst.
  destruct Hst as [Hr Hc]. intros Hp HP. pose proof (all_lookup_node l ps i p Hp) as Ha.
  apply hwp_modify; [by eapply rep_node|]. apply HP. split; [by apply rep_set_data|].
  eapply (changes_trans _ (foot l ps)); [exact Hc| |by left]. apply changes_upd. by eapply foot_lookup.
Qed.

Lemma st_compare i j p q x y (P : Z → mem → Prop) :
  ps !! i = Some p → ps !! j = Some q → xs !! i = Some x → xs !! j = Some y →
  P (cmp b x y * - versus) m → hwp (compare_at cmp versus p q) m P.
Proof using Hst Hb0.
  intros Hp Hq Hx Hy HP. unfold compare_at.
  apply hwp_bind, (st_data i p x); [done..|]. apply hwp_bind, (st_data j q y); [done..|].
  apply hwp_bind. unfold hwp at 1, get_blocks. apply hwp_ret. destruct Hst as [_ [_ ->]]. by rewrite Hb0.
Qed.

Lemma st_draw (P : Z → mem → Prop) :
  (∀ r m', st m' xs → P r m') → hwp (draw random) m P.
Proof using Hst.
  intros HP. unfold hwp, draw. apply HP. destruct Hst as [Hr Hc]. split; [|done]. by apply (rep_ext m).
Qed.

(** Nodes are equal when their places are. *)
Lemma st_eqb i j p q : all l ps !! i = Some p → all l ps !! j = Some q → (p =? q) = (i =? j)%nat.
Proof using Hst.
  destruct Hst as [Hr _]. intros Hp Hq. pose proof (rep_nodup _ _ _ _ Hr) as Hnd.
  unfold foot in Hnd. apply NoDup_app in Hnd as (Hnd & _ & _).
  destruct (Nat.eqb_spec i j) as [->|Hne]; [simplify_eq; by rewrite Z.eqb_refl|].
  apply Z.eqb_neq. intros ->. apply Hne. by eapply NoDup_lookup.
Qed.

Lemma st_swap i j p q x y (P : unit → mem → Prop) :
  ps !! i = Some p → ps !! j = Some q → xs !! i = Some x → xs !! j = Some y →
  (∀ m', st m' (swap i j x y xs) → P tt m') → hwp (swap_data p q) m P.
Proof using Hst.
  intros Hp Hq Hx Hy HP. unfold swap_data.
  apply hwp_bind, (st_data i p x); [done..|]. apply hwp_bind, (st_data j q y); [done..|].
  apply hwp_bind, (st_set i p y); [done|]. intros m1 [Hr1 Hc1]. unfold swap in HP.
  pose proof (all_lookup_node l ps j q Hq) as Ha.
  apply hwp_modify; [by eapply rep_node|]. apply HP. split; [by apply rep_set_data|].
  eapply (changes_trans _ (foot l ps)); [exact Hc1| |by left]. apply changes_upd. by eapply foot_lookup.
Qed.
End rules.

Lemma ps_lookup i : (i < length ps)%nat → ∃ p, ps !! i = Some p ∧ all l ps !! S i = Some p.
Proof. intros Hi. destruct (lookup_lt_is_Some_2 ps i Hi) as [p Hp]. exists p. eauto using all_lookup_node. Qed.

Lemma all_lookup i : (i <= S (length ps))%nat → ∃ p, all l ps !! i = Some p.
Proof. intros Hi. apply lookup_lt_is_Some_2. unfold all. simpl. rewrite length_app. simpl. lia. Qed.

(** ** The selection sort *)

Section selection.
Context (a e : nat) (Hae : (a < e)%nat) (He : (e <= length ps)%nat).
Context (lel : Z) (Hlel : ps !! (e - 1)%nat = Some lel).

Lemma select_loop_wp m xs fuel i t c tp cp tx (P : Z → mem → Prop) :
  st m xs → (i <= t < c)%nat → (c <= e)%nat → (e - c < fuel)%nat →
  ps !! t = Some tp → xs !! t = Some tx → all l ps !! S c = Some cp → above i c xs tx →
  (∀ t' tp' tx', (i <= t' < e)%nat → ps !! t' = Some tp' → xs !! t' = Some tx' → above i e xs tx' → P tp' m) →
  hwp (select_loop cmp versus fuel lel tp cp) m P.
Proof using All.
  intros Hst. revert t c tp cp tx. induction fuel as [|fuel IH]; intros t c tp cp tx Ht Hc Hf Htp Htx Hcp Hab HP; [lia|].
  simpl. destruct (all_lookup (S e)) as [stop Hstop]; [lia|].
  apply hwp_bind, (st_next m xs Hst (e - 1) lel stop); [done| |].
  { by replace (S (S (e - 1))) with (S e) by lia. }
  rewrite (st_eqb m xs Hst _ _ _ _ Hcp Hstop). destruct (Nat.eqb_spec (S c) (S e)) as [Heq|Hne].
  - apply hwp_ret, (HP t tp tx); [lia|done|done|]. by replace e with c by lia.
  - destruct (ps_lookup c) as (cp' & Hcp' & Hca); [lia|]. assert (cp' = cp) as -> by congruence.
    pose proof (st_length m xs Hst) as Hl. destruct (lookup_lt_is_Some_2 xs c) as [cx Hcx]; [lia|].
    apply hwp_bind, (st_compare m xs Hst t c tp cp tx cx); [done..|].
    destruct (all_lookup (S (S c))) as [n Hn]; [lia|].
    apply hwp_bind, (st_next m xs Hst c cp n); [done..|].
    destruct (Z.ltb_spec 0 (cmp b tx cx * - versus)) as [Hlt|Hge].
    + apply (IH c (S c) cp n cx); [lia|lia|lia|done|done|done| |done].
      assert (leq cx tx) as Hle by (apply ord_sign; lia).
      intros k x Hk Hx. destruct (decide (k = c)) as [->|]; [simplify_eq; apply leq_refl|].
      eapply ord_trans; [exact Hle|]. apply (Hab k); [lia|done].
    + apply (IH t (S c) tp n tx); [lia|lia|lia|done|done|done| |done].
      intros k x Hk Hx. destruct (decide (k = c)) as [->|]; [simplify_eq; done|]. apply (Hab k); [lia|done].
Qed.

(** The elements before [i] are in order and none of them stands behind a later one. *)
Definition settled (i : nat) (xs : list Z) : Prop :=
  ∀ k x, (a <= k < i)%nat → xs !! k = Some x → above k e xs x.

Lemma settled_swap i t x y xs :
  (a <= i <= t)%nat → (t < e)%nat → xs !! i = Some x → xs !! t = Some y → above i e xs y →
  settled i xs → settled (S i) (swap i t x y xs).
Proof using All.
  intros Hi Ht Hx Hy Hab Hs k z Hk Hz j w Hj Hw.
  rewrite swap_lookup in Hz, Hw by done.
  assert (∀ k' z', (a <= k' < i)%nat → xs !! k' = Some z' → leq z' x ∧ leq z' y) as Hprev.
  { intros k' z' Hk' Hz'. split; [apply (Hs k' z' Hk' Hz' i); [lia|done]|apply (Hs k' z' Hk' Hz' t); [lia|done]]. }
  assert (leq y x) as Hyx by (apply (Hab i); [lia|done]).
  destruct (decide (k = i)) as [->|Hki].
  - assert (z = y) as ->.
    { repeat case_decide; subst; congruence. }
    repeat case_decide; simplify_eq; first [done|apply leq_refl|apply (Hab j); [lia|done]].
  - rewrite !decide_False in Hz by lia.
    destruct (Hprev k z) as [H1 H2]; [lia|done|].
    repeat case_decide; simplify_eq; first [done|apply (Hs k z ltac:(lia) Hz j); [lia|done]].
Qed.

Lemma selection_loop_wp m xs fuel i p (P : unit → mem → Prop) :
  st m xs → (a <= i < e)%nat → (e - i < fuel)%nat → ps !! i = Some p → settled i xs →
  (∀ m' xs', st m' xs' → within a e xs xs' → sorted_on a e xs' → P tt m') →
  hwp (selection_loop cmp versus fuel lel p) m P.
Proof using All.
  revert m xs i p. induction fuel as [|fuel IH]; intros m xs i p Hst Hi Hf Hp Hset HP; [lia|].
  cbn [selection_loop].
  pose proof (all_lookup_node l ps i p Hp) as Hpa. pose proof (all_lookup_node l ps _ lel Hlel) as Hla.
  rewrite (st_eqb m xs Hst _ _ _ _ Hpa Hla). pose proof (st_length m xs Hst) as Hlen.
  destruct (lookup_lt_is_Some_2 xs i) as [x Hx]; [lia|].
  destruct (Nat.eqb_spec (S i) (S (e - 1))) as [Heq|Hne].
  - apply hwp_ret, (HP m xs); [done|apply within_refl|].
    intros j k y z Haj Hjk Hke Hy Hz. destruct (decide (j < i)%nat).
    + apply (Hset j y ltac:(lia) Hy k z); [lia|done].
    + assert (j = k) as -> by lia. simplify_eq. apply leq_refl.
  - destruct (ps_lookup (S i)) as (c & Hc & Hca); [lia|].
    apply hwp_bind, (st_next m xs Hst i p c); [done..|].
    apply hwp_bind. apply (select_loop_wp m xs _ i i (S i) p c x); [done|lia|lia|lia|done|done|done| |].
    { intros k y Hk Hy. assert (k = i) as -> by lia. simplify_eq. apply leq_refl. }
    intros t tp y Ht Htp Hy Hab. apply hwp_bind.
    rewrite (st_eqb m xs Hst _ _ _ _ (all_lookup_node l ps t tp Htp) Hpa).
    assert (∀ m' xs', st m' xs' → within a e xs xs' → settled (S i) xs' →
      hwp (get_next p ≫= λ n, selection_loop cmp versus fuel lel n) m' P) as Hgo.
    { intros m' xs' Hst' Hw Hset'. apply hwp_bind, (st_next m' xs' Hst' i p c); [done..|].
      apply (IH m' xs' (S i)); [done|lia|lia|done|done|].
      intros m2 xs2 Hst2 Hw2 Hs2. apply (HP m2 xs2); [done|by eapply within_trans|done]. }
    destruct (Nat.eqb_spec (S t) (S i)) as [Hti|Hti].
    + apply hwp_ret, (Hgo m xs); [done|apply within_refl|].
      assert (t = i) as -> by lia. assert (x = y) as -> by congruence.
      intros k z Hk Hz. destruct (decide (k = i)) as [->|]; [simplify_eq; done|]. apply (Hset k z); [lia|done].
    + apply (st_swap m xs Hst i t p tp x y); [done..|]. intros m' Hst'.
      apply (Hgo m' _ Hst'); [apply swap_within; [lia|lia|done|done]|].
      apply settled_swap; [lia|lia|done|done|done|done].
Qed.
End selection.

(** ** The partition *)

Section partition.
Context (a e : nat) (He : (e <= length ps)%nat).

Lemma scan_left_wp m xs fuel li pi lp pp pv (P : Z → mem → Prop) :
  st m xs → (a <= li <= pi)%nat → (pi < e)%nat → (pi - li < fuel)%nat →
  ps !! li = Some lp → ps !! pi = Some pp → xs !! pi = Some pv → below a li xs pv →
  (∀ li' lp', (li <= li' <= pi)%nat → ps !! li' = Some lp' → below a li' xs pv →
     (li' = pi ∨ ∃ x, xs !! li' = Some x ∧ 0 < cmp b x pv * - versus) → P lp' m) →
  hwp (scan_left cmp versus fuel pp lp) m P.
Proof using All.
  intros Hst. revert li lp. induction fuel as [|fuel IH]; intros li lp Hli Hpi Hf Hlp Hpp Hpv Hbl HP; [lia|].
  simpl. rewrite (st_eqb m xs Hst _ _ _ _ (all_lookup_node l ps _ _ Hlp) (all_lookup_node l ps _ _ Hpp)).
  destruct (Nat.eqb_spec (S li) (S pi)) as [Heq|Hne].
  - apply hwp_ret, (HP li lp); [lia|done|done|left; lia].
  - pose proof (st_length m xs Hst) as Hlen. destruct (lookup_lt_is_Some_2 xs li) as [x Hx]; [lia|].
    apply hwp_bind, (st_compare m xs Hst li pi lp pp x pv); [done..|].
    destruct (Z.leb_spec (cmp b x pv * - versus) 0) as [Hle|Hgt].
    + destruct (ps_lookup (S li)) as (n & Hn & Hna); [lia|].
      apply hwp_bind, (st_next m xs Hst li lp n); [done..|].
      apply (IH (S li) n); [lia|lia|lia|done|done|done| |].
      * intros k y Hk Hy. destruct (decide (k = li)) as [->|]; [simplify_eq; done|]. apply (Hbl k); [lia|done].
      * intros li' lp' Hli'. apply HP. lia.
    + apply hwp_ret, (HP li lp); [lia|done|done|right; eauto].
Qed.

Lemma scan_right_wp m xs fuel ri pi rp pp pv (P : Z → mem → Prop) :
  st m xs → (pi <= ri < e)%nat → (ri - pi < fuel)%nat →
  ps !! ri = Some rp → ps !! pi = Some pp → xs !! pi = Some pv → above (S ri) e xs pv →
  (∀ ri' rp', (pi <= ri' <= ri)%nat → ps !! ri' = Some rp' → above (S ri') e xs pv →
     (ri' = pi ∨ ∃ x, xs !! ri' = Some x ∧ cmp b x pv * - versus < 0) → P rp' m) →
  hwp (scan_right cmp versus fuel pp rp) m P.
Proof using All.
  intros Hst. revert ri rp. induction fuel as [|fuel IH]; intros ri rp Hri Hf Hrp Hpp Hpv Hab HP; [lia|].
  simpl. rewrite (st_eqb m xs Hst _ _ _ _ (all_lookup_node l ps _ _ Hrp) (all_lookup_node l ps _ _ Hpp)).
  destruct (Nat.eqb_spec (S ri) (S pi)) as [Heq|Hne].
  - apply hwp_ret, (HP ri rp); [lia|done|done|left; lia].
  - pose proof (st_length m xs Hst) as Hlen. destruct (lookup_lt_is_Some_2 xs ri) as [x Hx]; [lia|].
    apply hwp_bind, (st_compare m xs Hst ri pi rp pp x pv); [done..|].
    destruct (Z.leb_spec 0 (cmp b x pv * - versus)) as [Hle|Hgt].
    + destruct ri as [|ri]; [lia|]. destruct (ps_lookup ri) as (n & Hn & Hna); [lia|].
      apply hwp_bind, (st_prev m xs Hst (S ri) rp n); [done..|].
      apply (IH ri n); [lia|lia|done|done|done| |].
      * intros k y Hk Hy. destruct (decide (k = S ri)) as [->|]; [simplify_eq; by apply ord_sign|].
        apply (Hab k); [lia|done].
      * intros ri' rp' Hri'. apply HP. lia.
    + apply hwp_ret, (HP ri rp); [lia|done|done|right; eauto].
Qed.

Lemma partition_loop_wp m xs fuel li ri pi lp rp pp pv (P : Z * Z → mem → Prop) :
  st m xs → (a <= li <= pi)%nat → (pi <= ri < e)%nat → (ri - li + 1 < fuel)%nat →
  ps !! li = Some lp → ps !! ri = Some rp → ps !! pi = Some pp → xs !! pi = Some pv →
  below a li xs pv → above (S ri) e xs pv →
  (∀ m' xs' li' ri' lp' rp', st m' xs' → within a e xs xs' → (a <= li' <= pi)%nat → (pi <= ri' < e)%nat →
     ps !! li' = Some lp' → ps !! ri' = Some rp' → xs' !! pi = Some pv →
     below a li' xs' pv → above (S ri') e xs' pv → li' = pi ∨ ri' = pi → P (lp', rp') m') →
  hwp (partition_loop cmp versus fuel pp lp rp) m P.
Proof using All.
  revert m xs li ri lp rp. induction fuel as [|fuel IH];
    intros m xs li ri lp rp Hst Hli Hri Hf Hlp Hrp Hpp Hpv Hbl Hab HP; [lia|].
  cbn [partition_loop].
  pose proof (all_lookup_node l ps _ _ Hpp) as Hpa.
  rewrite (st_eqb m xs Hst _ _ _ _ (all_lookup_node l ps _ _ Hlp) Hpa),
    (st_eqb m xs Hst _ _ _ _ (all_lookup_node l ps _ _ Hrp) Hpa).
  destruct (Nat.eqb_spec (S li) (S pi)) as [Hl|Hl]; cbv [orb andb negb].
  { apply hwp_ret, (HP m xs li ri lp rp); [done|apply within_refl|lia|lia|done|done|done|done|done|lia]. }
  destruct (Nat.eqb_spec (S ri) (S pi)) as [Hr|Hr]; cbv [orb andb negb].
  { apply hwp_ret, (HP m xs li ri lp rp); [done|apply within_refl|lia|lia|done|done|done|done|done|lia]. }
  apply hwp_bind. eapply (scan_left_wp m xs _ li pi); [done|lia|lia|lia|done..|].
  intros li' lp' Hli' Hlp' Hbl' Hlx.
  apply hwp_bind. eapply (scan_right_wp m xs _ ri pi); [done|lia|lia|done..|].
  intros ri' rp' Hri' Hrp' Hab' Hrx.
  rewrite (st_eqb m xs Hst _ _ _ _ (all_lookup_node l ps _ _ Hlp') Hpa),
    (st_eqb m xs Hst _ _ _ _ (all_lookup_node l ps _ _ Hrp') Hpa).
  destruct (Nat.eqb_spec (S li') (S pi)) as [Hl'|Hl']; cbv [orb andb negb].
  { (* the next round ends *)
    destruct fuel as [|fuel']; [lia|]. cbn [partition_loop].
    rewrite (st_eqb m xs Hst _ _ _ _ (all_lookup_node l ps _ _ Hlp') Hpa).
    rewrite (proj2 (Nat.eqb_eq _ _) Hl'). cbv [orb andb negb].
    apply hwp_ret, (HP m xs li' ri' lp' rp'); [done|apply within_refl|lia|lia|done|done|done|done|done|lia]. }
  destruct (Nat.eqb_spec (S ri') (S pi)) as [Hr'|Hr']; cbv [orb andb negb].
  { destruct fuel as [|fuel']; [lia|]. cbn [partition_loop].
    rewrite (st_eqb m xs Hst _ _ _ _ (all_lookup_node l ps _ _ Hrp') Hpa).
    rewrite (proj2 (Nat.eqb_eq _ _) Hr'), orb_true_r.
    apply hwp_ret, (HP m xs li' ri' lp' rp'); [done|apply within_refl|lia|lia|done|done|done|done|done|lia]. }
  destruct Hlx as [|(x & Hx & Hxp)]; [lia|]. destruct Hrx as [|(y & Hy & Hyp)]; [lia|].
  apply hwp_bind, (st_swap m xs Hst li' ri' lp' rp' x y); [done..|]. intros m1 Hst1.
  destruct (ps_lookup (S li')) as (n1 & Hn1 & Hna1); [lia|].
  destruct ri' as [|ri']; [lia|]. destruct (ps_lookup ri') as (n2 & Hn2 & Hna2); [lia|].
  apply hwp_bind, (st_next m1 _ Hst1 li' lp' n1); [done..|].
  apply hwp_bind, (st_prev m1 _ Hst1 (S ri') rp' n2); [done..|].
  assert (within a e xs (swap li' (S ri') x y xs)) as Hw by (apply swap_within; [lia|lia|done|done]).
  assert (∀ k, k ≠ li' → k ≠ S ri' → swap li' (S ri') x y xs !! k = xs !! k) as Hoth.
  { intros k H1 H2. rewrite swap_lookup by done. by rewrite !decide_False. }
  apply (IH m1 (swap li' (S ri') x y xs) (S li') ri' n1 n2); [done|lia|lia|lia|done|done|done| | | |].
  - rewrite Hoth by lia. done.
  - intros k z Hk Hz. destruct (decide (k = li')) as [->|].
    + rewrite swap_lookup, decide_False, decide_True in Hz by (done || lia). simplify_eq. unfold leq. lia.
    + rewrite Hoth in Hz by lia. apply (Hbl' k); [lia|done].
  - intros k z Hk Hz. destruct (decide (k = S ri')) as [->|].
    + rewrite swap_lookup, decide_True in Hz by done. simplify_eq. apply ord_sign. lia.
    + rewrite Hoth in Hz by lia. apply (Hab' k); [lia|done].
  - intros m' xs' li2 ri2 lp2 rp2 Hst2 Hw2. apply HP; [done|by eapply within_trans].
Qed.

(** What the partition leaves behind: the place of the pivot. *)
Definition parted (xs : list Z) (pv : Z) (id : Z) (pp : Z) (xs' : list Z) (pi' : nat) : Prop :=
  within a e xs xs' ∧ (a <= pi' < e)%nat ∧ ps !! pi' = Some pp ∧ id = Z.of_nat pi' - Z.of_nat a ∧
  xs' !! pi' = Some pv ∧ below a pi' xs' pv ∧ above (S pi') e xs' pv.

(** [x] leaves place [i] for place [j], where the pivot was, and the pivot moves next to its
    place. *)
Definition rotate (i k j : nat) (x y pv : Z) (xs : list Z) : list Z :=
  <[j := x]> (<[k := pv]> (<[i := y]> xs)).

Lemma rotate_swaps i k j x y pv xs :
  i ≠ j → k ≠ j → xs !! i = Some x → xs !! k = Some y → xs !! j = Some pv →
  rotate i k j x y pv xs = swap k j x pv (swap i k x y xs).
Proof.
  intros Hij Hkj Hx Hy Hpv. unfold rotate, swap. f_equal.
  destruct (decide (i = k)) as [->|Hik].
  - by rewrite !list_insert_insert_eq.
  - by rewrite list_insert_insert_eq.
Qed.

Lemma rotate_within i k j x y pv xs :
  (a <= i < e)%nat → (a <= k < e)%nat → (a <= j < e)%nat → i ≠ j → k ≠ j →
  xs !! i = Some x → xs !! k = Some y → xs !! j = Some pv →
  within a e xs (rotate i k j x y pv xs).
Proof.
  intros Hi Hk Hj Hij Hkj Hx Hy Hpv. rewrite rotate_swaps by done.
  eapply within_trans; [by apply (swap_within a e i k x y)|]. apply swap_within; [done..| |].
  - rewrite swap_lookup by done. by rewrite decide_True.
  - rewrite swap_lookup by done. by rewrite !decide_False by done.
Qed.

Lemma rotate_lookup i k j x y pv xs n :
  (i < length xs)%nat → (k < length xs)%nat → (j < length xs)%nat →
  rotate i k j x y pv xs !! n =
    if decide (n = j) then Some x else if decide (n = k) then Some pv else if decide (n = i) then Some y else xs !! n.
Proof.
  intros Hi Hk Hj. unfold rotate. rewrite !list_lookup_insert, !length_insert.
  repeat case_decide; try lia; subst; try tauto; done.
Qed.

Lemma st_rotate m xs i k j p q r x y pv (P : unit → mem → Prop) :
  st m xs → ps !! i = Some p → ps !! k = Some q → ps !! j = Some r →
  xs !! i = Some x → xs !! k = Some y → xs !! j = Some pv → i ≠ j → k ≠ j →
  (∀ m', st m' (rotate i k j x y pv xs) → P tt m') →
  hwp (set_data p y;; d ← get_data r; set_data q d;; set_data r x) m P.
Proof using All.
  intros Hst Hp Hq Hr Hx Hy Hpv Hij Hkj HP.
  apply hwp_bind, (st_set m xs Hst i p y); [done|]. intros m1 Hst1.
  apply hwp_bind, (st_data m1 _ Hst1 j r pv); [done|by rewrite list_lookup_insert_ne|].
  apply hwp_bind, (st_set m1 _ Hst1 k q pv); [done|]. intros m2 Hst2.
  apply (st_set m2 _ Hst2 j r x); [done|]. exact HP.
Qed.

Lemma left_loop_wp m xs fuel li pi lp pp id pv (P : Z * Z → mem → Prop) :
  st m xs → (a <= li <= pi)%nat → (pi < e)%nat → (pi - li < fuel)%nat →
  ps !! li = Some lp → ps !! pi = Some pp → xs !! pi = Some pv → id = Z.of_nat pi - Z.of_nat a →
  below a li xs pv → above (S pi) e xs pv →
  (∀ m' xs' pi' pp' id', st m' xs' → parted xs pv id' pp' xs' pi' → P (pp', id') m') →
  hwp (left_loop cmp versus fuel pp id lp) m P.
Proof using All.
  revert m xs li pi lp pp id. induction fuel as [|fuel IH];
    intros m xs li pi lp pp id Hst Hli Hpi Hf Hlp Hpp Hpv Hid Hbl Hab HP; [lia|].
  cbn [left_loop]. pose proof (st_length m xs Hst) as Hlen.
  rewrite (st_eqb m xs Hst _ _ _ _ (all_lookup_node l ps _ _ Hlp) (all_lookup_node l ps _ _ Hpp)).
  destruct (Nat.eqb_spec (S li) (S pi)) as [Heq|Hne].
  { apply hwp_ret, (HP m xs pi pp id); [done|]. split_and!; try done; try lia; [apply within_refl|].
    by replace pi with li by lia. }
  destruct (lookup_lt_is_Some_2 xs li) as [x Hx]; [lia|].
  apply hwp_bind, (st_compare m xs Hst li pi lp pp x pv); [done..|].
  destruct (Z.ltb_spec 0 (cmp b x pv * - versus)) as [Hgt|Hle].
  - destruct pi as [|k]; [lia|]. destruct (ps_lookup k) as (q & Hq & Hqa); [lia|].
    destruct (lookup_lt_is_Some_2 xs k) as [y Hy]; [lia|].
    apply hwp_bind, (st_data m xs Hst li lp x); [done..|].
    apply hwp_bind, (st_prev m xs Hst (S k) pp q); [done..|].
    apply hwp_bind, (st_data m xs Hst k q y); [done..|].
    assert (li ≠ S k ∧ k ≠ S k) as [Hn1 Hn2] by lia.
    pose proof (rotate_within li k (S k) x y pv xs ltac:(lia) ltac:(lia) ltac:(lia) Hn1 Hn2 Hx Hy Hpv) as Hw.
    pose proof (λ n, rotate_lookup li k (S k) x y pv xs n ltac:(lia) ltac:(lia) ltac:(lia)) as Hl.
    set (xs1 := rotate li k (S k) x y pv xs) in *.
    assert (xs1 !! k = Some pv) as Hk by (by rewrite Hl, decide_False, decide_True).
    assert (below a li xs1 pv) as Hbl1.
    { intros n z Hn Hz. rewrite Hl, !decide_False in Hz by lia. by apply (Hbl n). }
    assert (above (S k) e xs1 pv) as Hab1.
    { intros n z Hn Hz. rewrite Hl in Hz. destruct (decide (n = S k)) as [->|].
      - simplify_eq. apply ord_sign. lia.
      - rewrite !decide_False in Hz by lia. apply (Hab n); [lia|done]. }
    assert (∀ m', st m' xs1 → hwp (pivot ← get_prev pp;
      let pivotid := wrap_u32 (id - 1) in
      if pivot =? lp then mret (pivot, pivotid) else left_loop cmp versus fuel pivot pivotid lp) m' P) as Hgo.
    { intros m' Hst'. apply hwp_bind, (st_prev m' _ Hst' (S k) pp q); [done..|].
      rewrite (st_eqb m' _ Hst' _ _ _ _ Hqa (all_lookup_node l ps _ _ Hlp)).
      rewrite wrap_u32_small by lia. destruct (Nat.eqb_spec (S k) (S li)) as [Hkl|Hkl].
      - apply hwp_ret, (HP m' xs1 k q); [done|]. split_and!; try done; try lia.
        by replace k with li by lia.
      - apply (IH m' xs1 li k); [done|lia|lia|lia|done|done|done|lia|done|done|].
        intros m2 xs2 pi2 pp2 id2 Hst2 (Hw2 & Hrest). apply (HP m2 xs2 pi2); [done|].
        split; [by eapply within_trans|done]. }
    apply hwp_bind, (st_set m xs Hst li lp y); [done|]. intros m1 Hst1.
    apply hwp_bind, (st_data m1 _ Hst1 (S k) pp pv); [done|by rewrite list_lookup_insert_ne by lia|].
    apply hwp_bind, (st_set m1 _ Hst1 k q pv); [done|]. intros m2 Hst2.
    apply hwp_bind, (st_set m2 _ Hst2 (S k) pp x); [done|]. intros m3 Hst3. exact (Hgo m3 Hst3).
  - destruct (ps_lookup (S li)) as (n & Hn & Hna); [lia|].
    apply hwp_bind, (st_next m xs Hst li lp n); [done..|].
    apply (IH m xs (S li) pi); [done|lia|lia|lia|done|done|done|lia| |done|done].
    intros k z Hk Hz. destruct (decide (k = li)) as [->|]; [simplify_eq; done|]. apply (Hbl k); [lia|done].
Qed.

Lemma right_loop_wp m xs fuel ri pi rp pp id pv (P : Z * Z → mem → Prop) :
  st m xs → (a <= pi <= ri)%nat → (ri < e)%nat → (ri - pi < fuel)%nat →
  ps !! ri = Some rp → ps !! pi = Some pp → xs !! pi = Some pv → id = Z.of_nat pi - Z.of_nat a →
  below a pi xs pv → above (S ri) e xs pv →
  (∀ m' xs' pi' pp' id', st m' xs' → parted xs pv id' pp' xs' pi' → P (pp', id') m') →
  hwp (right_loop cmp versus fuel pp id rp) m P.
Proof using All.
  revert m xs ri pi rp pp id. induction fuel as [|fuel IH];
    intros m xs ri pi rp pp id Hst Hli Hpi Hf Hlp Hpp Hpv Hid Hbl Hab HP; [lia|].
  cbn [right_loop]. pose proof (st_length m xs Hst) as Hlen.
  rewrite (st_eqb m xs Hst _ _ _ _ (all_lookup_node l ps _ _ Hlp) (all_lookup_node l ps _ _ Hpp)).
  destruct (Nat.eqb_spec (S ri) (S pi)) as [Heq|Hne].
  { apply hwp_ret, (HP m xs pi pp id); [done|]. split_and!; try done; try lia; [apply within_refl|].
    by replace pi with ri by lia. }
  destruct (lookup_lt_is_Some_2 xs ri) as [x Hx]; [lia|].
  apply hwp_bind, (st_compare m xs Hst ri pi rp pp x pv); [done..|].
  destruct (Z.ltb_spec (cmp b x pv * - versus) 0) as [Hgt|Hle].
  - set (k := S pi). destruct (ps_lookup k) as (q & Hq & Hqa); [lia|].
    destruct (lookup_lt_is_Some_2 xs k) as [y Hy]; [lia|].
    apply hwp_bind, (st_data m xs Hst ri rp x); [done..|].
    apply hwp_bind, (st_next m xs Hst pi pp q); [done..|].
    apply hwp_bind, (st_data m xs Hst k q y); [done..|].
    assert (ri ≠ pi ∧ k ≠ pi) as [Hn1 Hn2] by lia.
    pose proof (rotate_within ri k pi x y pv xs ltac:(lia) ltac:(lia) ltac:(lia) Hn1 Hn2 Hx Hy Hpv) as Hw.
    pose proof (λ n, rotate_lookup ri k pi x y pv xs n ltac:(lia) ltac:(lia) ltac:(lia)) as Hl.
    set (xs1 := rotate ri k pi x y pv xs) in *.
    assert (xs1 !! k = Some pv) as Hk by (by rewrite Hl, decide_False, decide_True).
    assert (above (S ri) e xs1 pv) as Hab1.
    { intros n z Hn Hz. rewrite Hl, !decide_False in Hz by lia. by apply (Hab n). }
    assert (below a k xs1 pv) as Hbl1.
    { intros n z Hn Hz. rewrite Hl in Hz. destruct (decide (n = pi)) as [->|].
      - simplify_eq. unfold leq. lia.
      - rewrite !decide_False in Hz by lia. apply (Hbl n); [lia|done]. }
    assert (∀ m', st m' xs1 → hwp (pivot ← get_next pp;
      let pivotid := wrap_u32 (id + 1) in
      if pivot =? rp then mret (pivot, pivotid) else right_loop cmp versus fuel pivot pivotid rp) m' P) as Hgo.
    { intros m' Hst'. apply hwp_bind, (st_next m' _ Hst' pi pp q); [done..|].
      rewrite (st_eqb m' _ Hst' _ _ _ _ Hqa (all_lookup_node l ps _ _ Hlp)).
      rewrite wrap_u32_small by lia. destruct (Nat.eqb_spec (S k) (S ri)) as [Hkl|Hkl].
      - apply hwp_ret, (HP m' xs1 k q); [done|]. split_and!; try done; try lia.
        by replace k with ri by lia.
      - apply (IH m' xs1 ri k); [done|lia|lia|lia|done|done|done|lia|done|done|].
        intros m2 xs2 pi2 pp2 id2 Hst2 (Hw2 & Hrest). apply (HP m2 xs2 pi2); [done|].
        split; [by eapply within_trans|done]. }
    apply hwp_bind, (st_set m xs Hst ri rp y); [done|]. intros m1 Hst1.
    apply hwp_bind, (st_data m1 _ Hst1 pi pp pv); [done|by rewrite list_lookup_insert_ne by lia|].
    apply hwp_bind, (st_set m1 _ Hst1 k q pv); [done|]. intros m2 Hst2.
    apply hwp_bind, (st_set m2 _ Hst2 pi pp x); [done|]. intros m3 Hst3. exact (Hgo m3 Hst3).
  - destruct ri as [|ri]; [lia|]. destruct (ps_lookup ri) as (n & Hn & Hna); [lia|].
    apply hwp_bind, (st_prev m xs Hst (S ri) rp n); [done..|].
    apply (IH m xs ri pi); [done|lia|lia|lia|done|done|done|lia|done| |done].
    intros k z Hk Hz. destruct (decide (k = S ri)) as [->|]; [simplify_eq; by apply ord_sign|].
    apply (Hab k); [lia|done].
Qed.

(** Whichever element is the pivot, the partition puts the smaller ones before it and the
    bigger ones behind it. *)
Lemma partition_wp m xs fuel fel lel pi pp id pv (P : Z * Z → mem → Prop) :
  st m xs → (a <= pi < e)%nat → (e - a < fuel)%nat →
  ps !! a = Some fel → ps !! (e - 1)%nat = Some lel → ps !! pi = Some pp → xs !! pi = Some pv →
  id = Z.of_nat pi - Z.of_nat a →
  (∀ m' xs' pi' pp' id', st m' xs' → parted xs pv id' pp' xs' pi' → P (pp', id') m') →
  hwp (Simclist.partition cmp versus fuel fel lel pp id) m P.
Proof using All.
  intros Hst Hpi Hf Hfel Hlel Hpp Hpv Hid HP. unfold Simclist.partition. apply hwp_bind.
  apply (partition_loop_wp m xs fuel a (e - 1) pi fel lel pp pv); [done|lia|lia|lia|done|done|done|done| | |].
  { intros k x Hk. lia. } { intros k x Hk. lia. }
  intros m1 xs1 li ri lp rp Hst1 Hw1 Hli Hri Hlp Hrp Hpv1 Hbl Hab Hor.
  assert (∀ m' xs' pi' pp' id', st m' xs' → parted xs1 pv id' pp' xs' pi' → P (pp', id') m') as HP'.
  { intros m' xs' pi' pp' id' Hst' (Hw' & Hr). apply (HP m' xs' pi'); [done|]. split; [by eapply within_trans|done]. }
  rewrite (st_eqb m1 xs1 Hst1 _ _ _ _ (all_lookup_node l ps _ _ Hrp) (all_lookup_node l ps _ _ Hpp)).
  destruct (Nat.eqb_spec (S ri) (S pi)) as [Heq|Hne].
  - assert (ri = pi) as -> by lia. by apply (left_loop_wp m1 xs1 _ li pi lp pp id pv); try done; lia.
  - assert (li = pi) as -> by lia. by apply (right_loop_wp m1 xs1 _ ri pi rp pp id pv); try done; lia.
Qed.
End partition.

(** ** The quick sort *)

Lemma find_pivot_wp m xs a e fel lel id (P : Z → mem → Prop) :
  st m xs → (a < e)%nat → (e <= length ps)%nat → ps !! a = Some fel → ps !! (e - 1)%nat = Some lel →
  0 <= id < Z.of_nat e - Z.of_nat a →
  (∀ pp, ps !! (a + Z.to_nat id)%nat = Some pp → P pp m) →
  hwp (find_pivot (Z.of_nat a) fel (Z.of_nat e - 1) lel id) m P.
Proof using All.
  intros [Hr Hc] Hae He Hfel Hlel Hid HP. unfold find_pivot.
  destruct (ps_lookup (a + Z.to_nat id)) as (pp & Hpp & Hpa); [lia|].
  pose proof (rep_chain _ _ _ _ Hr) as Hch. pose proof (rep_all_nodes _ _ _ _ Hr) as Hns.
  case_test.
  - eapply hwp_run; [|by apply HP]. apply (walk_next_run m _ Hch Hns _ (S a)); [by apply all_lookup_node|].
    rewrite <-Hpa. f_equal.
  - eapply hwp_run; [|by apply HP]. apply (walk_prev_run m _ Hch Hns _ (S (a + Z.to_nat id))); [|done].
    rewrite <-(all_lookup_node l ps _ _ Hlel). f_equal. lia.
Qed.

Lemma list_sort_selectionsort_wp m xs a e fel lel (P : unit → mem → Prop) :
  st m xs → (a < e)%nat → (e <= length ps)%nat → ps !! a = Some fel → ps !! (e - 1)%nat = Some lel →
  (∀ m' xs', st m' xs' → within a e xs xs' → sorted_on a e xs' → P tt m') →
  hwp (list_sort_selectionsort cmp versus (Z.of_nat a) fel (Z.of_nat e - 1) lel) m P.
Proof using All.
  intros Hst Hae He Hfel Hlel HP. unfold list_sort_selectionsort. case_test.
  - apply hwp_ret, (HP m xs); [done|apply within_refl|]. apply sorted_short. lia.
  - apply (selection_loop_wp a e Hae He lel Hlel m xs _ a fel); [done|lia|lia|done| |done].
    intros k x Hk. lia.
Qed.

Lemma list_sort_quicksort_wp m xs fuel a e fel lel (P : unit → mem → Prop) :
  st m xs → (a < e)%nat → (e <= length ps)%nat → (e - a < fuel)%nat →
  ps !! a = Some fel → ps !! (e - 1)%nat = Some lel →
  (∀ m' xs', st m' xs' → within a e xs xs' → sorted_on a e xs' → P tt m') →
  hwp (list_sort_quicksort random cmp versus fuel (Z.of_nat a) fel (Z.of_nat e - 1) lel) m P.
Proof using All.
  revert m xs a e fel lel P. induction fuel as [|fuel IH];
    intros m xs a e fel lel P Hst Hae He Hf Hfel Hlel HP; [lia|].
  cbn [list_sort_quicksort].
  destruct (Z.leb_spec (Z.of_nat e - 1) (Z.of_nat a)) as [Hshort|Hlong].
  { apply hwp_ret, (HP m xs); [done|apply within_refl|]. apply sorted_short. lia. }
  destruct (Z.leb_spec (Z.of_nat e - 1 - Z.of_nat a + 1) SIMCLIST_MINQUICKSORTELS) as [_|_].
  { by apply (list_sort_selectionsort_wp m xs a e). }
  apply hwp_bind, (st_draw m xs Hst). intros rnd m1 Hst1.
  replace (Z.of_nat e - 1 - Z.of_nat a + 1) with (Z.of_nat e - Z.of_nat a) by lia.
  set (id := rnd mod (Z.of_nat e - Z.of_nat a)).
  assert (0 <= id < Z.of_nat e - Z.of_nat a) as Hid by (apply Z.mod_pos_bound; lia).
  apply hwp_bind, (find_pivot_wp m1 xs a e); [done..|]. intros pp Hpp.
  pose proof (st_length m1 xs Hst1) as Hlen.
  destruct (lookup_lt_is_Some_2 xs (a + Z.to_nat id)) as [pv Hpv]; [lia|].
  apply hwp_bind, (partition_wp a e He m1 xs _ fel lel (a + Z.to_nat id) pp id pv); [done|lia|lia|done|done|done|done|lia|].
  intros m2 xs2 pi pp2 id2 Hst2 (Hw2 & Hpi & Hpp2 & Hid2 & Hpv2 & Hbl2 & Hab2).
  pose proof (st_length m2 xs2 Hst2) as Hlen2.
  (* the part before the pivot *)
  assert (∀ (k : hm unit), (∀ m3 xs3, st m3 xs3 → within a pi xs2 xs3 → sorted_on a pi xs3 → hwp k m3 P) →
    hwp (((if 0 <? id2
          then p ← get_prev pp2; list_sort_quicksort random cmp versus fuel (Z.of_nat a) fel (wrap_u32 (Z.of_nat a + id2 - 1)) p
          else mret tt) : hm unit);; k) m2 P) as Hleft.
  { intros k Hk. apply hwp_bind. case_test.
    - destruct (all_lookup pi) as [q Hq]; [lia|].
      apply hwp_bind, (st_prev m2 xs2 Hst2 pi pp2 q); [done..|].
      rewrite wrap_u32_small by lia. replace (Z.of_nat a + id2 - 1) with (Z.of_nat pi - 1) by lia.
      apply (IH m2 xs2 a pi fel q); [done|lia|lia|lia|done| |exact Hk].
      destruct (ps_lookup (pi - 1)) as (q' & Hq' & Hqa); [lia|].
      replace (S (pi - 1)) with pi in Hqa by lia. by simplify_eq.
    - apply hwp_ret, (Hk m2 xs2); [done|apply within_refl|]. apply sorted_short. lia. }
  apply Hleft. intros m3 xs3 Hst3 Hw3 Hs3.
  assert (xs3 !! pi = Some pv) as Hpv3 by (rewrite (within_out _ _ _ _ Hw3) by lia; done).
  assert (below a pi xs3 pv) as Hbl3 by (by eapply below_within).
  assert (above (S pi) e xs3 pv) as Hab3.
  { intros k x Hk Hx. rewrite (within_out _ _ _ _ Hw3) in Hx by lia. by apply (Hab2 k). }
  assert (∀ m4 xs4, st m4 xs4 → within (S pi) e xs3 xs4 → sorted_on (S pi) e xs4 → P tt m4) as Hend.
  { intros m4 xs4 Hst4 Hw4 Hs4. apply (HP m4 xs4); [done| |].
    - eapply within_trans; [exact Hw2|].
      eapply within_trans; [by eapply (within_mono a pi a e); [lia|lia|]|]. by eapply (within_mono (S pi) e); [lia|lia|].
    - apply (sorted_join a pi e xs4 pv).
      + rewrite (within_out _ _ _ _ Hw4) by lia. done.
      + intros k x Hk Hx. rewrite (within_out _ _ _ _ Hw4) in Hx by lia. by apply (Hbl3 k).
      + by eapply above_within.
      + apply (sorted_on_ext _ _ xs3); [|done]. intros i Hi. apply (within_out _ _ _ _ Hw4). lia.
      + done. }
  rewrite !wrap_u32_small by lia. case_test.
  - destruct (ps_lookup (S pi)) as (q & Hq & Hqa); [lia|].
    apply hwp_bind, (st_next m3 xs3 Hst3 pi pp2 q); [done..|].
    replace (Z.of_nat a + id2 + 1) with (Z.of_nat (S pi)) by lia.
    apply (IH m3 xs3 (S pi) e q lel); [done|lia|lia|lia|done|done|exact Hend].
  - apply hwp_ret, (Hend m3 xs3); [done|apply within_refl|]. apply sorted_short. lia.
Qed.
End sort.

(** [list_sort] gives a permutation in which no element stands behind a later one.  The
    nodes stay, and nothing else changes. *)
Lemma list_sort_wp random m l ps xs versus cmp (P : Z → mem → Prop) :
  rep m l ps xs → iter_active l = false → numels l < max_numels →
  comparator (attrs l) = Some cmp → Orders cmp versus (blocks m) →
  (∀ m' xs', rep m' l ps xs' → changes (foot l ps) m m' → xs' ≡ₚ xs →
     StronglySorted (leq cmp versus (blocks m)) xs' → P 0 m') →
  hwp (list_sort random l versus) m P.
Proof.
  intros Hr Hit Hmax Hcmp Hord HP. unfold list_sort. rewrite Hcmp, Hit.
  pose proof (rep_numels _ _ _ _ Hr) as Hn. pose proof (rep_length _ _ _ _ Hr) as Hl. unfold max_numels in Hmax.
  destruct (Z.leb_spec (numels l) 1) as [Hle|Hgt].
  { apply hwp_ret, (HP m xs); auto with heap. destruct xs as [|x [|y k]]; simpl in *; [constructor|repeat constructor|lia]. }
  destruct (rep_first _ _ _ _ Hr) as (fel & Hfel & Hnext). apply hwp_bind, Hnext.
  destruct (lookup_lt_is_Some_2 (all l ps) (length ps)) as [lel Hlel].
  { unfold all. simpl. rewrite length_app. simpl. lia. }
  apply hwp_bind, (rep_prev _ _ _ _ Hr (length ps) lel _); [done|apply all_lookup_tail|].
  assert (∀ i p, all l ps !! S i = Some p → (i < length ps)%nat → ps !! i = Some p) as Hps.
  { intros i p Hp Hi. unfold all in Hp. simpl in Hp. by rewrite lookup_app_l in Hp. }
  apply hwp_bind. rewrite Hn. change 0 with (Z.of_nat 0).
  apply (list_sort_quicksort_wp random cmp versus (blocks m) m l ps eq_refl ltac:(lia) m xs _ 0 (length ps)).
  - by split.
  - lia.
  - lia.
  - rewrite (rounds_enough _ _ _ _ Hr). lia.
  - apply Hps; [done|lia].
  - apply Hps; [|lia]. by replace (S (length ps - 1)) with (length ps) by lia.
  - intros m' xs' [Hr' Hc] Hw Hs. apply hwp_ret, (HP m' xs'); [done|done|apply (within_perm _ _ _ _ Hw)|].
    pose proof (within_length _ _ _ _ Hw) as Hl'.
    assert (sorted_on cmp versus (blocks m) 0 (length xs') xs') as Hs' by (by rewrite Hl', <-Hl).
    clear - Hs' Hord. induction xs' as [|x k IH]; constructor.
    + apply IH. intros i j y z _ Hij Hj Hy Hz. apply (Hs' (S i) (S j)); [lia|lia|simpl; lia|done|done].
    + apply Forall_forall. intros y (j & Hj)%list_elem_of_lookup_1.
      apply (Hs' 0%nat (S j)); [lia|lia|simpl; apply lookup_lt_Some in Hj; lia|done|done].
Qed.
