(* ===== verification/SimclistRefine.v ===== *)
(** * simclist.c implements functional lists

    The operations that the components call, as one interface; what they promise of a
    functional list; and the theorem that every sequence of calls on a list of simclist.c
    keeps the promise, whatever the allocator does. *)

From S2P Require Import Prelude Simclist SimclistRep SimclistSpec SimclistOps SimclistSort.
From stdpp Require Import gmap sorting.
Local Open Scope Z_scope.

Inductive op : Type :=
| Insert (data pos : Z)
| Append (data : Z)
| Extract (pos : Z)
| Fetch
| Delete (pos : Z)
| Clear
| Get (pos : Z)
| Size
| Locate (data : Z)
| Contains (data : Z)
| Sort (versus : Z).

(** ** What is promised *)

Section promise.
(** The attributes of the list and the user's data; whether there is no memory for a node. *)
Context (a : list_attributes_s) (b : heap) (full : Prop).

Definition matches (data d : Z) : bool :=
  match comparator a with Some cmp => cmp b data d =? 0 | None => d =? data end.

(** The call, the list before, the result, the list after. *)
Inductive step : op → list Z → Z → list Z → Prop :=
| step_insert data pos xs :
    pos <= Z.of_nat (length xs) →
    step (Insert data pos) xs 1 (take (Z.to_nat pos) xs ++ data :: drop (Z.to_nat pos) xs)
| step_insert_far data pos xs : Z.of_nat (length xs) < pos → step (Insert data pos) xs (-1) xs
| step_insert_full data pos xs : full → step (Insert data pos) xs (-1) xs
| step_append data xs : step (Append data) xs 1 (xs ++ [data])
| step_append_full data xs : full → step (Append data) xs (-1) xs
| step_extract pos xs x : xs !! Z.to_nat pos = Some x → step (Extract pos) xs x (delete (Z.to_nat pos) xs)
| step_extract_none pos xs : Z.of_nat (length xs) <= pos → step (Extract pos) xs 0 xs
| step_fetch x xs : step Fetch (x :: xs) x xs
| step_fetch_none : step Fetch [] 0 []
| step_delete pos xs : pos < Z.of_nat (length xs) → step (Delete pos) xs 0 (delete (Z.to_nat pos) xs)
| step_delete_none pos xs : Z.of_nat (length xs) <= pos → step (Delete pos) xs (-1) xs
| step_clear xs : step Clear xs 0 []
| step_get pos xs : step (Get pos) xs (default 0 (xs !! Z.to_nat pos)) xs
| step_size xs : step Size xs (Z.of_nat (length xs)) xs
| step_locate data xs i x :
    list_find (λ d, matches data d = true) xs = Some (i, x) → step (Locate data) xs (Z.of_nat i) xs
| step_locate_none data xs :
    list_find (λ d, matches data d = true) xs = None → step (Locate data) xs (-1) xs
| step_contains data xs : step (Contains data) xs (Z.b2z (existsb (matches data) xs)) xs
| step_sort versus cmp xs xs' :
    comparator a = Some cmp → xs' ≡ₚ xs → StronglySorted (leq cmp versus b) xs' →
    step (Sort versus) xs 0 xs'
| step_sort_refused versus xs : comparator a = None → step (Sort versus) xs (-1) xs.

(** Places are unsigned, and comparators order what they sort. *)
Definition op_ok (o : op) : Prop :=
  match o with
  | Insert _ pos | Extract pos | Delete pos | Get pos => 0 <= pos < 2 ^ 32
  | Sort versus => ∀ cmp, comparator a = Some cmp → Orders cmp versus b
  | _ => True
  end.
End promise.

(** ** What is done *)

Section refine.
Context `{Allocator} (random : nat → Z).

Definition run_op (o : op) (l : list_t) : hm (Z * list_t) :=
  match o with
  | Insert data pos => list_insert_at l data pos
  | Append data => list_append l data
  | Extract pos => list_extract_at l pos
  | Fetch => list_fetch l
  | Delete pos => list_delete_at l pos
  | Clear => list_clear l
  | Get pos => x ← list_get_at l pos; mret (x, l)
  | Size => mret (list_size l, l)
  | Locate data => i ← list_locate l data; mret (i, l)
  | Contains data => c ← list_contains l data; mret (Z.b2z c, l)
  | Sort versus => r ← list_sort random l versus; mret (r, l)
  end.

Fixpoint run_ops (os : list op) (l : list_t) : hm (list Z * list_t) :=
  match os with
  | [] => mret ([], l)
  | o :: os => r ← run_op o l; q ← run_ops os r.2; mret (r.1 :: q.1, q.2)
  end.

(** Each call, from the memory and the list that it finds, is one of the promised steps; an
    element is refused only when this call gets no node. *)
Inductive steps (a : list_attributes_s) (b : heap) :
  list op → mem * list_t → list Z → list Z → mem * list_t → list Z → Prop :=
| steps_nil c xs : steps a b [] c xs [] c xs
| steps_cons o os m l xs r m1 l1 xs1 rs c xs2 :
    run_op o l m = Done ((r, l1), m1) → step a b (no_node m l) o xs r xs1 → steps a b os (m1, l1) xs1 rs c xs2 →
    steps a b (o :: os) (m, l) xs (r :: rs) c xs2.

Lemma gives_same m l ps xs : rep m l ps xs → gives m l ps m l xs.
Proof. intros Hr. exists ps. split_and!; auto with heap. Qed.

Lemma gives_trans m l ps m1 l1 ps1 m2 l2 xs2 :
  changes (foot l ps) m m1 → (∀ p, p ∈ foot l1 ps1 → p ∈ foot l ps ∨ entries m !! p = None) →
  iter_active l1 = iter_active l → attrs l1 = attrs l →
  gives m1 l1 ps1 m2 l2 xs2 → gives m l ps m2 l2 xs2.
Proof.
  intros Hc1 Hf1 Hi1 Ha1 (ps2 & Hr2 & Hc2 & Hf2 & Hi2 & Ha2).
  exists ps2. split_and!; [done| | |congruence|congruence].
  - by eapply changes_trans.
  - intros p Hp. destruct (Hf2 p Hp) as [Hp1|Hn]; [by apply Hf1|].
    destruct (decide (p ∈ foot l ps)) as [|Hnp]; [by left|right].
    destruct (entries m !! p) eqn:E; [|done]. destruct Hc1 as [Hc1 _].
    rewrite <-(Hc1 p Hnp) in E by (by rewrite E). congruence.
Qed.

Lemma run_op_wp o m l ps xs :
  rep m l ps xs → iter_active l = false → Z.of_nat (length xs) < max_numels → op_ok (attrs l) (blocks m) o →
  hwp (run_op o l) m (λ r m', ∃ xs', step (attrs l) (blocks m) (no_node m l) o xs r.1 xs' ∧
    gives m l ps m' r.2 xs').
Proof.
  intros Hr Hit Hmax Hok. pose proof (rep_numels _ _ _ _ Hr) as Hn. pose proof (rep_length _ _ _ _ Hr) as Hl.
  assert (numels l < max_numels) as Hm by lia. pose proof (gives_same m l ps xs Hr) as Hsame.
  destruct o as [data pos|data|pos| |pos| |pos| |data|data|versus]; simpl in *.
  - destruct (decide (pos <= numels l)) as [Hle|Hgt].
    + eapply hwp_mono; [apply (list_insert_at_wp m l ps xs data pos); [done|done|lia|done]|].
      intros r m' [(-> & Hno & Hg)|[-> Hg]].
      * exists xs. split; [by apply step_insert_full|exact Hg].
      * eexists. split; [|exact Hg]. constructor. lia.
    + unfold list_insert_at. rewrite Hit, (proj2 (Z.ltb_lt _ _)) by lia. simpl. apply hwp_ret.
      exists xs. split; [apply step_insert_far; lia|done].
  - unfold list_append. eapply hwp_mono; [apply (list_insert_at_wp m l ps xs data (numels l)); [done|done|lia|done]|].
    intros r m' [(-> & Hno & Hg)|[-> Hg]].
    + exists xs. split; [by apply step_append_full|exact Hg].
    + exists (xs ++ [data]). split; [constructor|]. by rewrite take_ge, drop_ge in Hg by lia.
  - destruct (decide (pos < numels l)) as [Hlt|Hge].
    + destruct (lookup_lt_is_Some_2 xs (Z.to_nat pos)) as [x Hx]; [lia|].
      eapply hwp_mono; [apply (list_extract_at_wp m l ps xs pos x); [done|done|lia|done|done]|].
      intros r m' [-> Hg]. eexists. split; [by constructor|done].
    + unfold list_extract_at. rewrite Hit, (proj2 (Z.leb_le _ _)) by lia. simpl. apply hwp_ret.
      exists xs. split; [constructor; lia|done].
  - unfold list_fetch. destruct xs as [|x xs].
    + unfold list_extract_at. rewrite Hit, (proj2 (Z.leb_le _ _)) by (simpl in *; lia). simpl. apply hwp_ret.
      exists []. split; [constructor|done].
    + eapply hwp_mono; [apply (list_extract_at_wp m l ps (x :: xs) 0 x); done|].
      intros r m' [-> Hg]. exists xs. split; [constructor|done].
  - destruct (decide (pos < numels l)) as [Hlt|Hge].
    + eapply hwp_mono; [apply (list_delete_at_wp m l ps xs pos); [done|done|lia|done]|].
      intros r m' [-> Hg]. eexists. split; [constructor; lia|done].
    + unfold list_delete_at. rewrite Hit, (proj2 (Z.leb_le _ _)) by lia. simpl. apply hwp_ret.
      exists xs. split; [constructor; lia|done].
  - eapply hwp_mono; [by apply (list_clear_wp m l ps xs)|].
    intros r m' (-> & Hg & _). exists []. split; [constructor|done].
  - apply hwp_bind. eapply hwp_mono; [by apply (list_get_at_wp m l ps xs)|].
    intros x m' [-> ->]. apply hwp_ret. exists xs. split; [constructor|done].
  - apply hwp_ret. exists xs. split; [|done]. simpl. unfold list_size. rewrite Hn, Hl. constructor.
  - apply hwp_bind. eapply hwp_mono; [by apply (list_locate_wp m l ps xs)|].
    intros x m' [-> ->]. apply hwp_ret. exists xs. split; [|done]. simpl. unfold find_index.
    destruct (list_find _ xs) as [[i y]|] eqn:E; [by eapply step_locate|by apply step_locate_none].
  - apply hwp_bind. eapply hwp_mono; [by apply (list_contains_wp m l ps xs)|].
    intros x m' [-> ->]. apply hwp_ret. exists xs. split; [apply step_contains|done].
  - apply hwp_bind. destruct (comparator (attrs l)) as [cmp|] eqn:Hcmp.
    + apply (list_sort_wp random m l ps xs versus cmp); [done|done|done|done|by apply Hok|].
      intros m' xs' Hr' Hc Hp Hs. apply hwp_ret. exists xs'. split; [by eapply step_sort|].
      exists ps. split_and!; auto.
    + unfold list_sort. rewrite Hcmp. do 2 apply hwp_ret. exists xs. split; [by apply step_sort_refused|done].
Qed.

Lemma step_length a b full o xs r xs' : step a b full o xs r xs' → (length xs' <= S (length xs))%nat.
Proof.
  intros Hs. inversion Hs as [| | | | | | | | | | | | | | | | |? ? ? ? ? Hp|]; subst;
    rewrite ?delete_take_drop, ?length_app, ?length_cons, ?length_take, ?length_drop; simpl; try lia.
  apply Permutation_length in Hp. lia.
Qed.

Lemma run_ops_wp os m l ps xs :
  rep m l ps xs → iter_active l = false → Z.of_nat (length xs + length os) <= max_numels →
  Forall (op_ok (attrs l) (blocks m)) os →
  hwp (run_ops os l) m (λ r m',
    ∃ xs', steps (attrs l) (blocks m) os (m, l) xs r.1 (m', r.2) xs' ∧ gives m l ps m' r.2 xs').
Proof.
  revert m l ps xs. induction os as [|o os IH]; intros m l ps xs Hr Hit Hmax Hok.
  { apply hwp_ret. exists xs. split; [constructor|by apply gives_same]. }
  apply Forall_cons in Hok as [Ho Hos]. rewrite length_cons in Hmax. cbn [run_ops].
  destruct (hwp_elim _ _ _ (run_op_wp o m l ps xs Hr Hit ltac:(lia) Ho)) as ([r l1] & m1 & E & xs1 & Hs & Hg).
  cbn [fst snd] in *. apply hwp_bind. unfold hwp at 1. rewrite E. pose proof (step_length _ _ _ _ _ _ _ Hs).
  destruct Hg as (ps1 & Hr1 & Hc1 & Hf1 & Hi1 & Ha1). pose proof Hc1 as [_ Hb1].
  apply hwp_bind. eapply hwp_mono; [apply (IH m1 l1 ps1 xs1); [done|congruence|lia|by rewrite Ha1, Hb1]|].
  intros q m2 (xs2 & Hss & Hg2). apply hwp_ret. exists xs2. rewrite Ha1, Hb1 in Hss.
  split; [by econstructor|]. by eapply gives_trans.
Qed.

(** A list is made, gets a comparator, and is used. *)
Definition session (f : option (heap → Z → Z → Z)) (os : list op) : hm (list Z * list_t) :=
  r ← list_init;
  run_ops os (list_attributes_comparator r.2 f).

(** C18: every sequence of at most 2^24 calls on a new list of simclist.c, with places that are
    unsigned ints and a comparator that orders where it sorts ([op_ok]), is defined and does to the
    list, through the nodes on the heap, the pointer to the middle, the spare nodes and the random
    pivots, what the calls promise of a functional list ([steps]); no node of another list and no
    user data changes.  An element is refused only where the call finds no spare node and no memory
    for one ([no_node]), or when its place is behind the end.  What is promised of list_clear is the
    0 that the code returns, and not the number of elements of simclist.h.  The list itself cannot
    be made when there is no memory for its two sentinels. *)
Theorem list_operations_refine m f os :
  let a := Attrs f None None false None None None in
  Z.of_nat (length os) <= max_numels → Forall (op_ok a (blocks m)) os →
  (session f os m = Fault NullDeref ∧ ∃ e, alloc_entry e = None) ∨
  ∃ l0 m0 rs m' l ps xs,
    list_init m = Done ((0, l0), m0) ∧ session f os m = Done ((rs, l), m') ∧
    steps a (blocks m) os (m0, list_attributes_comparator l0 f) [] rs (m', l) xs ∧ rep m' l ps xs ∧
    changes [] m m' ∧ (∀ p, p ∈ foot l ps → entries m !! p = None).
Proof.
  intros a Hmax Hok. destruct (list_init_wp m) as [[Hf He]|Hi].
  { left. split; [|done]. unfold session, mbind, hm_bind. by rewrite Hf. }
  right. destruct (hwp_elim _ _ _ Hi) as ([r l] & m1 & E & Er & Hr & Hl & Hc & Hfr).
  cbn [fst snd] in *. subst r. pose proof Hc as [_ Hb].
  set (l1 := list_attributes_comparator l f).
  assert (attrs l1 = a) as Ha by (unfold l1; by rewrite Hl).
  assert (rep m1 l1 [] []) as Hr1 by (destruct Hr; constructor; done).
  destruct (hwp_elim _ _ _ (run_ops_wp os m1 l1 [] [] Hr1 ltac:(unfold l1; by rewrite Hl) ltac:(simpl; lia)
    ltac:(by rewrite Ha, Hb))) as ([rs l2] & m2 & E2 & xs & Hs & ps & Hr2 & Hc2 & Hf2 & _).
  cbn [fst snd] in *. rewrite Ha, Hb in Hs. exists l, m1, rs, m2, l2, ps, xs. split_and!; [done| |done|done|..].
  - unfold session, mbind, hm_bind. by rewrite E.
  - eapply changes_trans; [exact Hc|exact Hc2|]. intros p Hp. right. by apply Hfr.
  - intros p Hp. destruct (Hf2 p Hp) as [Hp1|Hn]; [by apply Hfr|].
    destruct (entries m !! p) eqn:Ep; [|done]. destruct Hc as [Hc _].
    rewrite <-(Hc p) in Ep by (set_solver || by rewrite Ep). congruence.
Qed.
End refine.

(** ** A concrete allocator *)

Definition highest (ps : list Z) : Z := foldr Z.max 0 ps.
Definition new_address (e : gmap Z entry) : Z := 1 + highest (map_to_list e).*1.

Lemma highest_ge ps p : p ∈ ps → p <= highest ps.
Proof.
  unfold highest. induction ps as [|q ps IH]; simpl; [by intros ?%not_elem_of_nil|].
  intros [->|Hp]%elem_of_cons; [lia|]. specialize (IH Hp). lia.
Qed.

Lemma highest_pos ps : 0 <= highest ps.
Proof. unfold highest. induction ps; simpl; lia. Qed.

Lemma new_address_spec e : new_address e ≠ 0 ∧ e !! new_address e = None.
Proof.
  unfold new_address. split; [pose proof (highest_pos (map_to_list e).*1); lia|].
  destruct (e !! _) as [c|] eqn:E; [|done]. apply elem_of_map_to_list in E.
  apply (list_elem_of_fmap_2 fst) in E. apply highest_ge in E. simpl in E. lia.
Qed.

Program Definition next_free : Allocator := {|
  alloc_entry e := Some (new_address e, Entry 170 170 170);
  alloc_block b n := None
|}.
Next Obligation. intros e p c [= <- <-]. apply new_address_spec. Qed.
Next Obligation. intros b n p Hp. done. Qed.

(** The ready-made comparators order, both ways. *)
Lemma number_orders versus b :
  versus = 1 ∨ versus = -1 → Orders (fun _ => list_comparator_number) versus b.
Proof.
  intros Hv. constructor; unfold list_comparator_number; intros; destruct Hv as [-> | ->];
  repeat match goal with |- context [?x <? ?y] => destruct (Z.ltb_spec x y)
                       | H : context [?x <? ?y] |- _ => destruct (Z.ltb_spec x y) end; simpl in *; lia.
Qed.

Definition sample_ops : list op :=
  [Append 5; Append 3; Insert 9 1; Insert 4 0; Sort 1; Get 0; Locate 9; Extract 1; Sort (-1); Get 0; Size; Fetch; Delete 5; Clear].

Lemma sort_ok versus b :
  versus = 1 ∨ versus = -1 → op_ok (Attrs (Some (fun _ => list_comparator_number)) None None false None None None) b (Sort versus).
Proof. intros Hv cmp Hc. cbn [comparator] in Hc. assert (cmp = fun _ => list_comparator_number) as -> by congruence. by apply number_orders. Qed.

Lemma sample_ok b :
  Forall (op_ok (Attrs (Some (fun _ => list_comparator_number)) None None false None None None) b) sample_ops.
Proof.
  unfold sample_ops.
  repeat first [apply Forall_nil; exact I | apply Forall_cons; split; [first [exact I|apply sort_ok; auto|cbn [op_ok]; lia]|]].
Qed.

Definition sample_results : option (list Z) :=
  match session (H := next_free) (fun n => Z.of_nat n) (Some (fun _ => list_comparator_number)) sample_ops (Mem ∅ ∅ 0) with
  | Done ((rs, _), _) => Some rs
  | Fault _ => None
  end.

(** In ascending order with 1, in descending order with -1. *)
Example sample_session : sample_results = Some [1; 1; 1; 1; 0; 3; 3; 4; 0; 9; 3; 9; -1; 0].
Proof. vm_compute. reflexivity. Qed.

Lemma list_operations_refine_witness :
  ∃ l0 m0 rs m' l ps xs,
    session (H := next_free) (fun n => Z.of_nat n) (Some (fun _ => list_comparator_number)) sample_ops (Mem ∅ ∅ 0)
      = Done ((rs, l), m') ∧
    steps (H := next_free) (fun n => Z.of_nat n) (Attrs (Some (fun _ => list_comparator_number)) None None false None None None) ∅
      sample_ops (m0, list_attributes_comparator l0 (Some (fun _ => list_comparator_number))) [] rs (m', l) xs ∧
    rep m' l ps xs.
Proof.
  destruct (list_operations_refine (H := next_free) (fun n => Z.of_nat n) (Mem ∅ ∅ 0)
    (Some (fun _ => list_comparator_number)) sample_ops) as [[_ [e He]]|(l0 & m0 & rs & m' & l & ps & xs & H1 & H2 & H3 & H4 & _)].
  - done.
  - apply sample_ok.
  - discriminate He.
  - exists l0, m0, rs, m', l, ps, xs. exact (conj H2 (conj H3 H4)).
Defined.

(** ** What the library gets wrong *)

(** After the only element of a list is deleted the middle is the head sentinel, and the
    check of a debugging build fails. *)
Definition repok_after (os : list op) : res (bool * mem) :=
  (r ← session (H := next_free) (fun n => Z.of_nat n) None os; list_repOk r.2) (Mem ∅ ∅ 0).

Example repok_after_delete :
  fst <$> repok_after [Append 5] = Done true ∧ fst <$> repok_after [Append 5; Delete 0] = Done false.
Proof. vm_compute. split; reflexivity. Qed.

(** The hash of a list depends on what the variable of the caller held before. *)
Definition hash_after (os : list op) (hash : Z) : res (Z * Z * mem) :=
  (r ← session (H := next_free) (fun n => Z.of_nat n) None os;
   list_hash (list_attributes_hash_computer r.2 (Some (fun _ _ => 7))) hash) (Mem ∅ ∅ 0).

Example hash_uninitialised :
  fst <$> hash_after [Append 5; Append 6] 0 = Done (0, 423) ∧
  fst <$> hash_after [Append 5; Append 6] 1 = Done (0, 440).
Proof. vm_compute. split; reflexivity. Qed.
