(* ===== verification/SimclistDump.v ===== *)
(** * simclist.c: lists in files

    A list is dumped to a file and restored from it.  The file starts with a header, then
    come the elements, and at its end stands a random number that is in the header too.
    The programs of Simclist run beside an open file; whatever makes the C function return
    -1 ends the program without a value. *)

From S2P Require Import CString Simclist SimclistRep SimclistSpec SimclistOps SimclistRefine.
From stdpp Require Import gmap.
Local Open Scope Z_scope.

(** ** The order of bytes *)

Definition be_value (b : bytes) : Z := le_value (rev b).

(** The functions of arpa/inet.h on a machine that stores the least significant byte first;
    [ntohs] and [ntohl] are the same. *)
Definition htons (x : Z) : Z := be_value (le_bytes 2 x).
Definition htonl (x : Z) : Z := be_value (le_bytes 4 x).

Definition hton64 (x : Z) : Z :=
  let x := x mod 2 ^ 64 in
  if htons 1 =? 1 then x
  else
    Z.lor (Z.lor (Z.lor (Z.lor (Z.lor (Z.lor (Z.lor
      (Z.shiftr (Z.land x 0xff00000000000000) 56)
      (Z.shiftr (Z.land x 0x00ff000000000000) 40))
      (Z.shiftr (Z.land x 0x0000ff0000000000) 24))
      (Z.shiftr (Z.land x 0x000000ff00000000) 8))
      (Z.shiftl (Z.land x 0x00000000ff000000) 8 mod 2 ^ 64))
      (Z.shiftl (Z.land x 0x0000000000ff0000) 24 mod 2 ^ 64))
      (Z.shiftl (Z.land x 0x000000000000ff00) 40 mod 2 ^ 64))
      (Z.shiftl (Z.land x 0x00000000000000ff) 56 mod 2 ^ 64).

Definition wrap_s64 (z : Z) : Z := (z + 2 ^ 63) mod 2 ^ 64 - 2 ^ 63.

(** ** Open files *)

(** The bytes of a file, the offset, and the size beyond which nothing can be written. *)
Record file_t := File { f_bytes : bytes; f_pos : nat; f_max : nat }.

Definition fm (A : Type) : Type := mem * file_t → res (option A * (mem * file_t)).

#[export] Instance fm_ret : MRet fm := fun A a s => Done (Some a, s).
#[export] Instance fm_bind : MBind fm := fun A B k c s =>
  match c s with
  | Done (Some a, s) => k a s
  | Done (None, s) => Done (None, s)
  | Fault f => Fault f
  end.

(** [return -1]. *)
Definition minus_one {A} : fm A := fun s => Done (None, s).
Definition fault_at {A} (f : fault) : fm A := fun _ => Fault f.
Definition lift {A} (c : hm A) : fm A := fun s =>
  match c s.1 with Done (a, m) => Done (Some a, (m, s.2)) | Fault f => Fault f end.

(** [write] of the bytes [d], as far as there is room: a write of no byte is an error, a
    short one is not.  A gap before the offset is filled with zeros. *)
Definition write_data (d : bytes) : fm unit := fun s =>
  let f := s.2 in
  let k := Nat.min (length d) (f_max f - f_pos f) in
  if (k =? 0)%nat && negb (length d =? 0)%nat then Done (None, s)
  else
    let gap := f_bytes f ++ replicate (f_pos f - length (f_bytes f)) 0 in
    Done (Some tt,
      (s.1, File (if (k =? 0)%nat then f_bytes f else take (f_pos f) gap ++ take k d ++ drop (f_pos f + k) (f_bytes f))
                 (f_pos f + k) (f_max f))).

(** [WRITE_ERRCHECK] of [size] bytes from a variable with the bytes [v], or from a block. *)
Definition write_var (size : nat) (v : bytes) : fm unit :=
  if (size <=? length v)%nat then write_data (take size v) else fault_at OutOfBounds.

Definition write_block (p n : Z) : fm unit := fun s =>
  if p =? 0 then (if n =? 0 then mret tt else minus_one) s
  else match blocks s.1 !! p with
       | None => Fault UseAfterFree
       | Some d => if n <=? Z.of_nat (length d) then write_data (take (Z.to_nat n) d) s else Fault OutOfBounds
       end.

(** [READ_ERRCHECK] of [n] bytes. *)
Definition read_data (n : nat) : fm bytes := fun s =>
  let f := s.2 in
  let d := take n (drop (f_pos f) (f_bytes f)) in
  let s := (s.1, File (f_bytes f) (f_pos f + length d) (f_max f)) in
  if (length d =? n)%nat then Done (Some d, s) else Done (None, s).

Definition lseek_set (pos : nat) : fm unit := fun s =>
  Done (Some tt, (s.1, File (f_bytes s.2) pos (f_max s.2))).
Definition lseek_cur : fm nat := fun s => Done (Some (f_pos s.2), s).
Definition lseek_hop (n : Z) : fm unit := fun s =>
  Done (Some tt, (s.1, File (f_bytes s.2) (f_pos s.2 + Z.to_nat n) (f_max s.2))).
Definition lseek_end : fm nat := fun s =>
  let n := length (f_bytes s.2) in Done (Some n, (s.1, File (f_bytes s.2) n (f_max s.2))).

(** A 32-bit number in network order, and one as it is. *)
Definition read_net32 : fm Z := b ← read_data 4; mret (htonl (le_value b)).
Definition read_host32 : fm Z := b ← read_data 4; mret (le_value b).

Section malloc.
Context `{Allocator}.

(** [malloc( n )]; what the block holds at first is not looked at. *)
Definition new_block (n : Z) : fm Z := fun s =>
  match alloc_block (blocks s.1) n with
  | Some p =>
      Done (Some p, (Mem (entries s.1) (<[p := replicate (Z.to_nat n) 0]> (blocks s.1)) (draws s.1), s.2))
  | None => Done (Some 0, s)
  end.

(** [READ_ERRCHECK] of [n] bytes into a block. *)
Definition read_block (p n : Z) : fm unit := fun s =>
  if p =? 0 then (if n =? 0 then mret tt else minus_one) s
  else match blocks s.1 !! p with
       | None => Fault UseAfterFree
       | Some old =>
           if n <=? Z.of_nat (length old)
           then
             let f := s.2 in
             let d := take (Z.to_nat n) (drop (f_pos f) (f_bytes f)) in
             let s := (Mem (entries s.1) (<[p := d ++ drop (length d) old]> (blocks s.1)) (draws s.1),
                       File (f_bytes f) (f_pos f + length d) (f_max f)) in
             Done (if Z.of_nat (length d) =? n then Some tt else None, s)
           else Fault OutOfBounds
       end.
End malloc.

(** ** Writing *)

Definition SIMCLIST_DUMPFORMAT_VERSION : Z := 1.
Definition SIMCLIST_DUMPFORMAT_HEADERLEN : nat := 30.

(** [sizeof(struct list_dump_header_s)], with the holes of alignment, and [sizeof(size_t)]. *)
Definition sizeof_header : Z := 40.
Definition sizeof_size_t : nat := 8.

(** How an element becomes bytes, and what is done with them then: the serializer allocates,
    and without one the bytes of the element are taken as they are.  None is ENOTTY. *)
Definition dump_source (l : list_t) : option ((Z → fm (Z * Z)) * (Z → fm unit)) :=
  match serializer (attrs l), meter (attrs l) with
  | Some f, _ => Some (fun data => lift (f data), fun buf => lift (free_data buf))
  | None, Some f => Some (fun data => b ← lift get_blocks; mret (data, wrap_u32 (f b data)), fun _ => mret tt)
  | None, None => None
  end.

(** The loop over the elements from [x] on, with [header.elemlen] and [header.totlistlen].
    When the first length turns out not to be that of all elements it starts again. *)
Fixpoint dump_loop (fuel : nat) (source : (Z → fm (Z * Z)) * (Z → fm unit)) (l : list_t) (x elemlen totlistlen : Z)
  : fm (Z * Z) :=
  match fuel with
  | O => fault_at OutOfFuel
  | S fuel =>
      if x =? tail_sentinel l then mret (elemlen, totlistlen)
      else
        data ← lift (get_data x);
        r ← source.1 data;
        let '(buf, bufsize) := r in
        let totlistlen := wrap_u32 (totlistlen + bufsize) in
        if negb (elemlen =? 0) then
          if negb (elemlen =? bufsize) then
            _ ← source.2 buf;
            x ← lift (get_next (head_sentinel l));
            dump_loop fuel source l x 0 0
          else
            _ ← write_block buf bufsize;
            _ ← source.2 buf;
            x ← lift (get_next x);
            dump_loop fuel source l x elemlen totlistlen
        else
          _ ← write_var sizeof_size_t (le_bytes 4 bufsize);
          _ ← write_block buf bufsize;
          _ ← source.2 buf;
          x ← lift (get_next x);
          dump_loop fuel source l x elemlen totlistlen
  end.

(** Twice through the list, and a round that ends it. *)
Definition dump_rounds (l : list_t) : nat := rounds l + rounds l.

(** The time in microseconds, the random number and what the field [listhash] of the header
    holds before are arguments; the value is [*len]. *)
Definition list_dump_filedescriptor (timestamp random uninit : Z) (l : list_t) : fm Z :=
  match dump_source l with
  | None => minus_one
  | Some source =>
      let rndterm := le_bytes 4 (htonl (wrap_u32 random)) in
      listhash ← match hasher (attrs l) with
                 | Some _ =>
                     r ← lift (list_hash l uninit);
                     if negb (htonl (wrap_u32 r.1) =? 0) then minus_one else mret (le_bytes 4 r.2)
                 | None => mret (le_bytes 4 (htonl 0))
                 end;
      _ ← lseek_set SIMCLIST_DUMPFORMAT_HEADERLEN;
      r ← (if 0 <? numels l then
             x ← lift (get_next (head_sentinel l));
             data ← lift (get_data x);
             r ← source.1 data;
             _ ← source.2 r.1;
             dump_loop (dump_rounds l) source l x r.2 0
           else mret (0, 0));
      let '(elemlen, totlistlen) := r in
      _ ← write_data rndterm;
      _ ← lseek_set 0;
      _ ← write_data (le_bytes 2 (htons SIMCLIST_DUMPFORMAT_VERSION));
      _ ← write_data (le_bytes 8 (hton64 timestamp));
      _ ← write_data rndterm;
      _ ← write_data (le_bytes 4 (htonl totlistlen));
      _ ← write_data (le_bytes 4 (htonl (numels l)));
      _ ← write_data (le_bytes 4 (htonl elemlen));
      _ ← write_data listhash;
      mret (sizeof_header + totlistlen)
  end.

(** ** Reading *)

Record list_dump_info_t := DumpInfo {
  version : Z;
  timestamp : Z;
  info_list_size : Z;
  list_numels : Z;
  info_list_hash : Z;
  consistent : bool
}.

(** [info->dumpsize] is not set. *)
Definition list_dump_getinfo_filedescriptor : fm list_dump_info_t :=
  b ← read_data 2;
  let version := htons (le_value b) in
  if SIMCLIST_DUMPFORMAT_VERSION <? version then minus_one
  else
    b ← read_data 8;
    let timestamp := wrap_s64 (hton64 (le_value b)) in
    terminator_head ← read_net32;
    size ← read_net32;
    numels ← read_net32;
    elemlen ← read_net32;
    hash ← read_net32;
    _ ← lseek_hop (if 0 <? elemlen then size else wrap_u32 (size + wrap_u32 (elemlen * numels)));
    terminator_tail ← read_net32;
    mret (DumpInfo version timestamp size numels (wrap_s32 hash) (terminator_head =? terminator_tail)).

Section restore.
Context `{Allocator}.

(** [numels] elements are read and appended.  [step] gives the element, the bytes that were
    read for it and its length in memory.  That an element cannot be appended goes
    unnoticed. *)
Fixpoint restore_loop (n : nat) (step : fm (Z * Z * Z)) (l : list_t) (totreadlen totmemorylen : Z)
  : fm (list_t * Z * Z) :=
  match n with
  | O => mret (l, totreadlen, totmemorylen)
  | S n =>
      r ← step;
      let '(el, readlen, memlen) := r in
      r ← lift (list_append l el);
      restore_loop n step r.2 (wrap_u32 (totreadlen + readlen)) (wrap_u32 (totmemorylen + memlen))
  end.

(** The elements of one size: with an unserializer they go through one buffer. *)
Definition restore_const (l : list_t) (numels elemlen : Z) : fm (list_t * Z * Z) :=
  let n := Z.to_nat numels in
  match unserializer (attrs l) with
  | Some f =>
      buf ← new_block elemlen;
      r ← restore_loop n (_ ← read_block buf elemlen;
                          r ← lift (f buf);
                          mret (r.1, 0, r.2)) l 0 0;
      mret (r.1.1, wrap_u32 (numels * elemlen), r.2)
  | None =>
      r ← restore_loop n (buf ← new_block elemlen;
                          _ ← read_block buf elemlen;
                          mret (buf, 0, 0)) l 0 0;
      mret (r.1.1, wrap_u32 (numels * elemlen), wrap_u32 (numels * elemlen))
  end.

(** Each element behind its size. *)
Definition restore_sized (l : list_t) (numels : Z) : fm (list_t * Z * Z) :=
  let n := Z.to_nat numels in
  match unserializer (attrs l) with
  | Some f =>
      restore_loop n (elsize ← read_host32;
                      buf ← new_block elsize;
                      _ ← read_block buf elsize;
                      r ← lift (f buf);
                      mret (r.1, elsize, r.2)) l 0 0
  | None =>
      r ← restore_loop n (elsize ← read_host32;
                          buf ← new_block elsize;
                          _ ← read_block buf elsize;
                          mret (buf, elsize, 0)) l 0 0;
      mret (r.1.1, r.1.2, r.1.2)
  end.

(** The value is [*len] and the list. *)
Definition list_restore_filedescriptor (l : list_t) : fm (Z * list_t) :=
  b ← read_data 2;
  if negb (htons (le_value b) =? SIMCLIST_DUMPFORMAT_VERSION) then minus_one
  else
    _ ← read_data 8;
    rndterm ← read_net32;
    totlistlen ← read_net32;
    numels ← read_net32;
    elemlen ← read_net32;
    _ ← read_net32;
    r ← (if 0 <? elemlen then restore_const l numels elemlen else restore_sized l numels);
    let '(l, totreadlen, totmemorylen) := r in
    elsize ← read_net32;
    if negb (totreadlen =? totlistlen) && (wrap_s32 elsize =? wrap_s32 rndterm) then minus_one
    else
      cur ← lseek_cur;
      size ← lseek_end;
      if negb (cur =? size)%nat then minus_one else mret (totmemorylen, l).
End restore.

(** ** Files by their names *)

(** [open] makes an empty file that may grow to [disk] bytes, or fails. *)
Definition list_dump_file (timestamp random uninit : Z) (l : list_t) (disk : option nat) (m : mem)
  : res (option Z * (mem * file_t)) :=
  match disk with
  | None => Done (None, (m, File [] 0 0))
  | Some max => list_dump_filedescriptor timestamp random uninit l (m, File [] 0 max)
  end.

(** [open] gives the bytes of the file, or fails. *)
Definition list_restore_file `{Allocator} (l : list_t) (file : option bytes) (m : mem)
  : res (option (Z * list_t) * (mem * file_t)) :=
  match file with
  | None => Done (None, (m, File [] 0 0))
  | Some b => list_restore_filedescriptor l (m, File b 0 (length b))
  end.

Definition list_dump_getinfo_file (file : option bytes) (m : mem)
  : res (option list_dump_info_t * (mem * file_t)) :=
  match file with
  | None => Done (None, (m, File [] 0 0))
  | Some b => list_dump_getinfo_filedescriptor (m, File b 0 (length b))
  end.

(** ** Ready-made functions *)

(** [list_meter_##type] gives the size of the type. *)
Definition list_meter_number (size : Z) (b : heap) (el : Z) : Z := size.
