(* ===== verification/SimclistDumpSpec.v ===== *)
(** * A list comes back from its file

    The dump of a list is a header, the bytes of the elements and a terminator; restoring
    from it makes a list with the same bytes, and leaves the first list alone. *)

From S2P Require Import CString Simclist SimclistRep SimclistSpec SimclistOps SimclistRefine.
From S2P Require Export SimclistDump.
From stdpp Require Import gmap.
Local Open Scope Z_scope.

(** ** The order of bytes *)

(** The [n] bytes of a number as they stand in a file. *)
Definition net (n : nat) (z : Z) : bytes := rev (le_bytes n z).

Lemma net_length n z : length (net n z) = n.
Proof. unfold net. by rewrite length_rev, le_bytes_length. Qed.

Lemma net_bytes n z : Forall is_byte (net n z).
Proof. apply Forall_rev, le_bytes_are_bytes. Qed.

Lemma le_bytes_be n x : le_bytes n (be_value (le_bytes n x)) = net n x.
Proof.
  pose proof (le_bytes_value (net n x) (net_bytes n x)) as H. by rewrite net_length in H.
Qed.

Lemma be_value_net n x : 0 <= x < 2 ^ (8 * Z.of_nat n) → be_value (le_bytes n (le_value (net n x))) = x.
Proof.
  intros Hx. pose proof (le_bytes_value (net n x) (net_bytes n x)) as H. rewrite net_length in H.
  rewrite H. unfold be_value, net. rewrite rev_involutive. by apply le_value_bytes.
Qed.

Lemma be_value_bound n x : 0 <= be_value (le_bytes n x) < 2 ^ (8 * Z.of_nat n).
Proof. pose proof (le_value_bound (net n x) (net_bytes n x)) as H. by rewrite net_length in H. Qed.

(** The masks of [hton64]. *)
Lemma land_byte x i : 0 <= i → Z.land x (Z.shiftl 255 i) = Z.shiftl (x / 2 ^ i mod 256) i.
Proof.
  intros Hi. change 255 with (Z.ones 8). change 256 with (2 ^ 8). rewrite <-Z.shiftr_div_pow2, <-Z.land_ones by lia.
  apply Z.bits_inj'. intros j Hj. rewrite Z.land_spec, !Z.shiftl_spec by lia. destruct (Z.le_gt_cases i j).
  - rewrite Z.land_spec, Z.shiftr_spec by lia. by replace (j - i + i) with j by lia.
  - rewrite (Z.testbit_neg_r _ (j - i)), (Z.testbit_neg_r (Z.land _ _) (j - i)) by lia. by rewrite andb_false_r.
Qed.

Lemma lor_above a b k : 0 <= k → 0 <= a < 2 ^ k → Z.lor a (Z.shiftl b k) = a + b * 2 ^ k.
Proof.
  intros Hk Ha. rewrite <-Z.shiftl_mul_pow2 by lia. symmetry. rewrite Z.add_nocarry_lxor, Z.lxor_lor; [done|..].
  all: apply Z.bits_inj'; intros j Hj; rewrite Z.land_spec, Z.shiftl_spec, Z.bits_0 by lia.
  all: destruct (Z.le_gt_cases k j); [|rewrite (Z.testbit_neg_r b (j - k)) by lia; apply andb_false_r].
  all: assert (Z.testbit a j = false) as ->; [|done].
  all: destruct (Z.eq_dec a 0) as [->|]; [apply Z.bits_0|]; apply Z.bits_above_log2; [lia|].
  all: apply Z.log2_lt_pow2; [lia|]; assert (2 ^ k <= 2 ^ j) by (apply Z.pow_le_mono_r; lia); lia.
Qed.

Lemma le_bytes_seq n x : le_bytes n x = (λ i, x / 2 ^ (8 * Z.of_nat i) mod 256) <$> seq 0 n.
Proof.
  revert x. induction n as [|n IH]; intros x; [done|]. cbn [le_bytes seq fmap list_fmap]. f_equal.
  - by rewrite Z.div_1_r.
  - rewrite IH, <-fmap_S_seq, <-list_fmap_compose. apply list_fmap_ext. intros i j _. cbn.
    rewrite Z.div_div by lia. do 2 f_equal. rewrite Nat2Z.inj_succ.
    replace (8 * Z.succ (Z.of_nat j)) with (8 + 8 * Z.of_nat j) by lia. by rewrite Z.pow_add_r by lia.
Qed.

Lemma le_bytes_mod n x : le_bytes n (x mod 2 ^ (8 * Z.of_nat n)) = le_bytes n x.
Proof.
  revert x. induction n as [|n IH]; intros x; [done|]. cbn [le_bytes].
  rewrite Nat2Z.inj_succ. replace (8 * Z.succ (Z.of_nat n)) with (8 + 8 * Z.of_nat n) by lia.
  rewrite Z.pow_add_r by lia. change (2 ^ 8) with 256.
  assert (0 < 2 ^ (8 * Z.of_nat n)) by (apply Z.pow_pos_nonneg; lia). f_equal.
  - rewrite Z.rem_mul_r by lia. by rewrite Z.mul_comm, Z.mod_add, Z.mod_mod by lia.
  - rewrite <-(IH (x / 256)). f_equal. rewrite Z.rem_mul_r by lia.
    rewrite (Z.mul_comm 256), Z.div_add by lia. pose proof (Z.mod_pos_bound x 256 ltac:(lia)).
    by rewrite (Z.div_small (x mod 256)) by lia.
Qed.

Lemma byte_place b i : 0 <= b < 256 → 0 <= i <= 56 → Z.shiftl b i mod 2 ^ 64 = Z.shiftl b i.
Proof.
  intros Hb Hi. apply Z.mod_small. rewrite Z.shiftl_mul_pow2 by lia.
  assert (2 ^ i <= 2 ^ 56) by (apply Z.pow_le_mono_r; lia). assert (0 < 2 ^ i) by (apply Z.pow_pos_nonneg; lia). nia.
Qed.

Lemma hton64_be x : hton64 x = be_value (le_bytes 8 x).
Proof.
  rewrite <-(le_bytes_mod 8 x). change (8 * Z.of_nat 8) with 64. unfold hton64.
  change (htons 1 =? 1) with false. cbv beta iota zeta.
  set (y := x mod 2 ^ 64). clearbody y.
  change 0xff00000000000000 with (Z.shiftl 255 56). change 0x00ff000000000000 with (Z.shiftl 255 48).
  change 0x0000ff0000000000 with (Z.shiftl 255 40). change 0x000000ff00000000 with (Z.shiftl 255 32).
  change 0x00000000ff000000 with (Z.shiftl 255 24). change 0x0000000000ff0000 with (Z.shiftl 255 16).
  change 0x000000000000ff00 with (Z.shiftl 255 8). change 0x00000000000000ff with (Z.shiftl 255 0).
  rewrite !land_byte, le_bytes_seq by lia. cbn [seq fmap list_fmap].
  change (8 * Z.of_nat 0) with 0. change (8 * Z.of_nat 1) with 8. change (8 * Z.of_nat 2) with 16.
  change (8 * Z.of_nat 3) with 24. change (8 * Z.of_nat 4) with 32. change (8 * Z.of_nat 5) with 40.
  change (8 * Z.of_nat 6) with 48. change (8 * Z.of_nat 7) with 56.
  assert (∀ i, 0 <= y / 2 ^ i mod 256 < 256) as Hb by (intros i; apply Z.mod_pos_bound; lia).
  pose proof (Hb 0); pose proof (Hb 8); pose proof (Hb 16); pose proof (Hb 24).
  pose proof (Hb 32); pose proof (Hb 40); pose proof (Hb 48); pose proof (Hb 56). clear Hb.
  set (b0 := y / 2 ^ 0 mod 256) in *. set (b1 := y / 2 ^ 8 mod 256) in *. set (b2 := y / 2 ^ 16 mod 256) in *.
  set (b3 := y / 2 ^ 24 mod 256) in *. set (b4 := y / 2 ^ 32 mod 256) in *. set (b5 := y / 2 ^ 40 mod 256) in *.
  set (b6 := y / 2 ^ 48 mod 256) in *. set (b7 := y / 2 ^ 56 mod 256) in *.
  clearbody b0 b1 b2 b3 b4 b5 b6 b7.
  rewrite !Z.shiftr_shiftl_l, !Z.shiftl_shiftl by lia.
  rewrite !byte_place by lia. change (Z.shiftl b7 (56 - 56)) with b7.
  change (48 - 40) with 8. change (40 - 24) with 16. change (32 - 8) with 24. change (24 + 8) with 32.
  change (16 + 24) with 40. change (8 + 40) with 48. change (0 + 56) with 56.
  rewrite (lor_above b7 _ 8), (lor_above _ b5 16), (lor_above _ b4 24), (lor_above _ b3 32), (lor_above _ b2 40),
    (lor_above _ b1 48), (lor_above _ b0 56) by lia. unfold be_value, le_value. cbn [rev app foldr]. lia.
Qed.

(** What the header holds of a number is what is read from it. *)
Lemma header16 x : le_bytes 2 (htons x) = net 2 x.
Proof. apply le_bytes_be. Qed.
Lemma header32 x : le_bytes 4 (htonl x) = net 4 x.
Proof. apply le_bytes_be. Qed.
Lemma header64 x : le_bytes 8 (hton64 x) = net 8 x.
Proof. rewrite hton64_be. apply le_bytes_be. Qed.

Lemma read16 x : 0 <= x < 2 ^ 16 → htons (le_value (net 2 x)) = x.
Proof. apply (be_value_net 2). Qed.
Lemma read32 x : 0 <= x < 2 ^ 32 → htonl (le_value (net 4 x)) = x.
Proof. apply (be_value_net 4). Qed.
Lemma read64 x : 0 <= x < 2 ^ 64 → hton64 (le_value (net 8 x)) = x.
Proof. rewrite hton64_be. apply (be_value_net 8). Qed.

(** ** Programs with a file *)

Definition fwp {A} (c : fm A) (s : mem * file_t) (P : A → mem * file_t → Prop) : Prop :=
  match c s with Done (Some a, s') => P a s' | _ => False end.

Section rules.
Implicit Types (s : mem * file_t) (m : mem) (f : file_t).

Lemma fwp_bind {A B} (c : fm A) (k : A → fm B) s P : fwp c s (λ a s', fwp (k a) s' P) → fwp (c ≫= k) s P.
Proof. unfold fwp, mbind, fm_bind. by destruct (c s) as [[[a|] s']|]. Qed.

Lemma fwp_ret {A} (a : A) s (P : A → mem * file_t → Prop) : P a s → fwp (mret a) s P.
Proof. done. Qed.

Lemma fwp_mono {A} (c : fm A) s (P Q : A → mem * file_t → Prop) :
  fwp c s P → (∀ a s', P a s' → Q a s') → fwp c s Q.
Proof. unfold fwp. destruct (c s) as [[[a|] s']|]; eauto. Qed.

Lemma fwp_elim {A} (c : fm A) s (P : A → mem * file_t → Prop) :
  fwp c s P → ∃ a s', c s = Done (Some a, s') ∧ P a s'.
Proof. unfold fwp. destruct (c s) as [[[a|] s']|]; [eauto|done|done]. Qed.

Lemma fwp_run {A} (c : fm A) s a s' (P : A → mem * file_t → Prop) :
  c s = Done (Some a, s') → P a s' → fwp c s P.
Proof. unfold fwp. by intros ->. Qed.

(** A program on the heap leaves the file as it is. *)
Lemma fwp_lift {A} (c : hm A) m f (P : A → mem * file_t → Prop) :
  hwp c m (λ a m', P a (m', f)) → fwp (lift c) (m, f) P.
Proof. unfold fwp, lift, hwp. cbn [fst snd]. by destruct (c m) as [[a m']|]. Qed.

(** The offset stands behind [a]; then comes [b].  Bytes that are missing before the offset
    are zeros. *)
Record stands (max : nat) (f : file_t) (a b : bytes) : Prop := {
  st_pos : f_pos f = length a;
  st_bytes : f_bytes f ++ replicate (length a - length (f_bytes f)) 0 = a ++ b;
  st_max : f_max f = max
}.

Lemma stands_seek max f a b pos :
  stands max f a b → f_bytes f = a ++ b → (pos <= length (a ++ b))%nat →
  stands max (File (f_bytes f) pos (f_max f)) (take pos (a ++ b)) (drop pos (a ++ b)).
Proof.
  intros [_ _ H] Hb Hp. rewrite Hb. split; cbn [f_pos f_bytes f_max]; [|..|done].
  - rewrite length_take. lia.
  - rewrite take_drop, length_take. replace (_ - _)%nat with 0%nat by lia. by rewrite app_nil_r.
Qed.

Lemma fwp_write d max a b m f (P : unit → mem * file_t → Prop) :
  stands max f a b → d ≠ [] → (length a + length d <= max)%nat →
  (∀ f', stands max f' (a ++ d) (drop (length d) b) → f_bytes f' = (a ++ d) ++ drop (length d) b → P tt (m, f')) →
  fwp (write_data d) (m, f) P.
Proof.
  intros [Hp Hb Hm] Hd Hroom HP. unfold fwp, write_data. cbn [fst snd]. rewrite Hp, Hm.
  assert (0 < length d)%nat by (destruct d; [done|cbn; lia]).
  rewrite Nat.min_l by lia. rewrite (proj2 (Nat.eqb_neq (length d) 0)) by lia. cbn [andb].
  rewrite Hb, take_app_length, (firstn_all d).
  assert (drop (length a + length d) (f_bytes f) = drop (length d) b) as ->.
  { destruct (decide (length (f_bytes f) <= length a)%nat) as [Hle|Hle].
    - apply (f_equal length) in Hb. rewrite !length_app, length_replicate in Hb.
      rewrite !drop_ge by lia. done.
    - replace (length a - length (f_bytes f))%nat with 0%nat in Hb by lia. rewrite app_nil_r in Hb.
      by rewrite Hb, <-drop_drop, drop_app_length. }
  apply HP; [|by rewrite app_assoc]. split; cbn [f_pos f_bytes f_max]; [by rewrite length_app| |done].
  rewrite !length_app. replace (_ - _)%nat with 0%nat by lia. by rewrite app_nil_r, app_assoc.
Qed.

(** A file that is read: the offset stands between [a] and [b]. *)
Definition reads (f : file_t) (a b : bytes) : Prop := f_pos f = length a ∧ f_bytes f = a ++ b.

Lemma fwp_read d a b m f (P : bytes → mem * file_t → Prop) :
  reads f a (d ++ b) → (∀ f', reads f' (a ++ d) b → P d (m, f')) → fwp (read_data (length d)) (m, f) P.
Proof.
  intros [Hp Hb] HP. unfold fwp, read_data. cbn [fst snd]. rewrite Hp, Hb, drop_app_length, take_app_length.
  rewrite Nat.eqb_refl. apply HP. split; cbn [f_pos f_bytes]; [by rewrite length_app|by rewrite app_assoc].
Qed.

Lemma fwp_read_n n d a b m f (P : bytes → mem * file_t → Prop) :
  length d = n → reads f a (d ++ b) → (∀ f', reads f' (a ++ d) b → P d (m, f')) → fwp (read_data n) (m, f) P.
Proof. intros <-. apply fwp_read. Qed.
End rules.

(** ** The dump *)

(** The element [x] is written as the bytes [d]; a serializer leaves no block behind that
    the loop does not free. *)
Definition element_bytes (l : list_t) (m : mem) (x : Z) (d : bytes) : Prop :=
  match dump_source l with
  | None => False
  | Some source =>
      ∃ buf m1, (∀ f, source.1 x (m, f) = Done (Some (buf, Z.of_nat (length d)), (m1, f))) ∧
        (∀ f, write_block buf (Z.of_nat (length d)) (m1, f) = write_data d (m1, f)) ∧
        (∀ f, source.2 buf (m1, f) = Done (Some tt, (m, f)))
  end.

(** Without a serializer these are the bytes of the element, as many as the meter says. *)
Lemma element_bytes_meter l m x b n g :
  serializer (attrs l) = None → meter (attrs l) = Some g → x ≠ 0 → blocks m !! x = Some b →
  g (blocks m) x = Z.of_nat n → (n <= length b)%nat → Z.of_nat n < 2 ^ 32 → element_bytes l m x (take n b).
Proof.
  intros Hs Hg Hx Hb Hn Hlen Hmax. unfold element_bytes, dump_source. rewrite Hs, Hg. exists x, m.
  assert (length (take n b) = n) as Hl by (rewrite length_take; lia). rewrite Hl. split_and!; [|..|done].
  - intros f. cbn [fst snd]. unfold mbind, fm_bind, lift, get_blocks. cbn [fst snd]. rewrite Hn.
    by rewrite wrap_u32_small by lia.
  - intros f. unfold write_block. rewrite (proj2 (Z.eqb_neq x 0)) by done. cbn [fst]. rewrite Hb.
    rewrite (proj2 (Z.leb_le _ _)) by lia. by rewrite Nat2Z.id.
Qed.

Lemma concat_const_length n (es : list bytes) : Forall (λ d, length d = n) es → length (concat es) = (n * length es)%nat.
Proof. induction 1 as [|d es Hd _ IH]; cbn; [lia|]. rewrite length_app, IH, Hd. lia. Qed.

Section dump.
Context (m : mem) (l : list_t) (ps xs : list Z) (Hr : rep m l ps xs).
Context (n : nat) (ds : list bytes) (max : nat).
Hypothesis Hds : Forall2 (element_bytes l m) xs ds.
Hypothesis Hn : Forall (λ d, length d = n) ds.
Hypothesis Hpos : (0 < n)%nat.
Hypothesis Hsize : Z.of_nat (n * length xs) < 2 ^ 32.

Lemma dump_loop_wp source fuel i el a b f (P : Z * Z → mem * file_t → Prop) :
  dump_source l = Some source → all l ps !! S i = Some el → (length xs - i < fuel)%nat →
  stands max f a b → (i < length xs)%nat ∨ f_bytes f = a ++ b → (i <= length xs)%nat →
  (length a + n * (length xs - i) <= max)%nat →
  (∀ f', stands max f' (a ++ concat (drop i ds)) (drop (n * (length xs - i)) b) →
     f_bytes f' = (a ++ concat (drop i ds)) ++ drop (n * (length xs - i)) b →
     P (Z.of_nat n, Z.of_nat (n * length xs)) (m, f')) →
  fwp (dump_loop fuel source l el (Z.of_nat n) (Z.of_nat (n * i))) (m, f) P.
Proof using Hr Hds Hn Hpos Hsize.
  intros Hsrc. revert i el a b f. induction fuel as [|fuel IH]; intros i el a b f Hi Hfuel Hf Hflush Hle Hroom HP; [lia|].
  pose proof (Forall2_length _ _ _ Hds) as Hlen. cbn [dump_loop].
  destruct (rep_cursor _ _ _ _ Hr i el Hi) as [[Hend ->]|(x & nx & Hlt & Hne & Hx & Hp & Hnx)].
  - rewrite Z.eqb_refl. apply fwp_ret. rewrite Hend in *.
    rewrite drop_ge in HP by lia. cbn [concat] in HP. rewrite app_nil_r, Nat.sub_diag, Nat.mul_0_r, drop_0 in HP.
    apply HP; [done|]. by destruct Hflush; [lia|].
  - rewrite (proj2 (Z.eqb_neq _ _)) by done.
    destruct (Forall2_lookup_l _ _ _ _ _ Hds Hx) as (d & Hd & He).
    pose proof (Forall_lookup_1 _ _ _ _ Hn Hd) as Hdn. cbv beta in Hdn.
    unfold element_bytes in He. rewrite Hsrc in He. destruct He as (buf & m1 & Hb1 & Hb2 & Hb3).
    apply fwp_bind, fwp_lift, (rep_value _ _ _ _ Hr i el x); [done..|].
    apply fwp_bind. eapply fwp_run; [apply Hb1|]. cbv beta iota zeta.
    rewrite Hdn. rewrite (proj2 (Z.eqb_neq (Z.of_nat n) 0)) by lia. rewrite Z.eqb_refl. cbn [negb].
    apply fwp_bind. rewrite <-Hdn at 1. unfold fwp at 1. rewrite Hb2. rewrite drop_S with (x := d) in HP by done.
    apply (fwp_write d max a b m1 f); [done|by destruct d; cbn in *; [lia|]|rewrite Hdn; nia|].
    intros f1 Hf1 Hfl1. apply fwp_bind. eapply fwp_run; [apply Hb3|].
    apply fwp_bind, fwp_lift, (rep_next _ _ _ _ Hr (S i) el nx); [by apply all_lookup_node|done|].
    replace (wrap_u32 (Z.of_nat (n * i) + Z.of_nat n)) with (Z.of_nat (n * S i))
      by (rewrite wrap_u32_small; nia).
    eapply IH; [done|lia|exact Hf1|by right|lia|rewrite length_app, Hdn; nia|]. intros f2 Hf2 Hfl2.
    apply HP; cbn [concat]; rewrite app_assoc; [|rewrite Hfl2]; replace (n * (length xs - i))%nat with (n + n * (length xs - S i))%nat by nia.
    + rewrite <-drop_drop, <-Hdn at 1. by rewrite Hdn in *.
    + by rewrite <-drop_drop, Hdn.
Qed.

(** The field [listhash], which is not in network order. *)
Definition hash_bytes (uninit : Z) : bytes :=
  match hasher (attrs l) with
  | None => net 4 0
  | Some h => le_bytes 4 (foldl (hash_step h (blocks m) (numels l) uninit) (wrap_s32 (numels l * 2 + 100)) xs)
  end.

(** The size of the elements, which is not known of no element. *)
Definition elem_size : Z := if (length xs =? 0)%nat then 0 else Z.of_nat n.

Definition dump_header (now random uninit : Z) : bytes :=
  net 2 SIMCLIST_DUMPFORMAT_VERSION ++ net 8 now ++ net 4 (wrap_u32 random) ++ net 4 (Z.of_nat (n * length xs)) ++
  net 4 (Z.of_nat (length xs)) ++ net 4 elem_size ++ hash_bytes uninit.

Definition dump_text (now random uninit : Z) : bytes :=
  dump_header now random uninit ++ concat ds ++ net 4 (wrap_u32 random).

Lemma hash_bytes_length uninit : length (hash_bytes uninit) = 4%nat.
Proof. unfold hash_bytes. case_match; [apply le_bytes_length|apply net_length]. Qed.

Lemma dump_header_length now random uninit : length (dump_header now random uninit) = 30%nat.
Proof. unfold dump_header. by rewrite !length_app, !net_length, hash_bytes_length. Qed.

Lemma dump_text_length now random uninit :
  length ds = length xs →
  length (dump_text now random uninit) = (34 + n * length xs)%nat.
Proof.
  intros Hl. rewrite <- Hl. unfold dump_text. rewrite !length_app, dump_header_length, net_length.
  assert (length (concat ds) = (n * length ds)%nat) as ->; [|lia].
  clear -Hn. revert Hn. generalize ds as ks. intros ks Hks.
  induction Hks as [|d ks Hd _ IH]; cbn [concat length]; [lia|]. rewrite length_app, Hd, IH. lia.
Qed.

(** The contents, behind room for the header. *)
Lemma dump_contents_wp f source (P : Z * Z → mem * file_t → Prop) :
  dump_source l = Some source → stands max f (replicate 30 0) [] → (30 + n * length xs <= max)%nat →
  (∀ f', stands max f' (replicate 30 0 ++ concat ds) [] → P (elem_size, Z.of_nat (n * length xs)) (m, f')) →
  fwp (if 0 <? numels l then
         x ← lift (get_next (head_sentinel l));
         data ← lift (get_data x);
         r ← source.1 data;
         _ ← source.2 r.1;
         dump_loop (dump_rounds l) source l x r.2 0
       else mret (0, 0)) (m, f) P.
Proof using Hr Hds Hn Hpos Hsize.
  intros Hsrc Hf Hroom HP. pose proof (rep_numels _ _ _ _ Hr) as Hnum. pose proof (rep_length _ _ _ _ Hr) as Hl.
  pose proof (Forall2_length _ _ _ Hds) as Hlen. unfold elem_size in HP.
  destruct (Z.ltb_spec 0 (numels l)) as [Hlt|Hge].
  - destruct (rep_first _ _ _ _ Hr) as (el & Hel & Hfirst). apply fwp_bind, fwp_lift, Hfirst.
    destruct (rep_cursor _ _ _ _ Hr 0 el Hel) as [[? _]|(x & nx & _ & _ & Hx & Hp & _)]; [lia|].
    destruct (Forall2_lookup_l _ _ _ _ _ Hds Hx) as (d & Hd & He).
    pose proof (Forall_lookup_1 _ _ _ _ Hn Hd) as Hdn. cbv beta in Hdn.
    unfold element_bytes in He. rewrite Hsrc in He. destruct He as (buf & m1 & Hb1 & _ & Hb3).
    apply fwp_bind, fwp_lift, (rep_value _ _ _ _ Hr 0 el x); [done..|].
    apply fwp_bind. eapply fwp_run; [apply Hb1|]. apply fwp_bind. eapply fwp_run; [apply Hb3|]. cbn [snd].
    rewrite Hdn. replace 0 with (Z.of_nat (n * 0)) at 1 by lia. rewrite (proj2 (Nat.eqb_neq _ _)) in HP by lia.
    eapply (dump_loop_wp _ _ 0 el); [exact Hsrc|exact Hel| |exact Hf|left; lia|lia|rewrite length_replicate; lia|].
    + unfold dump_rounds, rounds. lia.
    + intros f' Hf' _. rewrite drop_nil, drop_0 in Hf'. by apply HP.
  - assert (xs = [] ∧ ds = []) as [Hx Hd].
    { split; apply length_zero_iff_nil; lia. }
    apply fwp_ret. rewrite Hx in HP. cbn [length Nat.eqb] in HP. rewrite Nat.mul_0_r in HP. apply HP.
    by rewrite Hd, app_nil_r.
Qed.

Lemma list_dump_wp now random uninit (P : Z → mem * file_t → Prop) :
  dump_source l ≠ None → (34 + n * length xs <= max)%nat →
  (∀ f', f_bytes f' = dump_text now random uninit → P (sizeof_header + Z.of_nat (n * length xs)) (m, f')) →
  fwp (list_dump_filedescriptor now random uninit l) (m, File [] 0 max) P.
Proof using Hr Hds Hn Hpos Hsize.
  intros Hsrc Hroom HP. unfold list_dump_filedescriptor. destruct (dump_source l) as [source|] eqn:Es; [|done].
  pose proof (rep_numels _ _ _ _ Hr) as Hnum. pose proof (rep_length _ _ _ _ Hr) as Hl.
  pose proof (concat_const_length n ds Hn) as Hc. rewrite <-(Forall2_length _ _ _ Hds) in Hc.
  cbv zeta. rewrite (header32 (wrap_u32 random)). apply fwp_bind.
  apply (fwp_mono _ _ (λ h s', h = hash_bytes uninit ∧ s' = (m, File [] 0 max))).
  { unfold hash_bytes. destruct (hasher (attrs l)) as [h|] eqn:Eh; [|apply fwp_ret; by rewrite header32].
    apply fwp_bind, fwp_lift. eapply hwp_mono; [by eapply list_hash_wp|]. intros r m' [-> ->]. done. }
  intros h s' [-> ->]. apply fwp_bind. eapply fwp_run; [done|]. cbn [fst snd f_bytes f_max]. apply fwp_bind.
  eapply dump_contents_wp; [exact Es|by split|lia|]. intros f1 Hf1. cbv beta iota zeta.
  rewrite header16, header64, !header32, Hnum, Hl. apply fwp_bind.
  eapply fwp_write; [exact Hf1|done|rewrite length_app, length_replicate, Hc, net_length; lia|].
  intros f2 Hf2 Hb2. rewrite drop_nil, app_nil_r in Hb2. rewrite drop_nil in Hf2. apply fwp_bind. eapply fwp_run; [done|].
  cbn [fst snd]. apply (stands_seek _ _ _ _ 0) in Hf2; [|by rewrite app_nil_r|lia]. rewrite take_0, drop_0, app_nil_r in Hf2.
  revert Hf2. generalize (File (f_bytes f2) 0 (f_max f2)). intros f3 Hf3.
  do 7 (apply fwp_bind; eapply fwp_write;
    [eassumption
    |intros Hnil; apply (f_equal length) in Hnil; rewrite ?net_length, ?hash_bytes_length in Hnil; discriminate Hnil
    |rewrite ?length_app, ?net_length, ?hash_bytes_length; cbn [length]; lia|]; intros ? ? ?).
  apply fwp_ret, HP. match goal with H : f_bytes ?f = _ |- f_bytes ?f = _ => rewrite H end.
  rewrite !drop_drop, !net_length, hash_bytes_length, <-!app_assoc. unfold dump_text, dump_header. rewrite <-!app_assoc.
  do 7 f_equal.
Qed.
End dump.

(** ** Restoring *)

Lemma hm_bind_Done {A B} (c : hm A) (k : A → hm B) m b m' :
  (c ≫= k) m = Done (b, m') → ∃ a m1, c m = Done (a, m1) ∧ k a m1 = Done (b, m').
Proof. unfold mbind, hm_bind. destruct (c m) as [[a m1]|]; [eauto|done]. Qed.

(** Memory does not run out. *)
Class Plenty (H : Allocator) : Prop := {
  plenty_entry e : is_Some (alloc_entry e);
  plenty_block b n : is_Some (alloc_block b n)
}.

Section restore.
Context `{Hal : Allocator} {Hplenty : Plenty Hal}.

Lemma take_spare_ok m l ps xs lent l' m' :
  rep m l ps xs → take_spare l m = Done ((lent, l'), m') → lent ≠ 0.
Proof using Hplenty.
  intros Hr. unfold take_spare. destruct (spareels l) as [|p s] eqn:Hs.
  - unfold mbind, hm_bind, new_entry. destruct (plenty_entry (entries m)) as [[p c] E]. rewrite E.
    apply alloc_entry_fresh in E as [Hp _]. by intros [= <- <- <-].
  - intros [= <- <- <-]. pose proof (rep_nodes _ _ _ _ Hr) as Hn. unfold foot in Hn. rewrite Hs in Hn.
    apply Forall_app in Hn as [_ Hn]. by apply Forall_cons in Hn as [[Hp _] _].
Qed.

Lemma list_insert_at_not_refused m l ps xs data pos r m' :
  rep m l ps xs → iter_active l = false → pos <= numels l → list_insert_at l data pos m = Done (r, m') → r.1 = 1.
Proof using Hplenty.
  intros Hr Hit Hpos. unfold list_insert_at. rewrite Hit, (proj2 (Z.ltb_ge _ _)) by lia. cbn [orb].
  intros ([lent l1] & m1 & E1 & H)%hm_bind_Done. pose proof (take_spare_ok _ _ _ _ _ _ _ Hr E1) as Hne.
  cbv beta iota in H. rewrite (proj2 (Z.eqb_neq lent 0)) in H by done.
  do 9 (apply hm_bind_Done in H as (? & ? & _ & H)). by injection H as <- _.
Qed.

Lemma list_append_wp m l ps xs data :
  rep m l ps xs → iter_active l = false → numels l < max_numels →
  hwp (list_append l data) m (λ r m', r.1 = 1 ∧ gives m l ps m' r.2 (xs ++ [data])).
Proof using Hplenty.
  intros Hr Hit Hmax. unfold list_append. pose proof (rep_numels _ _ _ _ Hr) as Hn.
  pose proof (rep_length _ _ _ _ Hr) as Hl.
  destruct (hwp_elim _ _ _ (list_insert_at_wp m l ps xs data (numels l) Hr Hit ltac:(lia) Hmax)) as (r & m' & E & H).
  eapply hwp_run; [exact E|]. pose proof (list_insert_at_not_refused _ _ _ _ _ _ _ _ Hr Hit (Z.le_refl _) E) as H1.
  split; [done|]. destruct H as [[H _]|[_ H]]; [lia|].
  rewrite Hn, Hl, Nat2Z.id, firstn_all, drop_all in H. exact H.
Qed.

(** The list [l] grew by [ys] to [l'].  The blocks and the other lists are as they were. *)
Record grown (m : mem) (l : list_t) (ps xs : list Z) (ys : list Z) (m' : mem) (l' : list_t) (ps' : list Z) : Prop := {
  gr_rep : rep m' l' ps' (xs ++ ys);
  gr_blocks : blocks m ⊆ blocks m';
  gr_attrs : attrs l' = attrs l;
  gr_iter : iter_active l' = iter_active l;
  gr_frame k qs zs : rep m k qs zs → (∀ p, p ∈ foot k qs → p ∉ foot l ps) →
    rep m' k qs zs ∧ (∀ p, p ∈ foot k qs → p ∉ foot l' ps')
}.

Lemma grown_refl m l ps xs : rep m l ps xs → grown m l ps xs [] m l ps.
Proof. intros H. split; try done. by rewrite app_nil_r. Qed.

Lemma grown_trans m l ps xs ys m1 l1 ps1 zs m2 l2 ps2 :
  grown m l ps xs ys m1 l1 ps1 → grown m1 l1 ps1 (xs ++ ys) zs m2 l2 ps2 → grown m l ps xs (ys ++ zs) m2 l2 ps2.
Proof.
  intros [H1 B1 A1 I1 F1] [H2 B2 A2 I2 F2]. split; [|by etrans|congruence|congruence|].
  - by rewrite app_assoc.
  - intros k qs ws Hk Hd. destruct (F1 _ _ _ Hk Hd) as [Hk1 Hd1]. by apply F2.
Qed.

(** More blocks change no list. *)
Lemma rep_blocks m b n l ps xs : rep m l ps xs → rep (Mem (entries m) b n) l ps xs.
Proof. by apply rep_ext. Qed.

(** A block with the next bytes of the file. *)
Lemma read_new_block_wp {A} (k : Z → fm A) d a b m f (P : A → mem * file_t → Prop) :
  reads f a (d ++ b) →
  (∀ p f', p ≠ 0 → blocks m !! p = None → reads f' (a ++ d) b →
     fwp (k p) (Mem (entries m) (<[p := d]> (blocks m)) (draws m), f') P) →
  fwp (buf ← new_block (Z.of_nat (length d)); _ ← read_block buf (Z.of_nat (length d)); k buf) (m, f) P.
Proof using Hplenty.
  intros [Hp Hb] HP. apply fwp_bind. destruct (plenty_block (blocks m) (Z.of_nat (length d))) as [p E].
  pose proof (alloc_block_fresh _ _ _ E) as [Hne Hfr].
  eapply fwp_run; [unfold new_block; cbn [fst snd]; rewrite E; reflexivity|]. rewrite Nat2Z.id. apply fwp_bind.
  unfold fwp at 1, read_block. rewrite (proj2 (Z.eqb_neq p 0)) by done. cbn [fst snd blocks]. rewrite lookup_insert_eq.
  rewrite length_replicate, Z.leb_refl, Nat2Z.id, Hp, Hb, drop_app_length, take_app_length, Z.eqb_refl.
  rewrite drop_replicate, Nat.sub_diag, app_nil_r, insert_insert_eq. cbn [entries draws].
  apply HP; [done|done|]. split; cbn [f_pos f_bytes]; [by rewrite length_app|by rewrite app_assoc].
Qed.

Lemma append_block_wp m l ps xs p d f (P : Z * list_t → mem * file_t → Prop) :
  rep m l ps xs → iter_active l = false → numels l < max_numels → blocks m !! p = None →
  (∀ r m' ps', grown m l ps xs [p] m' r.2 ps' → blocks m' = <[p := d]> (blocks m) → P r (m', f)) →
  fwp (lift (list_append l p)) (Mem (entries m) (<[p := d]> (blocks m)) (draws m), f) P.
Proof using Hplenty.
  intros Hr Hit Hmax Hp HP. apply fwp_lift. set (m1 := Mem _ _ _).
  eapply hwp_mono; [apply (list_append_wp m1 l ps xs p); [by apply rep_blocks|done|done]|].
  intros r m' [_ (ps' & Hr' & Hc & Hf & Hi & Ha)]. pose proof (proj2 Hc) as Hb. apply (HP r m' ps'); [|exact Hb].
  split; [exact Hr'| |exact Ha|exact Hi|].
  - rewrite Hb. cbn [blocks m1]. by apply insert_subseteq.
  - intros k qs zs Hk Hd. assert (rep m1 k qs zs) as Hk1 by (by apply rep_blocks).
    split; [by eapply rep_frame|]. intros q Hq Hq'. destruct (Hf q Hq') as [H|H]; [by eapply Hd|].
    pose proof (rep_nodes _ _ _ _ Hk1) as Hn. rewrite Forall_forall in Hn. destruct (Hn q Hq) as [_ Hs].
    rewrite H in Hs. by destruct Hs.
Qed.

(** Elements of [n] bytes each, as they are. *)
Lemma restore_loop_wp n ds m l ps xs tr tm f a b (P : list_t * Z * Z → mem * file_t → Prop) :
  Forall (λ d, length d = n) ds → rep m l ps xs → iter_active l = false →
  numels l + Z.of_nat (length ds) <= max_numels → reads f a (concat ds ++ b) →
  (∀ m' f' l' ps' ys t u, grown m l ps xs ys m' l' ps' → Forall2 (λ y d, blocks m' !! y = Some d) ys ds →
     reads f' (a ++ concat ds) b → P (l', t, u) (m', f')) →
  fwp (restore_loop (length ds) (buf ← new_block (Z.of_nat n); _ ← read_block buf (Z.of_nat n); mret (buf, 0, 0))
         l tr tm) (m, f) P.
Proof using Hplenty.
  intros Hds. revert m l ps xs tr tm f a P. induction Hds as [|d ds Hd Hds IH]; intros m l ps xs tr tm f a P Hr Hit Hmax Hf HP.
  { apply fwp_ret, (HP m f l ps []); [by apply grown_refl|done|]. cbn [concat]. by rewrite app_nil_r. }
  cbn [length restore_loop concat] in *. rewrite <-app_assoc in Hf. apply fwp_bind.
  subst n. eapply read_new_block_wp; [exact Hf|]. intros p f' Hp Hfr Hf'. apply fwp_ret.
  cbv beta iota zeta. apply fwp_bind.
  eapply append_block_wp; [exact Hr|exact Hit|lia|exact Hfr|]. intros r m1 ps1 Hg Hb.
  pose proof (rep_numels _ _ _ _ Hr) as Hn0. pose proof (rep_length _ _ _ _ Hr) as Hl0.
  pose proof (rep_numels _ _ _ _ (gr_rep _ _ _ _ _ _ _ _ Hg)) as Hn1.
  pose proof (rep_length _ _ _ _ (gr_rep _ _ _ _ _ _ _ _ Hg)) as Hl1. rewrite length_app in Hl1. cbn [length] in Hl1.
  eapply (IH m1 r.2 ps1 (xs ++ [p])); [apply Hg|by rewrite (gr_iter _ _ _ _ _ _ _ _ Hg)|lia|exact Hf'|].
  intros m2 f2 l2 ps2 ys t u Hg2 Hys Hf2. eapply (HP m2 f2 l2 ps2 (p :: ys)).
  - by apply (grown_trans _ _ _ _ [p] _ _ _ ys _ _ _ Hg Hg2).
  - constructor; [|done]. eapply lookup_weaken; [|apply Hg2]. by rewrite Hb, lookup_insert_eq.
  - by rewrite app_assoc.
Qed.
End restore.

Lemma fwp_read_32 {A} (k : Z → fm A) d a b m f (P : A → mem * file_t → Prop) :
  length d = 4%nat → reads f a (d ++ b) → (∀ f', reads f' (a ++ d) b → fwp (k (htonl (le_value d))) (m, f') P) →
  fwp (z ← read_net32; k z) (m, f) P.
Proof.
  intros Hd Hf HP. apply fwp_bind. unfold read_net32. apply fwp_bind. eapply fwp_read_n; [exact Hd|exact Hf|]. intros f' Hf'. apply fwp_ret. by apply HP.
Qed.

(** Between the header and the terminator. *)
Lemma restore_elements_wp `{Hal : Allocator} {Hplenty : Plenty Hal} n ds m l ps f a b
    (P : list_t * Z * Z → mem * file_t → Prop) :
  let size := if (length ds =? 0)%nat then 0 else Z.of_nat n in
  Forall (λ d, length d = n) ds → (0 < n)%nat → Z.of_nat (n * length ds) < 2 ^ 32 →
  rep m l ps [] → iter_active l = false → unserializer (attrs l) = None → Z.of_nat (length ds) <= max_numels →
  reads f a (concat ds ++ b) →
  (∀ m' f' l' ps' ys, grown m l ps [] ys m' l' ps' → Forall2 (λ y d, blocks m' !! y = Some d) ys ds →
     reads f' (a ++ concat ds) b → P (l', Z.of_nat (n * length ds), Z.of_nat (n * length ds)) (m', f')) →
  fwp (if 0 <? size then restore_const l (Z.of_nat (length ds)) size
       else restore_sized l (Z.of_nat (length ds))) (m, f) P.
Proof.
  cbv zeta. intros Hds Hn Hsize Hr Hit Hu Hmax Hf HP. pose proof (rep_numels _ _ _ _ Hr) as Hnum.
  pose proof (rep_length _ _ _ _ Hr) as Hlen. cbn [length] in Hlen.
  destruct (decide (ds = [])) as [->|Hnil].
  { cbn [length Nat.eqb]. rewrite Z.ltb_irrefl. unfold restore_sized. rewrite Hu. apply fwp_bind, fwp_ret. cbn [fst snd].
    rewrite Nat.mul_0_r in HP. apply (HP m f l ps []); [by apply grown_refl|done|]. cbn [concat]. by rewrite app_nil_r. }
  assert (length ds ≠ 0)%nat as Hne by (by destruct ds).
  rewrite (proj2 (Nat.eqb_neq _ _)) by done. rewrite (proj2 (Z.ltb_lt _ _)) by lia. unfold restore_const. rewrite Hu, Nat2Z.id.
  apply fwp_bind. eapply restore_loop_wp; [exact Hds|exact Hr|exact Hit|lia|exact Hf|].
  intros m' f' l' ps' ys t u Hg Hys Hf'. apply fwp_ret. cbn [fst snd].
  replace (wrap_u32 (Z.of_nat (length ds) * Z.of_nat n)) with (Z.of_nat (n * length ds))
    by (rewrite wrap_u32_small; lia). by eapply HP.
Qed.

(** What the header says, read field by field. *)
Lemma list_restore_wp `{Hal : Allocator} {Hplenty : Plenty Hal} n ds l ps m k qs xs now random uninit max
    (P : Z * list_t → mem * file_t → Prop) :
  Forall (λ d, length d = n) ds → (0 < n)%nat → Z.of_nat (n * length ds) < 2 ^ 32 →
  rep m k qs xs → length xs = length ds →
  rep m l ps [] → iter_active l = false → unserializer (attrs l) = None → Z.of_nat (length ds) <= max_numels →
  (∀ m' f' l' ps' ys, grown m l ps [] ys m' l' ps' → Forall2 (λ y d, blocks m' !! y = Some d) ys ds →
     P (Z.of_nat (n * length ds), l') (m', f')) →
  fwp (list_restore_filedescriptor l) (m, File (dump_text m k xs n ds now random uninit) 0 max) P.
Proof.
  intros Hds Hn Hsize Hk Hlen Hr Hit Hu Hmax HP. unfold list_restore_filedescriptor, dump_text, dump_header.
  rewrite Hlen. set (h := hash_bytes m k xs uninit).
  assert (length h = 4%nat) as Hh by apply hash_bytes_length. clearbody h.
  assert (Z.of_nat (length ds) < 2 ^ 32) as Hc by (unfold max_numels in Hmax; lia).
  assert (0 <= wrap_u32 random < 2 ^ 32) as Hrnd by apply wrap_u32_bound.
  assert (elem_size xs n = if (length ds =? 0)%nat then 0 else Z.of_nat n) as Hes by (unfold elem_size; by rewrite Hlen).
  assert (0 <= elem_size xs n < 2 ^ 32) as Hesz.
  { rewrite Hes. destruct (Nat.eqb_spec (length ds) 0); [lia|]. nia. }
  rewrite <-!app_assoc.
  apply fwp_bind. eapply (fwp_read_n _ _ []); [apply net_length|by split|]. intros f1 Hf1.
  rewrite read16 by done. rewrite Z.eqb_refl. cbn [negb].
  apply fwp_bind. eapply fwp_read_n; [apply net_length|exact Hf1|]. intros f2 Hf2.
  eapply fwp_read_32; [apply net_length|exact Hf2|]. intros f3 Hf3. rewrite read32 by done.
  eapply fwp_read_32; [apply net_length|exact Hf3|]. intros f4 Hf4. rewrite read32 by lia.
  eapply fwp_read_32; [apply net_length|exact Hf4|]. intros f5 Hf5. rewrite read32 by lia.
  eapply fwp_read_32; [apply net_length|exact Hf5|]. intros f6 Hf6. rewrite read32 by lia.
  eapply fwp_read_32; [exact Hh|exact Hf6|]. intros f7 Hf7. rewrite Hes.
  apply fwp_bind. eapply restore_elements_wp; [exact Hds|exact Hn|exact Hsize|exact Hr|exact Hit|exact Hu|exact Hmax|
    exact Hf7|]. intros m' f8 l' ps' ys Hg Hys Hf8. cbv beta iota zeta.
  rewrite <-(app_nil_r (net 4 (wrap_u32 random))) in Hf8.
  eapply fwp_read_32; [apply net_length|exact Hf8|]. intros f9 [Hp9 Hb9].
  rewrite Z.eqb_refl. cbn [negb andb]. apply fwp_bind. eapply fwp_run; [done|]. apply fwp_bind.
  eapply fwp_run; [done|]. cbn [fst snd].
  assert ((f_pos f9 =? length (f_bytes f9))%nat = true) as ->.
  { apply Nat.eqb_eq. rewrite Hp9, Hb9, (length_app _ []). cbn [length]. lia. }
  apply fwp_ret. by eapply HP.
Qed.

(** What can be learned of a dump without restoring it. *)
Lemma list_getinfo_wp n ds m k xs now random uninit max m0 (P : list_dump_info_t → mem * file_t → Prop) :
  Forall (λ d, length d = n) ds → (0 < n)%nat → Z.of_nat (n * length ds) < 2 ^ 32 →
  Z.of_nat (length ds) < 2 ^ 32 → length xs = length ds → 0 <= now < 2 ^ 63 →
  (∀ h f, P (DumpInfo SIMCLIST_DUMPFORMAT_VERSION now (Z.of_nat (n * length ds)) (Z.of_nat (length ds)) h true) (m0, f)) →
  fwp list_dump_getinfo_filedescriptor (m0, File (dump_text m k xs n ds now random uninit) 0 max) P.
Proof.
  intros Hds Hn Hsize Hc Hlen Hnow HP. unfold list_dump_getinfo_filedescriptor, dump_text, dump_header.
  rewrite Hlen. set (h := hash_bytes m k xs uninit).
  assert (length h = 4%nat) as Hh by apply hash_bytes_length. clearbody h.
  assert (0 <= wrap_u32 random < 2 ^ 32) as Hrnd by apply wrap_u32_bound.
  assert (elem_size xs n = if (length ds =? 0)%nat then 0 else Z.of_nat n) as Hes by (unfold elem_size; by rewrite Hlen).
  assert (0 <= elem_size xs n < 2 ^ 32) as Hesz.
  { rewrite Hes. destruct (Nat.eqb_spec (length ds) 0); [lia|]. nia. }
  rewrite <-!app_assoc.
  apply fwp_bind. eapply (fwp_read_n _ _ []); [apply net_length|by split|]. intros f1 Hf1.
  rewrite read16 by done. rewrite Z.ltb_irrefl.
  apply fwp_bind. eapply fwp_read_n; [apply net_length|exact Hf1|]. intros f2 Hf2. rewrite read64 by lia.
  assert (wrap_s64 now = now) as -> by (unfold wrap_s64; rewrite Z.mod_small by lia; lia).
  eapply fwp_read_32; [apply net_length|exact Hf2|]. intros f3 Hf3. rewrite read32 by done.
  eapply fwp_read_32; [apply net_length|exact Hf3|]. intros f4 Hf4. rewrite read32 by lia.
  eapply fwp_read_32; [apply net_length|exact Hf4|]. intros f5 Hf5. rewrite read32 by lia.
  eapply fwp_read_32; [apply net_length|exact Hf5|]. intros f6 Hf6. rewrite read32 by lia.
  eapply fwp_read_32; [exact Hh|exact Hf6|]. intros f7 [Hp7 Hb7].
  apply fwp_bind. eapply fwp_run; [done|]. cbn [fst snd].
  assert ((if 0 <? elem_size xs n then Z.of_nat (n * length ds)
           else wrap_u32 (Z.of_nat (n * length ds) + wrap_u32 (elem_size xs n * Z.of_nat (length ds)))) =
          Z.of_nat (length (concat ds))) as ->.
  { rewrite (concat_const_length n ds Hds), Hes. destruct (Nat.eqb_spec (length ds) 0) as [->|Hne].
    - rewrite Nat.mul_0_r. done.
    - by rewrite (proj2 (Z.ltb_lt 0 (Z.of_nat n))) by lia. }
  rewrite Nat2Z.id, Hp7, <-length_app. rewrite app_assoc in Hb7.
  eapply fwp_read_32; [apply (net_length 4 (wrap_u32 random))|split; [reflexivity|]|].
  - cbn [f_bytes]. rewrite app_nil_r. exact Hb7.
  - intros f9 _. rewrite read32, Z.eqb_refl by done. apply fwp_ret, HP.
Qed.

(** ** The round trip *)

(** C19: a list that is dumped to a file comes back from it.  For elements of one size, with
    a meter or a serializer, the dump ends well if the disk has room; its header tells the
    time, the number and the size of the elements, and the dump is found consistent; and a
    list that was empty has, after it is restored, as many elements with the same bytes in
    the same order, in blocks of their own.  The list that was dumped, and all older blocks,
    are as before.  The lengths that are reported are those of the code, and not the bytes of
    the file that simclist.h promises: the dump reports six bytes more than it wrote, since
    the size of the struct of the header is not that of the header in the file, and the
    restoration reports the bytes of the elements alone. *)
Theorem dump_restore `{Hal : Allocator} {Hplenty : Plenty Hal} m k qs xs ds n l ps now random uninit max :
  rep m k qs xs → dump_source k ≠ None → Forall2 (element_bytes k m) xs ds → Forall (λ d, length d = n) ds →
  (0 < n)%nat → Z.of_nat (n * length xs) < 2 ^ 32 → Z.of_nat (length xs) <= max_numels → 0 <= now < 2 ^ 63 →
  (34 + n * length xs <= max)%nat →
  rep m l ps [] → iter_active l = false → unserializer (attrs l) = None → (∀ p, p ∈ foot k qs → p ∉ foot l ps) →
  ∃ f, list_dump_file now random uninit k (Some max) m =
         Done (Some (sizeof_header + Z.of_nat (n * length xs)), (m, f)) ∧
    length (f_bytes f) = (34 + n * length xs)%nat ∧
    (∃ h f', list_dump_getinfo_file (Some (f_bytes f)) m =
       Done (Some (DumpInfo 1 now (Z.of_nat (n * length xs)) (Z.of_nat (length xs)) h true), (m, f'))) ∧
    ∃ m' f' l' ps' ys,
      list_restore_file l (Some (f_bytes f)) m = Done (Some (Z.of_nat (n * length xs), l'), (m', f')) ∧
      rep m' l' ps' ys ∧ Forall2 (λ y d, blocks m' !! y = Some d) ys ds ∧
      rep m' k qs xs ∧ blocks m ⊆ blocks m'.
Proof.
  intros Hk Hsrc Hds Hn Hpos Hsize Hmax Hnow Hroom Hl Hit Hu Hd. pose proof (Forall2_length _ _ _ Hds) as Hlen.
  destruct (fwp_elim _ _ _ (list_dump_wp m k qs xs Hk n ds max Hds Hn Hpos Hsize now random uninit
    (λ len s', ∃ f', s' = (m, f') ∧ len = sizeof_header + Z.of_nat (n * length xs) ∧
       f_bytes f' = dump_text m k xs n ds now random uninit) Hsrc Hroom ltac:(by intros f' ?; exists f')))
    as (len & s' & E & f & -> & -> & Hf).
  exists f. split; [exact E|]. rewrite Hf. split; [by apply dump_text_length|].
  unfold list_dump_getinfo_file, list_restore_file. rewrite Hlen in *. split.
  - destruct (fwp_elim _ _ _ (list_getinfo_wp n ds m k xs now random uninit
      (length (dump_text m k xs n ds now random uninit)) m
      (λ i s', ∃ h f', s' = (m, f') ∧ i = DumpInfo 1 now (Z.of_nat (n * length ds)) (Z.of_nat (length ds)) h true)
      Hn Hpos Hsize ltac:(unfold max_numels in Hmax; lia) Hlen Hnow ltac:(by intros h f'; exists h, f'))) as (i & s' & E' & h & f' & -> & ->).
    by exists h, f'.
  - destruct (fwp_elim _ _ _ (list_restore_wp n ds l ps m k qs xs now random uninit
      (length (dump_text m k xs n ds now random uninit))
      (λ r s', ∃ m' f' l' ps' ys, r = (Z.of_nat (n * length ds), l') ∧ s' = (m', f') ∧ grown m l ps [] ys m' l' ps' ∧
         Forall2 (λ y d, blocks m' !! y = Some d) ys ds)
      Hn Hpos Hsize Hk Hlen Hl Hit Hu Hmax ltac:(by intros m' f' l' ps' ys ? ?; exists m', f', l', ps', ys)))
      as (r & s' & E' & m' & f' & l' & ps' & ys & -> & -> & Hg & Hys).
    exists m', f', l', ps', ys. split; [exact E'|]. split; [apply Hg|]. split; [exact Hys|].
    split; [by eapply (gr_frame _ _ _ _ _ _ _ _ Hg)|apply Hg].
Qed.

(** ** A sample *)

Definition new_block_address (b : heap) : Z := 1 + highest (map_to_list b).*1.

Program Definition all_free : Allocator := {|
  alloc_entry e := Some (new_address e, Entry 170 170 170);
  alloc_block b n := Some (new_block_address b)
|}.
Next Obligation. intros e p c [= <- <-]. apply new_address_spec. Qed.
Next Obligation.
  intros b n p [= <-]. unfold new_block_address. pose proof (highest_pos (map_to_list b).*1). split; [lia|].
  destruct (b !! _) as [c|] eqn:E; [|done]. apply elem_of_map_to_list in E.
  apply (list_elem_of_fmap_2 fst) in E. apply highest_ge in E. simpl in E. lia.
Qed.

Lemma all_free_plenty : Plenty all_free.
Proof. split; by eexists. Qed.

(** Two elements on the nodes 3 and 4, and an empty list with the sentinels 5 and 6. *)
Definition dump_mem : mem :=
  Mem (<[1 := Entry 0 3 0]> (<[2 := Entry 0 0 4]> (<[3 := Entry 10 4 1]> (<[4 := Entry 20 2 3]>
      (<[5 := Entry 0 6 0]> (<[6 := Entry 0 0 5]> ∅))))))
      (<[10 := [1; 2; 3; 4]]> (<[20 := [5; 6; 7; 8]]> ∅)) 0.
Definition dump_list (g : heap → Z → Z) (h : option (heap → Z → Z)) : list_t :=
  L 1 2 3 2 [] false 0 0 (Attrs None None (Some g) false h None None).
Definition fresh_list : list_t := L 5 6 0 0 [] false 0 0 (Attrs None None None false None None None).

Lemma dump_list_rep g h : rep dump_mem (dump_list g h) [3; 4] [10; 20].
Proof.
  constructor.
  - split; [split; vm_compute; reflexivity|]. split; [split; vm_compute; reflexivity|].
    split; [split; vm_compute; reflexivity|]. split; exact I.
  - split; vm_compute; reflexivity.
  - split; vm_compute; reflexivity.
  - apply (bool_decide_unpack _). vm_compute. exact I.
  - unfold foot, all. simpl.
    repeat (apply Forall_cons; split; [split; [lia|eexists; vm_compute; reflexivity]|]). constructor.
  - repeat constructor.
  - reflexivity.
  - intros _. vm_compute. reflexivity.
  - vm_compute. discriminate.
  - reflexivity.
Qed.

Lemma fresh_list_rep : rep dump_mem fresh_list [] [].
Proof.
  constructor.
  - split; [split; vm_compute; reflexivity|]. split; exact I.
  - split; vm_compute; reflexivity.
  - split; vm_compute; reflexivity.
  - apply (bool_decide_unpack _). vm_compute. exact I.
  - unfold foot, all. simpl.
    repeat (apply Forall_cons; split; [split; [lia|eexists; vm_compute; reflexivity]|]). constructor.
  - constructor.
  - reflexivity.
  - intros H. by destruct H.
  - vm_compute. discriminate.
  - reflexivity.
Qed.

Lemma dump_restore_witness :
  ∃ f m' f' l' ps' ys,
    list_dump_file 1000 77 0 (dump_list (list_meter_number 4) None) (Some 100%nat) dump_mem = Done (Some 48, (dump_mem, f)) ∧
    list_restore_file (H := all_free) fresh_list (Some (f_bytes f)) dump_mem = Done (Some (8, l'), (m', f')) ∧
    rep m' l' ps' ys ∧ Forall2 (λ y d, blocks m' !! y = Some d) ys [[1; 2; 3; 4]; [5; 6; 7; 8]].
Proof.
  destruct (dump_restore (Hal := all_free) (Hplenty := all_free_plenty) dump_mem (dump_list (list_meter_number 4) None)
    [3; 4] [10; 20] [[1; 2; 3; 4]; [5; 6; 7; 8]] 4 fresh_list [] 1000 77 0 100)
    as (f & E & _ & _ & m' & f' & l' & ps' & ys & E' & Hr & Hys & _).
  - exact (dump_list_rep _ _).
  - discriminate.
  - constructor; [|constructor; [|constructor]].
    + refine (element_bytes_meter (dump_list (list_meter_number 4) None) dump_mem 10 [1; 2; 3; 4] 4
        (list_meter_number 4) eq_refl eq_refl _ eq_refl eq_refl _ eq_refl); [discriminate|apply Nat.leb_le; reflexivity].
    + refine (element_bytes_meter (dump_list (list_meter_number 4) None) dump_mem 20 [5; 6; 7; 8] 4
        (list_meter_number 4) eq_refl eq_refl _ eq_refl eq_refl _ eq_refl); [discriminate|apply Nat.leb_le; reflexivity].
  - repeat constructor.
  - apply Nat.ltb_lt. reflexivity.
  - reflexivity.
  - discriminate.
  - split; [discriminate|reflexivity].
  - apply Nat.leb_le. reflexivity.
  - exact fresh_list_rep.
  - reflexivity.
  - reflexivity.
  - apply Forall_forall. apply (bool_decide_unpack _). vm_compute. exact I.
  - exists f, m', f', l', ps', ys. exact (conj E (conj E' (conj Hr Hys))).
Defined.

(** ** What the library gets wrong *)

Definition restored (b : bytes) : res (option Z) :=
  match list_restore_file (H := all_free) fresh_list (Some b) dump_mem with
  | Done (r, _) => Done (fst <$> r)
  | Fault f => Fault f
  end.
Definition dumped (g : heap → Z → Z) (h : option (heap → Z → Z)) (max : nat) : res (option Z * bytes) :=
  match list_dump_file 1000 77 0 (dump_list g h) (Some max) dump_mem with
  | Done (r, (_, f)) => Done (r, f_bytes f)
  | Fault f => Fault f
  end.

(** Elements of two sizes: eight bytes are written from a variable of four. *)
Example dump_sizes_overread : fst <$> dumped (λ _ x, if x =? 10 then 4 else 3) None 100 = Fault OutOfBounds.
Proof. vm_compute. reflexivity. Qed.

(** A terminator that is not that of the header does no harm, although it is compared. *)
Example wrong_terminator_restored :
  (r ← dumped (list_meter_number 4) None 100; restored (take 38 r.2 ++ [1; 2; 3; 4])) = Done (Some 8).
Proof. vm_compute. reflexivity. Qed.

(** A short write goes unnoticed: the file lacks two bytes, and cannot be restored. *)
Example short_write_unnoticed :
  (r ← dumped (list_meter_number 4) None 40; mret (r.1, length r.2)) = Done (Some 48, 40%nat) ∧
  (r ← dumped (list_meter_number 4) None 40; restored r.2) = Done None.
Proof. vm_compute. split; reflexivity. Qed.

(** The hash 418 is written as it is, and read in network order. *)
Example hash_not_swapped :
  (r ← list_hash (dump_list (list_meter_number 4) (Some (λ _ _, 2))) 0 dump_mem; mret (snd r.1)) = Done 418 ∧
  (r ← dumped (list_meter_number 4) (Some (λ _ _, 2)) 100;
   match list_dump_getinfo_file (Some r.2) dump_mem with
   | Done (Some i, _) => Done (info_list_hash i)
   | _ => Fault OutOfFuel
   end) = Done (-1576992768).
Proof. vm_compute. split; reflexivity. Qed.
