(* ===== verification/Cli.v ===== *)
(** cli.c: the table of commands of the command line tool, the command that a command
    line names, and the list of commands that is printed as a help.

    A command has a name, a description, sub-commands and the function that runs it;
    [F] is the type of the functions.  A table ends at a row without a name, so that no
    sub-commands and no table are the same. *)

From Stdlib Require Import ZArith Lia String.
From S2P Require Export Prelude CString.

Local Open Scope Z_scope.

(** ** Data *)

Inductive cli_cmd_t (F : Type) :=
| Cmd (name description : bytes) (sub_commands : list (cli_cmd_t F)) (func : option F).
Arguments Cmd {F} name description sub_commands func.

Section cli.
Context {F : Type}.
Notation cmd := (cli_cmd_t F).

Definition cmd_name (c : cmd) : bytes := let 'Cmd name _ _ _ := c in name.

(** ** cli_run

    The function that is called and its arguments, or [None] when it returns false.  The
    first argument is read before they are counted. *)

Fixpoint cli_run (command : cmd) (argv : list bytes) : res (option (F * list bytes)) :=
  let 'Cmd name _ sub_commands func := command in
  arg0 ← deref (head argv);
  if strcmp_eq name arg0 then
    let rest := tail argv in
    found ← (match rest with
             | [] => Done None
             | _ =>
                 (fix subs (l : list cmd) : res (option (F * list bytes)) :=
                    match l with
                    | [] => Done None
                    | tmp :: l =>
                        r ← cli_run tmp rest;
                        match r with Some _ => Done r | None => subs l end
                    end) sub_commands
             end);
    match found, func with
    | Some _, _ => Done found
    | None, Some f => Done (Some (f, rest))
    | None, None => Done None
    end
  else Done None.

(** ** cli_to_string and cli_print *)

Definition CLI_MAX_COMMANDS : nat := 50.

(** [char* commands[ 50 ][ 2 ]], of which only the rows that were set may be read. *)
Definition cli_rows : Type := list (option (bytes * bytes)).

Definition row_set (commands : cli_rows) (n : Z) (row : bytes * bytes) : res cli_rows :=
  if (0 <=? n) && (n <? Z.of_nat (length commands))
  then Done (<[Z.to_nat n := Some row]> commands) else Fault OutOfBounds.

(** The rows, the new value of [*n] and the length of the longest name. *)
Fixpoint cli_to_string (commands : cli_rows) (top_cmd : bytes) (command : cmd) (n : Z)
  : res (cli_rows * Z * nat) :=
  let 'Cmd name description sub_commands func := command in
  let top_cmd := top_cmd ++ 32 :: name in
  '(commands, n) ← (match func with
                    | None => Done (commands, n - 1)
                    | Some _ => commands ← row_set commands n (top_cmd, description); Done (commands, n)
                    end);
  (fix subs (l : list cmd) (commands : cli_rows) (n : Z) (max_len : nat) :=
     match l with
     | [] => Done (commands, n, max_len)
     | tmp :: l =>
         '(commands, n, tmp_max_len) ← cli_to_string commands top_cmd tmp (n + 1);
         subs l commands n (if (max_len <? tmp_max_len)%nat then tmp_max_len else max_len)
     end) sub_commands commands n (length top_cmd).

(** [printf( " %-LENs %s\n", name, description )]; the format is put into 16 bytes. *)
Definition cli_line (len : nat) (row : bytes * bytes) : bytes :=
  32 :: row.1 ++ replicate (len - length row.1) 32 ++ 32 :: row.2 ++ [10].

Definition cli_format (len : nat) : bytes := str " %-" ++ dec_string (Z.of_nat len) ++ str "s %s" ++ [10].

Fixpoint cli_print_rows (len : nat) (rows : cli_rows) : res bytes :=
  match rows with
  | [] => Done []
  | row :: rows =>
      _ ← strcpy_into 16 (cli_format len);
      row ← deref row;
      text ← cli_print_rows len rows;
      Done (cli_line len row ++ text)
  end.

Definition cli_print (root_cmd : cmd) : res bytes :=
  '(commands, n, len) ← cli_to_string (replicate CLI_MAX_COMMANDS None) [] root_cmd 0;
  cli_print_rows len (take (Z.to_nat (n + 1)) commands).

(** ** Induction on commands *)

Lemma cli_cmd_ind' (P : cmd → Prop) :
  (∀ name desc subs func, Forall P subs → P (Cmd name desc subs func)) → ∀ c, P c.
Proof.
  intros H. fix IH 1. intros [name desc subs func]. apply H.
  induction subs as [|c subs IHs]; constructor; [apply IH | exact IHs].
Qed.

(** ** The command that a command line names *)

(** [f] runs the command whose names, from [c] on, are [p]. *)
Inductive reaches : cmd → list bytes → F → Prop :=
| reaches_here name desc subs f : reaches (Cmd name desc subs (Some f)) [name] f
| reaches_sub name desc subs func c p f :
    c ∈ subs → reaches c p f → reaches (Cmd name desc subs func) (name :: p) f.

(** No two commands of one table have the same name. *)
Inductive cli_wf : cmd → Prop :=
| Cmd_wf name desc subs func :
    NoDup (cmd_name <$> subs) → Forall cli_wf subs → cli_wf (Cmd name desc subs func).

Lemma reaches_name c p f : reaches c p f → head p = Some (cmd_name c).
Proof. by destruct 1. Qed.

(** What [cli_run] finds among the commands [l] for the arguments [argv]. *)
Definition names_longest (l : list cmd) (argv : list bytes) (r : option (F * list bytes)) : Prop :=
  match r with
  | Some (f, opts) =>
      ∃ c p, c ∈ l ∧ reaches c p f ∧ argv = p ++ opts ∧
        ∀ c' p' f', c' ∈ l → reaches c' p' f' → p' `prefix_of` argv → p' `prefix_of` p
  | None => ∀ c' p' f', c' ∈ l → reaches c' p' f' → ¬ p' `prefix_of` argv
  end.

Definition cli_run_subs (rest : list bytes) : list cmd → res (option (F * list bytes)) :=
  fix subs l :=
    match l with
    | [] => Done None
    | tmp :: l => r ← cli_run tmp rest; match r with Some _ => Done r | None => subs l end
    end.

Lemma cli_run_unfold name desc subs func arg0 rest :
  cli_run (Cmd name desc subs func) (arg0 :: rest) =
  if strcmp_eq name arg0 then
    found ← (match rest with [] => Done None | _ => cli_run_subs rest subs end);
    match found, func with
    | Some _, _ => Done found
    | None, Some f => Done (Some (f, rest))
    | None, None => Done None
    end
  else Done None.
Proof. reflexivity. Qed.

Lemma cli_run_subs_longest arg rest l :
  NoDup (cmd_name <$> l) →
  Forall (λ c, ∃ r, cli_run c (arg :: rest) = Done r ∧ names_longest [c] (arg :: rest) r) l →
  ∃ r, cli_run_subs (arg :: rest) l = Done r ∧ names_longest l (arg :: rest) r.
Proof.
  intros Hd H. induction H as [|c l (r & E & Hr) H IH].
  { exists None. split; [done|]. intros c' p' f' Hin. by apply not_elem_of_nil in Hin. }
  apply NoDup_cons in Hd as [Hn Hd]. destruct (IH Hd) as (r' & E' & Hr'). clear IH H.
  cbn [cli_run_subs]. rewrite E. cbn [mbind res_bind]. destruct r as [[f opts]|].
  - eexists. split; [done|]. destruct Hr as (c0 & p & ->%list_elem_of_singleton & Hp & Ha & Hmax).
    exists c, p. split; [left|]. split_and!; [done..|]. intros c' p' f' [->|Hin]%elem_of_cons Hp' Hpre.
    { eapply Hmax; [by left|exact Hp'|done]. }
    exfalso. apply Hn. apply list_elem_of_fmap. exists c'. split; [|done].
    apply reaches_name in Hp, Hp'. destruct p as [|x p]; [done|]. destruct p' as [|x' p']; [done|].
    destruct Hpre as [k Hk]. simpl in *. congruence.
  - exists r'. split; [done|]. destruct r' as [[f opts]|].
    + destruct Hr' as (c0 & p & Hc & Hp & Ha & Hmax). exists c0, p. split; [by right|]. split_and!; [done..|].
      intros c' p' f' [->|Hin]%elem_of_cons Hp' Hpre; [|by eapply Hmax].
      by edestruct (Hr c p' f'); [left|..].
    + intros c' p' f' [->|Hin]%elem_of_cons Hp'; [by eapply Hr; [left|]|by eapply Hr'].
Qed.

Lemma cli_run_names c arg rest :
  cli_wf c → ∃ r, cli_run c (arg :: rest) = Done r ∧ names_longest [c] (arg :: rest) r.
Proof.
  revert arg rest. induction c as [name desc subs func IH] using cli_cmd_ind'. intros arg rest Hwf.
  inversion Hwf as [? ? ? ? Hd Hsubs]; subst. rewrite cli_run_unfold. unfold strcmp_eq.
  case_bool_decide as Hname; [subst arg|].
  2: { exists None. split; [done|]. intros c' p' f' ->%list_elem_of_singleton Hp Hpre.
       apply reaches_name in Hp. destruct Hpre as [k Hk], p' as [|x p']; [done|]. simpl in *. congruence. }
  assert (∃ r, (match rest with [] => Done None | _ => cli_run_subs rest subs end) = Done r ∧
    match r with None => names_longest subs rest None | Some _ => names_longest subs rest r end)
    as (r & -> & Hr).
  { destruct rest as [|arg rest].
    - exists None. split; [done|]. intros c' p' f' _ Hp Hpre. apply reaches_name in Hp.
      apply prefix_nil_inv in Hpre. by subst p'.
    - destruct (cli_run_subs_longest arg rest subs) as (r & E & Hr); [done| |].
      + rewrite Forall_forall in IH, Hsubs. apply Forall_forall. auto.
      + exists r. split; [done|]. by destruct r. }
  assert (names_longest subs rest r) as Hr' by (by destruct r). clear Hr. rename Hr' into Hr.
  cbn [mbind res_bind]. destruct r as [[f opts]|].
  - eexists. split; [done|]. destruct Hr as (c & p & Hc & Hp & -> & Hmax).
    exists (Cmd name desc subs func), (name :: p). split; [by left|].
    split; [by eapply reaches_sub|]. split; [done|].
    intros c' p' f' ->%list_elem_of_singleton Hp' Hpre.
    inversion Hp'; subst; [apply prefix_cons, prefix_nil|].
    apply prefix_cons_inv_2 in Hpre. apply prefix_cons. eauto.
  - assert (∀ p' f', reaches (Cmd name desc subs func) p' f' → p' `prefix_of` name :: rest →
             p' = [name] ∧ func = Some f') as Hself.
    { intros p' f' Hp' Hpre. inversion Hp'; subst; [done|].
      apply prefix_cons_inv_2 in Hpre. by edestruct Hr. }
    destruct func as [f|].
    + eexists. split; [done|]. exists (Cmd name desc subs (Some f)), [name].
      split; [by left|]. split; [constructor|]. split; [done|].
      intros c' p' f' ->%list_elem_of_singleton Hp' Hpre. by destruct (Hself _ _ Hp' Hpre) as [-> _].
    + exists None. split; [done|]. intros c' p' f' ->%list_elem_of_singleton Hp' Hpre.
      by destruct (Hself _ _ Hp' Hpre).
Qed.

(** A command line runs the command that it names with as many of its words as a
    command has, and gives it the words that are left; it runs nothing exactly when no
    first words of it name a command that can be run. *)
Theorem cli_run_longest c argv :
  cli_wf c → argv ≠ [] →
  ∃ r, cli_run c argv = Done r ∧
    match r with
    | Some (f, opts) =>
        ∃ p, reaches c p f ∧ argv = p ++ opts ∧
          ∀ p' f', reaches c p' f' → p' `prefix_of` argv → p' `prefix_of` p
    | None => ∀ p' f', reaches c p' f' → ¬ p' `prefix_of` argv
    end.
Proof.
  intros Hwf Hargv. destruct argv as [|arg rest]; [done|].
  destruct (cli_run_names c arg rest Hwf) as (r & E & Hr). exists r. split; [exact E|].
  destruct r as [[f opts]|].
  - destruct Hr as (c' & p & ->%list_elem_of_singleton & Hp & Ha & Hmax). exists p.
    split; [done|]. split; [done|]. intros p' f'. apply Hmax. by left.
  - intros p' f'. apply Hr. by left.
Qed.
End cli.

Definition sample_commands : cli_cmd_t nat :=
  Cmd (str "tool") [] [Cmd (str "stop") [] [Cmd (str "all") [] [] (Some 2%nat)] (Some 1%nat);
                       Cmd (str "help") [] [] (Some 3%nat)] None.

Lemma cli_run_longest_witness :
  cli_run sample_commands [str "tool"; str "stop"; str "all"; str "now"] = Done (Some (2%nat, [str "now"])) ∧
  ∀ p f, reaches sample_commands p f → p `prefix_of` [str "tool"; str "stop"; str "all"; str "now"] →
         p `prefix_of` [str "tool"; str "stop"; str "all"].
Proof.
  destruct (cli_run_longest sample_commands [str "tool"; str "stop"; str "all"; str "now"])
    as (r & E & Hr); [|discriminate|].
  - repeat (constructor; [apply (bool_decide_unpack _); vm_compute; exact I|]); repeat constructor.
    all: try (apply (bool_decide_unpack _); vm_compute; exact I).
  - assert (r = Some (2%nat, [str "now"])) as ->.
    { vm_compute in E. injection E as <-. reflexivity. }
    split; [exact E|]. destruct Hr as (p & _ & Ep & Hmax).
    assert (p = [str "tool"; str "stop"; str "all"]) as ->; [|exact Hmax].
    apply (app_inj_2 p _ [str "now"] [str "now"]); [reflexivity|]. by rewrite <- Ep.
Defined.
