(* ===== verification/Zsocket.v ===== *)
(** zsocket.c: sockets with buffers and events over the loop of Zfildes.

    The file-scope variables of the source are the record [zs_state], which also holds
    the state of the loop.  The kernel and the SSL library are the record [os_ops] of
    functions on a world [W]; each call gives the value of the C call, with the error
    code that goes with it.  The code threads the state, the world and the faults
    through a monad. *)

From Stdlib Require Import ZArith Lia String.
From S2P Require Export Config Zfildes.

Local Open Scope Z_scope.

(** ** Constants *)

Definition ZS_STAT_CONNECTED               : Z := 0x00001.
Definition ZS_STAT_WANT_READ_FROM_READ     : Z := 0x00002.
Definition ZS_STAT_WANT_READ_FROM_WRITE    : Z := 0x00004.
Definition ZS_STAT_WANT_WRITE_FROM_WRITE   : Z := 0x00008.
Definition ZS_STAT_WANT_WRITE_FROM_READ    : Z := 0x00010.
Definition ZS_STAT_WANT_READ_FROM_ACCEPT   : Z := 0x00020.
Definition ZS_STAT_WANT_WRITE_FROM_ACCEPT  : Z := 0x00040.
Definition ZS_STAT_WANT_READ_FROM_CONNECT  : Z := 0x00080.
Definition ZS_STAT_WANT_WRITE_FROM_CONNECT : Z := 0x00100.
Definition ZS_STAT_READABLE                : Z := 0x00200.
Definition ZS_STAT_WRITABLE                : Z := 0x00400.
Definition ZS_STAT_ACCEPTING               : Z := 0x00800.
Definition ZS_STAT_CONNECTING              : Z := 0x01000.
Definition ZS_STAT_READING                 : Z := 0x02000.
Definition ZS_STAT_WRITING                 : Z := 0x04000.
Definition ZS_STAT_EOF                     : Z := 0x08000.
Definition ZS_STAT_CLOSED                  : Z := 0x10000.

Definition ZS_EVT_ACCEPT_READY : Z := 1.
Definition ZS_EVT_READ_READY   : Z := 2.
Definition ZS_EVT_WRITE_READY  : Z := 3.

(** Error codes of the C library and of SSL_get_error. *)
Definition EBADF : Z := 9.
Definition EAGAIN : Z := 11.
Definition EINVAL : Z := 22.
Definition EPROTO : Z := 71.
Definition SSL_ERROR_WANT_READ : Z := 2.
Definition SSL_ERROR_WANT_WRITE : Z := 3.

(** The handlers that are registered with the loop. *)
Definition zs_internal_read_hdlr : Z := 1.
Definition zs_internal_write_hdlr : Z := 2.
Definition zs_internal_accept_hdlr : Z := 3.

(** ** State *)

Inductive zs_type_t := ZSOCK_LISTEN | ZSOCK_CONNECT.

#[export] Instance zs_type_eq_dec : EqDecision zs_type_t.
Proof. solve_decision. Defined.

(** [used] bytes from [pos] on are valid; [None] is a NULL buffer. *)
Record zsock_rw_data_t := RW {
  rw_buffer : option bytes;
  rw_used : Z;
  rw_pos : Z;
  rw_errno : Z
}.

(** The union of the source, with the fields of both types of socket. *)
Record zsocket_t := Zs {
  zs_type : zs_type_t;
  zs_addr : Z;
  zs_portno : Z;
  zs_status : Z;
  zs_event_hdlr : Z;
  n_open : Z;             (* listen *)
  accepted_fd : Z;
  accepted_errno : Z;
  zs_ssl : bool;          (* ssl or ssl_ctx is not NULL *)
  parent_fd : Z;          (* connect *)
  zs_rd : zsock_rw_data_t;
  zs_wr : zsock_rw_data_t
}.

Record zs_state := ZsState {
  zsockets : list (option zsocket_t);
  active_r : fd_set;        (* active_read_fd_set *)
  active_w : fd_set;       (* active_write_fd_set *)
  zs_hash : fd_hash_t;         (* active_hash *)
  zs_n_selectable : Z;
  zs_loop : zfd_t
}.

(** The state after [zs_init], with the loop as it is at that time. *)
Definition zs_init (loop : zfd_t) : zs_state :=
  ZsState (replicate FD_SETSIZE None) FD_ZERO FD_ZERO fd_hash_init 0 loop.

(** ** The outside *)

Record os_ops (W : Type) := Os {
  os_read : Z → bool → nat → W → (Z * bytes * Z) * W;   (* read(2) or SSL_read *)
  os_write : Z → bool → bytes → W → (Z * Z) * W;        (* write(2) or SSL_write *)
  ssl_accept : Z → W → (Z * Z) * W;
  ssl_connect : Z → W → (Z * Z) * W;
  os_accept : Z → W → (Z * Z * Z) * W;                   (* descriptor, address, errno *)
  os_listen : Z → Z → W → Z * W;                         (* socket, bind and listen *)
  os_connect : Z → Z → W → Z * W;                        (* socket and connect *)
  ssl_ctx_ok : W → bool                                  (* the certificate loads *)
}.
Arguments Os {W}.
Arguments os_read {W}. Arguments os_write {W}. Arguments ssl_accept {W}. Arguments ssl_connect {W}.
Arguments os_accept {W}. Arguments os_listen {W}. Arguments os_connect {W}. Arguments ssl_ctx_ok {W}.

(** ** The monad *)

Definition zm (W A : Type) : Type := zs_state → W → res (A * zs_state * W).

#[export] Instance zm_ret W : MRet (zm W) := fun A a z w => Done (a, z, w).
#[export] Instance zm_bind W : MBind (zm W) := fun A B k m z w =>
  match m z w with Done (a, z', w') => k a z' w' | Fault f => Fault f end.

Definition getz {W} : zm W zs_state := fun z w => Done (z, z, w).
Definition putz {W} (z : zs_state) : zm W unit := fun _ w => Done (tt, z, w).
Definition lift {W A} (r : res A) : zm W A :=
  fun z w => match r with Done a => Done (a, z, w) | Fault f => Fault f end.
Definition os_call {W A} (f : W → A * W) : zm W A :=
  fun z w => let '(a, w) := f w in Done (a, z, w).
Definition when {W} (b : bool) (m : zm W unit) : zm W unit := if b then m else mret tt.

(** ** Access to the state *)

Definition set_status (st : Z) (s : zsocket_t) : zsocket_t :=
  Zs (zs_type s) (zs_addr s) (zs_portno s) st (zs_event_hdlr s) (n_open s) (accepted_fd s)
    (accepted_errno s) (zs_ssl s) (parent_fd s) (zs_rd s) (zs_wr s).
Definition set_event_hdlr (h : Z) (s : zsocket_t) : zsocket_t :=
  Zs (zs_type s) (zs_addr s) (zs_portno s) (zs_status s) h (n_open s) (accepted_fd s)
    (accepted_errno s) (zs_ssl s) (parent_fd s) (zs_rd s) (zs_wr s).
Definition set_n_open (n : Z) (s : zsocket_t) : zsocket_t :=
  Zs (zs_type s) (zs_addr s) (zs_portno s) (zs_status s) (zs_event_hdlr s) n (accepted_fd s)
    (accepted_errno s) (zs_ssl s) (parent_fd s) (zs_rd s) (zs_wr s).
Definition set_accepted (fd e : Z) (s : zsocket_t) : zsocket_t :=
  Zs (zs_type s) (zs_addr s) (zs_portno s) (zs_status s) (zs_event_hdlr s) (n_open s) fd
    e (zs_ssl s) (parent_fd s) (zs_rd s) (zs_wr s).
Definition set_parent (fd : Z) (s : zsocket_t) : zsocket_t :=
  Zs (zs_type s) (zs_addr s) (zs_portno s) (zs_status s) (zs_event_hdlr s) (n_open s)
    (accepted_fd s) (accepted_errno s) (zs_ssl s) fd (zs_rd s) (zs_wr s).
Definition set_rd (r : zsock_rw_data_t) (s : zsocket_t) : zsocket_t :=
  Zs (zs_type s) (zs_addr s) (zs_portno s) (zs_status s) (zs_event_hdlr s) (n_open s)
    (accepted_fd s) (accepted_errno s) (zs_ssl s) (parent_fd s) r (zs_wr s).
Definition set_wr (r : zsock_rw_data_t) (s : zsocket_t) : zsocket_t :=
  Zs (zs_type s) (zs_addr s) (zs_portno s) (zs_status s) (zs_event_hdlr s) (n_open s)
    (accepted_fd s) (accepted_errno s) (zs_ssl s) (parent_fd s) (zs_rd s) r.

Definition rw_fail (e : Z) (r : zsock_rw_data_t) : zsock_rw_data_t :=
  RW (rw_buffer r) (rw_used r) (rw_pos r) e.

Definition set_sockets (l : list (option zsocket_t)) (z : zs_state) : zs_state :=
  ZsState l (active_r z) (active_w z) (zs_hash z) (zs_n_selectable z) (zs_loop z).
Definition set_active (r w : fd_set) (h : fd_hash_t) (z : zs_state) : zs_state :=
  ZsState (zsockets z) r w h (zs_n_selectable z) (zs_loop z).
Definition set_n_selectable (n : Z) (z : zs_state) : zs_state :=
  ZsState (zsockets z) (active_r z) (active_w z) (zs_hash z) n (zs_loop z).
Definition set_loop (l : zfd_t) (z : zs_state) : zs_state :=
  ZsState (zsockets z) (active_r z) (active_w z) (zs_hash z) (zs_n_selectable z) l.

Definition FL_HAS (s : zsocket_t) (flag : Z) : bool := FL_ISSET (zs_status s) flag.
Definition FL_SOME (s : zsocket_t) (flag : Z) : bool := FL_ARESOMESET (zs_status s) flag.

Section ops.
Context {W : Type}.

(** [zs_get_by_fd]. *)
Definition zs_get_by_fd (fd : Z) : zm W (option zsocket_t) :=
  z ← getz;
  lift (p ← cell fd; at_index (zsockets z !! p)).

(** The record behind the pointer, which is not NULL where it is used. *)
Definition zs_deref (fd : Z) : zm W zsocket_t :=
  o ← zs_get_by_fd fd; lift (deref o).

Definition zs_assert (fd : Z) : zm W zsocket_t :=
  o ← zs_get_by_fd fd;
  match o with Some s => mret s | None => lift (Fault AssertFailed) end.

(** [zsockets[ fd ] = p]. *)
Definition zs_store (fd : Z) (o : option zsocket_t) : zm W unit :=
  z ← getz;
  p ← lift (cell fd);
  putz (set_sockets (<[p := o]> (zsockets z)) z).

Definition zs_upd (fd : Z) (f : zsocket_t → zsocket_t) : zm W unit :=
  s ← zs_deref fd; zs_store fd (Some (f s)).

Definition st_set (fd flag : Z) : zm W unit :=
  zs_upd fd (fun s => set_status (FL_SET (zs_status s) flag) s).
Definition st_clr (fd flag : Z) : zm W unit :=
  zs_upd fd (fun s => set_status (FL_CLR (zs_status s) flag) s).

Definition zs_isset_read (fd : Z) : zm W bool := z ← getz; lift (FD_ISSET fd (active_r z)).
Definition zs_isset_write (fd : Z) : zm W bool := z ← getz; lift (FD_ISSET fd (active_w z)).

(** [n_selectable++] and [--]. *)
Definition n_selectable_add (d : Z) : zm W unit :=
  z ← getz; putz (set_n_selectable (zs_n_selectable z + d) z).

Definition zfd_set_m (fd : Z) (io : io_type_t) (hdlr : Z) : zm W unit :=
  z ← getz; l ← lift (zfd_set (zs_loop z) fd io hdlr 0); putz (set_loop l z).
Definition zfd_clr_m (fd : Z) (io : io_type_t) : zm W unit :=
  z ← getz; l ← lift (zfd_clr (zs_loop z) fd io); putz (set_loop l z).

(** ** The interest in the loop *)

Definition want_write : Z :=
  Z.lor ZS_STAT_WANT_WRITE_FROM_READ (Z.lor ZS_STAT_WANT_WRITE_FROM_WRITE
  (Z.lor ZS_STAT_WANT_WRITE_FROM_CONNECT ZS_STAT_WANT_WRITE_FROM_ACCEPT)).
Definition want_read : Z :=
  Z.lor ZS_STAT_WANT_READ_FROM_READ (Z.lor ZS_STAT_WANT_READ_FROM_WRITE
  (Z.lor ZS_STAT_WANT_READ_FROM_CONNECT ZS_STAT_WANT_READ_FROM_ACCEPT)).

Definition zs_update_fd_state (fd : Z) : zm W unit :=
  s ← zs_assert fd;
  r ← zs_isset_read fd;
  w ← zs_isset_write fd;
  match zs_type s with
  | ZSOCK_CONNECT =>
      _ ← (if (w && negb (FL_SOME s (Z.lor ZS_STAT_WRITING ZS_STAT_WRITABLE))) || FL_SOME s want_write
           then zfd_set_m fd ZFD_W zs_internal_write_hdlr else zfd_clr_m fd ZFD_W);
      if (r && negb (FL_SOME s (Z.lor ZS_STAT_READING ZS_STAT_READABLE))) || FL_SOME s want_read
      then zfd_set_m fd ZFD_R zs_internal_read_hdlr else zfd_clr_m fd ZFD_R
  | ZSOCK_LISTEN =>
      if r && negb (FL_SOME s (Z.lor ZS_STAT_ACCEPTING ZS_STAT_READABLE))
      then zfd_set_m fd ZFD_R zs_internal_accept_hdlr else zfd_clr_m fd ZFD_R
  end.

(** ** The interests of the users *)

Definition zs_set_read (fd : Z) : zm W unit :=
  s ← zs_assert fd;
  a ← zs_isset_read fd;
  _ ← when (negb a && FL_HAS s ZS_STAT_READABLE) (n_selectable_add 1);
  z ← getz;
  r ← lift (FD_SET fd (active_r z));
  h ← lift (fd_hash_add (zs_hash z) fd);
  _ ← putz (set_active r (active_w z) h z);
  zs_update_fd_state fd.

Definition zs_set_write (fd : Z) : zm W unit :=
  s ← zs_assert fd;
  a ← zs_isset_write fd;
  _ ← when (negb a && FL_HAS s ZS_STAT_WRITABLE) (n_selectable_add 1);
  z ← getz;
  w ← lift (FD_SET fd (active_w z));
  h ← lift (fd_hash_add (zs_hash z) fd);
  _ ← putz (set_active (active_r z) w h z);
  zs_update_fd_state fd.

(** The descriptor leaves the list when no interest is left. *)
Definition zs_drop_inactive (fd : Z) : zm W unit :=
  z ← getz;
  r ← lift (FD_ISSET fd (active_r z));
  w ← lift (FD_ISSET fd (active_w z));
  when (negb r && negb w)
    (h ← lift (fd_hash_remove (zs_hash z) fd);
     putz (set_active (active_r z) (active_w z) h z)).

Definition zs_update_if_live (fd : Z) : zm W unit :=
  o ← zs_get_by_fd fd;
  match o with Some _ => zs_update_fd_state fd | None => mret tt end.

Definition zs_clr_read (fd : Z) : zm W unit :=
  s ← zs_assert fd;
  a ← zs_isset_read fd;
  _ ← when (a && FL_HAS s ZS_STAT_READABLE) (n_selectable_add (-1));
  z ← getz;
  r ← lift (FD_CLR fd (active_r z));
  _ ← putz (set_active r (active_w z) (zs_hash z) z);
  _ ← zs_drop_inactive fd;
  zs_update_if_live fd.

Definition zs_clr_write (fd : Z) : zm W unit :=
  s ← zs_assert fd;
  a ← zs_isset_write fd;
  _ ← when (a && FL_HAS s ZS_STAT_WRITABLE) (n_selectable_add (-1));
  z ← getz;
  w ← lift (FD_CLR fd (active_w z));
  _ ← putz (set_active (active_r z) w (zs_hash z) z);
  _ ← zs_drop_inactive fd;
  zs_update_if_live fd.

(** ** Closing *)

Inductive zs_ret := ZRet (v : Z) | ZErr (errno : Z).

(** The descriptors are given back to the kernel, which the model does not follow. *)
Definition zs_close (fd : Z) : zm W zs_ret :=
  o ← zs_get_by_fd fd;
  match o with
  | None => mret (ZErr EBADF)
  | Some p =>
      let finish : zm W zs_ret :=
        _ ← zfd_clr_m fd ZFD_R;
        _ ← zfd_clr_m fd ZFD_W;
        _ ← zs_clr_read fd;
        _ ← zs_clr_write fd;
        _ ← zs_store fd None;
        mret (ZRet 0) in
      match zs_type p with
      | ZSOCK_LISTEN =>
          _ ← zs_store fd (Some (set_n_open (n_open p - 1) p));
          if 0 <? n_open p - 1 then mret (ZRet 0) else finish
      | ZSOCK_CONNECT =>
          if FL_HAS p ZS_STAT_WRITING then
            _ ← zs_clr_read fd;
            _ ← zs_clr_write fd;
            _ ← st_set fd ZS_STAT_CLOSED;
            mret (ZRet 0)
          else finish
      end
  end.

(** ** What the loop calls *)

(** The counter goes up when a socket that somebody waits for becomes ready. *)
Definition count_readable (fd : Z) : zm W unit :=
  s ← zs_deref fd;
  a ← zs_isset_read fd;
  when (a && negb (FL_HAS s ZS_STAT_READABLE)) (n_selectable_add 1).

Definition count_writable (fd : Z) : zm W unit :=
  s ← zs_deref fd;
  a ← zs_isset_write fd;
  when (a && negb (FL_HAS s ZS_STAT_WRITABLE)) (n_selectable_add 1).

Definition zs_accepter (fd : Z) : zm W unit :=
  zs ← zs_deref fd;
  let parent := parent_fd zs in
  zs_parent ← zs_deref parent;
  _ ← count_readable parent;
  _ ← st_set parent ZS_STAT_READABLE;
  _ ← st_clr parent ZS_STAT_ACCEPTING;
  _ ← when (negb (accepted_fd zs_parent =? -1))
        (_ ← count_writable fd;
         _ ← st_set fd (Z.lor ZS_STAT_CONNECTED ZS_STAT_WRITABLE);
         when (zs_ssl zs) (st_set fd ZS_STAT_ACCEPTING));
  zs_update_fd_state parent.

Section os.
Context (os : os_ops W).

Definition zs_connecter (fd : Z) : zm W unit :=
  zs ← zs_deref fd;
  let connected : zm W unit :=
    _ ← count_writable fd;
    _ ← st_set fd (Z.lor ZS_STAT_CONNECTED ZS_STAT_WRITABLE);
    st_clr fd ZS_STAT_CONNECTING in
  if zs_ssl zs then
    '(n, err) ← os_call (ssl_connect os fd);
    if n <? 0 then
      if err =? SSL_ERROR_WANT_READ then st_set fd ZS_STAT_WANT_READ_FROM_CONNECT
      else if err =? SSL_ERROR_WANT_WRITE then st_set fd ZS_STAT_WANT_WRITE_FROM_CONNECT
      else
        _ ← zs_upd fd (fun s => set_rd (rw_fail EPROTO (zs_rd s)) (set_wr (rw_fail EPROTO (zs_wr s)) s));
        connected
    else connected
  else connected.

(** The end of a handshake goes back to what the socket was doing. *)
Definition zs_handshake_done (fd : Z) : zm W unit :=
  _ ← st_clr fd ZS_STAT_ACCEPTING;
  zs ← zs_deref fd;
  if FL_HAS zs ZS_STAT_READING then st_set fd ZS_STAT_WANT_READ_FROM_READ
  else when (FL_HAS zs ZS_STAT_WRITING) (st_set fd ZS_STAT_WANT_WRITE_FROM_WRITE).

(** The bytes that are still to be written. *)
Definition rw_pending (r : zsock_rw_data_t) : bytes :=
  take (Z.to_nat (rw_used r - rw_pos r)) (drop (Z.to_nat (rw_pos r)) (default [] (rw_buffer r))).

(** The second half of [zs_writer]: [n] is the result of the write. *)
Definition zs_written (fd n : Z) : zm W unit :=
  zs ← zs_deref fd;
  let wr := zs_wr zs in
  let finish : zm W unit :=
    _ ← zs_upd fd (fun s => set_wr (RW None (rw_used (zs_wr s)) (rw_pos (zs_wr s)) (rw_errno (zs_wr s))) s);
    _ ← count_writable fd;
    _ ← st_set fd ZS_STAT_WRITABLE;
    _ ← st_clr fd ZS_STAT_WRITING;
    zs ← zs_deref fd;
    when (FL_HAS zs ZS_STAT_CLOSED) (_ ← zs_close fd; mret tt) in
  if 0 <? n then
    let pos := rw_pos wr + n in
    _ ← zs_upd fd (fun s => set_wr (RW (rw_buffer (zs_wr s)) (rw_used (zs_wr s)) pos (rw_errno (zs_wr s))) s);
    if rw_used wr - pos =? 0 then finish else st_set fd ZS_STAT_WANT_WRITE_FROM_WRITE
  else finish.

Definition zs_writer (fd : Z) : zm W unit :=
  zs ← zs_deref fd;
  let fail e := zs_upd fd (fun s => set_wr (rw_fail e (zs_wr s)) s) in
  if zs_ssl zs then
    let accepting := FL_HAS zs ZS_STAT_ACCEPTING in
    '(n, err) ← os_call (if accepting then ssl_accept os fd
                         else os_write os fd true (rw_pending (zs_wr zs)));
    if (n <? 0) && (err =? SSL_ERROR_WANT_READ) then st_set fd ZS_STAT_WANT_READ_FROM_WRITE
    else if (n <? 0) && (err =? SSL_ERROR_WANT_WRITE) then st_set fd ZS_STAT_WANT_WRITE_FROM_WRITE
    else
      _ ← when (n <? 0) (fail EPROTO);
      if (accepting : bool) then zs_handshake_done fd else zs_written fd n
  else
    '(n, err) ← os_call (os_write os fd false (rw_pending (zs_wr zs)));
    if (n =? -1) && (err =? EAGAIN) then st_set fd ZS_STAT_WANT_WRITE_FROM_WRITE
    else
      _ ← when (n =? -1) (fail err);
      zs_written fd n.

(** The bytes that the kernel put behind the used ones. *)
Definition rw_fill (r : zsock_rw_data_t) (data : bytes) : res (option bytes) :=
  buf ← deref (rw_buffer r);
  if bool_decide (data = []) then Done (Some buf)
  else if (0 <=? rw_used r) && (rw_used r + Z.of_nat (length data) <=? Z.of_nat (length buf))
  then Done (Some (take (Z.to_nat (rw_used r)) buf ++ data ++
                   drop (Z.to_nat (rw_used r) + length data) buf))
  else Fault OutOfBounds.

(** The second half of [zs_reader]: [n] is the result of the read. *)
Definition zs_was_read (fd n : Z) : zm W unit :=
  _ ← (if 0 <? n
       then zs_upd fd (fun s => set_rd (RW (rw_buffer (zs_rd s)) (rw_used (zs_rd s) + n)
                                          (rw_pos (zs_rd s)) (rw_errno (zs_rd s))) s)
       else if n =? -1
       then zs_upd fd (fun s => set_rd (RW (rw_buffer (zs_rd s)) (-1) (rw_pos (zs_rd s))
                                          (rw_errno (zs_rd s))) s)
       else st_set fd ZS_STAT_EOF);
  _ ← count_readable fd;
  _ ← st_set fd ZS_STAT_READABLE;
  st_clr fd ZS_STAT_READING.

Definition zs_reader (fd : Z) : zm W unit :=
  zs ← zs_deref fd;
  let rd := zs_rd zs in
  let room := (length (default [] (rw_buffer rd)) - Z.to_nat (rw_used rd))%nat in
  let fail e := zs_upd fd (fun s => set_rd (rw_fail e (zs_rd s)) s) in
  let store data :=
    buf ← lift (rw_fill rd data);
    zs_upd fd (fun s => set_rd (RW buf (rw_used (zs_rd s)) (rw_pos (zs_rd s)) (rw_errno (zs_rd s))) s) in
  if zs_ssl zs then
    let accepting := FL_HAS zs ZS_STAT_ACCEPTING in
    '(n, data, err) ← os_call (if accepting
                               then fun w => let '((n, e), w) := ssl_accept os fd w in ((n, [], e), w)
                               else os_read os fd true room);
    _ ← store data;
    if (n <? 0) && (err =? SSL_ERROR_WANT_READ) then st_set fd ZS_STAT_WANT_READ_FROM_READ
    else if (n <? 0) && (err =? SSL_ERROR_WANT_WRITE) then st_set fd ZS_STAT_WANT_WRITE_FROM_READ
    else
      _ ← when (n <? 0) (fail EPROTO);
      if (accepting : bool) then zs_handshake_done fd else zs_was_read fd n
  else
    '(n, data, err) ← os_call (os_read os fd false room);
    _ ← store data;
    if (n =? -1) && (err =? EAGAIN) then st_set fd ZS_STAT_WANT_READ_FROM_READ
    else
      _ ← when (n =? -1) (fail err);
      zs_was_read fd n.

(** ** Creation *)

Definition empty_rw : zsock_rw_data_t := RW None 0 0 0.

(** [None] when the certificate or the key of a listening socket does not load.  The
    2048 bytes of a fresh read buffer stand for whatever malloc returns. *)
Definition zs_type_init (fd : Z) (type : zs_type_t) (addr portno hdlr : Z) (ssl : bool)
  : zm W (option unit) :=
  ok ← (fun z w => Done (ssl_ctx_ok os w, z, w));
  match type with
  | ZSOCK_LISTEN =>
      if ssl && negb ok then mret None
      else
        _ ← zs_store fd (Some (Zs ZSOCK_LISTEN addr portno 0 hdlr 1 (-1) 0 ssl (-1) empty_rw empty_rw));
        mret (Some tt)
  | ZSOCK_CONNECT =>
      _ ← zs_store fd (Some (Zs ZSOCK_CONNECT addr portno 0 hdlr 0 0 0 ssl (-1)
                               (RW (Some (replicate 2048 0)) 0 0 0) empty_rw));
      mret (Some tt)
  end.

Definition zs_internal_accept (fd : Z) : zm W unit :=
  zs ← zs_deref fd;
  _ ← st_set fd ZS_STAT_ACCEPTING;
  '(newsockfd, addr, errno) ← os_call (os_accept os fd);
  let failed (e : Z) : zm W unit :=
    _ ← zs_upd fd (set_accepted (-1) e);
    _ ← st_clr fd ZS_STAT_ACCEPTING;
    zs_update_fd_state fd in
  if newsockfd =? -1 then failed errno
  else
    o ← zs_type_init newsockfd ZSOCK_CONNECT addr (zs_portno zs) (zs_event_hdlr zs) (zs_ssl zs);
    match o with
    | None => failed EPROTO
    | Some _ =>
        _ ← zs_upd fd (fun s => set_accepted newsockfd (accepted_errno s) s);
        _ ← zs_upd newsockfd (set_parent fd);
        _ ← zs_accepter newsockfd;
        _ ← zs_update_if_live newsockfd;
        zs_update_fd_state fd
    end.

(** The rest of a handler, unless the socket was closed meanwhile. *)
Definition if_live (fd : Z) (m : zm W unit) : zm W unit :=
  o ← zs_get_by_fd fd;
  match o with Some _ => m | None => mret tt end.

(** A step of a handler that is taken when the flag is set. *)
Definition on_flag (fd flag : Z) (m : zm W unit) : zm W unit :=
  zs ← zs_deref fd;
  when (FL_HAS zs flag) (_ ← st_clr fd flag; m).

Definition zs_internal_write (fd : Z) : zm W unit :=
  zs ← zs_deref fd;
  _ ← lift (assert (bool_decide (zs_type zs = ZSOCK_CONNECT)));
  if FL_HAS zs ZS_STAT_CONNECTED then
    _ ← on_flag fd ZS_STAT_WANT_WRITE_FROM_WRITE (zs_writer fd);
    if_live fd
      (_ ← on_flag fd ZS_STAT_WANT_WRITE_FROM_READ (zs_reader fd);
       zs_update_fd_state fd)
  else if FL_HAS zs ZS_STAT_CONNECTING then
    _ ← st_clr fd ZS_STAT_WANT_WRITE_FROM_CONNECT;
    _ ← zs_connecter fd;
    zs_update_fd_state fd
  else
    _ ← st_clr fd ZS_STAT_WANT_WRITE_FROM_ACCEPT;
    _ ← zs_accepter fd;
    if_live fd (zs_update_fd_state fd).

Definition zs_internal_read (fd : Z) : zm W unit :=
  zs ← zs_deref fd;
  _ ← lift (assert (bool_decide (zs_type zs = ZSOCK_CONNECT)));
  if FL_HAS zs ZS_STAT_CONNECTED then
    _ ← when (negb (FL_SOME zs (Z.lor ZS_STAT_WANT_READ_FROM_READ ZS_STAT_WANT_READ_FROM_WRITE)))
          (_ ← st_set fd ZS_STAT_READING; st_set fd ZS_STAT_WANT_READ_FROM_READ);
    _ ← on_flag fd ZS_STAT_WANT_READ_FROM_READ (zs_reader fd);
    _ ← on_flag fd ZS_STAT_WANT_READ_FROM_WRITE (zs_writer fd);
    if_live fd (zs_update_fd_state fd)
  else if FL_HAS zs ZS_STAT_CONNECTING then
    _ ← st_clr fd ZS_STAT_WANT_READ_FROM_CONNECT;
    _ ← zs_connecter fd;
    zs_update_fd_state fd
  else
    _ ← st_clr fd ZS_STAT_WANT_READ_FROM_ACCEPT;
    _ ← zs_accepter fd;
    if_live fd (zs_update_fd_state fd).

(** The handler that the loop calls, by its name. *)
Definition zs_loop_call (hdlr fd : Z) : zm W unit :=
  if hdlr =? zs_internal_read_hdlr then zs_internal_read fd
  else if hdlr =? zs_internal_write_hdlr then zs_internal_write fd
  else zs_internal_accept fd.

(** ** The API *)

Definition is_info (addr portno : Z) (o : option zsocket_t) : bool :=
  match o with
  | Some p => (zs_portno p =? portno) && (zs_addr p =? addr)
  | None => false
  end.

Definition zs_get_by_info (addr portno : Z) : zm W (option nat) :=
  z ← getz;
  mret (fst <$> list_find (fun o => is_info addr portno o = true) (zsockets z)).

(** [p->listen.n_open++]; in a connected socket parent_fd is at its place. *)
Definition n_open_inc (s : zsocket_t) : zsocket_t :=
  match zs_type s with
  | ZSOCK_LISTEN => set_n_open (n_open s + 1) s
  | ZSOCK_CONNECT => set_parent (parent_fd s + 1) s
  end.

Definition zsocket (addr portno : Z) (type : zs_type_t) (hdlr : Z) (ssl : bool) : zm W Z :=
  known ← (match type with
           | ZSOCK_LISTEN => zs_get_by_info addr portno
           | ZSOCK_CONNECT => mret None
           end);
  match known with
  | Some i => _ ← zs_upd (Z.of_nat i) n_open_inc; mret (Z.of_nat i)
  | None =>
      sockfd ← os_call (match type with
                        | ZSOCK_LISTEN => os_listen os addr portno
                        | ZSOCK_CONNECT => os_connect os addr portno
                        end);
      if sockfd =? -1 then mret (-1)
      else
        o ← zs_type_init sockfd type addr portno hdlr ssl;
        match o, type with
        | None, _ => mret (-1)
        | Some _, ZSOCK_LISTEN => mret sockfd
        | Some _, ZSOCK_CONNECT =>
            _ ← st_set sockfd ZS_STAT_CONNECTING;
            _ ← zs_connecter sockfd;
            _ ← zs_update_fd_state sockfd;
            mret sockfd
        end
  end.

Definition zs_get_addr (fd : Z) : zm W (option Z) := o ← zs_get_by_fd fd; mret (zs_addr <$> o).

Definition zs_is_ssl (fd : Z) : zm W bool := zs ← zs_deref fd; mret (zs_ssl zs).

Definition zs_set_event_hdlr (fd hdlr : Z) : zm W unit :=
  _ ← zs_assert fd; zs_upd fd (set_event_hdlr hdlr).

Definition zs_accept (fd : Z) : zm W zs_ret :=
  o ← zs_get_by_fd fd;
  match o with
  | None => mret (ZErr EBADF)
  | Some zs =>
      if FL_HAS zs ZS_STAT_CLOSED then mret (ZErr EBADF)
      else if bool_decide (zs_type zs ≠ ZSOCK_LISTEN) then mret (ZErr EINVAL)
      else if negb (FL_HAS zs ZS_STAT_READABLE) then mret (ZErr EAGAIN)
      else
        a ← zs_isset_read fd;
        _ ← when (a && FL_HAS zs ZS_STAT_READABLE) (n_selectable_add (-1));
        _ ← st_clr fd ZS_STAT_READABLE;
        _ ← zs_update_fd_state fd;
        zs ← zs_deref fd;
        _ ← lift (assert (negb (accepted_errno zs =? 0) || (0 <=? accepted_fd zs)));
        _ ← zs_upd fd (set_accepted (-1) 0);
        mret (if accepted_fd zs =? -1 then ZErr (accepted_errno zs) else ZRet (accepted_fd zs))
  end.

(** The refill after the buffer was emptied: what the SSL library has already read would
    not wake up the loop.  The wants of the reader are put back. *)
Definition zs_refill (fd : Z) : zm W unit :=
  zs ← zs_deref fd;
  a ← zs_isset_read fd;
  _ ← when (a && FL_HAS zs ZS_STAT_READABLE) (n_selectable_add (-1));
  _ ← zs_upd fd (fun s => set_rd (RW (rw_buffer (zs_rd s)) 0 0 (rw_errno (zs_rd s))) s);
  _ ← st_clr fd ZS_STAT_READABLE;
  zs ← zs_deref fd;
  let want_r := FL_HAS zs ZS_STAT_WANT_READ_FROM_READ in
  let want_w := FL_HAS zs ZS_STAT_WANT_WRITE_FROM_READ in
  _ ← zs_reader fd;
  _ ← (if (want_r : bool) then st_set fd ZS_STAT_WANT_READ_FROM_READ
       else st_clr fd ZS_STAT_WANT_READ_FROM_READ);
  _ ← (if (want_w : bool) then st_set fd ZS_STAT_WANT_WRITE_FROM_READ
       else st_clr fd ZS_STAT_WANT_WRITE_FROM_READ);
  zs_update_fd_state fd.

(** The result and the bytes in the buffer of the caller. *)
Definition zs_read (fd : Z) (nbyte : nat) : zm W (zs_ret * bytes) :=
  o ← zs_get_by_fd fd;
  match o with
  | None => mret (ZErr EBADF, [])
  | Some zs =>
      if bool_decide (zs_type zs ≠ ZSOCK_CONNECT) || FL_HAS zs ZS_STAT_CLOSED
      then mret (ZErr EBADF, [])
      else if negb (FL_HAS zs ZS_STAT_READABLE) then mret (ZErr EAGAIN, [])
      else
        let rd := zs_rd zs in
        let used := if rw_used rd <? Z.of_nat nbyte then rw_used rd else Z.of_nat nbyte in
        let quit ret data : zm W (zs_ret * bytes) :=
          zs ← zs_deref fd;
          _ ← when ((rw_used (zs_rd zs) =? 0) && negb (FL_HAS zs ZS_STAT_EOF)) (zs_refill fd);
          mret (ret, data) in
        if negb (rw_errno rd =? 0) then
          quit (if used =? -1 then ZErr (rw_errno rd) else ZRet used) []
        else if rw_used rd =? 0 then
          _ ← lift (assert (FL_HAS zs ZS_STAT_EOF));
          quit (ZRet used) []
        else
          buf ← lift (deref (rw_buffer rd));
          _ ← lift (if (0 <=? used) && (rw_pos rd + used <=? Z.of_nat (length buf))
                    then Done tt else Fault OutOfBounds);
          let data := take (Z.to_nat used) (drop (Z.to_nat (rw_pos rd)) buf) in
          _ ← zs_upd fd (set_rd (RW (Some buf) (rw_used rd - used) (rw_pos rd + used) (rw_errno rd)));
          quit (ZRet used) data
  end.

(** The error message of the source reads the type through the pointer. *)
Definition zs_write (fd : Z) (buf : bytes) : zm W zs_ret :=
  o ← zs_get_by_fd fd;
  match o with
  | None => lift (Fault NullDeref)
  | Some zs =>
      if bool_decide (zs_type zs ≠ ZSOCK_CONNECT) || FL_HAS zs ZS_STAT_CLOSED then mret (ZErr EBADF)
      else if negb (FL_HAS zs ZS_STAT_WRITABLE) then mret (ZErr EAGAIN)
      else
        let wr := zs_wr zs in
        _ ← lift (assert (match rw_buffer wr with None => true | Some _ => false end));
        a ← zs_isset_write fd;
        _ ← when (a && FL_HAS zs ZS_STAT_WRITABLE) (n_selectable_add (-1));
        _ ← st_clr fd ZS_STAT_WRITABLE;
        if negb (rw_errno wr =? 0) then
          _ ← zs_upd fd (fun s => set_wr (rw_fail 0 (zs_wr s)) s);
          _ ← zs_update_fd_state fd;
          mret (ZErr 1)
        else
          _ ← zs_upd fd (set_wr (RW (Some buf) (Z.of_nat (length buf)) 0 0));
          _ ← st_set fd (Z.lor ZS_STAT_WRITING ZS_STAT_WANT_WRITE_FROM_WRITE);
          _ ← zs_update_fd_state fd;
          mret (ZRet (Z.of_nat (length buf)))
  end.

End os.

Definition zs_need_select : zm W bool := z ← getz; mret (negb (zs_n_selectable z =? 0)).

(** *** The round over the sockets *)

Section select.
Context (event_hdlr : Z → Z → Z → zm W unit).   (* the handler, descriptor, event *)

Definition zs_visit (read_fd_set write_fd_set : fd_set) (fd : Z) (zs : zsocket_t) : zm W unit :=
  r ← lift (FD_ISSET fd read_fd_set);
  a ← zs_isset_read fd;
  _ ← when (r && a && FL_HAS zs ZS_STAT_READABLE)
        (event_hdlr (zs_event_hdlr zs) fd
           (match zs_type zs with ZSOCK_CONNECT => ZS_EVT_READ_READY
                                | ZSOCK_LISTEN => ZS_EVT_ACCEPT_READY end));
  w ← lift (FD_ISSET fd write_fd_set);
  a ← zs_isset_write fd;
  when (w && a)
    (zs ← zs_deref fd;
     when (FL_HAS zs ZS_STAT_WRITABLE)
       (_ ← lift (assert (bool_decide (zs_type zs = ZSOCK_CONNECT)));
        event_hdlr (zs_event_hdlr zs) fd ZS_EVT_WRITE_READY)).

(** A descriptor without a socket is visited again and again. *)
Fixpoint zs_select_loop (fuel : nat) (read_fd_set write_fd_set : fd_set) (fd : Z) : zm W unit :=
  match fuel with
  | O => lift (Fault OutOfFuel)
  | S fuel =>
      if fd =? -1 then mret tt
      else
        o ← zs_get_by_fd fd;
        match o with
        | None => zs_select_loop fuel read_fd_set write_fd_set fd
        | Some zs =>
            _ ← zs_visit read_fd_set write_fd_set fd zs;
            z ← getz;
            fd ← lift (fd_hash_next (zs_hash z) fd);
            zs_select_loop fuel read_fd_set write_fd_set fd
        end
  end.

Definition zs_select (fuel : nat) : zm W bool :=
  z ← getz;
  _ ← zs_select_loop fuel (active_r z) (active_w z) (fd_hash_head (zs_hash z));
  zs_need_select.

End select.
End ops.
