(* ===== verification/ZsocketInv.v ===== *)
(** zsocket.c, second part: the counter of what is ready, and that every operation keeps
    it right.  [zs_need_select] decides whether the main loop may sleep, so a counter
    that is too small would leave data unread. *)

From Stdlib Require Import ZArith Lia String.
From S2P Require Export Zsocket.

Local Open Scope Z_scope.

(** ** What the counter counts *)

Definition has (z : zs_state) (p : nat) (flag : Z) : bool :=
  match zsockets z !! p with Some (Some s) => FL_HAS s flag | _ => false end.

Definition b2z (b : bool) : Z := if b then 1 else 0.

(** The events that socket [p] has for its users. *)
Definition ready (z : zs_state) (p : nat) : Z :=
  b2z (bit (active_r z) p && has z p ZS_STAT_READABLE) +
  b2z (bit (active_w z) p && has z p ZS_STAT_WRITABLE).

Fixpoint sum_upto (f : nat → Z) (n : nat) : Z :=
  match n with O => 0 | S n => sum_upto f n + f n end.

Record counted (z : zs_state) : Prop := {
  ct_sockets : length (zsockets z) = FD_SETSIZE;
  ct_read : length (active_r z) = FD_SETSIZE;
  ct_write : length (active_w z) = FD_SETSIZE;
  ct_live : ∀ p, bit (active_r z) p || bit (active_w z) p = true →
            ∃ s, zsockets z !! p = Some (Some s);
  ct_count : zs_n_selectable z = sum_upto (ready z) FD_SETSIZE;
  ct_loop : ∃ l, zfd_inv (zs_loop z) l;
  ct_hash : ∃ l, rep (zs_hash z) l
}.

(** ** Sums *)

Lemma sum_upto_ext f g n : (∀ p, (p < n)%nat → f p = g p) → sum_upto f n = sum_upto g n.
Proof.
  induction n as [|n IH]; intros H; simpl; [done|]. rewrite IH by (intros; apply H; lia).
  by rewrite H by lia.
Qed.

Lemma sum_upto_change f g n p :
  (p < n)%nat → (∀ q, q ≠ p → f q = g q) → sum_upto g n = sum_upto f n - f p + g p.
Proof.
  intros Hp H. induction n as [|n IH]; [lia|]. simpl.
  destruct (decide (p = n)) as [->|Hne].
  - rewrite (sum_upto_ext g f) by (intros q Hq; symmetry; apply H; lia). lia.
  - rewrite IH by lia. rewrite (H n) by done. lia.
Qed.

Lemma sum_upto_nonneg f n : (∀ p, 0 <= f p) → 0 <= sum_upto f n.
Proof. intros H. induction n; simpl; [lia|]. specialize (H n). lia. Qed.

Lemma sum_upto_zero f n :
  (∀ p, 0 <= f p) → sum_upto f n = 0 ↔ ∀ p, (p < n)%nat → f p = 0.
Proof.
  intros Hf. induction n as [|n IH]; simpl; [split; [lia | done]|].
  pose proof (sum_upto_nonneg f n Hf). pose proof (Hf n). split.
  - intros Hs p Hp. destruct (decide (p = n)) as [->|]; [lia|]. apply IH; lia.
  - intros Hs. rewrite (proj2 IH) by (intros; apply Hs; lia). rewrite Hs; lia.
Qed.

Lemma ready_nonneg z p : 0 <= ready z p.
Proof. unfold ready, b2z. repeat case_match; lia. Qed.

(** ** Changes at one descriptor *)

Record differ_at (p : nat) (z z' : zs_state) : Prop := {
  df_sockets : length (zsockets z') = length (zsockets z);
  df_read : length (active_r z') = length (active_r z);
  df_write : length (active_w z') = length (active_w z);
  df_socket : ∀ q, q ≠ p → zsockets z' !! q = zsockets z !! q;
  df_bits : ∀ q, q ≠ p → bit (active_r z') q = bit (active_r z) q ∧
                         bit (active_w z') q = bit (active_w z) q;
  df_loop : (∃ l, zfd_inv (zs_loop z) l) → ∃ l, zfd_inv (zs_loop z') l;
  df_hash : (∃ l, rep (zs_hash z) l) → ∃ l, rep (zs_hash z') l
}.

Lemma counted_change p z z' :
  counted z → (p < FD_SETSIZE)%nat → differ_at p z z' →
  (bit (active_r z') p || bit (active_w z') p = true → ∃ s, zsockets z' !! p = Some (Some s)) →
  zs_n_selectable z' = zs_n_selectable z - ready z p + ready z' p → counted z'.
Proof.
  intros [H1 H2 H3 H4 H5 H6 H7] Hp [D1 D2 D3 D4 D5 D6 D7] Hl Hn. split; try congruence; auto.
  - intros q Hq. destruct (decide (q = p)) as [->|Hne]; [auto|].
    rewrite D4 by done. destruct (D5 q Hne) as [E1 E2]. rewrite E1, E2 in Hq. auto.
  - rewrite Hn, H5. symmetry. apply sum_upto_change; [done|]. intros q Hq. unfold ready, has.
    rewrite D4 by done. destruct (D5 q Hq) as [-> ->]. done.
Qed.

(** ** Running the monad *)

Lemma zm_bind_inv {W A B} (m : zm W A) (k : A → zm W B) z w r :
  (m ≫= k) z w = Done r → ∃ a z' w', m z w = Done (a, z', w') ∧ k a z' w' = Done r.
Proof.
  unfold mbind, zm_bind. destruct (m z w) as [[[a z'] w']|f]; [|discriminate]. eauto.
Qed.

Lemma lift_inv {W A} (r : res A) z (w : W) a z' w' :
  lift r z w = Done (a, z', w') → r = Done a ∧ z' = z ∧ w' = w.
Proof. unfold lift. destruct r; [|discriminate]. intros [= <- <- <-]. done. Qed.

Lemma FD_ISSET_inv fd s b :
  FD_ISSET fd s = Done b → ∃ p, cell fd = Done p ∧ b = bit s p.
Proof.
  unfold FD_ISSET. intros H. apply res_bind_inv in H as (p & Hp & H).
  apply at_index_Done in H. exists p. split; [done|]. unfold bit. by rewrite H.
Qed.

Lemma FD_SET_inv fd s s' : FD_SET fd s = Done s' → ∃ p, cell fd = Done p ∧ s' = <[p := true]> s.
Proof.
  unfold FD_SET. intros H. apply res_bind_inv in H as (p & Hp & H). injection H as <-. eauto.
Qed.

Lemma FD_CLR_inv fd s s' : FD_CLR fd s = Done s' → ∃ p, cell fd = Done p ∧ s' = <[p := false]> s.
Proof.
  unfold FD_CLR. intros H. apply res_bind_inv in H as (p & Hp & H). injection H as <-. eauto.
Qed.

Lemma get_by_fd_inv {W} fd z (w : W) o z' w' :
  zs_get_by_fd fd z w = Done (o, z', w') →
  z' = z ∧ w' = w ∧ ∃ p, cell fd = Done p ∧ zsockets z !! p = Some o.
Proof.
  unfold zs_get_by_fd. intros H. apply zm_bind_inv in H as (z0 & z1 & w1 & Hg & H).
  injection Hg as <- <- <-. apply lift_inv in H as (H & -> & ->).
  apply res_bind_inv in H as (p & Hp & H). apply at_index_Done in H. eauto.
Qed.

Lemma deref_inv {W} fd z (w : W) s z' w' :
  zs_deref fd z w = Done (s, z', w') →
  z' = z ∧ w' = w ∧ ∃ p, cell fd = Done p ∧ zsockets z !! p = Some (Some s).
Proof.
  unfold zs_deref. intros H. apply zm_bind_inv in H as (o & z1 & w1 & Hg & H).
  apply get_by_fd_inv in Hg as (-> & -> & p & Hp & Ho). apply lift_inv in H as (H & -> & ->).
  destruct o; [|discriminate]. injection H as ->. eauto.
Qed.

Lemma zs_assert_inv {W} fd z (w : W) s z' w' :
  zs_assert fd z w = Done (s, z', w') →
  z' = z ∧ w' = w ∧ ∃ p, cell fd = Done p ∧ zsockets z !! p = Some (Some s).
Proof.
  unfold zs_assert. intros H. apply zm_bind_inv in H as (o & z1 & w1 & Hg & H).
  apply get_by_fd_inv in Hg as (-> & -> & p & Hp & Ho). destruct o; [|discriminate].
  injection H as <- <- <-. eauto.
Qed.

Lemma store_inv {W} fd o z (w : W) u z' w' :
  zs_store fd o z w = Done (u, z', w') →
  w' = w ∧ ∃ p, cell fd = Done p ∧ z' = set_sockets (<[p := o]> (zsockets z)) z.
Proof.
  unfold zs_store. intros H. apply zm_bind_inv in H as (z0 & z1 & w1 & Hg & H).
  injection Hg as <- <- <-. apply zm_bind_inv in H as (p & z1 & w1 & Hp & H).
  apply lift_inv in Hp as (Hp & -> & ->). injection H as <- <- <-. eauto.
Qed.

Lemma upd_inv {W} fd f z (w : W) u z' w' :
  zs_upd fd f z w = Done (u, z', w') →
  w' = w ∧ ∃ p s, cell fd = Done p ∧ zsockets z !! p = Some (Some s) ∧
    z' = set_sockets (<[p := Some (f s)]> (zsockets z)) z.
Proof.
  unfold zs_upd. intros H. apply zm_bind_inv in H as (s & z1 & w1 & Hg & H).
  apply deref_inv in Hg as (-> & -> & p & Hp & Hs). apply store_inv in H as (-> & q & Hq & ->).
  assert (q = p) as -> by congruence. eauto 6.
Qed.

Lemma isset_read_inv {W} fd z (w : W) b z' w' :
  zs_isset_read fd z w = Done (b, z', w') →
  z' = z ∧ w' = w ∧ ∃ p, cell fd = Done p ∧ b = bit (active_r z) p.
Proof.
  unfold zs_isset_read. intros H. apply zm_bind_inv in H as (z0 & z1 & w1 & Hg & H).
  injection Hg as <- <- <-. apply lift_inv in H as (H & -> & ->). by apply FD_ISSET_inv in H.
Qed.

Lemma isset_write_inv {W} fd z (w : W) b z' w' :
  zs_isset_write fd z w = Done (b, z', w') →
  z' = z ∧ w' = w ∧ ∃ p, cell fd = Done p ∧ b = bit (active_w z) p.
Proof.
  unfold zs_isset_write. intros H. apply zm_bind_inv in H as (z0 & z1 & w1 & Hg & H).
  injection Hg as <- <- <-. apply lift_inv in H as (H & -> & ->). by apply FD_ISSET_inv in H.
Qed.

Lemma when_add_inv {W} b d z (w : W) u z' w' :
  when b (n_selectable_add d) z w = Done (u, z', w') →
  w' = w ∧ z' = set_n_selectable (zs_n_selectable z + (if b then d else 0)) z.
Proof.
  unfold when. destruct b; intros H.
  - by injection H as <- <- <-.
  - injection H as <- <- <-. rewrite Z.add_0_r. by destruct z.
Qed.

(** Runs the monad in the hypotheses. *)
Ltac zrun :=
  repeat match goal with
  | H : mbind ?k ?m ?z ?w = Done _ |- _ =>
      let a := fresh "a" in let z' := fresh "z" in let w' := fresh "w" in let E := fresh "E" in
      apply zm_bind_inv in H; destruct H as (a & z' & w' & E & H); cbv beta in H
  | H : getz ?z ?w = Done _ |- _ => injection H; clear H; intros; subst
  | H : putz _ ?z ?w = Done _ |- _ => injection H; clear H; intros; subst
  | H : mret _ ?z ?w = Done _ |- _ => injection H; clear H; intros; subst
  | H : lift (Fault _) _ _ = Done _ |- _ => discriminate H
  | H : lift _ _ _ = Done _ |- _ => apply lift_inv in H as (? & ? & ?); subst
  | H : zs_get_by_fd _ _ _ = Done _ |- _ => apply get_by_fd_inv in H as (? & ? & ? & ? & ?); subst
  | H : zs_deref _ _ _ = Done _ |- _ => apply deref_inv in H as (? & ? & ? & ? & ?); subst
  | H : zs_assert _ _ _ = Done _ |- _ => apply zs_assert_inv in H as (? & ? & ? & ? & ?); subst
  | H : zs_isset_read _ _ _ = Done _ |- _ => apply isset_read_inv in H as (? & ? & ? & ? & ?); subst
  | H : zs_isset_write _ _ _ = Done _ |- _ => apply isset_write_inv in H as (? & ? & ? & ? & ?); subst
  | H : when _ (n_selectable_add _) _ _ = Done _ |- _ => apply when_add_inv in H as (? & ?); subst
  | H : zs_upd _ _ _ _ = Done _ |- _ => apply upd_inv in H as (? & ? & ? & ? & ? & ?); subst
  | H : zs_store _ _ _ _ = Done _ |- _ => apply store_inv in H as (? & ? & ? & ?); subst
  | H : cell ?fd = Done ?p, H' : cell ?fd = Done ?q |- _ =>
      rewrite H in H'; injection H' as ?; subst
  end.

(** ** Operations that keep the counter right *)

Definition keeps {W A} (m : zm W A) : Prop :=
  ∀ z w a z' w', counted z → m z w = Done (a, z', w') → counted z'.

Lemma zkeeps_bind {W A B} (m : zm W A) (k : A → zm W B) :
  keeps m → (∀ a, keeps (k a)) → keeps (m ≫= k).
Proof.
  intros Hm Hk z w a z' w' Hz H. apply zm_bind_inv in H as (b & z1 & w1 & E & H).
  eapply Hk; [|exact H]. by eapply Hm.
Qed.

Lemma keeps_same {W A} (m : zm W A) :
  (∀ z w a z' w', m z w = Done (a, z', w') → z' = z) → keeps m.
Proof. intros H z w a z' w' Hz E. by rewrite (H _ _ _ _ _ E). Qed.

Lemma zkeeps_ret {W A} (a : A) : keeps (mret a : zm W A).
Proof. apply keeps_same. intros. by zrun. Qed.
Lemma keeps_lift {W A} (r : res A) : keeps (lift r : zm W A).
Proof. apply keeps_same. intros. by zrun. Qed.
Lemma keeps_getz {W} : keeps (getz : zm W zs_state).
Proof. apply keeps_same. intros. by zrun. Qed.
Lemma keeps_os {W A} (f : W → A * W) : keeps (os_call f).
Proof.
  apply keeps_same. unfold os_call. intros z w a z' w' H. destruct (f w).
  by injection H as <- <- <-.
Qed.
Lemma keeps_get_by_fd {W} fd : keeps (zs_get_by_fd fd : zm W _).
Proof. apply keeps_same. intros. by zrun. Qed.
Lemma keeps_deref {W} fd : keeps (zs_deref fd : zm W _).
Proof. apply keeps_same. intros. by zrun. Qed.
Lemma keeps_assert {W} fd : keeps (zs_assert fd : zm W _).
Proof. apply keeps_same. intros. by zrun. Qed.
Lemma keeps_isset_read {W} fd : keeps (zs_isset_read fd : zm W _).
Proof. apply keeps_same. intros. by zrun. Qed.
Lemma keeps_isset_write {W} fd : keeps (zs_isset_write fd : zm W _).
Proof. apply keeps_same. intros. by zrun. Qed.
Lemma keeps_when {W} b (m : zm W unit) : keeps m → keeps (when b m).
Proof. intros H. destruct b; [exact H | apply zkeeps_ret]. Qed.

Lemma counted_loop l k z : counted z → zfd_inv l k → counted (set_loop l z).
Proof. intros [] Hl. split; try done. by eexists. Qed.

Lemma zfd_set_valid z fd io h u z' : zfd_set z fd io h u = Done z' → valid_fd fd.
Proof.
  unfold zfd_set. intros H. apply res_bind_inv in H as (z1 & E & _). unfold info_put in E.
  apply res_bind_inv in E as (p & E & _). unfold cell in E. destruct (_ && _) eqn:Eb; [|done].
  zbool. unfold valid_fd. lia.
Qed.

Lemma zfd_clr_valid z fd io z' : zfd_clr z fd io = Done z' → valid_fd fd.
Proof.
  unfold zfd_clr. intros H. apply res_bind_inv in H as (s & E & _). unfold FD_CLR in E.
  apply res_bind_inv in E as (p & E & _). unfold cell in E. destruct (_ && _) eqn:Eb; [|done].
  zbool. unfold valid_fd. lia.
Qed.

(** The loop stays well-formed. *)
Lemma loop_set_ok z fd io h u z' :
  (∃ l, zfd_inv z l) → zfd_set z fd io h u = Done z' → ∃ l, zfd_inv z' l.
Proof.
  intros [l Hl] E. destruct (zfd_set_inv z l fd io h u Hl (zfd_set_valid _ _ _ _ _ _ E)) as (z1 & E1 & Hi & _).
  assert (z1 = z') as <- by congruence. by eexists.
Qed.

Lemma loop_clr_ok z fd io z' : (∃ l, zfd_inv z l) → zfd_clr z fd io = Done z' → ∃ l, zfd_inv z' l.
Proof.
  intros [l Hl] E. destruct (zfd_clr_inv z l fd io Hl (zfd_clr_valid _ _ _ _ E)) as (z1 & E1 & Hi & _).
  assert (z1 = z') as <- by congruence. by eexists.
Qed.

Lemma cell_valid fd p : cell fd = Done p → valid_fd fd.
Proof. unfold cell, valid_fd. destruct (_ && _) eqn:E; [|done]. intros _. zbool. lia. Qed.

(** And so does the list. *)
Lemma keeps_zfd_set {W} fd io h : keeps (zfd_set_m fd io h : zm W unit).
Proof.
  intros z w a z' w' Hz H. unfold zfd_set_m in H. zrun.
  destruct (loop_set_ok _ _ _ _ _ _ (ct_loop _ Hz) H) as [l Hl]. by eapply counted_loop.
Qed.
Lemma keeps_zfd_clr {W} fd io : keeps (zfd_clr_m fd io : zm W unit).
Proof.
  intros z w a z' w' Hz H. unfold zfd_clr_m in H. zrun.
  destruct (loop_clr_ok _ _ _ _ (ct_loop _ Hz) H) as [l Hl]. by eapply counted_loop.
Qed.

Lemma keeps_update {W} fd : keeps (zs_update_fd_state fd : zm W unit).
Proof.
  unfold zs_update_fd_state.
  apply zkeeps_bind; [apply keeps_assert|intros s].
  apply zkeeps_bind; [apply keeps_isset_read|intros r].
  apply zkeeps_bind; [apply keeps_isset_write|intros w].
  destruct (zs_type s); [|apply zkeeps_bind; [|intros _]];
    match goal with |- keeps (if ?b then _ else _) => destruct b end;
    first [apply keeps_zfd_set | apply keeps_zfd_clr].
Qed.

(** *** Updates of one socket *)

Lemma set_sockets_differ p o z :
  differ_at p z (set_sockets (<[p := o]> (zsockets z)) z).
Proof.
  split; simpl; try done; [apply length_insert|]. intros q Hq. by rewrite list_lookup_insert_ne.
Qed.

Lemma has_insert p o z f :
  (p < length (zsockets z))%nat →
  has (set_sockets (<[p := o]> (zsockets z)) z) p f =
  match o with Some s => FL_HAS s f | None => false end.
Proof. intros H. unfold has. simpl. by rewrite list_lookup_insert_eq. Qed.

Lemma has_lookup z p s f : zsockets z !! p = Some (Some s) → has z p f = FL_HAS s f.
Proof. intros H. unfold has. by rewrite H. Qed.

(** A socket that is replaced by another one changes what [n] counts by as much as its
    two flags say. *)
Lemma counted_store z p s s' n :
  counted z → (p < FD_SETSIZE)%nat → zsockets z !! p = Some (Some s) →
  n = zs_n_selectable z
      - (b2z (bit (active_r z) p && FL_HAS s ZS_STAT_READABLE) +
         b2z (bit (active_w z) p && FL_HAS s ZS_STAT_WRITABLE))
      + (b2z (bit (active_r z) p && FL_HAS s' ZS_STAT_READABLE) +
         b2z (bit (active_w z) p && FL_HAS s' ZS_STAT_WRITABLE)) →
  counted (set_n_selectable n (set_sockets (<[p := Some s']> (zsockets z)) z)).
Proof.
  intros Hz Hp Hs Hn. eapply (counted_change p z); [done|done| | |].
  - pose proof (set_sockets_differ p (Some s') z) as []. by split.
  - intros _. exists s'. simpl. apply list_lookup_insert_eq. by eapply lookup_lt_Some.
  - assert ((p < length (zsockets z))%nat) as Hlt by (by eapply lookup_lt_Some).
    unfold ready. rewrite !(has_lookup z p s) by done. simpl.
    unfold has. simpl. rewrite list_lookup_insert_eq by done. simpl in Hn. exact Hn.
Qed.

Lemma set_n_same z : set_n_selectable (zs_n_selectable z) z = z.
Proof. by destruct z. Qed.

(** An update that leaves the two flags alone. *)
Lemma counted_upd z p s s' :
  counted z → (p < FD_SETSIZE)%nat → zsockets z !! p = Some (Some s) →
  FL_HAS s' ZS_STAT_READABLE = FL_HAS s ZS_STAT_READABLE →
  FL_HAS s' ZS_STAT_WRITABLE = FL_HAS s ZS_STAT_WRITABLE →
  counted (set_sockets (<[p := Some s']> (zsockets z)) z).
Proof.
  intros Hz Hp Hs Hr Hw. rewrite <- set_n_same. eapply counted_store; [done|done|exact Hs|].
  rewrite Hr, Hw. simpl. lia.
Qed.

Lemma keeps_upd {W} fd f :
  (∀ s, zs_status (f s) = zs_status s) → keeps (zs_upd fd f : zm W unit).
Proof.
  intros Hf z w a z' w' Hz H. zrun. destruct (cell_inv _ _ H0) as [_ Hp].
  eapply counted_upd; [done|done|exact H1| |]; unfold FL_HAS; by rewrite Hf.
Qed.

(** The flags that the counter does not look at. *)
Definition other_flag (f : Z) : Prop :=
  Z.land f ZS_STAT_READABLE = 0 ∧ Z.land f ZS_STAT_WRITABLE = 0.

Lemma keeps_st_set {W} fd f : other_flag f → keeps (st_set fd f : zm W unit).
Proof.
  intros [Hr Hw] z w a z' w' Hz H. unfold st_set in H. zrun. destruct (cell_inv _ _ H0) as [_ Hp].
  eapply counted_upd; [done|done|exact H1| |]; unfold FL_HAS; simpl;
    by rewrite FL_ISSET_SET_disjoint.
Qed.

Lemma keeps_st_clr {W} fd f : other_flag f → keeps (st_clr fd f : zm W unit).
Proof.
  intros [Hr Hw] z w a z' w' Hz H. unfold st_clr in H. zrun. destruct (cell_inv _ _ H0) as [_ Hp].
  eapply counted_upd; [done|done|exact H1| |]; unfold FL_HAS; simpl;
    by rewrite FL_ISSET_CLR_disjoint.
Qed.

(** *** Sockets that become ready *)

Lemma count_readable_inv {W} fd z (w : W) u z' w' :
  count_readable fd z w = Done (u, z', w') →
  w' = w ∧ ∃ p s, cell fd = Done p ∧ zsockets z !! p = Some (Some s) ∧
  z' = set_n_selectable (zs_n_selectable z +
         b2z (bit (active_r z) p && negb (FL_HAS s ZS_STAT_READABLE))) z.
Proof. unfold count_readable. intros H. zrun. split; [done|]. by eexists _, _. Qed.

Lemma count_writable_inv {W} fd z (w : W) u z' w' :
  count_writable fd z w = Done (u, z', w') →
  w' = w ∧ ∃ p s, cell fd = Done p ∧ zsockets z !! p = Some (Some s) ∧
  z' = set_n_selectable (zs_n_selectable z +
         b2z (bit (active_w z) p && negb (FL_HAS s ZS_STAT_WRITABLE))) z.
Proof. unfold count_writable. intros H. zrun. split; [done|]. by eexists _, _. Qed.

Lemma st_set_inv {W} fd f z (w : W) u z' w' :
  st_set fd f z w = Done (u, z', w') →
  w' = w ∧ ∃ p s, cell fd = Done p ∧ zsockets z !! p = Some (Some s) ∧
  z' = set_sockets (<[p := Some (set_status (FL_SET (zs_status s) f) s)]> (zsockets z)) z.
Proof. apply upd_inv. Qed.

Lemma st_clr_inv {W} fd f z (w : W) u z' w' :
  st_clr fd f z w = Done (u, z', w') →
  w' = w ∧ ∃ p s, cell fd = Done p ∧ zsockets z !! p = Some (Some s) ∧
  z' = set_sockets (<[p := Some (set_status (FL_CLR (zs_status s) f) s)]> (zsockets z)) z.
Proof. apply upd_inv. Qed.

(** Setting the flag [f], which holds READABLE and not WRITABLE, after counting. *)
Lemma keeps_mark_readable {W A} fd (k : unit → zm W A) :
  (∀ u, keeps (k u)) → keeps (_ ← count_readable fd; u ← st_set fd ZS_STAT_READABLE; k u).
Proof.
  intros Hk z w a z' w' Hz H.
  apply zm_bind_inv in H as (u1 & z1 & w1 & E1 & H).
  apply zm_bind_inv in H as (u2 & z2 & w2 & E2 & H).
  apply count_readable_inv in E1 as (-> & p & s & Hc & Hs & ->).
  apply st_set_inv in E2 as (-> & p' & s' & Hc' & Hs' & ->). simpl in Hs'.
  assert (p' = p) as -> by congruence. assert (s' = s) as -> by congruence.
  eapply Hk; [|exact H]. apply cell_inv in Hc as [_ Hp].
  eapply counted_store with (n := zs_n_selectable z +
    b2z (bit (active_r z) p && negb (FL_HAS s ZS_STAT_READABLE))) in Hs; [exact Hs|done|done|].
  unfold FL_HAS. simpl. rewrite FL_ISSET_SET, (FL_ISSET_SET_disjoint _ _ ZS_STAT_WRITABLE) by done.
  destruct (bit (active_r z) p), (FL_ISSET (zs_status s) ZS_STAT_READABLE); simpl; lia.
Qed.

Lemma keeps_mark_writable {W A} fd f (k : unit → zm W A) :
  f = ZS_STAT_WRITABLE ∨ f = Z.lor ZS_STAT_CONNECTED ZS_STAT_WRITABLE →
  (∀ u, keeps (k u)) → keeps (_ ← count_writable fd; u ← st_set fd f; k u).
Proof.
  intros Hf Hk z w a z' w' Hz H.
  apply zm_bind_inv in H as (u1 & z1 & w1 & E1 & H).
  apply zm_bind_inv in H as (u2 & z2 & w2 & E2 & H).
  apply count_writable_inv in E1 as (-> & p & s & Hc & Hs & ->).
  apply st_set_inv in E2 as (-> & p' & s' & Hc' & Hs' & ->). simpl in Hs'.
  assert (p' = p) as -> by congruence. assert (s' = s) as -> by congruence.
  eapply Hk; [|exact H]. apply cell_inv in Hc as [_ Hp].
  eapply counted_store with (n := zs_n_selectable z +
    b2z (bit (active_w z) p && negb (FL_HAS s ZS_STAT_WRITABLE))) in Hs; [exact Hs|done|done|].
  assert (FL_ISSET (FL_SET (zs_status s) f) ZS_STAT_WRITABLE = true) as E.
  { destruct Hf as [-> | ->]; [apply FL_ISSET_SET|]. apply FL_ISSET_spec. intros i Hi.
    rewrite FL_SET_testbit, Z.lor_spec, Hi. by rewrite !orb_true_r. }
  assert (FL_ISSET (FL_SET (zs_status s) f) ZS_STAT_READABLE = FL_ISSET (zs_status s) ZS_STAT_READABLE)
    as E' by (apply FL_ISSET_SET_disjoint; by destruct Hf as [-> | ->]).
  unfold FL_HAS. simpl. rewrite E, E'.
  destruct (bit (active_w z) p), (FL_ISSET (zs_status s) ZS_STAT_WRITABLE); simpl; lia.
Qed.

(** *** Interests *)

(** Only the loop changed, and it stays well-formed. *)
Definition loop_step (z z' : zs_state) : Prop :=
  ∃ l, z' = set_loop l z ∧ ((∃ k, zfd_inv (zs_loop z) k) → ∃ k, zfd_inv l k).

Lemma loop_step_trans z z1 z2 : loop_step z z1 → loop_step z1 z2 → loop_step z z2.
Proof. intros (l & -> & H1) (l2 & -> & H2). exists l2. split; [done|]. intros H. by apply H2, H1. Qed.

Lemma zfd_step_inv {W} (b : bool) fd io h z (w : W) u z' w' :
  (if b then zfd_set_m fd io h else zfd_clr_m fd io) z w = Done (u, z', w') →
  w' = w ∧ loop_step z z'.
Proof.
  destruct b; unfold zfd_set_m, zfd_clr_m; intros H; zrun; (split; [done|]);
    eexists; (split; [done|]); intros Hl;
    [by eapply loop_set_ok | by eapply loop_clr_ok].
Qed.

Lemma update_inv {W} fd z (w : W) u z' w' :
  zs_update_fd_state fd z w = Done (u, z', w') → w' = w ∧ loop_step z z'.
Proof.
  unfold zs_update_fd_state. intros H. zrun. destruct (zs_type _).
  - by apply zfd_step_inv in H.
  - apply zm_bind_inv in H as (u1 & z1 & w1 & E & H).
    apply zfd_step_inv in E as [-> S1]. apply zfd_step_inv in H as [-> S2].
    split; [done | by eapply loop_step_trans].
Qed.

Lemma set_read_counted {W} fd z (w : W) u z' w' :
  counted z → zs_set_read fd z w = Done (u, z', w') → counted z'.
Proof.
  intros Hz H. unfold zs_set_read in H.
  apply zm_bind_inv in H as (s & z1 & w1 & E & H). apply zs_assert_inv in E as (-> & -> & p & Hc & Hs).
  apply zm_bind_inv in H as (a & z1 & w1 & E & H).
  apply isset_read_inv in E as (-> & -> & p' & Hc' & ->). assert (p' = p) as -> by congruence.
  apply zm_bind_inv in H as (u1 & z1 & w1 & E & H). apply when_add_inv in E as (-> & ->).
  apply zm_bind_inv in H as (z2 & z1 & w1 & E & H). injection E as <- <- <-.
  apply zm_bind_inv in H as (r & z1 & w1 & E & H). apply lift_inv in E as (E & -> & ->).
  apply FD_SET_inv in E as (p' & Hc2 & ->). assert (p' = p) as -> by congruence.
  apply zm_bind_inv in H as (h & z1 & w1 & E & H). apply lift_inv in E as (E & -> & ->).
  apply zm_bind_inv in H as (u2 & z1 & w1 & E2 & H). injection E2 as <- <- <-.
  apply update_inv in H as (-> & l & -> & Hl). pose proof (cell_inv _ _ Hc) as [_ Hp].
  eapply (counted_change p z); [done|done| | |].
  - split; simpl; try done; [by rewrite length_insert| |intros Hr; by eapply fd_hash_add_ok].
    intros q Hq. split; [|done]. unfold bit. by rewrite list_lookup_insert_ne.
  - intros _. by exists s.
  - unfold ready. simpl. rewrite bit_insert by (rewrite (ct_read _ Hz); lia).
    rewrite decide_True by done.
    change (has (set_loop l _) p) with (has z p). rewrite !(has_lookup z p s) by done.
    destruct (bit (active_r z) p), (FL_HAS s ZS_STAT_READABLE); simpl; lia.
Qed.

Lemma set_write_counted {W} fd z (w : W) u z' w' :
  counted z → zs_set_write fd z w = Done (u, z', w') → counted z'.
Proof.
  intros Hz H. unfold zs_set_write in H.
  apply zm_bind_inv in H as (s & z1 & w1 & E & H). apply zs_assert_inv in E as (-> & -> & p & Hc & Hs).
  apply zm_bind_inv in H as (a & z1 & w1 & E & H).
  apply isset_write_inv in E as (-> & -> & p' & Hc' & ->). assert (p' = p) as -> by congruence.
  apply zm_bind_inv in H as (u1 & z1 & w1 & E & H). apply when_add_inv in E as (-> & ->).
  apply zm_bind_inv in H as (z2 & z1 & w1 & E & H). injection E as <- <- <-.
  apply zm_bind_inv in H as (r & z1 & w1 & E & H). apply lift_inv in E as (E & -> & ->).
  apply FD_SET_inv in E as (p' & Hc2 & ->). assert (p' = p) as -> by congruence.
  apply zm_bind_inv in H as (h & z1 & w1 & E & H). apply lift_inv in E as (E & -> & ->).
  apply zm_bind_inv in H as (u2 & z1 & w1 & E2 & H). injection E2 as <- <- <-.
  apply update_inv in H as (-> & l & -> & Hl). pose proof (cell_inv _ _ Hc) as [_ Hp].
  eapply (counted_change p z); [done|done| | |].
  - split; simpl; try done; [by rewrite length_insert| |intros Hr; by eapply fd_hash_add_ok].
    intros q Hq. split; [done|]. unfold bit. by rewrite list_lookup_insert_ne.
  - intros _. by exists s.
  - unfold ready. simpl. rewrite bit_insert by (rewrite (ct_write _ Hz); lia).
    rewrite decide_True by done.
    change (has (set_loop l _) p) with (has z p). rewrite !(has_lookup z p s) by done.
    destruct (bit (active_w z) p), (FL_HAS s ZS_STAT_WRITABLE); simpl; lia.
Qed.

(** The end of the two functions that drop an interest. *)
Lemma drop_inv {W} fd z (w : W) u z' w' :
  (_ ← zs_drop_inactive fd; zs_update_if_live fd) z w = Done (u, z', w') →
  w' = w ∧ zsockets z' = zsockets z ∧ active_r z' = active_r z ∧ active_w z' = active_w z ∧
  zs_n_selectable z' = zs_n_selectable z ∧
  ((∃ k, zfd_inv (zs_loop z) k) → ∃ k, zfd_inv (zs_loop z') k) ∧
  ((∃ k, rep (zs_hash z) k) → ∃ k, rep (zs_hash z') k).
Proof.
  intros H. apply zm_bind_inv in H as (u1 & z1 & w1 & E & H).
  assert (w1 = w ∧ zsockets z1 = zsockets z ∧ active_r z1 = active_r z ∧ active_w z1 = active_w z ∧
    zs_n_selectable z1 = zs_n_selectable z ∧ zs_loop z1 = zs_loop z ∧
    ((∃ k, rep (zs_hash z) k) → ∃ k, rep (zs_hash z1) k)) as (-> & E1 & E2 & E3 & E4 & E5 & E6).
  { unfold zs_drop_inactive in E. zrun. apply FD_ISSET_inv in H0 as (p & Hc & _).
    unfold when in E. destruct (_ && _); zrun; [|done].
    split_and!; try done. intros Hr. by eapply fd_hash_remove_ok. }
  unfold zs_update_if_live in H. apply zm_bind_inv in H as (o & z2 & w2 & Eo & H).
  apply get_by_fd_inv in Eo as (-> & -> & _). rewrite <- E5.
  destruct o; [|zrun; split_and!; done].
  apply update_inv in H as (-> & l & -> & Hl). split_and!; done.
Qed.

(** After [zs_clr_read] nobody waits to read from the socket. *)
Lemma clr_read_spec {W} fd z (w : W) u z' w' :
  counted z → zs_clr_read fd z w = Done (u, z', w') →
  counted z' ∧ zsockets z' = zsockets z ∧ active_w z' = active_w z ∧
  ∃ p, cell fd = Done p ∧ bit (active_r z') p = false.
Proof.
  intros Hz H. unfold zs_clr_read in H.
  apply zm_bind_inv in H as (s & z1 & w1 & E & H). apply zs_assert_inv in E as (-> & -> & p & Hc & Hs).
  apply zm_bind_inv in H as (a & z1 & w1 & E & H).
  apply isset_read_inv in E as (-> & -> & p' & Hc' & ->). assert (p' = p) as -> by congruence.
  apply zm_bind_inv in H as (u1 & z1 & w1 & E & H). apply when_add_inv in E as (-> & ->).
  apply zm_bind_inv in H as (z2 & z1 & w1 & E & H). injection E as <- <- <-.
  apply zm_bind_inv in H as (r & z1 & w1 & E & H). apply lift_inv in E as (E & -> & ->).
  apply FD_CLR_inv in E as (p' & Hc2 & ->). assert (p' = p) as -> by congruence.
  apply zm_bind_inv in H as (u2 & z1 & w1 & E2 & H). injection E2 as <- <- <-.
  apply drop_inv in H as (-> & Ez & Er & Ew & En & El & Eh). simpl in Ez, Er, Ew, En, El, Eh.
  pose proof (cell_inv _ _ Hc) as [_ Hp].
  assert (bit (active_r z') p = false) as Hb.
  { rewrite Er, bit_insert by (rewrite (ct_read _ Hz); lia). by rewrite decide_True. }
  split; [|split_and!; [done|done|eauto]]. eapply (counted_change p z); [done|done| | |].
  - split; rewrite ?Ez, ?Er, ?Ew; try done; [by rewrite length_insert|]. intros q Hq. split; [|done].
    unfold bit. by rewrite list_lookup_insert_ne.
  - intros _. exists s. by rewrite Ez.
  - unfold ready. rewrite Hb, Ew, En. unfold has. rewrite Ez, Hs.
    destruct (bit (active_r z) p), (FL_HAS s ZS_STAT_READABLE); simpl; lia.
Qed.

Lemma clr_write_spec {W} fd z (w : W) u z' w' :
  counted z → zs_clr_write fd z w = Done (u, z', w') →
  counted z' ∧ zsockets z' = zsockets z ∧ active_r z' = active_r z ∧
  ∃ p, cell fd = Done p ∧ bit (active_w z') p = false.
Proof.
  intros Hz H. unfold zs_clr_write in H.
  apply zm_bind_inv in H as (s & z1 & w1 & E & H). apply zs_assert_inv in E as (-> & -> & p & Hc & Hs).
  apply zm_bind_inv in H as (a & z1 & w1 & E & H).
  apply isset_write_inv in E as (-> & -> & p' & Hc' & ->). assert (p' = p) as -> by congruence.
  apply zm_bind_inv in H as (u1 & z1 & w1 & E & H). apply when_add_inv in E as (-> & ->).
  apply zm_bind_inv in H as (z2 & z1 & w1 & E & H). injection E as <- <- <-.
  apply zm_bind_inv in H as (r & z1 & w1 & E & H). apply lift_inv in E as (E & -> & ->).
  apply FD_CLR_inv in E as (p' & Hc2 & ->). assert (p' = p) as -> by congruence.
  apply zm_bind_inv in H as (u2 & z1 & w1 & E2 & H). injection E2 as <- <- <-.
  apply drop_inv in H as (-> & Ez & Er & Ew & En & El & Eh). simpl in Ez, Er, Ew, En, El, Eh.
  pose proof (cell_inv _ _ Hc) as [_ Hp].
  assert (bit (active_w z') p = false) as Hb.
  { rewrite Ew, bit_insert by (rewrite (ct_write _ Hz); lia). by rewrite decide_True. }
  split; [|split_and!; [done|done|eauto]]. eapply (counted_change p z); [done|done| | |].
  - split; rewrite ?Ez, ?Er, ?Ew; try done; [by rewrite length_insert|]. intros q Hq. split; [done|].
    unfold bit. by rewrite list_lookup_insert_ne.
  - intros _. exists s. by rewrite Ez.
  - unfold ready. rewrite Hb, Er, En. unfold has. rewrite Ez, Hs.
    destruct (bit (active_w z) p), (FL_HAS s ZS_STAT_WRITABLE); simpl; lia.
Qed.

Lemma keeps_set_read {W} fd : keeps (zs_set_read fd : zm W unit).
Proof. intros z w a z' w' Hz H. by eapply set_read_counted. Qed.
Lemma keeps_set_write {W} fd : keeps (zs_set_write fd : zm W unit).
Proof. intros z w a z' w' Hz H. by eapply set_write_counted. Qed.
Lemma keeps_clr_read {W} fd : keeps (zs_clr_read fd : zm W unit).
Proof. intros z w a z' w' Hz H. by eapply clr_read_spec. Qed.
Lemma keeps_clr_write {W} fd : keeps (zs_clr_write fd : zm W unit).
Proof. intros z w a z' w' Hz H. by eapply clr_write_spec. Qed.

(** A socket that nobody waits for may go. *)
Lemma counted_gone z p :
  counted z → (p < FD_SETSIZE)%nat → bit (active_r z) p = false → bit (active_w z) p = false →
  counted (set_sockets (<[p := None]> (zsockets z)) z).
Proof.
  intros Hz Hp Hr Hw. eapply (counted_change p z); [done|done|apply set_sockets_differ| |].
  - simpl. by rewrite Hr, Hw.
  - unfold ready. simpl. rewrite Hr, Hw. simpl. lia.
Qed.

(** And a socket that was just made counts nothing. *)
Lemma counted_fresh z p s :
  counted z → (p < FD_SETSIZE)%nat → zsockets z !! p = Some None →
  counted (set_sockets (<[p := Some s]> (zsockets z)) z).
Proof.
  intros Hz Hp Hn. assert (bit (active_r z) p || bit (active_w z) p = false) as Hb.
  { destruct (_ || _) eqn:E; [|done]. apply (ct_live _ Hz) in E as [s' Hs']. congruence. }
  apply orb_false_iff in Hb as [Hr Hw].
  eapply (counted_change p z); [done|done|apply set_sockets_differ| |].
  - simpl. by rewrite Hr, Hw.
  - unfold ready. simpl. rewrite Hr, Hw. simpl. lia.
Qed.

Lemma keeps_close {W} fd : keeps (zs_close fd : zm W zs_ret).
Proof.
  assert (keeps (_ ← zfd_clr_m fd ZFD_R; _ ← zfd_clr_m fd ZFD_W; _ ← zs_clr_read fd;
                 _ ← zs_clr_write fd; _ ← zs_store fd None; mret (ZRet 0) : zm W zs_ret)) as Hfin.
  { apply zkeeps_bind; [apply keeps_zfd_clr|intros _].
    apply zkeeps_bind; [apply keeps_zfd_clr|intros _].
    intros z w a z' w' Hz H. apply zm_bind_inv in H as (u1 & z1 & w1 & E1 & H).
    apply clr_read_spec in E1 as (Hz1 & _ & _ & p & Hc & Hr); [|done].
    apply zm_bind_inv in H as (u2 & z2 & w2 & E2 & H).
    apply clr_write_spec in E2 as (Hz2 & _ & Hr2 & p' & Hc' & Hw); [|done].
    assert (p' = p) as -> by congruence. rewrite <- Hr2 in Hr.
    apply zm_bind_inv in H as (u3 & z3 & w3 & E3 & H). apply store_inv in E3 as (-> & q & Hq & ->).
    assert (q = p) as -> by congruence. zrun. apply cell_inv in Hq as [_ Hp].
    by apply counted_gone. }
  intros z w a z' w' Hz H. unfold zs_close in H.
  apply zm_bind_inv in H as (o & z1 & w1 & E & H).
  apply get_by_fd_inv in E as (-> & -> & p & Hc & Ho). destruct o as [s|]; [|by zrun].
  destruct (zs_type s) eqn:Et.
  - apply zm_bind_inv in H as (u1 & z1 & w1 & E & H). apply store_inv in E as (-> & q & Hq & ->).
    assert (q = p) as -> by congruence. apply cell_inv in Hq as [_ Hp].
    assert (counted (set_sockets (<[p := Some (set_n_open (n_open s - 1) s)]> (zsockets z)) z)) as Hz1
      by (eapply counted_upd; done).
    destruct (_ <? _); [by zrun | by eapply Hfin].
  - destruct (FL_HAS s ZS_STAT_WRITING); [|by eapply Hfin].
    revert H. revert z w a z' w' Hz Hc Ho.
    assert (keeps (_ ← zs_clr_read fd; _ ← zs_clr_write fd; _ ← st_set fd ZS_STAT_CLOSED;
                   mret (ZRet 0) : zm W zs_ret)) as Hk.
    { apply zkeeps_bind; [apply keeps_clr_read|intros _].
      apply zkeeps_bind; [apply keeps_clr_write|intros _].
      apply zkeeps_bind; [by apply keeps_st_set|intros _]. apply zkeeps_ret. }
    intros z w a z' w' Hz _ _ H. by eapply Hk.
Qed.

#[local] Hint Resolve zkeeps_ret keeps_lift keeps_getz keeps_os keeps_get_by_fd keeps_deref
  keeps_assert keeps_isset_read keeps_isset_write keeps_zfd_set keeps_zfd_clr keeps_update
  keeps_set_read keeps_set_write keeps_clr_read keeps_clr_write keeps_close keeps_upd
  keeps_st_set keeps_st_clr : keeps.
#[local] Hint Extern 1 (other_flag _) => split; reflexivity : keeps.
#[local] Hint Extern 1 (∀ s, zs_status _ = zs_status s) => reflexivity : keeps.

(** Goes through the monad and its case distinctions. *)
Ltac keep :=
  repeat first
  [ solve [auto with keeps]
  | apply keeps_mark_readable; intros ?
  | apply keeps_mark_writable; [by (left + right)|intros ?]
  | apply keeps_when
  | apply zkeeps_bind; [|intros ?]
  | match goal with |- keeps (match ?x with _ => _ end) => destruct x end
  | progress cbv zeta ].

Lemma keeps_update_if_live {W} fd : keeps (zs_update_if_live fd : zm W unit).
Proof. unfold zs_update_if_live. keep. Qed.
#[local] Hint Resolve keeps_update_if_live : keeps.

Lemma keeps_accepter {W} fd : keeps (zs_accepter fd : zm W unit).
Proof. unfold zs_accepter. keep. Qed.
#[local] Hint Resolve keeps_accepter : keeps.

Section os.
Context {W : Type} (os : os_ops W).

Lemma keeps_connecter fd : keeps (zs_connecter os fd).
Proof. unfold zs_connecter. keep. Qed.

Lemma keeps_handshake_done fd : keeps (zs_handshake_done fd : zm W unit).
Proof. unfold zs_handshake_done. keep. Qed.
#[local] Hint Resolve keeps_connecter keeps_handshake_done : keeps.

Lemma keeps_written fd n : keeps (zs_written fd n : zm W unit).
Proof. unfold zs_written. keep. Qed.
#[local] Hint Resolve keeps_written : keeps.

Lemma keeps_writer fd : keeps (zs_writer os fd).
Proof. unfold zs_writer. keep. Qed.

Lemma keeps_was_read fd n : keeps (zs_was_read fd n : zm W unit).
Proof. unfold zs_was_read. keep. Qed.
#[local] Hint Resolve keeps_writer keeps_was_read : keeps.

Lemma keeps_reader fd : keeps (zs_reader os fd).
Proof. unfold zs_reader. keep. Qed.
#[local] Hint Resolve keeps_reader : keeps.

(** *** Sockets that are no longer ready *)

Lemma counted_unmark_readable z p s s' :
  counted z → (p < FD_SETSIZE)%nat → zsockets z !! p = Some (Some s) →
  zs_status s' = FL_CLR (zs_status s) ZS_STAT_READABLE →
  counted (set_n_selectable (zs_n_selectable z +
             (if bit (active_r z) p && FL_HAS s ZS_STAT_READABLE then -1 else 0))
           (set_sockets (<[p := Some s']> (zsockets z)) z)).
Proof.
  intros Hz Hp Hs Hst. eapply counted_store; [done|done|exact Hs|].
  unfold FL_HAS. rewrite Hst, FL_ISSET_CLR by done.
  rewrite (FL_ISSET_CLR_disjoint _ _ ZS_STAT_WRITABLE) by done.
  destruct (bit (active_r z) p), (FL_ISSET (zs_status s) ZS_STAT_READABLE); simpl; lia.
Qed.

Lemma counted_unmark_writable z p s s' :
  counted z → (p < FD_SETSIZE)%nat → zsockets z !! p = Some (Some s) →
  zs_status s' = FL_CLR (zs_status s) ZS_STAT_WRITABLE →
  counted (set_n_selectable (zs_n_selectable z +
             (if bit (active_w z) p && FL_HAS s ZS_STAT_WRITABLE then -1 else 0))
           (set_sockets (<[p := Some s']> (zsockets z)) z)).
Proof.
  intros Hz Hp Hs Hst. eapply counted_store; [done|done|exact Hs|].
  unfold FL_HAS. rewrite Hst, FL_ISSET_CLR by done.
  rewrite (FL_ISSET_CLR_disjoint _ _ ZS_STAT_READABLE) by done.
  destruct (bit (active_w z) p), (FL_ISSET (zs_status s) ZS_STAT_WRITABLE); simpl; lia.
Qed.

(** The rest of a function, from a state that is counted. *)
Ltac keep_rest H Hz :=
  match type of H with ?m _ _ = _ =>
    let Hk := fresh in assert (keeps m) as Hk by keep; exact (Hk _ _ _ _ _ Hz H)
  end.

Lemma keeps_accept fd : keeps (zs_accept fd : zm W zs_ret).
Proof.
  intros z w r z' w' Hz H. unfold zs_accept in H.
  apply zm_bind_inv in H as (o & z1 & w1 & E & H).
  apply get_by_fd_inv in E as (-> & -> & p & Hc & Ho). destruct o as [s|]; [|by zrun].
  destruct (FL_HAS s ZS_STAT_CLOSED); [by zrun|].
  destruct (bool_decide _); [by zrun|]. destruct (negb _); [by zrun|].
  apply zm_bind_inv in H as (a & z1 & w1 & E & H).
  apply isset_read_inv in E as (-> & -> & p' & Hc' & ->). assert (p' = p) as -> by congruence.
  apply zm_bind_inv in H as (u1 & z1 & w1 & E & H). apply when_add_inv in E as (-> & ->).
  apply zm_bind_inv in H as (u2 & z1 & w1 & E & H).
  apply st_clr_inv in E as (-> & p' & s' & Hc2 & Hs' & ->). simpl in Hs'.
  assert (p' = p) as -> by congruence. assert (s' = s) as -> by congruence.
  apply cell_inv in Hc as [_ Hp]. pose proof (counted_unmark_readable z p s
    (set_status (FL_CLR (zs_status s) ZS_STAT_READABLE) s) Hz Hp Ho eq_refl) as Hz1.
  keep_rest H Hz1.
Qed.

Lemma keeps_refill fd : keeps (zs_refill os fd).
Proof.
  intros z w r z' w' Hz H. unfold zs_refill in H.
  apply zm_bind_inv in H as (s & z1 & w1 & E & H). apply deref_inv in E as (-> & -> & p & Hc & Hs).
  apply zm_bind_inv in H as (a & z1 & w1 & E & H).
  apply isset_read_inv in E as (-> & -> & p' & Hc' & ->). assert (p' = p) as -> by congruence.
  apply zm_bind_inv in H as (u1 & z1 & w1 & E & H). apply when_add_inv in E as (-> & ->).
  apply zm_bind_inv in H as (u2 & z1 & w1 & E & H).
  apply upd_inv in E as (-> & p' & s' & Hc2 & Hs' & ->). simpl in Hs'.
  assert (p' = p) as -> by congruence. assert (s' = s) as -> by congruence.
  apply zm_bind_inv in H as (u3 & z1 & w1 & E & H).
  apply st_clr_inv in E as (-> & p' & s' & Hc3 & Hs3 & ->). simpl in Hs3.
  assert (p' = p) as -> by congruence. apply cell_inv in Hc as [_ Hp].
  rewrite list_lookup_insert_eq in Hs3 by (by eapply lookup_lt_Some). injection Hs3 as <-.
  pose proof (counted_unmark_readable z p s
    (set_status (FL_CLR (zs_status s) ZS_STAT_READABLE)
       (set_rd (RW (rw_buffer (zs_rd s)) 0 0 (rw_errno (zs_rd s))) s)) Hz Hp Hs eq_refl) as Hz1.
  unfold set_sockets in H. simpl in H. rewrite list_insert_insert_eq in H.
  keep_rest H Hz1.
Qed.
#[local] Hint Resolve keeps_accept keeps_refill : keeps.

Lemma keeps_zs_read fd nbyte : keeps (zs_read os fd nbyte).
Proof. unfold zs_read. keep. Qed.

Lemma keeps_zs_write fd buf : keeps (zs_write fd buf : zm W zs_ret).
Proof.
  intros z w r z' w' Hz H. unfold zs_write in H.
  apply zm_bind_inv in H as (o & z1 & w1 & E & H).
  apply get_by_fd_inv in E as (-> & -> & p & Hc & Ho). destruct o as [s|]; [|by zrun].
  destruct (_ || _); [by zrun|]. destruct (negb _); [by zrun|].
  apply zm_bind_inv in H as (u0 & z1 & w1 & E & H). apply lift_inv in E as (_ & -> & ->).
  apply zm_bind_inv in H as (a & z1 & w1 & E & H).
  apply isset_write_inv in E as (-> & -> & p' & Hc' & ->). assert (p' = p) as -> by congruence.
  apply zm_bind_inv in H as (u1 & z1 & w1 & E & H). apply when_add_inv in E as (-> & ->).
  apply zm_bind_inv in H as (u2 & z1 & w1 & E & H).
  apply st_clr_inv in E as (-> & p' & s' & Hc2 & Hs' & ->). simpl in Hs'.
  assert (p' = p) as -> by congruence. assert (s' = s) as -> by congruence.
  apply cell_inv in Hc as [_ Hp]. pose proof (counted_unmark_writable z p s
    (set_status (FL_CLR (zs_status s) ZS_STAT_WRITABLE) s) Hz Hp Ho eq_refl) as Hz1.
  keep_rest H Hz1.
Qed.

Lemma keeps_if_live fd (m : zm W unit) : keeps m → keeps (if_live fd m).
Proof. intros H. unfold if_live. keep. Qed.

Lemma keeps_on_flag fd f (m : zm W unit) : other_flag f → keeps m → keeps (on_flag fd f m).
Proof. intros Hf H. unfold on_flag. keep. Qed.

Ltac keep2 := repeat first [progress keep | apply keeps_if_live | apply keeps_on_flag; [by split|]].

Lemma keeps_internal_write fd : keeps (zs_internal_write os fd).
Proof. unfold zs_internal_write. keep2. Qed.

Lemma keeps_internal_read fd : keeps (zs_internal_read os fd).
Proof. unfold zs_internal_read. keep2. Qed.

Lemma keeps_set_event_hdlr fd h : keeps (zs_set_event_hdlr fd h : zm W unit).
Proof. unfold zs_set_event_hdlr. keep. Qed.
#[local] Hint Resolve keeps_zs_read keeps_zs_write keeps_internal_write keeps_internal_read
  keeps_set_event_hdlr : keeps.

(** *** New sockets *)

(** No socket is known under a descriptor that the kernel has just handed out. *)
Definition fresh_fd (z : zs_state) (fd : Z) : Prop :=
  fd ≠ -1 → ∀ p, cell fd = Done p → zsockets z !! p = Some None.

Lemma type_init_counted fd type addr portno h ssl z w o z' w' :
  counted z → fresh_fd z fd → fd ≠ -1 →
  zs_type_init os fd type addr portno h ssl z w = Done (o, z', w') → counted z'.
Proof.
  intros Hz Hf Hn H. unfold zs_type_init in H. apply zm_bind_inv in H as (ok & z1 & w1 & E & H).
  injection E as <- <- <-. destruct type.
  - destruct (_ && _); [by zrun|].
    apply zm_bind_inv in H as (u & z1 & w1 & E & H). apply store_inv in E as (-> & p & Hc & ->).
    zrun. pose proof (cell_inv _ _ Hc) as [_ Hp]. by apply counted_fresh; [..|apply Hf].
  - apply zm_bind_inv in H as (u & z1 & w1 & E & H). apply store_inv in E as (-> & p & Hc & ->).
    zrun. pose proof (cell_inv _ _ Hc) as [_ Hp]. by apply counted_fresh; [..|apply Hf].
Qed.

Lemma internal_accept_counted fd z w u z' w' :
  counted z → fresh_fd z (fst (fst (fst (os_accept os fd w)))) →
  zs_internal_accept os fd z w = Done (u, z', w') → counted z'.
Proof.
  intros Hz Hf H. unfold zs_internal_accept in H.
  apply zm_bind_inv in H as (s & z1 & w1 & E & H). apply deref_inv in E as (-> & -> & p & Hc & Hs).
  apply zm_bind_inv in H as (u1 & z1 & w1 & E & H).
  assert (counted z1) as Hz1 by (by eapply keeps_st_set; [|exact Hz|exact E]).
  apply st_set_inv in E as (-> & p' & s' & Hc' & Hs' & ->). assert (p' = p) as -> by congruence.
  apply zm_bind_inv in H as ([[n a] e] & z2 & w2 & E & H). unfold os_call in E.
  destruct (os_accept os fd w) as [[[n' a'] e'] w3] eqn:Eo. injection E as <- <- <- <- <-. simpl in Hf.
  cbv zeta in H. destruct (Z.eqb_spec n' (-1)) as [->|Hne]; [keep_rest H Hz1|].
  apply zm_bind_inv in H as (o & z3 & w4 & E & H).
  assert (counted z3) as Hz3.
  { eapply type_init_counted; [exact Hz1| |exact Hne|exact E]. intros _ q Hq. specialize (Hf Hne q Hq).
    simpl. destruct (decide (q = p)) as [->|]; [congruence|]. by rewrite list_lookup_insert_ne. }
  keep_rest H Hz3.
Qed.

Lemma zsocket_counted addr portno type h ssl z w r z' w' :
  counted z →
  fresh_fd z (fst (match type with ZSOCK_LISTEN => os_listen os addr portno w
                                 | ZSOCK_CONNECT => os_connect os addr portno w end)) →
  zsocket os addr portno type h ssl z w = Done (r, z', w') → counted z'.
Proof.
  intros Hz Hf H. unfold zsocket in H.
  apply zm_bind_inv in H as (known & z1 & w1 & E & H).
  assert (z1 = z ∧ w1 = w) as [-> ->].
  { destruct type; [|by zrun]. unfold zs_get_by_info in E. by zrun. }
  destruct known as [i|].
  - assert (keeps (_ ← zs_upd (Z.of_nat i) n_open_inc; mret (Z.of_nat i) : zm W Z)) as Hk.
    { apply zkeeps_bind; [|intros; apply zkeeps_ret]. apply keeps_upd. intros s0.
      unfold n_open_inc. by destruct (zs_type s0). }
    exact (Hk _ _ _ _ _ Hz H).
  - apply zm_bind_inv in H as (fd & z2 & w2 & E2 & H).
    assert (z2 = z ∧ fd = fst (match type with ZSOCK_LISTEN => os_listen os addr portno w
                                 | ZSOCK_CONNECT => os_connect os addr portno w end)) as [-> Hfd].
    { unfold os_call in E2. destruct type; [destruct (os_listen os addr portno w)|
        destruct (os_connect os addr portno w)]; by injection E2 as <- <- <-. }
    rewrite <- Hfd in Hf. clear Hfd.
    destruct (Z.eqb_spec fd (-1)) as [->|Hne]; [by zrun|].
    apply zm_bind_inv in H as (o & z3 & w3 & E3 & H).
    apply type_init_counted in E3; [|done|done|done]. destruct o as [[]|]; [|by zrun].
    destruct type; [by zrun|]. keep_rest H E3.
Qed.

(** ** Reachable states *)

(** What happens to the sockets: calls of the API, and calls of the handlers that the
    module registered with the loop. *)
Inductive zs_op :=
| ZOpen (addr portno : Z) (type : zs_type_t) (hdlr : Z) (ssl : bool)
| ZSetRead (fd : Z)
| ZClrRead (fd : Z)
| ZSetWrite (fd : Z)
| ZClrWrite (fd : Z)
| ZSetHdlr (fd hdlr : Z)
| ZAccept (fd : Z)
| ZRead (fd : Z) (nbyte : nat)
| ZWrite (fd : Z) (buf : bytes)
| ZClose (fd : Z)
| ZLoop (hdlr fd : Z).

Definition zs_exec (o : zs_op) : zm W unit :=
  match o with
  | ZOpen addr portno type hdlr ssl => _ ← zsocket os addr portno type hdlr ssl; mret tt
  | ZSetRead fd => zs_set_read fd
  | ZClrRead fd => zs_clr_read fd
  | ZSetWrite fd => zs_set_write fd
  | ZClrWrite fd => zs_clr_write fd
  | ZSetHdlr fd hdlr => zs_set_event_hdlr fd hdlr
  | ZAccept fd => _ ← zs_accept fd; mret tt
  | ZRead fd nbyte => _ ← zs_read os fd nbyte; mret tt
  | ZWrite fd buf => _ ← zs_write fd buf; mret tt
  | ZClose fd => _ ← zs_close fd; mret tt
  | ZLoop hdlr fd => zs_loop_call os hdlr fd
  end.

Fixpoint zs_exec_all (ops : list zs_op) : zm W unit :=
  match ops with [] => mret tt | o :: ops => _ ← zs_exec o; zs_exec_all ops end.

(** The kernel hands out descriptors that are not in use. *)
Definition kernel_ok (o : zs_op) (z : zs_state) (w : W) : Prop :=
  match o with
  | ZOpen addr portno ZSOCK_LISTEN _ _ => fresh_fd z (fst (os_listen os addr portno w))
  | ZOpen addr portno ZSOCK_CONNECT _ _ => fresh_fd z (fst (os_connect os addr portno w))
  | ZLoop hdlr fd => fresh_fd z (fst (fst (fst (os_accept os fd w))))
  | _ => True
  end.

Inductive zs_reachable (loop : zfd_t) (w0 : W) : zs_state → W → Prop :=
| zs_reach_init : (∃ l, zfd_inv loop l) → zs_reachable loop w0 (zs_init loop) w0
| zs_reach_op z w o z' w' :
    zs_reachable loop w0 z w → kernel_ok o z w → zs_exec o z w = Done (tt, z', w') →
    zs_reachable loop w0 z' w'.

Lemma sum_zero n : sum_upto (λ _, 0) n = 0.
Proof. induction n; simpl; lia. Qed.

Lemma init_counted loop : (∃ l, zfd_inv loop l) → counted (zs_init loop).
Proof.
  intros Hl.
  split; unfold zs_init, zsockets, active_r, active_w, zs_n_selectable, zs_loop, zs_hash.
  - apply length_replicate.
  - apply length_replicate.
  - apply length_replicate.
  - intros p. by rewrite bit_zero.
  - rewrite <- (sum_zero FD_SETSIZE). apply sum_upto_ext.
    intros p _. unfold ready, active_r, active_w. by rewrite bit_zero.
  - done.
  - exists []. apply rep_init.
Qed.

Lemma exec_counted o z w z' w' :
  counted z → kernel_ok o z w → zs_exec o z w = Done (tt, z', w') → counted z'.
Proof.
  intros Hz Hk H. destruct o; simpl in H.
  - apply zm_bind_inv in H as (r & z1 & w1 & E & H). zrun. eapply zsocket_counted; [done| |exact E].
    by destruct type.
  - by eapply keeps_set_read.
  - by eapply keeps_clr_read.
  - by eapply keeps_set_write.
  - by eapply keeps_clr_write.
  - by eapply keeps_set_event_hdlr.
  - keep_rest H Hz.
  - keep_rest H Hz.
  - keep_rest H Hz.
  - keep_rest H Hz.
  - unfold zs_loop_call in H. destruct (hdlr =? _); [by eapply keeps_internal_read|].
    destruct (hdlr =? _); [by eapply keeps_internal_write|].
    by eapply internal_accept_counted.
Qed.

Lemma reachable_counted loop w0 z w : zs_reachable loop w0 z w → counted z.
Proof. induction 1; [by apply init_counted | by eapply exec_counted]. Qed.

(** A socket that has an event for its users. *)
Definition has_event (z : zs_state) (p : nat) : Prop :=
  ∃ s, zsockets z !! p = Some (Some s) ∧
    (bit (active_r z) p = true ∧ FL_HAS s ZS_STAT_READABLE = true ∨
     bit (active_w z) p = true ∧ FL_HAS s ZS_STAT_WRITABLE = true).

Lemma ready_event z p : ready z p ≠ 0 ↔ has_event z p.
Proof.
  unfold ready, has, has_event. split.
  - intros H. destruct (zsockets z !! p) as [[s|]|];
      [|by rewrite !andb_false_r in H|by rewrite !andb_false_r in H].
    exists s. split; [done|].
    destruct (bit (active_r z) p), (FL_HAS s ZS_STAT_READABLE), (bit (active_w z) p),
      (FL_HAS s ZS_STAT_WRITABLE); simpl in H; tauto.
  - intros (s & -> & [[-> ->]|[-> ->]]); simpl; unfold b2z; case_match; lia.
Qed.

End os.

(** ** Runs on a sample kernel *)

(** A kernel that is a list of answers to read(2): everything that is written is taken,
    and new sockets get the descriptors 5 to 7. *)
Definition sample_os : os_ops (list (Z * bytes * Z)) :=
  Os (λ _ _ _ w, match w with a :: w => (a, w) | [] => ((-1, [], EAGAIN), []) end)
     (λ _ _ buf w, ((Z.of_nat (length buf), 0), w))
     (λ _ w, ((1, 0), w)) (λ _ w, ((1, 0), w)) (λ _ w, ((7, 1, 0), w))
     (λ _ _ w, (5, w)) (λ _ _ w, (6, w)) (λ _, true).

Definition fresh_fdb (z : zs_state) (fd : Z) : bool :=
  (fd =? -1) ||
  match cell fd with
  | Done p => match zsockets z !! p with Some None => true | _ => false end
  | Fault _ => true
  end.

Definition kernel_okb {W} (os : os_ops W) (o : zs_op) (z : zs_state) (w : W) : bool :=
  match o with
  | ZOpen addr portno ZSOCK_LISTEN _ _ => fresh_fdb z (fst (os_listen os addr portno w))
  | ZOpen addr portno ZSOCK_CONNECT _ _ => fresh_fdb z (fst (os_connect os addr portno w))
  | ZLoop hdlr fd => fresh_fdb z (fst (fst (fst (os_accept os fd w))))
  | _ => true
  end.

(** A run in which the kernel keeps its promise at every step. *)
Fixpoint zs_run {W} (os : os_ops W) (ops : list zs_op) (z : zs_state) (w : W)
  : res (zs_state * W) :=
  match ops with
  | [] => Done (z, w)
  | o :: ops =>
      if kernel_okb os o z w then
        match zs_exec os o z w with
        | Done (_, z, w) => zs_run os ops z w
        | Fault f => Fault f
        end
      else Fault OutOfFuel
  end.

Lemma fresh_fdb_ok z fd : fresh_fdb z fd = true → fresh_fd z fd.
Proof.
  unfold fresh_fdb, fresh_fd. intros H Hne p Hp. rewrite Hp in H.
  destruct (Z.eqb_spec fd (-1)); [done|]. simpl in H.
  by destruct (zsockets z !! p) as [[|]|].
Qed.

Lemma kernel_okb_ok {W} (os : os_ops W) o z w : kernel_okb os o z w = true → kernel_ok os o z w.
Proof. destruct o as [? ? []| | | | | | | | | |]; simpl; intros H; try done; by apply fresh_fdb_ok. Qed.

Lemma zs_run_reachable {W} (os : os_ops W) loop w0 ops z w z' w' :
  zs_reachable os loop w0 z w → zs_run os ops z w = Done (z', w') → zs_reachable os loop w0 z' w'.
Proof.
  revert z w. induction ops as [|o ops IH]; intros z w Hr H; simpl in H; [by injection H as <- <-|].
  destruct (kernel_okb os o z w) eqn:Ek; [|done].
  destruct (zs_exec os o z w) as [[[[] z1] w1]|] eqn:E; [|done].
  eapply IH; [|exact H]. eapply zs_reach_op; [done | by apply kernel_okb_ok | exact E].
Qed.

(** A reachable state that is found by running it. *)
Lemma zs_sample ops w0 p (P : zs_state → list (Z * bytes * Z) → zsocket_t → bool) :
  (match zs_run sample_os ops (zs_init zfd_static) w0 with
   | Done (z, w) => match zsockets z !! p with Some (Some s) => P z w s | _ => false end
   | Fault _ => false
   end) = true →
  ∃ z w s, zs_run sample_os ops (zs_init zfd_static) w0 = Done (z, w) ∧
    zs_reachable sample_os zfd_static w0 z w ∧ zsockets z !! p = Some (Some s) ∧ P z w s = true.
Proof.
  intros H. destruct (zs_run _ _ _ _) as [[z w]|] eqn:E; [|done].
  destruct (zsockets z !! p) as [[s|]|] eqn:Es; try done. exists z, w, s. split_and!; try done.
  eapply zs_run_reachable; [|exact E]. apply zs_reach_init. exists []. apply zfd_static_inv.
Qed.

(** ** Properties *)

(** C16: in every reachable state the counter behind [zs_need_select] is the number of
    events that are pending for sockets somebody waits for: the main loop is told to go
    on without sleeping exactly when there is such a socket.  The kernel is assumed to
    hand out only descriptors that are not in use. *)
Theorem zs_need_select_events {W} (os : os_ops W) loop w0 z w :
  zs_reachable os loop w0 z w →
  ∃ b, zs_need_select z w = Done (b, z, w) ∧
       (b = true ↔ ∃ p, (p < FD_SETSIZE)%nat ∧ has_event z p) ∧
       zs_n_selectable z = sum_upto (ready z) FD_SETSIZE.
Proof.
  intros Hr. pose proof (reachable_counted _ _ _ _ _ Hr) as Hz.
  exists (negb (zs_n_selectable z =? 0)). split; [done|]. split; [|apply Hz].
  rewrite (ct_count _ Hz), negb_true_iff, Z.eqb_neq.
  pose proof (sum_upto_zero (ready z) FD_SETSIZE (ready_nonneg z)) as Hsum. split.
  - intros Hne. destruct (decide (Exists (λ p, ready z p ≠ 0) (seq 0 FD_SETSIZE))) as [He|He].
    + apply Exists_exists in He as (p & Hp & He). exists p. apply elem_of_seq in Hp.
      split; [lia|]. by apply ready_event.
    + destruct Hne. apply Hsum. intros p Hp. destruct (decide (ready z p = 0)) as [|Hx]; [done|].
      destruct He. apply Exists_exists. exists p. split; [apply elem_of_seq; lia | done].
  - intros (p & Hp & He) Hs. rewrite Hsum in Hs. apply ready_event in He. by specialize (Hs p Hp).
Qed.

Lemma zs_need_select_events_witness :
  ∃ z w, zs_run sample_os [ZOpen 1 80 ZSOCK_CONNECT 1 false; ZSetWrite 6] (zs_init zfd_static) []
         = Done (z, w) ∧ zs_need_select z w = Done (true, z, w).
Proof.
  destruct (zs_sample [ZOpen 1 80 ZSOCK_CONNECT 1 false; ZSetWrite 6] [] 6
    (λ z _ s, bit (active_w z) 6 && FL_HAS s ZS_STAT_WRITABLE)) as (z & w & s & E & Hr & Hs & H);
    [vm_compute; reflexivity|].
  exists z, w. split; [done|]. apply andb_prop in H as [Hb Hw].
  destruct (zs_need_select_events sample_os zfd_static [] z w Hr) as (b & E1 & [_ H2] & _).
  rewrite H2 in E1; [exact E1|]. exists 6%nat. split; [unfold FD_SETSIZE; lia|]. exists s. auto.
Defined.
