(* ===== verification/ZsocketIO.v ===== *)
(** zsocket.c, third part: the bytes.  What the kernel delivers is what [zs_read]
    returns, what [zs_write] is given is what the kernel is handed, in order and without
    a gap; and what [zs_close] leaves behind. *)

From Stdlib Require Import ZArith Lia String.
From S2P Require Export ZsocketInv.

Local Open Scope Z_scope.

(** ** Total correctness in the monad *)

Definition wp {W A} (m : zm W A) (z : zs_state) (w : W) (P : A → zs_state → W → Prop) : Prop :=
  ∃ a z' w', m z w = Done (a, z', w') ∧ P a z' w'.

Lemma wp_bind {W A B} (m : zm W A) (k : A → zm W B) z w P :
  wp m z w (λ a z1 w1, wp (k a) z1 w1 P) → wp (m ≫= k) z w P.
Proof.
  intros (a & z1 & w1 & E & b & z2 & w2 & E2 & HP). exists b, z2, w2. split; [|done].
  unfold mbind, zm_bind. by rewrite E.
Qed.

Lemma wp_ret {W A} (a : A) z (w : W) (P : A → zs_state → W → Prop) : P a z w → wp (mret a) z w P.
Proof. intros H. by exists a, z, w. Qed.

Lemma wp_mono {W A} (m : zm W A) z w (P Q : A → zs_state → W → Prop) :
  wp m z w P → (∀ a z' w', P a z' w' → Q a z' w') → wp m z w Q.
Proof. intros (a & z1 & w1 & E & HP) H. exists a, z1, w1. auto. Qed.

Lemma wp_lift {W A} (r : res A) a z (w : W) (P : A → zs_state → W → Prop) :
  r = Done a → P a z w → wp (lift r) z w P.
Proof. intros -> H. by exists a, z, w. Qed.

Lemma wp_os {W A} (f : W → A * W) z w (P : A → zs_state → W → Prop) :
  P (fst (f w)) z (snd (f w)) → wp (os_call f) z w P.
Proof.
  intros H. exists (fst (f w)), z, (snd (f w)). split; [|done]. unfold os_call. by destruct (f w).
Qed.

(** Descriptor [p] has the socket [s], in a state in which the sets and the loop are
    well-formed. *)
Record holds (p : nat) (s : zsocket_t) (z : zs_state) : Prop := {
  hd_socket : zsockets z !! p = Some (Some s);
  hd_read : length (active_r z) = FD_SETSIZE;
  hd_write : length (active_w z) = FD_SETSIZE;
  hd_loop : ∃ l, zfd_inv (zs_loop z) l;
  hd_hash : ∃ l, rep (zs_hash z) l
}.

Lemma counted_holds z p s : counted z → zsockets z !! p = Some (Some s) → holds p s z.
Proof. intros [] Hs. by split. Qed.

Lemma reachable_holds {W} (os : os_ops W) loop w0 z w p s :
  zs_reachable os loop w0 z w → zsockets z !! p = Some (Some s) → holds p s z.
Proof. intros Hr. by eapply counted_holds, reachable_counted. Qed.

Section rules.
Context {W : Type} (fd : Z) (p : nat) (Hc : cell fd = Done p).
Implicit Types (s : zsocket_t) (z : zs_state) (w : W).

Lemma wp_get z w s (P : option zsocket_t → zs_state → W → Prop) :
  holds p s z → P (Some s) z w → wp (zs_get_by_fd fd) z w P.
Proof.
  intros [Hs _ _ _ _] HP. exists (Some s), z, w. split; [|done]. unfold zs_get_by_fd.
  unfold mbind, zm_bind, getz, lift. by rewrite Hc; simpl; rewrite Hs.
Qed.

Lemma wp_deref z w s (P : zsocket_t → zs_state → W → Prop) :
  holds p s z → P s z w → wp (zs_deref fd) z w P.
Proof.
  intros Hs HP. unfold zs_deref. apply wp_bind. eapply wp_get; [done|]. by eapply wp_lift.
Qed.

Lemma wp_assert z w s (P : zsocket_t → zs_state → W → Prop) :
  holds p s z → P s z w → wp (zs_assert fd) z w P.
Proof.
  intros Hs HP. unfold zs_assert. apply wp_bind. eapply wp_get; [done|]. by apply wp_ret.
Qed.

Lemma holds_store z s s' :
  holds p s z → holds p s' (set_sockets (<[p := Some s']> (zsockets z)) z).
Proof.
  intros [H1 H2 H3 H4 H5]. split; try done. simpl. apply list_lookup_insert_eq. by eapply lookup_lt_Some.
Qed.

Lemma wp_upd z w s f (P : unit → zs_state → W → Prop) :
  holds p s z → (∀ z', holds p (f s) z' → active_r z' = active_r z → active_w z' = active_w z →
                       P tt z' w) →
  wp (zs_upd fd f) z w P.
Proof.
  intros Hs HP. unfold zs_upd. apply wp_bind. eapply wp_deref; [done|].
  unfold zs_store. exists tt, (set_sockets (<[p := Some (f s)]> (zsockets z)) z), w.
  split; [unfold mbind, zm_bind, getz, lift, putz; by rewrite Hc|].
  apply HP; [by eapply holds_store | done | done].
Qed.

Lemma wp_isset_read z w s (P : bool → zs_state → W → Prop) :
  holds p s z → P (bit (active_r z) p) z w → wp (zs_isset_read fd) z w P.
Proof.
  intros [_ Hr _ _ _] HP. exists (bit (active_r z) p), z, w. split; [|done]. unfold zs_isset_read.
  pose proof (cell_inv _ _ Hc) as [-> Hp]. unfold mbind, zm_bind, getz, lift, FD_ISSET.
  rewrite Hc. simpl. unfold bit. destruct (lookup_lt_is_Some_2 (active_r z) (Z.to_nat fd)) as [b Hb];
    [lia|]. by rewrite Hb.
Qed.

Lemma wp_isset_write z w s (P : bool → zs_state → W → Prop) :
  holds p s z → P (bit (active_w z) p) z w → wp (zs_isset_write fd) z w P.
Proof.
  intros [_ _ Hw _ _] HP. exists (bit (active_w z) p), z, w. split; [|done]. unfold zs_isset_write.
  pose proof (cell_inv _ _ Hc) as [-> Hp]. unfold mbind, zm_bind, getz, lift, FD_ISSET.
  rewrite Hc. simpl. unfold bit. destruct (lookup_lt_is_Some_2 (active_w z) (Z.to_nat fd)) as [b Hb];
    [lia|]. by rewrite Hb.
Qed.

Lemma wp_when_add z w s b d (P : unit → zs_state → W → Prop) :
  holds p s z → (∀ z', holds p s z' → active_r z' = active_r z → active_w z' = active_w z → P tt z' w) →
  wp (when b (n_selectable_add d)) z w P.
Proof.
  intros [H1 H2 H3 H4 H5] HP. destruct b.
  - eexists tt, _, w. split; [done|]. by apply HP.
  - eexists tt, _, w. split; [done|]. by apply HP.
Qed.

Lemma wp_count_readable z w s (P : unit → zs_state → W → Prop) :
  holds p s z → (∀ z', holds p s z' → active_r z' = active_r z → active_w z' = active_w z → P tt z' w) →
  wp (count_readable fd) z w P.
Proof.
  intros Hs HP. unfold count_readable. apply wp_bind. eapply wp_deref; [done|].
  apply wp_bind. eapply wp_isset_read; [done|]. eapply wp_when_add; done.
Qed.

Lemma wp_count_writable z w s (P : unit → zs_state → W → Prop) :
  holds p s z → (∀ z', holds p s z' → active_r z' = active_r z → active_w z' = active_w z → P tt z' w) →
  wp (count_writable fd) z w P.
Proof.
  intros Hs HP. unfold count_writable. apply wp_bind. eapply wp_deref; [done|].
  apply wp_bind. eapply wp_isset_write; [done|]. eapply wp_when_add; done.
Qed.

Lemma valid_of_cell : valid_fd fd.
Proof.
  unfold cell in Hc. destruct (_ && _) eqn:E; [|discriminate]. zbool. unfold valid_fd. lia.
Qed.

Lemma wp_loop z w s (m : bool) io h (P : unit → zs_state → W → Prop) :
  holds p s z → (∀ z', holds p s z' → active_r z' = active_r z → active_w z' = active_w z → P tt z' w) →
  wp (if m then zfd_set_m fd io h else zfd_clr_m fd io) z w P.
Proof.
  intros [H1 H2 H3 [l Hl] H5] HP. destruct m.
  - destruct (zfd_set_inv _ _ fd io h 0 Hl valid_of_cell) as (z' & E & Hi & _).
    exists tt, (set_loop z' z), w. split.
    + unfold zfd_set_m, mbind, zm_bind, getz, lift, putz. by rewrite E.
    + apply HP; try done. split; try done. by eexists.
  - destruct (zfd_clr_inv _ _ fd io Hl valid_of_cell) as (z' & E & Hi & _).
    exists tt, (set_loop z' z), w. split.
    + unfold zfd_clr_m, mbind, zm_bind, getz, lift, putz. by rewrite E.
    + apply HP; try done. split; try done. by eexists.
Qed.

Lemma wp_update z w s (P : unit → zs_state → W → Prop) :
  holds p s z → (∀ z', holds p s z' → active_r z' = active_r z → active_w z' = active_w z → P tt z' w) →
  wp (zs_update_fd_state fd) z w P.
Proof.
  intros Hs HP. unfold zs_update_fd_state. apply wp_bind. eapply wp_assert; [done|].
  apply wp_bind. eapply wp_isset_read; [done|]. apply wp_bind. eapply wp_isset_write; [done|].
  destruct (zs_type s).
  - by eapply wp_loop.
  - apply wp_bind. eapply wp_loop; [done|]. intros z1 Hs1 Er Ew.
    eapply wp_loop; [done|]. intros z2 Hs2 Er2 Ew2. apply HP; congruence || done.
Qed.
End rules.

Ltac wps Hc :=
  first [eapply (wp_upd _ _ Hc) | eapply (wp_count_readable _ _ Hc) | eapply (wp_count_writable _ _ Hc)
        |eapply (wp_update _ _ Hc) | eapply (wp_when_add _)]; [eassumption|];
  let z' := fresh "z" in let H := fresh "Hh" in intros z' H ? ?.

(** ** Reading *)

(** The bytes that were read from the kernel and are not fetched yet. *)
Definition rw_avail (r : zsock_rw_data_t) : bytes :=
  take (Z.to_nat (rw_used r)) (drop (Z.to_nat (rw_pos r)) (default [] (rw_buffer r))).

(** A read buffer with its bytes inside. *)
Record rd_ok (r : zsock_rw_data_t) : Prop := {
  ro_pos : 0 <= rw_pos r;
  ro_used : 0 <= rw_used r;
  ro_buffer : ∃ buf, rw_buffer r = Some buf ∧ rw_pos r + rw_used r <= Z.of_nat (length buf)
}.

(** What read(2) promises: as many bytes as it says, and no more than there is room. *)
Definition read_answer_ok (room : nat) (answer : Z * bytes * Z) : Prop :=
  let '(n, data, err) := answer in
  (0 < n → n = Z.of_nat (length data) ∧ (length data <= room)%nat) ∧ (n <= 0 → data = []).

(** The read buffer after the kernel's answer. *)
Definition rd_after (r : zsock_rw_data_t) (answer : Z * bytes * Z) : zsock_rw_data_t :=
  let '(n, data, err) := answer in
  if 0 <? n then
    RW (match rw_buffer r with
        | Some buf => Some (take (Z.to_nat (rw_used r)) buf ++ data ++
                            drop (Z.to_nat (rw_used r) + length data) buf)
        | None => None
        end) (rw_used r + n) (rw_pos r) (rw_errno r)
  else if (n =? -1) && negb (err =? EAGAIN) then RW (rw_buffer r) (-1) (rw_pos r) err
  else r.

Section os.
Context {W : Type} (os : os_ops W) (fd : Z) (p : nat) (Hc : cell fd = Done p).

Lemma rw_fill_Done r room n data err buf :
  rw_buffer r = Some buf → 0 <= rw_used r → room = (length buf - Z.to_nat (rw_used r))%nat →
  (Z.to_nat (rw_used r) <= length buf)%nat →
  read_answer_ok room (n, data, err) →
  rw_fill r data = Done (rw_buffer (if 0 <? n then rd_after r (n, data, err) else r)).
Proof.
  intros Hb Hu -> Hle [Hn Hz]. unfold rw_fill, rd_after. rewrite Hb. cbn [deref mbind res_bind].
  destruct (Z.ltb_spec 0 n) as [Hp|Hp].
  - destruct (Hn Hp) as [Hlen Hroom]. simpl. case_bool_decide as Hd.
    + subst data. simpl in Hlen. lia.
    + destruct (Z.leb_spec 0 (rw_used r)); [|lia].
      destruct (Z.leb_spec (rw_used r + Z.of_nat (length data)) (Z.of_nat (length buf))); [done|lia].
  - rewrite (Hz Hp). rewrite bool_decide_eq_true_2 by done. by rewrite Hb.
Qed.

Lemma set_rd_rd r r' s : set_rd r (set_rd r' s) = set_rd r s.
Proof. done. Qed.

Lemma mark_readable_wp z w s :
  holds p s z →
  wp (_ ← count_readable fd; _ ← st_set fd ZS_STAT_READABLE; st_clr fd ZS_STAT_READING : zm W unit) z w
    (λ _ z' w', w' = w ∧ ∃ st, holds p (set_status st s) z' ∧
                active_r z' = active_r z ∧ active_w z' = active_w z).
Proof.
  intros Hs. apply wp_bind. wps Hc. apply wp_bind. wps Hc. wps Hc.
  split; [done|]. eexists. split; [exact Hh1|]. split; congruence.
Qed.

Lemma rd_after_nothing r n data err :
  n <= 0 → (n =? -1) && negb (err =? EAGAIN) = false → rd_after r (n, data, err) = r.
Proof.
  intros Hn E. unfold rd_after. destruct (Z.ltb_spec 0 n); [lia|]. by rewrite E.
Qed.

Lemma rw_eta r : RW (rw_buffer r) (rw_used r) (rw_pos r) (rw_errno r) = r.
Proof. by destruct r. Qed.

Lemma reader_wp z w s buf :
  holds p s z → zs_ssl s = false → rw_buffer (zs_rd s) = Some buf → 0 <= rw_used (zs_rd s) →
  (Z.to_nat (rw_used (zs_rd s)) <= length buf)%nat →
  let room := (length buf - Z.to_nat (rw_used (zs_rd s)))%nat in
  let answer := fst (os_read os fd false room w) in
  read_answer_ok room answer →
  wp (zs_reader os fd) z w (λ _ z' w',
    w' = snd (os_read os fd false room w) ∧
    ∃ st, holds p (set_status st (set_rd (rd_after (zs_rd s) answer) s)) z' ∧
          active_r z' = active_r z ∧ active_w z' = active_w z).
Proof.
  intros Hs Hssl Hb Hu Hle room answer Hans. unfold zs_reader. apply wp_bind.
  eapply (wp_deref _ _ Hc); [done|]. rewrite Hssl, Hb. cbv zeta. simpl default. fold room.
  apply wp_bind, wp_os. fold answer. destruct answer as [[n data] err] eqn:Ea.
  apply wp_bind, wp_bind.
  eapply wp_lift; [by eapply rw_fill_Done|].
  destruct (Z.ltb_spec 0 n) as [Hpos|Hneg].
  - wps Hc. destruct (Z.eqb_spec n (-1)); [lia|]. cbn [andb when]. apply wp_bind, wp_ret.
    unfold zs_was_read. destruct (Z.ltb_spec 0 n); [|lia]. apply wp_bind. wps Hc.
    eapply wp_mono; [by eapply mark_readable_wp|]. intros _ z' w' (-> & st & Hst & Hr & Hw).
    split; [done|]. exists st. split; [|split; congruence].
    unfold rd_after in *. destruct (Z.ltb_spec 0 n); [|lia]. exact Hst.
  - wps Hc. rewrite rw_eta in Hh.
    assert (set_rd (zs_rd s) s = s) as Hid by (by destruct s). rewrite Hid in Hh.
    destruct (Z.eqb_spec n (-1)) as [->|Hne].
    + destruct (Z.eqb_spec err EAGAIN) as [->|Herr]; cbn [andb when].
      * wps Hc. split; [done|]. rewrite rd_after_nothing by done. rewrite Hid.
        eexists. split; [exact Hh0|]. split; congruence.
      * apply wp_bind. wps Hc. unfold zs_was_read. cbn [Z.ltb Z.compare Z.eqb Pos.eqb].
        apply wp_bind. wps Hc. eapply wp_mono; [by eapply mark_readable_wp|].
        intros _ z' w' (-> & st & Hst & Hr & Hw).
        split; [done|]. exists st. split; [|split; congruence].
        unfold rd_after. destruct (Z.eqb_spec err EAGAIN); [done|]. exact Hst.
    + cbn [andb when]. apply wp_bind, wp_ret. unfold zs_was_read.
      destruct (Z.ltb_spec 0 n); [lia|]. destruct (Z.eqb_spec n (-1)); [done|].
      apply wp_bind. wps Hc. eapply wp_mono; [by eapply mark_readable_wp|].
      intros _ z' w' (-> & st & Hst & Hr & Hw).
      split; [done|]. exists st. split; [|split; congruence].
      rewrite rd_after_nothing; [|done|]; [by rewrite Hid|].
      by destruct (Z.eqb_spec n (-1)).
Qed.

(** A read buffer that was emptied. *)
Definition rw_reset (r : zsock_rw_data_t) : zsock_rw_data_t := RW (rw_buffer r) 0 0 (rw_errno r).

Lemma refill_wp z w s buf :
  holds p s z → zs_ssl s = false → rw_buffer (zs_rd s) = Some buf →
  let answer := fst (os_read os fd false (length buf) w) in
  read_answer_ok (length buf) answer →
  wp (zs_refill os fd) z w (λ _ z' w',
    w' = snd (os_read os fd false (length buf) w) ∧
    ∃ st, holds p (set_status st (set_rd (rd_after (rw_reset (zs_rd s)) answer) s)) z').
Proof.
  intros Hs Hssl Hb answer Hans. unfold zs_refill. apply wp_bind. eapply (wp_deref _ _ Hc); [done|].
  apply wp_bind. eapply (wp_isset_read _ _ Hc); [done|]. apply wp_bind. wps Hc.
  apply wp_bind. wps Hc. apply wp_bind. wps Hc. apply wp_bind. eapply (wp_deref _ _ Hc); [done|].
  cbv zeta. apply wp_bind. eapply wp_mono.
  - eapply reader_wp; [exact Hh1 | exact Hssl | exact Hb | simpl; lia | simpl; lia |].
    simpl. rewrite Nat.sub_0_r. exact Hans.
  - intros _ z3 w3 (-> & st & Hst & Hr & Hw). simpl in Hst. rewrite Nat.sub_0_r in Hst |- *.
    fold answer in Hst. apply wp_bind.
    eapply wp_mono with (P := λ _ z' w', w' = snd (os_read os fd false (length buf) w) ∧
      ∃ st, holds p (set_status st (set_rd (rd_after (rw_reset (zs_rd s)) answer) s)) z').
    { destruct (FL_HAS _ ZS_STAT_WANT_READ_FROM_READ); wps Hc; (split; [done|]); eexists; exact Hh2. }
    intros _ z4 w4 (-> & st4 & Hst4). apply wp_bind.
    eapply wp_mono with (P := λ _ z' w', w' = snd (os_read os fd false (length buf) w) ∧
      ∃ st, holds p (set_status st (set_rd (rd_after (rw_reset (zs_rd s)) answer) s)) z').
    { destruct (FL_HAS _ ZS_STAT_WANT_WRITE_FROM_READ); wps Hc; (split; [done|]); eexists; exact Hh2. }
    intros _ z5 w5 (-> & st5 & Hst5). wps Hc. split; [done|]. by eexists.
Qed.

Lemma rw_avail_after r answer buf :
  rw_buffer r = Some buf → read_answer_ok (length buf) answer →
  rw_avail (rd_after (rw_reset r) answer) = snd (fst answer).
Proof.
  intros Hb Hans. destruct answer as [[n data] err]. destruct Hans as [Hn Hz]. unfold rd_after.
  destruct (Z.ltb_spec 0 n) as [Hp|Hp].
  - destruct (Hn Hp) as [-> Hle]. unfold rw_avail, rw_reset. simpl. rewrite Hb. simpl.
    rewrite Z.add_0_l, Nat2Z.id, drop_0. apply take_app_length.
  - rewrite (Hz Hp). unfold rw_avail, rw_reset. destruct (_ && _); done.
Qed.

Lemma rw_avail_length r : rd_ok r → length (rw_avail r) = Z.to_nat (rw_used r).
Proof.
  intros [H1 H2 (buf & Hb & H3)]. unfold rw_avail. rewrite Hb. simpl. rewrite length_take, length_drop. lia.
Qed.

(** The part of the buffer that [zs_read] copies, and what stays. *)
Lemma rw_avail_split r buf k :
  rw_buffer r = Some buf → 0 <= rw_pos r → 0 <= Z.of_nat k <= rw_used r →
  rw_avail r = take k (drop (Z.to_nat (rw_pos r)) buf) ++
    rw_avail (RW (Some buf) (rw_used r - Z.of_nat k) (rw_pos r + Z.of_nat k) (rw_errno r)).
Proof.
  intros Hb Hpos Hk. unfold rw_avail. rewrite Hb. simpl.
  replace (Z.to_nat (rw_pos r + Z.of_nat k)) with (Z.to_nat (rw_pos r) + k)%nat by lia.
  rewrite <- drop_drop. replace (Z.to_nat (rw_used r)) with (k + Z.to_nat (rw_used r - Z.of_nat k))%nat by lia.
  apply take_add_app.
Qed.
End os.

(** C17: on a plain socket with bytes in its buffer, [zs_read] returns the next bytes that
    the kernel delivered, as many as asked for or as are there: what it returns and what
    is in the buffer afterwards is what was in the buffer before and what the kernel
    delivered meanwhile, in that order.  The kernel is asked only when the buffer was
    emptied, and is assumed to deliver as many bytes as it says. *)
Theorem zs_read_stream {W} (os : os_ops W) loop w0 fd p z w s buf nbyte :
  zs_reachable os loop w0 z w → cell fd = Done p → zsockets z !! p = Some (Some s) → zs_type s = ZSOCK_CONNECT →
  FL_HAS s ZS_STAT_CLOSED = false → FL_HAS s ZS_STAT_READABLE = true → zs_ssl s = false →
  rw_buffer (zs_rd s) = Some buf → rd_ok (zs_rd s) → rw_errno (zs_rd s) = 0 → 0 < rw_used (zs_rd s) →
  read_answer_ok (length buf) (fst (os_read os fd false (length buf) w)) →
  ∃ z' w' s' out new,
    zs_read os fd nbyte z w = Done ((ZRet (Z.of_nat (length out)), out), z', w') ∧ holds p s' z' ∧
    out = take nbyte (rw_avail (zs_rd s)) ∧
    out ++ rw_avail (zs_rd s') = rw_avail (zs_rd s) ++ new ∧
    (w' = w ∧ new = [] ∨
     (length (rw_avail (zs_rd s)) <= nbyte)%nat ∧
     new = snd (fst (fst (os_read os fd false (length buf) w))) ∧
     w' = snd (os_read os fd false (length buf) w)).
Proof.
  intros Hr Hc Hp Ht Hcl Hrd Hssl Hb Hok He Hu Hans. pose proof (reachable_holds _ _ _ _ _ _ _ Hr Hp) as Hs.
  set (k := (nbyte `min` Z.to_nat (rw_used (zs_rd s)))%nat).
  set (data := take k (drop (Z.to_nat (rw_pos (zs_rd s))) buf)).
  pose proof (ro_buffer _ Hok) as (buf' & Hb' & Hfit). rewrite Hb in Hb'. injection Hb' as <-.
  pose proof (ro_pos _ Hok) as Hpos.
  assert (length data = k) as Hk by (unfold data; rewrite length_take, length_drop; lia).
  assert (take nbyte (rw_avail (zs_rd s)) = data) as Hout.
  { unfold rw_avail. rewrite Hb. simpl. rewrite take_take. done. }
  pose proof (rw_avail_split (zs_rd s) buf k Hb Hpos ltac:(lia)) as Hsplit. fold data in Hsplit.
  enough (wp (zs_read os fd nbyte) z w (λ a z' w', a = (ZRet (Z.of_nat (length data)), data) ∧
    ∃ s' new, holds p s' z' ∧ data ++ rw_avail (zs_rd s') = rw_avail (zs_rd s) ++ new ∧
    (w' = w ∧ new = [] ∨
     (length (rw_avail (zs_rd s)) <= nbyte)%nat ∧
     new = snd (fst (fst (os_read os fd false (length buf) w))) ∧
     w' = snd (os_read os fd false (length buf) w)))) as (a & z' & w' & E & -> & s' & new & H).
  { exists z', w', s', data, new. destruct H as (H1 & H2 & H3). by rewrite Hout. }
  unfold zs_read. apply wp_bind. eapply (wp_get _ _ Hc); [done|].
  rewrite Ht, bool_decide_eq_false_2 by (by intros []). rewrite Hcl, Hrd, He. cbn [orb negb Z.eqb].
  destruct (Z.eqb_spec (rw_used (zs_rd s)) 0); [lia|]. rewrite Hb.
  replace (if rw_used (zs_rd s) <? Z.of_nat nbyte then rw_used (zs_rd s) else Z.of_nat nbyte)
    with (Z.of_nat k) by (destruct (Z.ltb_spec (rw_used (zs_rd s)) (Z.of_nat nbyte)); lia).
  apply wp_bind. eapply wp_lift; [done|]. apply wp_bind. eapply wp_lift.
  { destruct (Z.leb_spec 0 (Z.of_nat k)), (Z.leb_spec (rw_pos (zs_rd s) + Z.of_nat k) (Z.of_nat (length buf)));
      done || lia. }
  rewrite Nat2Z.id. fold data. apply wp_bind. wps Hc. set (s1 := set_rd _ s) in *.
  apply wp_bind. eapply (wp_deref _ _ Hc); [done|]. apply wp_bind.
  destruct (_ && _) eqn:Erefill; cbn [when].
  - apply andb_prop in Erefill as [Ez _]. simpl in Ez. apply Z.eqb_eq in Ez.
    eapply wp_mono; [eapply (refill_wp os fd p Hc z0 w s1 buf); done|].
    intros _ z2 w2 (-> & st & Hst). apply wp_ret. split; [by rewrite Hk|].
    eexists _, _. split; [exact Hst|]. split; [|right; split; [|split; reflexivity]].
    + change (zs_rd (set_status st (set_rd (rd_after (rw_reset (zs_rd s1)) _) s1)))
        with (rd_after (rw_reset (zs_rd s1)) (fst (os_read os fd false (length buf) w))).
      rewrite (rw_avail_after (zs_rd s1) _ buf) by done. f_equal. rewrite Hsplit. simpl.
      unfold rw_avail. simpl. rewrite Ez. simpl. by rewrite app_nil_r.
    + rewrite rw_avail_length by done. lia.
  - apply wp_ret, wp_ret. split; [by rewrite Hk|]. exists s1, []. split; [done|]. split; [|by left].
    rewrite app_nil_r, Hsplit. done.
Qed.

(** ** Writing *)

(** A buffer that is being written. *)
Record wr_ok (r : zsock_rw_data_t) : Prop := {
  wo_pos : 0 <= rw_pos r <= rw_used r;
  wo_buffer : ∃ buf, rw_buffer r = Some buf ∧ rw_used r = Z.of_nat (length buf)
}.

Lemma rw_pending_length r : wr_ok r → Z.of_nat (length (rw_pending r)) = rw_used r - rw_pos r.
Proof.
  intros [H1 (buf & Hb & H2)]. unfold rw_pending. rewrite Hb. simpl. rewrite length_take, length_drop. lia.
Qed.

Lemma rw_pending_split r n buf :
  rw_buffer r = Some buf → 0 <= rw_pos r → 0 <= n <= rw_used r - rw_pos r →
  take (Z.to_nat n) (rw_pending r) ++ rw_pending (RW (Some buf) (rw_used r) (rw_pos r + n) (rw_errno r))
  = rw_pending r.
Proof.
  intros Hb Hpos Hn. unfold rw_pending. rewrite Hb. simpl.
  replace (Z.to_nat (rw_pos r + n)) with (Z.to_nat (rw_pos r) + Z.to_nat n)%nat by lia.
  rewrite <- drop_drop, take_take, Nat.min_l by lia.
  replace (Z.to_nat (rw_used r - (rw_pos r + n)))
    with (Z.to_nat (rw_used r - rw_pos r) - Z.to_nat n)%nat by lia.
  rewrite <- take_add_app. f_equal. lia.
Qed.

Section write.
Context {W : Type} (os : os_ops W) (fd : Z) (p : nat) (Hc : cell fd = Done p).

(** The end of a write: the buffer is gone and the socket is writable. *)
Definition write_ended (s : zsocket_t) : Prop :=
  rw_buffer (zs_wr s) = None ∧ FL_HAS s ZS_STAT_WRITABLE = true ∧ FL_HAS s ZS_STAT_WRITING = false.

Definition same_kind (s s' : zsocket_t) : Prop :=
  zs_type s' = zs_type s ∧ zs_ssl s' = zs_ssl s ∧
  FL_HAS s' ZS_STAT_CLOSED = FL_HAS s ZS_STAT_CLOSED ∧
  FL_HAS s' ZS_STAT_WANT_WRITE_FROM_READ = FL_HAS s ZS_STAT_WANT_WRITE_FROM_READ.

Lemma has_set_same s f : FL_HAS (set_status (FL_SET (zs_status s) f) s) f = true.
Proof. apply FL_ISSET_SET. Qed.
Lemma has_set_other s f g : Z.land f g = 0 →
  FL_HAS (set_status (FL_SET (zs_status s) f) s) g = FL_HAS s g.
Proof. apply FL_ISSET_SET_disjoint. Qed.
Lemma has_clr_same s f : f ≠ 0 → FL_HAS (set_status (FL_CLR (zs_status s) f) s) f = false.
Proof. apply FL_ISSET_CLR. Qed.
Lemma has_clr_other s f g : Z.land f g = 0 →
  FL_HAS (set_status (FL_CLR (zs_status s) f) s) g = FL_HAS s g.
Proof. apply FL_ISSET_CLR_disjoint. Qed.

Lemma written_wp z w s n :
  holds p s z → FL_HAS s ZS_STAT_CLOSED = false → wr_ok (zs_wr s) →
  n <= rw_used (zs_wr s) - rw_pos (zs_wr s) →
  wp (zs_written fd n : zm W unit) z w (λ _ z' w', w' = w ∧ ∃ s', holds p s' z' ∧ same_kind s s' ∧
    if (0 <? n) && negb (n =? rw_used (zs_wr s) - rw_pos (zs_wr s))
    then FL_HAS s' ZS_STAT_WANT_WRITE_FROM_WRITE = true ∧
         take (Z.to_nat n) (rw_pending (zs_wr s)) ++ rw_pending (zs_wr s') = rw_pending (zs_wr s)
    else write_ended s' ∧ rw_errno (zs_wr s') = rw_errno (zs_wr s)).
Proof.
  intros Hs Hcl Hok Hn. pose proof (wo_buffer _ Hok) as (buf & Hb & Hlen).
  pose proof (wo_pos _ Hok) as Hpos. unfold zs_written.
  apply wp_bind. eapply (wp_deref _ _ Hc); [done|]. cbv zeta.
  assert (∀ z1 s1, holds p s1 z1 → same_kind s s1 → rw_errno (zs_wr s1) = rw_errno (zs_wr s) →
    wp (_ ← zs_upd fd (fun s => set_wr (RW None (rw_used (zs_wr s)) (rw_pos (zs_wr s)) (rw_errno (zs_wr s))) s);
        _ ← count_writable fd; _ ← st_set fd ZS_STAT_WRITABLE; _ ← st_clr fd ZS_STAT_WRITING;
        zs ← zs_deref fd; when (FL_HAS zs ZS_STAT_CLOSED) (_ ← zs_close fd; mret tt) : zm W unit) z1 w
      (λ _ z' w', w' = w ∧ ∃ s', holds p s' z' ∧ same_kind s s' ∧ write_ended s' ∧
                  rw_errno (zs_wr s') = rw_errno (zs_wr s))) as Hfin.
  { intros z1 s1 Hs1 (K1 & K2 & K3 & K4) He.
    apply wp_bind. wps Hc. set (s2 := set_wr _ s1) in *. apply wp_bind. wps Hc.
    apply wp_bind. wps Hc. set (s3 := set_status _ s2) in *. apply wp_bind. wps Hc.
    set (s4 := set_status _ s3) in *. apply wp_bind. eapply (wp_deref _ _ Hc); [done|].
    assert (same_kind s s4) as Hk.
    { unfold same_kind, s4, s3. rewrite !has_clr_other, !has_set_other by done. done. }
    assert (FL_HAS s4 ZS_STAT_CLOSED = false) as -> by (destruct Hk as (_ & _ & -> & _); done).
    apply wp_ret. split; [done|]. exists s4. split; [done|]. split; [done|]. split; [|done].
    split; [done|]. unfold s4, s3. rewrite has_clr_same, has_clr_other, has_set_same by done. done. }
  destruct (Z.ltb_spec 0 n) as [Hp|Hp]; cbn [andb].
  - apply wp_bind. wps Hc. set (s1 := set_wr _ s) in *.
    destruct (Z.eqb_spec (rw_used (zs_wr s) - (rw_pos (zs_wr s) + n)) 0) as [E|E];
      destruct (Z.eqb_spec n (rw_used (zs_wr s) - rw_pos (zs_wr s))) as [E'|E']; try lia; cbn [negb].
    + by eapply Hfin.
    + wps Hc. set (s2 := set_status _ s1) in *. split; [done|]. exists s2. split; [done|].
      split; [unfold same_kind, s2; rewrite !has_set_other by done; done|].
      split; [apply has_set_same|]. simpl. rewrite Hb. apply rw_pending_split; [done|lia|lia].
  - by eapply Hfin.
Qed.
End write.

(** C24: a plain socket with bytes to write hands the kernel exactly the bytes that it has
    not taken yet.  When the kernel takes some of them, the rest stays and the socket
    keeps waiting for room; when it takes all or fails, the buffer goes and the socket is
    writable again, with the error kept; when it has no room, nothing is lost. *)
Theorem zs_writer_stream {W} (os : os_ops W) loop w0 fd p z w s n err w' :
  zs_reachable os loop w0 z w → cell fd = Done p → zsockets z !! p = Some (Some s) → zs_ssl s = false → FL_HAS s ZS_STAT_CLOSED = false →
  wr_ok (zs_wr s) → os_write os fd false (rw_pending (zs_wr s)) w = ((n, err), w') →
  n <= Z.of_nat (length (rw_pending (zs_wr s))) →
  ∃ z' s', zs_writer os fd z w = Done (tt, z', w') ∧ holds p s' z' ∧
    if ((n =? -1) && (err =? EAGAIN)) ||
       ((0 <? n) && negb (n =? Z.of_nat (length (rw_pending (zs_wr s)))))
    then FL_HAS s' ZS_STAT_WANT_WRITE_FROM_WRITE = true ∧
         take (Z.to_nat n) (rw_pending (zs_wr s)) ++ rw_pending (zs_wr s') = rw_pending (zs_wr s)
    else write_ended s' ∧ rw_errno (zs_wr s') = (if n =? -1 then err else rw_errno (zs_wr s)).
Proof.
  intros Hr Hc Hp Hssl Hcl Hok Ho Hn. pose proof (reachable_holds _ _ _ _ _ _ _ Hr Hp) as Hs.
  rewrite rw_pending_length in * by done.
  enough (wp (zs_writer os fd) z w (λ _ z' w1, w1 = w' ∧ ∃ s', holds p s' z' ∧
    if ((n =? -1) && (err =? EAGAIN)) || ((0 <? n) && negb (n =? rw_used (zs_wr s) - rw_pos (zs_wr s)))
    then FL_HAS s' ZS_STAT_WANT_WRITE_FROM_WRITE = true ∧
         take (Z.to_nat n) (rw_pending (zs_wr s)) ++ rw_pending (zs_wr s') = rw_pending (zs_wr s)
    else write_ended s' ∧ rw_errno (zs_wr s') = (if n =? -1 then err else rw_errno (zs_wr s))))
    as ([] & z' & w1 & E & -> & s' & H) by eauto.
  unfold zs_writer. apply wp_bind. eapply (wp_deref _ _ Hc); [done|]. rewrite Hssl. cbv zeta.
  apply wp_bind, wp_os. rewrite Ho. cbn [fst snd].
  destruct ((n =? -1) && (err =? EAGAIN)) eqn:Ea; cbn [orb].
  - wps Hc. split; [done|]. eexists. split; [exact Hh|]. split; [apply has_set_same|].
    apply andb_prop in Ea as [Ea _]. apply Z.eqb_eq in Ea as ->. done.
  - destruct (Z.eqb_spec n (-1)) as [->|Hne]; cbn [when].
    + apply wp_bind. wps Hc. eapply wp_mono; [eapply (written_wp fd p Hc); [exact Hh|done| |simpl; lia]|].
      { destruct Hok as [H1 H2]. by split. }
      intros _ z1 w1 (-> & s1 & Hs1 & _ & H1). split; [done|]. exists s1. split; [done|]. exact H1.
    + apply wp_bind, wp_ret. eapply wp_mono; [by eapply (written_wp fd p Hc)|].
      intros _ z1 w1 (-> & s1 & Hs1 & _ & H1). split; [done|]. exists s1. split; [done|]. exact H1.
Qed.

(** ** The interest in the loop, and closing *)

(** The loop watches descriptor [p]. *)
Definition watched (z : zs_state) (io : io_type_t) (p : nat) : bool :=
  bit (get_fd_set (zs_loop z) io) p.

Lemma prepare_bit l0 l io p :
  zfd_inv l0 l → bit (get_fd_set (zfd_prepare l0) io) p = bit (get_fd_set l0 io) p.
Proof.
  intros Hi. unfold zfd_prepare. destruct (first_set l0) eqn:E; [|done].
  pose proof (zi_first _ _ Hi E) as ->. pose proof (zi_mem _ _ Hi p) as Hm.
  assert (bit (active_read_fd_set l0) p || bit (active_write_fd_set l0) p = false) as Hb.
  { destruct (_ || _); [|done]. exfalso. apply (not_elem_of_nil p). by apply Hm. }
  apply orb_false_iff in Hb as [Hr Hw]. destruct io; simpl; rewrite bit_zero; done.
Qed.

Section interest.
Context {W : Type} (fd : Z) (p : nat) (Hc : cell fd = Done p).

Lemma wp_loop_watched z (w : W) s (m : bool) io h :
  holds p s z →
  wp (if m then zfd_set_m fd io h else zfd_clr_m fd io) z w (λ _ z' w', w' = w ∧ holds p s z' ∧
    active_r z' = active_r z ∧ active_w z' = active_w z ∧ zs_hash z' = zs_hash z ∧
    watched z' io p = m ∧ ∀ io', io' ≠ io → watched z' io' p = watched z io' p).
Proof.
  intros [H1 H2 H3 [l Hl] H5]. pose proof (valid_of_cell _ _ Hc) as Hv.
  pose proof (cell_inv _ _ Hc) as [-> Hp].
  assert (∀ lo k io, zfd_inv lo k → length (get_fd_set lo io) = FD_SETSIZE) as Hlen
    by (intros lo k [] Hi; [apply (zi_read _ _ Hi) | apply (zi_write _ _ Hi)]).
  destruct m.
  - destruct (zfd_prepare_inv _ _ Hl) as [Hprep _].
    destruct (zfd_set_inv _ _ fd io h 0 Hl Hv) as (l' & E & Hi & _ & Hs & Ho & _).
    exists tt, (set_loop l' z), w. split; [unfold zfd_set_m, mbind, zm_bind, getz, lift, putz; by rewrite E|].
    split_and!; try done; [split; try done; by eexists| |].
    + unfold watched. simpl. rewrite Hs, bit_insert by (rewrite (Hlen _ _ io Hprep); lia).
      by rewrite decide_True.
    + intros io' Hne. unfold watched. simpl. rewrite Ho by done. by eapply prepare_bit.
  - destruct (zfd_clr_inv _ _ fd io Hl Hv) as (l' & E & Hi & Hs & Ho & _).
    exists tt, (set_loop l' z), w. split; [unfold zfd_clr_m, mbind, zm_bind, getz, lift, putz; by rewrite E|].
    split_and!; try done; [split; try done; by eexists| |].
    + unfold watched. simpl. rewrite Hs, bit_insert by (rewrite (Hlen _ _ io Hl); lia).
      by rewrite decide_True.
    + intros io' Hne. unfold watched. simpl. by rewrite Ho.
Qed.

(** When a connected socket needs the loop. *)
Definition needs_write (s : zsocket_t) (active : bool) : bool :=
  (active && negb (FL_SOME s (Z.lor ZS_STAT_WRITING ZS_STAT_WRITABLE))) || FL_SOME s want_write.
Definition needs_read (s : zsocket_t) (active : bool) : bool :=
  (active && negb (FL_SOME s (Z.lor ZS_STAT_READING ZS_STAT_READABLE))) || FL_SOME s want_read.

Lemma update_watched z (w : W) s :
  holds p s z → zs_type s = ZSOCK_CONNECT →
  wp (zs_update_fd_state fd) z w (λ _ z' w', w' = w ∧ holds p s z' ∧
    active_r z' = active_r z ∧ active_w z' = active_w z ∧
    watched z' ZFD_W p = needs_write s (bit (active_w z) p) ∧
    watched z' ZFD_R p = needs_read s (bit (active_r z) p)).
Proof.
  intros Hs Ht. unfold zs_update_fd_state. apply wp_bind. eapply (wp_assert _ _ Hc); [done|].
  apply wp_bind. eapply (wp_isset_read _ _ Hc); [done|].
  apply wp_bind. eapply (wp_isset_write _ _ Hc); [done|]. rewrite Ht. apply wp_bind.
  eapply wp_mono; [by apply wp_loop_watched|].
  intros _ z1 w1 (-> & Hs1 & Hr1 & Hw1 & _ & Hwt & _). cbv beta.
  eapply wp_mono; [by apply wp_loop_watched|].
  intros _ z2 w2 (-> & Hs2 & Hr2 & Hw2 & _ & Hrd & Ho). split_and!; try congruence; try done.
  by rewrite Ho.
Qed.

Lemma wp_drop z (w : W) s (P : unit → zs_state → W → Prop) :
  holds p s z → (∀ z', holds p s z' → active_r z' = active_r z → active_w z' = active_w z → P tt z' w) →
  wp (zs_drop_inactive fd) z w P.
Proof.
  intros Hs HP. pose proof Hs as [H1 H2 H3 H4 [l Hl]]. pose proof (valid_of_cell _ _ Hc) as Hv.
  unfold zs_drop_inactive. apply wp_bind. exists z, z, w. split; [done|].
  apply wp_bind. eapply wp_lift; [by apply FD_ISSET_bit|].
  apply wp_bind. eapply wp_lift; [by apply FD_ISSET_bit|].
  unfold when. case_match; [|apply wp_ret; by apply HP]. apply wp_bind.
  destruct (fd_hash_remove_rep _ _ fd Hl Hv) as (h & E & Hh).
  eapply wp_lift; [done|]. eexists tt, _, w. split; [done|]. apply HP; try done.
  split; try done. by eexists.
Qed.

Lemma clr_read_watched z (w : W) s :
  holds p s z → zs_type s = ZSOCK_CONNECT →
  wp (zs_clr_read fd) z w (λ _ z' w', w' = w ∧ holds p s z' ∧
    bit (active_r z') p = false ∧ active_w z' = active_w z ∧
    watched z' ZFD_W p = needs_write s (bit (active_w z) p) ∧
    watched z' ZFD_R p = needs_read s false).
Proof.
  intros Hs Ht. pose proof (valid_of_cell _ _ Hc) as Hv. pose proof (cell_inv _ _ Hc) as [Hpe Hp].
  unfold zs_clr_read. apply wp_bind. eapply (wp_assert _ _ Hc); [done|].
  apply wp_bind. eapply (wp_isset_read _ _ Hc); [done|]. apply wp_bind. wps Hc.
  apply wp_bind. exists z0, z0, w. split; [done|].
  apply wp_bind. eapply wp_lift; [by apply FD_CLR_Done|].
  apply wp_bind. eexists tt, _, w. split; [done|]. rewrite <- Hpe.
  apply wp_bind. eapply (wp_drop _ w s).
  { destruct Hh as [H1 H2 H3 H4 H5]. split; try done. simpl. by rewrite length_insert. }
  intros z1 Hs1 Hr1 Hw1. simpl in Hr1, Hw1.
  assert (bit (active_r z1) p = false) as Hb.
  { rewrite Hr1, bit_insert by (rewrite (hd_read _ _ _ Hh); lia). by rewrite decide_True. }
  unfold zs_update_if_live. apply wp_bind. eapply (wp_get _ _ Hc); [done|].
  eapply wp_mono; [by eapply update_watched|]. intros _ z2 w2 (-> & Hs2 & Hr2 & Hw2 & Hwt & Hrd).
  rewrite Hb in Hrd. rewrite Hw1, H0 in Hwt. split_and!; try done; congruence.
Qed.

Lemma clr_write_watched z (w : W) s :
  holds p s z → zs_type s = ZSOCK_CONNECT →
  wp (zs_clr_write fd) z w (λ _ z' w', w' = w ∧ holds p s z' ∧
    bit (active_w z') p = false ∧ active_r z' = active_r z ∧
    watched z' ZFD_W p = needs_write s false ∧
    watched z' ZFD_R p = needs_read s (bit (active_r z) p)).
Proof.
  intros Hs Ht. pose proof (valid_of_cell _ _ Hc) as Hv. pose proof (cell_inv _ _ Hc) as [Hpe Hp].
  unfold zs_clr_write. apply wp_bind. eapply (wp_assert _ _ Hc); [done|].
  apply wp_bind. eapply (wp_isset_write _ _ Hc); [done|]. apply wp_bind. wps Hc.
  apply wp_bind. exists z0, z0, w. split; [done|].
  apply wp_bind. eapply wp_lift; [by apply FD_CLR_Done|].
  apply wp_bind. eexists tt, _, w. split; [done|]. rewrite <- Hpe.
  apply wp_bind. eapply (wp_drop _ w s).
  { destruct Hh as [H1 H2 H3 H4 H5]. split; try done. simpl. by rewrite length_insert. }
  intros z1 Hs1 Hr1 Hw1. simpl in Hr1, Hw1.
  assert (bit (active_w z1) p = false) as Hb.
  { rewrite Hw1, bit_insert by (rewrite (hd_write _ _ _ Hh); lia). by rewrite decide_True. }
  unfold zs_update_if_live. apply wp_bind. eapply (wp_get _ _ Hc); [done|].
  eapply wp_mono; [by eapply update_watched|]. intros _ z2 w2 (-> & Hs2 & Hr2 & Hw2 & Hwt & Hrd).
  rewrite Hb in Hwt. rewrite Hr1, H in Hrd. split_and!; try done; congruence.
Qed.
End interest.

Lemma watched_isset z io fd p :
  cell fd = Done p → (∃ l, zfd_inv (zs_loop z) l) → zfd_isset (zs_loop z) fd io = Done (watched z io p).
Proof.
  intros Hc [l Hl]. unfold zfd_isset, watched. pose proof (cell_inv _ _ Hc) as [-> _].
  apply FD_ISSET_bit; [by eapply valid_of_cell|]. destruct io; [apply (zi_read _ _ Hl) | apply (zi_write _ _ Hl)].
Qed.

(** After [zs_update_fd_state] the loop watches a connected socket for writing exactly
    when a user waits for a socket that is neither writing nor writable, or an operation
    waits for room, and for reading in the same way. *)
Theorem zs_update_fd_state_spec {W} (os : os_ops W) loop w0 fd p z w s :
  zs_reachable os loop w0 z w → cell fd = Done p → zsockets z !! p = Some (Some s) → zs_type s = ZSOCK_CONNECT →
  ∃ z', zs_update_fd_state fd z w = Done (tt, z', w) ∧ holds p s z' ∧
    zfd_isset (zs_loop z') fd ZFD_W = Done (needs_write s (bit (active_w z) p)) ∧
    zfd_isset (zs_loop z') fd ZFD_R = Done (needs_read s (bit (active_r z) p)).
Proof.
  intros Hre Hc Hp Ht. pose proof (reachable_holds _ _ _ _ _ _ _ Hre Hp) as Hs.
  destruct (update_watched fd p Hc z w s Hs Ht) as ([] & z' & w' & E & -> & Hs' & _ & _ & Hw & Hr).
  exists z'. split; [done|]. split; [done|]. rewrite !(watched_isset _ _ fd p) by (done || apply Hs').
  by rewrite Hw, Hr.
Qed.

(** [zs_close] on a connected socket with nothing left to write removes it, and nobody
    waits for it any more; but the loop goes on watching the descriptor for every want
    that the socket had, since dropping the interests of the users registers the wants
    again after they were cleared. *)
Theorem zs_close_watched {W} (os : os_ops W) loop w0 fd p z w s :
  zs_reachable os loop w0 z w → cell fd = Done p → zsockets z !! p = Some (Some s) → zs_type s = ZSOCK_CONNECT → FL_HAS s ZS_STAT_WRITING = false →
  ∃ z', zs_close fd z w = Done (ZRet 0, z', w) ∧ zsockets z' !! p = Some None ∧
    bit (active_r z') p = false ∧ bit (active_w z') p = false ∧
    zfd_isset (zs_loop z') fd ZFD_R = Done (FL_SOME s want_read) ∧
    zfd_isset (zs_loop z') fd ZFD_W = Done (FL_SOME s want_write).
Proof.
  intros Hre Hc Hp Ht Hwr. pose proof (reachable_holds _ _ _ _ _ _ _ Hre Hp) as Hs.
  enough (wp (zs_close fd) z w (λ a z' w', a = ZRet 0 ∧ w' = w ∧ zsockets z' !! p = Some None ∧
    bit (active_r z') p = false ∧ bit (active_w z') p = false ∧
    zfd_isset (zs_loop z') fd ZFD_R = Done (FL_SOME s want_read) ∧
    zfd_isset (zs_loop z') fd ZFD_W = Done (FL_SOME s want_write)))
    as (a & z' & w' & E & -> & -> & H) by eauto.
  unfold zs_close. apply wp_bind. eapply (wp_get _ _ Hc); [done|]. cbv zeta. rewrite Ht, Hwr.
  apply wp_bind. eapply wp_mono; [apply (wp_loop_watched fd p Hc z w s false ZFD_R 0 Hs)|].
  intros _ z1 w1 (-> & Hs1 & _). apply wp_bind.
  eapply wp_mono; [apply (wp_loop_watched fd p Hc z1 w s false ZFD_W 0 Hs1)|].
  intros _ z2 w2 (-> & Hs2 & _). apply wp_bind.
  eapply wp_mono; [by apply (clr_read_watched fd p Hc z2 w s)|].
  intros _ z3 w3 (-> & Hs3 & Hr3 & _). apply wp_bind.
  eapply wp_mono; [by apply (clr_write_watched fd p Hc z3 w s)|].
  intros _ z4 w4 (-> & Hs4 & Hw4 & Hr4 & Hwt & Hrd). apply wp_bind.
  exists tt, (set_sockets (<[p := None]> (zsockets z4)) z4), w. split.
  { unfold zs_store, mbind, zm_bind, getz, lift, putz. by rewrite Hc. }
  apply wp_ret. rewrite Hr3 in Hrd. rewrite <- Hr4 in Hr3.
  split_and!; try done.
  - simpl. apply list_lookup_insert_eq. eapply lookup_lt_Some, (hd_socket _ _ _ Hs4).
  - rewrite (watched_isset _ _ fd p) by (done || apply Hs4). f_equal. exact Hrd.
  - rewrite (watched_isset _ _ fd p) by (done || apply Hs4). f_equal. exact Hwt.
Qed.

(** ** Sample runs *)

(** A client that waits for input, and what it has received. *)
Definition sample_reader : list zs_op :=
  [ZOpen 1 80 ZSOCK_CONNECT 1 false; ZSetRead 6; ZLoop zs_internal_read_hdlr 6].

Definition rd_okb (r : zsock_rw_data_t) : bool :=
  (0 <=? rw_pos r) && (0 <=? rw_used r) &&
  match rw_buffer r with Some buf => rw_pos r + rw_used r <=? Z.of_nat (length buf) | None => false end.

Lemma rd_okb_ok r : rd_okb r = true → rd_ok r.
Proof.
  unfold rd_okb. intros H. apply andb_prop in H as [H H3]. zbool.
  destruct (rw_buffer r) as [buf|] eqn:E; [|done]. zbool. split; [lia..|]. by exists buf.
Qed.

Definition wr_okb (r : zsock_rw_data_t) : bool :=
  (0 <=? rw_pos r) && (rw_pos r <=? rw_used r) &&
  match rw_buffer r with Some buf => rw_used r =? Z.of_nat (length buf) | None => false end.

Lemma wr_okb_ok r : wr_okb r = true → wr_ok r.
Proof.
  unfold wr_okb. intros H. apply andb_prop in H as [H H3]. zbool.
  destruct (rw_buffer r) as [buf|] eqn:E; [|done]. zbool. split; [lia|]. by exists buf.
Qed.

(** A connected socket that is not closed, with the flag set. *)
Definition is_open (flag : Z) (s : zsocket_t) : bool :=
  bool_decide (zs_type s = ZSOCK_CONNECT) && negb (FL_HAS s ZS_STAT_CLOSED) && FL_HAS s flag &&
  negb (zs_ssl s).

Lemma is_open_inv flag s : is_open flag s = true →
  zs_type s = ZSOCK_CONNECT ∧ FL_HAS s ZS_STAT_CLOSED = false ∧ FL_HAS s flag = true ∧ zs_ssl s = false.
Proof.
  unfold is_open. intros H. rewrite !andb_true_iff, !negb_true_iff in H.
  destruct H as [[[H1 H2] H3] H4]. by apply bool_decide_eq_true_1 in H1.
Qed.

Lemma zs_read_stream_witness :
  ∃ z w, zs_run sample_os sample_reader (zs_init zfd_static) [(3, str "abc", 0)] = Done (z, w) ∧
    ∃ z' s', zs_read sample_os 6 2 z w = Done ((ZRet 2, str "ab"), z', []) ∧
      zsockets z' !! 6%nat = Some (Some s') ∧ rw_avail (zs_rd s') = str "c".
Proof.
  destruct (zs_sample sample_reader [(3, str "abc", 0)] 6
    (λ _ w s, is_open ZS_STAT_READABLE s && rd_okb (zs_rd s) && (rw_errno (zs_rd s) =? 0) &&
              bool_decide (rw_avail (zs_rd s) = str "abc") && bool_decide (w = [])))
    as (z & w & s & E & Hr & Hs & H); [vm_compute; reflexivity|].
  exists z, w. split; [exact E|]. rewrite !andb_true_iff, !bool_decide_eq_true, Z.eqb_eq in H.
  destruct H as [[[[H1 H2] H3] H4] ->]. apply is_open_inv in H1 as (Ht & Hcl & Hrd & Hssl).
  apply rd_okb_ok in H2. pose proof (ro_buffer _ H2) as (buf & Hb & _).
  pose proof (rw_avail_length _ H2) as Hlen. rewrite H4 in Hlen.
  destruct (zs_read_stream sample_os zfd_static _ 6 6 z [] s buf 2 Hr eq_refl Hs Ht Hcl Hrd Hssl Hb H2 H3)
    as (z' & w' & s' & out & new & E' & Hs' & Ho & Happ & Hw).
  { change (length (str "abc")) with 3%nat in Hlen. lia. }
  { split; [lia|done]. }
  rewrite H4 in *. change (take 2 (str "abc")) with (str "ab") in Ho. subst out.
  destruct Hw as [[-> ->]|[Hw _]]; [|by compute in Hw; lia].
  exists z', s'. split; [exact E'|]. split; [apply Hs'|]. by injection Happ as ->.
Defined.

Lemma zs_writer_stream_witness :
  ∃ z w, zs_run sample_os [ZOpen 1 80 ZSOCK_CONNECT 1 false; ZWrite 6 (str "hello")]
           (zs_init zfd_static) [] = Done (z, w) ∧
    ∃ z' s', zs_writer sample_os 6 z w = Done (tt, z', w) ∧
      zsockets z' !! 6%nat = Some (Some s') ∧ write_ended s'.
Proof.
  destruct (zs_sample [ZOpen 1 80 ZSOCK_CONNECT 1 false; ZWrite 6 (str "hello")] [] 6
    (λ _ _ s, is_open ZS_STAT_WRITING s && wr_okb (zs_wr s) &&
              bool_decide (rw_pending (zs_wr s) = str "hello")))
    as (z & w & s & E & Hr & Hs & H); [vm_compute; reflexivity|].
  exists z, w. split; [exact E|]. rewrite !andb_true_iff, bool_decide_eq_true in H.
  destruct H as [[H1 H2] H3]. apply is_open_inv in H1 as (Ht & Hcl & _ & Hssl). apply wr_okb_ok in H2.
  destruct (zs_writer_stream sample_os zfd_static _ 6 6 z w s 5 0 w Hr eq_refl Hs Hssl Hcl H2)
    as (z' & s' & E' & Hs' & Hend).
  { by rewrite H3. }
  { by rewrite H3. }
  exists z', s'. rewrite H3 in Hend. split; [exact E'|]. split; [apply Hs'|]. by destruct Hend.
Defined.

Lemma zs_update_fd_state_spec_witness :
  ∃ z w, zs_run sample_os [ZOpen 1 80 ZSOCK_CONNECT 1 false; ZWrite 6 (str "hello")]
           (zs_init zfd_static) [] = Done (z, w) ∧
    ∃ z', zs_update_fd_state 6 z w = Done (tt, z', w) ∧
      zfd_isset (zs_loop z') 6 ZFD_W = Done true ∧ zfd_isset (zs_loop z') 6 ZFD_R = Done false.
Proof.
  destruct (zs_sample [ZOpen 1 80 ZSOCK_CONNECT 1 false; ZWrite 6 (str "hello")] [] 6
    (λ z _ s, is_open ZS_STAT_WRITING s && needs_write s (bit (active_w z) 6) &&
              negb (needs_read s (bit (active_r z) 6))))
    as (z & w & s & E & Hr & Hs & H); [vm_compute; reflexivity|].
  exists z, w. split; [exact E|]. rewrite !andb_true_iff, negb_true_iff in H. destruct H as [[H1 H2] H3].
  apply is_open_inv in H1 as (Ht & _).
  destruct (zs_update_fd_state_spec sample_os zfd_static _ 6 6 z w s Hr eq_refl Hs Ht)
    as (z' & E' & _ & Hw & Hrd).
  rewrite H2 in Hw. rewrite H3 in Hrd. exists z'. exact (conj E' (conj Hw Hrd)).
Defined.

(** A client that was told that there is nothing to read yet. *)
Lemma zs_close_watched_witness :
  ∃ z w, zs_run sample_os sample_reader (zs_init zfd_static) [] = Done (z, w) ∧
    ∃ z', zs_close 6 z w = Done (ZRet 0, z', w) ∧ zsockets z' !! 6%nat = Some None ∧
      zfd_isset (zs_loop z') 6 ZFD_R = Done true.
Proof.
  destruct (zs_sample sample_reader [] 6
    (λ _ _ s, is_open ZS_STAT_READING s && negb (FL_HAS s ZS_STAT_WRITING) && FL_SOME s want_read))
    as (z & w & s & E & Hr & Hs & H); [vm_compute; reflexivity|].
  exists z, w. split; [exact E|]. rewrite !andb_true_iff, negb_true_iff in H. destruct H as [[H1 H2] H3].
  apply is_open_inv in H1 as (Ht & _).
  destruct (zs_close_watched sample_os zfd_static _ 6 6 z w s Hr eq_refl Hs Ht H2)
    as (z' & E' & Hn & _ & _ & Hrd & _).
  rewrite H3 in Hrd. exists z'. exact (conj E' (conj Hn Hrd)).
Defined.

(** The loop then calls the read handler for a descriptor that has no socket. *)
Lemma zs_close_watched_crash :
  zs_run sample_os (sample_reader ++ [ZClose 6; ZLoop zs_internal_read_hdlr 6]) (zs_init zfd_static) []
  = Fault NullDeref.
Proof. vm_compute. reflexivity. Qed.
