(* ===== verification/Yaml.v ===== *)
(** The YAML library, as zcnf.c uses it: documents of nodes with indices from 1, built
    node by node, written to files and parsed from them.  The library is a class of
    operations, its documented behaviour the class of its laws; both are parameters of
    the components that read and write configuration files.  A document that is kept as
    the list of its nodes satisfies the laws. *)

From Stdlib Require Import ZArith Lia String.
From S2P Require Export CString.

Local Open Scope Z_scope.

(** ** The interface *)

Inductive yaml_node :=
| YScalar (value : bytes)
| YSequence (items : list Z)
| YMapping (pairs : list (Z * Z)).

#[export] Instance yaml_node_eq_dec : EqDecision yaml_node.
Proof. solve_decision. Defined.

Class Yaml := {
  yaml_doc : Type;
  yaml_text : Type;                                        (* the content of a file *)
  yaml_no_text : yaml_text;                                (* of an empty file *)
  yaml_initial : yaml_doc;                                 (* yaml_document_initialize *)
  yaml_get_node : yaml_doc → Z → option yaml_node;
  yaml_get_root_node : yaml_doc → option yaml_node;
  yaml_add : yaml_doc → yaml_node → yaml_doc * Z;          (* yaml_document_add_..., 0 on failure *)
  yaml_append_item : yaml_doc → Z → Z → yaml_doc * bool;
  yaml_append_pair : yaml_doc → Z → Z → Z → yaml_doc * bool;
  yaml_dump : yaml_doc → yaml_text;
  yaml_parse : yaml_text → option yaml_doc;
  yaml_valid : bytes → bool                                (* the value of a scalar is accepted *)
}.

(** What a document says, whatever its indices. *)
Inductive yaml_tree :=
| TScalar (value : bytes)
| TSequence (items : list yaml_tree)
| TMapping (pairs : list (yaml_tree * yaml_tree)).

Definition is_ascii (c : Z) : Prop := 0 < c < 128.

Section denotes.
Context `{Y : Yaml}.

Inductive denotes (d : yaml_doc) : Z → yaml_tree → Prop :=
| denotes_scalar i v : yaml_get_node d i = Some (YScalar v) → denotes d i (TScalar v)
| denotes_sequence i l ts :
    yaml_get_node d i = Some (YSequence l) → Forall2 (denotes d) l ts → denotes d i (TSequence ts)
| denotes_mapping i l ts :
    yaml_get_node d i = Some (YMapping l) →
    Forall2 (λ p t, denotes d p.1 t.1 ∧ denotes d p.2 t.2) l ts → denotes d i (TMapping ts).

(** [d'] is [d] with the node [i] set to [n]. *)
Definition node_set (d d' : yaml_doc) (i : Z) (n : yaml_node) : Prop :=
  yaml_get_node d' i = Some n ∧ ∀ j, j ≠ i → yaml_get_node d' j = yaml_get_node d j.

Definition node_valid (n : yaml_node) : bool :=
  match n with YScalar v => yaml_valid v | YSequence l => bool_decide (l = []) | YMapping l => bool_decide (l = []) end.
End denotes.

Class YamlLaws (Y : Yaml) : Prop := {
  yaml_initial_empty i : yaml_get_node yaml_initial i = None;
  yaml_root_first d : yaml_get_root_node d = yaml_get_node d 1;
  yaml_add_first n : node_valid n = true → (yaml_add yaml_initial n).2 = 1;
  yaml_add_node d n : node_valid n = true →
    let '(d', i) := yaml_add d n in i ≠ 0 ∧ yaml_get_node d i = None ∧ node_set d d' i n;
  yaml_append_item_node d i j l n :
    yaml_get_node d i = Some (YSequence l) → yaml_get_node d j = Some n →
    let '(d', ok) := yaml_append_item d i j in ok = true ∧ node_set d d' i (YSequence (l ++ [j]));
  yaml_append_pair_node d i j k l n m :
    yaml_get_node d i = Some (YMapping l) → yaml_get_node d j = Some n → yaml_get_node d k = Some m →
    let '(d', ok) := yaml_append_pair d i j k in ok = true ∧ node_set d d' i (YMapping (l ++ [(j, k)]));
  yaml_parse_dump d t : denotes d 1 t → ∃ d', yaml_parse (yaml_dump d) = Some d' ∧ denotes d' 1 t;
  yaml_valid_ascii v : Forall is_ascii v → yaml_valid v = true
}.

(** ** Documents as lists of nodes *)

Module ListYaml.

Definition get_node (d : list yaml_node) (i : Z) : option yaml_node :=
  if 0 <? i then d !! Z.to_nat (i - 1) else None.

Definition set_node (d : list yaml_node) (i : Z) (n : yaml_node) : list yaml_node :=
  <[Z.to_nat (i - 1) := n]> d.

#[export] Instance list_yaml : Yaml := {|
  yaml_doc := list yaml_node;
  yaml_text := list yaml_node;
  yaml_no_text := [];
  yaml_initial := [];
  yaml_get_node := get_node;
  yaml_get_root_node d := head d;
  yaml_add d n := (d ++ [n], Z.of_nat (length d) + 1);
  yaml_append_item d i j :=
    match get_node d i with
    | Some (YSequence l) => (set_node d i (YSequence (l ++ [j])), true)
    | _ => (d, false)
    end;
  yaml_append_pair d i j k :=
    match get_node d i with
    | Some (YMapping l) => (set_node d i (YMapping (l ++ [(j, k)])), true)
    | _ => (d, false)
    end;
  yaml_dump d := d;
  yaml_parse d := Some d;
  yaml_valid v := true
|}.

Lemma set_node_set d i m n : get_node d i = Some m → node_set d (set_node d i n) i n.
Proof.
  unfold node_set. simpl. unfold get_node, set_node. intros H.
  destruct (Z.ltb_spec 0 i); [|done]. split.
  - by eapply list_lookup_insert_eq, lookup_lt_Some.
  - intros j Hj. destruct (Z.ltb_spec 0 j); [|done]. apply list_lookup_insert_ne. lia.
Qed.

#[export] Instance list_yaml_laws : YamlLaws list_yaml.
Proof.
  split; simpl.
  - intros i. unfold get_node. by case_match.
  - by intros [].
  - done.
  - intros d n _. unfold node_set. simpl. unfold get_node. split; [lia|]. split; [|split].
    + destruct (Z.ltb_spec 0 (Z.of_nat (length d) + 1)); [|done]. apply lookup_ge_None. lia.
    + destruct (Z.ltb_spec 0 (Z.of_nat (length d) + 1)); [|lia].
      replace (Z.to_nat (Z.of_nat (length d) + 1 - 1)) with (length d) by lia.
      by rewrite lookup_app_r, Nat.sub_diag by done.
    + intros j Hj. destruct (Z.ltb_spec 0 j); [|done].
      destruct (decide (Z.to_nat (j - 1) < length d)%nat); [by rewrite lookup_app_l|].
      rewrite (lookup_ge_None_2 d), (lookup_ge_None_2 (d ++ [n])); [done| |lia].
      rewrite length_app. simpl. lia.
  - intros d i j l n Hi _. rewrite Hi. split; [done|]. by eapply set_node_set.
  - intros d i j k l n m Hi _ _. rewrite Hi. split; [done|]. by eapply set_node_set.
  - intros d t H. eauto.
  - done.
Qed.

End ListYaml.
