(* ===== verification/Zcnf.v ===== *)
(** zcnf.c: the configuration of web applications and of the proxy daemon, and the state
    file of a user with the applications that are started.

    A document is read through the interface of Yaml; an index that names no node is a
    NULL pointer in the source.  The file system is a map from paths to texts; [writable]
    tells where a file can be created, and [getpwuid] is the user database. *)

From Stdlib Require Import ZArith Lia String.
From stdpp Require Import gmap.
From S2P Require Export Yaml General.

Local Open Scope Z_scope.

(** ** Constants of config.h *)

Definition ZM_APP_CNF_FILE : bytes := str "zimr.webapp".
Definition ZM_USR_STATE_FILE : bytes := str "~/.zimr/state".
Definition ZM_PROXY_CNF_FILE : bytes := str "/etc/zimr/zimrd.cnf".
Definition ZM_PROXY_DEFAULT_ADDR : bytes := str "127.0.0.1".
Definition ZM_PROXY_DEFAULT_PORT : Z := 7672.
Definition ZM_PROXY_MAX_PROXIES : nat := 64.
Definition ZM_MODULE_MAX_ARGS : nat := 20.

(** ** Data *)

Record zcnf_proxy_t := ZProxy { proxy_ip : bytes; proxy_port : Z }.

(** [argc] is the length of [argv]. *)
Record zcnf_module_t := ZModule { zm_name : bytes; zm_argv : list bytes }.

Record zcnf_website_t := ZWebsite {
  zw_url : option bytes;
  zw_redirect_url : option bytes;
  zw_ip_address : option bytes;
  zw_pubdirs : list bytes;
  zw_modules : list zcnf_module_t;
  zw_ignore : list bytes
}.

Record zcnf_app_t := ZApp { za_websites : list zcnf_website_t; za_proxy : zcnf_proxy_t }.

Record zcnf_state_app_t := ZStateApp { zs_path : option bytes; zs_pid : Z; zs_stopped : bool }.

Record zcnf_state_t := ZState { zs_apps : list zcnf_state_app_t; zs_uid : Z }.

(** The first [zd_n] cells of the array are used. *)
Record zcnf_daemon_t := ZDaemon {
  zd_n : nat;
  zd_proxies : list zcnf_proxy_t;
  zd_ssl_cert_path : option bytes;
  zd_ssl_key_path : option bytes
}.

(** ** Proxies *)

(** The array [ip] has 16 bytes, which are all 0 before the address is copied. *)
Definition zcnf_parse_proxy (proxy_str : bytes) : zcnf_proxy_t :=
  match strchr proxy_str c_colon with
  | None => ZProxy (take 15 proxy_str) ZM_PROXY_DEFAULT_PORT
  | Some port =>
      ZProxy (take (if (15 <? port)%nat then 15 else port) proxy_str)
             (atoi (drop (S port) proxy_str))
  end.

Definition is_key (key : string) (v : bytes) : bool := strcmp_eq (str key) v.

Section zcnf.
Context `{Y : Yaml}.
Implicit Types (d : yaml_doc).

Definition files : Type := gmap bytes yaml_text.

(** A missing file and a text that does not parse are the same to the callers. *)
Definition zcnf_load (fs : files) (filepath : bytes) : option yaml_doc :=
  fs !! filepath ≫= yaml_parse.

(** The value of a node, if it is a scalar. *)
Definition scalar (n : option yaml_node) : option bytes :=
  match n with Some (YScalar v) => Some v | _ => None end.

(** ** Websites *)

(** The scalars of a sequence; the node is not tested for NULL before its type is read. *)
Fixpoint load_scalars d (items : list Z) : res (list bytes) :=
  match items with
  | [] => Done []
  | i :: items =>
      n ← deref (yaml_get_node d i);
      vs ← load_scalars d items;
      Done (match n with YScalar v => v :: vs | _ => vs end)
  end.

Fixpoint load_module_args d (items : list Z) (argv : list bytes) : list bytes :=
  match items with
  | [] => argv
  | i :: items =>
      match scalar (yaml_get_node d i) with
      | Some arg =>
          if (length (argv ++ [arg]) =? ZM_MODULE_MAX_ARGS)%nat then argv ++ [arg]
          else load_module_args d items (argv ++ [arg])
      | None => load_module_args d items argv
      end
  end.

(** A module is a name, or a mapping of one name to its arguments. *)
Definition load_module d (module_node : option yaml_node) : option zcnf_module_t :=
  match module_node with
  | Some (YScalar name) => Some (ZModule name [])
  | Some (YMapping [(key, value)]) =>
      match scalar (yaml_get_node d key) with
      | Some name =>
          Some (ZModule name (match yaml_get_node d value with
                              | Some (YSequence items) => load_module_args d items []
                              | _ => []
                              end))
      | None => None
      end
  | _ => None
  end.

Definition load_modules d (items : list Z) : list zcnf_module_t :=
  omap (fun i => load_module d (yaml_get_node d i)) items.

Definition load_website_attr d (w : zcnf_website_t) (key : bytes) (val : yaml_node)
  : res zcnf_website_t :=
  let '(ZWebsite url redirect ip pubdirs modules ignore) := w in
  if is_key "url" key then
    Done (match val with
          | YScalar v => ZWebsite (Some v) redirect ip pubdirs modules ignore | _ => w end)
  else if is_key "public directory" key then
    Done (match val with
          | YScalar v => ZWebsite url redirect ip (pubdirs ++ [v]) modules ignore | _ => w end)
  else if is_key "public directories" key then
    match val with
    | YSequence items =>
        vs ← load_scalars d items; Done (ZWebsite url redirect ip (pubdirs ++ vs) modules ignore)
    | _ => Done w
    end
  else if is_key "ip address" key then
    Done (match val with
          | YScalar v => ZWebsite url redirect (Some v) pubdirs modules ignore | _ => w end)
  else if is_key "redirect to" key then
    Done (match val with
          | YScalar v => ZWebsite url (Some v) ip pubdirs modules ignore | _ => w end)
  else if is_key "ignore" key then
    match val with
    | YSequence items =>
        vs ← load_scalars d items; Done (ZWebsite url redirect ip pubdirs modules (ignore ++ vs))
    | _ => Done w
    end
  else if is_key "modules" key then
    Done (match val with
          | YSequence items => ZWebsite url redirect ip pubdirs (modules ++ load_modules d items) ignore
          | _ => w
          end)
  else Done w.

(** The attributes up to the first key that is not a scalar. *)
Fixpoint load_website_attrs d (w : zcnf_website_t) (pairs : list (Z * Z)) : res zcnf_website_t :=
  match pairs with
  | [] => Done w
  | (key, value) :: pairs =>
      match scalar (yaml_get_node d key) with
      | None => Done w
      | Some k =>
          w ← (match yaml_get_node d value with
               | None => Done w
               | Some val => load_website_attr d w k val
               end);
          load_website_attrs d w pairs
      end
  end.

Definition new_website : zcnf_website_t := ZWebsite None None None [] [] [].

Fixpoint load_website_items d (websites : list zcnf_website_t) (items : list Z)
  : res (option (list zcnf_website_t)) :=
  match items with
  | [] => Done (Some websites)
  | i :: items =>
      match yaml_get_node d i with
      | Some (YMapping pairs) =>
          w ← load_website_attrs d new_website pairs;
          load_website_items d (websites ++ [w]) items
      | _ => Done None
      end
  end.

(** [None] when it fails: the caller then drops the whole configuration. *)
Definition zcnf_load_websites (cnf : zcnf_app_t) d (index : Z) : res (option zcnf_app_t) :=
  match yaml_get_node d index with
  | Some (YSequence items) =>
      o ← load_website_items d (za_websites cnf) items;
      Done (match o with Some ws => Some (ZApp ws (za_proxy cnf)) | None => None end)
  | _ => Done None
  end.

Fixpoint load_app_attrs d (cnf : zcnf_app_t) (pairs : list (Z * Z)) : res (option zcnf_app_t) :=
  match pairs with
  | [] => Done (Some cnf)
  | (key, value) :: pairs =>
      match scalar (yaml_get_node d key) with
      | None => Done None
      | Some k =>
          if is_key "websites" k then
            o ← zcnf_load_websites cnf d value;
            match o with Some cnf => load_app_attrs d cnf pairs | None => Done None end
          else if is_key "proxy" k then
            match scalar (yaml_get_node d value) with
            | Some v => load_app_attrs d (ZApp (za_websites cnf) (zcnf_parse_proxy v)) pairs
            | None => load_app_attrs d cnf pairs
            end
          else load_app_attrs d cnf pairs
      end
  end.

Definition new_app : zcnf_app_t := ZApp [] (ZProxy ZM_PROXY_DEFAULT_ADDR ZM_PROXY_DEFAULT_PORT).

Section files.
Context (getpwuid : Z → option bytes) (writable : bytes → bool).

Definition zcnf_app_load (uid : Z) (fs : files) (cnf_path : option bytes) : res (option zcnf_app_t) :=
  path ← expand_tilde getpwuid (default ZM_APP_CNF_FILE cnf_path) 128 uid;
  match path ≫= zcnf_load fs with
  | None => Done None
  | Some d =>
      match yaml_get_node d 1 with
      | Some (YMapping pairs) => load_app_attrs d new_app pairs
      | _ => Done None
      end
  end.

(** ** The daemon *)

Fixpoint load_proxies d (items : list Z) (n : nat) (proxies : list zcnf_proxy_t)
  : res (nat * list zcnf_proxy_t) :=
  match items with
  | [] => Done (n, proxies)
  | i :: items =>
      match scalar (yaml_get_node d i) with
      | None => load_proxies d items n proxies
      | Some v =>
          _ ← at_index (proxies !! n);
          let proxies := <[n := zcnf_parse_proxy v]> proxies in
          if (S n =? ZM_PROXY_MAX_PROXIES - 1)%nat then Done (S n, proxies)
          else load_proxies d items (S n) proxies
      end
  end.

(** One attribute of the daemon; the boolean is [default_proxy]. *)
Definition load_daemon_attr d (cnf : zcnf_daemon_t) (default_proxy : bool) (k : bytes)
  (val : option yaml_node) : res (zcnf_daemon_t * bool) :=
  let '(ZDaemon n proxies cert key) := cnf in
  if is_key "default proxy" k then
    Done (cnf, match scalar val with
               | Some v => if is_key "off" v then false else default_proxy
               | None => default_proxy
               end)
  else if is_key "other proxies" k then
    match val with
    | Some (YSequence items) =>
        '(n, proxies) ← load_proxies d items n proxies;
        Done (ZDaemon n proxies cert key, default_proxy)
    | _ => Done (cnf, default_proxy)
    end
  else if is_key "ssl cert path" k then
    Done (match scalar val with Some v => ZDaemon n proxies (Some v) key | None => cnf end, default_proxy)
  else if is_key "ssl key path" k then
    Done (match scalar val with Some v => ZDaemon n proxies cert (Some v) | None => cnf end, default_proxy)
  else Done (cnf, default_proxy).

(** The free of the configuration at a key that is no scalar leaves [cnf] NULL, and the
    default proxy is then stored through it. *)
Fixpoint load_daemon_attrs d (cnf : zcnf_daemon_t) (default_proxy : bool) (pairs : list (Z * Z))
  : res (option zcnf_daemon_t * bool) :=
  match pairs with
  | [] => Done (Some cnf, default_proxy)
  | (key, value) :: pairs =>
      match scalar (yaml_get_node d key) with
      | None => Done (None, default_proxy)
      | Some k =>
          '(cnf, default_proxy) ← load_daemon_attr d cnf default_proxy k (yaml_get_node d value);
          load_daemon_attrs d cnf default_proxy pairs
      end
  end.

Definition add_default_proxy (cnf : zcnf_daemon_t) : res zcnf_daemon_t :=
  _ ← at_index (zd_proxies cnf !! zd_n cnf);
  Done (ZDaemon (S (zd_n cnf))
          (<[zd_n cnf := ZProxy ZM_PROXY_DEFAULT_ADDR ZM_PROXY_DEFAULT_PORT]> (zd_proxies cnf))
          (zd_ssl_cert_path cnf) (zd_ssl_key_path cnf)).

Definition new_daemon : zcnf_daemon_t :=
  ZDaemon 0 (replicate ZM_PROXY_MAX_PROXIES (ZProxy [] 0)) None None.

Definition zcnf_daemon_load (fs : files) : res (option zcnf_daemon_t) :=
  match zcnf_load fs ZM_PROXY_CNF_FILE with
  | None => Done None
  | Some d =>
      match yaml_get_node d 1 with
      | Some (YMapping pairs) =>
          '(cnf, default_proxy) ← load_daemon_attrs d new_daemon true pairs;
          if default_proxy : bool then cnf ← deref cnf; Some <$> add_default_proxy cnf else Done cnf
      | _ => Done None
      end
  end.

(** ** The state file *)

(** [false] when the value of a path is no scalar. *)
Fixpoint load_state_app d (app : zcnf_state_app_t) (pairs : list (Z * Z)) : zcnf_state_app_t * bool :=
  match pairs with
  | [] => (app, true)
  | (key, value) :: pairs =>
      match scalar (yaml_get_node d key), yaml_get_node d value with
      | Some k, Some val =>
          if is_key "path" k then
            match val with
            | YScalar v => load_state_app d (ZStateApp (Some v) (zs_pid app) (zs_stopped app)) pairs
            | _ => (app, false)
            end
          else if is_key "pid" k then
            match val with
            | YScalar v => load_state_app d (ZStateApp (zs_path app) (atoi v) (zs_stopped app)) pairs
            | _ => load_state_app d app pairs
            end
          else if is_key "stopped" k then
            match val with
            | YScalar v => load_state_app d (ZStateApp (zs_path app) (zs_pid app) (negb (atoi v =? 0))) pairs
            | _ => load_state_app d app pairs
            end
          else load_state_app d app pairs
      | _, _ => load_state_app d app pairs
      end
  end.

(** The application is in the list before its attributes are read, and stays there when
    they are wrong. *)
Fixpoint load_state_items d (apps : list zcnf_state_app_t) (items : list Z) : list zcnf_state_app_t * bool :=
  match items with
  | [] => (apps, true)
  | i :: items =>
      match yaml_get_node d i with
      | Some (YMapping pairs) =>
          let '(app, ok) := load_state_app d (ZStateApp None 0 false) pairs in
          if ok then load_state_items d (apps ++ [app]) items else (apps ++ [app], false)
      | _ => (apps, false)
      end
  end.

Definition zcnf_state_load_apps (apps : list zcnf_state_app_t) d (index : Z) : list zcnf_state_app_t * bool :=
  match yaml_get_node d index with
  | Some (YSequence items) => load_state_items d apps items
  | _ => (apps, false)
  end.

Fixpoint load_state_attrs d (apps : list zcnf_state_app_t) (pairs : list (Z * Z)) : list zcnf_state_app_t :=
  match pairs with
  | [] => apps
  | (key, value) :: pairs =>
      match scalar (yaml_get_node d key) with
      | Some k =>
          if is_key "applications" k
          then load_state_attrs d (zcnf_state_load_apps apps d value).1 pairs
          else load_state_attrs d apps pairs
      | None => load_state_attrs d apps pairs
      end
  end.

(** The file is created when it is not there. *)
Definition zcnf_state_load (fs : files) (uid : Z) : res (option zcnf_state_t * files) :=
  path ← expand_tilde getpwuid ZM_USR_STATE_FILE 128 uid;
  match path with
  | None => Done (None, fs)
  | Some filepath =>
      let fs' := match fs !! filepath with Some _ => fs | None => <[filepath := yaml_no_text]> fs end in
      if bool_decide (fs !! filepath = None) && negb (writable filepath) then Done (None, fs)
      else
        match zcnf_load fs' filepath with
        | None => Done (None, fs')
        | Some d =>
            let apps := match yaml_get_root_node d with
                        | Some (YMapping pairs) => load_state_attrs d [] pairs
                        | _ => []
                        end in
            Done (Some (ZState apps uid), fs')
        end
  end.

Fixpoint set_app (apps : list zcnf_state_app_t) (path : bytes) (pid : Z) (stopped : bool)
  : res (list zcnf_state_app_t) :=
  match apps with
  | [] => Done [ZStateApp (Some path) pid stopped]
  | app :: apps =>
      p ← deref (zs_path app);
      if strcmp_eq p path then Done (ZStateApp (Some p) pid stopped :: apps)
      else apps ← set_app apps path pid stopped; Done (app :: apps)
  end.

Definition zcnf_state_set_app (st : zcnf_state_t) (path : bytes) (pid : Z) (stopped : bool)
  : res zcnf_state_t :=
  apps ← set_app (zs_apps st) path pid stopped; Done (ZState apps (zs_uid st)).

Fixpoint app_is_running (apps : list zcnf_state_app_t) (path : bytes) : res bool :=
  match apps with
  | [] => Done false
  | app :: apps =>
      p ← deref (zs_path app);
      if strcmp_eq p path then Done (negb (zs_pid app =? 0)) else app_is_running apps path
  end.

Definition zcnf_state_app_is_running (st : zcnf_state_t) (path : bytes) : res bool :=
  app_is_running (zs_apps st) path.

(** *** Saving *)

(** [assert( i = yaml_document_add_...( ... ) )]. *)
Definition add_node d (n : yaml_node) : res (yaml_doc * Z) :=
  let '(d, i) := yaml_add d n in _ ← assert (negb (i =? 0)); Done (d, i).

Definition add_pair d (map name value : Z) : res yaml_doc :=
  let '(d, ok) := yaml_append_pair d map name value in _ ← assert ok; Done d.

(** The two scalars of an attribute, and the pair. *)
Definition save_attr d (app_map : Z) (name value : bytes) : res yaml_doc :=
  '(d, n) ← add_node d (YScalar name);
  '(d, v) ← add_node d (YScalar value);
  add_pair d app_map n v.

Definition save_app d (apps : Z) (app : zcnf_state_app_t) : res yaml_doc :=
  '(d, app_map) ← add_node d (YMapping []);
  path ← deref (zs_path app);
  d ← save_attr d app_map (str "path") path;
  d ← save_attr d app_map (str "pid") (dec_string (zs_pid app));
  d ← save_attr d app_map (str "stopped") (dec_string (if zs_stopped app then 1 else 0));
  let '(d, ok) := yaml_append_item d apps app_map in
  _ ← assert ok;
  Done d.

Fixpoint save_apps d (apps : Z) (l : list zcnf_state_app_t) : res yaml_doc :=
  match l with
  | [] => Done d
  | app :: l => d ← save_app d apps app; save_apps d apps l
  end.

(** The document is built before the file is opened; a file that cannot be opened is
    given to the emitter as a NULL pointer. *)
Definition zcnf_state_save (fs : files) (st : zcnf_state_t) : res files :=
  path ← expand_tilde getpwuid ZM_USR_STATE_FILE 128 (zs_uid st);
  match path with
  | None => Done fs
  | Some filepath =>
      '(d, root) ← add_node yaml_initial (YMapping []);
      '(d, apps) ← add_node d (YSequence []);
      '(d, name) ← add_node d (YScalar (str "applications"));
      d ← add_pair d root name apps;
      d ← save_apps d apps (zs_apps st);
      if writable filepath then Done (<[filepath := yaml_dump d]> fs) else Fault NullDeref
  end.

End files.
End zcnf.
