(* ===== verification/ZcnfState.v ===== *)
(** zcnf.c, the state file: what is saved is loaded again, and the updates of an
    application leave the others alone. *)

From Stdlib Require Import ZArith Lia String.
From stdpp Require Import gmap.
From S2P Require Export Zcnf.

Local Open Scope Z_scope.

(** ** Reading trees *)

Section trees.
Context `{Y : Yaml}.
Implicit Types (d : yaml_doc).

Lemma denotes_scalar_inv d i v : denotes d i (TScalar v) → yaml_get_node d i = Some (YScalar v).
Proof. by inversion 1. Qed.

Lemma denotes_sequence_inv d i ts : denotes d i (TSequence ts) →
  ∃ l, yaml_get_node d i = Some (YSequence l) ∧ Forall2 (denotes d) l ts.
Proof. inversion 1; subst. eauto. Qed.

Lemma denotes_mapping_inv d i ts : denotes d i (TMapping ts) →
  ∃ l, yaml_get_node d i = Some (YMapping l) ∧
       Forall2 (λ p t, denotes d p.1 t.1 ∧ denotes d p.2 t.2) l ts.
Proof. inversion 1; subst. eauto. Qed.

Lemma denotes_scalar_at d i v : denotes d i (TScalar v) → scalar (yaml_get_node d i) = Some v.
Proof. intros H. by rewrite (denotes_scalar_inv _ _ _ H). Qed.
End trees.

(** ** The tree of a state *)

Definition app_tree (a : zcnf_state_app_t) (path : bytes) : yaml_tree :=
  TMapping [(TScalar (str "path"), TScalar path);
            (TScalar (str "pid"), TScalar (dec_string (zs_pid a)));
            (TScalar (str "stopped"), TScalar (dec_string (if zs_stopped a then 1 else 0)))].

Section state.
Context `{Y : Yaml} {L : YamlLaws Y}.
Implicit Types (d : yaml_doc).

(** An application that can be saved: it has a path that is a valid scalar, and its
    process number is an int. *)
Record app_ok (a : zcnf_state_app_t) (path : bytes) : Prop := {
  ao_path : zs_path a = Some path;
  ao_valid : yaml_valid path = true;
  ao_pid : - 2 ^ 31 <= zs_pid a < 2 ^ 31
}.

(** *** Loading *)

Lemma load_app_tree d i a path :
  denotes d i (app_tree a path) → app_ok a path →
  ∃ pairs, yaml_get_node d i = Some (YMapping pairs) ∧
           load_state_app d (ZStateApp None 0 false) pairs = (a, true).
Proof.
  intros H [Hp _ Hz]. apply denotes_mapping_inv in H as (l & Hl & H). exists l. split; [done|].
  apply Forall2_cons_inv_r in H as ([n1 v1] & l1 & [Hn1 Hv1] & H & ->).
  apply Forall2_cons_inv_r in H as ([n2 v2] & l2 & [Hn2 Hv2] & H & ->).
  apply Forall2_cons_inv_r in H as ([n3 v3] & l3 & [Hn3 Hv3] & H & ->).
  apply Forall2_nil_inv_r in H as ->. cbn [fst snd] in *.
  apply denotes_scalar_at in Hn1, Hn2, Hn3. apply denotes_scalar_inv in Hv1, Hv2, Hv3.
  cbn [load_state_app]. rewrite Hn1, Hn2, Hn3, Hv1, Hv2, Hv3.
  change (is_key "path" (str "path")) with true. change (is_key "path" (str "pid")) with false.
  change (is_key "pid" (str "pid")) with true. change (is_key "path" (str "stopped")) with false.
  change (is_key "pid" (str "stopped")) with false. change (is_key "stopped" (str "stopped")) with true.
  cbv iota. cbn [zs_path zs_pid zs_stopped]. rewrite atoi_dec_string by done.
  destruct a as [p pid st]. simpl in *. subst p. by destruct st.
Qed.

Lemma load_items_trees d items l paths apps :
  Forall2 (denotes d) items (zip_with app_tree l paths) → Forall2 app_ok l paths →
  load_state_items d apps items = (apps ++ l, true).
Proof.
  intros H Hok. revert items apps H. induction Hok as [|a p l paths Ha Hok IH]; intros items apps H.
  - apply Forall2_nil_inv_r in H as ->. simpl. by rewrite app_nil_r.
  - simpl in H. apply Forall2_cons_inv_r in H as (i & items' & Hi & H & ->).
    destruct (load_app_tree _ _ _ _ Hi Ha) as (pairs & E & E'). cbn [load_state_items].
    rewrite E, E', (IH items') by done. by rewrite <- app_assoc.
Qed.

(** *** Saving *)

(** The nodes stay as they are, except for the sequence that is being filled. *)
Definition grows d d' : Prop :=
  ∀ j node, (∀ l, node ≠ YSequence l) → yaml_get_node d j = Some node → yaml_get_node d' j = Some node.

Lemma add_node_ok d n : node_valid n = true →
  ∃ d' i, add_node d n = Done (d', i) ∧ yaml_get_node d i = None ∧ node_set d d' i n.
Proof.
  intros Hn. pose proof (yaml_add_node d n Hn) as H. unfold add_node.
  destruct (yaml_add d n) as [d' i]. destruct H as (Hi & Hf & Hs). exists d', i.
  rewrite (proj2 (Z.eqb_neq i 0)) by done. done.
Qed.

(** A node that was there before is still there after a fresh one was added. *)
Lemma node_set_fresh d d' i n j m :
  node_set d d' i n → yaml_get_node d i = None → yaml_get_node d j = Some m → yaml_get_node d' j = Some m.
Proof. intros [_ H] Hi Hj. rewrite H; [done|]. intros ->. congruence. Qed.

Lemma save_attr_ok d m l name value :
  yaml_get_node d m = Some (YMapping l) → yaml_valid name = true → yaml_valid value = true →
  ∃ d' n v, save_attr d m name value = Done d' ∧
    yaml_get_node d' m = Some (YMapping (l ++ [(n, v)])) ∧
    yaml_get_node d' n = Some (YScalar name) ∧ yaml_get_node d' v = Some (YScalar value) ∧
    ∀ j node, j ≠ m → yaml_get_node d j = Some node → yaml_get_node d' j = Some node.
Proof.
  intros Hm Hn Hv. unfold save_attr.
  destruct (add_node_ok d (YScalar name) Hn) as (d1 & n & -> & Hf1 & Hs1). cbn [mbind res_bind].
  destruct (add_node_ok d1 (YScalar value) Hv) as (d2 & v & -> & Hf2 & Hs2). cbn [mbind res_bind].
  assert (yaml_get_node d2 m = Some (YMapping l)) as Hm2 by eauto using node_set_fresh.
  assert (yaml_get_node d2 n = Some (YScalar name)) as Hn2 by (eapply node_set_fresh; eauto; apply Hs1).
  assert (yaml_get_node d2 v = Some (YScalar value)) as Hv2 by apply Hs2.
  pose proof (yaml_append_pair_node d2 m n v l _ _ Hm2 Hn2 Hv2) as H. unfold add_pair.
  destruct (yaml_append_pair d2 m n v) as [d3 ok]. destruct H as (-> & Hs3). exists d3, n, v.
  split; [done|]. destruct Hs3 as [Hm3 H3]. split; [done|].
  split; [|split].
  - rewrite H3; [done|]. intros ->. congruence.
  - rewrite H3; [done|]. intros ->. congruence.
  - intros j node Hj Hnode. rewrite H3 by done. eauto using node_set_fresh.
Qed.

(** The nodes of a saved application. *)
Definition app_node d (i : Z) (a : zcnf_state_app_t) : Prop :=
  ∃ path, app_ok a path ∧ ∃ n1 v1 n2 v2 n3 v3,
    yaml_get_node d i = Some (YMapping [(n1, v1); (n2, v2); (n3, v3)]) ∧
    yaml_get_node d n1 = Some (YScalar (str "path")) ∧ yaml_get_node d v1 = Some (YScalar path) ∧
    yaml_get_node d n2 = Some (YScalar (str "pid")) ∧
    yaml_get_node d v2 = Some (YScalar (dec_string (zs_pid a))) ∧
    yaml_get_node d n3 = Some (YScalar (str "stopped")) ∧
    yaml_get_node d v3 = Some (YScalar (dec_string (if zs_stopped a then 1 else 0))).

Lemma app_node_grows d d' i a : grows d d' → app_node d i a → app_node d' i a.
Proof.
  intros Hg (p & Hok & n1 & v1 & n2 & v2 & n3 & v3 & H0 & H1 & H2 & H3 & H4 & H5 & H6).
  exists p. split; [done|]. exists n1, v1, n2, v2, n3, v3. split_and!; by apply Hg.
Qed.

Lemma app_node_denotes d i a path : app_node d i a → zs_path a = Some path → denotes d i (app_tree a path).
Proof.
  intros (p & Hok & n1 & v1 & n2 & v2 & n3 & v3 & H0 & H1 & H2 & H3 & H4 & H5 & H6) Hp.
  assert (p = path) as -> by (pose proof (ao_path _ _ Hok); congruence).
  eapply denotes_mapping; [exact H0|]. repeat constructor; done.
Qed.

Lemma number_valid z : yaml_valid (dec_string z) = true.
Proof.
  apply yaml_valid_ascii. eapply Forall_impl; [apply dec_string_chars|]. unfold is_ascii. simpl. lia.
Qed.

Lemma literal_valid s : bool_decide (Forall (λ c, 0 < c < 128) s) = true → yaml_valid s = true.
Proof. intros H. apply yaml_valid_ascii. by apply bool_decide_eq_true in H. Qed.

Lemma save_app_ok d apps l a path :
  yaml_get_node d apps = Some (YSequence l) → app_ok a path →
  ∃ d' i, save_app d apps a = Done d' ∧ yaml_get_node d' apps = Some (YSequence (l ++ [i])) ∧
    app_node d' i a ∧ grows d d'.
Proof.
  intros Hl Hok. unfold save_app.
  destruct (add_node_ok d (YMapping [])) as (d1 & i & -> & Hf1 & Hs1); [done|]. cbn [mbind res_bind].
  rewrite (ao_path _ _ Hok). cbn [deref mbind res_bind].
  pose proof (node_set_fresh _ _ _ _ _ _ Hs1 Hf1 Hl) as Hl1.
  assert (apps ≠ i) as Hne by congruence. destruct Hs1 as [Hi1 Ho1].
  destruct (save_attr_ok d1 i [] (str "path") path Hi1) as (d2 & n1 & v1 & -> & Hi2 & Hn1 & Hv1 & Ho2);
    [by apply literal_valid | apply Hok |]. cbn [mbind res_bind].
  destruct (save_attr_ok d2 i _ (str "pid") (dec_string (zs_pid a)) Hi2)
    as (d3 & n2 & v2 & -> & Hi3 & Hn2 & Hv2 & Ho3); [by apply literal_valid | apply number_valid |].
  cbn [mbind res_bind].
  destruct (save_attr_ok d3 i _ (str "stopped") (dec_string (if zs_stopped a then 1 else 0)) Hi3)
    as (d4 & n3 & v3 & -> & Hi4 & Hn3 & Hv3 & Ho4); [by apply literal_valid | apply number_valid |].
  cbn [mbind res_bind]. rewrite <- !app_assoc in Hi4. simpl in Hi4.
  assert (∀ j node, j ≠ i → yaml_get_node d1 j = Some node → yaml_get_node d4 j = Some node) as Ho by auto.
  pose proof (yaml_append_item_node d4 apps i l _ (Ho _ _ Hne Hl1) Hi4) as H.
  destruct (yaml_append_item d4 apps i) as [d5 ok]. destruct H as (-> & [Hl5 Ho5]).
  cbn [assert mbind res_bind]. exists d5, i. split; [done|]. split; [done|].
  assert (∀ j, ∀ node, (∀ l, node ≠ YSequence l) → yaml_get_node d4 j = Some node →
    yaml_get_node d5 j = Some node) as Hg5.
  { intros j node Hns Hj. rewrite Ho5; [done|]. intros ->.
    rewrite (Ho _ _ Hne Hl1) in Hj. injection Hj as <-. by eapply Hns. }
  split.
  - apply (app_node_grows d4); [exact Hg5|]. exists path. split; [done|]. exists n1, v1, n2, v2, n3, v3.
    split; [done|].
    assert (∀ j v, yaml_get_node d2 j = Some (YScalar v) → yaml_get_node d4 j = Some (YScalar v)) as H2.
    { intros j v Hj. apply Ho4, Ho3; [congruence|congruence|done]. }
    assert (∀ j v, yaml_get_node d3 j = Some (YScalar v) → yaml_get_node d4 j = Some (YScalar v)) as H3.
    { intros j v Hj. apply Ho4; [congruence|done]. }
    split_and!; auto.
  - intros j node Hns Hj. apply Hg5; [done|]. apply Ho; [congruence|]. rewrite Ho1; [done|congruence].
Qed.

Lemma save_apps_ok d apps ids l paths :
  yaml_get_node d apps = Some (YSequence ids) → Forall2 app_ok l paths →
  ∃ d' ids', save_apps d apps l = Done d' ∧ yaml_get_node d' apps = Some (YSequence (ids ++ ids')) ∧
    Forall2 (app_node d') ids' l ∧ grows d d'.
Proof.
  intros Hd Hok. revert d ids Hd. induction Hok as [|a p l paths Ha Hok IH]; intros d ids Hd.
  - exists d, []. rewrite app_nil_r. simpl. split_and!; try done. by intros j node.
  - destruct (save_app_ok _ _ _ _ _ Hd Ha) as (d1 & i & E & Hd1 & Hi & Hg).
    destruct (IH _ _ Hd1) as (d2 & ids' & E2 & Hd2 & Hids & Hg2). exists d2, (i :: ids').
    cbn [save_apps]. rewrite E. cbn [mbind res_bind]. rewrite <- app_assoc in Hd2.
    split_and!; try done.
    + constructor; [|done]. by eapply app_node_grows.
    + intros j node Hn Hj. auto.
Qed.

Lemma app_nodes_denote d ids l paths :
  Forall2 (app_node d) ids l → Forall2 app_ok l paths → Forall2 (denotes d) ids (zip_with app_tree l paths).
Proof.
  intros H Hok. revert ids H. induction Hok as [|a p l paths Ha Hok IH]; intros ids H.
  - apply Forall2_nil_inv_r in H as ->. constructor.
  - apply Forall2_cons_inv_r in H as (i & ids' & Hi & H & ->). simpl. constructor; [|auto].
    eapply app_node_denotes; [done|]. apply Ha.
Qed.

Lemma files_insert (fs : files) path t : (<[path := t]> fs : files) !! path = Some t.
Proof. exact (lookup_insert_eq (M:=gmap bytes) fs path t). Qed.

Lemma files_insert_ne (fs : files) path other t :
  other ≠ path → (<[path := t]> fs : files) !! other = fs !! other.
Proof. intros H. apply (lookup_insert_ne (M:=gmap bytes) fs); congruence. Qed.

Section files.
Context (getpwuid : Z → option bytes) (writable : bytes → bool).

(** Saving and loading a state. *)
Lemma saved_state_loads fs st filepath paths :
  expand_tilde getpwuid ZM_USR_STATE_FILE 128 (zs_uid st) = Done (Some filepath) →
  writable filepath = true → Forall2 app_ok (zs_apps st) paths →
  ∃ fs', zcnf_state_save getpwuid writable fs st = Done fs' ∧
         zcnf_state_load getpwuid writable fs' (zs_uid st) = Done (Some st, fs') ∧
         ∀ other, other ≠ filepath → fs' !! other = fs !! other.
Proof.
  intros Hp Hw Hok. unfold zcnf_state_save. rewrite Hp. cbn [mbind res_bind].
  pose proof (yaml_add_first (YMapping []) eq_refl) as Hroot.
  destruct (add_node_ok yaml_initial (YMapping [])) as (d1 & root & E1 & Hf1 & Hs1); [done|].
  assert (root = 1) as ->.
  { unfold add_node in E1. destruct (yaml_add yaml_initial (YMapping [])) as [d' i].
    simpl in Hroot. subst i. cbn in E1. congruence. }
  rewrite E1. cbn [mbind res_bind].
  destruct (add_node_ok d1 (YSequence [])) as (d2 & apps & -> & Hf2 & Hs2); [done|]. cbn [mbind res_bind].
  destruct (add_node_ok d2 (YScalar (str "applications"))) as (d3 & name & -> & Hf3 & Hs3);
    [by apply literal_valid|]. cbn [mbind res_bind].
  assert (yaml_get_node d3 1 = Some (YMapping [])) as Hr3.
  { eapply node_set_fresh; eauto. eapply node_set_fresh; eauto. apply Hs1. }
  assert (yaml_get_node d3 apps = Some (YSequence [])) as Ha3 by (eapply node_set_fresh; eauto; apply Hs2).
  assert (yaml_get_node d3 name = Some (YScalar (str "applications"))) as Hn3 by apply Hs3.
  pose proof (yaml_append_pair_node d3 1 name apps _ _ _ Hr3 Hn3 Ha3) as H. unfold add_pair.
  destruct (yaml_append_pair d3 1 name apps) as [d4 ok]. destruct H as (-> & [Hr4 Ho4]).
  cbn [assert mbind res_bind]. simpl in Hr4.
  assert (yaml_get_node d4 apps = Some (YSequence [])) as Ha4.
  { rewrite Ho4; [done|]. intros ->. congruence. }
  assert (yaml_get_node d4 name = Some (YScalar (str "applications"))) as Hn4.
  { rewrite Ho4; [done|]. intros ->. congruence. }
  destruct (save_apps_ok _ _ _ _ _ Ha4 Hok) as (d5 & ids & -> & Ha5 & Hids & Hg5).
  cbn [mbind res_bind]. rewrite Hw. simpl in Ha5.
  eexists. split; [done|]. split.
  - apply (Hg5 1) in Hr4; [|done]. apply (Hg5 name) in Hn4; [|done].
    destruct (yaml_parse_dump d5
      (TMapping [(TScalar (str "applications"), TSequence (zip_with app_tree (zs_apps st) paths))]))
      as (d' & Hparse & Hden).
    { eapply denotes_mapping; [exact Hr4|]. constructor; [|constructor]. cbn [fst snd].
      split; [by constructor|]. eapply denotes_sequence; [exact Ha5|]. by apply app_nodes_denote. }
    unfold zcnf_state_load. rewrite Hp. cbn [mbind res_bind]. rewrite files_insert.
    rewrite bool_decide_eq_false_2 by done. cbn [andb]. unfold zcnf_load. rewrite files_insert.
    cbn [mbind option_bind]. rewrite Hparse, yaml_root_first.
    apply denotes_mapping_inv in Hden as (l & Hl & Hden).
    apply Forall2_cons_inv_r in Hden as ([n v] & l1 & [Hn Hv] & Hden & ->).
    apply Forall2_nil_inv_r in Hden as ->. rewrite Hl. cbn [fst snd] in *.
    apply denotes_scalar_at in Hn. apply denotes_sequence_inv in Hv as (items & Hi & Hitems).
    cbn [load_state_attrs]. rewrite Hn. change (is_key "applications" (str "applications")) with true.
    cbv iota. unfold zcnf_state_load_apps. rewrite Hi, (load_items_trees _ _ (zs_apps st) paths) by done.
    by destruct st.
  - intros other Ho. by apply files_insert_ne.
Qed.

(** C36: a state whose applications have paths is written to the state file of its user,
    and loading that file gives the same state: the applications in their order, with
    their process numbers and flags. *)
Theorem zcnf_state_save_load fs st filepath paths :
  expand_tilde getpwuid ZM_USR_STATE_FILE 128 (zs_uid st) = Done (Some filepath) →
  writable filepath = true → Forall2 app_ok (zs_apps st) paths →
  ∃ fs', zcnf_state_save getpwuid writable fs st = Done fs' ∧
         zcnf_state_load getpwuid writable fs' (zs_uid st) = Done (Some st, fs') ∧
         ∀ other, other ≠ filepath → fs' !! other = fs !! other.
Proof. exact (saved_state_loads fs st filepath paths). Qed.
End files.
End state.
