(* ===== verification/ZcnfApp.v ===== *)
(** zcnf.c, the configurations: what the file of an application and the file of the daemon
    say is what their records hold, and how many proxies fit. *)

From Stdlib Require Import ZArith Lia String.
From stdpp Require Import gmap.
From S2P Require Export ZcnfState.

Local Open Scope Z_scope.

(** ** Proxies *)

Lemma strchr_none s c : c ∉ s → strchr s c = None.
Proof.
  induction s as [|x s IH]; intros H; [done|]. simpl. apply not_elem_of_cons in H as [Hx Hs].
  rewrite (proj2 (Z.eqb_neq x c)) by done. by rewrite IH.
Qed.

(** An address that fits its field and a port are read back from the text that joins
    them by a colon; without a port the default one is taken; and an address of any
    length leaves room for the terminator. *)
Theorem zcnf_parse_proxy_print ip port :
  c_colon ∉ ip → (length ip <= 15)%nat → - 2 ^ 31 <= port < 2 ^ 31 →
  zcnf_parse_proxy (ip ++ c_colon :: dec_string port) = ZProxy ip port ∧
  zcnf_parse_proxy ip = ZProxy ip ZM_PROXY_DEFAULT_PORT ∧
  ∀ s, (length (proxy_ip (zcnf_parse_proxy s)) <= 15)%nat.
Proof.
  intros Hc Hl Hp. split_and!.
  - unfold zcnf_parse_proxy. rewrite strchr_app by done.
    destruct (Nat.ltb_spec 15 (length ip)); [lia|]. rewrite take_app_length.
    rewrite (cons_middle c_colon ip), app_assoc, drop_app_length'; [|rewrite length_app; simpl; lia].
    by rewrite atoi_dec_string.
  - unfold zcnf_parse_proxy. rewrite strchr_none by done. by rewrite take_ge.
  - intros s. unfold zcnf_parse_proxy. destruct (strchr s c_colon) as [p|]; cbn [proxy_ip];
      rewrite length_take; [|lia]. destruct (Nat.ltb_spec 15 p); lia.
Qed.

Lemma zcnf_parse_proxy_print_witness :
  zcnf_parse_proxy (str "10.0.0.1:8080") = ZProxy (str "10.0.0.1") 8080.
Proof.
  apply (zcnf_parse_proxy_print (str "10.0.0.1") 8080); [|simpl; lia|lia].
  apply (bool_decide_unpack _). vm_compute. exact I.
Defined.

(** ** The applications of a user *)

Definition paths_ok (st : zcnf_state_t) : Prop := Forall (λ a, is_Some (zs_path a)) (zs_apps st).

Lemma set_app_spec apps path pid stopped :
  Forall (λ a, is_Some (zs_path a)) apps →
  ∃ apps', set_app apps path pid stopped = Done apps' ∧
    Forall (λ a, is_Some (zs_path a)) apps' ∧
    app_is_running apps' path = Done (negb (pid =? 0)) ∧
    (∀ other, other ≠ path → app_is_running apps' other = app_is_running apps other) ∧
    filter (λ a, zs_path a ≠ Some path) apps' = filter (λ a, zs_path a ≠ Some path) apps ∧
    ZStateApp (Some path) pid stopped ∈ apps' ∧
    (NoDup (zs_path <$> apps) → NoDup (zs_path <$> apps')).
Proof.
  induction 1 as [|[[p|] q r] apps [p' Hp] Hok IH]; [| |done].
  - exists [ZStateApp (Some path) pid stopped]. cbn [set_app]. split; [done|].
    split; [by repeat constructor|]. cbn [app_is_running zs_path deref mbind res_bind zs_pid].
    unfold strcmp_eq. rewrite bool_decide_eq_true_2 by done. split_and!; try done.
    + intros other Ho. by rewrite bool_decide_eq_false_2.
    + rewrite filter_cons_False; [done|]. simpl. by intros [].
    + by left.
    + intros _. apply NoDup_singleton.
  - clear p' Hp. destruct IH as (apps' & E & Hf & H1 & H2 & H3 & H4 & H5).
    cbn [set_app zs_path deref mbind res_bind]. unfold strcmp_eq. case_bool_decide as Hpp.
    + subst p. eexists. split; [done|]. split; [by constructor|].
      cbn [app_is_running zs_path deref mbind res_bind zs_pid]. unfold strcmp_eq.
      rewrite bool_decide_eq_true_2 by done. split_and!; try done.
      * intros other Ho. by rewrite !bool_decide_eq_false_2 by congruence.
      * rewrite !filter_cons_False; [done|..]; simpl; by intros [].
      * by left.
    + rewrite E. cbn [mbind res_bind]. eexists. split; [done|]. split; [by constructor|].
      cbn [app_is_running zs_path deref mbind res_bind zs_pid]. unfold strcmp_eq.
      rewrite bool_decide_eq_false_2 by done. split_and!; try done.
      * intros other Ho. destruct (bool_decide (p = other)); [done|]. by apply H2.
      * rewrite !filter_cons_True by (simpl; congruence). by rewrite H3.
      * by right.
      * rewrite !fmap_cons, !NoDup_cons. intros [Hn Hd]. split; [|by apply H5]. simpl in *.
        intros Hin. apply Hn. apply list_elem_of_fmap in Hin as (a & Ha & Hin).
        apply list_elem_of_fmap. exists a. split; [done|].
        assert (a ∈ filter (λ a, zs_path a ≠ Some path) apps') as Hin'
          by (apply list_elem_of_filter; split; [congruence|done]).
        rewrite H3 in Hin'. by apply list_elem_of_filter in Hin' as [_ ?].
Qed.

(** When every application of the state has a path, [zcnf_state_set_app] records the
    process and the flag of one application, adds it at the end when it is new, and leaves
    what the state says of all others as it was; no path comes twice. *)
Theorem zcnf_state_set_app_spec st path pid stopped :
  paths_ok st →
  ∃ st', zcnf_state_set_app st path pid stopped = Done st' ∧ paths_ok st' ∧ zs_uid st' = zs_uid st ∧
    zcnf_state_app_is_running st' path = Done (negb (pid =? 0)) ∧
    (∀ other, other ≠ path → zcnf_state_app_is_running st' other = zcnf_state_app_is_running st other) ∧
    filter (λ a, zs_path a ≠ Some path) (zs_apps st') = filter (λ a, zs_path a ≠ Some path) (zs_apps st) ∧
    ZStateApp (Some path) pid stopped ∈ zs_apps st' ∧
    (NoDup (zs_path <$> zs_apps st) → NoDup (zs_path <$> zs_apps st')).
Proof.
  intros Hok. destruct (set_app_spec (zs_apps st) path pid stopped Hok) as (apps' & E & Hf & H).
  exists (ZState apps' (zs_uid st)). unfold zcnf_state_set_app. rewrite E. by split_and!; try apply H.
Qed.

Lemma zcnf_state_set_app_spec_witness :
  ∃ st', zcnf_state_set_app (ZState [ZStateApp (Some (str "/a")) 5 false] 1000) (str "/b") 7 true = Done st' ∧
    zcnf_state_app_is_running st' (str "/a") = Done true ∧ zcnf_state_app_is_running st' (str "/b") = Done true.
Proof.
  destruct (zcnf_state_set_app_spec (ZState [ZStateApp (Some (str "/a")) 5 false] 1000) (str "/b") 7 true)
    as (st' & E & _ & _ & Hb & Ho & _); [by repeat econstructor|].
  exists st'. split; [exact E|]. split; [by rewrite Ho|exact Hb].
Defined.

(** ** Websites *)

Definition opt_attr (key : string) (v : option bytes) : list (yaml_tree * yaml_tree) :=
  match v with Some v => [(TScalar (str key), TScalar v)] | None => [] end.

Definition scalars_tree (vs : list bytes) : yaml_tree := TSequence (TScalar <$> vs).

Definition module_tree (m : zcnf_module_t) : yaml_tree :=
  match zm_argv m with
  | [] => TScalar (zm_name m)
  | _ => TMapping [(TScalar (zm_name m), scalars_tree (zm_argv m))]
  end.

(** How a website is written in a configuration file. *)
Definition website_tree (w : zcnf_website_t) : yaml_tree :=
  TMapping (opt_attr "url" (zw_url w) ++ opt_attr "redirect to" (zw_redirect_url w) ++
            opt_attr "ip address" (zw_ip_address w) ++
            [(TScalar (str "public directories"), scalars_tree (zw_pubdirs w));
             (TScalar (str "modules"), TSequence (module_tree <$> zw_modules w));
             (TScalar (str "ignore"), scalars_tree (zw_ignore w))]).

(** The arguments of the modules fit their arrays. *)
Definition args_fit (w : zcnf_website_t) : Prop :=
  Forall (λ m, (length (zm_argv m) <= ZM_MODULE_MAX_ARGS)%nat) (zw_modules w).

Section app.
Context `{Y : Yaml}.
Implicit Types (d : yaml_doc).

Lemma load_scalars_tree d items vs :
  Forall2 (denotes d) items (TScalar <$> vs) → load_scalars d items = Done vs.
Proof.
  revert items. induction vs as [|v vs IH]; intros items H; simpl in H.
  - by apply Forall2_nil_inv_r in H as ->.
  - apply Forall2_cons_inv_r in H as (i & items' & Hi & H & ->). apply denotes_scalar_inv in Hi.
    cbn [load_scalars]. rewrite Hi. cbn [deref mbind res_bind]. by rewrite IH.
Qed.

Lemma load_module_args_tree d items vs argv :
  Forall2 (denotes d) items (TScalar <$> vs) → (length argv + length vs <= ZM_MODULE_MAX_ARGS)%nat →
  load_module_args d items argv = argv ++ vs.
Proof.
  revert items argv. induction vs as [|v vs IH]; intros items argv H Hl; simpl in H.
  - apply Forall2_nil_inv_r in H as ->. by rewrite app_nil_r.
  - apply Forall2_cons_inv_r in H as (i & items' & Hi & H & ->). apply denotes_scalar_at in Hi.
    simpl in Hl. cbn [load_module_args]. rewrite Hi.
    destruct (Nat.eqb_spec (length (argv ++ [v])) ZM_MODULE_MAX_ARGS) as [E|E].
    + rewrite length_app in E. simpl in E. destruct vs; [done|]. simpl in Hl. lia.
    + rewrite IH; [by rewrite <- app_assoc|done|]. rewrite length_app. simpl. lia.
Qed.

Lemma load_modules_tree d items ms :
  Forall2 (denotes d) items (module_tree <$> ms) →
  Forall (λ m, (length (zm_argv m) <= ZM_MODULE_MAX_ARGS)%nat) ms →
  load_modules d items = ms.
Proof.
  intros H Hf. revert items H. induction Hf as [|m ms Hm Hf IH]; intros items H; simpl in H.
  - by apply Forall2_nil_inv_r in H as ->.
  - apply Forall2_cons_inv_r in H as (i & items' & Hi & H & ->). unfold load_modules. cbn [omap list_omap].
    assert (load_module d (yaml_get_node d i) = Some m) as ->; [|f_equal; by apply IH].
    destruct m as [name argv]. unfold module_tree in Hi. cbn [zm_argv zm_name] in *. destruct argv as [|a argv].
    + by rewrite (denotes_scalar_inv _ _ _ Hi).
    + apply denotes_mapping_inv in Hi as (l & Hl & Hi).
      apply Forall2_cons_inv_r in Hi as ([n v] & l1 & [Hn Hv] & Hi & ->).
      apply Forall2_nil_inv_r in Hi as ->. cbn [fst snd] in *. rewrite Hl. cbn [load_module].
      rewrite (denotes_scalar_at _ _ _ Hn). apply denotes_sequence_inv in Hv as (l & E & Hv). rewrite E.
      by rewrite (load_module_args_tree d l (a :: argv) []).
Qed.

(** An optional attribute: the pairs that write it, and the rest. *)
Lemma load_opt_attr d w w' pairs key v rest :
  Forall2 (λ p t, denotes d p.1 t.1 ∧ denotes d p.2 t.2) pairs (opt_attr key v ++ rest) →
  (∀ x, v = Some x → load_website_attr d w (str key) (YScalar x) = Done w') → (v = None → w' = w) →
  ∃ pairs', Forall2 (λ p t, denotes d p.1 t.1 ∧ denotes d p.2 t.2) pairs' rest ∧
    load_website_attrs d w pairs = load_website_attrs d w' pairs'.
Proof.
  intros H Hs Hn. destruct v as [x|]; simpl in H.
  - apply Forall2_cons_inv_r in H as ([n y] & l & [Hk Hv] & H & ->). exists l. split; [done|].
    cbn [fst snd load_website_attrs] in *. rewrite (denotes_scalar_at _ _ _ Hk).
    rewrite (denotes_scalar_inv _ _ _ Hv). by rewrite (Hs x).
  - exists pairs. split; [done|]. by rewrite Hn.
Qed.

Lemma load_website_tree d i w :
  denotes d i (website_tree w) → args_fit w →
  ∃ pairs, yaml_get_node d i = Some (YMapping pairs) ∧ load_website_attrs d new_website pairs = Done w.
Proof.
  intros H Hf. apply denotes_mapping_inv in H as (pairs & Hp & H). exists pairs. split; [done|].
  destruct w as [url redirect ip pubdirs modules ignore].
  cbn [zw_url zw_redirect_url zw_ip_address zw_pubdirs zw_modules zw_ignore] in H. unfold args_fit in Hf.
  cbn [zw_modules] in Hf.
  destruct (load_opt_attr d new_website (ZWebsite url None None [] [] []) _ _ _ _ H) as (p1 & H1 & ->);
    [by intros x ->|by intros ->|]. clear H. rename H1 into H.
  destruct (load_opt_attr d (ZWebsite url None None [] [] []) (ZWebsite url redirect None [] [] []) _ _ _ _ H) as (p2 & H2 & ->);
    [by intros x ->|by intros ->|]. clear H. rename H2 into H.
  destruct (load_opt_attr d (ZWebsite url redirect None [] [] []) (ZWebsite url redirect ip [] [] []) _ _ _ _ H) as (p3 & H3 & ->);
    [by intros x ->|by intros ->|]. clear H. rename H3 into H.
  apply Forall2_cons_inv_r in H as ([n1 v1] & l1 & [Hn1 Hv1] & H & ->).
  apply Forall2_cons_inv_r in H as ([n2 v2] & l2 & [Hn2 Hv2] & H & ->).
  apply Forall2_cons_inv_r in H as ([n3 v3] & l3 & [Hn3 Hv3] & H & ->).
  apply Forall2_nil_inv_r in H as ->. cbn [fst snd] in *.
  apply denotes_scalar_at in Hn1, Hn2, Hn3.
  apply denotes_sequence_inv in Hv1 as (i1 & E1 & Hv1), Hv2 as (i2 & E2 & Hv2), Hv3 as (i3 & E3 & Hv3).
  cbn [load_website_attrs]. rewrite Hn1, E1.
  change (load_website_attr d (ZWebsite url redirect ip [] [] []) (str "public directories") (YSequence i1))
    with (vs ← load_scalars d i1; Done (ZWebsite url redirect ip ([] ++ vs) [] [])).
  rewrite (load_scalars_tree _ _ _ Hv1). cbn [mbind res_bind app]. rewrite Hn2, E2.
  change (load_website_attr d (ZWebsite url redirect ip pubdirs [] []) (str "modules") (YSequence i2))
    with (Done (ZWebsite url redirect ip pubdirs ([] ++ load_modules d i2) [])).
  rewrite (load_modules_tree _ _ _ Hv2 Hf). cbn [mbind res_bind app]. rewrite Hn3, E3.
  change (load_website_attr d (ZWebsite url redirect ip pubdirs modules []) (str "ignore") (YSequence i3))
    with (vs ← load_scalars d i3; Done (ZWebsite url redirect ip pubdirs modules ([] ++ vs))).
  by rewrite (load_scalars_tree _ _ _ Hv3).
Qed.

Lemma load_items_tree d items ws0 ws :
  Forall2 (denotes d) items (website_tree <$> ws) → Forall args_fit ws →
  load_website_items d ws0 items = Done (Some (ws0 ++ ws)).
Proof.
  revert items ws0. induction ws as [|w ws IH]; intros items ws0 H Hf; simpl in H.
  - apply Forall2_nil_inv_r in H as ->. by rewrite app_nil_r.
  - apply Forall2_cons_inv_r in H as (i & items' & Hi & H & ->).
    apply Forall_cons in Hf as [Hw Hf]. destruct (load_website_tree _ _ _ Hi Hw) as (pairs & E & E'). cbn [load_website_items].
    rewrite E, E'. cbn [mbind res_bind]. rewrite IH by done. by rewrite <- app_assoc.
Qed.

Section files.
Context (getpwuid : Z → option bytes).

(** A configuration file that describes a list of websites and a proxy is loaded as
    exactly these: every website in its order with its address, directories, ignored
    files and modules, and every module with its arguments. *)
Theorem zcnf_app_load_websites uid (fs : files) cnf_path filepath d ws proxy :
  expand_tilde getpwuid (default ZM_APP_CNF_FILE cnf_path) 128 uid = Done (Some filepath) →
  zcnf_load fs filepath = Some d →
  denotes d 1 (TMapping [(TScalar (str "websites"), TSequence (website_tree <$> ws));
                         (TScalar (str "proxy"), TScalar proxy)]) →
  Forall args_fit ws →
  zcnf_app_load getpwuid uid fs cnf_path = Done (Some (ZApp ws (zcnf_parse_proxy proxy))).
Proof.
  intros Hp Hl Hd Hf. unfold zcnf_app_load. rewrite Hp. cbn [mbind res_bind option_bind]. rewrite Hl.
  apply denotes_mapping_inv in Hd as (l & E & H). rewrite E.
  apply Forall2_cons_inv_r in H as ([n1 v1] & l1 & [Hn1 Hv1] & H & ->).
  apply Forall2_cons_inv_r in H as ([n2 v2] & l2 & [Hn2 Hv2] & H & ->).
  apply Forall2_nil_inv_r in H as ->. cbn [fst snd] in *. apply denotes_scalar_at in Hn1, Hn2, Hv2.
  apply denotes_sequence_inv in Hv1 as (items & E1 & Hv1).
  cbn [load_app_attrs]. rewrite Hn1, Hn2, Hv2.
  change (is_key "websites" (str "websites")) with true. change (is_key "websites" (str "proxy")) with false.
  change (is_key "proxy" (str "proxy")) with true. cbv iota.
  unfold zcnf_load_websites. rewrite E1, (load_items_tree _ _ _ ws) by done. done.
Qed.
End files.

(** ** The daemon *)

(** The entries of the lists of proxies of a document, and whether the default proxy
    is on. *)
Definition is_other (k : option bytes) : bool :=
  match k with Some k => negb (is_key "default proxy" k) && is_key "other proxies" k | None => false end.

Definition pair_proxies d (p : Z * Z) : list bytes :=
  if is_other (scalar (yaml_get_node d p.1)) then
    match yaml_get_node d p.2 with
    | Some (YSequence items) => omap (λ i, scalar (yaml_get_node d i)) items
    | _ => []
    end
  else [].

Definition pair_off d (p : Z * Z) : bool :=
  match scalar (yaml_get_node d p.1), scalar (yaml_get_node d p.2) with
  | Some k, Some v => is_key "default proxy" k && is_key "off" v
  | _, _ => false
  end.

Definition others d (pairs : list (Z * Z)) : nat :=
  length (filter (λ p, is_other (scalar (yaml_get_node d p.1)) = true) pairs).

(** The used cells of the array hold these proxies. *)
Definition proxies_are (n : nat) (proxies l : list zcnf_proxy_t) : Prop :=
  length proxies = ZM_PROXY_MAX_PROXIES ∧ n = length l ∧ take n proxies = l.

Lemma proxies_are_snoc n proxies l p :
  proxies_are n proxies l → (n < ZM_PROXY_MAX_PROXIES)%nat →
  is_Some (proxies !! n) ∧ proxies_are (S n) (<[n := p]> proxies) (l ++ [p]).
Proof.
  intros (Hlen & Hn & Ht) Hlt. rewrite <- Hlen in Hlt. split; [by apply lookup_lt_is_Some|].
  split; [by rewrite length_insert|]. split; [rewrite length_app; simpl; lia|].
  rewrite (take_S_r _ _ p) by (by apply list_lookup_insert_eq). by rewrite take_insert_ge, Ht.
Qed.

Lemma load_proxies_spec d items n proxies l :
  proxies_are n proxies l → (n < ZM_PROXY_MAX_PROXIES - 1)%nat →
  ∃ n' proxies', load_proxies d items n proxies = Done (n', proxies') ∧
    proxies_are n' proxies' (take (ZM_PROXY_MAX_PROXIES - 1)
      (l ++ (zcnf_parse_proxy <$> omap (λ i, scalar (yaml_get_node d i)) items))).
Proof.
  revert n proxies l. induction items as [|i items IH]; intros n proxies l H Hn.
  - exists n, proxies. split; [done|]. simpl. rewrite app_nil_r, take_ge; [done|].
    destruct H as (_ & <- & _). unfold ZM_PROXY_MAX_PROXIES in Hn. lia.
  - cbn [load_proxies omap list_omap]. destruct (scalar (yaml_get_node d i)) as [v|]; [|by apply IH].
    destruct (proxies_are_snoc _ _ _ (zcnf_parse_proxy v) H) as [[x Hx] H']; [lia|].
    rewrite Hx. cbn [at_index mbind res_bind]. cbv zeta.
    destruct (Nat.eqb_spec (S n) (ZM_PROXY_MAX_PROXIES - 1)) as [E|E].
    + eexists _, _. split; [done|]. rewrite fmap_cons, cons_middle, app_assoc, take_app_length'; [done|].
      destruct H' as (_ & <- & _). done.
    + destruct (IH _ _ _ H') as (n' & proxies' & E' & Hr); [lia|]. exists n', proxies'.
      split; [exact E'|]. by rewrite fmap_cons, cons_middle, app_assoc.
Qed.

(** What is known while the attributes are read. *)
Record daemon_is (cnf : zcnf_daemon_t) (l : list zcnf_proxy_t) : Prop := {
  di_proxies : proxies_are (zd_n cnf) (zd_proxies cnf) l;
  di_room : (length l <= ZM_PROXY_MAX_PROXIES - 1)%nat
}.

Lemma load_daemon_attr_spec d cnf b k key value l :
  scalar (yaml_get_node d key) = Some k → daemon_is cnf l → (is_other (Some k) = true → l = []) →
  ∃ cnf', load_daemon_attr d cnf b k (yaml_get_node d value) =
            Done (cnf', b && negb (pair_off d (key, value))) ∧
    daemon_is cnf' (l ++ take (ZM_PROXY_MAX_PROXIES - 1) (zcnf_parse_proxy <$> pair_proxies d (key, value))).
Proof.
  intros Hk [Hp Hr] Hl. destruct cnf as [n proxies cert keyp]. cbn [zd_n zd_proxies] in *.
  unfold load_daemon_attr, pair_off, pair_proxies, is_other in *. cbn [fst snd]. rewrite Hk.
  destruct (is_key "default proxy" k); cbn [negb andb] in *.
  - exists (ZDaemon n proxies cert keyp). simpl. rewrite app_nil_r. split; [|by split]. f_equal. f_equal.
    destruct (scalar (yaml_get_node d value)) as [v|]; [|by rewrite andb_true_r].
    destruct (is_key "off" v); [by rewrite andb_false_r|by rewrite andb_true_r].
  - assert ((match scalar (yaml_get_node d value) with Some _ => false | None => false end) = false) as ->
      by (by destruct (scalar (yaml_get_node d value))).
    cbn [negb]. rewrite andb_true_r. destruct (is_key "other proxies" k).
    + rewrite Hl in * by done. destruct (yaml_get_node d value) as [[v|items|ps]|] eqn:Ev;
        [exists (ZDaemon n proxies cert keyp); by rewrite app_nil_r|
        |exists (ZDaemon n proxies cert keyp); by rewrite app_nil_r
        |exists (ZDaemon n proxies cert keyp); by rewrite app_nil_r].
      destruct (load_proxies_spec d items n proxies [] Hp) as (n' & proxies' & E & H').
      { destruct Hp as (_ & -> & _). simpl. unfold ZM_PROXY_MAX_PROXIES. lia. }
      rewrite E. cbn [mbind res_bind]. eexists. split; [done|]. split; [exact H'|].
      rewrite app_nil_l, length_take. lia.
    + simpl. rewrite app_nil_r. destruct (is_key "ssl cert path" k), (is_key "ssl key path" k);
        eexists; (split; [done|]); destruct (scalar (yaml_get_node d value)); by split.
Qed.

Lemma others_cons d p pairs :
  others d (p :: pairs) = ((if is_other (scalar (yaml_get_node d p.1)) then 1 else 0) + others d pairs)%nat.
Proof.
  unfold others. destruct (is_other (scalar (yaml_get_node d p.1))) eqn:E.
  - by rewrite filter_cons_True.
  - rewrite filter_cons_False; [done|]. by rewrite E.
Qed.

Lemma pairs_cons d p pairs :
  mjoin (pair_proxies d <$> p :: pairs) = pair_proxies d p ++ mjoin (pair_proxies d <$> pairs).
Proof. done. Qed.

Lemma no_others d pairs : others d pairs = 0%nat → mjoin (pair_proxies d <$> pairs) = [].
Proof.
  induction pairs as [|p pairs IH]; [done|]. rewrite others_cons, pairs_cons. intros H.
  unfold pair_proxies at 1. destruct (is_other _); [done|]. simpl. by apply IH.
Qed.

Lemma load_daemon_attrs_spec d cnf b pairs l :
  Forall (λ p, is_Some (scalar (yaml_get_node d p.1))) pairs → daemon_is cnf l →
  (others d pairs <= 1)%nat → (others d pairs = 1%nat → l = []) →
  ∃ cnf', load_daemon_attrs d cnf b pairs = Done (Some cnf', b && forallb (λ p, negb (pair_off d p)) pairs) ∧
    daemon_is cnf' (l ++ take (ZM_PROXY_MAX_PROXIES - 1)
      (zcnf_parse_proxy <$> mjoin (pair_proxies d <$> pairs))).
Proof.
  intros Hs. revert cnf b l. induction Hs as [|[key value] pairs [k Hk] Hs IH]; intros cnf b l Hd Ho Hl.
  - exists cnf. simpl. by rewrite andb_true_r, app_nil_r.
  - rewrite others_cons in Ho, Hl. cbn [fst snd] in *. cbn [load_daemon_attrs]. rewrite Hk.
    destruct (load_daemon_attr_spec d cnf b k key value l Hk Hd) as (cnf1 & E1 & H1).
    { intros Hi. rewrite <- Hk in Hi. apply Hl. rewrite Hi in Ho |- *. lia. }
    rewrite E1, pairs_cons. cbn [mbind res_bind forallb].
    destruct (is_other (scalar (yaml_get_node d key))) eqn:Ei.
    + assert (others d pairs = 0%nat) as Hz by lia.
      destruct (IH cnf1 (b && negb (pair_off d (key, value))) _ H1) as (cnf2 & E2 & H2); [lia|lia|].
      exists cnf2. rewrite E2. split; [by rewrite andb_assoc|].
      rewrite (no_others _ _ Hz) in H2 |- *. rewrite app_nil_r. simpl in H2. by rewrite app_nil_r in H2.
    + destruct (IH cnf1 (b && negb (pair_off d (key, value))) l) as (cnf2 & E2 & H2); [|lia|by apply Hl|].
      { unfold pair_proxies in H1. cbn [fst] in H1. rewrite Ei in H1. simpl in H1. by rewrite app_nil_r in H1. }
      exists cnf2. rewrite E2. split; [by rewrite andb_assoc|].
      unfold pair_proxies at 1. cbn [fst]. rewrite Ei. exact H2.
Qed.

(** A configuration of the daemon whose keys are scalars and that lists the other
    proxies at most once is loaded without leaving the array of 64 proxies: its used cells
    are the first 63 proxies of the list, in order, and the default proxy unless it is
    switched off.  (A second list starts where the first one stopped and its bound is
    never met again.) *)
Theorem zcnf_daemon_load_proxies (fs : files) d pairs :
  zcnf_load fs ZM_PROXY_CNF_FILE = Some d → yaml_get_node d 1 = Some (YMapping pairs) →
  Forall (λ p, is_Some (scalar (yaml_get_node d p.1))) pairs → (others d pairs <= 1)%nat →
  ∃ cnf, zcnf_daemon_load fs = Done (Some cnf) ∧
    length (zd_proxies cnf) = ZM_PROXY_MAX_PROXIES ∧ (zd_n cnf <= ZM_PROXY_MAX_PROXIES)%nat ∧
    take (zd_n cnf) (zd_proxies cnf) =
      take (ZM_PROXY_MAX_PROXIES - 1) (zcnf_parse_proxy <$> mjoin (pair_proxies d <$> pairs)) ++
      (if forallb (λ p, negb (pair_off d p)) pairs
       then [ZProxy ZM_PROXY_DEFAULT_ADDR ZM_PROXY_DEFAULT_PORT] else []).
Proof.
  intros Hl Hr Hs Ho. unfold zcnf_daemon_load. rewrite Hl, Hr.
  assert (daemon_is new_daemon []) as Hnew by (split; [by split_and!|simpl; lia]).
  destruct (load_daemon_attrs_spec d new_daemon true pairs [] Hs Hnew Ho) as (cnf & E & [Hp Hroom]);
    [done|].
  rewrite E. cbn [mbind res_bind andb app] in *. set (l := take _ _) in *. clearbody l.
  pose proof Hp as (Hlen & Hn & Ht). destruct (forallb _ _).
  - cbn [deref mbind res_bind]. unfold add_default_proxy.
    destruct (proxies_are_snoc _ _ _ (ZProxy ZM_PROXY_DEFAULT_ADDR ZM_PROXY_DEFAULT_PORT) Hp)
      as [[x Hx] (H1 & H2 & H3)]; [unfold ZM_PROXY_MAX_PROXIES in *; lia|].
    rewrite Hx. eexists. split; [done|]. cbn [zd_n zd_proxies]. split_and!; try done.
    unfold ZM_PROXY_MAX_PROXIES in *. lia.
  - eexists. split; [done|]. rewrite app_nil_r. split_and!; try done.
    unfold ZM_PROXY_MAX_PROXIES in *. lia.
Qed.
End app.

(** ** Sample files *)

Section samples.
#[local] Existing Instance ListYaml.list_yaml.
#[local] Existing Instance ListYaml.list_yaml_laws.

Definition one_file (path : bytes) (d : list yaml_node) : files (Y := ListYaml.list_yaml) := {[path := d]}.

Definition sample_home (uid : Z) : option bytes := Some (str "/home/u").
Definition sample_state : zcnf_state_t :=
  ZState [ZStateApp (Some (str "/srv/a")) 4711 false; ZStateApp (Some (str "/srv/b")) 0 true] 1000.

Lemma zcnf_state_save_load_witness :
  ∃ fs', zcnf_state_save sample_home (λ _, true) ∅ sample_state = Done fs' ∧
         zcnf_state_load sample_home (λ _, true) fs' 1000 = Done (Some sample_state, fs').
Proof.
  destruct (zcnf_state_save_load sample_home (λ _, true) ∅ sample_state (str "/home/u/.zimr/state")
    [str "/srv/a"; str "/srv/b"]) as (fs' & H1 & H2 & _).
  - vm_compute. reflexivity.
  - reflexivity.
  - repeat constructor; simpl; lia.
  - exists fs'. exact (conj H1 H2).
Defined.

(** websites: [ { url: a.org, public directories: [ www ], modules: [ { auth: [ x, y ] } ],
    ignore: [ ] } ]; proxy: 10.0.0.1:81. *)
Definition sample_app_doc : list yaml_node :=
  [YMapping [(2, 3); (4, 5)]; YScalar (str "websites"); YSequence [6]; YScalar (str "proxy");
   YScalar (str "10.0.0.1:81"); YMapping [(7, 8); (9, 10); (12, 13); (19, 20)];
   YScalar (str "url"); YScalar (str "a.org"); YScalar (str "public directories"); YSequence [11];
   YScalar (str "www"); YScalar (str "modules"); YSequence [14]; YMapping [(15, 16)];
   YScalar (str "auth"); YSequence [17; 18]; YScalar (str "x"); YScalar (str "y");
   YScalar (str "ignore"); YSequence []].

Definition sample_website : zcnf_website_t :=
  ZWebsite (Some (str "a.org")) None None [str "www"] [ZModule (str "auth") [str "x"; str "y"]] [].

Ltac denote :=
  repeat match goal with
  | |- denotes _ _ (TScalar _) => apply denotes_scalar; reflexivity
  | |- denotes _ _ (TSequence _) => eapply denotes_sequence; [reflexivity|]
  | |- denotes _ _ (TMapping _) => eapply denotes_mapping; [reflexivity|]
  | |- denotes _ _ (module_tree _) => unfold module_tree; simpl zm_argv; cbv iota
  | |- denotes _ _ (scalars_tree _) => unfold scalars_tree
  | |- Forall2 _ _ [] => constructor
  | |- Forall2 _ _ _ => cbn [fmap list_fmap]; constructor
  | |- _ ∧ _ => split; cbn [fst snd]
  end.

Lemma zcnf_app_load_websites_witness :
  zcnf_app_load sample_home 1000 (one_file (str "zimr.webapp") sample_app_doc) None =
  Done (Some (ZApp [sample_website] (ZProxy (str "10.0.0.1") 81))).
Proof.
  apply (zcnf_app_load_websites (Y := ListYaml.list_yaml) sample_home 1000 (one_file (str "zimr.webapp") sample_app_doc) None
    (str "zimr.webapp") sample_app_doc [sample_website] (str "10.0.0.1:81")).
  - reflexivity.
  - reflexivity.
  - cbn [fmap list_fmap]. unfold website_tree. cbn [sample_website zw_url zw_redirect_url zw_ip_address
      zw_pubdirs zw_modules zw_ignore opt_attr app]. denote.
  - repeat constructor.
Defined.

(** default proxy: on; other proxies: [ 10.0.0.1:81, 10.0.0.2 ]. *)
Definition sample_daemon_doc : list yaml_node :=
  [YMapping [(2, 3); (4, 5)]; YScalar (str "default proxy"); YScalar (str "on");
   YScalar (str "other proxies"); YSequence [6; 7]; YScalar (str "10.0.0.1:81"); YScalar (str "10.0.0.2")].

Lemma zcnf_daemon_load_proxies_witness :
  ∃ cnf, zcnf_daemon_load (one_file ZM_PROXY_CNF_FILE sample_daemon_doc) = Done (Some cnf) ∧
    take (zd_n cnf) (zd_proxies cnf) =
    [ZProxy (str "10.0.0.1") 81; ZProxy (str "10.0.0.2") 7672; ZProxy (str "127.0.0.1") 7672].
Proof.
  destruct (zcnf_daemon_load_proxies (Y := ListYaml.list_yaml) (one_file ZM_PROXY_CNF_FILE sample_daemon_doc) sample_daemon_doc
    [(2, 3); (4, 5)]) as (cnf & E & _ & _ & H).
  - reflexivity.
  - reflexivity.
  - repeat (apply Forall_cons; split; [eexists; reflexivity|]). constructor.
  - vm_compute. lia.
  - exists cnf. split; [exact E|]. rewrite H. vm_compute. reflexivity.
Defined.

(** A second list of proxies writes behind the array. *)
Definition two_lists_doc : list yaml_node :=
  [YMapping [(2, 3); (2, 4)]; YScalar (str "other proxies"); YSequence (replicate 63 5); YSequence [5; 5];
   YScalar (str "10.0.0.1:81")].

Lemma zcnf_daemon_two_lists_overflow :
  zcnf_daemon_load (one_file ZM_PROXY_CNF_FILE two_lists_doc) = Fault OutOfBounds.
Proof. vm_compute. reflexivity. Qed.

(** A key that is no scalar frees the configuration, and the default proxy is stored in it. *)
Lemma zcnf_daemon_bad_key_crash :
  zcnf_daemon_load (one_file ZM_PROXY_CNF_FILE [YMapping [(2, 3)]; YSequence []; YScalar []]) = Fault NullDeref.
Proof. vm_compute. reflexivity. Qed.

(** An application without a path in the state file makes every later lookup and save
    follow a NULL pointer. *)
Definition no_path_doc : list yaml_node :=
  [YMapping [(2, 3)]; YScalar (str "applications"); YSequence [4]; YMapping []].

Lemma zcnf_state_no_path_crash :
  ∃ st, zcnf_state_load sample_home (λ _, true) (one_file (str "/home/u/.zimr/state") no_path_doc) 1000
        = Done (Some st, (one_file (str "/home/u/.zimr/state") no_path_doc)) ∧
    zcnf_state_app_is_running st (str "/srv/a") = Fault NullDeref ∧
    zcnf_state_set_app st (str "/srv/a") 1 false = Fault NullDeref.
Proof. eexists. split; [reflexivity|]. split; reflexivity. Qed.
End samples.
