(* ===== verification/Effect.v ===== *)
(** Computations with a state of their own that call the outside: the monad of the
    handlers of zimrd and of the web application.

    A computation has the state [S] that the C file keeps, and a world [W] that answers
    its calls [C] (of other components, of the kernel, of the file system); it gives the
    list of the calls that it made, in order. *)

From S2P Require Export Prelude.

(** ** The monad *)

Definition em (S W C A : Type) : Type := S → W → res (A * S * W * list C).

#[export] Instance em_ret S W C : MRet (em S W C) := fun A a s w => Done (a, s, w, []).
#[export] Instance em_bind S W C : MBind (em S W C) := fun A B k m s w =>
  match m s w with
  | Done (a, s', w', l) =>
      match k a s' w' with Done (b, s'', w'', l') => Done (b, s'', w'', l ++ l') | Fault f => Fault f end
  | Fault f => Fault f
  end.

Section operations.
Context {S W C : Type}.

Definition pure {A} (r : res A) : em S W C A :=
  fun s w => match r with Done a => Done (a, s, w, []) | Fault f => Fault f end.
Definition get_state : em S W C S := fun s w => Done (s, s, w, []).
Definition put_state (s : S) : em S W C unit := fun _ w => Done (tt, s, w, []).
Definition only_if (b : bool) (m : em S W C unit) : em S W C unit := if b then m else mret tt.

Context {R : Type} (ext : C → W → R * W).
Definition ask (c : C) : em S W C R := fun s w => let '(a, w) := ext c w in Done (a, s, w, [c]).
Definition tell (c : C) : em S W C unit := _ ← ask c; mret tt.
End operations.

(** ** Total correctness *)

Definition ewp {S W C A} (m : em S W C A) (s : S) (w : W) (P : A → S → W → list C → Prop) : Prop :=
  ∃ a s' w' l, m s w = Done (a, s', w', l) ∧ P a s' w' l.

Section rules.
Context {S W C : Type}.
Implicit Types (s : S) (w : W).

Lemma ewp_bind {A B} (m : em S W C A) (k : A → em S W C B) s w P :
  ewp m s w (λ a s1 w1 l, ewp (k a) s1 w1 (λ b s2 w2 l2, P b s2 w2 (l ++ l2))) → ewp (m ≫= k) s w P.
Proof.
  intros (a & s1 & w1 & l & E & b & s2 & w2 & l2 & E2 & HP). exists b, s2, w2, (l ++ l2).
  split; [|done]. unfold mbind, em_bind. by rewrite E, E2.
Qed.

Lemma ewp_ret {A} (a : A) s w (P : A → S → W → list C → Prop) : P a s w [] → ewp (mret a) s w P.
Proof. intros H. by exists a, s, w, []. Qed.

Lemma ewp_mono {A} (m : em S W C A) s w (P Q : A → S → W → list C → Prop) :
  ewp m s w P → (∀ a s' w' l, P a s' w' l → Q a s' w' l) → ewp m s w Q.
Proof. intros (a & s1 & w1 & l & E & HP) H. exists a, s1, w1, l. auto. Qed.

Lemma ewp_pure {A} (r : res A) a s w (P : A → S → W → list C → Prop) :
  r = Done a → P a s w [] → ewp (pure r) s w P.
Proof. intros -> H. by exists a, s, w, []. Qed.

Lemma ewp_get s w (P : S → S → W → list C → Prop) : P s s w [] → ewp get_state s w P.
Proof. intros H. by exists s, s, w, []. Qed.

Lemma ewp_put s' s w (P : unit → S → W → list C → Prop) : P tt s' w [] → ewp (put_state s') s w P.
Proof. intros H. by exists tt, s', w, []. Qed.

(** A computation that makes no call drops out. *)
Lemma ewp_quiet {A} (m : em S W C A) s w a s' :
  ewp m s w (λ a' s1 w1 l, a' = a ∧ s1 = s' ∧ w1 = w ∧ l = []) → m s w = Done (a, s', w, []).
Proof. by intros (? & ? & ? & ? & E & -> & -> & -> & ->). Qed.

Lemma em_bind_quiet {A B} (m : em S W C A) (k : A → em S W C B) s w a s' :
  m s w = Done (a, s', w, []) → (m ≫= k) s w = k a s' w.
Proof. intros E. unfold mbind, em_bind. rewrite E. by destruct (k a s' w) as [[[[??]?]?]|]. Qed.

Lemma em_bind_silent {A B} (m : em S W C A) (k : A → em S W C B) s w a s' w' :
  m s w = Done (a, s', w', []) → (m ≫= k) s w = k a s' w'.
Proof. intros E. unfold mbind, em_bind. rewrite E. by destruct (k a s' w') as [[[[??]?]?]|]. Qed.

Context {R : Type} (ext : C → W → R * W).

Lemma ewp_ask c s w (P : R → S → W → list C → Prop) :
  P (fst (ext c w)) s (snd (ext c w)) [c] → ewp (ask ext c) s w P.
Proof. intros H. unfold ewp, ask. destruct (ext c w) as [a w']. by exists a, s, w', [c]. Qed.

(** A call, and then a fault. *)
Lemma em_tell_fault {A} c (k : unit → em S W C A) s w f :
  k tt s (snd (ext c w)) = Fault f → (tell ext c ≫= k) s w = Fault f.
Proof. unfold tell, ask, mbind, em_bind, mret, em_ret. destruct (ext c w) as [r w']. cbn [snd]. by intros ->. Qed.

Lemma ewp_tell c s w (P : unit → S → W → list C → Prop) :
  P tt s (snd (ext c w)) [c] → ewp (tell ext c) s w P.
Proof. intros H. unfold tell. apply ewp_bind, ewp_ask, ewp_ret. exact H. Qed.
End rules.

(** ** Inversion of a run *)

Section inversion.
Context {S W C : Type}.
Implicit Types (s : S) (w : W).

Lemma em_bind_inv {A B} (m : em S W C A) (k : A → em S W C B) s w b s' w' l :
  (m ≫= k) s w = Done (b, s', w', l) →
  ∃ a s1 w1 l1 l2, m s w = Done (a, s1, w1, l1) ∧ k a s1 w1 = Done (b, s', w', l2) ∧ l = l1 ++ l2.
Proof.
  unfold mbind, em_bind. destruct (m s w) as [[[[a s1] w1] l1]|]; [|done].
  destruct (k a s1 w1) as [[[[b2 s2] w2] l2]|] eqn:E; [|done]. intros [= <- <- <- <-].
  by exists a, s1, w1, l1, l2.
Qed.

Context {R : Type} (ext : C → W → R * W).

Lemma ask_inv c s w a s' w' l : ask ext c s w = Done (a, s', w', l) → s' = s.
Proof. unfold ask. destruct (ext c w). by intros [= _ <- _ _]. Qed.
End inversion.

(** ** What holds after a run *)

(** Partial correctness: every run without a fault ends in [Q]. *)
Definition after {S W C A} (m : em S W C A) (s : S) (w : W) (Q : A → S → W → list C → Prop) : Prop :=
  ∀ a s' w' l, m s w = Done (a, s', w', l) → Q a s' w' l.

Section after.
Context {S W C : Type}.
Implicit Types (s : S) (w : W).

Lemma after_ewp {A} (m : em S W C A) s w Q : ewp m s w Q → after m s w Q.
Proof. intros (a & s1 & w1 & l & E & H) a' s' w' l' E'. rewrite E in E'. by injection E' as <- <- <- <-. Qed.

Lemma after_bind {A B} (m : em S W C A) (k : A → em S W C B) s w Q :
  after m s w (λ a s1 w1 l, after (k a) s1 w1 (λ b s2 w2 l2, Q b s2 w2 (l ++ l2))) → after (m ≫= k) s w Q.
Proof.
  intros H b s2 w2 l E. apply em_bind_inv in E as (a & s1 & w1 & l1 & l2 & E1 & E2 & ->). by eapply H.
Qed.

Lemma after_mono {A} (m : em S W C A) s w (P Q : A → S → W → list C → Prop) :
  after m s w P → (∀ a s' w' l, P a s' w' l → Q a s' w' l) → after m s w Q.
Proof. intros H HPQ a s' w' l E. by apply HPQ, H. Qed.

Lemma after_pure {A} (r : res A) s w (Q : A → S → W → list C → Prop) :
  (∀ a, r = Done a → Q a s w []) → after (pure r) s w Q.
Proof. intros H a s' w' l. unfold pure. destruct r; [|done]. intros [= <- <- <- <-]. by apply H. Qed.

Lemma after_ret {A} (a : A) s w (Q : A → S → W → list C → Prop) : Q a s w [] → after (mret a) s w Q.
Proof. intros H a' s' w' l E. by injection E as <- <- <- <-. Qed.
End after.

(** ** Computations that keep an invariant of the state *)

Definition keeps {S W C A} (I : S → Prop) (m : em S W C A) : Prop :=
  ∀ s w a s' w' l, I s → m s w = Done (a, s', w', l) → I s'.

Section keeps.
Context {S W C : Type} (I : S → Prop).

Lemma keeps_bind {A B} (m : em S W C A) (k : A → em S W C B) :
  keeps I m → (∀ a, keeps I (k a)) → keeps I (m ≫= k).
Proof.
  intros Hm Hk s w b s' w' l Hs H. apply em_bind_inv in H as (a & s1 & w1 & l1 & l2 & E & H & _).
  eapply Hk; [|exact H]. by eapply Hm.
Qed.

Lemma keeps_ret {A} (a : A) : keeps I (mret a : em S W C A).
Proof. intros s w b s' w' l Hs H. by injection H as <- <- <- <-. Qed.

Lemma keeps_pure {A} (r : res A) : keeps I (pure r : em S W C A).
Proof. intros s w b s' w' l Hs H. unfold pure in H. destruct r; [|done]. by injection H as <- <- <- <-. Qed.

Lemma keeps_get : keeps I (get_state : em S W C S).
Proof. intros s w b s' w' l Hs H. by injection H as <- <- <- <-. Qed.

Lemma keeps_put s' : I s' → keeps I (put_state s' : em S W C unit).
Proof. intros Hs' s w b s2 w' l _ H. by injection H as _ <- _ _. Qed.

Lemma keeps_only_if b (m : em S W C unit) : keeps I m → keeps I (only_if b m).
Proof. intros H. destruct b; [done|apply keeps_ret]. Qed.

Context {R : Type} (ext : C → W → R * W).

Lemma keeps_ask c : keeps I (ask ext c).
Proof. intros s w b s' w' l Hs H. by apply ask_inv in H as ->. Qed.

Lemma keeps_tell c : keeps I (tell ext c).
Proof. apply keeps_bind; [apply keeps_ask | intros; apply keeps_ret]. Qed.
End keeps.

#[export] Hint Resolve keeps_ret keeps_pure keeps_get keeps_ask keeps_tell : zimr.

(** ** Computations that make only some calls *)

Definition emits {S W C A} (P : C → Prop) (m : em S W C A) : Prop :=
  ∀ s w a s' w' l, m s w = Done (a, s', w', l) → Forall P l.

Section emits.
Context {S W C : Type} (P : C → Prop).

Lemma emits_bind {A B} (m : em S W C A) (k : A → em S W C B) :
  emits P m → (∀ a, emits P (k a)) → emits P (m ≫= k).
Proof.
  intros Hm Hk s w b s' w' l H. apply em_bind_inv in H as (a & s1 & w1 & l1 & l2 & E & H & ->).
  apply Forall_app. split; [by eapply Hm | by eapply Hk].
Qed.

Lemma emits_ret {A} (a : A) : emits P (mret a : em S W C A).
Proof. intros s w b s' w' l H. by injection H as <- <- <- <-. Qed.

Lemma emits_pure {A} (r : res A) : emits P (pure r : em S W C A).
Proof. intros s w b s' w' l H. unfold pure in H. destruct r; [|done]. by injection H as <- <- <- <-. Qed.

Lemma emits_get : emits P (get_state : em S W C S).
Proof. intros s w b s' w' l H. by injection H as <- <- <- <-. Qed.

Lemma emits_put s' : emits P (put_state s' : em S W C unit).
Proof. intros s w b s2 w' l H. by injection H as _ <- _ <-. Qed.

Lemma emits_only_if b (m : em S W C unit) : emits P m → emits P (only_if b m).
Proof. intros H. destruct b; [done|apply emits_ret]. Qed.

Context {R : Type} (ext : C → W → R * W).

Lemma emits_ask c : P c → emits P (ask ext c : em S W C R).
Proof. intros Hc s w b s' w' l H. unfold ask in H. destruct (ext c w). injection H as <- <- <- <-. by constructor. Qed.

Lemma emits_tell c : P c → emits P (tell ext c : em S W C unit).
Proof. intros Hc. apply emits_bind; [by apply emits_ask | intros; apply emits_ret]. Qed.
End emits.

#[export] Hint Resolve emits_ret emits_pure emits_get emits_put : zimr.

Lemma after_emits {S W C A} (P : C → Prop) (m : em S W C A) s w (Q : A → S → W → Prop) :
  after m s w (λ a s' w' _, Q a s' w') → emits P m → after m s w (λ a s' w' l, Q a s' w' ∧ Forall P l).
Proof. intros HQ HP a s' w' l E. split; [by eapply HQ|by eapply HP]. Qed.

(** Takes a computation apart; what is left are the calls. *)
Ltac emitting :=
  repeat first
    [ progress eauto 2 with zimr
    | apply emits_only_if
    | apply emits_tell
    | apply emits_ask
    | apply emits_bind; [|intros ?]
    | match goal with
      | |- @emits _ _ _ _ _ (if ?b then _ else _) => destruct b
      | |- @emits _ _ _ _ _ (match ?o with Some _ => _ | None => _ end) => destruct o
      | |- @emits _ _ _ _ _ (let '(_, _) := ?x in _) => destruct x
      end ].

(** ** Computations that only read *)

(** The computation changes nothing, and its value [a] has the property [F a s]. *)
Definition reads {S W C A} (m : em S W C A) (F : A → S → Prop) : Prop :=
  ∀ s w a s' w' l, m s w = Done (a, s', w', l) → s' = s ∧ w' = w ∧ l = [] ∧ F a s.

Section reads.
Context {S W C : Type}.

Lemma reads_bind {A B} (m : em S W C A) (k : A → em S W C B) F G :
  reads m F → (∀ a, reads (k a) (λ b s, F a s → G b s)) → reads (m ≫= k) G.
Proof.
  intros Hm Hk s w b s' w' l H. apply em_bind_inv in H as (a & s1 & w1 & l1 & l2 & E1 & E2 & ->).
  apply Hm in E1 as (-> & -> & -> & HF). apply Hk in E2 as (-> & -> & -> & HG). split_and!; [done..|by apply HG].
Qed.

Lemma reads_ret {A} (a : A) (F : A → S → Prop) : (∀ s, F a s) → reads (mret a : em S W C A) F.
Proof. intros H s w b s' w' l E. injection E as <- <- <- <-. by split_and!. Qed.

Lemma reads_pure {A} (r : res A) (F : A → S → Prop) :
  (∀ a s, r = Done a → F a s) → reads (pure r : em S W C A) F.
Proof.
  intros H s w b s' w' l E. unfold pure in E. destruct r; [|done]. injection E as <- <- <- <-.
  split_and!; try done. by apply H.
Qed.

Lemma reads_get_state : reads (get_state : em S W C S) (λ a s, a = s).
Proof. intros s w b s' w' l E. injection E as <- <- <- <-. by split_and!. Qed.

Lemma reads_mono {A} (m : em S W C A) (F G : A → S → Prop) :
  reads m F → (∀ a s, F a s → G a s) → reads m G.
Proof. intros H HG s w a s' w' l E. apply H in E as (-> & -> & -> & HF). split_and!; try done. by apply HG. Qed.
End reads.

(** ** Triples with a history *)

(** The assertions speak of the state, the world and the calls that have been made so far.
    The triple is partial: it says nothing of a run that ends in a fault. *)
Definition hoare {S W C A} (P : S → W → list C → Prop) (m : em S W C A) (Q : A → S → W → list C → Prop) : Prop :=
  ∀ s w h a s' w' l, P s w h → m s w = Done (a, s', w', l) → Q a s' w' (h ++ l).

(** What holds before and afterwards. *)
Abbreviation stays P m := (hoare P m (λ _, P)).

Section hoare.
Context {S W C : Type}.
Implicit Types (P : S → W → list C → Prop).

Lemma hoare_bind {A B} P (m : em S W C A) (k : A → em S W C B) R Q :
  hoare P m R → (∀ a, hoare (R a) (k a) Q) → hoare P (m ≫= k) Q.
Proof.
  intros Hm Hk s w h b s' w' l HP H. apply em_bind_inv in H as (a & s1 & w1 & l1 & l2 & E1 & E2 & ->).
  rewrite app_assoc. eapply Hk; [|exact E2]. by eapply Hm.
Qed.

Lemma hoare_mono {A} P P' (m : em S W C A) Q Q' :
  hoare P m Q → (∀ s w h, P' s w h → P s w h) → (∀ a s w h, Q a s w h → Q' a s w h) → hoare P' m Q'.
Proof. intros H HP HQ s w h a s' w' l Hs E. eapply HQ, H; [by apply HP|exact E]. Qed.

Lemma hoare_post {A} P (m : em S W C A) Q Q' :
  hoare P m Q → (∀ a s w h, Q a s w h → Q' a s w h) → hoare P m Q'.
Proof. intros H HQ. by eapply hoare_mono; [exact H|..]. Qed.

Lemma hoare_ret {A} P (a : A) Q : (∀ s w h, P s w h → Q a s w h) → hoare P (mret a) Q.
Proof. intros H s w h b s' w' l HP E. injection E as <- <- <- <-. rewrite app_nil_r. by apply H. Qed.

Lemma hoare_pure {A} P (r : res A) Q :
  (∀ a s w h, r = Done a → P s w h → Q a s w h) → hoare P (pure r) Q.
Proof.
  intros H s w h b s' w' l HP E. unfold pure in E. destruct r; [|done]. injection E as <- <- <- <-.
  rewrite app_nil_r. by apply H.
Qed.

Lemma hoare_get P Q : (∀ s w h, P s w h → Q s s w h) → hoare P get_state Q.
Proof. intros H s w h b s' w' l HP E. injection E as <- <- <- <-. rewrite app_nil_r. by apply H. Qed.

Lemma hoare_put P s1 Q : (∀ s w h, P s w h → Q tt s1 w h) → hoare P (put_state s1) Q.
Proof. intros H s w h [] s' w' l HP E. injection E as <- <- <-. rewrite app_nil_r. by eapply H. Qed.

(** A run from a state that is known. *)
Lemma hoare_at {A} P (m : em S W C A) Q :
  (∀ s w h, P s w h → hoare (λ s' w' h', s' = s ∧ w' = w ∧ h' = h) m Q) → hoare P m Q.
Proof. intros H s w h a s' w' l HP E. by eapply H. Qed.

(** A fact that the assertion gives. *)
Lemma hoare_with (F : Prop) {A} P (m : em S W C A) Q :
  (∀ s w h, P s w h → F) → (F → hoare P m Q) → hoare P m Q.
Proof. intros HF H s w h a s' w' l HP E. eapply H; [by eapply HF|exact HP|exact E]. Qed.

(** What is read from the state comes with a fact about it. *)
Lemma hoare_reads {A} P (m : em S W C A) F Q :
  reads m F → (∀ a s w h, F a s → P s w h → Q a s w h) → hoare P m Q.
Proof.
  intros Hm H s w h a s' w' l HP E. apply Hm in E as (-> & -> & -> & HF). rewrite app_nil_r. by apply H.
Qed.

Lemma hoare_bind_reads {A B} P (m : em S W C A) (k : A → em S W C B) F Q :
  reads m F → (∀ a, hoare (λ s w h, P s w h ∧ F a s) (k a) Q) → hoare P (m ≫= k) Q.
Proof. intros Hm Hk. eapply hoare_bind; [|exact Hk]. eapply hoare_reads; [exact Hm|]. by split. Qed.

Lemma stays_bind {A B} P (m : em S W C A) (k : A → em S W C B) :
  stays P m → (∀ a, stays P (k a)) → stays P (m ≫= k).
Proof. intros Hm Hk. by eapply hoare_bind. Qed.

Lemma stays_only_if P b (m : em S W C unit) : stays P m → stays P (only_if b m).
Proof. intros H. destruct b; [done|by apply hoare_ret]. Qed.

Lemma stays_reads {A} P (m : em S W C A) F : reads m F → stays P m.
Proof. intros Hm. by eapply hoare_reads. Qed.

Context {R : Type} (ext : C → W → R * W).

Lemma hoare_ask P c Q :
  (∀ s w h, P s w h → Q (fst (ext c w)) s (snd (ext c w)) (h ++ [c])) → hoare P (ask ext c) Q.
Proof.
  intros H s w h a s' w' l HP E. unfold ask in E. destruct (ext c w) as [r v] eqn:Ex. injection E as <- <- <- <-.
  specialize (H s w h HP). by rewrite Ex in H.
Qed.

Lemma hoare_tell P c Q :
  (∀ s w h, P s w h → Q tt s (snd (ext c w)) (h ++ [c])) → hoare P (tell ext c) Q.
Proof.
  intros H. unfold tell. apply (hoare_bind P _ _ (λ _, Q tt)); [by apply hoare_ask|]. intros a. by apply hoare_ret.
Qed.
End hoare.
