(* ===== verification/Daemon.v ===== *)
(** daemon.c and the function main of zimrd/main.c: the lock file, the life of the daemon
    process, and its command line.

    The kernel, the sockets and the other components are the outside: each call is a value
    of [call], and its answer has a value, the error number and the bytes that were read.
    A fork is one call, whose answer says in which of the two processes the computation
    goes on.  Where the source calls exit, the computation gives the exit code. *)

From Stdlib Require Import ZArith Lia String DecimalString DecimalZ.
From stdpp Require Import gmap.
From S2P Require Export Zcnf Config Website Effect.

Local Open Scope Z_scope.

(** ** State *)

Definition D_KEEPSTDIO : Z := 1.
Definition D_NOCD : Z := 2.
Definition D_NOLOCKFILE : Z := 4.
Definition D_NOLOCKCHECK : Z := 8.

Definition SIGHUP : Z := 1.
Definition SIGINT : Z := 2.
Definition SIGQUIT : Z := 3.
Definition SIGPIPE : Z := 13.
Definition SIGTERM : Z := 15.

Definition EXIT_SUCCESS : Z := 0.
Definition EXIT_FAILURE : Z := 1.

Inductive sighandler_t := SIG_DFL | SIG_IGN | empty_sighandler | signal_handler | OtherHandler (n : nat).

(** The static variable, the functions registered with atexit (only [removelockfile]), the
    handlers of the signals, and the registry of websites. *)
Record daemon_t := DaemonState {
  is_daemon : bool;
  at_exit : nat;
  signals : gmap Z sighandler_t;
  d_sites : registry
}.

Definition put_is_daemon (v : bool) (s : daemon_t) : daemon_t := DaemonState v (at_exit s) (signals s) (d_sites s).
Definition put_at_exit (v : nat) (s : daemon_t) : daemon_t := DaemonState (is_daemon s) v (signals s) (d_sites s).
Definition put_signals (v : gmap Z sighandler_t) (s : daemon_t) : daemon_t :=
  DaemonState (is_daemon s) (at_exit s) v (d_sites s).
Definition put_sites (v : registry) (s : daemon_t) : daemon_t := DaemonState (is_daemon s) (at_exit s) (signals s) v.

Inductive call :=
| Print (text : bytes) | Syslog (text : bytes)
| OpenLock | CreatLock | ReadLock (fd n : Z) | WriteLock (fd : Z) (data : bytes) | CloseLock (fd : Z) | RemoveLock
| GetPid | Kill (pid sig : Z) | StopProc (pid : Z) | KillProc (pid : Z)
| Fork | Umask (mask : Z) | SetSid | ChdirRoot | FreopenStdio
| ZsInit (cert key : option bytes) | ZsListen (ip : bytes) (port : Z) | ZsSetRead (fd : Z)
| MsgSelect | ZsSelect | MsgNeedSelect | ZsNeedSelect | ZfdSelect.

(** The answers to the probes of stopproc and killproc are [a_probe]. *)
Record answer := Answer { a_ret : Z; a_errno : Z; a_bytes : bytes; a_probe : nat → option Z }.

Notation dm W := (em daemon_t W call).

Section daemon.
Context {W : Type} (ext : call → W → answer * W).
(** What the ten bytes of a local array hold before they are written; the version. *)
Context (stack : bytes) (ZIMR_VERSION BUILD_DATE ZIMR_WEBSITE : bytes) (strerror : Z → bytes).
#[local] Notation ask := (Effect.ask ext).
#[local] Notation tell := (Effect.tell ext).
#[local] Notation say text := (Effect.tell ext (Print text)).

Definition upd (f : daemon_t → daemon_t) : dm W unit := s ← get_state; put_state (f s).
Definition nl : bytes := [10].

(** ** The lock file *)

Definition removelockfile : dm W unit := tell RemoveLock.

Definition PIDBUF : nat := 10.

(** The descriptor stays open when the write fails. *)
Definition createlockfile : dm W bool :=
  p ← ask GetPid;
  pidbuf ← pure (strcpy_into PIDBUF (dec_string (a_ret p)));
  fd ← ask CreatLock;
  if a_ret fd =? -1 then mret false
  else
    n ← ask (WriteLock (a_ret fd) pidbuf);
    if a_ret n =? -1 then mret false
    else
      _ ← tell (CloseLock (a_ret fd));
      _ ← upd (λ s, put_at_exit (S (at_exit s)) s);
      mret true.

(** [atoi] on an array: what is left behind the number; at the end of the array it reads on. *)
Definition skip_sign (s : bytes) : bytes := match s with 45 :: s' | 43 :: s' => s' | _ => s end.
Definition atoi_array (buf : bytes) : res Z :=
  match snd (read_digits 0 (skip_sign (skip_spaces buf))) with [] => Fault OutOfBounds | _ => Done (atoi buf) end.

(** What was read stands in front of what was in the array. *)
Definition readlockfile : dm W Z :=
  fd ← ask OpenLock;
  if a_ret fd =? -1 then mret 0
  else
    n ← ask (ReadLock (a_ret fd) (Z.of_nat PIDBUF));
    if a_ret n =? -1 then mret 0
    else
      let got := take PIDBUF (a_bytes n) in
      pure (atoi_array (got ++ drop (length got) stack)).

(** ** The process *)

Definition daemon_redirect_stdio : dm W unit := tell FreopenStdio.

Definition daemon_init (flags : Z) : dm W bool :=
  s ← get_state;
  if is_daemon s then _ ← say (str "failed: process already daemonized." ++ nl); mret false
  else
    pid ← (if negb (FL_ISSET flags D_NOLOCKFILE) && negb (FL_ISSET flags D_NOLOCKCHECK) then readlockfile else mret 0);
    if pid =? 0 then mret true
    else
      k ← ask (Kill pid 0);
      if a_ret k =? 0 then _ ← say (str "failed: daemon already running." ++ nl); mret false
      else _ ← say (str "warning: previous daemon did not clean up lockfile on exit." ++ nl); mret true.

(** [signal] with the empty handler, which is taken back unless the signal had the default. *)
Definition handle_default (sig : Z) : dm W unit :=
  s ← get_state;
  let prev := default SIG_DFL (signals s !! sig) in
  _ ← upd (λ s, put_signals (<[sig := empty_sighandler]> (signals s)) s);
  match prev with
  | SIG_DFL => mret tt
  | _ => upd (λ s, put_signals (<[sig := prev]> (signals s)) s)
  end.

(** [None] when this is the parent, which exits with success. *)
Definition daemon_detach (flags : Z) : dm W (option bool) :=
  _ ← say (str " * starting daemon...");
  _ ← handle_default SIGHUP;
  _ ← handle_default SIGTERM;
  _ ← handle_default SIGINT;
  _ ← handle_default SIGQUIT;
  pid ← ask Fork;
  if a_ret pid <? 0 then mret (Some false)
  else if 0 <? a_ret pid then mret None
  else
    _ ← tell (Umask 0);
    sid ← ask SetSid;
    if a_ret sid <? 0 then mret (Some false)
    else
      cd ← (if FL_ISSET flags D_NOCD then mret 0 else r ← ask ChdirRoot; mret (a_ret r));
      if cd <? 0 then mret (Some false)
      else
        ok ← (if FL_ISSET flags D_NOLOCKFILE then mret true else createlockfile);
        if negb ok then _ ← say (str "failed: could not set lockfile." ++ nl); mret (Some false)
        else
          _ ← upd (put_is_daemon true);
          _ ← say (str "started." ++ nl);
          _ ← only_if (negb (FL_ISSET flags D_KEEPSTDIO)) daemon_redirect_stdio;
          mret (Some true).

(** The result of stopproc or killproc, and errno after it. *)
Definition stop_with (c : call) (proc : bool → (nat → option Z) → res (bool * option Z * list Z)) : dm W (bool * Z) :=
  a ← ask c;
  '(ok, e, _) ← pure (proc (a_ret a =? 0) (a_probe a));
  mret (ok, default (a_errno a) e).

Definition daemon_stop (force : bool) : dm W bool :=
  pid ← readlockfile;
  _ ← say (str " * stopping daemon...");
  if pid =? 0 then _ ← say (str "failed: no daemon running" ++ nl); mret false
  else
    '(ok, e) ← stop_with (StopProc pid) stopproc;
    if ok : bool then _ ← say (str "stopped." ++ nl); mret true
    else if e =? ESRCH then _ ← say (str "warning: " ++ strerror e ++ nl); mret true
    else
      '(killed, e) ← (if force then stop_with (KillProc pid) killproc else mret (false, e));
      if negb killed then _ ← say (str "failed: " ++ strerror e ++ nl); mret false
      else
        _ ← only_if force (say (str "force "));
        _ ← say (str "stopped." ++ nl);
        mret true.

(** ** The command line *)

Definition print_usage : dm W unit :=
  _ ← say (str "Zimr Daemon " ++ ZIMR_VERSION ++ str " (" ++ BUILD_DATE ++ str ") - " ++ ZIMR_WEBSITE ++ nl);
  say (nl ++ str "Usage: zimrd [OPTIONS] {start|stop|restart}" ++ nl ++
       str "	-h --help" ++ nl ++ str "	--no-daemon" ++ nl ++ str "	--no-lockfile" ++ nl ++ str "	--force" ++ nl ++ nl).

Record options := Options { make_daemon : bool; daemon_flags : Z; force_stop : bool }.

(** The options in front of the command, and what follows them; [None] when the usage
    was printed. *)
Fixpoint parse_options (o : options) (argv : list bytes) : dm W (option (options * list bytes)) :=
  match argv with
  | [] => mret (Some (o, []))
  | arg :: rest =>
      if negb (char_at arg 0 =? 45) then mret (Some (o, argv))
      else if strcmp_eq arg (str "--no-daemon") then
        parse_options (Options false (daemon_flags o) (force_stop o)) rest
      else if strcmp_eq arg (str "--force") then
        parse_options (Options (make_daemon o) (Z.lor (daemon_flags o) D_NOLOCKCHECK) true) rest
      else if strcmp_eq arg (str "--no-lockfile") then
        parse_options (Options (make_daemon o) (Z.lor (daemon_flags o) D_NOLOCKFILE) (force_stop o)) rest
      else
        _ ← only_if (negb (strcmp_eq arg (str "--help")) && negb (strcmp_eq arg (str "-h")))
              (say (nl ++ str "Unknown Option: " ++ arg ++ nl));
        _ ← print_usage;
        mret None
  end.

(** The command; an exit code when the program is to end. *)
Definition run_command (o : options) (cmd : bytes) : dm W (option Z) :=
  if strcmp_eq cmd (str "start") then mret None
  else if strcmp_eq cmd (str "stop") then
    ok ← daemon_stop (force_stop o); mret (Some (if ok : bool then EXIT_SUCCESS else EXIT_FAILURE))
  else if strcmp_eq cmd (str "restart") then
    ok ← daemon_stop (force_stop o); mret (if ok : bool then None else Some EXIT_FAILURE)
  else
    _ ← say (str "Error: Unknown Command: " ++ cmd ++ nl ++ nl);
    _ ← print_usage;
    mret (Some 0).

(** ** The daemon *)

(** One socket for each proxy of the configuration; [false] when one fails. *)
Fixpoint listen_all (proxies : list zcnf_proxy_t) : dm W bool :=
  match proxies with
  | [] => mret true
  | p :: proxies =>
      s ← ask (ZsListen (proxy_ip p) (proxy_port p));
      let at_ := proxy_ip p ++ str ":" ++ dec_string (proxy_port p) in
      if a_ret s =? -1 then _ ← say (str "Proxy failed on " ++ at_ ++ nl); mret false
      else
        _ ← tell (ZsSetRead (a_ret s));
        _ ← say (str " * started listening on " ++ at_ ++ nl);
        listen_all proxies
  end.

(** The events that can be handled without waiting. *)
Fixpoint dispatch (fuel : nat) : dm W unit :=
  match fuel with
  | O => pure (Fault OutOfFuel)
  | S fuel =>
      _ ← tell MsgSelect;
      _ ← tell ZsSelect;
      m ← ask MsgNeedSelect;
      again ← (if a_ret m =? 0 then z ← ask ZsNeedSelect; mret (negb (a_ret z =? 0)) else mret true);
      if (again : bool) then dispatch fuel else mret tt
  end.

(** The loop that ends when nothing is watched any more. *)
Fixpoint serve (fuel : nat) : dm W unit :=
  match fuel with
  | O => pure (Fault OutOfFuel)
  | S fuel =>
      _ ← dispatch fuel;
      r ← ask ZfdSelect;
      if a_ret r =? 0 then mret tt else serve fuel
  end.

(** The label [quit]. *)
Definition quit (ret : Z) : dm W Z :=
  _ ← tell (Syslog (if ret =? EXIT_FAILURE then str "exit: failure" else str "exit: success"));
  mret ret.

Definition run_daemon (fuel : nat) (o : options) (cnf : zcnf_daemon_t) : dm W Z :=
  _ ← upd (λ s, put_signals (<[SIGPIPE := signal_handler]> (signals s)) s);
  s ← get_state;
  r ← pure (website_init (d_sites s));
  _ ← upd (put_sites r);
  _ ← tell (ZsInit (zd_ssl_cert_path cnf) (zd_ssl_key_path cnf));
  ok ← listen_all (take (zd_n cnf) (zd_proxies cnf));
  if negb ok then quit EXIT_FAILURE
  else
    let flags := FL_SET (daemon_flags o) D_KEEPSTDIO in
    d ← (if make_daemon o then daemon_detach flags else mret (Some true));
    match d with
    | None => mret EXIT_SUCCESS
    | Some false => quit EXIT_FAILURE
    | Some true =>
        _ ← daemon_redirect_stdio;
        _ ← tell (Syslog (str "initialized."));
        _ ← serve fuel;
        quit EXIT_SUCCESS
    end.

Context `{Y : Yaml} (fs : files).

Definition main_body (fuel : nat) (argv : list bytes) : dm W Z :=
  o ← parse_options (Options true 0 false) (tail argv);
  match o with
  | None => mret 0
  | Some (o, []) => _ ← print_usage; mret 0
  | Some (o, _ :: _ :: _) => _ ← say (str "Error: Invalid Command" ++ nl ++ nl); _ ← print_usage; mret 0
  | Some (o, [cmd]) =>
      code ← run_command o cmd;
      match code with
      | Some code => mret code
      | None =>
          ok ← (if make_daemon o then daemon_init (daemon_flags o) else mret true);
          if negb ok then mret 0
          else
            cnf ← pure (zcnf_daemon_load fs);
            match cnf with
            | None => _ ← say (str "failed to load config." ++ nl); mret EXIT_FAILURE
            | Some cnf => run_daemon fuel o cnf
            end
      end
  end.

(** The functions of atexit run when the program ends. *)
Fixpoint run_at_exit (n : nat) : dm W unit :=
  match n with O => mret tt | S n => _ ← removelockfile; run_at_exit n end.

Definition main (fuel : nat) (argv : list bytes) : dm W Z :=
  code ← main_body fuel argv;
  s ← get_state;
  _ ← run_at_exit (at_exit s);
  mret code.
End daemon.

(** ** Numbers in an array *)

Lemma read_digits_more s acc v c r :
  read_digits acc s = (v, []) → isdigit c = false → read_digits acc (s ++ c :: r) = (v, c :: r).
Proof.
  revert acc. induction s as [|d s IH]; intros acc H Hc; cbn [app read_digits] in *.
  - rewrite Hc. by injection H as ->.
  - destruct (isdigit d); [by apply IH|done].
Qed.

Lemma atoi_array_digits d s v c r :
  48 <= d <= 57 → read_digits 0 (d :: s) = (v, []) → 0 <= v < 2 ^ 31 → isdigit c = false →
  atoi_array ((d :: s) ++ c :: r) = Done v.
Proof.
  intros Hd Hv Hb Hc. unfold atoi_array, atoi, strtol10.
  assert (skip_spaces ((d :: s) ++ c :: r) = (d :: s) ++ c :: r ∧ skip_sign ((d :: s) ++ c :: r) = (d :: s) ++ c :: r ∧
    (match (d :: s) ++ c :: r with 45 :: s' => (true, s') | 43 :: s' => (false, s') | _ => (false, (d :: s) ++ c :: r) end)
      = (false, (d :: s) ++ c :: r)) as (-> & -> & ->).
  { assert (d ∈ [48; 49; 50; 51; 52; 53; 54; 55; 56; 57]) as Hin.
    { apply list_elem_of_In. cbn. lia. }
    repeat (apply elem_of_cons in Hin as [->|Hin]; [done|]). by apply elem_of_nil in Hin. }
  rewrite (read_digits_more _ _ _ _ _ Hv Hc). cbn [fst snd]. unfold clamp. f_equal.
  rewrite Z.min_r, Z.max_r by lia. apply wrap_s32_small. lia.
Qed.

Lemma atoi_array_dec z c r :
  0 < z < 2 ^ 31 → isdigit c = false → atoi_array (dec_string z ++ c :: r) = Done z.
Proof.
  intros Hz Hc. unfold dec_string. pose proof (DecimalZ.of_to z) as Hof.
  destruct (Z.to_int z) as [u|u]; cbn [NilZero.string_of_int str]; destruct (nz_uint u) as (v & Hs & Hv & Hvu);
    unfold Z.of_int, Z.of_uint in Hof; rewrite <- Hvu in Hof; [|lia].
  rewrite Hs. pose proof (uint_digits v) as Hd. pose proof (read_digits_uint0 v) as Hr.
  destruct (str (NilEmpty.string_of_uint v)) as [|d s] eqn:E; [by destruct v|].
  apply Forall_cons in Hd as [Hd _]. rewrite Hof in Hr. apply atoi_array_digits; [done..|lia|done].
Qed.

(** ** One daemon at a time *)

(** A machine with a lock file, the number of the process that runs, and the processes
    that are alive; everything that is asked for succeeds, and a fork goes on in the child. *)
Record machine := Machine { mc_lock : option bytes; mc_pid : Z; mc_alive : Z → bool }.

Definition machine_ext (c : call) (w : machine) : answer * machine :=
  let ok n := Answer n 0 [] (λ _, None) in
  match c with
  | GetPid => (ok (mc_pid w), w)
  | OpenLock => (ok (match mc_lock w with Some _ => 3 | None => -1 end), w)
  | CreatLock => (ok 3, Machine (Some []) (mc_pid w) (mc_alive w))
  | WriteLock _ data => (ok (Z.of_nat (length data)), Machine (Some (default [] (mc_lock w) ++ data)) (mc_pid w) (mc_alive w))
  | ReadLock _ n =>
      let got := take (Z.to_nat n) (default [] (mc_lock w)) in
      (Answer (Z.of_nat (length got)) 0 got (λ _, None), w)
  | RemoveLock => (ok 0, Machine None (mc_pid w) (mc_alive w))
  | Kill pid _ => (ok (if mc_alive w pid then 0 else -1), w)
  | _ => (ok 0, w)
  end.

Definition locked (w : machine) (pid : Z) : machine := Machine (Some (dec_string pid)) (mc_pid w) (mc_alive w).

Section lock.
Context (stack : bytes) (pid : Z).
Implicit Types (s : daemon_t) (w : machine).

Hypothesis Hpid : 0 < pid < 10 ^ 9.
(** The number has fewer characters than the array, and what follows it there is no digit. *)
Hypothesis Hstack : length stack = PIDBUF ∧ ∃ c, stack !! length (dec_string pid) = Some c ∧ isdigit c = false.

Lemma pid_fits : (length (dec_string pid) < PIDBUF)%nat.
Proof. destruct Hstack as [Hl (c & Hc & _)]. apply lookup_lt_Some in Hc. lia. Qed.

Lemma readlockfile_wp s w (P : Z → daemon_t → machine → list call → Prop) :
  mc_lock w = Some (dec_string pid) →
  P pid s w [OpenLock; ReadLock 3 (Z.of_nat PIDBUF)] → ewp (readlockfile machine_ext stack) s w P.
Proof.
  intros Hw HP. pose proof pid_fits as Hf. destruct Hstack as [Hl (c & Hc & Hd)].
  unfold readlockfile. apply ewp_bind, ewp_ask. cbn [machine_ext fst snd a_ret]. rewrite Hw. cbn [Z.eqb].
  apply ewp_bind, ewp_ask. cbn [machine_ext fst snd a_ret a_bytes]. rewrite Hw.
  change (default [] (Some (dec_string pid))) with (dec_string pid).
  destruct (Z.eqb_spec (Z.of_nat (length (take (Z.to_nat (Z.of_nat PIDBUF)) (dec_string pid)))) (-1)); [lia|]. cbv zeta. rewrite Nat2Z.id.
  rewrite take_take, Nat.min_id, take_ge by lia.
  eapply ewp_pure; [|exact HP]. rewrite (drop_S _ _ _ Hc). apply atoi_array_dec; [lia|done].
Qed.

Lemma createlockfile_wp s w (P : bool → daemon_t → machine → list call → Prop) :
  mc_pid w = pid → (∀ l, P true (put_at_exit (S (at_exit s)) s) (locked w pid) l) →
  ewp (createlockfile machine_ext) s w P.
Proof.
  intros Hw HP. pose proof pid_fits as Hf. unfold createlockfile. apply ewp_bind, ewp_ask.
  cbn [machine_ext fst snd a_ret]. rewrite Hw. apply ewp_bind. eapply ewp_pure.
  { unfold strcpy_into. by rewrite (proj2 (Nat.ltb_lt _ _) Hf). }
  apply ewp_bind, ewp_ask. cbn [machine_ext fst snd a_ret Z.eqb].
  apply ewp_bind, ewp_ask. cbn [machine_ext fst snd a_ret mc_lock default app].
  rewrite (proj2 (Z.eqb_neq _ _)) by lia. apply ewp_bind, ewp_tell, ewp_bind. unfold upd.
  apply ewp_bind, ewp_get, ewp_put, ewp_ret. cbn [machine_ext fst snd mc_pid mc_alive]. apply HP.
Qed.

(** The handlers after [handle_default]. *)
Definition with_default (sig : Z) (m : gmap Z sighandler_t) : gmap Z sighandler_t :=
  match default SIG_DFL (m !! sig) with
  | SIG_DFL => <[sig := empty_sighandler]> m
  | h => <[sig := h]> m
  end.

Lemma handle_default_wp sig s w (P : unit → daemon_t → machine → list call → Prop) :
  P tt (put_signals (with_default sig (signals s)) s) w [] → ewp (handle_default sig) s w P.
Proof.
  intros HP. unfold handle_default, upd. apply ewp_bind, ewp_get. cbv zeta. apply ewp_bind, ewp_bind, ewp_get, ewp_put.
  unfold with_default in HP. destruct (default SIG_DFL _) eqn:E; (apply ewp_ret || apply ewp_bind, ewp_get, ewp_put);
    try exact HP; unfold put_signals; cbn; by rewrite insert_insert_eq.
Qed.

Definition detached (s : daemon_t) : daemon_t :=
  DaemonState true (S (at_exit s))
    (with_default SIGQUIT (with_default SIGINT (with_default SIGTERM (with_default SIGHUP (signals s))))) (d_sites s).

Lemma daemon_detach_wp flags s w (P : option bool → daemon_t → machine → list call → Prop) :
  mc_pid w = pid → FL_ISSET flags D_NOLOCKFILE = false →
  (∀ l, P (Some true) (detached s) (locked w pid) l) → ewp (daemon_detach machine_ext flags) s w P.
Proof.
  intros Hw Hfl HP. unfold daemon_detach. apply ewp_bind, ewp_tell.
  do 4 apply ewp_bind, handle_default_wp. apply ewp_bind, ewp_ask. cbn [machine_ext fst snd a_ret Z.ltb Z.compare].
  apply ewp_bind, ewp_tell, ewp_bind, ewp_ask. cbn [machine_ext fst snd a_ret Z.ltb Z.compare]. apply ewp_bind.
  apply (ewp_mono _ _ _ (λ cd s' w' _, cd = 0 ∧ w' = w ∧
    s' = put_signals (signals (detached s)) s)).
  { destruct (FL_ISSET flags D_NOCD); [by apply ewp_ret|]. apply ewp_bind, ewp_ask, ewp_ret. done. }
  intros cd s1 w1 l1 (-> & -> & ->). cbn [Z.ltb Z.compare]. rewrite Hfl. apply ewp_bind, createlockfile_wp; [done|].
  intros l2. cbn [negb]. apply ewp_bind. unfold upd. apply ewp_bind, ewp_get, ewp_put, ewp_bind, ewp_tell, ewp_bind.
  destruct (FL_ISSET flags D_KEEPSTDIO); cbn [negb only_if]; [apply ewp_ret|unfold daemon_redirect_stdio; apply ewp_tell];
    apply ewp_ret, HP.
Qed.

(** C32: a daemon that has detached excludes others as long as it runs: its lock file holds its
    number; a second process that starts while it is alive is turned away; one that starts
    after it died without cleaning up is let in; and when it ends itself, the lock file is
    gone.  It holds as long as the bytes that the array of the reader held before do not
    continue the number. *)
Theorem daemon_excludes flags s w :
  mc_pid w = pid → FL_ISSET flags D_NOLOCKFILE = false → at_exit s = 0%nat →
  ewp (daemon_detach machine_ext flags) s w (λ d s1 w1 _,
    d = Some true ∧ mc_lock w1 = Some (dec_string pid) ∧
    (∀ s2 w2 flags2, is_daemon s2 = false → mc_lock w2 = mc_lock w1 →
       FL_ISSET flags2 D_NOLOCKFILE = false → FL_ISSET flags2 D_NOLOCKCHECK = false →
       ewp (daemon_init machine_ext stack flags2) s2 w2 (λ ok s3 w3 _,
         ok = negb (mc_alive w2 pid) ∧ s3 = s2 ∧ w3 = w2)) ∧
    ewp (run_at_exit machine_ext (at_exit s1)) s1 w1 (λ _ _ w4 _, mc_lock w4 = None)).
Proof.
  intros Hw Hfl He. apply daemon_detach_wp; [done..|]. intros l. split; [done|]. split; [done|]. split.
  - intros s2 w2 flags2 Hd Hl H1 H2. unfold daemon_init. apply ewp_bind, ewp_get. rewrite Hd, H1, H2. cbn [negb andb].
    apply ewp_bind, readlockfile_wp; [exact Hl|]. rewrite (proj2 (Z.eqb_neq _ _)) by lia.
    apply ewp_bind, ewp_ask. cbn [machine_ext fst snd a_ret]. destruct (mc_alive w2 pid); cbn [Z.eqb];
      apply ewp_bind, ewp_tell, ewp_ret; done.
  - cbn [detached at_exit]. rewrite He. cbn [run_at_exit]. unfold removelockfile. apply ewp_bind, ewp_tell, ewp_ret. done.
Qed.
End lock.

Definition sample_machine (pid : Z) (alive : bool) : machine := Machine None pid (λ p, alive && (p =? pid)).
Definition fresh_process : daemon_t := DaemonState false 0 ∅ registry_static.

Lemma daemon_excludes_witness :
  ∃ s1 w1 l, daemon_detach machine_ext 0 fresh_process (sample_machine 4711 true) = Done (Some true, s1, w1, l) ∧
    ewp (daemon_init machine_ext (replicate 10 0) 0) fresh_process w1 (λ ok _ _ _, ok = false).
Proof.
  destruct (daemon_excludes (replicate 10 0) 4711 ltac:(lia) ltac:(split; [reflexivity|]; by exists 0) 0 fresh_process
    (sample_machine 4711 true) eq_refl eq_refl eq_refl) as (o & s1 & w1 & l & E & -> & _ & H & _).
  exists s1, w1, l. split; [exact E|]. vm_compute in E. injection E as <- <- <-.
  eapply ewp_mono; [exact (H fresh_process _ 0 eq_refl eq_refl eq_refl eq_refl)|]. intros ok s2 w2 l2 [-> _]. reflexivity.
Defined.

(** The bytes behind the number count: a number of four digits is read as one of seven, so
    that the running daemon is not seen. *)
Lemma stale_digits_hide :
  daemon_init machine_ext (replicate 7 49 ++ [0; 0; 0]) 0 fresh_process (locked (sample_machine 4711 true) 4711)
  = Done (true, fresh_process, locked (sample_machine 4711 true) 4711,
      [OpenLock; ReadLock 3 10; Kill 4711111 0; Print (str "warning: previous daemon did not clean up lockfile on exit." ++ nl)]).
Proof. vm_compute. reflexivity. Qed.

(** With digits up to the end [atoi] leaves the array. *)
Lemma stale_digits_overflow :
  readlockfile machine_ext (replicate 10 49) fresh_process (locked (sample_machine 4711 true) 4711) = Fault OutOfBounds.
Proof. vm_compute. reflexivity. Qed.

(** The two start at the same time: both find no lock file, and both become daemons. *)
Lemma two_starts_race :
  match (daemon_init machine_ext (replicate 10 0) 0 fresh_process (sample_machine 1 true),
         daemon_init machine_ext (replicate 10 0) 0 fresh_process (sample_machine 2 true)) with
  | (Done (true, _, w1, _), Done (true, _, _, _)) =>
      match daemon_detach machine_ext 0 fresh_process w1 with
      | Done (Some true, _, w2, _) =>
          match daemon_detach machine_ext 0 fresh_process (Machine (mc_lock w2) 2 (mc_alive w2)) with
          | Done (Some true, _, w3, _) => mc_lock w3 = Some (str "2")
          | _ => False
          end
      | _ => False
      end
  | _ => False
  end.
Proof. vm_compute. reflexivity. Qed.

(** ** The command line *)

Section command_line.
Context {W : Type} (ext : call → W → answer * W) (version date site : bytes).

Definition known_options : list bytes := [str "--no-daemon"; str "--force"; str "--no-lockfile"].

Definition options_are (o : options) (opts : list bytes) : options :=
  Options (make_daemon o && negb (bool_decide (str "--no-daemon" ∈ opts)))
    (Z.lor (daemon_flags o)
       (Z.lor (if bool_decide (str "--force" ∈ opts) then D_NOLOCKCHECK else 0)
              (if bool_decide (str "--no-lockfile" ∈ opts) then D_NOLOCKFILE else 0)))
    (force_stop o || bool_decide (str "--force" ∈ opts)).

Lemma options_are_cons o opt opts :
  opt ∈ known_options →
  options_are o (opt :: opts) =
  options_are (Options (if strcmp_eq opt (str "--no-daemon") then false else make_daemon o)
    (if strcmp_eq opt (str "--force") then Z.lor (daemon_flags o) D_NOLOCKCHECK
     else if strcmp_eq opt (str "--no-lockfile") then Z.lor (daemon_flags o) D_NOLOCKFILE else daemon_flags o)
    (if strcmp_eq opt (str "--force") then true else force_stop o)) opts.
Proof.
  intros H. assert (∀ x, x ∈ known_options →
    bool_decide (x ∈ opt :: opts) = strcmp_eq opt x || bool_decide (x ∈ opts)) as Hin.
  { intros x _. unfold strcmp_eq. destruct (bool_decide_reflect (opt = x)) as [->|Hne].
    - apply bool_decide_eq_true_2. by left.
    - apply bool_decide_ext. rewrite elem_of_cons. naive_solver. }
  unfold options_are. rewrite !Hin by (unfold known_options; set_solver).
  unfold known_options in H. cbn [make_daemon daemon_flags force_stop].
  set (b := bool_decide (str "--no-lockfile" ∈ opts)). set (b1 := bool_decide (str "--force" ∈ opts)).
  set (b2 := bool_decide (str "--no-daemon" ∈ opts)).
  repeat (apply elem_of_cons in H as [->|H]); [..|by apply elem_of_nil in H];
    repeat match goal with |- context [strcmp_eq ?x ?y] =>
      let v := eval vm_compute in (strcmp_eq x y) in change (strcmp_eq x y) with v end; cbv iota; cbn [orb];
    f_equal; try done.
  - by rewrite andb_false_r.
  - rewrite Z.lor_assoc. destruct b1; rewrite ?Z.lor_0_l; [|done]. rewrite !Z.lor_assoc.
    f_equal. by rewrite <- !Z.lor_assoc, Z.lor_diag.
  - by rewrite orb_true_r.
  - rewrite <- !Z.lor_assoc. f_equal. destruct b; [|by rewrite Z.lor_0_r, Z.lor_comm].
    rewrite (Z.lor_comm D_NOLOCKFILE), <- Z.lor_assoc. by rewrite Z.lor_diag.
Qed.

(** The options may stand in any order and more than once. *)
Lemma parse_options_spec opts rest o s w :
  Forall (λ x, x ∈ known_options) opts → char_at (default [] (head rest)) 0 ≠ 45 →
  parse_options ext version date site o (opts ++ rest) s w = Done (Some (options_are o opts, rest), s, w, []).
Proof.
  intros Ho Hr. revert o. induction Ho as [|opt opts Hopt Ho IH]; intros o; cbn [app parse_options].
  - assert (options_are o [] = o) as ->.
    { unfold options_are. cbn. rewrite Z.lor_0_r, andb_true_r, orb_false_r. by destruct o. }
    destruct rest as [|r rest]; [done|]. cbn [parse_options]. change (char_at r 0 ≠ 45) in Hr.
    by rewrite (proj2 (Z.eqb_neq _ _) Hr).
  - rewrite options_are_cons by done. unfold known_options in Hopt.
    repeat (apply elem_of_cons in Hopt as [->|Hopt]); [..|by apply elem_of_nil in Hopt]; apply IH.
Qed.
End command_line.
