(* ===== verification/Proxy.v ===== *)
(** zimrd/main.c: the proxy daemon, which hands the requests of the clients to the web
    applications and the answers back.

    Every call of the sockets (zsocket.c) and of the message switches (msg_switch.c) is a
    value of [call]; the world answers it, and a computation gives the list of the calls
    it made.  The state is what main.c keeps itself: the connections by descriptor, the
    registry of websites, and for each website its external socket.  The logs of syslog
    are left out; [hp] is always NULL in the source. *)

From Stdlib Require Import ZArith Lia String.
From stdpp Require Import gmap.
From S2P Require Import MsgSwitch.
From S2P Require Import Zsocket.
From S2P Require Export Connection Effect.

Local Open Scope Z_scope.

(** ** Pages *)

Definition html_page (status body : string) (len : string) : bytes :=
  str "HTTP/1.1 " ++ str status ++ HTTP_HDR_ENDL ++ str "Content-Length: " ++ str len ++ CRLF2 ++
  str body ++ [0].

(** [sizeof] counts the terminator, which is sent too. *)
Definition html_error_400 : bytes := html_page "400 Bad Request"
  "<!doctype html><html><body><h1>400 Bad Request</h1></body></html>" "65".
Definition html_error_404 : bytes := html_page "404 Not Found"
  "<!doctype html><html><body><h1>404 Not Found</h1></body></html>" "63".
Definition html_error_414 : bytes := html_page "414 Request-URI Too Long"
  "<!doctype html><html><body><h1>414 Request-URI Too Long</h1></body></html>" "74".
Definition html_error_502 : bytes := html_page "502 Bad Gateway"
  "<!doctype html><html><body><h1>502 Bad Gateway</h1></body></html>" "65".

(** ** Text *)

(** The array [url] has [size] bytes.  A missing space after the path makes the length of
    strncat negative, which is as much as the rest of the text. *)
Definition get_url_from_http_header (raw : bytes) (size : nat) : res (option bytes) :=
  match strnstr raw (str "Host: ") (Z.of_nat size) with
  | None => Done None
  | Some p =>
      let host := drop (p + 6) raw in
      match strnstr host HTTP_HDR_ENDL (Z.of_nat size - Z.of_nat (p + 6) - 1) with
      | None => Done None
      | Some n =>
          url ← strcpy_into size (take n host);
          sp ← deref (strnstr raw (str " ") (Z.of_nat size - 1));
          let path := drop (S sp) raw in
          let path := match strnstr path (str " ") (Z.of_nat size - Z.of_nat (S sp) - 1) with
                      | Some k => take k path
                      | None => path
                      end in
          Some <$> strcpy_into size (url ++ path)
      end
  end.

(** [strstr( s, p )], from the [k]-th byte on. *)
Definition strstr_from (s p : bytes) (k : nat) : option nat := (fun n => k + n)%nat <$> strstr (drop k s) p.

Definition HTTP_DEFAULT_PORT : Z := 80.
Definition HTTPS_DEFAULT_PORT : Z := 443.

(** A text without a colon makes the source search from the address 1; six characters or
    more, and a colon behind the slash, leave the array [port_str]. *)
Definition get_port_from_url (url : bytes) : res Z :=
  c1 ← deref (strstr url (str ":"));
  let ptr1 := S c1 in
  _ ← (if (ptr1 + 2 <=? length url)%nat then Done tt else Fault OutOfBounds);
  let ptr3 := default (length url) (strstr_from url (str "/") (ptr1 + 2)) in
  match strstr_from url (str ":") ptr1 with
  | None => Done (if startswith url (str "https://") then HTTPS_DEFAULT_PORT else HTTP_DEFAULT_PORT)
  | Some c2 =>
      let ptr2 := S c2 in
      if (ptr2 <=? ptr3)%nat && (ptr3 - ptr2 <? 6)%nat
      then Done (atoi (take (ptr3 - ptr2) (drop ptr2 url)))
      else Fault OutOfBounds
  end.

(** [strtoumax( s, NULL, 0 )]: the base is that of a C constant. *)
Definition digit_value (c : Z) : Z :=
  if isdigit c then c - 48 else if (97 <=? c) && (c <=? 122) then c - 87
  else if (65 <=? c) && (c <=? 90) then c - 55 else 36.

Fixpoint read_base (base acc : Z) (s : bytes) : Z :=
  match s with
  | c :: s => if digit_value c <? base then read_base base (base * acc + digit_value c) s else acc
  | [] => acc
  end.

Definition strtoumax0 (s : bytes) : Z :=
  let s := skip_spaces s in
  let '(neg, s) := match s with 45 :: s' => (true, s') | 43 :: s' => (false, s') | _ => (false, s) end in
  let v := match s with
           | 48 :: x :: d :: s' =>
               if ((x =? 120) || (x =? 88)) && (digit_value d <? 16) then read_base 16 0 (d :: s')
               else read_base 8 0 (48 :: x :: d :: s')
           | 48 :: s' => read_base 8 0 s'
           | _ => read_base 10 0 s
           end in
  if 2 ^ 64 - 1 <? v then 2 ^ 64 - 1 else if neg : bool then (- v) mod 2 ^ 64 else v.

(** ** State *)

Record conn_data_t := ConnData {
  exlisnfd : Z;
  c_addr : bytes;
  website_sockfd : Z;
  c_msgid : Z;
  request_type : Z;
  postlen : Z;              (* size_t *)
  is_https : bool;
  c_buffer : option bytes;
  bufferlen : nat
}.

Record proxy_t := Proxy {
  connections : list (option conn_data_t);
  sites : registry;
  website_data : gmap nat Z     (* exlisnfd of a website *)
}.

(** [postlen == -1]. *)
Definition POSTLEN_DONE : Z := 2 ^ 64 - 1.

Definition set_website_sockfd (fd : Z) (c : conn_data_t) : conn_data_t :=
  ConnData (exlisnfd c) (c_addr c) fd (c_msgid c) (request_type c) (postlen c) (is_https c) (c_buffer c) (bufferlen c).
Definition set_msgid (id : Z) (c : conn_data_t) : conn_data_t :=
  ConnData (exlisnfd c) (c_addr c) (website_sockfd c) id (request_type c) (postlen c) (is_https c) (c_buffer c) (bufferlen c).
Definition set_request_type (t : Z) (c : conn_data_t) : conn_data_t :=
  ConnData (exlisnfd c) (c_addr c) (website_sockfd c) (c_msgid c) t (postlen c) (is_https c) (c_buffer c) (bufferlen c).
Definition set_postlen (n : Z) (c : conn_data_t) : conn_data_t :=
  ConnData (exlisnfd c) (c_addr c) (website_sockfd c) (c_msgid c) (request_type c) n (is_https c) (c_buffer c) (bufferlen c).
Definition set_buffer (b : option bytes) (n : nat) (c : conn_data_t) : conn_data_t :=
  ConnData (exlisnfd c) (c_addr c) (website_sockfd c) (c_msgid c) (request_type c) (postlen c) (is_https c) b n.

(** ** The outside *)

Inductive call :=
| MsgAccept (fd msgid : Z) | MsgOpen (fd type : Z) | MsgClose (fd msgid : Z) | MsgFlush (fd msgid : Z)
| MsgWrite (fd msgid : Z) (data : bytes) | MsgRead (fd msgid : Z) (size : nat)
| MsgExists (fd msgid : Z) | MsgGetType (fd msgid : Z)
| MsgSetRead (fd msgid : Z) | MsgClrRead (fd msgid : Z) | MsgSetWrite (fd msgid : Z) | MsgClrWrite (fd msgid : Z)
| SwitchCreate (fd : Z) | SwitchDestroy (fd : Z)
| ZsOpen (ip : bytes) (port : Z) (ssl : bool)      (* a listening socket *)
| ZsAccept (fd : Z) | ZsRead (fd : Z) (size : nat) | ZsWrite (fd : Z) (data : bytes) | ZsClose (fd : Z)
| ZsSetRead (fd : Z) | ZsClrRead (fd : Z) | ZsSetWrite (fd : Z) | ZsClrWrite (fd : Z)
| ZsIsSsl (fd : Z) | ZsGetAddr (fd : Z).

(** The value of a call, and the bytes that come with it: what was read, an address, or
    the text of the error. *)
Record answer := Answer { a_ret : Z; a_data : bytes }.

(** ** The computations *)

Notation pm W := (em proxy_t W call).

Section proxy.
Context {W : Type} (ext : call → W → answer * W).
#[local] Notation ask := (Effect.ask ext).
#[local] Notation tell := (Effect.tell ext).

(** [connections[ fd ]]. *)
Definition get_conn (fd : Z) : pm W (option conn_data_t) :=
  p ← get_state; i ← pure (cell fd); pure (at_index (connections p !! i)).
Definition conn_at (fd : Z) : pm W conn_data_t := o ← get_conn fd; pure (deref o).
Definition put_conn (fd : Z) (o : option conn_data_t) : pm W unit :=
  p ← get_state; i ← pure (cell fd);
  put_state (Proxy (<[i := o]> (connections p)) (sites p) (website_data p)).
Definition upd_conn (fd : Z) (f : conn_data_t → conn_data_t) : pm W unit :=
  c ← conn_at fd; put_conn fd (Some (f c)).

(** ** Connections *)

Definition cleanup_connection (sockfd : Z) : pm W unit :=
  c ← conn_at sockfd;
  _ ← (if website_sockfd c =? -1 then mret tt
       else
         e ← ask (MsgExists (website_sockfd c) (c_msgid c));
         only_if (negb (a_ret e =? 0)) (tell (MsgClose (website_sockfd c) (c_msgid c))));
  _ ← tell (ZsClose sockfd);
  put_conn sockfd None.

(** A page is sent, and the connection given up. *)
Definition refuse (sockfd : Z) (page : bytes) : pm W unit :=
  _ ← ask (ZsWrite sockfd page); cleanup_connection sockfd.

(** ** Websites *)

(** The loop of [remove_website]: descriptors [i], [i + 1] and so on. *)
Fixpoint cleanup_website (n : nat) (i : Z) (sockfd : Z) : pm W unit :=
  match n with
  | O => mret tt
  | S n =>
      o ← get_conn i;
      _ ← (match o with
           | Some c => only_if (website_sockfd c =? sockfd) (cleanup_connection i)
           | None => mret tt
           end);
      cleanup_website n (i + 1) sockfd
  end.

Definition remove_website (fd : Z) : pm W bool :=
  p ← get_state;
  o ← pure (website_get_by_sockfd (sites p) fd);
  match o with
  | None => mret false
  | Some website =>
      exlisn ← pure (deref (website_data p !! website));
      w ← pure (deref (heap (sites p) !! website));
      _ ← cleanup_website FD_SETSIZE 0 (w_sockfd w);
      _ ← tell (SwitchDestroy fd);
      _ ← tell (ZsClose fd);
      _ ← only_if (negb (exlisn =? -1)) (tell (ZsClose exlisn));
      p ← get_state;
      r ← pure (website_remove (sites p) website);
      _ ← put_state (Proxy (connections p) r (delete website (website_data p)));
      mret true
  end.

(** The text for the web application; the error message has 64 bytes. *)
Definition start_website (fd : Z) (url ip : bytes) : pm W bytes :=
  p ← get_state;
  o ← pure (website_get_by_full_url (sites p) url (Some ip));
  match o with
  | Some _ => mret (str "FAIL website already exists")
  | None =>
      port ← pure (get_port_from_url url);
      a ← ask (ZsOpen ip port (startswith url (str "https://")));
      if a_ret a =? -1 then
        pure (strcpy_into 64 (str "FAIL error opening external socket: " ++ ip ++ str ", " ++ a_data a))
      else
        p ← get_state;
        '(r, website) ← pure (website_add (sites p) fd url (Some ip));
        _ ← put_state (Proxy (connections p) r (<[website := a_ret a]> (website_data p)));
        _ ← tell (ZsSetRead (a_ret a));
        mret (str "OK")
  end.

(** ** Requests *)

(** [goto cleanup] after an error of the web application. *)
Definition msg_write_or (fd msgid : Z) (data : bytes) (sockfd : Z) (k : pm W (option (Z * nat)))
  : pm W (option (Z * nat)) :=
  a ← ask (MsgWrite fd msgid data);
  if a_ret a =? -1 then _ ← refuse sockfd html_error_502; mret None else k.

(** The length of the body that the headers announce, or else [postlen] as it is: [None]
    is an error. *)
Definition content_length (buf : bytes) (postlen : Z) : res (option Z) :=
  match strnstr buf (str "Content-Length: ") (Z.of_nat PACK_DATA_SIZE) with
  | None => Done (Some postlen)
  | Some p =>
      let text := drop (p + 16) buf in
      match strnstr text HTTP_HDR_ENDL (Z.of_nat PACK_DATA_SIZE - Z.of_nat (p + 16)) with
      | None => Done None
      | Some n => if (n <? 32)%nat then Done (Some (strtoumax0 (take n text))) else Fault OutOfBounds
      end
  end.

Definition request_type_of (buf : bytes) : option Z :=
  if startswith buf (str "GET") then Some HTTP_GET_TYPE
  else if startswith buf (str "POST") then Some HTTP_POST_TYPE else None.

(** What goes to the web application first: the length of the message, the address and an
    empty host name, the headers.  Gives the socket of the application and where the
    headers end in the buffer. *)
Definition forward_headers (sockfd : Z) (website : nat) (w : website_t) (buffer : bytes) (endofhdrs : nat)
  : pm W (option (Z * nat)) :=
  id ← ask (MsgOpen (w_sockfd w) sockfd);
  let msgid := a_ret id in
  _ ← upd_conn sockfd (set_msgid msgid);
  _ ← tell (ZsSetWrite sockfd);
  c ← conn_at sockfd;
  len ← pure (if request_type c =? HTTP_POST_TYPE then content_length (cstr buffer) (postlen c)
               else Done (Some (postlen c)));
  match len with
  | None => _ ← refuse sockfd html_error_400; mret None
  | Some len =>
      _ ← upd_conn sockfd (set_postlen len);
      let msglen := (Z.of_nat endofhdrs + len + 4 + 1) mod 2 ^ 64 in
      msg_write_or (w_sockfd w) msgid (le_bytes 8 msglen) sockfd (
      msg_write_or (w_sockfd w) msgid (c_addr c) sockfd (
      msg_write_or (w_sockfd w) msgid [0] sockfd (
      msg_write_or (w_sockfd w) msgid (take endofhdrs buffer) sockfd (
      mret (Some (w_sockfd w, endofhdrs))))))
  end.

(** The part of [exread] for a request that is not routed yet. *)
Definition exread_headers (sockfd : Z) (c : conn_data_t) (buffer : bytes) : pm W (option (Z * nat)) :=
  let buf := cstr buffer in
  let stop (m : pm W unit) : pm W (option (Z * nat)) := _ ← m; mret None in
  match strnstr buf CRLF2 (Z.of_nat PACK_DATA_SIZE) with
  | None =>
      if (bufferlen c =? PACK_DATA_SIZE)%nat then stop (refuse sockfd html_error_414)
      else stop (tell (ZsSetRead sockfd))
  | Some k =>
      let endofhdrs := (k + length CRLF2)%nat in
      match request_type_of buf with
      | None => stop (refuse sockfd html_error_400)
      | Some t =>
          _ ← upd_conn sockfd (set_request_type t);
          o ← pure (get_url_from_http_header buf PACK_DATA_SIZE);
          match o with
          | None => stop (refuse sockfd html_error_400)
          | Some urlbuf =>
              a ← ask (ZsGetAddr (exlisnfd c));
              addr ← pure (if a_ret a =? 0 then Fault NullDeref else Done (a_data a));
              p ← get_state;
              o ← pure (website_find (sites p) urlbuf
                          (Some (if is_https c then str "https://" else str "http://")) (Some (inet_ntoa addr)));
              match o with
              | None => stop (refuse sockfd html_error_404)
              | Some website =>
                  w ← pure (deref (heap (sites p) !! website));
                  _ ← upd_conn sockfd (set_website_sockfd (w_sockfd w));
                  exlisn ← pure (deref (website_data p !! website));
                  if negb (exlisn =? exlisnfd c) then stop (refuse sockfd html_error_404)
                  else forward_headers sockfd website w buffer endofhdrs
              end
          end
      end
  end.

(** The rest of [exread]: the body from the [ptr]-th byte of the buffer on. *)
Definition exread_body (sockfd : Z) (buffer : bytes) (fd : Z) (ptr : nat) : pm W unit :=
  c ← conn_at sockfd;
  let finish : pm W unit :=
    c ← conn_at sockfd;
    _ ← (if postlen c =? 0 then
           _ ← tell (MsgFlush fd (c_msgid c));
           _ ← upd_conn sockfd (set_postlen POSTLEN_DONE);
           tell (ZsSetRead sockfd)
         else tell (MsgSetWrite fd (c_msgid c)));
    upd_conn sockfd (fun c => set_buffer None (bufferlen c) c) in
  if (request_type c =? HTTP_POST_TYPE) && negb (postlen c =? 0) then
    let left := (bufferlen c - ptr)%nat in
    let len := Z.max (postlen c) (Z.of_nat left) in
    _ ← upd_conn sockfd (set_postlen len);
    a ← ask (MsgWrite fd (c_msgid c) (take left (drop ptr buffer)));
    if a_ret a =? -1 then refuse sockfd html_error_502
    else
      _ ← upd_conn sockfd (set_postlen (len - Z.of_nat left));
      finish
  else finish.

(** The buffer of the connection, which is allocated when there is none. *)
Definition exread_buffer (c : conn_data_t) : bytes * nat :=
  match c_buffer c with
  | Some b => (b, bufferlen c)
  | None => (replicate PACK_DATA_SIZE 0, 0%nat)
  end.

Definition exread (sockfd : Z) : pm W unit :=
  c ← conn_at sockfd;
  let '(buffer, used) := exread_buffer c in
  a ← ask (ZsRead sockfd (PACK_DATA_SIZE - used));
  buffer ← pure (buf_write used (a_data a) buffer);
  _ ← upd_conn sockfd (set_buffer (Some buffer) used);
  if a_ret a <=? 0 then cleanup_connection sockfd
  else if postlen c =? POSTLEN_DONE then mret tt
  else
    _ ← upd_conn sockfd (set_buffer (Some buffer) (used + Z.to_nat (a_ret a)));
    c ← conn_at sockfd;
    o ← (if website_sockfd c =? -1 then exread_headers sockfd c buffer
         else
           p ← get_state;
           o ← pure (website_get_by_sockfd (sites p) (website_sockfd c));
           match o with
           | Some website =>
               w ← pure (deref (heap (sites p) !! website));
               mret (Some (w_sockfd w, 0%nat))
           | None => _ ← refuse sockfd html_error_502; mret None
           end);
    match o with
    | Some (fd, ptr) => exread_body sockfd buffer fd ptr
    | None => mret tt
    end.

(** ** Handlers *)

(** The text behind the URL is the address; both end in the message. *)
Definition command_handler (fd msgid : Z) (buf : bytes) : pm W unit :=
  t ← ask (MsgGetType fd msgid);
  if a_ret t =? -1 then
    let url := cstr buf in
    let rest := drop (S (length url)) buf in
    let ip := cstr rest in
    _ ← pure (if (length url <? length buf)%nat && (length ip <? length rest)%nat
              then Done tt else Fault OutOfBounds);
    ret ← start_website fd url ip;
    _ ← tell (MsgWrite fd msgid (ret ++ [0]));
    tell (MsgClose fd msgid)
  else if a_ret t =? -2 then _ ← remove_website fd; mret tt
  else mret tt.

(** The loop over the messages of a switch that failed. *)
Fixpoint cleanup_msgs (n : nat) (i fd : Z) : pm W unit :=
  match n with
  | O => mret tt
  | S n =>
      e ← ask (MsgExists fd i);
      _ ← only_if (negb (a_ret e =? 0))
            (t ← ask (MsgGetType fd i);
             only_if (0 <? a_ret t) (t ← ask (MsgGetType fd i); cleanup_connection (a_ret t)));
      cleanup_msgs n (i + 1) fd
  end.

Definition msg_event_handler (fd msgid event : Z) : pm W unit :=
  if event =? MSG_EVT_ACCEPT_READY then
    a ← ask (MsgAccept fd msgid);
    only_if (negb (a_ret a =? 0)) (tell (MsgSetRead fd msgid))
  else if event =? MSG_EVT_READ_READY then
    _ ← tell (MsgClrRead fd msgid);
    a ← ask (MsgRead fd msgid PACK_DATA_SIZE);
    t ← ask (MsgGetType fd msgid);
    if a_ret a <=? 0 then cleanup_connection (a_ret t)
    else if a_ret t <? 0 then command_handler fd msgid (a_data a)
    else
      t ← ask (MsgGetType fd msgid);
      _ ← tell (ZsSetWrite (a_ret t));
      t ← ask (MsgGetType fd msgid);
      n ← ask (ZsWrite (a_ret t) (a_data a));
      only_if (a_ret n =? -1) (t ← ask (MsgGetType fd msgid); cleanup_connection (a_ret t))
  else if event =? MSG_EVT_WRITE_READY then
    if msgid <? 0 then mret tt
    else
      t ← ask (MsgGetType fd msgid);
      _ ← tell (ZsSetRead (a_ret t));
      tell (MsgClrWrite fd msgid)
  else if event =? MSG_SWITCH_EVT_IO_ERROR then
    p ← get_state;
    o ← pure (website_get_by_sockfd (sites p) fd);
    match o with
    | Some _ => _ ← remove_website fd; mret tt
    | None =>
        _ ← cleanup_msgs FD_SETSIZE 0 fd;
        _ ← tell (SwitchDestroy fd);
        tell (ZsClose fd)
    end
  else mret tt.

Definition insock_event_hdlr (fd event : Z) : pm W unit :=
  if event =? ZS_EVT_ACCEPT_READY then
    a ← ask (ZsAccept fd);
    only_if (negb (a_ret a =? -1)) (tell (SwitchCreate (a_ret a)))
  else mret tt.

Definition exsock_event_hdlr (fd event : Z) : pm W unit :=
  if event =? ZS_EVT_ACCEPT_READY then
    a ← ask (ZsAccept fd);
    let newfd := a_ret a in
    only_if (negb (newfd =? -1))
      (o ← get_conn newfd;
       _ ← pure (assert (match o with None => true | Some _ => false end));
       addr ← ask (ZsGetAddr newfd);
       addr ← pure (if a_ret addr =? 0 then Fault NullDeref else Done (a_data addr));
       https ← ask (ZsIsSsl fd);
       _ ← put_conn newfd (Some (ConnData fd addr (-1) 0 0 0 (negb (a_ret https =? 0)) None 0));
       tell (ZsSetRead newfd))
  else if event =? ZS_EVT_READ_READY then
    _ ← tell (ZsClrRead fd);
    exread fd
  else if event =? ZS_EVT_WRITE_READY then
    _ ← tell (ZsClrWrite fd);
    c ← conn_at fd;
    tell (MsgSetRead (website_sockfd c) (c_msgid c))
  else mret tt.

End proxy.

(** The state when the event loop starts. *)
Definition proxy_init (r : registry) : proxy_t := Proxy (replicate FD_SETSIZE None) r ∅.
