(* ===== verification/ProxyForward.v ===== *)
(** zimrd/main.c, second part: what the proxy forwards.  However the request of a client
    is cut into reads, the web application is sent its length, the address of the client
    and its bytes, once each and in order. *)

From Stdlib Require Import ZArith Lia String.
From stdpp Require Import gmap.
From S2P Require Import MsgSwitch Zsocket.
From S2P Require Export Proxy.

Local Open Scope Z_scope.

(** ** Connections of the state *)

(** Descriptor [fd] has the connection [c]. *)
Definition has_conn (p : proxy_t) (fd : Z) (c : conn_data_t) : Prop :=
  ∃ i, cell fd = Done i ∧ connections p !! i = Some (Some c).

(** The proxy with the connection of a descriptor replaced. *)
Definition with_conn (p : proxy_t) (fd : Z) (o : option conn_data_t) : proxy_t :=
  Proxy (<[Z.to_nat fd := o]> (connections p)) (sites p) (website_data p).

Lemma cell_to_nat fd i : cell fd = Done i → i = Z.to_nat fd.
Proof. unfold cell. case_match; [|done]. by injection 1. Qed.

Lemma with_conn_has p fd c c' : has_conn p fd c → has_conn (with_conn p fd (Some c')) fd c'.
Proof.
  intros (i & Hi & Hc). exists i. split; [done|]. apply cell_to_nat in Hi as ->.
  apply list_lookup_insert_eq. by eapply lookup_lt_Some.
Qed.

Lemma with_conn_twice p fd o o' : with_conn (with_conn p fd o) fd o' = with_conn p fd o'.
Proof. unfold with_conn. simpl. by rewrite list_insert_insert_eq. Qed.

Section conns.
Context {W : Type}.
Implicit Types (w : W).

Lemma pwp_conn_at fd c p w (P : conn_data_t → proxy_t → W → list call → Prop) :
  has_conn p fd c → P c p w [] → ewp (conn_at fd) p w P.
Proof.
  intros (i & Hi & Hc) HP. exists c, p, w, []. split; [|done]. unfold conn_at, get_conn.
  unfold mbind, em_bind, get_state, pure. rewrite Hi. simpl. by rewrite Hc.
Qed.

Lemma pwp_put_conn fd c o p w (P : unit → proxy_t → W → list call → Prop) :
  has_conn p fd c → P tt (with_conn p fd o) w [] → ewp (put_conn fd o) p w P.
Proof.
  intros (i & Hi & Hc) HP. exists tt, (with_conn p fd o), w, []. split; [|done]. unfold put_conn.
  unfold mbind, em_bind, get_state, pure, put_state. rewrite Hi. by apply cell_to_nat in Hi as ->.
Qed.

Lemma pwp_upd_conn fd c f p w (P : unit → proxy_t → W → list call → Prop) :
  has_conn p fd c → P tt (with_conn p fd (Some (f c))) w [] → ewp (upd_conn fd f) p w P.
Proof.
  intros Hc HP. unfold upd_conn. apply ewp_bind. eapply pwp_conn_at; [done|]. by eapply pwp_put_conn.
Qed.
End conns.

(** ** A client and a web application that answer *)

(** What the client sends, read by read; every other call has a fixed answer. *)
Definition client (ans : call → answer) (c : call) (reads : list bytes) : answer * list bytes :=
  match c with
  | ZsRead _ _ => match reads with
                  | data :: reads => (Answer (Z.of_nat (length data)) data, reads)
                  | [] => (Answer 0 [], [])
                  end
  | _ => (ans c, reads)
  end.

(** The bytes that go to message [id] of the switch [fd]. *)
Definition written (fd id : Z) (l : list call) : bytes :=
  mjoin (omap (λ c, match c with
                    | MsgWrite f i data => if (f =? fd) && (i =? id) then Some data else None
                    | _ => None
                    end) l).

Definition is_flush (c : call) : bool := match c with MsgFlush _ _ => true | _ => false end.

(** What is written goes to message [id] of the switch [fd], and only this message is flushed. *)
Definition goes_to (fd id : Z) (c : call) : bool :=
  match c with MsgWrite f i _ | MsgFlush f i => (f =? fd) && (i =? id) | _ => true end.

Lemma flushed_here fd id l : existsb is_flush l = true → forallb (goes_to fd id) l = true → MsgFlush fd id ∈ l.
Proof.
  intros (c & Hc & Hf)%existsb_exists Hg. rewrite forallb_forall in Hg. specialize (Hg c Hc).
  apply list_elem_of_In in Hc. destruct c; try done. cbn [goes_to] in Hg.
  by apply andb_true_iff in Hg as [->%Z.eqb_eq ->%Z.eqb_eq].
Qed.

Lemma written_app fd id l l' : written fd id (l ++ l') = written fd id l ++ written fd id l'.
Proof. unfold written. by rewrite omap_app, join_app. Qed.

Lemma goes_to_here fd id data l : forallb (goes_to fd id) (MsgWrite fd id data :: l) = forallb (goes_to fd id) l.
Proof. simpl. by rewrite !Z.eqb_refl. Qed.

(** Calls that go elsewhere write nothing here. *)
Lemma written_elsewhere fd id fd' id' l :
  forallb (goes_to fd' id') l = true → (fd', id') ≠ (fd, id) → written fd id l = [].
Proof.
  intros H Hne. unfold written. induction l as [|c l IH]; [done|]. cbn [forallb] in H.
  apply andb_true_iff in H as [Hc H]. specialize (IH H). destruct c; try exact IH.
  cbn [goes_to] in Hc. apply andb_true_iff in Hc as [->%Z.eqb_eq ->%Z.eqb_eq]. cbn [omap list_omap].
  assert ((fd' =? fd) && (id' =? id) = false) as ->; [|exact IH].
  apply andb_false_iff. destruct (Z.eqb_spec fd' fd) as [->|]; [|by left]. right. apply Z.eqb_neq. congruence.
Qed.

Lemma written_here fd id data l : written fd id (MsgWrite fd id data :: l) = data ++ written fd id l.
Proof. unfold written. simpl. by rewrite !Z.eqb_refl. Qed.

(** The handling of as many reads. *)
Fixpoint exread_all {W} (ext : call → W → answer * W) (n : nat) (sockfd : Z) : pm W unit :=
  match n with
  | O => mret tt
  | S n => _ ← exsock_event_hdlr ext sockfd ZS_EVT_READ_READY; exread_all ext n sockfd
  end.

Section forward.
Context (ans : call → answer) (sockfd site_fd id : Z) (addr : bytes).

(** The web application takes what it is sent. *)
Record answers_ok : Prop := {
  an_write fd msgid data : a_ret (ans (MsgWrite fd msgid data)) ≠ -1;
  an_open : a_ret (ans (MsgOpen site_fd sockfd)) = id
}.

Hypothesis Hans : answers_ok.

Notation ext := (client ans).

(** A connection whose request is routed, with [n] bytes of the body to come. *)
Record routed (c : conn_data_t) (n : Z) : Prop := {
  ro_fd : website_sockfd c = site_fd;
  ro_id : c_msgid c = id;
  ro_post : request_type c = HTTP_POST_TYPE;
  ro_len : postlen c = n;
  ro_buf : c_buffer c = None
}.

(** The registry finds the application by its socket. *)
Definition site_found (p : proxy_t) : Prop :=
  ∃ a s, website_get_by_sockfd (sites p) site_fd = Done (Some a) ∧ heap (sites p) !! a = Some s ∧
         w_sockfd s = site_fd.

Lemma exread_body_wp p (w : list bytes) c buffer ptr len :
  has_conn p sockfd c → website_sockfd c = site_fd → c_msgid c = id → postlen c = len →
  (ptr <= bufferlen c)%nat → (request_type c = HTTP_POST_TYPE ∨ len = 0) →
  Z.of_nat (bufferlen c - ptr) <= len ∨ request_type c ≠ HTTP_POST_TYPE ∨ len = 0 →
  ewp (exread_body ext sockfd buffer site_fd ptr) p w (λ _ p' w' l, w' = w ∧
    ∃ c' : conn_data_t, has_conn p' sockfd c' ∧ sites p' = sites p ∧ website_data p' = website_data p ∧
      let body := if len =? 0 then [] else take (bufferlen c - ptr) (drop ptr buffer) in
      let rest := if len =? 0 then 0 else len - Z.of_nat (bufferlen c - ptr) in
      written site_fd id l = body ∧
      website_sockfd c' = site_fd ∧ c_msgid c' = id ∧ request_type c' = request_type c ∧ c_buffer c' = None ∧
      postlen c' = (if rest =? 0 then POSTLEN_DONE else rest) ∧
      existsb is_flush l = (rest =? 0) ∧ forallb (goes_to site_fd id) l = true).
Proof.
  intros Hc Hfd Hid Hlen Hptr Hkind Hle. unfold exread_body. apply ewp_bind.
  eapply pwp_conn_at; [done|]. cbv zeta.
  assert (∀ p1 c1 (l1 : list call) rest, has_conn p1 sockfd c1 → sites p1 = sites p →
    website_data p1 = website_data p → website_sockfd c1 = site_fd → c_msgid c1 = id →
    request_type c1 = request_type c → postlen c1 = rest →
    ewp (c ← conn_at sockfd;
         _ ← (if postlen c =? 0 then
                _ ← tell ext (MsgFlush site_fd (c_msgid c));
                _ ← upd_conn sockfd (set_postlen POSTLEN_DONE);
                tell ext (ZsSetRead sockfd)
              else tell ext (MsgSetWrite site_fd (c_msgid c)));
         upd_conn sockfd (fun c => set_buffer None (bufferlen c) c) : pm (list bytes) unit) p1 w
      (λ _ p' w' l, w' = w ∧ ∃ c' : conn_data_t, has_conn p' sockfd c' ∧ sites p' = sites p ∧
        website_data p' = website_data p ∧ written site_fd id l = [] ∧
        website_sockfd c' = site_fd ∧ c_msgid c' = id ∧ request_type c' = request_type c ∧ c_buffer c' = None ∧
        postlen c' = (if rest =? 0 then POSTLEN_DONE else rest) ∧ existsb is_flush l = (rest =? 0) ∧
        forallb (goes_to site_fd id) l = true))
    as Hfin.
  { intros p1 c1 l1 rest Hc1 Hsi Hwd Hf1 Hi1 Ht1 <-. apply ewp_bind. eapply pwp_conn_at; [done|].
    apply ewp_bind. destruct (Z.eqb_spec (postlen c1) 0) as [E|E].
    - apply ewp_bind, ewp_tell, ewp_bind. eapply pwp_upd_conn; [done|]. apply ewp_tell.
      pose proof (with_conn_has _ _ _ (set_postlen POSTLEN_DONE c1) Hc1) as Hc2.
      eapply pwp_upd_conn; [done|]. split; [done|]. eexists. split; [by eapply with_conn_has|].
      split_and!; try done. cbn. by rewrite Hi1, !Z.eqb_refl.
    - apply ewp_tell. eapply pwp_upd_conn; [done|]. split; [done|].
      eexists. split; [by eapply with_conn_has|]. split_and!; done. }
  destruct (Z.eqb_spec len 0) as [->|Hne].
  - rewrite Hlen. change (0 =? 0) with true. cbn [negb]. rewrite andb_false_r.
    eapply ewp_mono; [by eapply (Hfin p c [] 0)|]. intros _ p' w' l (-> & c' & H). split; [done|].
    exists c'. by simpl.
  - destruct Hkind as [Ht|]; [|done]. rewrite Ht, Hlen. rewrite (proj2 (Z.eqb_neq len 0)) by done.
    cbn [negb andb]. rewrite Z.eqb_refl. cbn [andb].
    rewrite Z.max_l by (destruct Hle as [?|[?|?]]; [lia|congruence|lia]).
    apply ewp_bind. eapply pwp_upd_conn; [done|].
    pose proof (with_conn_has _ _ _ (set_postlen len c) Hc) as Hc1.
    apply ewp_bind, ewp_ask. cbn [client fst snd].
    rewrite (proj2 (Z.eqb_neq _ _)) by apply (an_write Hans).
    apply ewp_bind. eapply pwp_upd_conn; [done|].
    pose proof (with_conn_has _ _ _ (set_postlen (len - Z.of_nat (bufferlen c - ptr)) (set_postlen len c)) Hc1) as Hc2.
    eapply ewp_mono; [eapply (Hfin _ _ [] (len - Z.of_nat (bufferlen c - ptr))); try done|].
    intros _ p' w' l (-> & c' & H1 & H2 & H3 & H4 & H5 & H6 & H7 & H8 & H9 & H10 & H11). split; [done|].
    exists c'. simpl. rewrite Hid, !Z.eqb_refl. rewrite written_here, H4, app_nil_r. split_and!; done || congruence.
Qed.

(** *** The buffer *)

(** A buffer that holds [got]. *)
Definition pad (got : bytes) : bytes := got ++ replicate (PACK_DATA_SIZE - length got) 0.

Lemma buf_write_pad got data :
  (length got + length data <= PACK_DATA_SIZE)%nat →
  buf_write (length got) data (pad got) = Done (pad (got ++ data)).
Proof.
  intros H. unfold buf_write, pad. rewrite length_app, length_replicate.
  destruct (Nat.leb_spec (length got + length data) (length got + (PACK_DATA_SIZE - length got))); [|lia].
  f_equal. rewrite take_app_length. rewrite <- app_assoc. f_equal. f_equal.
  rewrite drop_app_ge by lia. rewrite drop_replicate, length_app. f_equal. lia.
Qed.

Lemma cstr_pad_length (got : bytes) n : (length (cstr (got ++ replicate n 0%Z)) <= length got)%nat.
Proof.
  induction got as [|c got IH]; [by destruct n|]. simpl. destruct (c =? 0); simpl; lia.
Qed.

(** The connection before its request is routed. *)
Record waiting (c : conn_data_t) (exl : Z) (got : bytes) : Prop := {
  wa_fd : website_sockfd c = -1;
  wa_len : postlen c = 0;
  wa_exl : exlisnfd c = exl;
  wa_addr : c_addr c = addr;
  wa_buf : exread_buffer c = (pad got, length got)
}.

(** What the text of a complete header says, and that it is accepted. *)
Record good_head (p : proxy_t) (https : bool) (exl : Z) (got : bytes) (e : nat) (t len : Z) : Prop := {
  gh_end : strnstr (cstr (pad got)) CRLF2 (Z.of_nat PACK_DATA_SIZE) = Some (e - length CRLF2)%nat;
  gh_e : (length CRLF2 <= e)%nat;
  gh_type : request_type_of (cstr (pad got)) = Some t;
  gh_site : ∃ url exaddr a s,
    get_url_from_http_header (cstr (pad got)) PACK_DATA_SIZE = Done (Some url) ∧
    a_ret (ans (ZsGetAddr exl)) ≠ 0 ∧ a_data (ans (ZsGetAddr exl)) = exaddr ∧
    website_find (sites p) url (Some (if https then str "https://" else str "http://"))
      (Some (inet_ntoa exaddr)) = Done (Some a) ∧
    heap (sites p) !! a = Some s ∧ w_sockfd s = site_fd ∧ website_data p !! a = Some exl;
  gh_len : if t =? HTTP_POST_TYPE then content_length (cstr (pad got)) 0 = Done (Some len) else len = 0;
  gh_left : len ≠ 0 → Z.of_nat (length got) - Z.of_nat e <= len
}.

Lemma good_head_end p https exl got e t len : good_head p https exl got e t len → (e <= length got)%nat.
Proof.
  intros H. pose proof (gh_end _ _ _ _ _ _ _ H) as He. apply strnstr_Some in He as (Hlt & _ & Hp & _).
  apply prefix_length in Hp. rewrite length_drop in Hp.
  pose proof (cstr_pad_length got (PACK_DATA_SIZE - length got)). unfold pad in *.
  pose proof (gh_e _ _ _ _ _ _ _ H). lia.
Qed.

(** What the application is sent before the body: the length of what follows, the address
    of the client with an empty host name, the header. *)
Definition head_frame (e : nat) (len : Z) (got : bytes) : bytes :=
  le_bytes 8 ((Z.of_nat e + len + 4 + 1) mod 2 ^ 64) ++ addr ++ [0] ++ take e got.

Lemma msg_write_or_wp msgid data k p (w : list bytes) P :
  msgid = id →
  ewp k p w (λ o p' w' l, P o p' w' (MsgWrite site_fd id data :: l)) →
  ewp (msg_write_or ext site_fd msgid data sockfd k) p w P.
Proof.
  intros -> H. unfold msg_write_or. apply ewp_bind, ewp_ask. cbn [client fst snd].
  rewrite (proj2 (Z.eqb_neq _ _)) by apply (an_write Hans).
  eapply ewp_mono; [exact H|]. done.
Qed.

Lemma forward_headers_wp p (w : list bytes) c https exl got e t len a s :
  has_conn p sockfd c → good_head p https exl got e t len → request_type c = t → postlen c = 0 →
  c_addr c = addr → heap (sites p) !! a = Some s → w_sockfd s = site_fd →
  ewp (forward_headers ext sockfd a s (pad got) e) p w (λ o p' w' l, w' = w ∧ o = Some (site_fd, e) ∧
    written site_fd id l = head_frame e len got ∧ existsb is_flush l = false ∧ forallb (goes_to site_fd id) l = true ∧
    sites p' = sites p ∧ website_data p' = website_data p ∧
    has_conn p' sockfd (set_postlen len (set_msgid id c))).
Proof.
  intros Hc Hg Ht Hl Ha Hs Hfd. pose proof (good_head_end _ _ _ _ _ _ _ Hg) as He.
  unfold forward_headers. rewrite Hfd. apply ewp_bind, ewp_ask. cbn [client fst snd]. cbv zeta.
  rewrite (an_open Hans). apply ewp_bind. eapply pwp_upd_conn; [done|].
  pose proof (with_conn_has _ _ _ (set_msgid id c) Hc) as Hc1.
  apply ewp_bind, ewp_tell. apply ewp_bind. eapply pwp_conn_at; [done|].
  cbn [set_msgid request_type postlen]. rewrite Ht, Hl. apply ewp_bind.
  eapply (ewp_pure _ (Some len)).
  { pose proof (gh_len _ _ _ _ _ _ _ Hg) as H. destruct (t =? HTTP_POST_TYPE); [done|by subst]. }
  apply ewp_bind. eapply pwp_upd_conn; [done|].
  pose proof (with_conn_has _ _ _ (set_postlen len (set_msgid id c)) Hc1) as Hc2.
  apply msg_write_or_wp; [done|]. apply msg_write_or_wp; [done|]. apply msg_write_or_wp; [done|].
  apply msg_write_or_wp; [done|]. apply ewp_ret. split; [done|]. split; [done|].
  split; [|split; [done|split; [|by split_and!]]].
  2: { cbn. by rewrite !Z.eqb_refl. }
  simpl app. unfold head_frame. cbn [set_msgid c_addr]. rewrite Ha.
  cbn [snd client app]. unfold written at 1. cbn [omap list_omap]. rewrite !Z.eqb_refl. cbn [andb mjoin list_join].
  rewrite app_nil_r. unfold pad. rewrite take_app_le by done. done.
Qed.

Lemma exread_headers_wp p (w : list bytes) c exl got e t len :
  has_conn p sockfd c → website_sockfd c = -1 → postlen c = 0 → exlisnfd c = exl → c_addr c = addr →
  good_head p (is_https c) exl got e t len →
  ewp (exread_headers ext sockfd c (pad got)) p w (λ o p' w' l, w' = w ∧ o = Some (site_fd, e) ∧
    written site_fd id l = head_frame e len got ∧ existsb is_flush l = false ∧ forallb (goes_to site_fd id) l = true ∧
    sites p' = sites p ∧ website_data p' = website_data p ∧
    has_conn p' sockfd (set_postlen len (set_msgid id (set_website_sockfd site_fd (set_request_type t c))))).
Proof.
  intros Hc Hw Hl He Ha Hg. pose proof Hg as [Hend Hlen Ht (url & exaddr & a & s & Hu & Hr & Hd & Hf & Hh & Hs & Hwd) _ _].
  unfold exread_headers. cbv zeta. rewrite Hend, Ht.
  apply ewp_bind. eapply pwp_upd_conn; [done|].
  pose proof (with_conn_has _ _ _ (set_request_type t c) Hc) as Hc1.
  apply ewp_bind. eapply ewp_pure; [exact Hu|]. apply ewp_bind, ewp_ask. rewrite He. cbn [client fst snd].
  rewrite (proj2 (Z.eqb_neq _ _)) by done. apply ewp_bind. eapply ewp_pure; [done|]. rewrite Hd.
  apply ewp_bind, ewp_get. apply ewp_bind. eapply ewp_pure; [exact Hf|].
  apply ewp_bind. eapply ewp_pure; [cbn [with_conn sites]; by rewrite Hh|].
  apply ewp_bind. eapply pwp_upd_conn; [done|].
  pose proof (with_conn_has _ _ _ (set_website_sockfd (w_sockfd s) (set_request_type t c)) Hc1) as Hc2.
  apply ewp_bind. eapply ewp_pure; [cbn [with_conn website_data]; by rewrite Hwd|].
  rewrite Z.eqb_refl. cbn [negb]. rewrite Hs in *.
  replace (e - length CRLF2 + length CRLF2)%nat with e by lia.
  eapply ewp_mono.
  - eapply (forward_headers_wp _ _ _ (is_https c) exl got e t len a s Hc2); try done.
    destruct Hg as [G1 G2 G3 G4 G5 G6]. by split.
  - intros o p' w' l (-> & -> & H1 & H2 & H3 & H4 & H5 & H6). by split_and!.
Qed.

(** *** Reads *)

(** The state of a connection after its request was routed: [rest] bytes are to come. *)
Record forwarded (p0 p : proxy_t) (rest : Z) (t : Z) : Prop := {
  fw_conn : ∃ c, has_conn p sockfd c ∧ website_sockfd c = site_fd ∧ c_msgid c = id ∧
    request_type c = t ∧ c_buffer c = None ∧ postlen c = (if rest =? 0 then POSTLEN_DONE else rest);
  fw_sites : sites p = sites p0;
  fw_data : website_data p = website_data p0
}.

Lemma exread_start p c got data (w : list bytes) P :
  has_conn p sockfd c → exread_buffer c = (pad got, length got) → postlen c ≠ POSTLEN_DONE → data ≠ [] →
  (length got + length data <= PACK_DATA_SIZE)%nat →
  (∀ p' c', c' = set_buffer (Some (pad (got ++ data))) (length (got ++ data)) c →
     has_conn p' sockfd c' → sites p' = sites p → website_data p' = website_data p →
     ewp (o ← (if website_sockfd c' =? -1 then exread_headers ext sockfd c' (pad (got ++ data))
               else
                 p ← get_state;
                 o ← pure (website_get_by_sockfd (sites p) (website_sockfd c'));
                 match o with
                 | Some website =>
                     w ← pure (deref (heap (sites p) !! website));
                     mret (Some (w_sockfd w, 0%nat))
                 | None => _ ← refuse ext sockfd html_error_502; mret None
                 end);
          match o with
          | Some (fd, ptr) => exread_body ext sockfd (pad (got ++ data)) fd ptr
          | None => mret tt
          end) p' w (λ a p2 w2 l, P a p2 w2 (ZsClrRead sockfd :: ZsRead sockfd (PACK_DATA_SIZE - length got) :: l))) →
  ewp (exsock_event_hdlr ext sockfd ZS_EVT_READ_READY) p (data :: w) P.
Proof.
  intros Hc Hb Hl Hd Hlen HP. unfold exsock_event_hdlr. cbn [Z.eqb Pos.eqb ZS_EVT_READ_READY ZS_EVT_ACCEPT_READY].
  apply ewp_bind, ewp_tell. cbn [client fst snd]. unfold exread. apply ewp_bind.
  eapply pwp_conn_at; [done|]. rewrite Hb. apply ewp_bind, ewp_ask. cbn [client fst snd a_ret a_data].
  apply ewp_bind. eapply ewp_pure; [by apply buf_write_pad|].
  apply ewp_bind. eapply pwp_upd_conn; [done|].
  pose proof (with_conn_has _ _ _ (set_buffer (Some (pad (got ++ data))) (length got) c) Hc) as Hc1.
  destruct (Z.leb_spec (Z.of_nat (length data)) 0) as [Hle|Hgt]; [by destruct data; simpl in Hle; [|lia]|].
  rewrite (proj2 (Z.eqb_neq _ _)) by done. apply ewp_bind. eapply pwp_upd_conn; [done|].
  set (c2 := set_buffer _ _ (set_buffer _ _ c)).
  pose proof (with_conn_has _ _ _ c2 Hc1) as Hc2. rewrite with_conn_twice in *.
  apply ewp_bind. eapply pwp_conn_at; [done|].
  eapply ewp_mono.
  - eapply (HP _ c2); try done. unfold c2. rewrite Nat2Z.id, <- length_app. done.
  - intros a p2 w2 l H. exact H.
Qed.

Hypothesis Hfd : site_fd ≠ -1.

Lemma read_wait p c exl got data (w : list bytes) :
  has_conn p sockfd c → waiting c exl got → data ≠ [] → (length (got ++ data) < PACK_DATA_SIZE)%nat →
  strnstr (cstr (pad (got ++ data))) CRLF2 (Z.of_nat PACK_DATA_SIZE) = None →
  ewp (exsock_event_hdlr ext sockfd ZS_EVT_READ_READY) p (data :: w) (λ _ p' w' l, w' = w ∧
    written site_fd id l = [] ∧ existsb is_flush l = false ∧ forallb (goes_to site_fd id) l = true ∧
    sites p' = sites p ∧ website_data p' = website_data p ∧
    ∃ c', has_conn p' sockfd c' ∧ waiting c' exl (got ++ data) ∧ is_https c' = is_https c).
Proof.
  intros Hc [W1 W2 W3 W4 W5] Hd Hlen He. rewrite length_app in Hlen.
  eapply exread_start; [exact Hc|exact W5|by rewrite W2|exact Hd|lia|].
  intros p' c' Ec Hc' Hs Hw. rewrite Ec at 1. cbn [website_sockfd set_buffer]. rewrite W1.
  change (-1 =? -1) with true. cbv iota. unfold exread_headers at 1. cbv zeta. rewrite He.
  assert (bufferlen c' = length (got ++ data)) as -> by (by rewrite Ec).
  destruct (Nat.eqb_spec (length (got ++ data)) PACK_DATA_SIZE) as [E|_]; [rewrite length_app in E; lia|].
  apply ewp_bind, ewp_bind, ewp_tell, ewp_ret. apply ewp_ret.
  split_and!; try done. exists c'. split; [done|]. rewrite Ec. split; [|done]. by split.
Qed.

Lemma read_route p c exl got data e t len (w : list bytes) :
  has_conn p sockfd c → waiting c exl got → data ≠ [] → (length (got ++ data) <= PACK_DATA_SIZE)%nat →
  good_head p (is_https c) exl (got ++ data) e t len →
  ewp (exsock_event_hdlr ext sockfd ZS_EVT_READ_READY) p (data :: w) (λ _ p' w' l, w' = w ∧
    let body := if len =? 0 then [] else drop e (got ++ data) in
    let rest := len - Z.of_nat (length body) in
    written site_fd id l = head_frame e len (got ++ data) ++ body ∧
    existsb is_flush l = (rest =? 0) ∧ forallb (goes_to site_fd id) l = true ∧ forwarded p p' rest t).
Proof.
  intros Hc [W1 W2 W3 W4 W5] Hd Hlen Hg. rewrite length_app in Hlen.
  pose proof (good_head_end _ _ _ _ _ _ _ Hg) as He.
  eapply exread_start; [exact Hc|exact W5|by rewrite W2|exact Hd|lia|].
  intros p' c' Ec Hc' Hs Hw. rewrite Ec at 1. cbn [website_sockfd set_buffer]. rewrite W1.
  change (-1 =? -1) with true. cbv iota. apply ewp_bind. eapply ewp_mono.
  { eapply (exread_headers_wp _ _ c' exl (got ++ data) e t len); try done; try (by rewrite Ec).
    rewrite Ec. destruct Hg as [G1 G2 G3 (url & ex & a & s & G4) G5 G6]. split; try done.
    exists url, ex, a, s. by rewrite Hs, Hw. }
  intros o p2 w2 l2 (-> & -> & Hwr & Hfl & Hgo & Hs2 & Hw2 & Hc2). set (c2 := set_postlen len _) in *.
  assert (bufferlen c2 = length (got ++ data)) as Hbl by (unfold c2; by rewrite Ec).
  assert (request_type c2 = t) as Ht2 by done.
  assert (len ≠ 0 → t = HTTP_POST_TYPE) as Hpost.
  { intros Hn. pose proof (gh_len _ _ _ _ _ _ _ Hg) as H.
    destruct (Z.eqb_spec t HTTP_POST_TYPE); [done|congruence]. }
  eapply ewp_mono.
  { eapply (exread_body_wp p2 w c2 (pad (got ++ data)) e len); try done.
    - by rewrite Hbl.
    - rewrite Ht2. destruct (Z.eq_dec len 0); auto.
    - rewrite Hbl. destruct (Z.eq_dec len 0) as [|Hn]; [auto|]. left.
      pose proof (gh_left _ _ _ _ _ _ _ Hg Hn). lia. }
  intros _ p3 w3 l3 (-> & c3 & Hc3 & Hs3 & Hw3 & H). cbv zeta in H.
  destruct H as (B1 & B2 & B3 & B4 & B5 & B6 & B7 & B8). split; [done|]. cbv zeta.
  assert (take (length (got ++ data) - e) (drop e (pad (got ++ data))) = drop e (got ++ data)) as Hbody.
  { unfold pad. rewrite drop_app_le by done. rewrite take_app_length'; [done|]. by rewrite length_drop. }
  rewrite Hbl, Hbody in B1. rewrite Hbl in B6, B7.
  assert ((if len =? 0 then 0 else len - Z.of_nat (length (got ++ data) - e)) =
          len - Z.of_nat (length (if len =? 0 then [] else drop e (got ++ data)))) as Hrest.
  { destruct (Z.eqb_spec len 0); simpl; [lia|]. rewrite length_drop. lia. }
  rewrite Hrest in B6, B7. split; [|split; [|split]].
  - change (written site_fd id (l2 ++ l3) = head_frame e len (got ++ data) ++
      (if len =? 0 then [] else drop e (got ++ data))). by rewrite written_app, Hwr, B1.
  - simpl. rewrite existsb_app, Hfl, B7. done.
  - simpl. by rewrite forallb_app, Hgo, B8.
  - split; [|congruence|congruence]. exists c3. split_and!; done || congruence.
Qed.

Lemma read_body p0 p n data (w : list bytes) :
  forwarded p0 p n HTTP_POST_TYPE → site_found p0 → 0 < n < POSTLEN_DONE → data ≠ [] →
  (length data <= PACK_DATA_SIZE)%nat → Z.of_nat (length data) <= n →
  ewp (exsock_event_hdlr ext sockfd ZS_EVT_READ_READY) p (data :: w) (λ _ p' w' l, w' = w ∧
    written site_fd id l = data ∧ existsb is_flush l = (n - Z.of_nat (length data) =? 0) ∧
    forallb (goes_to site_fd id) l = true ∧
    forwarded p0 p' (n - Z.of_nat (length data)) HTTP_POST_TYPE).
Proof.
  intros [(c & Hc & C1 & C2 & C3 & C4 & C5) Hs0 Hd0] (a & s & Ha & Hh & Hsf) Hn Hd Hlen Hle.
  rewrite (proj2 (Z.eqb_neq n 0)) in C5 by lia.
  eapply (exread_start p c [] data); [exact Hc| |lia|exact Hd|simpl; lia|].
  { unfold exread_buffer, pad. rewrite C4. by rewrite Nat.sub_0_r. }
  rewrite app_nil_l. intros p' c' Ec Hc' Hs Hw. assert (website_sockfd c' = site_fd) as -> by (by rewrite Ec).
  rewrite (proj2 (Z.eqb_neq site_fd (-1))) by done. apply ewp_bind. apply ewp_bind, ewp_get.
  apply ewp_bind. eapply ewp_pure; [by rewrite Hs, Hs0|].
  apply ewp_bind. eapply ewp_pure; [by rewrite Hs, Hs0, Hh|]. apply ewp_ret. rewrite Hsf.
  eapply ewp_mono.
  { eapply (exread_body_wp p' w c' (pad data) 0 n Hc'); rewrite ?Ec; cbn; try done; try lia. }
  intros _ p3 w3 l3 (-> & c3 & Hc3 & Hs3 & Hw3 & H). cbv zeta in H.
  rewrite (proj2 (Z.eqb_neq n 0)) in H by lia. destruct H as (B1 & B2 & B3 & B4 & B5 & B6 & B7 & B8).
  assert (bufferlen c' = length data) as Hbl by (by rewrite Ec).
  rewrite Hbl, Nat.sub_0_r in *. rewrite drop_0 in B1. unfold pad in B1. rewrite take_app_length in B1.
  split; [done|]. split; [exact B1|]. split; [exact B7|]. split; [exact B8|].
  split; [|congruence|congruence]. exists c3. split_and!; try done. rewrite B4, Ec. done.
Qed.

(** Reads that do not complete the header. *)
Fixpoint incomplete (got : bytes) (reads : list bytes) : Prop :=
  match reads with
  | [] => True
  | data :: reads =>
      data ≠ [] ∧ (length (got ++ data) < PACK_DATA_SIZE)%nat ∧
      strnstr (cstr (pad (got ++ data))) CRLF2 (Z.of_nat PACK_DATA_SIZE) = None ∧
      incomplete (got ++ data) reads
  end.

Lemma exread_all_wp {W} (e : call → W → answer * W) n p w P :
  ewp (exsock_event_hdlr e sockfd ZS_EVT_READ_READY) p w
    (λ _ p1 w1 l, ewp (exread_all e n sockfd) p1 w1 (λ a p2 w2 l2, P a p2 w2 (l ++ l2))) →
  ewp (exread_all e (S n) sockfd) p w P.
Proof. intros H. cbn [exread_all]. apply ewp_bind. exact H. Qed.

Lemma reads_body p0 p n (reads : list bytes) :
  forwarded p0 p n HTTP_POST_TYPE → site_found p0 → n < POSTLEN_DONE → n = Z.of_nat (length (mjoin reads)) →
  Forall (λ d, d ≠ [] ∧ (length d <= PACK_DATA_SIZE)%nat) reads →
  ewp (exread_all ext (length reads) sockfd) p reads (λ _ p' w' l, w' = [] ∧
    written site_fd id l = mjoin reads ∧ existsb is_flush l = negb (n =? 0) ∧
    forallb (goes_to site_fd id) l = true ∧ forwarded p0 p' 0 HTTP_POST_TYPE).
Proof.
  intros Hf Hs. revert p n Hf. induction reads as [|data reads IH]; intros p n Hf Hb Hn Hr.
  - simpl in Hn. subst n. apply ewp_ret. by split_and!.
  - apply Forall_cons in Hr as [[Hd Hl] Hr].
    assert (n = Z.of_nat (length data) + Z.of_nat (length (mjoin reads))) as Hn'
      by (rewrite Hn; simpl; rewrite length_app; lia).
    assert (0 < Z.of_nat (length data)) by (destruct data; [done|simpl; lia]).
    cbn [length]. apply exread_all_wp. eapply ewp_mono.
    { eapply (read_body p0 p n data reads Hf Hs); done || lia. }
    intros _ p1 w1 l1 (-> & Hw & Hfl & Hg & Hf1). eapply ewp_mono.
    { eapply (IH p1 _ Hf1); try done; lia. }
    intros _ p2 w2 l2 (-> & Hw2 & Hfl2 & Hg2 & Hf2). split; [done|].
    split; [|split; [|split; [by rewrite forallb_app, Hg, Hg2|done]]].
    + simpl. by rewrite written_app, Hw, Hw2.
    + rewrite existsb_app, Hfl, Hfl2. rewrite (proj2 (Z.eqb_neq n 0)) by lia.
      by destruct (_ =? 0).
Qed.

Lemma reads_wait p c exl got reads w n :
  has_conn p sockfd c → waiting c exl got → incomplete got reads → w = reads ++ n →
  ewp (exread_all ext (length reads) sockfd) p w (λ _ p' w' l, w' = n ∧
    written site_fd id l = [] ∧ existsb is_flush l = false ∧ forallb (goes_to site_fd id) l = true ∧
    sites p' = sites p ∧ website_data p' = website_data p ∧
    ∃ c', has_conn p' sockfd c' ∧ waiting c' exl (got ++ mjoin reads) ∧ is_https c' = is_https c).
Proof.
  revert p c got w. induction reads as [|data reads IH]; intros p c got w Hc Hw Hi ->.
  - apply ewp_ret. split_and!; try done. exists c. simpl. by rewrite app_nil_r.
  - destruct Hi as (Hd & Hl & He & Hi). cbn [length app]. apply exread_all_wp. eapply ewp_mono.
    { by eapply (read_wait p c exl got data). }
    intros _ p1 w1 l1 (-> & Hwr & Hfl & Hg & Hs & Hwd & c1 & Hc1 & Hw1 & Hh1). eapply ewp_mono.
    { by eapply (IH p1 c1 (got ++ data)). }
    intros _ p2 w2 l2 (-> & Hwr2 & Hfl2 & Hg2 & Hs2 & Hwd2 & c2 & Hc2 & Hw2 & Hh2).
    split; [done|]. split; [by rewrite written_app, Hwr, Hwr2|].
    split; [by rewrite existsb_app, Hfl, Hfl2|]. split; [by rewrite forallb_app, Hg, Hg2|].
    split; [congruence|]. split; [congruence|].
    exists c2. split; [done|]. split; [|congruence]. simpl. by rewrite app_assoc.
Qed.

Lemma exread_all_app {W} (e : call → W → answer * W) n m p w P :
  ewp (exread_all e n sockfd) p w
    (λ _ p1 w1 l, ewp (exread_all e m sockfd) p1 w1 (λ a p2 w2 l2, P a p2 w2 (l ++ l2))) →
  ewp (exread_all e (n + m) sockfd) p w P.
Proof.
  revert p w P. induction n as [|n IH]; intros p w P H.
  - destruct H as (a & p1 & w1 & l & E & H). cbn [exread_all] in E. injection E as <- <- <- <-. exact H.
  - simpl. apply ewp_bind. destruct H as (a & p1 & w1 & l & E & H).
    cbn [exread_all] in E. unfold mbind, em_bind in E.
    destruct (exsock_event_hdlr e sockfd ZS_EVT_READ_READY p w) as [[[[b p2] w2] l2]|] eqn:E1; [|done].
    exists b, p2, w2, l2. split; [done|].
    destruct (exread_all e n sockfd p2 w2) as [[[[b' p3] w3] l3]|] eqn:E2; [|done].
    injection E as <- <- <- <-. apply IH. exists b', p3, w3, l3. split; [done|].
    eapply ewp_mono; [exact H|]. intros a' p4 w4 l4 H4. by rewrite app_assoc.
Qed.
End forward.

(** The sequence of the reads of a request. *)
Lemma proxy_forwards_wp (ans : call → answer) (sockfd site_fd id : Z) (addr : bytes)
  (p : proxy_t) (c : conn_data_t) (exl : Z) (waits : list bytes) (data : bytes) (body : list bytes)
  (e : nat) (t len : Z) :
  let got := mjoin waits ++ data in
  let content := if len =? 0 then [] else drop e got ++ mjoin body in
  let message := addr ++ [0] ++ take e got ++ content in
  answers_ok ans sockfd site_fd id → site_fd ≠ -1 → length addr = 4%nat →
  has_conn p sockfd c → waiting addr c exl [] →
  incomplete [] waits → data ≠ [] → (length got <= PACK_DATA_SIZE)%nat →
  good_head ans site_fd p (is_https c) exl got e t len → site_found site_fd p →
  Forall (λ d, d ≠ [] ∧ (length d <= PACK_DATA_SIZE)%nat) body →
  (len = 0 → body = []) → len = Z.of_nat (length content) → Z.of_nat (length message) < 2 ^ 64 →
  ewp (exread_all (client ans) (length waits + S (length body)) sockfd) p (waits ++ data :: body)
    (λ _ p' w' l, w' = [] ∧ written site_fd id l = le_bytes 8 (Z.of_nat (length message)) ++ message ∧
      existsb is_flush l = true ∧ forallb (goes_to site_fd id) l = true ∧ forwarded sockfd site_fd id p p' 0 t).
Proof.
  intros got content message Hans Hfd Haddr Hc Hw Hi Hd Hlen Hg Hsf Hbody Hnb Hcl Hm.
  pose proof (good_head_end _ _ _ _ _ _ _ _ _ Hg) as Hend.
  assert (Z.of_nat (length message) = Z.of_nat e + len + 4 + 1) as Hml.
  { unfold message. rewrite !length_app, length_take, Haddr. simpl length. lia. }
  apply exread_all_app. eapply ewp_mono.
  { by eapply (reads_wait ans sockfd site_fd id addr p c exl [] waits). }
  intros _ p1 w1 l1 (-> & Hwr1 & Hfl1 & Hg1 & Hs1 & Hd1 & c1 & Hc1 & Hw1 & Hh1). rewrite app_nil_l in Hw1.
  apply exread_all_wp. eapply ewp_mono.
  { eapply (read_route ans sockfd site_fd id addr Hans p1 c1 exl (mjoin waits) data e t len); try done.
    rewrite Hh1. destruct Hg as [G1 G2 G3 (u & x & a & s & G4) G5 G6]. split; try done.
    exists u, x, a, s. by rewrite Hs1, Hd1. }
  cbv zeta. fold got. intros _ p2 w2 l2 (-> & Hwr2 & Hfl2 & Hg2 & Hf2).
  assert (forwarded sockfd site_fd id p p2 (len - Z.of_nat (length (if len =? 0 then [] else drop e got))) t)
    as Hf2' by (destruct Hf2 as [F1 F2 F3]; split; congruence || done).
  assert (head_frame addr e len got = le_bytes 8 (Z.of_nat (length message)) ++ addr ++ [0] ++ take e got) as Hhf.
  { unfold head_frame. rewrite Hml, Z.mod_small by lia. done. }
  destruct (Z.eqb_spec len 0) as [El|El].
  - rewrite (Hnb El) in *. apply ewp_ret. split; [done|]. rewrite El in *. simpl in Hfl2, Hf2'.
    split; [|split; [|split; [|done]]].
    + rewrite app_nil_r, written_app, Hwr1, Hwr2, Hhf. unfold message, content. simpl. by rewrite !app_nil_r.
    + by rewrite app_nil_r, existsb_app, Hfl2, orb_true_r.
    + by rewrite app_nil_r, forallb_app, Hg1, Hg2.
  - assert (t = HTTP_POST_TYPE) as ->.
    { pose proof (gh_len _ _ _ _ _ _ _ _ _ Hg) as H. destruct (Z.eqb_spec t HTTP_POST_TYPE); [done|by subst]. }
    assert (content = drop e got ++ mjoin body) as Hcont by done.
    assert (len - Z.of_nat (length (drop e got)) = Z.of_nat (length (mjoin body))) as Hleft
      by (rewrite Hcl, Hcont, length_app; lia).
    eapply ewp_mono.
    { eapply (reads_body ans sockfd site_fd id Hans Hfd p p2 _ body Hf2' Hsf); try done.
      unfold POSTLEN_DONE. lia. }
    intros _ p3 w3 l3 (-> & Hwr3 & Hfl3 & Hg3 & Hf3). split; [done|]. split; [|split; [|split; [|done]]].
    + rewrite !written_app, Hwr1, Hwr2, Hwr3, Hhf. unfold message. rewrite Hcont. simpl. by rewrite <- !app_assoc.
    + rewrite !existsb_app, Hfl1, Hfl2, Hfl3. by destruct (_ =? 0).
    + by rewrite !forallb_app, Hg1, Hg2, Hg3.
Qed.

(** C13: a request that the client sends in any pieces, the header in the first reads and a
    body of the announced length in the others, reaches the web application as one
    message: its length in eight bytes, and then the address of the client, an empty host
    name, the header and the body, every byte once and in order; and the message is
    flushed when the last byte is through. *)
Theorem proxy_forwards (ans : call → answer) (sockfd site_fd id : Z) (addr : bytes)
  (p : proxy_t) (c : conn_data_t) (exl : Z) (waits : list bytes) (data : bytes) (body : list bytes)
  (e : nat) (t len : Z) :
  let got := mjoin waits ++ data in
  let content := if len =? 0 then [] else drop e got ++ mjoin body in
  let message := addr ++ [0] ++ take e got ++ content in
  answers_ok ans sockfd site_fd id → site_fd ≠ -1 → length addr = 4%nat →
  has_conn p sockfd c → waiting addr c exl [] →
  incomplete [] waits → data ≠ [] → (length got <= PACK_DATA_SIZE)%nat →
  good_head ans site_fd p (is_https c) exl got e t len → site_found site_fd p →
  Forall (λ d, d ≠ [] ∧ (length d <= PACK_DATA_SIZE)%nat) body →
  (len = 0 → body = []) → len = Z.of_nat (length content) → Z.of_nat (length message) < 2 ^ 64 →
  ∃ p' l, exread_all (client ans) (length waits + S (length body)) sockfd p (waits ++ data :: body)
            = Done (tt, p', [], l) ∧
    written site_fd id l = le_bytes 8 (Z.of_nat (length message)) ++ message ∧
    existsb is_flush l = true ∧ forwarded sockfd site_fd id p p' 0 t.
Proof.
  intros got content message Hans Hfd Haddr Hc Hw Hi Hd Hlen Hg Hsf Hbody Hnb Hcl Hm.
  destruct (proxy_forwards_wp ans sockfd site_fd id addr p c exl waits data body e t len)
    as ([] & p' & w' & l & E & -> & H1 & H2 & _ & H3); try done. by exists p', l.
Qed.

(** ** A sample upload *)

Definition sample_ans (c : call) : answer :=
  match c with
  | ZsGetAddr _ => Answer 1 [0; 0; 0; 0]
  | MsgOpen _ _ => Answer 3 []
  | _ => Answer 0 []
  end.

Definition sample_site : website_t :=
  Website (str "a.org") (str "http://a.org") [] 5 default_ip WS_OPTION_PARSE_MULTIPARTS.

(** The application a.org on switch 5, and a client on descriptor 9 that came in over the
    socket 4. *)
Definition sample_conn : conn_data_t := ConnData 4 [10; 0; 0; 7] (-1) 0 0 0 false None 0.
Definition sample_proxy : proxy_t :=
  Proxy (replicate 9 None ++ Some sample_conn :: replicate 1014 None)
        (Registry true WS_OPTION_PARSE_MULTIPARTS [0%nat] {[0%nat := sample_site]} 1) {[0%nat := 4]}.

Definition sample_head1 : bytes := str "POST /x HTTP/1.1" ++ HTTP_HDR_ENDL ++ str "Host: a.".
Definition sample_head2 : bytes :=
  str "org" ++ HTTP_HDR_ENDL ++ str "Content-Length: 5" ++ CRLF2 ++ str "ab".
Definition sample_header : bytes :=
  str "POST /x HTTP/1.1" ++ HTTP_HDR_ENDL ++ str "Host: a.org" ++ HTTP_HDR_ENDL ++ str "Content-Length: 5" ++ CRLF2.

Lemma proxy_forwards_witness :
  ∃ p' l, exread_all (client sample_ans) 3 9 sample_proxy [sample_head1; sample_head2; str "cde"] = Done (tt, p', [], l) ∧
    written 5 3 l = [62; 0; 0; 0; 0; 0; 0; 0] ++ [10; 0; 0; 7] ++ [0] ++ sample_header ++ str "abcde" ∧
    existsb is_flush l = true.
Proof.
  destruct (proxy_forwards sample_ans 9 5 3 [10; 0; 0; 7] sample_proxy sample_conn 4 [sample_head1]
    sample_head2 [str "cde"] 52 HTTP_POST_TYPE 5) as (p' & l & E & Hw & Hf & _).
  - by split.
  - done.
  - done.
  - exists 9%nat. by split.
  - by split.
  - split; [done|]. split; [vm_compute; lia|]. split; [vm_compute; reflexivity|exact I].
  - done.
  - vm_compute. lia.
  - split; [vm_compute; reflexivity|vm_compute; lia|vm_compute; reflexivity| |vm_compute; reflexivity|vm_compute; congruence].
    exists (str "a.org/x"), [0; 0; 0; 0], 0%nat, sample_site.
    split; [vm_compute; reflexivity|]. split; [done|]. split; [done|]. by split_and!.
  - exists 0%nat, sample_site. by split_and!.
  - constructor; [|constructor]. split; [done|]. vm_compute. lia.
  - done.
  - vm_compute. reflexivity.
  - vm_compute. reflexivity.
  - exists p', l. split; [exact E|]. split; [|exact Hf]. rewrite Hw. vm_compute. reflexivity.
Defined.

(** ** The URL of a request *)

(** A request without a space before its Host header: the host is taken for the path as
    well, and the two do not fit the array. *)
Definition long_host_request : bytes :=
  str "GETHost: " ++ replicate 5000 97 ++ HTTP_HDR_ENDL ++ CRLF2.

Lemma proxy_url_overflow :
  exread (client sample_ans) 9 sample_proxy [long_host_request] = Fault OutOfBounds.
Proof. vm_compute. reflexivity. Qed.

(** A Content-Length of 32 characters or more leaves the array of its digits. *)
Lemma proxy_content_length_overflow :
  exread (client sample_ans) 9 sample_proxy
    [str "POST /x HTTP/1.1" ++ HTTP_HDR_ENDL ++ str "Host: a.org" ++ HTTP_HDR_ENDL ++
     str "Content-Length: 00000000000000000000000000000000" ++ CRLF2] = Fault OutOfBounds.
Proof. vm_compute. reflexivity. Qed.

(** The text of an error of an external socket does not fit its array. *)
Lemma proxy_error_msg_overflow :
  start_website (λ c (w : unit), (Answer (-1) (str "Address already in use"), w)) 5
    (str "http://b.org") (str "0.0.0.0") sample_proxy tt = Fault OutOfBounds.
Proof. vm_compute. reflexivity. Qed.

(** A URL without a colon makes the search for the port start at a NULL pointer. *)
Lemma proxy_url_without_colon :
  start_website (λ c (w : unit), (Answer 0 [], w)) 5 (str "b.org") (str "0.0.0.0") sample_proxy tt
  = Fault NullDeref.
Proof. vm_compute. reflexivity. Qed.

(** An empty read of a command message indexes the connections by its negative type. *)
Lemma proxy_command_eof_out_of_bounds :
  msg_event_handler (λ c (w : unit), (match c with MsgGetType _ _ => Answer (-1) [] | _ => Answer 0 [] end, w))
    5 3 MSG_EVT_READ_READY sample_proxy tt = Fault OutOfBounds.
Proof. vm_compute. reflexivity. Qed.

(** The length of the error pages is the one that they announce, and one byte more is sent. *)
Lemma html_pages_length :
  Forall (λ '(page, len), ∃ k, strnstr page CRLF2 200 = Some k ∧ length (drop (k + 4) page) = S len)
    [(html_error_400, 65%nat); (html_error_404, 63%nat); (html_error_414, 74%nat); (html_error_502, 65%nat)].
Proof. repeat (apply Forall_cons; split; [eexists; split; vm_compute; reflexivity|]). constructor. Qed.
