(* ===== verification/ProxyMix.v ===== *)
(** zimrd/main.c, third part: many clients at once.  The events of the clients come in any
    order, and the handlers share the table of connections, the registry and the message
    switches.  What is done for one client is what would be done for it alone, so that
    the requests of different clients are never mixed. *)

From Stdlib Require Import ZArith Lia String.
From stdpp Require Import gmap.
From S2P Require Import MsgSwitch Zsocket.
From S2P Require Export ProxyForward.

Local Open Scope Z_scope.

(** ** The clients *)

(** What each client sends, read by read. *)
Definition clients (ans : call → answer) (c : call) (w : Z → list bytes) : answer * (Z → list bytes) :=
  match c with
  | ZsRead fd _ =>
      match w fd with
      | data :: reads => (Answer (Z.of_nat (length data)) data, fun x => if x =? fd then reads else w x)
      | [] => (Answer 0 [], w)
      end
  | _ => (ans c, w)
  end.

(** ** One client among many *)

Section sim.
Context (ans : call → answer) (fd : Z).
Notation many := (clients ans).
Notation alone := (client ans).

(** Two states of the proxy that are the same for the client on [fd]. *)
Definition agree (p q : proxy_t) : Prop :=
  connections p !! Z.to_nat fd = connections q !! Z.to_nat fd ∧ sites p = sites q ∧
  website_data p = website_data q.

(** The other connections and the registry are as they were. *)
Definition apart (p p' : proxy_t) : Prop :=
  (∀ i, i ≠ Z.to_nat fd → connections p' !! i = connections p !! i) ∧ sites p' = sites p ∧
  website_data p' = website_data p.

(** What the second computation does for the client alone, the first one does among many
    clients, and it does nothing to the others. *)
Definition sim {A} (m1 : pm (Z → list bytes) A) (m2 : pm (list bytes) A) : Prop :=
  ∀ p q w a q' r l, agree p q → m2 q (w fd) = Done (a, q', r, l) →
    ∃ p' w', m1 p w = Done (a, p', w', l) ∧ agree p' q' ∧ apart p p' ∧ w' fd = r ∧ ∀ x, x ≠ fd → w' x = w x.

Lemma sim_bind {A B} (m1 : pm (Z → list bytes) A) m2 (k1 : A → pm (Z → list bytes) B) k2 :
  sim m1 m2 → (∀ a, sim (k1 a) (k2 a)) → sim (m1 ≫= k1) (m2 ≫= k2).
Proof.
  intros Hm Hk p q w b q' r l Ha E. apply em_bind_inv in E as (a & q1 & r1 & l1 & l2 & E1 & E2 & ->).
  destruct (Hm _ _ _ _ _ _ _ Ha E1) as (p1 & w1 & F1 & Ha1 & Ho1 & <- & Hw1).
  destruct (Hk _ _ _ _ _ _ _ _ Ha1 E2) as (p2 & w2 & F2 & Ha2 & Ho2 & Hr2 & Hw2).
  exists p2, w2. unfold mbind, em_bind. rewrite F1, F2. split; [done|]. split; [done|]. split; [|split; [done|]].
  - destruct Ho1 as (O1 & O2 & O3), Ho2 as (P1 & P2 & P3). split; [|split; congruence]. intros i Hi. by rewrite P1, O1.
  - intros x Hx. by rewrite Hw2, Hw1.
Qed.

Lemma sim_quiet {A} (m1 : pm (Z → list bytes) A) m2 :
  (∀ p q w a q' r l, agree p q → m2 q (w fd) = Done (a, q', r, l) →
     r = w fd ∧ ∃ p', m1 p w = Done (a, p', w, l) ∧ agree p' q' ∧ apart p p') → sim m1 m2.
Proof. intros H p q w a q' r l Ha E. destruct (H _ _ _ _ _ _ _ Ha E) as (-> & p' & F & H1 & H2). by exists p', w. Qed.

Lemma sim_ret {A} (a : A) : sim (mret a) (mret a).
Proof. apply sim_quiet. intros p q w a' q' r l Ha [= <- <- <- <-]. split; [done|]. by exists p. Qed.

Lemma sim_pure {A} (x : res A) : sim (pure x) (pure x).
Proof.
  apply sim_quiet. intros p q w a' q' r l Ha E. unfold pure in *. destruct x as [a|]; [|done].
  injection E as <- <- <- <-. split; [done|]. by exists p.
Qed.

Lemma sim_only_if b m1 m2 : sim m1 m2 → sim (only_if b m1) (only_if b m2).
Proof. intros H. destruct b; [done|apply sim_ret]. Qed.

(** A client reads its own socket. *)
Definition own (c : call) : Prop := match c with ZsRead f _ => f = fd | _ => True end.

Lemma sim_ask c : own c → sim (ask many c) (ask alone c).
Proof.
  intros Hc p q w a q' r l Ha E. unfold ask in *.
  destruct c; cbn [clients client] in *; try (injection E as <- <- <- <-; by exists p, w).
  cbn in Hc. subst fd0. destruct (w fd) as [|data reads] eqn:Ew.
  - injection E as <- <- <- <-. by exists p, w.
  - injection E as <- <- <- <-. eexists p, _. split; [done|]. split; [done|]. split; [done|].
    split; [by rewrite Z.eqb_refl|]. intros x Hx. by rewrite (proj2 (Z.eqb_neq _ _)).
Qed.

Lemma sim_tell c : own c → sim (tell many c) (tell alone c).
Proof. intros Hc. unfold tell. apply sim_bind; [by apply sim_ask|]. intros a. apply sim_ret. Qed.

(** The registry is shared and the same. *)
Lemma sim_get {A} (k1 : proxy_t → pm (Z → list bytes) A) k2 :
  (∀ p q, agree p q → sim (k1 p) (k2 q)) → sim (get_state ≫= k1) (get_state ≫= k2).
Proof.
  intros Hk p q w a q' r l Ha E. apply em_bind_inv in E as (q0 & q1 & r1 & l1 & l2 & E1 & E2 & ->).
  injection E1 as <- <- <- <-. destruct (Hk p q Ha _ _ _ _ _ _ _ Ha E2) as (p2 & w2 & F2 & H2).
  exists p2, w2. split; [|done]. unfold mbind, em_bind, get_state. by rewrite F2.
Qed.

Lemma sim_conn_at : sim (conn_at fd) (conn_at fd).
Proof.
  apply sim_quiet. intros p q w a q' r l (Hc & Hs & Hd) E.
  unfold conn_at, get_conn, mbind, em_bind, get_state, pure in *.
  destruct (cell fd) as [i|f] eqn:Hi; [|discriminate E]. apply cell_to_nat in Hi as ->. rewrite Hc.
  destruct (at_index _) as [o|]; [|discriminate E]. destruct (deref o) as [c|]; [|discriminate E].
  injection E as <- <- <- <-. split; [done|]. by exists p.
Qed.

Lemma sim_put_conn o : sim (put_conn fd o) (put_conn fd o).
Proof.
  apply sim_quiet. intros p q w a q' r l (Hc & Hs & Hd) E.
  unfold put_conn, mbind, em_bind, get_state, pure, put_state in *.
  destruct (cell fd) as [i|f] eqn:Hi; [|discriminate E]. apply cell_to_nat in Hi as ->.
  injection E as <- <- <- <-. split; [done|]. eexists. split; [done|]. split.
  - split; [|done]. cbn [connections]. destruct (connections p !! Z.to_nat fd) as [c|] eqn:Ep.
    + rewrite !list_lookup_insert_eq; [done|..]; eapply lookup_lt_Some; [by rewrite <-Hc|done].
    + rewrite !list_insert_ge by (apply lookup_ge_None_1; congruence). by rewrite Ep.
  - split; [|done]. intros i Hi. cbn [connections]. by apply list_lookup_insert_ne.
Qed.

Lemma sim_upd_conn f : sim (upd_conn fd f) (upd_conn fd f).
Proof. unfold upd_conn. apply sim_bind; [apply sim_conn_at|]. intros c. apply sim_put_conn. Qed.
End sim.

Create HintDb sim discriminated.
#[export] Hint Resolve sim_ret sim_pure sim_conn_at sim_put_conn sim_upd_conn : sim.

(** Takes the two computations apart in step; they are the same text. *)
Ltac simulate :=
  repeat first
    [ progress eauto 2 with sim
    | apply sim_only_if
    | apply sim_tell; exact I
    | apply sim_ask; first [exact I|reflexivity]
    | apply sim_get; let H := fresh in intros ? ? H; pose proof (proj1 (proj2 H)); pose proof (proj2 (proj2 H));
        repeat match goal with E : sites _ = sites _ |- _ => rewrite E; clear E end;
        repeat match goal with E : website_data _ = website_data _ |- _ => rewrite E; clear E end; clear H
    | apply sim_bind; [|intros ?]
    | match goal with
      | |- @sim _ _ (if ?b then _ else _) _ => destruct b
      | |- @sim _ _ (match ?x with _ => _ end) _ => destruct x
      end ].

(** ** The handlers of a client *)

Section handlers.
Context (ans : call → answer) (fd : Z).
Notation sim := (sim fd).

Lemma sim_cleanup : sim (cleanup_connection (clients ans) fd) (cleanup_connection (client ans) fd).
Proof. unfold cleanup_connection. simulate. Qed.
#[local] Hint Resolve sim_cleanup : sim.

Lemma sim_refuse page : sim (refuse (clients ans) fd page) (refuse (client ans) fd page).
Proof. unfold refuse. simulate. Qed.
#[local] Hint Resolve sim_refuse : sim.

Lemma sim_msg_write_or f i data k1 k2 :
  sim k1 k2 → sim (msg_write_or (clients ans) f i data fd k1) (msg_write_or (client ans) f i data fd k2).
Proof. intros H. unfold msg_write_or. simulate. Qed.
#[local] Hint Resolve sim_msg_write_or : sim.

Lemma sim_forward_headers a s buffer e :
  sim (forward_headers (clients ans) fd a s buffer e) (forward_headers (client ans) fd a s buffer e).
Proof. unfold forward_headers. cbv zeta. simulate. Qed.
#[local] Hint Resolve sim_forward_headers : sim.

Lemma sim_exread_headers c buffer :
  sim (exread_headers (clients ans) fd c buffer) (exread_headers (client ans) fd c buffer).
Proof. unfold exread_headers. cbv zeta. simulate. Qed.
#[local] Hint Resolve sim_exread_headers : sim.

Lemma sim_exread_body buffer f ptr :
  sim (exread_body (clients ans) fd buffer f ptr) (exread_body (client ans) fd buffer f ptr).
Proof. unfold exread_body. cbv zeta. simulate. Qed.
#[local] Hint Resolve sim_exread_body : sim.

Lemma sim_exread : sim (exread (clients ans) fd) (exread (client ans) fd).
Proof. unfold exread. simulate. Qed.
#[local] Hint Resolve sim_exread : sim.

Lemma sim_read : sim (exsock_event_hdlr (clients ans) fd ZS_EVT_READ_READY)
                     (exsock_event_hdlr (client ans) fd ZS_EVT_READ_READY).
Proof.
  unfold exsock_event_hdlr. change (ZS_EVT_READ_READY =? ZS_EVT_ACCEPT_READY) with false. rewrite Z.eqb_refl.
  cbv match. simulate.
Qed.
End handlers.

(** ** Every order of the reads *)

(** The reads that are handled, one after the other. *)
Fixpoint serve_reads {W} (ext : call → W → answer * W) (fds : list Z) : pm W unit :=
  match fds with
  | [] => mret tt
  | fd :: fds => _ ← exsock_event_hdlr ext fd ZS_EVT_READ_READY; serve_reads ext fds
  end.

(** How often it is the turn of a client. *)
Definition turns (fd : Z) (fds : list Z) : nat := length (filter (λ x, x = fd) fds).

Section many.
Context (ans : call → answer) (F : list Z).
Hypothesis Hnonneg : ∀ fd, fd ∈ F → 0 <= fd.

(** The states, the reads and the calls of each client, were it alone. *)
Lemma serve_reads_alone fds p w (Q Q' : Z → proxy_t) (R : Z → list bytes) (L : Z → list call) :
  (∀ fd, fd ∈ fds → fd ∈ F) → (∀ fd, fd ∈ F → agree fd p (Q fd)) →
  (∀ fd, fd ∈ F → exread_all (client ans) (turns fd fds) fd (Q fd) (w fd) = Done (tt, Q' fd, R fd, L fd)) →
  ∃ p' w' l, serve_reads (clients ans) fds p w = Done (tt, p', w', l) ∧
    ∀ fd, fd ∈ F → agree fd p' (Q' fd) ∧ w' fd = R fd ∧ (∀ c, c ∈ L fd → c ∈ l) ∧
      ∀ f i, (∀ fd', fd' ∈ F → fd' ≠ fd → written f i (L fd') = []) → written f i l = written f i (L fd).
Proof using Hnonneg.
  revert p w Q L. induction fds as [|fd fds IH]; intros p w Q L Hin Ha Hrun.
  { exists p, w, []. split; [done|]. intros fd Hfd. specialize (Hrun fd Hfd). cbn in Hrun. injection Hrun as <- <- <-.
    split; [by apply Ha|]. by split_and!. }
  assert (fd ∈ F) as HF by (apply Hin; by left). pose proof (Hrun fd HF) as E. unfold turns in E.
  rewrite filter_cons_True in E by done. cbn [length exread_all] in E.
  apply em_bind_inv in E as ([] & q1 & r1 & l1 & l2 & E1 & E2 & HL). fold (turns fd fds) in E2.
  destruct (sim_read ans fd p (Q fd) w _ _ _ _ (Ha fd HF) E1) as (p1 & w1 & F1 & Ha1 & (Ho1 & Ho2 & Ho3) & Hr1 & Hw1).
  destruct (IH p1 w1 (λ x, if decide (x = fd) then q1 else Q x) (λ x, if decide (x = fd) then l2 else L x))
    as (p' & w' & l & E & H).
  - intros x Hx. apply Hin. by right.
  - intros x Hx. destruct (decide (x = fd)) as [->|Hne]; [done|]. destruct (Ha x Hx) as (A1 & A2 & A3).
    split; [|split; congruence]. rewrite Ho1; [done|]. pose proof (Hnonneg x Hx). pose proof (Hnonneg fd HF). lia.
  - intros x Hx. destruct (decide (x = fd)) as [->|Hne]; [by rewrite Hr1|]. rewrite Hw1 by done.
    specialize (Hrun x Hx). unfold turns in Hrun. by rewrite filter_cons_False in Hrun by done.
  - exists p', w', (l1 ++ l). split; [cbn [serve_reads]; unfold mbind, em_bind; by rewrite F1, E|]. intros x Hx.
    destruct (H x Hx) as (H1 & H2 & H3 & H4). destruct (decide (x = fd)) as [->|Hne].
    + split; [done|]. split; [done|]. rewrite HL. split.
      * intros c. rewrite !elem_of_app. intros [Hc|Hc]; [by left|right; by apply H3].
      * intros f i Hoth. rewrite !written_app, H4; [done|]. intros y Hy Hyn. rewrite decide_False by done. by apply Hoth.
    + split; [done|]. split; [done|]. split; [intros c Hc; apply elem_of_app; right; by apply H3|].
      intros f i Hoth. pose proof (Hoth fd HF ltac:(done)) as Hz. rewrite HL, written_app in Hz.
      apply app_eq_nil in Hz as [Hz1 Hz2]. rewrite written_app, Hz1, H4; [done|]. intros y Hy Hyn.
      destruct (decide (y = fd)) as [->|]; [done|]. by apply Hoth.
Qed.
End many.

(** ** The requests *)

(** A request of a client, and where it goes: message [rq_id] of the switch [rq_site].  The
    header is complete with the read [rq_data]. *)
Record request := Request {
  rq_site : Z;
  rq_id : Z;
  rq_addr : bytes;
  rq_conn : conn_data_t;
  rq_exlisn : Z;
  rq_waits : list bytes;
  rq_data : bytes;
  rq_body : list bytes;
  rq_end : nat;
  rq_type : Z;
  rq_len : Z
}.

Definition rq_reads (r : request) : list bytes := rq_waits r ++ rq_data r :: rq_body r.
Definition rq_got (r : request) : bytes := mjoin (rq_waits r) ++ rq_data r.
Definition rq_content (r : request) : bytes :=
  if rq_len r =? 0 then [] else drop (rq_end r) (rq_got r) ++ mjoin (rq_body r).
Definition rq_message (r : request) : bytes := rq_addr r ++ [0] ++ take (rq_end r) (rq_got r) ++ rq_content r.

(** The client on [fd] has connected, and its request is one that the proxy takes. *)
Record accepted (ans : call → answer) (p : proxy_t) (fd : Z) (r : request) : Prop := {
  ac_answers : answers_ok ans fd (rq_site r) (rq_id r);
  ac_site : rq_site r ≠ -1;
  ac_addr : length (rq_addr r) = 4%nat;
  ac_conn : has_conn p fd (rq_conn r);
  ac_waiting : waiting (rq_addr r) (rq_conn r) (rq_exlisn r) [];
  ac_waits : incomplete [] (rq_waits r);
  ac_data : rq_data r ≠ [];
  ac_got : (length (rq_got r) <= PACK_DATA_SIZE)%nat;
  ac_head : good_head ans (rq_site r) p (is_https (rq_conn r)) (rq_exlisn r) (rq_got r) (rq_end r) (rq_type r) (rq_len r);
  ac_found : site_found (rq_site r) p;
  ac_body : Forall (λ d, d ≠ [] ∧ (length d <= PACK_DATA_SIZE)%nat) (rq_body r);
  ac_empty : rq_len r = 0 → rq_body r = [];
  ac_len : rq_len r = Z.of_nat (length (rq_content r));
  ac_size : Z.of_nat (length (rq_message r)) < 2 ^ 64
}.

Lemma has_conn_nonneg p fd c : has_conn p fd c → 0 <= fd.
Proof. intros (i & H & _). unfold cell in H. destruct ((0 <=? fd) && _) eqn:E; [|discriminate H]. lia. Qed.

Lemma accepted_alone ans p fd r :
  accepted ans p fd r →
  ∃ q l, exread_all (client ans) (length (rq_reads r)) fd p (rq_reads r) = Done (tt, q, [], l) ∧
    written (rq_site r) (rq_id r) l = le_bytes 8 (Z.of_nat (length (rq_message r))) ++ rq_message r ∧
    MsgFlush (rq_site r) (rq_id r) ∈ l ∧ forallb (goes_to (rq_site r) (rq_id r)) l = true ∧
    forwarded fd (rq_site r) (rq_id r) p q 0 (rq_type r).
Proof.
  intros [H1 H2 H3 H4 H5 H6 H7 H8 H9 H10 H11 H12 H13 H14].
  destruct (proxy_forwards_wp ans fd (rq_site r) (rq_id r) (rq_addr r) p (rq_conn r) (rq_exlisn r) (rq_waits r)
    (rq_data r) (rq_body r) (rq_end r) (rq_type r) (rq_len r) H1 H2 H3 H4 H5 H6 H7 H8 H9 H10 H11 H12 H13 H14)
    as ([] & q & w & l & E & -> & Hw & Hf & Hg & Hd).
  exists q, l. unfold rq_reads. rewrite length_app. cbn [length]. split; [exact E|]. split; [exact Hw|].
  split; [by apply flushed_here|]. by split.
Qed.

(** C11: the requests of many clients do not mix.  The clients send their requests in pieces,
    and the pieces come in any order between the clients; when each client has had as many
    turns as its request has pieces, the proxy has sent, for each of them, just its own
    request to its own message: the length, the address, the header and the body, every byte
    once and in order, and has flushed the message. *)
Theorem requests_not_mixed (ans : call → answer) (p : proxy_t) (reqs : gmap Z request) (fds : list Z)
    (w : Z → list bytes) :
  (∀ fd r, reqs !! fd = Some r → accepted ans p fd r ∧ w fd = rq_reads r ∧ turns fd fds = length (rq_reads r)) →
  (∀ fd fd' r r', reqs !! fd = Some r → reqs !! fd' = Some r' → fd ≠ fd' →
     (rq_site r, rq_id r) ≠ (rq_site r', rq_id r')) →
  (∀ fd, fd ∈ fds → is_Some (reqs !! fd)) →
  ∃ p' w' l, serve_reads (clients ans) fds p w = Done (tt, p', w', l) ∧
    ∀ fd r, reqs !! fd = Some r →
      written (rq_site r) (rq_id r) l = le_bytes 8 (Z.of_nat (length (rq_message r))) ++ rq_message r ∧
      MsgFlush (rq_site r) (rq_id r) ∈ l ∧ w' fd = [] ∧
      ∃ c, has_conn p' fd c ∧ website_sockfd c = rq_site r ∧ c_msgid c = rq_id r ∧ postlen c = POSTLEN_DONE.
Proof.
  intros Hok Hdiff Hfds.
  set (run := λ fd, exread_all (client ans) (turns fd fds) fd p (w fd)).
  set (Q := λ fd, match run fd with Done (_, q, _, _) => q | Fault _ => p end).
  set (L := λ fd, match run fd with Done (_, _, _, l) => l | Fault _ => [] end).
  assert (∀ fd r, reqs !! fd = Some r → run fd = Done (tt, Q fd, [], L fd) ∧
    written (rq_site r) (rq_id r) (L fd) = le_bytes 8 (Z.of_nat (length (rq_message r))) ++ rq_message r ∧
    MsgFlush (rq_site r) (rq_id r) ∈ L fd ∧ forallb (goes_to (rq_site r) (rq_id r)) (L fd) = true ∧
    forwarded fd (rq_site r) (rq_id r) p (Q fd) 0 (rq_type r)) as Hrun.
  { intros fd r Hr. destruct (Hok fd r Hr) as (Ha & Hw & Ht). destruct (accepted_alone _ _ _ _ Ha) as (q & l & E & H).
    assert (run fd = Done (tt, q, [], l)) as Er by (unfold run; by rewrite Ht, Hw).
    unfold Q, L. by rewrite Er. }
  assert (∀ fd, fd ∈ (map_to_list reqs).*1 ↔ is_Some (reqs !! fd)) as HF.
  { intros fd. rewrite list_elem_of_fmap. split.
    - intros ([x r] & -> & H%elem_of_map_to_list). by eexists.
    - intros [r Hr]. exists (fd, r). split; [done|]. by apply elem_of_map_to_list. }
  destruct (serve_reads_alone ans (map_to_list reqs).*1) with (fds := fds) (p := p) (w := w) (Q := λ _ : Z, p) (Q' := Q)
    (R := λ _ : Z, [] : list bytes) (L := L) as (p' & w' & l & E & H).
  - intros fd [r Hr]%HF. destruct (Hok fd r Hr) as ([] & _). by eapply has_conn_nonneg.
  - intros fd Hfd. by apply HF, Hfds.
  - done.
  - intros fd [r Hr]%HF. by apply Hrun with (r := r).
  - exists p', w', l. split; [exact E|]. intros fd r Hr. destruct (Hrun fd r Hr) as (_ & Hw & Hf & _ & [Hc _ _]).
    destruct (H fd) as ((Ac & _) & Hw' & Hin & Hwr); [by apply HF; exists r|].
    split; [rewrite Hwr; [exact Hw|]|split; [by apply Hin|split; [exact Hw'|]]].
    + intros fd' [r' Hr']%HF Hne. destruct (Hrun fd' r' Hr') as (_ & _ & _ & Hg & _).
      eapply written_elsewhere; [exact Hg|]. by apply (Hdiff fd' fd).
    + destruct Hc as (c & (i & Hi & Hci) & C1 & C2 & _ & _ & C3). exists c. split; [|done].
      exists i. split; [exact Hi|]. rewrite (cell_to_nat _ _ Hi) in *. by rewrite Ac.
Qed.

(** ** Two clients at once *)

Definition mix_ans (c : call) : answer :=
  match c with
  | ZsGetAddr _ => Answer 1 [0; 0; 0; 0]
  | MsgOpen _ client => Answer (if client =? 9 then 3 else 4) []
  | _ => Answer 0 []
  end.

Definition mix_conn : conn_data_t := ConnData 4 [10; 0; 0; 8] (-1) 0 0 0 false None 0.
Definition mix_proxy : proxy_t :=
  Proxy (replicate 9 None ++ Some sample_conn :: Some mix_conn :: replicate 1013 None)
        (sites sample_proxy) (website_data sample_proxy).

Definition mix_get : bytes := str "GET /y HTTP/1.1" ++ HTTP_HDR_ENDL ++ str "Host: a.org" ++ CRLF2.
Definition post_request : request :=
  Request 5 3 [10; 0; 0; 7] sample_conn 4 [sample_head1] sample_head2 [str "cde"] 52 HTTP_POST_TYPE 5.
Definition get_request : request :=
  Request 5 4 [10; 0; 0; 8] mix_conn 4 [take 10 mix_get] (drop 10 mix_get) [] (length mix_get) HTTP_GET_TYPE 0.

Definition mix_requests : gmap Z request := {[9 := post_request; 10 := get_request]}.
Definition mix_reads (fd : Z) : list bytes :=
  if fd =? 9 then rq_reads post_request else if fd =? 10 then rq_reads get_request else [].

Lemma post_accepted : accepted mix_ans mix_proxy 9 post_request.
Proof.
  split.
  - split; [intros; discriminate|reflexivity].
  - discriminate.
  - reflexivity.
  - exists 9%nat. by split.
  - by split.
  - split; [discriminate|]. split; [apply Nat.ltb_lt; vm_compute; reflexivity|]. split; [vm_compute; reflexivity|exact I].
  - discriminate.
  - apply Nat.leb_le. vm_compute. reflexivity.
  - split; [vm_compute; reflexivity|apply Nat.leb_le; vm_compute; reflexivity|vm_compute; reflexivity| |
      vm_compute; reflexivity|intros _; apply Z.leb_le; vm_compute; reflexivity].
    exists (str "a.org/x"), [0; 0; 0; 0], 0%nat, sample_site.
    split; [vm_compute; reflexivity|]. split; [discriminate|]. split; [reflexivity|]. by split_and!.
  - exists 0%nat, sample_site. by split_and!.
  - constructor; [|constructor]. split; [discriminate|]. apply Nat.leb_le. vm_compute. reflexivity.
  - discriminate.
  - vm_compute. reflexivity.
  - apply Z.ltb_lt. vm_compute. reflexivity.
Qed.

Lemma get_accepted : accepted mix_ans mix_proxy 10 get_request.
Proof.
  split.
  - split; [intros; discriminate|reflexivity].
  - discriminate.
  - reflexivity.
  - exists 10%nat. by split.
  - by split.
  - split; [discriminate|]. split; [apply Nat.ltb_lt; vm_compute; reflexivity|]. split; [vm_compute; reflexivity|exact I].
  - discriminate.
  - apply Nat.leb_le. vm_compute. reflexivity.
  - split; [vm_compute; reflexivity|apply Nat.leb_le; vm_compute; reflexivity|vm_compute; reflexivity| |
      reflexivity|intros H; by destruct H].
    exists (str "a.org/y"), [0; 0; 0; 0], 0%nat, sample_site.
    split; [vm_compute; reflexivity|]. split; [discriminate|]. split; [reflexivity|]. by split_and!.
  - exists 0%nat, sample_site. by split_and!.
  - constructor.
  - reflexivity.
  - reflexivity.
  - apply Z.ltb_lt. vm_compute. reflexivity.
Qed.

Lemma mix_requests_lookup fd r :
  mix_requests !! fd = Some r → fd = 9 ∧ r = post_request ∨ fd = 10 ∧ r = get_request.
Proof.
  unfold mix_requests.
  intros [[<- <-]|[_ [<- <-]%lookup_singleton_Some]]%lookup_insert_Some; [by left|by right].
Qed.

Lemma requests_not_mixed_witness :
  ∃ p' w' l, serve_reads (clients mix_ans) [9; 10; 9; 10; 9] mix_proxy mix_reads = Done (tt, p', w', l) ∧
    written 5 3 l = [62; 0; 0; 0; 0; 0; 0; 0] ++ [10; 0; 0; 7] ++ [0] ++ sample_header ++ str "abcde" ∧
    written 5 4 l = [37; 0; 0; 0; 0; 0; 0; 0] ++ [10; 0; 0; 8] ++ [0] ++ mix_get.
Proof.
  destruct (requests_not_mixed mix_ans mix_proxy mix_requests [9; 10; 9; 10; 9] mix_reads) as (p' & w' & l & E & H).
  - intros fd r [[-> ->]|[-> ->]]%mix_requests_lookup.
    + split; [exact post_accepted|]. split; reflexivity.
    + split; [exact get_accepted|]. split; reflexivity.
  - intros fd fd' r r' [[-> ->]|[-> ->]]%mix_requests_lookup [[-> ->]|[-> ->]]%mix_requests_lookup Hne;
      discriminate || by destruct Hne.
  - apply Forall_forall. repeat constructor; by eexists.
  - exists p', w', l. split; [exact E|].
    destruct (H 9 post_request eq_refl) as [H1 _]. destruct (H 10 get_request eq_refl) as [H2 _].
    change (rq_site post_request) with 5 in H1. change (rq_id post_request) with 3 in H1.
    change (rq_site get_request) with 5 in H2. change (rq_id get_request) with 4 in H2.
    split; [rewrite H1|rewrite H2]; vm_compute; reflexivity.
Defined.
