(* ===== verification/ProxyInv.v ===== *)
(** zimrd/main.c, fourth part: an invariant of the proxy.  A connection whose request was
    routed names the socket of a website that is registered, and what it has read lies
    inside its buffer.  The computations that keep it; [exread] is one. *)

From Stdlib Require Import ZArith Lia String.
From stdpp Require Import gmap.
From S2P Require Import MsgSwitch Zsocket.
From S2P Require Export ProxyForward.

Local Open Scope Z_scope.

(** ** Lemmas on the registry *)

Lemma find_loop_elem url protocol ip h l len found a :
  find_loop url protocol ip h l len found = Done (Some a) → found = Some a ∨ a ∈ l.
Proof.
  revert len found. induction l as [|b l IH]; intros len found H; cbn [find_loop] in H.
  - injection H as ->. by left.
  - destruct (h !! b); [|done]. cbn [deref mbind res_bind] in H. destruct (_ && _).
    + apply IH in H as [H|H]; [injection H as ->; right; by left | right; by right].
    + apply IH in H as [H|H]; [by left | right; by right].
Qed.

Lemma website_find_elem r url protocol ip a :
  website_find r url protocol ip = Done (Some a) → a ∈ websites r.
Proof.
  unfold website_find. destruct (initialized r); [|done]. intros H.
  apply find_loop_elem in H as [H|H]; done.
Qed.

(** ** The invariant *)

(** The website that a connection names is there; its buffer is a block of a packet. *)
Record conn_ok (r : registry) (c : conn_data_t) : Prop := {
  co_site : website_sockfd c ≠ -1 →
    ∃ a s, a ∈ websites r ∧ heap r !! a = Some s ∧ w_sockfd s = website_sockfd c;
  co_buffer : ∀ b, c_buffer c = Some b → length b = PACK_DATA_SIZE ∧ (bufferlen c <= PACK_DATA_SIZE)%nat
}.

Record proxy_inv (p : proxy_t) : Prop := {
  pv_len : length (connections p) = FD_SETSIZE;
  pv_sites : registry_inv (sites p);
  pv_init : initialized (sites p) = true;
  pv_data : ∀ a, a ∈ websites (sites p) → is_Some (website_data p !! a);
  pv_conns : ∀ i c, connections p !! i = Some (Some c) → conn_ok (sites p) c
}.

(** What the kernel promises: a read gives no more than was asked for. *)
Definition reads_ok {W} (ext : call → W → answer * W) : Prop :=
  ∀ fd n w, a_ret (fst (ext (ZsRead fd n) w)) <= Z.of_nat n.

(** ** Computations that keep it *)

Notation keep := (keeps proxy_inv).

Section keep.
Context {W : Type}.

Lemma keep_get_conn fd : keep (get_conn fd : pm W _).
Proof.
  apply keeps_bind; [apply keeps_get|]. intros p. apply keeps_bind; [apply keeps_pure|]. intros. apply keeps_pure.
Qed.

Lemma keep_conn_at fd : keep (conn_at fd : pm W _).
Proof. apply keeps_bind; [apply keep_get_conn|]. intros. apply keeps_pure. Qed.

Lemma with_conn_inv p fd o :
  proxy_inv p → (∀ c, o = Some c → conn_ok (sites p) c) → proxy_inv (with_conn p fd o).
Proof.
  intros [H1 H2 H3 H4 H5] Ho. split; try done.
  - simpl. by rewrite length_insert.
  - intros i c Hc. simpl in Hc. apply list_lookup_insert_Some in Hc as [(<- & Hx & _)|[_ Hc]]; eauto.
Qed.

Lemma put_conn_inv fd o p w u p' (w' : W) l :
  put_conn fd o p w = Done (u, p', w', l) → p' = with_conn p fd o ∧ w' = w ∧ l = [].
Proof.
  unfold put_conn, mbind, em_bind, get_state, pure, put_state. destruct (cell fd) eqn:E; [|done].
  apply cell_to_nat in E as ->. by intros [= <- <- <- <-].
Qed.

Lemma keep_put_None fd : keep (put_conn fd None : pm W unit).
Proof. intros p w b p' w' l Hp H. apply put_conn_inv in H as (-> & _). by apply with_conn_inv. Qed.

Lemma conn_at_inv fd p w c p' (w' : W) l :
  conn_at fd p w = Done (c, p', w', l) → p' = p ∧ w' = w ∧ l = [] ∧ has_conn p fd c.
Proof.
  unfold conn_at, get_conn, mbind, em_bind, get_state, pure, has_conn. destruct (cell fd) as [i|]; [|done].
  destruct (connections p !! i) as [[c0|]|] eqn:E; simpl; try done.
  intros [= <- <- <- <-]. split_and!; eauto.
Qed.

Lemma has_conn_ok p fd c : proxy_inv p → has_conn p fd c → conn_ok (sites p) c.
Proof. intros Hp (i & _ & Hc). by eapply pv_conns. Qed.

Lemma upd_conn_inv fd f p w u p' (w' : W) l :
  upd_conn fd f p w = Done (u, p', w', l) →
  ∃ c, has_conn p fd c ∧ p' = with_conn p fd (Some (f c)) ∧ w' = w ∧ l = [].
Proof.
  intros H. unfold upd_conn in H. apply em_bind_inv in H as (c & p1 & w1 & l1 & l2 & E & H & ->).
  apply conn_at_inv in E as (-> & -> & -> & Hc). apply put_conn_inv in H as (-> & -> & ->). by exists c.
Qed.

Lemma keep_upd fd f : (∀ r c, conn_ok r c → conn_ok r (f c)) → keep (upd_conn fd f : pm W unit).
Proof.
  intros Hf p w b p' w' l Hp H. apply upd_conn_inv in H as (c & Hc & -> & _).
  apply with_conn_inv; [done|]. intros c' [= <-]. apply Hf. by eapply has_conn_ok.
Qed.

(** An update that leaves the website and the buffer as they are. *)
Lemma conn_ok_same r c c' :
  conn_ok r c → website_sockfd c' = website_sockfd c → c_buffer c' = c_buffer c → bufferlen c' = bufferlen c →
  conn_ok r c'.
Proof. intros [H1 H2] E1 E2 E3. split; [by rewrite E1|by rewrite E2, E3]. Qed.
Lemma conn_ok_no_buffer r c n : conn_ok r c → conn_ok r (set_buffer None n c).
Proof. by intros [H1 H2]. Qed.
End keep.

#[export] Hint Resolve keep_get_conn keep_conn_at keep_put_None : zimr.

(** Takes a computation apart. *)
Ltac keeping :=
  repeat first
    [ progress eauto 1 with zimr
    | apply keeps_only_if
    | apply keep_upd; intros ? ? ?; first [by eapply conn_ok_same | by apply conn_ok_no_buffer]
    | apply keeps_bind; [|intros ?]
    | match goal with
      | |- keep (if ?b then _ else _) => destruct b
      | |- keep (match ?o with Some _ => _ | None => _ end) => destruct o
      | |- keep (let '(_, _) := ?x in _) => destruct x
      end ].

(** [H] is a run of a computation that keeps the invariant. *)
Ltac rest_keeps H :=
  match type of H with
  | ?m ?p ?w = _ => let K := fresh in assert (keep m) as K by keeping; exact (K p w _ _ _ _ ltac:(assumption) H)
  end.

Section handlers.
Context {W : Type} (ext : call → W → answer * W).

Lemma keep_cleanup fd : keep (cleanup_connection ext fd).
Proof. unfold cleanup_connection. keeping. Qed.
#[local] Hint Resolve keep_cleanup : zimr.

Lemma keep_refuse fd page : keep (refuse ext fd page).
Proof. unfold refuse. keeping. Qed.
#[local] Hint Resolve keep_refuse : zimr.

Lemma keep_msg_write_or fd id data sockfd k : keep k → keep (msg_write_or ext fd id data sockfd k).
Proof. intros H. unfold msg_write_or. keeping. Qed.

Lemma keep_forward sockfd a s buffer e : keep (forward_headers ext sockfd a s buffer e).
Proof. unfold forward_headers. cbv zeta. keeping. Qed.
#[local] Hint Resolve keep_forward : zimr.

(** The website that is found is registered. *)
Lemma keep_route sockfd buffer e c url protocol ip :
  keep (p ← get_state;
        o ← pure (website_find (sites p) url protocol ip);
        match o with
        | None => _ ← refuse ext sockfd html_error_404; mret None
        | Some website =>
            w ← pure (deref (heap (sites p) !! website));
            _ ← upd_conn sockfd (set_website_sockfd (w_sockfd w));
            exlisn ← pure (deref (website_data p !! website));
            if negb (exlisn =? exlisnfd c) then _ ← refuse ext sockfd html_error_404; mret None
            else forward_headers ext sockfd website w buffer e
        end).
Proof.
  intros p w o p' w' l Hp H.
  apply em_bind_inv in H as (p0 & p1 & w1 & l1 & l2 & E & H & _). injection E as <- <- <- <-.
  apply em_bind_inv in H as (f & p2 & w2 & l3 & l4 & E & H & _).
  unfold pure in E. destruct (website_find _ _ _ _) as [f'|] eqn:Ef; [|done]. injection E as <- <- <- <-.
  destruct f' as [a|].
  - apply em_bind_inv in H as (s & p3 & w3 & l5 & l6 & E & H & _). unfold pure in E.
    destruct (heap (sites p) !! a) as [s'|] eqn:Es; [|done]. injection E as <- <- <- <-.
    apply em_bind_inv in H as (u & p4 & w4 & l7 & l8 & E & H & _).
    assert (proxy_inv p4) as Hp4.
    { apply upd_conn_inv in E as (c0 & Hc & -> & _). apply with_conn_inv; [done|]. intros c' [= <-].
      destruct (has_conn_ok _ _ _ Hp Hc) as [_ Hb]. split; [|exact Hb]. intros _.
      exists a, s'. split; [by eapply website_find_elem|]. done. }
    rest_keeps H.
  - rest_keeps H.
Qed.
#[local] Hint Resolve keep_route : zimr.

Lemma keep_exread_headers sockfd c buffer : keep (exread_headers ext sockfd c buffer).
Proof. unfold exread_headers. cbv zeta. keeping. Qed.
#[local] Hint Resolve keep_exread_headers : zimr.

Lemma keep_exread_body sockfd buffer fd ptr : keep (exread_body ext sockfd buffer fd ptr).
Proof. unfold exread_body. cbv zeta. keeping. Qed.
#[local] Hint Resolve keep_exread_body : zimr.

Lemma keep_site_of sockfd fd :
  keep (p ← get_state;
        o ← pure (website_get_by_sockfd (sites p) fd);
        match o with
        | Some website => w ← pure (deref (heap (sites p) !! website)); mret (Some (w_sockfd w, 0%nat))
        | None => _ ← refuse ext sockfd html_error_502; mret None
        end).
Proof. keeping. Qed.

(** A connection whose buffer has a new content. *)
Lemma with_buffer_inv p fd c b n :
  proxy_inv p → has_conn p fd c → length b = PACK_DATA_SIZE → (n <= PACK_DATA_SIZE)%nat →
  proxy_inv (with_conn p fd (Some (set_buffer (Some b) n c))).
Proof.
  intros Hp Hc Hb Hn. apply with_conn_inv; [done|]. intros c' [= <-].
  destruct (has_conn_ok _ _ _ Hp Hc) as [Hs _]. split; [exact Hs|]. by intros b' [= <-].
Qed.

Lemma exread_buffer_ok r c :
  conn_ok r c → length (exread_buffer c).1 = PACK_DATA_SIZE ∧ ((exread_buffer c).2 <= PACK_DATA_SIZE)%nat.
Proof.
  intros [_ H]. unfold exread_buffer. destruct (c_buffer c) as [b|]; [by apply H|].
  cbn [fst snd]. rewrite length_replicate. split; [reflexivity|lia].
Qed.

Lemma keep_exread sockfd : reads_ok ext → keep (exread ext sockfd).
Proof.
  intros Hreads p w x p' w' l Hp H. unfold exread in H.
  apply em_bind_inv in H as (c & p1 & w1 & l1 & l2 & E & H & _). apply conn_at_inv in E as (-> & -> & _ & Hc).
  destruct (exread_buffer_ok _ _ (has_conn_ok _ _ _ Hp Hc)) as [Hlen Hused].
  destruct (exread_buffer c) as [buffer used]. cbn [fst snd] in Hlen, Hused.
  apply em_bind_inv in H as (a & p1 & w1 & l3 & l4 & E & H & _).
  pose proof (Hreads sockfd (PACK_DATA_SIZE - used)%nat w) as Hn.
  unfold ask in E. destruct (ext _ w) as [a' w2] eqn:Ea. injection E as <- <- <- <-. simpl in Hn.
  apply em_bind_inv in H as (buffer' & p1 & w1 & l5 & l6 & E & H & _). unfold pure in E.
  destruct (buf_write _ _ _) as [buffer2|] eqn:Ew; [|done]. injection E as <- <- <- <-.
  apply buf_write_length in Ew. rewrite Hlen in Ew.
  apply em_bind_inv in H as ([] & p1 & w1 & l7 & l8 & E & H & _).
  apply upd_conn_inv in E as (c1 & Hc1 & -> & -> & _).
  pose proof (with_buffer_inv p sockfd c1 buffer2 used Hp Hc1 Ew Hused) as Hp1.
  destruct (Z.leb_spec (a_ret a') 0) as [|Hpos]; [rest_keeps H|].
  destruct (_ =? _); [rest_keeps H|].
  apply em_bind_inv in H as ([] & p2 & w3 & l9 & l10 & E & H & _).
  apply upd_conn_inv in E as (c2 & Hc2 & -> & -> & _).
  pose proof (with_buffer_inv _ sockfd c2 buffer2 (used + Z.to_nat (a_ret a'))%nat Hp1 Hc2 Ew ltac:(lia)) as Hp2.
  rest_keeps H.
Qed.
#[local] Hint Resolve keep_exread : zimr.
End handlers.

#[export] Hint Resolve keep_cleanup keep_refuse keep_exread_body keep_exread : zimr.
