(* ===== verification/ProxySites.v ===== *)
(** zimrd/main.c, fifth part: websites that come and go, the handlers of the events, and
    what holds in every state that the event loop reaches. *)

From Stdlib Require Import ZArith Lia String.
From stdpp Require Import gmap.
From S2P Require Import MsgSwitch Zsocket.
From S2P Require Export ProxyInv.

Local Open Scope Z_scope.

(** ** A website that goes *)

(** The connections without those of the switch [fd]. *)
Definition without_switch (fd : Z) (o : option conn_data_t) : option conn_data_t :=
  match o with Some c => if website_sockfd c =? fd then None else Some c | None => None end.

Lemma without_switch_Some fd o c : without_switch fd o = Some c ↔ o = Some c ∧ website_sockfd c ≠ fd.
Proof.
  destruct o as [c'|]; simpl; [|by split; [|intros []]]. destruct (Z.eqb_spec (website_sockfd c') fd).
  - split; [done|]. intros [[= ->] ?]. done.
  - split; [intros [= ->]; done|]. by intros [[= ->] _].
Qed.

Section sites.
Context {W : Type} (ext : call → W → answer * W).

Lemma pwp_get_conn i o p (w : W) (P : option conn_data_t → proxy_t → W → list call → Prop) :
  (i < FD_SETSIZE)%nat → connections p !! i = Some o → P o p w [] → ewp (get_conn (Z.of_nat i)) p w P.
Proof.
  intros Hi Ho HP. unfold get_conn. apply ewp_bind, ewp_get, ewp_bind. eapply ewp_pure.
  - apply cell_Done. lia.
  - rewrite Nat2Z.id, Ho. by eapply ewp_pure.
Qed.

Lemma pwp_cleanup fd c p w (P : unit → proxy_t → W → list call → Prop) :
  has_conn p fd c → (∀ w' l, ZsClose fd ∈ l → P tt (with_conn p fd None) w' l) →
  ewp (cleanup_connection ext fd) p w P.
Proof.
  intros Hc HP. unfold cleanup_connection. apply ewp_bind. eapply pwp_conn_at; [done|]. apply ewp_bind.
  eapply (ewp_mono _ _ _ (λ _ p1 _ _, p1 = p)).
  { destruct (_ =? _); [by apply ewp_ret|]. apply ewp_bind, ewp_ask. unfold only_if.
    destruct (negb _); [by apply ewp_tell | by apply ewp_ret]. }
  intros _ p1 w1 l1 ->. apply ewp_bind, ewp_tell. eapply pwp_put_conn; [done|]. apply HP.
  set_solver.
Qed.

(** The loop over the connections from the [i]-th on. *)
Lemma pwp_cleanup_website n i fd p w :
  (i + n = length (connections p))%nat → length (connections p) = FD_SETSIZE →
  ewp (cleanup_website ext n (Z.of_nat i) fd) p w (λ _ p' _ l,
    sites p' = sites p ∧ website_data p' = website_data p ∧
    connections p' = take i (connections p) ++ (without_switch fd <$> drop i (connections p)) ∧
    ∀ j c, (i <= j)%nat → connections p !! j = Some (Some c) → website_sockfd c = fd → ZsClose (Z.of_nat j) ∈ l).
Proof.
  revert i p w. induction n as [|n IH]; intros i p w Hn Hlen.
  { apply ewp_ret. split_and!; try done.
    - rewrite drop_ge, take_ge by (simpl in *; lia). by rewrite app_nil_r.
    - intros j c Hj Hc. apply lookup_lt_Some in Hc. simpl in *. lia. }
  destruct (lookup_lt_is_Some_2 (connections p) i) as [o Ho]; [lia|]. cbn [cleanup_website].
  apply ewp_bind. eapply pwp_get_conn; [lia|done|]. apply ewp_bind.
  eapply (ewp_mono _ _ _ (λ _ p1 _ l1, sites p1 = sites p ∧ website_data p1 = website_data p ∧
    connections p1 = <[i := without_switch fd o]> (connections p) ∧
    ∀ c, o = Some c → website_sockfd c = fd → ZsClose (Z.of_nat i) ∈ l1)).
  { destruct o as [c|]; simpl; [|apply ewp_ret; by rewrite list_insert_id].
    destruct (Z.eqb_spec (website_sockfd c) fd) as [E|E]; simpl.
    - eapply pwp_cleanup.
      + exists i. split; [|done]. rewrite cell_Done by lia. by rewrite Nat2Z.id.
      + intros w' l Hl. split_and!; simpl; try done. by rewrite Nat2Z.id.
    - apply ewp_ret. rewrite list_insert_id by done. split_and!; try done. by intros ? [= <-]. }
  intros _ p1 w1 l1 (E1 & E2 & E3 & E4). replace (Z.of_nat i + 1) with (Z.of_nat (S i)) by lia.
  eapply ewp_mono; [apply IH; rewrite E3, length_insert; lia|].
  intros _ p2 w2 l2 (F1 & F2 & F3 & F4). rewrite F1, F2, E1, E2. split_and!; [done|done| |].
  - rewrite F3, E3. rewrite (take_S_r _ _ (without_switch fd o)) by (apply list_lookup_insert_eq; lia).
    rewrite take_insert_ge, drop_insert_lt by lia. rewrite (drop_S (connections p) o i Ho).
    by rewrite <- app_assoc.
  - intros j c Hj Hc Hfd. rewrite app_nil_l, elem_of_app.
    destruct (decide (j = i)) as [->|Hne]; [left; apply (E4 c); [congruence|done]|].
    right. apply (F4 j c); [lia| |done]. by rewrite E3, list_lookup_insert_ne by lia.
Qed.

(** The proxy without the website at [a], whose switch is [fd]. *)
Definition without_site (p : proxy_t) (a : nat) (fd : Z) : proxy_t :=
  Proxy (without_switch fd <$> connections p)
    (Registry true (default_website_options (sites p)) (filter (λ b, b ≠ a) (websites (sites p)))
       (delete a (heap (sites p))) (next_addr (sites p)))
    (delete a (website_data p)).

Lemma pwp_remove_website fd a p w :
  proxy_inv p → website_get_by_sockfd (sites p) fd = Done (Some a) →
  ewp (remove_website ext fd) p w (λ b p' _ l, b = true ∧ p' = without_site p a fd ∧
    ∀ j c, connections p !! j = Some (Some c) → website_sockfd c = fd → ZsClose (Z.of_nat j) ∈ l).
Proof.
  intros Hp Hg. pose proof Hp as [H1 H2 H3 H4 H5]. destruct (get_by_sockfd_found _ _ _ Hg) as [Ha (s & Hs & Hfd)].
  destruct (H4 a Ha) as [exl Hex]. unfold remove_website. apply ewp_bind, ewp_get, ewp_bind.
  eapply ewp_pure; [exact Hg|]. apply ewp_bind. eapply ewp_pure; [by rewrite Hex|].
  apply ewp_bind. eapply ewp_pure; [by rewrite Hs|]. rewrite Hfd. apply ewp_bind.
  eapply ewp_mono; [apply (pwp_cleanup_website _ 0); lia|].
  intros _ p1 w1 l1 (E1 & E2 & E3 & E4). apply ewp_bind, ewp_tell, ewp_bind, ewp_tell, ewp_bind.
  eapply (ewp_mono _ _ _ (λ _ p2 _ _, p2 = p1)).
  { unfold only_if. destruct (negb _); [by apply ewp_tell | by apply ewp_ret]. }
  intros _ p2 w2 l2 ->. apply ewp_bind, ewp_get, ewp_bind. eapply ewp_pure.
  { rewrite E1. apply (website_remove_spec _ a H2 H3). eauto. }
  apply ewp_bind. eexists tt, _, w2, []. split; [done|]. apply ewp_ret. split; [done|]. split.
  - unfold without_site. by rewrite E2, E3.
  - intros j c Hc Hj. rewrite !elem_of_app. do 4 right. left. by apply (E4 j c); [lia|..].
Qed.

Lemma without_site_inv p a fd s :
  proxy_inv p → heap (sites p) !! a = Some s → w_sockfd s = fd → proxy_inv (without_site p a fd).
Proof.
  intros [H1 H2 H3 H4 H5] Hs Hfd. split; simpl; [by rewrite length_fmap|by apply registry_inv_remove|done|..].
  - intros b Hb. apply list_elem_of_filter in Hb as [Hne Hb]. rewrite lookup_delete_ne by done. by apply H4.
  - intros j c Hc. rewrite list_lookup_fmap in Hc. destruct (connections p !! j) as [o|] eqn:Hj; [|done].
    simpl in Hc. injection Hc as Hc. apply without_switch_Some in Hc as [-> Hne].
    destruct (H5 j c Hj) as [Hsite Hbuf]. split; [|exact Hbuf]. intros Hm.
    destruct (Hsite Hm) as (b & s' & Hb & Hs' & Hfd'). exists b, s'.
    assert (b ≠ a) as Hba by (intros ->; simplify_eq). simpl. rewrite lookup_delete_ne by done.
    split_and!; [|done..]. by apply list_elem_of_filter.
Qed.

Lemma keep_remove_website fd : keep (remove_website ext fd).
Proof.
  intros p w b p' w' l Hp H. pose proof H as Hrun. unfold remove_website in H.
  apply em_bind_inv in H as (p0 & p1 & w1 & l1 & l2 & E & H & _). injection E as <- <- <- <-.
  apply em_bind_inv in H as (o & p1 & w1 & l3 & l4 & E & H & _). unfold pure in E.
  destruct (website_get_by_sockfd (sites p) fd) as [o'|] eqn:Eg; [|done]. injection E as <- <- <- <-.
  destruct o' as [a|]; [|by injection H as _ <- _ _].
  destruct (pwp_remove_website fd a p w Hp Eg) as (b2 & p2 & w2 & l5 & E & _ & -> & _).
  rewrite E in Hrun. injection Hrun as _ <- _ _.
  destruct (get_by_sockfd_found _ _ _ Eg) as [_ (s & Hs & Hfd)]. by eapply without_site_inv.
Qed.
#[local] Hint Resolve keep_remove_website : zimr.

(** ** A website that comes *)

Lemma keep_start_website fd url ip : keep (start_website ext fd url ip).
Proof.
  intros p w b p' w' l Hp H. pose proof Hp as [H1 H2 H3 H4 H5].
  apply em_bind_inv in H as (p0 & p1 & w1 & l1 & l2 & E & H & _). injection E as <- <- <- <-.
  apply em_bind_inv in H as (o & p1 & w1 & l3 & l4 & E & H & _).
  unfold pure in E. destruct (website_get_by_full_url _ _ _) as [found|]; [|done]. injection E as <- <- <- <-.
  destruct found; [rest_keeps H|].
  apply em_bind_inv in H as (port & p1 & w1 & l5 & l6 & E & H & _). unfold pure in E.
  destruct (get_port_from_url url) as [port'|]; [|done]. injection E as <- <- <- <-.
  apply em_bind_inv in H as (a & p1 & w1 & l7 & l8 & E & H & _). apply ask_inv in E as ->.
  destruct (_ =? -1); [rest_keeps H|].
  apply em_bind_inv in H as (p0 & p1 & w2 & l9 & l10 & E & H & _). injection E as <- <- <- <-.
  apply em_bind_inv in H as ([r site] & p1 & w2 & l11 & l12 & E & H & _). unfold pure in E.
  destruct (website_add _ _ _ _) as [[r' site']|] eqn:Ea; [|done]. injection E as <- <- <- <- <-.
  apply (website_add_Done _ _ _ _ _ _ H2) in Ea as (Hr & Hinit & Hl & s & Hh & Hfree & _).
  apply em_bind_inv in H as ([] & p1 & w2 & l13 & l14 & E & H & _). injection E as <- <- <-.
  match type of H with ?m ?q _ = _ => assert (proxy_inv q) as Hq end; [|rest_keeps H].
  split; simpl; try done.
  - intros b' Hb. rewrite Hl in Hb. apply lookup_insert_is_Some.
    destruct (decide (site' = b')) as [|Hne]; [by left|]. right. split; [done|]. apply H4.
    apply elem_of_app in Hb as [Hb| ->%list_elem_of_singleton]; done.
  - intros i c Hc. destruct (H5 i c Hc) as [Hsite Hbuf]. split; [|exact Hbuf]. intros Hm.
    destruct (Hsite Hm) as (b' & s' & Hb' & Hs' & Hfd). exists b', s'. rewrite Hl, Hh.
    split_and!; [apply elem_of_app; by left| |done]. rewrite lookup_insert_ne; [done|]. congruence.
Qed.
#[local] Hint Resolve keep_start_website : zimr.

(** ** Handlers *)

Lemma keep_command_handler fd msgid buf : keep (command_handler ext fd msgid buf).
Proof. unfold command_handler. cbv zeta. keeping. Qed.
#[local] Hint Resolve keep_command_handler : zimr.

Lemma keep_cleanup_msgs n i fd : keep (cleanup_msgs ext n i fd).
Proof. revert i. induction n as [|n IH]; intros i; cbn [cleanup_msgs]; [apply keeps_ret|]. keeping. Qed.
#[local] Hint Resolve keep_cleanup_msgs : zimr.

Lemma keep_msg_event_handler fd msgid event : keep (msg_event_handler ext fd msgid event).
Proof. unfold msg_event_handler. keeping. Qed.

Lemma keep_insock fd event : keep (insock_event_hdlr ext fd event).
Proof. unfold insock_event_hdlr. keeping. Qed.

Lemma keep_new_conn fd newfd addr https :
  keep (put_conn newfd (Some (ConnData fd addr (-1) 0 0 0 https None 0)) : pm W unit).
Proof.
  intros p w b p' w' l Hp H. apply put_conn_inv in H as (-> & _). apply with_conn_inv; [done|].
  intros c [= <-]. by split.
Qed.
#[local] Hint Resolve keep_new_conn : zimr.

Lemma keep_exsock fd event : reads_ok ext → keep (exsock_event_hdlr ext fd event).
Proof.
  intros Hreads. pose proof (λ fd, keep_exread ext fd Hreads) as Hread. unfold exsock_event_hdlr. cbv zeta. keeping.
Qed.

(** ** The event loop *)

(** An event of a message switch, of the internal socket or of an external one. *)
Inductive proxy_event :=
| MsgEvent (fd msgid event : Z)
| InsockEvent (fd event : Z)
| ExsockEvent (fd event : Z).

Definition proxy_handle (e : proxy_event) : pm W unit :=
  match e with
  | MsgEvent fd msgid event => msg_event_handler ext fd msgid event
  | InsockEvent fd event => insock_event_hdlr ext fd event
  | ExsockEvent fd event => exsock_event_hdlr ext fd event
  end.

(** What the daemon comes to, from [website_init] on. *)
Inductive proxy_reachable (w0 : W) : proxy_t → W → Prop :=
| proxy_reach_init r :
    website_init registry_static = Done r → proxy_reachable w0 (proxy_init r) w0
| proxy_reach_event p w e p' w' l :
    proxy_reachable w0 p w → proxy_handle e p w = Done (tt, p', w', l) → proxy_reachable w0 p' w'.

(** The events of a list, one after the other. *)
Fixpoint proxy_run (es : list proxy_event) : pm W unit :=
  match es with [] => mret tt | e :: es => _ ← proxy_handle e; proxy_run es end.

Lemma proxy_run_reachable w0 es p w p' w' l :
  proxy_reachable w0 p w → proxy_run es p w = Done (tt, p', w', l) → proxy_reachable w0 p' w'.
Proof.
  revert p w l. induction es as [|e es IH]; intros p w l Hr H.
  - by injection H as <- <- _.
  - apply em_bind_inv in H as ([] & p1 & w1 & l1 & l2 & E & H & _). eapply IH; [|exact H].
    by eapply proxy_reach_event.
Qed.

Lemma proxy_init_inv r : website_init registry_static = Done r → proxy_inv (proxy_init r).
Proof.
  intros [= <-]. split; cbn [connections sites website_data proxy_init websites].
  - by rewrite length_replicate.
  - split; simpl; try (intros a Ha; by apply elem_of_nil in Ha).
    + constructor.
    + intros a [s Hs]. done.
    + done.
  - done.
  - intros a Ha. by apply elem_of_nil in Ha.
  - intros i c Hc. by apply lookup_replicate in Hc as [Hc _].
Qed.

Lemma proxy_reachable_inv w0 p w : reads_ok ext → proxy_reachable w0 p w → proxy_inv p.
Proof.
  intros Hreads. induction 1 as [r Hr|p w e p' w' l _ IH H]; [by apply proxy_init_inv|].
  destruct e; [eapply keep_msg_event_handler|eapply keep_insock|eapply keep_exsock]; eauto.
Qed.
End sites.

(** ** A sample run *)

(** The kernel and the switches of the sample: the clients send the chunks of the state. *)
Definition demo_ext (c : call) (reads : list bytes) : answer * list bytes :=
  match c with
  | ZsRead _ n =>
      match reads with
      | data :: reads' => if (length data <=? n)%nat then (Answer (Z.of_nat (length data)) data, reads')
                          else (Answer (-1) [], reads)
      | [] => (Answer (-1) [], [])
      end
  | MsgRead _ _ _ =>
      let command := str "http://a.org" ++ [0] ++ str "0.0.0.0" ++ [0] in
      (Answer (Z.of_nat (length command)) command, reads)
  | MsgGetType _ id => (Answer (if id =? 0 then -1 else 9) [], reads)
  | ZsOpen _ _ _ => (Answer 4 [], reads)
  | ZsAccept fd => (Answer (if fd =? 3 then 5 else 9) [], reads)
  | _ => (sample_ans c, reads)
  end.

Lemma demo_reads_ok : reads_ok demo_ext.
Proof.
  intros fd n w. cbn [demo_ext]. destruct w as [|d w]; cbn [fst a_ret]; [lia|].
  destruct (Nat.leb_spec (length d) n); cbn [fst a_ret]; lia.
Qed.

(** An application starts, a client comes, and sends the pieces of a request. *)
Definition demo_events (n : nat) : list proxy_event :=
  [InsockEvent 3 ZS_EVT_ACCEPT_READY; MsgEvent 5 0 MSG_EVT_READ_READY;
   ExsockEvent 4 ZS_EVT_ACCEPT_READY] ++ replicate n (ExsockEvent 9 ZS_EVT_READ_READY).

(** The sample comes to a state with a property that can be computed. *)
Lemma demo_reaches n (P : proxy_t → bool) :
  match r ← website_init registry_static;
        proxy_run demo_ext (demo_events n) (proxy_init r) [sample_head1; sample_head2] with
  | Done (_, p, _, _) => P p
  | Fault _ => false
  end = true →
  ∃ p w, proxy_reachable demo_ext [sample_head1; sample_head2] p w ∧ P p = true.
Proof.
  destruct (website_init registry_static) as [r|] eqn:Er; [|done]. cbn [mbind res_bind].
  destruct (proxy_run _ _ _ _) as [[[[[] p] w] l]|] eqn:E; [|done]. intros HP. exists p, w. split; [|done].
  eapply proxy_run_reachable; [|exact E]. by apply proxy_reach_init.
Qed.

(** ** Properties *)

(** C28: in every state that the daemon reaches, a connection whose request was routed
    belongs to a website that is registered: it is found by the descriptor that the
    connection keeps, and its record and its external socket are there. *)
Theorem proxy_site_alive {W} (ext : call → W → answer * W) (w0 : W) (p : proxy_t) (w : W) (i : nat) (c : conn_data_t) :
  reads_ok ext → proxy_reachable ext w0 p w →
  connections p !! i = Some (Some c) → website_sockfd c ≠ -1 →
  ∃ a s exlisn, website_get_by_sockfd (sites p) (website_sockfd c) = Done (Some a) ∧ a ∈ websites (sites p) ∧
    heap (sites p) !! a = Some s ∧ w_sockfd s = website_sockfd c ∧ website_data p !! a = Some exlisn.
Proof.
  intros Hreads Hr Hc Hne. destruct (proxy_reachable_inv _ _ _ _ Hreads Hr) as [H1 H2 H3 H4 H5].
  destruct (co_site _ _ (H5 i c Hc) Hne) as (a & s & Ha & Hs & Hfd).
  destruct (first_website_found (λ w, website_sockfd c =? w_sockfd w) (heap (sites p)) (websites (sites p)) a s)
    as [b Hb]; [apply (ri_live _ H2)|done|done|by apply Z.eqb_eq|].
  assert (website_get_by_sockfd (sites p) (website_sockfd c) = Done (Some b)) as E.
  { unfold website_get_by_sockfd. by rewrite H3. }
  destruct (get_by_sockfd_found _ _ _ E) as [Hin (s' & Hs' & Hfd')]. destruct (H4 b Hin) as [exl Hex].
  by exists b, s', exl.
Qed.

Lemma proxy_site_alive_witness :
  ∃ p w c, proxy_reachable demo_ext [sample_head1; sample_head2] p w ∧
    connections p !! 9%nat = Some (Some c) ∧ website_sockfd c = 5 ∧
    ∃ a s exlisn, website_get_by_sockfd (sites p) (website_sockfd c) = Done (Some a) ∧ a ∈ websites (sites p) ∧
      heap (sites p) !! a = Some s ∧ w_sockfd s = website_sockfd c ∧ website_data p !! a = Some exlisn.
Proof.
  destruct (demo_reaches 2 (λ p, match connections p !! 9%nat with
                                 | Some (Some c) => website_sockfd c =? 5 | _ => false end)) as (p & w & Hr & HP).
  { vm_compute. reflexivity. }
  destruct (connections p !! 9%nat) as [[c|]|] eqn:Hc; [|discriminate HP..]. apply Z.eqb_eq in HP.
  exists p, w, c. split; [exact Hr|]. split; [exact Hc|]. split; [exact HP|].
  apply (proxy_site_alive demo_ext [sample_head1; sample_head2] p w 9 c demo_reads_ok Hr Hc). rewrite HP. discriminate.
Defined.

(** C38: the state of the proxy keeps the shape that the C types give it.  The table of
    connections has a cell for each descriptor of a set; the buffer of a connection is a
    block of the size of a packet, and what has been read lies inside it, so that what
    the next read asks for fits the rest of the block. *)
Theorem proxy_state_typed {W} (ext : call → W → answer * W) (w0 : W) (p : proxy_t) (w : W) :
  reads_ok ext → proxy_reachable ext w0 p w →
  length (connections p) = FD_SETSIZE ∧
  ∀ i c, connections p !! i = Some (Some c) →
    (i < FD_SETSIZE)%nat ∧
    let '(buffer, used) := exread_buffer c in
    length buffer = PACK_DATA_SIZE ∧ (used <= PACK_DATA_SIZE)%nat ∧
    ∀ data, (length data <= PACK_DATA_SIZE - used)%nat →
      ∃ buffer', buf_write used data buffer = Done buffer' ∧ length buffer' = PACK_DATA_SIZE.
Proof.
  intros Hreads Hr. destruct (proxy_reachable_inv _ _ _ _ Hreads Hr) as [H1 H2 H3 H4 H5].
  split; [exact H1|]. intros i c Hc. split.
  { apply lookup_lt_Some in Hc. rewrite H1 in Hc. exact Hc. }
  destruct (exread_buffer_ok _ _ (H5 i c Hc)) as [Hlen Hused]. destruct (exread_buffer c) as [buffer used].
  cbn [fst snd] in *. split; [exact Hlen|]. split; [exact Hused|]. intros data Hd.
  destruct (buf_write_Done used data buffer) as [b Hb]; [lia|]. exists b. split; [exact Hb|].
  apply buf_write_length in Hb. congruence.
Qed.

Lemma proxy_state_typed_witness :
  ∃ p w c, proxy_reachable demo_ext [sample_head1; sample_head2] p w ∧
    connections p !! 9%nat = Some (Some c) ∧ bufferlen c = length sample_head1 ∧
    length (connections p) = FD_SETSIZE.
Proof.
  destruct (demo_reaches 1 (λ p, match connections p !! 9%nat with
                                 | Some (Some c) => (bufferlen c =? length sample_head1)%nat
                                 | _ => false end)) as (p & w & Hr & HP).
  { vm_compute. reflexivity. }
  destruct (connections p !! 9%nat) as [[c|]|] eqn:Hc; [|discriminate HP..]. apply Nat.eqb_eq in HP.
  exists p, w, c. split; [exact Hr|]. split; [exact Hc|]. split; [exact HP|].
  apply (proxy_state_typed demo_ext [sample_head1; sample_head2] p w demo_reads_ok Hr).
Defined.

(** When a website is removed, by its command or by an error of its switch, the loop
    over the connections closes the descriptor of each connection of its switch and frees
    its cell; the other connections and the other websites stay as they are. *)
Theorem remove_website_disconnects {W} (ext : call → W → answer * W) (w0 : W) (p : proxy_t) (w : W) (fd : Z) (a : nat) :
  reads_ok ext → proxy_reachable ext w0 p w → website_get_by_sockfd (sites p) fd = Done (Some a) →
  ∃ p' w' l, remove_website ext fd p w = Done (true, p', w', l) ∧
    (∀ i c, connections p' !! i = Some (Some c) ↔ connections p !! i = Some (Some c) ∧ website_sockfd c ≠ fd) ∧
    (∀ i c, connections p !! i = Some (Some c) → website_sockfd c = fd → ZsClose (Z.of_nat i) ∈ l) ∧
    websites (sites p') = filter (λ b, b ≠ a) (websites (sites p)) ∧
    (∀ b, b ≠ a → heap (sites p') !! b = heap (sites p) !! b ∧ website_data p' !! b = website_data p !! b) ∧
    proxy_inv p'.
Proof.
  intros Hreads Hr Hg. pose proof (proxy_reachable_inv _ _ _ _ Hreads Hr) as Hp.
  destruct (pwp_remove_website ext fd a p w Hp Hg) as (b & p' & w' & l & E & -> & -> & Hclose).
  exists (without_site p a fd), w', l. split; [exact E|]. split.
  { intros i c. simpl. rewrite list_lookup_fmap. destruct (connections p !! i) as [o|]; simpl.
    - split.
      + intros [= H]. apply without_switch_Some in H as [-> H]. done.
      + intros [[= ->] H]. f_equal. by apply without_switch_Some.
    - split; [done|]. by intros [? _]. }
  split; [exact Hclose|]. split; [done|]. split.
  { intros b Hb. simpl. by rewrite !lookup_delete_ne by done. }
  destruct (get_by_sockfd_found _ _ _ Hg) as [_ (s & Hs & Hfd)]. by eapply without_site_inv.
Qed.

Lemma remove_website_disconnects_witness :
  ∃ p w, proxy_reachable demo_ext [sample_head1; sample_head2] p w ∧
    ∃ p' w' l, remove_website demo_ext 5 p w = Done (true, p', w', l) ∧ ZsClose 9 ∈ l.
Proof.
  destruct (demo_reaches 2 (λ p, match connections p !! 9%nat, website_get_by_sockfd (sites p) 5 with
                                 | Some (Some c), Done (Some 0%nat) => website_sockfd c =? 5
                                 | _, _ => false end)) as (p & w & Hr & HP).
  { vm_compute. reflexivity. }
  destruct (connections p !! 9%nat) as [[c|]|] eqn:Hc; [|discriminate HP..].
  destruct (website_get_by_sockfd (sites p) 5) as [[[|?]|]|] eqn:Eg; [|discriminate HP..].
  apply Z.eqb_eq in HP. exists p, w. split; [exact Hr|].
  destruct (remove_website_disconnects demo_ext [sample_head1; sample_head2] p w 5 0 demo_reads_ok Hr Eg)
    as (p' & w' & l & E & _ & Hcl & _).
  exists p', w', l. split; [exact E|]. exact (Hcl 9%nat c Hc HP).
Defined.
