(* ===== verification/ZimrTool.v ===== *)
(** zimr/main.c: the command line tool, with userdir.c.  The commands add, start, restart,
    stop, remove and show web applications; what they know of them is the state file of the
    user (zcnf.c).

    The kernel and the terminal are the outside.  A call [StopProc] or [KillProc] stands for
    the calls of kill(2) that stopproc and killproc (general.c) make: the answer tells
    whether the first one was accepted, and how each of the others ends.  [ProcStatus] is
    the line on the process that is read from /proc.  The options for debugging are left
    out.  What the forked process of an application does is [application_child]. *)

From Stdlib Require Import ZArith Lia String.
From stdpp Require Import gmap.
From S2P Require Export Zcnf Effect Cli.
From S2P Require Import Connection.

Local Open Scope Z_scope.

(** ** State and outside *)

Definition ZM_USR_DIR : bytes := str "~/.zimr/".
Definition ZM_USR_MODULE_DIR : bytes := ZM_USR_DIR ++ str "modules/".
Definition ZM_ERR_LOGFILE : bytes := str "zimr.log".
Definition SIGCHLD : Z := 17.

(** [ADD], ..., [STATUS]. *)
Inductive cmd_type := ADD | START | STOP | RESTART | REMOVE | STATUS.

#[export] Instance cmd_type_eq_dec : EqDecision cmd_type.
Proof. solve_decision. Defined.

(** The functions that are registered for the events of the library. *)
Inductive event_handler_t :=
| event_handler_verbose | event_handler_basic | event_handler_when_in_background.

(** The events with their arguments. *)
Inductive zimr_event_t :=
| Ev_INITIALIZING | Ev_MODULE_LOADING (module : bytes) | Ev_MODULE_LOAD_FAILED (module : bytes)
| Ev_WEBSITE_ENABLE_SUCCEEDED (url ip : bytes) (port : Z)
| Ev_WEBSITE_ENABLE_FAILED (url ip : bytes) (port : Z) (reason : bytes)
| Ev_WEBSITE_MODULE_INIT (module url : bytes) | Ev_WEBSITE_MODULE_INIT_FAILED (module : bytes)
| Ev_ALL_WEBSITES_ENABLED | Ev_REGISTERING_WEBSITES (full_urls : list bytes)
| Ev_LOADING_CNF (path : bytes) | Ev_RESTART_REQUEST.

Inductive call :=
| Print (text : bytes)
| GetCwd | RealPath (path : bytes) | GetUid | GetGid | Exit (code : Z)
| Stat (path : bytes) | Mkdir (path : bytes)
| Kill (pid sig : Z) | StopProc (pid : Z) | KillProc (pid : Z) | ProcStatus (pid : Z)
| GetPid | Fork | WaitForChild | ExecRestart (path : bytes)
| Chdir (dir : bytes) | SetUid (uid : Z) | SetGid (gid : Z) | FreopenStderr (path : bytes)
| RegisterHandler (h : event_handler_t) | ZimrInit | IgnoreSignals | ZimrCnfLoad (path : bytes)
| AtExit | ZimrStart.

(** The value of a call and errno; the answers to the probes of stopproc; the text of a
    path; whether stat found a directory. *)
Record answer := Answer {
  a_ret : Z; a_errno : Z; a_probe : nat → option Z; a_path : bytes; a_isdir : bool
}.

(** The static variables, and the files. *)
Record tool_t `{Y : Yaml} := Tool {
  t_files : files; verbose : bool; wait_for_child : bool; on_shutdown_restart : bool; ppid : Z
}.
Arguments Tool {Y} t_files verbose wait_for_child on_shutdown_restart ppid.

Notation tm W := (em tool_t W call).

(** An entry of the user database. *)
Record passwd := Passwd { pw_name : bytes; pw_uid : Z; pw_gid : Z; pw_dir : bytes }.

(** The functions behind the commands. *)
Inductive tool_cmd :=
| application_add_cmd | application_start_cmd | application_stop_cmd | application_restart_cmd
| application_remove_cmd | application_status_cmd
| state_start_cmd | state_stop_cmd | state_restart_cmd | state_remove_cmd | state_status_cmd
| state_start_all_cmd | state_restart_all_cmd | state_stop_all_cmd | state_remove_all_cmd
| state_status_all_cmd
| help_cmd.

(** ** The table of commands *)

(** The sub-commands of a command: all applications of the user, all of all users. *)
Definition all_commands (all_desc users_desc : string) (one all : tool_cmd) : list (cli_cmd_t tool_cmd) :=
  [Cmd (str "all") (str all_desc) [Cmd (str "users") (str users_desc ++ [10]) [] (Some all)] (Some one)].

Definition zimr_commands : list (cli_cmd_t tool_cmd) :=
  [Cmd (str "add") (str "Add a webapp. [ <config path> ]" ++ [10]) [] (Some application_add_cmd);
   Cmd (str "start") (str "Start a stopped webapp. [ <config path>, -in-foreground ]")
     (all_commands "Start all of the current user's stopped webapps. [ -ignore-disabled ]"
        "Start all users' stopped webapps. [ -ignore-disabled, -dont-wait-for-webapps ]"
        state_start_cmd state_start_all_cmd) (Some application_start_cmd);
   Cmd (str "restart") (str "Restart a running webapp. [ <config path>, -force ]")
     (all_commands "Restart all of the current user's running webapps."
        "Restart all users' running webapps. [ -dont-wait-for-webapps ]"
        state_restart_cmd state_restart_all_cmd) (Some application_restart_cmd);
   Cmd (str "stop") (str "Stop a webapp. [ <config path>, -force, -no-disable ]")
     (all_commands "Stop all of the current user's webapps. [ -no-disable ]"
        "Stop all users' webapps. [ -no-disable, -dont-wait-for-webapps ]"
        state_stop_cmd state_stop_all_cmd) (Some application_stop_cmd);
   Cmd (str "status") (str "View the status of a webapp. [ <config path> ]")
     (all_commands "View the status of all of the current user's webapps."
        "View the status of all users' webapps. [ -dont-wait-for-webapps ]"
        state_status_cmd state_status_all_cmd) (Some application_status_cmd);
   Cmd (str "remove") (str "Remove a webapp. [ <config path>, -force ]")
     (all_commands "Remove all of the current user's webapps."
        "Remove all users' webapps. [ -dont-wait-for-webapps ]"
        state_remove_cmd state_remove_all_cmd) (Some application_remove_cmd);
   Cmd (str "help") (str "List all commands.") [] (Some help_cmd)].

Definition root_cmd : cli_cmd_t tool_cmd := Cmd (str "zimr") [] zimr_commands None.

Definition nl : bytes := [10].

(** [GETCNFARG]: what follows the command in an advice to the user. *)
Definition GETCNFARG (cnf_path : bytes) : res bytes :=
  i ← deref (strrchr cnf_path c_slash);
  let file := drop i cnf_path in
  Done (if strcmp_eq (c_slash :: ZM_APP_CNF_FILE) file then [] else 32 :: tail file).

Section tool.
Context `{Y : Yaml} {W : Type} (ext : call → W → answer * W).
Context (getpwuid : Z → option bytes) (writable : bytes → bool) (getpwents : list passwd).
Context (ZIMR_VERSION BUILD_DATE ZIMR_WEBSITE : bytes) (strerror : Z → bytes).
Notation tm := (em tool_t W call).
Notation say text := (tell ext (Print text)).

Definition set_files (fs : files) (s : tool_t) : tool_t :=
  Tool fs (verbose s) (wait_for_child s) (on_shutdown_restart s) (ppid s).
Definition upd (f : tool_t → tool_t) : tm unit := s ← get_state; put_state (f s).

(** ** userdir.c *)

Definition checkdir (path : bytes) : tm bool :=
  a ← ask ext (Stat path);
  if a_ret a =? 0 then mret (a_isdir a)
  else b ← ask ext (Mkdir path); mret (a_ret b =? 0).

Definition userdir_init (uid : Z) : tm bool :=
  buf ← pure (expand_tilde getpwuid ZM_USR_DIR 256 uid);
  ok ← checkdir (default [] buf);
  if negb ok then mret false
  else
    buf ← pure (expand_tilde getpwuid ZM_USR_MODULE_DIR 256 uid);
    checkdir (default [] buf).

(** ** The state file *)

Definition load_state (uid : Z) : tm (option zcnf_state_t) :=
  s ← get_state;
  '(st, fs) ← pure (zcnf_state_load getpwuid writable (t_files s) uid);
  _ ← put_state (set_files fs s);
  mret st.

Definition save_state (st : zcnf_state_t) : tm unit :=
  s ← get_state;
  fs ← pure (zcnf_state_save getpwuid writable (t_files s) st);
  put_state (set_files fs s).

(** ** Processes *)

(** [kill( pid, 0 ) != -1]. *)
Definition alive (pid : Z) : tm bool := a ← ask ext (Kill pid 0); mret (negb (a_ret a =? -1)).

(** What stopproc or killproc gives, and errno after it. *)
Definition stop_with (c : call) (proc : bool → (nat → option Z) → res (bool * option Z * list Z))
  : tm (bool * Z) :=
  a ← ask ext c;
  '(ok, e, _) ← pure (proc (a_ret a =? 0) (a_probe a));
  mret (ok, default (a_errno a) e).

(** The result and errno. *)
Definition application_kill (pid : Z) (force : bool) : tm (bool * Z) :=
  s ← get_state;
  _ ← only_if (verbose s) (say (str "Stopping webapp service..."));
  '(ok, e) ← (if pid =? 0 then mret (true, 0)
              else
                '(ok, e) ← (if force then stop_with (KillProc pid) killproc
                            else stop_with (StopProc pid) stopproc);
                mret (negb (negb ok && negb (e =? ESRCH)), e));
  _ ← only_if (verbose s) (say (if ok : bool then str "Stopped." ++ nl else nl));
  mret (ok, e).

(** The process of the application, from the fork to its exit. *)
Definition application_child (uid gid : Z) (path : bytes) : tm unit :=
  ptr ← pure (deref (strrchr path c_slash));
  dir ← pure (strcpy_into PATH_MAX (take ptr path));
  _ ← tell ext (Chdir dir);
  _ ← tell ext (SetUid uid);
  _ ← tell ext (SetGid gid);
  s ← get_state;
  _ ← tell ext (RegisterHandler (if verbose s then event_handler_verbose else event_handler_basic));
  _ ← only_if (negb (verbose s)) (tell ext (FreopenStderr ZM_ERR_LOGFILE));
  _ ← tell ext ZimrInit;
  _ ← tell ext IgnoreSignals;
  loaded ← ask ext (ZimrCnfLoad path);
  _ ← pure (assert (negb (a_ret loaded =? 0)));
  _ ← tell ext AtExit;
  _ ← only_if (verbose s) (tell ext (FreopenStderr ZM_ERR_LOGFILE));
  _ ← tell ext ZimrStart;
  s ← get_state;
  _ ← only_if (on_shutdown_restart s)
        (pid ← ask ext Fork; only_if (a_ret pid =? 0) (tell ext (ExecRestart path)));
  tell ext (Exit 0).

(** The number of the process, or -1.  Nothing runs after the exit of the child. *)
Definition application_exec (uid gid : Z) (path : bytes) (nofork : bool) : tm Z :=
  _ ← only_if (negb nofork)
        (me ← ask ext GetPid;
         upd (fun s => Tool (t_files s) (verbose s) (wait_for_child s) (on_shutdown_restart s) (a_ret me)));
  pid ← (if nofork then mret 0 else a ← ask ext Fork; mret (a_ret a));
  if pid =? 0 then _ ← application_child uid gid path; mret 0
  else if pid =? -1 then _ ← say (str "parent error: no child" ++ nl); mret (-1)
  else
    s ← get_state;
    _ ← only_if (wait_for_child s) (tell ext WaitForChild);
    mret pid.

(** ** One application *)

(** The application with a path, and its place. *)
Fixpoint find_app (apps : list zcnf_state_app_t) (cnf_path : bytes) (i : nat)
  : res (option (nat * zcnf_state_app_t)) :=
  match apps with
  | [] => Done None
  | app :: apps =>
      p ← deref (zs_path app);
      if strcmp_eq p cnf_path then Done (Some (i, app)) else find_app apps cnf_path (S i)
  end.

(** A message with the command that the user should try. *)
Definition advise (before cmd after cnf_path : bytes) : tm unit :=
  arg ← pure (GETCNFARG cnf_path);
  say (before ++ str " 'zimr " ++ cmd ++ arg ++ str "'" ++ after ++ nl).

Definition say_failed (e : Z) : tm unit := say (str "Failed: " ++ strerror e ++ nl).

(** The website of a configuration in the status of its application. *)
Definition website_status (w : zcnf_website_t) : res bytes :=
  url ← deref (zw_url w);
  Done (str "  Url: " ++
    (if negb (startswith url (str "https://")) && negb (startswith url (str "http://")) then str "http://" else []) ++
    url ++
    (match zw_redirect_url w with Some r => str " -> " ++ r | None => [] end) ++
    (match zw_modules w with
     | [] => []
     | ms => str "  Modules:" ++ concat ((fun m => 32 :: zm_name m) <$> ms)
     end) ++ nl).

Fixpoint say_websites (ws : list zcnf_website_t) : tm unit :=
  match ws with
  | [] => mret tt
  | w :: ws => text ← pure (website_status w); _ ← say text; say_websites ws
  end.

Definition application_status (app : zcnf_state_app_t) (cnf_path : bytes) : tm unit :=
  if zs_stopped app then say (str "[Disabled] " ++ cnf_path ++ nl)
  else
    up ← (if zs_pid app =? 0 then mret false else alive (zs_pid app));
    if negb up then say (str "[Not Running] " ++ cnf_path ++ nl)
    else
      _ ← say (str "[Running] " ++ cnf_path ++ nl);
      s ← get_state;
      only_if (verbose s)
        (_ ← tell ext (ProcStatus (zs_pid app));
         uid ← ask ext GetUid;
         cnf ← pure (zcnf_app_load getpwuid (a_ret uid) (t_files s) (Some cnf_path));
         _ ← pure (assert (bool_decide (is_Some cnf)));
         say_websites (match cnf with Some c => za_websites c | None => [] end)).

(** The [switch] on the command: the state to be saved, or [None] when it ends at [quit]
    with a failure.  [place] and [app] are the application that was found. *)
Definition application_command (st : zcnf_state_t) (uid gid : Z) (cnf_path : bytes) (type : cmd_type)
  (force allow_disable : bool) (place : nat) (app : zcnf_state_app_t) : tm (option zcnf_state_t) :=
  s ← get_state;
  let quiet text := only_if (negb (verbose s)) (say text) in
  let pid := zs_pid app in
  match type with
  | ADD => mret (Some st)      (* not reached: an application that is there is not added *)
  | START =>
      _ ← quiet (str "[Starting] " ++ cnf_path ++ str "...");
      up ← (if zs_stopped app || (pid =? 0) then mret false else alive pid);
      if up : bool then
        _ ← advise (str "Failed: already running, try") (str "restart") (str " instead.") cnf_path; mret None
      else
        pid ← application_exec uid gid cnf_path false;
        if pid =? -1 then _ ← say (str "Failed" ++ nl); mret None
        else
          _ ← quiet (str "Started." ++ nl);
          st ← pure (zcnf_state_set_app st cnf_path pid false);
          mret (Some st)
  | RESTART =>
      if zs_stopped app then
        _ ← advise (str "Failed: webapp is not running. To start a webapp run") (str "start") [] cnf_path; mret None
      else
        _ ← quiet (str "[Restaring] " ++ cnf_path ++ str "...");
        '(ok, e) ← application_kill pid force;
        if negb ok then _ ← say_failed e; mret None
        else
          _ ← only_if (verbose s) (say nl);
          path ← pure (deref (zs_path app));
          pid ← application_exec uid gid path false;
          if pid =? -1 then _ ← say (str "Failed" ++ nl); mret None
          else
            _ ← quiet (str "Restarted." ++ nl);
            st ← pure (zcnf_state_set_app st path pid false);
            mret (Some st)
  | STOP =>
      _ ← quiet (str "[Stopping] " ++ cnf_path ++ str "...");
      '(ok, e) ← (if pid =? 0 then _ ← say (str "Nothing to do, webapp is not running" ++ nl); mret (true, 0)
                  else application_kill pid force);
      if negb ok then _ ← say_failed e; mret None
      else
        _ ← quiet (str "Stopped." ++ nl);
        path ← pure (deref (zs_path app));
        st ← pure (zcnf_state_set_app st path 0 allow_disable);
        mret (Some st)
  | REMOVE =>
      '(ok, e) ← (if pid =? 0 then mret (true, 0) else application_kill pid force);
      if negb ok then _ ← say_failed e; mret None
      else
        _ ← say (str "Zimr webapp removed." ++ nl);
        mret (Some (ZState (delete place (zs_apps st)) (zs_uid st)))
  | STATUS => _ ← application_status app cnf_path; mret (Some st)
  end.

(** The new state, or [None] on a failure. *)
Definition application_found (st : zcnf_state_t) (uid gid : Z) (cnf_path : bytes) (type : cmd_type)
  (force allow_disable : bool) (found : option (nat * zcnf_state_app_t)) : tm (option zcnf_state_t) :=
  match type, found with
  | ADD, Some _ =>
      _ ← advise (str "Failed: already added. To start the webapp run") (str "start") [] cnf_path; mret None
  | ADD, None =>
      _ ← advise (str "Zimr webapp added. To start the webapp run") (str "start") [] cnf_path;
      st ← pure (zcnf_state_set_app st cnf_path 0 true);
      mret (Some st)
  | REMOVE, None => _ ← say (str "Nothing to do, webapp has already been removed" ++ nl); mret None
  | _, None =>
      _ ← advise (str "Failed: webapp does not exist. Run") (str "add") (str " to add the webapp") cnf_path;
      mret None
  | _, Some (place, app) => application_command st uid gid cnf_path type force allow_disable place app
  end.

Definition application_function (uid gid : Z) (cnf_path : bytes) (type : cmd_type)
  (force allow_disable : bool) : tm bool :=
  _ ← userdir_init uid;
  state ← load_state uid;
  match state with
  | None => _ ← say (str "failed to load state" ++ nl); mret false
  | Some st =>
      found ← pure (find_app (zs_apps st) cnf_path 0);
      st' ← application_found st uid gid cnf_path type force allow_disable found;
      match st' with
      | Some st' => _ ← save_state st'; mret true
      | None => mret false
      end
  end.

(** ** All applications of a user *)

(** 3 for stopped, 2 for not running, 1 for running. *)
Definition app_status (a : zcnf_state_app_t) : tm Z :=
  if zs_stopped a then mret 3
  else
    up ← (if zs_pid a =? 0 then mret false else alive (zs_pid a));
    mret (if up : bool then 1 else 2).

Definition state_apps_status_sort (a b : zcnf_state_app_t) : tm Z :=
  sa ← app_status a;
  sb ← app_status b;
  mret (if sb <? sa then -1 else if sa =? sb then 0 else 1).

(** [list_sort( &state->apps, 1 )]: simclist.c sorts up to 24 elements by selection.  The
    place in [l] of the element that comes first, where [best] is the one at [at_best] and
    [i] is the place of the next. *)
Fixpoint select_first (best : zcnf_state_app_t) (at_best i : nat) (l : list zcnf_state_app_t) : tm nat :=
  match l with
  | [] => mret at_best
  | c :: l =>
      r ← state_apps_status_sort best c;
      if 0 <? r * -1 then select_first c i (S i) l else select_first best at_best (S i) l
  end.

Fixpoint list_sort_selectionsort (n : nat) (l : list zcnf_state_app_t) : tm (list zcnf_state_app_t) :=
  match n, l with
  | S n, x :: rest =>
      k ← select_first x 0 1 rest;
      let l := match k with
               | O => x :: rest
               | S k => match rest !! k with Some y => y :: <[k := x]> rest | None => x :: rest end
               end in
      sorted ← list_sort_selectionsort n (tail l);
      mret (take 1 l ++ sorted)
  | _, _ => mret l
  end.

(** The order of more than 24 depends on the random pivots of the quick sort. *)
Context (list_sort_quicksort : list zcnf_state_app_t → list zcnf_state_app_t).

Definition list_sort (l : list zcnf_state_app_t) : tm (list zcnf_state_app_t) :=
  if (length l <=? 24)%nat then list_sort_selectionsort (length l) l else mret (list_sort_quicksort l).

(** The options [-ignore-disabled], [-no-disable] (cleared) and [-dont-wait-for-webapps]. *)
Fixpoint state_options (optv : list bytes) (ignore_disabled allow_disable : bool) : tm (bool * bool) :=
  match optv with
  | [] => mret (ignore_disabled, allow_disable)
  | o :: optv =>
      if strcmp_eq o (str "-ignore-disabled") then state_options optv true allow_disable
      else if strcmp_eq o (str "-no-disable") then state_options optv ignore_disabled false
      else
        _ ← only_if (strcmp_eq o (str "-dont-wait-for-webapps"))
              (upd (fun s => Tool (t_files s) (verbose s) false (on_shutdown_restart s) (ppid s)));
        state_options optv ignore_disabled allow_disable
  end.

(** Whether the command passes over an application. *)
Definition skips (type : cmd_type) (ignore_disabled : bool) (app : zcnf_state_app_t) : tm bool :=
  match type with
  | START =>
      if ignore_disabled && zs_stopped app then mret true
      else if zs_pid app =? 0 then mret false else alive (zs_pid app)
  | STOP | RESTART => mret (zs_stopped app)
  | _ => mret false
  end.

(** One round of the loop over the applications. *)
Definition state_app (uid gid : Z) (type : cmd_type) (ignore_disabled allow_disable : bool)
  (app : zcnf_state_app_t) : tm bool :=
  skip ← skips type ignore_disabled app;
  if skip : bool then mret true
  else
    path ← pure (deref (zs_path app));
    application_function uid gid path type false allow_disable.

Fixpoint state_apps (uid gid : Z) (type : cmd_type) (ignore_disabled allow_disable : bool)
  (apps : list zcnf_state_app_t) : tm unit :=
  match apps with
  | [] => mret tt
  | app :: apps =>
      _ ← state_app uid gid type ignore_disabled allow_disable app;
      state_apps uid gid type ignore_disabled allow_disable apps
  end.

(** The list of the state when it was loaded is gone through; every command loads and
    saves the state on its own. *)
Definition state_function (uid gid : Z) (type : cmd_type) (optv : list bytes) : tm bool :=
  state ← load_state uid;
  _ ← upd (fun s => Tool (t_files s) false (wait_for_child s) (on_shutdown_restart s) (ppid s));
  match state with
  | None => _ ← say (str "failed to load state" ++ nl); mret false
  | Some st =>
      apps ← (if bool_decide (type = STATUS) then list_sort (zs_apps st) else mret (zs_apps st));
      '(ignore_disabled, allow_disable) ← state_options optv false true;
      _ ← state_apps uid gid type ignore_disabled allow_disable apps;
      mret true
  end.

Fixpoint state_users (type : cmd_type) (optv : list bytes) (users : list passwd) : tm unit :=
  match users with
  | [] => mret tt
  | p :: users =>
      filepath ← pure (expand_tilde_with ZM_USR_STATE_FILE 128 (pw_dir p));
      s ← get_state;
      _ ← (match filepath with
           | Some filepath =>
               if bool_decide (is_Some (t_files s !! filepath)) then
                 _ ← say (str "User: " ++ pw_name p ++ str " (" ++ filepath ++ str ")" ++ nl);
                 state_function (pw_uid p) (pw_gid p) type optv
               else mret true
           | None => mret true
           end);
      state_users type optv users
  end.

Definition state_all_function (type : cmd_type) (optv : list bytes) : tm bool :=
  uid ← ask ext GetUid;
  if negb (a_ret uid =? 0) then
    _ ← say (str "Failed: Must have superuser privileges" ++ nl); mret false
  else
    _ ← state_users type optv getpwents;
    _ ← tell ext (Exit 0);
    mret true.

(** ** The commands *)

Definition print_usage : tm unit :=
  _ ← say (str "Zimr v" ++ ZIMR_VERSION ++ str " (" ++ BUILD_DATE ++ str ") - " ++ ZIMR_WEBSITE ++ nl ++ nl);
  _ ← say (str "Commands:" ++ nl ++ nl);
  text ← pure (cli_print root_cmd);
  say text.

(** The options [flags], and as the first argument the path of a configuration.  The path
    and the options that were found; [None] when the usage was printed. *)
Fixpoint scan_args (flags : list bytes) (i : nat) (cnf_path : bytes) (set : list bytes) (optv : list bytes)
  : tm (option (bytes * list bytes)) :=
  match optv with
  | [] => mret (Some (cnf_path, set))
  | o :: optv =>
      if bool_decide (o ∈ flags) then scan_args flags (S i) cnf_path (o :: set) optv
      else if (i =? 0)%nat then
        a ← ask ext (RealPath o);
        scan_args flags (S i) (a_path a) set optv
      else _ ← print_usage; mret None
  end.

Definition command_args (flags : list bytes) (optv : list bytes) : tm (option (bytes * list bytes)) :=
  a ← ask ext GetCwd;
  cnf_path ← pure (strcpy_into PATH_MAX (a_path a ++ c_slash :: ZM_APP_CNF_FILE));
  scan_args flags 0 cnf_path [] optv.

Definition FORCE : bytes := str "-force".
Definition NO_DISABLE : bytes := str "-no-disable".
Definition IN_FOREGROUND : bytes := str "-in-foreground".

Definition exit_if_failed (m : tm bool) : tm unit :=
  ok ← m; only_if (negb ok) (tell ext (Exit 1)).

Definition as_user (f : Z → Z → tm bool) : tm unit :=
  uid ← ask ext GetUid;
  gid ← ask ext GetGid;
  exit_if_failed (f (a_ret uid) (a_ret gid)).

(** A command on one application; [allow] tells whether stopping may disable it. *)
Definition application_cmd (type : cmd_type) (flags : list bytes) (allow : list bytes → bool)
  (optv : list bytes) : tm unit :=
  args ← command_args flags optv;
  match args with
  | None => mret tt
  | Some (cnf_path, set) =>
      if bool_decide (IN_FOREGROUND ∈ set) then
        uid ← ask ext GetUid;
        gid ← ask ext GetGid;
        _ ← application_exec (a_ret uid) (a_ret gid) cnf_path true;
        mret tt
      else
        as_user (fun uid gid =>
          application_function uid gid cnf_path type (bool_decide (FORCE ∈ set)) (allow set))
  end.

Definition state_cmd (type : cmd_type) (optv : list bytes) : tm unit :=
  as_user (fun uid gid => state_function uid gid type optv).
Definition state_all_cmd (type : cmd_type) (optv : list bytes) : tm unit :=
  exit_if_failed (state_all_function type optv).

Definition run_tool_cmd (c : tool_cmd) (optv : list bytes) : tm unit :=
  let never (_ : list bytes) := false in
  match c with
  | application_add_cmd => application_cmd ADD [] never optv
  | application_start_cmd => application_cmd START [IN_FOREGROUND] never optv
  | application_stop_cmd =>
      application_cmd STOP [FORCE; NO_DISABLE] (fun set => negb (bool_decide (NO_DISABLE ∈ set))) optv
  | application_restart_cmd => application_cmd RESTART [FORCE] never optv
  | application_remove_cmd => application_cmd REMOVE [FORCE] never optv
  | application_status_cmd => application_cmd STATUS [] never optv
  | state_start_cmd => state_cmd START optv
  | state_stop_cmd => state_cmd STOP optv
  | state_restart_cmd => state_cmd RESTART optv
  | state_remove_cmd => state_cmd REMOVE optv
  | state_status_cmd => state_cmd STATUS optv
  | state_start_all_cmd => state_all_cmd START optv
  | state_restart_all_cmd => state_all_cmd RESTART optv
  | state_stop_all_cmd => state_all_cmd STOP optv
  | state_remove_all_cmd => state_all_cmd REMOVE optv
  | state_status_all_cmd => state_all_cmd STATUS optv
  | help_cmd => print_usage
  end.

(** [main]: the directory of the program is cut from its name. *)
Definition main (argv : list bytes) : tm Z :=
  arg0 ← pure (deref (head argv));
  let arg0 := match strrchr arg0 c_slash with Some i => drop (S i) arg0 | None => arg0 end in
  found ← pure (cli_run root_cmd (arg0 :: tail argv));
  _ ← (match found with
       | Some (c, optv) => run_tool_cmd c optv
       | None => print_usage
       end);
  mret 0.

(** ** The events of the library in the process of an application *)

(** [kill( ppid, sig )], when the parent still waits. *)
Definition wake_parent : tm unit :=
  s ← get_state;
  only_if (negb (ppid s =? 0) && wait_for_child s) (tell ext (Kill (ppid s) SIGCHLD)).

(** The label [background]. *)
Definition to_background : tm unit :=
  _ ← tell ext (RegisterHandler event_handler_when_in_background); wake_parent.

(** The label [kill]. *)
Definition stop_service : tm unit :=
  _ ← say (str "Stopping webapp service..." ++ nl); tell ext (Exit 1).

Definition port_of (ip : bytes) (port : Z) : bytes := ip ++ str ":" ++ dec_string port.

Definition on_verbose_event (e : zimr_event_t) : tm unit :=
  match e with
  | Ev_INITIALIZING =>
      say (str "Starting Zimr webapp (v" ++ ZIMR_VERSION ++ str " - " ++ ZIMR_WEBSITE ++ str ")..." ++ nl)
  | Ev_LOADING_CNF path =>
      i ← pure (deref (strrchr path c_slash));
      say (str "[Loading webapp] " ++ drop (S i) path ++ nl)
  | Ev_MODULE_LOADING m => say (str "[Loading module] " ++ m ++ nl)
  | Ev_MODULE_LOAD_FAILED m | Ev_WEBSITE_MODULE_INIT_FAILED m =>
      _ ← say (str "[error] " ++ m ++ str " failed to load" ++ nl); stop_service
  | Ev_WEBSITE_ENABLE_FAILED url ip port reason =>
      _ ← say (str "[Url failed] " ++ url ++ str " (on proxy " ++ port_of ip port ++ str "): " ++ reason ++ nl);
      stop_service
  | Ev_ALL_WEBSITES_ENABLED => _ ← say (str "Service is now running." ++ nl); to_background
  | Ev_REGISTERING_WEBSITES urls => say (concat ((fun u => str "[Registering url] " ++ u ++ nl) <$> urls))
  | Ev_WEBSITE_ENABLE_SUCCEEDED _ _ _ | Ev_WEBSITE_MODULE_INIT _ _ | Ev_RESTART_REQUEST => mret tt
  end.

(** Both cases of the [switch] and its end come to the label [background]. *)
Definition on_basic_event (e : zimr_event_t) : tm unit :=
  match e with
  | Ev_ALL_WEBSITES_ENABLED => to_background
  | Ev_WEBSITE_ENABLE_FAILED _ _ _ _ => to_background
  | _ => to_background
  end.

Definition on_background_event (e : zimr_event_t) : tm unit :=
  match e with
  | Ev_RESTART_REQUEST =>
      _ ← upd (fun s => Tool (t_files s) (verbose s) (wait_for_child s) true (ppid s));
      tell ext (Exit 0)
  | _ => mret tt
  end.

Definition on_event (h : event_handler_t) (e : zimr_event_t) : tm unit :=
  match h with
  | event_handler_verbose => on_verbose_event e
  | event_handler_basic => on_basic_event e
  | event_handler_when_in_background => on_background_event e
  end.
End tool.
