(* ===== verification/ZimrToolSpec.v ===== *)
(** zimr/main.c, second part: what the commands do.  The abstract registry of a user is a
    map from the paths of configurations to a process number and the flag for disabled
    applications; each command is a function on it, and the tool on the state file refines
    that function. *)

From Stdlib Require Import ZArith Lia String.
From stdpp Require Import gmap.
From S2P Require Export ZcnfState ZimrTool.

Local Open Scope Z_scope.

(** ** The registry that a list of applications stands for *)

Notation app_entries := (gmap bytes (Z * bool)).

Definition app_entry (a : zcnf_state_app_t) : bytes * (Z * bool) :=
  (default [] (zs_path a), (zs_pid a, zs_stopped a)).

Definition apps_map (apps : list zcnf_state_app_t) : app_entries := list_to_map (app_entry <$> apps).

Section apps.
Context `{Y : Yaml}.

(** Every application has a path of its own and can be saved. *)
Definition good_apps (apps : list zcnf_state_app_t) : Prop :=
  Forall (λ a, ∃ p, app_ok a p) apps ∧ NoDup (zs_path <$> apps).

Lemma good_cons a apps :
  good_apps (a :: apps) →
  ∃ p, app_ok a p ∧ zs_path a = Some p ∧ Some p ∉ zs_path <$> apps ∧ good_apps apps ∧
       apps_map (a :: apps) = <[p := (zs_pid a, zs_stopped a)]> (apps_map apps).
Proof.
  intros [Hf Hd]. apply Forall_cons in Hf as [[p Hp] Hf]. apply NoDup_cons in Hd as [Hn Hd].
  pose proof (ao_path _ _ Hp) as E. exists p. rewrite E in Hn. split_and!; try done.
  unfold apps_map, app_entry. simpl. by rewrite E.
Qed.

Lemma apps_map_absent apps p : good_apps apps → apps_map apps !! p = None ↔ Some p ∉ zs_path <$> apps.
Proof.
  induction apps as [|a apps IH]; intros H.
  { split; [intros _; apply not_elem_of_nil | done]. }
  destruct (good_cons _ _ H) as (q & _ & Eq & _ & Hg & ->). rewrite fmap_cons, not_elem_of_cons, Eq.
  rewrite lookup_insert_None, (IH Hg). intuition congruence.
Qed.

Lemma find_app_spec apps path i :
  good_apps apps →
  match apps_map apps !! path with
  | None => find_app apps path i = Done None
  | Some (pid, stopped) =>
      ∃ j, find_app apps path i = Done (Some ((i + j)%nat, ZStateApp (Some path) pid stopped)) ∧
           apps !! j = Some (ZStateApp (Some path) pid stopped)
  end.
Proof.
  revert i. induction apps as [|a apps IH]; intros i H; [done|].
  destruct (good_cons _ _ H) as (p & _ & Ep & _ & Hg & ->). cbn [find_app]. rewrite Ep. cbn [deref mbind res_bind].
  unfold strcmp_eq. case_bool_decide as Hpp.
  - subst p. rewrite lookup_insert_eq. exists 0%nat. rewrite Nat.add_0_r.
    destruct a as [q pid stopped]. simpl in *. by subst q.
  - rewrite lookup_insert_ne by done. specialize (IH (S i) Hg).
    destruct (apps_map apps !! path) as [[pid stopped]|]; [|done].
    destruct IH as (j & E & Hj). exists (S j). by rewrite <- Nat.add_succ_comm.
Qed.

Lemma set_app_paths apps path pid stopped apps' :
  set_app apps path pid stopped = Done apps' → ∀ p, Some p ∈ zs_path <$> apps' → p = path ∨ Some p ∈ zs_path <$> apps.
Proof.
  revert apps'. induction apps as [|a apps IH]; intros apps' H p Hp; cbn [set_app] in H.
  { injection H as <-. rewrite fmap_cons in Hp. apply elem_of_cons in Hp as [[= ->]|Hp]; [by left|by apply not_elem_of_nil in Hp]. }
  destruct (zs_path a) as [q|] eqn:Eq; [|done]. cbn [deref mbind res_bind] in H. rewrite fmap_cons, Eq.
  revert H. unfold strcmp_eq. case_bool_decide as Hq; intros H.
  - injection H as <-. rewrite fmap_cons in Hp. simpl in Hp. by right.
  - destruct (set_app apps path pid stopped) as [l|]; [|done]. injection H as <-.
    rewrite fmap_cons, Eq in Hp. apply elem_of_cons in Hp as [Hp|Hp]; [right; by rewrite Hp; left|].
    destruct (IH l eq_refl p Hp); [by left|right; by right].
Qed.

Lemma set_app_map apps path pid stopped :
  good_apps apps → app_ok (ZStateApp (Some path) pid stopped) path →
  ∃ apps', set_app apps path pid stopped = Done apps' ∧ good_apps apps' ∧
           apps_map apps' = <[path := (pid, stopped)]> (apps_map apps).
Proof.
  intros H Hok. induction apps as [|a apps IH].
  - eexists. split; [done|]. split; [|done]. split; [repeat constructor; eauto|apply NoDup_singleton].
  - destruct (good_cons _ _ H) as (p & Hp & Ep & Hn & Hg & ->). cbn [set_app]. rewrite Ep. cbn [deref mbind res_bind].
    unfold strcmp_eq. case_bool_decide as Hpp.
    + subst p. eexists. split; [done|]. split; [|by rewrite insert_insert_eq].
      destruct Hg as [Hf Hd]. split; [constructor; eauto|]. rewrite fmap_cons. by constructor.
    + destruct (IH Hg) as (apps' & E & Hg' & Em). rewrite E. cbn [mbind res_bind]. eexists. split; [done|]. split.
      * destruct Hg' as [Hf Hd]. split; [constructor; eauto|]. rewrite fmap_cons. constructor; [|done].
        rewrite Ep. intros Hin. destruct (set_app_paths _ _ _ _ _ E p Hin); [congruence|done].
      * transitivity (<[p := (zs_pid a, zs_stopped a)]> (apps_map apps')).
        { unfold apps_map, app_entry. simpl. by rewrite Ep. }
        by rewrite Em, insert_insert_ne.
Qed.

Lemma delete_app_map apps j a path :
  good_apps apps → apps !! j = Some a → zs_path a = Some path →
  good_apps (delete j apps) ∧ apps_map (delete j apps) = delete path (apps_map apps).
Proof.
  revert j. induction apps as [|b apps IH]; intros j H Hj Ha; [done|].
  destruct (good_cons _ _ H) as (p & Hp & Ep & Hn & Hg & Em). destruct j as [|j]; simpl in Hj.
  - injection Hj as ->. assert (p = path) as -> by congruence. split; [done|]. rewrite Em.
    by rewrite delete_insert_eq, delete_id by (by apply apps_map_absent).
  - destruct (IH j Hg Hj Ha) as [[Hf Hd] E]. simpl. assert (p ≠ path) as Hne.
    { intros ->. apply Hn. rewrite <- Ha. apply list_elem_of_fmap_2, (list_elem_of_lookup_2 _ j). done. }
    split.
    + split; [constructor; eauto|]. rewrite fmap_cons. constructor; [|done]. rewrite Ep. intros Hin.
      apply Hn. apply list_elem_of_fmap in Hin as (c & Ec & Hc). rewrite Ec. apply list_elem_of_fmap_2.
      apply list_elem_of_lookup in Hc as [k Hc]. rewrite list_lookup_delete in Hc.
      destruct (decide (k < j)%nat); by eapply list_elem_of_lookup_2.
    + transitivity (<[p := (zs_pid b, zs_stopped b)]> (apps_map (delete j apps))).
      { unfold apps_map, app_entry. simpl. by rewrite Ep. }
      by rewrite E, Em, delete_insert_ne.
Qed.

Lemma good_apps_paths apps :
  good_apps apps → Forall2 app_ok apps ((λ a, default [] (zs_path a)) <$> apps).
Proof.
  intros [H _]. induction H as [|a apps [p Hp] H IH]; [constructor|]. rewrite fmap_cons. constructor; [|done].
  by rewrite (ao_path _ _ Hp).
Qed.
End apps.

(** ** The commands on the registry *)

Section commands.
Context (ans : call → answer).

(** What the kernel answers: whether a process is there, whether it is gone after it was
    told to stop, and the number of a new process. *)
Definition up (pid : Z) : bool := negb (a_ret (ans (Kill pid 0)) =? -1).
Definition gone (pid : Z) (force : bool) : bool :=
  let a := ans (if force then KillProc pid else StopProc pid) in
  match (if force then killproc else stopproc) (a_ret a =? 0) (a_probe a) with
  | Done (ok, e, _) => ok || (default (a_errno a) e =? ESRCH)
  | Fault _ => false
  end.
Definition child : Z := a_ret (ans Fork).

(** The new registry, and whether the command succeeds. *)
Definition command (type : cmd_type) (path : bytes) (force allow_disable : bool) (m : app_entries)
  : app_entries * bool :=
  match type, m !! path with
  | ADD, Some _ => (m, false)
  | ADD, None => (<[path := (0, true)]> m, true)
  | _, None => (m, false)
  | START, Some (pid, stopped) =>
      if negb stopped && negb (pid =? 0) && up pid then (m, false)
      else if child =? -1 then (m, false)
      else (<[path := (child, false)]> m, true)
  | RESTART, Some (pid, stopped) =>
      if stopped || negb ((pid =? 0) || gone pid force) then (m, false)
      else if child =? -1 then (m, false)
      else (<[path := (child, false)]> m, true)
  | STOP, Some (pid, _) =>
      if (pid =? 0) || gone pid force then (<[path := (0, allow_disable)]> m, true) else (m, false)
  | REMOVE, Some (pid, _) =>
      if (pid =? 0) || gone pid force then (delete path m, true) else (m, false)
  | STATUS, Some _ => (m, true)
  end.
End commands.

(** ** The tool on the state file *)

Lemma stopproc_done sent probe : ∃ ok e sleeps, stopproc sent probe = Done (ok, e, sleeps).
Proof.
  unfold stopproc. destruct sent; [cbn [negb]|by eexists _, _, _].
  destruct (wait_dead_total 14 probe 0 0) as (k & sl & -> & _); [lia..|]. cbn [mbind res_bind].
  destruct (probe k); by eexists _, _, _.
Qed.

Section refine.
Context `{Y : Yaml} {L : YamlLaws Y} {W : Type}.
Context (getpwuid : Z → option bytes) (writable : bytes → bool) (getpwents : list passwd).
Context (ZIMR_VERSION BUILD_DATE ZIMR_WEBSITE : bytes) (strerror : Z → bytes).
Context (ans : call → answer) (uid : Z) (home : bytes).
Notation ext := (λ (c : call) (w : W), (ans c, w)).
Notation tm := (em tool_t W call).
Implicit Types (s : tool_t) (w : W).

Definition state_file : bytes := home ++ str "/.zimr/state".

(** The user has a home directory that leaves room for the name of the state file, and the
    state file can be written. *)
Record user_ok : Prop := {
  uo_home : getpwuid uid = Some home;
  uo_length : (length home <= 115)%nat;
  uo_writable : writable state_file = true
}.

(** The state file holds the registry [m]. *)
Definition stored (fs : files) (m : app_entries) : Prop :=
  ∃ st, zcnf_state_load getpwuid writable fs uid = Done (Some st, fs) ∧ zs_uid st = uid ∧
        good_apps (zs_apps st) ∧ apps_map (zs_apps st) = m.

(** What a computation leaves alone: the settings, and the files. *)
Definition same_tool (s s' : tool_t) : Prop := t_files s' = t_files s ∧ verbose s' = verbose s.

Lemma same_refl s : same_tool s s. Proof. done. Qed.

Lemma same_trans s1 s2 s3 : same_tool s1 s2 → same_tool s2 s3 → same_tool s1 s3.
Proof. intros [H1 H2] [H3 H4]. split; congruence. Qed.

(** A computation that keeps the files and the settings and gives [a]. *)
Definition gives {A} (m : tm A) (s : tool_t) (w : W) (a : A) : Prop :=
  ewp m s w (λ b s' _ _, b = a ∧ same_tool s s').

Lemma gives_bind {A B} (m : tm A) (k : A → tm B) s w a (P : B → tool_t → W → list call → Prop) :
  gives m s w a → (∀ s' w' l, same_tool s s' → ewp (k a) s' w' (λ b s2 w2 l2, P b s2 w2 (l ++ l2))) →
  ewp (m ≫= k) s w P.
Proof.
  intros H Hk. apply ewp_bind. eapply ewp_mono; [exact H|]. intros b s' w' l [-> Hs]. by apply Hk.
Qed.

Lemma gives_ret {A} (a : A) s w : gives (mret a) s w a.
Proof. apply ewp_ret. by split. Qed.

Lemma gives_then {A B} (m : tm A) (k : A → tm B) s w a b :
  gives m s w a → (∀ s' w', same_tool s s' → gives (k a) s' w' b) → gives (m ≫= k) s w b.
Proof.
  intros H Hk. eapply gives_bind; [exact H|]. intros s' w' l Hs.
  eapply ewp_mono; [by apply Hk|]. intros c s2 w2 l2 [-> Hs2]. split; [done|]. by eapply same_trans.
Qed.

Lemma gives_ask c s w : gives (ask ext c) s w (ans c).
Proof. apply ewp_ask. by split. Qed.

Lemma gives_tell c s w : gives (tell ext c) s w tt.
Proof. apply ewp_tell. by split. Qed.

Lemma gives_pure {A} (r : res A) a s w : r = Done a → gives (pure r) s w a.
Proof. intros E. eapply ewp_pure; [exact E|]. by split. Qed.

Lemma gives_get s w : gives get_state s w s.
Proof. apply ewp_get. by split. Qed.

Lemma gives_only_if b (m : tm unit) s w : (b = true → gives m s w tt) → gives (only_if b m) s w tt.
Proof. intros H. destruct b; [by apply H | apply gives_ret]. Qed.

Lemma gives_advise before cmd after path s w :
  c_slash ∈ path → gives (advise ext before cmd after path) s w tt.
Proof.
  intros H. unfold advise.
  destruct (strrchr path c_slash) as [i|] eqn:E; [|by apply strrchr_None in E].
  eapply gives_then; [eapply gives_pure; unfold GETCNFARG; rewrite E; reflexivity|]. intros. apply gives_tell.
Qed.

(** *** The parts *)

Lemma expand_home path size (Hu : user_ok) :
  (115 + length path < size)%nat →
  expand_tilde getpwuid (126 :: path) size uid = Done (Some (home ++ path)).
Proof.
  intros H. destruct Hu as [Hh Hl _]. unfold expand_tilde. rewrite Hh. cbn [deref mbind res_bind].
  destruct (Nat.ltb_spec size (length home + length path)); [lia|]. unfold strcpy_into.
  rewrite length_app. destruct (Nat.ltb_spec (length home + length path) size); [done|lia].
Qed.

Lemma expand_state (Hu : user_ok) : expand_tilde getpwuid ZM_USR_STATE_FILE 128 uid = Done (Some state_file).
Proof. apply (expand_home (str "/.zimr/state") 128 Hu). vm_compute. lia. Qed.

Lemma checkdir_same dir s w : ewp (checkdir ext dir) s w (λ _ s' _ _, same_tool s s').
Proof.
  unfold checkdir. eapply gives_bind; [apply gives_ask|]. intros s1 w1 l Hs. destruct (a_ret _ =? 0).
  - by apply ewp_ret.
  - eapply gives_bind; [apply gives_ask|]. intros s2 w2 l2 Hs2. apply ewp_ret. by eapply same_trans.
Qed.

Lemma userdir_same s w (Hu : user_ok) : ewp (userdir_init ext getpwuid uid) s w (λ _ s' _ _, same_tool s s').
Proof.
  unfold userdir_init. change ZM_USR_DIR with (126 :: str "/.zimr/").
  eapply gives_bind; [apply gives_pure, expand_home; [done|vm_compute; lia]|]. intros s1 w1 l1 Hs1.
  apply ewp_bind. eapply ewp_mono; [apply checkdir_same|]. intros ok s2 w2 l2 Hs2. cbn beta.
  pose proof (same_trans _ _ _ Hs1 Hs2) as Hs. destruct ok; cbn [negb]; [|by apply ewp_ret].
  change ZM_USR_MODULE_DIR with (126 :: str "/.zimr/modules/").
  eapply gives_bind; [apply gives_pure, expand_home; [done|vm_compute; lia]|]. intros s3 w3 l3 Hs3.
  eapply ewp_mono; [apply checkdir_same|]. intros ? s4 ? ? Hs4. by do 2 (eapply same_trans; [eassumption|]).
Qed.

Lemma stop_with_done c proc ok e sl s w :
  proc (a_ret (ans c) =? 0) (a_probe (ans c)) = Done (ok, e, sl) →
  gives (stop_with ext c proc) s w (ok, default (a_errno (ans c)) e).
Proof.
  intros E. unfold stop_with. eapply gives_then; [apply gives_ask|]. intros. cbn beta.
  eapply gives_then; [by apply gives_pure|]. intros. apply gives_ret.
Qed.

Lemma stop_any c :
  ∃ ok e sl, stopproc (a_ret (ans c) =? 0) (a_probe (ans c)) = Done (ok, e, sl) ∧ ∀ s w,
    gives ('(ok, e) ← stop_with ext c stopproc; mret (negb (negb ok && negb (e =? ESRCH)), e)) s w
      (ok || (default (a_errno (ans c)) e =? ESRCH), default (a_errno (ans c)) e).
Proof.
  destruct (stopproc_done (a_ret (ans c) =? 0) (a_probe (ans c))) as (ok & e & sl & E).
  exists ok, e, sl. split; [done|]. intros s w. eapply gives_then; [by apply (stop_with_done _ _ ok e sl)|].
  intros. cbn beta iota. rewrite <- negb_orb, negb_involutive. apply gives_ret.
Qed.

Lemma stop_gone pid (force : bool) :
  ∃ e, ∀ s w, gives ('(ok, e) ← (if force then stop_with ext (KillProc pid) killproc
                                 else stop_with ext (StopProc pid) stopproc);
                     mret (negb (negb ok && negb (e =? ESRCH)), e)) s w (gone ans pid force, e).
Proof.
  unfold gone. change killproc with stopproc.
  destruct force; [destruct (stop_any (KillProc pid)) as (ok & e & sl & E & H)
                  |destruct (stop_any (StopProc pid)) as (ok & e & sl & E & H)];
    rewrite E; eexists; exact H.
Qed.

(** The error number matters for the message only. *)
Lemma application_kill_gone pid force :
  ∃ e, ∀ s w, gives (application_kill ext pid force) s w ((pid =? 0) || gone ans pid force, e).
Proof.
  destruct (stop_gone pid force) as [e He]. exists (if pid =? 0 then 0 else e). intros s w.
  unfold application_kill. eapply gives_then; [apply gives_get|]. intros s1 w1 Hs1. cbn beta.
  eapply gives_then; [apply gives_only_if; intros; apply gives_tell|]. intros s2 w2 Hs2. cbn beta.
  eapply gives_then.
  { instantiate (1 := ((pid =? 0) || gone ans pid force, if pid =? 0 then 0 else e)).
    destruct (pid =? 0); [apply gives_ret|apply He]. }
  intros s3 w3 Hs3. cbn beta iota.
  eapply gives_then; [apply gives_only_if; intros; apply gives_tell|]. intros. apply gives_ret.
Qed.

Lemma alive_up pid s w : gives (alive ext pid) s w (up ans pid).
Proof. unfold alive. eapply gives_then; [apply gives_ask|]. intros. apply gives_ret. Qed.

(** The parent of the new process. *)
Lemma application_exec_child gid path s w :
  child ans ≠ 0 → gives (application_exec ext uid gid path false) s w (child ans).
Proof.
  intros Hc. unfold application_exec. cbn [negb].
  eapply gives_then; [instantiate (1 := tt); apply gives_only_if; intros _;
    eapply gives_then; [apply gives_ask|]; intros; apply ewp_bind, ewp_get, ewp_put; by split|].
  intros s1 w1 Hs1. cbn beta. eapply gives_then; [eapply gives_then; [apply gives_ask|]; intros; apply gives_ret|].
  intros s2 w2 Hs2. cbn beta. change (a_ret (ans Fork)) with (child ans).
  rewrite (proj2 (Z.eqb_neq _ _)) by done. destruct (Z.eqb_spec (child ans) (-1)) as [->|].
  - eapply gives_then; [apply gives_tell|]. intros. apply gives_ret.
  - eapply gives_then; [apply gives_get|]. intros. cbn beta.
    eapply gives_then; [apply gives_only_if; intros; apply gives_tell|]. intros. apply gives_ret.
Qed.

Lemma application_status_same app path s w :
  verbose s = false → gives (application_status ext getpwuid app path) s w tt.
Proof.
  intros Hv. unfold application_status. destruct (zs_stopped app); [apply gives_tell|].
  eapply gives_then.
  { instantiate (1 := if zs_pid app =? 0 then false else up ans (zs_pid app)).
    destruct (zs_pid app =? 0); [apply gives_ret|apply alive_up]. }
  intros s1 w1 Hs1. cbn beta. destruct (if zs_pid app =? 0 then _ else _); cbn [negb]; [|apply gives_tell].
  eapply gives_then; [apply gives_tell|]. intros s2 w2 Hs2. cbn beta.
  eapply gives_then; [apply gives_get|]. intros s3 w3 Hs3. cbn beta.
  destruct Hs1 as [_ H1], Hs2 as [_ H2]. rewrite H2, H1, Hv. apply gives_ret.
Qed.

(** *** One command *)

(** A path of a configuration, as realpath gives it. *)
Record legal_path (path : bytes) : Prop := {
  lp_slash : c_slash ∈ path;
  lp_valid : yaml_valid path = true
}.

(** The kernel gives process numbers to children that are ints; 0 would be the child's own. *)
Record fork_ok : Prop := {
  fo_parent : child ans ≠ 0;
  fo_int : - 2 ^ 31 <= child ans < 2 ^ 31
}.

(** The state after a command on a registry. *)
Definition commanded (type : cmd_type) (path : bytes) (force allow : bool) (m : app_entries)
  (o : option zcnf_state_t) : Prop :=
  match o with
  | Some st => zs_uid st = uid ∧ good_apps (zs_apps st) ∧
               command ans type path force allow m = (apps_map (zs_apps st), true)
  | None => command ans type path force allow m = (m, false)
  end.

Lemma set_state st path pid stopped :
  zs_uid st = uid → good_apps (zs_apps st) → legal_path path → - 2 ^ 31 <= pid < 2 ^ 31 →
  ∃ st', zcnf_state_set_app st path pid stopped = Done st' ∧ zs_uid st' = uid ∧ good_apps (zs_apps st') ∧
         apps_map (zs_apps st') = <[path := (pid, stopped)]> (apps_map (zs_apps st)).
Proof.
  intros Hu Hg [_ Hv] Hp. destruct (set_app_map (zs_apps st) path pid stopped Hg) as (apps & E & Hg' & Em);
    [done|]. exists (ZState apps (zs_uid st)). unfold zcnf_state_set_app. by rewrite E.
Qed.

(** The last step of a command that succeeds. *)
Lemma commanded_set type path force allow m pid stopped st s w (m0 : tool_t) :
  zs_uid st = uid → good_apps (zs_apps st) → apps_map (zs_apps st) = m → legal_path path →
  - 2 ^ 31 <= pid < 2 ^ 31 → command ans type path force allow m = (<[path := (pid, stopped)]> m, true) →
  same_tool m0 s →
  ewp (st' ← pure (zcnf_state_set_app st path pid stopped); mret (Some st') : tm (option zcnf_state_t)) s w
    (λ o s' _ _, same_tool m0 s' ∧ commanded type path force allow m o).
Proof.
  intros Hu Hg Hm Hp Hpid Hc Hs. destruct (set_state st path pid stopped Hu Hg Hp Hpid) as (st' & E & Hu' & Hg' & Em).
  apply ewp_bind. eapply ewp_pure; [exact E|]. apply ewp_ret. split; [done|]. split; [done|]. split; [done|].
  by rewrite Hc, Em, Hm.
Qed.

Lemma commanded_fail type path force allow m s w (m0 : tool_t) text :
  command ans type path force allow m = (m, false) → same_tool m0 s →
  ewp (_ ← tell ext (Print text); mret None : tm (option zcnf_state_t)) s w
    (λ o s' _ _, same_tool m0 s' ∧ commanded type path force allow m o).
Proof.
  intros Hc Hs. apply ewp_bind, ewp_tell, ewp_ret. by split.
Qed.

Notation tool_command := (application_command ext getpwuid strerror).

(** The messages and the settings leave the state alone. *)
Ltac passes lem := eapply gives_bind; [first [eapply lem | apply gives_only_if; intros; eapply lem]|];
  let s' := fresh "s" in let w' := fresh "w" in let l := fresh "l" in let H := fresh "Hs" in
  intros s' w' l H; cbn beta iota.

(** The path of an application that was found. *)
Ltac passes_path :=
  eapply gives_bind; [apply gives_pure; cbn [zs_path deref]; reflexivity|]; intros ??? ?; cbn beta.

Ltac passes_advice H :=
  eapply gives_bind; [apply gives_advise, H|]; intros ??? ?; cbn beta.

Ltac same := repeat (eapply same_trans; [eassumption|]); first [eassumption | apply same_refl].

Section one.
Context (st : zcnf_state_t) (gid : Z) (path : bytes) (force allow : bool) (m : app_entries).
Context (place : nat) (pid : Z) (stopped : bool).
Context (Hu : zs_uid st = uid) (Hg : good_apps (zs_apps st)) (Hm : apps_map (zs_apps st) = m).
Context (Hp : legal_path path) (Hc : fork_ok) (Hfound : m !! path = Some (pid, stopped)).
Notation app := (ZStateApp (Some path) pid stopped).
Notation outcome type m0 := (λ o s' _ _, same_tool m0 s' ∧ commanded type path force allow m o).

Lemma start_command s w :
  ewp (tool_command st uid gid path START force allow place app) s w (outcome START s).
Proof.
  unfold application_command. passes gives_get. passes gives_tell.
  assert (command ans START path force allow m =
    if negb stopped && negb (pid =? 0) && up ans pid then (m, false)
    else if child ans =? -1 then (m, false) else (<[path := (child ans, false)]> m, true)) as Hcmd.
  { unfold command. by rewrite Hfound. }
  cbn [zs_pid zs_stopped]. eapply gives_bind.
  { instantiate (1 := negb stopped && negb (pid =? 0) && up ans pid).
    rewrite <- negb_orb. destruct (stopped || (pid =? 0)); [apply gives_ret|apply alive_up]. }
  intros s3 w3 l3 Hs3. cbn beta. destruct (negb stopped && _ && _).
  - passes_advice Hp. apply ewp_ret. split; [same|exact Hcmd].
  - eapply gives_bind; [apply application_exec_child, Hc|]. intros s4 w4 l4 Hs4. cbn beta.
    destruct (child ans =? -1); [apply commanded_fail; [exact Hcmd|same]|].
    passes gives_tell. eapply commanded_set; try done; [apply Hc|same].
Qed.

Lemma restart_command s w :
  ewp (tool_command st uid gid path RESTART force allow place app) s w (outcome RESTART s).
Proof.
  unfold application_command. passes gives_get. cbn [zs_pid zs_stopped].
  assert (command ans RESTART path force allow m =
    if stopped || negb ((pid =? 0) || gone ans pid force) then (m, false)
    else if child ans =? -1 then (m, false) else (<[path := (child ans, false)]> m, true)) as Hcmd.
  { unfold command. by rewrite Hfound. }
  destruct stopped.
  { passes_advice Hp. apply ewp_ret. split; [same|exact Hcmd]. }
  passes gives_tell. destruct (application_kill_gone pid force) as [e He]. passes He.
  destruct ((pid =? 0) || gone ans pid force); cbn [negb orb] in *;
    [|unfold say_failed; apply commanded_fail; [exact Hcmd|same]].
  passes gives_tell. passes_path.
  eapply gives_bind; [apply application_exec_child, Hc|]. intros s6 w6 l6 Hs6. cbn beta.
  destruct (child ans =? -1); [apply commanded_fail; [exact Hcmd|same]|].
  passes gives_tell. eapply commanded_set; try done; [apply Hc|same].
Qed.

Lemma stop_command s w :
  ewp (tool_command st uid gid path STOP force allow place app) s w (outcome STOP s).
Proof.
  unfold application_command. passes gives_get. passes gives_tell. cbn [zs_pid].
  assert (command ans STOP path force allow m =
    if (pid =? 0) || gone ans pid force then (<[path := (0, allow)]> m, true) else (m, false)) as Hcmd.
  { unfold command. by rewrite Hfound. }
  destruct (application_kill_gone pid force) as [e He].
  eapply gives_bind.
  { instantiate (1 := ((pid =? 0) || gone ans pid force, if pid =? 0 then 0 else e)).
    destruct (pid =? 0); [|apply He]. eapply gives_then; [apply gives_tell|]. intros. apply gives_ret. }
  intros s3 w3 l3 Hs3. cbn beta iota.
  destruct ((pid =? 0) || gone ans pid force); cbn [negb];
    [|unfold say_failed; apply commanded_fail; [exact Hcmd|same]].
  passes gives_tell. passes_path.
  eapply commanded_set; try done; same.
Qed.

Lemma remove_command s w :
  zs_apps st !! place = Some app →
  ewp (tool_command st uid gid path REMOVE force allow place app) s w (outcome REMOVE s).
Proof.
  intros Hat. unfold application_command. passes gives_get. cbn [zs_pid].
  assert (command ans REMOVE path force allow m =
    if (pid =? 0) || gone ans pid force then (delete path m, true) else (m, false)) as Hcmd.
  { unfold command. by rewrite Hfound. }
  destruct (application_kill_gone pid force) as [e He].
  eapply gives_bind.
  { instantiate (1 := ((pid =? 0) || gone ans pid force, if pid =? 0 then 0 else e)).
    destruct (pid =? 0); [apply gives_ret|apply He]. }
  intros s3 w3 l3 Hs3. cbn beta iota.
  destruct ((pid =? 0) || gone ans pid force); cbn [negb];
    [|unfold say_failed; apply commanded_fail; [exact Hcmd|same]].
  passes gives_tell. apply ewp_ret. split; [same|].
  destruct (delete_app_map _ _ _ _ Hg Hat eq_refl) as [Hg' Em].
  split; [done|]. split; [done|]. cbn [zs_apps]. by rewrite Hcmd, Em, Hm.
Qed.

Lemma status_command s w : verbose s = false →
  ewp (tool_command st uid gid path STATUS force allow place app) s w (outcome STATUS s).
Proof.
  intros Hv. unfold application_command. passes gives_get.
  eapply gives_bind; [apply application_status_same; destruct Hs as [_ ->]; exact Hv|]. intros s2 w2 l2 Hs2.
  apply ewp_ret. split; [same|]. split; [done|]. split; [done|]. unfold command. by rewrite Hfound, Hm.
Qed.
End one.

Lemma application_found_command st gid path type force allow s w :
  zs_uid st = uid → good_apps (zs_apps st) → legal_path path → fork_ok → (type = STATUS → verbose s = false) →
  ∃ found, find_app (zs_apps st) path 0 = Done found ∧
    ewp (application_found ext getpwuid strerror st uid gid path type force allow found) s w
      (λ o s' _ _, same_tool s s' ∧ commanded type path force allow (apps_map (zs_apps st)) o).
Proof.
  intros Hu Hg Hp Hc Hv. pose proof (find_app_spec (zs_apps st) path 0 Hg) as Hf.
  destruct (apps_map (zs_apps st) !! path) as [[pid stopped]|] eqn:Hm.
  - destruct Hf as (j & -> & Hj). eexists. split; [done|]. cbn [Nat.add]. destruct type.
    + passes_advice Hp. apply ewp_ret. split; [same|]. unfold commanded, command. by rewrite Hm.
    + by eapply start_command.
    + by eapply stop_command.
    + by eapply restart_command.
    + by eapply remove_command.
    + eapply status_command; eauto.
  - exists None. split; [done|]. unfold application_found.
    destruct type; first [passes gives_tell | passes_advice Hp];
      try (apply ewp_ret; split; [same|]; unfold commanded, command; by rewrite Hm).
    eapply commanded_set; try done. unfold command. by rewrite Hm.
Qed.

(** *** The state file *)

(** [fs'] holds the registry [m], and the other files are those of [fs]. *)
Definition updated (fs fs' : files) (m : app_entries) : Prop :=
  stored fs' m ∧ ∀ other, other ≠ state_file → fs' !! other = fs !! other.

Lemma load_state_stored s w m :
  stored (t_files s) m →
  ∃ st, zs_uid st = uid ∧ good_apps (zs_apps st) ∧ apps_map (zs_apps st) = m ∧
        gives (load_state getpwuid writable uid) s w (Some st).
Proof.
  intros (st & E & Hu & Hg & Hm). exists st. split_and!; try done. unfold load_state.
  eapply gives_then; [apply gives_get|]. intros s1 w1 [Hf Hv]. cbn beta.
  eapply gives_then; [apply gives_pure; exact E|]. intros s2 w2 [Hf2 Hv2]. cbn beta iota.
  eapply gives_then; [instantiate (1 := tt); apply ewp_put; split; [done|]; split; cbn; congruence|].
  intros. apply gives_ret.
Qed.

Lemma save_state_stored st s w (Hu : user_ok) :
  zs_uid st = uid → good_apps (zs_apps st) →
  ewp (save_state getpwuid writable st) s w
    (λ _ s' _ _, updated (t_files s) (t_files s') (apps_map (zs_apps st)) ∧ verbose s' = verbose s).
Proof.
  intros Hus Hg.
  destruct (saved_state_loads getpwuid writable (t_files s) st state_file
    ((λ a, default [] (zs_path a)) <$> zs_apps st))
    as (fs' & E & El & Ho); [rewrite Hus; by apply expand_state|by apply Hu|by apply good_apps_paths|].
  unfold save_state. apply ewp_bind, ewp_get. apply ewp_bind. eapply ewp_pure; [exact E|]. apply ewp_put.
  split; [|done]. split; [|done]. exists st. rewrite Hus in El. done.
Qed.

Lemma application_function_wp gid path type force allow s w m :
  user_ok → fork_ok → legal_path path → stored (t_files s) m → (type = STATUS → verbose s = false) →
  ewp (application_function ext getpwuid writable strerror uid gid path type force allow) s w
    (λ ok s' _ _, ok = (command ans type path force allow m).2 ∧
       updated (t_files s) (t_files s') (command ans type path force allow m).1 ∧ verbose s' = verbose s).
Proof.
  intros Hu Hc Hp Hm Hv. unfold application_function. apply ewp_bind.
  eapply ewp_mono; [by apply userdir_same|]. intros _ s1 w1 _ [Hf1 Hv1]. cbn beta.
  rewrite <- Hf1 in Hm. destruct (load_state_stored s1 w1 m Hm) as (st & Hus & Hg & Em & Hl).
  eapply gives_bind; [exact Hl|]. intros s2 w2 l2 [Hf2 Hv2]. cbn beta iota.
  destruct (application_found_command st gid path type force allow s2 w2) as (found & Ef & Hcmd); try done.
  { intros Ht. rewrite Hv2, Hv1. auto. }
  apply ewp_bind. eapply ewp_pure; [exact Ef|]. apply ewp_bind.
  eapply ewp_mono; [exact Hcmd|]. intros o s3 w3 l3 [[Hf3 Hv3] Ho]. cbn beta. subst m.
  destruct o as [st'|].
  - destruct Ho as (Hus' & Hg' & ->). apply ewp_bind. eapply ewp_mono; [by apply save_state_stored|].
    intros _ s4 w4 l4 [[Hst Hot] Hv4]. apply ewp_ret. split; [done|]. split; [|congruence].
    split; [done|]. intros other Hne. rewrite Hot by done. congruence.
  - cbn in Ho. rewrite Ho. apply ewp_ret. split; [done|]. split; [|congruence]. cbn [fst].
    assert (t_files s3 = t_files s) as -> by congruence. split; [|done]. by rewrite <- Hf1.
Qed.

(** *** Stopping everything *)

(** What stopping does to one application, with [allow] for the flag. *)
Definition stop_one (allow : bool) (e : Z * bool) : Z * bool :=
  if e.2 then e else if (e.1 =? 0) || gone ans e.1 false then (0, allow) else e.

Lemma updated_trans fs1 fs2 fs3 m1 m2 : updated fs1 fs2 m1 → updated fs2 fs3 m2 → updated fs1 fs3 m2.
Proof. intros [_ H1] [Hs H2]. split; [done|]. intros o Ho. by rewrite H2, H1. Qed.

Lemma stop_next gid ign allow a p s w m :
  user_ok → fork_ok → legal_path p → zs_path a = Some p → m !! p = Some (zs_pid a, zs_stopped a) →
  stored (t_files s) m →
  ewp (state_app ext getpwuid writable strerror uid gid STOP ign allow a) s w
    (λ _ s' _ _, updated (t_files s) (t_files s') (<[p := stop_one allow (zs_pid a, zs_stopped a)]> m)).
Proof.
  intros Hu Hc Hp Ha Hm Hs. unfold state_app, skips. apply ewp_bind, ewp_ret. unfold stop_one. cbn [fst snd].
  destruct (zs_stopped a) eqn:Est.
  - apply ewp_ret. rewrite insert_id by done. by split.
  - rewrite Ha. apply ewp_bind. eapply ewp_pure; [reflexivity|].
    eapply ewp_mono; [by eapply application_function_wp|]. intros _ s1 w1 _ (_ & H & _).
    unfold command in H. rewrite Hm in H. destruct ((zs_pid a =? 0) || gone ans (zs_pid a) false); cbn [fst] in H.
    + exact H.
    + by rewrite insert_id.
Qed.

Lemma state_apps_stop gid ign allow apps s w m :
  user_ok → fork_ok → good_apps apps → apps_map apps ⊆ m →
  Forall (λ a, ∀ p, zs_path a = Some p → c_slash ∈ p) apps → stored (t_files s) m →
  ewp (state_apps ext getpwuid writable strerror uid gid STOP ign allow apps) s w
    (λ _ s' _ _, updated (t_files s) (t_files s') ((stop_one allow <$> apps_map apps) ∪ m)).
Proof.
  intros Hu Hc Hg Hsub Hsl Hs. revert s w m Hsub Hs. induction apps as [|a apps IH]; intros s w m Hsub Hs.
  - apply ewp_ret. unfold apps_map. simpl. rewrite fmap_empty, map_empty_union. by split.
  - destruct (good_cons _ _ Hg) as (p & Hp & Ep & Hn & Hg' & Em). rewrite Em in Hsub |- *.
    apply Forall_cons in Hsl as [Ha Hsl]. pose proof (proj2 (apps_map_absent _ p Hg') Hn) as Hnone.
    cbn [state_apps]. apply ewp_bind. eapply ewp_mono.
    { eapply (stop_next gid ign allow a p); try done; [split; [by apply Ha|apply Hp]|].
      eapply lookup_weaken; [apply lookup_insert_eq|exact Hsub]. }
    intros ok s1 w1 l1 Hup. cbn beta in Hup |- *. eapply ewp_mono.
    { eapply (IH Hg' Hsl); [|apply Hup]. apply insert_subseteq_r; [done|].
      etrans; [|exact Hsub]. by apply insert_subseteq. }
    intros [] s2 w2 l2 H2. cbn beta in H2 |- *. eapply updated_trans; [exact Hup|].
    rewrite fmap_insert, <- insert_union_l, insert_union_r; [exact H2|].
    by rewrite lookup_fmap, Hnone.
Qed.

Lemma state_options_same optv ign allow s w :
  ewp (state_options (Y:=Y) (W:=W) optv ign allow) s w
    (λ r s' _ _, r.2 = allow && negb (bool_decide (NO_DISABLE ∈ optv)) ∧ same_tool s s').
Proof.
  revert ign allow s w. induction optv as [|o optv IH]; intros ign allow s w; cbn [state_options].
  - apply ewp_ret. split; [by rewrite andb_true_r|done].
  - unfold strcmp_eq. destruct (bool_decide_reflect (o = str "-ignore-disabled")) as [H1|H1].
    + eapply ewp_mono; [apply IH|]. intros r s' _ _ [-> H]. split; [|done]. subst o. do 2 f_equal.
      apply bool_decide_ext. rewrite elem_of_cons. split; [by right|]. by intros [?|?].
    + destruct (bool_decide_reflect (o = str "-no-disable")) as [H2|H2].
      * eapply ewp_mono; [apply IH|]. intros r s' _ _ [-> H]. split; [|done]. subst o.
        change (str "-no-disable") with NO_DISABLE.
        rewrite (bool_decide_eq_true_2 (NO_DISABLE ∈ NO_DISABLE :: optv)) by left. by rewrite andb_false_r.
      * eapply gives_bind; [apply gives_only_if; intros _; apply ewp_bind, ewp_get, ewp_put; by split|].
        intros s1 w1 l Hs. eapply ewp_mono; [apply IH|]. intros r s' _ _ [-> H]. split; [|by eapply same_trans].
        do 2 f_equal. apply bool_decide_ext. rewrite elem_of_cons. split; [by right|]. intros [E|?]; [|done].
        by destruct (H2 (eq_sym E)).
Qed.

Lemma state_function_stop list_sort_quicksort gid optv s w m :
  user_ok → fork_ok → stored (t_files s) m → map_Forall (λ p _, c_slash ∈ p) m →
  ewp (state_function ext getpwuid writable strerror list_sort_quicksort uid gid STOP optv) s w
    (λ ok s' _ _, ok = true ∧
       updated (t_files s) (t_files s') (stop_one (negb (bool_decide (NO_DISABLE ∈ optv))) <$> m)).
Proof.
  intros Hu Hc Hs Hsl. destruct (load_state_stored s w m Hs) as (st & _ & Hg & Em & Hl). unfold state_function.
  eapply gives_bind; [exact Hl|]. intros s1 w1 l1 [Hf1 _]. apply ewp_bind.
  apply ewp_bind, ewp_get, ewp_put. cbn beta iota. rewrite bool_decide_eq_false_2 by done.
  apply ewp_bind, ewp_ret. apply ewp_bind. eapply ewp_mono; [apply state_options_same|].
  intros [ign allow] s2 w2 l2 [Ha [Hf2 _]]. cbn in Ha, Hf2. subst allow. cbn beta iota.
  assert (t_files s2 = t_files s) as Hf by congruence. apply ewp_bind. eapply ewp_mono.
  { eapply (state_apps_stop gid ign _ (zs_apps st) s2 w2 m); try done; [by rewrite Em| |by rewrite Hf].
    apply Forall_lookup. intros i a Ha p Ep. destruct (m !! p) as [v|] eqn:Ev; [by apply (Hsl p v)|].
    rewrite <- Em in Ev. apply apps_map_absent in Ev; [|done]. destruct Ev. rewrite <- Ep.
    by eapply list_elem_of_fmap_2, list_elem_of_lookup_2. }
  intros [] s3 w3 l3 H3. cbn beta in H3 |- *. apply ewp_ret. split; [done|]. rewrite Em in H3. rewrite <- Hf.
  replace (stop_one _ <$> m) with ((stop_one (negb (bool_decide (NO_DISABLE ∈ optv))) <$> m) ∪ m); [exact H3|].
  apply map_eq. intros i. rewrite lookup_union, lookup_fmap. by destruct (m !! i).
Qed.

(** ** Properties *)

(** C31: every command of the tool does on the state file of the user what it does on the
    abstract registry: it succeeds when the registry says so, the file then holds the new
    registry, and no other file changes. *)
Theorem application_function_refines gid path type force allow s w m :
  user_ok → fork_ok → legal_path path → stored (t_files s) m → (type = STATUS → verbose s = false) →
  ∃ s' w' l,
    application_function ext getpwuid writable strerror uid gid path type force allow s w =
      Done ((command ans type path force allow m).2, s', w', l) ∧
    stored (t_files s') (command ans type path force allow m).1 ∧
    ∀ other, other ≠ state_file → t_files s' !! other = t_files s !! other.
Proof.
  intros Hu Hc Hp Hs Hv.
  destruct (application_function_wp gid path type force allow s w m Hu Hc Hp Hs Hv)
    as (ok & s' & w' & l & E & -> & H & _).
  exists s', w', l. split; [exact E|exact H].
Qed.

(** Stopping all applications of a user ends every process that can be ended, and only
    of applications that are not disabled; those that are gone have no process number any
    more, and are disabled unless the option says not to.  The others stay as they are. *)
Theorem state_function_stops_all list_sort_quicksort gid optv s w m :
  user_ok → fork_ok → stored (t_files s) m → map_Forall (λ p _, c_slash ∈ p) m →
  ∃ s' w' l,
    state_function ext getpwuid writable strerror list_sort_quicksort uid gid STOP optv s w =
      Done (true, s', w', l) ∧
    stored (t_files s') (stop_one (negb (bool_decide (NO_DISABLE ∈ optv))) <$> m).
Proof.
  intros Hu Hc Hs Hsl.
  destruct (state_function_stop list_sort_quicksort gid optv s w m Hu Hc Hs Hsl)
    as (ok & s' & w' & l & E & -> & [H _]).
  exists s', w', l. split; [exact E|exact H].
Qed.
End refine.

(** ** A user with two applications *)

Import ListYaml.

Definition tool_home (uid : Z) : option bytes := if uid =? 1000 then Some (str "/home/u") else None.
Definition path_a : bytes := str "/srv/a/zimr.webapp".
Definition path_b : bytes := str "/srv/b/zimr.webapp".
Definition tool_state : zcnf_state_t :=
  ZState [ZStateApp (Some path_a) 41 false; ZStateApp (Some path_b) 0 true] 1000.
Definition tool_files : files :=
  match zcnf_state_save tool_home (λ _, true) ∅ tool_state with Done fs => fs | Fault _ => ∅ end.
Definition tool_start : tool_t := Tool tool_files false true false 0.

(** The process 41 is there and ends at the first signal; a new process is 77. *)
Definition tool_answers (c : call) : answer :=
  match c with
  | Fork => Answer 77 0 (λ _, None) [] false
  | Kill _ _ => Answer 0 0 (λ _, None) [] false
  | StopProc _ => Answer 0 0 (λ k, if (k =? 0)%nat then None else Some ESRCH) [] false
  | Stat _ => Answer 0 0 (λ _, None) [] true
  | _ => Answer 0 0 (λ _, None) [] false
  end.

Lemma tool_user_ok : user_ok tool_home (λ _, true) 1000 (str "/home/u").
Proof. split; [reflexivity|vm_compute; lia|reflexivity]. Qed.

Lemma tool_fork_ok : fork_ok tool_answers.
Proof. split; vm_compute; [discriminate|split; [discriminate|reflexivity]]. Qed.

Lemma tool_stored : stored tool_home (λ _, true) 1000 tool_files (apps_map (zs_apps tool_state)).
Proof.
  exists tool_state. split; [vm_compute; reflexivity|]. split; [done|]. split; [|done]. split.
  - repeat constructor; eexists; split; try reflexivity; simpl; lia.
  - apply (bool_decide_unpack _). vm_compute. exact I.
Qed.

Notation tool_ext := (λ (c : call) (w : unit), (tool_answers c, w)).
Notation tool_error := (λ (e : Z), str "error").

Lemma application_function_refines_witness :
  ∃ s' w' l,
    application_function tool_ext tool_home (λ _, true) tool_error 1000 1000 path_a RESTART false false tool_start tt =
      Done (true, s', w', l) ∧
    ∃ st, zcnf_state_load tool_home (λ _, true) (t_files s') 1000 = Done (Some st, t_files s') ∧
          apps_map (zs_apps st) !! path_a = Some (77, false) ∧ apps_map (zs_apps st) !! path_b = Some (0, true).
Proof.
  destruct (application_function_refines (W:=unit) tool_home (λ _, true) tool_error tool_answers 1000 (str "/home/u")
    1000 path_a RESTART false false tool_start tt (apps_map (zs_apps tool_state)))
    as (s' & w' & l & E & (st & Hl & _ & _ & Hm) & _).
  - exact tool_user_ok.
  - exact tool_fork_ok.
  - split; [apply (bool_decide_unpack _); vm_compute; exact I|reflexivity].
  - exact tool_stored.
  - discriminate.
  - exists s', w', l. split; [exact E|]. exists st. split; [exact Hl|]. rewrite Hm. clear. split; vm_compute; reflexivity.
Defined.

Lemma state_function_stops_all_witness :
  ∃ s' w' l,
    state_function tool_ext tool_home (λ _, true) tool_error (λ l, l) 1000 1000 STOP [NO_DISABLE] tool_start tt =
      Done (true, s', w', l) ∧
    ∃ st, zcnf_state_load tool_home (λ _, true) (t_files s') 1000 = Done (Some st, t_files s') ∧
          apps_map (zs_apps st) !! path_a = Some (0, false) ∧ apps_map (zs_apps st) !! path_b = Some (0, true).
Proof.
  destruct (state_function_stops_all (W:=unit) tool_home (λ _, true) tool_error tool_answers 1000 (str "/home/u")
    (λ l, l) 1000 [NO_DISABLE] tool_start tt (apps_map (zs_apps tool_state)))
    as (s' & w' & l & E & (st & Hl & _ & _ & Hm)).
  - exact tool_user_ok.
  - exact tool_fork_ok.
  - exact tool_stored.
  - apply (bool_decide_unpack _). vm_compute. exact I.
  - exists s', w', l. split; [exact E|]. exists st. split; [exact Hl|]. rewrite Hm. clear. split; vm_compute; reflexivity.
Defined.

(** ** Where the tool goes wrong *)

(** Without the output of a single start, the first event of a new application already
    wakes the parent, which then says that the application was started: every case of the
    handler comes to the same label. *)
Lemma basic_handler_wakes_early s (w : unit) e :
  ppid s ≠ 0 → wait_for_child s = true →
  on_event tool_ext [] [] event_handler_basic e s w =
    Done (tt, s, w, [RegisterHandler event_handler_when_in_background; Kill (ppid s) SIGCHLD]).
Proof.
  intros Hp Hw. unfold on_event, on_basic_event.
  replace (match e with Ev_ALL_WEBSITES_ENABLED => _ | _ => _ end) with (to_background tool_ext (W:=unit)) by by destruct e.
  unfold to_background, wake_parent, only_if, tell, ask, get_state, mbind, em_bind. cbn -[SIGCHLD].
  by rewrite (proj2 (Z.eqb_neq _ _)), Hw by done.
Qed.

(** The request to restart ends the process in the handler: what [application_child] does
    behind zimr_start when [on_shutdown_restart] is set is not reached. *)
Lemma restart_request_exits s (w : unit) :
  on_event tool_ext [] [] event_handler_when_in_background Ev_RESTART_REQUEST s w =
    Done (tt, Tool (t_files s) (verbose s) (wait_for_child s) true (ppid s), w, [Exit 0]).
Proof. reflexivity. Qed.

(** A kernel with the user and the group of the process: only the superuser changes them. *)
Definition id_ext (c : call) (ids : Z * Z) : answer * (Z * Z) :=
  let done := Answer 0 0 (λ _, None) [] true in
  let denied := Answer (-1) 1 (λ _, None) [] true in
  match c with
  | SetUid u => if ids.1 =? 0 then (done, (u, ids.2)) else (denied, ids)
  | SetGid g => if ids.1 =? 0 then (done, (ids.1, g)) else (denied, ids)
  | ZimrCnfLoad _ => (Answer 1 0 (λ _, None) [] true, ids)
  | _ => (done, ids)
  end.

(** An application that the superuser starts for a user keeps the group of the superuser:
    the user is changed first, and then the group can no longer be. *)
Lemma child_keeps_group :
  ∃ s l, application_child id_ext 1000 1000 path_a tool_start (0, 0) = Done (tt, s, (1000, 0), l).
Proof. eexists _, _. vm_compute. reflexivity. Qed.

(** The status of a running application with a website that has no url follows NULL. *)
Lemma website_without_url_crash ms : website_status (ZWebsite None None None [] ms []) = Fault NullDeref.
Proof. reflexivity. Qed.

(** ** The table of commands *)

Lemma zimr_commands_found :
  cli_run root_cmd [str "zimr"; str "stop"; str "all"; str "users"; NO_DISABLE] =
    Done (Some (state_stop_all_cmd, [NO_DISABLE])) ∧
  cli_run root_cmd [str "zimr"; str "start"; path_a] = Done (Some (application_start_cmd, [path_a])) ∧
  cli_run root_cmd [str "zimr"] = Done None.
Proof. split_and!; vm_compute; reflexivity. Qed.

(** The help has a line for each of the 17 commands. *)
Lemma zimr_usage_lines :
  ∃ text, cli_print root_cmd = Done text ∧
    take 30 text = str "  zimr add               Add a" ∧
    length (filter (λ c, c = 10) text) = (17 + 6)%nat.
Proof. eexists. vm_compute. split_and!; reflexivity. Qed.
