(* ===== verification/Webapp.v ===== *)
(** lib/zimr.c: the library of a web application, first part.  Its websites and their
    connections, how a connection ends, how a website is switched on and off, and what is
    sent.

    The message switches (msg_switch.c), the sockets (zsocket.c), the watched descriptors
    (zfildes.c) and the kernel are the outside: each call of them is a value of [call].
    A pointer to a function of the application or of a module is a number, and
    [run_callback] runs it.  The state is the registry of websites (website.c) and what
    the library keeps for each of them; a pointer to a connection is the address of its
    website and the number of its message.  The logs on stderr are left out. *)

From Stdlib Require Import ZArith Lia String.
From stdpp Require Import gmap.
From S2P Require Import FdHash.
From S2P Require Export Connection Effect.

Local Open Scope Z_scope.

(** ** State *)

Definition WS_STATUS_ENABLED : Z := 1.
Definition WS_STATUS_WANT_ENABLE : Z := 2.
Definition WS_STATUS_DISABLED : Z := 3.
Definition WS_STATUS_ENABLING : Z := 4.

Definition CONN_STATUS_SENT_STATUS : Z := 2.
Definition CONN_STATUS_SENT_HEADERS : Z := 4.

Record fileread_data_t := FileRead { fr_fd : Z; range_start : Z; range_end : Z }.

Record response_t := Response { http_status : Z; rs_headers : headers_t }.

(** The connection of connection.c, and the fields that it leaves at zero. *)
Record web_conn_t := WebConn {
  wc_conn : connection_t;
  wc_response : response_t;
  wc_sending_error : bool
}.

Record conn_data_t := ConnData {
  size_received : Z;          (* size_t *)
  cd_size : Z;                (* size_t *)
  cd_data : bytes;
  cd_connection : option web_conn_t;
  onclose_event : option nat;
  fileread_data : fileread_data_t
}.

Record page_handler_t := PageHandler { page_type : bytes; ph_handler : nat }.

(** A loaded module, and a module of a website: the pointer to it, and its arguments. *)
Record module_t := Module { m_name : bytes; m_handle : nat }.
Record module_website_data_t := ModuleData { md_module : nat; md_argv : list bytes }.

(** A default page that was freed is [None]: its pointer stays in the list. *)
Record website_data_t := WebsiteData {
  wd_status : Z;
  proxy_ip : bytes;
  proxy_port : Z;
  connection_handler : option nat;
  error_handler : option nat;
  conn_tries : Z;
  redirect_url : option bytes;
  pubdirs : list bytes;
  default_pages : list (option bytes);
  ignored_regexs : list bytes;
  page_handlers : list page_handler_t;
  module_data : list module_website_data_t;
  wd_connections : list (option conn_data_t)
}.

(** The modules are on a heap, since the websites keep pointers to them. *)
Record app_t := App {
  a_sites : registry; a_data : gmap nat website_data_t; a_modules : gmap nat module_t
}.

(** A [connection_t*]: the website, and the number of the message. *)
Definition conn_ptr : Type := nat * Z.

(** ** The outside *)

Inductive call :=
| MsgAccept (fd msgid : Z) | MsgOpen (fd type : Z) | MsgClose (fd msgid : Z) | MsgFlush (fd msgid : Z)
| MsgWrite (fd msgid : Z) (data : bytes) | MsgRead (fd msgid : Z) (size : Z) | MsgGetType (fd msgid : Z)
| MsgSetRead (fd msgid : Z) | MsgSetWrite (fd msgid : Z) | MsgClrWrite (fd msgid : Z)
| SwitchCreate (fd : Z) | SwitchDestroy (fd : Z)
| ZsConnect (ip : bytes) (port : Z) | ZsClose (fd : Z)
| ZfdSet (fd : Z) (c : conn_ptr)         (* with zimr_file_handler *)
| ZfdClr (fd : Z)
| OpenFile (path : bytes) | CloseFile (fd : Z) | LSeekSet (fd off : Z) | LSeekCur (fd : Z)
| ReadFile (fd : Z) (n : Z) | Stat (path : bytes) | ReadDir (path : bytes)
| Time | LogRequest (line : bytes) | Event (evt : Z)
| UserdirInit | ZsInit                   (* userdir.c, for the own user; zsocket.c *)
| OpenLog | CreateLog | CloseLog (fd : Z) (* the descriptor, or minus the error number *)
| Access (path : bytes) | DlOpen (file : bytes) | DlClose (handle : nat)
| ModuleEvent (evt : Z) (name : bytes).

(** The value of a call; what was read; what stat says; the names of a directory. *)
Record answer := Answer {
  a_ret : Z; a_bytes : bytes; st_isdir : bool; st_size : Z; st_mtime : Z; a_names : list bytes
}.

(** The arguments of a callback besides the connection. *)
Inductive callback_arg :=
| NoArg | PathArg (path : bytes) | ErrorArg (code : Z) (message : bytes).

Notation am W := (em app_t W call).

(** ** Updates of the records *)

Definition put_status (v : Z) (d : website_data_t) : website_data_t :=
  WebsiteData v (proxy_ip d) (proxy_port d) (connection_handler d) (error_handler d) (conn_tries d) (redirect_url d)
    (pubdirs d) (default_pages d) (ignored_regexs d) (page_handlers d) (module_data d) (wd_connections d).
Definition put_conn_tries (v : Z) (d : website_data_t) : website_data_t :=
  WebsiteData (wd_status d) (proxy_ip d) (proxy_port d) (connection_handler d) (error_handler d) v (redirect_url d)
    (pubdirs d) (default_pages d) (ignored_regexs d) (page_handlers d) (module_data d) (wd_connections d).
Definition put_connections (v : list (option conn_data_t)) (d : website_data_t) : website_data_t :=
  WebsiteData (wd_status d) (proxy_ip d) (proxy_port d) (connection_handler d) (error_handler d) (conn_tries d)
    (redirect_url d) (pubdirs d) (default_pages d) (ignored_regexs d) (page_handlers d) (module_data d) v.

Definition put_fileread (v : fileread_data_t) (c : conn_data_t) : conn_data_t :=
  ConnData (size_received c) (cd_size c) (cd_data c) (cd_connection c) (onclose_event c) v.
Definition put_connection (v : option web_conn_t) (c : conn_data_t) : conn_data_t :=
  ConnData (size_received c) (cd_size c) (cd_data c) v (onclose_event c) (fileread_data c).
Definition put_onclose (v : option nat) (c : conn_data_t) : conn_data_t :=
  ConnData (size_received c) (cd_size c) (cd_data c) (cd_connection c) v (fileread_data c).
Definition put_data (n : Z) (v : bytes) (c : conn_data_t) : conn_data_t :=
  ConnData n (cd_size c) v (cd_connection c) (onclose_event c) (fileread_data c).

Definition put_headers (v : headers_t) (c : web_conn_t) : web_conn_t :=
  WebConn (wc_conn c) (Response (http_status (wc_response c)) v) (wc_sending_error c).
Definition put_sending_error (v : bool) (c : web_conn_t) : web_conn_t := WebConn (wc_conn c) (wc_response c) v.

(** [response_set_status]: a short. *)
Definition response_set_status (v : Z) (c : web_conn_t) : web_conn_t :=
  WebConn (wc_conn c) (Response v (rs_headers (wc_response c))) (wc_sending_error c).

(** [FL_SET( connection->status, flag )]. *)
Definition conn_status_set (flag : Z) (c : web_conn_t) : web_conn_t :=
  let k := wc_conn c in
  WebConn (Connection (cn_sockfd k) (FL_SET (cn_status k) flag) (cn_ip k) (cn_hostname k) (cn_http_version k)
             (cn_request k) (cn_cookies k) (cn_website k)) (wc_response c) (wc_sending_error c).

Definition put_sockfd (v : Z) (w : website_t) : website_t :=
  Website (w_url w) (w_full_url w) (w_path w) v (w_ip w) (w_options w).

Section webapp.
Context {W : Type} (ext : call → W → answer * W).
(** Functions of the application and of the modules, and the symbols of a module. *)
Context (run_callback : nat → conn_ptr → callback_arg → am W unit).
Context (dlsym : nat → bytes → option nat).
#[local] Notation ask := (Effect.ask ext).
#[local] Notation tell := (Effect.tell ext).

(** ** Access *)

Definition site_at (a : nat) : am W website_t := s ← get_state; pure (deref (heap (a_sites s) !! a)).
Definition data_at (a : nat) : am W website_data_t := s ← get_state; pure (deref (a_data s !! a)).
Definition put_site (a : nat) (f : website_t → website_t) : am W unit :=
  w ← site_at a; s ← get_state;
  let r := a_sites s in
  put_state (App (Registry (initialized r) (default_website_options r) (websites r) (<[a := f w]> (heap r)) (next_addr r))
              (a_data s) (a_modules s)).
Definition upd_data (a : nat) (f : website_data_t → website_data_t) : am W unit :=
  d ← data_at a; s ← get_state; put_state (App (a_sites s) (<[a := f d]> (a_data s)) (a_modules s)).

(** The website of a switch, which the source uses without a test for NULL. *)
Definition site_of (fd : Z) : am W nat :=
  s ← get_state; o ← pure (website_get_by_sockfd (a_sites s) fd); pure (deref o).

(** [website_data->connections[ msgid ]]. *)
Definition conn_cell (a : nat) (msgid : Z) : am W (option conn_data_t) :=
  d ← data_at a; i ← pure (cell msgid); pure (at_index (wd_connections d !! i)).
Definition conn_at (a : nat) (msgid : Z) : am W conn_data_t := o ← conn_cell a msgid; pure (deref o).
Definition put_conn (a : nat) (msgid : Z) (o : option conn_data_t) : am W unit :=
  i ← pure (cell msgid); upd_data a (λ d, put_connections (<[i := o]> (wd_connections d)) d).
Definition upd_conn (a : nat) (msgid : Z) (f : conn_data_t → conn_data_t) : am W unit :=
  c ← conn_at a msgid; put_conn a msgid (Some (f c)).

(** The [connection_t] behind a pointer. *)
Definition web_conn (p : conn_ptr) : am W web_conn_t :=
  c ← conn_at (fst p) (snd p); pure (deref (cd_connection c)).
Definition upd_web (p : conn_ptr) (f : web_conn_t → web_conn_t) : am W unit :=
  c ← web_conn p; upd_conn (fst p) (snd p) (put_connection (Some (f c))).
Definition conn_fd (p : conn_ptr) : am W Z := w ← site_at (fst p); mret (w_sockfd w).

(** ** How a connection ends *)

Definition cleanup_fileread (a : nat) (msgid : Z) : am W unit :=
  c ← conn_at a msgid;
  let f := fileread_data c in
  if fr_fd f =? -1 then mret tt
  else
    _ ← tell (ZfdClr (fr_fd f));
    _ ← tell (CloseFile (fr_fd f));
    upd_conn a msgid (put_fileread (FileRead (-1) (range_start f) (range_end f))).

(** The record behind the pointer to a module, which is freed when the module is unloaded. *)
Definition module_at (m : nat) : am W module_t :=
  s ← get_state; pure (match a_modules s !! m with Some x => Done x | None => Fault UseAfterFree end).

(** The function of that name of each module, with the connection. *)
Fixpoint call_modules (name : bytes) (l : list module_website_data_t) (p : conn_ptr) : am W unit :=
  match l with
  | [] => mret tt
  | m :: l =>
      x ← module_at (md_module m);
      _ ← (match dlsym (m_handle x) name with Some f => run_callback f p NoArg | None => mret tt end);
      call_modules name l p
  end.

Definition cleanup_connection (fd msgid : Z) : am W unit :=
  a ← site_of fd;
  _ ← data_at a;
  _ ← tell (MsgClose fd msgid);
  _ ← cleanup_fileread a msgid;
  d ← data_at a;
  _ ← call_modules (str "modzimr_connection_closed") (module_data d) (a, msgid);
  c ← conn_at a msgid;
  _ ← (match onclose_event c with Some f => run_callback f (a, msgid) NoArg | None => mret tt end);
  _ ← conn_at a msgid;
  put_conn a msgid None.

Definition zimr_website_connection_exists (fd msgid : Z) : am W bool :=
  a ← site_of fd; o ← conn_cell a msgid; mret (bool_decide (is_Some o)).

Definition zimr_website_connection_sent (fd msgid : Z) : am W bool :=
  a ← site_of fd;
  o ← conn_cell a msgid;
  match o with
  | None => mret true
  | Some c =>
      w ← pure (deref (cd_connection c));
      mret (FL_ISSET (cn_status (wc_conn w)) CONN_STATUS_SENT_HEADERS)
  end.

Definition zimr_connection_set_onclose_event (p : conn_ptr) (f : option nat) : am W unit :=
  upd_conn (fst p) (snd p) (put_onclose f).

(** ** On and off *)

Definition ZM_CMD_WS_START : Z := -1.
Definition ZM_CMD_WS_STOP : Z := -2.

Definition zimr_website_enable (a : nat) : am W bool :=
  d ← data_at a;
  if negb (wd_status d =? WS_STATUS_WANT_ENABLE) && negb (wd_status d =? WS_STATUS_DISABLED) then mret false
  else
    _ ← upd_data a (put_status WS_STATUS_WANT_ENABLE);
    r ← ask (ZsConnect (proxy_ip d) (proxy_port d));
    _ ← put_site a (put_sockfd (a_ret r));
    if a_ret r =? -1 then mret false
    else
      _ ← upd_data a (put_status WS_STATUS_ENABLING);
      let fd := a_ret r in
      _ ← tell (SwitchCreate fd);
      m ← ask (MsgOpen fd ZM_CMD_WS_START);
      let msgid := a_ret m in
      w ← site_at a;
      _ ← tell (MsgWrite fd msgid (w_full_url w ++ [0]));
      _ ← tell (MsgWrite fd msgid (w_ip w ++ [0]));
      _ ← tell (MsgFlush fd msgid);
      _ ← tell (MsgSetRead fd msgid);
      mret true.

(** The loop of [zimr_website_disable] from the [i]-th cell on. *)
Fixpoint close_connections (n : nat) (i : Z) (a : nat) : am W unit :=
  match n with
  | O => mret tt
  | S n =>
      o ← conn_cell a i;
      _ ← (match o with
           | Some _ => fd ← conn_fd (a, i); cleanup_connection fd i
           | None => mret tt
           end);
      close_connections n (i + 1) a
  end.

Definition zimr_website_disable (a : nat) : am W unit :=
  w ← site_at a;
  _ ← data_at a;
  _ ← (if w_sockfd w =? -1 then mret tt
       else
         _ ← close_connections FD_SETSIZE 0 a;
         d ← data_at a;
         w ← site_at a;
         let fd := w_sockfd w in
         _ ← only_if (wd_status d =? WS_STATUS_ENABLED)
               (m ← ask (MsgOpen fd ZM_CMD_WS_STOP);
                _ ← tell (MsgWrite fd (a_ret m) (str "STOP" ++ [0]));
                tell (MsgClose fd (a_ret m)));
         _ ← tell (SwitchDestroy fd);
         _ ← tell (ZsClose fd);
         put_site a (put_sockfd (-1)));
  upd_data a (put_status WS_STATUS_DISABLED).

Definition ZIMR_EVENT_WEBSITE_ENABLE_SUCCEEDED : Z := 4.
Definition ZIMR_EVENT_WEBSITE_ENABLE_FAILED : Z := 5.

(** The answer of the proxy to a command. *)
Definition command_response_handler (fd msgid : Z) (buf : bytes) : am W unit :=
  a ← site_of fd;
  _ ← data_at a;
  t ← ask (MsgGetType fd msgid);
  _ ← (if a_ret t =? ZM_CMD_WS_START then
         if strcmp_eq (cstr buf) (str "OK") then
           _ ← upd_data a (put_status WS_STATUS_ENABLED);
           _ ← tell (Event ZIMR_EVENT_WEBSITE_ENABLE_SUCCEEDED);
           upd_data a (put_conn_tries 0)
         else
           _ ← tell (Event ZIMR_EVENT_WEBSITE_ENABLE_FAILED);
           zimr_website_disable a
       else mret tt);
  tell (MsgClose fd msgid).
End webapp.
