(* ===== verification/Md5.v ===== *)
(** md5.c: the digest of a message that comes in pieces.

    Words are integers below 2^32, with the wrap-around written out; bytes are integers
    below 256.  The branch for big-endian machines reads the same words. *)

From Stdlib Require Import ZArith Lia String.
From S2P Require Export CString.

Local Open Scope Z_scope.

(** ** Constants *)

Definition T_MASK : Z := 2 ^ 32 - 1.

(** T1 to T64. *)
Definition md5_T : list Z := [
  Z.lxor T_MASK 0x28955b87; Z.lxor T_MASK 0x173848a9; 0x242070db; Z.lxor T_MASK 0x3e423111;
  Z.lxor T_MASK 0x0a83f050; 0x4787c62a; Z.lxor T_MASK 0x57cfb9ec; Z.lxor T_MASK 0x02b96afe;
  0x698098d8; Z.lxor T_MASK 0x74bb0850; Z.lxor T_MASK 0x0000a44e; Z.lxor T_MASK 0x76a32841;
  0x6b901122; Z.lxor T_MASK 0x02678e6c; Z.lxor T_MASK 0x5986bc71; 0x49b40821;
  Z.lxor T_MASK 0x09e1da9d; Z.lxor T_MASK 0x3fbf4cbf; 0x265e5a51; Z.lxor T_MASK 0x16493855;
  Z.lxor T_MASK 0x29d0efa2; 0x02441453; Z.lxor T_MASK 0x275e197e; Z.lxor T_MASK 0x182c0437;
  0x21e1cde6; Z.lxor T_MASK 0x3cc8f829; Z.lxor T_MASK 0x0b2af278; 0x455a14ed;
  Z.lxor T_MASK 0x561c16fa; Z.lxor T_MASK 0x03105c07; 0x676f02d9; Z.lxor T_MASK 0x72d5b375;
  Z.lxor T_MASK 0x0005c6bd; Z.lxor T_MASK 0x788e097e; 0x6d9d6122; Z.lxor T_MASK 0x021ac7f3;
  Z.lxor T_MASK 0x5b4115bb; 0x4bdecfa9; Z.lxor T_MASK 0x0944b49f; Z.lxor T_MASK 0x4140438f;
  0x289b7ec6; Z.lxor T_MASK 0x155ed805; Z.lxor T_MASK 0x2b10cf7a; 0x04881d05;
  Z.lxor T_MASK 0x262b2fc6; Z.lxor T_MASK 0x1924661a; 0x1fa27cf8; Z.lxor T_MASK 0x3b53a99a;
  Z.lxor T_MASK 0x0bd6ddbb; 0x432aff97; Z.lxor T_MASK 0x546bdc58; Z.lxor T_MASK 0x036c5fc6;
  0x655b59c3; Z.lxor T_MASK 0x70f3336d; Z.lxor T_MASK 0x00100b82; Z.lxor T_MASK 0x7a7ba22e;
  0x6fa87e4f; Z.lxor T_MASK 0x01d3191f; Z.lxor T_MASK 0x5cfebceb; 0x4e0811a1;
  Z.lxor T_MASK 0x08ac817d; Z.lxor T_MASK 0x42c50dca; 0x2ad7d2bb; Z.lxor T_MASK 0x14792c6e
].

(** The index of the word and the shift of each step, a line per quarter of a round. *)
Definition md5_steps : list (list (nat * Z)) := [
  [ (0%nat, 7); (1%nat, 12); (2%nat, 17); (3%nat, 22);
    (4%nat, 7); (5%nat, 12); (6%nat, 17); (7%nat, 22);
    (8%nat, 7); (9%nat, 12); (10%nat, 17); (11%nat, 22);
    (12%nat, 7); (13%nat, 12); (14%nat, 17); (15%nat, 22) ];
  [ (1%nat, 5); (6%nat, 9); (11%nat, 14); (0%nat, 20);
    (5%nat, 5); (10%nat, 9); (15%nat, 14); (4%nat, 20);
    (9%nat, 5); (14%nat, 9); (3%nat, 14); (8%nat, 20);
    (13%nat, 5); (2%nat, 9); (7%nat, 14); (12%nat, 20) ];
  [ (5%nat, 4); (8%nat, 11); (11%nat, 16); (14%nat, 23);
    (1%nat, 4); (4%nat, 11); (7%nat, 16); (10%nat, 23);
    (13%nat, 4); (0%nat, 11); (3%nat, 16); (6%nat, 23);
    (9%nat, 4); (12%nat, 11); (15%nat, 16); (2%nat, 23) ];
  [ (0%nat, 6); (7%nat, 10); (14%nat, 15); (5%nat, 21);
    (12%nat, 6); (3%nat, 10); (10%nat, 15); (1%nat, 21);
    (8%nat, 6); (15%nat, 10); (6%nat, 15); (13%nat, 21);
    (4%nat, 6); (11%nat, 10); (2%nat, 15); (9%nat, 21) ] ].

(** ** Words *)

Definition add32 (x y : Z) : Z := wrap_u32 (x + y).
Definition not32 (x : Z) : Z := Z.lxor T_MASK x.
Definition ROTATE_LEFT (x n : Z) : Z := Z.lor (wrap_u32 (Z.shiftl x n)) (Z.shiftr x (32 - n)).

Definition md5_F (x y z : Z) : Z := Z.lor (Z.land x y) (Z.land (not32 x) z).
Definition md5_G (x y z : Z) : Z := Z.lor (Z.land x z) (Z.land y (not32 z)).
Definition md5_H (x y z : Z) : Z := Z.lxor (Z.lxor x y) z.
Definition md5_I (x y z : Z) : Z := Z.lxor y (Z.lor x (not32 z)).

(** The words of a block, least significant byte first. *)
Fixpoint le_words (n : nat) (data : bytes) : list Z :=
  match n, data with
  | S n, a :: b :: c :: d :: data =>
      (a + Z.shiftl b 8 + Z.shiftl c 16 + Z.shiftl d 24) :: le_words n data
  | _, _ => []
  end.

(** The bytes of a word. *)
Definition le4 (x : Z) : bytes :=
  [x mod 256; Z.shiftr x 8 mod 256; Z.shiftr x 16 mod 256; Z.shiftr x 24 mod 256].

(** ** State *)

Definition regs : Type := Z * Z * Z * Z.

Record md5_state_t := Md5State { count0 : Z; count1 : Z; abcd : regs; md5_buf : bytes }.

Definition md5_init : md5_state_t :=
  Md5State 0 0 (0x67452301, Z.lxor T_MASK 0x10325476, Z.lxor T_MASK 0x67452301, 0x10325476) (replicate 64 0).

(** [SET( a, b, c, d, k, s, Ti )]: the next step has the registers turned by one. *)
Definition SET (f : Z → Z → Z → Z) (X : list Z) (r : regs) (step : nat * Z * Z) : regs :=
  let '(a, b, c, d) := r in
  let '(k, s, Ti) := step in
  let t := add32 (add32 (add32 a (f b c d)) (default 0 (X !! k))) Ti in
  (d, add32 (ROTATE_LEFT t s) b, b, c).

(** Round [i]. *)
Definition md5_round (X : list Z) (i : nat) (f : Z → Z → Z → Z) (r : regs) : regs :=
  foldl (SET f X) r (zip (default [] (md5_steps !! i)) (take 16 (drop (16 * i) md5_T))).

Definition md5_block (r : regs) (data : bytes) : regs :=
  let X := le_words 16 data in
  let '(a, b, c, d) := md5_round X 3 md5_I (md5_round X 2 md5_H (md5_round X 1 md5_G (md5_round X 0 md5_F r))) in
  let '(a0, b0, c0, d0) := r in
  (add32 a0 a, add32 b0 b, add32 c0 c, add32 d0 d).

Definition md5_process (pms : md5_state_t) (data : bytes) : md5_state_t :=
  Md5State (count0 pms) (count1 pms) (md5_block (abcd pms) data) (md5_buf pms).

Definition put_count (c0 c1 : Z) (pms : md5_state_t) : md5_state_t := Md5State c0 c1 (abcd pms) (md5_buf pms).
Definition put_buf (b : bytes) (pms : md5_state_t) : md5_state_t := Md5State (count0 pms) (count1 pms) (abcd pms) b.

(** [memcpy( pms->buf + offset, p, n )]. *)
Definition copy_buf (offset : nat) (p : bytes) (pms : md5_state_t) : res md5_state_t :=
  b ← buf_write offset p (md5_buf pms); Done (put_buf b pms).

(** The full blocks, and what is left after them. *)
Fixpoint full_blocks (fuel : nat) (pms : md5_state_t) (p : bytes) : md5_state_t * bytes :=
  match fuel with
  | O => (pms, p)
  | S fuel =>
      if (64 <=? length p)%nat then full_blocks fuel (md5_process pms (take 64 p)) (drop 64 p) else (pms, p)
  end.

(** The end of [md5_append]: the full blocks and a partial one. *)
Definition append_blocks (pms : md5_state_t) (p : bytes) : res md5_state_t :=
  let '(pms, tail) := full_blocks (length p) pms p in
  if (length tail =? 0)%nat then Done pms else copy_buf 0 tail pms.

Definition md5_append (pms : md5_state_t) (data : bytes) : res md5_state_t :=
  let nbytes := Z.of_nat (length data) in
  let offset := Z.to_nat (Z.land (Z.shiftr (count0 pms) 3) 63) in
  let nbits := wrap_u32 (Z.shiftl nbytes 3) in
  if nbytes <=? 0 then Done pms
  else
    let c1 := add32 (count1 pms) (Z.shiftr nbytes 29) in
    let c0 := add32 (count0 pms) nbits in
    let pms := put_count c0 (if c0 <? nbits then add32 c1 1 else c1) pms in
    if (offset =? 0)%nat then append_blocks pms data
    else
      let copy := if (64 <? offset + length data)%nat then (64 - offset)%nat else length data in
      pms ← copy_buf offset (take copy data) pms;
      if (offset + copy <? 64)%nat then Done pms
      else append_blocks (md5_process pms (md5_buf pms)) (drop copy data).

Definition md5_pad : bytes := 0x80 :: replicate 63 0.

Definition md5_digest (pms : md5_state_t) : bytes :=
  let '(a, b, c, d) := abcd pms in le4 a ++ le4 b ++ le4 c ++ le4 d.

Definition md5_finish (pms : md5_state_t) : res bytes :=
  let data := le4 (count0 pms) ++ le4 (count1 pms) in
  let n := Z.to_nat (Z.land (55 - Z.shiftr (count0 pms) 3) 63 + 1) in
  pms ← md5_append pms (take n md5_pad);
  pms ← md5_append pms data;
  Done (md5_digest pms).

(** ** Reference: RFC 1321 *)

(** The registers after the blocks of a message. *)
Fixpoint md5_blocks (n : nat) (r : regs) (m : bytes) : regs :=
  match n with
  | O => r
  | S n => md5_blocks n (md5_block r (take 64 m)) (drop 64 m)
  end.

(** The message with a bit 1, bits 0 up to 56 bytes of a block, and its length in bits. *)
Definition md5_padded (m : bytes) : bytes :=
  let bits := (8 * Z.of_nat (length m)) mod 2 ^ 64 in
  m ++ [0x80] ++ replicate (Z.to_nat ((55 - Z.of_nat (length m)) mod 64)) 0 ++
  le4 (bits mod 2 ^ 32) ++ le4 (bits / 2 ^ 32).

Definition md5 (m : bytes) : bytes :=
  let p := md5_padded m in
  let '(a, b, c, d) := md5_blocks (length p / 64) (abcd md5_init) p in
  le4 a ++ le4 b ++ le4 c ++ le4 d.

(** The calls of a program that has the message in pieces. *)
Definition md5_append_all (pms : md5_state_t) (pieces : list bytes) : res md5_state_t :=
  foldl (λ st piece, pms ← st; md5_append pms piece) (Done pms) pieces.

(** ** Lemmas *)

#[local] Arguments md5_block : simpl never.

Lemma md5_blocks_add n k r m : md5_blocks (n + k) r m = md5_blocks k (md5_blocks n r m) (drop (64 * n) m).
Proof.
  revert r m. induction n as [|n IH]; intros r m; [done|]. cbn [Nat.add md5_blocks]. rewrite IH, drop_drop.
  by replace (64 + 64 * n)%nat with (64 * S n)%nat by lia.
Qed.

Lemma md5_blocks_app n r m x : (64 * n <= length m)%nat → md5_blocks n r (m ++ x) = md5_blocks n r m.
Proof.
  revert r m. induction n as [|n IH]; intros r m Hn; [done|]. cbn [md5_blocks].
  rewrite take_app_le, drop_app_le by lia. apply IH. rewrite length_drop. lia.
Qed.

Lemma full_blocks_spec fuel pms p :
  (length p / 64 <= fuel)%nat →
  full_blocks fuel pms p =
    (Md5State (count0 pms) (count1 pms) (md5_blocks (length p / 64) (abcd pms) p) (md5_buf pms),
     drop (64 * (length p / 64)) p).
Proof.
  revert pms p. induction fuel as [|fuel IH]; intros pms p Hf.
  { assert (length p / 64 = 0)%nat as -> by lia. cbn [full_blocks md5_blocks Nat.mul drop]. by destruct pms. }
  cbn [full_blocks]. destruct (Nat.leb_spec 64 (length p)) as [Hle|Hlt].
  - assert (length p / 64 = S (length (drop 64 p) / 64))%nat as E.
    { rewrite length_drop. replace (length p) with ((length p - 64) + 1 * 64)%nat at 1 by lia.
      rewrite Nat.div_add by done. lia. }
    rewrite IH by lia. rewrite E. cbn [md5_blocks md5_process count0 count1 abcd md5_buf]. rewrite drop_drop.
    do 2 f_equal. lia.
  - rewrite (Nat.div_small (length p)) by done. cbn [md5_blocks Nat.mul drop]. by destruct pms.
Qed.

(** The state after a message. *)
Record md5_holds (pms : md5_state_t) (m : bytes) : Prop := {
  mh_count0 : count0 pms = wrap_u32 (8 * Z.of_nat (length m));
  mh_count1 : count1 pms = wrap_u32 (8 * Z.of_nat (length m) / 2 ^ 32);
  mh_regs : abcd pms = md5_blocks (length m / 64) (abcd md5_init) m;
  mh_buf_len : length (md5_buf pms) = 64%nat;
  mh_buf : take (length m mod 64) (md5_buf pms) = drop (64 * (length m / 64)) m
}.

Lemma md5_init_holds : md5_holds md5_init [].
Proof. by split. Qed.

(** The registers are those of [q] blocks of [m], and [p] is the rest of it. *)
Lemma append_blocks_holds pms m p q :
  count0 pms = wrap_u32 (8 * Z.of_nat (length m)) → count1 pms = wrap_u32 (8 * Z.of_nat (length m) / 2 ^ 32) →
  abcd pms = md5_blocks q (abcd md5_init) m → length (md5_buf pms) = 64%nat →
  (64 * q <= length m)%nat → p = drop (64 * q) m →
  ∃ pms', append_blocks pms p = Done pms' ∧ md5_holds pms' m.
Proof.
  intros H0 H1 Hr Hb Hq ->. unfold append_blocks. rewrite full_blocks_spec.
  2: { apply Nat.Div0.div_le_upper_bound. lia. }
  assert (length (drop (64 * q) m) / 64 = length m / 64 - q)%nat as El.
  { rewrite length_drop. replace (length m) with ((length m - 64 * q) + q * 64)%nat at 2 by lia.
    rewrite Nat.div_add by done. lia. }
  assert (q <= length m / 64)%nat as Hqd by (apply Nat.div_le_lower_bound; lia).
  rewrite El, Hr, <- md5_blocks_add, drop_drop. replace (q + (length m / 64 - q))%nat with (length m / 64)%nat by lia.
  replace (64 * q + 64 * (length m / 64 - q))%nat with (64 * (length m / 64))%nat by lia.
  pose proof (Nat.div_mod_eq (length m) 64) as Hdm. pose proof (Nat.mod_upper_bound (length m) 64 ltac:(done)) as Hmod.
  assert (length (drop (64 * (length m / 64)) m) = length m mod 64)%nat as Ed by (rewrite length_drop; lia).
  rewrite Ed. destruct (Nat.eqb_spec (length m mod 64) 0) as [E|E].
  - eexists. split; [done|]. split; try done. cbn [md5_buf]. rewrite E. symmetry. apply nil_length_inv. lia.
  - unfold copy_buf. cbn [md5_buf].
    destruct (buf_write_Done 0 (drop (64 * (length m / 64)) m) (md5_buf pms)) as [b Eb]; [lia|].
    rewrite Eb. cbn [mbind res_bind]. eexists. split; [done|]. pose proof (buf_write_length _ _ _ _ Eb) as Hl.
    split; cbn [put_buf count0 count1 abcd md5_buf]; try done; [congruence|].
    apply buf_write_take in Eb. rewrite Nat.add_0_l, Ed in Eb. by rewrite Eb.
Qed.

Lemma count_offset L : Z.to_nat (Z.land (Z.shiftr (wrap_u32 (8 * Z.of_nat L)) 3) 63) = (L mod 64)%nat.
Proof.
  rewrite Z.shiftr_div_pow2 by lia. change 63 with (Z.ones 6). rewrite Z.land_ones by lia.
  unfold wrap_u32. rewrite <- (Nat2Z.id (L mod 64)), Nat2Z.inj_mod. f_equal.
  change (2 ^ 32) with 4294967296. change (2 ^ 3) with 8. change (2 ^ 6) with 64. change (Z.of_nat 64) with 64.
  Z.to_euclidean_division_equations. lia.
Qed.

Lemma count_add x y :
  0 <= x → 0 <= y < 2 ^ 31 →
  let c0 := add32 (wrap_u32 x) y in
  c0 = wrap_u32 (x + y) ∧
  (if c0 <? y then add32 (wrap_u32 (x / 2 ^ 32)) 1 else wrap_u32 (x / 2 ^ 32)) = wrap_u32 ((x + y) / 2 ^ 32).
Proof.
  intros Hx Hy. unfold add32, wrap_u32. change (2 ^ 32) with 4294967296. change (2 ^ 31) with 2147483648 in Hy.
  cbv zeta. split; [by rewrite Zplus_mod_idemp_l|].
  destruct (Z.ltb_spec ((x mod 4294967296 + y) mod 4294967296) y); [rewrite Zplus_mod_idemp_l|];
    Z.to_euclidean_division_equations; lia.
Qed.

(** The counts of [md5_append]. *)
Lemma append_counts pms m n :
  md5_holds pms m → Z.of_nat n < 2 ^ 28 →
  let nbits := wrap_u32 (Z.shiftl (Z.of_nat n) 3) in
  let c1 := add32 (count1 pms) (Z.shiftr (Z.of_nat n) 29) in
  let c0 := add32 (count0 pms) nbits in
  c0 = wrap_u32 (8 * Z.of_nat (length m + n)) ∧
  (if c0 <? nbits then add32 c1 1 else c1) = wrap_u32 (8 * Z.of_nat (length m + n) / 2 ^ 32).
Proof.
  intros [H0 H1 _ _ _] Hz. cbv zeta. rewrite H0, H1.
  rewrite Z.shiftl_mul_pow2, Z.shiftr_div_pow2 by lia. rewrite (Z.div_small _ (2 ^ 29)) by lia.
  change (2 ^ 28) with 268435456 in Hz. change (2 ^ 3) with 8.
  assert (wrap_u32 (Z.of_nat n * 8) = 8 * Z.of_nat n) as -> by (unfold wrap_u32; rewrite Z.mod_small; lia).
  assert (∀ z, add32 (wrap_u32 z) 0 = wrap_u32 z) as E.
  { intros z. unfold add32, wrap_u32. rewrite Z.add_0_r. by apply Z.mod_mod. }
  rewrite E. destruct (count_add (8 * Z.of_nat (length m)) (8 * Z.of_nat n)) as [E1 E2]; [lia|lia|].
  replace (8 * Z.of_nat (length m + n)) with (8 * Z.of_nat (length m) + 8 * Z.of_nat n) by lia. done.
Qed.

(** The buffer that is full, or not yet. *)
Lemma append_partial pms m d :
  md5_holds pms m → (length m mod 64 ≠ 0)%nat → d ≠ [] →
  let off := (length m mod 64)%nat in
  let copy := if (64 <? off + length d)%nat then (64 - off)%nat else length d in
  ∃ b, buf_write off (take copy d) (md5_buf pms) = Done b ∧ length b = 64%nat ∧ (copy <= length d)%nat ∧
    (off + copy <= 64)%nat ∧ take (off + copy) b = take (off + copy) (drop (64 * (length m / 64)) (m ++ d)).
Proof.
  intros Hh Hoff Hd off copy. pose proof (Nat.mod_upper_bound (length m) 64 ltac:(done)) as Hmod.
  assert (off + copy <= 64 ∧ copy <= length d)%nat as [Hc Hcd].
  { subst copy off. destruct (Nat.ltb_spec 64 (length m mod 64 + length d)); lia. }
  destruct (buf_write_Done off (take copy d) (md5_buf pms)) as [b Eb].
  { rewrite (mh_buf_len _ _ Hh), length_take. lia. }
  exists b. split; [done|]. split; [by rewrite (buf_write_length _ _ _ _ Eb), (mh_buf_len _ _ Hh)|].
  split; [done|]. split; [done|]. apply buf_write_take in Eb. rewrite length_take_le in Eb by done. rewrite Eb.
  unfold off. rewrite (mh_buf _ _ Hh). pose proof (Nat.div_mod_eq (length m) 64).
  rewrite drop_app_le by lia. rewrite take_app_ge; rewrite length_drop; [|lia].
  do 2 f_equal. lia.
Qed.

Lemma md5_append_holds pms m d :
  md5_holds pms m → Z.of_nat (length d) < 2 ^ 28 → ∃ pms', md5_append pms d = Done pms' ∧ md5_holds pms' (m ++ d).
Proof.
  intros Hh Hd. unfold md5_append. destruct (Z.leb_spec (Z.of_nat (length d)) 0) as [Hz|Hz].
  { assert (d = []) as -> by (apply nil_length_inv; lia). rewrite app_nil_r. eauto. }
  rewrite (mh_count0 _ _ Hh), count_offset, <- (mh_count0 _ _ Hh).
  destruct (append_counts pms m (length d) Hh Hd) as [H0 H1]. rewrite <- length_app in H0, H1.
  set (c0 := add32 (count0 pms) _) in *. set (c1 := if _ <? _ then _ else _) in *.
  pose proof (Nat.div_mod_eq (length m) 64) as Hdm. pose proof (Nat.mod_upper_bound (length m) 64 ltac:(done)) as Hmod.
  assert (abcd pms = md5_blocks (length m / 64) (abcd md5_init) (m ++ d)) as Hr
    by (rewrite md5_blocks_app by lia; apply Hh).
  destruct (Nat.eqb_spec (length m mod 64) 0) as [E|E].
  - apply append_blocks_holds with (q := (length m / 64)%nat); try done.
    + apply Hh.
    + rewrite length_app. lia.
    + rewrite drop_app_ge by lia. by replace (_ - _)%nat with 0%nat by lia.
  - destruct (append_partial pms m d Hh E) as (b & Eb & Hlb & Hcd & Hc & Hb); [by intros ->|].
    set (copy := if (64 <? _)%nat then _ else _) in *. unfold copy_buf. cbn [md5_buf put_count].
    rewrite Eb. cbn [mbind res_bind].
    destruct (Nat.ltb_spec (length m mod 64 + copy) 64) as [Hlt|Hge].
    + assert (copy = length d) as Ec by (subst copy; destruct (Nat.ltb_spec 64 (length m mod 64 + length d)); lia).
      rewrite Ec in *. assert (length (m ++ d) = length m mod 64 + length d + length m / 64 * 64)%nat as El
        by (rewrite length_app; lia).
      assert (length (m ++ d) / 64 = length m / 64)%nat as Eq
        by (rewrite El, Nat.div_add by done; by rewrite Nat.div_small).
      assert (length (m ++ d) mod 64 = length m mod 64 + length d)%nat as Em
        by (rewrite El, Nat.Div0.mod_add; by rewrite Nat.mod_small).
      eexists. split; [done|]. split; cbn [put_buf put_count count0 count1 abcd md5_buf]; try done.
      * by rewrite Eq.
      * rewrite Em, Eq, Hb. apply take_ge. rewrite length_drop. lia.
    + assert (length m mod 64 + copy = 64)%nat as E64 by lia. rewrite E64 in Hb.
      rewrite (take_ge b) in Hb by lia.
      apply append_blocks_holds with (q := S (length m / 64)); try done.
      * cbn [md5_process put_buf put_count abcd md5_buf]. rewrite Hr, Hb.
        replace (S (length m / 64)) with (length m / 64 + 1)%nat by lia. by rewrite md5_blocks_add.
      * rewrite length_app. lia.
      * rewrite drop_app_ge by lia. f_equal. lia.
Qed.

Lemma md5_append_all_holds pms m pieces :
  md5_holds pms m → Forall (λ d, Z.of_nat (length d) < 2 ^ 28) pieces →
  ∃ pms', md5_append_all pms pieces = Done pms' ∧ md5_holds pms' (m ++ concat pieces).
Proof.
  intros Hh Hf. revert pms m Hh. induction Hf as [|d l Hd Hf IH]; intros pms m Hh.
  - exists pms. simpl. by rewrite app_nil_r.
  - destruct (md5_append_holds pms m d Hh Hd) as (pms1 & E1 & H1).
    destruct (IH pms1 (m ++ d) H1) as (pms2 & E2 & H2). exists pms2. cbn [concat]. rewrite app_assoc.
    split; [|done]. unfold md5_append_all in *. cbn [foldl mbind res_bind]. by rewrite E1.
Qed.

(** The counts are the two words of the length in bits. *)
Lemma count_words z :
  wrap_u32 z = z mod 2 ^ 64 mod 2 ^ 32 ∧ wrap_u32 (z / 2 ^ 32) = z mod 2 ^ 64 / 2 ^ 32.
Proof.
  unfold wrap_u32. change (2 ^ 64) with 18446744073709551616. change (2 ^ 32) with 4294967296.
  split; Z.to_euclidean_division_equations; lia.
Qed.

Lemma pad_taken L :
  let n := Z.to_nat (Z.land (55 - Z.shiftr (wrap_u32 (8 * Z.of_nat L)) 3) 63 + 1) in
  take n md5_pad = 0x80 :: replicate (Z.to_nat ((55 - Z.of_nat L) mod 64)) 0 ∧
  (Z.to_nat ((55 - Z.of_nat L) mod 64) < 64)%nat.
Proof.
  cbv zeta. rewrite Z.shiftr_div_pow2 by lia. change 63 with (Z.ones 6) at 1. rewrite Z.land_ones by lia.
  assert (wrap_u32 (8 * Z.of_nat L) / 2 ^ 3 = Z.of_nat L mod 2 ^ 29) as ->.
  { unfold wrap_u32. change (2 ^ 32) with 4294967296. change (2 ^ 29) with 536870912. change (2 ^ 3) with 8.
    Z.to_euclidean_division_equations. lia. }
  assert ((55 - Z.of_nat L mod 2 ^ 29) mod 2 ^ 6 = (55 - Z.of_nat L) mod 64) as ->.
  { change (2 ^ 29) with 536870912. change (2 ^ 6) with 64. Z.to_euclidean_division_equations. lia. }
  pose proof (Z.mod_pos_bound (55 - Z.of_nat L) 64 ltac:(lia)) as Hb. split; [|lia].
  replace (Z.to_nat ((55 - Z.of_nat L) mod 64 + 1)) with (S (Z.to_nat ((55 - Z.of_nat L) mod 64))) by lia.
  unfold md5_pad. cbn [take]. f_equal. rewrite take_replicate. f_equal. lia.
Qed.

Lemma md5_finish_holds pms m : md5_holds pms m → md5_finish pms = Done (md5 m).
Proof.
  intros Hh. unfold md5_finish. destruct (pad_taken (length m)) as [Ep Hp].
  rewrite (mh_count0 _ _ Hh) at 1. cbv zeta in Ep. rewrite Ep.
  set (pad := 0x80 :: replicate _ 0) in *. set (data := le4 (count0 pms) ++ le4 (count1 pms)).
  destruct (md5_append_holds pms m pad Hh) as (p1 & E1 & H1).
  { unfold pad. cbn [length]. rewrite length_replicate. lia. }
  rewrite E1. cbn [mbind res_bind].
  destruct (md5_append_holds p1 (m ++ pad) data H1) as (p2 & E2 & H2); [simpl; lia|].
  rewrite E2. cbn [mbind res_bind].
  assert (md5_padded m = (m ++ pad) ++ data) as Epad.
  { unfold md5_padded, data, pad. rewrite (mh_count0 _ _ Hh), (mh_count1 _ _ Hh).
    destruct (count_words (8 * Z.of_nat (length m))) as [-> ->]. rewrite <- app_assoc. reflexivity. }
  unfold md5_digest, md5. rewrite Epad, (mh_regs _ _ H2). reflexivity.
Qed.

(** The reference works on whole blocks. *)
Lemma md5_padded_length m : (length (md5_padded m) mod 64 = 0)%nat.
Proof.
  unfold md5_padded. rewrite !length_app, length_replicate. cbn [length le4].
  apply Nat2Z.inj. rewrite Nat2Z.inj_mod, !Nat2Z.inj_add, Z2Nat.id by (apply Z.mod_pos_bound; lia).
  change (Z.of_nat 64) with 64. change (Z.of_nat 0) with 0. Z.to_euclidean_division_equations. lia.
Qed.

(** The digests of RFC 1321, A.5. *)
Lemma md5_rfc_suite :
  md5 [] = [0xd4; 0x1d; 0x8c; 0xd9; 0x8f; 0x00; 0xb2; 0x04; 0xe9; 0x80; 0x09; 0x98; 0xec; 0xf8; 0x42; 0x7e] ∧
  md5 (str "a") = [0x0c; 0xc1; 0x75; 0xb9; 0xc0; 0xf1; 0xb6; 0xa8; 0x31; 0xc3; 0x99; 0xe2; 0x69; 0x77; 0x26; 0x61] ∧
  md5 (str "abc") = [0x90; 0x01; 0x50; 0x98; 0x3c; 0xd2; 0x4f; 0xb0; 0xd6; 0x96; 0x3f; 0x7d; 0x28; 0xe1; 0x7f; 0x72] ∧
  md5 (str "message digest")
    = [0xf9; 0x6b; 0x69; 0x7d; 0x7c; 0xb7; 0x93; 0x8d; 0x52; 0x5a; 0x2f; 0x31; 0xaa; 0xf1; 0x61; 0xd0] ∧
  md5 (str "abcdefghijklmnopqrstuvwxyz")
    = [0xc3; 0xfc; 0xd3; 0xd7; 0x61; 0x92; 0xe4; 0x00; 0x7d; 0xfb; 0x49; 0x6c; 0xca; 0x67; 0xe1; 0x3b] ∧
  md5 (str "ABCDEFGHIJKLMNOPQRSTUVWXYZabcdefghijklmnopqrstuvwxyz0123456789")
    = [0xd1; 0x74; 0xab; 0x98; 0xd2; 0x77; 0xd9; 0xf5; 0xa5; 0x61; 0x1c; 0x2c; 0x9f; 0x41; 0x9d; 0x9f] ∧
  md5 (str "12345678901234567890123456789012345678901234567890123456789012345678901234567890")
    = [0x57; 0xed; 0xf4; 0xa2; 0x2b; 0xe3; 0xc9; 0x55; 0xac; 0x49; 0xda; 0x2e; 0x21; 0x07; 0xb6; 0x7a].
Proof. vm_compute. repeat split. Qed.

(** C35: however a message is cut into calls of [md5_append], [md5_finish] gives the
    digest that RFC 1321 defines for the whole of it. *)
Theorem md5_pieces (pieces : list bytes) :
  Forall (λ d, Z.of_nat (length d) < 2 ^ 28) pieces →
  (pms ← md5_append_all md5_init pieces; md5_finish pms) = Done (md5 (concat pieces)).
Proof.
  intros Hp. destruct (md5_append_all_holds md5_init [] pieces md5_init_holds Hp) as (pms & E & Hh).
  rewrite E. cbn [mbind res_bind]. exact (md5_finish_holds pms _ Hh).
Qed.

Lemma md5_pieces_witness :
  (pms ← md5_append_all md5_init [str "message "; []; str "digest"]; md5_finish pms)
  = Done [0xf9; 0x6b; 0x69; 0x7d; 0x7c; 0xb7; 0x93; 0x8d; 0x52; 0x5a; 0x2f; 0x31; 0xaa; 0xf1; 0x61; 0xd0].
Proof.
  rewrite (md5_pieces [str "message "; []; str "digest"]).
  - vm_compute. reflexivity.
  - repeat (apply Forall_cons_2; [reflexivity|]). apply Forall_nil_2.
Defined.
