(* ===== verification/WebappSend.v ===== *)
(** lib/zimr.c, second part: what goes back to the client.  The status line, the headers,
    pages, errors and redirections, and the line of the request log. *)

From Stdlib Require Import ZArith Lia String.
From stdpp Require Import gmap.
From S2P Require Import FdHash.
From S2P Require Export Mime Webapp.

Local Open Scope Z_scope.

Section send.
Context {W : Type} (ext : call → W → answer * W).
Context (run_callback : nat → conn_ptr → callback_arg → am W unit).
Context (dlsym : nat → bytes → option nat).
(** What the build and the C library give: the version; [strftime] of the time for a
    header, a cookie and the log; the address of an array (cookies.c). *)
Context (ZIMR_VERSION : bytes) (http_date cookie_date log_date : Z → bytes) (max_age_addr : Z).
#[local] Notation ask := (Effect.ask ext).
#[local] Notation tell := (Effect.tell ext).
#[local] Notation cleanup_connection := (cleanup_connection ext run_callback dlsym).

(** [headers_set_header] and [headers_get_header] on the headers of the response. *)
Definition set_header (p : conn_ptr) (name value : bytes) : am W unit :=
  c ← web_conn p;
  '(hs, _) ← pure (headers_set_header (rs_headers (wc_response c)) name value);
  upd_web p (put_headers hs).
Definition has_header (p : conn_ptr) (name : bytes) : am W bool :=
  c ← web_conn p;
  i ← pure (headers_get_header (rs_headers (wc_response c)) name);
  mret (bool_decide (is_Some i)).

(** [msg_write( connection->website->sockfd, connection->sockfd, ... )]. *)
Definition write_msg (p : conn_ptr) (data : bytes) : am W unit :=
  fd ← conn_fd p; c ← web_conn p; tell (MsgWrite fd (cn_sockfd (wc_conn c)) data).
Definition end_connection (p : conn_ptr) : am W unit :=
  fd ← conn_fd p; c ← web_conn p; cleanup_connection fd (cn_sockfd (wc_conn c)).

Definition zimr_connection_send_status (p : conn_ptr) : am W unit :=
  c ← web_conn p;
  status ← pure (response_status (http_status (wc_response c)));
  status ← pure (deref status);
  line ← pure (strcpy_into 100
           (str "HTTP/" ++ cn_http_version (wc_conn c) ++ str " " ++ status ++ HTTP_HDR_ENDL));
  _ ← write_msg p line;
  upd_web p (conn_status_set CONN_STATUS_SENT_STATUS).

Definition HTTP_TYPE (type : Z) : bytes := if type =? HTTP_GET_TYPE then str "GET" else str "POST".

Definition zimr_log_request (p : conn_ptr) : am W unit :=
  now ← ask Time;
  c ← web_conn p;
  w ← site_at (fst p);
  let k := wc_conn c in
  let r := cn_request k in
  agent ← pure (get_header (rq_headers r) (str "User-Agent"));
  referer ← pure (get_header (rq_headers r) (str "Referer"));
  let value (h : option header_t) := match h with Some h => h_value h | None => [] end in
  line ← pure (strcpy_into 1024
           (log_date (a_ret now) ++ str ", " ++ inet_ntoa (cn_ip k) ++ str ", " ++ cn_hostname k ++ str ", " ++
            HTTP_TYPE (rq_type r) ++ str ", " ++ w_full_url w ++ request_url r ++ str ", " ++
            dec_string (http_status (wc_response c)) ++ str ", " ++ value agent ++ str ", " ++ value referer ++ [c_lf]));
  tell (LogRequest line).

Definition zimr_connection_send_headers (p : conn_ptr) : am W unit :=
  now ← ask Time;
  _ ← set_header p (str "Date") (http_date (a_ret now));
  _ ← set_header p (str "Server") (str "Zimr/" ++ ZIMR_VERSION);
  c ← web_conn p;
  cookies ← pure (cookies_to_string cookie_date max_age_addr 1024 (cn_cookies (wc_conn c)) 1024);
  _ ← only_if (negb (length cookies =? 0)%nat) (set_header p (str "Set-Cookie") cookies);
  c ← web_conn p;
  headers ← pure (headers_to_string 1024 (rs_headers (wc_response c)));
  _ ← write_msg p headers;
  _ ← zimr_log_request p;
  upd_web p (conn_status_set CONN_STATUS_SENT_HEADERS).

Definition zimr_connection_send (p : conn_ptr) (message : bytes) : am W unit :=
  found ← has_header p (str "Content-Type");
  _ ← only_if (negb found) (set_header p (str "Content-Type") (mime_get_type (str ".html")));
  sizebuf ← pure (strcpy_into 32 (dec_string (Z.of_nat (length message))));
  _ ← set_header p (str "Content-Length") sizebuf;
  _ ← zimr_connection_send_status p;
  _ ← zimr_connection_send_headers p;
  _ ← write_msg p message;
  end_connection p.

Definition zimr_connection_write (p : conn_ptr) (message : bytes) : am W unit :=
  _ ← write_msg p message;
  fd ← conn_fd p; c ← web_conn p; tell (MsgFlush fd (cn_sockfd (wc_conn c))).

Definition zimr_connection_close (p : conn_ptr) : am W unit := end_connection p.

Definition error_msg_top : bytes := str "<!doctype html><html><body><h1>".
Definition error_msg_middle : bytes := str "</h1><pre>".
Definition error_msg_bottom : bytes := str "</pre></body></html>".

(** The end of [zimr_connection_send_error], without the handler of the application. *)
Definition send_error_page (p : conn_ptr) (code : Z) (message : bytes) : am W unit :=
  _ ← upd_web p (response_set_status code);
  _ ← set_header p (str "Content-Type") (mime_get_type (str ".html"));
  status ← pure (response_status code);
  status ← pure (deref status);
  sizebuf ← pure (strcpy_into 10 (dec_string (Z.of_nat
               (length status + length message + length error_msg_top + length error_msg_middle +
                length error_msg_bottom))));
  _ ← set_header p (str "Content-Length") sizebuf;
  _ ← zimr_connection_send_status p;
  _ ← zimr_connection_send_headers p;
  _ ← write_msg p error_msg_top;
  _ ← write_msg p status;
  _ ← write_msg p error_msg_middle;
  _ ← write_msg p message;
  _ ← write_msg p error_msg_bottom;
  end_connection p.

Definition zimr_connection_send_error (p : conn_ptr) (code : Z) (message : bytes) : am W unit :=
  c ← web_conn p;
  d ← data_at (fst p);
  sent ← (match (if wc_sending_error c then None else error_handler d) with
          | Some f =>
              _ ← upd_web p (put_sending_error true);
              fd ← conn_fd p;
              c ← web_conn p;
              let msgid := cn_sockfd (wc_conn c) in
              _ ← run_callback f p (ErrorArg code message);
              zimr_website_connection_sent fd msgid
          | None => mret false
          end);
  if (sent : bool) then mret tt else send_error_page p code message.

Definition zimr_connection_send_redirect (p : conn_ptr) (url : bytes) : am W unit :=
  _ ← set_header p (str "Location") url;
  _ ← upd_web p (response_set_status 301);
  _ ← zimr_connection_send_status p;
  _ ← zimr_connection_send_headers p;
  end_connection p.
End send.
