(* ===== verification/WebappFile.v ===== *)
(** lib/zimr.c, third part: files and directories.  The search of the public directories,
    the page of a directory, the default handler of a page with its conditional and partial
    requests, and the handler that sends a file piece by piece.

    A call [ReadDir] stands for opendir, the readdir loop and closedir.  What stat leaves
    in [file_stat] when it was not called is [garbage_isdir]. *)

From Stdlib Require Import ZArith Lia String.
From stdpp Require Import gmap.
From S2P Require Import FdHash.
From S2P Require Export Md5 WebappSend.

Local Open Scope Z_scope.

(** ** Directories *)

Definition signed_char (c : Z) : Z := if c <? 128 then c else c - 256.

Fixpoint directory_sort (file1 file2 : bytes) : Z :=
  match file1, file2 with
  | [], [] => 0
  | [], _ :: _ | _ :: _, [] =>
      if signed_char (char_at file2 0) <? signed_char (char_at file1 0) then -1 else 1
  | a :: file1, b :: file2 =>
      if a =? b then directory_sort file1 file2 else if signed_char b <? signed_char a then -1 else 1
  end.

(** [list_sort] (simclist.c) in ascending order. *)
Fixpoint insert_file (x : bytes) (l : list bytes) : list bytes :=
  match l with
  | [] => [x]
  | y :: l => if 0 <=? directory_sort x y then x :: y :: l else y :: insert_file x l
  end.
Fixpoint sort_files (l : list bytes) : list bytes :=
  match l with [] => [] | x :: l => insert_file x (sort_files l) end.

Definition html_header (url : bytes) : bytes :=
  str "<html><style type=" ++ [c_quote] ++ str "text/css" ++ [c_quote] ++
  str ">html, body { font-family: sans-serif; }</style><body>" ++ [c_lf] ++ str "<h1>" ++ url ++ str "</h1>" ++ [c_lf].

Definition html_entry (slash name : bytes) : bytes :=
  str "<a href=" ++ [c_quote] ++ name ++ slash ++ [c_quote] ++ str ">" ++ name ++ slash ++ str "</a><br/>" ++ [c_lf].

(** ** The tag of a file *)

Definition hex_lower (n : Z) : Z := if n <? 10 then 48 + n else 87 + n.
Definition hex_byte (b : Z) : bytes := [hex_lower (b / 16); hex_lower (b mod 16)].

Definition etag_gen (path : bytes) (mtime : Z) : res bytes :=
  st ← md5_append md5_init path;
  st ← md5_append st (le_bytes 8 mtime);
  digest ← md5_finish st;
  Done ([c_quote] ++ concat (hex_byte <$> digest) ++ [c_quote]).

Section files.
Context {W : Type} (ext : call → W → answer * W).
Context (run_callback : nat → conn_ptr → callback_arg → am W unit).
Context (dlsym : nat → bytes → option nat).
Context (ZIMR_VERSION : bytes) (http_date cookie_date log_date : Z → bytes) (max_age_addr : Z).
(** [regexec]: the expression, the text. *)
Context (regex_match : bytes → bytes → bool) (garbage_isdir : bool).
#[local] Notation ask := (Effect.ask ext).
#[local] Notation tell := (Effect.tell ext).
#[local] Notation set_header := (set_header (W := W)).
#[local] Notation write_msg := (write_msg ext).
#[local] Notation end_connection := (end_connection ext run_callback dlsym).
#[local] Notation send_status := (zimr_connection_send_status ext).
#[local] Notation send_headers := (zimr_connection_send_headers ext ZIMR_VERSION http_date cookie_date log_date max_age_addr).
#[local] Notation send := (zimr_connection_send ext run_callback dlsym ZIMR_VERSION http_date cookie_date log_date max_age_addr).
#[local] Notation send_error :=
  (zimr_connection_send_error ext run_callback dlsym ZIMR_VERSION http_date cookie_date log_date max_age_addr).
#[local] Notation send_redirect :=
  (zimr_connection_send_redirect ext run_callback dlsym ZIMR_VERSION http_date cookie_date log_date max_age_addr).

Definition html_footer : bytes := str "<br/>Zimr/" ++ ZIMR_VERSION ++ [c_lf] ++ str "</body></html>".

(** [list_contains] with the comparator [ignored_regex_check]. *)
Definition is_ignored (d : website_data_t) (path : bytes) : bool :=
  existsb (λ r, regex_match r path) (ignored_regexs d).

Definition conn_url (p : conn_ptr) : am W bytes := c ← web_conn p; mret (request_url (cn_request (wc_conn c))).

(** The lines of the page, in the order of the directory. *)
Fixpoint dir_entries (d : website_data_t) (filepath url : bytes) (names : list bytes) : am W (list bytes) :=
  match names with
  | [] => mret []
  | name :: names =>
      st ← ask (Stat (filepath ++ name));
      if negb (a_ret st =? 0) || is_ignored d (url ++ name) || strcmp_eq name (str ".") then
        dir_entries d filepath url names
      else
        l ← dir_entries d filepath url names;
        mret (html_entry (if st_isdir st then [c_slash] else []) name :: l)
  end.

Fixpoint write_all (p : conn_ptr) (l : list bytes) : am W unit :=
  match l with [] => mret tt | x :: l => _ ← write_msg p x; write_all p l end.

Definition zimr_connection_send_dir (p : conn_ptr) (filepath : bytes) : am W unit :=
  d ← data_at (fst p);
  dir ← ask (ReadDir filepath);
  if a_ret dir =? -1 then send_error p 404 []
  else
    url ← conn_url p;
    files ← dir_entries d filepath url (a_names dir);
    let size := (length (html_header url) + length html_footer + length (concat files))%nat in
    _ ← upd_web p (response_set_status 200);
    _ ← set_header p (str "Content-Type") (mime_get_type (str ".html"));
    sizebuf ← pure (strcpy_into 10 (dec_string (Z.of_nat size)));
    _ ← set_header p (str "Content-Length") sizebuf;
    _ ← send_status p;
    _ ← send_headers p;
    _ ← write_msg p (html_header url);
    _ ← write_all p (sort_files files);
    _ ← write_msg p html_footer;
    end_connection p.

(** ** A file *)

(** The value of a header of the response, and of the request. *)
Definition response_header (p : conn_ptr) (name : bytes) : am W (option bytes) :=
  c ← web_conn p; h ← pure (get_header (rs_headers (wc_response c)) name); mret (h_value <$> h).
Definition request_header (p : conn_ptr) (name : bytes) : am W (option header_t) :=
  c ← web_conn p; pure (get_header (rq_headers (cn_request (wc_conn c))) name).

(** The header if it is set, or else the new value. *)
Definition header_or (p : conn_ptr) (name value : bytes) : am W bytes :=
  o ← response_header p name;
  match o with Some v => mret v | None => _ ← set_header p name value; mret value end.

(** The client has the page already. *)
Definition not_modified (cache_control if_modified_since if_none_match : option header_t)
  (last_modified etag : bytes) : bool :=
  (match cache_control with
   | None => true
   | Some h => match strstr (h_value h) (str "max-age=0"), strstr (h_value h) (str "no-cache") with
               | None, None => true | _, _ => false end
   end) &&
  (match if_modified_since with Some h => strcmp_eq (h_value h) last_modified | None => false end) &&
  (match if_none_match with Some h => strcmp_eq (h_value h) etag | None => false end).

(** The part of the file that a request asks for, as the source reads it: the end of the
    header is used as the first byte behind the part. *)
Definition page_range (p : conn_ptr) (size : Z) : am W (Z * Z) :=
  range ← request_header p (str "Range");
  match range with
  | None => mret (0, size)
  | Some range =>
      _ ← upd_web p (response_set_status 206);
      '(start, stop) ← pure (headers_header_range_parse range);
      let stop := if stop =? -1 then size else stop in
      if (0 <=? start) && (stop <=? size) && (start <=? stop) then
        rangebuf ← pure (strcpy_into 100 (str "bytes " ++ dec_string start ++ [c_minus] ++ dec_string stop ++ [c_slash]
                           ++ dec_string size));
        _ ← set_header p (str "Content-Range") rangebuf;
        mret (start, stop)
      else mret (0, size)
  end.

Definition zimr_connection_default_page_handler (p : conn_ptr) (filepath : bytes) : am W unit :=
  st ← ask (Stat filepath);
  if negb (a_ret st =? 0) then send_error p 404 []
  else if st_isdir st then zimr_connection_send_dir p filepath
  else
    f ← ask (OpenFile filepath);
    let fd := a_ret f in
    if fd <? 0 then send_error p 404 []
    else
      let size := wrap_s32 (st_size st) in
      _ ← header_or p (str "Content-Type") (mime_get_type filepath);
      _ ← header_or p (str "Accept-Ranges") (str "bytes");
      last_modified ← header_or p (str "Last-Modified") (http_date (st_mtime st));
      o ← response_header p (str "ETag");
      etag ← (match o with
              | Some v => mret v
              | None => v ← pure (etag_gen filepath (st_mtime st)); _ ← set_header p (str "ETag") v; mret v
              end);
      cache_control ← request_header p (str "Cache-Control");
      if_modified_since ← request_header p (str "If-Modified-Since");
      if_none_match ← request_header p (str "If-None-Match");
      if not_modified cache_control if_modified_since if_none_match last_modified etag then
        _ ← upd_web p (response_set_status 304);
        send p []
      else
        '(start, stop) ← page_range p size;
        _ ← only_if (negb (start =? 0)) (tell (LSeekSet fd start));
        sizebuf ← pure (strcpy_into 32 (dec_string (wrap_s32 (stop - start))));
        _ ← set_header p (str "Content-Length") sizebuf;
        _ ← send_status p;
        _ ← send_headers p;
        _ ← upd_conn (fst p) (snd p) (put_fileread (FileRead fd start stop));
        sfd ← conn_fd p;
        c ← web_conn p;
        tell (MsgSetWrite sfd (cn_sockfd (wc_conn c))).

(** The size of the buffer. *)
Definition FILE_BUFFER : Z := 2048.

(** The number of bytes to read at [pos]: a sum of size_t, kept in an int. *)
Definition file_chunk (pos stop : Z) : Z :=
  let stop := stop mod 2 ^ 64 in
  if stop <? pos + FILE_BUFFER then wrap_s32 (FILE_BUFFER - (pos + FILE_BUFFER - stop)) else FILE_BUFFER.

Definition zimr_file_handler (fd : Z) (p : conn_ptr) : am W unit :=
  c ← web_conn p;
  d ← conn_at (fst p) (cn_sockfd (wc_conn c));
  _ ← tell (ZfdClr fd);
  sfd ← conn_fd p;
  let msgid := cn_sockfd (wc_conn c) in
  _ ← tell (MsgSetWrite sfd msgid);
  pos ← ask (LSeekCur fd);
  let n := file_chunk (a_ret pos) (range_end (fileread_data d)) in
  _ ← only_if (range_end (fileread_data d) mod 2 ^ 64 <? a_ret pos + FILE_BUFFER) (tell (LSeekCur fd));
  r ← ask (ReadFile fd (n mod 2 ^ 64));
  _ ← pure (if (length (a_bytes r) <=? Z.to_nat FILE_BUFFER)%nat then Done tt else Fault OutOfBounds);
  if a_ret r <=? 0 then end_connection p
  else
    w ← ask (MsgWrite sfd msgid (a_bytes r));
    if a_ret w =? -1 then end_connection p else mret tt.

(** ** The search *)

(** The array [full_filepath] has 256 bytes. *)
Definition FULL_FILEPATH : nat := 256.

(** The loop over the public directories: the path and whether it is a directory, or
    nothing when the error has been sent. *)
Fixpoint search_pubdirs (p : conn_ptr) (filepath : bytes) (dirs : list bytes) : am W (option (bytes * bool)) :=
  match dirs with
  | [] => mret (Some ([], garbage_isdir))
  | dir :: dirs =>
      _ ← pure (strcpy_into FULL_FILEPATH dir);
      full ← pure (strcpy_into FULL_FILEPATH (dir ++ filepath));
      st ← ask (Stat full);
      if a_ret st =? 0 then mret (Some (full, st_isdir st))
      else match dirs with
           | [] => _ ← send_error p 404 []; mret None
           | _ :: _ => search_pubdirs p filepath dirs
           end
  end.

(** The first default page that exists; a page that was freed is read anyway. *)
Fixpoint search_default (full : bytes) (pages : list (option bytes)) : am W bytes :=
  match pages with
  | [] => mret full
  | page :: pages =>
      page ← pure (match page with Some s => Done s | None => Fault UseAfterFree end);
      path ← pure (strcpy_into FULL_FILEPATH (full ++ page));
      st ← ask (Stat path);
      if a_ret st =? 0 then mret path else search_default full pages
  end.

Fixpoint find_page_handler (l : list page_handler_t) (type : bytes) : option nat :=
  match l with
  | [] => None
  | h :: l => if strcmp_eq (page_type h) type then Some (ph_handler h) else find_page_handler l type
  end.

(** The text behind the last dot, when there is one. *)
Definition extension (path : bytes) : option bytes :=
  match strrchr path c_dot with
  | Some k => match drop (S k) path with [] => None | e => Some e end
  | None => None
  end.

(** The end of [zimr_connection_send_file], for a path that was found. *)
Definition send_found (p : conn_ptr) (filepath full : bytes) : am W unit :=
  d ← data_at (fst p);
  if is_ignored d filepath then send_error p 404 []
  else match extension full ≫= find_page_handler (page_handlers d) with
       | Some f => run_callback f p (PathArg full)
       | None => zimr_connection_default_page_handler p full
       end.

(** The array of the redirection has no room for the terminator behind the slash. *)
Definition zimr_connection_send_file (p : conn_ptr) (filepath : bytes) (use_pubdir : bool) : am W unit :=
  d ← data_at (fst p);
  o ← (if use_pubdir && negb (char_at filepath 0 =? c_slash) then search_pubdirs p filepath (pubdirs d)
       else full ← pure (strcpy_into FULL_FILEPATH filepath); mret (Some (full, garbage_isdir)));
  match o with
  | None => mret tt
  | Some (full, isdir) =>
      if isdir : bool then
        c ← web_conn p;
        let full_url := cstr (rq_full_url (cn_request (wc_conn c))) in
        last ← pure (at_index (last full_url));
        if negb (last =? c_slash) then
          let name := match strrchr full_url c_slash with Some k => drop (S k) full_url | None => full_url end in
          url ← pure (strcpy_into (S (length name)) (name ++ [c_slash]));
          send_redirect p url
        else
          full ← search_default full (default_pages d);
          send_found p filepath full
      else send_found p filepath full
  end.
End files.
