(* ===== verification/SimclistUse.v ===== *)
(** * What the lists do for their users

    The page of a directory is sorted with [list_sort] and [directory_sort]: the nodes, the
    pivots and the pointers give the list that WebappFile writes. *)

From Stdlib Require Import ZArith Lia.
From S2P Require Import Prelude CString WebappFile Simclist SimclistRep SimclistSort.
From stdpp Require Import gmap sorting.
Local Open Scope Z_scope.

(** ** The order of [directory_sort] *)

(** Bytes as signed characters; the end of a string counts as 0. *)
Lemma signed_char_inj x y : is_char x → is_char y → signed_char x = signed_char y → x = y.
Proof. unfold is_char, signed_char. repeat case_test; lia. Qed.

Lemma signed_char_nonzero x : is_char x → signed_char x ≠ 0.
Proof. unfold is_char, signed_char. case_test; lia. Qed.

Definition dir_leq (s t : bytes) : Prop := 0 <= directory_sort s t.

Lemma directory_sort_cons a s b t :
  directory_sort (a :: s) (b :: t) =
  if a =? b then directory_sort s t else if signed_char b <? signed_char a then -1 else 1.
Proof. done. Qed.

Lemma directory_sort_opp s t : cstring s → cstring t → directory_sort t s = - directory_sort s t.
Proof.
  revert t. induction s as [|a s IH]; intros [|b t]; [done|..].
  - intros _ [Hb _]%Forall_cons. pose proof (signed_char_nonzero b Hb). simpl.
    change (signed_char (char_at (b :: t) 0)) with (signed_char b). change (signed_char (char_at [] 0)) with 0.
    repeat case_test; lia.
  - intros [Ha _]%Forall_cons _. pose proof (signed_char_nonzero a Ha). simpl.
    change (signed_char (char_at (a :: s) 0)) with (signed_char a). change (signed_char (char_at [] 0)) with 0.
    repeat case_test; lia.
  - intros [Ha Hs]%Forall_cons [Hb Ht]%Forall_cons. rewrite !directory_sort_cons, (Z.eqb_sym b a).
    destruct (Z.eqb_spec a b) as [->|Hne]; [by apply IH|].
    assert (signed_char a ≠ signed_char b) by (intros ?; by apply Hne, signed_char_inj).
    repeat case_test; lia.
Qed.

Lemma directory_sort_zero s t : cstring s → cstring t → directory_sort s t = 0 → s = t.
Proof.
  revert t. induction s as [|a s IH]; intros [|b t]; [done|..].
  - intros _ _. simpl. case_test; lia.
  - intros _ _. simpl. case_test; lia.
  - intros [Ha Hs]%Forall_cons [Hb Ht]%Forall_cons. rewrite directory_sort_cons.
    destruct (Z.eqb_spec a b) as [->|Hne]; [intros; f_equal; by apply IH|]. case_test; lia.
Qed.

Lemma directory_sort_refl s : directory_sort s s = 0.
Proof. induction s; [done|]. by rewrite directory_sort_cons, Z.eqb_refl. Qed.

(** The first characters decide unless they are equal. *)
Lemma dir_leq_cons a s b t : is_char a → is_char b →
  dir_leq (a :: s) (b :: t) ↔ signed_char a < signed_char b ∨ a = b ∧ dir_leq s t.
Proof.
  intros Ha Hb. unfold dir_leq. rewrite directory_sort_cons. destruct (Z.eqb_spec a b) as [->|Hne].
  - split; [auto|]. intros [?|[_ ?]]; [lia|done].
  - assert (signed_char a ≠ signed_char b) by (intros ?; by apply Hne, signed_char_inj).
    case_test; split; [lia|intros [?|[? _]]; [lia|done]|left; lia|lia].
Qed.

Lemma dir_leq_nil_l b t : dir_leq [] (b :: t) ↔ 0 <= signed_char b.
Proof.
  unfold dir_leq. simpl. change (signed_char (char_at (b :: t) 0)) with (signed_char b).
  change (signed_char (char_at [] 0)) with 0. case_test; lia.
Qed.

Lemma dir_leq_nil_r a s : dir_leq (a :: s) [] ↔ signed_char a <= 0.
Proof.
  unfold dir_leq. simpl. change (signed_char (char_at (a :: s) 0)) with (signed_char a).
  change (signed_char (char_at [] 0)) with 0. case_test; lia.
Qed.

Lemma dir_leq_trans s t u : cstring s → cstring t → cstring u → dir_leq s t → dir_leq t u → dir_leq s u.
Proof.
  revert t u. induction s as [|a s IH]; intros [|b t] [|c u] Hs Ht Hu; try (by intros).
  - apply Forall_cons in Ht as [Hb Ht], Hu as [Hc Hu]. rewrite !dir_leq_nil_l, dir_leq_cons by done.
    intros H1 [H2|[-> _]]; lia.
  - apply Forall_cons in Hs as [Ha Hs], Hu as [Hc Hu]. rewrite dir_leq_nil_r, dir_leq_nil_l, dir_leq_cons by done.
    pose proof (signed_char_nonzero a Ha). lia.
  - apply Forall_cons in Hs as [Ha Hs], Ht as [Hb Ht]. rewrite !dir_leq_nil_r, dir_leq_cons by done.
    intros [H1|[-> _]] H2; lia.
  - apply Forall_cons in Hs as [Ha Hs], Ht as [Hb Ht], Hu as [Hc Hu]. rewrite !dir_leq_cons by done.
    intros [H1|[-> H1]] [H2|[-> H2]]; [left; lia|by left|by left|right; split; [done|by apply (IH t u)]].
Qed.

Lemma dir_leq_antisymm s t : cstring s → cstring t → dir_leq s t → dir_leq t s → s = t.
Proof.
  unfold dir_leq. intros Hs Ht H1 H2. rewrite (directory_sort_opp s t Hs Ht) in H2.
  apply directory_sort_zero; [done|done|lia].
Qed.

Lemma dir_leq_total s t : cstring s → cstring t → dir_leq s t ∨ dir_leq t s.
Proof. unfold dir_leq. intros Hs Ht. rewrite (directory_sort_opp s t Hs Ht). lia. Qed.

(** ** The reference sort *)

Lemma insert_file_perm x k : insert_file x k ≡ₚ x :: k.
Proof.
  induction k as [|y k IH]; simpl; [done|]. case_test; [done|]. rewrite IH. apply Permutation_swap.
Qed.

Lemma sort_files_perm k : sort_files k ≡ₚ k.
Proof. induction k as [|x k IH]; simpl; [done|]. by rewrite insert_file_perm, IH. Qed.

Lemma insert_file_sorted x k :
  cstring x → Forall cstring k → StronglySorted dir_leq k → StronglySorted dir_leq (insert_file x k).
Proof.
  intros Hx. induction k as [|y k IH]; intros Hk Hs; simpl; [repeat constructor|].
  apply Forall_cons in Hk as [Hy Hk]. apply StronglySorted_inv in Hs as [Hs Hyk]. case_test.
  - constructor; [by constructor|]. constructor; [done|]. rewrite Forall_forall in Hyk, Hk |- *.
    intros z Hz. apply (dir_leq_trans x y z); auto.
  - constructor; [by apply IH|]. rewrite insert_file_perm. constructor; [|done].
    destruct (dir_leq_total x y Hx Hy) as [Hxy|]; [unfold dir_leq in Hxy; lia|done].
Qed.

Lemma sort_files_sorted k : Forall cstring k → StronglySorted dir_leq (sort_files k).
Proof.
  induction k as [|x k IH]; intros Hk; simpl; [constructor|]. apply Forall_cons in Hk as [Hx Hk].
  apply insert_file_sorted; [done| |by apply IH]. by rewrite sort_files_perm.
Qed.

(** ** The list of a directory *)

(** The string at an address. *)
Definition name_at (b : heap) (p : Z) : bytes := cstr (default [] (b !! p)).

(** [(element_comparator) directory_sort] *)
Definition directory_comparator (b : heap) (p q : Z) : Z := directory_sort (name_at b p) (name_at b q).

(** Memory holds bytes. *)
Definition holds_bytes (b : heap) : Prop := ∀ p s, b !! p = Some s → Forall is_byte s.

Lemma name_at_cstring b p : holds_bytes b → cstring (name_at b p).
Proof.
  intros Hb. apply cstr_bytes. destruct (b !! p) as [s|] eqn:E; [by eapply Hb|constructor].
Qed.

Lemma directory_orders b : holds_bytes b → Orders directory_comparator 1 b.
Proof.
  intros Hb. pose proof (λ p, name_at_cstring b p Hb) as Hc.
  constructor; unfold directory_comparator.
  - intros p q H. rewrite (directory_sort_opp (name_at b p) (name_at b q)) by done. lia.
  - intros p q r H1 H2. enough (dir_leq (name_at b p) (name_at b r)) by (unfold dir_leq in *; lia).
    apply (dir_leq_trans _ (name_at b q)); [done..| |]; unfold dir_leq; lia.
Qed.

(** C30: [list_sort] with [directory_sort], on the nodes of the list and with any random pivots, leaves
    the names of the directory in the order that the model of the directory page uses. *)
Theorem directory_list_sorted random m l ps xs :
  rep m l ps xs → iter_active l = false → numels l < max_numels →
  comparator (attrs l) = Some directory_comparator → holds_bytes (blocks m) →
  hwp (list_sort random l 1) m (λ r m', r = 0 ∧ ∃ xs', rep m' l ps xs' ∧ xs' ≡ₚ xs ∧
    name_at (blocks m) <$> xs' = sort_files (name_at (blocks m) <$> xs)).
Proof.
  intros Hr Hit Hmax Hcmp Hb. pose proof (λ p, name_at_cstring (blocks m) p Hb) as Hc.
  eapply list_sort_wp; [done..|by apply directory_orders|]. intros m' xs' Hr' _ Hp Hs.
  split; [done|]. exists xs'. split_and!; [done|done|].
  assert (∀ k, Forall cstring (name_at (blocks m) <$> k)) as Hf.
  { intros k. apply Forall_fmap, Forall_forall. intros p _. apply Hc. }
  apply (StronglySorted_unique_strong dir_leq).
  - intros s t Hs1 Ht1. rewrite sort_files_perm in Ht1.
    pose proof (Hf xs) as H1. pose proof (Hf xs') as H2. rewrite Forall_forall in H1, H2.
    apply dir_leq_antisymm; auto.
  - clear - Hs. induction Hs as [|x k Hs IH Hx]; simpl; constructor; [done|].
    apply Forall_fmap. eapply Forall_impl; [exact Hx|]. intros y Hy. unfold leq, directory_comparator in Hy.
    unfold dir_leq. simpl. lia.
  - by apply sort_files_sorted.
  - rewrite sort_files_perm. by rewrite Hp.
Qed.

(** Two entries of a directory, [b] and [A], on four nodes. *)
Definition two_names : mem :=
  Mem (<[1 := Entry 0 3 0]> (<[2 := Entry 0 0 4]> (<[3 := Entry 10 4 1]> (<[4 := Entry 20 2 3]> ∅))))
      (<[10 := [98; 0]]> (<[20 := [65; 0]]> ∅)) 0.
Definition two_list : list_t :=
  L 1 2 3 2 [] false 0 0 (Attrs (Some directory_comparator) None None false None None None).

Lemma two_names_rep : rep two_names two_list [3; 4] [10; 20].
Proof.
  constructor.
  - split; [split; vm_compute; reflexivity|]. split; [split; vm_compute; reflexivity|].
    split; [split; vm_compute; reflexivity|]. split; exact I.
  - split; vm_compute; reflexivity.
  - split; vm_compute; reflexivity.
  - apply (bool_decide_unpack _). vm_compute. exact I.
  - unfold foot, all. simpl.
    repeat (apply Forall_cons; split; [split; [lia|eexists; vm_compute; reflexivity]|]). constructor.
  - repeat constructor.
  - reflexivity.
  - intros _. vm_compute. reflexivity.
  - vm_compute. discriminate.
  - reflexivity.
Qed.

Lemma two_names_bytes : holds_bytes (blocks two_names).
Proof.
  intros p s. unfold two_names. simpl. intros [[_ <-]|[_ [[_ <-]|[_ Hn]]%lookup_insert_Some]]%lookup_insert_Some;
    [repeat constructor; lia|repeat constructor; lia|]. by rewrite lookup_empty in Hn.
Qed.

Lemma directory_list_sorted_witness :
  hwp (list_sort (fun _ => 0) two_list 1) two_names (λ r m', r = 0 ∧ ∃ xs', rep m' two_list [3; 4] xs' ∧
    xs' ≡ₚ [10; 20] ∧ name_at (blocks two_names) <$> xs' = sort_files (name_at (blocks two_names) <$> [10; 20])).
Proof.
  apply (directory_list_sorted (fun _ => 0) two_names two_list [3; 4] [10; 20]).
  - exact two_names_rep.
  - reflexivity.
  - reflexivity.
  - reflexivity.
  - exact two_names_bytes.
Defined.
