(* ===== verification/Modauth.v ===== *)
(** modules/modauth.c: HTTP basic authentication, against a file of password hashes or
    against PAM.

    The static variables of the module, the users of the file that was read last and its
    modification time, are the record [auth_t]; in the library they are a part of the world
    of its callbacks.  crypt(3), the file and PAM are arguments. *)

From Stdlib Require Import ZArith Lia String.
From S2P Require Export WebappFile.

Local Open Scope Z_scope.

(** ** Base 64 *)

(** 0xff for a character that is no digit. *)
Definition base64_decode_digit (c : Z) : Z :=
  if c =? 61 then 0 else if c =? 43 then 62 else if c =? 47 then 63
  else if isdigit c then c - 48 + 52
  else if islower c then c - 97 + 26
  else if isupper c then c - 65
  else 255.

(** The three bytes of [n], each stored in a char. *)
Definition base64_bytes (n : Z) : bytes :=
  [Z.shiftr n 16 mod 256;
   Z.shiftr (n - Z.shiftl (Z.shiftr n 16) 16) 8 mod 256;
   (n - Z.shiftl (Z.shiftr n 8) 8) mod 256].

(** [k] is [p - s]. *)
Fixpoint base64_loop (s : bytes) (k : nat) (n : Z) (buf : bytes) : bytes :=
  match s with
  | [] => buf
  | c :: s =>
      let n := wrap_u32 (64 * n + base64_decode_digit c) in
      if (S k mod 4 =? 0)%nat then base64_loop s (S k) 0 (buf ++ base64_bytes n)
      else base64_loop s (S k) n buf
  end.

(** The bytes that are written into [buf] of [cap] bytes, before the terminator. *)
Definition base64_decode (cap : nat) (s : bytes) : res bytes := strcpy_into cap (base64_loop s 0 0 []).

(** ** The users of a file *)

Record auth_user_t := AuthUser { au_name : bytes; au_passwd : bytes }.

Record auth_t := Auth { htpasswd_mtime : Z; auth_users : list auth_user_t }.

Definition AUTH_USERS : nat := 100.
Definition AUTH_FIELD : nat := 64.

(** [fgets] into [size] bytes, to the end of the file. *)
Fixpoint fgets_all (fuel : nat) (size : nat) (s : bytes) : list bytes :=
  match fuel, s with
  | S fuel, _ :: _ =>
      let n := min (pred size) (match strchr s c_lf with Some i => S i | None => length s end) in
      take n s :: fgets_all fuel size (drop n s)
  | _, _ => []
  end.

(** A line of the file: a field may be filled without a terminator. *)
Definition read_user (buf : bytes) : res auth_user_t :=
  ptr ← deref (strchr buf c_colon);
  let passwd := drop (S ptr) buf in
  if (AUTH_FIELD <? ptr)%nat || (AUTH_FIELD <? S (length passwd))%nat then Fault OutOfBounds
  else Done (AuthUser (take ptr buf) (chomp passwd)).

(** The entry behind the one that is read is cleared, so that the last cell stays unused. *)
Fixpoint read_users (lines : list bytes) (i : nat) : res (list auth_user_t) :=
  match lines with
  | [] => Done []
  | buf :: lines =>
      u ← read_user (cstr buf);
      _ ← (if (S i <? AUTH_USERS)%nat then Done tt else Fault OutOfBounds);
      us ← read_users lines (S i);
      Done (u :: us)
  end.

(** [None] when the file cannot be opened: the table is then empty. *)
Definition read_htpasswd_file (content : option bytes) (auth : auth_t) : res auth_t :=
  match content with
  | None => Done (Auth (htpasswd_mtime auth) [])
  | Some s => us ← read_users (fgets_all (length s) 256 s) 0; Done (Auth (htpasswd_mtime auth) us)
  end.

(** [mtime] is what stat says, if anything. *)
Definition htpasswd_file_was_modified (mtime : option Z) (auth : auth_t) : auth_t * bool :=
  match mtime with
  | None => (auth, false)
  | Some t => if htpasswd_mtime auth =? t then (auth, false) else (Auth t (auth_users auth), true)
  end.

(** ** PAM *)

Inductive pam_style := PAM_PROMPT_ECHO_ON | PAM_PROMPT_ECHO_OFF | PAM_ERROR_MSG | PAM_TEXT_INFO | PAM_OTHER.

(** The answers to the messages, or the error of the conversation. *)
Fixpoint pam_userpass_conv (msgs : list pam_style) (user pass : bytes) : option (list (option bytes)) :=
  match msgs with
  | [] => Some []
  | m :: msgs =>
      match m with
      | PAM_OTHER => None
      | PAM_PROMPT_ECHO_ON => (cons (Some user)) <$> pam_userpass_conv msgs user pass
      | PAM_PROMPT_ECHO_OFF => (cons (Some pass)) <$> pam_userpass_conv msgs user pass
      | PAM_ERROR_MSG | PAM_TEXT_INFO => (cons None) <$> pam_userpass_conv msgs user pass
      end
  end.

(** ** A website with the module *)

Inductive auth_type := AUTH_HTPASSWD | AUTH_PAM.

Record auth_info_t := AuthInfo { ai_type : auth_type; ai_url : bytes; ai_arg : bytes }.

(** [modzimr_website_init]; the second value is the expression for files that are not to
    be handed out.  The block is cleared only where the url starts, which makes it empty. *)
Definition auth_website_init (argv : list bytes) : res (auth_info_t * option bytes) :=
  let type := match argv with
              | a :: _ => if strcmp_eq a (str "htpasswd") then AUTH_HTPASSWD
                          else if strcmp_eq a (str "pam") then AUTH_PAM else AUTH_HTPASSWD
              | [] => AUTH_HTPASSWD
              end in
  arg ← (match argv !! 1%nat with
         | Some a => strcpy_into 128 a
         | None => Done (match type with AUTH_HTPASSWD => str ".htpasswd" | AUTH_PAM => str "login" end)
         end);
  url ← (match argv !! 2%nat with Some u => strcpy_into PATH_MAX u | None => Done [] end);
  Done (AuthInfo type url arg, match type with AUTH_HTPASSWD => Some arg | AUTH_PAM => None end).

Section auth.
Context (crypt : bytes → bytes → option bytes).
(** What stat says of a file, and what it holds; whether PAM takes a user of a service. *)
Context {W : Type} (file_mtime : bytes → W → option Z) (file_content : bytes → W → option bytes).
Context (pam_check : bytes → bytes → bytes → W → bool).

(** [strcmp] of a field and a string: without a terminator it reads on. *)
Definition strcmp_field (field s : bytes) : res bool :=
  if (length field <? AUTH_FIELD)%nat then Done (strcmp_eq field s)
  else if is_prefix field s then Fault OutOfBounds else Done false.

(** The entries up to the first without a name. *)
Fixpoint find_user (us : list auth_user_t) (user pass : bytes) : res bool :=
  match us with
  | [] => Done false
  | u :: us =>
      if strcmp_eq (au_name u) [] then Done false
      else
        same ← strcmp_field (au_name u) user;
        ok ← (if same : bool then
                hash ← deref (crypt pass (au_passwd u)); Done (strcmp_eq (au_passwd u) hash)
              else Done false);
        if ok : bool then Done true else find_user us user pass
  end.

(** The two rounds of the loop: the file is read again when it has changed. *)
Definition check_htpasswd (info : auth_info_t) (user pass : bytes) (auth : auth_t) (w : W) : res (auth_t * bool) :=
  found ← find_user (auth_users auth) user pass;
  if found : bool then Done (auth, true)
  else
    let '(auth, modified) := htpasswd_file_was_modified (file_mtime (ai_arg info) w) auth in
    if negb modified then Done (auth, false)
    else
      auth ← read_htpasswd_file (file_content (ai_arg info) w) auth;
      found ← find_user (auth_users auth) user pass;
      Done (auth, found).

(** Whether the value of the header Authorization names a user. *)
Definition authorize (info : auth_info_t) (value : option bytes) (auth : auth_t) (w : W) : res (auth_t * bool) :=
  match value with
  | None => Done (auth, false)
  | Some value =>
      if negb (startswith value (str "Basic ")) then Done (auth, false)
      else
        user ← base64_decode 256 (drop 6 value);
        let user := cstr user in
        match strchr user c_colon with
        | None => Done (auth, false)
        | Some i =>
            let pass := drop (S i) user in
            let user := take i user in
            match ai_type info with
            | AUTH_HTPASSWD => check_htpasswd info user pass auth w
            | AUTH_PAM => Done (auth, pam_check (ai_arg info) user pass w)
            end
        end
  end.

(** ** The callback of the library *)

Context (ext : call → auth_t * W → answer * (auth_t * W)).
Context (run_callback : nat → conn_ptr → callback_arg → am (auth_t * W) unit) (dlsym : nat → bytes → option nat).
Context (ZIMR_VERSION : bytes) (http_date cookie_date log_date : Z → bytes) (max_age_addr : Z).

(** A step on the static variables of the module. *)
Definition with_auth {A} (f : auth_t → W → res (auth_t * A)) : am (auth_t * W) A :=
  fun s '(auth, w) =>
    match f auth w with Done (auth, a) => Done (a, s, (auth, w), []) | Fault e => Fault e end.

(** [modzimr_connection_new]. *)
Definition auth_connection_new (info : auth_info_t) (p : conn_ptr) : am (auth_t * W) unit :=
  header ← request_header p (str "Authorization");
  ok ← with_auth (authorize info (h_value <$> header));
  if ok : bool then mret tt
  else
    url ← conn_url p;
    only_if (startswith url (ai_url info))
      (_ ← set_header p (str "WWW-Authenticate") (str "Basic realm=" ++ c_quote :: str "Secure Area" ++ [c_quote]);
       zimr_connection_send_error ext run_callback dlsym ZIMR_VERSION http_date cookie_date log_date max_age_addr
         p 401 []).
End auth.

(** ** Base 64: what is encoded is decoded *)

Definition base64_digit (d : Z) : Z :=
  if d <? 26 then 65 + d else if d <? 52 then 71 + d else if d <? 62 then d - 4 else if d =? 62 then 43 else 47.

Fixpoint base64_encode (s : bytes) : bytes :=
  match s with
  | a :: b :: c :: s =>
      base64_digit (a / 4) :: base64_digit (a mod 4 * 16 + b / 16) :: base64_digit (b mod 16 * 4 + c / 64) ::
      base64_digit (c mod 64) :: base64_encode s
  | [a; b] => [base64_digit (a / 4); base64_digit (a mod 4 * 16 + b / 16); base64_digit (b mod 16 * 4); 61]
  | [a] => [base64_digit (a / 4); base64_digit (a mod 4 * 16); 61; 61]
  | [] => []
  end.

Lemma list_ind3 {A} (P : list A → Prop) :
  P [] → (∀ a, P [a]) → (∀ a b, P [a; b]) → (∀ a b c l, P l → P (a :: b :: c :: l)) → ∀ l, P l.
Proof.
  intros H0 H1 H2 H3. fix IH 1. intros [|a [|b [|c l]]]; [exact H0|apply H1|apply H2|apply H3, IH].
Qed.

Lemma base64_digit_decode d : 0 <= d < 64 → base64_decode_digit (base64_digit d) = d.
Proof.
  intros Hd. assert (forallb (λ d, base64_decode_digit (base64_digit d) =? d) (seqZ 0 64) = true) as H
    by (vm_compute; reflexivity).
  rewrite forallb_forall in H. apply Z.eqb_eq, H. apply list_elem_of_In, elem_of_seqZ. lia.
Qed.

Lemma base64_bytes_join a b c :
  is_byte a → is_byte b → is_byte c → base64_bytes (65536 * a + 256 * b + c) = [a; b; c].
Proof.
  unfold is_byte, base64_bytes. intros Ha Hb Hc. rewrite !Z.shiftl_mul_pow2, !Z.shiftr_div_pow2 by lia.
  change (2 ^ 16) with 65536. change (2 ^ 8) with 256.
  assert ((65536 * a + 256 * b + c) / 65536 = a) as -> by (Z.to_euclidean_division_equations; lia).
  assert ((65536 * a + 256 * b + c) / 256 = 256 * a + b) as -> by (Z.to_euclidean_division_equations; lia).
  f_equal; [|f_equal; [|f_equal]]; Z.to_euclidean_division_equations; lia.
Qed.

Lemma base64_quad c0 c1 c2 c3 s k buf :
  (k mod 4 = 0)%nat → (∀ c, 0 <= base64_decode_digit c < 256) →
  base64_loop (c0 :: c1 :: c2 :: c3 :: s) k 0 buf =
  base64_loop s (4 + k) 0 (buf ++ base64_bytes
    (64 * (64 * (64 * base64_decode_digit c0 + base64_decode_digit c1) + base64_decode_digit c2) +
     base64_decode_digit c3)).
Proof.
  intros Hk Hd. pose proof (Hd c0). pose proof (Hd c1). pose proof (Hd c2). pose proof (Hd c3).
  assert (∀ j, (0 < j < 4)%nat → ((j + k) mod 4 =? 0)%nat = false) as Hj.
  { intros j Hj. apply Nat.eqb_neq. rewrite Nat.Div0.add_mod, Hk, Nat.add_0_r, Nat.Div0.mod_mod.
    rewrite Nat.mod_small; lia. }
  pose proof (Hj 1%nat ltac:(lia)) as Hj1. pose proof (Hj 2%nat ltac:(lia)) as Hj2. pose proof (Hj 3%nat ltac:(lia)) as Hj3.
  cbn [Nat.add] in Hj1, Hj2, Hj3. cbn [base64_loop]. rewrite Hj1, Hj2, Hj3.
  change (S (S (S (S k)))) with (4 + k)%nat.
  assert ((4 + k) mod 4 = 0)%nat as -> by (rewrite Nat.Div0.add_mod, Hk; reflexivity). cbn [Nat.eqb].
  set (d0 := base64_decode_digit c0) in *. set (d1 := base64_decode_digit c1) in *.
  set (d2 := base64_decode_digit c2) in *. set (d3 := base64_decode_digit c3) in *.
  rewrite (wrap_u32_small (64 * 0 + d0)) by lia. change (64 * 0 + d0) with d0.
  rewrite (wrap_u32_small (64 * d0 + d1)), (wrap_u32_small (64 * (64 * d0 + d1) + d2)) by lia.
  by rewrite wrap_u32_small by lia.
Qed.

Lemma base64_decode_digit_bound c : 0 <= base64_decode_digit c < 256.
Proof.
  unfold base64_decode_digit, isdigit, islower, isupper.
  repeat (match goal with |- context [if ?b then _ else _] => destruct b eqn:? end); zbool; lia.
Qed.

Lemma base64_loop_encode s k buf :
  (k mod 4 = 0)%nat → Forall is_byte s →
  ∃ z, base64_loop (base64_encode s) k 0 buf = buf ++ s ++ z ∧ Forall (eq 0) z ∧ (length z <= 2)%nat.
Proof.
  revert k buf. induction s as [|a|a b|a b c s IH] using list_ind3; intros k buf Hk Hs; cbn [base64_encode].
  - exists []. cbn. rewrite app_nil_r. split; [done|]. split; [constructor|lia].
  - apply Forall_cons in Hs as [Ha _]. rewrite base64_quad by (done || apply base64_decode_digit_bound).
    change (base64_decode_digit 61) with 0. unfold is_byte in *.
    rewrite !base64_digit_decode by (Z.to_euclidean_division_equations; lia). exists [0; 0]. cbn [base64_loop].
    split; [|split; [by repeat constructor|simpl; lia]].
    cbn [app]. rewrite <- (base64_bytes_join a 0 0) by (unfold is_byte; lia). do 2 f_equal.
    Z.to_euclidean_division_equations; lia.
  - apply Forall_cons in Hs as [Ha Hs]. apply Forall_cons in Hs as [Hb _].
    rewrite base64_quad by (done || apply base64_decode_digit_bound).
    change (base64_decode_digit 61) with 0. unfold is_byte in *.
    rewrite !base64_digit_decode by (Z.to_euclidean_division_equations; lia). exists [0]. cbn [base64_loop].
    split; [|split; [by repeat constructor|simpl; lia]].
    cbn [app]. rewrite <- (base64_bytes_join a b 0) by (unfold is_byte; lia). do 2 f_equal.
    Z.to_euclidean_division_equations; lia.
  - apply Forall_cons in Hs as [Ha Hs]. apply Forall_cons in Hs as [Hb Hs]. apply Forall_cons in Hs as [Hc Hs].
    rewrite base64_quad by (done || apply base64_decode_digit_bound). unfold is_byte in Ha, Hb, Hc.
    rewrite !base64_digit_decode by (Z.to_euclidean_division_equations; lia).
    replace (64 * (64 * (64 * (a / 4) + (a mod 4 * 16 + b / 16)) + (b mod 16 * 4 + c / 64)) + c mod 64)
      with (65536 * a + 256 * b + c) by (Z.to_euclidean_division_equations; lia).
    rewrite base64_bytes_join by done.
    destruct (IH (4 + k)%nat (buf ++ [a; b; c])) as (z & E & Hz & Hl); [|done|].
    { rewrite Nat.Div0.add_mod, Hk. reflexivity. }
    exists z. rewrite E. split; [by rewrite <- !app_assoc|done].
Qed.

Lemma cstr_zeros s z : cstring s → Forall (eq 0) z → cstr (s ++ z) = s.
Proof.
  intros Hs Hz. destruct Hz as [|x z <- Hz]; [rewrite app_nil_r; by apply cstr_cstring|by apply cstr_app].
Qed.

(** What the module reads out of the credentials of a client. *)
Lemma base64_decode_encode s :
  cstring s → (length s <= 253)%nat →
  ∃ m, base64_decode 256 (base64_encode s) = Done m ∧ cstr m = s.
Proof.
  intros Hs Hl. destruct (base64_loop_encode s 0 []) as (z & E & Hz & Hzl); [done| |].
  { eapply Forall_impl; [exact Hs|]. intros c. unfold is_char, is_byte. lia. }
  exists (s ++ z). unfold base64_decode, strcpy_into. rewrite E. cbn [app]. rewrite length_app.
  destruct (Nat.ltb_spec (length s + length z) 256); [|lia]. split; [done|]. by apply cstr_zeros.
Qed.

(** ** The file of the users *)

(** A user as the file can hold it. *)
Record good_user (u : auth_user_t) : Prop := {
  gu_name : au_name u ≠ [];
  gu_name_text : cstring (au_name u) ∧ c_colon ∉ au_name u ∧ c_lf ∉ au_name u;
  gu_passwd_text : cstring (au_passwd u) ∧ c_lf ∉ au_passwd u ∧ c_cr ∉ au_passwd u;
  gu_length : (length (au_name u) <= 63)%nat ∧ (length (au_passwd u) <= 62)%nat
}.

Definition user_line (u : auth_user_t) : bytes := au_name u ++ c_colon :: au_passwd u ++ [c_lf].

Lemma chomp_line s : c_lf ∉ s → c_cr ∉ s → chomp (s ++ [c_lf]) = s.
Proof.
  intros H1 H2. induction s as [|c s IH]; [done|]. apply not_elem_of_cons in H1 as [H1 H1'], H2 as [H2 H2'].
  cbn [app chomp]. rewrite !(proj2 (Z.eqb_neq c _)) by congruence. cbn [orb]. by rewrite IH.
Qed.

Lemma read_user_line u : good_user u → read_user (cstr (user_line u)) = Done u.
Proof.
  intros [_ (Hn & Hc & _) (Hp & Hl & Hr) [Hnl Hpl]]. unfold user_line.
  rewrite cstr_cstring.
  2: { apply cstring_app. split; [done|]. constructor; [done|]. apply cstring_app. split; [done|].
       by repeat constructor. }
  unfold read_user. rewrite strchr_app by done. cbn [deref mbind res_bind].
  rewrite take_app_length, (cons_middle c_colon), app_assoc, drop_app_length' by (rewrite length_app; simpl; lia).
  rewrite length_app. cbn [length]. unfold AUTH_FIELD. destruct (Nat.ltb_spec 64 (length (au_name u))); [lia|].
  destruct (Nat.ltb_spec 64 (S (length (au_passwd u) + 1))); [lia|]. cbn [orb].
  rewrite chomp_line by done. by destruct u.
Qed.

Lemma fgets_all_lines fuel us :
  Forall good_user us → (length us <= fuel)%nat →
  fgets_all fuel 256 (concat (user_line <$> us)) = user_line <$> us.
Proof.
  intros H. revert fuel. induction H as [|u us Hu H IH]; intros fuel Hf; [by destruct fuel|].
  destruct fuel as [|fuel]; [simpl in Hf; lia|]. rewrite fmap_cons. cbn [concat].
  destruct Hu as [Hne (Hn & Hc & Hnl) (Hp & Hl & _) [Hlen Hlen']].
  set (rest := concat (user_line <$> us)) in *.
  assert (user_line u ++ rest = (au_name u ++ c_colon :: au_passwd u) ++ c_lf :: rest) as El.
  { unfold user_line. by rewrite <- !app_assoc, <- app_comm_cons, <- !app_assoc. }
  assert (strchr (user_line u ++ rest) c_lf = Some (length (au_name u ++ c_colon :: au_passwd u))) as Es.
  { rewrite El. apply strchr_app. rewrite elem_of_app, elem_of_cons. intros [?|[?|?]]; done. }
  assert (length (user_line u) = S (length (au_name u ++ c_colon :: au_passwd u))) as Elen.
  { unfold user_line. rewrite !length_app. cbn [length]. rewrite length_app. simpl. lia. }
  assert (min 255 (S (length (au_name u ++ c_colon :: au_passwd u))) = length (user_line u)) as Emin.
  { rewrite Elen, length_app. cbn [length]. lia. }
  destruct (user_line u ++ rest) as [|x m] eqn:E; [by destruct (au_name u)|]. cbn [fgets_all]. rewrite Es.
  cbn [pred]. rewrite Emin, <- E, take_app_length, drop_app_length, IH; [done|]. simpl in Hf. lia.
Qed.

Lemma read_users_lines us i :
  Forall good_user us → (i + length us < AUTH_USERS)%nat → read_users (user_line <$> us) i = Done us.
Proof.
  intros H. revert i. induction H as [|u us Hu H IH]; intros i Hi; [done|]. rewrite fmap_cons. cbn [read_users].
  rewrite read_user_line by done. cbn [mbind res_bind length] in *.
  destruct (Nat.ltb_spec (S i) AUTH_USERS); [|lia]. cbn [mbind res_bind]. rewrite IH by lia. done.
Qed.

Lemma user_lines_length us : (length us <= length (concat (user_line <$> us)))%nat.
Proof.
  induction us as [|u us IH]; [done|]. rewrite fmap_cons. cbn [concat length]. rewrite length_app.
  unfold user_line at 1. rewrite length_app. simpl. lia.
Qed.

Lemma read_file_users us auth :
  Forall good_user us → (length us < AUTH_USERS)%nat →
  read_htpasswd_file (Some (concat (user_line <$> us))) auth = Done (Auth (htpasswd_mtime auth) us).
Proof.
  intros H Hl. unfold read_htpasswd_file.
  rewrite fgets_all_lines by (done || apply user_lines_length). by rewrite read_users_lines by done.
Qed.

(** ** Who is let in *)

Section let_in.
Context (crypt : bytes → bytes → option bytes).
Context {W : Type} (file_mtime : bytes → W → option Z) (file_content : bytes → W → option bytes).
Context (pam_check : bytes → bytes → bytes → W → bool).

(** The entry [u] has the name and, by its hash, the password. *)
Definition admits (user pass : bytes) (u : auth_user_t) : bool :=
  bool_decide (au_name u = user) && bool_decide (crypt pass (au_passwd u) = Some (au_passwd u)).

(** crypt takes the hashes of the user. *)
Definition crypt_ok (user pass : bytes) (us : list auth_user_t) : Prop :=
  Forall (λ u, au_name u = user → is_Some (crypt pass (au_passwd u))) us.

Lemma find_user_spec us user pass :
  Forall good_user us → crypt_ok user pass us → find_user crypt us user pass = Done (existsb (admits user pass) us).
Proof.
  intros Hg Hc. induction Hg as [|u us Hu Hg IH]; [done|]. apply Forall_cons in Hc as [Hu' Hc].
  cbn [find_user existsb]. destruct Hu as [Hne _ _ [Hl _]]. unfold strcmp_eq at 1.
  rewrite bool_decide_eq_false_2 by done. unfold strcmp_field, AUTH_FIELD.
  destruct (Nat.ltb_spec (length (au_name u)) 64); [|lia]. cbn [mbind res_bind]. unfold admits at 1, strcmp_eq at 1.
  case_bool_decide as Hn; cbn [andb mbind res_bind].
  - destruct (Hu' Hn) as [hash Eh]. rewrite Eh. cbn [deref mbind res_bind]. unfold strcmp_eq.
    destruct (decide (hash = au_passwd u)) as [->|Hne'].
    + by rewrite !bool_decide_eq_true_2.
    + rewrite !bool_decide_eq_false_2 by congruence. by apply IH.
  - by apply IH.
Qed.

(** C27: with a file of users, the module lets in exactly the requests with the name and the
    password of a user in its table, which all websites share, or else of one in the file of
    the website, when the time of this file is not the one of the file that was read last;
    the table then holds the users of this file.  So a user of the table gets in who is not
    in the file: one of another website ([users_are_shared]), or one who was removed.  The
    name and the password fit the array of the module, and the file and the table have
    fewer than a hundred users, each with a name and a hash ([good_user]). *)
Theorem authorize_htpasswd info user pass us auth w :
  ai_type info = AUTH_HTPASSWD → cstring user → cstring pass → c_colon ∉ user →
  (length user + length pass <= 252)%nat →
  file_content (ai_arg info) w = Some (concat (user_line <$> us)) →
  Forall good_user us → (length us < AUTH_USERS)%nat → Forall good_user (auth_users auth) →
  crypt_ok user pass us → crypt_ok user pass (auth_users auth) →
  authorize crypt file_mtime file_content pam_check info
    (Some (str "Basic " ++ base64_encode (user ++ c_colon :: pass))) auth w =
  Done (if existsb (admits user pass) (auth_users auth) then (auth, true)
        else match file_mtime (ai_arg info) w with
             | Some t => if htpasswd_mtime auth =? t then (auth, false)
                         else (Auth t us, existsb (admits user pass) us)
             | None => (auth, false)
             end).
Proof.
  intros Ht Hu Hp Hc Hl Hf Hg Hn Hg' Hk Hk'. unfold authorize.
  destruct (base64_decode_encode (user ++ c_colon :: pass)) as (m & E & Em).
  { apply cstring_app. split; [done|]. by constructor. }
  { rewrite length_app. simpl. lia. }
  rewrite startswith_prefix, (proj2 (is_prefix_spec _ _)) by (by eexists). cbn [negb]. change (drop 6 _) with (base64_encode (user ++ c_colon :: pass)).
  rewrite E. cbn [mbind res_bind]. rewrite Em, strchr_app by done.
  rewrite take_app_length, (cons_middle c_colon), app_assoc, drop_app_length' by (rewrite length_app; simpl; lia).
  rewrite Ht. unfold check_htpasswd. rewrite find_user_spec by done. cbn [mbind res_bind].
  destruct (existsb _ (auth_users auth)); [done|]. unfold htpasswd_file_was_modified.
  destruct (file_mtime (ai_arg info) w) as [t|]; [|done].
  destruct (htpasswd_mtime auth =? t); [done|]. rewrite Hf, read_file_users by done.
  cbn [mbind res_bind auth_users]. by rewrite find_user_spec by done.
Qed.
End let_in.

(** ** Examples *)

(** A crypt that keeps the password in the hash. *)
Definition sample_crypt (pass hash : bytes) : option bytes := Some (104 :: pass).
Definition sample_users : list auth_user_t := [AuthUser (str "alice") (str "hsecret"); AuthUser (str "bob") (str "hpw")].
Definition sample_content (path : bytes) (w : unit) : option bytes :=
  if strcmp_eq path (str "a") then Some (concat (user_line <$> sample_users)) else Some [].
Definition no_pam (service user pass : bytes) (w : unit) : bool := false.
Notation sample_authorize := (authorize sample_crypt (λ _ (_ : unit), Some 5) sample_content no_pam).

Lemma authorize_htpasswd_witness :
  sample_authorize (AuthInfo AUTH_HTPASSWD [] (str "a"))
    (Some (str "Basic " ++ base64_encode (str "bob" ++ c_colon :: str "pw"))) (Auth 0 []) tt =
  Done (Auth 5 sample_users, true).
Proof.
  refine (eq_trans (authorize_htpasswd sample_crypt (λ _ (_ : unit), Some 5) sample_content no_pam
    (AuthInfo AUTH_HTPASSWD [] (str "a")) (str "bob") (str "pw") sample_users (Auth 0 []) tt _ _ _ _ _ _ _ _ _ _ _) _).
  - reflexivity.
  - apply (bool_decide_unpack _). vm_compute. exact I.
  - apply (bool_decide_unpack _). vm_compute. exact I.
  - apply (bool_decide_unpack _). vm_compute. exact I.
  - simpl. lia.
  - reflexivity.
  - repeat constructor; try discriminate; simpl; try lia; apply (bool_decide_unpack _); vm_compute; exact I.
  - unfold AUTH_USERS. simpl. lia.
  - constructor.
  - repeat constructor; intros _; eexists; reflexivity.
  - constructor.
  - vm_compute. reflexivity.
Defined.

(** ** Where the module goes wrong *)

(** A client may send a header of 2047 bytes, whose credentials do not fit the array. *)
Lemma long_credentials_overflow auth w :
  sample_authorize (AuthInfo AUTH_HTPASSWD [] (str "a")) (Some (str "Basic " ++ replicate 344 65)) auth w
  = Fault OutOfBounds.
Proof. vm_compute. reflexivity. Qed.

(** The table is one for all websites: who is in the file of one of them gets into the
    others, as long as their files do not change. *)
Lemma users_are_shared :
  let alice := Some (str "Basic " ++ base64_encode (str "alice" ++ c_colon :: str "secret")) in
  match sample_authorize (AuthInfo AUTH_HTPASSWD [] (str "a")) alice (Auth 0 []) tt with
  | Done (auth, true) =>
      ∃ auth', sample_authorize (AuthInfo AUTH_HTPASSWD [] (str "b")) alice auth tt = Done (auth', true)
  | _ => False
  end.
Proof. vm_compute. eexists. reflexivity. Qed.

Lemma line_without_colon_crash auth : read_htpasswd_file (Some (str "alice" ++ [c_lf])) auth = Fault NullDeref.
Proof. reflexivity. Qed.

Lemma hundred_users_overflow auth :
  read_htpasswd_file (Some (concat (replicate 100 (str "a:b" ++ [c_lf])))) auth = Fault OutOfBounds.
Proof. vm_compute. reflexivity. Qed.

(** A line that starts with a colon hides the users behind it. *)
Lemma empty_name_hides u user pass : find_user sample_crypt [AuthUser [] []; u] user pass = Done false.
Proof. reflexivity. Qed.
