(* ===== verification/WebappIn.v ===== *)
(** lib/zimr.c, fourth part: the settings of a website, the requests that come in, and the
    events of the switch to the proxy. *)

From Stdlib Require Import ZArith Lia String.
From stdpp Require Import gmap.
From S2P Require Import FdHash MsgSwitch.
From S2P Require Export WebappFile.

Local Open Scope Z_scope.

Definition ZM_PROXY_DEFAULT_ADDR : bytes := str "127.0.0.1".
Definition ZM_PROXY_DEFAULT_PORT : Z := 7672.

(** ** Settings *)

(** The place for an insertion: [list_size] is unsigned, so that a place before the start
    is taken for one behind the end. *)
Definition insert_pos (pos : Z) (size : nat) : nat :=
  let n := Z.of_nat size in
  let pos := if pos <? 0 then n + pos + 1 else pos in
  if n <? wrap_u32 pos then size else Z.to_nat pos.

Definition list_insert {A} (i : nat) (x : A) (l : list A) : list A := take i l ++ x :: drop i l.

(** A public directory takes the place of another; NULL only removes one. *)
Definition insert_pubdir (pubdir : option bytes) (pos : Z) (l : list bytes) : res (list bytes) :=
  let pos := insert_pos pos (length l) in
  let l := delete pos l in
  let pos := if (length l <? pos)%nat then length l else pos in
  match pubdir with
  | None => Done l
  | Some dir =>
      c ← at_index (last dir);
      Done (list_insert pos (if c =? c_slash then dir else dir ++ [c_slash]) l)
  end.

(** The page that was at the place is freed, but stays in the list behind the new one. *)
Definition insert_default_page (page : bytes) (pos : Z) (l : list (option bytes)) : list (option bytes) :=
  let pos := insert_pos pos (length l) in
  list_insert pos (Some page) (<[pos := None]> l).

Section webapp_in.
Context {W : Type} (ext : call → W → answer * W).
Context (run_callback : nat → conn_ptr → callback_arg → am W unit).
Context (dlsym : nat → bytes → option nat).
Context (ZIMR_VERSION : bytes) (http_date cookie_date log_date : Z → bytes) (max_age_addr : Z).
Context (regex_match : bytes → bytes → bool) (garbage_isdir : bool).
(** [regcomp] takes the expression. *)
Context (regcomp_ok : bytes → bool).
#[local] Notation ask := (Effect.ask ext).
#[local] Notation tell := (Effect.tell ext).
#[local] Notation set_header := (set_header (W := W)).
#[local] Notation cleanup_connection := (cleanup_connection ext run_callback dlsym).
#[local] Notation zimr_website_disable := (zimr_website_disable ext run_callback dlsym).
#[local] Notation zimr_website_enable := (zimr_website_enable ext).
#[local] Notation command_response_handler := (command_response_handler ext run_callback dlsym).
#[local] Notation send_redirect :=
  (zimr_connection_send_redirect ext run_callback dlsym ZIMR_VERSION http_date cookie_date log_date max_age_addr).
#[local] Notation send_file :=
  (zimr_connection_send_file ext run_callback dlsym ZIMR_VERSION http_date cookie_date log_date max_age_addr
     regex_match garbage_isdir).

Definition zimr_website_insert_pubdir (a : nat) (pubdir : option bytes) (pos : Z) : am W unit :=
  d ← data_at a;
  l ← pure (insert_pubdir pubdir pos (pubdirs d));
  upd_data a (λ d, WebsiteData (wd_status d) (proxy_ip d) (proxy_port d) (connection_handler d) (error_handler d)
    (conn_tries d) (redirect_url d) l (default_pages d) (ignored_regexs d) (page_handlers d) (module_data d)
    (wd_connections d)).

Definition zimr_website_insert_default_page (a : nat) (page : bytes) (pos : Z) : am W unit :=
  upd_data a (λ d, WebsiteData (wd_status d) (proxy_ip d) (proxy_port d) (connection_handler d) (error_handler d)
    (conn_tries d) (redirect_url d) (pubdirs d) (insert_default_page page pos (default_pages d)) (ignored_regexs d)
    (page_handlers d) (module_data d) (wd_connections d)).

Definition zimr_website_insert_ignored_regex (a : nat) (regex : bytes) : am W unit :=
  only_if (regcomp_ok regex)
    (upd_data a (λ d, WebsiteData (wd_status d) (proxy_ip d) (proxy_port d) (connection_handler d) (error_handler d)
      (conn_tries d) (redirect_url d) (pubdirs d) (default_pages d) (ignored_regexs d ++ [regex])
      (page_handlers d) (module_data d) (wd_connections d))).

(** The array [page_type] has 10 bytes. *)
Definition zimr_website_register_page_handler (a : nat) (type : bytes) (f : nat) : am W unit :=
  type ← pure (strcpy_into 10 type);
  upd_data a (λ d, WebsiteData (wd_status d) (proxy_ip d) (proxy_port d) (connection_handler d) (error_handler d)
    (conn_tries d) (redirect_url d) (pubdirs d) (default_pages d) (ignored_regexs d)
    (page_handlers d ++ [PageHandler type f]) (module_data d) (wd_connections d)).

Definition zimr_website_set_redirect (a : nat) (url : bytes) : am W unit :=
  let url := if startswith url (str "http://") || startswith url (str "https://") then url
             else str "http://" ++ url in
  upd_data a (λ d, WebsiteData (wd_status d) (proxy_ip d) (proxy_port d) (connection_handler d) (error_handler d)
    (conn_tries d) (Some url) (pubdirs d) (default_pages d) (ignored_regexs d) (page_handlers d) (module_data d)
    (wd_connections d)).

Definition zimr_website_set_proxy (a : nat) (ip : option bytes) (port : Z) : am W unit :=
  d ← data_at a;
  ip ← pure (match ip with Some ip => strcpy_into 16 ip | None => Done (proxy_ip d) end);
  upd_data a (λ d, WebsiteData (wd_status d) ip (if port =? 0 then proxy_port d else port) (connection_handler d)
    (error_handler d) (conn_tries d) (redirect_url d) (pubdirs d) (default_pages d) (ignored_regexs d)
    (page_handlers d) (module_data d) (wd_connections d)).

(** [zimr_website_set_connection_handler], and with [None] the one that unsets it. *)
Definition zimr_website_set_connection_handler (a : nat) (f : option nat) : am W unit :=
  upd_data a (λ d, WebsiteData (wd_status d) (proxy_ip d) (proxy_port d) f (error_handler d)
    (conn_tries d) (redirect_url d) (pubdirs d) (default_pages d) (ignored_regexs d) (page_handlers d) (module_data d)
    (wd_connections d)).
Definition zimr_website_set_error_handler (a : nat) (f : option nat) : am W unit :=
  upd_data a (λ d, WebsiteData (wd_status d) (proxy_ip d) (proxy_port d) (connection_handler d) f
    (conn_tries d) (redirect_url d) (pubdirs d) (default_pages d) (ignored_regexs d) (page_handlers d) (module_data d)
    (wd_connections d)).

Definition new_website_data : website_data_t :=
  WebsiteData WS_STATUS_DISABLED ZM_PROXY_DEFAULT_ADDR ZM_PROXY_DEFAULT_PORT None None 0 None [] [] [] [] []
    (replicate FD_SETSIZE None).

Definition zimr_website_create (url : bytes) : am W nat :=
  s ← get_state;
  '(r, a) ← pure (website_add (a_sites s) (-1) url None);
  _ ← put_state (App r (<[a := new_website_data]> (a_data s)) (a_modules s));
  _ ← zimr_website_insert_pubdir a (Some (str "./")) 0;
  _ ← zimr_website_insert_default_page a (str "default.html") 0;
  _ ← zimr_website_insert_ignored_regex a (str "^zimr\.webapp$");
  _ ← zimr_website_insert_ignored_regex a (str "^zimr\.log$");
  _ ← zimr_website_insert_ignored_regex a (str "^zimr\.request\.log$");
  mret a.

Definition zimr_website_destroy (a : nat) : am W unit :=
  _ ← data_at a;
  _ ← zimr_website_disable a;
  d ← data_at a;
  _ ← call_modules run_callback dlsym (str "modzimr_website_destroy") (module_data d) (a, 0);
  s ← get_state;
  r ← pure (website_remove (a_sites s) a);
  put_state (App r (delete a (a_data s)) (a_modules s)).

(** ** Requests *)

(** The modules see the new connection; [true] when one has answered it. *)
Fixpoint new_connection (l : list module_website_data_t) (a : nat) (msgid : Z) : am W bool :=
  match l with
  | [] => mret false
  | m :: l =>
      x ← module_at (md_module m);
      _ ← (match dlsym (m_handle x) (str "modzimr_connection_new") with
           | Some f => run_callback f (a, msgid) NoArg | None => mret tt end);
      fd ← conn_fd (a, msgid);
      sent ← zimr_website_connection_sent fd msgid;
      if (sent : bool) then mret true else new_connection l a msgid
  end.

(** The address of a redirection: the array has room for it. *)
Definition redirect_target (redirect url : bytes) (params : params_t) : res bytes :=
  let qs_len := params_qs_len params in
  if qs_len =? 0 then Done (redirect ++ url)
  else qs ← params_gen_qs (Z.to_nat (qs_len + 8)) params; Done (redirect ++ url ++ 63 :: qs).

Definition zimr_website_default_connection_handler (p : conn_ptr) : am W unit :=
  url ← conn_url p; send_file p url true.

(** The answer to a new connection. *)
Definition request_answer (a : nat) (msgid : Z) : am W bool :=
  let p := (a, msgid) in
  _ ← upd_web p (response_set_status 200);
  _ ← set_header p (str "Date") [];
  _ ← set_header p (str "Server") [];
  d ← data_at a;
  sent ← new_connection (module_data d) a msgid;
  if sent : bool then mret true
  else
    d ← data_at a;
    _ ← (match redirect_url d, connection_handler d with
         | Some redirect, _ =>
             k ← web_conn p;
             let r := cn_request (wc_conn k) in
             url ← pure (redirect_target redirect (request_url r) (rq_params r));
             send_redirect p url
         | None, Some f => run_callback f p NoArg
         | None, None => zimr_website_default_connection_handler p
         end);
    mret true.

(** What happens to a request that is complete; [false] when it is none. *)
Definition request_complete (a : nat) (msgid : Z) : am W bool :=
  c ← conn_at a msgid;
  w ← site_at a;
  k ← pure (connection_create w msgid (cd_data c) (cd_size c));
  let k := (λ k, WebConn k (Response 0 []) false) <$> k in
  _ ← upd_conn a msgid (put_connection k);
  match k with None => mret false | Some _ => request_answer a msgid end.

Definition zimr_connection_handler (a : nat) (msgid : Z) (buf : bytes) : am W bool :=
  o ← conn_cell a msgid;
  buf ← (match o with
         | Some _ => mret buf
         | None =>
             if (length buf <? 8)%nat then pure (Fault OutOfBounds)
             else
               _ ← put_conn a msgid (Some (ConnData 0 (le_value (take 8 buf)) [] None None (FileRead (-1) 0 0)));
               mret (drop 8 buf)
         end);
  c ← conn_at a msgid;
  if cd_size c <=? size_received c then mret false
  else
    let received := (size_received c + Z.of_nat (length buf)) mod 2 ^ 64 in
    _ ← upd_conn a msgid (put_data received (cd_data c ++ buf));
    if cd_size c <? received then mret false
    else if received =? cd_size c then request_complete a msgid
    else mret true.

(** ** Events *)

(** The array of the read has PACK_DATA_SIZE pointers. *)
Definition msg_event_handler (fd msgid event : Z) : am W unit :=
  a ← site_of fd;
  _ ← data_at a;
  if event =? MSG_EVT_ACCEPT_READY then
    n ← ask (MsgAccept fd msgid);
    only_if (negb (a_ret n =? 0)) (tell (MsgSetRead fd msgid))
  else if event =? MSG_EVT_WRITE_READY then
    if msgid <? 0 then mret tt
    else
      c ← conn_at a msgid;
      only_if (negb (fr_fd (fileread_data c) =? -1))
        (_ ← tell (MsgClrWrite fd msgid); tell (ZfdSet (fr_fd (fileread_data c)) (a, msgid)))
  else if event =? MSG_EVT_READ_READY then
    n ← ask (MsgRead fd msgid (8 * Z.of_nat PACK_DATA_SIZE));
    if a_ret n <=? 0 then cleanup_connection fd msgid
    else
      t ← ask (MsgGetType fd msgid);
      if a_ret t <? 0 then command_response_handler fd msgid (a_bytes n)
      else
        ok ← zimr_connection_handler a msgid (a_bytes n);
        if (ok : bool) then mret tt else cleanup_connection fd msgid
  else if event =? MSG_SWITCH_EVT_IO_ERROR then
    _ ← zimr_website_disable a;
    _ ← zimr_website_enable a;
    mret tt
  else mret tt.

Definition ZIMR_EVENT_ALL_WEBSITES_ENABLED : Z := 8.

(** The loop of [zimr_start] over the websites: how many are enabled. *)
Fixpoint start_websites (l : list nat) (n_enabled : nat) : am W nat :=
  match l with
  | [] => mret n_enabled
  | a :: l =>
      w ← site_at a;
      d ← data_at a;
      if (w_sockfd w =? -1) && (wd_status d =? WS_STATUS_WANT_ENABLE) && negb (conn_tries d =? -1) then
        ok ← zimr_website_enable a;
        d ← data_at a;
        _ ← only_if (negb ok && (conn_tries d =? 0)) (tell (Event ZIMR_EVENT_WEBSITE_ENABLE_FAILED));
        start_websites l n_enabled
      else start_websites l (if wd_status d =? WS_STATUS_ENABLED then S n_enabled else n_enabled)
  end.

(** A round of [zimr_start] between two waits. *)
Definition start_round : am W unit :=
  s ← get_state;
  n ← start_websites (websites (a_sites s)) 0;
  s ← get_state;
  only_if (negb (n =? 0)%nat && (n =? length (websites (a_sites s)))%nat) (tell (Event ZIMR_EVENT_ALL_WEBSITES_ENABLED)).

Definition ZIMR_EVENT_REGISTERING_WEBSITES : Z := 9.

(** What a wait brings: an event of a switch, or that the file [fd], which is watched for
    the connection [p], can be read. *)
Inductive web_event := SwitchEvent (fd msgid event : Z) | FileEvent (fd : Z) (p : conn_ptr).

Definition web_dispatch (e : web_event) : am W unit :=
  match e with
  | SwitchEvent fd msgid event => msg_event_handler fd msgid event
  | FileEvent fd p => zimr_file_handler ext run_callback dlsym fd p
  end.

Fixpoint web_dispatch_all (es : list web_event) : am W unit :=
  match es with [] => mret tt | e :: es => _ ← web_dispatch e; web_dispatch_all es end.

(** The loop of [zimr_start]: the events before each round, as long as the waits bring
    something and there are websites. *)
Fixpoint start_loop (waits : list (list web_event)) : am W unit :=
  match waits with
  | [] => mret tt
  | es :: waits =>
      _ ← web_dispatch_all es;
      _ ← start_round;
      s ← get_state;
      match websites (a_sites s) with [] => mret tt | _ :: _ => start_loop waits end
  end.

Definition zimr_start (waits : list (list web_event)) : am W unit :=
  _ ← tell (Event ZIMR_EVENT_REGISTERING_WEBSITES); start_loop waits.
End webapp_in.
