(* ===== verification/WebappRequest.v ===== *)
(** lib/zimr.c: requests that come in pieces.  However the message of the proxy is cut,
    the handler of the connection puts it together, and hands the whole of it to
    [connection_create] when its last byte is there, and not before. *)

From Stdlib Require Import ZArith Lia String.
From stdpp Require Import gmap.
From S2P Require Import FdHash MsgSwitch.
From S2P Require Export WebappIn.

Local Open Scope Z_scope.

(** ** The state with one connection changed *)

Definition with_conn (s : app_t) (a : nat) (i : nat) (o : option conn_data_t) : app_t :=
  App (a_sites s) (alter (λ d, put_connections (<[i := o]> (wd_connections d)) d) a (a_data s)) (a_modules s).

(** Cell [i] of the website at [a] holds [o]. *)
Definition has_cell (s : app_t) (a i : nat) (o : option conn_data_t) : Prop :=
  (i < FD_SETSIZE)%nat ∧ ∃ d, a_data s !! a = Some d ∧ wd_connections d !! i = Some o.

Lemma with_web_conn_has s a i o o' : has_cell s a i o → has_cell (with_conn s a i o') a i o'.
Proof.
  intros (Hi & d & Hd & Hc). split; [done|]. exists (put_connections (<[i := o']> (wd_connections d)) d). split.
  - simpl. by rewrite lookup_alter_eq, Hd.
  - simpl. apply list_lookup_insert_eq. by eapply lookup_lt_Some.
Qed.

Lemma with_web_conn_twice s a i o o' : with_conn (with_conn s a i o) a i o' = with_conn s a i o'.
Proof.
  unfold with_conn. simpl. f_equal. rewrite alter_alter_eq. apply alter_ext. intros d _.
  unfold put_connections. simpl. by rewrite list_insert_insert_eq.
Qed.

Section cells.
Context {W : Type}.
Implicit Types (s : app_t) (w : W).

Lemma ewp_module_at m x s w (P : module_t → app_t → W → list call → Prop) :
  a_modules s !! m = Some x → P x s w [] → ewp (module_at m) s w P.
Proof. intros Hx HP. unfold module_at. apply ewp_bind, ewp_get. eapply ewp_pure; [by rewrite Hx|done]. Qed.

Lemma ewp_data_at a d s w (P : website_data_t → app_t → W → list call → Prop) :
  a_data s !! a = Some d → P d s w [] → ewp (data_at a) s w P.
Proof.
  intros Hd HP. unfold data_at. apply ewp_bind, ewp_get. eapply ewp_pure; [by rewrite Hd|done].
Qed.

Lemma cell_nat i : (i < FD_SETSIZE)%nat → cell (Z.of_nat i) = Done i.
Proof. intros Hi. rewrite cell_Done by lia. by rewrite Nat2Z.id. Qed.

Lemma ewp_conn_cell a i o s w (P : option conn_data_t → app_t → W → list call → Prop) :
  has_cell s a i o → P o s w [] → ewp (conn_cell a (Z.of_nat i)) s w P.
Proof.
  intros (Hi & d & Hd & Hc) HP. unfold conn_cell. apply ewp_bind. eapply ewp_data_at; [done|].
  apply ewp_bind. eapply ewp_pure; [by apply cell_nat|]. eapply ewp_pure; [by rewrite Hc|done].
Qed.

Lemma ewp_conn_at a i c s w (P : conn_data_t → app_t → W → list call → Prop) :
  has_cell s a i (Some c) → P c s w [] → ewp (conn_at a (Z.of_nat i)) s w P.
Proof.
  intros Hc HP. unfold conn_at. apply ewp_bind. eapply ewp_conn_cell; [done|]. by eapply ewp_pure.
Qed.

Lemma ewp_put_conn a i o o' s w (P : unit → app_t → W → list call → Prop) :
  has_cell s a i o → P tt (with_conn s a i o') w [] → ewp (put_conn a (Z.of_nat i) o') s w P.
Proof.
  intros (Hi & d & Hd & Hc) HP. unfold put_conn. apply ewp_bind. eapply ewp_pure; [by apply cell_nat|].
  unfold upd_data. apply ewp_bind. eapply ewp_data_at; [done|]. apply ewp_bind, ewp_get. apply ewp_put.
  unfold with_conn in HP. by rewrite (alter_alt_Some _ _ _ d Hd) in HP.
Qed.

Lemma ewp_upd_conn a i c f s w (P : unit → app_t → W → list call → Prop) :
  has_cell s a i (Some c) → P tt (with_conn s a i (Some (f c))) w [] → ewp (upd_conn a (Z.of_nat i) f) s w P.
Proof.
  intros Hc HP. unfold upd_conn. apply ewp_bind. eapply ewp_conn_at; [done|]. by eapply ewp_put_conn.
Qed.
Lemma ewp_site_of s sfd a w (P : nat → app_t → W → list call → Prop) :
  website_get_by_sockfd (a_sites s) sfd = Done (Some a) → P a s w [] → ewp (site_of sfd) s w P.
Proof.
  intros Hg HP. unfold site_of. apply ewp_bind, ewp_get, ewp_bind. eapply ewp_pure; [exact Hg|]. by eapply ewp_pure.
Qed.

Lemma ewp_conn_fd s sfd a i w (P : Z → app_t → W → list call → Prop) :
  (∃ r, heap (a_sites s) !! a = Some r ∧ w_sockfd r = sfd) → P sfd s w [] → ewp (conn_fd (a, i)) s w P.
Proof.
  intros (r & Hr & <-) HP. unfold conn_fd, site_at. cbn [fst]. apply ewp_bind, ewp_bind, ewp_get.
  eapply ewp_pure; [by rewrite Hr|]. by apply ewp_ret.
Qed.

Lemma ewp_web_conn s a i c k w (P : web_conn_t → app_t → W → list call → Prop) :
  has_cell s a i (Some c) → cd_connection c = Some k → P k s w [] → ewp (web_conn (a, Z.of_nat i)) s w P.
Proof.
  intros Hc Hk HP. unfold web_conn. cbn [fst snd]. apply ewp_bind. eapply ewp_conn_at; [done|].
  eapply ewp_pure; [by rewrite Hk|done].
Qed.

End cells.

(** ** The pieces of a message *)

Section request.
Context {W : Type} (ext : call → W → answer * W).
Context (run_callback : nat → conn_ptr → callback_arg → am W unit).
Context (dlsym : nat → bytes → option nat).
Context (ZIMR_VERSION : bytes) (http_date cookie_date log_date : Z → bytes) (max_age_addr : Z).
Context (regex_match : bytes → bytes → bool) (garbage_isdir : bool).
#[local] Notation handler := (zimr_connection_handler ext run_callback dlsym ZIMR_VERSION http_date cookie_date
  log_date max_age_addr regex_match garbage_isdir).
#[local] Notation complete := (request_complete ext run_callback dlsym ZIMR_VERSION http_date cookie_date
  log_date max_age_addr regex_match garbage_isdir).

(** The calls of the handler for the pieces, up to the first that is refused. *)
Fixpoint receive (a : nat) (msgid : Z) (pieces : list bytes) : am W bool :=
  match pieces with
  | [] => mret true
  | piece :: pieces =>
      ok ← handler a msgid piece;
      if (ok : bool) then receive a msgid pieces else mret false
  end.

(** A connection that has [got] of a message of [n] bytes. *)
Definition receiving (n : Z) (got : bytes) : conn_data_t :=
  ConnData (Z.of_nat (length got)) n got None None (FileRead (-1) 0 0).

(** The handler with a connection that is there. *)
Lemma handler_next a i n got piece s w :
  has_cell s a i (Some (receiving n got)) → Z.of_nat (length got) < n < 2 ^ 64 →
  Z.of_nat (length (got ++ piece)) <= n →
  handler a (Z.of_nat i) piece s w =
    let s' := with_conn s a i (Some (receiving n (got ++ piece))) in
    if Z.of_nat (length (got ++ piece)) =? n then complete a (Z.of_nat i) s' w else Done (true, s', w, []).
Proof.
  intros Hc Hn Hle. unfold zimr_connection_handler.
  rewrite (em_bind_quiet _ _ s w (Some (receiving n got)) s) by (apply ewp_quiet; by eapply ewp_conn_cell).
  rewrite (em_bind_quiet _ _ s w piece s) by done.
  rewrite (em_bind_quiet _ _ s w (receiving n got) s) by (apply ewp_quiet; by eapply ewp_conn_at).
  cbn [receiving cd_size size_received cd_data]. rewrite (proj2 (Z.leb_gt _ _)) by lia. cbv zeta.
  rewrite Z.mod_small by (rewrite length_app in Hle; lia).
  rewrite (em_bind_quiet _ _ s w tt (with_conn s a i (Some (receiving n (got ++ piece))))).
  2: { apply ewp_quiet. eapply ewp_upd_conn; [done|]. unfold put_data, receiving. cbn. split_and!; try done.
       by rewrite length_app, Nat2Z.inj_add. }
  rewrite length_app, Nat2Z.inj_add in *. rewrite (proj2 (Z.ltb_ge _ _)) by lia. by destruct (_ =? n).
Qed.

(** The first piece brings the length. *)
Lemma handler_first a i n piece rest s w :
  has_cell s a i None → 0 < n < 2 ^ 64 → piece = le_bytes 8 n ++ rest →
  Z.of_nat (length rest) <= n →
  handler a (Z.of_nat i) piece s w =
    let s' := with_conn s a i (Some (receiving n rest)) in
    if Z.of_nat (length rest) =? n then complete a (Z.of_nat i) s' w else Done (true, s', w, []).
Proof.
  intros Hc Hn -> Hle. unfold zimr_connection_handler.
  rewrite (em_bind_quiet _ _ s w None s) by (apply ewp_quiet; by eapply ewp_conn_cell).
  pose proof (le_bytes_length 8 n) as H8. set (s0 := with_conn s a i (Some (receiving n []))).
  assert (has_cell s0 a i (Some (receiving n []))) as Hc0 by (by eapply with_web_conn_has).
  rewrite (em_bind_quiet _ _ s w rest s0).
  2: { rewrite length_app, H8. destruct (Nat.ltb_spec (8 + length rest) 8); [lia|].
       apply ewp_quiet, ewp_bind. eapply ewp_put_conn; [done|]. apply ewp_ret.
       rewrite take_app_length', drop_app_length' by done. rewrite le_value_bytes by (simpl; lia). done. }
  pose proof (handler_next a i n [] rest s0 w Hc0) as H. cbn [app length] in H.
  rewrite <- (with_web_conn_twice s a i (Some (receiving n []))). fold s0. cbv zeta in *.
  rewrite <- H by (cbn; lia). unfold zimr_connection_handler.
  rewrite (em_bind_quiet _ _ s0 w (Some (receiving n [])) s0) by (apply ewp_quiet; by eapply ewp_conn_cell).
  by rewrite (em_bind_quiet _ _ s0 w rest s0) by done.
Qed.

(** The pieces after the first. *)
Lemma receive_rest a i n got pieces m s w :
  has_cell s a i (Some (receiving n got)) → n = Z.of_nat (length m) → n < 2 ^ 64 →
  got ++ concat pieces = m → (length got < length m)%nat → Forall (λ d, d ≠ []) pieces →
  receive a (Z.of_nat i) pieces s w = complete a (Z.of_nat i) (with_conn s a i (Some (receiving n m))) w.
Proof.
  intros Hc -> Hn Hm Hlt Hne. revert got s Hc Hm Hlt.
  induction Hne as [|d l Hd Hne IH]; intros got s Hc Hm Hlt; cbn [concat] in Hm.
  { rewrite app_nil_r in Hm. subst. lia. }
  rewrite app_assoc in Hm. cbn [receive]. set (got' := got ++ d) in *.
  assert (length got' + length (concat l) = length m)%nat as Hlen by (by rewrite <- Hm, length_app).
  destruct (Z.eqb_spec (Z.of_nat (length got')) (Z.of_nat (length m))) as [E|E].
  - assert (l = []) as ->.
    { destruct Hne as [|x l Hx Hne]; [done|]. cbn [concat] in Hlen. rewrite length_app in Hlen.
      destruct x; [done|]. simpl in Hlen. lia. }
    cbn [concat] in Hm. rewrite app_nil_r in Hm. rewrite Hm in *.
    unfold mbind, em_bind at 1. rewrite (handler_next a i _ got d s w) by (fold got'; rewrite ?Hm; done || lia).
    cbv zeta. fold got'. rewrite Hm, Z.eqb_refl.
    destruct (complete _ _ _ _) as [[[[ok s1] w1] l1]|]; [|done]. destruct ok; cbn [receive]; unfold mret, em_ret; by rewrite app_nil_r.
  - rewrite (em_bind_quiet _ _ s w true (with_conn s a i (Some (receiving (Z.of_nat (length m)) got')))).
    + rewrite (IH got'); [by rewrite with_web_conn_twice | by eapply with_web_conn_has | done | lia].
    + rewrite (handler_next a i (Z.of_nat (length m)) got) by (fold got'; done || lia). fold got'. cbv zeta.
      by rewrite (proj2 (Z.eqb_neq _ _)).
Qed.

(** The length at the start of the first piece. *)
Lemma first_piece n m (first : bytes) pieces :
  first ++ concat pieces = le_bytes 8 n ++ m → (8 <= length first)%nat →
  ∃ rest, first = le_bytes 8 n ++ rest ∧ rest ++ concat pieces = m.
Proof.
  intros Hcat H8. pose proof (le_bytes_length 8 n) as Hl8. exists (drop 8 first).
  pose proof (f_equal (take 8) Hcat) as Ht. pose proof (f_equal (drop 8) Hcat) as Hd.
  rewrite take_app_le, take_app_length' in Ht by lia. rewrite drop_app_le, drop_app_length' in Hd by lia.
  rewrite <- Ht at 1. by rewrite take_drop.
Qed.

Lemma receive_message a i rest pieces m s w :
  has_cell s a i None → m ≠ [] → Z.of_nat (length m) < 2 ^ 64 → rest ++ concat pieces = m →
  Forall (λ d, d ≠ []) pieces →
  receive a (Z.of_nat i) ((le_bytes 8 (Z.of_nat (length m)) ++ rest) :: pieces) s w =
    complete a (Z.of_nat i) (with_conn s a i (Some (receiving (Z.of_nat (length m)) m))) w.
Proof.
  intros Hc Hm Hlt Hrest Hne.
  assert (length rest <= length m)%nat as Hle by (rewrite <- Hrest, length_app; lia).
  assert (0 < length m)%nat as Hpos by (destruct m; [done|simpl; lia]).
  pose proof (handler_first a i (Z.of_nat (length m)) _ rest s w Hc ltac:(lia) eq_refl ltac:(lia)) as E.
  cbv zeta in E. cbn [receive]. destruct (Z.eqb_spec (Z.of_nat (length rest)) (Z.of_nat (length m))) as [Hz|Hz].
  - assert (pieces = []) as ->.
    { destruct Hne as [|x l Hx Hne]; [done|]. rewrite <- Hrest in Hz. cbn [concat] in Hz. rewrite !length_app in Hz.
      destruct x; [done|]. simpl in Hz. lia. }
    cbn [concat] in Hrest. rewrite app_nil_r in Hrest. subst rest. unfold mbind, em_bind at 1. rewrite E.
    destruct (complete _ _ _ _) as [[[[ok s1] w1] l1]|]; [|done].
    destruct ok; cbn [receive]; unfold mret, em_ret; by rewrite app_nil_r.
  - rewrite (em_bind_quiet _ _ s w _ _ E).
    rewrite (receive_rest a i (Z.of_nat (length m)) rest pieces m); [by rewrite with_web_conn_twice | by eapply with_web_conn_has | done.. | lia | done].
Qed.

(** C26: a message of the proxy, its length in eight bytes and then its text, reaches the
    application in pieces of any sizes of which the first has at least the length.  As long
    as the text is not complete the handler keeps it and does nothing else; with the last
    byte the request is taken up, with the whole text. *)
Theorem request_reassembled (a i : nat) (first : bytes) (pieces : list bytes) (m : bytes) (s : app_t) (w : W) :
  has_cell s a i None → m ≠ [] → Z.of_nat (length m) < 2 ^ 64 →
  first ++ concat pieces = le_bytes 8 (Z.of_nat (length m)) ++ m → (8 <= length first)%nat →
  Forall (λ d, d ≠ []) pieces →
  receive a (Z.of_nat i) (first :: pieces) s w =
    complete a (Z.of_nat i) (with_conn s a i (Some (receiving (Z.of_nat (length m)) m))) w.
Proof.
  intros Hc Hm Hlt Hcat H8 Hne. destruct (first_piece _ _ _ _ Hcat H8) as (rest & -> & Hrest).
  by apply receive_message.
Qed.
End request.

(** ** A sample application *)

(** Nothing outside answers, and nothing is hooked in. *)
Definition quiet_ext (c : call) (w : unit) : answer * unit := (Answer 0 [] false 0 0 [], w).
Definition no_callback (f : nat) (p : conn_ptr) (arg : callback_arg) : am unit unit := mret tt.
Definition no_symbol (h : nat) (name : bytes) : option nat := None.
Definition no_date (t : Z) : bytes := str "Thu, 01 Jan 1970 12:00:00 GMT".

Definition form_app : app_t :=
  App (Registry true WS_OPTION_PARSE_MULTIPARTS [0%nat] {[0%nat := form_website]} 1) {[0%nat := new_website_data]} ∅.

(** A first piece that is shorter than the length. *)
Lemma request_short_piece :
  zimr_connection_handler quiet_ext no_callback no_symbol (str "1") no_date no_date no_date 0 (λ _ _, false) false
    0 4 [27; 0; 0] form_app tt = Fault OutOfBounds.
Proof. vm_compute. reflexivity. Qed.

Lemma request_reassembled_witness :
  let m := [10; 0; 0; 7; 0] ++ str "POST / HTTP/1.1" ++ CRLF2 ++ str "abc" in
  receive quiet_ext no_callback no_symbol (str "1") no_date no_date no_date 0 (λ _ _, false) false
    0 4 [le_bytes 8 27 ++ take 3 m; take 20 (drop 3 m); drop 23 m] form_app tt =
  request_complete quiet_ext no_callback no_symbol (str "1") no_date no_date no_date 0 (λ _ _, false) false
    0 4 (with_conn form_app 0 4 (Some (receiving 27 m))) tt.
Proof.
  intros m. apply (request_reassembled quiet_ext no_callback no_symbol (str "1") no_date no_date no_date 0 (λ _ _, false)
    false 0 4 (le_bytes 8 27 ++ take 3 m) [take 20 (drop 3 m); drop 23 m] m form_app tt).
  - split; [apply Nat.ltb_lt; vm_compute; reflexivity|]. exists new_website_data. split; reflexivity.
  - discriminate.
  - reflexivity.
  - vm_compute. reflexivity.
  - apply Nat.leb_le. vm_compute. reflexivity.
  - repeat (constructor; [vm_compute; discriminate|]). constructor.
Defined.
