(* ===== verification/Pipeline.v ===== *)
(** The way of a request: the client, zimrd/main.c, lib/zimr.c, connection.c.

    What the proxy writes for a request of a client is cut anew by the message switches
    (msg_switch.c keeps the order of the bytes, not the borders of the writes).  However it
    is cut on both sides, the application makes of it the connection of the request. *)

From Stdlib Require Import ZArith Lia String.
From stdpp Require Import gmap.
From S2P Require Import FdHash MsgSwitch ProxyForward.
From S2P Require Import WebappRequest.

Local Open Scope Z_scope.

(** What a client sends. *)
Definition client_text (escape : Z → bool) (r : get_request) : bytes :=
  str "GET " ++ target_text escape r ++ str " HTTP/" ++ gr_version r ++ HTTP_HDR_ENDL ++ header_text (gr_headers r).

Lemma request_text_client escape r :
  gr_hostname r = [] → request_text escape r = gr_ip r ++ [0] ++ client_text escape r.
Proof. intros H. unfold request_text. by rewrite H. Qed.

(** The connection with the request. *)
Definition connected (m : bytes) (k : connection_t) : conn_data_t :=
  put_connection (Some (WebConn k (Response 0 []) false)) (receiving (Z.of_nat (length m)) m).

Section complete.
Context {W : Type} (ext : call → W → answer * W).
Context (run_callback : nat → conn_ptr → callback_arg → am W unit).
Context (dlsym : nat → bytes → option nat).
Context (ZIMR_VERSION : bytes) (http_date cookie_date log_date : Z → bytes) (max_age_addr : Z).
Context (regex_match : bytes → bytes → bool) (garbage_isdir : bool).

Lemma request_complete_get a i s w website escape r :
  let m := request_text escape r in
  heap (a_sites s) !! a = Some website → (website_path_len website < PATH_MAX)%nat →
  has_cell s a i (Some (receiving (Z.of_nat (length m)) m)) → target_escape escape → good_request escape r →
  ∃ k, reads_get website (Z.of_nat i) escape r k ∧
    request_complete ext run_callback dlsym ZIMR_VERSION http_date cookie_date log_date max_age_addr regex_match
      garbage_isdir a (Z.of_nat i) s w =
    request_answer ext run_callback dlsym ZIMR_VERSION http_date cookie_date log_date max_age_addr regex_match
      garbage_isdir a (Z.of_nat i) (with_conn s a i (Some (connected m k))) w.
Proof.
  intros m Hw Hlen Hc He Hr.
  destruct (connection_create_request website (Z.of_nat i) (Z.of_nat (length m)) escape r [] He Hr Hlen) as (k & E & Hk).
  rewrite app_nil_r in E. exists k. split; [done|]. unfold request_complete.
  rewrite (em_bind_quiet _ _ s w _ s) by (apply ewp_quiet; by eapply ewp_conn_at).
  rewrite (em_bind_quiet _ _ s w website s).
  2: { apply ewp_quiet. unfold site_at. apply ewp_bind, ewp_get. by eapply ewp_pure; [rewrite Hw|]. }
  rewrite (em_bind_quiet _ _ s w (Some k) s) by (apply ewp_quiet; by eapply ewp_pure).
  cbv zeta. by rewrite (em_bind_quiet _ _ s w tt (with_conn s a i (Some (connected m k))))
    by (apply ewp_quiet; by eapply ewp_upd_conn).
Qed.
End complete.

(** C1: a GET request that a client sends in any pieces, the whole of it in the header, is
    forwarded by the proxy; and however the application gets what the proxy has written,
    cut into any pieces of which the first has the length, it answers a connection that has
    the address of the client and the version, the headers, the cookies, the decoded
    parameters and the resolved path of the request. *)
Theorem request_end_to_end (ans : Proxy.call → Proxy.answer) (sockfd site_fd id : Z) (p : proxy_t)
  (c : Proxy.conn_data_t) (exl : Z) (waits : list bytes) (data : bytes) (escape : Z → bool) (r : get_request) :
  let text := client_text escape r in
  answers_ok ans sockfd site_fd id → site_fd ≠ -1 → has_conn p sockfd c → waiting (gr_ip r) c exl [] →
  incomplete [] waits → data ≠ [] → mjoin waits ++ data = text → (length text <= PACK_DATA_SIZE)%nat →
  good_head ans site_fd p (is_https c) exl text (length text) HTTP_GET_TYPE 0 → site_found site_fd p →
  target_escape escape → good_request escape r → gr_hostname r = [] →
  ∃ p' l, exread_all (client ans) (S (length waits)) sockfd p (waits ++ [data]) = Done (tt, p', [], l) ∧
    existsb is_flush l = true ∧
    written site_fd id l = le_bytes 8 (Z.of_nat (length (request_text escape r))) ++ request_text escape r ∧
    ∀ (W : Type) (ext : call → W → answer * W) run_callback dlsym version http_date cookie_date log_date addr regex isdir
      a i s w website first pieces,
    heap (a_sites s) !! a = Some website → (website_path_len website < PATH_MAX)%nat → has_cell s a i None →
    first ++ concat pieces = written site_fd id l → (8 <= length first)%nat → Forall (λ d, d ≠ []) pieces →
    ∃ k, reads_get website (Z.of_nat i) escape r k ∧
      receive ext run_callback dlsym version http_date cookie_date log_date addr regex isdir
        a (Z.of_nat i) (first :: pieces) s w =
      request_answer ext run_callback dlsym version http_date cookie_date log_date addr regex isdir
        a (Z.of_nat i) (with_conn s a i (Some (connected (request_text escape r) k))) w.
Proof.
  intros text Hans Hfd Hc Hw Hi Hd Htext Hlen Hg Hsf He Hr Hh.
  pose proof (request_text_client escape r Hh) as Hm. fold text in Hm.
  assert (Z.of_nat (length (request_text escape r)) < 2 ^ 64) as Hsize.
  { rewrite Hm, !length_app, (go_ip _ _ Hr).
    assert (Z.of_nat PACK_DATA_SIZE < 2 ^ 32) as HP by (apply Z.ltb_lt; vm_compute; reflexivity).
    cbn [length]. lia. }
  destruct (proxy_forwards_wp ans sockfd site_fd id (gr_ip r) p c exl waits data [] (length text) HTTP_GET_TYPE 0)
    as ([] & p' & w' & l & E & -> & Hwr & Hfl & _); try done.
  - apply (go_ip _ _ Hr).
  - by rewrite Htext.
  - by rewrite Htext.
  - rewrite Htext, Z.eqb_refl, take_ge, app_nil_r by done. by rewrite <- Hm.
  - rewrite Htext, take_ge in Hwr by done. rewrite Z.eqb_refl, app_nil_r in Hwr.
    rewrite <- Hm in Hwr.
    exists p', l. rewrite Nat.add_comm in E. split; [exact E|]. split; [exact Hfl|]. split; [exact Hwr|].
    intros W ext run dl v d1 d2 d3 ad rx isd a i s w website first pieces Hsite Hpl Hcell Hcat H8 Hne.
    rewrite Hwr in Hcat. destruct (first_piece _ _ _ _ Hcat H8) as (rest & -> & Hrest).
    assert (request_text escape r ≠ []) as Hnn by (rewrite Hm; intros H; by apply app_nil in H as [_ H]).
    rewrite (receive_message ext run dl v d1 d2 d3 ad rx isd a i rest pieces _ s w Hcell Hnn Hsize Hrest Hne).
    set (s' := with_conn s a i _).
    destruct (request_complete_get ext run dl v d1 d2 d3 ad rx isd a i s' w website escape r) as (k & Hk & Ek);
      try done; [by eapply with_web_conn_has|].
    exists k. split; [done|]. rewrite Ek. unfold s'. by rewrite with_web_conn_twice.
Qed.

(** ** A sample request *)

Definition sample_request : get_request :=
  GetRequest [10; 0; 0; 7] [] (str "/a/../b c.html") [(str "q", str "1&2")] (str "1.1")
    [Header (str "Host") (str "a.org"); Header (str "Cookie") (str "sid=42")].

Definition sample_text : bytes := client_text example_escape sample_request.

(** The application has the website in its only record. *)
Definition sample_app : app_t :=
  App (Registry true WS_OPTION_PARSE_MULTIPARTS [0%nat] {[0%nat := sample_site]} 1) {[0%nat := new_website_data]} ∅.

Lemma sample_request_good : good_request example_escape sample_request.
Proof.
  split; [reflexivity|split|split; [|split]| |split; [|split]|split; [|split]];
    try (apply (bool_decide_unpack _); vm_compute; exact I);
    try (apply Nat.leb_le; vm_compute; reflexivity); try (apply Nat.ltb_lt; vm_compute; reflexivity).
  repeat constructor; try (vm_compute; reflexivity); try discriminate;
    try (apply Nat.ltb_lt; vm_compute; reflexivity); try (apply (bool_decide_unpack _); vm_compute; exact I).
Qed.

Lemma request_end_to_end_witness :
  ∃ p' l, exread_all (client sample_ans) 2 9 sample_proxy [take 30 sample_text; drop 30 sample_text]
            = Done (tt, p', [], l) ∧
    ∃ k, rq_params (cn_request k) = [Param (str "q") (str "1&2") 5 1 true] ∧ request_url (cn_request k) = str "b c.html" ∧
      receive quiet_ext no_callback no_symbol (str "1") no_date no_date no_date 0 (λ _ _, false) false
        0 9 [take 11 (written 5 3 l); drop 11 (written 5 3 l)] sample_app tt =
      request_answer quiet_ext no_callback no_symbol (str "1") no_date no_date no_date 0 (λ _ _, false) false
        0 9 (with_conn sample_app 0 9 (Some (connected (request_text example_escape sample_request) k))) tt.
Proof.
  destruct (request_end_to_end sample_ans 9 5 3 sample_proxy sample_conn 4 [take 30 sample_text] (drop 30 sample_text)
              example_escape sample_request) as (p' & l & E & _ & Hl & H).
  - by split.
  - done.
  - exists 9%nat. by split.
  - by split.
  - split; [done|]. split; [apply Nat.ltb_lt; vm_compute; reflexivity|]. split; [vm_compute; reflexivity|exact I].
  - done.
  - exact (take_drop 30 sample_text).
  - apply Nat.leb_le. vm_compute. reflexivity.
  - split; [vm_compute; reflexivity|apply Nat.leb_le; vm_compute; reflexivity|vm_compute; reflexivity| |reflexivity|done].
    exists (str "a.org/a/../b%20c.html?q=1%262"), [0; 0; 0; 0], 0%nat, sample_site.
    split; [vm_compute; reflexivity|]. split; [done|]. split; [done|]. by split_and!.
  - exists 0%nat, sample_site. by split_and!.
  - repeat split; reflexivity.
  - exact sample_request_good.
  - reflexivity.
  - exists p', l. split; [exact E|].
    destruct (H unit quiet_ext no_callback no_symbol (str "1") no_date no_date no_date 0 (λ _ _, false) false
                0%nat 9%nat sample_app tt sample_site (take 11 (written 5 3 l)) [drop 11 (written 5 3 l)])
      as (k & Hk & Er).
    + reflexivity.
    + apply Nat.ltb_lt. vm_compute. reflexivity.
    + split; [apply Nat.ltb_lt; vm_compute; reflexivity|]. exists new_website_data. split; reflexivity.
    + cbn [concat]. rewrite app_nil_r. apply take_drop.
    + rewrite Hl. apply Nat.leb_le. vm_compute. reflexivity.
    + constructor; [|constructor]. rewrite Hl. vm_compute. discriminate.
    + exists k. split; [rewrite (rg_params _ _ _ _ _ Hk); vm_compute; reflexivity|].
      split; [|exact Er]. rewrite (rg_url _ _ _ _ _ Hk [] (str "/b c.html")); vm_compute; reflexivity.
Defined.
