(* ===== verification/WebappStream.v ===== *)
(** lib/zimr.c: how a file reaches the client.  The switch tells that the client takes
    more, the handler of the file sends the next piece, and so on to the end of the part
    that was asked for; then the file is closed and the connection ends. *)

From Stdlib Require Import ZArith Lia String.
From stdpp Require Import gmap.
From S2P Require Import FdHash MsgSwitch.
From S2P Require Export WebappRequest.

Local Open Scope Z_scope.

(** ** A file that is read *)

(** The position in the file, and how many bytes the next reads give: at most one more than
    the number, and as many as they are asked for when there is no number. *)
Definition file_world : Type := nat * list nat.

(** The file has the bytes [content]; every other call has a fixed answer. *)
Definition file_ext (content : bytes) (ans : call → answer) (c : call) (w : file_world) : answer * file_world :=
  let '(pos, sizes) := w in
  match c with
  | LSeekCur _ => (Answer (Z.of_nat pos) [] false 0 0 [], w)
  | ReadFile _ n =>
      let n := match sizes with k :: _ => Nat.min (Z.to_nat n) (S k) | [] => Z.to_nat n end in
      let data := take n (drop pos content) in
      (Answer (Z.of_nat (length data)) data false 0 0 [], ((pos + length data)%nat, tail sizes))
  | _ => (ans c, w)
  end.

(** The bytes that go to message [id] of the switch [fd]. *)
Definition sent (fd id : Z) (l : list call) : bytes :=
  mjoin (omap (λ c, match c with
                    | MsgWrite f i data => if (f =? fd) && (i =? id) then Some data else None
                    | _ => None
                    end) l).

Lemma sent_app fd id l l' : sent fd id (l ++ l') = sent fd id l ++ sent fd id l'.
Proof. unfold sent. by rewrite omap_app, join_app. Qed.

Section stream.
Context (content : bytes) (ans : call → answer).
Context (run_callback : nat → conn_ptr → callback_arg → am file_world unit).
Context (dlsym : nat → bytes → option nat).
Context (version : bytes) (http_date cookie_date log_date : Z → bytes) (addr : Z) (regex : bytes → bytes → bool) (isdir : bool).
#[local] Notation ext := (file_ext content ans).
#[local] Notation events := (msg_event_handler ext run_callback dlsym version http_date cookie_date log_date addr regex isdir).
#[local] Notation handler := (zimr_file_handler ext run_callback dlsym).

(** The client takes more, and then there is something to read. *)
Definition file_round (sfd : Z) (p : conn_ptr) (ffd : Z) : am file_world unit :=
  _ ← events sfd (snd p) MSG_EVT_WRITE_READY; handler ffd p.

Fixpoint file_rounds (n : nat) (sfd : Z) (p : conn_ptr) (ffd : Z) : am file_world unit :=
  match n with
  | O => mret tt
  | S n => _ ← file_round sfd p ffd; file_rounds n sfd p ffd
  end.

(** Connection [i] of the website at [a], on the switch [sfd], sends the bytes up to [stop]
    of the file [ffd]; nobody waits for its end. *)
Record sending (s : app_t) (sfd : Z) (a i : nat) (ffd : Z) (stop : Z) : Prop := {
  sd_site : website_get_by_sockfd (a_sites s) sfd = Done (Some a);
  sd_record : ∃ w, heap (a_sites s) !! a = Some w ∧ w_sockfd w = sfd;
  sd_modules : ∃ d, a_data s !! a = Some d ∧ module_data d = [];
  sd_conn : ∃ c k, has_cell s a i (Some c) ∧ cd_connection c = Some k ∧ cn_sockfd (wc_conn k) = Z.of_nat i ∧
    onclose_event c = None ∧ fr_fd (fileread_data c) = ffd ∧ ffd ≠ -1 ∧ range_end (fileread_data c) = stop
}.

(** The number of bytes that are asked for. *)
Lemma file_chunk_spec pos stop :
  0 <= pos <= stop → stop < 2 ^ 31 → file_chunk pos stop = Z.min FILE_BUFFER (stop - pos).
Proof.
  intros Hp Hs. unfold file_chunk, FILE_BUFFER. cbv zeta. rewrite Z.mod_small by lia.
  destruct (Z.ltb_spec stop (pos + 2048)); [|lia]. unfold wrap_s32. rewrite Z.mod_small by lia. lia.
Qed.

(** The end of a connection. *)
Lemma cleanup_ends s sfd a i ffd stop w :
  sending s sfd a i ffd stop →
  ewp (cleanup_connection ext run_callback dlsym sfd (Z.of_nat i)) s w (λ _ s' w' l,
    has_cell s' a i None ∧ l = [MsgClose sfd (Z.of_nat i); ZfdClr ffd; CloseFile ffd] ∧ a_sites s' = a_sites s).
Proof.
  intros [Hg Hr (d & Hd & Hm) (c & k & Hc & Hk & Hi & Ho & Hf & Hne & Hs)].
  unfold cleanup_connection. apply ewp_bind. eapply ewp_site_of; [done|]. apply ewp_bind. eapply ewp_data_at; [done|].
  apply ewp_bind, ewp_tell, ewp_bind. unfold cleanup_fileread at 1. apply ewp_bind. destruct w as [pos sizes].
  eapply ewp_conn_at; [done|]. rewrite Hf, (proj2 (Z.eqb_neq _ _)) by done.
  apply ewp_bind, ewp_tell, ewp_bind, ewp_tell. eapply ewp_upd_conn; [done|].
  set (c' := put_fileread _ c). pose proof (with_web_conn_has _ _ _ _ (Some c') Hc) as Hc'.
  assert (∃ d', a_data (with_conn s a i (Some c')) !! a = Some d' ∧ module_data d' = []) as (d' & Hd' & Hm').
  { eexists. cbn [a_data with_conn]. rewrite lookup_alter_eq, Hd. split; [reflexivity|exact Hm]. }
  apply ewp_bind. eapply ewp_data_at; [done|]. rewrite Hm'. apply ewp_bind, ewp_ret.
  apply ewp_bind. eapply ewp_conn_at; [done|]. cbn [onclose_event put_fileread c']. rewrite Ho.
  apply ewp_bind, ewp_ret, ewp_bind. eapply ewp_conn_at; [done|]. eapply ewp_put_conn; [done|].
  split; [by eapply with_web_conn_has|]. by split.
Qed.

Hypothesis Hwrite : ∀ fd id data, a_ret (ans (MsgWrite fd id data)) ≠ -1.

Lemma write_ready_wp s sfd a i ffd stop w :
  sending s sfd a i ffd stop →
  ewp (events sfd (Z.of_nat i) MSG_EVT_WRITE_READY) s w (λ _ s' w' l,
    s' = s ∧ w' = w ∧ l = [MsgClrWrite sfd (Z.of_nat i); ZfdSet ffd (a, Z.of_nat i)]).
Proof.
  intros [Hg Hr (d & Hd & Hm) (c & k & Hc & Hk & Hi & Ho & Hf & Hne & Hs)]. destruct w as [pos sizes].
  unfold msg_event_handler. apply ewp_bind. eapply ewp_site_of; [done|]. apply ewp_bind. eapply ewp_data_at; [done|].
  change (MSG_EVT_WRITE_READY =? MSG_EVT_ACCEPT_READY) with false. rewrite Z.eqb_refl. cbv match.
  rewrite (proj2 (Z.ltb_ge _ _)) by lia. apply ewp_bind. eapply ewp_conn_at; [done|].
  rewrite Hf, (proj2 (Z.eqb_neq _ _)) by done. apply ewp_bind, ewp_tell, ewp_tell. done.
Qed.

(** A call of the handler that has something to send. *)
Lemma file_handler_more s sfd a i ffd stop pos sizes :
  sending s sfd a i ffd stop → Z.of_nat pos < stop <= Z.of_nat (length content) → stop < 2 ^ 31 →
  ewp (handler ffd (a, Z.of_nat i)) s (pos, sizes) (λ _ s' w' l, ∃ n sizes',
    (0 < n)%nat ∧ Z.of_nat (pos + n) <= stop ∧ s' = s ∧ w' = ((pos + n)%nat, sizes') ∧
    sent sfd (Z.of_nat i) l = take n (drop pos content)).
Proof.
  intros [Hg Hr (d & Hd & Hm) (c & k & Hc & Hk & Hi & Ho & Hf & Hne & Hs)] Hpos Hstop.
  unfold zimr_file_handler. apply ewp_bind. eapply ewp_web_conn; [done..|]. rewrite Hi. apply ewp_bind.
  eapply ewp_conn_at; [done|]. rewrite Hs. apply ewp_bind, ewp_tell, ewp_bind. eapply ewp_conn_fd; [done|].
  apply ewp_bind, ewp_tell, ewp_bind, ewp_ask. cbn [file_ext fst snd a_ret]. rewrite file_chunk_spec by lia.
  apply ewp_bind. eapply (ewp_mono _ _ _ (λ _ s1 w1 l1, s1 = s ∧ w1 = (pos, sizes) ∧ sent sfd (Z.of_nat i) l1 = [])).
  { unfold only_if. destruct (_ <? _); [by apply ewp_tell | by apply ewp_ret]. }
  intros _ s1 w1 l1 (-> & -> & Hl1). apply ewp_bind, ewp_ask. unfold FILE_BUFFER. rewrite Z.mod_small by lia.
  cbn [file_ext fst snd a_ret a_bytes]. set (n := Z.to_nat (Z.min 2048 (stop - Z.of_nat pos))).
  set (n' := match sizes with [] => n | k0 :: _ => Nat.min n (S k0) end).
  assert (0 < n' ∧ n' <= n)%nat as [H1 H2] by (subst n'; destruct sizes; lia).
  assert (length (take n' (drop pos content)) = n') as Hl by (rewrite length_take, length_drop; lia). rewrite Hl.
  apply ewp_bind. eapply (ewp_pure _ tt); [by rewrite (proj2 (Nat.leb_le _ _)) by lia|].
  rewrite (proj2 (Z.leb_gt _ _)) by lia. apply ewp_bind, ewp_ask. cbn [file_ext fst snd].
  rewrite (proj2 (Z.eqb_neq _ _)) by apply Hwrite. apply ewp_ret. exists n', (tail sizes).
  split; [done|]. split; [lia|]. split; [done|]. split; [done|].
  rewrite !sent_app, Hl1. unfold sent. cbn. rewrite !Z.eqb_refl. cbn. by rewrite !app_nil_r.
Qed.

(** The call at the end of the part. *)
Lemma file_handler_end s sfd a i ffd stop sizes :
  sending s sfd a i ffd stop → 0 <= stop <= Z.of_nat (length content) → stop < 2 ^ 31 →
  ewp (handler ffd (a, Z.of_nat i)) s (Z.to_nat stop, sizes) (λ _ s' w' l,
    has_cell s' a i None ∧ sent sfd (Z.of_nat i) l = [] ∧ CloseFile ffd ∈ l ∧ MsgClose sfd (Z.of_nat i) ∈ l).
Proof.
  intros Hsend Hr Hstop. pose proof Hsend as [Hg Hrec (d & Hd & Hm) (c & k & Hc & Hk & Hi & Ho & Hf & Hne & Hs)].
  unfold zimr_file_handler. apply ewp_bind. eapply ewp_web_conn; [done..|]. rewrite Hi. apply ewp_bind.
  eapply ewp_conn_at; [done|]. rewrite Hs. apply ewp_bind, ewp_tell, ewp_bind. eapply ewp_conn_fd; [done|].
  apply ewp_bind, ewp_tell, ewp_bind, ewp_ask. cbn [file_ext fst snd a_ret]. rewrite file_chunk_spec by lia.
  apply ewp_bind. eapply (ewp_mono _ _ _ (λ _ s1 w1 l1, s1 = s ∧ w1 = (Z.to_nat stop, sizes) ∧ sent sfd (Z.of_nat i) l1 = [])).
  { unfold only_if. destruct (_ <? _); [by apply ewp_tell | by apply ewp_ret]. }
  intros _ s1 w1 l1 (-> & -> & Hl1). apply ewp_bind, ewp_ask. unfold FILE_BUFFER.
  replace (Z.min 2048 (stop - Z.of_nat (Z.to_nat stop))) with 0 by lia. cbn [file_ext fst snd a_ret a_bytes].
  change (Z.to_nat (0 mod 2 ^ 64)) with 0%nat.
  replace (match sizes with [] => 0%nat | k0 :: _ => Nat.min 0 (S k0) end) with 0%nat by (by destruct sizes).
  cbn [take length]. apply ewp_bind. eapply (ewp_pure _ tt); [done|]. unfold end_connection.
  change (Z.of_nat 0 <=? 0) with true. cbv match. apply ewp_bind. eapply ewp_conn_fd; [done|].
  apply ewp_bind. eapply ewp_web_conn; [done..|]. rewrite Hi.
  eapply ewp_mono; [by eapply cleanup_ends|]. intros _ s2 w2 l2 (Hcell & -> & _). split; [done|].
  split; [rewrite !sent_app, Hl1; done|]. split; set_solver.
Qed.

(** C14: a file is sent to its end.  As long as the client takes what it is sent, and however
    short the reads are, after finitely many rounds, at most one for each byte and one more,
    the bytes from [start] to [stop] have gone out, each once and in order, the file is
    closed, and the connection has ended. *)
Theorem file_sent (s : app_t) (sfd : Z) (a i : nat) (ffd start stop : Z) (sizes : list nat) :
  sending s sfd a i ffd stop → 0 <= start <= stop → stop <= Z.of_nat (length content) → stop < 2 ^ 31 →
  ∃ n s' w' l, file_rounds n sfd (a, Z.of_nat i) ffd s (Z.to_nat start, sizes) = Done (tt, s', w', l) ∧
    Z.of_nat n <= stop - start + 1 ∧
    sent sfd (Z.of_nat i) l = take (Z.to_nat (stop - start)) (drop (Z.to_nat start) content) ∧
    CloseFile ffd ∈ l ∧ MsgClose sfd (Z.of_nat i) ∈ l ∧ has_cell s' a i None.
Proof.
  intros Hs Hstart Hlen Hstop. remember (Z.to_nat (stop - start)) as left eqn:Eleft.
  revert start sizes Hstart Eleft. induction left as [left IH] using lt_wf_ind. intros start sizes Hstart Eleft.
  destruct (decide (start = stop)) as [->|Hne].
  - exists 1%nat. enough (ewp (file_rounds 1 sfd (a, Z.of_nat i) ffd) s (Z.to_nat stop, sizes) (λ _ s' _ l,
      sent sfd (Z.of_nat i) l = [] ∧ CloseFile ffd ∈ l ∧ MsgClose sfd (Z.of_nat i) ∈ l ∧ has_cell s' a i None))
      as ([] & s' & w' & l & E & H1 & H2 & H3 & H4).
    { exists s', w', l. split; [exact E|]. split; [lia|]. split; [|done]. rewrite H1, Eleft.
      by replace (Z.to_nat (stop - stop)) with 0%nat by lia. }
    cbn [file_rounds]. unfold file_round at 1. cbn [snd]. apply ewp_bind, ewp_bind.
    eapply ewp_mono; [by eapply write_ready_wp|]. intros _ s1 w1 l1 (-> & -> & ->).
    eapply ewp_mono; [eapply file_handler_end; [done|lia|done]|]. intros _ s2 w2 l2 (H1 & H2 & H3 & H4).
    apply ewp_ret. rewrite app_nil_r, sent_app, H2. split; [done|]. split; [set_solver|]. split; [set_solver|done].
  - assert (ewp (file_round sfd (a, Z.of_nat i) ffd) s (Z.to_nat start, sizes) (λ _ s' w' l, ∃ n sizes',
      (0 < n)%nat ∧ start + Z.of_nat n <= stop ∧ s' = s ∧ w' = (Z.to_nat (start + Z.of_nat n), sizes') ∧
      sent sfd (Z.of_nat i) l = take n (drop (Z.to_nat start) content)))
      as ([] & s1 & w1 & l1 & E1 & n & sizes' & Hn & Hle & -> & -> & Hl1).
    { unfold file_round. cbn [snd]. apply ewp_bind. eapply ewp_mono; [by eapply write_ready_wp|].
      intros _ s1 w1 l1 (-> & -> & ->). eapply ewp_mono; [eapply file_handler_more; [done|lia|done]|].
      intros _ s2 w2 l2 (n & sizes' & Hn & Hle & -> & -> & Hl). exists n, sizes'. split; [done|]. split; [lia|].
      split; [done|]. split; [f_equal; lia|]. rewrite sent_app. exact Hl. }
    destruct (IH (Z.to_nat (stop - (start + Z.of_nat n))) ltac:(lia) (start + Z.of_nat n) sizes' ltac:(lia) eq_refl)
      as (k & s' & w' & l & E & Hk & Hl & H2 & H3 & H4).
    exists (S k), s', w', (l1 ++ l). split.
    { cbn [file_rounds]. unfold mbind, em_bind at 1. by rewrite E1, E. }
    split; [lia|]. split; [|split; [set_solver|split; [set_solver|done]]].
    rewrite sent_app, Hl1, Hl, Eleft. replace (Z.to_nat (start + Z.of_nat n)) with (Z.to_nat start + n)%nat by lia.
    rewrite <- drop_drop. replace (Z.to_nat (stop - start)) with (n + Z.to_nat (stop - (start + Z.of_nat n)))%nat by lia.
    by rewrite take_take_drop.
Qed.
End stream.

(** ** A sample file *)

Definition download : conn_data_t :=
  ConnData 5 5 [] (Some (WebConn (Connection 4 7 [10; 0; 0; 7] [] (str "1.1") (Request HTTP_GET_TYPE [] 0 [] [] None 0 [] [])
    [] form_website) (Response 200 []) false)) None (FileRead 7 10 2500).

Definition download_app : app_t := with_conn form_app 0 4 (Some download).

Definition sample_file : bytes := replicate 100 65 ++ replicate 2900 66.

Lemma file_sent_witness :
  ∃ n s' w' l, file_rounds sample_file (λ _, Answer 0 [] false 0 0 []) (λ _ _ _, mret tt) no_symbol (str "1")
      no_date no_date no_date 0 (λ _ _, false) false n 3 (0%nat, 4) 7 download_app (10%nat, [5; 0]%nat)
      = Done (tt, s', w', l) ∧
    sent 3 4 l = replicate 90 65 ++ replicate 2400 66 ∧ CloseFile 7 ∈ l.
Proof.
  destruct (file_sent sample_file (λ _, Answer 0 [] false 0 0 []) (λ _ _ _, mret tt) no_symbol (str "1")
    no_date no_date no_date 0 (λ _ _, false) false ltac:(intros; discriminate) download_app 3 0 4 7 10 2500 [5; 0]%nat)
    as (n & s' & w' & l & E & _ & Hl & Hc & _ & _).
  - split.
    + vm_compute. reflexivity.
    + exists form_website. split; reflexivity.
    + eexists. split; vm_compute; reflexivity.
    + exists download. eexists. split.
      * apply with_web_conn_has with (o := None). split; [apply Nat.ltb_lt; vm_compute; reflexivity|].
        exists new_website_data. split; reflexivity.
      * by split_and!.
  - lia.
  - apply Z.leb_le. vm_compute. reflexivity.
  - reflexivity.
  - exists n, s', w', l. split; [exact E|]. split; [|exact Hc]. etransitivity; [exact Hl|]. vm_compute. reflexivity.
Defined.
