(* ===== verification/WebappConfine.v ===== *)
(** lib/zimr.c: which files a request can name.  The path of a request has no segment that
    leads upwards, and the default handler opens only what lies under a public directory. *)

From Stdlib Require Import ZArith Lia String.
From stdpp Require Import gmap.
From S2P Require Import FdHash.
From S2P Require Export WebappRequest.

Local Open Scope Z_scope.

(** ** What is opened *)

(** A file or a directory that is opened is [filepath] under a public directory, or a
    default page there. *)
Definition opens_under (d : website_data_t) (filepath : bytes) (c : call) : Prop :=
  match c with
  | OpenFile path | ReadDir path => ∃ dir page, dir ∈ pubdirs d ∧
      (page = [] ∨ Some page ∈ default_pages d) ∧ path = dir ++ filepath ++ page
  | _ => True
  end.

Section confine.
Context {W : Type} (ext : call → W → answer * W).
Context (run_callback : nat → conn_ptr → callback_arg → am W unit).
Context (dlsym : nat → bytes → option nat).
Context (ZIMR_VERSION : bytes) (http_date cookie_date log_date : Z → bytes) (max_age_addr : Z).
Context (regex_match : bytes → bytes → bool) (garbage_isdir : bool).

Section calls.
Context (P : call → Prop) (Hcallback : ∀ f p arg, emits P (run_callback f p arg)).
(** All but the opening of files and directories; a file is watched only by the handler
    of the switch. *)
Hypothesis HP : ∀ c, match c with OpenFile _ | ReadDir _ | ZfdSet _ _ => True | _ => P c end.

Ltac calling := emitting; try (match goal with |- P ?c => exact (HP c) end).

Lemma emits_site_at a : emits P (site_at a : am W _).
Proof. unfold site_at. calling. Qed.
Lemma emits_data_at a : emits P (data_at a : am W _).
Proof. unfold data_at. calling. Qed.
#[local] Hint Resolve emits_site_at emits_data_at : zimr.
Lemma emits_upd_data a f : emits P (upd_data a f : am W _).
Proof. unfold upd_data. calling. Qed.
Lemma emits_site_of fd : emits P (site_of fd : am W _).
Proof. unfold site_of. calling. Qed.
Lemma emits_conn_cell a i : emits P (conn_cell a i : am W _).
Proof. unfold conn_cell. calling. Qed.
#[local] Hint Resolve emits_upd_data emits_site_of emits_conn_cell : zimr.
Lemma emits_conn_at a i : emits P (conn_at a i : am W _).
Proof. unfold conn_at. calling. Qed.
Lemma emits_put_conn a i o : emits P (put_conn a i o : am W _).
Proof. unfold put_conn. calling. Qed.
#[local] Hint Resolve emits_conn_at emits_put_conn : zimr.
Lemma emits_upd_conn a i f : emits P (upd_conn a i f : am W _).
Proof. unfold upd_conn. calling. Qed.
Lemma emits_web_conn p : emits P (web_conn p : am W _).
Proof. unfold web_conn. calling. Qed.
#[local] Hint Resolve emits_upd_conn emits_web_conn : zimr.
Lemma emits_upd_web p f : emits P (upd_web p f : am W _).
Proof. unfold upd_web. calling. Qed.
Lemma emits_conn_fd p : emits P (conn_fd p : am W _).
Proof. unfold conn_fd. calling. Qed.
#[local] Hint Resolve emits_upd_web emits_conn_fd : zimr.

Lemma emits_cleanup_fileread a i : emits P (cleanup_fileread ext a i).
Proof. unfold cleanup_fileread. cbv zeta. calling. Qed.
Lemma emits_call_modules name l p : emits P (call_modules run_callback dlsym name l p : am W _).
Proof. induction l as [|m l IH]; cbn [call_modules]; calling. Qed.
#[local] Hint Resolve emits_cleanup_fileread emits_call_modules : zimr.
Lemma emits_cleanup fd i : emits P (cleanup_connection ext run_callback dlsym fd i).
Proof. unfold cleanup_connection. calling. Qed.
Lemma emits_sent fd i : emits P (zimr_website_connection_sent fd i : am W _).
Proof. unfold zimr_website_connection_sent. calling. Qed.
#[local] Hint Resolve emits_cleanup emits_sent : zimr.

Lemma emits_set_header p name value : emits P (set_header p name value : am W _).
Proof. unfold set_header. calling. Qed.
Lemma emits_has_header p name : emits P (has_header p name : am W _).
Proof. unfold has_header. calling. Qed.
Lemma emits_write_msg p data : emits P (write_msg ext p data).
Proof. unfold write_msg. calling. Qed.
Lemma emits_end_connection p : emits P (end_connection ext run_callback dlsym p).
Proof. unfold end_connection. calling. Qed.
#[local] Hint Resolve emits_set_header emits_has_header emits_write_msg emits_end_connection : zimr.
Lemma emits_send_status p : emits P (zimr_connection_send_status ext p).
Proof. unfold zimr_connection_send_status. calling. Qed.
Lemma emits_log p : emits P (zimr_log_request ext log_date p).
Proof. unfold zimr_log_request. cbv zeta. calling. Qed.
#[local] Hint Resolve emits_send_status emits_log : zimr.
Lemma emits_send_headers p :
  emits P (zimr_connection_send_headers ext ZIMR_VERSION http_date cookie_date log_date max_age_addr p).
Proof. unfold zimr_connection_send_headers. calling. Qed.
#[local] Hint Resolve emits_send_headers : zimr.
Lemma emits_send p m :
  emits P (zimr_connection_send ext run_callback dlsym ZIMR_VERSION http_date cookie_date log_date max_age_addr p m).
Proof. unfold zimr_connection_send. calling. Qed.
Lemma emits_error_page p code m :
  emits P (send_error_page ext run_callback dlsym ZIMR_VERSION http_date cookie_date log_date max_age_addr p code m).
Proof. unfold send_error_page. calling. Qed.
#[local] Hint Resolve emits_send emits_error_page : zimr.
Lemma emits_send_error p code m :
  emits P (zimr_connection_send_error ext run_callback dlsym ZIMR_VERSION http_date cookie_date log_date max_age_addr
             p code m).
Proof. unfold zimr_connection_send_error. calling. Qed.
Lemma emits_redirect p url :
  emits P (zimr_connection_send_redirect ext run_callback dlsym ZIMR_VERSION http_date cookie_date log_date max_age_addr
             p url).
Proof. unfold zimr_connection_send_redirect. calling. Qed.
#[local] Hint Resolve emits_send_error emits_redirect : zimr.

Lemma emits_conn_url p : emits P (conn_url p : am W _).
Proof. unfold conn_url. calling. Qed.
Lemma emits_dir_entries d path url names : emits P (dir_entries ext regex_match d path url names).
Proof. induction names as [|n names IH]; cbn [dir_entries]; calling. Qed.
Lemma emits_write_all p l : emits P (write_all ext p l).
Proof. induction l as [|x l IH]; cbn [write_all]; calling. Qed.
#[local] Hint Resolve emits_conn_url emits_dir_entries emits_write_all : zimr.
Lemma emits_send_dir p path :
  P (ReadDir path) →
  emits P (zimr_connection_send_dir ext run_callback dlsym ZIMR_VERSION http_date cookie_date log_date max_age_addr
             regex_match p path).
Proof. intros Hpath. unfold zimr_connection_send_dir. cbv zeta. calling. Qed.

Lemma emits_response_header p name : emits P (response_header p name : am W _).
Proof. unfold response_header. calling. Qed.
Lemma emits_request_header p name : emits P (request_header p name : am W _).
Proof. unfold request_header. calling. Qed.
#[local] Hint Resolve emits_response_header emits_request_header : zimr.
Lemma emits_header_or p name value : emits P (header_or p name value : am W _).
Proof. unfold header_or. calling. Qed.
Lemma emits_page_range p size : emits P (page_range p size : am W _).
Proof. unfold page_range. cbv zeta. calling. Qed.
#[local] Hint Resolve emits_header_or emits_page_range emits_send_dir : zimr.
Lemma emits_default_handler p path :
  P (ReadDir path) → P (OpenFile path) →
  emits P (zimr_connection_default_page_handler ext run_callback dlsym ZIMR_VERSION http_date cookie_date log_date
             max_age_addr regex_match p path).
Proof. intros H1 H2. unfold zimr_connection_default_page_handler. cbv zeta. calling. Qed.

#[local] Notation send_found := (send_found ext run_callback dlsym ZIMR_VERSION http_date cookie_date log_date
  max_age_addr regex_match).
#[local] Notation search_pubdirs := (search_pubdirs ext run_callback dlsym ZIMR_VERSION http_date cookie_date log_date
  max_age_addr garbage_isdir).

Lemma emits_send_found p filepath full :
  P (ReadDir full) → P (OpenFile full) → emits P (send_found p filepath full).
Proof. intros H1 H2. pose proof (emits_default_handler p full H1 H2). unfold send_found. calling. Qed.

Lemma emits_search_pubdirs p filepath dirs : emits P (search_pubdirs p filepath dirs).
Proof.
  induction dirs as [|dir dirs IH]; cbn [search_pubdirs]; [calling|]. destruct dirs; calling.
Qed.
Lemma emits_search_default full pages : emits P (search_default ext full pages).
Proof. revert full. induction pages as [|page pages IH]; intros full; cbn [search_default]; calling. Qed.
#[local] Hint Resolve emits_redirect : zimr.

Lemma emits_send_file p filepath use_pubdir :
  (∀ path, P (ReadDir path) ∧ P (OpenFile path)) →
  emits P (zimr_connection_send_file ext run_callback dlsym ZIMR_VERSION http_date cookie_date log_date max_age_addr
             regex_match garbage_isdir p filepath use_pubdir).
Proof.
  intros Hpath. pose proof (λ full, emits_send_found p filepath full (proj1 (Hpath full)) (proj2 (Hpath full))).
  pose proof (emits_search_pubdirs p). pose proof emits_search_default. unfold zimr_connection_send_file. cbv zeta. calling.
Qed.
End calls.

(** ** Where a file is found *)

#[local] Notation search_pubdirs := (search_pubdirs ext run_callback dlsym ZIMR_VERSION http_date cookie_date log_date
  max_age_addr garbage_isdir).

Lemma search_pubdirs_found p filepath dirs s w full isdir s' w' l :
  search_pubdirs p filepath dirs s w = Done (Some (full, isdir), s', w', l) → dirs ≠ [] →
  ∃ dir, dir ∈ dirs ∧ full = dir ++ filepath.
Proof.
  revert s w s' w' l. induction dirs as [|dir dirs IH]; intros s w s' w' l H Hne; [done|]. cbn [search_pubdirs] in H.
  apply em_bind_inv in H as (u & s1 & w1 & l1 & l2 & _ & H & _).
  apply em_bind_inv in H as (path & s2 & w2 & l3 & l4 & E & H & _). unfold pure, strcpy_into in E.
  destruct (_ <? _)%nat; [|done]. injection E as <- <- <- _.
  apply em_bind_inv in H as (st & s3 & w3 & l5 & l6 & _ & H & _). destruct (_ =? 0).
  - injection H as <- <- _ _ _. exists dir. by split; [left|].
  - destruct dirs as [|dir2 dirs].
    + apply em_bind_inv in H as (u2 & s4 & w4 & l7 & l8 & _ & H & _). by injection H.
    + apply IH in H as (dir' & Hd & ->); [|done]. exists dir'. by split; [right|].
Qed.

Lemma search_default_found full pages s w path s' w' l :
  search_default ext full pages s w = Done (path, s', w', l) →
  ∃ page, (page = [] ∨ Some page ∈ pages) ∧ path = full ++ page.
Proof.
  revert s w s' w' l. induction pages as [|page pages IH]; intros s w s' w' l H; cbn [search_default] in H.
  { injection H as <- _ _ _. exists []. split; [by left|]. by rewrite app_nil_r. }
  apply em_bind_inv in H as (pg & s1 & w1 & l1 & l2 & E & H & _).
  destruct page as [pg'|]; [|done]. injection E as <- <- <- _.
  apply em_bind_inv in H as (path' & s2 & w2 & l3 & l4 & E & H & _). unfold pure, strcpy_into in E.
  destruct (_ <? _)%nat; [|done]. injection E as <- <- <- _.
  apply em_bind_inv in H as (st & s3 & w3 & l5 & l6 & _ & H & _). destruct (_ =? 0).
  - injection H as <- _ _ _. exists pg'. split; [right; by left|done].
  - apply IH in H as (pg2 & [->|Hp] & ->); [exists []; by split; [left|] | exists pg2; split; [right; by right|done]].
Qed.

Lemma data_at_inv a s (w : W) d s' w' l :
  data_at a s w = Done (d, s', w', l) → s' = s ∧ w' = w ∧ l = [] ∧ a_data s !! a = Some d.
Proof.
  unfold data_at, mbind, em_bind, get_state, pure. destruct (a_data s !! a) as [d0|]; [|done].
  by intros [= <- <- <- <-].
Qed.

(** A path that is relative is looked up under the public directories only. *)
Lemma send_file_opens a msgid filepath d s w u s' w' l :
  a_data s !! a = Some d → pubdirs d ≠ [] → char_at filepath 0 ≠ c_slash →
  (∀ f p arg, emits (opens_under d filepath) (run_callback f p arg)) →
  zimr_connection_send_file ext run_callback dlsym ZIMR_VERSION http_date cookie_date log_date max_age_addr
    regex_match garbage_isdir (a, msgid) filepath true s w = Done (u, s', w', l) →
  Forall (opens_under d filepath) l.
Proof.
  intros Hd Hdirs Hslash Hcb H. unfold zimr_connection_send_file in H. cbn [fst] in H.
  assert (∀ c, match c with OpenFile _ | ReadDir _ | ZfdSet _ _ => True | _ => opens_under d filepath c end) as HP by (by intros []).
  apply em_bind_inv in H as (d' & s1 & w1 & l1 & l2 & E & H & ->). apply data_at_inv in E as (-> & -> & -> & Hd').
  rewrite Hd in Hd'. injection Hd' as <-. rewrite (proj2 (Z.eqb_neq _ _) Hslash) in H. cbn [andb negb] in H.
  apply em_bind_inv in H as (o & s1 & w1 & l3 & l4 & E & H & ->). apply Forall_app. split; [constructor|].
  apply Forall_app. split; [by eapply emits_search_pubdirs|].
  destruct o as [[full isdir]|]; [|by injection H as _ _ _ <-].
  apply search_pubdirs_found in E as (dir & Hdir & ->); [|done].
  assert (∀ page, page = [] ∨ Some page ∈ default_pages d → ∀ p, emits (opens_under d filepath)
    (send_found ext run_callback dlsym ZIMR_VERSION http_date cookie_date log_date max_age_addr regex_match p filepath
       (dir ++ filepath ++ page))) as Hfound.
  { intros page Hpage p. apply emits_send_found; try done; by exists dir, page. }
  assert (emits (opens_under d filepath) (send_found ext run_callback dlsym ZIMR_VERSION http_date cookie_date log_date
    max_age_addr regex_match (a, msgid) filepath (dir ++ filepath))) as Hplain.
  { pose proof (Hfound [] (or_introl eq_refl) (a, msgid)) as Hx. by rewrite app_nil_r in Hx. }
  destruct isdir; [|by eapply Hplain].
  apply em_bind_inv in H as (c & s2 & w2 & l5 & l6 & E & H & ->). apply Forall_app. split; [by eapply emits_web_conn|].
  cbv zeta in H. apply em_bind_inv in H as (z & s3 & w3 & l7 & l8 & E2 & H & ->).
  apply Forall_app. split; [by eapply emits_pure|]. destruct (negb _).
  { cbv zeta in H. apply em_bind_inv in H as (url & s4 & w4 & l9 & l10 & E3 & H & ->).
    apply Forall_app. split; [by eapply emits_pure|by eapply emits_redirect]. }
  apply em_bind_inv in H as (path & s4 & w4 & l9 & l10 & E3 & H & ->).
  apply Forall_app. split; [by eapply emits_search_default|].
  apply search_default_found in E3 as (page & Hpage & ->). rewrite <- app_assoc in H. by eapply Hfound.
Qed.
End confine.

(** ** The path of a request *)

(** No segment leads upwards, and the path is relative. *)
Definition inner_path (u : bytes) : Prop :=
  char_at u 0 ≠ c_slash ∧ ∀ seg, seg ∈ path_parts u → is_dotdot seg = false.

Lemma segments_app pre sub : last pre = Some c_slash → segments (pre ++ sub) = segments pre ++ segments sub.
Proof.
  induction pre as [|c pre IH]; intros H; [done|]. destruct pre as [|d pre].
  - simpl in H. injection H as ->. reflexivity.
  - rewrite last_cons_cons in H. specialize (IH H). cbn [app] in *. change (segments (c :: ?x)) with
      (if c =? c_slash then [c] :: segments x
       else match segments x with [] => [[c]] | h :: t => (c :: h) :: t end).
    rewrite IH. destruct (c =? c_slash); [done|].
    assert (segments (d :: pre) ≠ []) as Hne.
    { simpl. destruct (d =? c_slash); [done|]. by destruct (segments pre). }
    by destruct (segments (d :: pre)).
Qed.

Lemma norm_ref_out_ok path : path ≠ [] → out_ok (segments (norm_ref path)).
Proof.
  intros Hne. pose proof (norm_fold_out_ok path Hne) as Hok. unfold norm_ref. by rewrite (out_ok_segments _ Hok).
Qed.

(** What is left of a normal path behind a border of its segments. *)
Lemma norm_ref_rest path pre sub :
  norm_ref path = pre ++ sub → last pre = Some c_slash ∨ pre = [] ∧ char_at sub 0 ≠ c_slash → inner_path sub.
Proof.
  intros Hn Hb. destruct (decide (path = [])) as [->|Hne].
  { unfold norm_ref in Hn. simpl in Hn. symmetry in Hn. apply app_nil in Hn as [-> ->].
    split; [done|]. by intros seg ->%list_elem_of_singleton. }
  assert (segments (norm_ref path) = segments pre ++ segments sub) as Hseg.
  { rewrite Hn. destruct Hb as [Hb|[-> _]]; [by apply segments_app|done]. }
  assert (∀ seg, seg ∈ path_parts sub → is_dotdot seg = false) as Hdots.
  { intros seg Hin. destruct sub as [|x sub]; [by apply list_elem_of_singleton in Hin as ->|].
    apply (norm_ref_parts path seg). unfold path_parts. destruct (norm_ref path) eqn:E; [by destruct pre|].
    rewrite Hseg. apply elem_of_app. by right. }
  split; [|exact Hdots]. destruct Hb as [Hb|[_ Hb]]; [|exact Hb]. intros Hx.
  destruct (norm_ref_out_ok path Hne) as (_ & _ & _ & _ & _ & Htail). rewrite Hseg in Htail.
  destruct sub as [|x sub]; [done|]. change (char_at (x :: sub) 0) with x in Hx. subst x.
  destruct (segments pre) as [|h t] eqn:Ep.
  { destruct pre as [|c pre]; [done|]. simpl in Ep. destruct (c =? c_slash); [done|]. by destruct (segments pre). }
  cbn [app tail] in Htail. rewrite Forall_app in Htail. destruct Htail as [_ Ht].
  change (segments (c_slash :: sub)) with ([c_slash] :: segments sub) in Ht. by apply Forall_cons in Ht as [Ht _].
Qed.

(** The border after the path of the website. *)
Definition at_border (pre sub : bytes) : Prop :=
  pre = [] ∨ last pre = Some c_slash ∨ sub = [] ∨ char_at sub 0 = c_slash.

Lemma without_slash_inner path pre sub : norm_ref path = pre ++ sub → at_border pre sub → inner_path (without_slash sub).
Proof.
  intros Hn Hb. destruct sub as [|c sub].
  { split; [done|]. by intros seg ->%list_elem_of_singleton. }
  cbn [without_slash]. destruct (Z.eqb_spec c c_slash) as [->|Hc].
  - apply (norm_ref_rest path (pre ++ [c_slash])).
    + by rewrite Hn, <- app_assoc.
    + left. apply last_snoc.
  - apply (norm_ref_rest path pre); [done|]. destruct Hb as [->|[Hb|[Hb|Hb]]]; [by right|by left|done|].
    by rewrite char_at_head in Hb.
Qed.

Lemma url_decode_cstring cap raw n out :
  Forall is_byte raw → url_decode cap raw n = Done out → cstring out ∧ (length out < cap)%nat.
Proof.
  intros Hr H. destruct (url_decode_string_total raw n Hr) as (out' & E & Hc & _). unfold url_decode in H.
  rewrite E in H. cbn [mbind res_bind] in H. unfold strcpy_into in H.
  destruct (Nat.ltb_spec (length out') cap); [|done]. by injection H as <-.
Qed.

(** The array of the URL holds a normal path. *)
Lemma parse_request_line_url raw full params version rest :
  Forall is_byte raw → parse_request_line raw = Done (Some (full, params, version, rest)) →
  ∃ path, cstr full = norm_ref path ∧ length full = PATH_MAX.
Proof.
  intros Hr H. unfold parse_request_line in H. destruct (strstr _ _) as [tmp|]; [|done].
  destruct (match strnstr (cstr raw) (str "?") _ with Some n => Some n | None => _ end) as [ptr|]; [|done].
  destruct (url_decode PATH_MAX raw ptr) as [urlbuf|] eqn:Eu; [|done]. cbn [mbind res_bind] in H.
  destruct (url_decode_cstring _ _ _ _ Hr Eu) as [Hc Hl].
  destruct (normalize_path (replicate PATH_MAX 0) urlbuf) as [f|] eqn:Ef; [|done]. cbn [mbind res_bind] in H.
  pose proof (normalize_path_run (replicate PATH_MAX 0) urlbuf Hc ltac:(by rewrite length_replicate)) as Hrun.
  assert (cstr f = norm_ref urlbuf) as Hf.
  { destruct (norm_run [] (path_parts urlbuf)) as [segs|] eqn:E; [|congruence].
    destruct Hrun as (buf & Hb & Hcs). rewrite Hb in Ef. injection Ef as <-. by rewrite Hcs, (norm_run_foldl _ _ _ E). }
  apply normalize_path_length in Ef. rewrite length_replicate in Ef.
  rewrite drop_parents_none in H by (rewrite Hf; apply no_parent_prefix). cbn [mbind res_bind] in H.
  exists urlbuf.
  match type of H with (?q ≫= _) = _ => destruct q as [[[ps r0]|]|]; [|done..] end.
  cbn [mbind res_bind] in H. destruct (negb _); [done|]. destruct (strstr _ _); [|done].
  by injection H as <- _ _ _.
Qed.

(** The path of a connection behind the path of its website. *)
Lemma connection_create_url website fd start size c :
  Forall is_byte start → (website_path_len website < PATH_MAX)%nat →
  connection_create website fd start size = Done (Some c) →
  ∃ path, cstr (rq_full_url (cn_request c)) = norm_ref path ∧
    ∀ pre sub, norm_ref path = pre ++ sub → length pre = website_path_len website →
      request_url (cn_request c) = without_slash sub.
Proof.
  intros Hb Hw H. unfold connection_create in H. destruct (_ <? 4)%nat; [done|].
  set (raw := drop (S (length (cstr (drop 4 start)))) (drop 4 start)) in H.
  assert (Forall is_byte raw) as Hraw by (subst raw; by do 2 apply Forall_drop).
  destruct (parse_type raw) as [[type raw2]|] eqn:Et; [|done].
  assert (Forall is_byte raw2) as Hraw2.
  { unfold parse_type in Et. destruct (startswith _ _); [injection Et as _ <-; by apply Forall_drop|].
    destruct (startswith _ _); [|done]. injection Et as _ <-. by apply Forall_drop. }
  destruct (parse_request_line (drop 1 raw2)) as [[[[[full params] version] rest]|]|] eqn:El; [|done..].
  apply parse_request_line_url in El as (path & Hf & Hl); [|by apply Forall_drop].
  cbn [mbind res_bind] in H.
  destruct (url_offset_spec website full) as (off & Hoff & Hsub); [by rewrite Hl|].
  rewrite Hoff in H. cbn [mbind res_bind] in H.
  destruct (headers_parse (cstr rest)) as [headers|]; [|done]. cbn [mbind res_bind] in H.
  destruct (get_header headers (str "Cookie")) as [cookie|]; [|done]. cbn [mbind res_bind] in H.
  match type of H with (?q ≫= _) = _ => destruct q as [[body charset]|]; [|done] end.
  cbn [mbind res_bind] in H. injection H as <-. exists path. split; [exact Hf|].
  intros pre sub Hs Hp. unfold request_url. cbn [cn_request rq_url rq_full_url]. apply (Hsub pre); congruence.
Qed.

(** ** Properties *)

(** C7: a request whose path meets the path of the website at a border of segments
    ([at_border]: the website has no path, or one that ends in a slash, or the request goes
    on with a slash or not at all), whatever bytes the client sends, has a relative path
    without a segment that leads upwards; and without a handler of its own the website
    opens for it only that path under one of its public directories, or a default page
    there, as long as the functions of the application and of the modules that are called
    on the way (for a type of page, an error, the end of the connection) open nothing else.
    Without the border the path may climb: [website_path_climbs]. *)
Theorem request_file_confined {W : Type} (ext : call → W → answer * W)
  (run_callback : nat → conn_ptr → callback_arg → am W unit) dlsym version http_date cookie_date log_date addr regex isdir
  (website : website_t) (fd size : Z) (start pre sub : bytes) (a i : nat) (cd : conn_data_t) (k : web_conn_t)
  (d : website_data_t) (s s' : app_t) (w w' : W) (l : list call) :
  let url := request_url (cn_request (wc_conn k)) in
  Forall is_byte start → connection_create website fd start size = Done (Some (wc_conn k)) →
  (website_path_len website < PATH_MAX)%nat → cstr (rq_full_url (cn_request (wc_conn k))) = pre ++ sub →
  length pre = website_path_len website → at_border pre sub →
  has_cell s a i (Some cd) → cd_connection cd = Some k → a_data s !! a = Some d → pubdirs d ≠ [] →
  (∀ f p arg, emits (opens_under d url) (run_callback f p arg)) →
  zimr_website_default_connection_handler ext run_callback dlsym version http_date cookie_date log_date addr regex isdir
    (a, Z.of_nat i) s w = Done (tt, s', w', l) →
  inner_path url ∧ Forall (opens_under d url) l.
Proof.
  intros url Hb Hk Hw Hfull Hpre Hborder Hc Hcd Hd Hdirs Hcb H.
  destruct (connection_create_url _ _ _ _ _ Hb Hw Hk) as (path & Hp & Hurl). rewrite Hp in Hfull.
  assert (inner_path url) as Hin.
  { unfold url. rewrite (Hurl pre sub Hfull Hpre). by eapply without_slash_inner. }
  split; [exact Hin|]. unfold zimr_website_default_connection_handler in H.
  rewrite (em_bind_quiet _ _ s w url s) in H.
  - eapply send_file_opens; [exact Hd|exact Hdirs|apply Hin|exact Hcb|exact H].
  - apply ewp_quiet. unfold conn_url, web_conn. cbn [fst snd]. apply ewp_bind, ewp_bind.
    eapply ewp_conn_at; [exact Hc|]. eapply ewp_pure; [by rewrite Hcd|]. by apply ewp_ret.
Qed.

(** ** A sample website *)

Definition site_data : website_data_t :=
  WebsiteData WS_STATUS_ENABLED ZM_PROXY_DEFAULT_ADDR ZM_PROXY_DEFAULT_PORT None None 0 None [str "./"]
    [Some (str "default.html")] [] [] [] (replicate FD_SETSIZE None).

(** The website [w] with the connection [c] on message 4. *)
Definition waiting_data (c : connection_t) : conn_data_t :=
  ConnData 0 0 [] (Some (WebConn c (Response 200 []) false)) None (FileRead (-1) 0 0).
Definition site_app (w : website_t) : app_t :=
  App (Registry true 1 [0%nat] {[0%nat := w]} 1) {[0%nat := site_data]} ∅.
Definition site_with (w : website_t) (c : connection_t) : app_t := with_conn (site_app w) 0 4 (Some (waiting_data c)).

Definition serve (s : app_t) : res (unit * app_t * unit * list call) :=
  zimr_website_default_connection_handler quiet_ext no_callback no_symbol (str "1") no_date no_date no_date 0
    (λ _ _, false) false (0%nat, 4) s tt.

(** A run of the website for the bytes of a request opens [path]. *)
Definition opens (w : website_t) (text path : bytes) : bool :=
  match connection_create w 4 text (Z.of_nat (length text)) with
  | Done (Some c) =>
      match serve (site_with w c) with
      | Done (_, _, _, l) => existsb (λ x, match x with OpenFile p => bool_decide (p = path) | _ => false end) l
      | Fault _ => false
      end
  | _ => false
  end.

Definition page_text : bytes :=
  [10; 0; 0; 7; 0] ++ str "GET /a/../../b/c.html HTTP/1.1" ++ HTTP_HDR_ENDL ++ str "Host: example.com" ++ CRLF2.

Lemma request_file_confined_witness :
  ∃ c s' w' l, connection_create form_website 4 page_text (Z.of_nat (length page_text)) = Done (Some c) ∧
    serve (site_with form_website c) = Done (tt, s', w', l) ∧
    inner_path (request_url (cn_request c)) ∧
    Forall (opens_under (put_connections (<[4%nat := Some (waiting_data c)]> (wd_connections site_data)) site_data)
              (request_url (cn_request c))) l.
Proof.
  assert (opens form_website page_text (str "./b/c.html") = true) as H by (vm_compute; reflexivity).
  unfold opens in H. destruct (connection_create form_website 4 page_text _) as [[c|]|] eqn:Ec; [|discriminate H..].
  destruct (serve (site_with form_website c)) as [[[[[] s'] w'] l]|] eqn:E; [|discriminate H].
  exists c, s', w', l. split; [reflexivity|]. split; [exact E|].
  refine (request_file_confined quiet_ext no_callback no_symbol (str "1") no_date no_date no_date 0
      (λ _ _, false) false form_website 4 (Z.of_nat (length page_text)) page_text [] (cstr (rq_full_url (cn_request c)))
      0 4 (waiting_data c) (WebConn c (Response 200 []) false) _ (site_with form_website c) s' tt w' l
      _ Ec _ eq_refl eq_refl _ _ eq_refl _ _ _ E).
  - apply (bool_decide_unpack _). vm_compute. exact I.
  - apply Nat.ltb_lt. vm_compute. reflexivity.
  - by left.
  - apply with_web_conn_has with (o := None). split; [apply Nat.ltb_lt; vm_compute; reflexivity|].
    exists site_data. split; reflexivity.
  - reflexivity.
  - discriminate.
  - intros f p arg. apply emits_ret.
Defined.

(** A website with a path that does not end in a slash gives out what lies beside its
    public directory: the name that continues the path is cut in two. *)
Definition path_website : website_t :=
  Website (str "example.com/x") (str "http://example.com/x") (str "/x") 3 default_ip 1.

Definition climbing_text : bytes :=
  [10; 0; 0; 7; 0] ++ str "GET /x../secret HTTP/1.1" ++ HTTP_HDR_ENDL ++ str "Host: example.com" ++ CRLF2.

Lemma website_path_climbs : opens path_website climbing_text (str "./../secret") = true.
Proof. vm_compute. reflexivity. Qed.

(** The redirection to a directory writes one byte behind its array. *)
Lemma directory_redirect_overflow :
  match connection_create form_website 4 page_text (Z.of_nat (length page_text)) with
  | Done (Some c) =>
      zimr_website_default_connection_handler (λ _ (w : unit), (Answer 0 [] true 0 0 [], w)) no_callback no_symbol (str "1")
        no_date no_date no_date 0 (λ _ _, false) false (0%nat, 4) (site_with form_website c) tt = Fault OutOfBounds
  | _ => False
  end.
Proof. vm_compute. reflexivity. Qed.

(** A path of 254 characters does not fit the array of the search. *)
Definition long_text : bytes :=
  [10; 0; 0; 7; 0] ++ str "GET /" ++ replicate 254 97 ++ str " HTTP/1.1" ++ HTTP_HDR_ENDL ++ str "Host: example.com" ++ CRLF2.

Lemma long_path_overflow :
  match connection_create form_website 4 long_text (Z.of_nat (length long_text)) with
  | Done (Some c) => serve (site_with form_website c) = Fault OutOfBounds
  | _ => False
  end.
Proof. vm_compute. reflexivity. Qed.

(** A default page that takes the place of another leaves the freed one behind it. *)
Lemma default_page_left (page old : bytes) : insert_default_page page 0 [Some old] = [Some page; None].
Proof. reflexivity. Qed.

(** A place before the start is taken for the end. *)
Lemma insert_before_start (size : nat) :
  Z.of_nat size < 2 ^ 30 → insert_pos (- Z.of_nat size - 2) size = size.
Proof.
  intros H. unfold insert_pos. destruct (Z.ltb_spec (- Z.of_nat size - 2) 0); [|lia].
  replace (Z.of_nat size + (- Z.of_nat size - 2) + 1) with (-1) by lia.
  change (wrap_u32 (-1)) with (2 ^ 32 - 1). destruct (Z.ltb_spec (Z.of_nat size) (2 ^ 32 - 1)); [done|lia].
Qed.
