(* ===== verification/WebappAuth.v ===== *)
(** lib/zimr.c and modules/modauth.c together: a website whose first module asks for
    passwords.  On a website without a handler for errors, a request that the module refuses
    ends with the status 401, whatever the outside answers, and no file or directory is
    opened for it; the other requests go on as if the module were not there. *)

From Stdlib Require Import ZArith Lia String.
From stdpp Require Import gmap.
From S2P Require Import FdHash.
From S2P Require Export Modauth WebappRequest WebappConfine.

Local Open Scope Z_scope.

(** Neither a file nor a directory is opened. *)
Definition no_open (c : call) : Prop := match c with OpenFile _ | ReadDir _ => False | _ => True end.

(** ** The connection while it is answered *)

(** Message [i] of the website at [a] has the connection [k], on the switch [fd]; there is
    neither a handler for errors nor one for its end. *)
Record answering (fd : Z) (a i : nat) (ms : list module_website_data_t) (mods : gmap nat module_t) (s : app_t)
  (k : web_conn_t) : Prop := {
  an_site : website_get_by_sockfd (a_sites s) fd = Done (Some a);
  an_record : ∃ w, heap (a_sites s) !! a = Some w ∧ w_sockfd w = fd;
  an_data : ∃ d, a_data s !! a = Some d ∧ error_handler d = None ∧ module_data d = ms;
  an_conn : ∃ c, has_cell s a i (Some c) ∧ cd_connection c = Some k ∧ onclose_event c = None;
  an_id : cn_sockfd (wc_conn k) = Z.of_nat i;
  an_modules : a_modules s = mods
}.

(** The module of an entry is loaded, and has no function of that name. *)
Definition lacks (dlsym : nat → bytes → option nat) (mods : gmap nat module_t) (name : bytes)
  (e : module_website_data_t) : Prop := ∃ x, mods !! md_module e = Some x ∧ dlsym (m_handle x) name = None.

Lemma with_conn_data s a i o d :
  a_data s !! a = Some d →
  a_data (with_conn s a i o) !! a = Some (put_connections (<[i := o]> (wd_connections d)) d).
Proof. intros H. cbn [a_data with_conn]. by rewrite lookup_alter_eq, H. Qed.

Lemma answering_with fd a i ms mods s k k' c :
  answering fd a i ms mods s k → cd_connection c = Some k' → onclose_event c = None →
  cn_sockfd (wc_conn k') = Z.of_nat i → answering fd a i ms mods (with_conn s a i (Some c)) k'.
Proof.
  intros [Hs Hr (d & Hd & He & Hm) (c0 & Hc & _ & _) _ Hmods] Hk Ho Hi. split; try done.
  - exists (put_connections (<[i := Some c]> (wd_connections d)) d). by rewrite (with_conn_data _ _ _ _ _ Hd).
  - exists c. split; [by eapply with_web_conn_has|done].
Qed.

Section answer.
Context {W : Type} (fd : Z) (a i : nat) (ms : list module_website_data_t) (mods : gmap nat module_t).
#[local] Notation p := (a, Z.of_nat i).
#[local] Notation answering := (answering fd a i ms mods).
Implicit Types (s : app_t) (w : W) (k : web_conn_t).

Lemma answering_web_conn s k w (Q : web_conn_t → app_t → W → list call → Prop) :
  answering s k → Q k s w [] → ewp (web_conn p) s w Q.
Proof. intros [? ? ? (c & Hc & Hk & _) ? ?] HQ. by eapply ewp_web_conn. Qed.

Lemma answering_fd s k w (Q : Z → app_t → W → list call → Prop) :
  answering s k → Q fd s w [] → ewp (conn_fd p) s w Q.
Proof. intros [] HQ. by eapply ewp_conn_fd. Qed.

Lemma answering_upd s k f w (Q : unit → app_t → W → list call → Prop) :
  answering s k → cn_sockfd (wc_conn (f k)) = Z.of_nat i →
  (∀ s', answering s' (f k) → Q tt s' w []) → ewp (upd_web p f) s w Q.
Proof.
  intros H Hf HQ. unfold upd_web. apply ewp_bind. eapply answering_web_conn; [exact H|]. cbn [fst snd].
  pose proof H as [_ _ _ (c & Hc & Hk & Ho) _ _]. eapply ewp_upd_conn; [exact Hc|].
  apply HQ. by eapply answering_with.
Qed.

(** The answer: the connection is the same but for the answer and its status. *)
Definition same_request k k' : Prop :=
  cn_sockfd (wc_conn k') = cn_sockfd (wc_conn k) ∧ cn_request (wc_conn k') = cn_request (wc_conn k) ∧
  cn_http_version (wc_conn k') = cn_http_version (wc_conn k).

#[export] Instance same_request_preorder : PreOrder same_request.
Proof. split; [done|]. intros x y z (?&?&?) (?&?&?). split_and!; congruence. Qed.

Lemma answering_set_header s k name value w (Q : unit → app_t → W → list call → Prop) :
  answering s k →
  (∀ s' k', answering s' k' → same_request k k' → http_status (wc_response k') = http_status (wc_response k) →
     Q tt s' w []) →
  after (set_header p name value) s w Q.
Proof.
  intros H HQ. unfold set_header. apply after_bind, after_ewp. eapply answering_web_conn; [exact H|].
  apply after_bind, after_pure. intros [hs o] _. apply after_ewp.
  eapply answering_upd; [exact H|apply H|]. intros s' H'. by eapply HQ.
Qed.

Context (ext : call → W → answer * W).
Context (run_callback : nat → conn_ptr → callback_arg → am W unit).
Context (dlsym : nat → bytes → option nat).
Context (ZIMR_VERSION : bytes) (http_date cookie_date log_date : Z → bytes) (max_age_addr : Z).

Lemma after_tell c s w (Q : unit → app_t → W → list call → Prop) :
  (∀ w', Q tt s w' [c]) → after (Effect.tell ext c) s w Q.
Proof. intros H. by apply after_ewp, ewp_tell. Qed.

Lemma after_ask c s w (Q : answer → app_t → W → list call → Prop) :
  (∀ r w', Q r s w' [c]) → after (Effect.ask ext c) s w Q.
Proof. intros H. by apply after_ewp, ewp_ask. Qed.

Lemma answering_write s k data w (Q : unit → app_t → W → list call → Prop) :
  answering s k → (∀ w', Q tt s w' [MsgWrite fd (Z.of_nat i) data]) → after (write_msg ext p data) s w Q.
Proof.
  intros H HQ. unfold write_msg. apply after_bind, after_ewp. eapply answering_fd; [exact H|].
  apply after_bind, after_ewp. eapply answering_web_conn; [exact H|]. rewrite (an_id _ _ _ _ _ _ _ H). by apply after_tell.
Qed.

Definition status_line (version status : bytes) : bytes :=
  str "HTTP/" ++ version ++ str " " ++ status ++ HTTP_HDR_ENDL.

Lemma answering_send_status s k status w (Q : unit → app_t → W → list call → Prop) :
  answering s k → response_status (http_status (wc_response k)) = Done (Some status) →
  (∀ s' w' k', answering s' k' → same_request k k' →
     Q tt s' w' [MsgWrite fd (Z.of_nat i) (status_line (cn_http_version (wc_conn k)) status)]) →
  after (zimr_connection_send_status ext p) s w Q.
Proof.
  intros H Hst HQ. unfold zimr_connection_send_status. apply after_bind, after_ewp.
  eapply answering_web_conn; [exact H|]. rewrite Hst.
  apply after_bind, after_pure. intros ? [= <-]. apply after_bind, after_pure. intros ? [= <-].
  apply after_bind, after_pure. intros line Hl. unfold strcpy_into in Hl. destruct (_ <? _)%nat; [|done].
  injection Hl as <-.
  apply after_bind. eapply answering_write; [exact H|]. intros w'. apply after_ewp.
  eapply answering_upd; [exact H|apply H|]. intros s' H'. by eapply HQ.
Qed.

Lemma answering_send_headers s k w (Q : unit → app_t → W → list call → Prop) :
  answering s k → (∀ s' w' k' l, answering s' k' → same_request k k' → Forall no_open l → Q tt s' w' l) →
  after (zimr_connection_send_headers ext ZIMR_VERSION http_date cookie_date log_date max_age_addr p) s w Q.
Proof.
  intros H HQ.
  apply (after_mono _ _ _ (λ _ s' w' l, (∃ k', answering s' k' ∧ same_request k k') ∧ Forall no_open l)).
  2:{ intros [] s' w' l [(k' & H' & E) Hl]. by eapply HQ. }
  apply after_emits; [|apply emits_send_headers; by intros []]. unfold zimr_connection_send_headers.
  apply after_bind, after_ask. intros now w1.
  apply after_bind. eapply answering_set_header; [exact H|]. intros s1 k1 H1 E1 _.
  apply after_bind. eapply answering_set_header; [exact H1|]. intros s2 k2 H2 E2 _.
  apply after_bind, after_ewp. eapply answering_web_conn; [exact H2|].
  apply after_bind, after_pure. intros cookies _. apply after_bind.
  apply (after_mono _ _ _ (λ _ s3 w3 l, ∃ k3, answering s3 k3 ∧ same_request k k3)).
  { destruct (negb _).
    - cbn [only_if]. eapply answering_set_header; [exact H2|]. intros s3 k3 H3 E3 _. exists k3. split; [done|].
      by rewrite E1, E2.
    - apply after_ret. exists k2. split; [done|]. by rewrite E1. }
  intros _ s3 w3 l3 (k3 & H3 & E3).
  apply after_bind, after_ewp. eapply answering_web_conn; [exact H3|].
  apply after_bind, after_pure. intros headers _.
  apply after_bind. eapply answering_write; [exact H3|]. intros w4. apply after_bind.
  apply (after_mono _ _ _ (λ _ s' _ _, s' = s3)).
  { unfold zimr_log_request. apply after_bind, after_ask. intros now' w5.
    apply after_bind, after_ewp. eapply answering_web_conn; [exact H3|].
    apply after_bind. unfold site_at. apply after_bind, after_ewp, ewp_get. cbn [fst]. apply after_pure. intros r _.
    cbv zeta. do 3 (apply after_bind, after_pure; intros ? _). by apply after_tell. }
  intros _ ? w5 l5 ->. apply after_ewp. eapply answering_upd; [exact H3|apply H3|].
  intros s' H'. eexists. split; [exact H'|]. by rewrite E3.
Qed.

(** No module waits for the end of a connection. *)
Hypothesis Hclosed : Forall (lacks dlsym mods (str "modzimr_connection_closed")) ms.

Lemma call_modules_none name l q s w :
  a_modules s = mods → Forall (lacks dlsym mods name) l →
  call_modules run_callback dlsym name l q s w = Done (tt, s, w, []).
Proof.
  intros Hs. induction 1 as [|m l (x & Hx & Hm) Hl IH]; [done|]. cbn [call_modules].
  rewrite (em_bind_quiet _ _ s w x s) by (apply ewp_quiet; by eapply ewp_module_at; [rewrite Hs|]).
  rewrite Hm. by rewrite (em_bind_quiet _ _ s w tt s).
Qed.

(** The connection is over. *)
Definition ended (s : app_t) : Prop :=
  website_get_by_sockfd (a_sites s) fd = Done (Some a) ∧ (∃ r, heap (a_sites s) !! a = Some r ∧ w_sockfd r = fd) ∧
  has_cell s a i None.

Lemma answering_cleanup s k w (Q : unit → app_t → W → list call → Prop) :
  answering s k → (∀ s' w' l, ended s' → Forall no_open l → Q tt s' w' l) →
  after (cleanup_connection ext run_callback dlsym fd (Z.of_nat i)) s w Q.
Proof.
  intros H HQ. unfold cleanup_connection. apply after_bind, after_ewp. eapply ewp_site_of; [apply H|].
  pose proof H as [_ _ (d & Hd & _) (c & Hc & Hk & Ho) Hi _].
  apply after_bind, after_ewp. eapply ewp_data_at; [exact Hd|]. apply after_bind, after_tell. intros w1.
  apply after_bind, (after_mono _ _ _ (λ _ s' _ l, answering s' k ∧ Forall no_open l)).
  { apply after_emits; [|apply emits_cleanup_fileread; by intros []]. unfold cleanup_fileread. apply after_bind, after_ewp. eapply ewp_conn_at; [exact Hc|]. cbv zeta.
    destruct (_ =? -1); [by apply after_ret|]. apply after_bind, after_tell. intros w2.
    apply after_bind, after_tell. intros w3. apply after_ewp. eapply ewp_upd_conn; [exact Hc|]. by eapply answering_with. }
  intros _ s1 w2 l1 [H1 Hl1]. pose proof H1 as [Hs1 Hr1 (d1 & Hd1 & _ & Hm1) (c1 & Hc1 & Hk1 & Ho1) _ Hmods1].
  apply after_bind, after_ewp. eapply ewp_data_at; [exact Hd1|]. rewrite Hm1. apply after_bind, after_ewp.
  eexists _, _, _, _. split; [by apply call_modules_none|].
  apply after_bind, after_ewp. eapply ewp_conn_at; [exact Hc1|]. rewrite Ho1. apply after_bind, after_ret.
  apply after_bind, after_ewp. eapply ewp_conn_at; [exact Hc1|]. apply after_ewp.
  eapply ewp_put_conn; [exact Hc1|]. apply HQ.
  - split; [exact Hs1|]. split; [exact Hr1|]. by eapply with_web_conn_has.
  - cbn [app]. rewrite !app_nil_r. by constructor.
Qed.

Lemma ended_sent s w (Q : bool → app_t → W → list call → Prop) :
  ended s → Q true s w [] → ewp (zimr_website_connection_sent fd (Z.of_nat i)) s w Q.
Proof.
  intros (Hs & _ & Hc) HQ. unfold zimr_website_connection_sent. apply ewp_bind. eapply ewp_site_of; [exact Hs|].
  apply ewp_bind. eapply ewp_conn_cell; [exact Hc|]. by apply ewp_ret.
Qed.

Lemma answering_error_page s k code message status w (Q : unit → app_t → W → list call → Prop) :
  answering s k → response_status code = Done (Some status) →
  (∀ s' w' l, ended s' → MsgWrite fd (Z.of_nat i) (status_line (cn_http_version (wc_conn k)) status) ∈ l →
     Forall no_open l → Q tt s' w' l) →
  after (send_error_page ext run_callback dlsym ZIMR_VERSION http_date cookie_date log_date max_age_addr
           p code message) s w Q.
Proof.
  intros H Hst HQ. unfold send_error_page.
  apply after_bind, after_ewp. eapply answering_upd; [exact H|apply H|]. intros s1 H1.
  apply after_bind. eapply answering_set_header; [exact H1|]. intros s2 k2 H2 E2 Es2. rewrite Hst.
  apply after_bind, after_pure. intros ? [= <-]. apply after_bind, after_pure. intros ? [= <-].
  apply after_bind, after_pure. intros sizebuf _.
  apply after_bind. eapply answering_set_header; [exact H2|]. intros s3 k3 H3 E3 Es3.
  assert (response_status (http_status (wc_response k3)) = Done (Some status)) as Hst3 by (by rewrite Es3, Es2).
  apply after_bind. eapply answering_send_status; [exact H3|exact Hst3|]. intros s4 w4 k4 H4 E4.
  apply after_bind. eapply answering_send_headers; [exact H4|]. intros s5 w5 k5 l5 H5 E5 Hl5.
  do 5 (apply after_bind; eapply answering_write; [exact H5|]; intros ?).
  unfold end_connection. apply after_bind, after_ewp. eapply answering_fd; [exact H5|].
  apply after_bind, after_ewp. eapply answering_web_conn; [exact H5|]. rewrite (an_id _ _ _ _ _ _ _ H5).
  eapply answering_cleanup; [exact H5|]. intros s6 w6 l6 H6 Hl6.
  apply HQ; [exact H6| |cbn [app]; constructor; [done|]; apply Forall_app; split; [exact Hl5|]; by repeat constructor].
  assert (cn_http_version (wc_conn k3) = cn_http_version (wc_conn k)) as <-.
  { destruct E3 as (_ & _ & ->). by destruct E2 as (_ & _ & ->). }
  cbn [app]. by left.
Qed.

Lemma answering_error s k code message status w (Q : unit → app_t → W → list call → Prop) :
  answering s k → response_status code = Done (Some status) →
  (∀ s' w' l, ended s' → MsgWrite fd (Z.of_nat i) (status_line (cn_http_version (wc_conn k)) status) ∈ l →
     Forall no_open l → Q tt s' w' l) →
  after (zimr_connection_send_error ext run_callback dlsym ZIMR_VERSION http_date cookie_date log_date max_age_addr
           p code message) s w Q.
Proof.
  intros H Hst HQ. unfold zimr_connection_send_error. apply after_bind, after_ewp.
  eapply answering_web_conn; [exact H|]. pose proof H as [_ _ (d & Hd & He & _) _ _ _].
  apply after_bind, after_ewp. eapply ewp_data_at; [exact Hd|].
  assert ((if wc_sending_error k then None else error_handler d) = None) as -> by (by destruct (wc_sending_error k)).
  apply after_bind, after_ret. by eapply answering_error_page.
Qed.
End answer.

(** ** The module *)

Section guard.
Context (crypt : bytes → bytes → option bytes).
Context {W : Type} (file_mtime : bytes → W → option Z) (file_content : bytes → W → option bytes).
Context (pam_check : bytes → bytes → bytes → W → bool).
Context (ext : call → auth_t * W → answer * (auth_t * W)).
Context (run_callback module_callback : nat → conn_ptr → callback_arg → am (auth_t * W) unit).
Context (dlsym : nat → bytes → option nat).
Context (ZIMR_VERSION : bytes) (http_date cookie_date log_date : Z → bytes) (max_age_addr : Z).
Context (regex_match : bytes → bytes → bool) (garbage_isdir : bool).
Context (fd : Z) (a i : nat) (m h f : nat) (name : bytes) (argv : list bytes) (rest : list module_website_data_t).
Context (mods : gmap nat module_t).
Context (info : auth_info_t).
#[local] Notation p := (a, Z.of_nat i).
#[local] Notation ms := (ModuleData m argv :: rest).
#[local] Notation authorize := (authorize crypt file_mtime file_content pam_check).
#[local] Notation auth_connection_new := (auth_connection_new crypt file_mtime file_content pam_check ext module_callback
  dlsym ZIMR_VERSION http_date cookie_date log_date max_age_addr).
#[local] Notation new_connection := (new_connection run_callback dlsym).
#[local] Notation request_answer := (request_answer ext run_callback dlsym ZIMR_VERSION http_date cookie_date log_date
  max_age_addr regex_match garbage_isdir).
#[local] Notation request_complete := (request_complete ext run_callback dlsym ZIMR_VERSION http_date cookie_date log_date
  max_age_addr regex_match garbage_isdir).

(** The first module is loaded, the library finds its function, and it is the one of
    modauth.c. *)
Hypothesis Hmodule : mods !! m = Some (Module name h).
Hypothesis Hsym : dlsym h (str "modzimr_connection_new") = Some f.
Hypothesis Hrun : ∀ q, run_callback f q NoArg = auth_connection_new info q.
Hypothesis Hclosed : Forall (lacks dlsym mods (str "modzimr_connection_closed")) ms.

(** The module refuses the connection. *)
Definition refuses (k : web_conn_t) (auth : auth_t) (w : W) : Prop :=
  ∃ header auth', get_header (rq_headers (cn_request (wc_conn k))) (str "Authorization") = Done header ∧
    authorize info (h_value <$> header) auth w = Done (auth', false) ∧
    startswith (request_url (cn_request (wc_conn k))) (ai_url info) = true.

Lemma refuses_same k k' auth w : same_request k k' → refuses k auth w → refuses k' auth w.
Proof. intros (_ & E & _) H. unfold refuses in *. by rewrite E. Qed.

Definition status_401 : bytes := str "401 Unauthorized".

Lemma auth_connection_new_refuses s k auth w Q :
  answering fd a i ms mods s k → refuses k auth w →
  (∀ s' w' l, ended fd a i s' →
     MsgWrite fd (Z.of_nat i) (status_line (cn_http_version (wc_conn k)) status_401) ∈ l →
     Forall no_open l → Q tt s' w' l) →
  after (auth_connection_new info p) s (auth, w) Q.
Proof.
  intros H (header & auth' & Hh & Ha & Hu) HQ. unfold auth_connection_new.
  apply after_bind. unfold request_header. apply after_bind, after_ewp. eapply answering_web_conn; [exact H|].
  rewrite Hh. apply after_pure. intros ? [= <-].
  apply after_bind, after_ewp. eexists _, _, _, _. split; [unfold with_auth; rewrite Ha; reflexivity|].
  cbv iota. apply after_bind, after_ewp. unfold conn_url. apply ewp_bind. eapply answering_web_conn; [exact H|].
  apply ewp_ret. rewrite Hu. cbn [only_if].
  apply after_bind. eapply answering_set_header; [exact H|]. intros s1 k1 H1 E1 _.
  eapply answering_error; [exact Hclosed|exact H1|reflexivity|]. intros s2 w2 l2 H2 Hl Hn.
  destruct E1 as (_ & _ & Ev). apply HQ; [exact H2|by rewrite <- Ev|exact Hn].
Qed.

Lemma new_connection_refuses s k auth w Q :
  answering fd a i ms mods s k → refuses k auth w →
  (∀ s' w' l, ended fd a i s' →
     MsgWrite fd (Z.of_nat i) (status_line (cn_http_version (wc_conn k)) status_401) ∈ l →
     Forall no_open l → Q true s' w' l) →
  after (new_connection ms a (Z.of_nat i)) s (auth, w) Q.
Proof.
  intros H Hr HQ. cbn [new_connection md_module]. apply after_bind, after_ewp. eapply ewp_module_at.
  { rewrite (an_modules _ _ _ _ _ _ _ H). exact Hmodule. }
  cbn [m_handle]. rewrite Hsym, Hrun. apply after_bind.
  eapply auth_connection_new_refuses; [exact H|exact Hr|]. intros s1 w1 l1 H1 Hl Hn.
  apply after_bind, after_ewp. eapply ewp_conn_fd; [apply H1|].
  apply after_bind, after_ewp. eapply ended_sent; [exact H1|]. apply after_ret. apply HQ; [exact H1|..];
    by rewrite !app_nil_r.
Qed.

Lemma request_answer_refuses s k auth w Q :
  answering fd a i ms mods s k → refuses k auth w →
  (∀ s' w' l, ended fd a i s' →
     MsgWrite fd (Z.of_nat i) (status_line (cn_http_version (wc_conn k)) status_401) ∈ l →
     Forall no_open l → Q true s' w' l) →
  after (request_answer a (Z.of_nat i)) s (auth, w) Q.
Proof.
  intros H Hr HQ. unfold request_answer. cbv zeta.
  apply after_bind, after_ewp. eapply answering_upd; [exact H|apply H|]. intros s1 H1.
  apply after_bind. eapply answering_set_header; [exact H1|]. intros s2 k2 H2 E2 _.
  apply after_bind. eapply answering_set_header; [exact H2|]. intros s3 k3 H3 E3 _.
  assert (same_request k k3) as E by (transitivity k2; [exact E2|exact E3]).
  pose proof H3 as [_ _ (d & Hd & _ & Hm) _ _ _]. apply after_bind, after_ewp. eapply ewp_data_at; [exact Hd|].
  rewrite Hm. apply after_bind. eapply new_connection_refuses; [exact H3|exact (refuses_same _ _ _ _ E Hr)|].
  intros s4 w4 l4 H4 Hl Hn. apply after_ret. rewrite app_nil_r. cbn [app].
  destruct E as (_ & _ & Ev). apply HQ; [exact H4|by rewrite <- Ev|exact Hn].
Qed.

(** A connection that the module lets in is the business of the next one. *)
Lemma new_connection_admits s k auth w header auth' ok :
  answering fd a i ms mods s k → FL_ISSET (cn_status (wc_conn k)) CONN_STATUS_SENT_HEADERS = false →
  get_header (rq_headers (cn_request (wc_conn k))) (str "Authorization") = Done header →
  authorize info (h_value <$> header) auth w = Done (auth', ok) →
  ok = true ∨ startswith (request_url (cn_request (wc_conn k))) (ai_url info) = false →
  new_connection ms a (Z.of_nat i) s (auth, w) = new_connection rest a (Z.of_nat i) s (auth', w).
Proof.
  intros H Hs Hh Ha Hok. cbn [new_connection md_module].
  rewrite (em_bind_quiet _ _ s (auth, w) (Module name h) s).
  2:{ apply ewp_quiet. eapply ewp_module_at; [rewrite (an_modules _ _ _ _ _ _ _ H); exact Hmodule|done]. }
  cbn [m_handle]. rewrite Hsym, Hrun.
  assert (auth_connection_new info p s (auth, w) = Done (tt, s, (auth', w), [])) as Hauth.
  { unfold auth_connection_new. rewrite (em_bind_quiet _ _ s (auth, w) header s).
    2:{ apply ewp_quiet. unfold request_header. apply ewp_bind. eapply answering_web_conn; [exact H|].
        by eapply ewp_pure. }
    rewrite (em_bind_silent _ _ s (auth, w) ok s (auth', w)) by (unfold with_auth; by rewrite Ha).
    destruct ok; [done|]. destruct Hok as [?|Hu]; [done|].
    rewrite (em_bind_quiet _ _ s (auth', w) (request_url (cn_request (wc_conn k))) s).
    2:{ apply ewp_quiet. unfold conn_url. apply ewp_bind. eapply answering_web_conn; [exact H|]. by apply ewp_ret. }
    by rewrite Hu. }
  rewrite (em_bind_silent _ _ _ _ _ _ _ Hauth).
  rewrite (em_bind_quiet _ _ s (auth', w) fd s) by (apply ewp_quiet; by eapply answering_fd).
  pose proof H as [Hg _ _ (c & Hc & Hk & _) _ _].
  rewrite (em_bind_quiet _ _ s (auth', w) false s); [done|].
  apply ewp_quiet. unfold zimr_website_connection_sent. apply ewp_bind. eapply ewp_site_of; [exact Hg|].
  apply ewp_bind. eapply ewp_conn_cell; [exact Hc|]. apply ewp_bind. eapply ewp_pure; [by rewrite Hk|].
  by apply ewp_ret.
Qed.

(** ** A request *)

Lemma connection_create_id website id start size k :
  connection_create website id start size = Done (Some k) → cn_sockfd k = id.
Proof.
  unfold connection_create. destruct (_ <? 4)%nat; [done|]. cbv zeta.
  destruct (parse_type _) as [[type raw]|]; [|done].
  destruct (parse_request_line _) as [[[[[full params] version] rst]|]|]; [|done..]. cbn [mbind res_bind].
  destruct (url_offset _ _) as [off|]; [|done]. cbn [mbind res_bind].
  destruct (headers_parse _) as [headers|]; [|done]. cbn [mbind res_bind].
  destruct (get_header headers (str "Cookie")) as [cookie|]; [|done]. cbn [mbind res_bind].
  match goal with |- (?q ≫= _) = _ → _ => destruct q as [[body charset]|]; [|done] end.
  cbn [mbind res_bind]. by intros [= <-].
Qed.

(** C9: a website whose first module is modauth.c refuses a request under the protected
    path whose header Authorization the module does not accept, if it has no handler for
    errors ([error_handler d = None]; one would be called in place of the page for the 401,
    and may answer anything), its modules are loaded and none has the function
    modzimr_connection_closed, and the connection has no function for its end either
    ([Hclosed], [onclose_event]; they would run when the connection ends).  Then in every
    run of the handler that got the last byte of the request and that ends without a fault,
    whatever the outside answers and whatever the other functions of the modules and of the
    application do, the client is sent the status 401, the connection is closed, and neither
    a file nor a directory is opened. *)
Theorem auth_guards_site s c website k auth w :
  website_get_by_sockfd (a_sites s) fd = Done (Some a) →
  heap (a_sites s) !! a = Some website → w_sockfd website = fd → a_modules s = mods →
  (∃ d, a_data s !! a = Some d ∧ error_handler d = None ∧ module_data d = ms) →
  has_cell s a i (Some c) → onclose_event c = None →
  connection_create website (Z.of_nat i) (cd_data c) (cd_size c) = Done (Some k) →
  refuses (WebConn k (Response 0 []) false) auth w →
  after (request_complete a (Z.of_nat i)) s (auth, w) (λ handled s' _ l,
    handled = true ∧ has_cell s' a i None ∧
    MsgWrite fd (Z.of_nat i) (status_line (cn_http_version k) status_401) ∈ l ∧ Forall no_open l).
Proof.
  intros Hg Hr Hfd Hmods (d & Hd & He & Hm) Hc Ho Hk Href. unfold request_complete.
  apply after_bind, after_ewp. eapply ewp_conn_at; [exact Hc|].
  apply after_bind. unfold site_at at 1. apply after_bind, after_ewp, ewp_get. rewrite Hr.
  apply after_pure. intros ? [= <-]. rewrite Hk. apply after_bind, after_pure. intros ? [= <-].
  apply after_bind, after_ewp. eapply ewp_upd_conn; [exact Hc|]. cbn [fmap option_fmap option_map app].
  set (k' := WebConn k _ _). set (c' := put_connection (Some k') c).
  eapply request_answer_refuses with (k := k'); [|exact Href|].
  - split.
    + exact Hg.
    + by exists website.
    + exists (put_connections (<[i := Some c']> (wd_connections d)) d). by rewrite (with_conn_data _ _ _ _ _ Hd).
    + exists c'. split; [by eapply with_web_conn_has|done].
    + cbn. by eapply connection_create_id.
    + exact Hmods.
  - intros s' w' l (_ & _ & H') Hl Hn. done.
Qed.
End guard.

(** ** A request without credentials *)

Section sample.
#[local] Notation world := (auth_t * unit)%type.

Definition guard_ext (c : call) (w : world) : answer * world := (Answer 0 [] false 0 0 [], w).
Definition guard_symbol (h : nat) (name : bytes) : option nat :=
  if strcmp_eq name (str "modzimr_connection_new") then Some 7%nat else None.
Definition guard_info : auth_info_t := AuthInfo AUTH_HTPASSWD (str "b/") (str "a").
Definition guard_none (f : nat) (p : conn_ptr) (arg : callback_arg) : am world unit := mret tt.
Definition guard_callback (f : nat) (p : conn_ptr) (arg : callback_arg) : am world unit :=
  auth_connection_new sample_crypt (λ _ _, Some 5) sample_content no_pam guard_ext guard_none guard_symbol (str "1")
    no_date no_date no_date 0 guard_info p.

Definition guard_data : conn_data_t :=
  ConnData (Z.of_nat (length page_text)) (Z.of_nat (length page_text)) page_text None None (FileRead (-1) 0 0).
Definition guarded_data : website_data_t :=
  WebsiteData WS_STATUS_ENABLED ZM_PROXY_DEFAULT_ADDR ZM_PROXY_DEFAULT_PORT None None 0 None [str "./"]
    [Some (str "default.html")] [] [] [ModuleData 0 []] (replicate FD_SETSIZE None).
Definition guarded_app : app_t :=
  with_conn (App (Registry true 1 [0%nat] {[0%nat := form_website]} 1) {[0%nat := guarded_data]} {[0%nat := Module (str "auth") 3]}) 0 4 (Some guard_data).

Definition guarded_run : res (bool * app_t * world * list call) :=
  request_complete guard_ext guard_callback guard_symbol (str "1") no_date no_date no_date 0 (λ _ _, false) false
    0 4 guarded_app (Auth 0 [], tt).

Lemma guarded_run_done : ∃ b s' w' l, guarded_run = Done (b, s', w', l).
Proof.
  assert (match guarded_run with Done _ => true | Fault _ => false end = true) as H by (vm_compute; reflexivity).
  destruct guarded_run as [[[[b s'] w'] l]|]; [by exists b, s', w', l|discriminate H].
Qed.

Lemma auth_guards_site_witness :
  ∃ b s' w' l, guarded_run = Done (b, s', w', l) ∧ b = true ∧ has_cell s' 0 4 None ∧
    MsgWrite (w_sockfd form_website) 4 (status_line (str "1.1") status_401) ∈ l ∧ Forall no_open l.
Proof.
  destruct guarded_run_done as (b & s' & w' & l & E). exists b, s', w', l. split; [exact E|].
  assert (∃ k, connection_create form_website 4 page_text (Z.of_nat (length page_text)) = Done (Some k) ∧
    cn_http_version k = str "1.1" ∧
    refuses sample_crypt (λ _ (_ : unit), Some 5) sample_content no_pam guard_info (WebConn k (Response 0 []) false)
      (Auth 0 []) tt) as (k & Hk & Hv & Hr).
  { eexists. split; [vm_compute; reflexivity|]. split; [vm_compute; reflexivity|].
    exists None, (Auth 0 []). split; [vm_compute; reflexivity|]. split; vm_compute; reflexivity. }
  rewrite <- Hv.
  refine (auth_guards_site sample_crypt (λ _ _, Some 5) sample_content no_pam guard_ext guard_callback guard_none
    guard_symbol (str "1") no_date no_date no_date 0 (λ _ _, false) false (w_sockfd form_website) 0 4 0 3 7 (str "auth") [] []
    {[0%nat := Module (str "auth") 3]} guard_info eq_refl eq_refl _ _ guarded_app guard_data form_website k (Auth 0 []) tt _ eq_refl eq_refl eq_refl _ _ eq_refl Hk Hr
    b s' w' l E).
  - reflexivity.
  - constructor; [|constructor]. exists (Module (str "auth") 3). split; reflexivity.
  - reflexivity.
  - eexists. split; [reflexivity|]. split; reflexivity.
  - apply with_web_conn_has with (o := None). split; [apply Nat.ltb_lt; vm_compute; reflexivity|].
    exists guarded_data. split; reflexivity.
Defined.
End sample.
