(* ===== verification/WebappStart.v ===== *)
(** lib/zimr.c, last part: the modules that are loaded, the configuration of an
    application, and the start and the end of the library.

    A module is a shared object: [dlopen], its symbols and its functions are the outside.
    The [module_t] records are on the heap of the application ([a_modules]), since the
    websites keep pointers to them; the use of one that was freed is a fault.  The array for
    the file name of a module has the size that the code gives it. *)

From Stdlib Require Import ZArith Lia String.
From stdpp Require Import gmap.
From S2P Require Import FdHash Zcnf.
From S2P Require Export WebappRequest.

Local Open Scope Z_scope.

(** ** State *)

Definition ZM_MODULE_NAME_MAX_LEN : nat := 100.
Definition ZM_USR_MODULE_DIR : bytes := str "~/.zimr/modules/".
Definition ENOENT : Z := 2.

Definition ZIMR_EVENT_INITIALIZING : Z := 1.
Definition ZIMR_EVENT_MODULE_LOADING : Z := 2.
Definition ZIMR_EVENT_MODULE_LOAD_FAILED : Z := 3.
Definition ZIMR_EVENT_WEBSITE_MODULE_INIT : Z := 6.
Definition ZIMR_EVENT_WEBSITE_MODULE_INIT_FAILED : Z := 7.
Definition ZIMR_EVENT_LOADING_CNF : Z := 10.
Definition ZIMR_EVENT_RESTART_REQUEST : Z := 11.

Record lib_t := Lib {
  lb_app : app_t;
  lb_initialized : bool;
  loaded_modules : list nat;
  next_module : nat;
  reqlogfd : Z
}.

Definition put_app (v : app_t) (s : lib_t) : lib_t :=
  Lib v (lb_initialized s) (loaded_modules s) (next_module s) (reqlogfd s).
Definition put_initialized (v : bool) (s : lib_t) : lib_t :=
  Lib (lb_app s) v (loaded_modules s) (next_module s) (reqlogfd s).
Definition put_loaded (v : list nat) (s : lib_t) : lib_t :=
  Lib (lb_app s) (lb_initialized s) v (next_module s) (reqlogfd s).
Definition put_reqlogfd (v : Z) (s : lib_t) : lib_t :=
  Lib (lb_app s) (lb_initialized s) (loaded_modules s) (next_module s) v.
Definition put_heap (v : gmap nat module_t) (s : app_t) : app_t := App (a_sites s) (a_data s) v.
Definition put_module (m : nat) (o : option module_t) (s : lib_t) : lib_t :=
  put_app (put_heap (partial_alter (λ _, o) m (a_modules (lb_app s))) (lb_app s)) s.

Definition put_modules (v : list module_website_data_t) (d : website_data_t) : website_data_t :=
  WebsiteData (wd_status d) (proxy_ip d) (proxy_port d) (connection_handler d) (error_handler d) (conn_tries d)
    (redirect_url d) (pubdirs d) (default_pages d) (ignored_regexs d) (page_handlers d) v (wd_connections d).

(** The functions of a module that do not get a connection. *)
Inductive module_arg := InitArg | DestroyArg | ErrArg | WebsiteInitArg (a : nat) (argv : list bytes).

Notation lm W := (em lib_t W call).

(** A computation on the websites. *)
Definition lift {W A} (m : am W A) : lm W A := fun s w =>
  match m (lb_app s) w with Done (x, a, w, l) => Done (x, put_app a s, w, l) | Fault f => Fault f end.

(** The part of a list before the first element that passes the test, the element, and
    the part behind it. *)
Fixpoint split_first {A} (test : A → bool) (l : list A) : option (list A * A * list A) :=
  match l with
  | [] => None
  | x :: l =>
      if test x then Some ([], x, l)
      else match split_first test l with Some (before, y, behind) => Some (x :: before, y, behind) | None => None end
  end.

Section start.
Context {W : Type} (ext : call → W → answer * W).
Context (run_callback : nat → conn_ptr → callback_arg → am W unit).
Context (dlsym : nat → bytes → option nat).
Context (regcomp_ok : bytes → bool).
(** The functions of the modules, with the truth of what they give; the home directories. *)
Context (run_module : nat → module_arg → lm W bool) (getpwuid : Z → option bytes) (uid : Z).
#[local] Notation ask := (Effect.ask ext).
#[local] Notation tell := (Effect.tell ext).

Definition upd (f : lib_t → lib_t) : lm W unit := s ← get_state; put_state (f s).

(** ** Modules *)

(** The loop over the loaded modules. *)
Fixpoint find_module (name : bytes) (l : list nat) : lm W (option nat) :=
  match l with
  | [] => mret None
  | m :: l => x ← lift (module_at m); if strcmp_eq name (m_name x) then mret (Some m) else find_module name l
  end.

(** [dlopen] on the search path of the system, and then in the directory of the user. *)
Definition open_module (file : bytes) : lm W (option nat) :=
  h ← ask (DlOpen file);
  if negb (a_ret h =? 0) then mret (Some (Z.to_nat (a_ret h)))
  else
    dir ← pure (expand_tilde getpwuid ZM_USR_MODULE_DIR 256 uid);
    dir ← pure (at_index dir);
    full ← pure (strcpy_into 256 (dir ++ file));
    h ← ask (DlOpen full);
    mret (if negb (a_ret h =? 0) then Some (Z.to_nat (a_ret h)) else None).

Definition malloc_module (x : module_t) : lm W nat :=
  s ← get_state;
  let m := next_module s in
  _ ← put_state (put_module m (Some x) (Lib (lb_app s) (lb_initialized s) (loaded_modules s ++ [m]) (S m) (reqlogfd s)));
  mret m.

(** [modzimr_err_occured], if the module has it. *)
Definition err_occured (h : nat) : lm W bool :=
  match dlsym h (str "modzimr_err_occured") with Some f => run_module f ErrArg | None => mret false end.

(** The new record of a library that was opened; the module starts. *)
Definition add_module (module_name : bytes) (h : nat) : lm W (option nat) :=
  m ← malloc_module (Module module_name h);
  match dlsym h (str "modzimr_init") with
  | None => mret (Some m)
  | Some f =>
      _ ← run_module f InitArg;
      bad ← err_occured h;
      if (bad : bool) then
        _ ← tell (ModuleEvent ZIMR_EVENT_MODULE_LOAD_FAILED module_name);
        mret None
      else mret (Some m)
  end.

(** The array has six bytes more than the name, and so none for the terminator. *)
Definition zimr_load_module (module_name : bytes) : lm W (option nat) :=
  if (ZM_MODULE_NAME_MAX_LEN <=? length module_name)%nat then mret None
  else
    s ← get_state;
    o ← find_module module_name (loaded_modules s);
    match o with
    | Some m => mret (Some m)
    | None =>
        _ ← tell (ModuleEvent ZIMR_EVENT_MODULE_LOADING module_name);
        file ← pure (strcpy_into (length module_name + 6) (str "mod" ++ module_name ++ str ".so"));
        o ← open_module file;
        match o with None => mret None | Some h => add_module module_name h end
    end.

(** The modules without the first of that name. *)
Fixpoint without_module (name : bytes) (l : list nat) : lm W (list nat) :=
  match l with
  | [] => mret []
  | m :: l =>
      x ← lift (module_at m);
      if strcmp_eq name (m_name x) then mret l else l ← without_module name l; mret (m :: l)
  end.

Definition zimr_unload_module (module : option nat) : lm W unit :=
  m ← pure (deref module);
  x ← lift (module_at m);
  s ← get_state;
  l ← without_module (m_name x) (loaded_modules s);
  _ ← upd (put_loaded l);
  _ ← (match dlsym (m_handle x) (str "modzimr_destroy") with
       | Some f => _ ← run_module f DestroyArg; mret tt
       | None => mret tt
       end);
  _ ← tell (DlClose (m_handle x));
  upd (put_module m None).

(** The array of the arguments has ZM_MODULE_MAX_ARGS pointers. *)
Definition zimr_website_load_module (a : nat) (module : option nat) (argv : list bytes) : lm W unit :=
  _ ← lift (data_at a);
  m ← pure (deref module);
  x ← lift (module_at m);
  _ ← lift (site_at a);
  _ ← tell (ModuleEvent ZIMR_EVENT_WEBSITE_MODULE_INIT (m_name x));
  argv ← pure (if (ZM_MODULE_MAX_ARGS <? length argv)%nat then Fault OutOfBounds else Done argv);
  _ ← lift (upd_data a (λ d, put_modules (module_data d ++ [ModuleData m argv]) d));
  match dlsym (m_handle x) (str "modzimr_website_init") with
  | None => mret tt
  | Some f =>
      _ ← run_module f (WebsiteInitArg a argv);
      bad ← err_occured (m_handle x);
      only_if bad (tell (ModuleEvent ZIMR_EVENT_WEBSITE_MODULE_INIT_FAILED (m_name x)))
  end.

(** The entries of a website up to the first of the module: their names are read behind
    the pointers. *)
Fixpoint find_entry (name : bytes) (l : list module_website_data_t)
  : lm W (option (list module_website_data_t * module_website_data_t)) :=
  match l with
  | [] => mret None
  | e :: l =>
      x ← lift (module_at (md_module e));
      if strcmp_eq (m_name x) name then mret (Some (l, e))
      else o ← find_entry name l; mret ((λ '(rest, e'), (e :: rest, e')) <$> o)
  end.

(** Takes the module from each of the websites; the arrays have ten cells. *)
Fixpoint detach_module (name : bytes) (l : list nat) (k : list (nat * module_website_data_t))
  : lm W (list (nat * module_website_data_t)) :=
  match l with
  | [] => mret k
  | a :: l =>
      d ← lift (data_at a);
      o ← find_entry name (module_data d);
      match o with
      | None => detach_module name l k
      | Some (rest, e) =>
          _ ← lift (upd_data a (put_modules rest));
          x ← lift (module_at (md_module e));
          _ ← (match dlsym (m_handle x) (str "modzimr_website_destroy") with
               | Some f => lift (run_callback f (a, 0) NoArg) | None => mret tt end);
          _ ← pure (if (10 <=? length k)%nat then Fault OutOfBounds else Done tt);
          detach_module name l (k ++ [(a, e)])
      end
  end.

Fixpoint attach_module (module : option nat) (k : list (nat * module_website_data_t)) : lm W unit :=
  match k with
  | [] => mret tt
  | (a, e) :: k => _ ← zimr_website_load_module a module (md_argv e); attach_module module k
  end.

Definition zimr_reload_module (module_name : bytes) : lm W unit :=
  s ← get_state;
  k ← detach_module module_name (websites (a_sites (lb_app s))) [];
  old ← zimr_load_module module_name;
  _ ← zimr_unload_module old;
  module ← zimr_load_module module_name;
  attach_module module k.

(** ** The configuration *)

#[local] Notation enable := (zimr_website_enable ext).
#[local] Notation create := (zimr_website_create regcomp_ok).
#[local] Notation insert_ignored := (zimr_website_insert_ignored_regex regcomp_ok).

Fixpoint cnf_pubdirs (a : nat) (dirs : list bytes) (i : Z) : am W unit :=
  match dirs with
  | [] => mret tt
  | dir :: dirs => _ ← zimr_website_insert_pubdir a (Some dir) i; cnf_pubdirs a dirs (i + 1)
  end.

(** [false] when a module cannot be loaded. *)
Fixpoint cnf_modules (a : nat) (l : list zcnf_module_t) : lm W bool :=
  match l with
  | [] => mret true
  | m :: l =>
      o ← zimr_load_module (zm_name m);
      match o with
      | None => mret false
      | Some _ => _ ← zimr_website_load_module a o (zm_argv m); cnf_modules a l
      end
  end.

Fixpoint cnf_ignore (a : nat) (l : list bytes) : am W unit :=
  match l with
  | [] => mret tt
  | regex :: l => _ ← insert_ignored a regex; cnf_ignore a l
  end.

Definition put_ip (v : bytes) (w : website_t) : website_t :=
  Website (w_url w) (w_full_url w) (w_path w) (w_sockfd w) v (w_options w).

(** One entry of the configuration; the address of the website has 16 bytes. *)
Definition cnf_website (proxy : zcnf_proxy_t) (z : zcnf_website_t) : lm W bool :=
  match zw_url z with
  | None => mret true
  | Some url =>
      a ← lift (create url);
      _ ← lift (zimr_website_set_proxy a (Some (Zcnf.proxy_ip proxy)) (Zcnf.proxy_port proxy));
      _ ← lift (cnf_pubdirs a (zw_pubdirs z) 0);
      _ ← (match zw_redirect_url z with
           | Some r => lift (zimr_website_set_redirect a r) | None => mret tt end);
      _ ← (match zw_ip_address z with
           | Some ip => ip ← pure (strcpy_into 16 ip); lift (put_site a (put_ip ip))
           | None => mret tt
           end);
      ok ← cnf_modules a (zw_modules z);
      if negb ok then mret false
      else
        _ ← lift (cnf_ignore a (zw_ignore z));
        _ ← lift (enable a);
        mret true
  end.

Fixpoint cnf_websites (proxy : zcnf_proxy_t) (l : list zcnf_website_t) : lm W bool :=
  match l with
  | [] => mret true
  | z :: l => ok ← cnf_website proxy z; if (ok : bool) then cnf_websites proxy l else mret false
  end.

Context `{Y : Yaml} (cnf_files : files).

Definition zimr_cnf_load (cnf_path : bytes) : lm W bool :=
  _ ← tell (ModuleEvent ZIMR_EVENT_LOADING_CNF cnf_path);
  r ← ask (Access cnf_path);
  if a_ret r =? -1 then mret false
  else
    o ← pure (zcnf_app_load getpwuid uid cnf_files (Some cnf_path));
    match o with None => mret false | Some cnf => cnf_websites (za_proxy cnf) (za_websites cnf) end.

(** ** Start and end *)

Definition zimr_open_request_log : lm W bool :=
  r ← ask OpenLog;
  if 0 <=? a_ret r then _ ← upd (put_reqlogfd (a_ret r)); mret true
  else
    _ ← upd (put_reqlogfd (-1));
    if negb (a_ret r =? - ENOENT) then mret false
    else
      r ← ask CreateLog;
      if 0 <=? a_ret r then _ ← upd (put_reqlogfd (a_ret r)); mret true else mret false.

Definition zimr_close_request_log : lm W unit := s ← get_state; tell (CloseLog (reqlogfd s)).

Definition zimr_init : lm W bool :=
  s ← get_state;
  if lb_initialized s then mret true
  else
    _ ← tell (Event ZIMR_EVENT_INITIALIZING);
    r ← ask UserdirInit;
    _ ← pure (assert (negb (a_ret r =? 0)));
    _ ← lift (s ← get_state; r ← pure (website_init (a_sites s)); put_state (App r (a_data s) (a_modules s)));
    _ ← tell ZsInit;
    _ ← upd (put_loaded []);
    ok ← zimr_open_request_log;
    if negb ok then mret false else _ ← upd (put_initialized true); mret true.

#[local] Notation zimr_website_destroy := (zimr_website_destroy ext run_callback dlsym).

(** The two loops of [zimr_shutdown]. *)
Fixpoint destroy_websites (fuel : nat) : lm W unit :=
  s ← get_state;
  match websites (a_sites (lb_app s)) with
  | [] => mret tt
  | a :: _ =>
      match fuel with
      | O => pure (Fault OutOfFuel)
      | S fuel => _ ← lift (zimr_website_destroy a); destroy_websites fuel
      end
  end.

Fixpoint unload_modules (fuel : nat) : lm W unit :=
  s ← get_state;
  match loaded_modules s with
  | [] => mret tt
  | m :: _ =>
      match fuel with
      | O => pure (Fault OutOfFuel)
      | S fuel => _ ← zimr_unload_module (Some m); unload_modules fuel
      end
  end.

Definition zimr_shutdown : lm W unit :=
  s ← get_state;
  if negb (lb_initialized s) then mret tt
  else
    _ ← upd (put_initialized false);
    s ← get_state;
    _ ← destroy_websites (length (websites (a_sites (lb_app s))));
    s ← get_state;
    _ ← unload_modules (length (loaded_modules s));
    zimr_close_request_log.

Definition zimr_restart : lm W unit := tell (Event ZIMR_EVENT_RESTART_REQUEST).
End start.

(** A computation on the websites, in the state of the library. *)
Lemma ewp_lift {W A} (m : am W A) (s : lib_t) (w : W) (P : A → lib_t → W → list call → Prop) :
  ewp m (lb_app s) w (λ x a w l, P x (put_app a s) w l) → ewp (lift m) s w P.
Proof. intros (x & a & w' & l & E & H). exists x, (put_app a s), w', l. unfold lift. by rewrite E. Qed.
