(* ===== verification/WebappCnf.v ===== *)
(** lib/zimr.c: what the configuration of an application makes of its websites. *)

From Stdlib Require Import ZArith Lia String.
From stdpp Require Import gmap.
From S2P Require Import FdHash ZcnfApp.
From S2P Require Export WebappStart.

Local Open Scope Z_scope.

(** ** A website under construction *)

(** The state with one more website, at the next address. *)
Definition site_on (s : app_t) (w : website_t) (d : website_data_t) : app_t :=
  let r := a_sites s in
  let a := next_addr r in
  App (Registry (initialized r) (default_website_options r) (websites r ++ [a]) (<[a := w]> (heap r)) (S a))
    (<[a := d]> (a_data s)) (a_modules s).

(** The state with these websites behind the others. *)
Definition sites_on (s : app_t) (sites : list (website_t * website_data_t)) : app_t :=
  foldl (λ s rd, site_on s rd.1 rd.2) s sites.

Definition with_slash (dir : bytes) : bytes :=
  match last dir with Some c => if c =? c_slash then dir else dir ++ [c_slash] | None => dir end.
Definition with_http (url : bytes) : bytes :=
  if startswith url (str "http://") || startswith url (str "https://") then url else str "http://" ++ url.

Definition own_files : list bytes := [str "^zimr\.webapp$"; str "^zimr\.log$"; str "^zimr\.request\.log$"].

(** The entry of a module in a website: it leads to the module of that name, and has the
    arguments. *)
Definition entry_is (mods : gmap nat module_t) (z : zcnf_module_t) (e : module_website_data_t) : Prop :=
  (∃ x, mods !! md_module e = Some x ∧ m_name x = zm_name z) ∧ md_argv e = zm_argv z.

(** The website has the settings of the configuration. *)
Record configured (regcomp_ok : bytes → bool) (mods : gmap nat module_t) (proxy : zcnf_proxy_t) (z : zcnf_website_t) (w : website_t)
  (d : website_data_t) : Prop := {
  cf_url : ∃ url, zw_url z = Some url ∧ full_url_of url = (w_full_url w, w_url w);
  cf_path : w_path w = drop (split_path (w_url w)) (w_url w);
  cf_ip : w_ip w = default default_ip (zw_ip_address z);
  cf_proxy : proxy_ip d = Zcnf.proxy_ip proxy ∧
    proxy_port d = (if Zcnf.proxy_port proxy =? 0 then WebappIn.ZM_PROXY_DEFAULT_PORT else Zcnf.proxy_port proxy);
  cf_dirs : pubdirs d = (match zw_pubdirs z with [] => [str "./"] | dirs => with_slash <$> dirs end);
  cf_redirect : redirect_url d = with_http <$> zw_redirect_url z;
  cf_ignored : ignored_regexs d = filter (λ x, regcomp_ok x = true) (own_files ++ zw_ignore z);
  cf_pages : default_pages d = [Some (str "default.html")];
  cf_modules : Forall2 (entry_is mods) (zw_modules z) (module_data d);
  cf_handlers : connection_handler d = None ∧ error_handler d = None ∧ page_handlers d = [] ∧ conn_tries d = 0;
  cf_connections : wd_connections d = replicate FD_SETSIZE None;
  cf_status : w_sockfd w = -1 ∧ wd_status d = WS_STATUS_WANT_ENABLE ∨
              w_sockfd w ≠ -1 ∧ wd_status d = WS_STATUS_ENABLING
}.

Definition has_url (z : zcnf_website_t) : Prop := is_Some (zw_url z).

Section build.
Context {W : Type} (s0 : app_t).
#[local] Notation a := (next_addr (a_sites s0)).
#[local] Notation on := (site_on s0).
Implicit Types (w : W) (r : website_t) (d : website_data_t).

Lemma on_data_at r d w (P : website_data_t → app_t → W → list call → Prop) :
  P d (on r d) w [] → ewp (data_at a) (on r d) w P.
Proof. intros H. eapply ewp_data_at; [|exact H]. apply lookup_insert_eq. Qed.

Lemma on_site_at r d w (P : website_t → app_t → W → list call → Prop) :
  P r (on r d) w [] → ewp (site_at a) (on r d) w P.
Proof.
  intros H. unfold site_at. apply ewp_bind, ewp_get. eapply ewp_pure; [|exact H]. cbn. by rewrite lookup_insert_eq.
Qed.

Lemma on_upd_data f r d w (P : unit → app_t → W → list call → Prop) :
  P tt (on r (f d)) w [] → ewp (upd_data a f) (on r d) w P.
Proof.
  intros H. unfold upd_data. apply ewp_bind, on_data_at, ewp_bind, ewp_get, ewp_put.
  unfold site_on in H |- *. cbn in H |- *. by rewrite insert_insert_eq.
Qed.

Lemma on_put_site f r d w (P : unit → app_t → W → list call → Prop) :
  P tt (on (f r) d) w [] → ewp (put_site a f) (on r d) w P.
Proof.
  intros H. unfold put_site. apply ewp_bind, on_site_at, ewp_bind, ewp_get. cbv zeta. apply ewp_put.
  unfold site_on in H |- *. cbn in H |- *. by rewrite insert_insert_eq.
Qed.

(** ** Public directories *)

Lemma insert_pos_here n : Z.of_nat n < 2 ^ 31 → insert_pos (Z.of_nat n) n = n.
Proof.
  intros H. unfold insert_pos, wrap_u32. destruct (Z.ltb_spec (Z.of_nat n) 0); [lia|].
  rewrite Z.mod_small by lia. rewrite Z.ltb_irrefl. lia.
Qed.

Lemma insert_pubdir_last dir l :
  dir ≠ [] → Z.of_nat (length l) < 2 ^ 31 →
  insert_pubdir (Some dir) (Z.of_nat (length l)) l = Done (l ++ [with_slash dir]).
Proof.
  intros Hd Hl. unfold insert_pubdir. rewrite insert_pos_here by done. cbv zeta.
  rewrite delete_take_drop, take_ge, drop_ge, app_nil_r, Nat.ltb_irrefl by lia. unfold with_slash, list_insert.
  destruct (last dir) as [c|] eqn:E; [|by apply last_None in E]. cbn [at_index mbind res_bind].
  by rewrite take_ge, drop_ge by lia.
Qed.

Lemma insert_pubdir_only dir old : dir ≠ [] → insert_pubdir (Some dir) 0 [old] = Done [with_slash dir].
Proof.
  intros Hd. unfold insert_pubdir. change (insert_pos 0 (length [old])) with 0%nat. cbv zeta. cbn [delete list_delete].
  unfold with_slash. destruct (last dir) as [c|] eqn:E; [|by apply last_None in E]. reflexivity.
Qed.

Definition put_pubdirs (l : list bytes) (d : website_data_t) : website_data_t :=
  WebsiteData (wd_status d) (proxy_ip d) (proxy_port d) (connection_handler d) (error_handler d) (conn_tries d)
    (redirect_url d) l (default_pages d) (ignored_regexs d) (page_handlers d) (module_data d) (wd_connections d).

Lemma on_insert_pubdir dir i l r d w (P : unit → app_t → W → list call → Prop) :
  insert_pubdir (Some dir) i (pubdirs d) = Done l → P tt (on r (put_pubdirs l d)) w [] →
  ewp (zimr_website_insert_pubdir a (Some dir) i) (on r d) w P.
Proof.
  intros Hl HP. unfold zimr_website_insert_pubdir. apply ewp_bind, on_data_at, ewp_bind.
  eapply ewp_pure; [exact Hl|]. by apply on_upd_data.
Qed.

Lemma cnf_pubdirs_more dirs r d w (P : unit → app_t → W → list call → Prop) :
  Forall (λ dir, dir ≠ []) dirs → Z.of_nat (length (pubdirs d) + length dirs) < 2 ^ 31 →
  P tt (on r (put_pubdirs (pubdirs d ++ (with_slash <$> dirs)) d)) w [] →
  ewp (cnf_pubdirs a dirs (Z.of_nat (length (pubdirs d)))) (on r d) w P.
Proof.
  intros Hd. revert d P. induction Hd as [|dir dirs Hdir Hd IH]; intros d P Hl HP; cbn [cnf_pubdirs].
  - apply ewp_ret. cbn in HP. rewrite app_nil_r in HP. by destruct d.
  - cbn [length] in Hl. apply ewp_bind. eapply on_insert_pubdir; [apply insert_pubdir_last; [done|lia]|].
    set (d' := put_pubdirs _ d).
    assert (Z.of_nat (length (pubdirs d)) + 1 = Z.of_nat (length (pubdirs d'))) as ->.
    { subst d'. cbn. rewrite length_app. cbn. lia. }
    apply IH; [subst d'; cbn; rewrite length_app; cbn; lia|].
    subst d'. unfold put_pubdirs in *. cbn in HP |- *. by rewrite <- app_assoc.
Qed.

Lemma cnf_pubdirs_all dirs old r d w (P : unit → app_t → W → list call → Prop) :
  pubdirs d = [old] → Forall (λ dir, dir ≠ []) dirs → Z.of_nat (length dirs) < 2 ^ 31 →
  P tt (on r (put_pubdirs (match dirs with [] => [old] | _ => with_slash <$> dirs end) d)) w [] →
  ewp (cnf_pubdirs a dirs 0) (on r d) w P.
Proof.
  intros Ho Hd Hl HP. destruct Hd as [|dir dirs Hdir Hd]; cbn [cnf_pubdirs].
  - apply ewp_ret. rewrite <- Ho in HP. by destruct d.
  - cbn [length] in Hl. apply ewp_bind. eapply on_insert_pubdir; [rewrite Ho; by apply insert_pubdir_only|].
    change (0 + 1) with (Z.of_nat (length (pubdirs (put_pubdirs [with_slash dir] d)))).
    apply cnf_pubdirs_more; [done|cbn; lia|]. exact HP.
Qed.

(** ** Expressions *)

Context (regcomp_ok : bytes → bool).

Definition put_ignored (l : list bytes) (d : website_data_t) : website_data_t :=
  WebsiteData (wd_status d) (proxy_ip d) (proxy_port d) (connection_handler d) (error_handler d) (conn_tries d)
    (redirect_url d) (pubdirs d) (default_pages d) l (page_handlers d) (module_data d) (wd_connections d).

#[local] Notation good := (filter (λ x, regcomp_ok x = true)).

Lemma on_insert_ignored regex r d w (P : unit → app_t → W → list call → Prop) :
  P tt (on r (put_ignored (ignored_regexs d ++ good [regex]) d)) w [] →
  ewp (zimr_website_insert_ignored_regex regcomp_ok a regex) (on r d) w P.
Proof.
  intros HP. unfold zimr_website_insert_ignored_regex. cbn in HP. destruct (regcomp_ok regex); cbn [only_if].
  - by apply on_upd_data.
  - apply ewp_ret. cbn in HP. rewrite app_nil_r in HP. by destruct d.
Qed.

Lemma cnf_ignore_all l r d w (P : unit → app_t → W → list call → Prop) :
  P tt (on r (put_ignored (ignored_regexs d ++ good l) d)) w [] →
  ewp (cnf_ignore regcomp_ok a l) (on r d) w P.
Proof.
  revert d P. induction l as [|x l IH]; intros d P HP; cbn [cnf_ignore].
  - apply ewp_ret. cbn in HP. rewrite app_nil_r in HP. by destruct d.
  - apply ewp_bind, on_insert_ignored, IH. unfold put_ignored in *. cbn [ignored_regexs] in *.
    rewrite <- app_assoc, <- filter_app. exact HP.
Qed.

(** ** A new website *)

Definition fresh_site (url : bytes) : website_t :=
  let '(full, u) := full_url_of url in
  Website u full (drop (split_path u) u) (-1) default_ip (default_website_options (a_sites s0)).
Definition fresh_data : website_data_t :=
  put_ignored (good own_files) (WebsiteData WS_STATUS_DISABLED WebappIn.ZM_PROXY_DEFAULT_ADDR
    WebappIn.ZM_PROXY_DEFAULT_PORT None None 0 None [str "./"] [Some (str "default.html")] [] [] []
    (replicate FD_SETSIZE None)).

Lemma add_fresh url :
  initialized (a_sites s0) = true →
  website_add (a_sites s0) (-1) url None = Done (a_sites (on (fresh_site url) new_website_data), a).
Proof.
  intros Hi. unfold website_add, fresh_site, site_on. rewrite Hi. cbn. by destruct (full_url_of url).
Qed.

Lemma zimr_website_create_wp url w (P : nat → app_t → W → list call → Prop) :
  initialized (a_sites s0) = true → P a (on (fresh_site url) fresh_data) w [] →
  ewp (zimr_website_create regcomp_ok url) s0 w P.
Proof.
  intros Hi HP. unfold zimr_website_create. apply ewp_bind, ewp_get, ewp_bind.
  eapply ewp_pure; [exact (add_fresh url Hi)|]. apply ewp_bind, ewp_put.
  change (App _ _ _) with (on (fresh_site url) new_website_data).
  apply ewp_bind. apply (on_insert_pubdir (str "./") 0 [str "./"]); [vm_compute; reflexivity|].
  apply ewp_bind, on_upd_data.
  do 3 apply ewp_bind, on_insert_ignored. apply ewp_ret. cbn [app] in *.
  match goal with |- P _ (on _ ?d') _ _ => assert (d' = fresh_data) as -> end; [|exact HP].
  unfold fresh_data, put_ignored, own_files. cbn [ignored_regexs]. f_equal.
  change (ignored_regexs _) with (@nil bytes). by rewrite app_nil_l, <- !filter_app.
Qed.
End build.

(** ** A website with its modules *)

Section load.
Context {W : Type} (ext : call → W → answer * W) (dlsym : nat → bytes → option nat) (regcomp_ok : bytes → bool).
Context (run_module : nat → module_arg → lm W bool) (getpwuid : Z → option bytes) (uid : Z).
Implicit Types (s : lib_t) (w : W).

(** The functions of the modules report no error and leave the library alone. *)
Hypothesis Hquiet : ∀ f arg s w, ewp (run_module f arg) s w (λ bad s' _ _, bad = false ∧ s' = s).

#[local] Notation load_module := (zimr_load_module ext dlsym run_module getpwuid uid).
#[local] Notation website_load_module := (zimr_website_load_module ext dlsym run_module).
#[local] Notation cnf_modules := (cnf_modules ext dlsym run_module getpwuid uid).
#[local] Notation cnf_website := (cnf_website ext dlsym regcomp_ok run_module getpwuid uid).
#[local] Notation cnf_websites := (cnf_websites ext dlsym regcomp_ok run_module getpwuid uid).

(** The loaded modules are there. *)
Definition modules_alive s : Prop :=
  Forall (λ m, is_Some (a_modules (lb_app s) !! m)) (loaded_modules s).

(** The module of a configuration is one of those that are loaded. *)
Record module_loaded s (z : zcnf_module_t) : Prop := {
  ml_name : (length (zm_name z) < ZM_MODULE_NAME_MAX_LEN)%nat;
  ml_args : (length (zm_argv z) <= ZM_MODULE_MAX_ARGS)%nat;
  ml_loaded : ∃ m x, m ∈ loaded_modules s ∧ a_modules (lb_app s) !! m = Some x ∧ m_name x = zm_name z
}.

(** The modules of two states are the same. *)
Definition same_modules s s' : Prop :=
  loaded_modules s' = loaded_modules s ∧ a_modules (lb_app s') = a_modules (lb_app s).

#[local] Instance same_modules_preorder : PreOrder same_modules.
Proof. split; [done|]. intros x y z [? ?] [? ?]. split; congruence. Qed.

Lemma modules_alive_same s s' : same_modules s s' → modules_alive s → modules_alive s'.
Proof. intros [E1 E2]. unfold modules_alive. by rewrite E1, E2. Qed.

Lemma module_loaded_same s s' z : same_modules s s' → module_loaded s z → module_loaded s' z.
Proof. intros [E1 E2] [H1 H2 H3]. split; [done..|]. by rewrite E1, E2. Qed.

Lemma find_module_wp name l s w :
  Forall (λ m, is_Some (a_modules (lb_app s) !! m)) l →
  (∃ m x, m ∈ l ∧ a_modules (lb_app s) !! m = Some x ∧ m_name x = name) →
  ewp (find_module name l) s w (λ o s' w' l', s' = s ∧
    ∃ m x, o = Some m ∧ a_modules (lb_app s) !! m = Some x ∧ m_name x = name).
Proof.
  induction 1 as [|m l [x Hx] _ IH]; intros (m' & x' & Hm' & Hx' & Hn); cbn [find_module].
  { by apply elem_of_nil in Hm'. }
  apply ewp_bind. eapply ewp_lift, ewp_module_at; [exact Hx|].
  assert (put_app (lb_app s) s = s) as -> by (by destruct s).
  unfold strcmp_eq. destruct (bool_decide_reflect (name = m_name x)) as [E|E].
  - apply ewp_ret. split; [done|]. by exists m, x.
  - eapply ewp_mono; [apply IH|done]. exists m', x'. split; [|done].
    apply elem_of_cons in Hm' as [->|Hm']; [congruence|done].
Qed.

Lemma err_occured_wp h s w : ewp (err_occured dlsym run_module h) s w (λ bad s' _ _, bad = false ∧ s' = s).
Proof. unfold err_occured. destruct (dlsym h _) as [f|]; [apply Hquiet|by apply ewp_ret]. Qed.

Lemma load_module_wp z s w :
  modules_alive s → module_loaded s z →
  ewp (load_module (zm_name z)) s w (λ o s' _ _, s' = s ∧
    ∃ m x, o = Some m ∧ a_modules (lb_app s) !! m = Some x ∧ m_name x = zm_name z).
Proof.
  intros Ha [Hn _ Hl]. unfold zimr_load_module.
  destruct (Nat.leb_spec ZM_MODULE_NAME_MAX_LEN (length (zm_name z))); [lia|].
  apply ewp_bind, ewp_get, ewp_bind. eapply ewp_mono; [by apply find_module_wp|].
  intros o s1 w1 l1 (-> & m & x & -> & Hx). apply ewp_ret. split; [done|]. by exists m, x.
Qed.

Section on.
Context (s0 : app_t).
#[local] Notation a := (next_addr (a_sites s0)).
#[local] Notation on := (site_on s0).

Lemma website_load_module_wp z m x r d s w :
  module_loaded s z → a_modules (lb_app s) !! m = Some x → m_name x = zm_name z → lb_app s = on r d →
  ewp (website_load_module a (Some m) (zm_argv z)) s w (λ _ s' _ _,
    ∃ e, entry_is (a_modules (lb_app s)) z e ∧ same_modules s s' ∧
      lb_app s' = on r (put_modules (module_data d ++ [e]) d)).
Proof.
  intros [_ Hz _] Hx Hn Hs. unfold zimr_website_load_module.
  apply ewp_bind, ewp_lift. rewrite Hs at 1. apply on_data_at. rewrite <- Hs.
  assert (put_app (lb_app s) s = s) as -> by (by destruct s).
  apply ewp_bind. eapply ewp_pure; [done|]. apply ewp_bind. eapply ewp_lift, ewp_module_at; [exact Hx|].
  assert (put_app (lb_app s) s = s) as -> by (by destruct s).
  apply ewp_bind, ewp_lift. rewrite Hs at 1. apply on_site_at. rewrite <- Hs.
  assert (put_app (lb_app s) s = s) as -> by (by destruct s). apply ewp_bind, ewp_tell, ewp_bind.
  destruct (Nat.ltb_spec ZM_MODULE_MAX_ARGS (length (zm_argv z))); [lia|]. eapply ewp_pure; [done|].
  apply ewp_bind, ewp_lift. rewrite Hs at 1. apply on_upd_data.
  set (e := ModuleData m _). set (s2 := put_app _ _).
  assert (entry_is (a_modules (lb_app s)) z e ∧ same_modules s s2 ∧
    lb_app s2 = on r (put_modules (module_data d ++ [e]) d)) as H2.
  { split; [split; [by exists x|done]|]. split; [|done]. split; [done|]. by rewrite Hs. }
  clearbody s2. destruct (dlsym _ _) as [f|]; [|apply ewp_ret; by exists e].
  apply ewp_bind. eapply ewp_mono; [apply Hquiet|]. intros b s3 w3 l3 [_ ->].
  apply ewp_bind. eapply ewp_mono; [apply err_occured_wp|]. intros b2 s4 w4 l4 [-> ->].
  apply ewp_ret. by exists e.
Qed.

Lemma cnf_modules_wp zs r d s w :
  Forall (module_loaded s) zs → modules_alive s → lb_app s = on r d →
  ewp (cnf_modules a zs) s w (λ ok s' _ _, ok = true ∧ same_modules s s' ∧
    ∃ es, Forall2 (entry_is (a_modules (lb_app s))) zs es ∧ lb_app s' = on r (put_modules (module_data d ++ es) d)).
Proof.
  revert d s w. induction zs as [|z zs IH]; intros d s w Hz Ha Hs; cbn [WebappStart.cnf_modules].
  - apply ewp_ret. split; [done|]. split; [done|]. exists []. rewrite app_nil_r. split; [done|]. rewrite Hs. by destruct d.
  - apply Forall_cons in Hz as [Hz Hzs]. apply ewp_bind. eapply ewp_mono; [by apply load_module_wp|].
    intros o s1 w1 l1 (-> & m & x & -> & Hx & Hn). apply ewp_bind.
    eapply ewp_mono; [by eapply website_load_module_wp|].
    intros [] s2 w2 l2 (e & He & Hsame & Hs2). eapply ewp_mono; [apply IH; [|by eapply modules_alive_same|exact Hs2]|].
    { eapply Forall_impl; [exact Hzs|]. intros. by eapply module_loaded_same. }
    intros ok s3 w3 l3 (-> & Hsame3 & es & Hes & Hs3). split; [done|]. split; [by transitivity s2|].
    exists (e :: es). destruct Hsame as [_ Em]. rewrite Em in Hes. split; [by constructor|].
    rewrite Hs3. cbn. by rewrite <- app_assoc.
Qed.

Lemma on_set_proxy ip port r d w (P : unit → app_t → W → list call → Prop) :
  (length ip < 16)%nat →
  (∀ d', d' = WebsiteData (wd_status d) ip (if port =? 0 then proxy_port d else port) (connection_handler d)
    (error_handler d) (conn_tries d) (redirect_url d) (pubdirs d) (default_pages d) (ignored_regexs d)
    (page_handlers d) (module_data d) (wd_connections d) → P tt (on r d') w []) →
  ewp (zimr_website_set_proxy a (Some ip) port) (on r d) w P.
Proof.
  intros Hl HP. unfold zimr_website_set_proxy. apply ewp_bind, on_data_at, ewp_bind.
  eapply ewp_pure; [unfold strcpy_into; by rewrite (proj2 (Nat.ltb_lt _ _)) by lia|]. apply on_upd_data. by apply HP.
Qed.

Definition put_redirect (v : option bytes) (d : website_data_t) : website_data_t :=
  WebsiteData (wd_status d) (proxy_ip d) (proxy_port d) (connection_handler d) (error_handler d) (conn_tries d) v
    (pubdirs d) (default_pages d) (ignored_regexs d) (page_handlers d) (module_data d) (wd_connections d).

Lemma on_set_redirect url r d w (P : unit → app_t → W → list call → Prop) :
  P tt (on r (put_redirect (Some (with_http url)) d)) w [] → ewp (zimr_website_set_redirect a url) (on r d) w P.
Proof. intros HP. unfold zimr_website_set_redirect. by apply on_upd_data. Qed.

(** The website is switched on, or waits for its proxy. *)
Lemma on_enable r d w (P : bool → app_t → W → list call → Prop) :
  wd_status d = WS_STATUS_DISABLED →
  (∀ b w' l fd st, fd = -1 ∧ st = WS_STATUS_WANT_ENABLE ∨ fd ≠ -1 ∧ st = WS_STATUS_ENABLING →
     P b (on (put_sockfd fd r) (put_status st d)) w' l) →
  ewp (zimr_website_enable ext a) (on r d) w P.
Proof.
  intros Hd HP. unfold zimr_website_enable. apply ewp_bind, on_data_at. rewrite Hd. cbn [Z.eqb negb andb].
  apply ewp_bind, on_upd_data, ewp_bind, ewp_ask, ewp_bind, on_put_site.
  set (fd := a_ret _). clearbody fd. destruct (Z.eqb_spec fd (-1)) as [->|Hfd].
  - apply ewp_ret. apply HP. by left.
  - apply ewp_bind, on_upd_data. cbv zeta. apply ewp_bind, ewp_tell, ewp_bind, ewp_ask, ewp_bind, on_site_at.
    do 4 apply ewp_bind, ewp_tell. apply ewp_ret. apply (HP true _ _ fd WS_STATUS_ENABLING). by right.
Qed.
End on.

Record website_fits s (z : zcnf_website_t) : Prop := {
  wf_dirs : Forall (λ dir, dir ≠ []) (zw_pubdirs z);
  wf_count : Z.of_nat (length (zw_pubdirs z)) < 2 ^ 31;
  wf_ip : ∀ ip, zw_ip_address z = Some ip → (length ip < 16)%nat;
  wf_modules : Forall (module_loaded s) (zw_modules z)
}.

Lemma website_fits_same s s' z : same_modules s s' → website_fits s z → website_fits s' z.
Proof.
  intros Hs [H1 H2 H3 H4]. split; [done..|]. eapply Forall_impl; [exact H4|]. intros. by eapply module_loaded_same.
Qed.

#[local] Notation configured := (configured regcomp_ok).

Lemma cnf_website_wp proxy z s w :
  (length (Zcnf.proxy_ip proxy) < 16)%nat → website_fits s z → modules_alive s → has_url z →
  initialized (a_sites (lb_app s)) = true →
  ewp (cnf_website proxy z) s w (λ ok s' _ _, ok = true ∧ same_modules s s' ∧
    ∃ r d, configured (a_modules (lb_app s)) proxy z r d ∧ lb_app s' = site_on (lb_app s) r d).
Proof.
  intros Hp [Hd Hc Hip Hm] Ha [url Hu] Hi. unfold WebappStart.cnf_website. rewrite Hu.
  set (s0 := lb_app s) in *.
  apply ewp_bind, ewp_lift, zimr_website_create_wp; [exact Hi|]. fold s0.
  apply ewp_bind, ewp_lift. cbn [put_app lb_app]. apply on_set_proxy; [exact Hp|]. intros d1 E1.
  apply ewp_bind, ewp_lift. cbn [put_app lb_app].
  apply (cnf_pubdirs_all _ _ (str "./")); [by rewrite E1|exact Hd|exact Hc|]. set (d2 := put_pubdirs _ d1).
  apply ewp_bind. set (s2 := put_app _ _). assert (same_modules s s2) as Hs2 by done.
  eapply (ewp_mono _ _ _ (λ _ s3 _ _, same_modules s s3 ∧
    lb_app s3 = site_on s0 (fresh_site s0 url) (put_redirect (with_http <$> zw_redirect_url z) d2))).
  { destruct (zw_redirect_url z) as [rd|].
    - apply ewp_lift. cbn [put_app lb_app s2]. apply on_set_redirect. by split.
    - apply ewp_ret. split; [done|]. by subst s2 d2 d1. }
  clearbody s2. intros [] s3 w3 l3 [Ha3 Hs3]. set (d3 := put_redirect _ d2) in *.
  apply ewp_bind. set (r := put_ip (default default_ip (zw_ip_address z)) (fresh_site s0 url)).
  eapply (ewp_mono _ _ _ (λ _ s4 _ _, same_modules s s4 ∧ lb_app s4 = site_on s0 r d3)).
  { subst r. destruct (zw_ip_address z) as [ip|] eqn:Eip.
    - apply ewp_bind. eapply ewp_pure.
      { unfold strcpy_into. by rewrite (proj2 (Nat.ltb_lt _ _)) by (by apply Hip). }
      apply ewp_lift. rewrite Hs3. apply on_put_site. split; [|done]. destruct Ha3 as [E _]. split; [exact E|done].
    - apply ewp_ret. split; [done|]. rewrite Hs3. unfold fresh_site. by destruct (full_url_of url). }
  intros [] s4 w4 l4 [Ha4 Hs4]. apply ewp_bind. eapply ewp_mono.
  { eapply cnf_modules_wp; [|by eapply modules_alive_same|exact Hs4]. eapply Forall_impl; [exact Hm|].
    intros. by eapply module_loaded_same. }
  intros ok s5 w5 l5 (-> & Ha5 & es & Hes & Hs5). cbn [negb]. destruct Ha4 as [El4 Em4]. rewrite Em4 in Hes.
  destruct Ha5 as [El5 Em5].
  apply ewp_bind, ewp_lift. rewrite Hs5. apply cnf_ignore_all. cbn [put_app lb_app].
  apply ewp_bind, ewp_lift. cbn [put_app lb_app]. apply on_enable; [by subst d3 d2 d1|].
  intros b w6 l6 fd st Hst. apply ewp_ret. split; [done|]. split; [split; [by rewrite <- El4, <- El5|done]|].
  eexists _, _. split; [|reflexivity].
  subst r d3 d2 d1. unfold fresh_site. destruct (full_url_of url) as [full u] eqn:Ef. split; cbn; try done.
  - exists url. by rewrite Ef.
  - by destruct (zw_pubdirs z).
  - symmetry. exact (filter_app (λ x, regcomp_ok x = true) own_files (zw_ignore z)).
Qed.

Lemma cnf_websites_wp proxy zs s w :
  (length (Zcnf.proxy_ip proxy) < 16)%nat → Forall (website_fits s) zs → modules_alive s →
  initialized (a_sites (lb_app s)) = true →
  ewp (cnf_websites proxy zs) s w (λ ok s' _ _, ok = true ∧ same_modules s s' ∧
    ∃ sites, Forall2 (λ z rd, configured (a_modules (lb_app s)) proxy z rd.1 rd.2) (filter has_url zs) sites ∧
      lb_app s' = sites_on (lb_app s) sites).
Proof.
  intros Hp. revert s w. induction zs as [|z zs IH]; intros s w Hzs Ha Hi; cbn [WebappStart.cnf_websites].
  - apply ewp_ret. split; [done|]. split; [done|]. by exists [].
  - apply Forall_cons in Hzs as [Hz Hzs]. apply ewp_bind. destruct (decide (has_url z)) as [Hu|Hu].
    + eapply ewp_mono; [by apply cnf_website_wp|]. intros ok s1 w1 l1 (-> & Ha1 & r & d & Hc & Hs1).
      eapply ewp_mono; [apply IH; [|by eapply modules_alive_same|by rewrite Hs1]|].
      { eapply Forall_impl; [exact Hzs|]. intros. by eapply website_fits_same. }
      intros ok s2 w2 l2 (-> & Ha2 & sites & Hsites & Hs2). split; [done|]. split; [by transitivity s1|].
      exists ((r, d) :: sites). rewrite filter_cons_True by done. destruct Ha1 as [_ Em]. rewrite Em in Hsites.
      split; [by constructor|]. by rewrite Hs2, Hs1.
    + rewrite filter_cons_False by done. unfold WebappStart.cnf_website at 1.
      destruct (zw_url z) as [url|] eqn:Eu; [by destruct Hu; unfold has_url; rewrite Eu|]. apply ewp_ret. by apply IH.
Qed.

(** ** The file *)

Context `{Y : Yaml} (fs : files).

(** The address of the proxy fits its field, whatever the file says. *)
Lemma parse_proxy_fits text : (length (Zcnf.proxy_ip (zcnf_parse_proxy text)) < 16)%nat.
Proof.
  unfold zcnf_parse_proxy. destruct (strchr text c_colon) as [p|]; cbn [Zcnf.proxy_ip]; rewrite length_take; [|lia].
  destruct (Nat.ltb_spec 15 p); lia.
Qed.

Lemma load_app_attrs_proxy d cnf pairs cnf' :
  load_app_attrs d cnf pairs = Done (Some cnf') → (length (Zcnf.proxy_ip (za_proxy cnf)) < 16)%nat →
  (length (Zcnf.proxy_ip (za_proxy cnf')) < 16)%nat.
Proof.
  revert cnf. induction pairs as [|[key value] pairs IH]; intros cnf H Hp; cbn [load_app_attrs] in H.
  { by injection H as <-. }
  destruct (scalar _) as [k|]; [|done]. destruct (is_key "websites" k).
  - unfold zcnf_load_websites in H. destruct (yaml_get_node d value) as [[v|items|ps]|]; try done.
    destruct (load_website_items _ _ _) as [[ws|]|]; try done. cbn in H. by eapply IH.
  - destruct (is_key "proxy" k); [|by eapply IH].
    destruct (scalar _) as [v|]; [|by eapply IH]. eapply IH; [exact H|]. apply parse_proxy_fits.
Qed.

Lemma app_load_proxy path cnf :
  zcnf_app_load getpwuid uid fs path = Done (Some cnf) → (length (Zcnf.proxy_ip (za_proxy cnf)) < 16)%nat.
Proof.
  unfold zcnf_app_load. destruct (expand_tilde _ _ _ _) as [o|]; cbn [mbind res_bind]; [|done].
  destruct (o ≫= zcnf_load fs) as [d|]; [|done]. destruct (yaml_get_node d 1) as [[v|items|ps]|]; try done.
  intros H. eapply load_app_attrs_proxy; [exact H|]. vm_compute. lia.
Qed.

End load.

(** ** The sample configuration *)

Section sample.
#[local] Existing Instance ListYaml.list_yaml.

(** One module is loaded, which has no symbols. *)
Definition cnf_ext (c : call) (w : unit) : answer * unit := (Answer 1 [] false 0 0 [], w).
Definition cnf_module (f : nat) (arg : module_arg) : lm unit bool := mret false.
Definition auth_lib : lib_t := Lib (App (Registry true 1 [] ∅ 0) ∅ {[0%nat := Module (str "auth") 9]}) true [0%nat] 1 5.

Definition cnf_run : res (bool * lib_t * unit * list call) :=
  zimr_cnf_load cnf_ext no_symbol (λ _, true) cnf_module sample_home 1000
    (one_file (str "zimr.webapp") sample_app_doc) (str "zimr.webapp") auth_lib tt.

End sample.
