(* ===== verification/WebappEnd.v ===== *)
(** lib/zimr.c: how the library ends.  [zimr_shutdown] closes every connection, destroys
    every website and unloads every module, and returns; and what is wrong with modules
    and with a second start. *)

From Stdlib Require Import ZArith Lia String.
From stdpp Require Import gmap.
From S2P Require Import FdHash.
From S2P Require Export WebappStart.

Local Open Scope Z_scope.

(** ** Websites that can be destroyed *)

(** The modules that a website has taken are still loaded. *)
Definition entries_alive (s : app_t) (d : website_data_t) : Prop :=
  Forall (λ e, is_Some (a_modules s !! md_module e)) (module_data d).

(** Every website has its data, its cells and its modules, and no two share a switch. *)
Record sites_ok (s : app_t) : Prop := {
  so_registry : registry_inv (a_sites s);
  so_initialized : initialized (a_sites s) = true;
  so_data : ∀ a, a ∈ websites (a_sites s) → ∃ d, a_data s !! a = Some d ∧ length (wd_connections d) = FD_SETSIZE ∧
    entries_alive s d;
  so_switch : ∀ a b w v, a ∈ websites (a_sites s) → b ∈ websites (a_sites s) →
    heap (a_sites s) !! a = Some w → heap (a_sites s) !! b = Some v → w_sockfd w = w_sockfd v →
    w_sockfd w ≠ -1 → a = b
}.

(** The switch of a website leads to it. *)
Lemma site_by_switch s a w :
  sites_ok s → a ∈ websites (a_sites s) → heap (a_sites s) !! a = Some w → w_sockfd w ≠ -1 →
  website_get_by_sockfd (a_sites s) (w_sockfd w) = Done (Some a).
Proof.
  intros [Hr Hi _ Hd] Ha Hw Hfd. unfold website_get_by_sockfd. rewrite Hi. cbn [assert mbind res_bind].
  destruct (first_website_found (λ v, w_sockfd w =? w_sockfd v) (heap (a_sites s)) (websites (a_sites s)) a w)
    as [b Hb]; [apply (ri_live _ Hr)|done|done|apply Z.eqb_refl|]. rewrite Hb.
  apply first_website_elem in Hb as (Hb & v & Hv & Ht). apply Z.eqb_eq in Ht.
  by rewrite (Hd a b w v Ha Hb Hw Hv Ht Hfd).
Qed.

Section shutdown.
Context {W : Type} (ext : call → W → answer * W).
Context (run_callback : nat → conn_ptr → callback_arg → am W unit).
Context (dlsym : nat → bytes → option nat) (run_module : nat → module_arg → lm W bool).
Implicit Types (s : app_t) (w : W).

(** The functions of the modules and of the application return, and leave the library alone. *)
Hypothesis Hcallback : ∀ f p arg s w, ewp (run_callback f p arg) s w (λ _ s' _ _, s' = s).
Hypothesis Hmodule : ∀ f arg (t : lib_t) w, ewp (run_module f arg) t w (λ _ t' _ _, t' = t).

#[local] Notation cleanup := (cleanup_connection ext run_callback dlsym).
#[local] Notation close_all := (close_connections ext run_callback dlsym).
#[local] Notation disable := (zimr_website_disable ext run_callback dlsym).
#[local] Notation destroy := (zimr_website_destroy ext run_callback dlsym).

Lemma call_modules_quiet name l p s w :
  Forall (λ e, is_Some (a_modules s !! md_module e)) l →
  ewp (call_modules run_callback dlsym name l p) s w (λ _ s' _ _, s' = s).
Proof.
  intros Hl. revert w. induction Hl as [|m l [x Hx] _ IH]; intros w; cbn [call_modules]; [by apply ewp_ret|].
  apply ewp_bind. eapply ewp_module_at; [exact Hx|]. apply ewp_bind. eapply (ewp_mono _ _ _ (λ _ s' _ _, s' = s)).
  - destruct (dlsym _ _) as [f|]; [apply Hcallback|by apply ewp_ret].
  - intros [] s1 w1 l1 ->. eapply ewp_mono; [apply IH|]. done.
Qed.

(** The state with other connections of the website at [a], whose data are [d]. *)
Definition with_cells (s : app_t) (a : nat) (d : website_data_t) (cs : list (option conn_data_t)) : app_t :=
  App (a_sites s) (<[a := put_connections cs d]> (a_data s)) (a_modules s).

Lemma with_cells_has s a d cs i o : (i < FD_SETSIZE)%nat → cs !! i = Some o → has_cell (with_cells s a d cs) a i o.
Proof. intros Hi Hc. split; [done|]. eexists. split; [apply lookup_insert_eq|done]. Qed.

Lemma with_conn_cells s a d cs i o : with_conn (with_cells s a d cs) a i o = with_cells s a d (<[i := o]> cs).
Proof.
  unfold with_conn, with_cells. cbn. f_equal. rewrite (alter_alt_Some _ _ _ _ (lookup_insert_eq _ _ _)).
  by rewrite insert_insert_eq.
Qed.

Lemma cleanup_cells s a r d cs i c w :
  website_get_by_sockfd (a_sites s) (w_sockfd r) = Done (Some a) → entries_alive s d → (i < FD_SETSIZE)%nat →
  cs !! i = Some (Some c) →
  ewp (cleanup (w_sockfd r) (Z.of_nat i)) (with_cells s a d cs) w (λ _ s' _ l,
    s' = with_cells s a d (<[i := None]> cs) ∧ MsgClose (w_sockfd r) (Z.of_nat i) ∈ l).
Proof.
  intros Hg Hal Hi Hc. unfold cleanup_connection. apply ewp_bind. eapply ewp_site_of; [exact Hg|].
  apply ewp_bind. eapply ewp_data_at; [apply lookup_insert_eq|]. apply ewp_bind, ewp_tell, ewp_bind.
  eapply (ewp_mono _ _ _ (λ _ s' _ _, ∃ c', s' = with_cells s a d (<[i := Some c']> cs))).
  { unfold cleanup_fileread. apply ewp_bind. eapply ewp_conn_at; [by apply with_cells_has|]. cbv zeta.
    destruct (_ =? -1).
    - apply ewp_ret. exists c. by rewrite list_insert_id.
    - apply ewp_bind, ewp_tell, ewp_bind, ewp_tell. eapply ewp_upd_conn; [by apply with_cells_has|].
      eexists. by rewrite with_conn_cells. }
  intros [] s1 w1 l1 [c' ->].
  assert (<[i := Some c']> cs !! i = Some (Some c')) as Hc' by (eapply list_lookup_insert_eq, lookup_lt_Some; exact Hc).
  set (cs' := <[i := Some c']> cs) in *.
  apply ewp_bind. eapply ewp_data_at; [apply lookup_insert_eq|]. apply ewp_bind.
  eapply ewp_mono; [by apply call_modules_quiet|]. intros [] s2 w2 l2 ->. apply ewp_bind.
  eapply ewp_conn_at; [by apply with_cells_has|]. apply ewp_bind.
  eapply (ewp_mono _ _ _ (λ _ s' _ _, s' = with_cells s a d cs')).
  { destruct (onclose_event c') as [f|]; [apply Hcallback|by apply ewp_ret]. }
  intros [] s3 w3 l3 ->. apply ewp_bind. eapply ewp_conn_at; [by apply with_cells_has|].
  eapply ewp_put_conn; [by apply with_cells_has|]. rewrite with_conn_cells. subst cs'.
  rewrite list_insert_insert_eq. split; [done|]. by left.
Qed.

(** The loop closes the connections of the cells that are left. *)
Lemma close_connections_wp s a r d n i cs w :
  website_get_by_sockfd (a_sites s) (w_sockfd r) = Done (Some a) → heap (a_sites s) !! a = Some r →
  entries_alive s d → (i + n = FD_SETSIZE)%nat → length cs = FD_SETSIZE →
  ewp (close_all n (Z.of_nat i) a) (with_cells s a d cs) w (λ _ s' _ l,
    s' = with_cells s a d (take i cs ++ replicate n None) ∧
    ∀ j c, (i <= j)%nat → cs !! j = Some (Some c) → MsgClose (w_sockfd r) (Z.of_nat j) ∈ l).
Proof.
  intros Hg Hr Hal. revert i cs w. induction n as [|n IH]; intros i cs w Hin Hcs; cbn [close_connections].
  - apply ewp_ret. rewrite take_ge, app_nil_r by lia. split; [done|]. intros j c Hj Hc. apply lookup_lt_Some in Hc. lia.
  - destruct (lookup_lt_is_Some_2 cs i) as [o Ho]; [lia|]. apply ewp_bind.
    eapply ewp_conn_cell; [apply with_cells_has; [lia|exact Ho]|]. apply ewp_bind.
    eapply (ewp_mono _ _ _ (λ _ s' _ l, s' = with_cells s a d (<[i := None]> cs) ∧
      ∀ c, o = Some c → MsgClose (w_sockfd r) (Z.of_nat i) ∈ l)).
    { destruct o as [c|].
      - apply ewp_bind. eapply ewp_conn_fd; [by exists r|]. eapply ewp_mono; [by eapply cleanup_cells; [| |lia|]|].
        intros [] s' w' l [-> Hl]. split; [done|]. by intros ? _.
      - apply ewp_ret. by rewrite list_insert_id. }
    intros [] s1 w1 l1 [-> Hl1]. replace (Z.of_nat i + 1) with (Z.of_nat (S i)) by lia.
    eapply ewp_mono; [apply IH; [lia|by rewrite length_insert]|]. intros [] s2 w2 l2 [-> Hl2]. split.
    + f_equal. rewrite (take_S_r _ _ None) by (apply list_lookup_insert_eq; lia). rewrite take_insert_ge by lia.
      by rewrite <- app_assoc.
    + intros j c Hj Hc. cbn [app]. destruct (decide (j = i)) as [->|Hne].
      * apply elem_of_app. left. apply (Hl1 c). congruence.
      * apply elem_of_app. right. apply (Hl2 j c); [lia|]. by rewrite list_lookup_insert_ne.
Qed.

(** The registry with the website at [a] off its switch. *)
Definition off_switch (r : registry) (a : nat) (x : website_t) : registry :=
  Registry (initialized r) (default_website_options r) (websites r) (<[a := put_sockfd (-1) x]> (heap r)) (next_addr r).

Lemma put_sockfd_same x : w_sockfd x = -1 → put_sockfd (-1) x = x.
Proof. destruct x. cbn. by intros ->. Qed.

Lemma ewp_site_at s a r w (P : website_t → app_t → W → list call → Prop) :
  heap (a_sites s) !! a = Some r → P r s w [] → ewp (site_at a) s w P.
Proof. intros Hr HP. unfold site_at. apply ewp_bind, ewp_get. eapply ewp_pure; [by rewrite Hr|done]. Qed.

Lemma ewp_upd_data s a d f w (P : unit → app_t → W → list call → Prop) :
  a_data s !! a = Some d → P tt (App (a_sites s) (<[a := f d]> (a_data s)) (a_modules s)) w [] → ewp (upd_data a f) s w P.
Proof. intros Hd HP. unfold upd_data. apply ewp_bind. eapply ewp_data_at; [exact Hd|]. by apply ewp_bind, ewp_get, ewp_put. Qed.

(** The connections of a website that is on a switch are closed. *)
Definition closes (r : website_t) (d : website_data_t) (l : list call) : Prop :=
  w_sockfd r ≠ -1 → ∀ j c, wd_connections d !! j = Some (Some c) → MsgClose (w_sockfd r) (Z.of_nat j) ∈ l.

Lemma disable_wp s a r d w :
  sites_ok s → a ∈ websites (a_sites s) → heap (a_sites s) !! a = Some r → a_data s !! a = Some d →
  length (wd_connections d) = FD_SETSIZE → entries_alive s d →
  ewp (disable a) s w (λ _ s' _ l,
    closes r d l ∧ ∃ d', module_data d' = module_data d ∧
      s' = App (off_switch (a_sites s) a r) (<[a := d']> (a_data s)) (a_modules s)).
Proof.
  intros Hs Ha Hr Hd Hl Hal. unfold zimr_website_disable. apply ewp_bind. eapply ewp_site_at; [exact Hr|].
  apply ewp_bind. eapply ewp_data_at; [exact Hd|]. apply ewp_bind.
  eapply (ewp_mono _ _ _ (λ _ s' _ l, closes r d l ∧
    ∃ d', module_data d' = module_data d ∧
      s' = App (off_switch (a_sites s) a r) (<[a := d']> (a_data s)) (a_modules s))).
  2:{ intros [] s1 w1 l1 [Hc (d1 & Hm1 & ->)]. eapply ewp_upd_data; [apply lookup_insert_eq|].
      split; [by rewrite app_nil_r|]. exists (put_status WS_STATUS_DISABLED d1). cbn. by rewrite insert_insert_eq. }
  destruct (Z.eqb_spec (w_sockfd r) (-1)) as [E|E].
  { apply ewp_ret. split; [by intros ?|]. exists d. split; [done|]. rewrite (insert_id _ _ _ Hd). unfold off_switch.
    rewrite (put_sockfd_same _ E), (insert_id _ _ _ Hr). by destruct s as [[] ? ?]. }
  apply ewp_bind. assert (s = with_cells s a d (wd_connections d)) as Hcells.
  { unfold with_cells. rewrite insert_id; [by destruct s|]. rewrite Hd. by destruct d. }
  rewrite Hcells at 1. change 0 with (Z.of_nat 0).
  eapply ewp_mono; [apply (close_connections_wp s a r d FD_SETSIZE 0); [by apply site_by_switch|exact Hr|exact Hal|lia|exact Hl]|].
  intros [] s1 w1 l1 [-> Hcl]. cbn [take app]. apply ewp_bind. eapply ewp_data_at; [apply lookup_insert_eq|].
  apply ewp_bind. eapply ewp_site_at; [exact Hr|]. cbv zeta. apply ewp_bind.
  set (s2 := with_cells _ _ _ _). eapply (ewp_mono _ _ _ (λ _ s' _ _, s' = s2)).
  { destruct (_ =? WS_STATUS_ENABLED); cbn [only_if]; [|by apply ewp_ret].
    apply ewp_bind, ewp_ask, ewp_bind, ewp_tell, ewp_tell. done. }
  intros [] s3 w3 l3 ->. apply ewp_bind, ewp_tell, ewp_bind, ewp_tell. unfold put_site. apply ewp_bind.
  eapply ewp_site_at; [exact Hr|]. apply ewp_bind, ewp_get. cbv zeta. apply ewp_put. split.
  - intros _ j c Hj. apply elem_of_app. left. apply (Hcl j c); [lia|exact Hj].
  - eexists. split; [|reflexivity]. reflexivity.
Qed.

Lemma registry_inv_off r a x : registry_inv r → heap r !! a = Some x → registry_inv (off_switch r a x).
Proof.
  intros [Hn Hl Hf Hrec] Hx. split; cbn; [done|..].
  - intros b Hb. destruct (decide (a = b)) as [<-|Hne]; [rewrite lookup_insert_eq; by eexists|].
    rewrite lookup_insert_ne by done. by apply Hl.
  - intros b Hb. destruct (decide (a = b)) as [<-|Hne]; [apply Hf; by eexists|].
    rewrite lookup_insert_ne in Hb by done. by apply Hf.
  - intros b w Hb. destruct (decide (a = b)) as [<-|Hne].
    + rewrite lookup_insert_eq in Hb. injection Hb as <-. apply (Hrec a x Hx).
    + rewrite lookup_insert_ne in Hb by done. by apply (Hrec b).
Qed.

(** The state without a website. *)
Definition without_site (s : app_t) (a : nat) : app_t :=
  let r := a_sites s in
  App (Registry true (default_website_options r) (filter (λ b, b ≠ a) (websites r)) (delete a (heap r)) (next_addr r))
    (delete a (a_data s)) (a_modules s).

Lemma destroy_wp s a r d w :
  sites_ok s → a ∈ websites (a_sites s) → heap (a_sites s) !! a = Some r → a_data s !! a = Some d →
  length (wd_connections d) = FD_SETSIZE → entries_alive s d →
  ewp (destroy a) s w (λ _ s' _ l, closes r d l ∧ s' = without_site s a).
Proof.
  intros Hs Ha Hr Hd Hl Hal. unfold zimr_website_destroy. apply ewp_bind. eapply ewp_data_at; [exact Hd|].
  apply ewp_bind. eapply ewp_mono; [by eapply disable_wp|]. intros [] s1 w1 l1 [Hc (d1 & Hm1 & ->)].
  apply ewp_bind. eapply ewp_data_at; [apply lookup_insert_eq|]. apply ewp_bind.
  eapply ewp_mono; [apply call_modules_quiet; by rewrite Hm1|]. intros [] s2 w2 l2 ->. apply ewp_bind, ewp_get, ewp_bind.
  eapply ewp_pure.
  { apply website_remove_spec; [by apply registry_inv_off; [apply Hs|]|apply Hs|].
    cbn. rewrite lookup_insert_eq. by eexists. }
  apply ewp_put. split.
  - intros Hfd j c Hj. cbn [app]. apply elem_of_app. left. by eapply Hc.
  - unfold without_site. cbn. by rewrite !delete_insert_eq.
Qed.

Lemma sites_ok_without s a : sites_ok s → sites_ok (without_site s a).
Proof.
  intros [Hr Hi Hd Hn]. split; [by apply registry_inv_remove|done|..]; cbn.
  - intros b [Hne Hb]%list_elem_of_filter. rewrite lookup_delete_ne by done. by apply Hd.
  - intros b c x y [Hb1 Hb2]%list_elem_of_filter [Hc1 Hc2]%list_elem_of_filter Hx Hy.
    rewrite lookup_delete_ne in Hx, Hy by done. by apply (Hn b c x y).
Qed.

(** ** The two loops *)

#[local] Notation destroy_all := (destroy_websites ext run_callback dlsym).
#[local] Notation unload_all := (unload_modules ext dlsym run_module).

(** All connections of the websites are closed. *)
Definition all_closed (s : app_t) (l : list call) : Prop :=
  ∀ a r d, a ∈ websites (a_sites s) → heap (a_sites s) !! a = Some r → a_data s !! a = Some d → closes r d l.

Lemma closes_app r d l l' : closes r d l ∨ closes r d l' → closes r d (l ++ l').
Proof. intros [H|H] Hfd j c Hj; apply elem_of_app; [left|right]; by eapply H. Qed.

Lemma filter_head (a : nat) l : NoDup (a :: l) → filter (λ b, b ≠ a) (a :: l) = l.
Proof.
  intros [Ha _]%NoDup_cons. rewrite filter_cons_False by auto. apply filter_all, Forall_forall. by intros b Hb ->.
Qed.

Lemma destroy_websites_wp n (t : lib_t) w :
  sites_ok (lb_app t) → length (websites (a_sites (lb_app t))) = n →
  ewp (destroy_all n) t w (λ _ t' _ l,
    all_closed (lb_app t) l ∧ websites (a_sites (lb_app t')) = [] ∧ a_modules (lb_app t') = a_modules (lb_app t) ∧
    t' = put_app (lb_app t') t).
Proof.
  revert t w. induction n as [|n IH]; intros t w Hs Hn; cbn [destroy_websites]; apply ewp_bind, ewp_get;
    destruct (websites (a_sites (lb_app t))) as [|a rest] eqn:Ew; try discriminate Hn.
  { apply ewp_ret. split; [intros a r d Ha; rewrite Ew in Ha; by apply elem_of_nil in Ha|]. split; [done|]. split; [done|]. by destruct t. }
  pose proof Hs as [Hr _ Hd _]. assert (a ∈ websites (a_sites (lb_app t))) as Ha by (rewrite Ew; by left).
  destruct (Hd a Ha) as (d & Hda & Hl & Hal). destruct (ri_live _ Hr a Ha) as [r Hra].
  apply ewp_bind, ewp_lift. eapply ewp_mono; [by eapply destroy_wp|]. intros [] s1 w1 l1 [Hc ->].
  assert (websites (a_sites (without_site (lb_app t) a)) = rest) as Hrest.
  { cbn. rewrite Ew. apply filter_head. rewrite <- Ew. apply Hr. }
  eapply ewp_mono; [apply IH; [by apply sites_ok_without|cbn [put_app lb_app]; rewrite Hrest; by injection Hn]|].
  intros [] t2 w2 l2 (Hcl & Hw & Hm & Ht2). split_and!; [|done|by rewrite Hm|by rewrite Ht2 at 1].
  intros b r' d' Hb Hrb Hdb. cbn [app]. destruct (decide (b = a)) as [->|Hne].
  - apply closes_app. left. by replace r' with r by congruence; replace d' with d by congruence.
  - apply closes_app. right. apply (Hcl b r' d'); cbn [put_app lb_app];
      [rewrite Hrest; rewrite Ew in Hb; by apply elem_of_cons in Hb as [->|Hb]|cbn; by rewrite lookup_delete_ne..].
Qed.

(** The loaded modules are there, each once. *)
Definition modules_ok (t : lib_t) : Prop :=
  NoDup (loaded_modules t) ∧ ∀ m, m ∈ loaded_modules t → is_Some (a_modules (lb_app t) !! m).

Lemma unload_modules_wp n (t : lib_t) w :
  modules_ok t → length (loaded_modules t) = n →
  ewp (unload_all n) t w (λ _ t' _ l, loaded_modules t' = [] ∧ a_sites (lb_app t') = a_sites (lb_app t) ∧
    lb_initialized t' = lb_initialized t ∧
    ∀ m x, m ∈ loaded_modules t → a_modules (lb_app t) !! m = Some x → DlClose (m_handle x) ∈ l).
Proof.
  revert t w. induction n as [|n IH]; intros t w [Hnd Hal] Hn; cbn [unload_modules]; apply ewp_bind, ewp_get;
    destruct (loaded_modules t) as [|m rest] eqn:El; try discriminate Hn.
  { apply ewp_ret. split_and!; [done..|]. intros m x Hm. by apply elem_of_nil in Hm. }
  destruct (Hal m) as [x Hx]; [by left|]. apply NoDup_cons in Hnd as [Hm Hnd].
  assert (∀ (t' : lib_t) (w' : W) (P : module_t → lib_t → W → list call → Prop),
    a_modules (lb_app t') = a_modules (lb_app t) → P x t' w' [] → ewp (lift (module_at m)) t' w' P) as Hat.
  { intros t' w' P E HP. eapply ewp_lift, ewp_module_at; [by rewrite E|]. by destruct t'. }
  apply ewp_bind. unfold zimr_unload_module. apply ewp_bind. eapply ewp_pure; [done|].
  apply ewp_bind, Hat; [done|]. apply ewp_bind, ewp_get. rewrite El. cbn [without_module].
  apply ewp_bind, ewp_bind, Hat; [done|]. rewrite strcmp_eq_refl. apply ewp_ret.
  apply ewp_bind. unfold upd at 1. apply ewp_bind, ewp_get, ewp_put. set (t1 := put_loaded rest t).
  apply ewp_bind, (ewp_mono _ _ _ (λ _ t' _ _, t' = t1)).
  { destruct (dlsym _ _) as [f|]; [|by apply ewp_ret]. apply ewp_bind. eapply ewp_mono; [apply Hmodule|].
    intros b t' w' l' ->. by apply ewp_ret. }
  intros [] ? w1 l1 ->. apply ewp_bind, ewp_tell. unfold upd. apply ewp_bind, ewp_get, ewp_put.
  set (t2 := put_module m None t1).
  eapply ewp_mono; [apply (IH t2)|].
  - split; [done|]. intros m' Hm'. cbn in Hm'. change (is_Some (delete m (a_modules (lb_app t)) !! m')).
    rewrite lookup_delete_ne by (intros ->; done). apply Hal. by right.
  - by injection Hn.
  - intros [] t3 w3 l3 (H1 & H2 & H3 & H4). split_and!; [done..|].
    intros m' x' Hm' Hx'. apply elem_of_cons in Hm' as [->|Hm'].
    + replace x' with x by congruence. cbn [app]. set_solver.
    + cbn [app]. apply elem_of_app. right. apply (H4 m' x' Hm').
      change (delete m (a_modules (lb_app t)) !! m' = Some x'). by rewrite lookup_delete_ne by (intros ->; done).
Qed.

(** C33: [zimr_shutdown] returns: its loops end after as many rounds as there are websites
    and modules, whatever connections are open.  Every connection of a website that is on
    a switch is closed, every module is, and nothing is left in the two lists.  The modules
    that the websites have taken must still be loaded ([entries_alive]; [destroy_unloaded]
    shows what happens otherwise: zimr_unload_module does not take a module from the
    websites); the functions of the application and of the modules have to return, and to
    leave the library alone. *)
Theorem zimr_shutdown_ends (t : lib_t) w :
  sites_ok (lb_app t) → modules_ok t → lb_initialized t = true →
  ewp (zimr_shutdown ext run_callback dlsym run_module) t w (λ _ t' _ l,
    lb_initialized t' = false ∧ websites (a_sites (lb_app t')) = [] ∧ loaded_modules t' = [] ∧
    all_closed (lb_app t) l ∧
    ∀ m x, m ∈ loaded_modules t → a_modules (lb_app t) !! m = Some x → DlClose (m_handle x) ∈ l).
Proof.
  intros Hs Hm Hi. unfold zimr_shutdown. apply ewp_bind, ewp_get. rewrite Hi. cbn [negb].
  apply ewp_bind. unfold upd. apply ewp_bind, ewp_get, ewp_put. set (t0 := put_initialized false t).
  apply ewp_bind, ewp_get, ewp_bind. eapply ewp_mono; [by apply (destroy_websites_wp _ t0)|].
  intros [] t1 w1 l1 (Hcl & Hw & Hmods & Ht1). apply ewp_bind, ewp_get, ewp_bind.
  eapply ewp_mono; [apply unload_modules_wp; [|done]|].
  { destruct Hm as [Hnd Hm]. rewrite Ht1. split; [exact Hnd|]. intros m Hmm. cbn [put_app lb_app]. rewrite Hmods.
    by apply Hm. }
  intros [] t2 w2 l2 (H1 & H2 & H3 & H4). unfold zimr_close_request_log. apply ewp_bind, ewp_get, ewp_tell.
  split_and!.
  - by rewrite H3, Ht1.
  - by rewrite H2.
  - done.
  - intros a r d Ha Hr Hd. cbn [app]. apply closes_app. left. by eapply Hcl.
  - intros m x Hmm Hx. cbn [app]. apply elem_of_app. right. apply elem_of_app. left. apply (H4 m x); [by rewrite Ht1|by rewrite Hmods].
Qed.
End shutdown.

(** ** A sample *)

(** One website with an open connection, and one module that has no functions. *)
Definition end_registry : registry := Registry true 1 [0%nat] {[0%nat := form_website]} 1.
Definition end_data : website_data_t :=
  put_connections (<[4%nat := Some (ConnData 0 0 [] None None (FileRead (-1) 0 0))]> (replicate FD_SETSIZE None))
    (put_modules [ModuleData 0 []] new_website_data).
Definition end_lib : lib_t :=
  Lib (App end_registry {[0%nat := end_data]} {[0%nat := Module (str "auth") 9]}) true [0%nat] 1 5.

Lemma end_sites_ok : sites_ok (lb_app end_lib).
Proof.
  split.
  - split; cbn.
    + apply NoDup_singleton.
    + intros a ->%list_elem_of_singleton. by eexists.
    + intros a [w [<- _]%lookup_singleton_Some]. lia.
    + intros a w [_ <-]%lookup_singleton_Some. split; [reflexivity|]. split; [reflexivity|]. apply Nat.ltb_lt. reflexivity.
  - reflexivity.
  - cbn. intros a ->%list_elem_of_singleton. exists end_data. split; [reflexivity|].
    split; [cbn; by rewrite length_insert, length_replicate|].
    constructor; [|constructor]. by eexists.
  - cbn. intros a b w v ->%list_elem_of_singleton ->%list_elem_of_singleton. done.
Qed.

Lemma zimr_shutdown_ends_witness :
  ∃ t' w' l, zimr_shutdown quiet_ext no_callback no_symbol (λ _ _, mret false) end_lib tt = Done (tt, t', w', l) ∧
    websites (a_sites (lb_app t')) = [] ∧ MsgClose 3 4 ∈ l ∧ DlClose 9 ∈ l.
Proof.
  destruct (zimr_shutdown_ends quiet_ext no_callback no_symbol (λ _ _, mret false)
    ltac:(intros; by apply ewp_ret) ltac:(intros; by apply ewp_ret) end_lib tt) as ([] & t' & w' & l & E & H).
  - exact end_sites_ok.
  - split; [apply NoDup_singleton|]. intros m ->%list_elem_of_singleton. by eexists.
  - reflexivity.
  - destruct H as (_ & Hw & _ & Hc & Hm). exists t', w', l. split; [exact E|]. split; [exact Hw|]. split.
    + refine (Hc 0%nat form_website end_data _ eq_refl eq_refl _ 4%nat _ _); [by left|discriminate|].
      apply list_lookup_insert_eq. rewrite length_replicate. apply Nat.ltb_lt. reflexivity.
    + refine (Hm 0%nat (Module (str "auth") 9) _ eq_refl). by left.
Defined.

(** ** What goes wrong *)

Section wrong.
Context {W : Type} (ext : call → W → answer * W) (run_callback : nat → conn_ptr → callback_arg → am W unit).
Context (dlsym : nat → bytes → option nat) (run_module : nat → module_arg → lm W bool).
Context (getpwuid : Z → option bytes) (uid : Z).

(** A website whose module was unloaded cannot be destroyed: the pointer to the module is
    followed. *)
Lemma destroy_unloaded s a r d e l w :
  heap (a_sites s) !! a = Some r → w_sockfd r = -1 → a_data s !! a = Some d → module_data d = e :: l →
  a_modules s !! md_module e = None → zimr_website_destroy ext run_callback dlsym a s w = Fault UseAfterFree.
Proof.
  intros Hr Hfd Hd Hm He. unfold zimr_website_destroy.
  rewrite (em_bind_quiet _ _ s w d s) by (apply ewp_quiet; by eapply ewp_data_at).
  set (s1 := App (a_sites s) (<[a := put_status WS_STATUS_DISABLED d]> (a_data s)) (a_modules s)).
  rewrite (em_bind_quiet _ _ s w tt s1).
  2:{ apply ewp_quiet. unfold zimr_website_disable. apply ewp_bind. eapply ewp_site_at; [exact Hr|].
      apply ewp_bind. eapply ewp_data_at; [exact Hd|]. rewrite Hfd. by apply ewp_bind, ewp_ret, (ewp_upd_data s a d). }
  rewrite (em_bind_quiet _ _ s1 w (put_status WS_STATUS_DISABLED d) s1)
    by (apply ewp_quiet; eapply ewp_data_at; [apply lookup_insert_eq|done]).
  cbn [put_status module_data]. rewrite Hm. cbn [call_modules].
  unfold module_at, mbind, em_bind, get_state, pure. cbn [a_modules s1]. by rewrite He.
Qed.

(** Nor can a connection of it be closed. *)
Lemma cleanup_unloaded s a r d e l i c w :
  website_get_by_sockfd (a_sites s) (w_sockfd r) = Done (Some a) → heap (a_sites s) !! a = Some r →
  a_data s !! a = Some d → module_data d = e :: l → a_modules s !! md_module e = None →
  has_cell s a i (Some c) → fr_fd (fileread_data c) = -1 →
  cleanup_connection ext run_callback dlsym (w_sockfd r) (Z.of_nat i) s w = Fault UseAfterFree.
Proof.
  intros Hg Hr Hd Hm He Hc Hf. unfold cleanup_connection.
  rewrite (em_bind_quiet _ _ s w a s) by (apply ewp_quiet; by eapply ewp_site_of).
  rewrite (em_bind_quiet _ _ s w d s) by (apply ewp_quiet; by eapply ewp_data_at).
  apply em_tell_fault. set (w1 := snd _).
  rewrite (em_bind_quiet _ _ s w1 tt s).
  2:{ apply ewp_quiet. unfold cleanup_fileread. apply ewp_bind. eapply ewp_conn_at; [exact Hc|]. cbv zeta.
      rewrite Hf. by apply ewp_ret. }
  rewrite (em_bind_quiet _ _ s w1 d s) by (apply ewp_quiet; by eapply ewp_data_at).
  rewrite Hm. cbn [call_modules]. unfold module_at, mbind, em_bind, get_state, pure. by rewrite He.
Qed.

Lemma find_module_none name l (t : lib_t) (w : W) :
  Forall (λ m, ∃ x, a_modules (lb_app t) !! m = Some x ∧ m_name x ≠ name) l →
  find_module name l t w = Done (None, t, w, []).
Proof.
  induction 1 as [|m l (x & Hx & Hn) _ IH]; [done|]. cbn [find_module].
  rewrite (em_bind_quiet _ _ t w x t).
  - by rewrite strcmp_eq_ne by (by intros ->).
  - apply ewp_quiet. eapply ewp_lift, ewp_module_at; [exact Hx|]. by destruct t.
Qed.

(** The array for "mod", the name and ".so" has no room for the terminator: the load of
    every module that is not yet loaded writes behind it. *)
Lemma load_module_overflow name (t : lib_t) (w : W) :
  (length name < ZM_MODULE_NAME_MAX_LEN)%nat →
  Forall (λ m, ∃ x, a_modules (lb_app t) !! m = Some x ∧ m_name x ≠ name) (loaded_modules t) →
  zimr_load_module ext dlsym run_module getpwuid uid name t w = Fault OutOfBounds.
Proof.
  intros Hn Hl. unfold zimr_load_module. rewrite (proj2 (Nat.leb_gt _ _)) by lia.
  rewrite (em_bind_quiet _ _ t w t t) by done.
  rewrite (em_bind_quiet _ _ t w None t) by (by apply find_module_none).
  apply em_tell_fault. unfold pure, strcpy_into, mbind, em_bind.
  assert (length (str "mod" ++ name ++ str ".so") = length name + 6)%nat as ->.
  { rewrite !length_app. assert (length (str "mod") = 3 ∧ length (str ".so") = 3)%nat as [-> ->] by done. lia. }
  by rewrite Nat.ltb_irrefl.
Qed.
End wrong.

Section faults.
Definition no_home (uid : Z) : option bytes := None.

(** A module that reports an error when it starts stays in the list: the second request
    for it finds it loaded, and it has never started. *)
Definition failing_symbol (h : nat) (name : bytes) : option nat :=
  if strcmp_eq name (str "modzimr_init") || strcmp_eq name (str "modzimr_err_occured") then Some 1%nat else None.

Lemma failed_module_is_loaded :
  match add_module quiet_ext failing_symbol (λ _ _, mret true) (str "bad") 7 end_lib tt with
  | Done (None, t, _, _) =>
      match zimr_load_module quiet_ext failing_symbol (λ _ _, mret true) no_home 0 (str "bad") t tt with
      | Done (Some 1%nat, _, _, []) => True
      | _ => False
      end
  | _ => False
  end.
Proof. vm_compute. exact I. Qed.

(** A website keeps the pointer to its module when the module is unloaded, and the next
    reload follows it; so does the end of the library. *)
Lemma unloaded_module_used :
  match zimr_unload_module quiet_ext no_symbol (λ _ _, mret false) (Some 0%nat) end_lib tt with
  | Done (_, t, w, _) =>
      zimr_reload_module quiet_ext no_callback no_symbol (λ _ _, mret false) no_home 0 (str "auth") t w
      = Fault UseAfterFree ∧
      zimr_shutdown quiet_ext no_callback no_symbol (λ _ _, mret false) t w = Fault UseAfterFree
  | Fault _ => False
  end.
Proof. vm_compute. done. Qed.

(** A module that cannot be loaded is unloaded all the same. *)
Lemma reload_missing_crash :
  zimr_reload_module quiet_ext no_callback no_symbol (λ _ _, mret false) no_home 0 (replicate 100 97) end_lib tt
  = Fault NullDeref.
Proof. vm_compute. reflexivity. Qed.

(** Eleven websites with a module are too many for the arrays of a reload. *)
Definition eleven : list nat := seq 0 11.
Definition small_data : website_data_t :=
  WebsiteData WS_STATUS_DISABLED [] 0 None None 0 None [] [] [] [] [ModuleData 0 []] [].
Definition eleven_lib : lib_t :=
  Lib (App (Registry true 1 eleven (list_to_map ((λ a, (a, form_website)) <$> eleven)) 11)
         (list_to_map ((λ a, (a, small_data)) <$> eleven)) {[0%nat := Module (str "auth") 9]}) true [0%nat] 1 5.

Lemma reload_eleven_overflow :
  zimr_reload_module quiet_ext no_callback no_symbol (λ _ _, mret false) no_home 0 (str "auth") eleven_lib tt
  = Fault OutOfBounds.
Proof. vm_compute. reflexivity. Qed.

(** The registry of website.c stays initialized when the library ends: a second start does
    not get past it. *)
Lemma second_start_asserts :
  match (_ ← zimr_shutdown quiet_ext no_callback no_symbol (λ _ _, mret false);
         zimr_init (λ c w, (Answer 1 [] false 0 0 [], w))) end_lib tt with
  | Fault AssertFailed => True
  | _ => False
  end.
Proof. vm_compute. exact I. Qed.

(** So does a start after one that could not open the log. *)
Lemma failed_start_asserts :
  let ext (c : call) (w : unit) := match c with OpenLog => (Answer (-13) [] false 0 0 [], w)
                                   | _ => (Answer 1 [] false 0 0 [], w) end in
  match zimr_init ext (Lib (App registry_static ∅ ∅) false [] 0 (-1)) tt with
  | Done (false, t, w, _) => zimr_init ext t w = Fault AssertFailed
  | _ => False
  end.
Proof. vm_compute. reflexivity. Qed.
End faults.
