(* ===== verification/WebappInv.v ===== *)
(** lib/zimr.c: what holds between the events of an application.  An invariant of the
    websites, their connections and the descriptors, which every function of the library
    and every event keeps, as long as the functions of the application keep it.  The file of
    a connection is watched only while the connection is there. *)

From Stdlib Require Import ZArith Lia String.
From stdpp Require Import gmap.
From S2P Require Import FdHash MsgSwitch.
From S2P Require Export WebappStream WebappEnd.

Local Open Scope Z_scope.

(** ** The watched files *)

(** The files that are watched after the calls of a history, with the connection that
    [zimr_file_handler] gets. *)
Definition watch_step (m : gmap Z conn_ptr) (c : call) : gmap Z conn_ptr :=
  match c with ZfdSet fd p => <[fd := p]> m | ZfdClr fd => delete fd m | _ => m end.
Definition watched (h : list call) : gmap Z conn_ptr := foldl watch_step ∅ h.

Definition unwatched (h : list call) (p : conn_ptr) : Prop := ∀ fd, watched h !! fd ≠ Some p.

Lemma watched_snoc h c : watched (h ++ [c]) = watch_step (watched h) c.
Proof. unfold watched. by rewrite foldl_app. Qed.

(** ** The invariant *)

(** The file that a connection sends. *)
Definition file_of (o : option conn_data_t) : Z :=
  match o with Some c => fr_fd (fileread_data c) | None => -1 end.

(** The connection in cell [i]: its number; a file comes behind the headers; the bytes that
    have come; and the request is read once it is complete. *)
Record web_conn_ok (i : nat) (c : conn_data_t) : Prop := {
  wo_id : ∀ k, cd_connection c = Some k → cn_sockfd (wc_conn k) = Z.of_nat i;
  wo_file : fr_fd (fileread_data c) ≠ -1 →
    ∃ k, cd_connection c = Some k ∧ FL_ISSET (cn_status (wc_conn k)) CONN_STATUS_SENT_HEADERS = true;
  wo_received : size_received c = Z.of_nat (length (cd_data c)) mod 2 ^ 64;
  wo_complete : is_Some (cd_connection c) → size_received c = cd_size c
}.

Record site_data_ok (d : website_data_t) : Prop := {
  sd_cells : length (wd_connections d) = FD_SETSIZE;
  sd_conns : ∀ i c, wd_connections d !! i = Some (Some c) → web_conn_ok i c
}.

(** A website has a switch while it is switched on or about to be. *)
Definition switched (r : website_t) (d : website_data_t) : Prop :=
  w_sockfd r ≠ -1 ∧ (wd_status d = WS_STATUS_ENABLING ∨ wd_status d = WS_STATUS_ENABLED) ∨
  w_sockfd r = -1 ∧ (wd_status d = WS_STATUS_WANT_ENABLE ∨ wd_status d = WS_STATUS_DISABLED).

(** Who uses a descriptor: a website for its switch, or a connection for its file. *)
Inductive owner := OwnSwitch (a : nat) | OwnFile (a i : nat).

Definition owns (s : app_t) (fd : Z) (o : owner) : Prop :=
  match o with
  | OwnSwitch a => ∃ r, heap (a_sites s) !! a = Some r ∧ w_sockfd r = fd
  | OwnFile a i => ∃ c, has_cell s a i c ∧ file_of c = fd
  end.

(** The connection of a watched file is there, and sends this file. *)
Definition watch_ok (s : app_t) (fd : Z) (p : conn_ptr) : Prop :=
  fd ≠ -1 ∧
  ∃ i c r, snd p = Z.of_nat i ∧ has_cell s (fst p) i (Some c) ∧ fr_fd (fileread_data c) = fd ∧
    heap (a_sites s) !! fst p = Some r ∧ w_sockfd r ≠ -1.

Section invariant.
(** [opened w fd]: the descriptor is open in the world. *)
Context {W : Type} (opened : W → Z → Prop).
Implicit Types (s : app_t) (w : W) (h : list call).

Record app_inv s w h : Prop := {
  ai_registry : registry_inv (a_sites s);
  ai_init : initialized (a_sites s) = true;
  ai_data : ∀ a, a ∈ websites (a_sites s) ↔ is_Some (a_data s !! a);
  ai_shape : ∀ a d, a_data s !! a = Some d → site_data_ok d;
  ai_switched : ∀ a r d, heap (a_sites s) !! a = Some r → a_data s !! a = Some d → switched r d;
  ai_owner : ∀ fd o o', fd ≠ -1 → owns s fd o → owns s fd o' → o = o';
  ai_open : ∀ fd o, fd ≠ -1 → owns s fd o → opened w fd;
  ai_watch : ∀ fd p, watched h !! fd = Some p → watch_ok s fd p
}.

Lemma app_inv_here s w h a d : app_inv s w h → a_data s !! a = Some d → ∃ r, heap (a_sites s) !! a = Some r.
Proof. intros H Hd. apply (ri_live _ (ai_registry _ _ _ H)). apply (ai_data _ _ _ H). by exists d. Qed.

Lemma app_inv_cell_range s w h a d i o :
  app_inv s w h → a_data s !! a = Some d → wd_connections d !! i = Some o → has_cell s a i o.
Proof.
  intros H Hd Hi. split; [|by exists d]. apply lookup_lt_Some in Hi.
  by rewrite (sd_cells _ (ai_shape _ _ _ H _ _ Hd)) in Hi.
Qed.

Lemma has_cell_ok s w h a i c : app_inv s w h → has_cell s a i (Some c) → web_conn_ok i c.
Proof. intros H (_ & d & Hd & Hc). by eapply sd_conns; [eapply ai_shape|]. Qed.

Lemma has_cell_inj s a i o o' : has_cell s a i o → has_cell s a i o' → o = o'.
Proof. intros (_ & d & Hd & Hc) (_ & d' & Hd' & Hc'). congruence. Qed.

(** ** The world and the history *)

Lemma app_inv_world s w h w' h' :
  app_inv s w h → (∀ fd o, fd ≠ -1 → owns s fd o → opened w fd → opened w' fd) →
  (∀ fd p, watched h' !! fd = Some p → watched h !! fd = Some p ∨ watch_ok s fd p) → app_inv s w' h'.
Proof.
  intros [H1 H2 H3 H4 H5 H6 H7 H8] Ho Hw. split; try done.
  - intros fd o Hfd Hown. eapply Ho; [done..|]. by eapply H7.
  - intros fd p Hp. destruct (Hw fd p Hp) as [Hp'|Hp']; [by apply H8|done].
Qed.

(** ** A cell *)

Lemma has_cell_with_conn s a i o o' b j x :
  has_cell s a i o →
  has_cell (with_conn s a i o') b j x ↔ (b = a ∧ j = i ∧ x = o') ∨ (¬ (b = a ∧ j = i) ∧ has_cell s b j x).
Proof.
  intros (Hi & d & Hd & Hc). assert (i < length (wd_connections d))%nat as Hlt by by eapply lookup_lt_Some.
  unfold has_cell, with_conn. cbn [a_data a_sites]. destruct (decide (b = a)) as [->|Hne].
  - rewrite lookup_alter_eq, Hd. destruct (decide (j = i)) as [->|Hne].
    + split.
      * intros (_ & d' & [= <-] & Hx). cbn in Hx. rewrite list_lookup_insert_eq in Hx by done. injection Hx as <-. by left.
      * intros [(_ & _ & ->)|[[] _]]; [|done]. split; [done|]. eexists. split; [done|]. cbn. by apply list_lookup_insert_eq.
    + split.
      * intros (Hj & d' & [= <-] & Hx). cbn in Hx. rewrite list_lookup_insert_ne in Hx by done.
        right. split; [tauto|]. split; [done|]. by exists d.
      * intros [(_ & -> & _)|(_ & Hj & d' & Hd' & Hx)]; [done|]. split; [done|]. eexists. split; [done|]. cbn.
        rewrite list_lookup_insert_ne by done. congruence.
  - rewrite lookup_alter_ne by done. split.
    + intros H. right. split; [tauto|done].
    + by intros [(-> & _)|(_ & H)].
Qed.

(** The file of the cell stays, or the cell is not watched and its file is free. *)
Definition file_change s w h a i (o o' : option conn_data_t) : Prop :=
  file_of o' = file_of o ∨
  unwatched h (a, Z.of_nat i) ∧
    (file_of o' = -1 ∨ (∀ x, ¬ owns s (file_of o') x) ∧ opened w (file_of o')).

Lemma owns_with_conn s a i o o' fd x :
  has_cell s a i o → owns (with_conn s a i o') fd x →
  owns s fd x ∨ (x = OwnFile a i ∧ fd = file_of o').
Proof.
  intros Hc. destruct x as [b|b j]; [by left|]. intros (y & Hy & Hf).
  apply (has_cell_with_conn _ _ _ _ _ _ _ _ Hc) in Hy as [(-> & -> & ->)|[_ Hy]]; [by right|]. left. by exists y.
Qed.

Lemma app_inv_cell s w h a i o o' :
  app_inv s w h → has_cell s a i o → (∀ c, o' = Some c → web_conn_ok i c) → file_change s w h a i o o' →
  app_inv (with_conn s a i o') w h.
Proof.
  intros [H1 H2 H3 H4 H5 H6 H7 H8] Hc Hok Hch. pose proof Hc as (Hi & d & Hd & Hcell).
  assert (∀ b d', a_data (with_conn s a i o') !! b = Some d' →
    b = a ∧ d' = put_connections (<[i := o']> (wd_connections d)) d ∨ b ≠ a ∧ a_data s !! b = Some d') as Hdata.
  { intros b d'. cbn. destruct (decide (b = a)) as [->|Hne].
    - rewrite lookup_alter_eq, Hd. intros [= <-]. by left.
    - rewrite lookup_alter_ne by done. by right. }
  assert (∀ fd x, fd ≠ -1 → owns (with_conn s a i o') fd x → owns s fd x ∨
    (x = OwnFile a i ∧ fd = file_of o' ∧ (∀ y, ¬ owns s fd y) ∧ opened w fd)) as Hown.
  { intros fd x Hfd Hx. destruct (owns_with_conn _ _ _ _ _ _ _ Hc Hx) as [?|[-> ->]]; [by left|].
    destruct Hch as [E|[_ [E|[Hf Ho]]]]; [|done|by right]. left. exists o. split; [done|congruence]. }
  split; cbn [with_conn a_sites]; try done.
  - intros b. rewrite H3. cbn. destruct (decide (b = a)) as [->|Hne].
    + rewrite lookup_alter_eq, Hd. split; intros _; by eexists.
    + by rewrite lookup_alter_ne.
  - intros b d' [(-> & ->)|(_ & Hb)]%Hdata; [|by eapply H4]. destruct (H4 _ _ Hd) as [Hl Hcs]. split; cbn.
    + by rewrite length_insert.
    + intros j c Hj. apply list_lookup_insert_Some in Hj as [(<- & E & _)|[_ Hj]]; [by apply Hok|by apply Hcs].
  - intros b r d' Hr [(-> & ->)|(_ & Hb)]%Hdata; [|by eapply H5]. exact (H5 _ _ _ Hr Hd).
  - intros fd x y Hfd Hx Hy. destruct (Hown _ _ Hfd Hx) as [Hx'|(-> & -> & Hf & _)], (Hown _ _ Hfd Hy) as [Hy'|(-> & Ey & Hf' & _)].
    + by eapply H6.
    + by destruct (Hf' x).
    + by destruct (Hf y).
    + done.
  - intros fd x Hfd Hx. destruct (Hown _ _ Hfd Hx) as [Hx'|(_ & _ & _ & Ho)]; [by eapply H7|done].
  - intros fd p Hp. destruct (H8 fd p Hp) as (Hfd & j & c & r & Ej & Hj & Ef & Hr & Hs). split; [done|].
    destruct p as [b m]. cbn [fst snd] in *. subst m.
    destruct (decide (b = a ∧ j = i)) as [[-> ->]|Hne].
    + pose proof (has_cell_inj _ _ _ _ _ Hc Hj) as ->. destruct Hch as [E|[Hu _]]; [|by destruct (Hu fd)].
      cbn [file_of] in E. destruct o' as [c'|]; cbn [file_of] in E; [|congruence].
      exists i, c', r. split; [done|]. split; [by eapply has_cell_with_conn; [exact Hc|left]|]. split; [congruence|done].
    + exists j, c, r. split; [done|]. split; [by eapply has_cell_with_conn; [exact Hc|right]|]. done.
Qed.
End invariant.

(** ** A website *)

(** The website at [a] with another record and other data. *)
Definition site_with (s : app_t) (a : nat) (r : website_t) (d : website_data_t) : app_t :=
  let g := a_sites s in
  App (Registry (initialized g) (default_website_options g) (websites g) (<[a := r]> (heap g)) (next_addr g))
    (<[a := d]> (a_data s)) (a_modules s).

(** The text of the record stays. *)
Definition same_name (r r' : website_t) : Prop :=
  w_url r' = w_url r ∧ w_full_url r' = w_full_url r ∧ w_path r' = w_path r ∧ (length (w_ip r') < 16)%nat.

Lemma registry_inv_put g a r r' :
  registry_inv g → heap g !! a = Some r → same_name r r' →
  registry_inv (Registry (initialized g) (default_website_options g) (websites g) (<[a := r']> (heap g)) (next_addr g)).
Proof.
  intros [Hn Hl Hf Hrec] Hr (E1 & E2 & E3 & Hip). split; cbn; [done|..].
  - intros b Hb. apply lookup_insert_is_Some. destruct (decide (a = b)); [by left|right]. split; [done|]. by apply Hl.
  - intros b Hb. apply lookup_insert_is_Some in Hb as [<-|[_ Hb]]; apply Hf; [by eexists|done].
  - intros b x Hx. apply lookup_insert_Some in Hx as [[<- <-]|[_ Hx]]; [|by eapply Hrec].
    unfold website_protocol. rewrite E1, E2, E3. destruct (Hrec a r Hr) as (F1 & F2 & _). by split_and!.
Qed.

Lemma site_with_twice s a r d r' d' : site_with (site_with s a r d) a r' d' = site_with s a r' d'.
Proof. unfold site_with. cbn. by rewrite !insert_insert_eq. Qed.

Lemma site_with_id s a r d : heap (a_sites s) !! a = Some r → a_data s !! a = Some d → site_with s a r d = s.
Proof. intros Hr Hd. unfold site_with. rewrite !insert_id by done. by destruct s as [[]]. Qed.

Lemma has_cell_site_with s a r d d0 b i o :
  a_data s !! a = Some d0 → wd_connections d = wd_connections d0 →
  has_cell (site_with s a r d) b i o ↔ has_cell s b i o.
Proof.
  intros Hd E. unfold has_cell, site_with. cbn [a_data]. destruct (decide (b = a)) as [->|Hne].
  - rewrite lookup_insert_eq, Hd. split; intros (Hi & d' & [= <-] & Hc); (split; [done|]; eexists; split; [done|congruence]).
  - by rewrite lookup_insert_ne.
Qed.

Section site.
Context {W : Type} (opened : W → Z → Prop).
Implicit Types (s : app_t) (w : W) (h : list call).
#[local] Notation inv := (app_inv opened).

(** The switch of the website stays, or none of its files is watched and the new one is free. *)
Definition switch_change s w h a (r r' : website_t) : Prop :=
  w_sockfd r' = w_sockfd r ∨
  (∀ m, unwatched h (a, m)) ∧ (w_sockfd r' = -1 ∨ (∀ x, ¬ owns s (w_sockfd r') x) ∧ opened w (w_sockfd r')).

Lemma app_inv_site s w h a r d r' d' :
  inv s w h → heap (a_sites s) !! a = Some r → a_data s !! a = Some d → same_name r r' →
  wd_connections d' = wd_connections d → switched r' d' → switch_change s w h a r r' →
  inv (site_with s a r' d') w h.
Proof.
  intros [H1 H2 H3 H4 H5 H6 H7 H8] Hr Hd Hname Hcs Hsw Hch.
  pose proof (λ b i o, has_cell_site_with s a r' d' d b i o Hd Hcs) as Hcell.
  assert (∀ fd x, fd ≠ -1 → owns (site_with s a r' d') fd x → owns s fd x ∨
    (x = OwnSwitch a ∧ fd = w_sockfd r' ∧ (∀ y, ¬ owns s fd y) ∧ opened w fd)) as Hown.
  { intros fd [b|b i] Hfd Hx.
    - destruct Hx as (x & Hx & <-). cbn in Hx. apply lookup_insert_Some in Hx as [[<- <-]|[_ Hx]].
      + destruct Hch as [E|[_ [E|[Hf Ho]]]]; [left; by exists r|done|by right].
      + left. by exists x.
    - left. destruct Hx as (c & Hc & Hf). exists c. split; [by apply Hcell|done]. }
  split; cbn [site_with a_sites a_data initialized websites heap]; try done.
  - by eapply registry_inv_put.
  - intros b. rewrite H3. destruct (decide (b = a)) as [->|Hne].
    + rewrite lookup_insert_eq, Hd. split; intros _; by eexists.
    + by rewrite lookup_insert_ne.
  - intros b x Hx. apply lookup_insert_Some in Hx as [[<- <-]|[_ Hx]]; [|by eapply H4].
    destruct (H4 _ _ Hd) as [F1 F2]. split; rewrite Hcs; done.
  - intros b x y Hx Hy. destruct (decide (b = a)) as [->|Hne].
    + rewrite lookup_insert_eq in Hx. rewrite lookup_insert_eq in Hy. congruence.
    + rewrite lookup_insert_ne in Hx by done. rewrite lookup_insert_ne in Hy by done. by eapply H5.
  - intros fd x y Hfd Hx Hy. destruct (Hown _ _ Hfd Hx) as [Hx'|(-> & -> & Hf & _)], (Hown _ _ Hfd Hy) as [Hy'|(-> & Ey & Hf' & _)].
    + by eapply H6.
    + by destruct (Hf' x).
    + by destruct (Hf y).
    + done.
  - intros fd x Hfd Hx. destruct (Hown _ _ Hfd Hx) as [Hx'|(_ & _ & _ & Ho)]; [by eapply H7|done].
  - intros fd p Hp. destruct (H8 fd p Hp) as (Hfd & i & c & x & Ei & Hc & Ef & Hx & Hs). split; [done|].
    destruct (decide (fst p = a)) as [E|Hne].
    + assert (w_sockfd r' ≠ -1) as Hs'.
      { destruct Hch as [E'|[Hu _]]; [congruence|]. destruct (Hu (snd p) fd). by rewrite Hp, <- E, <- surjective_pairing. }
      exists i, c, r'. cbn. rewrite E, lookup_insert_eq. split_and!; try done. apply Hcell. congruence.
    + exists i, c, x. cbn. rewrite lookup_insert_ne by done. split_and!; try done. by apply Hcell.
Qed.

(** A new website, which is off and has no connections. *)
Lemma app_inv_new s w h g a url ip :
  inv s w h → website_add (a_sites s) (-1) url ip = Done (g, a) →
  inv (App g (<[a := new_website_data]> (a_data s)) (a_modules s)) w h.
Proof.
  intros [H1 H2 H3 H4 H5 H6 H7 H8] Hadd. destruct (website_add_Done _ _ _ _ _ _ H1 Hadd) as (Hg & Hi & Hl & x & Hh & Hfree & Hx).
  assert (a_data s !! a = None) as Hnone.
  { apply eq_None_not_Some. intros Ha. apply H3, (ri_live _ H1) in Ha as [y Hy]. congruence. }
  assert (∀ b i c, has_cell (App g (<[a := new_website_data]> (a_data s)) (a_modules s)) b i (Some c) → has_cell s b i (Some c)) as Hcell.
  { intros b i c (Hi' & d & Hd & Hc). cbn in Hd. apply lookup_insert_Some in Hd as [[<- <-]|[_ Hd]].
    - cbn [wd_connections new_website_data] in Hc. by apply lookup_replicate in Hc as [? _].
    - split; [done|]. by exists d. }
  assert (∀ fd o, fd ≠ -1 → owns (App g (<[a := new_website_data]> (a_data s)) (a_modules s)) fd o → owns s fd o) as Hown.
  { intros fd [b|b i] Hfd Ho.
    - destruct Ho as (y & Hy & <-). cbn in Hy. rewrite Hh in Hy. apply lookup_insert_Some in Hy as [[<- <-]|[_ Hy]]; [done|by exists y].
    - destruct Ho as ([c|] & Hc & Hf); [|by destruct Hfd]. exists (Some c). split; [by apply Hcell|done]. }
  split; cbn [a_sites a_data]; try done.
  - intros b. rewrite Hl, elem_of_app, list_elem_of_singleton, H3, lookup_insert_is_Some'. naive_solver.
  - intros b d Hd. apply lookup_insert_Some in Hd as [[<- <-]|[_ Hd]]; [|by eapply H4].
    split; [apply length_replicate|]. intros i c Hc. cbn [wd_connections new_website_data] in Hc.
    by apply lookup_replicate in Hc as [? _].
  - intros b r d Hr Hd. rewrite Hh in Hr. destruct (decide (b = a)) as [->|Hne].
    + rewrite lookup_insert_eq in Hr. rewrite lookup_insert_eq in Hd. injection Hr as <-. injection Hd as <-. right. split; [done|by right].
    + rewrite lookup_insert_ne in Hr by done. rewrite lookup_insert_ne in Hd by done. by eapply H5.
  - intros fd o o' Hfd Ho Ho'. eapply H6; [done|by apply Hown..].
  - intros fd o Hfd Ho. eapply H7; [done|by apply Hown].
  - intros fd p Hp. destruct (H8 fd p Hp) as (Hfd & i & c & r & Ei & (Hi' & d & Hd & Hc) & Ef & Hr & Hs). split; [done|].
    assert (fst p ≠ a) by congruence. exists i, c, r. cbn [a_sites]. rewrite Hh. split_and!; try done.
    + split; [done|]. exists d. cbn. by rewrite lookup_insert_ne.
    + by rewrite lookup_insert_ne.
Qed.

(** A website is removed when none of its files is watched. *)
Lemma app_inv_removed s w h a :
  inv s w h → (∀ m, unwatched h (a, m)) → inv (without_site s a) w h.
Proof.
  intros [H1 H2 H3 H4 H5 H6 H7 H8] Hu.
  assert (∀ fd o, owns (without_site s a) fd o → owns s fd o) as Hown.
  { intros fd [b|b i] Ho.
    - destruct Ho as (y & Hy & <-). cbn in Hy. apply lookup_delete_Some in Hy as [_ Hy]. by exists y.
    - destruct Ho as (c & (Hi & d & Hd & Hc) & Hf). cbn in Hd. apply lookup_delete_Some in Hd as [_ Hd].
      exists c. split; [|done]. split; [done|]. by exists d. }
  split; cbn [without_site a_sites a_data initialized websites heap]; try done.
  - by apply registry_inv_remove.
  - intros b. rewrite list_elem_of_filter, H3, lookup_delete_is_Some. naive_solver.
  - intros b d Hd. apply lookup_delete_Some in Hd as [_ Hd]. by eapply H4.
  - intros b r d Hr Hd. apply lookup_delete_Some in Hr as [_ Hr]. apply lookup_delete_Some in Hd as [_ Hd]. by eapply H5.
  - intros fd o o' Hfd Ho Ho'. eapply H6; [done|by apply Hown..].
  - intros fd o Hfd Ho. eapply H7; [done|by apply Hown].
  - intros fd p Hp. destruct (H8 fd p Hp) as (Hfd & i & c & r & Ei & (Hi' & d & Hd & Hc) & Ef & Hr & Hs). split; [done|].
    assert (fst p ≠ a) as Hne. { intros <-. destruct (Hu (snd p) fd). by rewrite Hp, <- surjective_pairing. }
    exists i, c, r. cbn. rewrite lookup_delete_ne by done. split_and!; try done. split; [done|]. exists d.
    cbn. by rewrite lookup_delete_ne.
Qed.
End site.
