(* ===== verification/WebappSafe.v ===== *)
(** lib/zimr.c: the library is safe between its events.  Every function of the library keeps
    the invariant of WebappInv, if the functions of the application and of the modules do;
    so it holds in every state that an application comes to, and the handler of a file never
    gets a connection that was freed. *)

From Stdlib Require Import ZArith Lia String.
From stdpp Require Import gmap.
From S2P Require Import FdHash MsgSwitch.
From S2P Require Export WebappInv.

Local Open Scope Z_scope.

(** ** What is read *)

Section reading.
Context {W : Type}.

Lemma reads_site_at a : reads (site_at a : am W _) (λ r s, heap (a_sites s) !! a = Some r).
Proof.
  eapply reads_bind; [apply reads_get_state|]. intros s. apply reads_pure. intros r s' E ->.
  by destruct (heap (a_sites s') !! a); [injection E as ->|].
Qed.

Lemma reads_data_at a : reads (data_at a : am W _) (λ d s, a_data s !! a = Some d).
Proof.
  eapply reads_bind; [apply reads_get_state|]. intros s. apply reads_pure. intros d s' E ->.
  by destruct (a_data s' !! a); [injection E as ->|].
Qed.

Lemma reads_conn_cell a m :
  reads (conn_cell a m : am W _) (λ o s, ∃ i, m = Z.of_nat i ∧ has_cell s a i o).
Proof.
  eapply reads_bind; [apply reads_data_at|]. intros d.
  eapply (reads_bind _ _ (λ i _, cell m = Done i)); [by apply reads_pure|]. intros i. apply reads_pure.
  intros o s E Hi Hd. unfold cell in Hi.
  destruct (_ && _) eqn:Hm; [|done]. injection Hi as <-. apply andb_prop in Hm as [H1 H2].
  apply Z.leb_le in H1. apply Z.ltb_lt in H2. exists (Z.to_nat m). split; [lia|]. split; [lia|]. exists d.
  split; [done|]. by destruct (wd_connections d !! Z.to_nat m); [injection E as ->|].
Qed.

Lemma reads_conn_at a m :
  reads (conn_at a m : am W _) (λ c s, ∃ i, m = Z.of_nat i ∧ has_cell s a i (Some c)).
Proof.
  eapply reads_bind; [apply reads_conn_cell|]. intros [c|]; apply reads_pure; [|done]. intros c' s [= <-]. done.
Qed.

Lemma reads_web_conn p :
  reads (web_conn p : am W _)
    (λ k s, ∃ i c, snd p = Z.of_nat i ∧ has_cell s (fst p) i (Some c) ∧ cd_connection c = Some k).
Proof.
  eapply reads_bind; [apply reads_conn_at|]. intros c. apply reads_pure. intros k s E (i & Hi & Hc).
  exists i, c. split_and!; try done. by destruct (cd_connection c); [injection E as ->|].
Qed.

Lemma reads_conn_fd p : reads (conn_fd p : am W _) (λ fd s, ∃ r, heap (a_sites s) !! fst p = Some r ∧ w_sockfd r = fd).
Proof. eapply reads_bind; [apply reads_site_at|]. intros r. apply reads_ret. intros s Hr. by exists r. Qed.

Lemma reads_site_of fd :
  reads (site_of fd : am W _)
    (λ a s, a ∈ websites (a_sites s) ∧ ∃ r, heap (a_sites s) !! a = Some r ∧ w_sockfd r = fd).
Proof.
  eapply reads_bind; [apply reads_get_state|]. intros s0.
  eapply (reads_bind _ _ (λ o _, website_get_by_sockfd (a_sites s0) fd = Done o)); [by apply reads_pure|].
  intros o. apply reads_pure. intros a s E Ho ->. destruct o as [b|]; [|done]. injection E as ->.
  by apply get_by_sockfd_found.
Qed.

(** ** What is written *)

Lemma hoare_put_conn P a m o' (Q : unit → app_t → W → list call → Prop) :
  (∀ s w h d, P s w h → a_data s !! a = Some d → length (wd_connections d) = FD_SETSIZE) →
  (∀ s w h i o, P s w h → m = Z.of_nat i → has_cell s a i o → Q tt (with_conn s a i o') w h) →
  hoare P (put_conn a m o') Q.
Proof.
  intros Hlen H. unfold put_conn, upd_data.
  eapply (hoare_bind_reads _ _ _ (λ i _, cell m = Done i)); [by apply reads_pure|]. intros i.
  eapply hoare_bind_reads; [apply reads_data_at|]. intros d. eapply hoare_bind_reads; [apply reads_get_state|].
  intros s0. apply hoare_put. intros s w h (((HP & Hi) & Hd) & <-).
  unfold cell in Hi. destruct (_ && _) eqn:Hm; [|done]. injection Hi as Hi. apply andb_prop in Hm as [H1 H2].
  apply Z.leb_le in H1. apply Z.ltb_lt in H2. pose proof (Hlen _ _ _ _ HP Hd) as Hl.
  destruct (lookup_lt_is_Some_2 (wd_connections d) i) as [o Ho]; [lia|]. replace (App _ _ _) with (with_conn s0 a i o').
  - eapply H; [exact HP|lia|]. split; [lia|]. by exists d.
  - unfold with_conn. by rewrite (alter_alt_Some _ _ _ _ Hd).
Qed.

Lemma hoare_upd_conn P a m f (Q : unit → app_t → W → list call → Prop) :
  (∀ s w h d, P s w h → a_data s !! a = Some d → length (wd_connections d) = FD_SETSIZE) →
  (∀ s w h i c, P s w h → m = Z.of_nat i → has_cell s a i (Some c) → Q tt (with_conn s a i (Some (f c))) w h) →
  hoare P (upd_conn a m f) Q.
Proof.
  intros Hlen H. unfold upd_conn. eapply hoare_bind_reads; [apply reads_conn_at|]. intros c.
  apply hoare_put_conn.
  - intros s w h d [HP _]. by eapply Hlen.
  - intros s w h i o (HP & j & Hj & Hc) Hi _. replace j with i in Hc by lia. by eapply H.
Qed.

Lemma hoare_upd_data P a f (Q : unit → app_t → W → list call → Prop) :
  (∀ s w h d, P s w h → a_data s !! a = Some d → Q tt (App (a_sites s) (<[a := f d]> (a_data s)) (a_modules s)) w h) →
  hoare P (upd_data a f) Q.
Proof.
  intros H. eapply hoare_bind_reads; [apply reads_data_at|]. intros d. eapply hoare_bind_reads; [apply reads_get_state|].
  intros s0. apply hoare_put. intros s w h ((HP & Hd) & <-). by eapply H.
Qed.

Lemma hoare_put_site P a f (Q : unit → app_t → W → list call → Prop) :
  (∀ s w h r d, P s w h → heap (a_sites s) !! a = Some r → a_data s !! a = Some d → Q tt (site_with s a (f r) d) w h) →
  (∀ s w h r, P s w h → heap (a_sites s) !! a = Some r → is_Some (a_data s !! a)) →
  hoare P (put_site a f) Q.
Proof.
  intros H Hdata. eapply hoare_bind_reads; [apply reads_site_at|]. intros r. eapply hoare_bind_reads; [apply reads_get_state|].
  intros s0. apply hoare_put. intros s w h ((HP & Hr) & <-). destruct (Hdata _ _ _ _ HP Hr) as [d Hd].
  specialize (H _ _ _ _ _ HP Hr Hd). unfold site_with in H. by rewrite (insert_id _ _ _ Hd) in H.
Qed.
End reading.

Lemma upd_data_site s a r d : heap (a_sites s) !! a = Some r →
  App (a_sites s) (<[a := d]> (a_data s)) (a_modules s) = site_with s a r d.
Proof. intros Hr. unfold site_with. rewrite (insert_id _ _ _ Hr). by destruct (a_sites s). Qed.

(** ** The outside *)

(** Calls that neither watch a file nor close a descriptor. *)
Definition quiet (c : call) : Prop :=
  match c with ZfdSet _ _ | ZsClose _ | CloseFile _ => False | _ => True end.

(** What the kernel promises of descriptors: one that is open stays open until it is closed,
    and a new one was not open before. *)
Record kernel_ok {W} (ext : call → W → answer * W) (opened : W → Z → Prop) : Prop := {
  ko_stays : ∀ c w fd, opened w fd → c ≠ ZsClose fd → c ≠ CloseFile fd → opened (snd (ext c w)) fd;
  ko_connect : ∀ ip port w, let '(r, w') := ext (ZsConnect ip port) w in
    a_ret r = -1 ∨ ¬ opened w (a_ret r) ∧ opened w' (a_ret r);
  ko_file : ∀ path w, let '(r, w') := ext (OpenFile path) w in
    a_ret r < 0 ∨ ¬ opened w (a_ret r) ∧ opened w' (a_ret r)
}.

(** The functions of the application keep the invariant when they get a connection whose
    file is not watched, and do not watch files themselves: the library does that. *)
Definition callbacks_ok {W} (opened : W → Z → Prop) (run_callback : nat → conn_ptr → callback_arg → am W unit) : Prop :=
  ∀ f p arg,
    hoare (λ s w h, app_inv opened s w h ∧ unwatched h p) (run_callback f p arg) (λ _, app_inv opened) ∧
    emits (λ c, match c with ZfdSet _ _ => False | _ => True end) (run_callback f p arg).

Section asserts.
Context {W : Type} (ext : call → W → answer * W) (opened : W → Z → Prop).
Context (Hkernel : kernel_ok ext opened).
Implicit Types (s : app_t) (w : W) (h : list call) (P : conn_ptr → Prop).
#[local] Notation ask := (Effect.ask ext).
#[local] Notation tell := (Effect.tell ext).

(** The invariant; the connections of [P] are not watched; and the descriptor [fd] is open,
    but nobody's, unless it is -1. *)
Record inv_at P (fd : Z) s w h : Prop := {
  ia_inv : app_inv opened s w h;
  ia_unwatched : ∀ p, P p → unwatched h p;
  ia_free : fd ≠ -1 → opened w fd ∧ ∀ x, ¬ owns s fd x
}.

Lemma inv_at_mono P P' fd s w h : inv_at P fd s w h → (∀ p, P' p → P p) → inv_at P' fd s w h.
Proof. intros [H1 H2 H3] HP. split; try done. intros p Hp. by apply H2, HP. Qed.

Lemma inv_at_drop P fd s w h : inv_at P fd s w h → inv_at P (-1) s w h.
Proof. by intros [H1 H2 H3]. Qed.

Lemma inv_at_len P fd s w h a d : inv_at P fd s w h → a_data s !! a = Some d → length (wd_connections d) = FD_SETSIZE.
Proof. intros H Hd. eapply sd_cells, ai_shape; [apply H|done]. Qed.

Lemma watched_quiet h c fd p : quiet c → watched (h ++ [c]) !! fd = Some p → watched h !! fd = Some p.
Proof.
  intros Hc. rewrite watched_snoc. destruct c; try done. cbn. intros H. by apply lookup_delete_Some in H as [_ H].
Qed.

Lemma inv_at_quiet P fd s w h c : quiet c → inv_at P fd s w h → inv_at P fd s (snd (ext c w)) (h ++ [c]).
Proof.
  intros Hc [H1 H2 H3].
  assert (∀ n, opened w n → opened (snd (ext c w)) n) as Hopen.
  { intros n Hn. apply (ko_stays _ _ Hkernel); [done|..]; by intros ->. }
  split.
  - eapply app_inv_world; [exact H1|by auto|]. intros n p Hp. left. by eapply watched_quiet.
  - intros p Hp n Hn. by eapply (H2 p Hp n), watched_quiet.
  - intros Hfd. destruct (H3 Hfd) as [Ho Hx]. split; [by apply Hopen|done].
Qed.

Lemma stays_ask P fd c : quiet c → stays (inv_at P fd) (ask c).
Proof. intros Hc. apply hoare_ask. intros s w h. by apply inv_at_quiet. Qed.
Lemma stays_tell P fd c : quiet c → stays (inv_at P fd) (tell c).
Proof. intros Hc. apply hoare_tell. intros s w h. by apply inv_at_quiet. Qed.

(** The same beside a fact about the state. *)
Lemma stays_ask_and P fd (F : app_t → Prop) c : quiet c → stays (λ s w h, inv_at P fd s w h ∧ F s) (ask c).
Proof. intros Hc. apply hoare_ask. intros s w h [H HF]. split; [by apply inv_at_quiet|done]. Qed.
Lemma stays_tell_and P fd (F : app_t → Prop) c : quiet c → stays (λ s w h, inv_at P fd s w h ∧ F s) (tell c).
Proof. intros Hc. apply hoare_tell. intros s w h [H HF]. split; [by apply inv_at_quiet|done]. Qed.

(** ** Connections that are not watched *)

Lemma unwatched_cell s w h a i o :
  app_inv opened s w h → has_cell s a i o → file_of o = -1 → unwatched h (a, Z.of_nat i).
Proof.
  intros H Hc Hf fd Hw. destruct (ai_watch _ _ _ _ H _ _ Hw) as (Hfd & j & c & r & Ej & Hc' & Ef & _).
  cbn [fst snd] in *. apply Nat2Z.inj in Ej as <-. pose proof (has_cell_inj _ _ _ _ _ Hc Hc') as ->. cbn in Hf. congruence.
Qed.

Lemma unwatched_off s w h a m r :
  app_inv opened s w h → heap (a_sites s) !! a = Some r → w_sockfd r = -1 → unwatched h (a, m).
Proof.
  intros H Hr Hs fd Hw. destruct (ai_watch _ _ _ _ H _ _ Hw) as (Hfd & j & c & r' & _ & _ & _ & Hr' & Hs').
  cbn [fst] in *. congruence.
Qed.

(** All cells together. *)
Lemma unwatched_all s w h a :
  app_inv opened s w h → (∀ i, (i < FD_SETSIZE)%nat → unwatched h (a, Z.of_nat i)) → ∀ m, unwatched h (a, m).
Proof.
  intros H Hall m fd Hw. destruct (ai_watch _ _ _ _ H _ _ Hw) as (Hfd & j & c & r' & Ej & (Hj & _) & _).
  cbn [fst snd] in *. subst m. by eapply Hall.
Qed.

(** ** The connection of a pointer *)

(** An update of a connection that keeps its number, and the mark that its headers are out. *)
Definition keeps_conn (f : web_conn_t → web_conn_t) : Prop :=
  ∀ k, cn_sockfd (wc_conn (f k)) = cn_sockfd (wc_conn k) ∧
    (FL_ISSET (cn_status (wc_conn k)) CONN_STATUS_SENT_HEADERS = true →
     FL_ISSET (cn_status (wc_conn (f k))) CONN_STATUS_SENT_HEADERS = true).

(** A cell with another connection that sends the same file. *)
Lemma inv_at_same_file P fd s w h a i o o' :
  inv_at P fd s w h → has_cell s a i o → (∀ c, o' = Some c → web_conn_ok i c) → file_of o' = file_of o →
  inv_at P fd (with_conn s a i o') w h.
Proof.
  intros [H1 H2 H3] Hc Hok Hf. split; [|done|].
  - eapply app_inv_cell; [done..|]. by left.
  - intros Hfd. destruct (H3 Hfd) as [Ho Hx]. split; [done|]. intros x Hown.
    destruct (owns_with_conn _ _ _ _ _ _ _ Hc Hown) as [H|[-> E]]; [by eapply Hx|].
    apply (Hx (OwnFile a i)). exists o. split; [done|congruence].
Qed.

Lemma put_connection_ok i c k k' :
  web_conn_ok i c → cd_connection c = Some k → cn_sockfd (wc_conn k') = cn_sockfd (wc_conn k) →
  (FL_ISSET (cn_status (wc_conn k)) CONN_STATUS_SENT_HEADERS = true →
   FL_ISSET (cn_status (wc_conn k')) CONN_STATUS_SENT_HEADERS = true) →
  web_conn_ok i (put_connection (Some k') c).
Proof.
  intros [H1 H2 H3 H4] Hk E Hs. split; cbn [put_connection cd_connection fileread_data size_received cd_data cd_size].
  - intros k2 [= <-]. rewrite E. by apply H1.
  - intros Hf. destruct (H2 Hf) as (k0 & Hk0 & Hf0). exists k'. split; [done|]. apply Hs. congruence.
  - done.
  - intros _. apply H4. by exists k.
Qed.

Lemma hoare_upd_web P fd p f (Q : unit → app_t → W → list call → Prop) :
  keeps_conn f →
  (∀ s w h i c k, inv_at P fd (with_conn s (fst p) i (Some (put_connection (Some (f k)) c))) w h →
    snd p = Z.of_nat i → has_cell s (fst p) i (Some c) → Q tt (with_conn s (fst p) i (Some (put_connection (Some (f k)) c))) w h) →
  hoare (inv_at P fd) (upd_web p f) Q.
Proof.
  intros Hf HQ. eapply hoare_bind_reads; [apply reads_web_conn|]. intros k. apply hoare_upd_conn.
  - intros s w h d [H _]. by eapply inv_at_len.
  - intros s w h i c (H & j & c' & Ej & Hc' & Hk) Ei Hc. replace j with i in Hc' by lia.
    pose proof (has_cell_inj _ _ _ _ _ Hc Hc') as [= <-]. apply HQ; [|done|done].
    eapply inv_at_same_file; [done|done| |done]. intros ? [= <-]. destruct (Hf k) as [E Hs].
    eapply put_connection_ok; [by eapply has_cell_ok; [apply H|]|done..].
Qed.

Lemma stays_upd_web P fd p f : keeps_conn f → stays (inv_at P fd) (upd_web p f).
Proof. intros Hf. by apply hoare_upd_web. Qed.

Lemma keeps_headers hs : keeps_conn (put_headers hs). Proof. done. Qed.
Lemma keeps_http_status v : keeps_conn (response_set_status v). Proof. done. Qed.
Lemma keeps_sending v : keeps_conn (put_sending_error v). Proof. done. Qed.
Lemma keeps_status flag : keeps_conn (conn_status_set flag).
Proof.
  intros k. split; [done|]. cbn. rewrite !FL_ISSET_spec. intros H i Hi. by rewrite FL_SET_testbit, H.
Qed.
End asserts.

(** ** Functions that do not watch *)

(** Takes a computation apart. *)
Create HintDb safe.
Ltac staying :=
  repeat first
    [ progress eauto 2 with safe nocore
    | by (apply stays_ask; [assumption|exact I])
    | by (apply stays_tell; [assumption|exact I])
    | apply stays_upd_web;
        first [apply keeps_headers | apply keeps_http_status | apply keeps_sending | apply keeps_status]
    | by apply hoare_ret
    | by apply hoare_pure
    | by apply hoare_get
    | eapply stays_reads;
        first [apply reads_site_at | apply reads_data_at | apply reads_conn_cell | apply reads_conn_at
              | apply reads_web_conn | apply reads_conn_fd | apply reads_site_of]
    | apply stays_only_if
    | apply stays_bind; [|intros ?]
    | match goal with
      | |- hoare _ (if ?b then _ else _) _ => destruct b
      | |- hoare _ (match ?o with Some _ => _ | None => _ end) _ => destruct o
      | |- hoare _ (let '(_, _) := ?x in _) _ => destruct x
      end ].

Section functions.
Context {W : Type} (ext : call → W → answer * W) (opened : W → Z → Prop).
Context (run_callback : nat → conn_ptr → callback_arg → am W unit).
Context (dlsym : nat → bytes → option nat).
Context (ZIMR_VERSION : bytes) (http_date cookie_date log_date : Z → bytes) (max_age_addr : Z).
Context (regex_match : bytes → bytes → bool) (garbage_isdir : bool).
Context (Hkernel : kernel_ok ext opened) (Hcallback : callbacks_ok opened run_callback).
Implicit Types (s : app_t) (w : W) (h : list call) (P : conn_ptr → Prop).
#[local] Notation inv_at := (inv_at opened).
#[local] Notation ask := (Effect.ask ext).
#[local] Notation tell := (Effect.tell ext).
#[local] Notation cleanup := (cleanup_connection ext run_callback dlsym).
#[local] Notation send_status := (zimr_connection_send_status ext).
#[local] Notation send_headers := (zimr_connection_send_headers ext ZIMR_VERSION http_date cookie_date log_date max_age_addr).

(** *** What is sent *)

Lemma stays_set_header P fd p name value : stays (inv_at P fd) (set_header p name value : am W unit).
Proof. unfold set_header. staying. Qed.
Lemma stays_write_msg P fd p data : stays (inv_at P fd) (write_msg ext p data).
Proof. unfold write_msg. staying. Qed.
#[local] Hint Resolve stays_set_header stays_write_msg : safe.

Lemma stays_write_all P fd p l : stays (inv_at P fd) (write_all ext p l).
Proof. induction l; cbn [write_all]; staying. Qed.
Lemma stays_send_status P fd p : stays (inv_at P fd) (send_status p).
Proof. unfold zimr_connection_send_status. staying. Qed.
Lemma stays_log P fd p : stays (inv_at P fd) (zimr_log_request ext log_date p).
Proof. unfold zimr_log_request. cbv zeta. staying. Qed.
#[local] Hint Resolve stays_write_all stays_send_status stays_log : safe.

Lemma stays_send_headers P fd p : stays (inv_at P fd) (send_headers p).
Proof. unfold zimr_connection_send_headers. staying. Qed.
#[local] Hint Resolve stays_send_headers : safe.

(** The functions of the application. *)
Lemma watched_emits h l :
  Forall (λ c, match c with ZfdSet _ _ => False | _ => True end) l → ∀ fd p,
  watched (h ++ l) !! fd = Some p → watched h !! fd = Some p.
Proof.
  intros Hl. induction l as [|c l IH] using rev_ind; intros fd p; [by rewrite app_nil_r|].
  apply Forall_app in Hl as [Hl [Hc _]%Forall_cons]. rewrite app_assoc, watched_snoc. intros H.
  apply (IH Hl). destruct c; try done. cbn in H. by apply lookup_delete_Some in H as [_ H].
Qed.

Lemma stays_callback P f p arg : P p → stays (inv_at P (-1)) (run_callback f p arg).
Proof.
  intros Hp s w h [] s' w' l [H1 H2 _] E. destruct (Hcallback f p arg) as [Hc He]. split; [|..]; [|..|done].
  - eapply Hc; [|exact E]. by split; [|apply H2].
  - intros q Hq fd Hw. eapply (H2 q Hq fd), watched_emits; [by eapply He|done].
Qed.

Lemma stays_call_modules P name l p : P p → stays (inv_at P (-1)) (call_modules run_callback dlsym name l p).
Proof. intros Hp. pose proof stays_callback. induction l; cbn [call_modules]; staying. Qed.

(** *** The end of a connection *)

(** [P], and the connection with this number. *)
Definition and_conn P (a : nat) (m : Z) : conn_ptr → Prop := λ p, P p ∨ p = (a, m).

Lemma inv_at_and P s w h a m : inv_at P (-1) s w h → unwatched h (a, m) → inv_at (and_conn P a m) (-1) s w h.
Proof. intros [H1 H2 H3] Hu. split; try done. intros p [Hp| ->]; [by apply H2|done]. Qed.

Lemma put_fileread_none_ok i c f : web_conn_ok i c → fr_fd f = -1 → web_conn_ok i (put_fileread f c).
Proof. intros [H1 H2 H3 H4] Hf. by split. Qed.

(** A file is closed, and its connection forgets it. *)
Lemma inv_at_close P s w h a i c f :
  inv_at P (-1) s w h → has_cell s a i (Some c) → unwatched h (a, Z.of_nat i) → fr_fd f = -1 →
  let call := CloseFile (fr_fd (fileread_data c)) in
  inv_at P (-1) (with_conn s a i (Some (put_fileread f c))) (snd (ext call w)) (h ++ [call]).
Proof.
  intros H Hc Hu Hf call. set (c' := put_fileread f c).
  assert (app_inv opened (with_conn s a i (Some c')) w h) as H'.
  { eapply app_inv_cell; [apply H|exact Hc|..].
    - intros ? [= <-]. apply put_fileread_none_ok; [by eapply has_cell_ok; [apply H|]|done].
    - right. split; [done|]. by left. }
  split; [|..|done].
  - eapply app_inv_world; [exact H'|..].
    + intros fd x Hfd Hown Ho. apply (ko_stays _ _ Hkernel); [done..|]. intros [= Efd].
      destruct (owns_with_conn _ _ _ _ _ _ _ Hc Hown) as [Hx|[_ Ex]]; [|cbn in Ex; congruence].
      assert (x = OwnFile a i) as ->.
      { eapply (ai_owner _ _ _ _ (ia_inv _ _ _ _ _ _ H)); [exact Hfd|exact Hx|]. exists (Some c). by split. }
      destruct Hown as (y & Hy & Hy'). apply (has_cell_with_conn _ _ _ _ _ _ _ _ Hc) in Hy as [(_ & _ & ->)|[[] _]]; [|done].
      cbn in Hy'. congruence.
    + intros fd p Hp. rewrite watched_snoc in Hp. by left.
  - intros p Hp fd. rewrite watched_snoc. by apply (ia_unwatched _ _ _ _ _ _ H).
Qed.

Lemma cleanup_fileread_hoare P a m :
  hoare (inv_at P (-1)) (cleanup_fileread ext a m) (λ _, inv_at (and_conn P a m) (-1)).
Proof.
  unfold cleanup_fileread. eapply hoare_bind_reads; [apply reads_conn_at|]. intros c. cbv zeta.
  destruct (Z.eqb_spec (fr_fd (fileread_data c)) (-1)) as [E|E].
  { apply hoare_ret. intros s w h (H & i & -> & Hc). apply inv_at_and; [done|]. eapply unwatched_cell; [apply H|done|done]. }
  apply (hoare_bind _ _ _ (λ _ s w h, (inv_at (and_conn P a m) (-1) s w h) ∧ ∃ i, m = Z.of_nat i ∧ has_cell s a i (Some c))).
  { apply hoare_tell. intros s w h (H & i & -> & Hc). split; [|by exists i].
    apply inv_at_and; [by apply inv_at_quiet|]. intros fd Hw. rewrite watched_snoc in Hw. cbn in Hw.
    apply lookup_delete_Some in Hw as [Hne Hw]. destruct (ai_watch _ _ _ _ (ia_inv _ _ _ _ _ _ H) _ _ Hw) as (_ & j & c0 & r & Ej & Hc0 & Ef & _).
    cbn [fst snd] in *. apply Nat2Z.inj in Ej as <-. pose proof (has_cell_inj _ _ _ _ _ Hc Hc0) as [= <-]. done. }
  intros []. set (f := FileRead (-1) _ _).
  apply (hoare_bind _ _ _ (λ _ s w h, ∃ i, m = Z.of_nat i ∧ has_cell s a i (Some c) ∧
    length (default [] (wd_connections <$> a_data s !! a)) = FD_SETSIZE ∧
    inv_at (and_conn P a m) (-1) (with_conn s a i (Some (put_fileread f c))) w h)).
  { apply hoare_tell. intros s w h (H & i & -> & Hc). exists i. split; [done|]. split; [done|]. split.
    - pose proof Hc as (_ & d & Hd & _). rewrite Hd. by eapply inv_at_len.
    - apply inv_at_close; [done|done| |done]. apply (ia_unwatched _ _ _ _ _ _ H). by right. }
  intros []. apply hoare_upd_conn.
  - intros s w h d (i & _ & _ & Hl & _) Hd. by rewrite Hd in Hl.
  - intros s w h i c0 (j & Ej & Hc & _ & H) Ei Hc0. assert (j = i) as -> by lia.
    pose proof (has_cell_inj _ _ _ _ _ Hc Hc0) as [= <-]. exact H.
Qed.

(** The pointer is freed when its file is not watched any more. *)
Lemma stays_put_none P a m : P (a, m) → stays (inv_at P (-1)) (put_conn a m None).
Proof.
  intros HP. apply hoare_put_conn; [by intros; eapply inv_at_len|]. intros s w h i o [H1 H2 H3] -> Hc.
  split; [|done|done]. eapply app_inv_cell; [done|exact Hc|done|]. right. split; [by apply H2|]. by left.
Qed.

(** The end of the connection [m] of the website that is found, behind the search. *)
Lemma cleanup_found P a fd m :
  hoare (inv_at P (-1))
    (_ ← data_at a;
     _ ← tell (MsgClose fd m);
     _ ← cleanup_fileread ext a m;
     d ← data_at a;
     _ ← call_modules run_callback dlsym (str "modzimr_connection_closed") (module_data d) (a, m);
     c ← conn_at a m;
     _ ← (match onclose_event c with Some f => run_callback f (a, m) NoArg | None => mret tt end);
     _ ← conn_at a m;
     put_conn a m None) (λ _, inv_at (and_conn P a m) (-1)).
Proof.
  assert (and_conn P a m (a, m)) as Hp by by right.
  pose proof (λ name l, stays_call_modules (and_conn P a m) name l (a, m) Hp).
  pose proof (λ f arg, stays_callback (and_conn P a m) f (a, m) arg Hp). pose proof (stays_put_none _ a m Hp).
  apply (hoare_bind _ _ _ (λ _, inv_at P (-1))); [staying|]. intros _.
  apply (hoare_bind _ _ _ (λ _, inv_at P (-1))); [staying|]. intros _.
  eapply hoare_bind; [apply cleanup_fileread_hoare|]. intros []. staying.
Qed.

(** The website with this record. *)
Definition on_switch (a : nat) (fd : Z) s : Prop := ∃ r, heap (a_sites s) !! a = Some r ∧ w_sockfd r = fd.

Lemma stays_cleanup P fd m : stays (inv_at P (-1)) (cleanup fd m).
Proof.
  unfold cleanup_connection. eapply stays_bind; [by staying|]. intros a. eapply hoare_post; [apply cleanup_found|].
  intros u s w h H. eapply inv_at_mono; [exact H|]. by left.
Qed.

(** The connection [m] of the website on the switch. *)
Lemma cleanup_hoare P a fd m :
  hoare (λ s w h, inv_at P (-1) s w h ∧ on_switch a fd s) (cleanup fd m) (λ _, inv_at (and_conn P a m) (-1)).
Proof.
  destruct (decide (fd = -1)) as [->|Hfd].
  - eapply hoare_mono; [apply (stays_cleanup (and_conn P a m) (-1) m)| |done].
    intros s w h (H & r & Hr & Hs). apply inv_at_and; [done|]. eapply unwatched_off; [apply H|done|done].
  - unfold cleanup_connection. eapply hoare_bind_reads; [apply reads_site_of|]. intros b.
    apply (hoare_with (b = a)).
    { intros s w h ((H & r & Hr & Hs) & _ & r' & Hr' & Hs').
      assert (OwnSwitch b = OwnSwitch a) as [=]; [|done].
      eapply (ai_owner _ _ _ _ (ia_inv _ _ _ _ _ _ H) fd); [done|by exists r'|by exists r]. }
    intros ->. eapply hoare_mono; [apply (cleanup_found P a fd m)| |done]. by intros s w h [[H _] _].
Qed.
#[local] Hint Resolve stays_cleanup : safe.

Lemma stays_end_connection P p : stays (inv_at P (-1)) (end_connection ext run_callback dlsym p).
Proof. unfold end_connection. staying. Qed.
#[local] Hint Resolve stays_end_connection : safe.

(** *** Pages, errors and redirections *)

#[local] Notation send := (zimr_connection_send ext run_callback dlsym ZIMR_VERSION http_date cookie_date log_date max_age_addr).
#[local] Notation send_error :=
  (zimr_connection_send_error ext run_callback dlsym ZIMR_VERSION http_date cookie_date log_date max_age_addr).
#[local] Notation send_redirect :=
  (zimr_connection_send_redirect ext run_callback dlsym ZIMR_VERSION http_date cookie_date log_date max_age_addr).
#[local] Notation send_file :=
  (zimr_connection_send_file ext run_callback dlsym ZIMR_VERSION http_date cookie_date log_date max_age_addr
     regex_match garbage_isdir).
#[local] Notation page_handler :=
  (zimr_connection_default_page_handler ext run_callback dlsym ZIMR_VERSION http_date cookie_date log_date max_age_addr
     regex_match).

Lemma stays_send P p message : stays (inv_at P (-1)) (send p message).
Proof. unfold zimr_connection_send, has_header. staying. Qed.

Lemma stays_connection_sent P fd m : stays (inv_at P (-1)) (zimr_website_connection_sent fd m : am W bool).
Proof. unfold zimr_website_connection_sent. staying. Qed.
#[local] Hint Resolve stays_send stays_connection_sent : safe.

Lemma stays_send_error P p code message : P p → stays (inv_at P (-1)) (send_error p code message).
Proof.
  intros Hp. pose proof (λ f arg, stays_callback P f p arg Hp). unfold zimr_connection_send_error, send_error_page.
  staying.
Qed.

Lemma stays_redirect P p url : stays (inv_at P (-1)) (send_redirect p url).
Proof. unfold zimr_connection_send_redirect. staying. Qed.
#[local] Hint Resolve stays_send_error stays_redirect : safe.

Lemma stays_set_onclose P p f : stays (inv_at P (-1)) (zimr_connection_set_onclose_event p f : am W unit).
Proof.
  apply hoare_upd_conn; [by intros; eapply inv_at_len|]. intros s w h i c H _ Hc.
  eapply inv_at_same_file; [done|exact Hc| |done]. intros ? [= <-]. destruct (has_cell_ok _ _ _ _ _ _ _ (ia_inv _ _ _ _ _ _ H) Hc). by split.
Qed.

Lemma stays_dir_entries P p d filepath names : stays (inv_at P (-1)) (dir_entries ext regex_match d filepath p names).
Proof. induction names; cbn [dir_entries]; staying. Qed.
#[local] Hint Resolve stays_dir_entries : safe.

Lemma stays_conn_url P fd p : stays (inv_at P fd) (conn_url p : am W bytes).
Proof. unfold conn_url. staying. Qed.
#[local] Hint Resolve stays_conn_url : safe.

Lemma stays_send_dir P p filepath :
  P p → stays (inv_at P (-1)) (zimr_connection_send_dir ext run_callback dlsym ZIMR_VERSION http_date cookie_date log_date
    max_age_addr regex_match p filepath).
Proof. intros Hp. unfold zimr_connection_send_dir. cbv zeta. staying. Qed.
#[local] Hint Resolve stays_send_dir : safe.

(** *** Files *)

(** The headers of the connection have been sent. *)
Definition headers_out (p : conn_ptr) s : Prop :=
  ∃ i c k, snd p = Z.of_nat i ∧ has_cell s (fst p) i (Some c) ∧ cd_connection c = Some k ∧
    FL_ISSET (cn_status (wc_conn k)) CONN_STATUS_SENT_HEADERS = true.

Lemma send_headers_out P fd p :
  hoare (inv_at P fd) (send_headers p) (λ _ s w h, inv_at P fd s w h ∧ headers_out p s).
Proof.
  unfold zimr_connection_send_headers.
  do 10 (apply (hoare_bind _ _ _ (λ _, inv_at P fd)); [by staying|]; intros ?).
  apply hoare_upd_web; [apply keeps_status|]. intros s w h i c k H Hi Hc. split; [done|].
  eexists i, _, _. split; [done|]. split; [eapply has_cell_with_conn; [exact Hc|by left]|]. split; [done|].
  cbn. apply FL_ISSET_SET.
Qed.

Lemma put_fileread_hoare P p fd start stop :
  P p → fd ≠ -1 →
  hoare (λ s w h, inv_at P fd s w h ∧ headers_out p s) (upd_conn (fst p) (snd p) (put_fileread (FileRead fd start stop)))
    (λ _, inv_at P (-1)).
Proof.
  intros Hp Hfd. apply hoare_upd_conn; [by intros s w h d [H _]; eapply inv_at_len|].
  intros s w h i c (H & j & c' & k & Ej & Hc' & Hk & Hout) Ei Hc. assert (j = i) as -> by lia.
  pose proof (has_cell_inj _ _ _ _ _ Hc Hc') as [= <-]. split; [|by apply H|done].
  eapply app_inv_cell; [apply H|exact Hc|..].
  - intros ? [= <-]. destruct (has_cell_ok _ _ _ _ _ _ _ (ia_inv _ _ _ _ _ _ H) Hc) as [H1 H2 H3 H4]. split; try done.
    intros _. by exists k.
  - right. split.
    + apply (ia_unwatched _ _ _ _ _ _ H). rewrite <- Ei. by rewrite <- surjective_pairing.
    + right. destruct (ia_free _ _ _ _ _ _ H Hfd) as [Ho Hx]. split; [exact Hx|exact Ho].
Qed.

Lemma stays_header_or P fd p name value : stays (inv_at P fd) (header_or p name value : am W bytes).
Proof. unfold header_or, response_header. staying. Qed.
Lemma stays_request_header P fd p name : stays (inv_at P fd) (request_header p name : am W _).
Proof. unfold request_header. staying. Qed.
#[local] Hint Resolve stays_header_or stays_request_header : safe.
Lemma stays_page_range P fd p size : stays (inv_at P fd) (page_range p size : am W _).
Proof. unfold page_range. cbv zeta. staying. Qed.
Lemma stays_response_header P fd p name : stays (inv_at P fd) (response_header p name : am W _).
Proof. unfold response_header. staying. Qed.
#[local] Hint Resolve stays_page_range stays_response_header : safe.

Lemma open_file_hoare P path :
  hoare (inv_at P (-1)) (ask (OpenFile path))
    (λ f s w h, inv_at P (-1) s w h ∧ (0 <= a_ret f → inv_at P (a_ret f) s w h)).
Proof.
  apply hoare_ask. intros s w h H. split; [by apply inv_at_quiet|]. intros Hf.
  pose proof (ko_file _ _ Hkernel path w) as Hk.
  destruct (inv_at_quiet _ _ Hkernel P (-1) s w h (OpenFile path) I H) as [H1 H2 _].
  destruct (ext (OpenFile path) w) as [r w']. cbn [fst snd] in *. destruct Hk as [Hk|[Hk1 Hk2]]; [lia|].
  split; [done..|]. intros Hne. split; [done|]. intros x Hx. apply Hk1. by eapply (ai_open _ _ _ _ (ia_inv _ _ _ _ _ _ H)).
Qed.

Lemma stays_page_handler P p filepath : P p → stays (inv_at P (-1)) (page_handler p filepath).
Proof.
  intros Hp. unfold zimr_connection_default_page_handler. apply stays_bind; [staying|]. intros st.
  destruct (negb _); [staying|]. destruct (st_isdir st); [staying|].
  eapply hoare_bind; [apply open_file_hoare|]. intros f. cbv zeta. destruct (Z.ltb_spec (a_ret f) 0) as [|Hf].
  { eapply hoare_mono; [by apply stays_send_error|by intros s w h [Hq _]|done]. }
  eapply hoare_mono; [|intros s w h [_ H]; exact (H Hf)|intros u s w h H; exact H].
  do 8 (apply (hoare_bind _ _ _ (λ _, inv_at P (a_ret f))); [by staying|]; intros ?).
  destruct (not_modified _ _ _ _ _).
  { eapply hoare_mono; [|apply inv_at_drop|intros u s w h H; exact H]. staying. }
  apply (hoare_bind _ _ _ (λ _, inv_at P (a_ret f))); [by staying|]. intros [start stop].
  do 4 (apply (hoare_bind _ _ _ (λ _, inv_at P (a_ret f))); [by staying|]; intros ?).
  eapply hoare_bind; [apply send_headers_out|]. intros [].
  eapply hoare_bind; [apply put_fileread_hoare; [done|lia]|]. intros []. staying.
Qed.
#[local] Hint Resolve stays_page_handler : safe.

Lemma stays_search_pubdirs P p filepath dirs :
  P p → stays (inv_at P (-1)) (search_pubdirs ext run_callback dlsym ZIMR_VERSION http_date cookie_date log_date max_age_addr
    garbage_isdir p filepath dirs).
Proof. intros Hp. induction dirs as [|dir [|next dirs] IH]; cbn [search_pubdirs]; staying. Qed.
Lemma stays_search_default P full pages : stays (inv_at P (-1)) (search_default ext full pages).
Proof. induction pages; cbn [search_default]; staying. Qed.
#[local] Hint Resolve stays_search_pubdirs stays_search_default : safe.

Lemma stays_send_found P p filepath full :
  P p → stays (inv_at P (-1)) (send_found ext run_callback dlsym ZIMR_VERSION http_date cookie_date log_date max_age_addr
    regex_match p filepath full).
Proof. intros Hp. pose proof (λ f arg, stays_callback P f p arg Hp). unfold send_found. staying. Qed.
#[local] Hint Resolve stays_send_found : safe.

Lemma stays_send_file P p filepath use_pubdir : P p → stays (inv_at P (-1)) (send_file p filepath use_pubdir).
Proof. intros Hp. unfold zimr_connection_send_file. cbv zeta. staying. Qed.
#[local] Hint Resolve stays_send_file : safe.

(** *** Websites *)

#[local] Notation enable := (zimr_website_enable ext).
#[local] Notation disable := (zimr_website_disable ext run_callback dlsym).
#[local] Notation destroy := (zimr_website_destroy ext run_callback dlsym).

(** [P], and every connection of the website. *)
Definition and_site P (a : nat) : conn_ptr → Prop := λ p, P p ∨ fst p = a.

Lemma inv_at_site P s w h a :
  inv_at P (-1) s w h → (∀ m, unwatched h (a, m)) → inv_at (and_site P a) (-1) s w h.
Proof. intros [H1 H2 H3] Hu. split; try done. intros [b m] [Hp|<-]; [by apply H2|apply Hu]. Qed.

Lemma inv_at_site_off P s w h a r :
  inv_at P (-1) s w h → heap (a_sites s) !! a = Some r → w_sockfd r = -1 → inv_at (and_site P a) (-1) s w h.
Proof. intros H Hr Hs. apply inv_at_site; [done|]. intros m. eapply unwatched_off; [apply H|done|done]. Qed.

(** A setting changes neither the connections nor whether the website is on. *)
Lemma stays_upd_data P a f :
  (∀ d, wd_connections (f d) = wd_connections d) → (∀ r d, switched r d → switched r (f d)) →
  stays (inv_at P (-1)) (upd_data a f : am W unit).
Proof.
  intros Hc Hs. apply hoare_upd_data. intros s w h d [H1 H2 H3] Hd. split; [|done|done].
  destruct (app_inv_here _ _ _ _ _ _ H1 Hd) as [r Hr]. rewrite (upd_data_site _ _ _ _ Hr).
  eapply app_inv_site; [exact H1|exact Hr|exact Hd| |done| |by left].
  - by destruct (ri_record _ (ai_registry _ _ _ _ H1) _ _ Hr) as (_ & _ & Hip).
  - apply Hs. by eapply (ai_switched _ _ _ _ H1).
Qed.

(** The invariant holds once the website has this status. *)
Definition status_later P (a : nat) (st : Z) s w h : Prop :=
  ∃ r d, heap (a_sites s) !! a = Some r ∧ a_data s !! a = Some d ∧
    inv_at P (-1) (site_with s a r (put_status st d)) w h.

Lemma hoare_put_status P a st :
  hoare (status_later P a st) (upd_data a (put_status st) : am W unit) (λ _, inv_at P (-1)).
Proof.
  apply hoare_upd_data. intros s w h d (r & d' & Hr & Hd' & H) Hd. rewrite (upd_data_site _ _ _ _ Hr). congruence.
Qed.

(** The socket of a switch is closed, and its website forgets it. *)
Lemma inv_at_close_switch P s w h a r d :
  inv_at P (-1) s w h → heap (a_sites s) !! a = Some r → a_data s !! a = Some d → (∀ m, unwatched h (a, m)) →
  let call := ZsClose (w_sockfd r) in
  inv_at P (-1) (site_with s a (put_sockfd (-1) r) (put_status WS_STATUS_DISABLED d)) (snd (ext call w)) (h ++ [call]).
Proof.
  intros H Hr Hd Hu call. pose proof (ri_record _ (ai_registry _ _ _ _ (ia_inv _ _ _ _ _ _ H)) _ _ Hr) as (_ & _ & Hip).
  set (s' := site_with _ _ _ _). assert (app_inv opened s' w h) as H'.
  { eapply app_inv_site; [apply H|exact Hr|exact Hd|done|done| |].
    - right. split; [done|by right].
    - right. split; [exact Hu|by left]. }
  split; [|..|done].
  - eapply app_inv_world; [exact H'|..].
    + intros fd x Hfd Hown Ho. apply (ko_stays _ _ Hkernel); [done| |done]. intros [= Efd].
      assert (owns s fd x) as Hx.
      { destruct x as [b|b i].
        - destruct Hown as (y & Hy & <-). cbn in Hy. apply lookup_insert_Some in Hy as [[_ <-]|[_ Hy]]; [done|by exists y].
        - destruct Hown as (c & Hc & Hf). exists c. split; [|done]. exact (proj1 (has_cell_site_with s a (put_sockfd (-1) r) (put_status WS_STATUS_DISABLED d) d b i c Hd eq_refl) Hc). }
      assert (x = OwnSwitch a) as ->.
      { eapply (ai_owner _ _ _ _ (ia_inv _ _ _ _ _ _ H)); [exact Hfd|exact Hx|by exists r]. }
      destruct Hown as (y & Hy & Hy'). cbn in Hy. rewrite lookup_insert_eq in Hy. injection Hy as <-. cbn in Hy'. congruence.
    + intros fd p Hp. rewrite watched_snoc in Hp. by left.
  - intros p Hp fd. rewrite watched_snoc. by apply (ia_unwatched _ _ _ _ _ _ H).
Qed.

(** The loop over the cells. *)
Lemma close_connections_hoare n P i a :
  hoare (inv_at P (-1)) (close_connections ext run_callback dlsym n i a)
    (λ _, inv_at (λ p, P p ∨ fst p = a ∧ i <= snd p < i + Z.of_nat n) (-1)).
Proof.
  revert P i. induction n as [|n IH]; intros P i; cbn [close_connections].
  { apply hoare_ret. intros s w h H. eapply inv_at_mono; [exact H|]. intros p [Hp|[_ ?]]; [done|lia]. }
  eapply hoare_bind_reads; [apply reads_conn_cell|]. intros o.
  apply (hoare_bind _ _ _ (λ _, inv_at (and_conn P a i) (-1))).
  - destruct o as [c|].
    + eapply hoare_bind_reads; [apply reads_conn_fd|]. intros fd. eapply hoare_mono; [apply (cleanup_hoare P a fd i)| |done].
      by intros s w h [[H _] Hr].
    + apply hoare_ret. intros s w h (H & j & -> & Hc). apply inv_at_and; [done|]. eapply unwatched_cell; [apply H|done|done].
  - intros []. eapply hoare_post; [apply IH|]. intros [] s w h H. eapply inv_at_mono; [exact H|].
    intros [b m]. cbn [fst snd]. intros [Hp|[-> Hm]]; [by left; left|]. destruct (decide (m = i)) as [->|]; [by left; right|].
    right. split; [done|lia].
Qed.

(** The end of [zimr_website_disable] for a website on a switch. *)
Lemma switch_off_hoare P a r d :
  (∀ m, P (a, m)) →
  hoare (λ s w h, inv_at P (-1) s w h ∧ (a_data s !! a = Some d ∧ heap (a_sites s) !! a = Some r))
    (_ ← tell (SwitchDestroy (w_sockfd r)); _ ← tell (ZsClose (w_sockfd r)); put_site a (put_sockfd (-1)))
    (λ _, status_later P a WS_STATUS_DISABLED).
Proof.
  intros HP. set (A := λ s w h, inv_at P (-1) s w h ∧ (a_data s !! a = Some d ∧ heap (a_sites s) !! a = Some r)).
  apply (hoare_bind _ _ _ (λ _, A)); [by apply stays_tell_and|]. intros [].
  apply (hoare_bind _ _ _ (λ _ s w h, a_data s !! a = Some d ∧ heap (a_sites s) !! a = Some r ∧
    inv_at P (-1) (site_with s a (put_sockfd (-1) r) (put_status WS_STATUS_DISABLED d)) w h)).
  { apply hoare_tell. intros s w h (H & Hd & Hr). split; [done|]. split; [done|]. apply inv_at_close_switch; [done..|].
    intros m. by apply (ia_unwatched _ _ _ _ _ _ H). }
  intros []. apply hoare_put_site.
  - intros s w h r0 d0 (Hd & Hr & H) Hr0 Hd0. replace r0 with r by congruence. replace d0 with d by congruence.
    exists (put_sockfd (-1) r), d. cbn. rewrite !lookup_insert_eq. split; [done|]. split; [done|].
    by rewrite site_with_twice.
  - intros s w h r0 (Hd & _) _. by exists d.
Qed.

(** A website that has no switch is just marked. *)
Lemma status_later_here P s w h a r d :
  inv_at P (-1) s w h → heap (a_sites s) !! a = Some r → a_data s !! a = Some d → w_sockfd r = -1 →
  status_later (and_site P a) a WS_STATUS_DISABLED s w h.
Proof.
  intros H Hr Hd E. exists r, d. split; [done|]. split; [done|].
  pose proof (inv_at_site_off _ _ _ _ _ _ H Hr E) as [H1 H2 H3]. split; [|done|done].
  eapply app_inv_site; [exact H1|exact Hr|exact Hd| |done| |by left].
  - by destruct (ri_record _ (ai_registry _ _ _ _ H1) _ _ Hr) as (_ & _ & Hip).
  - right. split; [done|by right].
Qed.

Lemma disable_hoare P a : hoare (inv_at P (-1)) (disable a) (λ _, inv_at (and_site P a) (-1)).
Proof.
  unfold zimr_website_disable. eapply hoare_bind_reads; [apply reads_site_at|]. intros r.
  eapply hoare_bind_reads; [apply reads_data_at|]. intros d.
  apply (hoare_bind _ _ _ (λ _, status_later (and_site P a) a WS_STATUS_DISABLED)); [|intros []; apply hoare_put_status].
  destruct (Z.eqb_spec (w_sockfd r) (-1)) as [E|E].
  { apply hoare_ret. intros s w h ((H & Hr) & Hd). by eapply status_later_here. }
  apply (hoare_bind _ _ _ (λ _, inv_at (and_site P a) (-1))).
  { eapply hoare_mono; [apply (close_connections_hoare FD_SETSIZE P 0 a)|by intros s w h [[H _] _]|].
    intros [] s w h H. apply inv_at_site; [eapply inv_at_mono; [exact H|by left]|].
    eapply unwatched_all; [apply H|]. intros i Hi. apply (ia_unwatched _ _ _ _ _ _ H). right. cbn. lia. }
  intros []. eapply hoare_bind_reads; [apply reads_data_at|]. intros d'.
  eapply hoare_bind_reads; [apply reads_site_at|]. intros r'. cbv zeta.
  set (A := λ s w h, inv_at (and_site P a) (-1) s w h ∧ (a_data s !! a = Some d' ∧ heap (a_sites s) !! a = Some r')).
  eapply (hoare_mono A); [|by intros s w h [[H H1] H2]|intros u s w h H; exact H].
  apply (hoare_bind _ _ _ (λ _, A)); [|intros []; by apply switch_off_hoare; intros; right].
  apply stays_only_if. apply (hoare_bind _ _ _ (λ _, A)); [by apply stays_ask_and|]. intros n.
  apply (hoare_bind _ _ _ (λ _, A)); [by apply stays_tell_and|]. intros []. by apply stays_tell_and.
Qed.

Lemma stays_disable P a : stays (inv_at P (-1)) (disable a).
Proof. eapply hoare_post; [apply disable_hoare|]. intros [] s w h H. eapply inv_at_mono; [exact H|]. by left. Qed.
#[local] Hint Resolve stays_disable : safe.

(** *** On *)

(** The website has these data and no switch. *)
Definition idle (a : nat) (d : website_data_t) s : Prop :=
  a_data s !! a = Some d ∧ ∃ r, heap (a_sites s) !! a = Some r ∧ w_sockfd r = -1.

Lemma connect_hoare P F ip port :
  hoare (λ s w h, inv_at P (-1) s w h ∧ F s) (ask (ZsConnect ip port)) (λ v s w h, inv_at P (a_ret v) s w h ∧ F s).
Proof.
  apply hoare_ask. intros s w h [H HF]. split; [|done]. pose proof (ko_connect _ _ Hkernel ip port w) as Hk.
  destruct (inv_at_quiet _ _ Hkernel P (-1) s w h (ZsConnect ip port) I H) as [H1 H2 _].
  destruct (ext (ZsConnect ip port) w) as [r w']. cbn [fst snd] in *. split; [done..|]. intros Hne.
  destruct Hk as [Hk|[Hk1 Hk2]]; [done|]. split; [done|]. intros x Hx. apply Hk1.
  by eapply (ai_open _ _ _ _ (ia_inv _ _ _ _ _ _ H)).
Qed.

(** The website wants a switch. *)
Lemma want_enable_hoare P a d :
  hoare (λ s w h, inv_at P (-1) s w h ∧ idle a d s) (upd_data a (put_status WS_STATUS_WANT_ENABLE) : am W unit)
    (λ _ s w h, inv_at P (-1) s w h ∧ idle a (put_status WS_STATUS_WANT_ENABLE d) s).
Proof.
  apply hoare_upd_data. intros s w h d' ([H1 H2 H3] & Hd & r & Hr & E) Hd'. replace d' with d by congruence.
  rewrite (upd_data_site _ _ _ _ Hr). split.
  - split; [|done|done]. eapply app_inv_site; [exact H1|exact Hr|exact Hd| |done| |by left].
    + by destruct (ri_record _ (ai_registry _ _ _ _ H1) _ _ Hr) as (_ & _ & Hip).
    + right. split; [done|by left].
  - split; [cbn; by rewrite lookup_insert_eq|]. exists r. cbn. by rewrite lookup_insert_eq.
Qed.

(** It gets the one that was opened. *)
Lemma take_switch_hoare P a d n :
  hoare (λ s w h, inv_at P n s w h ∧ idle a (put_status WS_STATUS_WANT_ENABLE d) s) (put_site a (put_sockfd n) : am W unit)
    (λ _ s w h, if n =? -1 then inv_at P (-1) s w h else status_later P a WS_STATUS_ENABLING s w h).
Proof.
  apply hoare_put_site; [|intros s w h r (_ & Hd & _) _; by eexists].
  intros s w h r d' ([H1 H2 H3] & Hd & r' & Hr' & E) Hr Hd'. assert (r' = r) as -> by congruence.
  set (d1 := put_status WS_STATUS_WANT_ENABLE d) in *. replace d' with d1 by congruence.
  pose proof (ri_record _ (ai_registry _ _ _ _ H1) _ _ Hr) as (_ & _ & Hip).
  destruct (Z.eqb_spec n (-1)) as [->|Hn].
  - split; [|done|done]. eapply app_inv_site; [exact H1|exact Hr|exact Hd|done|done| |by left].
    right. split; [done|by left].
  - exists (put_sockfd n r), d1. cbn [site_with a_sites heap a_data]. rewrite !lookup_insert_eq. split; [done|].
    split; [done|]. rewrite site_with_twice. split; [|done|done].
    eapply app_inv_site; [exact H1|exact Hr|exact Hd|done|done| |].
    + left. split; [done|by left].
    + right. split; [|right; destruct (H3 Hn) as [Ho Hx]; by split]. intros m. by eapply unwatched_off.
Qed.

Lemma stays_enable P a : stays (inv_at P (-1)) (enable a).
Proof.
  unfold zimr_website_enable. eapply hoare_bind_reads; [apply reads_data_at|]. intros d.
  destruct (negb _ && negb _) eqn:Es; [apply hoare_ret; by intros s w h [H _]|].
  eapply (hoare_mono (λ s w h, inv_at P (-1) s w h ∧ idle a d s)); [| |intros b s w h H; exact H].
  2: { intros s w h [H Hd]. split; [done|]. split; [done|].
       destruct (app_inv_here _ _ _ _ _ _ (ia_inv _ _ _ _ _ _ H) Hd) as [r Hr]. exists r. split; [done|].
       destruct (ai_switched _ _ _ _ (ia_inv _ _ _ _ _ _ H) _ _ _ Hr Hd) as [[_ Hst]|[E _]]; [|done].
       by destruct Hst as [Hst|Hst]; rewrite Hst in Es. }
  eapply hoare_bind; [apply want_enable_hoare|]. intros []. eapply hoare_bind; [apply connect_hoare|]. intros v.
  eapply hoare_bind; [apply take_switch_hoare|]. intros []. destruct (a_ret v =? -1); [by apply hoare_ret|].
  eapply hoare_bind; [apply hoare_put_status|]. intros []. cbv zeta. staying.
Qed.
#[local] Hint Resolve stays_enable : safe.

(** The proxy has registered the website. *)
Lemma set_enabled_hoare P a fd :
  fd ≠ -1 →
  hoare (λ s w h, inv_at P (-1) s w h ∧ on_switch a fd s) (upd_data a (put_status WS_STATUS_ENABLED) : am W unit)
    (λ _, inv_at P (-1)).
Proof.
  intros Hfd. apply hoare_upd_data. intros s w h d ([H1 H2 H3] & r & Hr & E) Hd. rewrite (upd_data_site _ _ _ _ Hr).
  split; [|done|done]. eapply app_inv_site; [exact H1|exact Hr|exact Hd| |done| |by left].
  - by destruct (ri_record _ (ai_registry _ _ _ _ H1) _ _ Hr) as (_ & _ & Hip).
  - left. split; [congruence|by right].
Qed.

Lemma stays_command_response P fd m buf :
  fd ≠ -1 → stays (inv_at P (-1)) (command_response_handler ext run_callback dlsym fd m buf).
Proof.
  intros Hfd. unfold command_response_handler. eapply hoare_bind_reads; [apply reads_site_of|]. intros a.
  set (A := λ s w h, inv_at P (-1) s w h ∧ on_switch a fd s).
  eapply (hoare_mono A); [|by intros s w h [H [_ Hr]]|intros b s w h H; exact H].
  apply (hoare_bind _ _ _ (λ _, A)); [eapply stays_reads, reads_data_at|]. intros d.
  apply (hoare_bind _ _ _ (λ _, A)); [by apply stays_ask_and|]. intros t.
  apply (hoare_bind _ _ _ (λ _, inv_at P (-1))); [|intros []; staying].
  destruct (_ =? _); [|apply hoare_ret; by intros s w h [H _]]. destruct (strcmp_eq _ _).
  - eapply hoare_bind; [by apply set_enabled_hoare|]. intros []. apply stays_bind; [staying|]. intros _.
    by apply stays_upd_data.
  - eapply (hoare_mono (inv_at P (-1))); [staying|by intros s w h [H _]|intros b s w h H; exact H].
Qed.

(** *** Creation and destruction *)

Context (regcomp_ok : bytes → bool).

Lemma stays_insert_pubdir P a dir pos : stays (inv_at P (-1)) (zimr_website_insert_pubdir a dir pos : am W unit).
Proof. do 2 (apply stays_bind; [staying|intros ?]). by apply stays_upd_data. Qed.
Lemma stays_insert_default_page P a page pos : stays (inv_at P (-1)) (zimr_website_insert_default_page a page pos : am W unit).
Proof. by apply stays_upd_data. Qed.
Lemma stays_insert_ignored P a regex : stays (inv_at P (-1)) (zimr_website_insert_ignored_regex regcomp_ok a regex : am W unit).
Proof. apply stays_only_if. by apply stays_upd_data. Qed.
Lemma stays_page_type P a type f : stays (inv_at P (-1)) (zimr_website_register_page_handler a type f : am W unit).
Proof. apply stays_bind; [staying|intros ?]. by apply stays_upd_data. Qed.
Lemma stays_set_redirect P a url : stays (inv_at P (-1)) (zimr_website_set_redirect a url : am W unit).
Proof. by apply stays_upd_data. Qed.
Lemma stays_set_proxy P a ip port : stays (inv_at P (-1)) (zimr_website_set_proxy a ip port : am W unit).
Proof. do 2 (apply stays_bind; [staying|intros ?]). by apply stays_upd_data. Qed.
Lemma stays_set_handler P a f : stays (inv_at P (-1)) (zimr_website_set_connection_handler a f : am W unit).
Proof. by apply stays_upd_data. Qed.
Lemma stays_set_error_handler P a f : stays (inv_at P (-1)) (zimr_website_set_error_handler a f : am W unit).
Proof. by apply stays_upd_data. Qed.
#[local] Hint Resolve stays_insert_pubdir stays_insert_default_page stays_insert_ignored : safe.

Lemma stays_create P url : stays (inv_at P (-1)) (zimr_website_create regcomp_ok url : am W nat).
Proof.
  unfold zimr_website_create. eapply hoare_bind_reads; [apply reads_get_state|]. intros s0.
  eapply (hoare_bind_reads _ _ _ (λ ra _, website_add (a_sites s0) (-1) url None = Done ra)); [by apply reads_pure|].
  intros [g a]. apply (hoare_bind _ _ _ (λ _, inv_at P (-1))).
  - apply hoare_put. intros s w h (([H1 H2 H3] & <-) & Ha). split; [|done|done]. by eapply app_inv_new.
  - intros []. staying.
Qed.

Lemma stays_destroy P a : stays (inv_at P (-1)) (destroy a).
Proof.
  unfold zimr_website_destroy. apply stays_bind; [staying|]. intros _.
  eapply hoare_bind; [apply disable_hoare|]. intros [].
  apply (hoare_post _ _ (λ _, inv_at (and_site P a) (-1))); [|intros u s w h H; eapply inv_at_mono; [exact H|by left]].
  apply stays_bind; [staying|]. intros d. apply stays_bind; [by apply stays_call_modules; right|]. intros _.
  eapply hoare_bind_reads; [apply reads_get_state|]. intros s0.
  eapply (hoare_bind_reads _ _ _ (λ r _, website_remove (a_sites s0) a = Done r)); [by apply reads_pure|].
  intros g. apply hoare_put. intros s w h (([H1 H2 H3] & <-) & Hg).
  assert (is_Some (heap (a_sites s0) !! a)) as Ha.
  { unfold website_remove in Hg. rewrite (ai_init _ _ _ _ H1) in Hg. cbn [assert mbind res_bind] in Hg.
    destruct (heap (a_sites s0) !! a); [by eexists|done]. }
  rewrite (website_remove_spec _ _ (ai_registry _ _ _ _ H1) (ai_init _ _ _ _ H1) Ha) in Hg. injection Hg as <-.
  split; [|done|done]. apply (app_inv_removed opened s0 w h a H1). intros m. apply H2. by right.
Qed.
#[local] Hint Resolve stays_create stays_destroy : safe.

(** *** Requests *)

#[local] Notation answer_request := (request_answer ext run_callback dlsym ZIMR_VERSION http_date cookie_date log_date
  max_age_addr regex_match garbage_isdir).
#[local] Notation complete := (request_complete ext run_callback dlsym ZIMR_VERSION http_date cookie_date log_date
  max_age_addr regex_match garbage_isdir).
#[local] Notation handler := (zimr_connection_handler ext run_callback dlsym ZIMR_VERSION http_date cookie_date log_date
  max_age_addr regex_match garbage_isdir).

Lemma stays_new_connection P l a m : P (a, m) → stays (inv_at P (-1)) (new_connection run_callback dlsym l a m).
Proof. intros Hp. pose proof (λ f arg, stays_callback P f (a, m) arg Hp). induction l; cbn [new_connection]; staying. Qed.

Lemma stays_request_answer P a m : P (a, m) → stays (inv_at P (-1)) (answer_request a m).
Proof.
  intros Hp. pose proof (λ f arg, stays_callback P f (a, m) arg Hp). pose proof (λ l, stays_new_connection P l a m Hp).
  unfold request_answer, zimr_website_default_connection_handler. cbv zeta. staying.
Qed.

Lemma connection_create_sockfd r m data size k : connection_create r m data size = Done (Some k) → cn_sockfd k = m.
Proof.
  unfold connection_create. destruct (_ <? _)%nat; [done|]. cbv zeta.
  destruct (parse_type _) as [[type raw]|]; [|done]. intros H. unfold mbind, res_bind in H.
  repeat (match type of H with
          | match ?r with Done _ => _ | Fault _ => _ end = _ => destruct r
          | match ?o with Some _ => _ | None => _ end = _ => destruct o
          | (let '(_, _) := ?x in _) = _ => destruct x
          end; try discriminate H).
  all: by injection H as <-.
Qed.

(** A connection whose bytes are all there, and which was not read. *)
Definition unread (a : nat) (m : Z) s : Prop :=
  ∃ i c, m = Z.of_nat i ∧ has_cell s a i (Some c) ∧ cd_connection c = None ∧ size_received c = cd_size c.

Lemma unread_unwatched s w h a i c :
  app_inv opened s w h → has_cell s a i (Some c) → cd_connection c = None → fr_fd (fileread_data c) = -1.
Proof.
  intros H Hc Hk. destruct (decide (fr_fd (fileread_data c) = -1)) as [|E]; [done|].
  destruct (wo_file _ _ (has_cell_ok _ _ _ _ _ _ _ H Hc) E) as (k & Hk' & _). congruence.
Qed.

Lemma request_complete_hoare P a m :
  hoare (λ s w h, inv_at P (-1) s w h ∧ unread a m s) (complete a m) (λ _, inv_at P (-1)).
Proof.
  unfold request_complete. eapply hoare_bind_reads; [apply reads_conn_at|]. intros c.
  eapply hoare_bind_reads; [apply reads_site_at|]. intros r.
  eapply (hoare_bind_reads _ _ _ (λ o _, connection_create r m (cd_data c) (cd_size c) = Done o)); [by apply reads_pure|].
  intros o. cbv zeta. apply (hoare_bind _ _ _ (λ _, inv_at (and_conn P a m) (-1))).
  - apply hoare_upd_conn; [by intros s w h d ((((H & _) & _) & _) & _); eapply inv_at_len|].
    intros s w h i c' ((((H & j & c2 & Ej & Hc2 & Hk & Hsize) & _) & _) & Ho) Ei Hc.
    assert (j = i) as -> by lia. pose proof (has_cell_inj _ _ _ _ _ Hc Hc2) as [= ->].
    pose proof (unread_unwatched _ _ _ _ _ _ (ia_inv _ _ _ _ _ _ H) Hc Hk) as Hf.
    apply inv_at_and; [|rewrite Ei; eapply unwatched_cell; [apply H|exact Hc|done]].
    eapply inv_at_same_file; [done|exact Hc| |done]. intros ? [= <-].
    destruct (has_cell_ok _ _ _ _ _ _ _ (ia_inv _ _ _ _ _ _ H) Hc) as [H1 H2 H3 H4]. split; try done.
    cbn. intros k E. destruct o as [k0|]; [|done]. injection E as <-. cbn. rewrite <- Ei. by eapply connection_create_sockfd.
  - intros []. apply (hoare_post _ _ (λ _, inv_at (and_conn P a m) (-1))); [|intros u s w h H; eapply inv_at_mono; [exact H|by left]].
    destruct o as [k|]; cbn [fmap option_fmap option_map]; [|by apply hoare_ret]. apply stays_request_answer. by right.
Qed.

(** A new cell, and the bytes that come. *)
Lemma new_cell_ok i n : web_conn_ok i (ConnData 0 n [] None None (FileRead (-1) 0 0)).
Proof. split; try done. by intros [? ?]. Qed.

Lemma put_data_ok i c buf :
  web_conn_ok i c → cd_connection c = None →
  web_conn_ok i (put_data ((size_received c + Z.of_nat (length buf)) mod 2 ^ 64) (cd_data c ++ buf) c).
Proof.
  intros [H1 H2 H3 H4] Hk. split; cbn [put_data cd_connection fileread_data size_received cd_data cd_size]; try done.
  - rewrite H3, length_app, Nat2Z.inj_add. by rewrite Zplus_mod_idemp_l.
  - rewrite Hk. by intros [? ?].
Qed.

Lemma put_data_hoare P a m c buf :
  size_received c < cd_size c →
  let n := (size_received c + Z.of_nat (length buf)) mod 2 ^ 64 in
  hoare (λ s w h, inv_at P (-1) s w h ∧ ∃ i, m = Z.of_nat i ∧ has_cell s a i (Some c))
    (upd_conn a m (put_data n (cd_data c ++ buf)))
    (λ _ s w h, inv_at P (-1) s w h ∧ (n = cd_size c → unread a m s)).
Proof.
  intros Hsize n. apply hoare_upd_conn; [by intros s w h d [H _]; eapply inv_at_len|].
  intros s w h i c' (H & j & Ej & Hc') Ei Hc. assert (j = i) as -> by lia.
  pose proof (has_cell_inj _ _ _ _ _ Hc Hc') as [= ->].
  pose proof (has_cell_ok _ _ _ _ _ _ _ (ia_inv _ _ _ _ _ _ H) Hc) as Hok.
  assert (cd_connection c = None) as Hk.
  { destruct (cd_connection c) eqn:E; [|done]. exfalso. pose proof (wo_complete _ _ Hok) as Hw. rewrite E in Hw.
    specialize (Hw ltac:(by eexists)). lia. }
  split.
  - eapply inv_at_same_file; [done|exact Hc| |done]. intros ? [= <-]. by apply put_data_ok.
  - intros En. eexists i, _. split; [done|]. split; [eapply has_cell_with_conn; [exact Hc|by left]|]. by split.
Qed.

Lemma stays_handler P a m buf : stays (inv_at P (-1)) (handler a m buf).
Proof.
  unfold zimr_connection_handler. eapply hoare_bind_reads; [apply reads_conn_cell|]. intros o.
  apply (hoare_bind _ _ _ (λ _, inv_at P (-1))).
  { destruct o as [c|]; [apply hoare_ret; by intros s w h [Hq _]|]. destruct (_ <? _)%nat.
    - apply hoare_pure. by intros.
    - apply (hoare_bind _ _ _ (λ _, inv_at P (-1))); [|intros []; by apply hoare_ret].
      apply hoare_put_conn; [by intros s w h d [H _]; eapply inv_at_len|].
      intros s w h i o (H & j & Ej & Hc') Ei Hc. assert (j = i) as -> by lia.
      pose proof (has_cell_inj _ _ _ _ _ Hc Hc') as ->. eapply inv_at_same_file; [done|exact Hc| |done].
      intros ? [= <-]. apply new_cell_ok. }
  intros buf'. eapply hoare_bind_reads; [apply reads_conn_at|]. intros c.
  destruct (Z.leb_spec (cd_size c) (size_received c)) as [|Hsize]; [apply hoare_ret; by intros s w h [Hq _]|].
  cbv zeta. eapply hoare_bind; [by apply put_data_hoare|]. intros []. destruct (_ <? _); [apply hoare_ret; by intros s w h [Hq _]|].
  destruct (Z.eqb_spec ((size_received c + Z.of_nat (length buf')) mod 2 ^ 64) (cd_size c)) as [E|];
    [|apply hoare_ret; by intros s w h [H _]].
  eapply hoare_mono; [apply (request_complete_hoare P a m)| |done]. intros s w h [H Hu]. split; [done|by apply Hu].
Qed.
#[local] Hint Resolve stays_handler : safe.

(** *** Events *)

#[local] Notation events := (msg_event_handler ext run_callback dlsym ZIMR_VERSION http_date cookie_date log_date
  max_age_addr regex_match garbage_isdir).

Lemma stays_file_handler P fd p : stays (inv_at P (-1)) (zimr_file_handler ext run_callback dlsym fd p).
Proof. unfold zimr_file_handler. cbv zeta. staying. Qed.

(** Nothing is known of what is watched. *)
Definition nobody : conn_ptr → Prop := λ _, False.

(** A connection that sends a file is watched when the client takes more. *)
Lemma watch_hoare a fd m c :
  fd ≠ -1 → fr_fd (fileread_data c) ≠ -1 →
  hoare (λ s w h, inv_at nobody (-1) s w h ∧ (on_switch a fd s ∧ ∃ i, m = Z.of_nat i ∧ has_cell s a i (Some c)))
    (tell (ZfdSet (fr_fd (fileread_data c)) (a, m))) (λ _, inv_at nobody (-1)).
Proof.
  intros Hfd Hf. apply hoare_tell. intros s w h ([H1 H2 H3] & (r & Hr & E) & i & -> & Hc). split; [|by intros p|done].
  eapply app_inv_world; [exact H1|..].
  - intros n x _ _ Ho. by apply (ko_stays _ _ Hkernel).
  - intros n p Hp. rewrite watched_snoc in Hp. cbn in Hp. apply lookup_insert_Some in Hp as [[<- <-]|[_ Hp]]; [|by left].
    right. split; [done|]. exists i, c, r. split_and!; try done. cbn. congruence.
Qed.

Lemma stays_msg_event fd m event : fd ≠ -1 → stays (inv_at nobody (-1)) (events fd m event).
Proof.
  intros Hfd. pose proof (λ buf, stays_command_response nobody fd m buf Hfd). unfold msg_event_handler.
  eapply hoare_bind_reads; [apply reads_site_of|]. intros a.
  apply (hoare_mono (λ s w h, inv_at nobody (-1) s w h ∧ on_switch a fd s) _ _ (λ _, inv_at nobody (-1)));
    [|by intros s w h [Hi [_ Hr]]|done].
  apply (hoare_bind _ _ _ (λ _ s w h, inv_at nobody (-1) s w h ∧ on_switch a fd s)); [eapply stays_reads, reads_data_at|].
  intros d. destruct (_ =? _).
  { apply (hoare_mono (inv_at nobody (-1)) _ _ (λ _, inv_at nobody (-1))); [staying|by intros s w h [Hi _]|done]. }
  destruct (event =? _).
  - destruct (m <? 0); [apply hoare_ret; by intros s w h [Hi _]|].
    eapply hoare_bind_reads; [apply reads_conn_at|]. intros c.
    destruct (Z.eqb_spec (fr_fd (fileread_data c)) (-1)) as [E|E]; cbn [negb only_if]; [apply hoare_ret; by intros s w h [[Hi _] _]|].
    set (A := λ s w h, inv_at nobody (-1) s w h ∧ (on_switch a fd s ∧ ∃ i, m = Z.of_nat i ∧ has_cell s a i (Some c))).
    apply (hoare_mono A _ _ (λ _, inv_at nobody (-1))); [|by intros s w h [[Hi Hr] Hc]|done].
    apply (hoare_bind _ _ _ (λ _, A)); [by apply stays_tell_and|]. intros []. by apply watch_hoare.
  - apply (hoare_mono (inv_at nobody (-1)) _ _ (λ _, inv_at nobody (-1))); [|by intros s w h [Hi _]|done]. staying.
Qed.

Lemma stays_start_websites P l n : stays (inv_at P (-1)) (start_websites ext l n).
Proof. revert n. induction l; intros n; cbn [start_websites]; staying. Qed.

Lemma stays_start_round P : stays (inv_at P (-1)) (start_round ext).
Proof. pose proof stays_start_websites. unfold start_round. staying. Qed.
End functions.
