(* ===== verification/WebappReach.v ===== *)
(** lib/zimr.c: the states that an application comes to, from the start of the library on,
    by its own calls and by the events, and what holds in all of them. *)

From Stdlib Require Import ZArith Lia String.
From stdpp Require Import gmap.
From S2P Require Import FdHash MsgSwitch.
From S2P Require Export WebappConfine WebappSafe.

Local Open Scope Z_scope.

(** ** Steps *)

(** A call of the application, an event of a wait, or a round of [zimr_start].  [SetModules]
    is what zimr_website_load_module and zimr_reload_module do with the modules of a website. *)
Inductive app_step :=
| CreateSite (url : bytes) | EnableSite (a : nat) | DisableSite (a : nat) | DestroySite (a : nat)
| SetPubdir (a : nat) (dir : option bytes) (pos : Z) | SetDefaultPage (a : nat) (page : bytes) (pos : Z)
| SetIgnored (a : nat) (regex : bytes) | SetPageHandler (a : nat) (type : bytes) (f : nat)
| SetRedirect (a : nat) (url : bytes) | SetProxy (a : nat) (ip : option bytes) (port : Z)
| SetConnectionHandler (a : nat) (f : option nat) | SetErrorHandler (a : nat) (f : option nat)
| SetModules (a : nat) (l : list module_website_data_t)
| HandleEvent (e : web_event) | StartRound.

(** What the loop of zfildes.c hands on: a switch has a descriptor, and a file is watched. *)
Definition step_allowed (h : list call) (t : app_step) : Prop :=
  match t with
  | HandleEvent (SwitchEvent fd _ _) => fd ≠ -1
  | HandleEvent (FileEvent fd p) => watched h !! fd = Some p
  | _ => True
  end.

Section reach.
Context {W : Type} (ext : call → W → answer * W) (opened : W → Z → Prop).
Context (run_callback : nat → conn_ptr → callback_arg → am W unit).
Context (dlsym : nat → bytes → option nat).
Context (ZIMR_VERSION : bytes) (http_date cookie_date log_date : Z → bytes) (max_age_addr : Z).
Context (regex_match : bytes → bytes → bool) (garbage_isdir : bool) (regcomp_ok : bytes → bool).
Implicit Types (s : app_t) (w : W) (h : list call).
#[local] Notation web_dispatch := (web_dispatch ext run_callback dlsym ZIMR_VERSION http_date cookie_date log_date max_age_addr
  regex_match garbage_isdir).
#[local] Notation web_dispatch_all := (web_dispatch_all ext run_callback dlsym ZIMR_VERSION http_date cookie_date log_date
  max_age_addr regex_match garbage_isdir).
#[local] Notation start_loop := (start_loop ext run_callback dlsym ZIMR_VERSION http_date cookie_date log_date
  max_age_addr regex_match garbage_isdir).

Definition run_step (t : app_step) : am W unit :=
  match t with
  | CreateSite url => _ ← zimr_website_create regcomp_ok url; mret tt
  | EnableSite a => _ ← zimr_website_enable ext a; mret tt
  | DisableSite a => zimr_website_disable ext run_callback dlsym a
  | DestroySite a => zimr_website_destroy ext run_callback dlsym a
  | SetPubdir a dir pos => zimr_website_insert_pubdir a dir pos
  | SetDefaultPage a page pos => zimr_website_insert_default_page a page pos
  | SetIgnored a regex => zimr_website_insert_ignored_regex regcomp_ok a regex
  | SetPageHandler a type f => zimr_website_register_page_handler a type f
  | SetRedirect a url => zimr_website_set_redirect a url
  | SetProxy a ip port => zimr_website_set_proxy a ip port
  | SetConnectionHandler a f => zimr_website_set_connection_handler a f
  | SetErrorHandler a f => zimr_website_set_error_handler a f
  | SetModules a l => upd_data a (put_modules l)
  | HandleEvent e => web_dispatch e
  | StartRound => start_round ext
  end.

(** The states, with the worlds and the calls made so far.  Modules are loaded and unloaded
    at any time, with their calls of the outside left out. *)
Inductive app_reachable (w0 : W) : app_t → W → list call → Prop :=
| app_reach_init g : website_init registry_static = Done g → app_reachable w0 (App g ∅ ∅) w0 []
| app_reach_modules s w h ms : app_reachable w0 s w h → app_reachable w0 (put_heap ms s) w h
| app_reach_step s w h t s' w' l :
    app_reachable w0 s w h → step_allowed h t → run_step t s w = Done (tt, s', w', l) →
    app_reachable w0 s' w' (h ++ l).

(** *** The loop of [zimr_start] goes through such states *)

(** The events of a wait are allowed, each when its turn comes. *)
Fixpoint events_allowed (es : list web_event) s w h : Prop :=
  match es with
  | [] => True
  | e :: es =>
      step_allowed h (HandleEvent e) ∧
      match web_dispatch e s w with Done (_, s', w', l) => events_allowed es s' w' (h ++ l) | Fault _ => True end
  end.

Fixpoint waits_allowed (waits : list (list web_event)) s w h : Prop :=
  match waits with
  | [] => True
  | es :: waits =>
      events_allowed es s w h ∧
      match (_ ← web_dispatch_all es; start_round ext) s w with
      | Done (_, s', w', l) => waits_allowed waits s' w' (h ++ l) | Fault _ => True
      end
  end.

Lemma web_dispatch_all_reachable w0 es s w h s' w' l :
  app_reachable w0 s w h → events_allowed es s w h → web_dispatch_all es s w = Done (tt, s', w', l) →
  app_reachable w0 s' w' (h ++ l).
Proof.
  revert s w h l. induction es as [|e es IH]; intros s w h l Hr Ha H; cbn [WebappIn.web_dispatch_all events_allowed] in *.
  { injection H as <- <- <-. by rewrite app_nil_r. }
  apply em_bind_inv in H as ([] & s1 & w1 & l1 & l2 & E & H & ->). rewrite E in Ha. destruct Ha as [Ha Hes].
  rewrite app_assoc. eapply IH; [|exact Hes|exact H]. by eapply (app_reach_step w0 s w h (HandleEvent e)).
Qed.

Lemma start_loop_reachable w0 waits s w h s' w' l :
  app_reachable w0 s w h → waits_allowed waits s w h → start_loop waits s w = Done (tt, s', w', l) →
  app_reachable w0 s' w' (h ++ l).
Proof.
  revert s w h l. induction waits as [|es waits IH]; intros s w h l Hr Ha H; cbn [WebappIn.start_loop waits_allowed] in *.
  { injection H as <- <- <-. by rewrite app_nil_r. }
  apply em_bind_inv in H as ([] & s1 & w1 & l1 & l2 & E1 & H & ->).
  apply em_bind_inv in H as ([] & s2 & w2 & l3 & l4 & E2 & H & ->). destruct Ha as [Hes Ha].
  unfold mbind, em_bind in Ha. rewrite E1, E2 in Ha. pose proof (web_dispatch_all_reachable _ _ _ _ _ _ _ _ Hr Hes E1) as Hr1.
  assert (app_reachable w0 s2 w2 ((h ++ l1) ++ l3)) as Hr2 by by eapply (app_reach_step w0 s1 w1 _ StartRound).
  apply em_bind_inv in H as (s3 & s4 & w4 & l5 & l6 & E & H & ->). injection E as <- <- <- <-.
  replace (h ++ l1 ++ l3 ++ [] ++ l6) with (((h ++ l1) ++ l3) ++ l6) by (by rewrite <- !app_assoc).
  destruct (websites (a_sites s2)) as [|b sites].
  - injection H as <- <- <-. by rewrite app_nil_r.
  - eapply IH; [exact Hr2| |exact H]. by rewrite <- app_assoc.
Qed.

(** *** The invariant holds in all of them *)

Context (Hkernel : kernel_ok ext opened) (Hcallback : callbacks_ok opened run_callback).

Lemma app_init_inv g w : website_init registry_static = Done g → app_inv opened (App g ∅ ∅) w [].
Proof.
  intros [= <-]. split; cbn [a_sites a_data websites heap initialized].
  - split; cbn; try (intros a Ha; by apply elem_of_nil in Ha).
    + constructor.
    + by intros a [x Hx].
    + done.
  - done.
  - intros a. split; [intros Ha; by apply elem_of_nil in Ha|]. intros [d Hd]. done.
  - done.
  - done.
  - intros fd [a|a i] o' _ Ho _; [by destruct Ho as (r & Hr & _)|by destruct Ho as (c & (_ & d & Hd & _) & _)].
  - intros fd [a|a i] _ Ho; [by destruct Ho as (r & Hr & _)|by destruct Ho as (c & (_ & d & Hd & _) & _)].
  - done.
Qed.

Lemma app_inv_heap ms s w h : app_inv opened s w h → app_inv opened (put_heap ms s) w h.
Proof. by intros [H1 H2 H3 H4 H5 H6 H7 H8]. Qed.

Lemma step_keeps h t s w s' w' l :
  app_inv opened s w h → step_allowed h t → run_step t s w = Done (tt, s', w', l) → app_inv opened s' w' (h ++ l).
Proof.
  intros Hi Ha H. assert (inv_at opened nobody (-1) s w h) as Hat by by split.
  eapply (ia_inv opened nobody (-1)). revert H. destruct t; cbn [run_step].
  1,2: intros H; apply em_bind_inv in H as (x & s1 & w1 & l1 & l2 & E & H & ->);
       injection H as <- <- <-; rewrite app_nil_r; revert E.
  all: match goal with |- ?m _ _ = _ → _ => enough (stays (inv_at opened nobody (-1)) m) as Hm by (by apply Hm) end.
  - by apply stays_create.
  - by apply stays_enable.
  - by apply stays_disable.
  - by apply stays_destroy.
  - by apply stays_insert_pubdir.
  - by apply stays_insert_default_page.
  - by apply stays_insert_ignored.
  - by apply stays_page_type.
  - by apply stays_set_redirect.
  - by apply stays_set_proxy.
  - by apply stays_set_handler.
  - by apply stays_set_error_handler.
  - by apply stays_upd_data.
  - destruct e; [by apply stays_msg_event|by apply stays_file_handler].
  - by apply stays_start_round.
Qed.

Lemma app_reachable_inv w0 s w h : app_reachable w0 s w h → app_inv opened s w h.
Proof.
  induction 1 as [g Hg|s w h ms _ IH|s w h t s' w' l _ IH Ha H];
    [by apply app_init_inv|by apply app_inv_heap|by eapply step_keeps].
Qed.

(** The library can be shut down in each of them in which the modules of the websites are
    loaded. *)
Lemma app_reachable_sites_ok w0 s w h :
  app_reachable w0 s w h → (∀ a d, a_data s !! a = Some d → entries_alive s d) → sites_ok s.
Proof.
  intros Hr%app_reachable_inv Hal. split; [apply Hr|apply Hr|..].
  - intros a [d Hd]%(ai_data _ _ _ _ Hr). exists d. split; [done|]. split; [|by eapply Hal].
    apply sd_cells. by eapply (ai_shape _ _ _ _ Hr).
  - intros a b r v Ha Hb Hra Hvb E Hne.
    assert (OwnSwitch a = OwnSwitch b) as [=]; [|done].
    eapply (ai_owner _ _ _ _ Hr (w_sockfd r)); [done|by exists r|by exists v].
Qed.
End reach.

(** ** Applications that answer with the functions of the library *)

(** What a function of the application does with its connection. *)
Inductive web_answer :=
| SendPage (message : bytes) | SendFile (path : bytes) (use_pubdir : bool)
| SendError (code : Z) (message : bytes) | SendRedirect (url : bytes) | NoAnswer.

Section answering.
Context {W : Type} (ext : call → W → answer * W) (opened : W → Z → Prop).
Context (dlsym : nat → bytes → option nat).
Context (ZIMR_VERSION : bytes) (http_date cookie_date log_date : Z → bytes) (max_age_addr : Z).
Context (regex_match : bytes → bytes → bool) (garbage_isdir : bool).
Context (act : nat → conn_ptr → callback_arg → web_answer).

(** The functions, which are called again by what they call, to this depth. *)
Fixpoint answering (depth : nat) (f : nat) (p : conn_ptr) (arg : callback_arg) : am W unit :=
  match depth with
  | O => mret tt
  | S depth =>
      let run := answering depth in
      match act f p arg with
      | SendPage message =>
          zimr_connection_send ext run dlsym ZIMR_VERSION http_date cookie_date log_date max_age_addr p message
      | SendFile path use_pubdir =>
          zimr_connection_send_file ext run dlsym ZIMR_VERSION http_date cookie_date log_date max_age_addr regex_match
            garbage_isdir p path use_pubdir
      | SendError code message =>
          zimr_connection_send_error ext run dlsym ZIMR_VERSION http_date cookie_date log_date max_age_addr p code message
      | SendRedirect url =>
          zimr_connection_send_redirect ext run dlsym ZIMR_VERSION http_date cookie_date log_date max_age_addr p url
      | NoAnswer => mret tt
      end
  end.

Lemma answering_ok depth : kernel_ok ext opened → callbacks_ok opened (answering depth).
Proof.
  intros Hk. induction depth as [|depth IH]; intros f p arg; cbn [answering].
  { split; [by apply hoare_ret; intros s w h [H _]|apply emits_ret]. }
  assert (∀ c, match c with OpenFile _ | ReadDir _ | ZfdSet _ _ => True | _ =>
    match c with ZfdSet _ _ => False | _ => True end end) as HP by by intros [].
  assert (∀ m : am W unit, stays (inv_at opened (λ q, q = p) (-1)) m →
    hoare (λ s w h, app_inv opened s w h ∧ unwatched h p) m (λ _, app_inv opened)) as Hpost.
  { intros m Hm. eapply hoare_mono; [exact Hm| |].
    - intros s w h [H1 H2]. split; [done| |done]. by intros q ->.
    - intros u s w h H. apply H. }
  assert (∀ g q arg', emits (λ c, match c with ZfdSet _ _ => False | _ => True end) (answering depth g q arg')) as He
    by (intros; apply IH).
  destruct (act f p arg) as [message|path use_pubdir|code message|url|]; (split; [apply Hpost|]).
  - by apply stays_send.
  - by apply emits_send.
  - by apply stays_send_file.
  - by apply emits_send_file.
  - by apply stays_send_error.
  - by apply emits_send_error.
  - by apply stays_redirect.
  - by apply emits_redirect.
  - by apply hoare_ret.
  - apply emits_ret.
Qed.
End answering.

(** ** A sample run *)

(** How many descriptors have been opened, from 5 on, and what the next reads from a switch
    give.  Every file has four bytes, and every client takes what it is sent. *)
Definition demo_world : Type := nat * list bytes.
Definition demo_opened (w : demo_world) (fd : Z) : Prop := 5 <= fd < 5 + Z.of_nat (fst w).

Definition demo_web_ext (c : call) (w : demo_world) : answer * demo_world :=
  let '(n, reads) := w in
  match c with
  | ZsConnect _ _ | OpenFile _ => (Answer (5 + Z.of_nat n) [] false 0 0 [], (S n, reads))
  | MsgRead _ _ _ =>
      match reads with
      | data :: reads => (Answer (Z.of_nat (length data)) data false 0 0 [], (n, reads))
      | [] => (Answer 0 [] false 0 0 [], w)
      end
  | MsgGetType _ m => (Answer (if m =? 0 then -1 else 9) [] false 0 0 [], w)
  | ReadFile _ _ => (Answer 4 (str "text") false 0 0 [], w)
  | Stat _ => (Answer 0 [] false 4 0 [], w)
  | _ => (Answer 0 [] false 0 0 [], w)
  end.

Lemma demo_kernel_ok : kernel_ok demo_web_ext demo_opened.
Proof.
  split.
  - intros c [n reads] fd Ho _ _. unfold demo_opened in *.
    destruct c; cbn [demo_web_ext fst snd] in *; try lia. destruct reads; cbn [fst snd]; lia.
  - intros ip port [n reads]. right. unfold demo_opened. cbn. lia.
  - intros path [n reads]. right. unfold demo_opened. cbn. lia.
Qed.

(** The application sends the file of the request by itself. *)
Definition demo_callback : nat → conn_ptr → callback_arg → am demo_world unit :=
  answering demo_web_ext no_symbol (str "1") no_date no_date no_date 0 (λ _ _, false) false
    (λ _ _ _, SendFile (str "a.html") true) 2.

#[local] Notation demo_step := (run_step demo_web_ext demo_callback no_symbol (str "1") no_date no_date no_date 0
  (λ _ _, false) false (λ _, true)).
#[local] Notation demo_reachable := (app_reachable demo_web_ext demo_callback no_symbol (str "1") no_date no_date no_date 0
  (λ _ _, false) false (λ _, true)).

Definition step_allowedb (h : list call) (t : app_step) : bool :=
  match t with
  | HandleEvent (SwitchEvent fd _ _) => negb (fd =? -1)
  | HandleEvent (FileEvent fd p) => bool_decide (watched h !! fd = Some p)
  | _ => true
  end.

Lemma step_allowedb_ok h t : step_allowedb h t = true → step_allowed h t.
Proof.
  destruct t; try done. destruct e; cbn; intros H; [by apply negb_true_iff, Z.eqb_neq in H|by apply bool_decide_eq_true in H].
Qed.

(** The steps of a list, each of which must be allowed. *)
Fixpoint demo_run (ts : list app_step) (s : app_t) (w : demo_world) (h : list call) : option (app_t * demo_world * list call) :=
  match ts with
  | [] => Some (s, w, h)
  | t :: ts =>
      if step_allowedb h t then
        match demo_step t s w with Done (_, s, w, l) => demo_run ts s w (h ++ l) | Fault _ => None end
      else None
  end.

Lemma demo_run_reachable w0 ts s w h s' w' h' :
  demo_reachable w0 s w h → demo_run ts s w h = Some (s', w', h') → demo_reachable w0 s' w' h'.
Proof.
  revert s w h. induction ts as [|t ts IH]; intros s w h Hr H; cbn [demo_run] in H; [by injection H as <- <- <-|].
  destruct (step_allowedb h t) eqn:Ha; [|done]. destruct (demo_step t s w) as [[[[[] s1] w1] l1]|] eqn:E; [|done].
  eapply IH; [|exact H]. eapply app_reach_step; [exact Hr|by apply step_allowedb_ok|exact E].
Qed.

(** A website is created and registered, a client asks for a page, and takes its start. *)
Definition demo_steps : list app_step :=
  [CreateSite (str "a.org"); SetConnectionHandler 0 (Some 7%nat); EnableSite 0;
   HandleEvent (SwitchEvent 5 0 MSG_EVT_READ_READY); StartRound;
   HandleEvent (SwitchEvent 5 4 MSG_EVT_READ_READY); HandleEvent (SwitchEvent 5 4 MSG_EVT_WRITE_READY)].

Definition demo_message : bytes := [10; 0; 0; 7; 0] ++ str "GET a.org/a.html HTTP/1.1" ++ CRLF2.
Definition demo_start : demo_world :=
  (0%nat, [str "OK" ++ [0]; le_bytes 8 (Z.of_nat (length demo_message)) ++ demo_message]).

(** It comes to a state with a property that can be computed. *)
Lemma demo_web_reaches ts (P : app_t → list call → bool) :
  match website_init registry_static with
  | Done g => match demo_run ts (App g ∅ ∅) demo_start [] with Some (s, _, h) => P s h | None => false end
  | Fault _ => false
  end = true →
  ∃ s w h, demo_reachable demo_start s w h ∧ P s h = true.
Proof.
  destruct (website_init registry_static) as [g|] eqn:Eg; [|done].
  destruct (demo_run ts (App g ∅ ∅) demo_start []) as [[[s w] h]|] eqn:E; [|done]. intros HP. exists s, w, h.
  split; [|done]. eapply demo_run_reachable; [|exact E]. by apply app_reach_init.
Qed.

(** ** Properties *)

(** The file has more to read, and the client takes what it is sent. *)
Definition goes_on {W} (ext : call → W → answer * W) (fd : Z) : Prop :=
  (∀ n v, 0 < a_ret (fst (ext (ReadFile fd n) v)) ∧
     (length (a_bytes (fst (ext (ReadFile fd n) v))) <= Z.to_nat FILE_BUFFER)%nat) ∧
  (∀ sfd m data v, a_ret (fst (ext (MsgWrite sfd m data) v)) ≠ -1).

(** C6: the handler of a file never gets a connection that was freed.  Whatever an
    application does with its websites, in whatever order the events come, and whatever its
    functions answer: when a file is watched, the connection that its handler will get is
    there, in its cell of a registered website that is on a switch; it sends this file, behind
    headers that are out.  As long as there is more to read and the client takes it, a call
    of the handler ends without a fault, with a piece written to the message of the
    connection, and leaves the state as it is. *)
Theorem watched_file_alive {W} (ext : call → W → answer * W) (opened : W → Z → Prop)
    (run_callback : nat → conn_ptr → callback_arg → am W unit) dlsym version http_date cookie_date log_date addr
    regex isdir regcomp w0 s w h fd p :
  kernel_ok ext opened → callbacks_ok opened run_callback →
  app_reachable ext run_callback dlsym version http_date cookie_date log_date addr regex isdir regcomp w0 s w h →
  watched h !! fd = Some p →
  ∃ i c k r, snd p = Z.of_nat i ∧ fst p ∈ websites (a_sites s) ∧ has_cell s (fst p) i (Some c) ∧
    fr_fd (fileread_data c) = fd ∧ cd_connection c = Some k ∧ cn_sockfd (wc_conn k) = snd p ∧
    FL_ISSET (cn_status (wc_conn k)) CONN_STATUS_SENT_HEADERS = true ∧
    heap (a_sites s) !! fst p = Some r ∧ w_sockfd r ≠ -1 ∧
    (goes_on ext fd → ∃ w' l data, zimr_file_handler ext run_callback dlsym fd p s w = Done (tt, s, w', l) ∧
       MsgWrite (w_sockfd r) (snd p) data ∈ l).
Proof.
  intros Hk Hc Hr Hw. pose proof (app_reachable_inv _ _ _ _ _ _ _ _ _ _ _ _ Hk Hc _ _ _ _ Hr) as Hi.
  destruct (ai_watch _ _ _ _ Hi _ _ Hw) as (Hfd & i & c & r & Ei & Hcell & Ef & Hrec & Hs). destruct p as [a m].
  cbn [fst snd] in *. subst m. pose proof (has_cell_ok _ _ _ _ _ _ _ Hi Hcell) as Hok.
  destruct (wo_file _ _ Hok ltac:(congruence)) as (k & Hk' & Hout). pose proof (wo_id _ _ Hok k Hk') as Hid.
  exists i, c, k, r. split_and!; try done.
  { apply (ai_data _ _ _ _ Hi). destruct Hcell as (_ & d & Hd & _). by exists d. }
  intros [Hread Hwrite].
  enough (ewp (zimr_file_handler ext run_callback dlsym fd (a, Z.of_nat i)) s w (λ _ s' _ l,
    s' = s ∧ ∃ data, MsgWrite (w_sockfd r) (Z.of_nat i) data ∈ l)) as ([] & s' & w' & l & E & -> & data & Hl)
    by by exists w', l, data.
  unfold zimr_file_handler. apply ewp_bind. eapply ewp_web_conn; [done..|]. rewrite Hid.
  apply ewp_bind. eapply ewp_conn_at; [done|]. apply ewp_bind, ewp_tell, ewp_bind. eapply ewp_conn_fd; [by exists r|].
  apply ewp_bind, ewp_tell, ewp_bind, ewp_ask. cbv zeta. apply ewp_bind.
  eapply (ewp_mono _ _ _ (λ _ s1 _ _, s1 = s)).
  { unfold only_if. destruct (_ <? _); [by apply ewp_tell|by apply ewp_ret]. }
  intros [] s1 w1 l1 ->. apply ewp_bind, ewp_ask. match goal with |- context [ReadFile fd ?n] => destruct (Hread n w1) as [Hpos Hlen] end.
  apply ewp_bind. eapply (ewp_pure _ tt); [by rewrite (proj2 (Nat.leb_le _ _) Hlen)|].
  rewrite (proj2 (Z.leb_gt _ _)) by done. apply ewp_bind, ewp_ask. rewrite (proj2 (Z.eqb_neq _ _)) by apply Hwrite.
  apply ewp_ret. split; [done|]. eexists.
  repeat first [apply elem_of_app; left; by apply list_elem_of_singleton | apply elem_of_app; right].
Qed.

Lemma watched_file_alive_witness :
  ∃ s w h i c k r, demo_reachable demo_start s w h ∧ watched h !! 6 = Some (0%nat, 4) ∧ 4 = Z.of_nat i ∧
    has_cell s 0 i (Some c) ∧ fr_fd (fileread_data c) = 6 ∧ cd_connection c = Some k ∧ w_sockfd r ≠ -1 ∧
    ∃ w' l data, zimr_file_handler demo_web_ext demo_callback no_symbol 6 (0%nat, 4) s w = Done (tt, s, w', l) ∧
      MsgWrite (w_sockfd r) 4 data ∈ l.
Proof.
  destruct (demo_web_reaches demo_steps (λ _ h, bool_decide (watched h !! 6 = Some (0%nat, 4)))) as (s & w & h & Hr & Hp).
  { vm_compute. reflexivity. }
  apply bool_decide_eq_true in Hp.
  destruct (watched_file_alive demo_web_ext demo_opened demo_callback no_symbol (str "1") no_date no_date no_date 0
    (λ _ _, false) false (λ _, true) demo_start s w h 6 (0%nat, 4) demo_kernel_ok
    (answering_ok _ _ _ _ _ _ _ _ _ _ _ _ demo_kernel_ok) Hr Hp)
    as (i & c & k & r & H1 & H2 & H3 & H4 & H5 & H6 & H7 & H8 & H9 & H10).
  exists s, w, h, i, c, k, r. split_and!; try assumption. apply H10. split.
  - intros n [o reads]. split; [reflexivity|]. apply Nat.leb_le. vm_compute. reflexivity.
  - intros sfd m data [o reads]. discriminate.
Defined.

(** C12: what holds in every state that an application comes to.  Each descriptor in use,
    for the switch of a website or for the file of a connection, is open and has one user;
    a website is on a switch exactly while it is being registered or is; its table has a cell
    for each message; and a connection has counted the bytes that have come, and is read by
    [connection_create] only when all of them are there, under the number of its message. *)
Theorem app_state_invariant {W} (ext : call → W → answer * W) (opened : W → Z → Prop)
    (run_callback : nat → conn_ptr → callback_arg → am W unit) dlsym version http_date cookie_date log_date addr
    regex isdir regcomp w0 s w h :
  kernel_ok ext opened → callbacks_ok opened run_callback →
  app_reachable ext run_callback dlsym version http_date cookie_date log_date addr regex isdir regcomp w0 s w h →
  (∀ fd o, fd ≠ -1 → owns s fd o → opened w fd ∧ ∀ o', owns s fd o' → o' = o) ∧
  (∀ a, a ∈ websites (a_sites s) → ∃ r d, heap (a_sites s) !! a = Some r ∧ a_data s !! a = Some d ∧ switched r d ∧
     length (wd_connections d) = FD_SETSIZE) ∧
  (∀ a i c, has_cell s a i (Some c) →
     size_received c = Z.of_nat (length (cd_data c)) mod 2 ^ 64 ∧
     ∀ k, cd_connection c = Some k → cn_sockfd (wc_conn k) = Z.of_nat i ∧ size_received c = cd_size c).
Proof.
  intros Hk Hc Hr. pose proof (app_reachable_inv _ _ _ _ _ _ _ _ _ _ _ _ Hk Hc _ _ _ _ Hr) as Hi. split_and!.
  - intros fd o Hfd Ho. split; [by eapply (ai_open _ _ _ _ Hi)|]. intros o' Ho'. by eapply (ai_owner _ _ _ _ Hi).
  - intros a Ha. destruct (proj1 (ai_data _ _ _ _ Hi a) Ha) as [d Hd]. destruct (app_inv_here _ _ _ _ _ _ Hi Hd) as [r Hra].
    exists r, d. split_and!; try done; [by eapply (ai_switched _ _ _ _ Hi)|by eapply sd_cells, (ai_shape _ _ _ _ Hi)].
  - intros a i c Hcell. destruct (has_cell_ok _ _ _ _ _ _ _ Hi Hcell) as [H1 H2 H3 H4]. split; [done|].
    intros k Hk'. split; [by apply H1|]. apply H4. by exists k.
Qed.

Lemma app_state_invariant_witness :
  ∃ s w h r, demo_reachable demo_start s w h ∧ heap (a_sites s) !! 0%nat = Some r ∧ w_sockfd r = 5 ∧
    demo_opened w 5 ∧ ∀ o, owns s 5 o → o = OwnSwitch 0.
Proof.
  destruct (demo_web_reaches demo_steps (λ s _, match heap (a_sites s) !! 0%nat with Some r => w_sockfd r =? 5 | None => false end))
    as (s & w & h & Hr & Hp).
  { vm_compute. reflexivity. }
  destruct (heap (a_sites s) !! 0%nat) as [r|] eqn:Er; [|discriminate Hp]. apply Z.eqb_eq in Hp.
  destruct (app_state_invariant demo_web_ext demo_opened demo_callback no_symbol (str "1") no_date no_date no_date 0
    (λ _ _, false) false (λ _, true) demo_start s w h demo_kernel_ok
    (answering_ok _ _ _ _ _ _ _ _ _ _ _ _ demo_kernel_ok) Hr) as (H1 & H2 & H3).
  exists s, w, h, r. split_and!; try assumption; eapply (H1 5 (OwnSwitch 0)); try discriminate; by exists r.
Defined.
