(* ===== verification/Handshake.v ===== *)
(** How a website comes to the proxy: lib/zimr.c and zimrd/main.c together.

    The application connects and sends the URL and the address of its website as a
    command; the daemon opens the external socket and answers; the application takes up
    the answer.  What the message switch carries between the two is the text of the
    writes (MsgStream and MsgFrames). *)

From Stdlib Require Import ZArith Lia String.
From stdpp Require Import gmap.
From S2P Require Import FdHash MsgSwitch ProxyInv ProxySites.
From S2P Require Import WebappEnd WebappStream.

Local Open Scope Z_scope.

(** The two records of a website. *)
Definition same_site (v w : website_t) : Prop :=
  w_full_url v = w_full_url w ∧ w_url v = w_url w ∧ w_path v = w_path w ∧ w_ip v = w_ip w.

(** The command for the proxy. *)
Definition start_text (w : website_t) : bytes := w_full_url w ++ [0] ++ w_ip w ++ [0].

Definition reply_ok : bytes := str "OK" ++ [0].
Definition reply_exists : bytes := str "FAIL website already exists" ++ [0].

Lemma full_url_twice w : w_full_url w = website_protocol w ++ w_url w → full_url_of (w_full_url w) = (w_full_url w, w_url w).
Proof.
  unfold website_protocol, full_url_of. intros H. destruct (startswith (w_full_url w) (str "https://")) eqn:E.
  - f_equal. rewrite H. reflexivity.
  - assert (startswith (w_full_url w) (str "http://") = true) as ->.
    { rewrite H. apply startswith_spec. by eexists. }
    f_equal. rewrite H. reflexivity.
Qed.

(** ** The application asks *)

Section app.
Context {W : Type} (ext : call → W → answer * W).
Context (run_callback : nat → conn_ptr → callback_arg → am W unit) (dlsym : nat → bytes → option nat).
Context (a : nat) (r : website_t) (d : website_data_t) (s : app_t) (fd id : Z).

(** The website is in the list, off, without connections; the connection to the proxy
    gets the descriptor [fd], and the command the number [id]. *)
Record asks : Prop := {
  ak_registry : registry_inv (a_sites s);
  ak_initialized : initialized (a_sites s) = true;
  ak_listed : a ∈ websites (a_sites s);
  ak_record : heap (a_sites s) !! a = Some r;
  ak_data : a_data s !! a = Some d;
  ak_status : wd_status d = WS_STATUS_WANT_ENABLE ∨ wd_status d = WS_STATUS_DISABLED;
  ak_cells : wd_connections d = replicate FD_SETSIZE None;
  ak_others : ∀ b v, heap (a_sites s) !! b = Some v → b ≠ a → w_sockfd v ≠ fd;
  ak_fd : fd ≠ -1;
  ak_connect : ∀ w, a_ret (fst (ext (ZsConnect (proxy_ip d) (proxy_port d)) w)) = fd;
  ak_open : ∀ w, a_ret (fst (ext (MsgOpen fd ZM_CMD_WS_START) w)) = id;
  ak_type : ∀ w, a_ret (fst (ext (MsgGetType fd id) w)) = ZM_CMD_WS_START
}.

(** The state with the website on the switch, or off it. *)
Definition on_switch (x st : Z) (tries : Z) : app_t :=
  let r0 := a_sites s in
  App (Registry (initialized r0) (default_website_options r0) (websites r0) (<[a := put_sockfd x r]> (heap r0))
         (next_addr r0)) (<[a := put_conn_tries tries (put_status st d)]> (a_data s)) (a_modules s).

#[local] Notation enable := (zimr_website_enable ext).
#[local] Notation respond := (command_response_handler ext run_callback dlsym).

Lemma data_id v : put_conn_tries (conn_tries d) (put_status v d) = put_status v d.
Proof. by destruct d. Qed.

Lemma enable_wp w :
  asks → ewp (enable a) s w (λ ok s' _ l,
    ok = true ∧ s' = on_switch fd WS_STATUS_ENABLING (conn_tries d) ∧ sent fd id l = start_text r).
Proof.
  intros [_ _ _ Hr Hd Hst _ _ Hfd Hc Ho _]. unfold zimr_website_enable. apply ewp_bind.
  eapply ewp_data_at; [exact Hd|].
  assert (negb (wd_status d =? WS_STATUS_WANT_ENABLE) && negb (wd_status d =? WS_STATUS_DISABLED) = false) as ->
    by (by destruct Hst as [-> | ->]).
  apply ewp_bind. eapply ewp_upd_data; [exact Hd|]. apply ewp_bind, ewp_ask. rewrite Hc. apply ewp_bind.
  unfold put_site. apply ewp_bind. eapply ewp_site_at; [exact Hr|]. apply ewp_bind, ewp_get. cbv zeta. apply ewp_put.
  rewrite (proj2 (Z.eqb_neq _ _) Hfd). apply ewp_bind. eapply ewp_upd_data; [apply lookup_insert_eq|].
  apply ewp_bind, ewp_tell, ewp_bind, ewp_ask. rewrite Ho. apply ewp_bind.
  eapply ewp_site_at; [apply lookup_insert_eq|]. do 4 apply ewp_bind, ewp_tell. apply ewp_ret.
  split; [done|]. split.
  - unfold on_switch. rewrite data_id. cbn [a_sites a_data]. by rewrite insert_insert_eq.
  - unfold sent. cbn [app omap list_omap mjoin list_join]. rewrite !Z.eqb_refl. cbn [andb].
    unfold start_text. cbn [mjoin list_join put_sockfd w_full_url w_ip]. by rewrite app_nil_r, <- !app_assoc.
Qed.

Lemma on_switch_found st tries :
  asks → website_get_by_sockfd (a_sites (on_switch fd st tries)) fd = Done (Some a).
Proof.
  intros [Hreg Hi Ha Hr _ _ _ Hother _ _ _ _]. unfold website_get_by_sockfd. cbn [on_switch a_sites initialized].
  rewrite Hi. cbn [assert mbind res_bind heap websites].
  set (h := <[a := put_sockfd fd r]> (heap (a_sites s))).
  destruct (first_website_found (λ v, fd =? w_sockfd v) h (websites (a_sites s)) a (put_sockfd fd r)) as [b Hb].
  - intros b Hb. apply lookup_insert_is_Some. destruct (decide (a = b)); [by left|right]. split; [done|].
    by apply (ri_live _ Hreg).
  - exact Ha.
  - apply lookup_insert_eq.
  - apply Z.eqb_refl.
  - rewrite Hb. apply first_website_elem in Hb as (_ & v & Hv & Ht). apply Z.eqb_eq in Ht.
    destruct (decide (b = a)) as [->|Hne]; [done|]. unfold h in Hv. rewrite lookup_insert_ne in Hv by done.
    by destruct (Hother b v Hv Hne).
Qed.

(** No connection, nothing to close. *)
Lemma close_none n i (t : app_t) (d' : website_data_t) w :
  (i + n = FD_SETSIZE)%nat → a_data t !! a = Some d' → wd_connections d' = replicate FD_SETSIZE None →
  ewp (close_connections ext run_callback dlsym n (Z.of_nat i) a) t w (λ _ t' _ l, t' = t ∧ l = []).
Proof.
  intros Hn Hd' Hc. revert i w Hn. induction n as [|n IH]; intros i w Hn; cbn [close_connections]; [by apply ewp_ret|].
  apply ewp_bind. eapply ewp_conn_cell.
  - split; [lia|]. exists d'. split; [exact Hd'|]. rewrite Hc. apply lookup_replicate_2. lia.
  - apply ewp_bind, ewp_ret. replace (Z.of_nat i + 1) with (Z.of_nat (S i)) by lia.
    eapply ewp_mono; [apply IH; lia|]. by intros [] t' w' l [-> ->].
Qed.

Lemma respond_ok_wp w :
  asks → ewp (respond fd id reply_ok) (on_switch fd WS_STATUS_ENABLING (conn_tries d)) w (λ _ s' _ _,
    s' = on_switch fd WS_STATUS_ENABLED 0).
Proof.
  intros H. unfold command_response_handler. apply ewp_bind. eapply ewp_site_of; [by apply on_switch_found|].
  apply ewp_bind. eapply ewp_data_at; [apply lookup_insert_eq|]. apply ewp_bind, ewp_ask. rewrite (ak_type H).
  cbn [Z.eqb Pos.eqb ZM_CMD_WS_START]. change (strcmp_eq (cstr reply_ok) (str "OK")) with true. cbv iota.
  apply ewp_bind, ewp_bind. eapply ewp_upd_data; [apply lookup_insert_eq|]. apply ewp_bind, ewp_tell.
  eapply ewp_upd_data; [apply lookup_insert_eq|]. apply ewp_tell. unfold on_switch. cbn [a_sites a_data].
  by rewrite !insert_insert_eq.
Qed.

Lemma respond_exists_wp w :
  asks → ewp (respond fd id reply_exists) (on_switch fd WS_STATUS_ENABLING (conn_tries d)) w (λ _ s' _ _,
    s' = on_switch (-1) WS_STATUS_DISABLED (conn_tries d)).
Proof.
  intros H. unfold command_response_handler. apply ewp_bind. eapply ewp_site_of; [by apply on_switch_found|].
  apply ewp_bind. eapply ewp_data_at; [apply lookup_insert_eq|]. apply ewp_bind, ewp_ask. rewrite (ak_type H).
  cbn [Z.eqb Pos.eqb ZM_CMD_WS_START]. change (strcmp_eq (cstr reply_exists) (str "OK")) with false. cbv iota.
  apply ewp_bind, ewp_bind, ewp_tell. unfold zimr_website_disable. apply ewp_bind.
  eapply ewp_site_at; [apply lookup_insert_eq|]. apply ewp_bind. eapply ewp_data_at; [apply lookup_insert_eq|].
  cbn [put_sockfd w_sockfd]. rewrite (proj2 (Z.eqb_neq _ _) (ak_fd H)). apply ewp_bind, ewp_bind.
  change 0 with (Z.of_nat 0). eapply ewp_mono; [eapply close_none; [lia|apply lookup_insert_eq|apply (ak_cells H)]|].
  intros [] t w1 l [-> ->]. apply ewp_bind. eapply ewp_data_at; [apply lookup_insert_eq|].
  apply ewp_bind. eapply ewp_site_at; [apply lookup_insert_eq|]. cbv zeta.
  cbn [put_conn_tries put_status wd_status]. apply ewp_bind.
  change (WS_STATUS_ENABLING =? WS_STATUS_ENABLED) with false. apply ewp_ret.
  apply ewp_bind, ewp_tell, ewp_bind, ewp_tell. unfold put_site. apply ewp_bind.
  eapply ewp_site_at; [apply lookup_insert_eq|]. apply ewp_bind, ewp_get. cbv zeta. apply ewp_put.
  eapply ewp_upd_data; [apply lookup_insert_eq|]. apply ewp_tell. unfold on_switch. cbn [a_sites a_data heap].
  by rewrite !insert_insert_eq.
Qed.
End app.

(** ** The daemon answers *)

Section daemon.
Context {W : Type} (ext : Proxy.call → W → Proxy.answer * W).
Context (p : proxy_t) (r : website_t) (fd id exl port : Z).

(** The daemon reads the command in one piece, and the external socket opens. *)
Record hears : Prop := {
  hr_inv : proxy_inv p;
  hr_read : ∀ w, fst (ext (Proxy.MsgRead fd id PACK_DATA_SIZE) w) =
                 Proxy.Answer (Z.of_nat (length (start_text r))) (start_text r);
  hr_type : ∀ w, Proxy.a_ret (fst (ext (Proxy.MsgGetType fd id) w)) = ZM_CMD_WS_START;
  hr_port : get_port_from_url (w_full_url r) = Done port;
  hr_open : ∀ w, Proxy.a_ret (fst (ext (Proxy.ZsOpen (w_ip r) port (startswith (w_full_url r) (str "https://"))) w)) = exl;
  hr_exl : exl ≠ -1
}.

(** The registry with the website of the application behind the others. *)
Definition registered : proxy_t :=
  let r0 := sites p in
  let b := next_addr r0 in
  Proxy (connections p)
    (Registry (initialized r0) (default_website_options r0) (websites r0 ++ [b])
       (<[b := Website (w_url r) (w_full_url r) (w_path r) fd (w_ip r) (default_website_options r0)]> (heap r0)) (S b))
    (<[b := exl]> (website_data p)).

Lemma command_text_split : cstring (w_full_url r) → cstring (w_ip r) →
  cstr (start_text r) = w_full_url r ∧
  drop (S (length (w_full_url r))) (start_text r) = w_ip r ++ [0] ∧ cstr (w_ip r ++ [0]) = w_ip r.
Proof.
  intros Hu Hi. unfold start_text. split; [by apply cstr_app|]. split; [|by apply cstr_app].
  rewrite (app_assoc _ [0]). apply drop_app_length'. rewrite length_app. cbn. lia.
Qed.

Lemma daemon_hears_wp w found :
  hears → cstring (w_full_url r) → cstring (w_ip r) → (length (w_ip r) < 16)%nat →
  w_full_url r = website_protocol r ++ w_url r → w_path r = drop (split_path (w_url r)) (w_url r) →
  website_get_by_full_url (sites p) (w_full_url r) (Some (w_ip r)) = Done found →
  ewp (Proxy.msg_event_handler ext fd id MSG_EVT_READ_READY) p w (λ _ p' _ l,
    match found with
    | Some _ => p' = p ∧ written fd id l = reply_exists
    | None => p' = registered ∧ written fd id l = reply_ok
    end).
Proof.
  intros [Hinv Hread Htype Hport Hopen Hexl] Hu Hi Hl Hfull Hpath Hfound.
  destruct (command_text_split Hu Hi) as (E1 & E2 & E3).
  unfold Proxy.msg_event_handler. change (MSG_EVT_READ_READY =? MSG_EVT_ACCEPT_READY) with false.
  rewrite Z.eqb_refl. cbv match. apply ewp_bind, ewp_tell, ewp_bind, ewp_ask. rewrite Hread.
  apply ewp_bind, ewp_ask. rewrite Htype. cbn [Proxy.a_ret Proxy.a_data].
  assert (0 < length (start_text r))%nat as Hpos by (unfold start_text; rewrite !length_app; cbn; lia).
  destruct (Z.leb_spec (Z.of_nat (length (start_text r))) 0); [lia|].
  change (ZM_CMD_WS_START <? 0) with true. cbv match.
  unfold command_handler. apply ewp_bind, ewp_ask. rewrite Htype. change (ZM_CMD_WS_START =? -1) with true. cbv match zeta.
  rewrite E1, E2, E3. apply ewp_bind. eapply ewp_pure.
  { assert ((length (w_full_url r) <? length (start_text r))%nat && (length (w_ip r) <? length (w_ip r ++ [0%Z]))%nat = true)
      as ->; [|done]. apply andb_true_iff. split; apply Nat.ltb_lt; unfold start_text; rewrite !length_app; cbn; lia. }
  apply ewp_bind. unfold start_website. apply ewp_bind, ewp_get, ewp_bind. eapply ewp_pure; [exact Hfound|].
  destruct found as [b|].
  - apply ewp_ret, ewp_bind, ewp_tell, ewp_tell. split; [done|]. cbn [app]. unfold written.
    cbn [omap list_omap mjoin list_join]. rewrite !Z.eqb_refl. cbn [andb mjoin list_join]. by rewrite app_nil_r.
  - apply ewp_bind. eapply ewp_pure; [exact Hport|]. apply ewp_bind, ewp_ask. rewrite Hopen.
    rewrite (proj2 (Z.eqb_neq _ _) Hexl). apply ewp_bind, ewp_get.
    pose proof (website_add_spec (sites p) fd (w_full_url r) (Some (w_ip r)) (pv_sites _ Hinv) (pv_init _ Hinv) Hl) as Hadd.
    rewrite (full_url_twice _ Hfull) in Hadd. destruct Hadd as (Hadd & _). rewrite <- Hpath in Hadd.
    apply ewp_bind. eapply ewp_pure; [exact Hadd|]. apply ewp_bind, ewp_put, ewp_bind, ewp_tell, ewp_ret.
    apply ewp_bind, ewp_tell, ewp_tell. split; [done|]. cbn [app]. unfold written.
    cbn [omap list_omap mjoin list_join]. rewrite !Z.eqb_refl. cbn [andb mjoin list_join]. by rewrite app_nil_r.
Qed.
End daemon.

(** C10: a website that the application switches on is registered with the proxy.  The
    application sends the URL and the address of the website as a command.  If the proxy
    does not know a website with the two, it adds a record that agrees with the one of the
    application in all that requests are matched with, behind the others and on the switch
    of the application, and answers OK, upon which the application has the website
    enabled.  If it does, its state does not change, and upon its answer the application
    leaves the switch and has the website disabled. *)
Theorem website_registers {W V : Type} (ext : call → W → answer * W) run_callback dlsym
  (a : nat) (r : website_t) (d : website_data_t) (s : app_t) (fd id : Z) (w : W)
  (dext : Proxy.call → V → Proxy.answer * V) (p : proxy_t) (dfd did exl port : Z) (v : V) found :
  asks ext a r d s fd id → hears dext p r dfd did exl port → cstring (w_full_url r) → cstring (w_ip r) →
  website_get_by_full_url (sites p) (w_full_url r) (Some (w_ip r)) = Done found →
  ∃ s1 w1 l1 p' v' l2 s2 w2 l3,
    zimr_website_enable ext a s w = Done (true, s1, w1, l1) ∧ sent fd id l1 = start_text r ∧
    Proxy.msg_event_handler dext dfd did MSG_EVT_READ_READY p v = Done (tt, p', v', l2) ∧
    command_response_handler ext run_callback dlsym fd id (written dfd did l2) s1 w1 = Done (tt, s2, w2, l3) ∧
    match found with
    | None =>
        (∃ b x, websites (sites p') = websites (sites p) ++ [b] ∧ heap (sites p') !! b = Some x ∧ same_site x r ∧
           w_sockfd x = dfd ∧ website_data p' !! b = Some exl) ∧
        (∃ e, a_data s2 !! a = Some e ∧ wd_status e = WS_STATUS_ENABLED ∧ conn_tries e = 0)
    | Some _ =>
        p' = p ∧ (∃ x, heap (a_sites s2) !! a = Some x ∧ w_sockfd x = -1) ∧
        (∃ e, a_data s2 !! a = Some e ∧ wd_status e = WS_STATUS_DISABLED)
    end.
Proof.
  intros Ha Hh Hu Hi Hfound.
  destruct (enable_wp ext a r d s fd id w Ha) as (ok & s1 & w1 & l1 & E1 & -> & -> & Ht).
  destruct (ri_record _ (ak_registry _ _ _ _ _ _ _ Ha) a r (ak_record _ _ _ _ _ _ _ Ha)) as (Hfull & Hpath & Hl).
  destruct (daemon_hears_wp dext p r dfd did exl port v found Hh Hu Hi Hl Hfull Hpath Hfound) as ([] & p' & v' & l2 & E2 & H2).
  destruct found as [b|].
  - destruct H2 as [-> Hw].
    destruct (respond_exists_wp ext run_callback dlsym a r d s fd id w1 Ha) as ([] & s2 & w2 & l3 & E3 & ->).
    rewrite <- Hw in E3. eexists _, _, _, _, _, _, _, _, _. split; [exact E1|]. split; [exact Ht|]. split; [exact E2|].
    split; [exact E3|]. split; [done|]. split; (eexists; split; [apply lookup_insert_eq|done]).
  - destruct H2 as [-> Hw].
    destruct (respond_ok_wp ext run_callback dlsym a r d s fd id w1 Ha) as ([] & s2 & w2 & l3 & E3 & ->).
    rewrite <- Hw in E3. eexists _, _, _, _, _, _, _, _, _. split; [exact E1|]. split; [exact Ht|]. split; [exact E2|].
    split; [exact E3|]. split.
    + eexists _, _. split; [reflexivity|]. split; [apply lookup_insert_eq|]. split; [by split_and!|]. split; [done|].
      apply lookup_insert_eq.
    + eexists. split; [apply lookup_insert_eq|]. done.
Qed.

(** ** A sample *)

Definition app_ext (c : call) (w : unit) : answer * unit :=
  (Answer (match c with ZsConnect _ _ => 7 | MsgOpen _ _ => 2 | MsgGetType _ _ => -1 | _ => 0 end) [] false 0 0 [], w).
Definition daemon_ext (c : Proxy.call) (w : unit) : Proxy.answer * unit :=
  (match c with
   | Proxy.MsgRead _ _ _ => Proxy.Answer (Z.of_nat (length (start_text form_website))) (start_text form_website)
   | Proxy.MsgGetType _ _ => Proxy.Answer (-1) []
   | Proxy.ZsOpen _ _ _ => Proxy.Answer 9 []
   | _ => Proxy.Answer 0 []
   end, w).

Definition empty_registry : registry := Registry true WS_OPTION_PARSE_MULTIPARTS [] ∅ 0.

Lemma website_registers_witness :
  ∃ s1 w1 l1 p' v' l2 s2 w2 l3 b x e,
    zimr_website_enable app_ext 0 form_app tt = Done (true, s1, w1, l1) ∧
    Proxy.msg_event_handler daemon_ext 5 3 MSG_EVT_READ_READY (proxy_init empty_registry) tt = Done (tt, p', v', l2) ∧
    command_response_handler app_ext no_callback no_symbol 7 2 (written 5 3 l2) s1 w1 = Done (tt, s2, w2, l3) ∧
    heap (sites p') !! b = Some x ∧ same_site x form_website ∧ w_sockfd x = 5 ∧
    a_data s2 !! 0%nat = Some e ∧ wd_status e = WS_STATUS_ENABLED.
Proof.
  destruct (website_registers app_ext no_callback no_symbol 0 form_website new_website_data form_app 7 2 tt
    daemon_ext (proxy_init empty_registry) 5 3 9 80 tt None)
    as (s1 & w1 & l1 & p' & v' & l2 & s2 & w2 & l3 & E1 & _ & E2 & E3 & (b & x & _ & Hx & Hs & Hfd & _) & (e & He & Hst & _)).
  - split; try reflexivity; try discriminate.
    + split; cbn.
      * apply NoDup_singleton.
      * intros a ->%list_elem_of_singleton. by eexists.
      * intros a [w [<- _]%lookup_singleton_Some]. lia.
      * intros a w [_ <-]%lookup_singleton_Some. split; [reflexivity|]. split; [reflexivity|].
        apply Nat.ltb_lt. reflexivity.
    + by left.
    + by right.
    + cbn. intros b v [<- _]%lookup_singleton_Some Hb. by destruct Hb.
  - split; try reflexivity; try discriminate. apply proxy_init_inv. reflexivity.
  - apply (bool_decide_unpack _). vm_compute. exact I.
  - apply (bool_decide_unpack _). vm_compute. exact I.
  - reflexivity.
  - exists s1, w1, l1, p', v', l2, s2, w2, l3, b, x, e.
    exact (conj E1 (conj E2 (conj E3 (conj Hx (conj Hs (conj Hfd (conj He Hst))))))).
Defined.
