(* ===== verification/Response.v ===== *)
(** The way of an answer: lib/zimr.c, zimrd/main.c, the client.

    The application sends a page with its status and its headers; the message is cut anew
    by the switches; the daemon writes to the client what it reads, and closes the
    connection at the end of the message. *)

From Stdlib Require Import ZArith Lia String.
From stdpp Require Import gmap.
From S2P Require Import FdHash MsgSwitch ProxySites.
From S2P Require Import WebappStream WebappAuth.

Local Open Scope Z_scope.

(** ** What the application sends *)

(** Other headers do not change the value of Content-Length. *)
Definition content_length_name : bytes := str "Content-Length".

Lemma set_other_header hs name value hs' i :
  headers_set_header hs name value = Done (hs', i) → strtolower content_length_name ≠ strtolower name →
  is_Some (header_value hs content_length_name) →
  header_value hs' content_length_name = header_value hs content_length_name.
Proof.
  intros H Hne Hs. destruct (decide (canonical name = set_cookie_name)) as [Hc|Hc].
  - apply headers_set_cookie_appends in H as (-> & _ & _); [|done]. unfold header_value in *.
    destruct (find_name hs _ 0) as [k|] eqn:E; [|by destruct Hs].
    rewrite (find_name_app_l _ _ _ _ E). apply find_name_Some in E as [(h & Hh & _) _].
    cbn [mbind option_bind]. by rewrite Hh, (lookup_app_l_Some _ _ _ _ Hh).
  - by apply (headers_set_get hs hs' name value i H Hc).
Qed.

Section app.
Context {W : Type} (fd : Z) (a i : nat) (ms : list module_website_data_t) (mods : gmap nat module_t).
#[local] Notation p := (a, Z.of_nat i).
#[local] Notation answering := (answering fd a i ms mods).
Implicit Types (s : app_t) (w : W) (k : web_conn_t).

(** The connection, with the length that was announced. *)
Definition announces k (len : bytes) : Prop :=
  header_value (rs_headers (wc_response k)) content_length_name = Some len.

Lemma set_header_keeps s k name value len w (Q : unit → app_t → W → list call → Prop) :
  answering s k → announces k len → strtolower content_length_name ≠ strtolower name →
  (∀ s' k', answering s' k' → announces k' len → Q tt s' w []) → after (set_header p name value) s w Q.
Proof.
  intros H Hl Hne HQ. unfold set_header. apply after_bind, after_ewp. eapply answering_web_conn; [exact H|].
  apply after_bind, after_pure. intros [hs j] E. apply after_ewp.
  eapply answering_upd; [exact H|apply H|]. intros s' H'. eapply HQ; [exact H'|].
  unfold announces. cbn [put_headers wc_response rs_headers]. by rewrite (set_other_header _ _ _ _ _ E Hne) by (by eexists).
Qed.

Lemma set_length s k value w (Q : unit → app_t → W → list call → Prop) :
  answering s k →
  (∀ s' k', answering s' k' → announces k' value → same_request k k' →
     http_status (wc_response k') = http_status (wc_response k) → Q tt s' w []) →
  after (set_header p content_length_name value) s w Q.
Proof.
  intros H HQ. unfold set_header. apply after_bind, after_ewp. eapply answering_web_conn; [exact H|].
  apply after_bind, after_pure. intros [hs j] E. apply after_ewp.
  eapply answering_upd; [exact H|apply H|]. intros s' H'. eapply HQ; [exact H'| |done|done].
  assert (canonical content_length_name ≠ set_cookie_name) as Hc by (vm_compute; discriminate).
  by apply (headers_set_get _ _ _ _ _ E Hc).
Qed.

Lemma sent_one data l : sent fd (Z.of_nat i) (MsgWrite fd (Z.of_nat i) data :: l) = data ++ sent fd (Z.of_nat i) l.
Proof. unfold sent. cbn. by rewrite !Z.eqb_refl. Qed.

Context (ext : call → W → answer * W).
Context (run_callback : nat → conn_ptr → callback_arg → am W unit).
Context (dlsym : nat → bytes → option nat).
Context (ZIMR_VERSION : bytes) (http_date cookie_date log_date : Z → bytes) (max_age_addr : Z).

(** The text of the headers goes out, with that length in it. *)
Lemma send_headers_text s k len w (Q : unit → app_t → W → list call → Prop) :
  answering s k → announces k len →
  (∀ s' w' k' l hs text, answering s' k' → headers_to_string 1024 hs = Done text →
     header_value hs content_length_name = Some len → sent fd (Z.of_nat i) l = text → Q tt s' w' l) →
  after (zimr_connection_send_headers ext ZIMR_VERSION http_date cookie_date log_date max_age_addr p) s w Q.
Proof.
  intros H Hl HQ. unfold zimr_connection_send_headers.
  apply after_bind, after_ask. intros now w1.
  apply after_bind. eapply set_header_keeps; [exact H|exact Hl|vm_compute; discriminate|]. intros s1 k1 H1 Hl1.
  apply after_bind. eapply set_header_keeps; [exact H1|exact Hl1|vm_compute; discriminate|]. intros s2 k2 H2 Hl2.
  apply after_bind, after_ewp. eapply answering_web_conn; [exact H2|].
  apply after_bind, after_pure. intros cookies _. apply after_bind.
  apply (after_mono _ _ _ (λ _ s3 w3 l, l = [] ∧ ∃ k3, answering s3 k3 ∧ announces k3 len)).
  { destruct (negb _).
    - cbn [only_if]. eapply set_header_keeps; [exact H2|exact Hl2|vm_compute; discriminate|]. intros s3 k3 H3 Hl3.
      split; [done|]. by exists k3.
    - apply after_ret. split; [done|]. by exists k2. }
  intros _ s3 w3 l3 (-> & k3 & H3 & Hl3).
  apply after_bind, after_ewp. eapply answering_web_conn; [exact H3|].
  apply after_bind, after_pure. intros text Htext.
  apply after_bind. eapply answering_write; [exact H3|]. intros w4. apply after_bind.
  apply (after_mono _ _ _ (λ _ s' _ l, s' = s3 ∧ sent fd (Z.of_nat i) l = [])).
  { unfold zimr_log_request. apply after_bind, after_ask. intros now' w5.
    apply after_bind, after_ewp. eapply answering_web_conn; [exact H3|].
    apply after_bind. unfold site_at. apply after_bind, after_ewp, ewp_get. cbn [fst]. apply after_pure. intros r _.
    cbv zeta. do 3 (apply after_bind, after_pure; intros ? _). by apply after_tell. }
  intros _ ? w5 l5 [-> Hl5]. apply after_ewp. eapply answering_upd; [exact H3|apply H3|].
  intros s' H'. eapply HQ; [exact H'|exact Htext|exact Hl3|]. cbn [app]. rewrite app_nil_r.
  change (Time :: ?x) with ([Time] ++ x). rewrite sent_app. change (sent fd (Z.of_nat i) [Time]) with (@nil Z).
  by rewrite sent_one, Hl5, app_nil_r.
Qed.

Hypothesis Hclosed : Forall (lacks dlsym mods (str "modzimr_connection_closed")) ms.

(** The end of a connection writes nothing. *)
Lemma cleanup_silent s k w :
  answering s k → after (cleanup_connection ext run_callback dlsym fd (Z.of_nat i)) s w (λ _ s' _ l,
    ended fd a i s' ∧ sent fd (Z.of_nat i) l = []).
Proof.
  intros H. unfold cleanup_connection. apply after_bind, after_ewp. eapply ewp_site_of; [apply H|].
  pose proof H as [_ _ (d & Hd & _) (c & Hc & Hk & Ho) Hi _].
  apply after_bind, after_ewp. eapply ewp_data_at; [exact Hd|]. apply after_bind, after_tell. intros w1.
  apply after_bind, (after_mono _ _ _ (λ _ s' _ l, answering s' k ∧ sent fd (Z.of_nat i) l = [])).
  { unfold cleanup_fileread. apply after_bind, after_ewp. eapply ewp_conn_at; [exact Hc|]. cbv zeta.
    destruct (_ =? -1); [by apply after_ret|]. apply after_bind, after_tell. intros w2.
    apply after_bind, after_tell. intros w3. apply after_ewp. eapply ewp_upd_conn; [exact Hc|].
    split; [by eapply answering_with|done]. }
  intros _ s1 w2 l1 [H1 Hl1]. pose proof H1 as [Hs1 Hr1 (d1 & Hd1 & _ & Hm1) (c1 & Hc1 & Hk1 & Ho1) _ Hmods1].
  apply after_bind, after_ewp. eapply ewp_data_at; [exact Hd1|]. rewrite Hm1. apply after_bind, after_ewp.
  eexists _, _, _, _. split; [by eapply call_modules_none|].
  apply after_bind, after_ewp. eapply ewp_conn_at; [exact Hc1|]. rewrite Ho1. apply after_bind, after_ret.
  apply after_bind, after_ewp. eapply ewp_conn_at; [exact Hc1|]. apply after_ewp.
  eapply ewp_put_conn; [exact Hc1|]. split.
  - split; [exact Hs1|]. split; [exact Hr1|]. by eapply with_web_conn_has.
  - cbn [app]. rewrite !app_nil_r. exact Hl1.
Qed.

(** The bytes of an answer: the status line, the headers with the length of the page, and
    the page. *)
Definition answer_text (version message text : bytes) (status : Z) : Prop :=
  ∃ line hs head, response_status status = Done (Some line) ∧ headers_to_string 1024 hs = Done head ∧
    header_value hs content_length_name = Some (dec_string (Z.of_nat (length message))) ∧
    text = status_line version line ++ head ++ message.

Lemma connection_send_text s k message line w :
  answering s k → response_status (http_status (wc_response k)) = Done (Some line) →
  after (zimr_connection_send ext run_callback dlsym ZIMR_VERSION http_date cookie_date log_date max_age_addr p message)
    s w (λ _ s' _ l, ended fd a i s' ∧
      answer_text (cn_http_version (wc_conn k)) message (sent fd (Z.of_nat i) l) (http_status (wc_response k))).
Proof.
  intros H Hst. unfold zimr_connection_send. unfold has_header. apply after_bind, after_bind, after_ewp.
  eapply answering_web_conn; [exact H|]. apply after_bind, after_pure. intros o _. apply after_ret. apply after_bind.
  apply (after_mono _ _ _ (λ _ s1 _ l, l = [] ∧ ∃ k1, answering s1 k1 ∧ same_request k k1 ∧
    http_status (wc_response k1) = http_status (wc_response k))).
  { destruct (negb _); cbn [only_if].
    - eapply answering_set_header; [exact H|]. intros s1 k1 H1 E1 E2. split; [done|]. by exists k1.
    - apply after_ret. split; [done|]. by exists k. }
  intros _ s1 w1 l1 (-> & k1 & H1 & E1 & S1). apply after_bind, after_pure. intros sizebuf Hsize.
  unfold strcpy_into in Hsize. destruct (_ <? _)%nat; [|done]. injection Hsize as <-.
  apply after_bind. eapply set_length; [exact H1|]. intros s2 k2 H2 Hl2 E2 S2.
  apply after_bind. unfold zimr_connection_send_status. apply after_bind, after_ewp.
  eapply answering_web_conn; [exact H2|]. rewrite S2, S1, Hst.
  apply after_bind, after_pure. intros ? [= <-]. apply after_bind, after_pure. intros ? [= <-].
  apply after_bind, after_pure. intros text Ht. unfold strcpy_into in Ht. destruct (_ <? _)%nat; [|done].
  injection Ht as <-. apply after_bind. eapply answering_write; [exact H2|]. intros w3. apply after_ewp.
  eapply answering_upd; [exact H2|apply H2|]. intros s3 H3.
  apply after_bind. eapply send_headers_text; [exact H3|exact Hl2|]. intros s4 w4 k4 l4 hs text H4 Hhs Hcl Hl4.
  apply after_bind. eapply answering_write; [exact H4|]. intros w5.
  unfold end_connection. apply after_bind, after_ewp. eapply answering_fd; [exact H4|].
  apply after_bind, after_ewp. eapply answering_web_conn; [exact H4|]. rewrite (an_id _ _ _ _ _ _ _ H4).
  eapply after_mono; [by eapply cleanup_silent|]. intros _ s6 w6 l6 [H6 Hl6]. split; [exact H6|].
  exists line, hs, text. split; [exact Hst|]. split; [exact Hhs|]. split; [exact Hcl|]. cbn [app].
  rewrite ?app_nil_r, sent_one, sent_app, Hl4, sent_one, Hl6, app_nil_r. unfold status_line.
  destruct E2 as (_ & _ & ->). destruct E1 as (_ & _ & ->). reflexivity.
Qed.
End app.

(** ** What the daemon hands on *)

Section proxy.
Context (ans : Proxy.call → Proxy.answer) (sockfd dfd did : Z).

(** What the daemon reads of the message, read by read; then the message is at its end. *)
Definition app_reads (c : Proxy.call) (pieces : list bytes) : Proxy.answer * list bytes :=
  match c with
  | Proxy.MsgRead _ _ _ =>
      match pieces with
      | data :: pieces => (Proxy.Answer (Z.of_nat (length data)) data, pieces)
      | [] => (Proxy.Answer 0 [], [])
      end
  | _ => (ans c, pieces)
  end.

(** The bytes that go to the client. *)
Definition to_client (l : list Proxy.call) : bytes :=
  mjoin (omap (λ c, match c with
                    | Proxy.ZsWrite f data => if f =? sockfd then Some data else None
                    | _ => None
                    end) l).

Lemma to_client_app l l' : to_client (l ++ l') = to_client l ++ to_client l'.
Proof. unfold to_client. by rewrite omap_app, join_app. Qed.

(** A read of the message, and the socket is ready for more, [n] times; then the read that
    finds the end. *)
Fixpoint deliver (n : nat) : Proxy.pm (list bytes) unit :=
  match n with
  | O => Proxy.msg_event_handler app_reads dfd did MSG_EVT_READ_READY
  | S n =>
      _ ← Proxy.msg_event_handler app_reads dfd did MSG_EVT_READ_READY;
      _ ← exsock_event_hdlr app_reads sockfd Zsocket.ZS_EVT_WRITE_READY;
      deliver n
  end.

(** The message is the answer to the client on [sockfd], who takes what it is sent. *)
Record delivers : Prop := {
  dl_type : Proxy.a_ret (ans (Proxy.MsgGetType dfd did)) = sockfd;
  dl_client : 0 <= sockfd;
  dl_write : ∀ data, Proxy.a_ret (ans (Proxy.ZsWrite sockfd data)) ≠ -1
}.

Lemma deliver_piece data pieces p :
  delivers → data ≠ [] →
  ewp (Proxy.msg_event_handler app_reads dfd did MSG_EVT_READ_READY) p (data :: pieces) (λ _ p' w' l,
    p' = p ∧ w' = pieces ∧ to_client l = data).
Proof.
  intros [Ht Hs Hw] Hd. unfold Proxy.msg_event_handler. change (MSG_EVT_READ_READY =? MSG_EVT_ACCEPT_READY) with false.
  rewrite Z.eqb_refl. cbv match. apply ewp_bind, ewp_tell, ewp_bind, ewp_ask, ewp_bind, ewp_ask.
  cbn [app_reads fst snd Proxy.a_ret Proxy.a_data]. rewrite Ht.
  assert (0 < length data)%nat by (destruct data; [done|cbn; lia]).
  destruct (Z.leb_spec (Z.of_nat (length data)) 0); [lia|]. rewrite (proj2 (Z.ltb_ge _ _) Hs).
  apply ewp_bind, ewp_ask, ewp_bind, ewp_tell, ewp_bind, ewp_ask, ewp_bind, ewp_ask.
  cbn [app_reads fst snd]. rewrite Ht, (proj2 (Z.eqb_neq _ _) (Hw data)). apply ewp_ret.
  split; [done|]. split; [done|]. cbn [app]. unfold to_client. cbn. rewrite Z.eqb_refl. cbn. by rewrite app_nil_r.
Qed.

(** The socket of the client is ready for more: so is the message. *)
Lemma deliver_ready pieces p c :
  has_conn p sockfd c →
  ewp (exsock_event_hdlr app_reads sockfd Zsocket.ZS_EVT_WRITE_READY) p pieces (λ _ p' w' l,
    p' = p ∧ w' = pieces ∧ to_client l = []).
Proof.
  intros Hc. unfold exsock_event_hdlr. change (Zsocket.ZS_EVT_WRITE_READY =? _) with false at 1.
  change (Zsocket.ZS_EVT_WRITE_READY =? Zsocket.ZS_EVT_READ_READY) with false. rewrite Z.eqb_refl. cbv match.
  apply ewp_bind, ewp_tell, ewp_bind. eapply pwp_conn_at; [exact Hc|]. by apply ewp_tell.
Qed.

(** The end of the message closes the connection. *)
Lemma deliver_end p c :
  delivers → has_conn p sockfd c →
  ewp (Proxy.msg_event_handler app_reads dfd did MSG_EVT_READ_READY) p [] (λ _ p' w' l,
    p' = ProxyForward.with_conn p sockfd None ∧ w' = [] ∧ to_client l = [] ∧ Proxy.ZsClose sockfd ∈ l).
Proof.
  intros [Ht Hs Hw] Hc. unfold Proxy.msg_event_handler. change (MSG_EVT_READ_READY =? MSG_EVT_ACCEPT_READY) with false.
  rewrite Z.eqb_refl. cbv match. apply ewp_bind, ewp_tell, ewp_bind, ewp_ask, ewp_bind, ewp_ask.
  cbn [app_reads fst snd Proxy.a_ret Proxy.a_data]. rewrite Ht. cbn [Z.leb Z.compare].
  unfold Proxy.cleanup_connection. apply ewp_bind. eapply pwp_conn_at; [exact Hc|]. apply ewp_bind.
  eapply (ewp_mono _ _ _ (λ _ p1 w1 l, p1 = p ∧ w1 = [] ∧ to_client l = [])).
  { destruct (_ =? _); [by apply ewp_ret|]. apply ewp_bind, ewp_ask. unfold only_if. cbn [app_reads fst snd].
    destruct (negb _); [by apply ewp_tell | by apply ewp_ret]. }
  intros _ p1 w1 l1 (-> & -> & Hl). apply ewp_bind, ewp_tell. eapply pwp_put_conn; [exact Hc|].
  split; [done|]. split; [done|]. split; [|set_solver]. by rewrite !to_client_app, Hl.
Qed.

Lemma deliver_all pieces p c :
  delivers → has_conn p sockfd c → Forall (λ d, d ≠ []) pieces →
  ewp (deliver (length pieces)) p pieces (λ _ p' w' l,
    p' = ProxyForward.with_conn p sockfd None ∧ w' = [] ∧ to_client l = concat pieces ∧ Proxy.ZsClose sockfd ∈ l).
Proof.
  intros Hd Hc. revert p c Hc. induction pieces as [|data pieces IH]; intros p c Hc Hp.
  { by eapply deliver_end. }
  apply Forall_cons in Hp as [Hne Hp]. cbn [length deliver]. apply ewp_bind.
  eapply ewp_mono; [by apply deliver_piece|]. intros _ p1 w1 l1 (-> & -> & H1). apply ewp_bind.
  eapply ewp_mono; [by eapply deliver_ready|]. intros _ p2 w2 l2 (-> & -> & H2).
  eapply ewp_mono; [by eapply IH|]. intros _ p3 w3 l3 (-> & -> & H3 & H4).
  split; [done|]. split; [done|]. cbn [concat]. rewrite !to_client_app, H1, H2, H3. split; [done|].
  rewrite !elem_of_app. by right; right.
Qed.
End proxy.

(** ** From the page to the client *)

(** C8: every answer that zimr_connection_send ends with reaches the client as a whole.  When
    the library returns, what it wrote is the status line, the headers, which announce the
    length of the page, and the page, and its connection is gone.  However the switches cut
    these bytes into reads of the daemon, the daemon handles all of them, the client is sent
    the same bytes in the same order, and then its connection is closed. *)
Theorem answer_end_to_end {W : Type} (fd : Z) (a i : nat) (ms : list module_website_data_t)
    (mods : gmap nat module_t) (ext : call → W → answer * W) (run_callback : nat → conn_ptr → callback_arg → am W unit)
    (dlsym : nat → bytes → option nat) (version : bytes) (http_date cookie_date log_date : Z → bytes)
    (max_age_addr : Z) (s : app_t) (k : web_conn_t) (message status : bytes) (w : W) s' w' l
    (ans : Proxy.call → Proxy.answer) (sockfd dfd did : Z) (p : proxy_t) (c : Proxy.conn_data_t) (pieces : list bytes) :
  Forall (lacks dlsym mods (str "modzimr_connection_closed")) ms →
  answering fd a i ms mods s k → response_status (http_status (wc_response k)) = Done (Some status) →
  zimr_connection_send ext run_callback dlsym version http_date cookie_date log_date max_age_addr (a, Z.of_nat i) message
    s w = Done (tt, s', w', l) →
  Forall (λ d, d ≠ []) pieces → concat pieces = sent fd (Z.of_nat i) l →
  delivers ans sockfd dfd did → has_conn p sockfd c →
  ended fd a i s' ∧
  ∃ p' l', deliver ans sockfd dfd did (length pieces) p pieces = Done (tt, p', [], l') ∧
    answer_text (cn_http_version (wc_conn k)) message (to_client sockfd l') (http_status (wc_response k)) ∧
    p' = ProxyForward.with_conn p sockfd None ∧ Proxy.ZsClose sockfd ∈ l'.
Proof.
  intros Hms Ha Hst E Hp Hcut Hd Hc.
  destruct (connection_send_text fd a i ms mods ext run_callback dlsym version http_date cookie_date log_date max_age_addr
    Hms s k message status w Ha Hst _ _ _ _ E) as [He Ht].
  split; [exact He|].
  destruct (deliver_all ans sockfd dfd did pieces p c Hd Hc Hp) as ([] & p' & w2 & l' & E' & Hp' & -> & Hl' & Hcl).
  exists p', l'. rewrite Hl', Hcut. by split_and!.
Qed.

(** ** A sample answer *)

Definition answer_conn : option connection_t :=
  match connection_create form_website 4 page_text (Z.of_nat (length page_text)) with Done o => o | Fault _ => None end.

Definition answer_web_conn : option web_conn_t := (λ k, WebConn k (Response 200 []) false) <$> answer_conn.
Definition answer_cell : conn_data_t :=
  ConnData (Z.of_nat (length page_text)) (Z.of_nat (length page_text)) page_text answer_web_conn None (FileRead (-1) 0 0).
Definition answer_app : app_t := with_conn guarded_app 0 4 (Some answer_cell).

Definition answer_ext (c : call) (w : unit) : answer * unit := (Answer 0 [] false 0 0 [], w).
Definition answer_none (f : nat) (p : conn_ptr) (arg : callback_arg) : am unit unit := mret tt.
Definition answer_run : res (unit * app_t * unit * list call) :=
  zimr_connection_send answer_ext answer_none (λ _ _, None) (str "1") no_date no_date no_date 0 (0%nat, 4)
    (str "hello") answer_app tt.

Definition answer_calls : list call := match answer_run with Done (_, _, _, l) => l | Fault _ => [] end.
Definition answer_sent : bytes := sent (w_sockfd form_website) 4 answer_calls.

Definition client_ans (c : Proxy.call) : Proxy.answer :=
  match c with Proxy.MsgGetType _ _ => Proxy.Answer 9 [] | _ => Proxy.Answer 0 [] end.

Lemma answer_end_to_end_witness :
  ∃ s' w' l k p' l', answer_run = Done (tt, s', w', l) ∧ answer_web_conn = Some k ∧
    deliver client_ans 9 5 4 2 sample_proxy [take 20 answer_sent; drop 20 answer_sent] = Done (tt, p', [], l') ∧
    answer_text (cn_http_version (wc_conn k)) (str "hello") (to_client 9 l') 200 ∧ Proxy.ZsClose 9 ∈ l'.
Proof.
  assert (match answer_run with Done _ => true | Fault _ => false end = true) as H by (vm_compute; reflexivity).
  assert (match answer_web_conn with
          | Some k => bool_decide (response_status (http_status (wc_response k)) = Done (Some (str "200 OK")) ∧
                                   http_status (wc_response k) = 200 ∧ cn_sockfd (wc_conn k) = 4)
          | None => false
          end = true) as Hk by (vm_compute; reflexivity).
  destruct answer_run as [[[[[] s'] w'] l]|] eqn:E; [|discriminate H].
  destruct answer_web_conn as [k|] eqn:Ek; [|discriminate Hk]. apply bool_decide_eq_true_1 in Hk as (Hk & H2 & H4).
  assert (answer_calls = l) as El by (unfold answer_calls; rewrite E; reflexivity).
  destruct (answer_end_to_end (w_sockfd form_website) 0 4 [ModuleData 0 []] {[0%nat := Module (str "auth") 3]} answer_ext answer_none
    (λ _ _, None) (str "1") no_date no_date no_date 0 answer_app k (str "hello") (str "200 OK") tt s' w' l
    client_ans 9 5 4 sample_proxy sample_conn [take 20 answer_sent; drop 20 answer_sent])
    as (_ & p' & l' & E' & Ht & _ & Hc).
  - constructor; [|constructor]. exists (Module (str "auth") 3). split; reflexivity.
  - split.
    + reflexivity.
    + exists form_website. split; reflexivity.
    + eexists. split; [reflexivity|]. split; reflexivity.
    + exists answer_cell. split; [|split; [exact Ek|reflexivity]].
      apply with_web_conn_has with (o := Some guard_data).
      apply with_web_conn_has with (o := None). split; [apply Nat.ltb_lt; vm_compute; reflexivity|].
      exists guarded_data. split; reflexivity.
    + exact H4.
    + reflexivity.
  - exact Hk.
  - exact E.
  - repeat constructor; vm_compute; discriminate.
  - cbn [concat]. rewrite app_nil_r, take_drop. unfold answer_sent. rewrite El. reflexivity.
  - split; [reflexivity|discriminate|discriminate].
  - exists 9%nat. split; reflexivity.
  - rewrite H2 in Ht. exists s', w', l, k, p', l'. exact (conj eq_refl (conj eq_refl (conj E' (conj Ht Hc)))).
Defined.
